(* ===== verification/_CoqProject ===== *)
-Q . S2P
Prelude.v
KvCells.v
Kvarn.v
TailPlan.v
TailStore.v
TailStoreWf.v
TailInvariant.v
TailProps.v
TailQueries.v
Batch.v
BatchInit.v
BatchSplit.v
BatchProps.v
KvCache.v
KvSlots.v
KvWf.v
KvInv.v
KvDemo.v
KvSeqProps.v
KvApply.v
KvFind.v
KvPrepare.v
KvWindow.v
KvMask.v
KvMaskProps.v
KvRows.v
KvContext.v
KvDecode.v
KvDecodeProps.v
TailRequest.v
Recurrent.v
RecurrentWf.v
RecurrentOps.v
RecurrentFind.v
RecurrentTake.v
RecurrentSlot.v
RecurrentDone.v
RecurrentDemo.v
RecurrentProps.v
StateIo.v
StateIoProps.v
RecurrentState.v
RecurrentSave.v
RecurrentLoad.v
RecurrentRestore.v
RecurrentSeqState.v
RecurrentRefuse.v
RecurrentStateProps.v
KvState.v
KvStateRows.v
KvStateSeq.v
KvStateProps.v
Memory.v
Composite.v
CompositeDecode.v
CompositeLaws.v
CompositeProps.v
Unicode.v
Grammar.v
GrammarState.v
GrammarUtf8.v
GrammarLang.v
GrammarAdvance.v
GrammarLoop.v
GrammarTerm.v
GrammarDetect.v
GrammarAccept.v
GrammarReject.v
GrammarToken.v
GrammarApply.v
GrammarProps.v
GrammarFragments.v
GrammarParser.v
GrammarParserRun.v
GrammarParserIds.v
GrammarParserWf.v
GrammarParserLoop.v
GrammarRepeat.v
GrammarRepetitions.v
GrammarParserProps.v
