(* ===== verification/Prelude.v ===== *)
(** * KV-cache metadata of beellama-kvarn: root and prelude

    beellama-kvarn is a fork of llama.cpp.  Its own logic is the bookkeeping of the
    key-value cache: which cell of which stream holds which position of which sequences,
    which rows also live in an exact-precision tail, how a batch is cut into ubatches and
    where its tokens go.  This library models that bookkeeping and proves it correct.  The
    bookkeeping of recurrent models, the state files of both and the grammars that constrain
    what is generated are modelled too.  The tensors (but for their bytes in state
    files) and kernels are outside.

    ** Parts

    - Cells of a stream: KvCells.v for src/src/llama-kv-cells.h (class llama_kv_cells).  A
      record with the vectors and the indices the class keeps; one definition per method.
    - KVarN format and policies: Kvarn.v for src/src/llama-kvarn.{h,cpp}: presets, record
      layouts, bit packing, read plans, state staging, removal planning.
    - Tail plans: TailPlan.v for the free functions of src/src/llama-kv-cache-tail.{h,cpp}.
    - Tail requests: TailRequest.v for src/src/llama-kv-tail-request.{h,cpp}: the textual
      request, its parser and its resolution against the groups of a model.
    - Tail store: TailStore.v for class llama_kv_tail_store (which cells have an exact copy
      in which slot), TailStoreWf.v, TailInvariant.v, TailProps.v and TailQueries.v for
      its invariant and theorems.
    - Batches: Batch.v for class llama_batch_allocr (src/src/llama-batch.cpp), with
      BatchInit.v (what init accepts), BatchSplit.v and BatchProps.v (the splits).
    - The cache: KvCache.v (state, sequence operations, allocation heads, pending copies)
      and KvSlots.v (find_slot, apply_ubatch, prepare, get_n_kv) for
      src/src/llama-kv-cache.cpp.  KvWf.v holds the logic used for its stateful code and
      the content of a stream as a finite map; KvInv.v the invariant kv_wf; KvDemo.v a
      small cache for the instances; KvSeqProps.v, KvApply.v, KvFind.v, KvPrepare.v and
      KvWindow.v the theorems.
    - Attention inputs: KvMask.v (set_input_kq_mask, set_input_k_idxs, set_input_v_idxs,
      set_input_k_shift), KvMaskProps.v and KvRows.v.
    - Memory contexts and decoding: KvContext.v (llama_kv_cache_context, update, the loop
      of llama_context::decode), KvDecode.v and KvDecodeProps.v.
    - Recurrent memory: Recurrent.v for src/src/llama-memory-recurrent.{h,cpp} (cells with
      tails, rollback indices, find_slot, prepare, contexts) and the graph input s_copy and
      build_rs of src/src/llama-graph.cpp.  RecurrentWf.v: the invariant rec_wf and what a
      sequence holds (view); RecurrentOps.v the sequence operations; RecurrentFind.v,
      RecurrentTake.v, RecurrentSlot.v and RecurrentDone.v find_slot phase by phase;
      RecurrentDemo.v a small memory and observations; RecurrentProps.v the properties.
    - State input and output: StateIo.v for the writers and readers of
      src/src/llama-context.cpp and the sequence states of a context, over the class
      MemoryState; StateIoProps.v its lemmas.
    - State files of the recurrent memory: RecurrentState.v (state_write, state_read),
      RecurrentSave.v (what is written), RecurrentLoad.v and RecurrentRestore.v (reading a
      whole memory), RecurrentSeqState.v (one sequence, and moving it),
      RecurrentRefuse.v (what a refused read leaves alone), RecurrentStateProps.v.
    - State files of the KV cache: KvState.v (state_write, state_read and the body of a state
      in src/src/llama-kv-cache.cpp); KvStateRows.v (the rows of the layers, as lanes of the
      tensors), KvStateSeq.v (the cells of one sequence), KvStateProps.v (reading, and the
      properties).  Framed states, of caches with an exact tail, are arguments.
    - Composite memories: Memory.v for the interface of src/src/llama-memory.h as the class
      Memory with the key-value cache and the recurrent memory as instances, the planning of
      removals over children and the decoding loop over any memory; Composite.v for
      src/src/llama-kv-cache-iswa.cpp and src/src/llama-memory-hybrid.cpp over any parts;
      CompositeDecode.v (contexts that are ready) and CompositeLaws.v (the contract of
      removal, class Removable) carry properties of the parts over to composites;
      CompositeProps.v.
    - Text: Unicode.v for UTF-8 in src/src/unicode.cpp.
    - Grammars: Grammar.v (elements, stacks, advancing, accepting, rejecting) and
      GrammarState.v (decoding, left recursion, construction, triggers, tokens) for
      src/src/llama-grammar.{h,cpp}.  GrammarLang.v: what rules and stacks derive.
      GrammarAdvance.v, GrammarLoop.v and GrammarTerm.v: advancing keeps the language and
      ends; GrammarDetect.v the check for left recursion; GrammarAccept.v, GrammarReject.v,
      GrammarToken.v and GrammarApply.v accepting, rejecting, tokens and candidates;
      GrammarUtf8.v decoding in pieces; GrammarProps.v the properties.
      GrammarParser.v: the notation of grammars (class llama_grammar_parser, construction
      from a text).  GrammarFragments.v: pieces of rules; GrammarParserRun.v, GrammarParserIds.v,
      GrammarParserWf.v and GrammarParserLoop.v: it answers, with well-formed rules, unless
      bounds are in the wrong order; GrammarRepeat.v and GrammarRepetitions.v: what
      repetitions derive; GrammarParserProps.v the properties.

    A batch goes through them in this order: Batch.init checks it, split_ubatches cuts it,
    prepare finds a slot for every ubatch in a dry run (find_slot, apply_ubatch, restore),
    the context applies them one at a time, each mask and row index being computed from
    the cells; the tail store records the exact rows (commit_row in KvSlots.v) and takes
    part in every sequence operation (on_tail in KvCache.v).

    ** Conventions

    A C++ function returns, fails an assertion, leaves the defined language or throws:
    the type outcome below.  Code that changes its object and may then throw is a state
    transformer stx whose state survives the error.  Machine integers are Z with explicit
    wrap-around (u32, u64, i32); counters and indices that cannot pass the size of a
    container are nat.  Vectors are lists; an index past the end is an error, never a
    default.  A std::map or unordered_map is a gmap, a bitset a gset.  What the backend
    answers, or another memory object, is an argument.

    ** What the theorems show

    - Cells, tail store: an invariant (indices agree with the data) kept by every
      operation, exact queries, copying and restoring inverse, transactions that undo.
    - Formats and plans: packing round trips, layouts without overlap, plans complete and
      in range, requests that print and parse back and resolve within their windows.
    - Batches: init accepts exactly the valid batches; the splits terminate and lose
      nothing.
    - Cache: every sequence operation is a one-line operation on finite maps; the search
      finds a slot unless a stream is short of cells; a dry run restores; placing writes
      what it should; the window covers the used cells.
    - Attention: the mask with its row reuse equals the entry-wise definition; the rows
      written are distinct and in the buffer.
    - Composition: a prepared batch decodes without failure and a failed ubatch is undone.
    - Recurrent memory: the invariant is kept by everything reachable; operations act on
      the view as a small specification says; find_slot always succeeds on a valid ubatch
      and the states follow their sequences through the graph.
    - States: the writers agree on the bytes, a memory or a sequence survives being written
      and read, a refused state changes nothing.  A sequence of a KV cache is moved with its
      positions, keys and values, or refused for want of room; a state cut short is refused.
    - Composites: what the parts keep, the composite keeps: a prepared batch is decoded by
      all parts, a removal is done by all parts or by none and agrees with its plan.
    - Grammars: the stacks follow the language of the rules, character by character and
      token by token; what is forbidden is what would be refused; the construction returns
      when empty rules say so; a text may be cut anywhere and encoding is undone.  A grammar
      text always gives an answer, a text that passes a grammar of its language, and
      repetitions what their bounds say.

    ** Bounds and fuel

    Fuel is always computed from the data and each use has a theorem that it is enough:
    split_loop takes one round per token and one more (split_ubatches_partition);
    find_loop visits at most twice the cells (find_slot_complete); split_entries_loop
    passes a comma each round and to_string a digit (tail_request_roundtrip);
    decode_loop one ubatch (decode_completes); flush_groups one tensor slice
    (host_writer_writes).  Advancing the stacks of a grammar has no bound of its own: its
    theorems say that from some number of rounds on the result does not change
    (construction_returns, grammar_recognises), and the look-ahead goes as deep as the
    longest candidate (candidates_depth).  parse_fuel lets every character of a grammar
    text open and close a group, and repeat_fuel the rounds of repetitions with bounds in
    order (parse_gives_rules); a minimum above the maximum asks for nearly 2^64 rounds
    (reversed_rounds), more than any run makes.  Running out of fuel is the error
    OutOfFuel, which no theorem's conclusion allows but that of parse_gives_rules, for such
    a repetition only, and that of a construction that never ends (hidden_left_recursion).

    ** Not modelled

    Tensors, graphs and their backends; payload copies; the framed state files of caches
    with an exact tail, the state files of whole contexts and of sessions; readers and
    writers of devices and files; half floats;
    the masks and plans that read the exact tail (set_input_kq_mask_tail,
    set_input_tail_body_plan); the KVarN cache class; the model, vocabulary, sampling,
    chat and server code; the printing of grammars, the expressions that trigger them and
    their generation from schemas.  The record-group search of structured caches and the
    placement with a live exact tail, and reading the state of a whole KV cache, are modelled
    but have no theorem yet. *)

From stdpp Require Export base gmap sets list strings sorting.
From Stdlib Require Export ZArith Lia.

(** ** Outcomes of C++ code

    A C++ function either returns, stops on a failed assertion, leaves the
    defined part of the language, or throws.  The exception classes are the
    standard ones the sources throw. *)

Inductive fault : Type :=
  | AssertFailed      (* assert / GGML_ASSERT *)
  | OutOfBounds       (* index past the end of a vector, array or bitset *)
  | SignedOverflow    (* a signed result that its type cannot hold *)
  | DivByZero
  | InvalidArgument   (* std::invalid_argument *)
  | RuntimeError      (* std::runtime_error *)
  | LogicError        (* std::logic_error *)
  | OverflowError     (* std::overflow_error *)
  | OutOfRange        (* std::out_of_range *)
  | OutOfFuel.        (* the bound on the iterations of a loop was too small *)

#[global] Instance fault_eq_dec : EqDecision fault.
Proof. solve_decision. Defined.

Inductive outcome (A : Type) : Type :=
  | Ok (a : A)
  | Err (f : fault).
Arguments Ok {A} a.
Arguments Err {A} f.

#[global] Instance outcome_ret : MRet outcome := fun A a => Ok a.
#[global] Instance outcome_bind : MBind outcome := fun A B k m =>
  match m with Ok a => k a | Err f => Err f end.
#[global] Instance outcome_fmap : FMap outcome := fun A B g m =>
  match m with Ok a => Ok (g a) | Err f => Err f end.

Definition is_ok {A} (m : outcome A) : bool :=
  match m with Ok _ => true | Err _ => false end.

(** [assert(b)] *)
Definition assert_ (b : bool) : outcome unit :=
  if b then Ok tt else Err AssertFailed.

(** What a [catch] of [std::exception] catches. *)
Definition is_exception (f : fault) : bool :=
  match f with InvalidArgument | RuntimeError | LogicError | OverflowError | OutOfRange => true | _ => false end.

(** [if (!b) throw f] *)
Definition require_ (f : fault) (b : bool) : outcome unit :=
  if b then Ok tt else Err f.

(** Indexing a vector: an index past the end is a fault, never a default. *)
Definition vec_get {A} (v : list A) (i : nat) : outcome A :=
  match v !! i with Some a => Ok a | None => Err OutOfBounds end.

Definition vec_set {A} (v : list A) (i : nat) (a : A) : outcome (list A) :=
  match v !! i with Some _ => Ok (<[i := a]> v) | None => Err OutOfBounds end.

(** A [for] loop over a list of values with an accumulated state. *)
Fixpoint foldM {S A} (f : S -> A -> outcome S) (l : list A) (s : S) : outcome S :=
  match l with
  | [] => Ok s
  | a :: l' => s' ← f s a; foldM f l' s'
  end.

(** ** Code that throws after it has changed its object

    The state survives the exception, as it does in the source. *)
Definition stx (S A : Type) : Type := S -> outcome A * S.

#[global] Instance stx_ret {S} : MRet (stx S) := fun A a s => (Ok a, s).
#[global] Instance stx_bind {S} : MBind (stx S) := fun A B k m s =>
  match m s with
  | (Ok a, s') => k a s'
  | (Err f, s') => (Err f, s')
  end.

Definition stx_get {S} : stx S S := fun s => (Ok s, s).
Definition stx_put {S} (s : S) : stx S unit := fun _ => (Ok tt, s).
Definition stx_modify {S} (g : S -> S) : stx S unit := fun s => (Ok tt, g s).
Definition stx_throw {S A} (f : fault) : stx S A := fun s => (Err f, s).
Definition stx_lift {S A} (m : outcome A) : stx S A := fun s => (m, s).

(** ** Machine integers, kept as [Z] *)

Definition UINT32_MAX : Z := 4294967295.
Definition UINT64_MAX : Z := 18446744073709551615.
Definition INT32_MAX : Z := 2147483647.
Definition INT32_MIN : Z := -2147483648.

Definition u32 (x : Z) : Z := x mod 4294967296.
Definition u64 (x : Z) : Z := x mod 18446744073709551616.

Definition in_i32 (x : Z) : bool := (INT32_MIN <=? x)%Z && (x <=? INT32_MAX)%Z.
Definition in_u32 (x : Z) : bool := (0 <=? x)%Z && (x <=? UINT32_MAX)%Z.

(** A signed 32-bit result: overflow is undefined behaviour, hence a fault. *)
Definition i32 (x : Z) : outcome Z := if in_i32 x then Ok x else Err SignedOverflow.

(** [int32_t(x)] of an unsigned 32-bit value: two's complement. *)
Definition to_i32 (x : Z) : Z := if (x <=? INT32_MAX)%Z then x else (x - 4294967296)%Z.

(** Truncating division of signed integers. *)
Definition i32_div (a b : Z) : outcome Z :=
  if (b =? 0)%Z then Err DivByZero else i32 (Z.quot a b).

#[global] Arguments UINT32_MAX : simpl never.
#[global] Arguments UINT64_MAX : simpl never.
#[global] Arguments INT32_MAX : simpl never.
#[global] Arguments INT32_MIN : simpl never.

(** ** Counting *)

Definition cnt {A} (P : A -> bool) (l : list A) : nat := length (List.filter P l).

(** ** Stable sorting

    [std::stable_sort] and [std::list::sort] are stable, so for a strict weak
    order their result is determined; it is computed here by insertion. *)
Section stable_sort.
Context {A : Type} (lt : A -> A -> bool).

Fixpoint sinsert (x : A) (l : list A) : list A :=
  match l with
  | [] => [x]
  | y :: l' => if lt y x then y :: sinsert x l' else x :: l
  end.

Definition stable_sort (l : list A) : list A := foldr sinsert [] l.

(** No element is smaller than one before it. *)
Definition ordered (l : list A) : Prop :=
  StronglySorted (fun a b => lt b a = false) l.
End stable_sort.

Class StrictWeakOrder {A} (lt : A -> A -> bool) : Prop := {
  swo_asym : forall a b, lt a b = true -> lt b a = false;
  swo_negtrans : forall a b c, lt a b = false -> lt b c = false -> lt a c = false
}.

(** Elements of a [std::set] in iteration order. *)
Definition set_list (X : gset nat) : list nat := merge_sort Nat.le (elements X).
Definition setZ_list (X : gset Z) : list Z := merge_sort Z.le (elements X).

Declare Scope kv_scope.
Delimit Scope kv_scope with kv.
(** 32- and 64-bit unsigned arithmetic wraps. *)
Notation "a +u b" := (u32 (a + b)%Z) (at level 50, left associativity) : kv_scope.
Notation "a -u b" := (u32 (a - b)%Z) (at level 50, left associativity) : kv_scope.
Notation "a *u b" := (u32 (a * b)%Z) (at level 40, left associativity) : kv_scope.
Notation "a +q b" := (u64 (a + b)%Z) (at level 50, left associativity) : kv_scope.
Notation "a -q b" := (u64 (a - b)%Z) (at level 50, left associativity) : kv_scope.
Notation "a *q b" := (u64 (a * b)%Z) (at level 40, left associativity) : kv_scope.

Create HintDb kv.

(** ** Automation *)

(** Turn boolean tests among the hypotheses and the goal into propositions. *)
Ltac bprop :=
  repeat match goal with
  | H : _ && _ = true |- _ => apply andb_true_iff in H; destruct H
  | H : _ || _ = false |- _ => apply orb_false_iff in H; destruct H
  | H : _ || _ = true |- _ => apply orb_true_iff in H
  | H : _ && _ = false |- _ => apply andb_false_iff in H
  | H : negb _ = true |- _ => apply negb_true_iff in H
  | H : negb _ = false |- _ => apply negb_false_iff in H
  | H : (_ =? _)%Z = true |- _ => apply Z.eqb_eq in H
  | H : (_ =? _)%Z = false |- _ => apply Z.eqb_neq in H
  | H : (_ <? _)%Z = true |- _ => apply Z.ltb_lt in H
  | H : (_ <? _)%Z = false |- _ => apply Z.ltb_ge in H
  | H : (_ <=? _)%Z = true |- _ => apply Z.leb_le in H
  | H : (_ <=? _)%Z = false |- _ => apply Z.leb_gt in H
  | H : (_ >? _)%Z = true |- _ => rewrite Z.gtb_ltb in H
  | H : (_ >? _)%Z = false |- _ => rewrite Z.gtb_ltb in H
  | H : (_ >=? _)%Z = true |- _ => rewrite Z.geb_leb in H
  | H : (_ >=? _)%Z = false |- _ => rewrite Z.geb_leb in H
  | H : (_ =? _)%nat = true |- _ => apply Nat.eqb_eq in H
  | H : (_ =? _)%nat = false |- _ => apply Nat.eqb_neq in H
  | H : (_ <? _)%nat = true |- _ => apply Nat.ltb_lt in H
  | H : (_ <? _)%nat = false |- _ => apply Nat.ltb_ge in H
  | H : (_ <=? _)%nat = true |- _ => apply Nat.leb_le in H
  | H : (_ <=? _)%nat = false |- _ => apply Nat.leb_gt in H
  | H : bool_decide _ = true |- _ => apply bool_decide_eq_true in H
  | H : bool_decide _ = false |- _ => apply bool_decide_eq_false in H
  end.

(** Peel one bind off a hypothesis that a computation returned. *)
Lemma bind_Ok {A B} (m : outcome A) (k : A -> outcome B) b :
  (m ≫= k) = Ok b -> exists a, m = Ok a /\ k a = Ok b.
Proof. destruct m; simpl; [eauto | discriminate]. Qed.

Ltac inv_ok :=
  repeat match goal with
  | H : (_ ≫= _) = Ok _ |- _ =>
      let x := fresh "x" in let E := fresh "E" in
      apply bind_Ok in H; destruct H as (x & E & H)
  | H : Ok _ = Ok _ |- _ => injection H as H; subst
  | H : Err _ = Ok _ |- _ => discriminate H
  end.

(** ** Outcomes *)

Lemma assert_true b : b = true -> assert_ b = Ok tt.
Proof. intros ->; done. Qed.

Lemma assert_Ok b u : assert_ b = Ok u -> b = true.
Proof. destruct b; done. Qed.

Lemma require_Ok f b u : require_ f b = Ok u -> b = true.
Proof. destruct b; done. Qed.

Lemma vec_get_Some {A} (v : list A) i a : v !! i = Some a -> vec_get v i = Ok a.
Proof. unfold vec_get; intros ->; done. Qed.

Lemma vec_get_Ok {A} (v : list A) i a : vec_get v i = Ok a -> v !! i = Some a.
Proof. unfold vec_get; destruct (v !! i); intros; simplify_eq; done. Qed.

Lemma vec_set_Some {A} (v : list A) i a b :
  v !! i = Some a -> vec_set v i b = Ok (<[i := b]> v).
Proof. unfold vec_set; intros ->; done. Qed.

Lemma vec_set_Ok {A} (v : list A) i b v' :
  vec_set v i b = Ok v' -> i < length v /\ v' = <[i := b]> v.
Proof.
  unfold vec_set. destruct (v !! i) eqn:E; intros; simplify_eq.
  split; [by eapply lookup_lt_Some | done].
Qed.

Lemma i32_Ok x y : i32 x = Ok y -> y = x /\ (INT32_MIN <= x <= INT32_MAX)%Z.
Proof.
  unfold i32, in_i32. destruct (_ && _) eqn:E; intros; simplify_eq.
  apply andb_true_iff in E as [? ?]. by bprop.
Qed.

Lemma i32_in x : (INT32_MIN <= x <= INT32_MAX)%Z -> i32 x = Ok x.
Proof.
  intros [? ?]. unfold i32, in_i32.
  by rewrite (proj2 (Z.leb_le _ _)), (proj2 (Z.leb_le _ _)).
Qed.

Lemma i32_of x : in_i32 x = true -> i32 x = Ok x.
Proof. unfold i32. intros ->. done. Qed.

Lemma u32_id x : (0 <= x <= UINT32_MAX)%Z -> u32 x = x.
Proof. unfold u32, UINT32_MAX; intros; apply Z.mod_small; lia. Qed.

Lemma u32_range x : (0 <= u32 x <= UINT32_MAX)%Z.
Proof. unfold u32, UINT32_MAX; pose proof (Z.mod_pos_bound x 4294967296); lia. Qed.

Lemma u64_id x : (0 <= x <= UINT64_MAX)%Z -> u64 x = x.
Proof. unfold u64, UINT64_MAX; intros; apply Z.mod_small; lia. Qed.

(** ** Loops *)

Lemma foldM_app {S A} (f : S -> A -> outcome S) l1 l2 s :
  foldM f (l1 ++ l2) s = s' ← foldM f l1 s; foldM f l2 s'.
Proof.
  revert s; induction l1 as [|a l1 IH]; intros s; [done|]; simpl.
  destruct (f s a); simpl; [apply IH | done].
Qed.

(** A loop whose body keeps an invariant indexed by what is left to do. *)
Lemma foldM_inv {S A} (f : S -> A -> outcome S) (I : list A -> S -> Prop) l s :
  I l s ->
  (forall a l' s, I (a :: l') s -> exists s', f s a = Ok s' /\ I l' s') ->
  exists s', foldM f l s = Ok s' /\ I [] s'.
Proof.
  intros HI Hstep; revert s HI; induction l as [|a l IH]; intros s HI; [eauto|].
  destruct (Hstep a l s HI) as (s' & E & HI'); simpl; rewrite E; simpl; auto.
Qed.

(** The same when the loop is known to have returned. *)
Lemma foldM_inv_Ok {S A} (f : S -> A -> outcome S) (I : list A -> S -> Prop) l s s' :
  I l s -> foldM f l s = Ok s' ->
  (forall a l' s s1, I (a :: l') s -> f s a = Ok s1 -> I l' s1) ->
  I [] s'.
Proof.
  intros HI Hf Hstep; revert s HI Hf; induction l as [|a l IH]; intros s HI Hf; simpl in Hf.
  - by simplify_eq.
  - inv_ok. eapply IH; eauto.
Qed.

(** The same with the part of the list already done. *)
Lemma foldM_prefix {S A} (f : S -> A -> outcome S) (I : list A -> S -> Prop) l s :
  I [] s ->
  (forall pre a post s, l = pre ++ a :: post -> I pre s -> exists s', f s a = Ok s' /\ I (pre ++ [a]) s') ->
  exists s', foldM f l s = Ok s' /\ I l s'.
Proof.
  intros HI Hstep. assert (forall post pre s, l = pre ++ post -> I pre s ->
    exists s', foldM f post s = Ok s' /\ I l s') as H; [|by apply (H l [])].
  induction post as [|a post IH]; intros pre s1 Hl HI1; simpl.
  - exists s1. rewrite app_nil_r in Hl. by subst.
  - destruct (Hstep pre a post s1 Hl HI1) as (s2 & -> & HI2); simpl.
    apply (IH (pre ++ [a])); [by rewrite <- app_assoc | done].
Qed.

(** [for (k = i; k < i + n; ++k)] *)
Lemma foldM_seq {T} (f : T -> nat -> outcome T) (I : nat -> T -> Prop) i n s :
  I i s ->
  (forall k s, i <= k < i + n -> I k s -> exists s', f s k = Ok s' /\ I (k + 1) s') ->
  exists s', foldM f (seq i n) s = Ok s' /\ I (i + n) s'.
Proof.
  revert i s; induction n as [|n IH]; intros i s HI Hstep; simpl.
  - exists s. by rewrite Nat.add_0_r.
  - destruct (Hstep i s ltac:(lia) HI) as (s1 & -> & HI1); simpl.
    destruct (IH (S i) s1) as (s2 & -> & HI2).
    + by rewrite <- Nat.add_1_r.
    + intros k s' Hk. apply Hstep. lia.
    + exists s2. split; [done|]. by replace (i + S n) with (S i + n) by lia.
Qed.

(** [for (k = 0; k < l.size(); ++k)] with [l[k]] at hand. *)
Lemma foldM_indexed {T A} (f : T -> nat * A -> outcome T) (I : nat -> T -> Prop) l s :
  I 0 s ->
  (forall k x s, l !! k = Some x -> I k s -> exists s', f s (k, x) = Ok s' /\ I (k + 1) s') ->
  exists s', foldM f (imap pair l) s = Ok s' /\ I (length l) s'.
Proof.
  revert f I s; induction l as [|a l IH]; intros f I s HI Hstep; [by exists s|].
  destruct (Hstep 0 a s eq_refl HI) as (s1 & E & HI1).
  change (imap pair (a :: l)) with ((0, a) :: imap (fun i x => (S i, x)) l). simpl. rewrite E; simpl.
  replace (imap (fun i x => (S i, x)) l) with ((fun x => (S x.1, x.2)) <$> imap pair l)
    by (rewrite fmap_imap; done).
  destruct (IH (fun s x => f s (S x.1, x.2)) (fun k => I (S k)) s1) as (s2 & E2 & HI2).
  - by rewrite Nat.add_1_r in HI1.
  - intros k x s' Hk HIk. destruct (Hstep (S k) x s' Hk HIk) as (s3 & E3 & HI3).
    exists s3. split; [done|]. by rewrite Nat.add_1_r in HI3 |- *.
  - exists s2. split; [|done]. rewrite <- E2. clear.
    revert s1. induction (imap pair l) as [|x m IHm]; intros s1; simpl; [done|].
    destruct (f s1 (S x.1, x.2)); simpl; [apply IHm | done].
Qed.

Lemma foldM_ext {S A} (f g : S -> A -> outcome S) l s :
  (forall a s, a ∈ l -> f s a = g s a) -> foldM f l s = foldM g l s.
Proof.
  revert s; induction l as [|a l IH]; intros s H; simpl; [done|].
  rewrite H by (by left). destruct (g s a); simpl; [|done]. apply IH. intros; apply H; by right.
Qed.

Lemma mapM_Ok {A B} (f : A -> outcome B) (g : A -> B) l :
  (forall a, a ∈ l -> f a = Ok (g a)) -> mapM f l = Ok (g <$> l).
Proof.
  induction l as [|a l IH]; intros H; [done|]; simpl.
  rewrite H by (by left). simpl. rewrite IH by (intros; apply H; by right). done.
Qed.

(** A step of a stateful computation that returns. *)
Lemma stx_bind_Ok {S A B} (m : stx S A) (k : A -> stx S B) s a s' : m s = (Ok a, s') -> (m ≫= k) s = k a s'.
Proof. unfold mbind, stx_bind. by intros ->. Qed.

(** Appending one element per iteration. *)
Lemma foldM_snoc {A B} (f : A -> outcome B) (g : A -> B) l acc :
  (forall a, a ∈ l -> f a = Ok (g a)) ->
  foldM (fun r a => x ← f a; Ok (r ++ [x])) l acc = Ok (acc ++ (g <$> l)).
Proof.
  revert acc; induction l as [|a l IH]; intros acc H; simpl; [by rewrite app_nil_r|].
  rewrite H by (by left). simpl. rewrite IH by (intros; apply H; by right). by rewrite <- app_assoc.
Qed.

(** ** Counting *)

Lemma cnt_app {A} (P : A -> bool) l1 l2 : cnt P (l1 ++ l2) = cnt P l1 + cnt P l2.
Proof. unfold cnt. by rewrite List.filter_app, length_app. Qed.

Lemma cnt_cons {A} (P : A -> bool) a l : cnt P (a :: l) = Nat.b2n (P a) + cnt P l.
Proof. unfold cnt; simpl; destruct (P a); done. Qed.

(** Overwriting one element changes a count by what that element contributed. *)
Lemma cnt_insert {A} (P : A -> bool) l i a b :
  l !! i = Some a ->
  cnt P (<[i := b]> l) + Nat.b2n (P a) = cnt P l + Nat.b2n (P b).
Proof.
  intros Hi. rewrite <- (take_drop_middle l i a Hi) at 2.
  rewrite (insert_take_drop l i b) by (by eapply lookup_lt_Some).
  rewrite !cnt_app, !cnt_cons. lia.
Qed.

Lemma cnt_pos {A} (P : A -> bool) l : 0 < cnt P l <-> exists i a, l !! i = Some a /\ P a = true.
Proof.
  unfold cnt; split.
  - destruct (List.filter P l) as [|a f] eqn:E; simpl; [lia|]; intros _.
    assert (List.In a (List.filter P l)) as Hin by (rewrite E; left; done).
    apply List.filter_In in Hin as [Hin HP].
    apply list_elem_of_In, list_elem_of_lookup in Hin as [i Hi]. eauto.
  - intros (i & a & Hi & HP).
    assert (List.In a (List.filter P l)) as Hin.
    { apply List.filter_In; split; [|done].
      apply list_elem_of_In, list_elem_of_lookup; eauto. }
    destruct (List.filter P l); simpl in *; [done | lia].
Qed.

Lemma cnt_le_length {A} (P : A -> bool) l : cnt P l <= length l.
Proof. unfold cnt. apply List.filter_length_le. Qed.

Lemma cnt_zero {A} (P : A -> bool) l :
  (forall a, a ∈ l -> P a = false) -> cnt P l = 0.
Proof.
  intros H. destruct (cnt P l) eqn:E; [done|].
  destruct (proj1 (cnt_pos P l)) as (i & a & Hi & HP); [lia|].
  rewrite H in HP; [done | by eapply list_elem_of_lookup_2].
Qed.

(** Counting elements is counting indices. *)
Lemma cnt_indices {A} (P : A -> bool) (l : list A) :
  cnt (fun i => match l !! i with Some a => P a | None => false end) (seq 0 (length l)) = cnt P l.
Proof.
  induction l as [|a l IH] using rev_ind; [done|].
  rewrite length_app, seq_app, !cnt_app; simpl. f_equal.
  - rewrite <- IH. unfold cnt. f_equal. apply List.filter_ext_in. intros i Hi.
    apply list_elem_of_In, elem_of_seq in Hi. by rewrite lookup_app_l by lia.
  - rewrite !cnt_cons, list_lookup_middle by lia. done.
Qed.

(** ** Stable sorting *)
Section stable_sort_lemmas.
Context {A : Type} (lt : A -> A -> bool).

Lemma sinsert_perm x l : sinsert lt x l ≡ₚ x :: l.
Proof.
  induction l as [|y l IH]; simpl; [done|].
  destruct (lt y x); [|done]. rewrite IH. apply Permutation_swap.
Qed.

Lemma stable_sort_perm l : stable_sort lt l ≡ₚ l.
Proof.
  induction l as [|x l IH]; simpl; [done|]. by rewrite sinsert_perm, IH.
Qed.

Lemma stable_sort_length l : length (stable_sort lt l) = length l.
Proof. apply Permutation_length, stable_sort_perm. Qed.

(** Sorting a sorted list changes nothing: this is where stability is used. *)
Lemma stable_sort_id l : ordered lt l -> stable_sort lt l = l.
Proof.
  induction 1 as [|x l Hl IH Hx]; simpl; [done|]. rewrite IH.
  destruct Hx as [|y l Hy]; simpl; [done|]. by rewrite Hy.
Qed.

(** Sorting commutes with a map that respects the orders. *)
Lemma stable_sort_fmap {B} (lt' : B -> B -> bool) (f : A -> B) l :
  (forall a b, lt' (f a) (f b) = lt a b) -> f <$> stable_sort lt l = stable_sort lt' (f <$> l).
Proof.
  intros Hf. induction l as [|x l IH]; [done|].
  change (f <$> sinsert lt x (stable_sort lt l) = sinsert lt' (f x) (stable_sort lt' (f <$> l))). rewrite <- IH.
  generalize (stable_sort lt l). intros k.
  clear IH. induction k as [|y k IH]; [done|]. cbn [sinsert]. rewrite fmap_cons.
  cbn [sinsert]. rewrite Hf. destruct (lt y x); rewrite !fmap_cons; [by rewrite IH|done].
Qed.

Context `{!StrictWeakOrder lt}.

Lemma sinsert_ordered x l : ordered lt l -> ordered lt (sinsert lt x l).
Proof.
  unfold ordered. induction 1 as [|y l Hl IH Hy]; simpl.
  { constructor; constructor. }
  destruct (lt y x) eqn:E.
  - constructor; [done|]. rewrite sinsert_perm.
    constructor; [by apply swo_asym | done].
  - constructor; [by constructor|]. constructor; [done|].
    eapply Forall_impl; [done|]. intros z Hz; simpl in Hz.
    by eapply swo_negtrans.
Qed.

Lemma stable_sort_ordered l : ordered lt (stable_sort lt l).
Proof. induction l; simpl; [constructor | by apply sinsert_ordered]. Qed.
End stable_sort_lemmas.

(** Sorted lists without duplicates of the key are closed under the list
    surgery the stores do. *)
Lemma ordered_app_inv {A} (lt : A -> A -> bool) l1 l2 :
  ordered lt (l1 ++ l2) -> ordered lt l1 /\ ordered lt l2.
Proof.
  unfold ordered; induction l1 as [|a l1 IH]; simpl; intros H.
  - split; [constructor | done].
  - apply StronglySorted_inv in H as [H1 H2]. apply IH in H1 as [? ?].
    apply Forall_app in H2 as [? ?]. split; [by constructor | done].
Qed.

Lemma ordered_app {A} (lt : A -> A -> bool) l1 l2 :
  ordered lt l1 -> ordered lt l2 ->
  (forall a b, a ∈ l1 -> b ∈ l2 -> lt b a = false) -> ordered lt (l1 ++ l2).
Proof.
  unfold ordered; induction 1 as [|a l1 Hl1 IH Ha]; simpl; intros H2 H; [done|].
  constructor.
  - apply IH; [done|]. intros; apply H; [by right | done].
  - apply Forall_app; split; [done|]. apply Forall_forall; intros b Hb.
    apply H; [by left | done].
Qed.

Lemma ordered_filter {A} (lt : A -> A -> bool) (P : A -> Prop) `{!forall x, Decision (P x)} l :
  ordered lt l -> ordered lt (filter P l).
Proof.
  unfold ordered. induction 1 as [|a l Hl IH Ha]; [constructor|].
  rewrite filter_cons. destruct (decide (P a)); [|done].
  constructor; [done|]. apply Forall_forall; intros b Hb.
  apply list_elem_of_filter in Hb as [_ Hb]. by apply (proj1 (Forall_forall _ _) Ha).
Qed.

Lemma StronglySorted_impl {A} (R R' : A -> A -> Prop) l :
  (forall a b, R a b -> R' a b) -> StronglySorted R l -> StronglySorted R' l.
Proof.
  intros HR. induction 1 as [|a l Hl IH Ha]; constructor; [done|].
  eapply Forall_impl; [exact Ha|]. intros b; apply HR.
Qed.

Lemma StronglySorted_drop {A} (R : A -> A -> Prop) n l :
  StronglySorted R l -> StronglySorted R (drop n l).
Proof.
  intros H; revert n; induction H as [|a l Hl IH Ha]; intros [|n]; simpl; try constructor; auto.
Qed.

Lemma ordered_drop {A} (lt : A -> A -> bool) n l : ordered lt l -> ordered lt (drop n l).
Proof.
  intros H. rewrite <- (take_drop n l) in H. by apply ordered_app_inv in H as [_ H].
Qed.

Lemma list_filter_id {A} (P : A -> Prop) `{!forall x, Decision (P x)} (l : list A) :
  (forall x, x ∈ l -> P x) -> filter P l = l.
Proof.
  induction l as [|a l IH]; intros Hl; [done|]. rewrite filter_cons_True by (apply Hl; by left).
  f_equal. apply IH. intros; apply Hl. by right.
Qed.

Lemma list_filter_none {A} (P : A -> Prop) `{!forall x, Decision (P x)} (l : list A) :
  (forall x, x ∈ l -> ~ P x) -> filter P l = [].
Proof.
  induction l as [|a l IH]; intros Hl; [done|]. rewrite filter_cons_False by (apply Hl; by left).
  apply IH. intros; apply Hl. by right.
Qed.

(** ** Iterating a [std::set] *)

Lemma set_list_perm X : set_list X ≡ₚ elements X.
Proof. unfold set_list. apply merge_sort_Permutation. Qed.

Lemma elem_of_set_list X i : i ∈ set_list X <-> i ∈ X.
Proof. by rewrite set_list_perm, elem_of_elements. Qed.

Lemma set_list_NoDup X : NoDup (set_list X).
Proof. rewrite set_list_perm. apply NoDup_elements. Qed.

Lemma set_list_length X : length (set_list X) = size X.
Proof. unfold size, set_size; simpl. apply Permutation_length, set_list_perm. Qed.

#[global] Instance nat_le_total : Total Nat.le.
Proof. intros a b; lia. Qed.

Lemma set_list_sorted X : StronglySorted Nat.le (set_list X).
Proof. unfold set_list. apply StronglySorted_merge_sort; apply _. Qed.

Lemma set_list_empty X : set_list X = [] <-> X = ∅.
Proof.
  split; intros H.
  - apply set_eq; intros i. rewrite <- elem_of_set_list, H. set_solver.
  - subst. reflexivity.
Qed.

Lemma set_list_strict X : StronglySorted Nat.lt (set_list X).
Proof.
  pose proof (set_list_sorted X) as Hs. pose proof (set_list_NoDup X) as Hn.
  induction Hs as [|a l Hl IH Ha]; [constructor|]. apply NoDup_cons in Hn as [Hni Hn].
  constructor; [by apply IH|]. apply Forall_forall. intros b Hb.
  pose proof (proj1 (Forall_forall _ _) Ha b Hb). assert (a <> b) by (by intros ->). lia.
Qed.

Lemma StronglySorted_lfilter {A} (R : A -> A -> Prop) (P : A -> bool) l :
  StronglySorted R l -> StronglySorted R (List.filter P l).
Proof.
  induction 1 as [|a l Hl IH Ha]; simpl; [constructor|]. destruct (P a); [|done].
  constructor; [done|]. apply Forall_forall. intros b Hb. apply list_elem_of_In, filter_In in Hb as [Hb _].
  apply (proj1 (Forall_forall _ _) Ha). by apply list_elem_of_In.
Qed.

Lemma setZ_list_perm X : setZ_list X ≡ₚ elements X.
Proof. unfold setZ_list. apply merge_sort_Permutation. Qed.

Lemma elem_of_setZ_list X i : i ∈ setZ_list X <-> i ∈ X.
Proof. by rewrite setZ_list_perm, elem_of_elements. Qed.

#[global] Instance Z_le_total : Total Z.le.
Proof. intros a b; lia. Qed.

Lemma setZ_list_sorted X : StronglySorted Z.le (setZ_list X).
Proof. unfold setZ_list. apply StronglySorted_merge_sort; apply _. Qed.

Lemma setZ_list_strict X : StronglySorted Z.lt (setZ_list X).
Proof.
  pose proof (setZ_list_sorted X) as Hs.
  assert (NoDup (setZ_list X)) as Hn by (rewrite setZ_list_perm; apply NoDup_elements).
  induction Hs as [|a l Hl IH Ha]; [constructor|]. apply NoDup_cons in Hn as [Hni Hn].
  constructor; [by apply IH|]. apply Forall_forall. intros b Hb.
  pose proof (proj1 (Forall_forall _ _) Ha b Hb). assert (a <> b) by (by intros ->). lia.
Qed.

Lemma StronglySorted_last {A} (R : A -> A -> Prop) `{!Reflexive R} l a :
  StronglySorted R l -> last l = Some a -> forall b, b ∈ l -> R b a.
Proof.
  intros Hl Hlast b Hb. apply last_Some in Hlast as [l' ->].
  apply elem_of_app in Hb as [Hb | Hb].
  - induction l' as [|c l' IH]; [by apply not_elem_of_nil in Hb|].
    simpl in Hl. apply StronglySorted_inv in Hl as [Hl Hc].
    apply elem_of_cons in Hb as [-> | Hb]; [|by apply IH].
    apply Forall_app in Hc as [_ Hc]. by apply Forall_inv in Hc.
  - by apply list_elem_of_singleton in Hb as ->.
Qed.

#[export] Hint Resolve swo_asym : kv.
