(* ===== verification/KvCells.v ===== *)
(** * llama_kv_cells (src/src/llama-kv-cells.h)

    Metadata of one KV stream: for every physical cell its position, its
    accumulated shift, its 2D extension and the set of sequences that own it;
    and three indices over them kept up to date incrementally: the set of used
    cells, the multiset of positions of every sequence, and the number of cells
    of every sequence.

    The C++ class keeps [std::bitset<LLAMA_MAX_SEQ>] per cell (here a [gset nat]),
    [std::set<uint32_t> used] (a [gset nat]) and one [std::map<llama_pos, int>]
    per sequence (a [gmap Z Z]); iteration over the ordered containers goes
    through [set_list] and [setZ_list].  Sequence ids reach the class
    non-negative, so they are [nat]; an id past the bitset is a fault.
    Assertions are faults: the theorems show when none fires. *)

From S2P Require Export Prelude.

(** ** Data *)

Definition LLAMA_MAX_SEQ : nat := 256.
#[global] Arguments LLAMA_MAX_SEQ : simpl never.

(** [for (int s = 0; s < LLAMA_MAX_SEQ; ++s)] *)
Definition seq_ids : list nat := seq 0 LLAMA_MAX_SEQ.
#[global] Arguments seq_ids : simpl never.

Record kv_cell_ext := mk_ext { ext_x : Z; ext_y : Z }.

Definition ext_reset : kv_cell_ext := mk_ext 0 0.

Definition is_2d_gt (e : kv_cell_ext) (ox oy : Z) : bool :=
  (oy <? ext_y e)%Z || ((ext_y e =? oy)%Z && (ox <? ext_x e)%Z).

Record kv_cells := mk_cells {
  c_has_shift : bool;
  c_used : gset nat;
  c_pos : list Z;
  c_ext : list kv_cell_ext;
  c_shift : list Z;
  c_seq : list (gset nat);
  c_seq_pos : list (gmap Z Z);
  c_seq_used : list Z
}.

(** Field updates. *)
Definition set_has_shift v c := mk_cells v (c_used c) (c_pos c) (c_ext c) (c_shift c) (c_seq c) (c_seq_pos c) (c_seq_used c).
Definition set_used v c := mk_cells (c_has_shift c) v (c_pos c) (c_ext c) (c_shift c) (c_seq c) (c_seq_pos c) (c_seq_used c).
Definition set_pos v c := mk_cells (c_has_shift c) (c_used c) v (c_ext c) (c_shift c) (c_seq c) (c_seq_pos c) (c_seq_used c).
Definition set_ext v c := mk_cells (c_has_shift c) (c_used c) (c_pos c) v (c_shift c) (c_seq c) (c_seq_pos c) (c_seq_used c).
Definition set_shift v c := mk_cells (c_has_shift c) (c_used c) (c_pos c) (c_ext c) v (c_seq c) (c_seq_pos c) (c_seq_used c).
Definition set_seq v c := mk_cells (c_has_shift c) (c_used c) (c_pos c) (c_ext c) (c_shift c) v (c_seq_pos c) (c_seq_used c).
Definition set_index sp su c := mk_cells (c_has_shift c) (c_used c) (c_pos c) (c_ext c) (c_shift c) (c_seq c) sp su.

(** The class as default-constructed: no cells. *)
Definition empty_cells : kv_cells :=
  mk_cells false ∅ [] [] [] [] (replicate LLAMA_MAX_SEQ ∅) (replicate LLAMA_MAX_SEQ 0%Z).

(** ** Private helpers on the position index *)

Definition seq_pos_dec (s : nat) (p : Z) (c : kv_cells) : outcome kv_cells :=
  m ← vec_get (c_seq_pos c) s;
  match m !! p with
  | None => Err AssertFailed
  | Some k =>
      u ← vec_get (c_seq_used c) s;
      _ ← assert_ (0 <? u)%Z;
      let m' := if (k - 1 =? 0)%Z then delete p m else <[p := (k - 1)%Z]> m in
      Ok (set_index (<[s := m']> (c_seq_pos c)) (<[s := (u - 1)%Z]> (c_seq_used c)) c)
  end.

Definition seq_pos_inc (s : nat) (p : Z) (c : kv_cells) : outcome kv_cells :=
  m ← vec_get (c_seq_pos c) s;
  u ← vec_get (c_seq_used c) s;
  let k := default 0%Z (m !! p) in
  Ok (set_index (<[s := <[p := (k + 1)%Z]> m]> (c_seq_pos c)) (<[s := (u + 1)%Z]> (c_seq_used c)) c).

(** [for (s = 0; s < LLAMA_MAX_SEQ; ++s) if (seq[i].test(s)) seq_pos_dec(s, pos[i])] *)
Definition seq_pos_rm (i : nat) (c : kv_cells) : outcome kv_cells :=
  S ← vec_get (c_seq c) i;
  p ← vec_get (c_pos c) i;
  foldM (fun c s => if decide (s ∈ S) then seq_pos_dec s p c else Ok c) seq_ids c.

Definition seq_pos_add (i : nat) (c : kv_cells) : outcome kv_cells :=
  S ← vec_get (c_seq c) i;
  p ← vec_get (c_pos c) i;
  foldM (fun c s => if decide (s ∈ S) then seq_pos_inc s p c else Ok c) seq_ids c.

(** ** Whole-object operations *)

Definition cells_size (c : kv_cells) : nat := length (c_pos c).

Definition cells_reset (c : kv_cells) : kv_cells :=
  mk_cells false ∅
    ((fun _ => (-1)%Z) <$> c_pos c)
    ((fun _ => ext_reset) <$> c_ext c)
    ((fun _ => 0%Z) <$> c_shift c)
    ((fun _ => ∅) <$> c_seq c)
    ((fun _ => ∅) <$> c_seq_pos c)
    ((fun _ => 0%Z) <$> c_seq_used c).

Definition reset_shift (c : kv_cells) : kv_cells :=
  set_shift ((fun _ => 0%Z) <$> c_shift c) (set_has_shift false c).

Definition cells_resize (n : nat) (c : kv_cells) : kv_cells :=
  cells_reset
    (set_pos (resize n 0%Z (c_pos c))
    (set_ext (resize n ext_reset (c_ext c))
    (set_shift (resize n 0%Z (c_shift c))
    (set_seq (resize n ∅ (c_seq c)) c)))).

Definition get_used (c : kv_cells) : nat := size (c_used c).

Definition used_min (c : kv_cells) : nat := default 0 (head (set_list (c_used c))).

Definition used_max_p1 (c : kv_cells) : nat :=
  match last (set_list (c_used c)) with Some i => i + 1 | None => 0 end.

Definition get_has_shift (c : kv_cells) : bool := c_has_shift c.

(** ** Queries on one cell *)

Definition is_empty (i : nat) (c : kv_cells) : outcome bool :=
  p ← (match c_pos c !! i with Some p => Ok p | None => Err AssertFailed end);
  _ ← assert_ (((p <? 0)%Z && (p =? -1)%Z) || (0 <=? p)%Z);
  Ok (p =? -1)%Z.

(** [assert(i < pos.size()); assert(pos[i] != -1);] and the position *)
Definition used_cell (i : nat) (c : kv_cells) : outcome Z :=
  match c_pos c !! i with
  | Some p => _ ← assert_ (negb (p =? -1)%Z); Ok p
  | None => Err AssertFailed
  end.

(** [seq[i].test(s)] throws past the last bit. *)
Definition seq_test (i s : nat) (c : kv_cells) : outcome bool :=
  S ← vec_get (c_seq c) i;
  _ ← require_ OutOfRange (s <? LLAMA_MAX_SEQ);
  Ok (bool_decide (s ∈ S)).

Definition seq_has (i s : nat) (c : kv_cells) : outcome bool :=
  _ ← assert_ (i <? cells_size c);
  seq_test i s c.

Definition seq_count (i : nat) (c : kv_cells) : outcome nat :=
  _ ← used_cell i c;
  S ← vec_get (c_seq c) i;
  Ok (size S).

Definition seq_size (s : nat) (c : kv_cells) : outcome Z :=
  _ ← assert_ (s <? LLAMA_MAX_SEQ);
  vec_get (c_seq_used c) s.

(** The loop returns the first set bit, or -1. *)
Definition seq_get (i : nat) (c : kv_cells) : outcome Z :=
  S ← vec_get (c_seq c) i;
  _ ← assert_ (size S =? 1);
  Ok (match List.find (fun s => bool_decide (s ∈ S)) seq_ids with
      | Some s => Z.of_nat s
      | None => (-1)%Z
      end).

Definition seq_pos_min (s : nat) (c : kv_cells) : outcome Z :=
  _ ← assert_ (s <? LLAMA_MAX_SEQ);
  m ← vec_get (c_seq_pos c) s;
  match head (setZ_list (dom m)) with
  | None => Ok (-1)%Z
  | Some p => _ ← assert_ (0 <? default 0 (m !! p))%Z; Ok p
  end.

Definition seq_pos_max (s : nat) (c : kv_cells) : outcome Z :=
  _ ← assert_ (s <? LLAMA_MAX_SEQ);
  m ← vec_get (c_seq_pos c) s;
  match last (setZ_list (dom m)) with
  | None => Ok (-1)%Z
  | Some p => _ ← assert_ (0 <? default 0 (m !! p))%Z; Ok p
  end.

Definition pos_get (i : nat) (c : kv_cells) : outcome Z := used_cell i c.

Definition ext_get (i : nat) (c : kv_cells) : outcome kv_cell_ext :=
  _ ← used_cell i c; vec_get (c_ext c) i.

Definition get_shift (i : nat) (c : kv_cells) : outcome Z :=
  _ ← used_cell i c; vec_get (c_shift c) i.

Definition pos_in (i : nat) (p0 p1 : Z) (c : kv_cells) : outcome bool :=
  match c_pos c !! i with
  | Some p => Ok ((p0 <=? p)%Z && (p <? p1)%Z)
  | None => Err AssertFailed
  end.

(** Cells of [s] at position [p], in increasing order of index. *)
Definition cells_at (s : nat) (p : Z) (c : kv_cells) : outcome (list nat) :=
  foldM (fun res i =>
    q ← vec_get (c_pos c) i;
    if (q =? p)%Z then
      t ← seq_test i s c;
      Ok (if (t : bool) then res ++ [i] else res)
    else Ok res) (set_list (c_used c)) [].

(** ** Operations on one cell *)

(** [pos[i] = -1; ext[i].reset(); shift[i] = 0; used.erase(i)] *)
Definition empty_cell (i : nat) (c : kv_cells) : kv_cells :=
  set_used (c_used c ∖ {[i]})
  (set_shift (<[i := 0%Z]> (c_shift c))
  (set_ext (<[i := ext_reset]> (c_ext c))
  (set_pos (<[i := (-1)%Z]> (c_pos c)) c))).

Definition seq_reset (i : nat) (c : kv_cells) : kv_cells := set_seq (<[i := ∅]> (c_seq c)) c.

Definition rm (i : nat) (c : kv_cells) : outcome kv_cells :=
  _ ← used_cell i c;
  c ← seq_pos_rm i c;
  Ok (empty_cell i (seq_reset i c)).

Definition seq_rm (i s : nat) (c : kv_cells) : outcome (bool * kv_cells) :=
  _ ← assert_ (i <? cells_size c);
  t ← seq_test i s c;
  _ ← assert_ t;
  p ← used_cell i c;
  S ← vec_get (c_seq c) i;
  let S' := S ∖ {[s]} in
  c ← seq_pos_dec s p (set_seq (<[i := S']> (c_seq c)) c);
  if decide (S' = ∅) then Ok (true, empty_cell i c) else Ok (false, c).

Definition seq_rm_cell (i s : nat) (c : kv_cells) : outcome (bool * kv_cells) :=
  _ ← assert_ (i <? cells_size c);
  p ← vec_get (c_pos c) i;
  if (p =? -1)%Z then Ok (false, c)
  else
    t ← seq_test i s c;
    if (t : bool) then seq_rm i s c else Ok (false, c).

Definition seq_keep (i s : nat) (c : kv_cells) : outcome (bool * kv_cells) :=
  _ ← assert_ (i <? cells_size c);
  t ← seq_test i s c;
  if (t : bool) then
    c ← seq_pos_rm i c;
    let c := set_seq (<[i := {[s]}]> (c_seq c)) c in
    p ← vec_get (c_pos c) i;
    c ← seq_pos_inc s p c;
    Ok (false, c)
  else
    S ← vec_get (c_seq c) i;
    if decide (S ≠ ∅) then
      c ← seq_pos_rm i c;
      Ok (true, empty_cell i (seq_reset i c))
    else
      p ← vec_get (c_pos c) i;
      _ ← assert_ (p =? -1)%Z;
      Ok (false, c).

Definition seq_add (i s : nat) (c : kv_cells) : outcome kv_cells :=
  p ← used_cell i c;
  t ← seq_test i s c;
  _ ← assert_ (negb t);
  S ← vec_get (c_seq c) i;
  seq_pos_inc s p (set_seq (<[i := {[s]} ∪ S]> (c_seq c)) c).

Definition pos_set (i : nat) (p : Z) (c : kv_cells) : outcome kv_cells :=
  q ← (match c_pos c !! i with Some q => Ok q | None => Err AssertFailed end);
  _ ← assert_ (q =? -1)%Z;
  S ← vec_get (c_seq c) i;
  _ ← assert_ (bool_decide (S = ∅));
  Ok (set_used ({[i]} ∪ c_used c) (set_pos (<[i := p]> (c_pos c)) c)).

Definition ext_set (i : nat) (e : kv_cell_ext) (c : kv_cells) : outcome kv_cells :=
  _ ← assert_ (i <? length (c_ext c));
  Ok (set_ext (<[i := e]> (c_ext c)) c).

(** Does not reset [ext] when the cell becomes empty. *)
Definition pos_add (i : nat) (d : Z) (c : kv_cells) : outcome (bool * kv_cells) :=
  p ← used_cell i c;
  c ← seq_pos_rm i c;
  p' ← i32 (p + d);
  sh ← vec_get (c_shift c) i;
  sh' ← i32 (sh + d);
  let c := set_has_shift true
    (set_shift (<[i := sh']> (c_shift c)) (set_pos (<[i := p']> (c_pos c)) c)) in
  if (p' <? 0)%Z then
    Ok (true, set_used (c_used c ∖ {[i]})
      (set_shift (<[i := 0%Z]> (c_shift c))
      (set_pos (<[i := (-1)%Z]> (c_pos c)) (seq_reset i c))))
  else
    c ← seq_pos_add i c;
    Ok (false, c).

Definition pos_div (i : nat) (d : Z) (c : kv_cells) : outcome kv_cells :=
  p_old ← used_cell i c;
  c ← seq_pos_rm i c;
  p' ← i32_div p_old d;
  sh ← vec_get (c_shift c) i;
  diff ← i32 (p_old - p');
  sh' ← i32 (sh + diff);
  c ← seq_pos_add i
    (set_shift (<[i := sh']> (c_shift c)) (set_pos (<[i := p']> (c_pos c)) c));
  Ok (set_has_shift true c).

(** ** Saving and restoring cells *)

(** [cp]: the copy has the content of the cells and no index. *)
Definition cp_cell (src : kv_cells) (j idx : nat) (res : kv_cells) : outcome kv_cells :=
  p ← vec_get (c_pos src) idx;
  e ← vec_get (c_ext src) idx;
  S ← vec_get (c_seq src) idx;
  sh ← vec_get (c_shift src) idx;
  _ ← assert_ (sh =? 0)%Z;
  Ok (set_seq (<[j := S]> (c_seq res))
     (set_ext (<[j := e]> (c_ext res)) (set_pos (<[j := p]> (c_pos res)) res))).

Definition cp_idxs (idxs : list nat) (c : kv_cells) : outcome kv_cells :=
  foldM (fun res '(j, idx) => cp_cell c j idx res)
    (imap pair idxs) (cells_resize (length idxs) empty_cells).

Definition cp_range (i n : nat) (c : kv_cells) : outcome kv_cells :=
  _ ← assert_ (i + n <=? cells_size c);
  foldM (fun res j => cp_cell c j (i + j) res)
    (seq 0 n) (cells_resize n empty_cells).

(** One iteration of [set]: cell [idx] takes the content of cell [j] of [other]. *)
Definition set_cell (other : kv_cells) (j idx : nat) (c : kv_cells) : outcome kv_cells :=
  p ← vec_get (c_pos c) idx;
  q ← vec_get (c_pos other) j;
  e ← vec_get (c_ext other) j;
  S ← vec_get (c_seq other) j;
  let c := if (p =? -1)%Z && negb (q =? -1)%Z then set_used ({[idx]} ∪ c_used c) c else c in
  let c := if negb (p =? -1)%Z && (q =? -1)%Z then set_used (c_used c ∖ {[idx]}) c else c in
  c ← (if negb (p =? -1)%Z then seq_pos_rm idx c else Ok c);
  let c := set_seq (<[idx := S]> (c_seq c))
             (set_ext (<[idx := e]> (c_ext c)) (set_pos (<[idx := q]> (c_pos c)) c)) in
  c ← (if negb (q =? -1)%Z then seq_pos_add idx c else Ok c);
  sh ← vec_get (c_shift c) idx;
  _ ← assert_ (sh =? 0)%Z;
  Ok c.

Definition set_idxs (idxs : list nat) (other c : kv_cells) : outcome kv_cells :=
  _ ← assert_ (length idxs =? cells_size other);
  foldM (fun c '(j, idx) => set_cell other j idx c) (imap pair idxs) c.

Definition set_range (i : nat) (other c : kv_cells) : outcome kv_cells :=
  _ ← assert_ (i + cells_size other <=? cells_size c);
  foldM (fun c j => set_cell other j (i + j) c) (seq 0 (cells_size other)) c.

Lemma max_seq_256 : LLAMA_MAX_SEQ = 256.
Proof. vm_compute. reflexivity. Qed.

(** ** Specification of the position index

    [hist v s p] counts the cells of [v] at position [p] owned by [s]; the class
    must keep exactly these counts, without the zero ones, and their total. *)

Abbreviation view c := (zip (c_pos c) (c_seq c)).

Definition owned (s : nat) (x : Z * gset nat) : bool := bool_decide (s ∈ x.2).
Definition owned_at (s : nat) (p : Z) (x : Z * gset nat) : bool := owned s x && (x.1 =? p)%Z.

Definition hist (v : list (Z * gset nat)) (s : nat) (p : Z) : nat := cnt (owned_at s p) v.
Definition occ (v : list (Z * gset nat)) (s : nat) : nat := cnt (owned s) v.

Definition count_opt (k : nat) : option Z := if k =? 0 then None else Some (Z.of_nat k).

Definition ix_at (v : list (Z * gset nat)) (s : nat) (m : gmap Z Z) (u : Z) : Prop :=
  u = Z.of_nat (occ v s) /\ forall p, m !! p = count_opt (hist v s p).

Definition ix_ok (v : list (Z * gset nat)) (sp : list (gmap Z Z)) (su : list Z) : Prop :=
  length sp = LLAMA_MAX_SEQ /\ length su = LLAMA_MAX_SEQ /\
  forall s, s < LLAMA_MAX_SEQ -> exists m u, sp !! s = Some m /\ su !! s = Some u /\ ix_at v s m u.

(** ** Well-formedness of the whole object *)
Record cells_wf (c : kv_cells) : Prop := {
  wf_ext : length (c_ext c) = length (c_pos c);
  wf_shift : length (c_shift c) = length (c_pos c);
  wf_seq : length (c_seq c) = length (c_pos c);
  wf_pos : forall i p, c_pos c !! i = Some p -> (-1 <= p)%Z;
  wf_used : forall i, i ∈ c_used c <-> exists p, c_pos c !! i = Some p /\ p <> (-1)%Z;
  wf_free : forall i, c_pos c !! i = Some (-1)%Z ->
    c_seq c !! i = Some ∅ /\ c_shift c !! i = Some 0%Z;
  wf_ids : forall i S s, c_seq c !! i = Some S -> s ∈ S -> s < LLAMA_MAX_SEQ;
  wf_index : ix_ok (view c) (c_seq_pos c) (c_seq_used c)
}.

(** ** One sequence of the index *)

Lemma owned_true s p S : owned s (p, S) = true <-> s ∈ S.
Proof. unfold owned; simpl. by rewrite bool_decide_eq_true. Qed.

Lemma ix_at_same v i p S p' S' s m u :
  v !! i = Some (p, S) ->
  (s ∈ S <-> s ∈ S') -> (s ∈ S -> p = p') ->
  ix_at v s m u -> ix_at (<[i := (p', S')]> v) s m u.
Proof.
  intros Hi HS Hp [Hu Hm].
  assert (owned s (p, S) = owned s (p', S')) as HO.
  { unfold owned; simpl. by apply bool_decide_ext. }
  split.
  - pose proof (cnt_insert (owned s) v i _ (p', S') Hi) as E.
    unfold occ in *. rewrite HO in E. lia.
  - intros q. rewrite Hm. f_equal. unfold hist.
    pose proof (cnt_insert (owned_at s q) v i _ (p', S') Hi) as E.
    replace (owned_at s q (p, S)) with (owned_at s q (p', S')) in E; [lia|].
    unfold owned_at. rewrite <- HO. destruct (owned s (p, S)) eqn:HO'; [|done].
    apply owned_true in HO'. simpl. by rewrite Hp.
Qed.

Lemma hist_pos v i p S s :
  v !! i = Some (p, S) -> s ∈ S -> 0 < hist v s p /\ 0 < occ v s.
Proof.
  intros Hi Hs. unfold hist, occ.
  split; apply cnt_pos; exists i, (p, S); (split; [done|]);
    unfold owned_at; rewrite ?(proj2 (owned_true s p S)) by done; simpl; [|done].
  apply Z.eqb_refl.
Qed.

Lemma ix_at_dec v i p S p' S' s m u :
  v !! i = Some (p, S) -> s ∈ S -> s ∉ S' -> ix_at v s m u ->
  exists k, m !! p = Some k /\ (0 < u)%Z /\
    ix_at (<[i := (p', S')]> v) s
      (if (k - 1 =? 0)%Z then delete p m else <[p := (k - 1)%Z]> m) (u - 1).
Proof.
  intros Hi Hs Hs' [Hu Hm].
  destruct (hist_pos v i p S s Hi Hs) as [Hp Ho].
  exists (Z.of_nat (hist v s p)).
  split; [rewrite Hm; unfold count_opt; destruct (hist v s p); [lia | done]|].
  split; [lia|].
  assert (owned s (p', S') = false) as HO'.
  { unfold owned; simpl. by apply bool_decide_eq_false. }
  pose proof (proj2 (owned_true s p S) Hs) as HO.
  assert (forall q, hist (<[i := (p', S')]> v) s q =
                    if decide (q = p) then hist v s p - 1 else hist v s q) as HH.
  { intros q. unfold hist. pose proof (cnt_insert (owned_at s q) v i _ (p', S') Hi) as E.
    unfold owned_at in *. rewrite HO, HO' in E. simpl in E.
    case_decide; subst; rewrite ?Z.eqb_refl in E; simpl in E; [lia|].
    destruct (p =? q)%Z eqn:Eq; bprop; [congruence | simpl in E; lia]. }
  split.
  - pose proof (cnt_insert (owned s) v i _ (p', S') Hi) as E.
    unfold occ in *. rewrite HO, HO' in E. simpl in E. lia.
  - intros q. rewrite HH. unfold count_opt in *.
    destruct (Z.of_nat (hist v s p) - 1 =? 0)%Z eqn:E; bprop; case_decide; subst.
    + rewrite lookup_delete_eq. destruct (hist v s p - 1 =? 0) eqn:E'; bprop; [done | lia].
    + by rewrite lookup_delete_ne, Hm by done.
    + rewrite lookup_insert_eq. destruct (hist v s p - 1 =? 0) eqn:E'; bprop; [lia|].
      f_equal; lia.
    + by rewrite lookup_insert_ne, Hm by done.
Qed.

Lemma ix_at_inc v i p0 S0 p S s m u :
  v !! i = Some (p0, S0) -> s ∉ S0 -> s ∈ S -> ix_at v s m u ->
  ix_at (<[i := (p, S)]> v) s (<[p := (default 0 (m !! p) + 1)%Z]> m) (u + 1).
Proof.
  intros Hi Hs Hs' [Hu Hm].
  assert (owned s (p0, S0) = false) as HO.
  { unfold owned; simpl. by apply bool_decide_eq_false. }
  pose proof (proj2 (owned_true s p S) Hs') as HO'.
  split.
  - pose proof (cnt_insert (owned s) v i _ (p, S) Hi) as E.
    unfold occ in *. rewrite HO, HO' in E. simpl in E. lia.
  - intros q. unfold hist in *.
    pose proof (cnt_insert (owned_at s q) v i _ (p, S) Hi) as E.
    unfold owned_at in *. rewrite HO, HO' in E. simpl in E.
    destruct (decide (q = p)) as [->|Hq].
    + rewrite lookup_insert_eq, Hm. rewrite Z.eqb_refl in E. simpl in E.
      unfold count_opt. destruct (cnt _ v =? 0) eqn:E1; destruct (cnt _ (<[i := _]> v) =? 0) eqn:E2;
        bprop; try lia; simpl; f_equal; lia.
    + rewrite lookup_insert_ne, Hm by done. f_equal.
      destruct (p =? q)%Z eqn:Eq; bprop; [congruence|]. simpl in E. lia.
Qed.

(** ** The loops over the sequences of one cell *)

Lemma seq_ids_NoDup : NoDup seq_ids.
Proof. apply NoDup_seq. Qed.

Lemma elem_of_seq_ids s : s ∈ seq_ids <-> s < LLAMA_MAX_SEQ.
Proof. unfold seq_ids. rewrite elem_of_seq. lia. Qed.

#[global] Opaque seq_ids LLAMA_MAX_SEQ.

(** Only the index differs. *)
Definition same_cells (c c' : kv_cells) : Prop :=
  c' = set_index (c_seq_pos c') (c_seq_used c') c.

Lemma same_cells_refl c : same_cells c c.
Proof. by destruct c. Qed.

Lemma same_cells_trans c1 c2 c3 : same_cells c1 c2 -> same_cells c2 c3 -> same_cells c1 c3.
Proof. unfold same_cells. intros H1 H2. rewrite H2, H1. done. Qed.

Lemma same_cells_fields c c' :
  same_cells c c' ->
  c_has_shift c' = c_has_shift c /\ c_used c' = c_used c /\ c_pos c' = c_pos c /\
  c_ext c' = c_ext c /\ c_shift c' = c_shift c /\ c_seq c' = c_seq c.
Proof. unfold same_cells. intros ->. done. Qed.

(** Slots of the index, pointwise: [R s] relates sequence [s]. *)
Definition ix_rel (R : nat -> gmap Z Z -> Z -> Prop) (c : kv_cells) : Prop :=
  length (c_seq_pos c) = LLAMA_MAX_SEQ /\ length (c_seq_used c) = LLAMA_MAX_SEQ /\
  forall s, s < LLAMA_MAX_SEQ -> exists m u,
    c_seq_pos c !! s = Some m /\ c_seq_used c !! s = Some u /\ R s m u.

Lemma ix_rel_update R R' s m' u' c :
  ix_rel R c ->
  (forall t m u, t <> s -> t < LLAMA_MAX_SEQ -> R t m u -> R' t m u) ->
  (s < LLAMA_MAX_SEQ -> R' s m' u') ->
  ix_rel R' (set_index (<[s := m']> (c_seq_pos c)) (<[s := u']> (c_seq_used c)) c).
Proof.
  intros (Hl1 & Hl2 & HR) Ht Hs. split; [|split]; simpl.
  - by rewrite length_insert.
  - by rewrite length_insert.
  - intros t Hlt. destruct (HR t Hlt) as (m & u & Em & Eu & HRt).
    destruct (decide (t = s)) as [->|Hne].
    + exists m', u'. rewrite !list_lookup_insert_eq by lia. auto.
    + exists m, u. rewrite !list_lookup_insert_ne by done. eauto.
Qed.

Lemma ix_rel_mono (R R' : nat -> gmap Z Z -> Z -> Prop) c :
  ix_rel R c -> (forall s m u, s < LLAMA_MAX_SEQ -> R s m u -> R' s m u) -> ix_rel R' c.
Proof.
  intros (Hl1 & Hl2 & HR) H. split; [done|split; [done|]].
  intros s Hs. destruct (HR s Hs) as (m & u & ? & ? & ?). eauto 10.
Qed.

Lemma ix_rel_ok v c : ix_rel (ix_at v) c <-> ix_ok v (c_seq_pos c) (c_seq_used c).
Proof. reflexivity. Qed.

Lemma seq_pos_dec_spec v i p S p' S' s c :
  v !! i = Some (p, S) -> s ∈ S -> s ∉ S' -> s < LLAMA_MAX_SEQ ->
  (exists m u, c_seq_pos c !! s = Some m /\ c_seq_used c !! s = Some u /\ ix_at v s m u) ->
  exists m' u', seq_pos_dec s p c =
    Ok (set_index (<[s := m']> (c_seq_pos c)) (<[s := u']> (c_seq_used c)) c) /\
    ix_at (<[i := (p', S')]> v) s m' u'.
Proof.
  intros Hi Hs Hs' Hlt (m & u & Em & Eu & Hat).
  destruct (ix_at_dec v i p S p' S' s m u Hi Hs Hs' Hat) as (k & Ek & Hu & Hat').
  eexists _, _. split; [|exact Hat'].
  unfold seq_pos_dec. rewrite (vec_get_Some _ _ _ Em); simpl. rewrite Ek.
  rewrite (vec_get_Some _ _ _ Eu); simpl. rewrite (assert_true _ (proj2 (Z.ltb_lt _ _) Hu)). done.
Qed.

Lemma seq_pos_inc_spec v i p0 S0 p S s c :
  v !! i = Some (p0, S0) -> s ∉ S0 -> s ∈ S -> s < LLAMA_MAX_SEQ ->
  (exists m u, c_seq_pos c !! s = Some m /\ c_seq_used c !! s = Some u /\ ix_at v s m u) ->
  exists m' u', seq_pos_inc s p c =
    Ok (set_index (<[s := m']> (c_seq_pos c)) (<[s := u']> (c_seq_used c)) c) /\
    ix_at (<[i := (p, S)]> v) s m' u'.
Proof.
  intros Hi Hs Hs' Hlt (m & u & Em & Eu & Hat).
  eexists _, _. split; [|by eapply ix_at_inc].
  unfold seq_pos_inc. rewrite (vec_get_Some _ _ _ Em); simpl.
  rewrite (vec_get_Some _ _ _ Eu); done.
Qed.

(** One pass of a loop body that moves each sequence from [R] to [R']. *)
Lemma index_loop (f : kv_cells -> nat -> outcome kv_cells) (R R' : nat -> gmap Z Z -> Z -> Prop) c0 :
  ix_rel R c0 ->
  (forall c s, same_cells c0 c -> s < LLAMA_MAX_SEQ ->
     (exists m u, c_seq_pos c !! s = Some m /\ c_seq_used c !! s = Some u /\ R s m u) ->
     (f c s = Ok c /\ (forall m u, R s m u -> R' s m u)) \/
     exists m' u', f c s = Ok (set_index (<[s := m']> (c_seq_pos c)) (<[s := u']> (c_seq_used c)) c)
       /\ R' s m' u') ->
  exists c', foldM f seq_ids c0 = Ok c' /\ same_cells c0 c' /\ ix_rel R' c'.
Proof.
  intros H0 Hf.
  set (I := fun (l : list nat) c => NoDup l /\ (forall s, s ∈ l -> s < LLAMA_MAX_SEQ) /\
    same_cells c0 c /\ ix_rel (fun s m u => if decide (s ∈ l) then R s m u else R' s m u) c).
  destruct (foldM_inv f I seq_ids c0) as (c' & E & _ & _ & Hsame & Hix).
  - unfold I. split; [apply seq_ids_NoDup|]. split; [|split; [apply same_cells_refl|]].
    { intros s. apply elem_of_seq_ids. }
    eapply ix_rel_mono; [exact H0|]. intros s m u Hs HR.
    rewrite decide_True; [done|]. by apply elem_of_seq_ids.
  - intros s l c (Hnd & Hl & Hsame & Hix).
    apply NoDup_cons in Hnd as [Hnin Hnd].
    assert (s < LLAMA_MAX_SEQ) as Hs by (apply Hl; left).
    pose proof Hix as (_ & _ & HR). destruct (HR s Hs) as (m & u & Em & Eu & HRs).
    cbv beta in HRs. rewrite decide_True in HRs by (by left).
    destruct (Hf c s Hsame Hs) as [[E Himp] | (m' & u' & E & HR')]; [by eauto|..].
    + exists c. split; [done|]. unfold I. split; [done|]. split; [intros; apply Hl; by right|].
      split; [done|]. eapply ix_rel_mono; [exact Hix|]. intros t mt ut Ht HRt. simpl in HRt.
      destruct (decide (t = s)) as [->|Hne].
      * rewrite decide_False by done. rewrite decide_True in HRt by (by left). by apply Himp.
      * destruct (decide (t ∈ l)); [by rewrite decide_True in HRt by (by right)|].
        rewrite decide_False in HRt; [done|]. intros [?|?]%elem_of_cons; done.
    + eexists. split; [exact E|]. unfold I. split; [done|]. split; [intros; apply Hl; by right|].
      split; [eapply same_cells_trans; [exact Hsame | done]|].
      eapply ix_rel_update; [exact Hix| |].
      * intros t mt ut Hne Ht HRt. simpl in HRt.
        destruct (decide (t ∈ l)); [by rewrite decide_True in HRt by (by right)|].
        rewrite decide_False in HRt; [done|]. intros [?|?]%elem_of_cons; done.
      * intros _. by rewrite decide_False.
  - exists c'. split; [done|]. split; [done|]. eapply ix_rel_mono; [exact Hix|].
    intros s m u _ HR. cbv beta in HR. by rewrite decide_False in HR by apply not_elem_of_nil.
Qed.

Lemma view_lookup c i p S :
  view c !! i = Some (p, S) <-> c_pos c !! i = Some p /\ c_seq c !! i = Some S.
Proof.
  rewrite lookup_zip_with_Some. split.
  - intros (p' & S' & E & ? & ?). by simplify_eq.
  - intros [? ?]. eauto 10.
Qed.

Lemma view_insert P Q i (p : Z) (S : gset nat) :
  zip (<[i := p]> P) (<[i := S]> Q) = <[i := (p, S)]> (zip P Q).
Proof. symmetry. apply insert_zip_with. Qed.

Lemma seq_pos_rm_spec c i p S p' :
  c_pos c !! i = Some p -> c_seq c !! i = Some S ->
  (forall s, s ∈ S -> s < LLAMA_MAX_SEQ) ->
  ix_rel (ix_at (view c)) c ->
  exists c', seq_pos_rm i c = Ok c' /\ same_cells c c' /\
    ix_rel (ix_at (<[i := (p', ∅)]> (view c))) c'.
Proof.
  intros Hp HS Hids Hix. unfold seq_pos_rm.
  rewrite (vec_get_Some _ _ _ HS), (vec_get_Some _ _ _ Hp); simpl.
  assert (view c !! i = Some (p, S)) as Hv by (by apply view_lookup).
  eapply index_loop; [exact Hix|]. intros c1 s _ Hlt Hslot.
  case_decide as Hin.
  - right. eapply (seq_pos_dec_spec (view c) i p S p' ∅ s c1); eauto. set_solver.
  - left. split; [done|]. intros m u Hat. eapply ix_at_same; [exact Hv|clear -Hin; set_solver|done|done].
Qed.

Lemma seq_pos_add_spec v c i p0 p S :
  c_pos c !! i = Some p -> c_seq c !! i = Some S ->
  (forall s, s ∈ S -> s < LLAMA_MAX_SEQ) ->
  v !! i = Some (p0, ∅) ->
  ix_rel (ix_at v) c ->
  exists c', seq_pos_add i c = Ok c' /\ same_cells c c' /\
    ix_rel (ix_at (<[i := (p, S)]> v)) c'.
Proof.
  intros Hp HS Hids Hv Hix. unfold seq_pos_add.
  rewrite (vec_get_Some _ _ _ HS), (vec_get_Some _ _ _ Hp); simpl.
  eapply index_loop; [exact Hix|]. intros c1 s _ Hlt Hslot.
  case_decide as Hin.
  - right. eapply (seq_pos_inc_spec v i p0 ∅ p S s c1); eauto. set_solver.
  - left. split; [done|]. intros m u Hat. eapply ix_at_same; [exact Hv|clear -Hin; set_solver|clear; set_solver|done].
Qed.

(** Rewriting one cell keeps well-formedness when the index follows. *)
Lemma wf_put c c' i p' sh' S' :
  cells_wf c -> i < cells_size c ->
  c_pos c' = <[i := p']> (c_pos c) -> c_shift c' = <[i := sh']> (c_shift c) ->
  c_seq c' = <[i := S']> (c_seq c) -> length (c_ext c') = length (c_ext c) ->
  (-1 <= p')%Z -> (p' = (-1)%Z -> S' = ∅ /\ sh' = 0%Z) ->
  (forall s, s ∈ S' -> s < LLAMA_MAX_SEQ) ->
  (forall j, j ∈ c_used c' <-> (j = i /\ p' <> (-1)%Z) \/ (j <> i /\ j ∈ c_used c)) ->
  ix_rel (ix_at (<[i := (p', S')]> (view c))) c' ->
  cells_wf c'.
Proof.
  unfold cells_size. intros [] Hi Ep Es Eq Ee Hp Hfree Hids Hused Hix.
  assert (i < length (c_seq c)) by lia. assert (i < length (c_shift c)) by lia.
  split.
  - rewrite Ep, length_insert. lia.
  - rewrite Ep, Es, !length_insert. lia.
  - rewrite Ep, Eq, !length_insert. lia.
  - intros j q. rewrite Ep, list_lookup_insert.
    case_decide; [intros; by simplify_eq | eauto].
  - intros j. rewrite Hused, Ep, list_lookup_insert. case_decide as Hd.
    + destruct Hd as [-> ?]. split.
      * intros [[_ ?]|[? _]]; [eauto | done].
      * intros (q & ? & ?). simplify_eq; auto.
    + assert (j <> i) by (intros ->; tauto). rewrite wf_used0.
      split; [intros [[? _]|[_ ?]]; done | auto].
  - intros j. rewrite Ep, Eq, Es, !list_lookup_insert.
    destruct (decide (i = j)) as [->|Hn].
    + rewrite !decide_True by done. intros [= ?].
      destruct (Hfree ltac:(done)) as [-> ->]. done.
    + rewrite !decide_False by (by intros [??]). apply wf_free0.
  - intros j S s. rewrite Eq, list_lookup_insert. case_decide; [|eauto].
    intros [= <-]; auto.
  - apply ix_rel_ok. rewrite Ep, Eq, view_insert. exact Hix.
Qed.

Lemma wf_view c i :
  cells_wf c -> i < cells_size c ->
  exists p S sh e, c_pos c !! i = Some p /\ c_seq c !! i = Some S /\
    c_shift c !! i = Some sh /\ c_ext c !! i = Some e.
Proof.
  unfold cells_size; intros [] Hi.
  destruct (lookup_lt_is_Some_2 (c_pos c) i) as [p Hp]; [lia|].
  destruct (lookup_lt_is_Some_2 (c_seq c) i) as [S HS]; [lia|].
  destruct (lookup_lt_is_Some_2 (c_shift c) i) as [sh Hsh]; [lia|].
  destruct (lookup_lt_is_Some_2 (c_ext c) i) as [e He]; [lia|]. eauto 10.
Qed.

Lemma used_cell_Some c i p :
  c_pos c !! i = Some p -> p <> (-1)%Z -> used_cell i c = Ok p.
Proof. intros Hp Hne. unfold used_cell. rewrite Hp. by rewrite (proj2 (Z.eqb_neq _ _) Hne). Qed.

Lemma used_cell_Ok c i p :
  used_cell i c = Ok p -> c_pos c !! i = Some p /\ p <> (-1)%Z.
Proof.
  unfold used_cell. destruct (c_pos c !! i); intros; inv_ok.
  apply assert_Ok, negb_true_iff in E. by bprop.
Qed.

Lemma seq_test_Ok c i s S :
  c_seq c !! i = Some S -> s < LLAMA_MAX_SEQ -> seq_test i s c = Ok (bool_decide (s ∈ S)).
Proof.
  intros HS Hs. unfold seq_test. rewrite (vec_get_Some _ _ _ HS); simpl.
  by rewrite (proj2 (Nat.ltb_lt _ _) Hs).
Qed.

(** ** The operations keep well-formedness and do what they say *)

(** Result of emptying cell [i]. *)
Definition emptied (i : nat) (c c' : kv_cells) : Prop :=
  c_pos c' = <[i := (-1)%Z]> (c_pos c) /\ c_seq c' = <[i := ∅]> (c_seq c) /\
  c_shift c' = <[i := 0%Z]> (c_shift c) /\ c_ext c' = <[i := ext_reset]> (c_ext c).

Lemma wf_ix c : cells_wf c -> ix_rel (ix_at (view c)) c.
Proof. intros []. by apply ix_rel_ok. Qed.

Lemma empty_cell_wf c c1 i p S :
  cells_wf c -> c_pos c !! i = Some p -> c_seq c !! i = Some S -> same_cells c c1 ->
  ix_rel (ix_at (<[i := ((-1)%Z, ∅)]> (view c))) c1 ->
  cells_wf (empty_cell i (seq_reset i c1)) /\ emptied i c (empty_cell i (seq_reset i c1)).
Proof.
  intros Hwf Hp HS Hsame Hix.
  destruct (same_cells_fields _ _ Hsame) as (_ & Eu & Ep & Ee & Es & Eq).
  assert (emptied i c (empty_cell i (seq_reset i c1))) as Hem.
  { unfold emptied; simpl. by rewrite Ep, Ee, Es, Eq. }
  split; [|done]. destruct Hem as (E1 & E2 & E3 & E4).
  eapply (wf_put c _ i (-1) 0 ∅); eauto.
  - by eapply lookup_lt_Some.
  - by rewrite E4, length_insert.
  - lia.
  - set_solver.
  - intros j; simpl. rewrite Eu. clear. set_solver.
Qed.

Lemma rm_spec c i p :
  cells_wf c -> c_pos c !! i = Some p -> p <> (-1)%Z ->
  exists c', rm i c = Ok c' /\ cells_wf c' /\ emptied i c c'.
Proof.
  intros Hwf Hp Hne.
  destruct (wf_view c i Hwf) as (p' & S & sh & e & Hp' & HS & _); [by eapply lookup_lt_Some|].
  rewrite Hp in Hp'; injection Hp' as <-.
  destruct (seq_pos_rm_spec c i p S (-1) Hp HS) as (c1 & E & Hsame & Hix).
  { intros. by eapply (wf_ids c Hwf). } { by apply wf_ix. }
  unfold rm. rewrite (used_cell_Some _ _ _ Hp Hne); simpl. rewrite E; simpl.
  eexists; split; [done|]. by eapply empty_cell_wf.
Qed.

Lemma pos_set_spec c i p :
  cells_wf c -> c_pos c !! i = Some (-1)%Z -> (0 <= p)%Z ->
  exists c', pos_set i p c = Ok c' /\ cells_wf c' /\
    c_pos c' = <[i := p]> (c_pos c) /\ c_seq c' = c_seq c /\ c_shift c' = c_shift c /\
    c_ext c' = c_ext c /\ c_has_shift c' = c_has_shift c.
Proof.
  intros Hwf Hp Hge. destruct (wf_free c Hwf i Hp) as [HS Hsh].
  unfold pos_set. rewrite Hp; simpl. rewrite (vec_get_Some _ _ _ HS); simpl.
  eexists; split; [done|]. split; [|done].
  apply (wf_put c _ i p 0 ∅); simpl; try rewrite (list_insert_id _ _ _ Hsh); try rewrite (list_insert_id _ _ _ HS); try done.
  all: try lia.
  { by eapply lookup_lt_Some. }
  - intros j. rewrite elem_of_union, elem_of_singleton.
    destruct (decide (j = i)) as [->|]; [intuition lia | tauto].
  - apply (ix_rel_mono (ix_at (view c))); [exact (wf_ix c Hwf)|]. intros s m u _ Hat.
    eapply (ix_at_same _ i (-1)%Z ∅); [by apply view_lookup | done | clear; set_solver | done].
Qed.

Lemma seq_add_spec c i p S s :
  cells_wf c -> c_pos c !! i = Some p -> p <> (-1)%Z -> c_seq c !! i = Some S ->
  s ∉ S -> s < LLAMA_MAX_SEQ ->
  exists c', seq_add i s c = Ok c' /\ cells_wf c' /\
    c_pos c' = c_pos c /\ c_seq c' = <[i := {[s]} ∪ S]> (c_seq c) /\ c_shift c' = c_shift c /\
    c_ext c' = c_ext c /\ c_has_shift c' = c_has_shift c /\ c_used c' = c_used c.
Proof.
  intros Hwf Hp Hne HS Hs Hlt.
  assert (view c !! i = Some (p, S)) as Hv by (by apply view_lookup).
  destruct (wf_ix c Hwf) as (Hl1 & Hl2 & Hsl).
  destruct (seq_pos_inc_spec (view c) i p S p ({[s]} ∪ S) s
              (set_seq (<[i := {[s]} ∪ S]> (c_seq c)) c) Hv) as (m' & u' & E & Hat);
    [set_solver|set_solver|done|by apply Hsl|].
  unfold seq_add. rewrite (used_cell_Some _ _ _ Hp Hne); simpl.
  rewrite (seq_test_Ok _ _ _ _ HS Hlt); simpl.
  rewrite bool_decide_eq_false_2 by done; simpl.
  rewrite (vec_get_Some _ _ _ HS); simpl. rewrite E.
  eexists; split; [done|]. split; [|done].
  destruct (wf_view c i Hwf) as (? & ? & sh & e & _ & _ & Hsh & He); [by eapply lookup_lt_Some|].
  eapply (wf_put c _ i p sh ({[s]} ∪ S)); simpl; eauto.
  - by eapply lookup_lt_Some.
  - by rewrite list_insert_id.
  - by rewrite list_insert_id.
  - by eapply (wf_pos c Hwf).
  - done.
  - intros t [->%elem_of_singleton|?]%elem_of_union; [done|]. by eapply (wf_ids c Hwf).
  - intros j. destruct (decide (j = i)) as [->|]; [|tauto].
    split; [auto|]. intros _. apply (wf_used c Hwf). eauto.
  - apply (ix_rel_update (ix_at (view c)) _ s m' u' (set_seq (<[i := {[s]} ∪ S]> (c_seq c)) c)); [exact (wf_ix c Hwf)| |done].
    intros t m u Hne' _ Hat'. eapply ix_at_same; [exact Hv|set_solver|done|done].
Qed.

(** What every operation below leaves alone outside cell [i]. *)
Definition cell_is (c : kv_cells) (i : nat) (p : Z) (S : gset nat) (sh : Z) (e : kv_cell_ext) : Prop :=
  c_pos c !! i = Some p /\ c_seq c !! i = Some S /\ c_shift c !! i = Some sh /\ c_ext c !! i = Some e.

Definition put_cell (c : kv_cells) (i : nat) (p : Z) (S : gset nat) (sh : Z) (e : kv_cell_ext) (c' : kv_cells) : Prop :=
  c_pos c' = <[i := p]> (c_pos c) /\ c_seq c' = <[i := S]> (c_seq c) /\
  c_shift c' = <[i := sh]> (c_shift c) /\ c_ext c' = <[i := e]> (c_ext c).

Lemma cell_is_lt c i p S sh e : cell_is c i p S sh e -> i < cells_size c.
Proof. intros (Hp & _). by eapply lookup_lt_Some. Qed.

Lemma wf_cell c i : cells_wf c -> i < cells_size c -> exists p S sh e, cell_is c i p S sh e.
Proof. apply wf_view. Qed.

Lemma cell_is_view c i p S sh e : cell_is c i p S sh e -> view c !! i = Some (p, S).
Proof. intros (? & ? & _). by apply view_lookup. Qed.

Lemma wf_cell_ids c i p S sh e :
  cells_wf c -> cell_is c i p S sh e -> forall s, s ∈ S -> s < LLAMA_MAX_SEQ.
Proof. intros Hwf (_ & HS & _) s. by eapply wf_ids. Qed.

Lemma wf_cell_used c i p S sh e :
  cells_wf c -> cell_is c i p S sh e -> i ∈ c_used c <-> p <> (-1)%Z.
Proof.
  intros Hwf (Hp & _). rewrite (wf_used c Hwf). split; [|eauto].
  intros (q & Hq & ?). by simplify_eq.
Qed.

(** [wf_put] in terms of whole cells. *)
Lemma wf_put_cell c c' i p S sh e p' S' sh' e' :
  cells_wf c -> cell_is c i p S sh e -> put_cell c i p' S' sh' e' c' ->
  (-1 <= p')%Z -> (p' = (-1)%Z -> S' = ∅ /\ sh' = 0%Z) ->
  (forall s, s ∈ S' -> s < LLAMA_MAX_SEQ) ->
  (forall j, j ∈ c_used c' <-> (j = i /\ p' <> (-1)%Z) \/ (j <> i /\ j ∈ c_used c)) ->
  ix_rel (ix_at (<[i := (p', S')]> (view c))) c' ->
  cells_wf c'.
Proof.
  intros Hwf Hc (E1 & E2 & E3 & E4). eapply wf_put; eauto using cell_is_lt.
  by rewrite E4, length_insert.
Qed.

Lemma used_same c i p S sh e p' :
  cells_wf c -> cell_is c i p S sh e -> p <> (-1)%Z -> p' <> (-1)%Z ->
  forall j, j ∈ c_used c <-> (j = i /\ p' <> (-1)%Z) \/ (j <> i /\ j ∈ c_used c).
Proof.
  intros Hwf Hc Hne Hne' j. destruct (decide (j = i)) as [->|]; [|tauto].
  rewrite (wf_cell_used c i _ _ _ _ Hwf Hc). tauto.
Qed.

Lemma used_erase (X : gset nat) i (j : nat) :
  j ∈ X ∖ {[i]} <-> (j = i /\ (-1)%Z <> (-1)%Z) \/ (j <> i /\ j ∈ X).
Proof. rewrite elem_of_difference, elem_of_singleton. tauto. Qed.

Lemma seq_rm_spec c i s p S sh e :
  cells_wf c -> cell_is c i p S sh e -> p <> (-1)%Z -> s ∈ S ->
  exists c', seq_rm i s c = Ok (bool_decide (S ∖ {[s]} = ∅), c') /\ cells_wf c' /\
    c_has_shift c' = c_has_shift c /\
    if decide (S ∖ {[s]} = ∅) then put_cell c i (-1) ∅ 0 ext_reset c'
    else put_cell c i p (S ∖ {[s]}) sh e c'.
Proof.
  intros Hwf Hc Hne Hs. pose proof Hc as (Hp & HS & Hsh & He).
  assert (s < LLAMA_MAX_SEQ) as Hlt by (by eapply wf_cell_ids).
  destruct (wf_ix c Hwf) as (Hl1 & Hl2 & Hsl).
  set (c0 := set_seq (<[i := S ∖ {[s]}]> (c_seq c)) c).
  set (p' := if decide (S ∖ {[s]} = ∅) then (-1)%Z else p).
  destruct (seq_pos_dec_spec (view c) i p S p' (S ∖ {[s]}) s c0 (cell_is_view _ _ _ _ _ _ Hc))
    as (m' & u' & E & Hat); [done|clear; set_solver|done|by apply Hsl|].
  assert (ix_rel (ix_at (<[i := (p', S ∖ {[s]})]> (view c)))
    (set_index (<[s := m']> (c_seq_pos c0)) (<[s := u']> (c_seq_used c0)) c0)) as Hix.
  { apply (ix_rel_update (ix_at (view c))); [exact (wf_ix c Hwf)| |done].
    intros t m u Hts _ Hat'. eapply ix_at_same; [by eapply cell_is_view| | |done].
    - clear -Hts; set_solver.
    - intros Ht. unfold p'. rewrite decide_False; [done|]. clear -Ht Hts; set_solver. }
  unfold seq_rm. rewrite (assert_true _ (proj2 (Nat.ltb_lt _ _) (cell_is_lt _ _ _ _ _ _ Hc))); simpl.
  rewrite (seq_test_Ok _ _ _ _ HS Hlt); simpl. rewrite bool_decide_eq_true_2 by done; simpl.
  rewrite (used_cell_Some _ _ _ Hp Hne), (vec_get_Some _ _ _ HS); simpl.
  fold c0. rewrite E; simpl. unfold p' in *.
  destruct (decide (S ∖ {[s]} = ∅)) as [HE|HE].
  - rewrite bool_decide_eq_true_2 by done. eexists; split; [done|]. rewrite HE in *.
    match goal with |- cells_wf ?x /\ _ => assert (put_cell c i (-1) ∅ 0 ext_reset x) as Hput end.
    { unfold put_cell; simpl. by rewrite HE. }
    split; [|done]. eapply wf_put_cell; [done|done|exact Hput|lia|done|set_solver| |exact Hix].
    intros j; apply used_erase.
  - rewrite bool_decide_eq_false_2 by done. eexists; split; [done|].
    match goal with |- cells_wf ?x /\ _ => assert (put_cell c i p (S ∖ {[s]}) sh e x) as Hput end.
    { unfold put_cell; simpl. by rewrite (list_insert_id _ _ _ Hp), (list_insert_id _ _ _ Hsh), (list_insert_id _ _ _ He). }
    split; [|done].
    eapply wf_put_cell; [done|done|exact Hput|by eapply wf_pos|done| | |exact Hix].
    2: exact (used_same c i p S sh e p Hwf Hc Hne Hne).
    intros t Ht. eapply wf_cell_ids; [done|done|]. clear -Ht; set_solver.
Qed.

(** The loops around a change of one cell: take it out of the index, put it back. *)
Lemma unindex c i p S sh e :
  cells_wf c -> cell_is c i p S sh e ->
  exists c', seq_pos_rm i c = Ok c' /\ same_cells c c' /\
    ix_rel (ix_at (<[i := ((-1)%Z, ∅)]> (view c))) c'.
Proof.
  intros Hwf Hc. pose proof Hc as (Hp & HS & _).
  eapply seq_pos_rm_spec; [done|done|by eapply wf_cell_ids|exact (wf_ix c Hwf)].
Qed.

Lemma reindex v c i p S :
  i < length v ->
  ix_rel (ix_at (<[i := ((-1)%Z, ∅)]> v)) c ->
  c_pos c !! i = Some p -> c_seq c !! i = Some S ->
  (forall s, s ∈ S -> s < LLAMA_MAX_SEQ) ->
  exists c', seq_pos_add i c = Ok c' /\ same_cells c c' /\ ix_rel (ix_at (<[i := (p, S)]> v)) c'.
Proof.
  intros Hlt Hix Hp HS Hids.
  destruct (seq_pos_add_spec _ c i (-1) p S Hp HS Hids (list_lookup_insert_eq _ _ _ Hlt) Hix)
    as (c' & E & Hsame & Hix').
  exists c'. rewrite list_insert_insert_eq in Hix'. done.
Qed.

Lemma same_cells_put c c1 c2 i p S sh e :
  same_cells c1 c2 -> put_cell c i p S sh e c1 -> put_cell c i p S sh e c2.
Proof.
  intros Hs (E1 & E2 & E3 & E4).
  destruct (same_cells_fields _ _ Hs) as (_ & _ & F1 & F2 & F3 & F4).
  unfold put_cell. by rewrite F1, F2, F3, F4.
Qed.

Lemma put_cell_at c c' i p0 S0 sh0 e0 p S sh e :
  cell_is c i p0 S0 sh0 e0 -> put_cell c i p S sh e c' -> cell_is c' i p S sh e.
Proof.
  intros (Hp & HS & Hsh & He) (E1 & E2 & E3 & E4). unfold cell_is.
  rewrite E1, E2, E3, E4, !list_lookup_insert_eq; try done; by eapply lookup_lt_Some.
Qed.

Lemma pos_add_spec c i d p S sh e :
  cells_wf c -> cell_is c i p S sh e -> p <> (-1)%Z ->
  in_i32 (p + d) = true -> in_i32 (sh + d) = true ->
  exists c', pos_add i d c = Ok ((p + d <? 0)%Z, c') /\ cells_wf c' /\ c_has_shift c' = true /\
    if (p + d <? 0)%Z then put_cell c i (-1) ∅ 0 e c' else put_cell c i (p + d) S (sh + d) e c'.
Proof.
  intros Hwf Hc Hne Hr Hr'. pose proof Hc as (Hp & HS & Hsh & He).
  destruct (unindex c i _ _ _ _ Hwf Hc) as (c1 & E & Hsame & Hix).
  destruct (same_cells_fields _ _ Hsame) as (_ & Fu & Fp & Fe & Fs & Fq).
  unfold pos_add. rewrite (used_cell_Some _ _ _ Hp Hne); simpl. rewrite E; simpl.
  rewrite (i32_of _ Hr); simpl. rewrite Fs, (vec_get_Some _ _ _ Hsh); simpl.
  rewrite (i32_of _ Hr'); simpl.
  set (c2 := set_has_shift true _).
  assert (i < length (c_pos c)) as Hlt by (by eapply cell_is_lt).
  destruct (p + d <? 0)%Z eqn:Hd; bprop.
  - eexists; split; [done|].
    match goal with |- cells_wf ?x /\ _ => assert (put_cell c i (-1) ∅ 0 e x) as Hput end.
    { unfold put_cell, c2; simpl. rewrite ?Fs, ?Fp, ?Fq, ?Fe, !list_insert_insert_eq.
      by rewrite (list_insert_id _ _ _ He). }
    split; [|done]. eapply wf_put_cell; [done|done|exact Hput|lia|done|set_solver| |exact Hix].
    intros j; simpl. rewrite Fu. apply used_erase.
  - destruct (reindex (view c) c2 i (p + d) S (lookup_lt_Some _ _ _ (cell_is_view _ _ _ _ _ _ Hc)) Hix)
      as (c3 & E3 & Hsame3 & Hix3).
    { simpl. rewrite Fp. by apply list_lookup_insert_eq. } { simpl. by rewrite Fq. }
    { by eapply wf_cell_ids. }
    rewrite E3; simpl. eexists; split; [done|].
    assert (put_cell c i (p + d) S (sh + d) e c3) as Hput.
    { eapply same_cells_put; [exact Hsame3|]. unfold put_cell, c2; simpl.
      by rewrite ?Fs, ?Fp, ?Fq, ?Fe, (list_insert_id _ _ _ HS), (list_insert_id _ _ _ He). }
    destruct (same_cells_fields _ _ Hsame3) as (Gh & Gu & _).
    split; [|by rewrite Gh].
    eapply wf_put_cell; [done|done|exact Hput|lia|lia|by eapply wf_cell_ids| |exact Hix3].
    rewrite Gu; simpl. rewrite Fu. apply (used_same c i p S sh e); (done || lia).
Qed.

Lemma pos_div_spec c i d p S sh e :
  cells_wf c -> cell_is c i p S sh e -> p <> (-1)%Z -> (0 < d)%Z ->
  in_i32 (p / d) = true -> in_i32 (p - p / d) = true -> in_i32 (sh + (p - p / d)) = true ->
  exists c', pos_div i d c = Ok c' /\ cells_wf c' /\ c_has_shift c' = true /\
    put_cell c i (p / d) S (sh + (p - p / d)) e c'.
Proof.
  intros Hwf Hc Hne Hd Hr1 Hr2 Hr. pose proof Hc as (Hp & HS & Hsh & He).
  destruct (unindex c i _ _ _ _ Hwf Hc) as (c1 & E & Hsame & Hix).
  destruct (same_cells_fields _ _ Hsame) as (_ & Fu & Fp & Fe & Fs & Fq).
  assert (0 <= p)%Z as Hp0 by (pose proof (wf_pos c Hwf i p Hp); lia).
  assert (0 <= p / d <= p)%Z as Hq.
  { split; [apply Z.div_pos; lia|]. apply Z.div_le_upper_bound; nia. }
  unfold pos_div. rewrite (used_cell_Some _ _ _ Hp Hne); simpl. rewrite E; simpl.
  unfold i32_div. rewrite (proj2 (Z.eqb_neq d 0)) by lia.
  rewrite Z.quot_div_nonneg by lia.
  rewrite (i32_of _ Hr1); simpl.
  rewrite Fs, (vec_get_Some _ _ _ Hsh); simpl.
  rewrite (i32_of _ Hr2); simpl.
  rewrite (i32_of _ Hr); simpl. set (c2 := set_shift _ _).
  assert (i < length (c_pos c)) as Hlt by (by eapply cell_is_lt).
  destruct (reindex (view c) c2 i (p / d) S (lookup_lt_Some _ _ _ (cell_is_view _ _ _ _ _ _ Hc)) Hix)
    as (c3 & E3 & Hsame3 & Hix3).
  { simpl. rewrite Fp. by apply list_lookup_insert_eq. } { simpl. by rewrite Fq. }
  { by eapply wf_cell_ids. }
  rewrite E3; simpl. eexists; split; [done|].
  assert (put_cell c i (p / d) S (sh + (p - p / d)) e c3) as Hput.
  { eapply same_cells_put; [exact Hsame3|]. unfold put_cell, c2; simpl.
    by rewrite ?Fs, ?Fp, ?Fq, ?Fe, (list_insert_id _ _ _ HS), (list_insert_id _ _ _ He). }
  destruct (same_cells_fields _ _ Hsame3) as (Gh & Gu & _).
  split; [|done].
  eapply wf_put_cell; [done|done|exact Hput|lia|lia|by eapply wf_cell_ids| |exact Hix3].
  simpl; rewrite Gu; simpl. rewrite Fu. apply (used_same c i p S sh e); (done || lia).
Qed.

Lemma seq_rm_cell_spec c i s p S sh e :
  cells_wf c -> cell_is c i p S sh e -> s < LLAMA_MAX_SEQ ->
  seq_rm_cell i s c = if decide (s ∈ S) then seq_rm i s c else Ok (false, c).
Proof.
  intros Hwf Hc Hlt. pose proof Hc as (Hp & HS & _).
  unfold seq_rm_cell. rewrite (assert_true _ (proj2 (Nat.ltb_lt _ _) (cell_is_lt _ _ _ _ _ _ Hc))); simpl.
  rewrite (vec_get_Some _ _ _ Hp); simpl. destruct (p =? -1)%Z eqn:Ep; bprop.
  - subst. destruct (wf_free c Hwf i Hp) as [HS' _]. simplify_eq.
    rewrite decide_False; [done | set_solver].
  - rewrite (seq_test_Ok _ _ _ _ HS Hlt); simpl.
    destruct (decide (s ∈ S)); [rewrite bool_decide_eq_true_2 | rewrite bool_decide_eq_false_2]; done.
Qed.

Lemma seq_keep_spec c i s p S sh e :
  cells_wf c -> cell_is c i p S sh e -> s < LLAMA_MAX_SEQ -> (p <> (-1)%Z -> S <> ∅) ->
  exists c', seq_keep i s c = Ok (bool_decide (S <> ∅ /\ s ∉ S), c') /\ cells_wf c' /\
    c_has_shift c' = c_has_shift c /\
    if decide (s ∈ S) then put_cell c i p {[s]} sh e c'
    else if decide (S <> ∅) then put_cell c i (-1) ∅ 0 ext_reset c' else c' = c.
Proof.
  intros Hwf Hc Hlt HSp. pose proof Hc as (Hp & HS & Hsh & He).
  destruct (unindex c i _ _ _ _ Hwf Hc) as (c1 & E & Hsame & Hix).
  destruct (same_cells_fields _ _ Hsame) as (Fh & Fu & Fp & Fe & Fs & Fq).
  assert (i < length (c_pos c)) as Hi by (by eapply cell_is_lt).
  unfold seq_keep. rewrite (assert_true _ (proj2 (Nat.ltb_lt _ _) (cell_is_lt _ _ _ _ _ _ Hc))); simpl.
  rewrite (seq_test_Ok _ _ _ _ HS Hlt); simpl.
  destruct (decide (s ∈ S)) as [Hs|Hs].
  - rewrite bool_decide_eq_true_2 by done.
    assert (p <> (-1)%Z) as Hne.
    { intros ->. destruct (wf_free c Hwf i Hp). simplify_eq. set_solver. }
    rewrite E; simpl. rewrite Fp, (vec_get_Some _ _ _ Hp); simpl.
    set (c2 := set_seq (<[i := {[s]}]> (c_seq c1)) c1).
    assert (<[i := ((-1)%Z, ∅)]> (view c) !! i = Some ((-1)%Z, ∅)) as Hv.
    { apply list_lookup_insert_eq. eapply lookup_lt_Some, (cell_is_view _ _ _ _ _ _ Hc). }
    destruct Hix as (Hl1 & Hl2 & Hsl).
    destruct (seq_pos_inc_spec _ i (-1) ∅ p {[s]} s c2 Hv) as (m' & u' & E2 & Hat);
      [set_solver|set_solver|done|by apply Hsl|].
    rewrite E2; simpl. rewrite bool_decide_eq_false_2 by tauto.
    eexists; split; [done|].
    match goal with |- cells_wf ?x /\ _ => assert (put_cell c i p {[s]} sh e x) as Hput end.
    { unfold put_cell; simpl.
      by rewrite Fp, Fq, Fs, Fe, (list_insert_id _ _ _ Hp), (list_insert_id _ _ _ Hsh), (list_insert_id _ _ _ He). }
    split; [|done].
    eapply wf_put_cell; [done|done|exact Hput|by eapply wf_pos|done|set_solver| |].
    + simpl. rewrite Fu. by eapply used_same.
    + rewrite list_insert_insert_eq in Hat.
      apply (ix_rel_update (ix_at (<[i := ((-1)%Z, ∅)]> (view c))) _ s m' u' c2); [done| |done].
      intros t m u Hts _ Hat'.
      pose proof (ix_at_same _ i _ _ p {[s]} t m u Hv) as Hsm.
      rewrite list_insert_insert_eq in Hsm. apply Hsm; [clear -Hts; set_solver|set_solver|done].
  - rewrite bool_decide_eq_false_2 by done. rewrite (vec_get_Some _ _ _ HS); simpl.
    destruct (decide (S <> ∅)) as [Hne|Hne].
    + rewrite E; simpl. rewrite bool_decide_eq_true_2 by done. eexists; split; [done|].
      destruct (empty_cell_wf c c1 i p S Hwf Hp HS Hsame Hix) as [? ?]. done.
    + assert (S = ∅) as HSe by (by destruct (decide (S = ∅))).
      rewrite (vec_get_Some _ _ _ Hp); simpl.
      assert (p = (-1)%Z) as -> by (destruct (decide (p = (-1)%Z)); [done | by destruct (HSp n)]).
      rewrite bool_decide_eq_false_2 by tauto. eauto 10.
Qed.

(** ** Two well-formed objects with the same cells are the same object *)

Lemma ix_ok_unique v sp su sp' su' :
  ix_ok v sp su -> ix_ok v sp' su' -> sp = sp' /\ su = su'.
Proof.
  intros (L1 & L2 & H) (L1' & L2' & H').
  split; apply (list_eq_same_length _ _ LLAMA_MAX_SEQ); try done; intros s a b Hs Ha Hb;
    destruct (H s Hs) as (m & u & Em & Eu & ? & Hm), (H' s Hs) as (m' & u' & Em' & Eu' & ? & Hm');
    simplify_eq; [|done].
  apply map_eq; intros p. by rewrite Hm, Hm'.
Qed.

Lemma cells_canonical c c' :
  cells_wf c -> cells_wf c' ->
  c_has_shift c = c_has_shift c' -> c_pos c = c_pos c' -> c_ext c = c_ext c' ->
  c_shift c = c_shift c' -> c_seq c = c_seq c' -> c = c'.
Proof.
  intros Hwf Hwf' Eh Ep Ee Es Eq.
  assert (c_used c = c_used c') as Eu.
  { apply set_eq; intros i. by rewrite (wf_used c Hwf), (wf_used c' Hwf'), Ep. }
  destruct (ix_ok_unique (view c) (c_seq_pos c) (c_seq_used c) (c_seq_pos c') (c_seq_used c')) as [E1 E2].
  { by apply wf_index. } { rewrite Ep, Eq. by apply wf_index. }
  destruct c, c'; simpl in *. by subst.
Qed.

(** ** Saving and restoring *)

(** The content a cell may be set to. *)
Definition content_ok (q : Z) (S : gset nat) : Prop :=
  (-1 <= q)%Z /\ (q = (-1)%Z -> S = ∅) /\ forall s, s ∈ S -> s < LLAMA_MAX_SEQ.

Lemma set_cell_gen other j c i p S sh e q S' e' :
  cells_wf c -> cell_is c i p S sh e ->
  c_pos other !! j = Some q -> c_seq other !! j = Some S' -> c_ext other !! j = Some e' ->
  content_ok q S' ->
  exists c', set_cell other j i c = (_ ← assert_ (sh =? 0)%Z; Ok c') /\
    (sh = 0%Z -> cells_wf c' /\ c_has_shift c' = c_has_shift c /\ put_cell c i q S' 0 e' c').
Proof.
  intros Hwf Hc Hq HS' He' (Hge & Hfree & Hids). pose proof Hc as (Hp & HS & Hsh & He).
  unfold set_cell. rewrite (vec_get_Some _ _ _ Hp), (vec_get_Some _ _ _ Hq), (vec_get_Some _ _ _ He'),
    (vec_get_Some _ _ _ HS'); simpl.
  set (c1 := if (p =? -1)%Z && negb (q =? -1)%Z then set_used _ c else c).
  set (c2 := if negb (p =? -1)%Z && (q =? -1)%Z then set_used _ c1 else c1).
  assert (i < length (c_pos c)) as Hi by (by eapply cell_is_lt).
  assert (forall k, k ∈ c_used c2 <-> (k = i /\ q <> (-1)%Z) \/ (k <> i /\ k ∈ c_used c)) as Hu2.
  { intros k. pose proof (wf_cell_used c i _ _ _ _ Hwf Hc) as Hui.
    unfold c2, c1. destruct (decide (k = i)) as [->|Hk];
    destruct (p =? -1)%Z eqn:Ep, (q =? -1)%Z eqn:Eq; simpl; bprop;
      rewrite ?elem_of_union, ?elem_of_difference, ?elem_of_singleton; intuition lia. }
  assert (c_pos c2 = c_pos c /\ c_seq c2 = c_seq c /\ c_shift c2 = c_shift c /\ c_ext c2 = c_ext c /\
    c_has_shift c2 = c_has_shift c /\ ix_rel (ix_at (view c)) c2) as (Fp2 & Fq2 & Fs2 & Fe2 & Fh2 & Hix2).
  { unfold c2, c1. destruct (_ && _), (_ && _); simpl; repeat split_and!; try done; apply (wf_ix c Hwf). }
  clearbody c2. clear c1.
  assert (exists c3, (if negb (p =? -1)%Z then seq_pos_rm i c2 else Ok c2) = Ok c3 /\
    same_cells c2 c3 /\ ix_rel (ix_at (<[i := ((-1)%Z, ∅)]> (view c))) c3) as (c3 & E3 & Hsame3 & Hix3).
  { destruct (p =? -1)%Z eqn:Ep; simpl; bprop.
    - exists c2. split; [done|]. split; [apply same_cells_refl|]. subst.
      destruct (wf_free c Hwf i Hp). simplify_eq.
      by rewrite (list_insert_id _ _ _ (cell_is_view _ _ _ _ _ _ Hc)).
    - rewrite <- Fp2, <- Fq2. apply (seq_pos_rm_spec c2 i p S); rewrite ?Fp2, ?Fq2; try done.
      by eapply wf_cell_ids. }
  rewrite E3; simpl. destruct (same_cells_fields _ _ Hsame3) as (Fh & Fu & Fp & Fe & Fs & Fq).
  set (c4 := set_seq _ _).
  assert (c_pos c4 = <[i := q]> (c_pos c) /\ c_seq c4 = <[i := S']> (c_seq c) /\
    c_ext c4 = <[i := e']> (c_ext c) /\ c_shift c4 = c_shift c /\ c_used c4 = c_used c2 /\
    c_has_shift c4 = c_has_shift c /\ ix_rel (ix_at (<[i := ((-1)%Z, ∅)]> (view c))) c4)
    as (Gp & Gq & Ge & Gs & Gu & Gh & Hix4).
  { unfold c4; simpl. rewrite Fp, Fq, Fe, Fs, Fp2, Fq2, Fe2, Fs2, Fh, Fh2, Fu. done. }
  clearbody c4.
  assert (exists c5, (if negb (q =? -1)%Z then seq_pos_add i c4 else Ok c4) = Ok c5 /\
    same_cells c4 c5 /\ ix_rel (ix_at (<[i := (q, S')]> (view c))) c5) as (c5 & E5 & Hsame5 & Hix5).
  { destruct (q =? -1)%Z eqn:Eq; simpl; bprop.
    - exists c4. split; [done|]. split; [apply same_cells_refl|]. subst. by rewrite Hfree.
    - eapply reindex; [by eapply lookup_lt_Some, cell_is_view|done| | |done].
      + rewrite Gp. by apply list_lookup_insert_eq.
      + rewrite Gq. apply list_lookup_insert_eq. by eapply lookup_lt_Some. }
  rewrite E5; simpl. destruct (same_cells_fields _ _ Hsame5) as (Hh & Hu & Hp5 & He5 & Hs5 & Hq5).
  rewrite Hs5, Gs, (vec_get_Some _ _ _ Hsh); simpl. eexists; split; [done|]. intros ->.
  assert (put_cell c i q S' 0 e' c5) as Hput.
  { unfold put_cell. by rewrite Hp5, Hq5, Hs5, He5, Gp, Gq, Gs, Ge, (list_insert_id _ _ _ Hsh). }
  split; [|split; [by rewrite Hh | done]].
  eapply wf_put_cell; [done|done|exact Hput|done|auto|done| |exact Hix5].
  rewrite Hu, Gu. exact Hu2.
Qed.

Lemma set_cell_spec other j c i p S e q S' e' :
  cells_wf c -> cell_is c i p S 0 e ->
  c_pos other !! j = Some q -> c_seq other !! j = Some S' -> c_ext other !! j = Some e' ->
  content_ok q S' ->
  exists c', set_cell other j i c = Ok c' /\ cells_wf c' /\ c_has_shift c' = c_has_shift c /\
    put_cell c i q S' 0 e' c'.
Proof.
  intros Hwf Hc Hq HS' He' Hok.
  destruct (set_cell_gen other j c i p S 0 e q S' e' Hwf Hc Hq HS' He' Hok) as (c' & E & H).
  exists c'. split; [exact E | by apply H].
Qed.

Lemma set_cell_wf other j c i c' :
  cells_wf c ->
  (forall q S, c_pos other !! j = Some q -> c_seq other !! j = Some S -> content_ok q S) ->
  set_cell other j i c = Ok c' -> cells_wf c'.
Proof.
  intros Hwf Hok H. pose proof H as H0. unfold set_cell in H0. inv_ok. clear E3 E4 E5.
  apply vec_get_Ok in E, E0, E1, E2.
  destruct (wf_cell c i Hwf) as (p & S & sh & e & Hc); [by eapply lookup_lt_Some|].
  destruct (set_cell_gen other j c i p S sh e _ _ _ Hwf Hc E0 E2 E1 (Hok _ _ E0 E2)) as (c2 & E3 & H3).
  rewrite H in E3. destruct (sh =? 0)%Z eqn:Es; simpl in E3; [|done].
  bprop. injection E3 as ->. by apply H3.
Qed.

(** Pairs the loops [for j < idxs.size()] visit. *)
Lemma imap_pair_lookup (idxs : list nat) j : imap pair idxs !! j = pair j <$> idxs !! j.
Proof. by rewrite list_lookup_imap. Qed.

Lemma imap_pair_elem (idxs : list nat) k j i :
  imap pair idxs !! k = Some (j, i) <-> k = j /\ idxs !! j = Some i.
Proof.
  rewrite imap_pair_lookup. destruct (idxs !! k) eqn:E; simpl.
  - split; [intros; by simplify_eq | intros [-> ?]; congruence].
  - split; [done | intros [-> ?]; congruence].
Qed.

Lemma cells_resize_empty n :
  cells_resize n empty_cells =
  mk_cells false ∅ (replicate n (-1)%Z) (replicate n ext_reset) (replicate n 0%Z) (replicate n ∅)
    (replicate LLAMA_MAX_SEQ ∅) (replicate LLAMA_MAX_SEQ 0%Z).
Proof.
  unfold cells_resize, cells_reset; simpl.
  by rewrite !resize_nil, !fmap_replicate.
Qed.

(** [sv] holds the content of the cells [idxs] of [c]. *)
Definition saved (c : kv_cells) (idxs : list nat) (sv : kv_cells) : Prop :=
  length (c_pos sv) = length idxs /\
  forall j i, idxs !! j = Some i ->
    c_pos sv !! j = c_pos c !! i /\ c_seq sv !! j = c_seq c !! i /\ c_ext sv !! j = c_ext c !! i.

Lemma cp_idxs_spec c idxs :
  cells_wf c ->
  (forall i, i ∈ idxs -> i < cells_size c /\ c_shift c !! i = Some 0%Z) ->
  exists sv, cp_idxs idxs c = Ok sv /\ saved c idxs sv.
Proof.
  intros Hwf Hin. unfold cp_idxs. rewrite cells_resize_empty. set (n := length idxs).
  set (I := fun (l : list (nat * nat)) sv => exists k, l = drop k (imap pair idxs) /\
    length (c_pos sv) = n /\ length (c_seq sv) = n /\ length (c_ext sv) = n /\
    forall j i, j < k -> idxs !! j = Some i ->
      c_pos sv !! j = c_pos c !! i /\ c_seq sv !! j = c_seq c !! i /\ c_ext sv !! j = c_ext c !! i).
  match goal with |- exists sv, foldM ?f ?l ?s = _ /\ _ =>
    destruct (foldM_inv f I l s) as (sv & E & k & Hk & L1 & _ & _ & Hsv) end.
  - exists 0. simpl. rewrite !length_replicate. split_and!; try done. lia.
  - intros [j i] l sv (k & Hl & L1 & L2 & L3 & Hsv).
    assert (imap pair idxs !! k = Some (j, i)) as Hk.
    { rewrite <- (Nat.add_0_r k), <- lookup_drop, <- Hl. done. }
    apply imap_pair_elem in Hk as [-> Hji].
    destruct (Hin i) as [Hi Hsh]; [by eapply list_elem_of_lookup_2|].
    destruct (wf_cell c i Hwf Hi) as (p & S & sh & e & Hp & HS & Hsh' & He).
    rewrite Hsh in Hsh'. injection Hsh' as <-. unfold cp_cell.
    rewrite (vec_get_Some _ _ _ Hp), (vec_get_Some _ _ _ HS), (vec_get_Some _ _ _ Hsh), (vec_get_Some _ _ _ He).
    simpl. eexists; split; [done|]. exists (Datatypes.S j). simpl.
    assert (j < n) as Hj by (by eapply lookup_lt_Some).
    split; [|rewrite !length_insert; split_and!; try done].
    + change (drop 0 l = drop (Datatypes.S j) (imap pair idxs)).
      apply (f_equal (drop 1)) in Hl. rewrite drop_drop in Hl. simpl in Hl.
      by rewrite Nat.add_1_r in Hl.
    + intros j' i' Hj' Hji'. destruct (decide (j' = j)) as [->|].
      * simplify_eq. rewrite !list_lookup_insert_eq by lia. by rewrite Hp, HS, He.
      * rewrite !list_lookup_insert_ne by done. apply Hsv; [lia | done].
  - exists sv. split; [done|]. split; [done|]. intros j i Hji. apply Hsv; [|done].
    apply (f_equal length) in Hk. rewrite length_drop, length_imap in Hk. simpl in Hk.
    apply lookup_lt_Some in Hji. lia.
Qed.

(** [set] writes the saved content and touches no other cell. *)
Lemma set_idxs_spec idxs other c :
  cells_wf c -> NoDup idxs -> length idxs = cells_size other ->
  length (c_seq other) = cells_size other -> length (c_ext other) = cells_size other ->
  (forall i, i ∈ idxs -> i < cells_size c /\ c_shift c !! i = Some 0%Z) ->
  (forall j q S, c_pos other !! j = Some q -> c_seq other !! j = Some S -> content_ok q S) ->
  exists c', set_idxs idxs other c = Ok c' /\ cells_wf c' /\ cells_size c' = cells_size c /\
    c_has_shift c' = c_has_shift c /\ c_shift c' = c_shift c /\
    (forall j i, idxs !! j = Some i -> c_pos c' !! i = c_pos other !! j /\
      c_seq c' !! i = c_seq other !! j /\ c_ext c' !! i = c_ext other !! j) /\
    (forall i, i ∉ idxs -> c_pos c' !! i = c_pos c !! i /\ c_seq c' !! i = c_seq c !! i /\
      c_ext c' !! i = c_ext c !! i).
Proof.
  intros Hwf Hnd Hlen Hlq Hle Hin Hok. unfold set_idxs. rewrite (assert_true _ (proj2 (Nat.eqb_eq _ _) Hlen)); simpl.
  set (I := fun (l : list (nat * nat)) c' => exists k, l = drop k (imap pair idxs) /\
    cells_wf c' /\ cells_size c' = cells_size c /\ c_has_shift c' = c_has_shift c /\ c_shift c' = c_shift c /\
    (forall j i, j < k -> idxs !! j = Some i -> c_pos c' !! i = c_pos other !! j /\
      c_seq c' !! i = c_seq other !! j /\ c_ext c' !! i = c_ext other !! j) /\
    (forall i, (forall j, j < k -> idxs !! j <> Some i) -> c_pos c' !! i = c_pos c !! i /\
      c_seq c' !! i = c_seq c !! i /\ c_ext c' !! i = c_ext c !! i)).
  match goal with |- exists c', foldM ?f ?l ?s = _ /\ _ =>
    destruct (foldM_inv f I l s) as (c' & E & k & Hk & Hwf' & Hsz & Hh & Hs & H1 & H2) end.
  - exists 0. split_and!; try done. lia.
  - intros [j i] l c1 (k & Hl & Hwf1 & Hsz & Hh & Hs & H1 & H2).
    assert (imap pair idxs !! k = Some (j, i)) as Hk.
    { rewrite <- (Nat.add_0_r k), <- lookup_drop, <- Hl. done. }
    apply imap_pair_elem in Hk as [-> Hji].
    destruct (Hin i) as [Hi Hsh]; [by eapply list_elem_of_lookup_2|].
    destruct (wf_cell c1 i Hwf1) as (p & S & sh & e & Hc); [lia|].
    assert (sh = 0%Z) as -> by (destruct Hc as (_ & _ & Hc & _); rewrite Hs in Hc; congruence).
    assert (j < cells_size other) as Hj by (rewrite <- Hlen; by eapply lookup_lt_Some).
    destruct (lookup_lt_is_Some_2 (c_pos other) j) as [q Hq]; [done|].
    destruct (lookup_lt_is_Some_2 (c_seq other) j) as [S' HS']; [lia|].
    destruct (lookup_lt_is_Some_2 (c_ext other) j) as [e' He']; [lia|].
    destruct (set_cell_spec other j c1 i p S e q S' e' Hwf1 Hc Hq HS' He') as (c2 & E2 & Hwf2 & Hh2 & Hput);
      [by eapply Hok|].
    exists c2. split; [done|]. exists (Datatypes.S j).
    pose proof (put_cell_at _ _ _ _ _ _ _ _ _ _ _ Hc Hput) as (Gp & Gq & Gs & Ge).
    destruct Hput as (F1 & F2 & F3 & F4).
    split; [|split_and!; try done].
    + change (drop 0 l = drop (Datatypes.S j) (imap pair idxs)).
      apply (f_equal (drop 1)) in Hl. rewrite drop_drop in Hl. simpl in Hl. by rewrite Nat.add_1_r in Hl.
    + unfold cells_size in *. by rewrite F1, length_insert.
    + by rewrite Hh2.
    + rewrite F3, <- Hs. apply list_insert_id. destruct Hc as (_ & _ & ? & _). done.
    + intros j' i' Hj' Hji'. destruct (decide (j' = j)) as [->|Hne].
      * rewrite Hji in Hji'. injection Hji' as <-. by rewrite Gp, Gq, Ge, Hq, HS', He'.
      * assert (i <> i') by (intros ->; apply Hne; by eapply NoDup_lookup).
        rewrite F1, F2, F4, !list_lookup_insert_ne by done. apply H1; [lia | done].
    + intros i' Hi'. assert (i <> i') by (intros ->; by apply (Hi' j); [lia|]).
      rewrite F1, F2, F4, !list_lookup_insert_ne by done. apply H2. intros; apply Hi'. lia.
  - exists c'. split; [done|]. split_and!; try done.
    + intros j i Hji. apply H1; [|done].
      apply (f_equal length) in Hk. rewrite length_drop, length_imap in Hk. simpl in Hk.
      apply lookup_lt_Some in Hji. lia.
    + intros i Hi. apply H2. intros j _ Hji. apply Hi. by eapply list_elem_of_lookup_2.
Qed.

(** The range forms of [cp] and [set] are the indexed forms on consecutive cells. *)
Lemma foldM_fmap {S A B} (f : S -> B -> outcome S) (g : A -> B) l s :
  foldM f (g <$> l) s = foldM (fun s a => f s (g a)) l s.
Proof. revert s; induction l as [|a l IH]; intros s; [done|]; simpl. by destruct (f s (g a)); simpl. Qed.

Lemma imap_pair_seq i n : imap pair (seq i n) = (fun j => (j, i + j)) <$> seq 0 n.
Proof.
  apply list_eq; intros k. rewrite imap_pair_lookup, list_lookup_fmap.
  destruct (decide (k < n)).
  - rewrite !lookup_seq_lt by done. done.
  - rewrite !lookup_seq_ge by lia. done.
Qed.

Lemma cp_range_idxs c i n : i + n <= cells_size c -> cp_range i n c = cp_idxs (seq i n) c.
Proof.
  intros H. unfold cp_range, cp_idxs. rewrite (assert_true _ (proj2 (Nat.leb_le _ _) H)); simpl.
  by rewrite imap_pair_seq, foldM_fmap, length_seq.
Qed.

Lemma set_range_idxs c other i :
  i + cells_size other <= cells_size c ->
  set_range i other c = set_idxs (seq i (cells_size other)) other c.
Proof.
  intros H. unfold set_range, set_idxs. rewrite (assert_true _ (proj2 (Nat.leb_le _ _) H)), length_seq, Nat.eqb_refl.
  simpl. by rewrite imap_pair_seq, foldM_fmap.
Qed.

(** Saving cells, changing only them, and setting them back is the identity
    on the whole object, indices included. *)
Lemma cp_idxs_lengths c idxs sv :
  cells_wf c -> cp_idxs idxs c = Ok sv ->
  length (c_seq sv) = length idxs /\ length (c_ext sv) = length idxs.
Proof.
  intros Hwf. unfold cp_idxs. rewrite cells_resize_empty. intros H.
  apply (foldM_inv_Ok _ (fun _ r => length (c_seq r) = length idxs /\ length (c_ext r) = length idxs)) in H;
    [done|by simpl; rewrite !length_replicate|].
  intros [j i] l r r1 [? ?] Hcell. unfold cp_cell in Hcell. inv_ok. simpl. by rewrite !length_insert.
Qed.

Lemma cp_set_idxs_restores c c1 idxs sv :
  cells_wf c -> cells_wf c1 -> NoDup idxs ->
  (forall i, i ∈ idxs -> i < cells_size c /\ c_shift c !! i = Some 0%Z) ->
  cp_idxs idxs c = Ok sv ->
  c_has_shift c1 = c_has_shift c -> c_shift c1 = c_shift c -> cells_size c1 = cells_size c ->
  (forall i, i ∉ idxs ->
    c_pos c1 !! i = c_pos c !! i /\ c_seq c1 !! i = c_seq c !! i /\ c_ext c1 !! i = c_ext c !! i) ->
  set_idxs idxs sv c1 = Ok c.
Proof.
  intros Hwf Hwf1 Hnd Hin Hcp Hh Hs Hsz Hout.
  destruct (cp_idxs_spec c idxs Hwf Hin) as (sv' & E & Hl & Hsv). rewrite Hcp in E. injection E as <-.
  destruct (cp_idxs_lengths c idxs sv Hwf Hcp) as [Lq Le].
  destruct (set_idxs_spec idxs sv c1) as (c' & E' & Hwf' & Hsz' & Hh' & Hs' & H1 & H2);
    unfold cells_size in *; rewrite ?Lq, ?Le, ?Hs; auto.
  - intros i Hi. rewrite Hsz. by apply Hin.
  - intros j q S Hq HS. destruct (lookup_lt_is_Some_2 idxs j) as [i Hi].
    { rewrite <- Hl. by eapply lookup_lt_Some. }
    destruct (Hsv j i Hi) as (E1 & E2 & _). rewrite Hq in E1. rewrite HS in E2.
    symmetry in E1, E2.
    split; [by eapply (wf_pos c Hwf)|]. split; [|intros s; by eapply (wf_ids c Hwf)].
    intros ->. destruct (wf_free c Hwf i) as [E3 _]; [done|]. congruence.
  - rewrite E'. f_equal.
    assert (forall i, c_pos c' !! i = c_pos c !! i /\ c_seq c' !! i = c_seq c !! i /\ c_ext c' !! i = c_ext c !! i) as Hall.
    { intros i. destruct (decide (i ∈ idxs)) as [Hi|Hi].
      - apply list_elem_of_lookup in Hi as [j Hj].
        destruct (H1 j i Hj) as (-> & -> & ->). by apply Hsv.
      - destruct (H2 i Hi) as (-> & -> & ->). by apply Hout. }
    apply cells_canonical; try done; [by rewrite Hh'|..]; try (apply list_eq; intros i; apply Hall).
    by rewrite Hs'.
Qed.

(** ** Fresh objects *)
Definition fresh_cells (n : nat) : kv_cells :=
  mk_cells false ∅ (replicate n (-1)%Z) (replicate n ext_reset) (replicate n 0%Z) (replicate n ∅)
    (replicate LLAMA_MAX_SEQ ∅) (replicate LLAMA_MAX_SEQ 0%Z).

Lemma fresh_wf n : cells_wf (fresh_cells n).
Proof.
  split; simpl; rewrite ?length_replicate; try done.
  - intros i p [-> _]%lookup_replicate. lia.
  - intros i. split; [set_solver|]. intros (p & [-> _]%lookup_replicate & ?). done.
  - intros i [_ Hi]%lookup_replicate. by rewrite !lookup_replicate_2.
  - intros i S s [-> _]%lookup_replicate. set_solver.
  - split; [by rewrite length_replicate|]. split; [by rewrite length_replicate|].
    intros s Hs. exists ∅, 0%Z. rewrite !lookup_replicate_2 by done. split; [done|]. split; [done|].
    rewrite zip_with_replicate.
    split; unfold occ, hist; [|intros p]; (rewrite cnt_zero; [done|]);
      intros x ->%elem_of_replicate_inv; done.
Qed.

Lemma fmap_const_replicate {A B} (b : B) (l : list A) : (fun _ => b) <$> l = replicate (length l) b.
Proof. induction l; simpl; by f_equal. Qed.

(** [reset] and [resize] leave nothing of the previous state. *)
Lemma cells_reset_fresh c : cells_wf c -> cells_reset c = fresh_cells (cells_size c).
Proof.
  intros []. unfold cells_reset, fresh_cells, cells_size. rewrite !fmap_const_replicate.
  destruct wf_index0 as (-> & -> & _). by rewrite wf_ext0, wf_shift0, wf_seq0.
Qed.

Lemma cells_resize_fresh n c : cells_wf c -> cells_resize n c = fresh_cells n.
Proof.
  intros []. unfold cells_resize, cells_reset, fresh_cells; simpl.
  destruct wf_index0 as (Hl1 & Hl2 & _). by rewrite !fmap_const_replicate, !length_resize, Hl1, Hl2.
Qed.

Lemma empty_cells_fresh : empty_cells = fresh_cells 0.
Proof. done. Qed.

(** ** Every operation, as the cache calls it *)
Inductive cells_op :=
  | OpReset | OpResetShift | OpResize (n : nat)
  | OpRm (i : nat) | OpSeqRm (i s : nat) | OpSeqRmCell (i s : nat) | OpSeqKeep (i s : nat)
  | OpSeqAdd (i s : nat) | OpPosSet (i : nat) (p : Z) | OpExtSet (i : nat) (e : kv_cell_ext)
  | OpPosAdd (i : nat) (d : Z) | OpPosDiv (i : nat) (d : Z)
  | OpSet (idxs : list nat) (other : kv_cells).

Definition run_op (o : cells_op) (c : kv_cells) : outcome kv_cells :=
  match o with
  | OpReset => Ok (cells_reset c)
  | OpResetShift => Ok (reset_shift c)
  | OpResize n => Ok (cells_resize n c)
  | OpRm i => rm i c
  | OpSeqRm i s => snd <$> seq_rm i s c
  | OpSeqRmCell i s => snd <$> seq_rm_cell i s c
  | OpSeqKeep i s => snd <$> seq_keep i s c
  | OpSeqAdd i s => seq_add i s c
  | OpPosSet i p => pos_set i p c
  | OpExtSet i e => ext_set i e c
  | OpPosAdd i d => snd <$> pos_add i d c
  | OpPosDiv i d => pos_div i d c
  | OpSet idxs other => set_idxs idxs other c
  end.

(** What the callers respect: positions they set are not negative, divisors are
    positive, and what is set was saved by [cp] from a well-formed object. *)
Definition op_pre (o : cells_op) : Prop :=
  match o with
  | OpPosSet _ p => (0 <= p)%Z
  | OpPosDiv _ d => (0 < d)%Z
  | OpSet idxs other => exists c0 js, cells_wf c0 /\ cp_idxs js c0 = Ok other
  | _ => True
  end.

Inductive cells_step : kv_cells -> kv_cells -> Prop :=
  | cells_step_op o c c' : op_pre o -> run_op o c = Ok c' -> cells_step c c'.

Lemma foldM_each {S A} (f : S -> A -> outcome S) l s s' :
  foldM f l s = Ok s' -> forall a, a ∈ l -> exists s1 s2, f s1 a = Ok s2.
Proof.
  revert s; induction l as [|b l IH]; intros s H a Ha; [by apply not_elem_of_nil in Ha|].
  simpl in H. inv_ok. apply elem_of_cons in Ha as [->|Ha]; eauto.
Qed.

Lemma cp_idxs_pre c idxs sv :
  cells_wf c -> cp_idxs idxs c = Ok sv ->
  forall i, i ∈ idxs -> i < cells_size c /\ c_shift c !! i = Some 0%Z.
Proof.
  intros Hwf H i Hi. apply list_elem_of_lookup in Hi as [j Hj].
  destruct (foldM_each _ _ _ _ H (j, i)) as (s1 & s2 & E).
  { apply list_elem_of_lookup. exists j. by apply imap_pair_elem. }
  unfold cp_cell in E. inv_ok. apply assert_Ok in E4. bprop. subst.
  apply vec_get_Ok in E0, E3. split; [by eapply lookup_lt_Some | done].
Qed.

Lemma cp_idxs_content c idxs sv :
  cells_wf c -> cp_idxs idxs c = Ok sv ->
  length (c_seq sv) = cells_size sv /\ length (c_ext sv) = cells_size sv /\
  forall j q S, c_pos sv !! j = Some q -> c_seq sv !! j = Some S -> content_ok q S.
Proof.
  intros Hwf H. destruct (cp_idxs_lengths c idxs sv Hwf H) as [Lq Le].
  destruct (cp_idxs_spec c idxs Hwf (cp_idxs_pre c idxs sv Hwf H)) as (sv' & E & Hl & Hsv).
  rewrite H in E. injection E as <-. unfold cells_size. split; [lia|]. split; [lia|].
  intros j q S Hq HS. destruct (lookup_lt_is_Some_2 idxs j) as [i Hi].
  { rewrite <- Hl. by eapply lookup_lt_Some. }
  destruct (Hsv j i Hi) as (E1 & E2 & _). rewrite Hq in E1. rewrite HS in E2. symmetry in E1, E2.
  split; [by eapply (wf_pos c Hwf)|]. split; [|intros s; by eapply (wf_ids c Hwf)].
  intros ->. destruct (wf_free c Hwf i) as [E3 _]; [done|]. congruence.
Qed.

(** A returned result tells which preconditions held. *)
Lemma used_cell_is c i p : cells_wf c -> used_cell i c = Ok p ->
  exists S sh e, cell_is c i p S sh e /\ p <> (-1)%Z.
Proof.
  intros Hwf [Hp Hne]%used_cell_Ok.
  destruct (wf_cell c i Hwf) as (p' & S & sh & e & Hc); [by eapply lookup_lt_Some|].
  pose proof Hc as (Hp' & _). rewrite Hp in Hp'. injection Hp' as <-. eauto.
Qed.

Lemma seq_test_inv c i s b : seq_test i s c = Ok b ->
  exists S, c_seq c !! i = Some S /\ s < LLAMA_MAX_SEQ /\ b = bool_decide (s ∈ S).
Proof.
  unfold seq_test. intros H. inv_ok. apply vec_get_Ok in E. apply require_Ok in E0. bprop. eauto.
Qed.

Lemma seq_rm_wf c i s b c' : cells_wf c -> seq_rm i s c = Ok (b, c') -> cells_wf c'.
Proof.
  intros Hwf H. pose proof H as H0. unfold seq_rm in H0. inv_ok.
  apply seq_test_inv in E0 as (S & HS & Hlt & ->). apply assert_Ok in E1. bprop.
  destruct (used_cell_is c i _ Hwf E2) as (S' & sh & e & Hc & Hne).
  pose proof Hc as (_ & HS' & _). rewrite HS in HS'. injection HS' as <-.
  destruct (seq_rm_spec c i s _ S sh e Hwf Hc Hne E1) as (c2 & E' & ? & _). congruence.
Qed.

Lemma wf_same_content c c' :
  cells_wf c -> c_used c' = c_used c -> c_pos c' = c_pos c -> c_shift c' = c_shift c ->
  c_seq c' = c_seq c -> c_seq_pos c' = c_seq_pos c -> c_seq_used c' = c_seq_used c ->
  length (c_ext c') = length (c_ext c) -> cells_wf c'.
Proof. intros [] E1 E2 E3 E4 E5 E6 E7. split; rewrite ?E1, ?E2, ?E3, ?E4, ?E5, ?E6; try done. by rewrite E7. Qed.

Lemma ext_insert_wf i e c : cells_wf c -> cells_wf (set_ext (<[i := e]> (c_ext c)) c).
Proof. intros Hwf. apply (wf_same_content c); try done. simpl. by rewrite length_insert. Qed.

Lemma reset_shift_wf c : cells_wf c -> cells_wf (reset_shift c).
Proof.
  intros []. split; simpl; rewrite ?length_fmap; try done.
  intros i Hi. destruct (wf_free0 i Hi) as [-> ?]. split; [done|]. rewrite list_lookup_fmap.
  by destruct (c_shift c !! i).
Qed.

Lemma set_idxs_wf idxs other c c' :
  cells_wf c ->
  (forall j q S, c_pos other !! j = Some q -> c_seq other !! j = Some S -> content_ok q S) ->
  set_idxs idxs other c = Ok c' -> cells_wf c'.
Proof.
  unfold set_idxs. intros Hwf Hok H. inv_ok.
  apply (foldM_inv_Ok _ (fun _ => cells_wf)) in H; [done|done|].
  intros [j i] l c1 c2 Hwf1 H1. by eapply set_cell_wf; [..|exact H1]; eauto.
Qed.

Lemma run_op_wf o c c' : cells_wf c -> op_pre o -> run_op o c = Ok c' -> cells_wf c'.
Proof.
  intros Hwf Hpre H. destruct o; simpl in *.
  - injection H as <-. rewrite cells_reset_fresh by done. apply fresh_wf.
  - injection H as <-. by apply reset_shift_wf.
  - injection H as <-. rewrite cells_resize_fresh by done. apply fresh_wf.
  - pose proof H as H0. unfold rm in H0. inv_ok. apply used_cell_Ok in E as [Hp Hne].
    destruct (rm_spec c i _ Hwf Hp Hne) as (c2 & E' & ? & _). congruence.
  - destruct (seq_rm i s c) as [[b c2]|] eqn:E; simpl in H; simplify_eq. by eapply seq_rm_wf.
  - destruct (seq_rm_cell i s c) as [[b c2]|] eqn:E; simpl in H; simplify_eq.
    unfold seq_rm_cell in E. inv_ok. destruct (_ =? _)%Z; [by simplify_eq|].
    inv_ok. destruct x1; [by eapply seq_rm_wf | by simplify_eq].
  - destruct (seq_keep i s c) as [[b c2]|] eqn:E; simpl in H; simplify_eq.
    pose proof E as H0. unfold seq_keep in H0. inv_ok. apply assert_Ok in E0. bprop.
    apply seq_test_inv in E1 as (S & HS & Hlt & ->).
    destruct (wf_cell c i Hwf E0) as (p & S' & sh & e & Hc).
    pose proof Hc as (Hp & HS' & _). rewrite HS in HS'. injection HS' as <-.
    destruct (seq_keep_spec c i s p S sh e Hwf Hc Hlt) as (c3 & E' & ? & _); [|congruence].
    intros Hne ->. rewrite bool_decide_eq_false_2 in H0 by set_solver.
    rewrite (vec_get_Some _ _ _ HS), (vec_get_Some _ _ _ Hp) in H0; simpl in H0.
    by rewrite (proj2 (Z.eqb_neq _ _) Hne) in H0.
  - pose proof H as H0. unfold seq_add in H0. inv_ok.
    apply seq_test_inv in E0 as (S & HS & Hlt & ->). apply assert_Ok in E1. bprop.
    apply used_cell_Ok in E as [Hp Hne].
    destruct (seq_add_spec c i _ S s Hwf Hp Hne HS E1 Hlt) as (c3 & E' & ? & _). congruence.
  - pose proof H as H0. unfold pos_set in H0. inv_ok. apply assert_Ok in E0. bprop. subst.
    destruct (c_pos c !! i) eqn:Hp; inv_ok.
    destruct (pos_set_spec c i p Hwf Hp Hpre) as (c3 & E' & ? & _). congruence.
  - unfold ext_set in H. inv_ok. by apply ext_insert_wf.
  - destruct (pos_add i d c) as [[b c2]|] eqn:E; simpl in H; simplify_eq.
    pose proof E as H0. unfold pos_add in H0. inv_ok.
    destruct (used_cell_is c i _ Hwf E0) as (S & sh & e & Hc & Hne).
    destruct (unindex c i _ _ _ _ Hwf Hc) as (c3 & E' & Hsame & _). rewrite E1 in E'. injection E' as <-.
    destruct (same_cells_fields _ _ Hsame) as (_ & _ & _ & _ & Fs & _).
    apply vec_get_Ok in E3. rewrite Fs in E3. pose proof Hc as (_ & _ & Hsh & _).
    rewrite Hsh in E3. injection E3 as <-. unfold i32 in E2, E4.
    destruct (in_i32 (_ + d)) eqn:R1 in E2; [|done]. destruct (in_i32 (sh + d)) eqn:R2; [|done].
    destruct (pos_add_spec c i d _ S sh e Hwf Hc Hne R1 R2) as (c4 & E5 & ? & _). congruence.
  - pose proof H as H0. unfold pos_div in H0. inv_ok.
    destruct (used_cell_is c i _ Hwf E) as (S & sh & e & Hc & Hne).
    pose proof Hc as (Hp & _ & Hsh & _).
    destruct (unindex c i _ _ _ _ Hwf Hc) as (c3 & E' & Hsame & _). rewrite E0 in E'. injection E' as <-.
    destruct (same_cells_fields _ _ Hsame) as (_ & _ & _ & _ & Fs & _).
    apply vec_get_Ok in E2. rewrite Fs in E2. rewrite Hsh in E2. injection E2 as <-.
    assert (0 <= x)%Z as Hx by (pose proof (wf_pos c Hwf i x Hp); lia).
    unfold i32_div in E1. rewrite (proj2 (Z.eqb_neq d 0)), Z.quot_div_nonneg in E1 by lia.
    unfold i32 in E1, E3, E4.
    destruct (in_i32 (x / d)) eqn:R1; [|done]. injection E1 as <-.
    destruct (in_i32 (x - x / d)) eqn:R2; [|done]. injection E3 as <-.
    destruct (in_i32 (sh + (x - x / d))) eqn:R3; [|done].
    destruct (pos_div_spec c i d x S sh e Hwf Hc Hne Hpre R1 R2 R3) as (c4 & E5' & ? & _). congruence.
  - destruct Hpre as (c0 & js & Hwf0 & Hcp).
    apply (set_idxs_wf idxs other c); [done| |done]. apply (cp_idxs_content c0 js); done.
Qed.

(** ** Queries *)

Lemma index_at c s : cells_wf c -> s < LLAMA_MAX_SEQ ->
  exists m u, c_seq_pos c !! s = Some m /\ c_seq_used c !! s = Some u /\ ix_at (view c) s m u.
Proof. intros Hwf Hs. destruct (wf_ix c Hwf) as (_ & _ & H). by apply H. Qed.

(** The keys of the position map are the positions of the cells [s] owns. *)
Lemma index_dom v s m u q : ix_at v s m u ->
  q ∈ dom m <-> exists i S, v !! i = Some (q, S) /\ s ∈ S.
Proof.
  intros [_ Hm]. rewrite elem_of_dom, Hm. unfold count_opt, hist.
  destruct (cnt _ v =? 0) eqn:E; bprop.
  - split; [by intros [? ?]|]. intros (i & S & Hi & Hs).
    assert (0 < cnt (owned_at s q) v); [|lia]. apply cnt_pos. exists i, (q, S). split; [done|].
    unfold owned_at. rewrite (proj2 (owned_true s q S) Hs). simpl. apply Z.eqb_refl.
  - split; [|by eauto]. intros _. destruct (proj1 (cnt_pos (owned_at s q) v)) as (i & [p S] & Hi & H); [lia|].
    unfold owned_at in H. apply andb_true_iff in H as [H1 H2]. apply owned_true in H1. simpl in H2. bprop.
    subst. eauto.
Qed.

Lemma index_count v s m u q : ix_at v s m u -> q ∈ dom m -> (0 < default 0 (m !! q))%Z.
Proof.
  intros [_ Hm]. rewrite elem_of_dom, Hm. unfold count_opt.
  destruct (hist v s q =? 0) eqn:E; bprop; [by intros [? ?] | simpl; lia].
Qed.

(** Cell [i] holds position [p] for sequence [s]. *)
Definition holds (c : kv_cells) (s : nat) (p : Z) (i : nat) : bool :=
  match view c !! i with Some x => owned_at s p x | None => false end.

Lemma cells_at_loop c s p l acc :
  cells_wf c -> s < LLAMA_MAX_SEQ -> (forall i, i ∈ l -> i < cells_size c) ->
  foldM (fun res i =>
    q ← vec_get (c_pos c) i;
    if (q =? p)%Z then
      t ← seq_test i s c;
      Ok (if (t : bool) then res ++ [i] else res)
    else Ok res) l acc = Ok (acc ++ List.filter (holds c s p) l).
Proof.
  intros Hwf Hs. revert acc. induction l as [|i l IH]; intros acc Hl; simpl; [by rewrite app_nil_r|].
  destruct (wf_cell c i Hwf) as (q & S & sh & e & Hc); [apply Hl; by left|].
  pose proof Hc as (Hq & HS & _). rewrite (vec_get_Some _ _ _ Hq); simpl.
  unfold holds. rewrite (cell_is_view _ _ _ _ _ _ Hc). unfold owned_at, owned; simpl.
  assert (forall i, i ∈ l -> i < cells_size c) as Hl' by (intros; apply Hl; by right).
  destruct (q =? p)%Z; simpl; [|rewrite andb_false_r; by apply IH].
  rewrite (seq_test_Ok _ _ _ _ HS Hs), andb_true_r; simpl. rewrite IH by done.
  destruct (bool_decide (s ∈ S)); [by rewrite <- app_assoc | done].
Qed.

(** ** Properties *)

Lemma run_ops_steps ops c c' :
  Forall op_pre ops -> foldM (fun c o => run_op o c) ops c = Ok c' -> rtc cells_step c c'.
Proof.
  intros Hpre; revert c; induction Hpre as [|o ops Ho _ IH]; intros c H; simpl in H.
  - injection H as ->. apply rtc_refl.
  - inv_ok. eapply rtc_l; [by econstructor | by apply IH].
Qed.

(** A concrete run used by the witnesses. *)
Definition demo_ops : list cells_op :=
  [OpPosSet 1 7; OpSeqAdd 1 3; OpSeqAdd 1 0; OpPosSet 2 9; OpSeqAdd 2 3; OpSeqRm 1 0].

Definition demo_cells : kv_cells :=
  match foldM (fun c o => run_op o c) demo_ops (fresh_cells 4) with
  | Ok c => c
  | Err _ => empty_cells
  end.

Lemma demo_run : foldM (fun c o => run_op o c) demo_ops (fresh_cells 4) = Ok demo_cells.
Proof. vm_compute. reflexivity. Qed.

Lemma demo_pre : Forall op_pre demo_ops.
Proof. repeat constructor; simpl; lia. Qed.

Lemma demo_wf : cells_wf demo_cells.
Proof.
  apply (foldM_inv_Ok (fun c o => run_op o c) (fun ops c => Forall op_pre ops /\ cells_wf c)
    demo_ops (fresh_cells 4)).
  - split; [apply demo_pre | apply fresh_wf].
  - apply demo_run.
  - intros o l c c1 [Hl Hc] Hr. apply Forall_cons in Hl as [? ?]. split; [done|by eapply run_op_wf].
Qed.

(** Whatever sequence of operations the cache performs on a freshly resized
    object, the position index, the per-sequence counts, the set of used cells and
    the per-cell data stay consistent: a free cell owns no sequence and no shift, a
    cell is listed as used exactly when it has a position, and [seq_pos] and
    [seq_used] are exactly the counts a scan of the cells would give. *)
Theorem cells_reachable_wf n c :
  rtc cells_step (cells_resize n empty_cells) c -> cells_wf c.
Proof.
  intros H. assert (cells_wf (cells_resize n empty_cells)) as H0.
  { rewrite cells_resize_fresh; [apply fresh_wf | apply (fresh_wf 0)]. }
  revert H0. induction H as [|x y z [o c1 c2 Hpre Hrun] _ IH]; intros Hx; [done|].
  by apply IH, (run_op_wf o c1).
Qed.

Lemma cells_reachable_wf_witness : cells_wf demo_cells.
Proof.
  apply (cells_reachable_wf 4). rewrite cells_resize_fresh by apply (fresh_wf 0).
  exact (run_ops_steps demo_ops _ _ demo_pre demo_run).
Defined.

(** the minimum and maximum position of a sequence, its size and the assertions
    on the way: nothing fails, the size is the number of owned cells, both bounds
    are -1 exactly when the sequence owns no cell, and otherwise both are positions
    of cells it owns and every cell it owns lies between them. *)
Theorem seq_pos_bounds c s :
  cells_wf c -> s < LLAMA_MAX_SEQ ->
  seq_size s c = Ok (Z.of_nat (occ (view c) s)) /\
  exists lo hi, seq_pos_min s c = Ok lo /\ seq_pos_max s c = Ok hi /\
    ((lo = (-1)%Z /\ hi = (-1)%Z /\ forall i p S, view c !! i = Some (p, S) -> s ∉ S) \/
     ((exists i S, view c !! i = Some (lo, S) /\ s ∈ S) /\
      (exists i S, view c !! i = Some (hi, S) /\ s ∈ S) /\
      (0 <= lo)%Z /\
      forall i p S, view c !! i = Some (p, S) -> s ∈ S -> (lo <= p <= hi)%Z)).
Proof.
  intros Hwf Hs. destruct (index_at c s Hwf Hs) as (m & u & Em & Eu & Hat).
  split; [unfold seq_size; rewrite (assert_true _ (proj2 (Nat.ltb_lt _ _) Hs)); simpl;
    rewrite (vec_get_Some _ _ _ Eu); by destruct Hat as [-> _]|].
  unfold seq_pos_min, seq_pos_max.
  rewrite (assert_true _ (proj2 (Nat.ltb_lt _ _) Hs)), (vec_get_Some _ _ _ Em); simpl.
  pose proof (fun q => index_dom _ _ _ _ q Hat) as Hdom. pose proof (fun q => index_count _ _ _ _ q Hat) as Hcnt.
  pose proof (fun q => elem_of_setZ_list (dom m) q) as Hel. pose proof (setZ_list_sorted (dom m)) as Hsort.
  destruct (setZ_list (dom m)) as [|lo l] eqn:El.
  - exists (-1)%Z, (-1)%Z. split; [done|]. split; [done|]. left. split; [done|]. split; [done|].
    intros i p S Hi HS. apply (not_elem_of_nil p), Hel, Hdom. eauto.
  - destruct (last (lo :: l)) as [hi|] eqn:Elast; [|by apply last_None in Elast].
    assert (lo ∈ dom m) as Hlo by (apply Hel; by left).
    assert (hi ∈ dom m) as Hhi.
    { apply Hel. apply last_Some in Elast as [l' ->]. apply elem_of_app. right. by left. }
    cbn [head]; cbv iota beta. rewrite (assert_true _ (proj2 (Z.ltb_lt _ _) (Hcnt _ Hlo))).
    rewrite (assert_true _ (proj2 (Z.ltb_lt _ _) (Hcnt _ Hhi))).
    exists lo, hi. split; [done|]. split; [done|]. right.
    split; [by apply Hdom|]. split; [by apply Hdom|]. split.
    + apply Hdom in Hlo as (i & S & Hi & HS). apply view_lookup in Hi as [Hp Hq].
      pose proof (wf_pos c Hwf i lo Hp). destruct (decide (lo = (-1)%Z)) as [->|]; [|lia].
      destruct (wf_free c Hwf i Hp). simplify_eq. set_solver.
    + intros i p S Hi HS. assert (p ∈ lo :: l) as Hp by (apply Hel, Hdom; eauto). split.
      * apply elem_of_cons in Hp as [->|Hp]; [done|].
        apply StronglySorted_inv in Hsort as [_ Hall]. by apply (proj1 (Forall_forall _ _) Hall).
      * by eapply (StronglySorted_last Z.le).
Qed.

Lemma seq_pos_bounds_witness :
  seq_size 3 demo_cells = Ok 2%Z /\ seq_size 3 demo_cells = Ok (Z.of_nat (occ (view demo_cells) 3)).
Proof. split; [vm_compute; reflexivity|]. apply seq_pos_bounds; [apply demo_wf | vm_compute; lia]. Defined.

(** [cp] followed, after arbitrary changes confined to the copied range, by
    [set] gives back the whole object: positions, owners, extensions and every
    index.  No assertion fires and nothing else is disturbed. *)
Theorem cp_set_range_restores c c1 i n sv :
  cells_wf c -> cells_wf c1 -> i + n <= cells_size c ->
  (forall j, i <= j < i + n -> c_shift c !! j = Some 0%Z) ->
  cp_range i n c = Ok sv ->
  c_has_shift c1 = c_has_shift c -> c_shift c1 = c_shift c -> cells_size c1 = cells_size c ->
  (forall j, ~ (i <= j < i + n) ->
    c_pos c1 !! j = c_pos c !! j /\ c_seq c1 !! j = c_seq c !! j /\ c_ext c1 !! j = c_ext c !! j) ->
  set_range i sv c1 = Ok c.
Proof.
  intros Hwf Hwf1 Hb Hsh Hcp Hh Hs Hsz Hout. rewrite cp_range_idxs in Hcp by done.
  assert (forall j, j ∈ seq i n -> j < cells_size c /\ c_shift c !! j = Some 0%Z) as Hin.
  { intros j. rewrite elem_of_seq. intros. split; [lia | by apply Hsh]. }
  destruct (cp_idxs_spec c (seq i n) Hwf Hin) as (sv' & E & Hl & _).
  rewrite Hcp in E. injection E as <-. rewrite length_seq in Hl.
  rewrite set_range_idxs by (unfold cells_size in *; lia). unfold cells_size at 1. rewrite Hl.
  apply cp_set_idxs_restores; try done; [apply NoDup_seq|].
  intros j Hj. apply Hout. rewrite <- elem_of_seq. done.
Qed.

Definition demo_saved : kv_cells :=
  match cp_range 1 2 demo_cells with Ok sv => sv | Err _ => empty_cells end.

Lemma cp_set_range_restores_witness :
  exists c1, foldM (fun c o => run_op o c) [OpRm 1; OpSeqKeep 2 0; OpPosSet 1 4] demo_cells = Ok c1 /\
    c_pos c1 <> c_pos demo_cells /\ set_range 1 demo_saved c1 = Ok demo_cells.
Proof.
  destruct (foldM (fun c o => run_op o c) [OpRm 1; OpSeqKeep 2 0; OpPosSet 1 4] demo_cells)
    as [c1|] eqn:E; [|vm_compute in E; discriminate].
  exists c1. split; [done|].
  assert (c1 = match foldM (fun c o => run_op o c) [OpRm 1; OpSeqKeep 2 0; OpPosSet 1 4] demo_cells
    with Ok c => c | Err _ => c1 end) as Ec by (by rewrite E).
  split; [rewrite Ec; vm_compute; discriminate|].
  apply (cp_set_range_restores demo_cells c1 1 2); try (rewrite Ec; vm_compute; reflexivity).
  - apply demo_wf.
  - apply (foldM_inv_Ok (fun c o => run_op o c) (fun ops c => Forall op_pre ops /\ cells_wf c)
      [OpRm 1; OpSeqKeep 2 0; OpPosSet 1 4] demo_cells); [|exact E|].
    + split; [repeat constructor; simpl; lia | apply demo_wf].
    + intros o l c c2 [Hl Hc] Hr. apply Forall_cons in Hl as [? ?]. split; [done|by eapply run_op_wf].
  - vm_compute; lia.
  - intros j Hj. assert (j = 1 \/ j = 2) as [-> | ->] by lia; vm_compute; reflexivity.
  - vm_compute; reflexivity.
  - intros j Hj. rewrite Ec. destruct j as [|[|[|[|j]]]]; try lia; vm_compute; auto.
Defined.

(** Giving a used cell to one more sequence and taking it away again restores the
    whole object, indices included; in between, exactly that sequence's size grew. *)
Theorem seq_add_rm_cancel c i s p S :
  cells_wf c -> c_pos c !! i = Some p -> p <> (-1)%Z -> c_seq c !! i = Some S -> S <> ∅ ->
  s ∉ S -> s < LLAMA_MAX_SEQ ->
  exists c1, seq_add i s c = Ok c1 /\
    occ (view c1) s = Datatypes.S (occ (view c) s) /\
    (forall t, t <> s -> occ (view c1) t = occ (view c) t) /\
    seq_rm i s c1 = Ok (false, c).
Proof.
  intros Hwf Hp Hne HS HSne Hs Hlt.
  destruct (seq_add_spec c i p S s Hwf Hp Hne HS Hs Hlt) as (c1 & E & Hwf1 & F1 & F2 & F3 & F4 & F5 & F6).
  assert (view c !! i = Some (p, S)) as Hv by (by apply view_lookup).
  assert (view c1 = <[i := (p, {[s]} ∪ S)]> (view c)) as Hv1.
  { rewrite F1, F2, <- (list_insert_id _ _ _ Hp) at 1. apply view_insert. }
  exists c1. split; [done|].
  assert (forall t, occ (view c1) t + Nat.b2n (owned t (p, S)) =
    occ (view c) t + Nat.b2n (owned t (p, {[s]} ∪ S))) as Hocc.
  { intros t. rewrite Hv1. by apply cnt_insert. }
  unfold owned in Hocc; simpl in Hocc.
  split; [specialize (Hocc s); rewrite bool_decide_eq_false_2, bool_decide_eq_true_2 in Hocc
    by (done || set_solver); simpl in Hocc; lia|].
  split.
  { intros t Ht. specialize (Hocc t). replace (bool_decide (t ∈ {[s]} ∪ S)) with (bool_decide (t ∈ S)) in Hocc; [lia|].
    apply bool_decide_ext. set_solver. }
  destruct (wf_cell c1 i Hwf1) as (p' & S' & sh & e & Hc).
  { unfold cells_size. rewrite F1. by eapply lookup_lt_Some. }
  pose proof Hc as (G1 & G2 & G3 & G4). rewrite F1, Hp in G1. injection G1 as <-.
  rewrite F2, list_lookup_insert_eq in G2 by (by eapply lookup_lt_Some). injection G2 as <-.
  destruct (seq_rm_spec c1 i s p ({[s]} ∪ S) sh e Hwf1 Hc Hne) as (c2 & E2 & Hwf2 & Hh & Hput); [set_solver|].
  assert (({[s]} ∪ S) ∖ {[s]} = S) as HSS by (apply set_eq; intros t; destruct (decide (t = s)); set_solver).
  rewrite HSS in E2, Hput. rewrite decide_False in Hput by done. rewrite bool_decide_eq_false_2 in E2 by done.
  rewrite E2. f_equal. f_equal. destruct Hput as (K1 & K2 & K3 & K4).
  apply cells_canonical; try done; [by rewrite Hh|..].
  - by rewrite K1, F1, list_insert_id.
  - rewrite K4, F4. rewrite F4 in G4. by apply list_insert_id.
  - rewrite K3, F3. rewrite F3 in G3. by apply list_insert_id.
  - rewrite K2, F2, list_insert_insert_eq. by apply list_insert_id.
Qed.

Lemma seq_add_rm_cancel_witness : exists c1,
  seq_add 2 5 demo_cells = Ok c1 /\ seq_rm 2 5 c1 = Ok (false, demo_cells).
Proof.
  destruct (seq_add_rm_cancel demo_cells 2 5 9 {[3]}) as (c1 & E & _ & _ & E');
    [apply demo_wf|vm_compute; reflexivity|lia|vm_compute; reflexivity|set_solver|set_solver|vm_compute; lia|].
  eauto.
Defined.

(** shifting a cell by [d]: the shift is accumulated and the position moves; if the
    position becomes negative the cell is freed, exactly as [rm] frees it except that
    its 2D extension survives.  The answer tells which case happened, and
    [has_shift] is set in both. *)
Theorem pos_add_frees_but_keeps_ext c i d p S sh e :
  cells_wf c -> cell_is c i p S sh e -> p <> (-1)%Z ->
  in_i32 (p + d) = true -> in_i32 (sh + d) = true ->
  exists c1 c2, pos_add i d c = Ok ((p + d <? 0)%Z, c1) /\ rm i c = Ok c2 /\ cells_wf c1 /\
    if (p + d <? 0)%Z
    then c1 = set_has_shift true (set_ext (<[i := e]> (c_ext c2)) c2)
    else cell_is c1 i (p + d) S (sh + d) e /\ c_has_shift c1 = true.
Proof.
  intros Hwf Hc Hne Hr Hr'. pose proof Hc as (Hp & HS & Hsh & He).
  destruct (pos_add_spec c i d p S sh e Hwf Hc Hne Hr Hr') as (c1 & E & Hwf1 & Hh & Hput).
  destruct (rm_spec c i p Hwf Hp Hne) as (c2 & E2 & Hwf2 & K1 & K2 & K3 & K4).
  exists c1, c2. split; [done|]. split; [done|]. split; [done|].
  destruct (p + d <? 0)%Z; [|split; [by eapply put_cell_at | done]].
  destruct Hput as (G1 & G2 & G3 & G4). apply cells_canonical; try done; simpl.
  - apply (wf_same_content c2); try done. simpl. by rewrite length_insert.
  - by rewrite G1, K1.
  - by rewrite G4, K4, list_insert_insert_eq.
  - by rewrite G3, K3.
  - by rewrite G2, K2.
Qed.

Lemma pos_add_frees_but_keeps_ext_witness : exists c1 c2,
  pos_add 2 (-20) (set_ext (<[2 := mk_ext 6 5]> (c_ext demo_cells)) demo_cells) = Ok (true, c1) /\
  rm 2 (set_ext (<[2 := mk_ext 6 5]> (c_ext demo_cells)) demo_cells) = Ok c2 /\
  c1 = set_has_shift true (set_ext (<[2 := mk_ext 6 5]> (c_ext c2)) c2).
Proof.
  destruct (pos_add_frees_but_keeps_ext (set_ext (<[2 := mk_ext 6 5]> (c_ext demo_cells)) demo_cells)
    2 (-20) 9 {[3]} 0 (mk_ext 6 5)) as (c1 & c2 & E1 & E2 & _ & E3).
  - apply ext_insert_wf, demo_wf.
  - vm_compute; auto.
  - lia.
  - reflexivity.
  - reflexivity.
  - exists c1, c2. auto.
Defined.

Lemma get_used_count c : cells_wf c -> get_used c = cnt (fun p => negb (p =? -1)%Z) (c_pos c).
Proof.
  intros Hwf. rewrite <- cnt_indices. unfold get_used, cnt.
  rewrite <- (size_list_to_set (C := gset nat)) by (apply NoDup_ListNoDup, List.NoDup_filter, NoDup_ListNoDup, NoDup_seq).
  f_equal. apply set_eq. intros i. rewrite elem_of_list_to_set, list_elem_of_In, filter_In, <- list_elem_of_In, elem_of_seq.
  rewrite (wf_used c Hwf). split.
  - intros (p & Hp & Hne). rewrite Hp. split; [apply lookup_lt_Some in Hp; lia|].
    by rewrite (proj2 (Z.eqb_neq _ _) Hne).
  - intros [_ H]. destruct (c_pos c !! i) as [p|]; [|done]. exists p. split; [done|]. by bprop.
Qed.

(** The used cells: their number is kept, [used_min] and [used_max_p1] bracket them
    tightly (both 0 when there is none), and [cells_at] lists exactly the cells that
    hold a position for a sequence, in increasing order and without failing. *)
Theorem used_range_and_cells_at c :
  cells_wf c ->
  get_used c = cnt (fun p => negb (p =? -1)%Z) (c_pos c) /\
  (forall i p, c_pos c !! i = Some p -> p <> (-1)%Z -> used_min c <= i < used_max_p1 c) /\
  (get_used c <> 0 -> used_min c ∈ c_used c /\ used_max_p1 c - 1 ∈ c_used c /\ 0 < used_max_p1 c) /\
  (get_used c = 0 -> used_min c = 0 /\ used_max_p1 c = 0) /\
  forall s p, s < LLAMA_MAX_SEQ -> (0 <= p)%Z ->
    exists l, cells_at s p c = Ok l /\ StronglySorted Nat.lt l /\
      forall i, i ∈ l <-> holds c s p i = true.
Proof.
  intros Hwf. split; [by apply get_used_count|].
  pose proof (set_list_sorted (c_used c)) as Hsort. pose proof (elem_of_set_list (c_used c)) as Hel.
  unfold get_used. rewrite <- set_list_length. unfold used_min, used_max_p1.
  split; [|split; [|split]].
  - intros i p Hp Hne. assert (i ∈ set_list (c_used c)) as Hi by (apply Hel, wf_used; eauto).
    destruct (set_list (c_used c)) as [|a l] eqn:E; [by apply not_elem_of_nil in Hi|].
    destruct (last (a :: l)) as [b|] eqn:El; [|by apply last_None in El].
    pose proof (StronglySorted_last Nat.le _ _ Hsort El i Hi). simpl. split; [|lia].
    apply elem_of_cons in Hi as [->|Hi]; [done|]. apply StronglySorted_inv in Hsort as [_ Hall].
    by apply (proj1 (Forall_forall _ _) Hall).
  - destruct (set_list (c_used c)) as [|a l] eqn:E; [done|]. intros _.
    destruct (last (a :: l)) as [b|] eqn:El; [|by apply last_None in El]. split; [|split; [|lia]].
    + apply Hel. by left.
    + rewrite Nat.add_sub. apply Hel. apply last_Some in El as [l' ->]. apply elem_of_app. right. by left.
  - intros E%nil_length_inv. by rewrite E.
  - intros s p Hs Hp0. eexists. split; [|split].
    + unfold cells_at. rewrite cells_at_loop; [done|done|done|].
      intros i Hi. apply Hel, (wf_used c Hwf) in Hi as (q & Hq & _). by eapply lookup_lt_Some.
    + simpl. apply StronglySorted_lfilter, set_list_strict.
    + intros i. simpl. rewrite list_elem_of_In, filter_In, <- list_elem_of_In. split; [tauto|].
      intros H. split; [|done]. apply Hel, (wf_used c Hwf). unfold holds in H.
      destruct (view c !! i) as [[q S]|] eqn:Hv; [|done]. apply view_lookup in Hv as [Hq _].
      unfold owned_at in H. simpl in H. apply andb_true_iff in H as [_ H]. bprop. subst.
      exists p. split; [done | lia].
Qed.

Lemma used_range_and_cells_at_witness :
  (get_used demo_cells = 0 -> used_min demo_cells = 0 /\ used_max_p1 demo_cells = 0) /\
  used_min demo_cells = 1 /\ used_max_p1 demo_cells = 3.
Proof. split; [apply used_range_and_cells_at, demo_wf | vm_compute; auto]. Defined.
