(* ===== verification/Kvarn.v ===== *)
(** * KVarN: the structured K/V cache format (src/src/llama-kvarn.{h,cpp})

    The preset table, the checks on a configuration, the tile record layout and
    its bit packing, the rules for what may be removed from a quantized cache,
    the selection of staged and record cells for a saved state, and the dense
    read plan attention uses.  The floating-point transforms of the file (the
    Hadamard rotation, Sinkhorn scaling and tile quantization) are not modelled.

    Cells, groups, extents and sizes are [Z] with the wrap-around of their C
    type; buffers are lists of bytes in [Z]. *)

From S2P Require Export Prelude.
Open Scope Z_scope.

(** ** Presets *)

Definition KVAR_N_GROUP : Z := 128.

Inductive llama_kvarn_type :=
  | LLAMA_KVARN_TYPE_INVALID
  | LLAMA_KVARN_TYPE_DISABLED
  | LLAMA_KVARN_K2V2_G128
  | LLAMA_KVARN_K2V3_G128
  | LLAMA_KVARN_K2V4_G128
  | LLAMA_KVARN_K3V2_G128
  | LLAMA_KVARN_K3V3_G128
  | LLAMA_KVARN_K3V4_G128
  | LLAMA_KVARN_K4V2_G128
  | LLAMA_KVARN_K4V3_G128
  | LLAMA_KVARN_K4V4_G128
  | LLAMA_KVARN_K2V5_G128
  | LLAMA_KVARN_K2V6_G128
  | LLAMA_KVARN_K2V8_G128
  | LLAMA_KVARN_K3V5_G128
  | LLAMA_KVARN_K3V6_G128
  | LLAMA_KVARN_K3V8_G128
  | LLAMA_KVARN_K4V5_G128
  | LLAMA_KVARN_K4V6_G128
  | LLAMA_KVARN_K4V8_G128
  | LLAMA_KVARN_K5V2_G128
  | LLAMA_KVARN_K5V3_G128
  | LLAMA_KVARN_K5V4_G128
  | LLAMA_KVARN_K5V5_G128
  | LLAMA_KVARN_K5V6_G128
  | LLAMA_KVARN_K5V8_G128
  | LLAMA_KVARN_K6V2_G128
  | LLAMA_KVARN_K6V3_G128
  | LLAMA_KVARN_K6V4_G128
  | LLAMA_KVARN_K6V5_G128
  | LLAMA_KVARN_K6V6_G128
  | LLAMA_KVARN_K6V8_G128
  | LLAMA_KVARN_K8V2_G128
  | LLAMA_KVARN_K8V3_G128
  | LLAMA_KVARN_K8V4_G128
  | LLAMA_KVARN_K8V5_G128
  | LLAMA_KVARN_K8V6_G128
  | LLAMA_KVARN_K8V8_G128
  | LLAMA_KVARN_TYPE_COUNT.

#[global] Instance llama_kvarn_type_eq_dec : EqDecision llama_kvarn_type.
Proof. solve_decision. Defined.

Record llama_kvarn_type_desc := mk_type_desc {
  desc_type : llama_kvarn_type;
  desc_name : string;
  desc_key_bits : Z;
  desc_value_bits : Z;
  desc_group : Z
}.

Definition KVAR_N_TYPES : list llama_kvarn_type_desc :=
  [mk_type_desc LLAMA_KVARN_TYPE_DISABLED "off" 0 0 128;
   mk_type_desc LLAMA_KVARN_K2V2_G128 "kvarn_k2v2_g128" 2 2 128;
   mk_type_desc LLAMA_KVARN_K2V3_G128 "kvarn_k2v3_g128" 2 3 128;
   mk_type_desc LLAMA_KVARN_K2V4_G128 "kvarn_k2v4_g128" 2 4 128;
   mk_type_desc LLAMA_KVARN_K3V2_G128 "kvarn_k3v2_g128" 3 2 128;
   mk_type_desc LLAMA_KVARN_K3V3_G128 "kvarn_k3v3_g128" 3 3 128;
   mk_type_desc LLAMA_KVARN_K3V4_G128 "kvarn_k3v4_g128" 3 4 128;
   mk_type_desc LLAMA_KVARN_K4V2_G128 "kvarn_k4v2_g128" 4 2 128;
   mk_type_desc LLAMA_KVARN_K4V3_G128 "kvarn_k4v3_g128" 4 3 128;
   mk_type_desc LLAMA_KVARN_K4V4_G128 "kvarn_k4v4_g128" 4 4 128;
   mk_type_desc LLAMA_KVARN_K2V5_G128 "kvarn_k2v5_g128" 2 5 128;
   mk_type_desc LLAMA_KVARN_K2V6_G128 "kvarn_k2v6_g128" 2 6 128;
   mk_type_desc LLAMA_KVARN_K2V8_G128 "kvarn_k2v8_g128" 2 8 128;
   mk_type_desc LLAMA_KVARN_K3V5_G128 "kvarn_k3v5_g128" 3 5 128;
   mk_type_desc LLAMA_KVARN_K3V6_G128 "kvarn_k3v6_g128" 3 6 128;
   mk_type_desc LLAMA_KVARN_K3V8_G128 "kvarn_k3v8_g128" 3 8 128;
   mk_type_desc LLAMA_KVARN_K4V5_G128 "kvarn_k4v5_g128" 4 5 128;
   mk_type_desc LLAMA_KVARN_K4V6_G128 "kvarn_k4v6_g128" 4 6 128;
   mk_type_desc LLAMA_KVARN_K4V8_G128 "kvarn_k4v8_g128" 4 8 128;
   mk_type_desc LLAMA_KVARN_K5V2_G128 "kvarn_k5v2_g128" 5 2 128;
   mk_type_desc LLAMA_KVARN_K5V3_G128 "kvarn_k5v3_g128" 5 3 128;
   mk_type_desc LLAMA_KVARN_K5V4_G128 "kvarn_k5v4_g128" 5 4 128;
   mk_type_desc LLAMA_KVARN_K5V5_G128 "kvarn_k5v5_g128" 5 5 128;
   mk_type_desc LLAMA_KVARN_K5V6_G128 "kvarn_k5v6_g128" 5 6 128;
   mk_type_desc LLAMA_KVARN_K5V8_G128 "kvarn_k5v8_g128" 5 8 128;
   mk_type_desc LLAMA_KVARN_K6V2_G128 "kvarn_k6v2_g128" 6 2 128;
   mk_type_desc LLAMA_KVARN_K6V3_G128 "kvarn_k6v3_g128" 6 3 128;
   mk_type_desc LLAMA_KVARN_K6V4_G128 "kvarn_k6v4_g128" 6 4 128;
   mk_type_desc LLAMA_KVARN_K6V5_G128 "kvarn_k6v5_g128" 6 5 128;
   mk_type_desc LLAMA_KVARN_K6V6_G128 "kvarn_k6v6_g128" 6 6 128;
   mk_type_desc LLAMA_KVARN_K6V8_G128 "kvarn_k6v8_g128" 6 8 128;
   mk_type_desc LLAMA_KVARN_K8V2_G128 "kvarn_k8v2_g128" 8 2 128;
   mk_type_desc LLAMA_KVARN_K8V3_G128 "kvarn_k8v3_g128" 8 3 128;
   mk_type_desc LLAMA_KVARN_K8V4_G128 "kvarn_k8v4_g128" 8 4 128;
   mk_type_desc LLAMA_KVARN_K8V5_G128 "kvarn_k8v5_g128" 8 5 128;
   mk_type_desc LLAMA_KVARN_K8V6_G128 "kvarn_k8v6_g128" 8 6 128;
   mk_type_desc LLAMA_KVARN_K8V8_G128 "kvarn_k8v8_g128" 8 8 128].

(** The loops return the first matching entry, or the null pointer. *)
Definition llama_kvarn_type_desc_from_name (name : option string) : option llama_kvarn_type_desc :=
  name ← name; List.find (fun d => bool_decide (desc_name d = name)) KVAR_N_TYPES.

Definition llama_kvarn_type_desc_from_type (t : llama_kvarn_type) : option llama_kvarn_type_desc :=
  List.find (fun d => bool_decide (desc_type d = t)) KVAR_N_TYPES.

Definition llama_kvarn_type_count : nat := length KVAR_N_TYPES.

Definition llama_kvarn_type_name (t : llama_kvarn_type) : string :=
  match llama_kvarn_type_desc_from_type t with Some d => desc_name d | None => "invalid" end.

Definition llama_kvarn_type_from_name (name : option string) : llama_kvarn_type :=
  match llama_kvarn_type_desc_from_name name with Some d => desc_type d | None => LLAMA_KVARN_TYPE_INVALID end.

Definition llama_kvarn_valid_bits (bits : Z) : bool :=
  (bits =? 2) || (bits =? 3) || (bits =? 4) || (bits =? 5) || (bits =? 6) || (bits =? 8).

(** The first entry with the pair decides. *)
Definition llama_kvarn_valid_bit_pair (key_bits value_bits : Z) : bool :=
  match List.find (fun d => (desc_key_bits d =? key_bits) && (desc_value_bits d =? value_bits)
                            && (desc_group d =? 128)) KVAR_N_TYPES with
  | Some d => bool_decide (desc_type d <> LLAMA_KVARN_TYPE_DISABLED) &&
              bool_decide (desc_type d <> LLAMA_KVARN_TYPE_INVALID)
  | None => false
  end.

Record llama_kvarn_params := mk_params {
  kp_type : llama_kvarn_type;
  kp_key_bits : Z;
  kp_value_bits : Z;
  kp_swa_key_bits : Z;
  kp_swa_value_bits : Z;
  kp_group : Z;
  kp_sinkhorn_iters : Z;
  kp_sink_tokens : Z;
  kp_fail_if_unsupported : bool
}.

Definition llama_kvarn_default_params : llama_kvarn_params :=
  mk_params LLAMA_KVARN_TYPE_DISABLED 0 0 0 0 128 16 128 true.

Definition llama_kvarn_params_for_type (t : llama_kvarn_type) : llama_kvarn_params :=
  let r := llama_kvarn_default_params in
  match llama_kvarn_type_desc_from_type t with
  | Some d => mk_params t (desc_key_bits d) (desc_value_bits d) (kp_swa_key_bits r) (kp_swa_value_bits r)
                (desc_group d) (kp_sinkhorn_iters r) (kp_sink_tokens r) (kp_fail_if_unsupported r)
  | None => mk_params t (kp_key_bits r) (kp_value_bits r) (kp_swa_key_bits r) (kp_swa_value_bits r)
              (kp_group r) (kp_sinkhorn_iters r) (kp_sink_tokens r) (kp_fail_if_unsupported r)
  end.

Record llama_kvarn_runtime_requirements := mk_requirements {
  attention_supported : bool;
  head_dims_supported : bool;
  backend_ops_supported : bool;
  req_n_seq_max : Z;
  req_kv_unified : bool
}.

(** [None] is the null pointer: the configuration is accepted. *)
Definition llama_kvarn_validate_runtime (p : llama_kvarn_params) (r : llama_kvarn_runtime_requirements)
    : option string :=
  if decide (kp_type p = LLAMA_KVARN_TYPE_DISABLED) then None else
  match llama_kvarn_type_desc_from_type (kp_type p) with
  | None => Some "invalid KVarN cache type"
  | Some d =>
    if decide (desc_type d = LLAMA_KVARN_TYPE_DISABLED) then Some "invalid KVarN cache type" else
    if negb (kp_key_bits p =? desc_key_bits d) || negb (kp_value_bits p =? desc_value_bits d)
       || negb (kp_group p =? desc_group d)
    then Some "KVarN cache parameters do not match the selected preset" else
    if negb (llama_kvarn_valid_bits (kp_key_bits p)) || negb (llama_kvarn_valid_bits (kp_value_bits p))
    then Some "KVarN supports only 2-, 3-, 4-, 5-, 6-, and 8-bit cache payloads" else
    if (negb (kp_swa_key_bits p =? 0) && negb (llama_kvarn_valid_bits (kp_swa_key_bits p)))
       || (negb (kp_swa_value_bits p =? 0) && negb (llama_kvarn_valid_bits (kp_swa_value_bits p)))
    then Some "KVarN SWA overrides support only 2-, 3-, 4-, 5-, 6-, and 8-bit cache payloads" else
    if negb (Bool.eqb (kp_swa_key_bits p =? 0) (kp_swa_value_bits p =? 0))
    then Some "KVarN SWA override must specify both K and V bits" else
    if negb (kp_swa_key_bits p =? 0)
       && negb (llama_kvarn_valid_bit_pair (kp_swa_key_bits p) (kp_swa_value_bits p))
    then Some "invalid KVarN SWA override bit combination" else
    if negb (kp_group p =? 128) then Some "KVarN currently requires a group size of 128 tokens" else
    if kp_sinkhorn_iters p <=? 0 then Some "KVarN requires at least one Sinkhorn iteration" else
    if negb (kp_sink_tokens p =? 128)
    then Some "KVarN currently requires exactly 128 unquantized sink tokens" else
    if negb (attention_supported r) then Some "KVarN is not supported by this attention/cache path" else
    if negb (head_dims_supported r)
    then Some "KVarN requires 128-, 256-, or 512-dimensional key/value heads" else
    if negb (backend_ops_supported r)
    then Some "KVarN requires a backend with KVarN store and materialization support" else
    None
  end.

(** ** Policies *)

Inductive llama_kvarn_iswa_policy :=
  | LLAMA_KVARN_ISWA_DISABLED
  | LLAMA_KVARN_ISWA_ALL_LAYERS
  | LLAMA_KVARN_ISWA_STANDARD_SWA_FALLBACK.

Definition llama_kvarn_iswa_policy_for (enabled has_swa : bool) (n_seq_max : Z) : llama_kvarn_iswa_policy :=
  if negb enabled then LLAMA_KVARN_ISWA_DISABLED else
  if negb has_swa || (n_seq_max <=? 1) then LLAMA_KVARN_ISWA_ALL_LAYERS
  else LLAMA_KVARN_ISWA_STANDARD_SWA_FALLBACK.

Inductive kvarn_domain := DOMAIN_AUTO | DOMAIN_ROTATED | DOMAIN_ORIGINAL | DOMAIN_ROTATED_K_ORIGINAL_V.

Record llama_kvarn_attention_plan := mk_attention_plan {
  native_attention : bool;
  plan_domain : kvarn_domain
}.

Definition llama_kvarn_plan_attention (native native_original_v : bool)
    (native_rotated_max_query_tokens n_query_tokens : Z) : llama_kvarn_attention_plan :=
  if negb native then mk_attention_plan false DOMAIN_ROTATED else
  let rotated_limit := Z.max 1 native_rotated_max_query_tokens in
  if n_query_tokens <=? rotated_limit then mk_attention_plan true DOMAIN_ROTATED else
  if native_original_v then mk_attention_plan true DOMAIN_ROTATED_K_ORIGINAL_V
  else mk_attention_plan false DOMAIN_ROTATED.

Definition llama_kvarn_attention_domain (native native_original_v : bool)
    (native_rotated_max_query_tokens n_query_tokens : Z) : kvarn_domain :=
  plan_domain (llama_kvarn_plan_attention native native_original_v
                 native_rotated_max_query_tokens n_query_tokens).

Definition llama_kvarn_head_slices (head_dim : Z) : Z :=
  if negb (head_dim =? 128) && negb (head_dim =? 256) && negb (head_dim =? 512) then 0
  else Z.quot head_dim 128.

Definition llama_kvarn_head_dim_supported (head_dim : Z) : bool := 0 <? llama_kvarn_head_slices head_dim.

Definition llama_kvarn_encode_stage_cell (cell : Z) : Z := - cell - 2.

(** [seq_pos_max] is the callable the template is instantiated with. *)
Definition llama_kvarn_stream_is_exclusive_for (n_stream n_seq_max seq_id : Z) (seq_pos_max : Z -> Z) : bool :=
  if (n_stream =? 0) || (seq_id <? 0) || (n_seq_max <=? seq_id) then false else
  if 1 <? n_stream then true else
  forallb (fun other => (other =? seq_id) || (seq_pos_max other <? 0)) (seqZ 0 n_seq_max).

(** ** What may be removed from a quantized stream *)

(** [pos_max / group] and the product are unsigned 32-bit. *)
Definition llama_kvarn_can_remove_range (pos_max p0 p1 group : Z) : outcome bool :=
  _ ← assert_ (0 <? group);
  if pos_max <? 0 then Ok true else
  let begin := Z.max p0 0 in
  let end_ := if p1 <? 0 then INT32_MAX else p1 in
  if (begin =? 0) && (pos_max <? end_) then Ok true else
  if end_ <=? pos_max then Ok false else
  let live_group := pos_max / group in
  let earliest_exact := u32 (Z.max 0 (live_group - 1) * group) in
  Ok (earliest_exact <=? begin).

(** [None] is the answer [false]; the two output references otherwise. *)
Definition llama_kvarn_plan_remove_range (pos_max p0 p1 group : Z) (stream_owned : bool)
    : outcome (option (Z * Z)) :=
  ok ← llama_kvarn_can_remove_range pos_max p0 p1 group;
  if (ok : bool) then Ok (Some (p0, p1)) else
  if negb stream_owned || (p0 <=? 0) || (0 <=? p1) then Ok None else
  Ok (Some (Z.quot p0 group * group, -1)).

(** ** Selection of the cells a saved state keeps *)

Record llama_kvarn_state_stage_cell := mk_stage_cell { source_cell : Z; stage_row : Z }.

(** Body of the loop over the source cells: the cell's staged row, if it is staged. *)
Definition stage_cell_of (live_group stage_begin stage_groups tail_groups : Z) (swa : bool)
    (staged_groups : option (list Z)) (cell : Z) : option llama_kvarn_state_stage_cell :=
  let group := cell / KVAR_N_GROUP in
  let pos := cell mod KVAR_N_GROUP in
  let staged :=
    if swa then (stage_begin <=? group) && (group <=? live_group)
    else match staged_groups with
         | Some gs => bool_decide (group ∈ gs)
         | None => (group =? 0) || ((0 <? group) && (stage_begin <=? group) && (group <=? live_group))
         end in
  if negb staged then None else
  let slot := if swa then group mod stage_groups
              else if group =? 0 then 0 else 1 + (group - 1) mod tail_groups in
  Some (mk_stage_cell cell (u32 (u32 (slot * KVAR_N_GROUP) + pos))).

Definition llama_kvarn_select_state_stage_cells (source_cells : list Z)
    (live_cell_max_p1 stage_groups tail_groups : Z) (swa : bool) (staged_groups : option (list Z))
    : outcome (list llama_kvarn_state_stage_cell) :=
  if live_cell_max_p1 =? 0 then Ok [] else
  _ ← require_ InvalidArgument
        (negb ((stage_groups <? 2) || (tail_groups =? 0) || (stage_groups <? tail_groups) ||
               (negb swa && (stage_groups <=? tail_groups))));
  let live_group := (live_cell_max_p1 - 1) / KVAR_N_GROUP in
  let stage_begin := if tail_groups - 1 <=? live_group then live_group - (tail_groups - 1) else 0 in
  foldM (fun result cell =>
    _ ← require_ InvalidArgument (cell <? live_cell_max_p1);
    match stage_cell_of live_group stage_begin stage_groups tail_groups swa staged_groups cell with
    | Some sc => Ok (result ++ [sc])
    | None => Ok result
    end) source_cells [].

Definition llama_kvarn_select_state_record_groups (source_cells : list Z)
    (stage_cells : list llama_kvarn_state_stage_cell) (groups_per_stream : Z) : outcome (list Z) :=
  let staged : gset Z := list_to_set ((fun sc => source_cell sc / KVAR_N_GROUP) <$> stage_cells) in
  sealed ← foldM (fun (sealed : gset Z) cell =>
      let group := cell / KVAR_N_GROUP in
      _ ← require_ InvalidArgument (group <? groups_per_stream);
      if decide (group ∈ staged) then Ok sealed else Ok ({[group]} ∪ sealed)) source_cells ∅;
  Ok (setZ_list sealed).

(** ** The dense read plan *)

(** First occurrences of the cells, in order; the bitmap [seen] is the set of them. *)
Definition dedup_cells (capacity : Z) (cells : list Z) : outcome (list Z * gset Z) :=
  foldM (fun '(out, seen) cell =>
    _ ← require_ InvalidArgument (cell <? capacity);
    if decide (cell ∈ (seen : gset Z)) then Ok (out, seen)
    else Ok (out ++ [cell], {[cell]} ∪ seen)) cells ([], ∅).

(** Groups touched, in order of first occurrence. *)
Definition touched_groups (n_groups group_align : Z) (cells : list Z) : outcome (list Z) :=
  r ← foldM (fun '(groups, group_seen) cell =>
    let g := cell / group_align in
    _ ← require_ OutOfBounds (g <? n_groups);
    if decide (g ∈ (group_seen : gset Z)) then Ok (groups, group_seen)
    else Ok (groups ++ [g], {[g]} ∪ group_seen)) cells ([], ∅);
  Ok r.1.

(** One group of the aligned plan: its seen cells from [slot] on. *)
Definition fill_group (seen : gset Z) (begin end_ : Z) (slot : nat) (aligned : list Z) : outcome (list Z * nat) :=
  foldM (fun '(aligned, slot) cell =>
    if decide (cell ∈ seen) then a ← vec_set aligned slot cell; Ok (a, S slot)
    else Ok (aligned, slot)) (seqZ begin (end_ - begin)) (aligned, slot).

Definition fill_aligned (seen : gset Z) (capacity group_align : Z) (groups : list Z) (aligned : list Z)
    : outcome (list Z) :=
  r ← foldM (fun '(aligned, out) g =>
    let begin := u32 (g * group_align) in
    let end_ := Z.min (u32 (begin + group_align)) capacity in
    f ← fill_group seen begin end_ out aligned;
    Ok (f.1, (out + Z.to_nat group_align)%nat)) groups (aligned, 0%nat);
  Ok r.1.

(** [std::copy(cells.begin(), cells.end(), result.begin())] *)
Definition copy_to_front (cells result : list Z) : outcome (list Z) :=
  r ← foldM (fun '(result, i) cell => a ← vec_set result i cell; Ok (a, S i)) cells (result, 0%nat);
  Ok r.1.

Definition dense_plan (cells : list Z) (capacity padding : Z) : outcome (list Z) :=
  let used := Z.of_nat (length cells) in
  let padded := Z.min capacity
    (Z.max padding (u32 (u32 (u32 (used + padding) - 1) / padding * padding))) in
  copy_to_front cells (replicate (Z.to_nat padded) (-1)).

(** The aligned plan, when it is not refused as growing too much. *)
Definition aligned_plan (cells : list Z) (seen : gset Z) (capacity padding group_align align_growth_percent : Z)
    : outcome (option (list Z)) :=
  let used := Z.of_nat (length cells) in
  groups ← touched_groups (u32 (u32 (capacity + group_align) - 1) / group_align) group_align cells;
  let groups := stable_sort Z.ltb groups in
  let aligned_used := u64 (Z.of_nat (length groups) * group_align) in
  let limit := u64 (used * u32 (100 + align_growth_percent)) / 100 in
  if (aligned_used <=? limit) && (aligned_used <=? capacity) then
    let aligned_padded := Z.min capacity
      (Z.max padding (u64 (u64 (u64 (aligned_used + padding) - 1) / padding * padding))) in
    a ← fill_aligned seen capacity group_align groups (replicate (Z.to_nat aligned_padded) (-1));
    Ok (Some a)
  else Ok None.

Definition llama_kvarn_compact_read_plan (occupied_cells pending_cells : list Z)
    (capacity padding group_align align_growth_percent : Z) : outcome (list Z) :=
  _ ← require_ InvalidArgument (negb ((capacity =? 0) || (padding =? 0)));
  r ← dedup_cells capacity (occupied_cells ++ pending_cells);
  let '(cells, seen) := r in
  _ ← require_ InvalidArgument (Z.of_nat (length cells) <=? capacity);
  a ← (if 0 <? group_align
       then aligned_plan cells seen capacity padding group_align align_growth_percent
       else Ok None);
  match a with
  | Some aligned => Ok aligned
  | None => dense_plan cells capacity padding
  end.

(** ** Tile records *)

(** [static_cast<size_t>] of a non-negative int; sizes wrap at 64 bits. *)
Definition llama_kvarn_packed_bytes (n_values bits : Z) : outcome Z :=
  _ ← assert_ (0 <=? n_values);
  _ ← assert_ (llama_kvarn_valid_bits bits);
  Ok (u64 (n_values * bits + 7) / 8).

Definition llama_kvarn_align_up (value alignment : Z) : Z :=
  u64 (u64 (value + alignment - 1) / alignment * alignment).

Record llama_kvarn_tile_layout := mk_layout {
  k_payload_off : Z; v_payload_off : Z;
  k_s_col_off : Z; k_zp_off : Z; k_s_row_off : Z;
  v_s_col_off : Z; v_s_row_off : Z; v_zp_off : Z;
  k_payload_bytes : Z; v_payload_bytes : Z; tile_bytes : Z
}.

Definition llama_kvarn_make_layout (head_dim group key_bits value_bits : Z) : outcome llama_kvarn_tile_layout :=
  _ ← assert_ (0 <? head_dim);
  _ ← assert_ (0 <? group);
  _ ← assert_ (llama_kvarn_valid_bits key_bits);
  _ ← assert_ (llama_kvarn_valid_bits value_bits);
  let off := 0 in
  let k_payload_off := off in
  n_k ← i32 (head_dim * group);
  k_bytes ← llama_kvarn_packed_bytes n_k key_bits;
  let off := u64 (off + k_bytes) in
  let k_s_col_off := off in
  let off := u64 (off + u64 (head_dim * 2)) in
  let k_zp_off := off in
  let off := u64 (off + u64 (head_dim * 2)) in
  let k_s_row_off := off in
  let off := u64 (off + u64 (group * 2)) in
  let v_payload_off := off in
  n_v ← i32 (group * head_dim);
  v_bytes ← llama_kvarn_packed_bytes n_v value_bits;
  let off := u64 (off + v_bytes) in
  let v_s_col_off := off in
  let off := u64 (off + u64 (head_dim * 2)) in
  let v_s_row_off := off in
  let off := u64 (off + u64 (group * 2)) in
  let v_zp_off := off in
  let off := u64 (off + u64 (group * 2)) in
  Ok (mk_layout k_payload_off v_payload_off k_s_col_off k_zp_off k_s_row_off
        v_s_col_off v_s_row_off v_zp_off k_bytes v_bytes (llama_kvarn_align_up off 8)).

(** ** Bit packing *)

(** Inner loop over the bits of one value. *)
Definition pack_value (value : Z) (bit_offset : Z) (bits : Z) (dst : list Z) : outcome (list Z) :=
  foldM (fun dst bit =>
    let dst_bit := bit_offset + bit in
    old ← vec_get dst (Z.to_nat (dst_bit / 8));
    vec_set dst (Z.to_nat (dst_bit / 8))
      (Z.lor old (Z.land (Z.shiftl (Z.land (Z.shiftr value bit) 1) (dst_bit mod 8)) 255)))
    (seqZ 0 bits) dst.

(** [memset(dst, 0, n)] *)
Definition memset0 (dst : list Z) (n : Z) : outcome (list Z) :=
  _ ← require_ OutOfBounds (n <=? Z.of_nat (length dst));
  Ok (replicate (Z.to_nat n) 0 ++ drop (Z.to_nat n) dst).

Definition llama_kvarn_pack_bits (values : list Z) (n_values bits : Z) (dst : list Z) : outcome (list Z) :=
  _ ← assert_ (0 <=? n_values);
  _ ← assert_ (llama_kvarn_valid_bits bits);
  n ← llama_kvarn_packed_bytes n_values bits;
  dst ← memset0 dst n;
  let mask := Z.land (Z.shiftl 1 bits - 1) 255 in
  foldM (fun dst i =>
    v ← vec_get values (Z.to_nat i);
    pack_value (Z.land v mask) (i * bits) bits dst) (seqZ 0 n_values) dst.

Definition llama_kvarn_unpack_bits_value (src : list Z) (index bits : Z) : outcome Z :=
  _ ← assert_ (0 <=? index);
  _ ← assert_ (llama_kvarn_valid_bits bits);
  foldM (fun value bit =>
    let src_bit := index * bits + bit in
    b ← vec_get src (Z.to_nat (src_bit / 8));
    Ok (Z.lor value (Z.land (Z.shiftl (Z.land (Z.shiftr b (src_bit mod 8)) 1) bit) 255)))
    (seqZ 0 bits) 0.

(** ** Packing: lemmas *)

Definition getbit (d : list Z) (k : Z) : bool :=
  Z.testbit (default 0 (d !! Z.to_nat (k / 8))) (k mod 8).

Lemma testbit_one n : Z.testbit 1 n = (n =? 0).
Proof. by destruct n as [|p|p]; try done; destruct p. Qed.

Lemma testbit_255 n : 0 <= n < 8 -> Z.testbit 255 n = true.
Proof. intros H. change 255 with (Z.ones 8). by apply Z.ones_spec_low. Qed.

(** One bit moved to position [r] of a byte. *)
Lemma bit_at v bit r m :
  0 <= bit -> 0 <= r < 8 -> 0 <= m < 8 ->
  Z.testbit (Z.land (Z.shiftl (Z.land (Z.shiftr v bit) 1) r) 255) m = (m =? r) && Z.testbit v bit.
Proof.
  intros Hb Hr Hm. rewrite Z.land_spec, testbit_255, andb_true_r by done.
  rewrite Z.shiftl_spec by lia.
  destruct (Z.ltb_spec (m - r) 0).
  - rewrite Z.testbit_neg_r by lia. rewrite (proj2 (Z.eqb_neq _ _)) by lia. done.
  - rewrite Z.land_spec, testbit_one, Z.shiftr_spec by lia.
    destruct (Z.eqb_spec m r) as [->|]; simpl.
    + rewrite Z.sub_diag, Z.add_0_l. simpl. by rewrite andb_true_r.
    + rewrite (proj2 (Z.eqb_neq (m - r) 0)) by lia. by rewrite andb_false_r.
Qed.

Lemma byte_bit_eq j k : j / 8 = k / 8 -> (j mod 8 =? k mod 8) = (j =? k).
Proof.
  intros H. pose proof (Z.div_mod j 8 ltac:(lia)). pose proof (Z.div_mod k 8 ltac:(lia)).
  destruct (Z.eqb_spec j k); destruct (Z.eqb_spec (j mod 8) (k mod 8)); lia.
Qed.

Lemma getbit_or d k old v bit j :
  d !! Z.to_nat (k / 8) = Some old -> 0 <= k -> 0 <= bit -> 0 <= j ->
  getbit (<[Z.to_nat (k / 8) := Z.lor old (Z.land (Z.shiftl (Z.land (Z.shiftr v bit) 1) (k mod 8)) 255)]> d) j
  = getbit d j || ((j =? k) && Z.testbit v bit).
Proof.
  intros Hold Hk Hb Hj. unfold getbit.
  pose proof (Z.mod_pos_bound k 8 ltac:(lia)). pose proof (Z.mod_pos_bound j 8 ltac:(lia)).
  destruct (decide (j / 8 = k / 8)) as [E|E].
  - rewrite E, list_lookup_insert_eq by (by eapply lookup_lt_Some). rewrite Hold; simpl.
    rewrite Z.lor_spec, bit_at by lia. by rewrite byte_bit_eq.
  - rewrite list_lookup_insert_ne.
    + rewrite (proj2 (Z.eqb_neq j k)) by (by intros ->). by rewrite orb_false_r.
    + pose proof (Z.div_pos k 8). pose proof (Z.div_pos j 8). lia.
Qed.

Lemma seqZ_foldM_S {S} (f : S -> Z -> outcome S) (n : nat) s :
  foldM f (seqZ 0 (Z.of_nat (Datatypes.S n))) s = s' ← foldM f (seqZ 0 (Z.of_nat n)) s; f s' (Z.of_nat n).
Proof.
  rewrite seqZ_S, Z.add_0_l, foldM_app.
  change (s' ← ?m; ?k) with (mbind (fun s' => k) m). unfold mbind, outcome_bind.
  destruct (foldM f (seqZ 0 (Z.of_nat n)) s); simpl; [|done]. by destruct (f a (Z.of_nat n)).
Qed.

Lemma pack_value_spec v off (bits : nat) d :
  0 <= off -> (off + Z.of_nat bits + 7) / 8 <= Z.of_nat (length d) ->
  exists d', pack_value v off (Z.of_nat bits) d = Ok d' /\ length d' = length d /\
    forall j, 0 <= j ->
      getbit d' j = getbit d j || ((off <=? j) && (j <? off + Z.of_nat bits) && Z.testbit v (j - off)).
Proof.
  intros Hoff. unfold pack_value. induction bits as [|n IH]; intros Hlen.
  - exists d. split; [done|]. split; [done|]. intros j Hj.
    destruct (Z.leb_spec off j); simpl; [|by rewrite orb_false_r].
    rewrite (proj2 (Z.ltb_ge _ _)) by lia. by rewrite orb_false_r.
  - destruct IH as (d1 & E & Hl & Hb).
    { etransitivity; [|exact Hlen]. apply Z.div_le_mono; lia. }
    rewrite seqZ_foldM_S, E; simpl. set (k := off + Z.of_nat n).
    assert (0 <= k / 8 < Z.of_nat (length d1)) as Hk.
    { rewrite Hl. split; [apply Z.div_pos; lia|]. enough (k / 8 + 1 <= (off + Z.of_nat (S n) + 7) / 8) by lia.
      rewrite <- Z.div_add by lia. apply Z.div_le_mono; lia. }
    destruct (lookup_lt_is_Some_2 d1 (Z.to_nat (k / 8))) as [old Hold]; [lia|].
    rewrite (vec_get_Some _ _ _ Hold); simpl. rewrite (vec_set_Some _ _ _ _ Hold).
    eexists; split; [done|]. split; [by rewrite length_insert|]. intros j Hj.
    rewrite getbit_or by (done || lia). rewrite Hb by done. rewrite <- orb_assoc. f_equal.
    destruct (Z.eqb_spec j k) as [->|Hjk].
    + unfold k. replace (off + Z.of_nat n - off) with (Z.of_nat n) by lia.
      rewrite (proj2 (Z.leb_le _ _)), (proj2 (Z.ltb_ge _ _)), (proj2 (Z.ltb_lt _ _)) by lia. done.
    + simpl. rewrite orb_false_r. f_equal. f_equal. unfold k in Hjk.
      destruct (Z.ltb_spec j (off + Z.of_nat n)); symmetry; [apply Z.ltb_lt | apply Z.ltb_ge]; lia.
Qed.

(** Bit [j] of a run of [bits]-wide values. *)
Definition valbit (values : list Z) (bits mask j : Z) : bool :=
  Z.testbit (Z.land (default 0 (values !! Z.to_nat (j / bits))) mask) (j mod bits).

(** What the packed buffer holds after [n] values. *)
Lemma pack_values_spec values (bits : nat) mask (n : nat) d0 :
  (0 < bits)%nat -> (n <= length values)%nat ->
  (Z.of_nat n * Z.of_nat bits + 7) / 8 <= Z.of_nat (length d0) ->
  exists d, foldM (fun dst i =>
      v ← vec_get values (Z.to_nat i);
      pack_value (Z.land v mask) (i * Z.of_nat bits) (Z.of_nat bits) dst) (seqZ 0 (Z.of_nat n)) d0 = Ok d /\
    length d = length d0 /\
    forall j, 0 <= j ->
      getbit d j = getbit d0 j || ((j <? Z.of_nat n * Z.of_nat bits) && valbit values (Z.of_nat bits) mask j).
Proof.
  intros Hb. induction n as [|n IH]; intros Hn Hlen.
  - exists d0. split; [done|]. split; [done|]. intros j Hj.
    rewrite (proj2 (Z.ltb_ge _ _)) by lia. by rewrite orb_false_r.
  - destruct IH as (d1 & E & Hl & Hbits); [lia| |].
    { etransitivity; [|exact Hlen]. apply Z.div_le_mono; lia. }
    destruct (lookup_lt_is_Some_2 values n) as [v Hv]; [lia|].
    destruct (pack_value_spec (Z.land v mask) (Z.of_nat n * Z.of_nat bits) bits d1) as (d2 & E2 & Hl2 & Hb2);
      [lia| |].
    { rewrite Hl. etransitivity; [|exact Hlen]. apply Z.div_le_mono; lia. }
    rewrite seqZ_foldM_S, E; simpl. rewrite Nat2Z.id, (vec_get_Some _ _ _ Hv); simpl. rewrite E2.
    exists d2. split; [done|]. split; [lia|]. intros j Hj. rewrite Hb2, Hbits by done.
    rewrite <- orb_assoc. f_equal. unfold valbit.
    destruct (Z.leb_spec (Z.of_nat n * Z.of_nat bits) j) as [Hlo|Hlo]; simpl.
    + rewrite (proj2 (Z.ltb_ge j _)) by lia. simpl.
      destruct (Z.ltb_spec j (Z.of_nat n * Z.of_nat bits + Z.of_nat bits)) as [Hhi|Hhi]; simpl.
      * rewrite (proj2 (Z.ltb_lt _ _)) by lia; simpl.
        assert (j / Z.of_nat bits = Z.of_nat n) as Ed by (symmetry; apply (Z.div_unique _ _ _ (j - Z.of_nat n * Z.of_nat bits)); lia).
        rewrite Ed, Nat2Z.id, Hv; simpl. f_equal. rewrite Z.mod_eq, Ed by lia. lia.
      * rewrite (proj2 (Z.ltb_ge _ _)) by lia. done.
    + rewrite (proj2 (Z.ltb_lt j _)) by lia. rewrite (proj2 (Z.ltb_lt j _)) by lia. by rewrite orb_false_r.
Qed.

Lemma getbit_memset d n j :
  0 <= n -> 0 <= j < 8 * n -> getbit (replicate (Z.to_nat n) 0 ++ drop (Z.to_nat n) d) j = false.
Proof.
  intros Hn Hj. unfold getbit. rewrite lookup_app_l, lookup_replicate_2; rewrite ?length_replicate.
  - apply Z.testbit_0_l.
  - apply Z2Nat.inj_lt; [by apply Z.div_pos; lia|lia|]. apply Z.div_lt_upper_bound; lia.
  - apply Z2Nat.inj_lt; [by apply Z.div_pos; lia|lia|]. apply Z.div_lt_upper_bound; lia.
Qed.

Lemma unpack_spec src index (bits : nat) :
  0 <= index -> (bits <= 8)%nat -> index * Z.of_nat bits + Z.of_nat bits <= 8 * Z.of_nat (length src) ->
  exists v, foldM (fun value bit =>
      b ← vec_get src (Z.to_nat ((index * Z.of_nat bits + bit) / 8));
      Ok (Z.lor value (Z.land (Z.shiftl (Z.land (Z.shiftr b ((index * Z.of_nat bits + bit) mod 8)) 1) bit) 255)))
    (seqZ 0 (Z.of_nat bits)) 0 = Ok v /\
    forall m, 0 <= m -> Z.testbit v m = (m <? Z.of_nat bits) && getbit src (index * Z.of_nat bits + m).
Proof.
  intros Hi. set (off := index * Z.of_nat bits). assert (0 <= off) by lia. clearbody off.
  induction bits as [|n IH]; intros H8 Hlen.
  - exists 0. split; [done|]. intros m Hm. rewrite (proj2 (Z.ltb_ge _ _)) by lia. apply Z.testbit_0_l.
  - destruct IH as (v & E & Hv); [lia|lia|]. rewrite seqZ_foldM_S, E; simpl.
    set (k := off + Z.of_nat n). pose proof (Z.mod_pos_bound k 8 ltac:(lia)).
    assert (0 <= k / 8 < Z.of_nat (length src)) as Hk.
    { split; [apply Z.div_pos; lia|]. apply Z.div_lt_upper_bound; lia. }
    destruct (lookup_lt_is_Some_2 src (Z.to_nat (k / 8))) as [b Hb]; [lia|].
    rewrite (vec_get_Some _ _ _ Hb); simpl. eexists; split; [done|]. intros m Hm.
    rewrite Z.lor_spec, Hv by done.
    destruct (Z.ltb_spec m 8).
    + rewrite bit_at by lia. destruct (Z.eqb_spec m (Z.of_nat n)) as [->|Hne]; simpl.
      * rewrite (proj2 (Z.ltb_ge _ _)), (proj2 (Z.ltb_lt _ _)) by lia. simpl. unfold getbit.
        fold k. by rewrite Hb.
      * rewrite orb_false_r. f_equal.
        destruct (Z.ltb_spec m (Z.of_nat n)); symmetry; [apply Z.ltb_lt | apply Z.ltb_ge]; lia.
    + rewrite !(proj2 (Z.ltb_ge _ _)) by lia. simpl. rewrite Z.land_spec.
      change 255 with (Z.ones 8). rewrite Z.ones_spec_high by lia. apply andb_false_r.
Qed.

Lemma valid_bits_nat bits : llama_kvarn_valid_bits bits = true ->
  exists b : nat, bits = Z.of_nat b /\ (0 < b <= 8)%nat.
Proof.
  unfold llama_kvarn_valid_bits. intros H. exists (Z.to_nat bits).
  repeat (apply orb_true_iff in H as [H|H]); bprop; lia.
Qed.

Lemma packed_bytes_Ok n (b : nat) :
  0 <= n <= INT32_MAX -> (0 < b <= 8)%nat -> llama_kvarn_valid_bits (Z.of_nat b) = true ->
  llama_kvarn_packed_bytes n (Z.of_nat b) = Ok ((n * Z.of_nat b + 7) / 8).
Proof.
  intros Hn Hb Hv. unfold llama_kvarn_packed_bytes. rewrite (assert_true _ (proj2 (Z.leb_le _ _) (proj1 Hn))), Hv; simpl.
  rewrite u64_id; [done|]. unfold INT32_MAX, UINT64_MAX in *. nia.
Qed.

(** C40: packing then unpacking: for every payload width the cache accepts, packing [n]
    values into a large enough buffer succeeds, keeps its length, and reading back any of the values gives it modulo two to the width. *)
Theorem pack_unpack_roundtrip values n bits dst i v :
  llama_kvarn_valid_bits bits = true ->
  0 <= n <= INT32_MAX -> n <= Z.of_nat (length values) ->
  (n * bits + 7) / 8 <= Z.of_nat (length dst) ->
  0 <= i < n -> values !! Z.to_nat i = Some v ->
  exists packed, llama_kvarn_pack_bits values n bits dst = Ok packed /\
    length packed = length dst /\
    llama_kvarn_unpack_bits_value packed i bits = Ok (v mod 2 ^ bits).
Proof.
  intros Hv Hn Hlv Hld Hi Hvi. destruct (valid_bits_nat bits Hv) as (b & -> & Hb).
  unfold llama_kvarn_pack_bits, llama_kvarn_unpack_bits_value.
  rewrite (assert_true _ (proj2 (Z.leb_le 0 n) ltac:(lia))), (assert_true _ (proj2 (Z.leb_le 0 i) ltac:(lia))), Hv; simpl.
  rewrite packed_bytes_Ok by done; simpl. unfold memset0. rewrite (proj2 (Z.leb_le _ _) Hld); simpl.
  set (pb := (n * Z.of_nat b + 7) / 8) in *. assert (0 <= pb) by (apply Z.div_pos; lia).
  assert (n * Z.of_nat b <= 8 * pb) as Hpb.
  { pose proof (Z.div_mod (n * Z.of_nat b + 7) 8 ltac:(lia)). pose proof (Z.mod_pos_bound (n * Z.of_nat b + 7) 8 ltac:(lia)). lia. }
  set (d0 := replicate (Z.to_nat pb) 0 ++ drop (Z.to_nat pb) dst).
  assert (length d0 = length dst) as Hl0 by (unfold d0; rewrite length_app, length_replicate, length_drop; lia).
  set (mask := Z.land (Z.shiftl 1 (Z.of_nat b) - 1) 255).
  destruct (pack_values_spec values b mask (Z.to_nat n) d0) as (d & E & Hl & Hbits); [lia|lia| |].
  { rewrite Z2Nat.id by lia. fold pb. lia. }
  rewrite Z2Nat.id in E, Hbits by lia. exists d. split; [exact E|]. split; [lia|].
  destruct (unpack_spec d i b) as (w & Ew & Hw); [lia|lia|nia|]. rewrite Ew. f_equal.
  apply Z.bits_inj'. intros m Hm. rewrite Hw, <- Z.land_ones, Z.land_spec by lia.
  destruct (Z.ltb_spec m (Z.of_nat b)); simpl.
  - rewrite Z.ones_spec_low, andb_true_r by lia. rewrite Hbits by nia.
    unfold d0. rewrite getbit_memset by nia. rewrite (proj2 (Z.ltb_lt _ _)) by nia. simpl. unfold valbit.
    replace (i * Z.of_nat b + m) with (m + i * Z.of_nat b) by lia.
    rewrite Z.div_add, Z.mod_add, Z.div_small, Z.mod_small, Z.add_0_l, Hvi by lia. simpl.
    unfold mask. rewrite Z.land_spec, Z.land_spec, testbit_255, andb_true_r by lia.
    replace (Z.shiftl 1 (Z.of_nat b) - 1) with (Z.ones (Z.of_nat b)) by (unfold Z.ones; lia).
    rewrite Z.ones_spec_low by lia. apply andb_true_r.
  - rewrite Z.ones_spec_high by lia. by rewrite andb_false_r.
Qed.

Lemma pack_unpack_roundtrip_witness : exists packed,
  llama_kvarn_pack_bits [5; 250; 3; 7] 4 3 [255; 255; 9] = Ok packed /\
  llama_kvarn_unpack_bits_value packed 1 3 = Ok (250 mod 2 ^ 3).
Proof.
  destruct (pack_unpack_roundtrip [5; 250; 3; 7] 4 3 [255; 255; 9] 1 250) as (p & E & _ & E');
    try (vm_compute; (reflexivity || discriminate || (split; (reflexivity || discriminate)))); eauto.
Defined.

(** ** The read plan: lemmas *)

(** Cells in the order of their first occurrence. *)
Definition nub_step (out : list Z) (c : Z) : list Z := if decide (c ∈ out) then out else out ++ [c].
Definition nub (cells : list Z) : list Z := foldl nub_step [] cells.

Lemma nub_step_NoDup out c : NoDup out -> NoDup (nub_step out c).
Proof.
  intros H. unfold nub_step. case_decide; [done|]. apply NoDup_app. split; [done|].
  split; [|apply NoDup_singleton]. intros x Hx ->%list_elem_of_singleton. done.
Qed.

Lemma foldl_nub_NoDup cells out : NoDup out -> NoDup (foldl nub_step out cells).
Proof. revert out; induction cells as [|c l IH]; intros out H; [done|]. by apply IH, nub_step_NoDup. Qed.

Lemma foldl_nub_elem cells out x : x ∈ foldl nub_step out cells <-> x ∈ out \/ x ∈ cells.
Proof.
  revert out; induction cells as [|c l IH]; intros out; simpl.
  - rewrite elem_of_nil. tauto.
  - rewrite IH, elem_of_cons. unfold nub_step. case_decide as Hc; [|rewrite elem_of_app, list_elem_of_singleton; tauto].
    split; [tauto|]. intros [?|[->|?]]; tauto.
Qed.

Lemma nub_NoDup cells : NoDup (nub cells).
Proof. apply foldl_nub_NoDup, NoDup_nil_2. Qed.

Lemma elem_of_nub cells x : x ∈ nub cells <-> x ∈ cells.
Proof. unfold nub. rewrite foldl_nub_elem, elem_of_nil. tauto. Qed.

(** Both deduplicating loops: a range check, a set of what was seen, a list. *)
Lemma dedup_loop (f : Z -> Z) (limit : Z) (e : fault) cells out (seen : gset Z) :
  (forall x, x ∈ seen <-> x ∈ out) ->
  foldM (fun '(out, seen) cell =>
    _ ← require_ e (f cell <? limit);
    if decide (f cell ∈ (seen : gset Z)) then Ok (out, seen)
    else Ok (out ++ [f cell], {[f cell]} ∪ seen)) cells (out, seen) =
  if forallb (fun c => f c <? limit) cells
  then Ok (foldl nub_step out (f <$> cells), seen ∪ list_to_set (f <$> cells))
  else Err e.
Proof.
  revert out seen. induction cells as [|c l IH]; intros out seen Hs; simpl.
  - by rewrite union_empty_r_L.
  - destruct (f c <? limit); simpl; [|done]. unfold nub_step at 2.
    destruct (decide (f c ∈ seen)) as [Hc|Hc].
    + rewrite decide_True by (by apply Hs). simpl. rewrite IH by done. destruct (forallb _ l); [|done].
      do 2 f_equal. set_solver.
    + rewrite decide_False by (by rewrite <- Hs). simpl. rewrite IH.
      * destruct (forallb _ l); [|done]. do 2 f_equal. set_solver.
      * intros x. rewrite elem_of_union, elem_of_singleton, elem_of_app, list_elem_of_singleton, Hs. tauto.
Qed.

Lemma dedup_cells_eq capacity cells :
  dedup_cells capacity cells =
  if forallb (fun c => c <? capacity) cells then Ok (nub cells, list_to_set cells) else Err InvalidArgument.
Proof.
  unfold dedup_cells. rewrite (dedup_loop (fun c => c)) by set_solver.
  destruct (forallb _ _); [|done]. by rewrite list_fmap_id, union_empty_l_L.
Qed.

Lemma touched_groups_eq n ga cells :
  touched_groups n ga cells =
  if forallb (fun c => c / ga <? n) cells then Ok (nub ((fun c => c / ga) <$> cells)) else Err OutOfBounds.
Proof.
  unfold touched_groups. rewrite (dedup_loop (fun c => c / ga)) by set_solver. by destruct (forallb _ _).
Qed.

(** Writing consecutive elements over padding. *)
Lemma list_inserts_pad {A} (P k : list A) x r :
  list_inserts (length P) k (P ++ replicate (length k + r) x) = P ++ k ++ replicate r x.
Proof.
  revert P; induction k as [|y k IH]; intros P; simpl; [done|].
  rewrite list_insert_inserts_lt by lia.
  rewrite insert_app_r_alt, Nat.sub_diag by lia. simpl.
  replace (P ++ y :: replicate (length k + r) x) with ((P ++ [y]) ++ replicate (length k + r) x) by (by rewrite <- app_assoc).
  replace (S (length P)) with (length (P ++ [y])) by (rewrite length_app; simpl; lia).
  rewrite IH. by rewrite <- app_assoc.
Qed.

Lemma fill_loop (seen : gset Z) l slot aligned :
  (slot + length (filter (fun c => c ∈ seen) l) <= length aligned)%nat ->
  foldM (fun '(aligned, slot) cell =>
    if decide (cell ∈ seen) then a ← vec_set aligned slot cell; Ok (a, S slot)
    else Ok (aligned, slot)) l (aligned, slot) =
  Ok (list_inserts slot (filter (fun c => c ∈ seen) l) aligned,
      (slot + length (filter (fun c => c ∈ seen) l))%nat).
Proof.
  revert slot aligned; induction l as [|c l IH]; intros slot aligned Hl; simpl.
  - by rewrite Nat.add_0_r.
  - rewrite filter_cons in *. case_decide; simpl in *; [|by apply IH].
    destruct (lookup_lt_is_Some_2 aligned slot) as [a Ha]; [lia|].
    rewrite (vec_set_Some _ _ _ _ Ha); simpl. rewrite IH by (rewrite length_insert; lia).
    rewrite list_insert_inserts_lt by lia. do 2 f_equal. lia.
Qed.

Lemma copy_loop (cells result : list Z) (i : nat) :
  (i + length cells <= length result)%nat ->
  foldM (fun '(result, i) cell => a ← vec_set result i cell; Ok (a, S i)) cells (result, i) =
  Ok (list_inserts i cells result, (i + length cells)%nat).
Proof.
  revert result i; induction cells as [|c l IH]; intros result i Hl; simpl in *; [by rewrite Nat.add_0_r|].
  destruct (lookup_lt_is_Some_2 result i) as [a Ha]; [lia|].
  rewrite (vec_set_Some _ _ _ _ Ha); simpl. rewrite IH by (rewrite length_insert; lia).
  rewrite list_insert_inserts_lt by lia. do 2 f_equal. lia.
Qed.

Lemma copy_to_front_eq cells padded :
  (length cells <= padded)%nat ->
  copy_to_front cells (replicate padded (-1)) = Ok (cells ++ replicate (padded - length cells) (-1)).
Proof.
  intros Hl. unfold copy_to_front. rewrite copy_loop by (rewrite length_replicate; lia). simpl.
  pose proof (list_inserts_pad [] cells (-1) (padded - length cells)) as E. simpl in E.
  replace (length cells + (padded - length cells))%nat with padded in E by lia. by rewrite E.
Qed.

(** The cells of one group that are in the plan, and its share of the aligned plan. *)
Definition group_cells (seen : gset Z) (capacity ga g : Z) : list Z :=
  filter (fun c => c ∈ seen) (seqZ (g * ga) (Z.min (g * ga + ga) capacity - g * ga)).

Definition group_block (seen : gset Z) (capacity ga g : Z) : list Z :=
  group_cells seen capacity ga g ++
  replicate (Z.to_nat ga - length (group_cells seen capacity ga g)) (-1).

Lemma group_cells_length seen capacity ga g :
  0 <= ga -> (length (group_cells seen capacity ga g) <= Z.to_nat ga)%nat.
Proof.
  intros Hga. unfold group_cells. etransitivity; [apply length_filter|]. rewrite length_seqZ. lia.
Qed.

Lemma group_block_length seen capacity ga g :
  0 <= ga -> length (group_block seen capacity ga g) = Z.to_nat ga.
Proof.
  intros Hga. unfold group_block. rewrite length_app, length_replicate.
  pose proof (group_cells_length seen capacity ga g Hga). lia.
Qed.

Lemma elem_of_group_cells seen capacity ga g c :
  c ∈ group_cells seen capacity ga g <-> c ∈ seen /\ g * ga <= c < g * ga + ga /\ c < capacity.
Proof. unfold group_cells. rewrite list_elem_of_filter, elem_of_seqZ. split; intros [? ?]; (split; [done|lia]). Qed.

Lemma fill_aligned_eq seen capacity ga groups r :
  0 < ga -> capacity + ga <= UINT32_MAX ->
  (forall g, g ∈ groups -> 0 <= g /\ g * ga < capacity) ->
  fill_aligned seen capacity ga groups (replicate (Z.to_nat ga * length groups + r) (-1)) =
  Ok (concat (group_block seen capacity ga <$> groups) ++ replicate r (-1)).
Proof.
  intros Hga Hcap Hg. unfold fill_aligned.
  assert (forall P, foldM (fun '(aligned, out) g =>
      let begin := u32 (g * ga) in
      let end_ := Z.min (u32 (begin + ga)) capacity in
      f ← fill_group seen begin end_ out aligned;
      Ok (f.1, (out + Z.to_nat ga)%nat)) groups
      (P ++ replicate (Z.to_nat ga * length groups + r) (-1), length P) =
    Ok (P ++ concat (group_block seen capacity ga <$> groups) ++ replicate r (-1),
        (length P + Z.to_nat ga * length groups)%nat)) as Hloop; 
    [|exact (f_equal (fun m : outcome (list Z * nat) => r ← m; Ok r.1) (Hloop []))].
  induction groups as [|g gs IH]; intros P; simpl.
  - by rewrite Nat.mul_0_r, Nat.add_0_r.
  - destruct (Hg g) as [Hg0 Hg1]; [by left|].
    assert (0 <= g * ga) by (apply Z.mul_nonneg_nonneg; lia).
    rewrite (u32_id (g * ga)), (u32_id (g * ga + ga)) by (unfold UINT32_MAX in *; lia).
    unfold fill_group. pose proof (group_cells_length seen capacity ga g ltac:(lia)) as Hlen.
    rewrite fill_loop by (fold (group_cells seen capacity ga g); rewrite length_app, length_replicate; lia).
    fold (group_cells seen capacity ga g). simpl.
    set (k := group_cells seen capacity ga g) in *.
    replace (Z.to_nat ga * S (length gs) + r)%nat
      with (length k + ((Z.to_nat ga - length k) + (Z.to_nat ga * length gs + r)))%nat by lia.
    rewrite list_inserts_pad, replicate_add.
    replace (P ++ k ++ replicate (Z.to_nat ga - length k) (-1) ++ replicate (Z.to_nat ga * length gs + r) (-1))
      with ((P ++ group_block seen capacity ga g) ++ replicate (Z.to_nat ga * length gs + r) (-1))
      by (unfold group_block; fold k; by rewrite <- !app_assoc).
    replace (length P + Z.to_nat ga)%nat with (length (P ++ group_block seen capacity ga g))
      by (rewrite length_app, group_block_length by lia; done).
    rewrite IH by (intros; apply Hg; by right).
    rewrite length_app, group_block_length by lia. rewrite <- !app_assoc. do 2 f_equal. lia.
Qed.

(** Rounding an extent up to the padding, capped at the capacity. *)
Lemma pad_bound u p cap : 0 <= u <= cap -> 0 < p ->
  let q := Z.min cap (Z.max p ((u + p - 1) / p * p)) in
  u <= q <= cap /\ (q = cap \/ q mod p = 0).
Proof.
  intros Hu Hp q. pose proof (Z.div_mod (u + p - 1) p ltac:(lia)).
  pose proof (Z.mod_pos_bound (u + p - 1) p ltac:(lia)).
  split; [unfold q; nia|]. unfold q.
  destruct (Z.min_spec cap (Z.max p ((u + p - 1) / p * p))) as [[_ ->]|[_ ->]]; [by left|right].
  destruct (Z.max_spec p ((u + p - 1) / p * p)) as [[_ ->]|[_ ->]].
  - apply Z.mod_mul; lia.
  - apply Z.mod_same; lia.
Qed.

Section read_plan.
Context (capacity padding ga pct : Z).
Hypothesis Hcap : 0 < capacity.
Hypothesis Hpad : 0 < padding.
Hypothesis Hcp : capacity + padding <= UINT32_MAX.
Hypothesis Hcg : capacity + ga <= UINT32_MAX.

Definition in_cache (cells : list Z) : Prop := forall c, c ∈ cells -> 0 <= c < capacity.

Lemma NoDup_range_length (l : list Z) : NoDup l -> in_cache l -> Z.of_nat (length l) <= capacity.
Proof.
  intros Hnd Hin. assert (length l <= length (seqZ 0 capacity))%nat; [|rewrite length_seqZ in *; lia].
  apply submseteq_length, NoDup_submseteq; [done|]. intros c Hc%Hin. apply elem_of_seqZ. lia.
Qed.

Lemma dense_plan_eq cells : NoDup cells -> in_cache cells ->
  exists r : nat, dense_plan cells capacity padding = Ok (cells ++ replicate r (-1)) /\
    let n := Z.of_nat (length cells + r) in n <= capacity /\ (n = capacity \/ n mod padding = 0).
Proof.
  intros Hnd Hin. pose proof (NoDup_range_length cells Hnd Hin) as Hlen. unfold dense_plan.
  destruct (pad_bound (Z.of_nat (length cells)) padding capacity ltac:(lia) Hpad) as [Hq Hmod].
  pose proof (Z.div_mod (Z.of_nat (length cells) + padding - 1) padding ltac:(lia)).
  pose proof (Z.mod_pos_bound (Z.of_nat (length cells) + padding - 1) padding ltac:(lia)).
  rewrite (u32_id (Z.of_nat (length cells) + padding)) by (unfold UINT32_MAX in *; lia).
  rewrite (u32_id (Z.of_nat (length cells) + padding - 1)) by (unfold UINT32_MAX in *; lia).
  rewrite u32_id by (unfold UINT32_MAX in *; nia).
  set (q := Z.min capacity _) in *. rewrite copy_to_front_eq by lia.
  exists (Z.to_nat q - length cells)%nat. split; [done|]. cbv zeta.
  replace (Z.of_nat (length cells + (Z.to_nat q - length cells))) with q by lia. split; [lia|done].
Qed.

Lemma aligned_plan_eq cells : 0 < ga -> NoDup cells -> in_cache cells ->
  aligned_plan cells (list_to_set cells) capacity padding ga pct = Ok None \/
  exists groups r,
    aligned_plan cells (list_to_set cells) capacity padding ga pct =
      Ok (Some (concat (group_block (list_to_set cells) capacity ga <$> groups) ++ replicate r (-1))) /\
    NoDup groups /\ (forall g, g ∈ groups <-> exists c, c ∈ cells /\ g = c / ga) /\
    let n := Z.of_nat (Z.to_nat ga * length groups + r) in n <= capacity /\ (n = capacity \/ n mod padding = 0).
Proof.
  intros Hga Hnd Hin. unfold aligned_plan. rewrite touched_groups_eq.
  rewrite (u32_id (capacity + ga)), (u32_id (capacity + ga - 1)) by (unfold UINT32_MAX in *; lia).
  rewrite (proj2 (forallb_forall _ cells)); cycle 1.
  { intros c Hc%list_elem_of_In%Hin. apply Z.ltb_lt.
    enough (c / ga + 1 <= (capacity + ga - 1) / ga) by lia.
    rewrite <- Z.div_add by lia. apply Z.div_le_mono; lia. }
  simpl. set (gs := stable_sort Z.ltb (nub ((fun c => c / ga) <$> cells))).
  assert (gs ≡ₚ nub ((fun c => c / ga) <$> cells)) as Hperm by apply stable_sort_perm.
  assert (NoDup gs) as Hgnd by (rewrite Hperm; apply nub_NoDup).
  assert (forall g, g ∈ gs <-> exists c, c ∈ cells /\ g = c / ga) as Hgs.
  { intros g. rewrite Hperm, elem_of_nub, list_elem_of_fmap. naive_solver. }
  assert (forall g, g ∈ gs -> 0 <= g /\ g * ga < capacity) as Hgr.
  { intros g (c & Hc%Hin & ->)%Hgs. split; [apply Z.div_pos; lia|].
    pose proof (Z.mul_div_le c ga ltac:(lia)). lia. }
  clearbody gs. set (U := Z.of_nat (length gs) * ga).
  destruct (_ && _) eqn:Hfit; [|by left]. right. apply andb_true_iff in Hfit as [_ Hfit]. bprop.
  assert (Z.of_nat (length gs) <= capacity) as Hglen.
  { apply NoDup_range_length; [done|]. intros g Hg%Hgr. nia. }
  assert (u64 U = U) as HU by (apply u64_id; unfold UINT64_MAX, UINT32_MAX in *; nia).
  rewrite HU in *.
  destruct (pad_bound U padding capacity ltac:(lia) Hpad) as [Hq Hmod].
  pose proof (Z.div_mod (U + padding - 1) padding ltac:(lia)).
  pose proof (Z.mod_pos_bound (U + padding - 1) padding ltac:(lia)).
  rewrite (u64_id (U + padding)) by (unfold UINT64_MAX, UINT32_MAX in *; lia).
  rewrite (u64_id (U + padding - 1)) by (unfold UINT64_MAX, UINT32_MAX in *; lia).
  rewrite u64_id by (unfold UINT64_MAX, UINT32_MAX in *; nia).
  set (q := Z.min capacity _) in *.
  assert (Z.to_nat q = (Z.to_nat ga * length gs + (Z.to_nat q - Z.to_nat ga * length gs)))%nat as Eq.
  { assert (Z.to_nat ga * length gs <= Z.to_nat q)%nat by (unfold U in *; nia). lia. }
  rewrite Eq, fill_aligned_eq by done. exists gs, (Z.to_nat q - Z.to_nat ga * length gs)%nat.
  split; [done|]. split; [done|]. split; [done|]. cbv zeta. rewrite <- Eq, Z2Nat.id by lia. split; [lia|done].
Qed.

(** The cells of the aligned plan. *)
Lemma concat_blocks_cells seen groups x : x <> -1 ->
  x ∈ concat (group_block seen capacity ga <$> groups) <->
  exists g, g ∈ groups /\ x ∈ group_cells seen capacity ga g.
Proof.
  intros Hx. rewrite list_elem_of_In, in_concat. split.
  - intros (b & (g & -> & Hg)%list_elem_of_In%list_elem_of_fmap & Hxb%list_elem_of_In). exists g. split; [done|].
    unfold group_block in Hxb. apply elem_of_app in Hxb as [?|[-> _]%elem_of_replicate]; done.
  - intros (g & Hg & Hc). exists (group_block seen capacity ga g). split.
    + apply list_elem_of_In, list_elem_of_fmap. eauto.
    + apply list_elem_of_In. unfold group_block. apply elem_of_app. by left.
Qed.

Lemma filter_replicate_neg r : filter (fun c => c <> -1) (replicate r (-1)) = [].
Proof. induction r; simpl; [done|]. by rewrite filter_cons_False by (intros H; by apply H). Qed.

Lemma filter_blocks_NoDup cells groups : 0 < ga -> in_cache cells -> NoDup groups ->
  NoDup (filter (fun c => c <> -1) (concat (group_block (list_to_set cells) capacity ga <$> groups))).
Proof.
  intros Hga Hin. induction 1 as [|g gs Hg Hgs IH]; simpl; [constructor|].
  rewrite filter_app. apply NoDup_app. split; [|split; [|exact IH]].
  - unfold group_block. rewrite filter_app, filter_replicate_neg, app_nil_r.
    apply NoDup_filter, NoDup_filter, NoDup_seqZ.
  - intros x [Hx Hb]%list_elem_of_filter [_ Hc]%list_elem_of_filter.
    apply concat_blocks_cells in Hc as (g' & Hg' & Hc); [|done].
    unfold group_block in Hb. apply elem_of_app in Hb as [Hb|[-> _]%elem_of_replicate]; [|done].
    apply elem_of_group_cells in Hb as (_ & Hb & _), Hc as (_ & Hc & _).
    apply Hg. replace g with g'; [done|]. nia.
Qed.

Lemma group_cells_cover (cells groups : list Z) x : 0 < ga -> in_cache cells ->
  (forall g, g ∈ groups <-> exists c, c ∈ cells /\ g = c / ga) ->
  (exists g, g ∈ groups /\ x ∈ group_cells (list_to_set cells) capacity ga g) <-> x ∈ cells.
Proof.
  intros Hga Hin Hgs. split.
  - intros (g & _ & (Hx & _)%elem_of_group_cells). by apply elem_of_list_to_set in Hx.
  - intros Hx. exists (x / ga). split; [apply Hgs; eauto|]. apply elem_of_group_cells.
    rewrite elem_of_list_to_set. split; [done|]. pose proof (Hin x Hx).
    pose proof (Z.div_mod x ga ltac:(lia)). pose proof (Z.mod_pos_bound x ga ltac:(lia)). lia.
Qed.
End read_plan.

Lemma blocks_length seen capacity ga groups : 0 <= ga ->
  length (concat (group_block seen capacity ga <$> groups)) = (Z.to_nat ga * length groups)%nat.
Proof.
  intros Hga. induction groups as [|g gs IH]; [simpl; lia|]. rewrite fmap_cons. cbn [concat length].
  rewrite length_app, group_block_length, IH by lia. lia.
Qed.

(** the read plan for attention: with a sane extent it succeeds exactly when every
    cell is inside the cache; the plan then lists every occupied or pending cell exactly
    once, everything else in it is the padding -1, and its length is within the
    capacity and a multiple of the padding unless it is the whole capacity. *)
Theorem compact_read_plan_complete occupied pending capacity padding ga pct :
  0 < capacity -> 0 < padding -> 0 <= ga -> capacity + padding <= UINT32_MAX -> capacity + ga <= UINT32_MAX ->
  (forall c, c ∈ occupied ++ pending -> 0 <= c) ->
  if forallb (fun c => c <? capacity) (occupied ++ pending) then
    exists plan, llama_kvarn_compact_read_plan occupied pending capacity padding ga pct = Ok plan /\
      NoDup (filter (fun c => c <> -1) plan) /\
      (forall c, c <> -1 -> c ∈ plan <-> c ∈ occupied ++ pending) /\
      let n := Z.of_nat (length plan) in n <= capacity /\ (n = capacity \/ n mod padding = 0)
  else llama_kvarn_compact_read_plan occupied pending capacity padding ga pct = Err InvalidArgument.
Proof.
  intros Hcap Hpad Hga0 Hcp Hcg Hnn. unfold llama_kvarn_compact_read_plan. rewrite dedup_cells_eq.
  rewrite (proj2 (Z.eqb_neq _ _)), (proj2 (Z.eqb_neq _ _)) by lia. simpl.
  destruct (forallb _ _) eqn:Hall; [|done]. simpl. set (all := occupied ++ pending) in *.
  assert (in_cache capacity (nub all)) as Hin.
  { intros c. rewrite elem_of_nub. intros Hc. split; [by apply Hnn|].
    apply Z.ltb_lt, (proj1 (forallb_forall _ _) Hall). by apply list_elem_of_In. }
  pose proof (nub_NoDup all) as Hnd. pose proof (NoDup_range_length capacity Hcap (nub all) Hnd Hin) as Hlen.
  rewrite (proj2 (Z.leb_le _ _)) by (apply (NoDup_range_length capacity); done). simpl.
  assert (list_to_set (C := gset Z) all = list_to_set (nub all)) as Hset.
  { apply set_eq; intros c. by rewrite !elem_of_list_to_set, elem_of_nub. }
  rewrite Hset.
  assert (exists plan, dense_plan (nub all) capacity padding = Ok plan /\
      NoDup (filter (fun c => c <> -1) plan) /\ (forall c, c <> -1 -> c ∈ plan <-> c ∈ all) /\
      let n := Z.of_nat (length plan) in n <= capacity /\ (n = capacity \/ n mod padding = 0)) as Hdense.
  { destruct (dense_plan_eq capacity padding ga Hcap Hpad Hcp Hcg (nub all) Hnd Hin) as (r & E & Hn).
    exists (nub all ++ replicate r (-1)). split; [done|]. split; [|split].
    - rewrite filter_app, filter_replicate_neg, app_nil_r. by apply NoDup_filter.
    - intros c Hc. rewrite elem_of_app, elem_of_nub, elem_of_replicate. tauto.
    - rewrite length_app, length_replicate. done. }
  destruct (Z.ltb_spec 0 ga) as [Hga|Hga]; simpl; [|exact Hdense].
  destruct (aligned_plan_eq capacity padding ga pct Hcap Hpad Hcp Hcg (nub all) Hga Hnd Hin)
    as [E|(gs & r & E & Hgnd & Hgs & Hn)]; rewrite E; simpl; [exact Hdense|].
  eexists. split; [done|]. split; [|split].
  - rewrite filter_app, filter_replicate_neg, app_nil_r. by apply filter_blocks_NoDup.
  - intros c Hc. rewrite elem_of_app, elem_of_replicate, concat_blocks_cells by done.
    rewrite (group_cells_cover capacity ga) by done. rewrite elem_of_nub. tauto.
  - rewrite length_app, length_replicate.
    rewrite blocks_length by lia. done.
Qed.

Lemma compact_read_plan_complete_witness :
  exists plan, llama_kvarn_compact_read_plan [9; 8; 10; 11; 3] [3; 2] 32 4 4 50 = Ok plan /\
    NoDup (filter (fun c => c <> -1) plan).
Proof.
  pose proof (compact_read_plan_complete [9; 8; 10; 11; 3] [3; 2] 32 4 4 50) as H.
  destruct H as (plan & E & Hnd & _); try (vm_compute; (reflexivity || discriminate)).
  - intros c Hc. repeat (apply elem_of_cons in Hc as [->|Hc]; [lia|]). by apply not_elem_of_nil in Hc.
  - eauto.
Defined.

(** Slicing a concatenation of blocks of one length. *)
Lemma concat_slice {A} (n : nat) (ls : list (list A)) r b :
  (forall l, l ∈ ls -> length l = n) -> ls !! r = Some b ->
  take n (drop (r * n) (concat ls)) = b.
Proof.
  revert r; induction ls as [|l ls IH]; intros r Hlen Hr; [done|].
  pose proof (Hlen l ltac:(by left)) as Hl. destruct r as [|r]; simpl in *.
  - injection Hr as <-. rewrite drop_0, take_app_le, take_ge by lia. done.
  - rewrite drop_app_ge by lia. rewrite Hl. replace (n + r * n - n)%nat with (r * n)%nat by lia.
    apply IH; [|done]. intros; apply Hlen. by right.
Qed.

(** When the plan is aligned to record groups, every group whose cells are all in
    the plan occupies one aligned slice of the plan, in cell order: the slice starts at
    a multiple of the group size and lists the group's cells consecutively, which is
    what the fast decode path needs. *)
Theorem read_plan_full_groups_aligned occupied pending capacity padding ga pct plan g :
  0 < capacity -> 0 < padding -> 0 < ga -> capacity + padding <= UINT32_MAX -> capacity + ga <= UINT32_MAX ->
  (forall c, c ∈ occupied ++ pending -> 0 <= c < capacity) ->
  aligned_plan (nub (occupied ++ pending)) (list_to_set (occupied ++ pending)) capacity padding ga pct
    = Ok (Some plan) ->
  0 <= g -> g * ga + ga <= capacity ->
  (forall c, g * ga <= c < g * ga + ga -> c ∈ occupied ++ pending) ->
  llama_kvarn_compact_read_plan occupied pending capacity padding ga pct = Ok plan /\
  exists r : nat, take (Z.to_nat ga) (drop (r * Z.to_nat ga) plan) = seqZ (g * ga) ga.
Proof.
  intros Hcap Hpad Hga Hcp Hcg Hin0 Hplan Hg0 Hgcap Hfull.
  set (all := occupied ++ pending) in *.
  assert (in_cache capacity (nub all)) as Hin.
  { intros c. rewrite elem_of_nub. apply Hin0. }
  split.
  - unfold llama_kvarn_compact_read_plan. rewrite dedup_cells_eq. fold all.
    rewrite (proj2 (Z.eqb_neq _ _)), (proj2 (Z.eqb_neq _ _)) by lia. simpl.
    rewrite (proj2 (forallb_forall _ _)) by (intros c Hc%list_elem_of_In%Hin0; apply Z.ltb_lt; lia). simpl.
    rewrite (proj2 (Z.leb_le _ _)) by (apply NoDup_range_length; [done|apply nub_NoDup|done]). simpl.
    rewrite (proj2 (Z.ltb_lt _ _) Hga). rewrite Hplan. done.
  - assert (list_to_set (C := gset Z) all = list_to_set (nub all)) as Hset.
    { apply set_eq; intros c. by rewrite !elem_of_list_to_set, elem_of_nub. }
    rewrite Hset in Hplan.
    destruct (aligned_plan_eq capacity padding ga pct Hcap Hpad Hcp Hcg (nub all) Hga (nub_NoDup all) Hin)
      as [E|(gs & r & E & Hgnd & Hgs & Hn)]; [congruence|].
    rewrite Hplan in E. injection E as ->.
    assert (g ∈ gs) as Hg.
    { apply Hgs. exists (g * ga). rewrite elem_of_nub. split; [apply Hfull; lia|]. by rewrite Z.div_mul by lia. }
    apply list_elem_of_lookup in Hg as [k Hk]. exists k.
    assert (k < length gs)%nat as Hkl by (by eapply lookup_lt_Some).
    rewrite drop_app_le by (rewrite blocks_length by lia; nia).
    rewrite take_app_le by (rewrite length_drop, blocks_length by lia; nia).
    erewrite concat_slice; [| |rewrite list_lookup_fmap, Hk; done].
    + unfold group_block. assert (group_cells (list_to_set (nub all)) capacity ga g = seqZ (g * ga) ga) as ->.
      { unfold group_cells. rewrite Z.min_l, Z.add_simpl_l by lia.
        apply list_filter_id. intros c Hc%elem_of_seqZ. rewrite elem_of_list_to_set, elem_of_nub. by apply Hfull. }
      by rewrite length_seqZ, Nat.sub_diag, app_nil_r.
    + intros b (g' & -> & _)%list_elem_of_fmap. apply group_block_length; lia.
Qed.

Lemma read_plan_full_groups_aligned_witness :
  exists plan (r : nat), llama_kvarn_compact_read_plan [5; 8; 9; 7; 4] [6; 1] 32 4 4 80 = Ok plan /\
    take 4 (drop (r * 4) plan) = [4; 5; 6; 7].
Proof.
  destruct (read_plan_full_groups_aligned [5; 8; 9; 7; 4] [6; 1] 32 4 4 80
    [1; -1; -1; -1; 4; 5; 6; 7; 8; 9; -1; -1] 1) as (E & r & Hr);
    try (vm_compute; (reflexivity || discriminate)).
  - intros c Hc. repeat (apply elem_of_cons in Hc as [->|Hc]; [lia|]). by apply not_elem_of_nil in Hc.
  - intros c Hc. assert (c = 4 \/ c = 5 \/ c = 6 \/ c = 7) as [-> | [-> | [-> | ->]]] by lia;
      apply list_elem_of_In; simpl; tauto.
  - exists [1; -1; -1; -1; 4; 5; 6; 7; 8; 9; -1; -1], r. split; [exact E | exact Hr].
Defined.

(** ** State selection: lemmas *)

Lemma select_stage_loop limit lg sb sg tg swa gs cells acc :
  foldM (fun result cell =>
    _ ← require_ InvalidArgument (cell <? limit);
    match stage_cell_of lg sb sg tg swa gs cell with
    | Some sc => Ok (result ++ [sc])
    | None => Ok result
    end) cells acc =
  if forallb (fun c => c <? limit) cells
  then Ok (acc ++ omap (stage_cell_of lg sb sg tg swa gs) cells) else Err InvalidArgument.
Proof.
  revert acc; induction cells as [|c l IH]; intros acc; simpl; [by rewrite app_nil_r|].
  destruct (c <? limit); simpl; [|done].
  destruct (stage_cell_of lg sb sg tg swa gs c); simpl; rewrite IH; destruct (forallb _ l); try done.
  by rewrite <- app_assoc.
Qed.

(** Two numbers closer than [n] with the same remainder are equal. *)
Lemma mod_window_inj a b lo n : 0 < n -> lo <= a < lo + n -> lo <= b < lo + n -> a mod n = b mod n -> a = b.
Proof.
  intros Hn Ha Hb E. pose proof (Z.div_mod a n ltac:(lia)). pose proof (Z.div_mod b n ltac:(lia)).
  set (q := a / n) in *. set (r := b / n) in *. rewrite E in *.
  assert (q = r) as Eq by (destruct (Z.lt_trichotomy q r) as [|[|]]; nia). rewrite Eq in *. lia.
Qed.

Section stage.
Context (lg sb sg tg : Z) (swa : bool).
Hypothesis Hsg : 2 <= sg.
Hypothesis Htg : 1 <= tg <= sg.
Hypothesis Hswa : swa = false -> tg < sg.
Hypothesis Hsb : 0 <= sb.
Hypothesis Hlg : sb <= lg < sb + tg.
Hypothesis Hfit : sg * KVAR_N_GROUP <= UINT32_MAX.

Definition stage_slot (group : Z) : Z :=
  if swa then group mod sg else if group =? 0 then 0 else 1 + (group - 1) mod tg.

Lemma stage_slot_range group : 0 <= group -> 0 <= stage_slot group < sg.
Proof.
  intros H. unfold stage_slot. destruct swa; [apply Z.mod_pos_bound; lia|].
  destruct (Z.eqb_spec group 0); [lia|]. pose proof (Z.mod_pos_bound (group - 1) tg ltac:(lia)). lia.
Qed.

Lemma stage_cell_of_Some cell sc : 0 <= cell ->
  stage_cell_of lg sb sg tg swa None cell = Some sc ->
  source_cell sc = cell /\ stage_row sc = stage_slot (cell / KVAR_N_GROUP) * KVAR_N_GROUP + cell mod KVAR_N_GROUP /\
  ((swa = false /\ cell / KVAR_N_GROUP = 0) \/ (sb <= cell / KVAR_N_GROUP <= lg)).
Proof.
  intros Hc. unfold stage_cell_of. assert (0 <= cell / KVAR_N_GROUP) as Hg by (apply Z.div_pos; [done|reflexivity]).
  set (g := cell / KVAR_N_GROUP) in *.
  destruct (negb _) eqn:Hst; [done|]. intros [= <-]. bprop. cbn [source_cell stage_row]. split; [done|].
  fold (stage_slot g). pose proof (stage_slot_range g Hg). pose proof (Z.mod_pos_bound cell KVAR_N_GROUP eq_refl).
  unfold KVAR_N_GROUP in *.
  split; [rewrite (u32_id (stage_slot g * 128)), u32_id by (unfold UINT32_MAX in *; lia); done|].
  destruct swa; bprop; [right; lia|]. destruct Hst as [Hst|Hst]; bprop; [left; done | right; lia].
Qed.

Lemma stage_slot_inj g h :
  ((swa = false /\ g = 0) \/ (sb <= g <= lg)) -> ((swa = false /\ h = 0) \/ (sb <= h <= lg)) ->
  stage_slot g = stage_slot h -> g = h.
Proof.
  intros Hg Hh. unfold stage_slot. destruct swa.
  - destruct Hg as [[? _]|Hg]; [done|]. destruct Hh as [[? _]|Hh]; [done|].
    apply (mod_window_inj _ _ sb); lia.
  - pose proof (Z.mod_pos_bound (g - 1) tg ltac:(lia)). pose proof (Z.mod_pos_bound (h - 1) tg ltac:(lia)).
    destruct (Z.eqb_spec g 0), (Z.eqb_spec h 0); try lia.
    destruct Hg as [[_ ?]|Hg]; [lia|]. destruct Hh as [[_ ?]|Hh]; [lia|].
    intros E. assert (g - 1 = h - 1); [|lia]. apply (mod_window_inj _ _ (sb - 1) tg); lia.
Qed.

Lemma stage_rows_NoDup cells : (forall c, c ∈ cells -> 0 <= c) -> NoDup cells ->
  NoDup (stage_row <$> omap (stage_cell_of lg sb sg tg swa None) cells) /\
  (forall sc, sc ∈ omap (stage_cell_of lg sb sg tg swa None) cells -> 0 <= stage_row sc < sg * KVAR_N_GROUP).
Proof.
  intros Hnn Hnd. split.
  - induction Hnd as [|c l Hc Hnd IH]; simpl; [constructor|].
    destruct (stage_cell_of lg sb sg tg swa None c) as [sc|] eqn:E; [|apply IH; intros; apply Hnn; by right].
    rewrite fmap_cons. constructor; [|apply IH; intros; apply Hnn; by right].
    intros (sc' & Erow & (c' & Hc' & E')%list_elem_of_omap)%list_elem_of_fmap.
    assert (0 <= c) as H0 by (apply Hnn; by left). assert (0 <= c') as H0' by (apply Hnn; by right).
    destruct (stage_cell_of_Some c sc H0 E) as (_ & R & W), (stage_cell_of_Some c' sc' H0' E') as (_ & R' & W').
    pose proof (Z.mod_pos_bound c KVAR_N_GROUP eq_refl). pose proof (Z.mod_pos_bound c' KVAR_N_GROUP eq_refl).
    pose proof (Z.div_mod c KVAR_N_GROUP ltac:(done)). pose proof (Z.div_mod c' KVAR_N_GROUP ltac:(done)).
    unfold KVAR_N_GROUP in *.
    assert (stage_slot (c / 128) = stage_slot (c' / 128)) as Es by lia.
    apply stage_slot_inj in Es; [|done|done]. apply Hc. replace c with c' by lia. done.
  - intros sc (c & Hc & E)%list_elem_of_omap.
    destruct (stage_cell_of_Some c sc (Hnn c Hc) E) as (_ & -> & _).
    pose proof (stage_slot_range (c / KVAR_N_GROUP) ltac:(apply Z.div_pos; [by apply Hnn|reflexivity])).
    pose proof (Z.mod_pos_bound c KVAR_N_GROUP eq_refl). unfold KVAR_N_GROUP in *. lia.
Qed.
End stage.

(** The cells of a saved state that are kept unquantized: for a valid stage layout,
    distinct source cells get distinct rows of the stage buffer, every row is inside
    it, and every selected cell comes from the input; an invalid layout or a cell past
    the live extent is refused. *)
Theorem stage_rows_distinct (cells : list Z) live_max sg tg (swa : bool) :
  0 < live_max <= UINT32_MAX -> sg * KVAR_N_GROUP <= UINT32_MAX -> 0 <= tg ->
  NoDup cells -> (forall c, c ∈ cells -> 0 <= c) ->
  (if (2 <=? sg) && (1 <=? tg) && (tg <=? (if swa then sg else sg - 1)) && forallb (fun c => c <? live_max) cells
   then exists r, llama_kvarn_select_state_stage_cells cells live_max sg tg swa None = Ok r /\
     NoDup (stage_row <$> r) /\
     forall sc, sc ∈ r -> 0 <= stage_row sc < sg * KVAR_N_GROUP /\ source_cell sc ∈ cells
   else llama_kvarn_select_state_stage_cells cells live_max sg tg swa None = Err InvalidArgument).
Proof.
  intros Hlive Hfit Htg Hnd Hnn. unfold llama_kvarn_select_state_stage_cells.
  rewrite (proj2 (Z.eqb_neq _ _)) by lia.
  assert (negb ((sg <? 2) || (tg =? 0) || (sg <? tg) || negb swa && (sg <=? tg)) =
    (2 <=? sg) && (1 <=? tg) && (tg <=? (if swa then sg else sg - 1))) as ->.
  { apply eq_true_iff_eq. rewrite negb_true_iff, !orb_false_iff, !andb_true_iff, Z.ltb_ge, Z.eqb_neq, Z.ltb_ge, !Z.leb_le.
    destruct swa; simpl; [lia|]. rewrite Z.leb_gt. lia. }
  destruct ((2 <=? sg) && (1 <=? tg) && (tg <=? (if swa then sg else sg - 1))) eqn:Hv; simpl; [|done].
  bprop. rewrite select_stage_loop. destruct (forallb _ cells); [|done]. simpl.
  set (lg := (live_max - 1) / KVAR_N_GROUP). assert (0 <= lg) by (apply Z.div_pos; [lia|reflexivity]).
  set (sb := if tg - 1 <=? lg then lg - (tg - 1) else 0).
  assert (0 <= sb /\ sb <= lg < sb + tg) as [Hsb Hw] by (unfold sb; destruct (Z.leb_spec (tg - 1) lg); lia).
  destruct (stage_rows_NoDup lg sb sg tg swa) with (cells := cells) as [Hr1 Hr2]; try done; try (destruct swa; lia).
  eexists. split; [done|]. split; [exact Hr1|]. intros sc Hsc. split; [by apply Hr2|].
  apply list_elem_of_omap in Hsc as (c & Hc & E). unfold stage_cell_of in E. destruct (negb _); [done|].
  by injection E as <-.
Qed.

Lemma stage_rows_distinct_witness :
  exists r, llama_kvarn_select_state_stage_cells [0; 5; 300; 301; 128; 700] 701 3 2 false None = Ok r /\
    NoDup (stage_row <$> r).
Proof.
  pose proof (stage_rows_distinct [0; 5; 300; 301; 128; 700] 701 3 2 false) as H.
  destruct H as (r & E & Hnd & _); try (vm_compute; intuition discriminate).
  - repeat (apply NoDup_cons; split; [rewrite ?elem_of_cons, elem_of_nil; lia|]). apply NoDup_nil_2.
  - intros c Hc. rewrite !elem_of_cons, elem_of_nil in Hc. lia.
  - eauto.
Defined.

(** The record groups of a saved state are exactly the groups that hold a source
    cell and no staged cell, each once and in increasing order; a cell past the record
    arena is refused. *)
Theorem record_groups_partition cells stage groups_per_stream :
  (forall c, c ∈ cells -> c / KVAR_N_GROUP < groups_per_stream) ->
  exists gs, llama_kvarn_select_state_record_groups cells stage groups_per_stream = Ok gs /\
    StronglySorted Z.lt gs /\
    forall g, g ∈ gs <-> (exists c, c ∈ cells /\ c / KVAR_N_GROUP = g) /\
                         ~ (exists sc, sc ∈ stage /\ source_cell sc / KVAR_N_GROUP = g).
Proof.
  intros Hin. unfold llama_kvarn_select_state_record_groups.
  set (staged := list_to_set (C := gset Z) ((fun sc => source_cell sc / KVAR_N_GROUP) <$> stage)).
  assert (forall g, g ∈ staged <-> exists sc, sc ∈ stage /\ source_cell sc / KVAR_N_GROUP = g) as Hst.
  { intros g. unfold staged. rewrite elem_of_list_to_set, list_elem_of_fmap. naive_solver. }
  clearbody staged.
  set (I := fun (l : list Z) (X : gset Z) => (forall c, c ∈ l -> c / KVAR_N_GROUP < groups_per_stream) /\
    forall g, g ∈ X \/ ((exists c, c ∈ l /\ c / KVAR_N_GROUP = g) /\ g ∉ staged) <->
      (exists c, c ∈ cells /\ c / KVAR_N_GROUP = g) /\ g ∉ staged).
  match goal with |- context [foldM ?f cells ∅] => destruct (foldM_inv f I cells ∅) as (X & E & _ & HX) end.
  - split; [done|]. intros g. set_solver.
  - intros c l X [Hl HX]. rewrite (proj2 (Z.ltb_lt _ _)) by (apply Hl; by left). simpl.
    assert (forall c, c ∈ l -> c / KVAR_N_GROUP < groups_per_stream) as Hl' by (intros; apply Hl; by right).
    destruct (decide (c / KVAR_N_GROUP ∈ staged)) as [Hs|Hs]; eexists; (split; [done|]); (split; [done|]);
      intros g; rewrite <- HX; setoid_rewrite elem_of_cons.
    + split; [naive_solver|]. intros [?|[(c' & [->|?] & <-) ?]]; [tauto|done|naive_solver].
    + rewrite elem_of_union, elem_of_singleton. split; [intros [[->|?]|[(c' & ? & <-) ?]]; naive_solver|].
      intros [?|[(c' & [->|?] & <-) ?]]; naive_solver.
  - rewrite E. simpl. eexists. split; [done|]. split; [apply setZ_list_strict|].
    intros g. rewrite elem_of_setZ_list, <- Hst, <- HX. setoid_rewrite elem_of_nil. naive_solver.
Qed.

Lemma record_groups_partition_witness :
  exists gs, llama_kvarn_select_state_record_groups [700; 5; 300; 301] [mk_stage_cell 5 5] 8 = Ok gs /\
    StronglySorted Z.lt gs.
Proof.
  destruct (record_groups_partition [700; 5; 300; 301] [mk_stage_cell 5 5] 8) as (gs & E & Hs & _).
  - intros c Hc. rewrite !elem_of_cons, elem_of_nil in Hc.
    destruct Hc as [-> | [-> | [-> | [-> | []]]]]; reflexivity.
  - eauto.
Defined.

(** The parts of a record, in the order they are laid out, with their sizes. *)
Definition layout_parts (l : llama_kvarn_tile_layout) (head_dim group : Z) : list (Z * Z) :=
  [(k_payload_off l, k_payload_bytes l); (k_s_col_off l, 2 * head_dim); (k_zp_off l, 2 * head_dim);
   (k_s_row_off l, 2 * group); (v_payload_off l, v_payload_bytes l); (v_s_col_off l, 2 * head_dim);
   (v_s_row_off l, 2 * group); (v_zp_off l, 2 * group)].

(** Each part starts where the one before it ends. *)
Fixpoint contiguous (start : Z) (parts : list (Z * Z)) (end_ : Z) : Prop :=
  match parts with
  | [] => start = end_
  | (off, size) :: rest => off = start /\ 0 <= size /\ contiguous (off + size) rest end_
  end.

Lemma align_up_8 x : 0 <= x <= 1152921504606846976 ->
  x <= llama_kvarn_align_up x 8 < x + 8 /\ llama_kvarn_align_up x 8 mod 8 = 0.
Proof.
  intros Hx. unfold llama_kvarn_align_up.
  pose proof (Z.div_mod (x + 8 - 1) 8 ltac:(lia)). pose proof (Z.mod_pos_bound (x + 8 - 1) 8 ltac:(lia)).
  rewrite (u64_id (x + 8 - 1)), u64_id by (unfold UINT64_MAX; lia).
  split; [lia|]. apply Z.mod_mul; lia.
Qed.

(** A tile record's layout: for every supported width and head shape the parts
    follow each other without gap or overlap from offset 0, the payloads are exactly
    large enough for the packed values, and the record size is the end of the last
    part rounded up to eight bytes. *)
Theorem make_layout_contiguous head_dim group kb vb :
  0 < head_dim -> 0 < group -> head_dim * group <= INT32_MAX ->
  llama_kvarn_valid_bits kb = true -> llama_kvarn_valid_bits vb = true ->
  exists l end_, llama_kvarn_make_layout head_dim group kb vb = Ok l /\
    contiguous 0 (layout_parts l head_dim group) end_ /\
    8 * k_payload_bytes l < head_dim * group * kb + 8 /\ head_dim * group * kb <= 8 * k_payload_bytes l /\
    8 * v_payload_bytes l < head_dim * group * vb + 8 /\ head_dim * group * vb <= 8 * v_payload_bytes l /\
    end_ <= tile_bytes l < end_ + 8 /\ tile_bytes l mod 8 = 0.
Proof.
  intros Hd Hg Hmax Hk Hv. unfold llama_kvarn_make_layout.
  rewrite (assert_true _ (proj2 (Z.ltb_lt _ _) Hd)), (assert_true _ (proj2 (Z.ltb_lt _ _) Hg)), Hk, Hv.
  cbn [assert_]. destruct (valid_bits_nat kb Hk) as (k & -> & Hkr), (valid_bits_nat vb Hv) as (v & -> & Hvr).
  assert (0 < head_dim * group) by (apply Z.mul_pos_pos; done).
  rewrite (Z.mul_comm group head_dim). rewrite !i32_in by (unfold INT32_MIN; lia).
  unfold mbind, outcome_bind. rewrite !packed_bytes_Ok by (done || lia).
  assert (head_dim <= INT32_MAX /\ group <= INT32_MAX) as [Hd' Hg'] by nia.
  set (kp := (head_dim * group * Z.of_nat k + 7) / 8). set (vp := (head_dim * group * Z.of_nat v + 7) / 8).
  assert (forall w : nat, (0 < w <= 8)%nat -> let q := (head_dim * group * Z.of_nat w + 7) / 8 in
    0 <= q <= INT32_MAX /\ 8 * q < head_dim * group * Z.of_nat w + 8 /\ head_dim * group * Z.of_nat w <= 8 * q) as Hq.
  { intros w Hw q. pose proof (Z.div_mod (head_dim * group * Z.of_nat w + 7) 8 ltac:(lia)).
    pose proof (Z.mod_pos_bound (head_dim * group * Z.of_nat w + 7) 8 ltac:(lia)).
    assert (0 < head_dim * group * Z.of_nat w <= INT32_MAX * 8) by (unfold INT32_MAX in *; nia). unfold q. lia. }
  destruct (Hq k Hkr) as (Hk1 & Hk2 & Hk3), (Hq v Hvr) as (Hv1 & Hv2 & Hv3). fold kp in Hk1, Hk2, Hk3.
  fold vp in Hv1, Hv2, Hv3. clearbody kp vp. clear Hq.
  unfold INT32_MAX in *.
  repeat match goal with |- context [u64 ?e] =>
    lazymatch e with context [u64 _] => fail | _ => rewrite (u64_id e) by (unfold UINT64_MAX; lia) end end.
  match goal with |- context [llama_kvarn_align_up ?e 8] => set (en := e) end.
  destruct (align_up_8 en) as [Ha1 Ha2]; [unfold en; lia|].
  eexists _, en. split; [done|]. simpl. unfold en in *. repeat (split; [lia|]). exact Ha2.
Qed.

Lemma make_layout_contiguous_witness :
  exists l end_, llama_kvarn_make_layout 128 128 4 2 = Ok l /\ contiguous 0 (layout_parts l 128 128) end_.
Proof.
  destruct (make_layout_contiguous 128 128 4 2) as (l & e & E & Hc & _); try reflexivity; try (vm_compute; discriminate).
  eauto.
Defined.

(** what may be cut from a quantized stream.  A removal is accepted as it is
    exactly when it reaches the end of the stream and either takes everything or only
    touches the last two groups, which are still held unquantized; otherwise a suffix
    of an owned stream is widened to the start of the group it begins in, losing less
    than one group more than asked, and anything else is refused. *)
Theorem plan_remove_range_spec pos_max p0 p1 group owned :
  0 <= pos_max <= INT32_MAX -> 0 < group <= INT32_MAX -> p0 <= INT32_MAX -> p1 <= INT32_MAX ->
  pos_max < INT32_MAX ->
  let begin := Z.max p0 0 in
  let end_ := if p1 <? 0 then INT32_MAX else p1 in
  exists exact r, llama_kvarn_can_remove_range pos_max p0 p1 group = Ok exact /\
    llama_kvarn_plan_remove_range pos_max p0 p1 group owned = Ok r /\
    (exact = true <-> pos_max < end_ /\
      (begin = 0 \/ forall q, begin <= q <= pos_max -> pos_max / group - 1 <= q / group)) /\
    match r with
    | Some (q0, q1) =>
        (exact = true /\ q0 = p0 /\ q1 = p1) \/
        (exact = false /\ owned = true /\ 0 < p0 /\ p1 < 0 /\ q1 = -1 /\
         q0 mod group = 0 /\ q0 <= p0 < q0 + group)
    | None => exact = false /\ (owned = false \/ p0 <= 0 \/ 0 <= p1)
    end.
Proof.
  intros Hm Hg H0 H1 Hmax begin end_.
  assert (exists exact, llama_kvarn_can_remove_range pos_max p0 p1 group = Ok exact /\
    (exact = true <-> pos_max < end_ /\
      (begin = 0 \/ forall q, begin <= q <= pos_max -> pos_max / group - 1 <= q / group))) as (ex & E & Hex).
  { unfold llama_kvarn_can_remove_range. rewrite (assert_true _ (proj2 (Z.ltb_lt 0 group) ltac:(lia))); simpl.
    fold begin end_. rewrite (proj2 (Z.ltb_ge pos_max 0)) by lia.
    pose proof (Z.div_mod pos_max group ltac:(lia)). pose proof (Z.mod_pos_bound pos_max group ltac:(lia)).
    pose proof (Z.div_pos pos_max group ltac:(lia) ltac:(lia)).
    destruct (Z.eqb_spec begin 0), (Z.ltb_spec pos_max end_); simpl;
      destruct (Z.leb_spec end_ pos_max); try lia; eexists; (split; [done|]); (split; [|]); try done; try lia; auto.
    - set (k := Z.max 0 (pos_max / group - 1)). rewrite u32_id by (unfold UINT32_MAX, INT32_MAX in *; nia).
      intros Hle. bprop. split; [done|right]. intros q Hq.
      apply Z.div_le_lower_bound; [lia|]. unfold k in Hle. nia.
    - intros [_ [?|Hall]]; [done|]. set (k := Z.max 0 (pos_max / group - 1)).
      rewrite u32_id by (unfold UINT32_MAX, INT32_MAX in *; nia). apply Z.leb_le.
      destruct (Z.le_gt_cases begin pos_max) as [Hb|Hb].
      + pose proof (Hall begin ltac:(lia)) as Hq. pose proof (Z.mul_div_le begin group ltac:(lia)).
        pose proof (Z.div_pos begin group ltac:(unfold begin; lia) ltac:(lia)). unfold k. nia.
      + unfold k. nia. }
  unfold llama_kvarn_plan_remove_range. rewrite E; simpl. exists ex.
  destruct ex; [eexists; split; [done|]; split; [done|]; split; [done|]; by left|].
  destruct (negb owned || (p0 <=? 0) || (0 <=? p1)) eqn:Hr.
  - exists None. split; [done|]. split; [done|]. split; [done|]. split; [done|].
    apply orb_true_iff in Hr as [Hr|Hr]; [apply orb_true_iff in Hr as [Hr|Hr]|]; bprop; auto.
  - exists (Some (Z.quot p0 group * group, -1)). split; [done|]. split; [done|]. split; [done|]. right. bprop.
    rewrite Z.quot_div_nonneg by lia. pose proof (Z.div_mod p0 group ltac:(lia)).
    pose proof (Z.mod_pos_bound p0 group ltac:(lia)).
    repeat (split; [done || lia || (by destruct owned)|]). split; [apply Z.mod_mul; lia|lia].
Qed.

Lemma plan_remove_range_spec_witness : exists exact r,
  llama_kvarn_can_remove_range 1000 300 (-1) 128 = Ok exact /\
  llama_kvarn_plan_remove_range 1000 300 (-1) 128 true = Ok r /\ exact = false /\ r = Some (256, -1).
Proof.
  destruct (plan_remove_range_spec 1000 300 (-1) 128 true) as (ex & r & E1 & E2 & _);
    try (vm_compute; intuition discriminate).
  exists ex, r. split; [done|]. split; [done|]. vm_compute in E1, E2. split; congruence.
Defined.

(** The presets: names and types translate back and forth, every preset a type
    names passes its own validation when the runtime supports it, and any accepted
    configuration is disabled or has preset widths, group and sink of 128 tokens. *)
Theorem validate_accepts_exactly_presets p r :
  (forall t d, llama_kvarn_type_desc_from_type t = Some d ->
     llama_kvarn_type_from_name (Some (llama_kvarn_type_name t)) = t) /\
  (forall t d, llama_kvarn_type_desc_from_type t = Some d ->
     attention_supported r && head_dims_supported r && backend_ops_supported r = true ->
     llama_kvarn_validate_runtime (llama_kvarn_params_for_type t) r = None) /\
  (llama_kvarn_validate_runtime p r = None -> kp_type p <> LLAMA_KVARN_TYPE_DISABLED ->
     exists d, d ∈ KVAR_N_TYPES /\ desc_type d = kp_type p /\
       kp_key_bits p = desc_key_bits d /\ kp_value_bits p = desc_value_bits d /\
       kp_group p = KVAR_N_GROUP /\ kp_sink_tokens p = 128 /\ 0 < kp_sinkhorn_iters p /\
       (kp_swa_key_bits p = 0 <-> kp_swa_value_bits p = 0) /\
       (kp_swa_key_bits p <> 0 -> llama_kvarn_valid_bit_pair (kp_swa_key_bits p) (kp_swa_value_bits p) = true) /\
       attention_supported r && head_dims_supported r && backend_ops_supported r = true).
Proof.
  split; [|split].
  - intros t d. destruct t; vm_compute; congruence.
  - intros t d H Hr. destruct r as [a h b ? ?]; simpl in *. bprop. subst.
    destruct t; try discriminate H; vm_compute; reflexivity.
  - unfold llama_kvarn_validate_runtime. intros H Hne. rewrite decide_False in H by done.
    destruct (llama_kvarn_type_desc_from_type (kp_type p)) as [d|] eqn:Ed; [|done].
    apply List.find_some in Ed as [Hd Et]. bprop. exists d.
    repeat match type of H with (if ?b then Some _ else _) = None => destruct b eqn:?; [done|] end.
    bprop. subst. split; [by apply list_elem_of_In|]. repeat (split; [done || lia|]).
    split; [|by rewrite Heqb7, Heqb8, Heqb9]. intros Hk.
    destruct Heqb3 as [Hz|Hz]; bprop; [by destruct Hk | exact Hz].
Qed.
