(* ===== verification/TailPlan.v ===== *)
(** * Planning of the exact KV tail (src/src/llama-kv-cache-tail.{h,cpp}, free functions)

    Sizes of the tail arenas with their overflow checks, the choice of storage
    kind and of the attention route, the ownership contract of a layer, the
    contiguous runs of a slot vector, and the selection of the rows a query
    sees, both for the exact tail and for the sliding-window body.

    Machine integers are [Z]; [ggml_type] is its enum code.  Diagnostic strings
    of exceptions are dropped (only the exception class is kept), with the
    pointers that only feed them. *)

From S2P Require Export Prelude.
Open Scope Z_scope.

(** ** Types of tensors *)

Definition ggml_type := Z.
Definition GGML_TYPE_F16 : ggml_type := 1.
Definition GGML_TYPE_BF16 : ggml_type := 30.
Definition GGML_TYPE_COUNT : ggml_type := 49.

(** The types whose entry of [type_traits] is quantized. *)
Definition quantized_types : list ggml_type :=
  [2; 3; 6; 7; 8; 9; 10; 11; 12; 13; 14; 15; 16; 17; 18; 19; 20; 21; 22; 23; 29; 34; 35;
   39; 40; 41; 42; 43; 44; 45; 46; 47; 48].

Definition ggml_is_quantized (t : ggml_type) : outcome bool :=
  _ ← assert_ ((0 <=? t) && (t <? GGML_TYPE_COUNT));
  Ok (bool_decide (t ∈ quantized_types)).

(** ** Checked sizes *)

Definition checked_tail_slot_count (arena_stride n_seq_max sink_slots : Z) : outcome Z :=
  let total := u64 (u64 (arena_stride * n_seq_max) + sink_slots) in
  _ ← require_ OverflowError (total <=? INT32_MAX);
  Ok (u32 total).

Definition checked_tail_history_limit (n_tokens rollback_tokens : Z) : outcome Z :=
  let total := u64 (n_tokens + rollback_tokens) in
  _ ← require_ OverflowError (total <=? UINT32_MAX);
  Ok (u32 total).

Definition checked_tail_bytes (rows bytes_per_row : Z) : outcome Z :=
  _ ← require_ OverflowError (negb (negb (bytes_per_row =? 0) && (UINT64_MAX / bytes_per_row <? rows)));
  Ok (u64 (rows * bytes_per_row)).

Record llama_kv_tail_layout := mk_tail_layout {
  tl_arena_stride : Z; tl_sink_slots : Z; tl_total_slots : Z
}.

Definition llama_kv_tail_layout_for (n_tokens n_seq_max n_ubatch : Z) : outcome llama_kv_tail_layout :=
  let tail_fa_stride := 256 in
  let arena_need := u64 (n_tokens + n_ubatch) in
  let arena_rounded := u64 (u64 (u64 (arena_need + tail_fa_stride) - 1) / tail_fa_stride * tail_fa_stride) in
  _ ← require_ OverflowError (arena_rounded <=? INT32_MAX);
  let sink_slots := if 1 <? n_seq_max then n_ubatch else 0 in
  total ← checked_tail_slot_count (u32 arena_rounded) n_seq_max sink_slots;
  Ok (mk_tail_layout (u32 arena_rounded) sink_slots total).

Record llama_kv_tail_compact_layout := mk_compact_layout {
  cl_history_stride : Z; cl_history_slots : Z; cl_rollback_tokens : Z; cl_attention_stride : Z
}.

Definition llama_kv_tail_compact_layout_for (n_tokens rollback_tokens n_seq_max n_ubatch : Z)
    : outcome llama_kv_tail_compact_layout :=
  let history_stride := u64 (n_tokens + rollback_tokens) in
  let attention_stride := u64 (n_tokens + n_ubatch) in
  _ ← require_ OverflowError (history_stride <=? INT32_MAX);
  _ ← require_ OverflowError (attention_stride <=? INT32_MAX);
  history_slots ← checked_tail_slot_count (u32 history_stride) n_seq_max 0;
  Ok (mk_compact_layout (u32 history_stride) history_slots rollback_tokens (u32 attention_stride)).

Definition llama_kv_tail_can_remove_suffix (pos_max p0 p1 rollback_tokens : Z) : outcome bool :=
  if (p0 <=? 0) && (p1 <? 0) then Ok true else
  if (p0 <=? 0) || (0 <=? p1) then Ok false else
  if pos_max <? p0 then Ok true else
  rollback ← i32 (pos_max - (p0 - 1));
  Ok ((1 <=? rollback) && (rollback <=? to_i32 rollback_tokens)).

Definition llama_kv_tail_sparse_body_capacity_safe (physical_stream_rows arena_stride : Z) : bool :=
  (0 <? arena_stride) && (physical_stream_rows <=? arena_stride).

Definition llama_kv_tail_packed_body_stride (logical_rows alignment : Z) : outcome Z :=
  _ ← require_ InvalidArgument (negb ((alignment =? 0) || negb (Z.land alignment (alignment - 1) =? 0)));
  _ ← require_ OverflowError (logical_rows <=? UINT64_MAX - (alignment - 1));
  let aligned := u64 (u64 (u64 (logical_rows + alignment) - 1) / alignment * alignment) in
  _ ← require_ OverflowError (aligned <=? UINT32_MAX);
  Ok (u32 aligned).

(** ** Runs of consecutive slots *)

Record llama_kv_tail_slot_run := mk_slot_run { sr_payload_begin : Z; sr_slot_begin : Z; sr_length : Z }.

(** Loop body at [payload >= 1]; the last run is the last element. *)
Definition slot_run_step (slots : list Z) (runs : list llama_kv_tail_slot_run) (payload : nat)
    : outcome (list llama_kv_tail_slot_run) :=
  cur ← vec_get slots payload;
  prev ← vec_get slots (payload - 1);
  match last runs with
  | None => Err OutOfBounds
  | Some r =>
      if cur =? prev + 1
      then Ok (removelast runs ++ [mk_slot_run (sr_payload_begin r) (sr_slot_begin r) (u32 (sr_length r + 1))])
      else Ok (runs ++ [mk_slot_run (u32 (Z.of_nat payload)) cur 1])
  end.

Definition llama_kv_tail_contiguous_slot_runs (slots : list Z) : outcome (list llama_kv_tail_slot_run) :=
  match slots with
  | [] => Ok []
  | s0 :: _ => foldM (slot_run_step slots) (seq 1 (length slots - 1)) [mk_slot_run 0 s0 1]
  end.

(** ** Groups *)

Record llama_kv_tail_group_request := mk_group_request {
  gr_requested_tokens : Z; gr_effective_window : Z; gr_applicable_standard_kv : bool
}.

Record llama_kv_tail_group_resolution := mk_group_resolution { res_valid : bool; res_tokens : list Z }.

Definition llama_kv_tail_resolve_groups (automatic explicit_complete : bool)
    (groups : list llama_kv_tail_group_request) : llama_kv_tail_group_resolution :=
  if negb (automatic || explicit_complete) then mk_group_resolution false (replicate (length groups) 0)
  else mk_group_resolution true
    ((fun g => let requested := if automatic then 1024 else gr_requested_tokens g in
               if gr_applicable_standard_kv g then Z.min requested (gr_effective_window g) else 0) <$> groups).

(** ** Attention route *)

Inductive llama_kv_tail_route := ROUTE_NONE | ROUTE_NATIVE | ROUTE_GENERIC.

Inductive llama_kv_tail_operation :=
  | OP_NONE | OP_WRITE_K | OP_WRITE_V | OP_GATHER_K | OP_GATHER_V | OP_BODY_SCORE | OP_BODY_VALUE
  | OP_EXACT_SCORE | OP_EXACT_VALUE | OP_GENERIC_MERGE | OP_NATIVE_ATTENTION.

#[global] Instance llama_kv_tail_operation_eq_dec : EqDecision llama_kv_tail_operation.
Proof. solve_decision. Defined.

Record llama_kv_tail_route_requirements := mk_route_requirements {
  rq_write_k : bool; rq_write_v : bool; rq_gather_k : bool; rq_gather_v : bool;
  rq_body_score : bool; rq_body_value : bool; rq_exact_score : bool; rq_exact_value : bool;
  rq_generic_merge : bool; rq_native_attention : bool
}.

Record llama_kv_tail_route_capability := mk_capability {
  cap_supported : bool; cap_route : llama_kv_tail_route; cap_missing : llama_kv_tail_operation
}.

Definition llama_kv_tail_select_route (r : llama_kv_tail_route_requirements) : llama_kv_tail_route_capability :=
  let missing_write := if negb (rq_write_k r) then OP_WRITE_K else if negb (rq_write_v r) then OP_WRITE_V else OP_NONE in
  if decide (missing_write <> OP_NONE) then mk_capability false ROUTE_NONE missing_write else
  if rq_native_attention r then mk_capability true ROUTE_NATIVE OP_NONE else
  let generic := [(rq_gather_k r, OP_GATHER_K); (rq_gather_v r, OP_GATHER_V);
                  (rq_body_score r, OP_BODY_SCORE); (rq_body_value r, OP_BODY_VALUE);
                  (rq_exact_score r, OP_EXACT_SCORE); (rq_exact_value r, OP_EXACT_VALUE);
                  (rq_generic_merge r, OP_GENERIC_MERGE)] in
  match List.find (fun x => negb x.1) generic with
  | Some (_, op) => mk_capability false ROUTE_NONE op
  | None => mk_capability true ROUTE_GENERIC OP_NONE
  end.

Definition llama_kv_tail_operation_name (op : llama_kv_tail_operation) : string :=
  match op with
  | OP_NONE => "none"
  | OP_WRITE_K => "K body/exact write"
  | OP_WRITE_V => "V body/exact write"
  | OP_GATHER_K => "exact K gather"
  | OP_GATHER_V => "exact V gather"
  | OP_BODY_SCORE => "body K score"
  | OP_BODY_VALUE => "body V reduction"
  | OP_EXACT_SCORE => "exact K score"
  | OP_EXACT_VALUE => "exact V reduction"
  | OP_GENERIC_MERGE => "generic softmax merge"
  | OP_NATIVE_ATTENTION => "native attached-tail attention"
  end.

Record llama_kv_tail_type_resolution := mk_type_resolution {
  tr_supported : bool; tr_actual_type : ggml_type; tr_downgraded : bool;
  tr_missing_preferred : llama_kv_tail_operation; tr_missing_fallback : llama_kv_tail_operation
}.

Definition llama_kv_tail_resolve_type (requested family_default : ggml_type)
    (bf16 f16 : llama_kv_tail_route_capability) : outcome llama_kv_tail_type_resolution :=
  _ ← require_ InvalidArgument
        ((requested =? GGML_TYPE_COUNT) || (requested =? GGML_TYPE_BF16) || (requested =? GGML_TYPE_F16));
  _ ← require_ InvalidArgument ((family_default =? GGML_TYPE_BF16) || (family_default =? GGML_TYPE_F16));
  let automatic := requested =? GGML_TYPE_COUNT in
  let preferred := if automatic then family_default else requested in
  let capability := if preferred =? GGML_TYPE_BF16 then bf16 else f16 in
  if cap_supported capability then Ok (mk_type_resolution true preferred false OP_NONE OP_NONE) else
  if automatic && (preferred =? GGML_TYPE_BF16) && cap_supported f16
  then Ok (mk_type_resolution true GGML_TYPE_F16 true (cap_missing capability) OP_NONE)
  else Ok (mk_type_resolution false GGML_TYPE_COUNT false (cap_missing capability)
             (if automatic && (preferred =? GGML_TYPE_BF16) then cap_missing f16 else OP_NONE)).

(** ** Ownership of a layer *)

Record llama_kv_tail_layer_ownership := mk_ownership {
  own_layer_id : Z;
  own_body_k : Z; own_body_v : Z; own_shadow_k : Z; own_shadow_v : Z;
  own_graph_write : Z; own_graph_read : Z; own_state_k : Z; own_state_v : Z;
  own_body_k_meta_split : bool; own_body_v_meta_split : bool
}.

Inductive llama_kv_tail_ownership_error :=
  | OWNERSHIP_OK | OWNERSHIP_META_SPLIT_K | OWNERSHIP_META_SPLIT_V | OWNERSHIP_SHADOW_K | OWNERSHIP_SHADOW_V
  | OWNERSHIP_GRAPH_WRITE | OWNERSHIP_GRAPH_READ | OWNERSHIP_STATE_K | OWNERSHIP_STATE_V.

Definition llama_kv_tail_validate_layer_ownership (o : llama_kv_tail_layer_ownership)
    : llama_kv_tail_ownership_error :=
  if negb (own_shadow_k o =? 0) && negb (own_shadow_k o =? own_body_k o) then OWNERSHIP_SHADOW_K else
  if negb (own_shadow_v o =? 0) && negb (own_shadow_v o =? own_body_v o) then OWNERSHIP_SHADOW_V else
  if negb (own_graph_write o =? own_body_k o)
     || (negb (own_body_v o =? 0) && negb (own_graph_write o =? own_body_v o)) then OWNERSHIP_GRAPH_WRITE else
  if negb (own_graph_read o =? own_body_k o)
     || (negb (own_body_v o =? 0) && negb (own_graph_read o =? own_body_v o)) then OWNERSHIP_GRAPH_READ else
  if negb (own_state_k o =? own_body_k o) then OWNERSHIP_STATE_K else
  if negb (own_body_v o =? 0) && negb (own_state_v o =? own_body_v o) then OWNERSHIP_STATE_V else
  OWNERSHIP_OK.

Definition llama_kv_tail_plan_layer_ownership (layer_id body_k_owner body_v_owner : Z) (shadow_k shadow_v : bool)
    : llama_kv_tail_layer_ownership :=
  mk_ownership layer_id body_k_owner body_v_owner
    (if shadow_k then body_k_owner else 0) (if shadow_v then body_v_owner else 0)
    body_k_owner body_k_owner body_k_owner body_v_owner false false.

(** ** Storage plan *)

Inductive llama_kv_tail_storage_kind :=
  | STORAGE_DISABLED | STORAGE_OVERLAY | STORAGE_NATIVE_EXACT
  | STORAGE_COMPACT_OVERLAY | STORAGE_COMPACT_NATIVE_EXACT.

#[global] Instance llama_kv_tail_storage_kind_eq_dec : EqDecision llama_kv_tail_storage_kind.
Proof. solve_decision. Defined.

Record llama_kv_tail_storage_request := mk_storage_request {
  sq_requested_body_type_k : ggml_type;
  sq_requested_body_type_v : ggml_type;
  sq_exact_type : ggml_type;
  sq_requested_tokens : Z;
  sq_effective_tokens : Z;
  sq_n_seq_max : Z;
  sq_n_ubatch : Z;
  sq_visibility_window : Z;
  sq_physical_body_rows : Z;
  sq_requested_body_bytes_per_row : Z;
  sq_promotion_bytes_per_row : Z;
  sq_overlay_bytes_per_row : Z;
  sq_native_capable : bool;
  sq_already_exact : bool;
  sq_has_owned_body : bool;
  sq_has_shared_body : bool;
  sq_shadow_k_capable : bool;
  sq_shadow_v_capable : bool;
  sq_graph_consumes_exact_tail : bool;
  sq_overlay_placement_supported : bool;
  sq_rollback_tokens : Z;
  sq_compact_history_capable : bool;
  sq_compact_current_source_capable : bool;
  sq_compact_ordered_commit_capable : bool;
  sq_full_window_body_can_be_omitted : bool
}.

(** Without [layer_routes], which this function leaves empty. *)
Record llama_kv_tail_storage_plan := mk_storage_plan {
  sp_kind : llama_kv_tail_storage_kind;
  sp_requested_tokens : Z;
  sp_effective_tokens : Z;
  sp_visibility_window : Z;
  sp_requested_body_type_k : ggml_type;
  sp_requested_body_type_v : ggml_type;
  sp_actual_body_type_k : ggml_type;
  sp_actual_body_type_v : ggml_type;
  sp_shadow_k : bool;
  sp_shadow_v : bool;
  sp_shadow_type_k : ggml_type;
  sp_shadow_type_v : ggml_type;
  sp_physical_body_rows : Z;
  sp_layout : llama_kv_tail_layout;
  sp_requested_body_bytes : Z;
  sp_actual_body_bytes : Z;
  sp_shadow_bytes : Z;
  sp_promotion_increment : Z;
  sp_overlay_increment : Z;
  sp_has_owned_body : bool;
  sp_has_shared_body : bool;
  sp_body_promoted : bool;
  sp_graph_consumes_exact_tail : bool;
  sp_compact_layout : llama_kv_tail_compact_layout;
  sp_compact_history_bytes : Z;
  sp_compact_rollback_bytes : Z
}.

(** The initial value of [result], with the effective tokens it ends up with. *)
Definition disabled_plan (q : llama_kv_tail_storage_request) (effective bytes : Z) : llama_kv_tail_storage_plan :=
  mk_storage_plan STORAGE_DISABLED (sq_requested_tokens q) effective (sq_visibility_window q)
    (sq_requested_body_type_k q) (sq_requested_body_type_v q)
    (sq_requested_body_type_k q) (sq_requested_body_type_v q)
    false false GGML_TYPE_COUNT GGML_TYPE_COUNT (sq_physical_body_rows q) (mk_tail_layout 0 0 0)
    bytes bytes 0 0 0 (sq_has_owned_body q) (sq_has_shared_body q) false (sq_graph_consumes_exact_tail q)
    (mk_compact_layout 0 0 0 0) 0 0.

(** The sizes every enabled kind computes first. *)
Record tail_sizes := mk_sizes {
  sz_body_bytes : Z; sz_layout : llama_kv_tail_layout; sz_compact : llama_kv_tail_compact_layout;
  sz_promotion : Z; sz_overlay : Z; sz_history : Z; sz_rollback : Z
}.

Definition tail_sizes_for (q : llama_kv_tail_storage_request) (body_bytes : Z) : outcome tail_sizes :=
  layout ← llama_kv_tail_layout_for (sq_effective_tokens q) (sq_n_seq_max q) (sq_n_ubatch q);
  compact ← llama_kv_tail_compact_layout_for (sq_effective_tokens q) (sq_rollback_tokens q)
              (sq_n_seq_max q) (sq_n_ubatch q);
  promotion ← checked_tail_bytes (sq_physical_body_rows q) (sq_promotion_bytes_per_row q);
  overlay ← checked_tail_bytes (tl_total_slots layout) (sq_overlay_bytes_per_row q);
  history ← checked_tail_bytes (cl_history_slots compact) (sq_overlay_bytes_per_row q);
  rollback ← checked_tail_bytes (u64 (sq_rollback_tokens q * sq_n_seq_max q)) (sq_overlay_bytes_per_row q);
  Ok (mk_sizes body_bytes layout compact promotion overlay history rollback).

(** [select_native_exact] *)
Definition native_exact_plan (q : llama_kv_tail_storage_request) (z : tail_sizes) (promoted_k promoted_v : ggml_type)
    : outcome llama_kv_tail_storage_plan :=
  _ ← require_ OverflowError (sz_promotion z <=? UINT64_MAX - sz_body_bytes z);
  Ok (mk_storage_plan STORAGE_NATIVE_EXACT (sq_requested_tokens q) (sq_effective_tokens q) (sq_visibility_window q)
    (sq_requested_body_type_k q) (sq_requested_body_type_v q) promoted_k promoted_v
    false false GGML_TYPE_COUNT GGML_TYPE_COUNT (sq_physical_body_rows q) (sz_layout z)
    (sz_body_bytes z) (u64 (sz_body_bytes z + sz_promotion z)) 0 (sz_promotion z) (sz_overlay z)
    (sq_has_owned_body q) (sq_has_shared_body q)
    (negb (promoted_k =? sq_requested_body_type_k q) || negb (promoted_v =? sq_requested_body_type_v q))
    (sq_graph_consumes_exact_tail q) (sz_compact z) (sz_history z) (sz_rollback z)).

Definition compact_native_plan (q : llama_kv_tail_storage_request) (z : tail_sizes) (promoted_k promoted_v : ggml_type)
    : llama_kv_tail_storage_plan :=
  mk_storage_plan STORAGE_COMPACT_NATIVE_EXACT (sq_requested_tokens q) (sq_effective_tokens q) (sq_visibility_window q)
    (sq_requested_body_type_k q) (sq_requested_body_type_v q) promoted_k promoted_v
    (sq_shadow_k_capable q) (sq_shadow_v_capable q)
    (if sq_shadow_k_capable q then promoted_k else GGML_TYPE_COUNT)
    (if sq_shadow_v_capable q then promoted_v else GGML_TYPE_COUNT)
    (sq_physical_body_rows q) (sz_layout z) (sz_body_bytes z) 0 (sz_history z) (sz_promotion z) (sz_overlay z)
    false false
    (negb (promoted_k =? sq_requested_body_type_k q) || negb (promoted_v =? sq_requested_body_type_v q))
    (sq_graph_consumes_exact_tail q) (sz_compact z) (sz_history z) (sz_rollback z).

(** Both overlays keep the body and differ in kind and shadow size; the shadow type
    is the promoted type in both. *)
Definition overlay_plan (q : llama_kv_tail_storage_request) (z : tail_sizes) (kind : llama_kv_tail_storage_kind)
    (shadow_bytes : Z) (promoted_k promoted_v : ggml_type) : outcome llama_kv_tail_storage_plan :=
  _ ← require_ InvalidArgument (sq_graph_consumes_exact_tail q);
  _ ← require_ InvalidArgument (sq_overlay_placement_supported q);
  Ok (mk_storage_plan kind (sq_requested_tokens q) (sq_effective_tokens q) (sq_visibility_window q)
    (sq_requested_body_type_k q) (sq_requested_body_type_v q)
    (sq_requested_body_type_k q) (sq_requested_body_type_v q)
    (sq_shadow_k_capable q) (sq_shadow_v_capable q)
    (if sq_shadow_k_capable q then promoted_k else GGML_TYPE_COUNT)
    (if sq_shadow_v_capable q then promoted_v else GGML_TYPE_COUNT)
    (sq_physical_body_rows q) (sz_layout z) (sz_body_bytes z) (sz_body_bytes z) shadow_bytes
    (sz_promotion z) (sz_overlay z) (sq_has_owned_body q) (sq_has_shared_body q) false
    (sq_graph_consumes_exact_tail q) (sz_compact z) (sz_history z) (sz_rollback z)).

Definition llama_kv_tail_storage_plan_for (q : llama_kv_tail_storage_request) : outcome llama_kv_tail_storage_plan :=
  body_bytes ← checked_tail_bytes (sq_physical_body_rows q) (sq_requested_body_bytes_per_row q);
  if (sq_effective_tokens q =? 0) || (sq_physical_body_rows q =? 0)
     || (negb (sq_has_owned_body q) && negb (sq_has_shared_body q))
  then Ok (disabled_plan q 0 body_bytes) else
  _ ← require_ InvalidArgument ((sq_exact_type q =? GGML_TYPE_F16) || (sq_exact_type q =? GGML_TYPE_BF16));
  z ← tail_sizes_for q body_bytes;
  quant_k ← ggml_is_quantized (sq_requested_body_type_k q);
  quant_v ← ggml_is_quantized (sq_requested_body_type_v q);
  let promoted_k := if (quant_k : bool) then sq_exact_type q else sq_requested_body_type_k q in
  let promoted_v := if (quant_v : bool) then sq_exact_type q else sq_requested_body_type_v q in
  let full_visibility := (0 <? sq_visibility_window q) && (sq_visibility_window q <=? sq_effective_tokens q) in
  let use_compact := sq_compact_history_capable q && sq_compact_current_source_capable q
                     && sq_compact_ordered_commit_capable q in
  if sq_already_exact q then native_exact_plan q z promoted_k promoted_v else
  if (use_compact : bool) then
    if full_visibility && sq_full_window_body_can_be_omitted q
    then Ok (compact_native_plan q z promoted_k promoted_v)
    else overlay_plan q z STORAGE_COMPACT_OVERLAY (sz_history z) promoted_k promoted_v
  else
  if full_visibility && sq_native_capable q && (sz_promotion z <=? sz_overlay z)
  then native_exact_plan q z promoted_k promoted_v
  else overlay_plan q z STORAGE_OVERLAY (sz_overlay z) promoted_k promoted_v.

(** ** Rows a query sees *)

Record llama_kv_tail_mask_entry := mk_mask_entry { me_exact : Z; me_cell : Z; me_position : Z }.

(** The loop from the newest entry down, stopping at [retention] rows. *)
Fixpoint select_loop (entries : list llama_kv_tail_mask_entry) (finite : list bool) (query_position : Z)
    (causal_attn : bool) (retention : Z) (i : nat) (selected : list nat) : outcome (list nat) :=
  match i with
  | O => Ok selected
  | S i =>
      if retention <=? Z.of_nat (length selected) then Ok selected else
      f ← vec_get finite i;
      e ← vec_get entries i;
      if negb f || (causal_attn && (query_position <? me_position e))
      then select_loop entries finite query_position causal_attn retention i selected
      else select_loop entries finite query_position causal_attn retention i (selected ++ [i])
  end.

Definition llama_kv_tail_select_masked_entries (entries : list llama_kv_tail_mask_entry) (finite : list bool)
    (query_position retention : Z) (causal_attn : bool) : outcome (list nat) :=
  _ ← require_ InvalidArgument (length entries =? length finite)%nat;
  if retention =? 0 then Ok [] else
  selected ← select_loop entries finite query_position causal_attn retention (length entries) [];
  _ ← assert_ (Z.of_nat (length selected) <=? retention);
  Ok (rev selected).

Inductive llama_swa_type := SWA_TYPE_NONE | SWA_TYPE_STANDARD | SWA_TYPE_CHUNKED | SWA_TYPE_SYMMETRIC.

#[global] Instance llama_swa_type_eq_dec : EqDecision llama_swa_type.
Proof. solve_decision. Defined.

(** [llama_hparams::is_masked_swa]; the chunk start is computed in unsigned arithmetic. *)
Definition is_masked_swa (n_swa : Z) (swa_type : llama_swa_type) (p0 p1 : Z) : outcome bool :=
  _ ← assert_ ((0 <=? p0) && (0 <=? p1));
  match swa_type with
  | SWA_TYPE_NONE => Ok false
  | SWA_TYPE_STANDARD => Ok (to_i32 n_swa <=? p1 - p0)
  | SWA_TYPE_CHUNKED =>
      if n_swa =? 0 then Err DivByZero else Ok (p0 <? to_i32 (u32 (p1 / n_swa * n_swa)))
  | SWA_TYPE_SYMMETRIC =>
      let half_n_swa := Z.quot (to_i32 n_swa) 2 in
      Ok ((p1 - p0 <? - half_n_swa) || (half_n_swa <? p1 - p0))
  end.

Record llama_kv_tail_body_row := mk_body_row { br_position : Z; br_cell : Z; br_flat : Z }.
Record llama_kv_tail_query_window := mk_query_window { qw_mask_row : Z; qw_position : Z }.

Definition row_lt (a b : llama_kv_tail_body_row) : bool :=
  (br_position a <? br_position b) || ((br_position a =? br_position b) && (br_cell a <? br_cell b)).

Definition clamp_pos (value : Z) : Z := Z.max INT32_MIN (Z.min INT32_MAX value).

(** The position interval of one query. *)
Definition query_interval (n_swa : Z) (swa_type : llama_swa_type) (causal_attn : bool) (p1 : Z)
    : outcome (Z * Z) :=
  lohi ← match swa_type with
         | SWA_TYPE_STANDARD => Ok (p1 - n_swa + 1, INT32_MAX)
         | SWA_TYPE_CHUNKED => Ok (Z.quot p1 n_swa * n_swa, INT32_MAX)
         | SWA_TYPE_SYMMETRIC => Ok (p1 - n_swa / 2, p1 + n_swa / 2)
         | SWA_TYPE_NONE => Err LogicError
         end;
  let hi := if causal_attn then Z.min lohi.2 p1 else lohi.2 in
  Ok (clamp_pos lohi.1, clamp_pos hi).

(** First index of a sorted range whose element fails the predicate ([std::lower_bound]
    and [std::upper_bound] on a partitioned range). *)
Fixpoint partition_point {A} (p : A -> bool) (l : list A) : nat :=
  match l with
  | [] => 0
  | a :: l' => if p a then S (partition_point p l') else 0
  end%nat.

(** Rows of one query: those between the bounds that are finite are marked. *)
Definition mark_query (is_finite : Z -> Z -> bool) (rows : list llama_kv_tail_body_row) (lo hi : Z)
    (mask_row : Z) (selected : list bool) : outcome (list bool) :=
  let first := partition_point (fun r => br_position r <? lo) rows in
  let last := (first + partition_point (fun r => negb (hi <? br_position r)%Z) (drop first rows))%nat in
  foldM (fun sel index =>
    r ← vec_get rows index;
    if is_finite mask_row (br_cell r) then vec_set sel index true else Ok sel)
    (seq first (last - first)) selected.

(** Rows kept, in order, and the final flags. *)
Definition llama_kv_tail_union_swa_rows (is_finite : Z -> Z -> bool) (rows : list llama_kv_tail_body_row)
    (queries : list llama_kv_tail_query_window) (n_swa : Z) (swa_type : llama_swa_type) (causal_attn : bool)
    : outcome (list llama_kv_tail_body_row * list bool) :=
  _ ← require_ InvalidArgument (negb ((n_swa =? 0) || bool_decide (swa_type = SWA_TYPE_NONE)));
  let rows := stable_sort row_lt rows in
  selected ← foldM (fun sel q =>
    b ← query_interval n_swa swa_type causal_attn (qw_position q);
    mark_query is_finite rows b.1 b.2 (qw_mask_row q) sel) queries (replicate (length rows) false);
  Ok (omap (fun x : llama_kv_tail_body_row * bool => if x.2 then Some x.1 else None) (zip rows selected), selected).

(** ** Slot runs *)

(** The slots a run stands for. *)
Definition run_slots (r : llama_kv_tail_slot_run) : list Z := seqZ (sr_slot_begin r) (sr_length r).

(** Runs cover payloads [from .. to) in order, none of them empty, and no run
    continues the one before it. *)
Fixpoint run_chain (from : Z) (runs : list llama_kv_tail_slot_run) (to : Z) : Prop :=
  match runs with
  | [] => from = to
  | r :: rs => sr_payload_begin r = from /\ 0 < sr_length r /\ run_chain (from + sr_length r) rs to
  end.

Fixpoint runs_apart (runs : list llama_kv_tail_slot_run) : Prop :=
  match runs with
  | r1 :: ((r2 :: _) as rest) => sr_slot_begin r2 <> sr_slot_begin r1 + sr_length r1 /\ runs_apart rest
  | _ => True
  end.

Lemma run_chain_snoc from rs r to :
  run_chain from (rs ++ [r]) to <->
  run_chain from rs (sr_payload_begin r) /\ 0 < sr_length r /\ sr_payload_begin r + sr_length r = to.
Proof.
  revert from; induction rs as [|x rs IH]; intros from; simpl; [split; intros; intuition lia|].
  rewrite IH. tauto.
Qed.

Lemma run_chain_le from runs to : run_chain from runs to -> from <= to.
Proof.
  revert from; induction runs as [|r rs IH]; intros from; simpl; [lia|].
  intros (_ & ? & H%IH). lia.
Qed.

Lemma runs_apart_snoc rs r1 r2 :
  runs_apart (rs ++ [r1]) -> sr_slot_begin r2 <> sr_slot_begin r1 + sr_length r1 ->
  runs_apart ((rs ++ [r1]) ++ [r2]).
Proof.
  induction rs as [|x rs IH]; [simpl; tauto|]. intros H Hne.
  destruct rs as [|y rs]; simpl in *; [tauto|]. destruct H as [H1 H2]. split; [done|]. by apply IH.
Qed.

Lemma runs_apart_grow rs r r' :
  sr_slot_begin r' = sr_slot_begin r -> runs_apart (rs ++ [r]) -> runs_apart (rs ++ [r']).
Proof.
  intros E. induction rs as [|x rs IH]; [done|].
  destruct rs as [|y rs]; simpl in *; [by rewrite E|]. intros [H1 H2]. split; [done|]. by apply IH.
Qed.

Lemma last_run_slots ls r (k : list Z) prev :
  concat (run_slots <$> (ls ++ [r])) = k ++ [prev] -> 0 < sr_length r ->
  prev = sr_slot_begin r + sr_length r - 1.
Proof.
  intros E Hr. rewrite fmap_app, concat_app in E. simpl in E. rewrite app_nil_r in E.
  unfold run_slots in E at 2. replace (sr_length r) with ((sr_length r - 1) + 1) in E by lia.
  rewrite seqZ_app, app_assoc in E by lia. rewrite (seqZ_cons _ 1), (seqZ_nil _ (Z.pred 1)) in E by lia.
  apply app_inj_tail in E as [_ E]. lia.
Qed.

(** The runs of a slot vector: expanding the runs gives the slots back, the runs
    cover the payload rows in order without gap, none is empty, and no two
    neighbours could have been merged. *)
Theorem slot_runs_expand slots :
  Z.of_nat (length slots) <= UINT32_MAX ->
  exists runs, llama_kv_tail_contiguous_slot_runs slots = Ok runs /\
    concat (run_slots <$> runs) = slots /\
    run_chain 0 runs (Z.of_nat (length slots)) /\ runs_apart runs.
Proof.
  intros Hlen. destruct slots as [|s0 l] eqn:Es; [by exists []|]. rewrite <- Es in *.
  set (I := fun (rest : list nat) runs => exists k, rest = seq k (length slots - k) /\ (1 <= k <= length slots)%nat /\
    exists rs r, runs = rs ++ [r] /\ concat (run_slots <$> runs) = take k slots /\
      run_chain 0 runs (Z.of_nat k) /\ runs_apart runs).
  assert (llama_kv_tail_contiguous_slot_runs slots = foldM (slot_run_step slots) (seq 1 (length slots - 1)) [mk_slot_run 0 s0 1])
    as -> by (by rewrite Es).
  destruct (foldM_inv (slot_run_step slots) I (seq 1 (length slots - 1)) [mk_slot_run 0 s0 1])
    as (runs & E & k & Hk & Hk' & rs & r & -> & Hexp & Hch & Hap).
  - exists 1%nat. split; [done|]. split; [rewrite Es; simpl; lia|]. exists [], (mk_slot_run 0 s0 1).
    rewrite Es. done.
  - intros p rest runs (k & Hk & Hk' & rs & r & -> & Hexp & Hch & Hap).
    destruct (length slots - k)%nat as [|m] eqn:Em; [done|]. injection Hk as -> ->.
    destruct (lookup_lt_is_Some_2 slots k) as [cur Hcur]; [lia|].
    destruct (lookup_lt_is_Some_2 slots (k - 1)) as [prev Hprev]; [lia|].
    unfold slot_run_step. rewrite (vec_get_Some _ _ _ Hcur), (vec_get_Some _ _ _ Hprev); simpl.
    rewrite last_snoc. apply run_chain_snoc in Hch as (Hch & Hr & Hend).
    pose proof (run_chain_le _ _ _ Hch) as Hbegin.
    assert (prev = sr_slot_begin r + sr_length r - 1) as Hp.
    { apply (last_run_slots rs r (take (k - 1) slots) prev); [|done].
      rewrite Hexp. replace k with (S (k - 1)) at 1 by lia. by rewrite (take_S_r _ _ _ Hprev). }
    assert (take (S k) slots = take k slots ++ [cur]) as Htake by (by rewrite (take_S_r _ _ _ Hcur)).
    destruct (Z.eqb_spec cur (prev + 1)) as [Hc|Hc].
    + rewrite removelast_last. eexists. split; [done|]. exists (S k). rewrite Nat.sub_succ_r, Em.
      split; [done|]. split; [lia|]. eexists rs, _. split; [done|]. rewrite Htake, <- Hexp.
      rewrite u32_id by lia. split; [|split].
      * rewrite !fmap_app, !concat_app. simpl. rewrite !app_nil_r, <- app_assoc. f_equal.
        unfold run_slots; simpl. rewrite seqZ_app by lia. f_equal. rewrite seqZ_cons, seqZ_nil by lia.
        f_equal. lia.
      * apply run_chain_snoc. simpl. split; [done|lia].
      * by eapply runs_apart_grow; [|exact Hap].
    + eexists. split; [done|]. exists (S k). rewrite Nat.sub_succ_r, Em.
      split; [done|]. split; [lia|]. eexists (rs ++ [r]), _. split; [done|]. rewrite Htake, <- Hexp.
      rewrite u32_id by lia. split; [|split].
      * by rewrite (fmap_app _ (rs ++ [r])), concat_app.
      * apply run_chain_snoc. simpl. split; [|lia]. apply run_chain_snoc. done.
      * apply runs_apart_snoc; [done|]. simpl. lia.
  - rewrite E. eexists. split; [done|]. assert (k = length slots) as ->.
    { destruct (length slots - k)%nat eqn:Ek; [lia|done]. }
    rewrite take_ge in Hexp by lia. done.
Qed.

Lemma slot_runs_expand_witness :
  exists runs, llama_kv_tail_contiguous_slot_runs [4; 5; 6; 2; 3; 9] = Ok runs /\
    concat (run_slots <$> runs) = [4; 5; 6; 2; 3; 9].
Proof.
  destruct (slot_runs_expand [4; 5; 6; 2; 3; 9]) as (runs & E & H & _); [vm_compute; discriminate|]. eauto.
Defined.

(** ** Masked selection *)

(** Entry [i] is finite and not after the query. *)
Definition eligible (entries : list llama_kv_tail_mask_entry) (finite : list bool) (query_position : Z)
    (causal_attn : bool) (i : nat) : bool :=
  match finite !! i, entries !! i with
  | Some f, Some e => f && negb (causal_attn && (query_position <? me_position e))
  | _, _ => false
  end.

Lemma select_loop_eq entries finite q causal retention n selected :
  (n <= length entries)%nat -> length entries = length finite -> 0 <= retention ->
  Z.of_nat (length selected) <= retention ->
  select_loop entries finite q causal retention n selected =
  Ok (selected ++ take (Z.to_nat retention - length selected)
        (rev (List.filter (eligible entries finite q causal) (seq 0 n)))).
Proof.
  intros Hn Hl Hr. revert selected; induction n as [|n IH]; intros selected Hs.
  { simpl. by rewrite take_nil, app_nil_r. }
  cbn [select_loop]. destruct (Z.leb_spec retention (Z.of_nat (length selected))) as [Hfull|Hroom].
  { replace (Z.to_nat retention - length selected)%nat with 0%nat by lia. by rewrite take_0, app_nil_r. }
  destruct (lookup_lt_is_Some_2 finite n) as [f Hf]; [lia|].
  destruct (lookup_lt_is_Some_2 entries n) as [e He]; [lia|].
  rewrite (vec_get_Some _ _ _ Hf), (vec_get_Some _ _ _ He); cbn [mbind outcome_bind].
  rewrite seq_S, List.filter_app, List.rev_app_distr. simpl.
  assert (eligible entries finite q causal n = f && negb (causal && (q <? me_position e))) as ->
    by (unfold eligible; by rewrite Hf, He).
  destruct f; simpl; [destruct (causal && _) eqn:Ec; simpl|]; try (apply IH; lia).
  rewrite IH by (rewrite ?length_app; simpl; lia). rewrite length_app, <- app_assoc. simpl.
  replace (Z.to_nat retention - length selected)%nat
    with (S (Z.to_nat retention - (length selected + 1))) by lia. done.
Qed.

(** The exact-tail rows one query reads: the newest [retention] of the entries that
    are finite and, for causal attention, not after the query, in ascending order;
    fewer when fewer are eligible.  The size assertion never fails and mismatched
    inputs are refused. *)
Theorem select_masked_newest entries finite q retention causal :
  0 <= retention ->
  let elig := List.filter (eligible entries finite q causal) (seq 0 (length entries)) in
  llama_kv_tail_select_masked_entries entries finite q retention causal =
  if (length entries =? length finite)%nat
  then Ok (drop (length elig - Z.to_nat retention) elig) else Err InvalidArgument.
Proof.
  intros Hr elig. unfold llama_kv_tail_select_masked_entries.
  destruct (Nat.eqb_spec (length entries) (length finite)) as [Hl|Hl]; simpl; [|done].
  destruct (Z.eqb_spec retention 0) as [->|H0].
  { by rewrite Nat.sub_0_r, drop_ge. }
  rewrite select_loop_eq by (done || simpl; lia). fold elig. cbn [mbind outcome_bind length app].
  rewrite Nat.sub_0_r. rewrite (proj2 (Z.leb_le _ _)) by (rewrite length_take; lia). simpl.
  by rewrite firstn_skipn_rev, !List.rev_involutive, List.length_rev.
Qed.

Lemma select_masked_newest_witness :
  llama_kv_tail_select_masked_entries
    [mk_mask_entry 0 3 10; mk_mask_entry 1 4 11; mk_mask_entry 2 5 12; mk_mask_entry 3 6 13]
    [true; true; false; true] 12 1 true = Ok [1%nat].
Proof.
  rewrite (select_masked_newest _ _ 12 1 true) by lia. vm_compute. reflexivity.
Defined.

(** ** Sliding-window union *)

#[global] Instance row_lt_order : StrictWeakOrder row_lt.
Proof.
  split.
  - intros a b. unfold row_lt. intros H. bprop. destruct H as [H|H]; bprop.
    + rewrite (proj2 (Z.ltb_ge _ _)), (proj2 (Z.eqb_neq _ _)) by lia. done.
    + rewrite (proj2 (Z.ltb_ge _ _)) by lia. rewrite (proj2 (Z.ltb_ge (br_cell b) _)) by lia. apply andb_false_r.
  - intros a b c. unfold row_lt. rewrite !orb_false_iff, !andb_false_iff, !Z.ltb_ge, !Z.eqb_neq. lia.
Qed.

Lemma row_lt_position a b : row_lt b a = false -> br_position a <= br_position b.
Proof. unfold row_lt. intros H. bprop. lia. Qed.

Lemma partition_point_le {A} (p : A -> bool) l : (partition_point p l <= length l)%nat.
Proof. induction l as [|a l IH]; simpl; [lia|]. destruct (p a); lia. Qed.

(** On a list sorted by position, the partition point separates by a position bound. *)
Lemma partition_point_spec (p : llama_kv_tail_body_row -> bool) l :
  StronglySorted (fun a b => br_position a <= br_position b) l ->
  (forall a b, br_position a <= br_position b -> p b = true -> p a = true) ->
  forall i r, l !! i = Some r -> (i < partition_point p l)%nat <-> p r = true.
Proof.
  intros Hs Hmono. induction Hs as [|a l Hl IH Ha]; intros i r Hi; [done|]. simpl.
  destruct (p a) eqn:Ep.
  - destruct i as [|i]; simpl in Hi; [injection Hi as <-; split; [done|lia]|].
    rewrite <- (IH i r Hi). lia.
  - split; [lia|]. intros Hr. exfalso. assert (p a = true); [|congruence].
    destruct i as [|i]; simpl in Hi; [by injection Hi as <-|].
    apply (Hmono a r); [|done]. apply (proj1 (Forall_forall _ _) Ha). by eapply list_elem_of_lookup_2.
Qed.

(** The rows between the bounds. *)
Lemma interval_indices rows lo hi i r :
  StronglySorted (fun a b => br_position a <= br_position b) rows -> rows !! i = Some r ->
  let first := partition_point (fun r => br_position r <? lo) rows in
  let last := (first + partition_point (fun r => negb (hi <? br_position r)%Z) (drop first rows))%nat in
  i ∈ seq first (last - first) <-> lo <= br_position r <= hi.
Proof.
  intros Hs Hi first last.
  assert ((i < first)%nat <-> br_position r < lo) as H1.
  { unfold first. rewrite (partition_point_spec _ rows Hs) with (r := r); [apply Z.ltb_lt| |done].
    intros a b ? ?. bprop. apply Z.ltb_lt. lia. }
  assert (StronglySorted (fun a b => br_position a <= br_position b) (drop first rows)) as Hs2
    by (by apply StronglySorted_drop).
  rewrite elem_of_seq. destruct (decide (i < first)%nat) as [Hlt|Hge]; [lia|].
  assert ((i - first < last - first)%nat <-> br_position r <= hi) as H2; [|lia].
  unfold last. rewrite Nat.add_sub'.
  rewrite (partition_point_spec _ _ Hs2) with (r := r).
  - rewrite negb_true_iff. apply Z.ltb_ge.
  - intros a b ? ?. bprop. apply negb_true_iff, Z.ltb_ge. lia.
  - rewrite lookup_drop. by replace (first + (i - first))%nat with i by lia.
Qed.

(** Marking the rows of one query. *)
Lemma mark_loop (P : llama_kv_tail_body_row -> bool) rows idxs sel :
  length sel = length rows -> (forall i, i ∈ idxs -> (i < length rows)%nat) ->
  exists sel', foldM (fun sel index =>
    r ← vec_get rows index;
    if P r then vec_set sel index true else Ok sel) idxs sel = Ok sel' /\
    length sel' = length rows /\
    forall i r b, rows !! i = Some r -> sel !! i = Some b ->
      sel' !! i = Some (b || (bool_decide (i ∈ idxs) && P r)).
Proof.
  revert sel; induction idxs as [|k l IH]; intros sel Hl Hk.
  - exists sel. split; [done|]. split; [done|]. intros i r b _ ->. rewrite bool_decide_eq_false_2 by set_solver.
    by rewrite orb_false_r.
  - destruct (lookup_lt_is_Some_2 rows k) as [rk Hrk]; [apply Hk; by left|].
    destruct (lookup_lt_is_Some_2 sel k) as [bk Hbk]; [rewrite Hl; by eapply lookup_lt_Some|].
    simpl. rewrite (vec_get_Some _ _ _ Hrk); simpl.
    assert (forall i, i ∈ l -> (i < length rows)%nat) as Hl' by (intros; apply Hk; by right).
    assert (exists sel1, (if P rk then vec_set sel k true else Ok sel) = Ok sel1 /\ length sel1 = length rows /\
      forall i b, sel !! i = Some b -> sel1 !! i = Some (if decide (i = k) then b || P rk else b)) as (sel1 & E1 & L1 & H1).
    { destruct (P rk) eqn:EP.
      - rewrite (vec_set_Some _ _ _ _ Hbk). eexists; split; [done|]. rewrite length_insert. split; [done|].
        intros i b Hb. case_decide; subst; [rewrite list_lookup_insert_eq by (by eapply lookup_lt_Some); by rewrite orb_true_r|].
        by rewrite list_lookup_insert_ne by done.
      - exists sel. split; [done|]. split; [done|]. intros i b Hb. case_decide; by rewrite ?orb_false_r. }
    rewrite E1; simpl. destruct (IH sel1 L1 Hl') as (sel2 & E2 & L2 & H2).
    exists sel2. split; [done|]. split; [done|]. intros i r b Hr Hb. rewrite (H2 i r _ Hr (H1 i b Hb)). f_equal.
    case_decide as Hik.
    + subst i. rewrite Hr in Hrk. injection Hrk as ->. rewrite (bool_decide_eq_true_2 (k ∈ k :: l)) by (by left).
      destruct b, (P rk), (bool_decide (k ∈ l)); done.
    + do 2 f_equal. apply bool_decide_ext. rewrite elem_of_cons. tauto.
Qed.

(** A row a query may read: finite in its mask, not masked by the sliding window, and
    for causal attention not after it. *)
Definition visible_to (is_finite : Z -> Z -> bool) (n_swa : Z) (swa_type : llama_swa_type) (causal : bool)
    (r : llama_kv_tail_body_row) (q : llama_kv_tail_query_window) : bool :=
  is_finite (qw_mask_row q) (br_cell r) &&
  match is_masked_swa n_swa swa_type (br_position r) (qw_position q) with Ok m => negb m | Err _ => false end &&
  negb (causal && (qw_position q <? br_position r)).

Lemma clamp_pos_le x p : x <= INT32_MAX -> 0 <= p <= INT32_MAX -> clamp_pos x <= p <-> x <= p.
Proof. unfold clamp_pos, INT32_MIN, INT32_MAX. lia. Qed.

Lemma clamp_pos_ge x p : 0 <= p <= INT32_MAX -> p <= clamp_pos x <-> p <= x.
Proof. unfold clamp_pos, INT32_MIN, INT32_MAX. lia. Qed.

Lemma query_interval_spec n_swa swa_type causal p q :
  0 < n_swa <= INT32_MAX -> swa_type <> SWA_TYPE_NONE -> 0 <= p <= INT32_MAX -> 0 <= q <= INT32_MAX ->
  exists lo hi m, query_interval n_swa swa_type causal q = Ok (lo, hi) /\
    is_masked_swa n_swa swa_type p q = Ok m /\
    (lo <= p <= hi <-> m = false /\ (causal = true -> p <= q)).
Proof.
  intros Hn Ht Hp Hq. unfold query_interval, is_masked_swa.
  rewrite (assert_true _ (proj2 (andb_true_iff _ _) (conj (proj2 (Z.leb_le 0 p) ltac:(lia)) (proj2 (Z.leb_le 0 q) ltac:(lia))))).
  assert (to_i32 n_swa = n_swa) as -> by (unfold to_i32; by rewrite (proj2 (Z.leb_le _ _)) by lia).
  assert (forall lo hi m, (lo <= p <= hi <-> m = false) -> lo <= INT32_MAX ->
    clamp_pos lo <= p <= clamp_pos (if causal then Z.min hi q else hi) <-> m = false /\ (causal = true -> p <= q)) as Hc.
  { intros lo hi m Hm Hlo. rewrite clamp_pos_le, clamp_pos_ge by lia. rewrite <- Hm.
    destruct causal; [|split; [intros; split; [lia|done]|tauto]].
    split; [intros; split; [lia|intros _; lia]|]. intros [? Hpq]. specialize (Hpq eq_refl). lia. }
  destruct swa_type; [done|..]; simpl.
  - eexists _, _, _. split; [done|]. split; [done|]. apply Hc; [|lia].
    rewrite Z.leb_gt. unfold INT32_MAX in *. lia.
  - rewrite (proj2 (Z.eqb_neq n_swa 0)) by lia. rewrite Z.quot_div_nonneg by lia.
    pose proof (Z.mul_div_le q n_swa ltac:(lia)). pose proof (Z.div_pos q n_swa ltac:(lia) ltac:(lia)).
    assert (0 <= q / n_swa * n_swa <= q) by nia.
    rewrite u32_id by (unfold UINT32_MAX, INT32_MAX in *; lia).
    unfold to_i32. rewrite (proj2 (Z.leb_le _ _)) by lia.
    eexists _, _, _. split; [done|]. split; [done|]. apply Hc; [|lia]. rewrite Z.ltb_ge. unfold INT32_MAX in *. lia.
  - rewrite Z.quot_div_nonneg by lia. pose proof (Z.div_pos n_swa 2 ltac:(lia) ltac:(lia)).
    eexists _, _, _. split; [done|]. split; [done|]. apply Hc; [|lia]. rewrite orb_false_iff, !Z.ltb_ge. lia.
Qed.

Lemma omap_zip_filter (P : llama_kv_tail_body_row -> bool) rows sel :
  (forall i r, rows !! i = Some r -> sel !! i = Some (P r)) ->
  omap (fun x : llama_kv_tail_body_row * bool => if x.2 then Some x.1 else None) (zip rows sel) = List.filter P rows.
Proof.
  revert sel; induction rows as [|r rows IH]; intros sel H; [done|].
  destruct sel as [|b sel]; [by specialize (H 0%nat r eq_refl)|].
  specialize (H 0%nat r eq_refl) as H0. simpl in H0. injection H0 as ->. simpl.
  rewrite IH by (intros i r' Hi; exact (H (S i) r' Hi)). by destruct (P r).
Qed.

(** reducing the body rows to the sliding-window candidates of a batch keeps, in
    position order, exactly the rows some query may read: the interval search agrees
    with the per-pair window test of the model's hyper-parameters for every window
    type. *)
Theorem union_swa_rows_visible is_finite rows queries n_swa swa_type causal :
  0 < n_swa <= INT32_MAX -> swa_type <> SWA_TYPE_NONE ->
  (forall r, r ∈ rows -> 0 <= br_position r <= INT32_MAX) ->
  (forall q, q ∈ queries -> 0 <= qw_position q <= INT32_MAX) ->
  exists flags, llama_kv_tail_union_swa_rows is_finite rows queries n_swa swa_type causal =
    Ok (List.filter (fun r => existsb (visible_to is_finite n_swa swa_type causal r) queries)
          (stable_sort row_lt rows), flags) /\
    length flags = length rows.
Proof.
  intros Hn Ht Hrows Hqs. unfold llama_kv_tail_union_swa_rows.
  rewrite (proj2 (Z.eqb_neq n_swa 0)), bool_decide_eq_false_2 by (done || lia). simpl.
  set (sorted := stable_sort row_lt rows).
  assert (length sorted = length rows) as Hls by apply stable_sort_length.
  assert (forall r, r ∈ sorted -> 0 <= br_position r <= INT32_MAX) as Hsr.
  { intros r Hr. apply Hrows. rewrite <- (stable_sort_perm row_lt). exact Hr. }
  assert (StronglySorted (fun a b => br_position a <= br_position b) sorted) as Hss.
  { eapply StronglySorted_impl; [|apply (stable_sort_ordered row_lt)]. intros a b. apply row_lt_position. }
  clearbody sorted. rewrite <- Hls.
  set (V := visible_to is_finite n_swa swa_type causal).
  set (I := fun rest sel => exists done_, done_ ++ rest = queries /\ length sel = length sorted /\
    forall i r, sorted !! i = Some r -> sel !! i = Some (existsb (V r) done_)).
  match goal with |- context [foldM ?f queries ?s] =>
    destruct (foldM_inv f I queries s) as (sel & E & done_ & Hd & Hlen & Hsel) end.
  - exists []. split; [done|]. split; [apply length_replicate|]. intros i r Hi. simpl.
    apply lookup_replicate_2. by eapply lookup_lt_Some.
  - intros q rest sel (done_ & Hd & Hlen & Hsel).
    assert (0 <= qw_position q <= INT32_MAX) as Hq.
    { apply Hqs. rewrite <- Hd. apply elem_of_app. right. by left. }
    destruct (query_interval_spec n_swa swa_type causal 0 (qw_position q) Hn Ht ltac:(unfold INT32_MAX; lia) Hq)
      as (lo & hi & _ & E & _). rewrite E; simpl. unfold mark_query.
    set (first := partition_point (fun r => br_position r <? lo) sorted).
    set (last := (first + partition_point (fun r => negb (hi <? br_position r)%Z) (drop first sorted))%nat).
    destruct (mark_loop (fun r => is_finite (qw_mask_row q) (br_cell r)) sorted (seq first (last - first)) sel Hlen)
      as (sel' & E' & Hlen' & Hsel').
    { intros i Hi. apply elem_of_seq in Hi.
      pose proof (partition_point_le (fun r => negb (hi <? br_position r)) (drop first sorted)) as Hle.
      rewrite length_drop in Hle. pose proof (partition_point_le (fun r => br_position r <? lo) sorted).
      unfold last in Hi. lia. }
    rewrite E'. exists sel'. split; [done|]. exists (done_ ++ [q]). split; [by rewrite <- app_assoc|].
    split; [done|]. intros i r Hi. rewrite (Hsel' i r _ Hi (Hsel i r Hi)), existsb_app. simpl. rewrite orb_false_r.
    do 2 f_equal. pose proof (interval_indices sorted lo hi i r Hss Hi) as Hint. cbv zeta in Hint.
    destruct (query_interval_spec n_swa swa_type causal (br_position r) (qw_position q) Hn Ht
      (Hsr r ltac:(by eapply list_elem_of_lookup_2)) Hq) as (lo' & hi' & m & E2 & Em & Hm).
    rewrite E in E2. injection E2 as <- <-. unfold V, visible_to. rewrite Em.
    rewrite (andb_comm (bool_decide _)), <- andb_assoc. f_equal.
    rewrite (bool_decide_ext _ (lo <= br_position r <= hi)) by exact Hint.
    rewrite (bool_decide_ext _ (m = false /\ (causal = true -> br_position r <= qw_position q))) by exact Hm.
    destruct m, causal; cbn [negb andb]; try (apply bool_decide_eq_false_2; intros [? _]; done).
    + destruct (Z.ltb_spec (qw_position q) (br_position r)); simpl;
        [apply bool_decide_eq_false_2; intros [_ H']; specialize (H' eq_refl); lia | apply bool_decide_eq_true_2; split; [done|lia]].
    + apply bool_decide_eq_true_2. done.
  - rewrite E. simpl. exists sel. rewrite app_nil_r in Hd. subst done_. split; [|done].
    do 2 f_equal. by apply (omap_zip_filter (fun r => existsb (V r) queries)).
Qed.

Lemma union_swa_rows_visible_witness : exists flags,
  llama_kv_tail_union_swa_rows (fun _ _ => true)
    [mk_body_row 7 1 1; mk_body_row 3 0 0; mk_body_row 9 2 2] [mk_query_window 0 8; mk_query_window 1 6]
    2 SWA_TYPE_STANDARD true = Ok ([mk_body_row 7 1 1], flags).
Proof.
  destruct (union_swa_rows_visible (fun _ _ => true)
    [mk_body_row 7 1 1; mk_body_row 3 0 0; mk_body_row 9 2 2] [mk_query_window 0 8; mk_query_window 1 6]
    2 SWA_TYPE_STANDARD true) as (flags & E & _).
  - vm_compute; intuition discriminate.
  - discriminate.
  - intros r Hr. rewrite !elem_of_cons, elem_of_nil in Hr.
    destruct Hr as [-> | [-> | [-> | []]]]; vm_compute; intuition discriminate.
  - intros r Hr. rewrite !elem_of_cons, elem_of_nil in Hr.
    destruct Hr as [-> | [-> | []]]; vm_compute; intuition discriminate.
  - exists flags. rewrite E. vm_compute. reflexivity.
Defined.

(** ** Storage plan: lemmas *)

Lemma checked_tail_bytes_Ok rows b x :
  0 <= rows -> 0 <= b -> checked_tail_bytes rows b = Ok x -> x = rows * b /\ x <= UINT64_MAX.
Proof.
  intros Hr Hb H. unfold checked_tail_bytes in H. inv_ok. apply require_Ok in E.
  assert (rows * b <= UINT64_MAX) as Hle.
  { destruct (Z.eqb_spec b 0) as [->|Hb0]; [rewrite Z.mul_0_r; discriminate|]. simpl in E. bprop.
    pose proof (Z.mul_div_le UINT64_MAX b ltac:(lia)). nia. }
  rewrite u64_id by nia. done.
Qed.

Lemma slot_count_Ok stride n sink x :
  0 <= stride <= UINT32_MAX -> 0 <= n <= UINT32_MAX -> 0 <= sink <= UINT32_MAX ->
  checked_tail_slot_count stride n sink = Ok x -> x = stride * n + sink /\ x <= INT32_MAX.
Proof.
  intros Hs Hn Hk H. unfold checked_tail_slot_count in H. inv_ok. apply require_Ok in E. bprop.
  assert (0 <= stride * n <= UINT32_MAX * UINT32_MAX) by nia.
  rewrite (u64_id (stride * n)), u64_id in E |- * by (unfold UINT32_MAX, UINT64_MAX in *; lia).
  rewrite u32_id by (unfold UINT32_MAX, INT32_MAX in *; lia). done.
Qed.

Lemma layout_for_Ok n_tokens n_seq_max n_ubatch l :
  0 <= n_tokens <= UINT32_MAX -> 0 <= n_seq_max <= UINT32_MAX -> 0 <= n_ubatch <= UINT32_MAX ->
  llama_kv_tail_layout_for n_tokens n_seq_max n_ubatch = Ok l ->
  n_tokens + n_ubatch <= tl_arena_stride l < n_tokens + n_ubatch + 256 /\ tl_arena_stride l mod 256 = 0 /\
  tl_sink_slots l = (if 1 <? n_seq_max then n_ubatch else 0) /\
  tl_total_slots l = tl_arena_stride l * n_seq_max + tl_sink_slots l /\ tl_total_slots l <= INT32_MAX.
Proof.
  intros Ht Hs Hu H. unfold llama_kv_tail_layout_for in H. inv_ok. apply require_Ok in E.
  pose proof (Z.div_mod (n_tokens + n_ubatch + 256 - 1) 256 ltac:(lia)).
  pose proof (Z.mod_pos_bound (n_tokens + n_ubatch + 256 - 1) 256 ltac:(lia)).
  revert E E0. rewrite (u64_id (n_tokens + n_ubatch)) by (unfold UINT32_MAX, UINT64_MAX in *; lia).
  rewrite (u64_id (n_tokens + n_ubatch + 256)) by (unfold UINT32_MAX, UINT64_MAX in *; lia).
  rewrite (u64_id (n_tokens + n_ubatch + 256 - 1)) by (unfold UINT32_MAX, UINT64_MAX in *; lia).
  rewrite u64_id by (unfold UINT32_MAX, UINT64_MAX in *; lia).
  set (a := (n_tokens + n_ubatch + 256 - 1) / 256 * 256) in *. intros E E0. bprop.
  rewrite (u32_id a) in E0 |- * by (unfold UINT32_MAX, INT32_MAX in *; lia).
  apply slot_count_Ok in E0 as [-> ?]; [| |done|destruct (1 <? n_seq_max); lia];
    [|unfold UINT32_MAX, INT32_MAX in *; lia]. simpl.
  split; [lia|]. split; [apply Z.mod_mul; lia|]. auto.
Qed.

Lemma compact_layout_for_Ok n_tokens rollback n_seq_max n_ubatch l :
  0 <= n_tokens <= UINT32_MAX -> 0 <= rollback <= UINT32_MAX -> 0 <= n_seq_max <= UINT32_MAX ->
  0 <= n_ubatch <= UINT32_MAX ->
  llama_kv_tail_compact_layout_for n_tokens rollback n_seq_max n_ubatch = Ok l ->
  cl_history_stride l = n_tokens + rollback /\ cl_history_slots l = (n_tokens + rollback) * n_seq_max /\
  cl_attention_stride l = n_tokens + n_ubatch /\ cl_history_slots l <= INT32_MAX.
Proof.
  intros Ht Hr Hs Hu H. unfold llama_kv_tail_compact_layout_for in H. inv_ok. apply require_Ok in E, E0.
  revert E E0 E1. rewrite !u64_id by (unfold UINT32_MAX, UINT64_MAX in *; lia). intros E E0 E1. bprop.
  rewrite (u32_id (n_tokens + rollback)) in E1 |- * by (unfold UINT32_MAX, INT32_MAX in *; lia).
  rewrite u32_id by (unfold UINT32_MAX, INT32_MAX in *; lia).
  apply slot_count_Ok in E1 as [-> ?]; unfold UINT32_MAX, INT32_MAX in *; simpl; lia.
Qed.

Lemma promoted_exact t exact b :
  exact = GGML_TYPE_F16 \/ exact = GGML_TYPE_BF16 -> ggml_is_quantized t = Ok b ->
  ggml_is_quantized (if b : bool then exact else t) = Ok false.
Proof. intros Hx Ht. destruct b; [|exact Ht]. by destruct Hx as [->| ->]. Qed.

(** The numeric fields of a request have their C types. *)
Definition request_ok (q : llama_kv_tail_storage_request) : Prop :=
  0 <= sq_effective_tokens q <= UINT32_MAX /\ 0 <= sq_n_seq_max q <= UINT32_MAX /\
  0 <= sq_n_ubatch q <= UINT32_MAX /\ 0 <= sq_rollback_tokens q <= UINT32_MAX /\
  0 <= sq_physical_body_rows q <= UINT64_MAX /\ 0 <= sq_requested_body_bytes_per_row q <= UINT64_MAX /\
  0 <= sq_promotion_bytes_per_row q <= UINT64_MAX /\ 0 <= sq_overlay_bytes_per_row q <= UINT64_MAX.

Lemma tail_sizes_Ok q bytes z : request_ok q -> tail_sizes_for q bytes = Ok z ->
  sz_body_bytes z = bytes /\
  sz_promotion z = sq_physical_body_rows q * sq_promotion_bytes_per_row q /\ 0 <= sz_promotion z <= UINT64_MAX /\
  sq_effective_tokens q + sq_n_ubatch q <= tl_arena_stride (sz_layout z) /\
  sz_overlay z = tl_total_slots (sz_layout z) * sq_overlay_bytes_per_row q /\
  sz_history z = (sq_effective_tokens q + sq_rollback_tokens q) * sq_n_seq_max q * sq_overlay_bytes_per_row q.
Proof.
  intros (H1 & H2 & H3 & H4 & H5 & H6 & H7 & H8) H. unfold tail_sizes_for in H. inv_ok. simpl.
  apply layout_for_Ok in E as (L1 & L2 & L3 & L4 & L5); [|done..].
  apply compact_layout_for_Ok in E0 as (C1 & C2 & C3 & C4); [|done..].
  apply checked_tail_bytes_Ok in E1 as [-> Hp]; [|lia..].
  assert (0 <= tl_sink_slots x) by (rewrite L3; destruct (1 <? _); lia).
  apply checked_tail_bytes_Ok in E2 as [-> _]; [|nia..].
  apply checked_tail_bytes_Ok in E3 as [-> _]; [|nia..].
  rewrite C2. repeat split; try done; nia.
Qed.

(** the storage plan, when one is returned: it is disabled exactly when there is
    nothing to retain or no body; every byte count is the exact product, never a
    wrapped one; an overlay is only planned for a graph that consumes it and a
    placement that supports it, and is as large as its slots; a native-exact body is
    chosen when the body is already exact or when the window is fully covered and
    promoting it costs no more than the overlay, and ends up unquantized. *)
Theorem storage_plan_sound q p :
  request_ok q -> llama_kv_tail_storage_plan_for q = Ok p ->
  (sp_kind p = STORAGE_DISABLED <->
     sq_effective_tokens q = 0 \/ sq_physical_body_rows q = 0 \/ (sq_has_owned_body q || sq_has_shared_body q = false)) /\
  sp_requested_body_bytes p = sq_physical_body_rows q * sq_requested_body_bytes_per_row q /\
  match sp_kind p with
  | STORAGE_DISABLED => sp_effective_tokens p = 0 /\ sp_shadow_bytes p = 0
  | STORAGE_NATIVE_EXACT =>
      (sq_already_exact q = true \/
       (0 < sq_visibility_window q <= sq_effective_tokens q /\ sq_native_capable q = true /\
        sp_promotion_increment p <= sp_overlay_increment p)) /\
      sp_actual_body_bytes p = sq_physical_body_rows q * (sq_requested_body_bytes_per_row q + sq_promotion_bytes_per_row q) /\
      ggml_is_quantized (sp_actual_body_type_k p) = Ok false /\
      ggml_is_quantized (sp_actual_body_type_v p) = Ok false /\ sp_shadow_bytes p = 0
  | STORAGE_OVERLAY =>
      sq_already_exact q = false /\ sq_graph_consumes_exact_tail q = true /\ sq_overlay_placement_supported q = true /\
      sp_shadow_bytes p = tl_total_slots (sp_layout p) * sq_overlay_bytes_per_row q /\
      sq_effective_tokens q + sq_n_ubatch q <= tl_arena_stride (sp_layout p) /\
      sp_actual_body_bytes p = sp_requested_body_bytes p
  | STORAGE_COMPACT_OVERLAY =>
      sq_already_exact q = false /\ sq_graph_consumes_exact_tail q = true /\ sq_overlay_placement_supported q = true /\
      sp_shadow_bytes p = (sq_effective_tokens q + sq_rollback_tokens q) * sq_n_seq_max q * sq_overlay_bytes_per_row q
  | STORAGE_COMPACT_NATIVE_EXACT =>
      0 < sq_visibility_window q <= sq_effective_tokens q /\ sq_full_window_body_can_be_omitted q = true /\
      sp_actual_body_bytes p = 0 /\ sp_has_owned_body p = false /\ sp_has_shared_body p = false /\
      sp_shadow_bytes p = (sq_effective_tokens q + sq_rollback_tokens q) * sq_n_seq_max q * sq_overlay_bytes_per_row q
  end.
Proof.
  intros Hq H. pose proof Hq as (H1 & H2 & H3 & H4 & H5 & H6 & H7 & H8).
  unfold llama_kv_tail_storage_plan_for in H. inv_ok. apply checked_tail_bytes_Ok in E as [-> Hb]; [|lia..].
  assert ((sq_effective_tokens q =? 0) || (sq_physical_body_rows q =? 0)
     || (negb (sq_has_owned_body q) && negb (sq_has_shared_body q)) = true <->
     sq_effective_tokens q = 0 \/ sq_physical_body_rows q = 0 \/ sq_has_owned_body q || sq_has_shared_body q = false) as Hoff.
  { rewrite !orb_true_iff, !Z.eqb_eq. destruct (sq_has_owned_body q), (sq_has_shared_body q); simpl; intuition done. }
  destruct (_ || _) eqn:Eoff in H, Hoff.
  { inv_ok. simpl. tauto. }
  inv_ok. apply require_Ok, orb_true_iff in E. rewrite !Z.eqb_eq in E.
  pose proof (promoted_exact _ _ _ E E1) as Pk. pose proof (promoted_exact _ _ _ E E2) as Pv.
  apply tail_sizes_Ok in E0 as (Z1 & Z2 & Z3 & Z4 & Z5 & Z6); [|done].
  set (pk := if x1 then _ else _) in *. set (pv := if x2 then _ else _) in *. clearbody pk pv.
  assert (forall k, k <> STORAGE_DISABLED -> k = STORAGE_DISABLED <-> sq_effective_tokens q = 0 \/
    sq_physical_body_rows q = 0 \/ sq_has_owned_body q || sq_has_shared_body q = false) as Hk.
  { intros k Hk. rewrite <- Hoff. done. }
  assert (forall plan, native_exact_plan q x0 pk pv = Ok plan -> sp_kind plan = STORAGE_NATIVE_EXACT /\
    sp_requested_body_bytes plan = sz_body_bytes x0 /\ sp_promotion_increment plan = sz_promotion x0 /\
    sp_overlay_increment plan = sz_overlay x0 /\
    sp_actual_body_bytes plan = sq_physical_body_rows q * (sq_requested_body_bytes_per_row q + sq_promotion_bytes_per_row q) /\
    sp_actual_body_type_k plan = pk /\ sp_actual_body_type_v plan = pv /\ sp_shadow_bytes plan = 0) as Hnative.
  { intros plan Hp. unfold native_exact_plan in Hp. inv_ok. simpl. apply require_Ok in E0. bprop.
    rewrite u64_id by nia. rewrite Z1, Z2. repeat split; try done. lia. }
  destruct (sq_already_exact q) eqn:Eexact.
  { apply Hnative in H as (-> & -> & -> & -> & -> & -> & -> & ->). split; [by apply Hk|]. rewrite Z1. auto 10. }
  destruct (sq_compact_history_capable q && _ && _).
  - destruct (_ && sq_full_window_body_can_be_omitted q) eqn:Efull.
    + inv_ok. simpl. bprop. split; [by apply Hk|]. rewrite Z1, Z6. auto 10.
    + unfold overlay_plan in H. inv_ok. simpl. apply require_Ok in E0, E3. split; [by apply Hk|]. rewrite Z1, Z6. auto 10.
  - destruct (_ && sq_native_capable q && _) eqn:Enat.
    + bprop. apply Hnative in H as (-> & -> & -> & -> & -> & -> & -> & ->). split; [by apply Hk|]. rewrite Z1.
      split; [done|]. split; [right; auto|]. auto.
    + unfold overlay_plan in H. inv_ok. simpl. apply require_Ok in E0, E3. split; [by apply Hk|]. rewrite Z1, Z5.
      split; [done|]. auto 10.
Qed.

Definition demo_request : llama_kv_tail_storage_request :=
  mk_storage_request 8 8 GGML_TYPE_F16 1024 1024 2 512 4096 4096 1000 900 1900
    true false true false true true true true 0 false false false false.

Lemma storage_plan_sound_witness : exists p,
  llama_kv_tail_storage_plan_for demo_request = Ok p /\ sp_kind p = STORAGE_OVERLAY /\
  sp_requested_body_bytes p = 4096 * 1000.
Proof.
  eexists. split; [vm_compute; reflexivity|]. split; [reflexivity|].
  apply (storage_plan_sound demo_request); [vm_compute; intuition discriminate | vm_compute; reflexivity].
Defined.

(** Routes and ownership: a route is available exactly when both writes are, and
    either the native operator or every generic operator is; the operation named as
    missing really is unavailable; and the ownership the planner gives a layer always
    passes the validation, with shadows owned by their bodies. *)
Theorem route_and_ownership_sound r layer body_k body_v shadow_k shadow_v :
  (cap_supported (llama_kv_tail_select_route r) =
     rq_write_k r && rq_write_v r && (rq_native_attention r ||
       (rq_gather_k r && rq_gather_v r && rq_body_score r && rq_body_value r && rq_exact_score r &&
        rq_exact_value r && rq_generic_merge r))) /\
  (cap_supported (llama_kv_tail_select_route r) = true <-> cap_missing (llama_kv_tail_select_route r) = OP_NONE) /\
  match cap_missing (llama_kv_tail_select_route r) with
  | OP_NONE => True
  | OP_WRITE_K => rq_write_k r = false
  | OP_WRITE_V => rq_write_v r = false
  | OP_GATHER_K => rq_gather_k r = false
  | OP_GATHER_V => rq_gather_v r = false
  | OP_BODY_SCORE => rq_body_score r = false
  | OP_BODY_VALUE => rq_body_value r = false
  | OP_EXACT_SCORE => rq_exact_score r = false
  | OP_EXACT_VALUE => rq_exact_value r = false
  | OP_GENERIC_MERGE => rq_generic_merge r = false
  | OP_NATIVE_ATTENTION => False
  end /\
  (body_v = 0 \/ body_v = body_k ->
   llama_kv_tail_validate_layer_ownership
     (llama_kv_tail_plan_layer_ownership layer body_k body_v shadow_k shadow_v) = OWNERSHIP_OK).
Proof.
  split; [|split; [|split]].
  - destruct r as [[] [] [] [] [] [] [] [] [] []]; reflexivity.
  - destruct r as [[] [] [] [] [] [] [] [] [] []]; done.
  - destruct r as [[] [] [] [] [] [] [] [] [] []]; done.
  - intros Hv. unfold llama_kv_tail_validate_layer_ownership, llama_kv_tail_plan_layer_ownership; simpl.
    destruct shadow_k, shadow_v, Hv; subst; rewrite ?Z.eqb_refl, ?andb_false_r, ?orb_false_r; simpl;
      rewrite ?Z.eqb_refl, ?andb_false_r; simpl; rewrite ?Z.eqb_refl, ?andb_false_r; done.
Qed.
