(* ===== verification/TailStore.v ===== *)
(** * llama_kv_tail_store (src/src/llama-kv-cache-tail.{h,cpp})

    Which compact slots hold the exact rows of each sequence's newest tokens.
    Per sequence the class keeps a list of exact entries in (position, insertion
    ordinal) order, a hash index from physical cell to list node, the slots of
    its arena in use, the rotating write cursor, degradation flags and the
    number of commits since degradation; for the whole store at most one pending
    sequence copy and, for compact storage, one batch transaction.

    The parallel vectors of the class are one list of per-sequence records here.
    A list iterator is the identity of the node it points to: a node's identity
    never changes and the index holds at most one node per cell, so
    dereferencing looks the node up by identity, and a missing node is a fault.
    An operation is a state transformer whose state survives an exception, as
    in the source; assertions and out-of-range accesses are faults. *)

From S2P Require Export Prelude TailPlan.
Open Scope Z_scope.

(** ** Data *)

Definition LLAMA_KV_TAIL_BODY_SLOT : Z := -1.

Definition DEGRADED_BODY_ONLY_STATE : Z := 1.
Definition DEGRADED_HISTORICAL_OP : Z := 2.
Definition DEGRADED_STATE_RESTORE : Z := 4.
Definition DEGRADED_PAYLOAD_INVALID : Z := 8.

Record tail_identity := mk_identity { id_stream : Z; id_cell : Z; id_generation : Z }.

#[global] Instance tail_identity_eq_dec : EqDecision tail_identity.
Proof. solve_decision. Defined.

Record exact_entry := mk_entry { e_id : tail_identity; e_pos : Z; e_ord : Z; e_slot : Z }.

(** The order every list of entries is kept in. *)
Definition entry_lt (a b : exact_entry) : bool :=
  (e_pos a <? e_pos b) || ((e_pos a =? e_pos b) && (e_ord a <? e_ord b)).

(** The [const] members. *)
Record tail_cfg := mk_cfg {
  g_n_tokens : Z;
  g_rollback : Z;
  g_history_limit : Z;
  g_stride : Z;
  g_n_slots : Z;
  g_compact : bool
}.

(** What the class keeps for one sequence. *)
Record seq_state := mk_seq {
  q_entries : list exact_entry;
  q_index : gmap Z tail_identity;
  q_used : list bool;
  q_cursor : Z;
  q_degr : Z;
  q_recov : Z
}.

Definition set_entries v q := mk_seq v (q_index q) (q_used q) (q_cursor q) (q_degr q) (q_recov q).
Definition set_qindex v q := mk_seq (q_entries q) v (q_used q) (q_cursor q) (q_degr q) (q_recov q).
Definition set_qused v q := mk_seq (q_entries q) (q_index q) v (q_cursor q) (q_degr q) (q_recov q).
Definition set_cursor v q := mk_seq (q_entries q) (q_index q) (q_used q) v (q_degr q) (q_recov q).
Definition set_degr d r q := mk_seq (q_entries q) (q_index q) (q_used q) (q_cursor q) d r.

Record slot_copy := mk_copy { cp_src_slot : Z; cp_dst_slot : Z }.

Record pending_seq_cp_state := mk_pending {
  pc_src : Z;
  pc_dst : Z;
  pc_destination : list exact_entry;
  pc_copies : list slot_copy;
  pc_acquired : list Z;
  pc_degr : Z;
  pc_recov : Z
}.

(** Saved vectors of a transaction, per sequence; the index is not saved. *)
Record saved_seq := mk_saved {
  sv_entries : list exact_entry;
  sv_used : list bool;
  sv_cursor : Z;
  sv_degr : Z;
  sv_recov : Z
}.

Record batch_transaction_state := mk_tx {
  tx_saved : list saved_seq;
  tx_current : list (list exact_entry);
  tx_affected : list bool
}.

Record tail_store := mk_store {
  t_cfg : tail_cfg;
  t_seqs : list seq_state;
  t_pending : option pending_seq_cp_state;
  t_batch : option batch_transaction_state;
  t_in_batch : bool
}.

Definition set_seqs v s := mk_store (t_cfg s) v (t_pending s) (t_batch s) (t_in_batch s).
Definition set_pending v s := mk_store (t_cfg s) (t_seqs s) v (t_batch s) (t_in_batch s).
Definition set_batch v s := mk_store (t_cfg s) (t_seqs s) (t_pending s) v (t_in_batch s).
Definition set_in_batch v s := mk_store (t_cfg s) (t_seqs s) (t_pending s) (t_batch s) v.

(** ** Construction *)

Definition fresh_seq (stride : Z) : seq_state := mk_seq [] ∅ (replicate (Z.to_nat stride) false) 0 0 0.

(** The constructor with separate sink slots. *)
Definition store_overlay (n_tokens n_seq_max arena_stride sink_slots : Z) : outcome tail_store :=
  n_slots ← checked_tail_slot_count arena_stride n_seq_max sink_slots;
  _ ← require_ InvalidArgument (negb ((0 <? n_tokens) && (arena_stride <? n_tokens)));
  Ok (mk_store (mk_cfg n_tokens 0 n_tokens arena_stride n_slots false)
        (replicate (Z.to_nat n_seq_max) (fresh_seq arena_stride)) None None false).

(** The constructor of the tests: the slots divide evenly. *)
Definition store_even (n_tokens n_seq_max n_slots : Z) : outcome tail_store :=
  s ← store_overlay n_tokens n_seq_max (if n_seq_max =? 0 then 0 else n_slots / n_seq_max)
        (if n_seq_max =? 0 then n_slots else n_slots mod n_seq_max);
  _ ← require_ InvalidArgument (negb ((n_seq_max =? 0) || negb (n_slots mod n_seq_max =? 0)));
  Ok s.

(** The constructor of compact storage. *)
Definition store_compact (n_tokens rollback n_seq_max history_stride sink_slots : Z) : outcome tail_store :=
  history_limit ← checked_tail_history_limit n_tokens rollback;
  n_slots ← checked_tail_slot_count history_stride n_seq_max sink_slots;
  _ ← require_ InvalidArgument (negb (history_stride <? history_limit));
  Ok (mk_store (mk_cfg n_tokens rollback history_limit history_stride n_slots true)
        (replicate (Z.to_nat n_seq_max) (fresh_seq history_stride)) None None false).

(** ** One sequence *)

Definition cell_key (stream cell : Z) : Z := Z.lor (Z.shiftl stream 32) cell.
Definition key_of (id : tail_identity) : Z := cell_key (id_stream id) (id_cell id).

(** [compact_storage ? history_limit : n_tokens] *)
Definition seq_limit (c : tail_cfg) : Z := if g_compact c then g_history_limit c else g_n_tokens c.

(** First slot of sequence [i]'s arena. *)
Definition arena_base (c : tail_cfg) (i : nat) : Z := u32 (Z.of_nat i * g_stride c).

(** [release] on the vector of used slots of sequence [i]. *)
Definition release_used (c : tail_cfg) (i : nat) (slot : Z) (used : list bool) : outcome (list bool) :=
  if slot <? 0 then Ok used else
  let base := arena_base c i in
  _ ← assert_ ((base <=? slot) && (slot <? u32 (base + g_stride c)));
  vec_set used (Z.to_nat (slot - base)) false.

Definition release (c : tail_cfg) (i : nat) (slot : Z) (q : seq_state) : outcome seq_state :=
  used ← release_used c i slot (q_used q);
  Ok (set_qused used q).

(** The loop of [acquire]: first free slot from the cursor on, cyclically. *)
Fixpoint acquire_loop (c : tail_cfg) (used : list bool) (cursor : Z) (offsets : list Z) : outcome (option Z) :=
  match offsets with
  | [] => Ok None
  | offset :: rest =>
      let local := u32 (cursor + offset) mod g_stride c in
      b ← vec_get used (Z.to_nat local);
      if (b : bool) then acquire_loop c used cursor rest else Ok (Some local)
  end.

Definition acquire (c : tail_cfg) (i : nat) (q : seq_state) : outcome (Z * seq_state) :=
  r ← acquire_loop c (q_used q) (q_cursor q) (seqZ 0 (g_stride c));
  match r with
  | Some local =>
      used ← vec_set (q_used q) (Z.to_nat local) true;
      Ok (to_i32 (u32 (arena_base c i + local)),
          set_cursor (u32 (local + 1) mod g_stride c) (set_qused used q))
  | None => Err RuntimeError
  end.

(** A computation that changes nothing when it fails. *)
Definition lift_seq (f : seq_state -> outcome seq_state) : stx seq_state unit := fun q =>
  match f q with Ok q' => (Ok tt, q') | Err e => (Err e, q) end.

(** The index gets the entries one by one; a repeated cell throws, and leaves the
    index half built. *)
Fixpoint rebuild_loop (l : list exact_entry) : stx seq_state unit := fun q =>
  match l with
  | [] => (Ok tt, q)
  | e :: l' =>
      match q_index q !! key_of (e_id e) with
      | Some _ => (Err LogicError, q)
      | None => rebuild_loop l' (set_qindex (<[key_of (e_id e) := e_id e]> (q_index q)) q)
      end
  end.

Definition rebuild_index : stx seq_state unit := fun q => rebuild_loop (q_entries q) (set_qindex ∅ q).

(** The node an iterator points to. *)
Definition find_node (id : tail_identity) (l : list exact_entry) : outcome exact_entry :=
  match List.find (fun e => bool_decide (e_id e = id)) l with Some e => Ok e | None => Err OutOfBounds end.

(** [entries.erase(node)] *)
Fixpoint erase_node (id : tail_identity) (l : list exact_entry) : list exact_entry :=
  match l with
  | [] => []
  | e :: l' => if decide (e_id e = id) then l' else e :: erase_node id l'
  end.

(** Overwrite a node in place. *)
Fixpoint update_node (id : tail_identity) (f : exact_entry -> exact_entry) (l : list exact_entry) : list exact_entry :=
  match l with
  | [] => []
  | e :: l' => if decide (e_id e = id) then f e :: l' else e :: update_node id f l'
  end.

Definition erase_entry (c : tail_cfg) (i : nat) (id : tail_identity) (release_slot : bool) (q : seq_state)
    : outcome seq_state :=
  e ← find_node id (q_entries q);
  q ← (if release_slot then release c i (e_slot e) q else Ok q);
  Ok (set_entries (erase_node id (q_entries q)) (set_qindex (delete (key_of (e_id e)) (q_index q)) q)).

(** [while (entries.size() > limit)]; [fuel] is the number of entries. *)
Fixpoint trim_loop (c : tail_cfg) (i : nat) (limit : Z) (fuel : nat) (q : seq_state) : outcome seq_state :=
  match fuel with
  | O => Ok q
  | S fuel =>
      if limit <? Z.of_nat (length (q_entries q)) then
        match q_entries q with
        | [] => Err OutOfBounds
        | front :: rest =>
            q ← release c i (e_slot front) (set_qindex (delete (key_of (e_id front)) (q_index q)) q);
            trim_loop c i limit fuel (set_entries rest q)
        end
      else Ok q
  end.

Definition trim (c : tail_cfg) (i : nat) (limit : Z) (q : seq_state) : outcome seq_state :=
  trim_loop c i limit (length (q_entries q)) q.

(** Loops that erase entries and release their slots. *)
Definition remove_entries (c : tail_cfg) (i : nat) (P : exact_entry -> bool) (q : seq_state)
    : outcome (bool * seq_state) :=
  r ← foldM (fun '(kept, used, removed) e =>
        if P e then used ← release_used c i (e_slot e) used; Ok (kept, used, true)
        else Ok (kept ++ [e], used, removed)) (q_entries q) ([], q_used q, false);
  let '(kept, used, removed) := r in
  Ok (removed, set_entries kept (set_qused used q)).

(** [std::find_if] for the first greater entry, and [entries.insert] there. *)
Fixpoint insert_before_greater (x : exact_entry) (l : list exact_entry) : list exact_entry :=
  match l with
  | [] => [x]
  | e :: l' => if entry_lt x e then x :: l else e :: insert_before_greater x l'
  end.

(** The slot of the retained entry of a cell, or the body slot. *)
Definition retained_slot (id : tail_identity) (q : seq_state) : outcome Z :=
  match q_index q !! key_of id with
  | Some nid => e ← find_node nid (q_entries q);
                if decide (e_id e = id) then Ok (e_slot e) else Ok LLAMA_KV_TAIL_BODY_SLOT
  | None => Ok LLAMA_KV_TAIL_BODY_SLOT
  end.

Definition sort_entries (q : seq_state) : seq_state := set_entries (stable_sort entry_lt (q_entries q)) q.

(** [on_seq i m] runs [m] on the record of sequence [i]. *)
Definition on_seq {A} (i : nat) (m : stx seq_state A) : stx tail_store A := fun s =>
  match t_seqs s !! i with
  | None => (Err OutOfBounds, s)
  | Some q => let '(r, q') := m q in (r, set_seqs (<[i := q']> (t_seqs s)) s)
  end.

(** [for (i in l) f(i)] *)
Fixpoint forX {S} (f : nat -> stx S unit) (l : list nat) : stx S unit :=
  match l with
  | [] => mret tt
  | i :: l' => f i;; forX f l'
  end.

Definition for_seqs (f : nat -> stx tail_store unit) : stx tail_store unit := fun s =>
  forX f (seq 0 (length (t_seqs s))) s.

Definition valid_seq (s : tail_store) (seq_id : Z) : bool :=
  (0 <=? seq_id) && (seq_id <? Z.of_nat (length (t_seqs s))).

(** ** Commit *)

(** The first branch: the cell's entry is already this identity. *)
Definition commit_existing (c : tail_cfg) (i : nat) (id : tail_identity) (position ordinal : Z)
    (q : seq_state) : outcome (Z * seq_state) :=
  _ ← find_node id (q_entries q);
  let q := set_entries (update_node id (fun e => mk_entry (e_id e) position ordinal (e_slot e)) (q_entries q)) q in
  q ← trim c i (seq_limit c) (sort_entries q);
  r ← retained_slot id q;
  Ok (r, q).

(** Slot of a new entry: the evicted front's, or a free one. *)
Definition take_slot (c : tail_cfg) (i : nat) (in_batch : bool) (q : seq_state) : outcome (Z * seq_state) :=
  match q_entries q with
  | victim :: _ =>
      if (g_compact c || negb in_batch) && (seq_limit c <=? Z.of_nat (length (q_entries q))) then
        q ← erase_entry c i (e_id victim) false q;
        Ok (e_slot victim, q)
      else acquire c i q
  | [] => acquire c i q
  end.

(** Insertion in order: at the back when nothing there is greater. *)
Definition insert_entry (x : exact_entry) (l : list exact_entry) : list exact_entry :=
  match last l with
  | None => [x]
  | Some back =>
      if (e_pos back <? e_pos x) || ((e_pos back =? e_pos x) && (e_ord back <=? e_ord x))
      then l ++ [x] else insert_before_greater x l
  end.

Definition append_entry (x : exact_entry) (q : seq_state) : seq_state :=
  set_entries (insert_entry x (q_entries q)) (set_qindex (<[key_of (e_id x) := e_id x]> (q_index q)) q).

(** [if (degradation != 0 && ++recovery >= n_tokens)] *)
Definition count_recovery (c : tail_cfg) (q : seq_state) : seq_state :=
  if q_degr q =? 0 then q else
  let recov := u32 (q_recov q + 1) in
  if g_n_tokens c <=? recov then set_degr 0 0 q else set_degr (q_degr q) recov q.

(** The second branch. A failing [acquire] leaves the erased duplicate erased. *)
Definition commit_new (c : tail_cfg) (i : nat) (in_batch : bool) (id : tail_identity) (position ordinal : Z)
    : stx seq_state Z :=
  q ← stx_get;
  match q_index q !! key_of id with
  | Some nid => lift_seq (erase_entry c i nid true)
  | None => mret tt
  end;;
  q ← stx_get;
  r ← stx_lift (take_slot c i in_batch q);
  stx_put (count_recovery c (append_entry (mk_entry id position ordinal r.1) r.2));;
  (if in_batch then mret tt else lift_seq (trim c i (seq_limit c)));;
  q ← stx_get;
  stx_lift (retained_slot id q).

Definition commit_seq (c : tail_cfg) (i : nat) (in_batch : bool) (id : tail_identity) (position ordinal : Z)
    : stx seq_state Z := fun q =>
  match q_index q !! key_of id with
  | Some nid =>
      if decide (nid = id) then
        match commit_existing c i id position ordinal q with
        | Ok (r, q') => (Ok r, q')
        | Err e => (Err e, q)
        end
      else commit_new c i in_batch id position ordinal q
  | None => commit_new c i in_batch id position ordinal q
  end.

(** Inside a compact batch the committed row is also remembered as a row of the
    current graph. *)
Definition record_current (i : nat) (id : tail_identity) (position ordinal current_row result : Z)
    : stx tail_store unit := fun s =>
  match t_batch s with
  | Some tx =>
      if negb (current_row =? UINT32_MAX) && (0 <=? result) then
        let virtual_slot := u64 (g_n_slots (t_cfg s) + current_row) in
        if INT32_MAX <? virtual_slot then (Err OverflowError, s) else
        match tx_current tx !! i, tx_affected tx !! i with
        | Some cur, Some _ =>
            (Ok tt, set_batch (Some (mk_tx (tx_saved tx)
              (<[i := cur ++ [mk_entry id position ordinal virtual_slot]]> (tx_current tx))
              (<[i := true]> (tx_affected tx)))) s)
        | _, _ => (Err OutOfBounds, s)
        end
      else (Ok tt, s)
  | None => (Ok tt, s)
  end.

Definition commit (seq_id : Z) (id : tail_identity) (position ordinal current_row : Z) : stx tail_store Z :=
  s ← stx_get;
  if negb (valid_seq s seq_id) || (g_n_tokens (t_cfg s) =? 0) then mret LLAMA_KV_TAIL_BODY_SLOT else
  let i := Z.to_nat seq_id in
  result ← on_seq i (commit_seq (t_cfg s) i (t_in_batch s) id position ordinal);
  record_current i id position ordinal current_row result;;
  mret result.

(** ** Whole-store operations *)

(** [cancel_seq_cp]: acquired slots are released; the write cursor stays. *)
Definition release_all (c : tail_cfg) (i : nat) (slots : list Z) (q : seq_state) : outcome seq_state :=
  foldM (fun q slot => release c i slot q) slots q.

Definition cancel_seq_cp : stx tail_store unit := fun s =>
  match t_pending s with
  | None => (Ok tt, s)
  | Some p =>
      (on_seq (Z.to_nat (pc_dst p)) (lift_seq (release_all (t_cfg s) (Z.to_nat (pc_dst p)) (pc_acquired p)));;
       stx_modify (set_pending None)) s
  end.

Definition clear_seq (q : seq_state) : seq_state :=
  mk_seq [] ∅ ((fun _ => false) <$> q_used q) 0 0 0.

Definition clear : stx tail_store unit :=
  cancel_seq_cp;;
  stx_modify (fun s => mk_store (t_cfg s) (clear_seq <$> t_seqs s) None None false).

Definition mark_seq (flags : Z) (q : seq_state) : seq_state := set_degr (Z.lor (q_degr q) flags) 0 q.

Definition mark_pending (flags : Z) (p : pending_seq_cp_state) : pending_seq_cp_state :=
  mk_pending (pc_src p) (pc_dst p) (pc_destination p) (pc_copies p) (pc_acquired p) (Z.lor (pc_degr p) flags) 0.

Definition mark_degraded (seq_id flags : Z) : stx tail_store unit :=
  s ← stx_get;
  if seq_id <? 0 then
    stx_modify (fun s => set_pending (mark_pending flags <$> t_pending s)
                           (set_seqs (mark_seq flags <$> t_seqs s) s))
  else if valid_seq s seq_id then
    match t_pending s with
    | Some p =>
        if pc_dst p =? seq_id then stx_put (set_pending (Some (mark_pending flags p)) s)
        else on_seq (Z.to_nat seq_id) (stx_modify (mark_seq flags))
    | None => on_seq (Z.to_nat seq_id) (stx_modify (mark_seq flags))
    end
  else mret tt.

Definition invalidate_seq (c : tail_cfg) (invalid : list Z) (flags : Z) (i : nat) : stx seq_state unit :=
  q ← stx_get;
  r ← stx_lift (remove_entries c i (fun e => bool_decide (e_slot e ∈ invalid)) q);
  stx_put r.2;;
  if (r.1 : bool) then rebuild_index;; stx_modify (mark_seq flags) else mret tt.

Definition invalidate_slots (slots : list Z) (flags : Z) : stx tail_store unit :=
  s ← stx_get;
  for_seqs (fun i => on_seq i (invalidate_seq (t_cfg s) slots flags i)).

(** ** Batch transactions *)

Definition save_seq (q : seq_state) : saved_seq :=
  mk_saved (q_entries q) (q_used q) (q_cursor q) (q_degr q) (q_recov q).

Definition begin_batch : stx tail_store unit :=
  s ← stx_get;
  (if g_compact (t_cfg s) then
     match t_batch s with
     | Some _ => stx_throw LogicError
     | None => stx_put (set_batch (Some (mk_tx (save_seq <$> t_seqs s)
                 ((fun _ => []) <$> t_seqs s) ((fun _ => false) <$> t_seqs s))) s)
     end
   else mret tt);;
  for_seqs (fun i => on_seq i (lift_seq (trim (t_cfg s) i (seq_limit (t_cfg s)))));;
  stx_modify (set_in_batch true).

(** The saved vectors are moved back; the index keeps what it had. *)
Definition restore_seq (v : saved_seq) (q : seq_state) : seq_state :=
  mk_seq (sv_entries v) (q_index q) (sv_used v) (sv_cursor v) (sv_degr v) (sv_recov v).

(** After a failure that may have overwritten exact rows, a touched sequence loses them. *)
Definition drop_payload (c : tail_cfg) (i : nat) : stx seq_state unit :=
  lift_seq (fun q =>
    q ← release_all c i (e_slot <$> q_entries q) q;
    Ok (set_degr (Z.lor (q_degr q) DEGRADED_PAYLOAD_INVALID) 0 (set_entries [] (set_qindex ∅ q)))).

Definition finish_batch (success payload_may_be_modified : bool) : stx tail_store unit :=
  s ← stx_get;
  if negb (g_compact (t_cfg s)) then stx_modify (set_in_batch false) else
  match t_batch s with
  | None => mret tt
  | Some tx =>
      (if success then mret tt else
         stx_put (set_seqs (zip_with restore_seq (tx_saved tx) (t_seqs s)) s);;
         for_seqs (fun i =>
           on_seq i rebuild_index;;
           match tx_affected tx !! i with
           | None => stx_throw OutOfBounds
           | Some affected =>
               if negb payload_may_be_modified || negb affected then mret tt
               else on_seq i (drop_payload (t_cfg s) i)
           end));;
      stx_modify (fun s => set_in_batch false (set_batch None s))
  end.

(** A new generation in a body cell kills the exact rows of the old one. *)
Definition recycle_seq (stream cell next_generation : Z) (i : nat) : stx tail_store unit :=
  s ← stx_get;
  match t_seqs s !! i with
  | None => stx_throw OutOfBounds
  | Some q =>
      match q_index q !! cell_key stream cell with
      | None => mret tt
      | Some nid =>
          if id_generation nid =? next_generation then mret tt else
          (match t_batch s with
           | None => mret tt
           | Some tx =>
               match tx_affected tx !! i with
               | None => stx_throw OutOfBounds
               | Some _ => stx_put (set_batch (Some (mk_tx (tx_saved tx) (tx_current tx)
                             (<[i := true]> (tx_affected tx)))) s)
               end
           end);;
          on_seq i (lift_seq (erase_entry (t_cfg s) i nid true))
      end
  end.

Definition recycle (stream cell next_generation : Z) : stx tail_store unit :=
  for_seqs (recycle_seq stream cell next_generation).

(** ** Copying a sequence *)

(** [entry.position < p0 || (p1 >= 0 && entry.position >= p1)] *)
Definition outside (p0 p1 : Z) (e : exact_entry) : bool :=
  (e_pos e <? p0) || ((0 <=? p1) && (p1 <=? e_pos e)).

Record retained_candidate := mk_cand { cd_entry : exact_entry; cd_src_slot : Z; cd_copied : bool }.

Definition cand_lt (a b : retained_candidate) : bool := entry_lt (cd_entry a) (cd_entry b).

Definition copy_entry (dst_stream : Z) (e : exact_entry) : exact_entry :=
  mk_entry (mk_identity dst_stream (id_cell (e_id e)) (id_generation (e_id e))) (e_pos e) (e_ord e)
    LLAMA_KV_TAIL_BODY_SLOT.

(** Survivors of the destination and copies of the source, sorted, newest kept. *)
Definition cp_candidates (c : tail_cfg) (src_entries dst_entries : list exact_entry)
    (src_stream dst_stream p0 p1 : Z) : list retained_candidate :=
  let source := filter (fun e => negb (negb (id_stream (e_id e) =? src_stream) || outside p0 p1 e)) src_entries in
  let kept := (fun e => mk_cand e (e_slot e) false) <$> filter (fun e => outside p0 p1 e) dst_entries in
  let copied := (fun e => mk_cand (copy_entry dst_stream e) (e_slot e) true) <$> source in
  let candidates := stable_sort cand_lt (kept ++ copied) in
  drop (length candidates - Z.to_nat (seq_limit c)) candidates.

(** Slots of the destination that no survivor keeps. *)
Definition cp_reusable (cands : list retained_candidate) (dst_entries : list exact_entry) : list Z :=
  let survivors := (fun cd => e_slot (cd_entry cd)) <$> filter (fun cd => cd_copied cd = false) cands in
  e_slot <$> filter (fun e => e_slot e ∉ survivors) dst_entries.

Record placement := mk_placement {
  pl_reusable : list Z; pl_acquired : list Z; pl_copies : list slot_copy; pl_dest : list exact_entry
}.

Definition with_slot (e : exact_entry) (slot : Z) : exact_entry := mk_entry (e_id e) (e_pos e) (e_ord e) slot.

(** The loop over the retained candidates; when the arena is exhausted the slots
    acquired so far are released and the exception goes on. *)
Fixpoint place_candidates (c : tail_cfg) (dst : nat) (cands : list retained_candidate) (pl : placement)
    : stx seq_state placement := fun q =>
  match cands with
  | [] => (Ok pl, q)
  | cd :: rest =>
      if cd_copied cd then
        match last (pl_reusable pl) with
        | Some slot =>
            place_candidates c dst rest
              (mk_placement (removelast (pl_reusable pl)) (pl_acquired pl)
                 (pl_copies pl ++ [mk_copy (cd_src_slot cd) slot]) (pl_dest pl ++ [with_slot (cd_entry cd) slot])) q
        | None =>
            match acquire c dst q with
            | Ok (slot, q) =>
                place_candidates c dst rest
                  (mk_placement (pl_reusable pl) (pl_acquired pl ++ [slot])
                     (pl_copies pl ++ [mk_copy (cd_src_slot cd) slot]) (pl_dest pl ++ [with_slot (cd_entry cd) slot])) q
            | Err f =>
                match release_all c dst (pl_acquired pl) q with
                | Ok q => (Err f, q)
                | Err f' => (Err f', q)
                end
            end
        end
      else
        place_candidates c dst rest
          (mk_placement (pl_reusable pl) (pl_acquired pl) (pl_copies pl) (pl_dest pl ++ [cd_entry cd])) q
  end.

Definition prepare_seq_cp (src dst src_stream dst_stream p0 p1 : Z) : stx tail_store (list slot_copy) :=
  s ← stx_get;
  if negb (valid_seq s src) || negb (valid_seq s dst) || (src =? dst) then mret [] else
  match t_pending s with
  | Some _ => stx_throw LogicError
  | None =>
      qs ← stx_lift (vec_get (t_seqs s) (Z.to_nat src));
      qd ← stx_lift (vec_get (t_seqs s) (Z.to_nat dst));
      let cands := cp_candidates (t_cfg s) (q_entries qs) (q_entries qd) src_stream dst_stream p0 p1 in
      pl ← on_seq (Z.to_nat dst) (place_candidates (t_cfg s) (Z.to_nat dst) cands
             (mk_placement (cp_reusable cands (q_entries qd)) [] [] []));
      let degr := Z.lor (q_degr qd) (q_degr qs) in
      stx_modify (set_pending (Some (mk_pending src dst (pl_dest pl) (pl_copies pl) (pl_acquired pl) degr
        (if degr =? 0 then Z.min (q_recov qd) (q_recov qs) else 0))));;
      mret (pl_copies pl)
  end.

(** The destination takes over its prepared entries; slots it no longer uses are released. *)
Definition install_destination (c : tail_cfg) (dst : nat) (p : pending_seq_cp_state) : stx seq_state unit :=
  lift_seq (fun q =>
    q ← release_all c dst (filter (fun s => s ∉ e_slot <$> pc_destination p) (e_slot <$> q_entries q)) q;
    Ok (set_entries (pc_destination p) q));;
  rebuild_index;;
  stx_modify (set_degr (pc_degr p) (pc_recov p)).

Definition commit_seq_cp : stx tail_store unit := fun s =>
  match t_pending s with
  | None => (Ok tt, s)
  | Some p => on_seq (Z.to_nat (pc_dst p)) (install_destination (t_cfg s) (Z.to_nat (pc_dst p)) p) (set_pending None s)
  end.

Definition pending_seq_cp_destination (s : tail_store) : Z :=
  match t_pending s with Some p => pc_dst p | None => -1 end.

Definition seq_cp_remap (src dst src_stream dst_stream p0 p1 : Z) : stx tail_store (list slot_copy) :=
  r ← prepare_seq_cp src dst src_stream dst_stream p0 p1;
  commit_seq_cp;;
  mret r.

Definition seq_cp (src dst p0 p1 : Z) : stx tail_store unit :=
  s ← stx_get;
  if negb (valid_seq s src) || negb (valid_seq s dst) || (src =? dst) then mret tt else
  qs ← stx_lift (vec_get (t_seqs s) (Z.to_nat src));
  let src_stream := match q_entries qs with [] => 0 | e :: _ => id_stream (e_id e) end in
  seq_cp_remap src dst src_stream src_stream p0 p1;;
  mret tt.

(** ** Removing, keeping, shifting, dividing *)

(** [position >= p0 && (p1 < 0 || position < p1)] *)
Definition in_range (p0 p1 : Z) (e : exact_entry) : bool :=
  (p0 <=? e_pos e) && ((p1 <? 0) || (e_pos e <? p1)).

Definition seq_rm_seq (c : tail_cfg) (i : nat) (p0 p1 : Z) : stx seq_state unit :=
  q ← stx_get;
  r ← stx_lift (remove_entries c i (in_range p0 p1) q);
  stx_put r.2;;
  rebuild_index;;
  q ← stx_get;
  match q_entries q with
  | [] => if (p0 <=? 0) && (p1 <? 0) then stx_put (set_degr 0 0 q) else mret tt
  | _ => mret tt
  end.

Definition seq_rm (seq_id p0 p1 : Z) : stx tail_store unit :=
  s ← stx_get;
  if negb (valid_seq s seq_id) then mret tt
  else on_seq (Z.to_nat seq_id) (seq_rm_seq (t_cfg s) (Z.to_nat seq_id) p0 p1).

Definition seq_rm_cell (seq_id stream cell : Z) : stx tail_store unit :=
  s ← stx_get;
  if negb (valid_seq s seq_id) then mret tt
  else on_seq (Z.to_nat seq_id)
    (q ← stx_get;
     r ← stx_lift (remove_entries (t_cfg s) (Z.to_nat seq_id)
           (fun e => (id_stream (e_id e) =? stream) && (id_cell (e_id e) =? cell)) q);
     stx_put r.2;;
     rebuild_index).

Definition seq_keep (seq_id : Z) : stx tail_store unit :=
  for_seqs (fun current => if Z.of_nat current =? seq_id then mret tt else seq_rm (Z.of_nat current) 0 (-1)).

(** Identities of the entries of a sequence in a range. *)
Definition range_identities (q : seq_state) (p0 p1 : Z) : list tail_identity :=
  e_id <$> filter (fun e => in_range p0 p1 e) (q_entries q).

(** The loop over one list: shift the named entries, drop those that become negative. *)
Definition shift_entries (c : tail_cfg) (i : nat) (ids : list tail_identity) (shift : Z) (q : seq_state)
    : outcome (bool * seq_state) :=
  r ← foldM (fun '(kept, used, touched) e =>
        if decide (e_id e ∈ ids) then
          p ← i32 (e_pos e + shift);
          if p <? 0 then used ← release_used c i (e_slot e) used; Ok (kept, used, true)
          else Ok (kept ++ [mk_entry (e_id e) p (e_ord e) (e_slot e)], used, true)
        else Ok (kept ++ [e], used, touched)) (q_entries q) ([], q_used q, false);
  let '(kept, used, touched) := r in
  Ok (touched, set_entries kept (set_qused used q)).

Definition divide_entries (ids : list tail_identity) (divisor : Z) (q : seq_state) : outcome (bool * seq_state) :=
  r ← foldM (fun '(done_, touched) e =>
        if decide (e_id e ∈ ids) then
          p ← i32_div (e_pos e) divisor;
          Ok (done_ ++ [mk_entry (e_id e) p (e_ord e) (e_slot e)], true)
        else Ok (done_ ++ [e], touched)) (q_entries q) ([], false);
  Ok (r.2, set_entries r.1 q).

(** What follows a list that was touched. *)
Definition resettle (c : tail_cfg) (i : nat) (degrade : bool) : stx seq_state unit :=
  lift_seq (fun q => trim c i (seq_limit c) (sort_entries q));;
  rebuild_index;;
  if degrade then stx_modify (mark_seq DEGRADED_HISTORICAL_OP) else mret tt.

Definition seq_add (seq_id p0 p1 shift : Z) : stx tail_store unit :=
  s ← stx_get;
  if negb (valid_seq s seq_id) then mret tt else
  q ← stx_lift (vec_get (t_seqs s) (Z.to_nat seq_id));
  let ids := range_identities q p0 p1 in
  let degrade := negb (shift =? 0) && negb ((p0 <=? 0) && (p1 <? 0)) in
  for_seqs (fun i => on_seq i
    (q ← stx_get;
     r ← stx_lift (shift_entries (t_cfg s) i ids shift q);
     stx_put r.2;;
     if (r.1 : bool) then resettle (t_cfg s) i degrade else mret tt)).

Definition seq_div (seq_id p0 p1 divisor : Z) : stx tail_store unit :=
  s ← stx_get;
  if negb (valid_seq s seq_id) || (divisor =? 0) then mret tt else
  q ← stx_lift (vec_get (t_seqs s) (Z.to_nat seq_id));
  let ids := range_identities q p0 p1 in
  let degrade := negb (divisor =? 1) && negb ((p0 <=? 0) && (p1 <? 0)) in
  for_seqs (fun i => on_seq i
    (q ← stx_get;
     r ← stx_lift (divide_entries ids divisor q);
     stx_put r.2;;
     if (r.1 : bool) then resettle (t_cfg s) i degrade else mret tt)).

(** ** Restoring a saved state *)

Definition restore (seq_id : Z) (id : tail_identity) (position ordinal local_slot : Z) : stx tail_store Z :=
  s ← stx_get;
  let c := t_cfg s in
  if negb (valid_seq s seq_id) || (g_stride c <=? local_slot) || t_in_batch s
     || bool_decide (t_pending s <> None) || bool_decide (t_batch s <> None)
  then stx_throw InvalidArgument else
  q ← stx_lift (vec_get (t_seqs s) (Z.to_nat seq_id));
  used ← stx_lift (if g_history_limit c <=? Z.of_nat (length (q_entries q)) then Ok true
                   else vec_get (q_used q) (Z.to_nat local_slot));
  if (used : bool) || bool_decide (q_index q !! key_of id <> None) then stx_throw RuntimeError else
  let slot := to_i32 (u32 (arena_base c (Z.to_nat seq_id) + local_slot)) in
  on_seq (Z.to_nat seq_id) (stx_modify (fun q =>
    mk_seq (insert_before_greater (mk_entry id position ordinal slot) (q_entries q))
      (<[key_of id := id]> (q_index q)) (<[Z.to_nat local_slot := true]> (q_used q))
      (q_cursor q) (q_degr q) (q_recov q)));;
  mret slot.

Definition state_write_cursor (s : tail_store) (seq_id : Z) : outcome Z :=
  _ ← require_ OutOfRange (valid_seq s seq_id);
  q ← vec_get (t_seqs s) (Z.to_nat seq_id);
  Ok (q_cursor q).

Definition restore_write_cursor (seq_id cursor : Z) : stx tail_store unit :=
  s ← stx_get;
  if negb (valid_seq s seq_id) || (g_stride (t_cfg s) <=? cursor) || t_in_batch s
     || bool_decide (t_pending s <> None) || bool_decide (t_batch s <> None)
  then stx_throw InvalidArgument
  else on_seq (Z.to_nat seq_id) (stx_modify (set_cursor cursor)).

(** Drops every entry of the sequence, then the cursor goes back to 0. *)
Definition reset_write_cursor (seq_id : Z) : stx tail_store unit :=
  s ← stx_get;
  if negb (valid_seq s seq_id) || bool_decide (t_pending s <> None) || bool_decide (t_batch s <> None)
  then mret tt
  else seq_rm seq_id (-1) (-1);; on_seq (Z.to_nat seq_id) (stx_modify (set_cursor 0)).

Record tail_provenance := mk_provenance { pv_seq_id : Z; pv_degr : Z; pv_recov : Z }.

(** The flags [restore_provenance] accepts: not [DEGRADED_PAYLOAD_INVALID]. *)
Definition known_flags : Z :=
  Z.lor (Z.lor DEGRADED_BODY_ONLY_STATE DEGRADED_HISTORICAL_OP) DEGRADED_STATE_RESTORE.

Definition check_provenance (s : tail_store) (seen : gset Z) (pv : tail_provenance) : outcome (gset Z) :=
  _ ← require_ RuntimeError
        (negb (negb (valid_seq s (pv_seq_id pv)) || negb (Z.ldiff (pv_degr pv) known_flags =? 0)
               || (g_n_tokens (t_cfg s) <? pv_recov pv)
               || ((pv_degr pv =? 0) && negb (pv_recov pv =? 0))));
  _ ← require_ RuntimeError (negb (bool_decide (pv_seq_id pv ∈ seen)));
  Ok ({[pv_seq_id pv]} ∪ seen).

Definition set_provenance (i : nat) (pv : tail_provenance) : stx tail_store unit :=
  on_seq i (stx_modify (set_degr (pv_degr pv) (pv_recov pv))).

Fixpoint set_provenances (l : list tail_provenance) : stx tail_store unit :=
  match l with
  | [] => mret tt
  | pv :: l' => set_provenance (Z.to_nat (pv_seq_id pv)) pv;; set_provenances l'
  end.

Definition restore_provenance (provenance : list tail_provenance) (dest_seq_id : Z) : stx tail_store unit :=
  s ← stx_get;
  stx_lift (foldM (check_provenance s) provenance ∅);;
  if 0 <=? dest_seq_id then
    match provenance with
    | [pv] => if valid_seq s dest_seq_id then set_provenance (Z.to_nat dest_seq_id) pv else stx_throw RuntimeError
    | _ => stx_throw RuntimeError
    end
  else
    stx_modify (fun s => set_seqs (set_degr 0 0 <$> t_seqs s) s);;
    set_provenances provenance.

#[global] Instance tail_cfg_eq_dec : EqDecision tail_cfg.
Proof. solve_decision. Defined.

(** The destination takes the vectors of the source and rebuilds the indices. *)
Definition clone_logical_state_from (source : tail_store) : stx tail_store unit :=
  s ← stx_get;
  if negb (bool_decide (t_cfg s = t_cfg source)) || negb (length (t_seqs s) =? length (t_seqs source))%nat
  then stx_throw RuntimeError else
  if t_in_batch source || bool_decide (t_pending source <> None) || bool_decide (t_batch source <> None)
  then stx_throw RuntimeError else
  stx_put (mk_store (t_cfg s) (zip_with restore_seq (save_seq <$> t_seqs source) (t_seqs s)) None None false);;
  for_seqs (fun i => on_seq i rebuild_index).

Definition clone_logical_state (s : tail_store) : outcome tail_store :=
  let c := t_cfg s in
  let n_seq_max := u32 (Z.of_nat (length (t_seqs s))) in
  let sink_slots := u32 (g_n_slots c - u32 (g_stride c * n_seq_max)) in
  r ← (if g_compact c then store_compact (g_n_tokens c) (g_rollback c) n_seq_max (g_stride c) sink_slots
       else store_overlay (g_n_tokens c) n_seq_max (g_stride c) sink_slots);
  match clone_logical_state_from s r with
  | (Ok _, r') => Ok r'
  | (Err f, _) => Err f
  end.

(** ** Queries *)

(** Candidates are the visible identities the sequence has an entry for. *)
Definition plan_lt (a b : nat * exact_entry) : bool := entry_lt a.2 b.2.

Definition build_source_plan (s : tail_store) (seq_id : Z) (visible : list tail_identity) : outcome (list Z) :=
  let result := replicate (length visible) LLAMA_KV_TAIL_BODY_SLOT in
  if negb (valid_seq s seq_id) || (g_n_tokens (t_cfg s) =? 0) then Ok result else
  q ← vec_get (t_seqs s) (Z.to_nat seq_id);
  let candidates := omap (fun x : nat * tail_identity =>
      pair x.1 <$> List.find (fun e => bool_decide (e_id e = x.2)) (q_entries q)) (imap pair visible) in
  let sorted := stable_sort plan_lt candidates in
  Ok (foldl (fun r x => <[x.1 := e_slot x.2]> r) result
        (drop (length sorted - Z.to_nat (g_n_tokens (t_cfg s))) sorted)).

Inductive coverage_state := COVERAGE_NONE | COVERAGE_PARTIAL | COVERAGE_COMPLETE.

Record tail_coverage := mk_coverage {
  cv_state : coverage_state; cv_requested : Z; cv_exact : Z; cv_flags : Z
}.

(** Entries and flags a query sees: those of the pending copy for its destination. *)
Definition pending_for (s : tail_store) (seq_id : Z) : option pending_seq_cp_state :=
  match t_pending s with Some p => if pc_dst p =? seq_id then Some p else None | None => None end.

Definition coverage (s : tail_store) (seq_id available : Z) : outcome tail_coverage :=
  ef ← (if valid_seq s seq_id then
          match pending_for s seq_id with
          | Some p => Ok (Z.of_nat (length (pc_destination p)), pc_degr p)
          | None => q ← vec_get (t_seqs s) (Z.to_nat seq_id);
                    Ok (Z.of_nat (length (q_entries q)), q_degr q)
          end
        else Ok (0, 0));
  let exact := ef.1 in
  let flags := ef.2 in
  let requested := Z.min (g_n_tokens (t_cfg s)) available in
  let state := if exact =? 0 then COVERAGE_NONE
               else if (requested <=? exact) && (flags =? 0) then COVERAGE_COMPLETE else COVERAGE_PARTIAL in
  Ok (mk_coverage state requested (Z.min exact requested) flags).

Definition supports_suffix_rollback (s : tail_store) (seq_id n : Z) : bool :=
  g_compact (t_cfg s) && valid_seq s seq_id && (n <=? g_rollback (t_cfg s)).

Definition body_index_step (kv_size : Z) (result : list Z) (e : exact_entry) : outcome (list Z) :=
  let index := u64 (u64 (id_stream (e_id e) * kv_size) + id_cell (e_id e)) in
  _ ← require_ OverflowError (index <=? INT32_MAX);
  _ ← require_ OutOfBounds (0 <=? e_slot e);
  vec_set result (Z.to_nat (e_slot e)) index.

Definition body_indices (s : tail_store) (kv_size : Z) : outcome (list Z) :=
  foldM (body_index_step kv_size) (concat (q_entries <$> t_seqs s))
    (replicate (Z.to_nat (g_n_slots (t_cfg s))) 0).

Definition active_slots (s : tail_store) : list (Z * tail_identity) :=
  (fun e => (e_slot e, e_id e)) <$> concat (q_entries <$> t_seqs s).

(** Rows the current graph may read: the committed history and the rows of the batch. *)
Definition source_candidates (s : tail_store) (seq_id : Z) : outcome (list exact_entry) :=
  if negb (valid_seq s seq_id) then Ok [] else
  match t_batch s with
  | None => q ← vec_get (t_seqs s) (Z.to_nat seq_id); Ok (q_entries q)
  | Some tx =>
      committed ← vec_get (tx_saved tx) (Z.to_nat seq_id);
      current ← vec_get (tx_current tx) (Z.to_nat seq_id);
      let history := drop (length (sv_entries committed) - Z.to_nat (g_n_tokens (t_cfg s))) (sv_entries committed) in
      Ok (stable_sort entry_lt (history ++ current))
  end.

Record tail_source_run := mk_source_run {
  rn_exact_offset : Z; rn_stream : Z; rn_cell : Z; rn_length : Z
}.

Definition source_run_step (st : list tail_source_run * Z) (e : exact_entry) : list tail_source_run * Z :=
  let '(runs, exact_offset) := st in
  let extend :=
    match last runs with
    | Some r => (u32 (rn_exact_offset r + rn_length r) =? exact_offset)
                && (rn_stream r =? id_stream (e_id e)) && (u32 (rn_cell r + rn_length r) =? id_cell (e_id e))
    | None => false
    end in
  match extend, last runs with
  | true, Some r =>
      (removelast runs ++ [mk_source_run (rn_exact_offset r) (rn_stream r) (rn_cell r) (u32 (rn_length r + 1))],
       u32 (exact_offset + 1))
  | _, _ => (runs ++ [mk_source_run exact_offset (id_stream (e_id e)) (id_cell (e_id e)) 1], u32 (exact_offset + 1))
  end.

Definition source_runs (s : tail_store) (seq_id : Z) : outcome (list tail_source_run) :=
  if negb (valid_seq s seq_id) then Ok [] else
  q ← vec_get (t_seqs s) (Z.to_nat seq_id);
  Ok (foldl source_run_step ([], 0) (q_entries q)).1.

(** Entries of one sequence a snapshot keeps. *)
Definition snapshot_entries (s : tail_store) (seq_id : Z) (q : seq_state) : list exact_entry :=
  let ordered := match pending_for s seq_id with Some p => pc_destination p | None => q_entries q end in
  drop (length ordered - Z.to_nat (seq_limit (t_cfg s))) ordered.

Definition snapshot (s : tail_store) (seq_id : Z) : list (Z * exact_entry) :=
  concat (imap (fun i q =>
    let current := Z.of_nat i in
    if (0 <=? seq_id) && negb (current =? seq_id) then []
    else pair current <$> snapshot_entries s current q) (t_seqs s)).

Definition provenance_of (s : tail_store) (seq_id : Z) (q : seq_state) : tail_provenance :=
  match pending_for s seq_id with
  | Some p => mk_provenance seq_id (pc_degr p) (pc_recov p)
  | None => mk_provenance seq_id (q_degr q) (q_recov q)
  end.

Definition snapshot_provenance (s : tail_store) (seq_id : Z) : outcome (list tail_provenance) :=
  if 0 <=? seq_id then
    if valid_seq s seq_id then
      q ← vec_get (t_seqs s) (Z.to_nat seq_id); Ok [provenance_of s seq_id q]
    else Ok []
  else Ok (imap (fun i q => provenance_of s (Z.of_nat i) q) (t_seqs s)).
