(* ===== verification/TailStoreWf.v ===== *)
(** * The tail store's invariant

    Well-formedness of one sequence's record and of the whole store: entries in
    order with distinct cells, the index exactly the map the entries give, slots
    distinct and inside the sequence's arena, and a slot marked used exactly when
    an entry or a pending copy owns it.  Every operation keeps it, whether it
    returns or throws. *)

From S2P Require Export TailStore.
Open Scope Z_scope.

(** ** Keys and the index *)

Definition id_ok (id : tail_identity) : Prop :=
  0 <= id_stream id <= UINT32_MAX /\ 0 <= id_cell id <= UINT32_MAX.

Abbreviation ekey e := (key_of (e_id e)).
Abbreviation keys l := ((fun e => ekey e) <$> l).
Abbreviation slots l := (e_slot <$> l).

Definition index_of (l : list exact_entry) : gmap Z tail_identity :=
  list_to_map ((fun e => (ekey e, e_id e)) <$> l).

Lemma cell_key_inj a b a' b' :
  0 <= b <= UINT32_MAX -> 0 <= b' <= UINT32_MAX -> 0 <= a -> 0 <= a' ->
  cell_key a b = cell_key a' b' -> a = a' /\ b = b'.
Proof.
  intros Hb Hb' Ha Ha'. unfold cell_key.
  assert (forall x y, 0 <= y <= UINT32_MAX -> Z.lor (Z.shiftl x 32) y = x * 4294967296 + y) as E.
  { intros x y Hy. rewrite <- Z.add_nocarry_lor.
    - rewrite Z.shiftl_mul_pow2 by lia. done.
    - apply Z.bits_inj'. intros k Hk. rewrite Z.land_spec, Z.shiftl_spec, Z.bits_0 by done.
      destruct (Z.lt_ge_cases k 32); [rewrite Z.testbit_neg_r by lia; done|].
      rewrite (Z.bits_above_log2 y k), andb_false_r; [done|lia|].
      destruct (Z.eq_dec y 0) as [->|]; [simpl; lia|].
      apply Z.log2_lt_pow2; [lia|]. unfold UINT32_MAX in Hy.
      pose proof (Z.pow_le_mono_r 2 32 k ltac:(lia) ltac:(lia)). change (2 ^ 32) with 4294967296 in *. lia. }
  rewrite !E by done. unfold UINT32_MAX in *. lia.
Qed.

Lemma index_of_keys l k : index_of l !! k = None <-> k ∉ keys l.
Proof.
  unfold index_of. rewrite <- not_elem_of_list_to_map, <- list_fmap_compose. done.
Qed.

Lemma index_of_Some l k id : NoDup (keys l) ->
  index_of l !! k = Some id <-> exists e, e ∈ l /\ ekey e = k /\ e_id e = id.
Proof.
  intros Hnd. unfold index_of. rewrite <- elem_of_list_to_map.
  - rewrite list_elem_of_fmap. split; [intros (e & [= -> ->] & ?); eauto|intros (e & ? & <- & <-); eauto].
  - rewrite <- list_fmap_compose. exact Hnd.
Qed.

Lemma index_of_perm l l' : NoDup (keys l) -> l ≡ₚ l' -> index_of l = index_of l'.
Proof.
  intros Hnd Hp. unfold index_of. apply list_to_map_proper.
  - rewrite <- list_fmap_compose. exact Hnd.
  - by rewrite Hp.
Qed.

Lemma index_of_cons e l : index_of (e :: l) = <[ekey e := e_id e]> (index_of l).
Proof. done. Qed.

Lemma index_of_delete_front e l : ekey e ∉ keys l -> delete (ekey e) (index_of (e :: l)) = index_of l.
Proof. intros H. rewrite index_of_cons. apply delete_insert_id. by apply index_of_keys. Qed.

Lemma key_unique l e e' : NoDup (keys l) -> e ∈ l -> e' ∈ l -> ekey e = ekey e' -> e = e'.
Proof.
  intros Hnd [i Hi]%list_elem_of_lookup [j Hj]%list_elem_of_lookup E.
  assert (i = j) as ->; [|congruence].
  eapply NoDup_lookup; [exact Hnd| |]; rewrite list_lookup_fmap; [by rewrite Hi|rewrite Hj; simpl; by rewrite E].
Qed.

(** Finding, erasing and updating the node of an identity. *)
Lemma find_node_Ok l e : NoDup (keys l) -> e ∈ l -> find_node (e_id e) l = Ok e.
Proof.
  intros Hnd He. unfold find_node.
  destruct (List.find _ l) as [e'|] eqn:E.
  - apply List.find_some in E as [Hin Hid]. bprop. apply list_elem_of_In in Hin.
    f_equal. apply (key_unique l); try done. by rewrite Hid.
  - exfalso. eapply List.find_none in E; [|by apply list_elem_of_In]. simpl in E.
    by rewrite bool_decide_eq_true_2 in E.
Qed.

Lemma erase_node_perm l e : NoDup (keys l) -> e ∈ l -> e :: erase_node (e_id e) l ≡ₚ l.
Proof.
  induction l as [|x l IH]; intros Hnd He; [by apply not_elem_of_nil in He|]. simpl.
  rewrite fmap_cons in Hnd. apply NoDup_cons in Hnd as [Hx Hnd].
  destruct (decide (e_id x = e_id e)) as [E|E].
  - apply elem_of_cons in He as [->|He]; [done|]. exfalso. apply Hx. rewrite E.
    apply (list_elem_of_fmap_2 (fun e => ekey e) l e He).
  - apply elem_of_cons in He as [->|He]; [done|]. rewrite Permutation_swap. by rewrite IH.
Qed.

Lemma erase_node_sub (R : exact_entry -> exact_entry -> Prop) l id :
  StronglySorted R l -> StronglySorted R (erase_node id l).
Proof.
  induction 1 as [|x l Hl IH Hx]; simpl; [constructor|]. case_decide; [done|].
  constructor; [done|]. clear -Hx. induction Hx as [|y l Hy Hl IH]; simpl; [constructor|].
  case_decide; [done|]. by constructor.
Qed.

Lemma update_node_map l id f : (forall e, e_id (f e) = e_id e) -> (forall e, e_slot (f e) = e_slot e) ->
  e_id <$> update_node id f l = e_id <$> l /\ slots (update_node id f l) = slots l.
Proof.
  intros Hf Hs. induction l as [|x l [IH1 IH2]]; [done|]. simpl.
  case_decide; rewrite !fmap_cons; rewrite ?Hf, ?Hs, ?IH1, ?IH2; done.
Qed.

(** ** Slots *)

Definition arena (c : tail_cfg) (i : nat) : Z := Z.of_nat i * g_stride c.

(** The vector of used slots marks exactly the slots in [X]. *)
Definition used_ok (c : tail_cfg) (i : nat) (X : gset Z) (used : list bool) : Prop :=
  length used = Z.to_nat (g_stride c) /\
  forall l : nat, Z.of_nat l < g_stride c -> used !! l = Some (bool_decide (arena c i + Z.of_nat l ∈ X)).

Definition in_arena (c : tail_cfg) (i : nat) (slot : Z) : Prop := arena c i <= slot < arena c i + g_stride c.

(** What construction guarantees of the constants, for [n] sequences. *)
Record cfg_ok (c : tail_cfg) (n : nat) : Prop := {
  co_stride : 0 <= g_stride c;
  co_fit : g_stride c * Z.of_nat n <= INT32_MAX;
  co_tokens : 0 <= g_n_tokens c <= UINT32_MAX;
  co_limit : 0 <= seq_limit c;
  co_history : seq_limit c <= g_stride c;
  co_n_tokens_le : g_n_tokens c <= g_history_limit c;
  co_same : g_compact c = false -> g_history_limit c = g_n_tokens c;
  co_slots : g_stride c * Z.of_nat n <= g_n_slots c <= INT32_MAX
}.

Section slots.
Context (c : tail_cfg) (n : nat).
Hypothesis Hc : cfg_ok c n.

Lemma arena_bounds i : (i < n)%nat -> 0 <= arena c i /\ arena c i + g_stride c <= INT32_MAX.
Proof. destruct Hc. intros Hi. unfold arena. nia. Qed.

Lemma arena_base_eq i : (i < n)%nat -> arena_base c i = arena c i.
Proof.
  intros Hi. pose proof (arena_bounds i Hi). destruct Hc. unfold arena_base. fold (arena c i).
  apply u32_id. unfold UINT32_MAX, INT32_MAX in *. lia.
Qed.

Lemma used_ok_proper i X Y used : (forall x, in_arena c i x -> x ∈ X <-> x ∈ Y) -> used_ok c i X used -> used_ok c i Y used.
Proof.
  intros HXY [Hl Hu]. split; [done|]. intros l Hlt. rewrite (Hu l Hlt). f_equal. apply bool_decide_ext, HXY.
  unfold in_arena. lia.
Qed.

Lemma release_used_spec i X used slot : (i < n)%nat -> used_ok c i X used -> in_arena c i slot ->
  exists used', release_used c i slot used = Ok used' /\ used_ok c i (X ∖ {[slot]}) used'.
Proof.
  intros Hi [Hl Hu] Hs. pose proof (arena_bounds i Hi) as [Ha Hb]. unfold in_arena in Hs. unfold release_used.
  rewrite (proj2 (Z.ltb_ge slot 0)), arena_base_eq by (done || lia).
  rewrite u32_id by (unfold UINT32_MAX, INT32_MAX in *; lia).
  rewrite (proj2 (Z.leb_le _ _)), (proj2 (Z.ltb_lt _ _)) by lia. simpl.
  set (l := Z.to_nat (slot - arena c i)).
  rewrite (vec_set_Some _ _ _ _ (Hu l ltac:(unfold l; lia))). eexists; split; [done|].
  split; [by rewrite length_insert|]. intros k Hk. destruct (decide (k = l)) as [->|Hne].
  - rewrite list_lookup_insert_eq by (unfold l; lia). f_equal. symmetry. apply bool_decide_eq_false_2.
    unfold l. rewrite Z2Nat.id by lia. replace (arena c i + (slot - arena c i)) with slot by lia. set_solver.
  - rewrite list_lookup_insert_ne by done. rewrite (Hu k Hk). f_equal. apply bool_decide_ext.
    assert (arena c i + Z.of_nat k <> slot) by (unfold l in Hne; lia). set_solver.
Qed.

(** The slot [o] steps after the cursor. *)
Definition slot_after (i : nat) (cursor o : Z) : Z := arena c i + (cursor + o) mod g_stride c.

Lemma acquire_loop_eq i X used cursor l : used_ok c i X used ->
  (forall o, o ∈ l -> 0 <= o < g_stride c) -> 0 <= cursor < g_stride c -> (i < n)%nat ->
  acquire_loop c used cursor l =
  Ok ((fun o => (cursor + o) mod g_stride c) <$>
      List.find (fun o => negb (bool_decide (slot_after i cursor o ∈ X))) l).
Proof.
  intros [Hl Hu] Ho Hcur Hi. pose proof (arena_bounds i Hi) as [Ha Hb].
  induction l as [|o l IH]; [done|]. simpl. pose proof (Ho o ltac:(by left)).
  rewrite u32_id by (unfold UINT32_MAX, INT32_MAX in *; lia).
  pose proof (Z.mod_pos_bound (cursor + o) (g_stride c) ltac:(lia)) as Hm.
  rewrite (vec_get_Some _ _ (bool_decide (slot_after i cursor o ∈ X))).
  - simpl. case_bool_decide; simpl; [|done]. apply IH. intros; apply Ho. by right.
  - rewrite Hu by lia. unfold slot_after. rewrite Z2Nat.id by lia. done.
Qed.

Lemma acquire_spec i X q : (i < n)%nat -> used_ok c i X (q_used q) ->
  (0 < g_stride c -> 0 <= q_cursor q < g_stride c) ->
  (exists k, 0 <= k < g_stride c /\ slot_after i (q_cursor q) k ∉ X /\
     (forall o, 0 <= o < k -> slot_after i (q_cursor q) o ∈ X) /\
     in_arena c i (slot_after i (q_cursor q) k) /\
     exists used', used_ok c i ({[slot_after i (q_cursor q) k]} ∪ X) used' /\
       acquire c i q = Ok (slot_after i (q_cursor q) k,
         set_cursor ((q_cursor q + k + 1) mod g_stride c) (set_qused used' q))) \/
  ((forall s, in_arena c i s -> s ∈ X) /\ acquire c i q = Err RuntimeError).
Proof.
  intros Hi Hu Hcur. pose proof (arena_bounds i Hi) as [Ha Hb].
  destruct (Z.le_gt_cases (g_stride c) 0) as [H0|Hpos].
  { right. split; [unfold in_arena; lia|]. unfold acquire. rewrite seqZ_nil by lia. done. }
  specialize (Hcur Hpos). unfold acquire.
  rewrite (acquire_loop_eq i X) by (try done; intros o Ho%elem_of_seqZ; lia). simpl.
  set (P := fun o => negb (bool_decide (slot_after i (q_cursor q) o ∈ X))).
  assert (forall a m : Z, 0 <= m -> match List.find P (seqZ a m) with
    | Some k => a <= k < a + m /\ P k = true /\ forall o, a <= o < k -> P o = false
    | None => forall o, a <= o < a + m -> P o = false end) as Hfind.
  { intros a m Hm. rewrite <- (Z2Nat.id m Hm). generalize (Z.to_nat m). clear. intros m. revert a.
    induction m as [|m IH]; intros a; [intros o Ho; lia|].
    rewrite seqZ_cons by lia. simpl. destruct (P a) eqn:EP; [split; [lia|split; [done|lia]]|].
    replace (Z.pred (Z.of_nat (S m))) with (Z.of_nat m) by lia. specialize (IH (Z.succ a)).
    destruct (List.find P _) as [k|].
    - destruct IH as (? & ? & H). split; [lia|]. split; [done|]. intros o Ho.
      destruct (Z.eq_dec o a) as [->|]; [done|]. apply H. lia.
    - intros o Ho. destruct (Z.eq_dec o a) as [->|]; [done|]. apply IH. lia. }
  specialize (Hfind 0 (g_stride c) ltac:(lia)). destruct (List.find P _) as [k|]; simpl.
  - left. destruct Hfind as (Hk & HP & Hmin). exists k. unfold P in HP. bprop.
    pose proof (Z.mod_pos_bound (q_cursor q + k) (g_stride c) ltac:(lia)) as Hm.
    split; [lia|]. split; [done|]. split.
    { intros o Ho. specialize (Hmin o Ho). unfold P in Hmin. bprop. done. }
    split; [unfold in_arena, slot_after; lia|].
    destruct Hu as [Hl Hu]. set (local := (q_cursor q + k) mod g_stride c) in *.
    exists (<[Z.to_nat local := true]> (q_used q)). split.
    + split; [by rewrite length_insert|]. intros l Hlt. destruct (decide (l = Z.to_nat local)) as [->|Hne].
      * rewrite list_lookup_insert_eq by lia. f_equal. symmetry. apply bool_decide_eq_true_2.
        rewrite Z2Nat.id by lia. apply elem_of_union_l, elem_of_singleton. done.
      * rewrite list_lookup_insert_ne by done. rewrite (Hu l Hlt). f_equal. apply bool_decide_ext.
        assert (arena c i + Z.of_nat l <> slot_after i (q_cursor q) k) by (unfold slot_after; fold local; lia).
        set_solver.
    + rewrite (vec_set_Some _ _ (bool_decide (arena c i + local ∈ X))); simpl.
      * rewrite arena_base_eq by done. rewrite (u32_id (arena c i + local)), (u32_id (local + 1))
          by (unfold UINT32_MAX, INT32_MAX in *; lia).
        unfold to_i32. rewrite (proj2 (Z.leb_le _ _)) by lia. unfold local.
        rewrite Zplus_mod_idemp_l. done.
      * rewrite Hu by lia. by rewrite Z2Nat.id by lia.
  - right. split; [|done]. intros s Hs. unfold in_arena in Hs.
    specialize (Hfind ((s - arena c i - q_cursor q) mod g_stride c)
      (Z.mod_pos_bound _ _ Hpos)). unfold P in Hfind. bprop. unfold slot_after in Hfind.
    rewrite Zplus_mod_idemp_r in Hfind. replace (q_cursor q + (s - arena c i - q_cursor q)) with (s - arena c i) in Hfind by lia.
    rewrite Z.mod_small in Hfind by lia. by replace (arena c i + (s - arena c i)) with s in Hfind by lia.
Qed.
End slots.

(** ** One sequence *)

#[global] Instance entry_lt_order : StrictWeakOrder entry_lt.
Proof.
  split.
  - intros a b. unfold entry_lt. rewrite orb_true_iff, orb_false_iff, andb_true_iff, andb_false_iff,
      !Z.ltb_lt, !Z.ltb_ge, !Z.eqb_eq, Z.eqb_neq. lia.
  - intros a b d. unfold entry_lt. rewrite !orb_false_iff, !andb_false_iff, !Z.ltb_ge, !Z.eqb_neq. lia.
Qed.

(** Cells and slots, whatever the order and the positions of the entries.  [extra]:
    slots taken from the arena that no entry has (yet). *)
Record seq_ok (c : tail_cfg) (i : nat) (extra : list Z) (q : seq_state) : Prop := {
  so_keys : NoDup (keys (q_entries q));
  so_ids : Forall (fun e => id_ok (e_id e)) (q_entries q);
  so_slots : Forall (in_arena c i) (slots (q_entries q) ++ extra);
  so_nodup : NoDup (slots (q_entries q) ++ extra);
  so_used : used_ok c i (list_to_set (slots (q_entries q) ++ extra)) (q_used q);
  so_cursor : 0 < g_stride c -> 0 <= q_cursor q < g_stride c
}.

(** What holds of a sequence between operations. *)
Record seq_wf (c : tail_cfg) (i : nat) (extra : list Z) (q : seq_state) : Prop := {
  sw_ok : seq_ok c i extra q;
  sw_sorted : ordered entry_lt (q_entries q);
  sw_index : q_index q = index_of (q_entries q);
  sw_bound : g_compact c = true -> Z.of_nat (length (q_entries q)) <= seq_limit c
}.

(** Only identities, slots, the used vector and the cursor matter for [seq_ok]. *)
Definition id_slots (l : list exact_entry) : list (tail_identity * Z) := (fun e => (e_id e, e_slot e)) <$> l.

Lemma id_slots_keys l : keys l = (fun x => key_of x.1) <$> id_slots l.
Proof. unfold id_slots. by rewrite <- list_fmap_compose. Qed.

Lemma id_slots_slots l : slots l = snd <$> id_slots l.
Proof. unfold id_slots. by rewrite <- list_fmap_compose. Qed.

Lemma id_slots_ids l : Forall (fun e => id_ok (e_id e)) l <-> Forall (fun x => id_ok x.1) (id_slots l).
Proof. unfold id_slots. by rewrite Forall_fmap. Qed.

Lemma seq_ok_proper c i extra extra' q q' :
  id_slots (q_entries q) ≡ₚ id_slots (q_entries q') -> extra ≡ₚ extra' ->
  q_used q = q_used q' -> q_cursor q = q_cursor q' -> seq_ok c i extra q -> seq_ok c i extra' q'.
Proof.
  intros Hp Hx Hu Hc [H1 H2 H3 H4 H5 H6].
  rewrite id_slots_keys, id_slots_slots, ?id_slots_ids in *.
  assert ((snd <$> id_slots (q_entries q)) ++ extra ≡ₚ (snd <$> id_slots (q_entries q')) ++ extra') as Hs
    by (by rewrite Hp, Hx).
  split; rewrite ?id_slots_keys, ?id_slots_slots, ?id_slots_ids.
  - by rewrite <- Hp.
  - by rewrite <- Hp.
  - by rewrite <- Hs.
  - by rewrite <- Hs.
  - rewrite <- Hu. eapply used_ok_proper; [|exact H5]. intros x _. by rewrite !elem_of_list_to_set, Hs.
  - by rewrite <- Hc.
Qed.

Lemma seq_ok_perm c i extra l q : q_entries q ≡ₚ l -> seq_ok c i extra q -> seq_ok c i extra (set_entries l q).
Proof. intros Hp. apply seq_ok_proper; try done. unfold id_slots. simpl. by rewrite Hp. Qed.

(** The index and the flags are no part of it. *)
Lemma seq_ok_index c i extra m q : seq_ok c i extra q <-> seq_ok c i extra (set_qindex m q).
Proof. split; apply seq_ok_proper; done. Qed.

Lemma seq_ok_degr c i extra d r q : seq_ok c i extra q <-> seq_ok c i extra (set_degr d r q).
Proof. split; apply seq_ok_proper; done. Qed.

Lemma seq_ok_extra c i x y q : x ≡ₚ y -> seq_ok c i x q -> seq_ok c i y q.
Proof. intros. by eapply seq_ok_proper. Qed.

(** Entries lose their slots to [extra], and take them from there. *)
Lemma seq_ok_drop c i extra e l q :
  q_entries q ≡ₚ e :: l -> seq_ok c i extra q -> seq_ok c i (e_slot e :: extra) (set_entries l q).
Proof.
  intros Hp [H1 H2 H3 H4 H5 H6].
  assert (slots (q_entries q) ++ extra ≡ₚ slots l ++ e_slot e :: extra) as Hs.
  { rewrite Hp, fmap_cons. simpl. by rewrite Permutation_middle. }
  split; simpl; try done.
  - rewrite Hp, fmap_cons in H1. by apply NoDup_cons in H1 as [_ H1].
  - rewrite Hp in H2. by apply Forall_cons in H2 as [_ H2].
  - by rewrite <- Hs.
  - by rewrite <- Hs.
  - eapply used_ok_proper; [|exact H5]. intros x _. by rewrite !elem_of_list_to_set, Hs.
Qed.

Lemma seq_ok_add c i extra e l q :
  l ≡ₚ e :: q_entries q -> id_ok (e_id e) -> ekey e ∉ keys (q_entries q) ->
  seq_ok c i (e_slot e :: extra) q -> seq_ok c i extra (set_entries l q).
Proof.
  intros Hp Hid Hk [H1 H2 H3 H4 H5 H6].
  assert (slots l ++ extra ≡ₚ slots (q_entries q) ++ e_slot e :: extra) as Hs.
  { rewrite Hp, fmap_cons. simpl. by rewrite Permutation_middle. }
  split; simpl; try done.
  - rewrite Hp, fmap_cons. by constructor.
  - rewrite Hp. by constructor.
  - by rewrite Hs.
  - by rewrite Hs.
  - eapply used_ok_proper; [|exact H5]. intros x _. by rewrite !elem_of_list_to_set, Hs.
Qed.

Lemma fresh_seq_wf c n i : cfg_ok c n -> (i < n)%nat -> seq_wf c i [] (fresh_seq (g_stride c)).
Proof.
  intros Hc Hi. destruct Hc. split; simpl; try constructor; simpl; try constructor; try done; try (intros; lia).
  - by rewrite length_replicate.
  - intros l Hl. rewrite lookup_replicate_2 by lia. f_equal.
Qed.

(** The last [limit] entries. *)
Definition newest (limit : Z) (l : list exact_entry) : list exact_entry := drop (length l - Z.to_nat limit) l.

(** *** Releasing, acquiring, erasing *)

Section one_seq.
Context (c : tail_cfg) (n : nat) (i : nat).
Hypothesis Hc : cfg_ok c n.
Hypothesis Hi : (i < n)%nat.

Lemma seq_ok_in_arena extra q s : seq_ok c i extra q -> s ∈ slots (q_entries q) ++ extra -> in_arena c i s.
Proof. intros Hq Hs. exact (proj1 (Forall_forall _ _) (so_slots _ _ _ _ Hq) s Hs). Qed.

Lemma release_ok slot extra q : seq_ok c i (slot :: extra) q ->
  exists used, release c i slot q = Ok (set_qused used q) /\ seq_ok c i extra (set_qused used q).
Proof.
  intros Hq. assert (in_arena c i slot) as Ha by (eapply seq_ok_in_arena; [exact Hq|set_solver]).
  destruct Hq as [H1 H2 H3 H4 H5 H6].
  destruct (release_used_spec c n Hc i _ _ slot Hi H5 Ha) as (used & E & Hu).
  exists used. unfold release. rewrite E. simpl. split; [done|].
  rewrite <- Permutation_middle in H3, H4. apply Forall_cons in H3 as [_ H3]. apply NoDup_cons in H4 as [Hn H4].
  split; simpl; try done. eapply used_ok_proper; [|exact Hu]. intros x _.
  set_unfold. split; [intros [[?|[->|?]] ?]; tauto|]. intros Hx.
  split; [tauto|]. intros ->. apply Hn. set_unfold. tauto.
Qed.

Lemma release_all_ok l extra q : seq_ok c i (l ++ extra) q ->
  exists used, release_all c i l q = Ok (set_qused used q) /\ seq_ok c i extra (set_qused used q).
Proof.
  revert q. induction l as [|slot l IH]; intros q Hq; [exists (q_used q); destruct q; done|].
  destruct (release_ok slot (l ++ extra) q Hq) as (used & E & Hq'). unfold release_all in *. simpl. rewrite E. simpl.
  destruct (IH _ Hq') as (used' & E' & Hq''). rewrite E'. by exists used'.
Qed.

Lemma acquire_ok extra q : seq_ok c i extra q ->
  (exists slot cur used, acquire c i q = Ok (slot, set_cursor cur (set_qused used q)) /\
     slot ∉ slots (q_entries q) ++ extra /\ seq_ok c i (slot :: extra) (set_cursor cur (set_qused used q))) \/
  (acquire c i q = Err RuntimeError /\ Z.of_nat (length (slots (q_entries q) ++ extra)) = g_stride c).
Proof.
  intros [H1 H2 H3 H4 H5 H6].
  destruct (acquire_spec c n Hc i _ q Hi H5 H6) as [(k & Hk & Hfree & _ & Ha & used & Hu & E)|[Hall E]].
  - left. do 3 eexists. split; [exact E|]. set (slot := slot_after c i (q_cursor q) k) in *.
    assert (slot ∉ slots (q_entries q) ++ extra) as Hn by (by rewrite <- (elem_of_list_to_set (C := gset Z))).
    split; [done|]. split; simpl; try done.
    + rewrite <- Permutation_middle. by constructor.
    + rewrite <- Permutation_middle. by constructor.
    + eapply used_ok_proper; [|exact Hu]. intros x _. set_solver.
    + intros Hpos. apply Z.mod_pos_bound. lia.
  - right. split; [done|]. destruct Hc.
    assert (slots (q_entries q) ++ extra ≡ₚ seqZ (arena c i) (g_stride c)) as ->.
    { apply NoDup_Permutation; [done|apply NoDup_seqZ|]. intros x. rewrite elem_of_seqZ. split.
      - intros Hx. exact (proj1 (Forall_forall _ _) H3 x Hx).
      - intros Hx. by apply (elem_of_list_to_set (C := gset Z)), Hall. }
    rewrite length_seqZ. lia.
Qed.

(** Erasing the node of an identity. *)
Lemma erase_keep_ok extra q e : seq_ok c i extra q -> e ∈ q_entries q ->
  erase_entry c i (e_id e) false q =
    Ok (set_entries (erase_node (e_id e) (q_entries q)) (set_qindex (delete (ekey e) (q_index q)) q)) /\
  seq_ok c i (e_slot e :: extra)
    (set_entries (erase_node (e_id e) (q_entries q)) (set_qindex (delete (ekey e) (q_index q)) q)).
Proof.
  intros Hq He. unfold erase_entry. rewrite find_node_Ok by (done || apply Hq). simpl. split; [done|].
  eapply (seq_ok_drop c i extra e _ (set_qindex (delete (ekey e) (q_index q)) q)).
  - simpl. symmetry. apply erase_node_perm; [apply Hq|done].
  - by apply seq_ok_index.
Qed.

Lemma erase_release_ok extra q e : seq_ok c i extra q -> e ∈ q_entries q -> exists used,
  erase_entry c i (e_id e) true q =
    Ok (set_entries (erase_node (e_id e) (q_entries q)) (set_qindex (delete (ekey e) (q_index q)) (set_qused used q))) /\
  seq_ok c i extra
    (set_entries (erase_node (e_id e) (q_entries q)) (set_qindex (delete (ekey e) (q_index q)) (set_qused used q))).
Proof.
  intros Hq He.
  destruct (release_ok (e_slot e) extra (set_entries (erase_node (e_id e) (q_entries q)) q)) as (used & E & Hq').
  { apply seq_ok_drop; [|done]. symmetry. apply erase_node_perm; [apply Hq|done]. }
  exists used. unfold erase_entry. rewrite find_node_Ok by (done || apply Hq). simpl.
  unfold release in *. simpl in E. destruct (release_used c i (e_slot e) (q_used q)) as [u|] eqn:Eu; [|done].
  simpl in E. injection E as <-. simpl. split; [done|]. eapply seq_ok_proper, Hq'; done.
Qed.

(** What is left of the index and of the order after an erasure. *)
Lemma index_of_erase l e : NoDup (keys l) -> e ∈ l -> delete (ekey e) (index_of l) = index_of (erase_node (e_id e) l).
Proof.
  intros Hn He. pose proof (erase_node_perm l e Hn He) as Hp.
  rewrite (index_of_perm l (e :: erase_node (e_id e) l)); [|done|by symmetry].
  apply index_of_delete_front. rewrite <- Hp, fmap_cons in Hn. by apply NoDup_cons in Hn as [? _].
Qed.

Lemma erase_node_length l e : NoDup (keys l) -> e ∈ l -> S (length (erase_node (e_id e) l)) = length l.
Proof. intros Hn He. by rewrite <- (Permutation_length (erase_node_perm l e Hn He)). Qed.

(** *** Trimming *)


Lemma trim_loop_ok limit extra fuel q :
  seq_ok c i extra q -> (length (q_entries q) <= fuel)%nat -> 0 <= limit ->
  exists used m, let l := newest limit (q_entries q) in
    trim_loop c i limit fuel q = Ok (set_entries l (set_qindex m (set_qused used q))) /\
    seq_ok c i extra (set_entries l (set_qindex m (set_qused used q))) /\
    (q_index q = index_of (q_entries q) -> m = index_of l).
Proof.
  intros Hq Hf Hlim. revert q Hq Hf. induction fuel as [|fuel IH]; intros q Hq Hf.
  { exists (q_used q), (q_index q). destruct (q_entries q) as [|e l] eqn:E; simpl in *; [|lia].
    destruct q; simpl in *; subst. done. }
  simpl. destruct (_ <? _) eqn:El; bprop.
  - destruct (q_entries q) as [|e l] eqn:E; simpl in *; [lia|].
    destruct (release_ok (e_slot e) extra (set_entries l q)) as (used & Er & Hq').
    { eapply seq_ok_drop; [|done]. by rewrite E. }
    unfold release in *. simpl in Er |- *. destruct (release_used c i (e_slot e) (q_used q)) as [u|]; [|done].
    simpl in Er. injection Er as ->. simpl.
    destruct (IH (set_entries l (set_qused used (set_qindex (delete (ekey e) (q_index q)) q)))) as (used' & m & -> & Hq'' & Hm); simpl.
    + eapply seq_ok_proper, Hq'; done.
    + lia.
    + unfold newest in *. simpl in Hq'', Hm |- *. exists used', m. rewrite Nat.sub_succ_l by lia. split; [done|]. split; [done|].
      intros Hx. apply Hm. rewrite Hx. apply index_of_delete_front.
      destruct Hq as [H1 _ _ _ _ _]. rewrite E, fmap_cons in H1. by apply NoDup_cons in H1 as [? _].
  - unfold newest. rewrite (proj2 (Nat.sub_0_le _ _)) by lia. rewrite drop_0. exists (q_used q), (q_index q). by destruct q.
Qed.

Lemma trim_ok limit extra q : seq_ok c i extra q -> 0 <= limit ->
  exists used m, let l := newest limit (q_entries q) in
    trim c i limit q = Ok (set_entries l (set_qindex m (set_qused used q))) /\
    seq_ok c i extra (set_entries l (set_qindex m (set_qused used q))) /\
    (q_index q = index_of (q_entries q) -> m = index_of l).
Proof. intros. by apply trim_loop_ok. Qed.

(** *** The loops that filter a list and release slots *)

(** A loop body that keeps or drops an entry, changing its position at most. *)
Lemma filter_loop_ok (f : exact_entry -> option exact_entry) extra q
    (step : list exact_entry * list bool * bool -> exact_entry -> outcome (list exact_entry * list bool * bool)) (T : exact_entry -> bool) :
  (forall e e', f e = Some e' -> e_id e' = e_id e /\ e_slot e' = e_slot e) ->
  (forall kept used t e, e ∈ q_entries q -> step (kept, used, t) e =
     match f e with
     | Some e' => Ok (kept ++ [e'], used, t || T e)
     | None => used ← release_used c i (e_slot e) used; Ok (kept, used, true)
     end) ->
  (forall e, e ∈ q_entries q -> f e = None -> T e = true) ->
  seq_ok c i extra q ->
  exists used, foldM step (q_entries q) ([], q_used q, false) = Ok (omap f (q_entries q), used, existsb T (q_entries q)) /\
    seq_ok c i extra (set_entries (omap f (q_entries q)) (set_qused used q)).
Proof.
  intros Hf Hstep HT Hq.
  assert (forall todo pre kept used t, q_entries q = pre ++ todo ->
    seq_ok c i extra (set_entries (kept ++ todo) (set_qused used q)) ->
    exists used', foldM step todo (kept, used, t) = Ok (kept ++ omap f todo, used', t || existsb T todo) /\
      seq_ok c i extra (set_entries (kept ++ omap f todo) (set_qused used' q))) as Hgen.
  { induction todo as [|e todo IH]; intros pre kept used t Hpre Hok.
    { simpl. exists used. rewrite orb_false_r, app_nil_r in *. done. }
    assert (e ∈ q_entries q) as He by (rewrite Hpre; set_solver).
    simpl. rewrite Hstep by done. destruct (f e) as [e'|] eqn:Ef; simpl.
    - destruct (Hf _ _ Ef) as [Eid Esl]. destruct (IH (pre ++ [e]) (kept ++ [e']) used (t || T e)) as (used' & -> & Hok').
      + rewrite Hpre, <- app_assoc. done.
      + eapply seq_ok_proper, Hok; try done. simpl. unfold id_slots.
        rewrite <- app_assoc, !fmap_app, !fmap_cons, Eid, Esl. done.
      + exists used'. rewrite <- !app_assoc in *. rewrite orb_assoc. done.
    - rewrite (HT e He Ef).
      destruct (release_ok (e_slot e) extra (set_entries (kept ++ todo) (set_qused used q))) as (used1 & Er & Hok1).
      { eapply (seq_ok_drop c i extra e (kept ++ todo) (set_entries (kept ++ e :: todo) (set_qused used q))); [|done].
        simpl. by rewrite Permutation_middle. }
      unfold release in Er. simpl in Er. destruct (release_used c i (e_slot e) used) as [u|]; [|done].
      simpl in Er. injection Er as ->. simpl.
      destruct (IH (pre ++ [e]) kept used1 true) as (used' & -> & Hok').
      + rewrite Hpre, <- app_assoc. done.
      + eapply seq_ok_proper, Hok1; done.
      + exists used'. rewrite orb_true_r. done. }
  destruct (Hgen (q_entries q) [] [] (q_used q) false) as (used & E & Hok); [done|by destruct q|].
  exists used. done.
Qed.

Lemma remove_entries_ok P extra q : seq_ok c i extra q -> exists used,
  remove_entries c i P q = Ok (existsb P (q_entries q),
    set_entries (filter (fun e => P e = false) (q_entries q)) (set_qused used q)) /\
  seq_ok c i extra (set_entries (filter (fun e => P e = false) (q_entries q)) (set_qused used q)).
Proof.
  intros Hq. set (f := fun e => if P e then None else Some e).
  assert (filter (fun e => P e = false) (q_entries q) = omap f (q_entries q)) as ->.
  { induction (q_entries q) as [|e l IH]; [done|]. simpl. unfold f at 1.
    destruct (P e) eqn:E; rewrite filter_cons, E; simpl; by rewrite IH. }
  destruct (filter_loop_ok f extra q (fun '(kept, used, removed) e =>
    if P e then used ← release_used c i (e_slot e) used; Ok (kept, used, true)
    else Ok (kept ++ [e], used, removed)) P) as (used & E & Hok).
  - intros e e'. unfold f. destruct (P e); intros; by simplify_eq.
  - intros kept used t e _. unfold f. destruct (P e) eqn:E; [done|]. by rewrite orb_false_r.
  - intros e _. unfold f. by destruct (P e).
  - done.
  - exists used. unfold remove_entries. rewrite E. done.
Qed.

(** The entry a shift leaves of an entry. *)
Definition shift_entry (ids : list tail_identity) (shift : Z) (e : exact_entry) : option exact_entry :=
  if decide (e_id e ∈ ids) then
    if e_pos e + shift <? 0 then None else Some (mk_entry (e_id e) (e_pos e + shift) (e_ord e) (e_slot e))
  else Some e.

Definition named (ids : list tail_identity) (e : exact_entry) : bool := bool_decide (e_id e ∈ ids).

Lemma shift_entries_ok ids shift extra q :
  (forall e, e ∈ q_entries q -> e_id e ∈ ids -> in_i32 (e_pos e + shift) = true) ->
  seq_ok c i extra q -> exists used,
  shift_entries c i ids shift q = Ok (existsb (named ids) (q_entries q),
    set_entries (omap (shift_entry ids shift) (q_entries q)) (set_qused used q)) /\
  seq_ok c i extra (set_entries (omap (shift_entry ids shift) (q_entries q)) (set_qused used q)).
Proof.
  intros Hr Hq.
  destruct (filter_loop_ok (shift_entry ids shift) extra q (fun '(kept, used, touched) e =>
        if decide (e_id e ∈ ids) then
          p ← i32 (e_pos e + shift);
          if p <? 0 then used ← release_used c i (e_slot e) used; Ok (kept, used, true)
          else Ok (kept ++ [mk_entry (e_id e) p (e_ord e) (e_slot e)], used, true)
        else Ok (kept ++ [e], used, touched)) (named ids)) as (used & E & Hok).
  - intros e e'. unfold shift_entry. repeat case_match; intros; by simplify_eq.
  - intros kept used t e He. unfold shift_entry, named. case_decide as Hid.
    + rewrite (i32_of _ (Hr e He Hid)). simpl. rewrite bool_decide_eq_true_2 by done.
      rewrite orb_true_r. by destruct (_ <? _).
    + rewrite bool_decide_eq_false_2 by done. by rewrite orb_false_r.
  - intros e _. unfold shift_entry, named. case_decide; [|done]. intros _. by apply bool_decide_eq_true_2.
  - done.
  - exists used. unfold shift_entries. rewrite E. done.
Qed.

Definition divide_entry (ids : list tail_identity) (divisor : Z) (e : exact_entry) : exact_entry :=
  if decide (e_id e ∈ ids) then mk_entry (e_id e) (Z.quot (e_pos e) divisor) (e_ord e) (e_slot e) else e.

Lemma divide_entries_ok ids divisor extra q : divisor <> 0 ->
  (forall e, e ∈ q_entries q -> e_id e ∈ ids -> in_i32 (Z.quot (e_pos e) divisor) = true) ->
  seq_ok c i extra q ->
  divide_entries ids divisor q = Ok (existsb (named ids) (q_entries q),
    set_entries (divide_entry ids divisor <$> q_entries q) q) /\
  seq_ok c i extra (set_entries (divide_entry ids divisor <$> q_entries q) q).
Proof.
  intros Hd Hr Hq. split.
  - unfold divide_entries. match goal with |- context [foldM ?f _ _] => set (step := f) end.
    assert (forall d t e, e ∈ q_entries q ->
      step (d, t) e = Ok (d ++ [divide_entry ids divisor e], t || named ids e)) as Hstep.
    { intros d t e He. unfold step, divide_entry, named. case_decide as Hid.
      - unfold i32_div. rewrite (proj2 (Z.eqb_neq _ _) Hd), (i32_of _ (Hr e He Hid)), bool_decide_eq_true_2 by done.
        by rewrite orb_true_r.
      - by rewrite bool_decide_eq_false_2, orb_false_r. }
    clearbody step.
    assert (forall todo d t, (forall e, e ∈ todo -> e ∈ q_entries q) ->
      foldM step todo (d, t) = Ok (d ++ (divide_entry ids divisor <$> todo), t || existsb (named ids) todo)) as Hgen.
    { induction todo as [|e todo IH]; intros d t Hin; simpl; [by rewrite app_nil_r, orb_false_r|].
      rewrite Hstep by (apply Hin; by left). simpl. rewrite IH by (intros; apply Hin; by right).
      by rewrite <- app_assoc, orb_assoc. }
    rewrite Hgen by done. done.
  - eapply seq_ok_proper, Hq; try done. simpl. unfold id_slots. rewrite <- list_fmap_compose.
    rewrite (list_fmap_ext (fun e => (e_id e, e_slot e)) ((fun e => (e_id e, e_slot e)) ∘ divide_entry ids divisor) (q_entries q)); [done|].
    intros k e _. unfold divide_entry. simpl. by case_decide.
Qed.
End one_seq.

(** *** Rebuilding the index *)

Lemma rebuild_loop_eq l q : NoDup (keys l) -> (forall k, k ∈ keys l -> q_index q !! k = None) ->
  rebuild_loop l q = (Ok tt, set_qindex (index_of l ∪ q_index q) q).
Proof.
  revert q. induction l as [|e l IH]; intros q Hn Hk.
  { simpl. unfold index_of. simpl. rewrite (left_id_L ∅ (∪)). by destruct q. }
  rewrite fmap_cons in Hn, Hk. apply NoDup_cons in Hn as [Hne Hn]. simpl.
  rewrite (Hk (ekey e)) by (by left).
  rewrite IH.
  - simpl. rewrite index_of_cons, <- fin_maps.insert_union_l, fin_maps.insert_union_r by (by apply index_of_keys). by destruct q.
  - done.
  - intros k Hkl. simpl. rewrite lookup_insert_ne by (intros Heq; apply Hne; by rewrite Heq). apply Hk. by right.
Qed.

Lemma rebuild_index_eq q : NoDup (keys (q_entries q)) ->
  rebuild_index q = (Ok tt, set_qindex (index_of (q_entries q)) q).
Proof.
  intros Hn. unfold rebuild_index. rewrite rebuild_loop_eq; simpl; [|done|].
  - rewrite (right_id_L ∅ (∪)). by destruct q.
  - intros. apply lookup_empty.
Qed.

(** *** Inserting in order *)

Lemma insert_before_greater_perm x l : insert_before_greater x l ≡ₚ x :: l.
Proof.
  induction l as [|e l IH]; simpl; [done|]. destruct (entry_lt x e); [done|].
  rewrite IH. apply Permutation_swap.
Qed.

Lemma insert_before_greater_ordered x l : ordered entry_lt l -> ordered entry_lt (insert_before_greater x l).
Proof.
  unfold ordered. induction 1 as [|e l Hl IH He]; simpl; [repeat constructor|].
  destruct (entry_lt x e) eqn:E.
  - constructor; [by constructor|]. constructor; [by apply swo_asym|].
    eapply Forall_impl; [exact He|]. intros y Hy. simpl in Hy.
    eapply swo_negtrans; [exact Hy|]. by apply swo_asym.
  - constructor; [done|]. rewrite insert_before_greater_perm. by constructor.
Qed.

(** Appending a newest entry is the general insertion. *)
Lemma insert_entry_eq x l : ordered entry_lt l -> insert_entry x l = insert_before_greater x l.
Proof.
  intros Hl. unfold insert_entry. destruct (last l) as [back|] eqn:Eb.
  2:{ apply last_None in Eb. by subst. }
  destruct (_ || _) eqn:E; [|done].
  assert (entry_lt x back = false) as Hx.
  { unfold entry_lt. rewrite orb_true_iff, andb_true_iff, Z.ltb_lt, Z.eqb_eq, Z.leb_le in E.
    rewrite orb_false_iff, andb_false_iff, !Z.ltb_ge, Z.eqb_neq. lia. }
  assert (forall e, e ∈ l -> entry_lt x e = false) as Hall.
  { apply last_Some in Eb as [l' ->]. unfold ordered in Hl. intros e He. apply elem_of_app in He as [He|He].
    - eapply swo_negtrans; [exact Hx|]. clear -Hl He. induction l' as [|y l' IH]; [by apply not_elem_of_nil in He|].
      simpl in Hl. apply StronglySorted_inv in Hl as [Hl Hy]. apply elem_of_cons in He as [->|He]; [|by apply IH].
      apply (proj1 (Forall_forall _ _) Hy). set_solver.
    - by apply list_elem_of_singleton in He as ->. }
  clear -Hall. induction l as [|e l IH]; [done|]. simpl. rewrite (Hall e) by (by left). f_equal. apply IH.
  intros; apply Hall. by right.
Qed.

(** *** Looking an identity up *)

(** The slot the list has for an identity. *)
Definition slot_of (id : tail_identity) (l : list exact_entry) : Z :=
  match List.find (fun e => bool_decide (e_id e = id)) l with Some e => e_slot e | None => LLAMA_KV_TAIL_BODY_SLOT end.

Lemma slot_of_found l e : NoDup (keys l) -> e ∈ l -> slot_of (e_id e) l = e_slot e.
Proof.
  intros Hn He. pose proof (find_node_Ok l e Hn He) as H. unfold find_node in H. unfold slot_of.
  destruct (List.find _ l); by simplify_eq.
Qed.

Lemma slot_of_none l id : (forall e, e ∈ l -> e_id e <> id) -> slot_of id l = LLAMA_KV_TAIL_BODY_SLOT.
Proof.
  intros H. unfold slot_of. destruct (List.find _ l) as [e|] eqn:E; [|done].
  apply List.find_some in E as [Hin Hid]. bprop. apply list_elem_of_In in Hin. by destruct (H e).
Qed.

Lemma index_lookup q k nid : NoDup (keys (q_entries q)) -> q_index q = index_of (q_entries q) ->
  q_index q !! k = Some nid -> exists e, e ∈ q_entries q /\ ekey e = k /\ e_id e = nid.
Proof. intros Hn -> H. by apply index_of_Some. Qed.

Lemma retained_slot_eq id q : NoDup (keys (q_entries q)) -> q_index q = index_of (q_entries q) ->
  retained_slot id q = Ok (slot_of id (q_entries q)).
Proof.
  intros Hn Hx. unfold retained_slot. destruct (q_index q !! key_of id) as [nid|] eqn:E.
  - destruct (index_lookup q _ _ Hn Hx E) as (e & He & Hk & <-). rewrite find_node_Ok by done. simpl.
    case_decide as Hid; [subst; by rewrite slot_of_found|].
    rewrite slot_of_none; [done|]. intros e' He' <-. apply Hid. by rewrite (key_unique _ _ _ Hn He He' Hk).
  - rewrite slot_of_none; [done|]. intros e He <-. rewrite Hx in E. apply index_of_keys in E. apply E.
    by apply (list_elem_of_fmap_2 (fun e => ekey e)).
Qed.

Lemma erase_node_filter l e : NoDup (keys l) -> e ∈ l -> erase_node (e_id e) l = filter (fun x => ekey x <> ekey e) l.
Proof.
  induction l as [|x l IH]; intros Hn He; [by apply not_elem_of_nil in He|].
  rewrite fmap_cons in Hn. apply NoDup_cons in Hn as [Hx Hn]. simpl. rewrite filter_cons.
  destruct (decide (e_id x = e_id e)) as [E|E].
  - rewrite decide_False by (rewrite E; tauto). symmetry. apply list_filter_id.
    intros y Hy Ey. apply Hx. rewrite E, <- Ey. by apply (list_elem_of_fmap_2 (fun e => ekey e)).
  - apply elem_of_cons in He as [->|He]; [done|]. rewrite decide_True, IH; [done..|].
    intros Ey. apply Hx. rewrite Ey. by apply (list_elem_of_fmap_2 (fun e => ekey e)).
Qed.

(** *** Commit *)

Lemma newest_length limit l : 0 <= limit -> Z.of_nat (length (newest limit l)) = Z.min limit (Z.of_nat (length l)).
Proof. intros. unfold newest. rewrite length_drop. lia. Qed.

Section commit.
Context (c : tail_cfg) (n : nat) (i : nat).
Hypothesis Hc : cfg_ok c n.
Hypothesis Hi : (i < n)%nat.
Hypothesis Hlimit : 0 < seq_limit c.

(** [trim] of an ordered record with an exact index gives a well-formed one. *)
Lemma trim_wf extra q : seq_ok c i extra q -> ordered entry_lt (q_entries q) -> q_index q = index_of (q_entries q) ->
  exists q', trim c i (seq_limit c) q = Ok q' /\ seq_wf c i extra q' /\ q_entries q' = newest (seq_limit c) (q_entries q).
Proof.
  clear Hlimit. intros Hq Ho Hx.
  destruct (trim_ok c n i Hc Hi (seq_limit c) extra q Hq) as (used & m & -> & Hq' & Hm); [by destruct Hc|].
  eexists. split; [done|]. split; [|done]. split; simpl.
  - done.
  - by apply ordered_drop.
  - by apply Hm.
  - intros _. rewrite newest_length; destruct Hc; lia.
Qed.

Lemma commit_existing_ok extra q id p o : seq_wf c i extra q -> id ∈ e_id <$> q_entries q -> exists q',
  let l := update_node id (fun e => mk_entry (e_id e) p o (e_slot e)) (q_entries q) in
  commit_existing c i id p o q = Ok (slot_of id (q_entries q'), q') /\ seq_wf c i extra q' /\
  q_entries q' = newest (seq_limit c) (stable_sort entry_lt l).
Proof.
  intros [Hq Ho Hx Hb] (e & -> & He)%list_elem_of_fmap.
  unfold commit_existing. rewrite find_node_Ok by (done || apply Hq). simpl.
  set (l := update_node _ _ _).
  destruct (update_node_map (q_entries q) (e_id e) (fun e => mk_entry (e_id e) p o (e_slot e))) as [U1 U2]; [done..|].
  fold l in U1, U2.
  assert (id_slots l = id_slots (q_entries q)) as Eis.
  { unfold id_slots. clearbody l. clear -U1 U2. revert l U1 U2. induction (q_entries q) as [|a k IH]; intros [|b l] U1 U2; try done.
    rewrite !fmap_cons in *. simplify_eq. f_equal; [by f_equal|]. by apply IH. }
  assert (seq_ok c i extra (set_entries l q)) as Hql.
  { eapply seq_ok_proper, Hq; try done. simpl. by rewrite Eis. }
  destruct (trim_wf extra (sort_entries (set_entries l q))) as (q' & E & Hq' & Hl'); simpl.
  - apply seq_ok_perm; [|done]. simpl. by rewrite stable_sort_perm.
  - apply stable_sort_ordered, _.
  - assert (forall l, index_of l = list_to_map ((fun x => (key_of x.1, x.1)) <$> id_slots l)) as Hio.
    { intros k. unfold index_of, id_slots. by rewrite <- list_fmap_compose. }
    rewrite Hx. rewrite <- (index_of_perm l (stable_sort entry_lt l)).
    + by rewrite !Hio, Eis.
    + apply (so_keys _ _ _ _ Hql).
    + by rewrite stable_sort_perm.
  - rewrite E. simpl. rewrite retained_slot_eq; [|apply Hq'|apply Hq']. simpl. eauto.
Qed.

(** Entries of other cells. *)
Definition others (id : tail_identity) (l : list exact_entry) : list exact_entry := filter (fun x => ekey x <> key_of id) l.

(** What a new row takes its slot from. *)
Definition after_eviction (in_batch : bool) (l : list exact_entry) : list exact_entry :=
  if (g_compact c || negb in_batch) && (seq_limit c <=? Z.of_nat (length l)) then tail l else l.

Lemma take_slot_ok in_batch q : seq_wf c i [] q ->
  (exists slot q', take_slot c i in_batch q = Ok (slot, q') /\ q_entries q' = after_eviction in_batch (q_entries q) /\
     q_index q' = index_of (q_entries q') /\ seq_ok c i [slot] q') \/
  (take_slot c i in_batch q = Err RuntimeError /\ g_compact c = false /\ in_batch = true /\
     Z.of_nat (length (q_entries q)) = g_stride c).
Proof.
  intros [Hq Ho Hx Hb]. unfold take_slot, after_eviction.
  assert (forall b, (b = true -> Z.of_nat (length (q_entries q)) < seq_limit c) ->
    (exists slot q', acquire c i q = Ok (slot, q') /\ q_entries q' = q_entries q /\
       q_index q' = index_of (q_entries q') /\ seq_ok c i [slot] q') \/
    (acquire c i q = Err RuntimeError /\ b = false /\ Z.of_nat (length (q_entries q)) = g_stride c)) as Hacq.
  { intros b Hlt. destruct (acquire_ok c n i Hc Hi [] q Hq) as [(slot & cur & used & E & _ & Hq')|[E Hfull]].
    - left. do 2 eexists. split; [exact E|]. done.
    - right. rewrite app_nil_r, length_fmap in Hfull. split; [done|]. split; [|done].
      destruct b; [|done]. specialize (Hlt eq_refl). destruct Hc. lia. }
  destruct (g_compact c || negb in_batch) eqn:Eb; simpl.
  - destruct (_ <=? _) eqn:El; bprop.
    + destruct (q_entries q) as [|v l] eqn:E; [simpl in El; lia|].
      destruct (erase_keep_ok c i [] q v Hq) as [Ee Hok]; [rewrite E; by left|].
      assert (erase_node (e_id v) (q_entries q) = l) as El' by (rewrite E; simpl; by rewrite decide_True).
      rewrite El' in *. rewrite Ee. simpl. left. do 2 eexists. split; [done|]. split; [done|]. split; [|done].
      simpl. rewrite Hx. apply index_of_delete_front. pose proof (so_keys _ _ _ _ Hq) as Hn.
      rewrite E, fmap_cons in Hn. by apply NoDup_cons in Hn as [? _].
    + assert (match q_entries q with [] => acquire c i q | _ :: _ => acquire c i q end = acquire c i q) as -> by (by destruct (q_entries q)).
      destruct (Hacq true) as [?|(? & ? & ?)]; [lia|by left|done].
  - apply orb_false_iff in Eb as [Ec Ebatch]. apply negb_false_iff in Ebatch.
    assert (match q_entries q with [] => acquire c i q | _ :: _ => acquire c i q end = acquire c i q) as -> by (by destruct (q_entries q)).
    destruct (Hacq false) as [?|(? & ? & ?)]; [done|by left|right]. done.
Qed.

(** Entries after a new row: those of other cells, less the evicted one, with the row
    in its place; trimmed unless a batch is open. *)
Definition after_new (in_batch : bool) (x : exact_entry) (l : list exact_entry) : list exact_entry :=
  let l' := insert_before_greater x (after_eviction in_batch (others (e_id x) l)) in
  if in_batch then l' else newest (seq_limit c) l'.

Lemma others_wf extra q id : seq_wf c i extra q -> exists q',
  (match q_index q !! key_of id with Some nid => lift_seq (erase_entry c i nid true) | None => (mret tt : stx seq_state unit) end) q = (Ok tt, q') /\
  q_entries q' = others id (q_entries q) /\ seq_wf c i extra q'.
Proof.
  intros [Hq Ho Hx Hb]. pose proof (so_keys _ _ _ _ Hq) as Hn.
  destruct (q_index q !! key_of id) as [nid|] eqn:E.
  - destruct (index_lookup q _ _ Hn Hx E) as (e & He & Hk & <-).
    destruct (erase_release_ok c n i Hc Hi extra q e Hq He) as (used & Ee & Hq').
    unfold lift_seq. rewrite Ee. eexists. split; [done|]. simpl.
    split; [unfold others; rewrite <- Hk; by apply erase_node_filter|]. split; simpl.
    + done.
    + by apply erase_node_sub.
    + rewrite Hx. by apply index_of_erase.
    + intros Hcomp. pose proof (erase_node_length _ _ Hn He). specialize (Hb Hcomp). lia.
  - exists q. split; [done|]. split; [|done]. unfold others. rewrite list_filter_id; [done|].
    intros e He Ek. rewrite Hx in E. apply index_of_keys in E. apply E. rewrite <- Ek.
    by apply (list_elem_of_fmap_2 (fun e => ekey e)).
Qed.

Lemma after_eviction_sub in_batch l e : e ∈ after_eviction in_batch l -> e ∈ l.
Proof. unfold after_eviction. destruct (_ && _); [|done]. destruct l; [done|]. by right. Qed.

Lemma after_eviction_ordered in_batch l : ordered entry_lt l -> ordered entry_lt (after_eviction in_batch l).
Proof. unfold after_eviction. destruct (_ && _); [|done]. destruct l; [done|]. intros H. by apply StronglySorted_inv in H as [? _]. Qed.

Lemma after_eviction_bound in_batch l : g_compact c = true -> Z.of_nat (length l) <= seq_limit c ->
  Z.of_nat (length (after_eviction in_batch l)) < seq_limit c.
Proof.
  intros Hcomp Hl. unfold after_eviction. rewrite Hcomp. simpl. destruct (_ <=? _) eqn:E; bprop; [|lia].
  destruct l; simpl in *; lia.
Qed.

Lemma append_entry_wf (in_batch : bool) id p o slot q : id_ok id -> seq_ok c i [slot] q ->
  q_index q = index_of (q_entries q) -> ordered entry_lt (q_entries q) -> key_of id ∉ keys (q_entries q) ->
  (g_compact c = true -> Z.of_nat (length (q_entries q)) < seq_limit c) ->
  let q1 := count_recovery c (append_entry (mk_entry id p o slot) q) in
  exists q', (if in_batch then (mret tt : stx seq_state unit) else lift_seq (trim c i (seq_limit c))) q1 = (Ok tt, q') /\ seq_wf c i [] q' /\
  q_entries q' = (let l := insert_before_greater (mk_entry id p o slot) (q_entries q) in
                  if (in_batch : bool) then l else newest (seq_limit c) l).
Proof.
  intros Hid Hq Hx Ho Hk Hb q1. set (x := mk_entry id p o slot). set (l := insert_before_greater x (q_entries q)).
  assert (l ≡ₚ x :: q_entries q) as Hp by apply insert_before_greater_perm.
  assert (q_entries q1 = l /\ q_index q1 = <[key_of id := id]> (q_index q) /\ q_used q1 = q_used q /\ q_cursor q1 = q_cursor q)
    as (E1 & E2 & E3 & E4).
  { unfold q1, count_recovery, append_entry. fold x. rewrite (insert_entry_eq x _ Ho).
    repeat case_match; simpl; done. }
  assert (seq_ok c i [] q1) as Hq1.
  { eapply (seq_ok_proper c i [] [] (set_entries l q)); simpl; rewrite ?E1, ?E3, ?E4; try done.
    by eapply (seq_ok_add c i [] x). }
  assert (q_index q1 = index_of (q_entries q1)) as Hx1.
  { rewrite E2, E1, Hx. rewrite (index_of_perm l (x :: q_entries q)); [done| |done].
    pose proof (so_keys _ _ _ _ Hq1) as Hn. by rewrite E1 in Hn. }
  assert (ordered entry_lt (q_entries q1)) as Ho1 by (rewrite E1; by apply insert_before_greater_ordered).
  destruct in_batch.
  - exists q1. split; [done|]. split; [|done]. split; try done. intros Hcomp. rewrite E1, Hp. simpl.
    specialize (Hb Hcomp). lia.
  - destruct (trim_wf [] q1 Hq1 Ho1 Hx1) as (q' & E & Hq' & El). exists q'. unfold lift_seq. rewrite E, El, E1. done.
Qed.

Lemma commit_new_ok in_batch id p o q : seq_wf c i [] q -> id_ok id ->
  (exists slot q', commit_new c i in_batch id p o q = (Ok (slot_of id (q_entries q')), q') /\ seq_wf c i [] q' /\
     q_entries q' = after_new in_batch (mk_entry id p o slot) (q_entries q)) \/
  (exists q', commit_new c i in_batch id p o q = (Err RuntimeError, q') /\ seq_wf c i [] q' /\
     q_entries q' = others id (q_entries q) /\ g_compact c = false /\ in_batch = true /\
     Z.of_nat (length (others id (q_entries q))) = g_stride c).
Proof.
  intros Hq Hid. unfold commit_new, mbind, stx_bind, stx_get, stx_lift.
  destruct (others_wf [] q id Hq) as (q1 & E0 & El & Hq1). rewrite E0. simpl.
  destruct (take_slot_ok in_batch q1 Hq1) as [(slot & q2 & E & El2 & Hx2 & Hq2)|(E & H1 & H2 & H3)].
  - left. exists slot. rewrite E. simpl.
    assert (key_of id ∉ keys (q_entries q2)) as Hk.
    { rewrite El2. intros (e & Ek & He)%list_elem_of_fmap. apply after_eviction_sub in He. rewrite El in He.
      apply list_elem_of_filter in He as [Hne _]. by apply Hne. }
    destruct (append_entry_wf in_batch id p o slot q2 Hid Hq2 Hx2) as (q' & Eq & Hq' & El').
    + rewrite El2. apply after_eviction_ordered, Hq1.
    + done.
    + intros Hcomp. rewrite El2. apply after_eviction_bound; [done|]. by apply Hq1.
    + rewrite Eq. exists q'. rewrite retained_slot_eq by apply Hq'. split; [done|]. split; [done|].
      rewrite El', El2, El. done.
  - right. exists q1. rewrite E, <- El. auto 10.
Qed.

Lemma commit_seq_ok in_batch id p o q : seq_wf c i [] q -> id_ok id ->
  (exists q', commit_seq c i in_batch id p o q = (Ok (slot_of id (q_entries q')), q') /\ seq_wf c i [] q' /\
     ((id ∈ e_id <$> q_entries q /\ q_entries q' = newest (seq_limit c)
         (stable_sort entry_lt (update_node id (fun e => mk_entry (e_id e) p o (e_slot e)) (q_entries q)))) \/
      (id ∉ e_id <$> q_entries q /\
       exists slot, q_entries q' = after_new in_batch (mk_entry id p o slot) (q_entries q)))) \/
  (exists q', commit_seq c i in_batch id p o q = (Err RuntimeError, q') /\ seq_wf c i [] q' /\
     q_entries q' = others id (q_entries q) /\ id ∉ e_id <$> q_entries q /\
     g_compact c = false /\ in_batch = true /\ Z.of_nat (length (others id (q_entries q))) = g_stride c).
Proof.
  intros Hq Hid. pose proof (so_keys _ _ _ _ (sw_ok _ _ _ _ Hq)) as Hn. unfold commit_seq.
  assert (id ∉ e_id <$> q_entries q ->
    (exists q', commit_new c i in_batch id p o q = (Ok (slot_of id (q_entries q')), q') /\ seq_wf c i [] q' /\
     ((id ∈ e_id <$> q_entries q /\ q_entries q' = newest (seq_limit c)
         (stable_sort entry_lt (update_node id (fun e => mk_entry (e_id e) p o (e_slot e)) (q_entries q)))) \/
      (id ∉ e_id <$> q_entries q /\
       exists slot, q_entries q' = after_new in_batch (mk_entry id p o slot) (q_entries q)))) \/
    (exists q', commit_new c i in_batch id p o q = (Err RuntimeError, q') /\ seq_wf c i [] q' /\
     q_entries q' = others id (q_entries q) /\ id ∉ e_id <$> q_entries q /\
     g_compact c = false /\ in_batch = true /\ Z.of_nat (length (others id (q_entries q))) = g_stride c)) as Hnew.
  { intros Hni. destruct (commit_new_ok in_batch id p o q Hq Hid) as [(slot & q' & ? & ? & ?)|(q' & ? & ? & ? & ?)].
    - left. exists q'. eauto 10.
    - right. exists q'. auto 10. }
  destruct (q_index q !! key_of id) as [nid|] eqn:E.
  - destruct (index_lookup q _ _ Hn (sw_index _ _ _ _ Hq) E) as (e & He & Hk & <-).
    case_decide as Hid'.
    + assert (id ∈ e_id <$> q_entries q) as Hin by (rewrite <- Hid'; by apply (list_elem_of_fmap_2 e_id)).
      destruct (commit_existing_ok [] q id p o Hq Hin) as (q' & -> & ? & ?). left. exists q'. auto.
    + apply Hnew. intros (e' & -> & He')%list_elem_of_fmap. apply Hid'. by rewrite (key_unique _ _ _ Hn He He' Hk).
  - apply Hnew. intros (e' & -> & He')%list_elem_of_fmap. rewrite (sw_index _ _ _ _ Hq) in E.
    apply index_of_keys in E. apply E. by apply (list_elem_of_fmap_2 (fun e => ekey e)).
Qed.
End commit.

(** *** Preparing and installing a copy *)

(** Another list with the same slots, whoever owns them. *)
Lemma seq_ok_swap c i extra extra' l q :
  NoDup (keys l) -> Forall (fun e => id_ok (e_id e)) l ->
  slots l ++ extra' ≡ₚ slots (q_entries q) ++ extra -> seq_ok c i extra q -> seq_ok c i extra' (set_entries l q).
Proof.
  intros Hk Hid Hp [H1 H2 H3 H4 H5 H6]. split; simpl; try done.
  - by rewrite Hp.
  - by rewrite Hp.
  - eapply used_ok_proper; [|exact H5]. intros x _. by rewrite !elem_of_list_to_set, Hp.
Qed.

Lemma release_all_entries c i slots l q :
  release_all c i slots (set_entries l q) = set_entries l <$> release_all c i slots q.
Proof.
  unfold release_all. revert q. induction slots as [|s slots IH]; intros q; [done|]. cbn [foldM].
  assert (release c i s (set_entries l q) = set_entries l <$> release c i s q) as ->.
  { unfold release. simpl. by destruct (release_used c i s (q_used q)). }
  destruct (release c i s q); simpl; [apply IH|done].
Qed.

(** How a candidate ends up in the destination, and the copies that takes. *)
Definition placed (cd : retained_candidate) (e : exact_entry) : Prop :=
  if cd_copied cd then e = with_slot (cd_entry cd) (e_slot e) else e = cd_entry cd.

Definition copies_of (cands : list retained_candidate) (dest : list exact_entry) : list slot_copy :=
  omap (fun x : retained_candidate * exact_entry =>
    if cd_copied x.1 then Some (mk_copy (cd_src_slot x.1) (e_slot x.2)) else None) (zip cands dest).

Definition kept_slots (cands : list retained_candidate) : list Z :=
  (fun cd => e_slot (cd_entry cd)) <$> filter (fun cd => cd_copied cd = false) cands.

Lemma kept_slots_length cands : (length (kept_slots cands) <= length cands)%nat.
Proof. unfold kept_slots. rewrite length_fmap. apply length_filter. Qed.

Section place.
Context (c : tail_cfg) (n : nat) (i : nat).
Hypothesis Hc : cfg_ok c n.
Hypothesis Hi : (i < n)%nat.

(** The slots of the arena are split among the entries placed so far, the slots still
    free to reuse and the survivors still to come. *)
Definition placing (todo : list retained_candidate) (pl : placement) (q : seq_state) : Prop :=
  seq_ok c i (pl_acquired pl) q /\
  slots (pl_dest pl) ++ pl_reusable pl ++ kept_slots todo ≡ₚ slots (q_entries q) ++ pl_acquired pl /\
  (pl_acquired pl <> [] -> pl_reusable pl = []) /\
  Z.of_nat (length (pl_dest pl) + length todo) <= seq_limit c.

Lemma place_ok todo pl q : placing todo pl q -> exists pl' cur used new,
  let q' := set_cursor cur (set_qused used q) in
  place_candidates c i todo pl q = (Ok pl', q') /\ placing [] pl' q' /\
  pl_dest pl' = pl_dest pl ++ new /\ Forall2 placed todo new /\ pl_copies pl' = pl_copies pl ++ copies_of todo new.
Proof.
  revert pl q. induction todo as [|cd todo IH]; intros pl q Hp.
  { exists pl, (q_cursor q), (q_used q), []. simpl. unfold copies_of. simpl. rewrite !app_nil_r.
    split; [by destruct q|]. split; [by destruct q|]. done. }
  assert (forall e copies reus acq cur used, placed cd e ->
    let pl1 := mk_placement reus acq (pl_copies pl ++ copies) (pl_dest pl ++ [e]) in
    let q1 := set_cursor cur (set_qused used q) in
    copies = copies_of [cd] [e] -> placing todo pl1 q1 ->
    exists pl' cur used new, let q' := set_cursor cur (set_qused used q) in
      place_candidates c i todo pl1 q1 = (Ok pl', q') /\ placing [] pl' q' /\
      pl_dest pl' = pl_dest pl ++ new /\ Forall2 placed (cd :: todo) new /\
      pl_copies pl' = pl_copies pl ++ copies_of (cd :: todo) new) as Hstep.
  { intros e copies reus acq cur used He pl1 q1 -> Hp1.
    destruct (IH pl1 q1 Hp1) as (pl' & cur' & used' & new & E & Hp' & Ed & Hn & Ecp).
    exists pl', cur', used', (e :: new). split; [exact E|]. split; [done|]. simpl in Ed, Ecp.
    rewrite <- app_assoc in Ed. split; [done|]. split; [by constructor|]. rewrite Ecp, <- app_assoc. f_equal.
    unfold copies_of. simpl. by destruct (cd_copied cd). }
  destruct Hp as (Hok & Hperm & Hre & Hlen). unfold kept_slots in Hperm. rewrite filter_cons in Hperm. simpl in Hlen |- *.
  destruct (cd_copied cd) eqn:Ecp; simpl in Hperm.
  - fold (kept_slots todo) in Hperm. destruct (last (pl_reusable pl)) as [slot|] eqn:El.
    + apply last_Some in El as [reus Er]. rewrite Er in *. rewrite removelast_last.
      assert (pl_acquired pl = []) as Ea.
      { destruct (pl_acquired pl); [done|]. destruct reus; by discriminate Hre. }
      rewrite <- Ea in Hperm. rewrite Ea in *.
      destruct (Hstep (with_slot (cd_entry cd) slot) [mk_copy (cd_src_slot cd) slot] reus []
        (q_cursor q) (q_used q)) as (pl' & cur & used & new & E & H).
      * unfold placed. by rewrite Ecp.
      * unfold copies_of. simpl. by rewrite Ecp.
      * replace (set_cursor (q_cursor q) (set_qused (q_used q) q)) with q by (by destruct q).
        split; [done|]. simpl. rewrite fmap_app. simpl. split; [|split; [done|rewrite length_app; simpl; lia]].
        rewrite <- Hperm, <- !app_assoc. simpl. by rewrite (Permutation_middle reus).
      * replace (set_cursor (q_cursor q) (set_qused (q_used q) q)) with q in E by (by destruct q).
        exists pl', cur, used, new. done.
    + apply last_None in El. rewrite El in *. simpl in Hperm.
      destruct (acquire_ok c n i Hc Hi _ q Hok) as [(slot & cur & used & E & Hni & Hok')|[_ Hfull]].
      * rewrite E. apply (Hstep (with_slot (cd_entry cd) slot) [mk_copy (cd_src_slot cd) slot]).
        -- unfold placed. by rewrite Ecp.
        -- unfold copies_of. simpl. by rewrite Ecp.
        -- split; [|split; [|split; [done|simpl; rewrite length_app; simpl; lia]]]; simpl.
           ++ eapply seq_ok_extra, Hok'. by rewrite Permutation_app_comm.
           ++ rewrite fmap_app, <- !app_assoc. simpl.
              rewrite <- (Permutation_middle (slots (pl_dest pl)) (kept_slots todo)), Hperm.
              rewrite app_assoc. by rewrite Permutation_cons_append.
      * exfalso. rewrite <- Hperm, length_app, length_fmap in Hfull.
        pose proof (kept_slots_length todo). destruct Hc. lia.
  - fold (kept_slots todo) in Hperm.
    destruct (Hstep (cd_entry cd) [] (pl_reusable pl) (pl_acquired pl) (q_cursor q) (q_used q))
      as (pl' & cur & used & new & E & H).
    + unfold placed. by rewrite Ecp.
    + unfold copies_of. simpl. by rewrite Ecp.
    + replace (set_cursor (q_cursor q) (set_qused (q_used q) q)) with q by (by destruct q).
      split; [done|]. simpl. rewrite fmap_app. simpl. split; [|split; [done|rewrite length_app; simpl; lia]].
      rewrite <- Hperm, <- !app_assoc. simpl. by rewrite (Permutation_middle (pl_reusable pl)).
    + replace (set_cursor (q_cursor q) (set_qused (q_used q) q)) with q in E by (by destruct q).
      rewrite app_nil_r in E. exists pl', cur, used, new. done.
Qed.
End place.

(** What [prepare_seq_cp] promises to [commit_seq_cp] about its destination. *)
Record pending_ok (c : tail_cfg) (q : seq_state) (p : pending_seq_cp_state) : Prop := {
  po_sorted : ordered entry_lt (pc_destination p);
  po_keys : NoDup (keys (pc_destination p));
  po_ids : Forall (fun e => id_ok (e_id e)) (pc_destination p);
  po_bound : Z.of_nat (length (pc_destination p)) <= seq_limit c;
  po_slots : exists free, slots (pc_destination p) ++ free ≡ₚ slots (q_entries q) ++ pc_acquired p;
  po_acquired : forall s, s ∈ pc_acquired p -> s ∈ slots (pc_destination p)
}.

Lemma used_ok_unique c i X u1 u2 : used_ok c i X u1 -> used_ok c i X u2 -> u1 = u2.
Proof.
  intros [L1 H1] [L2 H2]. apply list_eq. intros k. destruct (decide (Z.of_nat k < g_stride c)).
  - by rewrite H1, H2.
  - rewrite !lookup_ge_None_2 by lia. done.
Qed.

Section pending.
Context (c : tail_cfg) (n : nat) (i : nat).
Hypothesis Hc : cfg_ok c n.
Hypothesis Hi : (i < n)%nat.

Lemma kept_slots_app a b : kept_slots (a ++ b) = kept_slots a ++ kept_slots b.
Proof. unfold kept_slots. by rewrite filter_app, fmap_app. Qed.

Lemma kept_slots_perm a b : a ≡ₚ b -> kept_slots a ≡ₚ kept_slots b.
Proof. intros H. unfold kept_slots. by rewrite H. Qed.

Lemma kept_slots_drop k a : kept_slots (drop k a) ⊆+ kept_slots a.
Proof. rewrite <- (take_drop k a) at 2. rewrite kept_slots_app. apply submseteq_inserts_l. done. Qed.

(** Survivors keep slots of the destination. *)
Lemma cp_candidates_kept srcE dstE ss ds p0 p1 :
  kept_slots (cp_candidates c srcE dstE ss ds p0 p1) ⊆+ slots dstE.
Proof.
  unfold cp_candidates. etrans; [apply kept_slots_drop|].
  rewrite (kept_slots_perm _ _ (stable_sort_perm cand_lt _)), kept_slots_app.
  set (k := filter _ dstE). set (s := filter _ srcE).
  assert (kept_slots ((fun e => mk_cand e (e_slot e) false) <$> k) = slots k) as ->.
  { clearbody k. induction k as [|e k IH]; [done|]. unfold kept_slots in *. rewrite fmap_cons, filter_cons_True by done.
    rewrite !fmap_cons, IH. done. }
  assert (kept_slots ((fun e => mk_cand (copy_entry ds e) (e_slot e) true) <$> s) = []) as ->.
  { clearbody s. induction s as [|e s IH]; [done|]. unfold kept_slots in *. by rewrite fmap_cons, filter_cons_False. }
  rewrite app_nil_r. apply fmap_submseteq, sublist_submseteq. unfold k. apply sublist_filter.
Qed.

Lemma cp_reusable_perm cands E : NoDup (slots E) -> kept_slots cands ⊆+ slots E ->
  cp_reusable cands E ++ kept_slots cands ≡ₚ slots E.
Proof.
  intros Hn Hs. assert (NoDup (kept_slots cands)) as Hk.
  { apply submseteq_Permutation in Hs as [k Hk]. rewrite Hk in Hn. by apply NoDup_app in Hn as [? _]. }
  assert (forall x, x ∈ cp_reusable cands E <-> x ∈ slots E /\ x ∉ kept_slots cands) as Hr.
  { intros x. unfold cp_reusable. fold (kept_slots cands). rewrite !list_elem_of_fmap. split.
    - intros (e & -> & [He1 He2]%list_elem_of_filter). split; [by exists e|done].
    - intros [(e & -> & He) Hx]. exists e. split; [done|]. by apply list_elem_of_filter. }
  apply NoDup_Permutation.
  - apply NoDup_app. split; [|split; [|done]].
    + unfold cp_reusable. eapply sublist_NoDup; [exact Hn|]. apply fmap_sublist, sublist_filter.
    + intros x Hx. by apply Hr in Hx as [_ ?].
  - done.
  - intros x. rewrite elem_of_app, Hr. split; [intros [[? ?]|Hx]; [done|by eapply elem_of_submseteq]|].
    intros Hx. destruct (decide (x ∈ kept_slots cands)); tauto.
Qed.

Lemma cp_candidates_length srcE dstE ss ds p0 p1 : 0 <= seq_limit c ->
  Z.of_nat (length (cp_candidates c srcE dstE ss ds p0 p1)) <= seq_limit c.
Proof. intros. unfold cp_candidates. rewrite length_drop. lia. Qed.

#[local] Instance cand_lt_order : StrictWeakOrder cand_lt.
Proof.
  split; unfold cand_lt.
  - intros a b. apply swo_asym.
  - intros a b d. apply swo_negtrans.
Qed.

Lemma cp_candidates_sorted srcE dstE ss ds p0 p1 : ordered cand_lt (cp_candidates c srcE dstE ss ds p0 p1).
Proof. apply ordered_drop, stable_sort_ordered, _. Qed.

(** Every candidate is a row of the destination outside the range or a copy of a row
    of the source inside it. *)
Lemma elem_of_cp_candidates srcE dstE ss ds p0 p1 cd : cd ∈ cp_candidates c srcE dstE ss ds p0 p1 ->
  (exists e, e ∈ dstE /\ outside p0 p1 e = true /\ cd = mk_cand e (e_slot e) false) \/
  (exists e, e ∈ srcE /\ id_stream (e_id e) = ss /\ outside p0 p1 e = false /\ cd = mk_cand (copy_entry ds e) (e_slot e) true).
Proof.
  unfold cp_candidates. intros H.
  assert (cd ∈ stable_sort cand_lt (((fun e => mk_cand e (e_slot e) false) <$> filter (fun e => outside p0 p1 e) dstE) ++
    ((fun e => mk_cand (copy_entry ds e) (e_slot e) true) <$>
       filter (fun e => negb (negb (id_stream (e_id e) =? ss) || outside p0 p1 e)) srcE))) as H'.
  { eapply elem_of_submseteq; [exact H|]. apply sublist_submseteq, sublist_drop. }
  rewrite stable_sort_perm in H'. apply elem_of_app in H' as [H'|H'];
    apply list_elem_of_fmap in H' as (e & -> & [Hp He]%list_elem_of_filter).
  - left. exists e. split; [done|]. split; [|done]. by apply Is_true_true.
  - right. exists e. apply Is_true_true in Hp. bprop. done.
Qed.

Lemma placed_ordered cands dest : Forall2 placed cands dest -> ordered cand_lt cands -> ordered entry_lt dest.
Proof.
  assert (forall cd e, placed cd e -> e_pos e = e_pos (cd_entry cd) /\ e_ord e = e_ord (cd_entry cd)) as Hp.
  { intros cd e. unfold placed. destruct (cd_copied cd); intros ->; done. }
  unfold ordered. induction 1 as [|cd e cands dest He Hall IH]; intros Ho; [constructor|].
  apply StronglySorted_inv in Ho as [Ho Hcd]. constructor; [by apply IH|].
  clear IH Ho. induction Hall as [|cd' e' cands dest He' Hall IH]; [constructor|].
  apply Forall_cons in Hcd as [Hcd Hcds]. constructor; [|by apply IH].
  destruct (Hp _ _ He) as [E1 E2], (Hp _ _ He') as [E3 E4]. unfold cand_lt, entry_lt in *. by rewrite E1, E2, E3, E4.
Qed.

Lemma placed_ids cands dest : Forall2 placed cands dest -> e_id <$> dest = (fun cd => e_id (cd_entry cd)) <$> cands.
Proof.
  induction 1 as [|cd e cands dest He Hall IH]; [done|]. rewrite !fmap_cons, IH. f_equal.
  unfold placed in He. destruct (cd_copied cd); by rewrite He.
Qed.

Definition cand_ids (cands : list retained_candidate) : list tail_identity := (fun cd => e_id (cd_entry cd)) <$> cands.

Lemma prepare_place srcE ss ds p0 p1 q :
  seq_wf c i [] q -> Forall (fun e => id_ok (e_id e)) srcE -> 0 <= ds <= UINT32_MAX ->
  let cands := cp_candidates c srcE (q_entries q) ss ds p0 p1 in
  NoDup (key_of <$> cand_ids cands) ->
  exists pl cur used, let q' := set_cursor cur (set_qused used q) in
    place_candidates c i cands (mk_placement (cp_reusable cands (q_entries q)) [] [] []) q = (Ok pl, q') /\
    seq_wf c i (pl_acquired pl) q' /\ Forall2 placed cands (pl_dest pl) /\
    pl_copies pl = copies_of cands (pl_dest pl) /\
    forall s d dg r, pending_ok c q' (mk_pending s d (pl_dest pl) (pl_copies pl) (pl_acquired pl) dg r).
Proof.
  intros [Hq Ho Hx Hb] Hsrc Hds cands Hn.
  assert (NoDup (slots (q_entries q))) as Hnd.
  { pose proof (so_nodup _ _ _ _ Hq) as H. by rewrite app_nil_r in H. }
  destruct (place_ok c n i Hc Hi cands (mk_placement (cp_reusable cands (q_entries q)) [] [] []) q)
    as (pl & cur & used & new & E & (Hok & Hperm & Hre & Hlen) & Ed & Hp & Ecp).
  { split; [done|]. split; [|split; [done|]]; simpl.
    - rewrite app_nil_r. apply cp_reusable_perm; [done|]. apply cp_candidates_kept.
    - apply cp_candidates_length. by destruct Hc. }
  simpl in Ed, Ecp. rewrite Ed in *. exists pl, cur, used. split; [exact E|]. split; [by split|].
  rewrite ?Ed. split; [done|]. split; [done|]. intros s d dg r. rewrite ?Ed. unfold kept_slots in Hperm. simpl in Hperm. rewrite app_nil_r in Hperm.
  split; simpl.
  - eapply placed_ordered; [exact Hp|]. apply cp_candidates_sorted.
  - assert (keys new = key_of <$> (e_id <$> new)) as -> by (by rewrite <- list_fmap_compose).
    by rewrite (placed_ids _ _ Hp).
  - apply Forall_fmap with (f := e_id) (P := id_ok). rewrite (placed_ids _ _ Hp). apply Forall_fmap, Forall_forall.
    intros cd Hcd. apply elem_of_cp_candidates in Hcd as [(e & He & _ & ->)|(e & He & _ & _ & ->)]; simpl.
    + exact (proj1 (Forall_forall _ _) (so_ids _ _ _ _ Hq) e He).
    + destruct (proj1 (Forall_forall _ _) Hsrc e He) as [_ ?]. by split.
  - rewrite <- (Forall2_length _ _ _ Hp). apply cp_candidates_length. destruct Hc; lia.
  - exists (pl_reusable pl). by rewrite Hperm.
  - intros x Hx'. destruct (pl_acquired pl) as [|a l] eqn:Ea; [by apply not_elem_of_nil in Hx'|].
    rewrite Hre, app_nil_r in Hperm by done. rewrite Hperm. set_solver.
Qed.

Lemma install_ok p q : seq_wf c i (pc_acquired p) q -> pending_ok c q p -> exists q',
  install_destination c i p q = (Ok tt, q') /\ seq_wf c i [] q' /\ q_entries q' = pc_destination p /\
  q_degr q' = pc_degr p /\ q_recov q' = pc_recov p /\ q_cursor q' = q_cursor q.
Proof.
  intros [Hq Ho Hx Hb] [P1 P2 P3 P4 [free P5] P6]. unfold install_destination, mbind, stx_bind, lift_seq.
  set (dead := filter (fun s => s ∉ slots (pc_destination p)) (slots (q_entries q))).
  assert (NoDup (slots (pc_destination p) ++ free)) as Hn.
  { rewrite P5. apply Hq. }
  apply NoDup_app in Hn as (Hn1 & Hn2 & Hn3).
  assert (dead ≡ₚ free) as Hdead.
  { apply NoDup_Permutation; [|done|].
    - apply NoDup_filter. pose proof (so_nodup _ _ _ _ Hq) as H. by apply NoDup_app in H as [? _].
    - intros x. unfold dead. rewrite list_elem_of_filter. split.
      + intros [Hx1 Hx2]. assert (x ∈ slots (pc_destination p) ++ free) as Hx3 by (rewrite P5; set_solver).
        apply elem_of_app in Hx3 as [?|?]; done.
      + intros Hf. assert (x ∈ slots (q_entries q) ++ pc_acquired p) as Hx3 by (rewrite <- P5; set_solver).
        split; [intros Hd; by destruct (Hn2 x Hd)|]. apply elem_of_app in Hx3 as [?|Ha]; [done|].
        exfalso. apply (Hn2 x); [by apply P6|done]. }
  assert (seq_ok c i (dead ++ []) (set_entries (pc_destination p) q)) as Hd.
  { eapply seq_ok_swap; [done|done| |exact Hq]. rewrite app_nil_r, Hdead. done. }
  destruct (release_all_ok c n i Hc Hi dead [] _ Hd) as (used & E & Hok).
  rewrite release_all_entries in E. fold dead. destruct (release_all c i dead q) as [q1|] eqn:E1; [|done].
  assert (set_entries (pc_destination p) q1 = set_qused used (set_entries (pc_destination p) q)) as E' by (simpl in E; congruence).
  simpl. rewrite E', rebuild_index_eq by apply Hok. simpl.
  eexists. split; [done|]. split; [|done]. split; simpl; try done.
  eapply seq_ok_proper, Hok; done.
Qed.

Lemma cancel_ok acquired q : seq_wf c i acquired q -> exists used,
  release_all c i acquired q = Ok (set_qused used q) /\ seq_wf c i [] (set_qused used q).
Proof.
  intros [Hq Ho Hx Hb]. destruct (release_all_ok c n i Hc Hi acquired [] q) as (used & E & Hok).
  { by rewrite app_nil_r. }
  exists used. split; [done|]. by split.
Qed.
End pending.
