(* ===== verification/TailInvariant.v ===== *)
(** * The tail store's invariant and its operations

    The invariant of the whole store, lifted from one sequence: constants from
    construction, every sequence well formed, a pending copy whose destination fits
    its sequence, and a batch transaction that saved well-formed sequences.  Every
    operation keeps it, whether it returns or throws; the functional theorems about
    batches, commits, copies, queries and restored state are stated under it. *)

From S2P Require Export TailStoreWf.
Open Scope Z_scope.

(** ** The invariant *)

(** Slots a pending copy has taken for sequence [i]. *)
Definition extra_of (s : tail_store) (i : nat) : list Z :=
  match t_pending s with
  | Some p => if decide (Z.of_nat i = pc_dst p) then pc_acquired p else []
  | None => []
  end.

Definition with_index (v : saved_seq) : seq_state :=
  mk_seq (sv_entries v) (index_of (sv_entries v)) (sv_used v) (sv_cursor v) (sv_degr v) (sv_recov v).

Definition batch_ok (s : tail_store) (tx : batch_transaction_state) : Prop :=
  length (tx_saved tx) = length (t_seqs s) /\ length (tx_current tx) = length (t_seqs s) /\
  length (tx_affected tx) = length (t_seqs s) /\
  forall i v, tx_saved tx !! i = Some v -> seq_wf (t_cfg s) i [] (with_index v).

Record store_wf (s : tail_store) : Prop := {
  st_cfg : cfg_ok (t_cfg s) (length (t_seqs s));
  st_seqs : forall i q, t_seqs s !! i = Some q -> seq_wf (t_cfg s) i (extra_of s i) q;
  st_pending : forall p, t_pending s = Some p ->
    valid_seq s (pc_dst p) = true /\
    forall q, t_seqs s !! Z.to_nat (pc_dst p) = Some q -> pending_ok (t_cfg s) q p;
  st_batch : forall tx, t_batch s = Some tx -> batch_ok s tx
}.

Lemma valid_seq_lookup s i : valid_seq s i = true <-> 0 <= i /\ is_Some (t_seqs s !! Z.to_nat i).
Proof. unfold valid_seq. rewrite andb_true_iff, lookup_lt_is_Some. rewrite Z.leb_le, Z.ltb_lt. lia. Qed.

Lemma limit_pos c n : cfg_ok c n -> g_n_tokens c <> 0 -> 0 < seq_limit c.
Proof. intros [] H. unfold seq_limit in *. destruct (g_compact c); lia. Qed.

(** ** Store-level plumbing *)

Lemma extra_of_none s i : t_pending s = None -> extra_of s i = [].
Proof. unfold extra_of. by intros ->. Qed.

Lemma on_seq_run {A} i (m : stx seq_state A) s q r q' :
  t_seqs s !! i = Some q -> m q = (r, q') -> on_seq i m s = (r, set_seqs (<[i := q']> (t_seqs s)) s).
Proof. intros Hq Hm. unfold on_seq. by rewrite Hq, Hm. Qed.

(** Replacing the sequences of a well-formed store without a pending copy. *)
Lemma set_seqs_wf l s : store_wf s -> t_pending s = None -> length l = length (t_seqs s) ->
  (forall i q, l !! i = Some q -> seq_wf (t_cfg s) i [] q) -> store_wf (set_seqs l s).
Proof.
  intros [H1 H2 H3 H4] Hp Hl Hw. split; simpl.
  - by rewrite Hl.
  - intros i q Hq. rewrite extra_of_none by done. by apply Hw.
  - intros p Hp'. congruence.
  - intros tx Htx. destruct (H4 tx Htx) as (? & ? & ? & ?). unfold batch_ok. simpl. by rewrite Hl.
Qed.

Lemma insert_seq_wf i q s : store_wf s -> t_pending s = None -> seq_wf (t_cfg s) i [] q ->
  store_wf (set_seqs (<[i := q]> (t_seqs s)) s).
Proof.
  intros Hs Hp Hq. apply set_seqs_wf; try done; [by rewrite length_insert|].
  intros j q' Hj. apply list_lookup_insert_Some in Hj as [(-> & -> & _)|[_ Hj]]; [done|].
  rewrite <- (extra_of_none s j Hp). by apply Hs.
Qed.

(** A loop over all sequences that changes each by itself. *)
Lemma for_seqs_map (m : nat -> stx seq_state unit) s :
  (forall i q, t_seqs s !! i = Some q -> (m i q).1 = Ok tt) ->
  for_seqs (fun i => on_seq i (m i)) s = (Ok tt, set_seqs (imap (fun i q => (m i q).2) (t_seqs s)) s).
Proof.
  intros Hm. unfold for_seqs.
  assert (forall l2 l1, (forall i q, l2 !! i = Some q -> (m (length l1 + i)%nat q).1 = Ok tt) ->
    forX (fun i => on_seq i (m i)) (seq (length l1) (length l2)) (set_seqs (l1 ++ l2) s) =
    (Ok tt, set_seqs (l1 ++ imap (fun i q => (m (length l1 + i)%nat q).2) l2) s)) as Hgen.
  { induction l2 as [|q l2 IH]; intros l1 Hl; [done|]. simpl. unfold mbind, stx_bind.
    pose proof (Hl O q eq_refl) as H0. rewrite Nat.add_0_r in *. destruct (m (length l1) q) as [r q'] eqn:E. simpl in H0. subst r.
    rewrite (on_seq_run _ _ _ q (Ok tt) q'); [|simpl; rewrite lookup_app_r, Nat.sub_diag by lia; done|done].
    simpl. rewrite insert_app_r_alt, Nat.sub_diag by lia. simpl.
    replace (S (length l1)) with (length (l1 ++ [q'])) by (rewrite length_app; simpl; lia).
    replace (l1 ++ q' :: l2) with ((l1 ++ [q']) ++ l2) by (by rewrite <- app_assoc).
    change (mk_store (t_cfg s) ((l1 ++ [q']) ++ l2) (t_pending s) (t_batch s) (t_in_batch s)) with (set_seqs ((l1 ++ [q']) ++ l2) s).
    rewrite IH.
    - rewrite <- app_assoc. simpl. do 4 f_equal. apply imap_ext. intros j x _. simpl. rewrite length_app. simpl.
      by replace (length l1 + 1 + j)%nat with (length l1 + S j)%nat by lia.
    - intros j x Hx. rewrite length_app. simpl. replace (length l1 + 1 + j)%nat with (length l1 + S j)%nat by lia. by apply Hl. }
  specialize (Hgen (t_seqs s) []). simpl in Hgen. destruct s; simpl in *. by apply Hgen.
Qed.

(** A loop that keeps an invariant of the store and cannot fail. *)
Lemma forX_inv {S} (I : S -> Prop) (f : nat -> stx S unit) l s : I s ->
  (forall i s, i ∈ l -> I s -> exists s', f i s = (Ok tt, s') /\ I s') ->
  exists s', forX f l s = (Ok tt, s') /\ I s'.
Proof.
  intros Hs Hf. revert s Hs. induction l as [|i l IH]; intros s Hs; simpl; [by exists s|].
  destruct (Hf i s ltac:(by left) Hs) as (s1 & E & H1). unfold mbind, stx_bind. rewrite E.
  apply IH; [|done]. intros; apply Hf; [by right|done].
Qed.

(** [for_seqs] over well-formed sequences. *)
Lemma for_seqs_wf (m : nat -> stx seq_state unit) s : store_wf s -> t_pending s = None ->
  (forall i q, (i < length (t_seqs s))%nat -> t_seqs s !! i = Some q -> seq_wf (t_cfg s) i [] q ->
     exists q', m i q = (Ok tt, q') /\ seq_wf (t_cfg s) i [] q') ->
  exists s', for_seqs (fun i => on_seq i (m i)) s = (Ok tt, s') /\ store_wf s' /\
    s' = set_seqs (imap (fun i q => (m i q).2) (t_seqs s)) s.
Proof.
  intros Hs Hp Hm.
  assert (forall i q, t_seqs s !! i = Some q -> exists q', m i q = (Ok tt, q') /\ seq_wf (t_cfg s) i [] q') as Hm'.
  { intros i q Hq. apply Hm; [by eapply lookup_lt_Some|done|]. rewrite <- (extra_of_none s i Hp). by apply Hs. }
  eexists. split; [apply for_seqs_map|split; [|done]].
  - intros i q Hq. destruct (Hm' i q Hq) as (q' & -> & _). done.
  - apply set_seqs_wf; [done|done|by rewrite length_imap|]. intros i q Hq.
    apply list_lookup_imap_Some in Hq as (q0 & Hq0 & ->). by destruct (Hm' i q0 Hq0) as (q' & -> & ?).
Qed.

(** ** One sequence under each operation *)

Section seq_ops.
Context (c : tail_cfg) (n : nat) (i : nat).
Hypothesis Hc : cfg_ok c n.
Hypothesis Hi : (i < n)%nat.

(** Filtering keeps well-formedness once the index is rebuilt. *)
Lemma filter_rebuild_wf P extra q : seq_wf c i extra q -> exists used,
  remove_entries c i P q = Ok (existsb P (q_entries q), set_entries (filter (fun e => P e = false) (q_entries q)) (set_qused used q)) /\
  let q' := set_entries (filter (fun e => P e = false) (q_entries q))
              (set_qindex (index_of (filter (fun e => P e = false) (q_entries q))) (set_qused used q)) in
  rebuild_index (set_entries (filter (fun e => P e = false) (q_entries q)) (set_qused used q)) = (Ok tt, q') /\
  seq_wf c i extra q'.
Proof.
  intros [Hq Ho Hx Hb]. destruct (remove_entries_ok c n i Hc Hi P extra q Hq) as (used & E & Hok).
  exists used. split; [done|]. intros q'. rewrite rebuild_index_eq by apply Hok. split; [done|]. split; simpl.
  - eapply seq_ok_proper, Hok; done.
  - by apply ordered_filter.
  - done.
  - intros Hcomp. specialize (Hb Hcomp). pose proof (length_filter (fun e => P e = false) (q_entries q)). lia.
Qed.

Lemma degr_wf extra d r q : seq_wf c i extra q -> seq_wf c i extra (set_degr d r q).
Proof. intros [Hq Ho Hx Hb]. split; simpl; try done. eapply seq_ok_proper, Hq; done. Qed.

Lemma cursor_wf extra k q : seq_wf c i extra q -> 0 <= k < g_stride c -> seq_wf c i extra (set_cursor k q).
Proof. intros [[] Ho Hx Hb] Hk. split; simpl; try done. Qed.

(** Entries outside a range. *)
Definition outside_of (p0 p1 : Z) (l : list exact_entry) : list exact_entry :=
  filter (fun e => in_range p0 p1 e = false) l.

Lemma seq_rm_seq_ok p0 p1 extra q : seq_wf c i extra q -> exists q',
  seq_rm_seq c i p0 p1 q = (Ok tt, q') /\ seq_wf c i extra q' /\ q_entries q' = outside_of p0 p1 (q_entries q) /\
  q_cursor q' = q_cursor q /\
  (q_degr q', q_recov q') = (if bool_decide (outside_of p0 p1 (q_entries q) = []) && (p0 <=? 0) && (p1 <? 0)
                             then (0, 0) else (q_degr q, q_recov q)).
Proof.
  intros Hq. destruct (filter_rebuild_wf (in_range p0 p1) extra q Hq) as (used & E & Er & Hw).
  unfold seq_rm_seq, mbind, stx_bind, stx_get, stx_lift, stx_put. rewrite E. simpl. rewrite Er. simpl.
  fold (outside_of p0 p1 (q_entries q)) in *. destruct (outside_of p0 p1 (q_entries q)) as [|e l] eqn:El; simpl.
  - destruct (_ && _); eexists; (split; [done|]); (split; [|done]); [by apply degr_wf|done].
  - eexists. split; [done|]. split; [done|]. done.
Qed.

Lemma rm_cell_seq_ok P extra q : seq_wf c i extra q -> exists q',
  (q0 ← stx_get; r ← stx_lift (remove_entries c i P q0); stx_put r.2;; rebuild_index) q = (Ok tt, q') /\
  seq_wf c i extra q' /\ q_entries q' = filter (fun e => P e = false) (q_entries q).
Proof.
  intros Hq. destruct (filter_rebuild_wf P extra q Hq) as (used & E & Er & Hw).
  unfold mbind, stx_bind, stx_get, stx_lift, stx_put. rewrite E. simpl. rewrite Er. eauto.
Qed.

Lemma invalidate_seq_ok invalid flags extra q : seq_wf c i extra q -> exists q',
  invalidate_seq c invalid flags i q = (Ok tt, q') /\ seq_wf c i extra q' /\
  q_entries q' = filter (fun e => bool_decide (e_slot e ∈ invalid) = false) (q_entries q).
Proof.
  intros Hq. destruct (filter_rebuild_wf (fun e => bool_decide (e_slot e ∈ invalid)) extra q Hq) as (used & E & Er & Hw).
  unfold invalidate_seq, mbind, stx_bind, stx_get, stx_lift, stx_put. rewrite E. simpl.
  destruct (existsb _ _) eqn:Ex; simpl.
  - rewrite Er. eexists. split; [done|]. split; [by apply degr_wf|]. done.
  - assert (filter (fun e => bool_decide (e_slot e ∈ invalid) = false) (q_entries q) = q_entries q) as Eid.
    { apply list_filter_id. intros e He. apply not_true_is_false. intros Hb.
      apply (not_true_iff_false (existsb _ _)) in Ex. apply Ex. apply existsb_exists. exists e.
      split; [by apply list_elem_of_In|done]. }
    eexists. split; [done|]. split; [|done]. destruct Hq as [Hq Ho Hx Hb]. rewrite Eid in *. split; simpl; try done.
    destruct (remove_entries_ok c n i Hc Hi (fun e => bool_decide (e_slot e ∈ invalid)) extra q Hq) as (used' & E' & Hok).
    rewrite E in E'. rewrite Eid in *. injection E' as E'. subst used'. done.
Qed.

(** Sorting, trimming and rebuilding after a list was touched. *)
Lemma resettle_ok degrade extra q : seq_ok c i extra q -> exists q',
  resettle c i degrade q = (Ok tt, q') /\ seq_wf c i extra q' /\
  q_entries q' = newest (seq_limit c) (stable_sort entry_lt (q_entries q)).
Proof.
  intros Hq. unfold resettle, mbind, stx_bind, lift_seq.
  assert (seq_ok c i extra (sort_entries q)) as Hs.
  { apply seq_ok_perm; [|done]. by rewrite stable_sort_perm. }
  destruct (trim_ok c n i Hc Hi (seq_limit c) extra _ Hs) as (used & m & E & Hok & _); [by destruct Hc|].
  rewrite E. rewrite rebuild_index_eq by apply Hok. simpl.
  set (q1 := set_qindex _ _).
  assert (seq_wf c i extra q1) as Hw.
  { split; simpl.
    - eapply seq_ok_proper, Hok; done.
    - apply ordered_drop, stable_sort_ordered, _.
    - done.
    - intros _. rewrite newest_length; destruct Hc; lia. }
  destruct degrade; eexists; (split; [done|]); (split; [|done]); [by apply degr_wf|done].
Qed.

Lemma drop_payload_ok q : seq_wf c i [] q -> exists q', drop_payload c i q = (Ok tt, q') /\ seq_wf c i [] q' /\
  q_entries q' = [] /\ q_degr q' = Z.lor (q_degr q) DEGRADED_PAYLOAD_INVALID /\ q_recov q' = 0 /\ q_cursor q' = q_cursor q.
Proof.
  intros [Hq Ho Hx Hb].
  assert (seq_ok c i (slots (q_entries q) ++ []) (set_entries [] q)) as Hs.
  { eapply seq_ok_swap, Hq; [constructor|constructor|done]. }
  destruct (release_all_ok c n i Hc Hi _ _ _ Hs) as (used & E & Hok). rewrite release_all_entries in E.
  unfold drop_payload, lift_seq. destruct (release_all c i (slots (q_entries q)) q) as [q1|] eqn:E1; [|done].
  simpl in E. injection E as Ei Eu Ecur Ed Er. simpl. eexists. split; [done|].
  split; [|simpl; by rewrite Ed, Ecur]. split; simpl; try done.
  - eapply seq_ok_proper, Hok; done.
  - constructor.
  - intros _. by destruct Hc.
Qed.

(** A free slot of the arena is taken. *)
Lemma mark_used_ok k q : seq_ok c i [] q -> 0 <= k < g_stride c -> q_used q !! Z.to_nat k = Some false ->
  seq_ok c i [arena c i + k] (set_qused (<[Z.to_nat k := true]> (q_used q)) q).
Proof.
  intros [H1 H2 H3 H4 [Hl Hu] H6] Hk Hfree. rewrite app_nil_r in *.
  pose proof (Hu (Z.to_nat k) ltac:(lia)) as Hk'. rewrite Hfree in Hk'. injection Hk' as Hk'. symmetry in Hk'. bprop.
  rewrite Z2Nat.id in Hk' by lia. rewrite elem_of_list_to_set in Hk'. split; simpl; try done.
  - apply Forall_app. split; [done|]. apply Forall_singleton. unfold in_arena. lia.
  - apply NoDup_app. split; [done|]. split; [|apply NoDup_singleton]. intros x Hx ->%list_elem_of_singleton. done.
  - split; [by rewrite length_insert|]. intros l Hlt. destruct (decide (l = Z.to_nat k)) as [->|Hne].
    + rewrite list_lookup_insert_eq by lia. f_equal. symmetry. apply bool_decide_eq_true_2.
      rewrite Z2Nat.id by lia. apply elem_of_list_to_set. set_solver.
    + rewrite list_lookup_insert_ne by done. rewrite (Hu l Hlt). f_equal. apply bool_decide_ext.
      rewrite !elem_of_list_to_set, elem_of_app, list_elem_of_singleton. split; [tauto|]. intros [?|?]; [done|lia].
Qed.
End seq_ops.

(** ** The operations of the class *)

Inductive tail_op :=
  | OpCommit (seq_id : Z) (id : tail_identity) (position ordinal row : Z)
  | OpRecycle (stream cell generation : Z)
  | OpPrepare (src dst src_stream dst_stream p0 p1 : Z)
  | OpCommitCp
  | OpCancelCp
  | OpRm (seq_id p0 p1 : Z)
  | OpRmCell (seq_id stream cell : Z)
  | OpKeep (seq_id : Z)
  | OpAdd (seq_id p0 p1 shift : Z)
  | OpDiv (seq_id p0 p1 divisor : Z)
  | OpBegin
  | OpFinish (success payload_may_be_modified : bool)
  | OpInvalidate (slots : list Z) (flags : Z)
  | OpDegrade (seq_id flags : Z)
  | OpClear
  | OpRestore (seq_id : Z) (id : tail_identity) (position ordinal local_slot : Z)
  | OpRestoreCursor (seq_id cursor : Z)
  | OpResetCursor (seq_id : Z)
  | OpRestoreProvenance (provenance : list tail_provenance) (dest_seq_id : Z).

(** Runs an operation and forgets what it returns. *)
Definition run_op (op : tail_op) : stx tail_store unit :=
  match op with
  | OpCommit i id p o row => commit i id p o row;; mret tt
  | OpRecycle st cell g => recycle st cell g
  | OpPrepare src dst ss ds p0 p1 => prepare_seq_cp src dst ss ds p0 p1;; mret tt
  | OpCommitCp => commit_seq_cp
  | OpCancelCp => cancel_seq_cp
  | OpRm i p0 p1 => seq_rm i p0 p1
  | OpRmCell i st cell => seq_rm_cell i st cell
  | OpKeep i => seq_keep i
  | OpAdd i p0 p1 sh => seq_add i p0 p1 sh
  | OpDiv i p0 p1 d => seq_div i p0 p1 d
  | OpBegin => begin_batch
  | OpFinish ok pm => finish_batch ok pm
  | OpInvalidate l f => invalidate_slots l f
  | OpDegrade i f => mark_degraded i f
  | OpClear => clear
  | OpRestore i id p o k => restore i id p o k;; mret tt
  | OpRestoreCursor i k => restore_write_cursor i k
  | OpResetCursor i => reset_write_cursor i
  | OpRestoreProvenance l d => restore_provenance l d
  end.

(** Identities [seq_add] and [seq_div] move: the entries of the sequence in the range. *)
Definition moved (s : tail_store) (seq_id p0 p1 : Z) : list tail_identity :=
  match t_seqs s !! Z.to_nat seq_id with Some q => range_identities q p0 p1 | None => [] end.

(** The candidates of a prepared copy. *)
Definition prepared (s : tail_store) (src dst src_stream dst_stream p0 p1 : Z) : list retained_candidate :=
  match t_seqs s !! Z.to_nat src, t_seqs s !! Z.to_nat dst with
  | Some qs, Some qd => cp_candidates (t_cfg s) (q_entries qs) (q_entries qd) src_stream dst_stream p0 p1
  | _, _ => []
  end.

(** How the cache calls the class: it settles a pending copy before it changes
    sequences; streams and cells are 32-bit; shifted and divided positions fit their
    type; a copy does not name one destination cell twice. *)
Definition op_pre (op : tail_op) (s : tail_store) : Prop :=
  match op with
  | OpCommit _ id _ _ _ => t_pending s = None /\ id_ok id
  | OpPrepare src dst ss ds p0 p1 =>
      0 <= ds <= UINT32_MAX /\ NoDup (key_of <$> cand_ids (prepared s src dst ss ds p0 p1))
  | OpAdd i p0 p1 shift => t_pending s = None /\
      forall j q e, t_seqs s !! j = Some q -> e ∈ q_entries q -> e_id e ∈ moved s i p0 p1 -> in_i32 (e_pos e + shift) = true
  | OpDiv i p0 p1 d => t_pending s = None /\
      forall j q e, t_seqs s !! j = Some q -> e ∈ q_entries q -> e_id e ∈ moved s i p0 p1 -> in_i32 (Z.quot (e_pos e) d) = true
  | OpRestore _ id _ _ k => id_ok id /\ 0 <= k
  | OpRestoreCursor _ k => 0 <= k
  | OpCommitCp | OpCancelCp | OpDegrade _ _ | OpClear | OpResetCursor _ | OpRestoreProvenance _ _ => True
  | OpRecycle _ _ _ | OpRm _ _ _ | OpRmCell _ _ _ | OpKeep _ | OpBegin | OpFinish _ _ | OpInvalidate _ _ => t_pending s = None
  end.

(** The exceptions an operation may end with, and when. *)
Definition may_throw (op : tail_op) (s : tail_store) (f : fault) : Prop :=
  match op, f with
  | OpCommit _ _ _ _ _, RuntimeError => g_compact (t_cfg s) = false /\ t_in_batch s = true
  | OpCommit _ _ _ _ _, OverflowError => t_batch s <> None
  | OpPrepare _ _ _ _ _ _, LogicError => t_pending s <> None
  | OpBegin, LogicError => t_batch s <> None
  | OpRestore _ _ _ _ _, InvalidArgument | OpRestore _ _ _ _ _, RuntimeError => True
  | OpRestoreCursor _ _, InvalidArgument => True
  | OpRestoreProvenance _ _, RuntimeError => True
  | _, _ => False
  end.

(** What is shown of each operation. *)
Definition op_safe (op : tail_op) : Prop := forall s, store_wf s -> op_pre op s ->
  store_wf (run_op op s).2 /\ match (run_op op s).1 with Ok _ => True | Err f => may_throw op s f end.

Lemma seq_at s i : store_wf s -> t_pending s = None -> valid_seq s i = true -> exists q,
  t_seqs s !! Z.to_nat i = Some q /\ seq_wf (t_cfg s) (Z.to_nat i) [] q /\ (Z.to_nat i < length (t_seqs s))%nat.
Proof.
  intros Hs Hp Hv. apply valid_seq_lookup in Hv as [_ [q Hq]]. exists q. split; [done|]. split; [|by eapply lookup_lt_Some].
  rewrite <- (extra_of_none s (Z.to_nat i) Hp). by apply Hs.
Qed.

Lemma commit_safe i id p o row : op_safe (OpCommit i id p o row).
Proof.
  intros s Hs [Hp Hid]. simpl. unfold commit, mbind, stx_bind, stx_get.
  destruct (negb (valid_seq s i) || _) eqn:Eg; [done|]. bprop.
  destruct (seq_at s i Hs Hp) as (q & Hq & Hw & Hlt); [done|].
  pose proof (limit_pos _ _ (st_cfg s Hs) H0) as Hlim.
  destruct (commit_seq_ok (t_cfg s) _ _ (st_cfg s Hs) Hlt Hlim (t_in_batch s) id p o q Hw Hid)
    as [(q' & E & Hw' & _)|(q' & E & Hw' & _ & _ & Hc & Hb & _)]; rewrite (on_seq_run _ _ _ _ _ _ Hq E).
  2:{ simpl. split; [by apply insert_seq_wf|done]. }
  pose proof (insert_seq_wf _ _ _ Hs Hp Hw') as Hs'. set (s1 := set_seqs _ s) in *.
  unfold record_current. destruct (t_batch s1) as [tx|] eqn:Etx; [|done].
  pose proof (st_batch s1 Hs' tx Etx) as (B1 & B2 & B3 & B4).
  destruct (_ && _); [|done]. destruct (_ <? _); simpl; [split; [done|by simpl in Etx; rewrite Etx]|].
  assert (Z.to_nat i < length (t_seqs s1))%nat as Hlt1 by (simpl; by rewrite length_insert).
  destruct (lookup_lt_is_Some_2 (tx_current tx) (Z.to_nat i)) as [cur ->]; [lia|].
  destruct (lookup_lt_is_Some_2 (tx_affected tx) (Z.to_nat i)) as [aff ->]; [lia|]. simpl. split; [|done].
  destruct Hs' as [W1 W2 W3 W4]. split; simpl; try done. intros tx' [= <-]. split; [done|]. simpl.
  rewrite !length_insert. simpl in B2, B3, B4. rewrite length_insert in B2, B3. done.
Qed.

Lemma recycle_step st cell g s i : store_wf s -> t_pending s = None -> (i < length (t_seqs s))%nat -> exists s',
  recycle_seq st cell g i s = (Ok tt, s') /\ store_wf s' /\ t_pending s' = None /\ length (t_seqs s') = length (t_seqs s).
Proof.
  intros Hs Hp Hi. destruct (lookup_lt_is_Some_2 _ _ Hi) as [q Hq].
  assert (seq_wf (t_cfg s) i [] q) as Hw by (rewrite <- (extra_of_none s i Hp); by apply Hs).
  unfold recycle_seq, mbind, stx_bind, stx_get. rewrite Hq.
  destruct (q_index q !! cell_key st cell) as [nid|] eqn:E; [|by exists s].
  destruct (_ =? _); [by exists s|].
  destruct (index_lookup q _ _ (so_keys _ _ _ _ (sw_ok _ _ _ _ Hw)) (sw_index _ _ _ _ Hw) E) as (e & He & Hk & <-).
  destruct (erase_release_ok (t_cfg s) _ i (st_cfg s Hs) Hi [] q e (sw_ok _ _ _ _ Hw) He) as (used & Ee & Hok).
  set (q' := set_entries _ _) in Ee, Hok.
  assert (seq_wf (t_cfg s) i [] q') as Hw'.
  { destruct Hw as [Hq' Ho Hx Hb]. split; simpl; [done|by apply erase_node_sub| |].
    - rewrite Hx. apply index_of_erase; [apply Hq'|done].
    - intros Hcomp. specialize (Hb Hcomp). pose proof (erase_node_length _ _ (so_keys _ _ _ _ Hq') He). lia. }
  assert (lift_seq (erase_entry (t_cfg s) i (e_id e) true) q = (Ok tt, q')) as El by (unfold lift_seq; by rewrite Ee).
  pose proof (insert_seq_wf _ _ _ Hs Hp Hw') as Hs'.
  destruct (t_batch s) as [tx|] eqn:Etx; simpl.
  - pose proof (st_batch s Hs tx Etx) as (B1 & B2 & B3 & B4).
    destruct (lookup_lt_is_Some_2 (tx_affected tx) i) as [aff ->]; [lia|]. simpl.
    rewrite (on_seq_run i _ (set_batch _ s) q _ _ Hq El). eexists. split; [done|].
    split; [|split; [done|simpl; by rewrite length_insert]].
    destruct Hs' as [W1 W2 W3 W4]. split; simpl; try done. intros tx' [= <-].
    simpl in W4. destruct (W4 tx Etx) as (? & ? & ? & ?). unfold batch_ok in *. simpl in *. rewrite ?length_insert in *. done.
  - rewrite (on_seq_run i _ s q _ _ Hq El). eexists. split; [done|]. split; [done|]. split; [done|]. simpl. by rewrite length_insert.
Qed.

Lemma recycle_safe st cell g : op_safe (OpRecycle st cell g).
Proof.
  intros s Hs Hp. simpl. unfold recycle, for_seqs.
  destruct (forX_inv (fun s' => store_wf s' /\ t_pending s' = None /\ length (t_seqs s') = length (t_seqs s))
    (recycle_seq st cell g) (seq 0 (length (t_seqs s))) s) as (s' & -> & Hs' & _); [done| |done].
  intros i s1 Hin%elem_of_seq (H1 & H2 & H3). destruct (recycle_step st cell g s1 i H1 H2) as (s' & -> & ? & ? & ?); [lia|].
  exists s'. split; [done|]. by rewrite <- H3.
Qed.

Lemma extra_of_other s p j : t_pending s = Some p -> 0 <= pc_dst p -> j <> Z.to_nat (pc_dst p) -> extra_of s j = [].
Proof. intros Hp H0 Hj. unfold extra_of. rewrite Hp. rewrite decide_False; [done|lia]. Qed.

Lemma extra_of_dst s p : t_pending s = Some p -> 0 <= pc_dst p -> extra_of s (Z.to_nat (pc_dst p)) = pc_acquired p.
Proof. intros Hp H0. unfold extra_of. rewrite Hp. rewrite decide_True; [done|lia]. Qed.

Lemma prepare_safe src dst ss ds p0 p1 : op_safe (OpPrepare src dst ss ds p0 p1).
Proof.
  intros s Hs [Hds Hn]. simpl. unfold prepare_seq_cp, mbind, stx_bind, stx_get.
  destruct (negb (valid_seq s src) || _ || _) eqn:Eg; [done|]. bprop.
  assert (0 <= dst) as Hd0 by (by apply (valid_seq_lookup s dst)).
  destruct (t_pending s) as [p|] eqn:Hp; [done|].
  destruct (seq_at s src Hs Hp) as (qs & Hqs & Hws & _); [done|].
  destruct (seq_at s dst Hs Hp) as (qd & Hqd & Hwd & Hlt); [done|].
  unfold stx_lift. rewrite (vec_get_Some _ _ _ Hqs), (vec_get_Some _ _ _ Hqd). simpl.
  unfold prepared in Hn. rewrite Hqs, Hqd in Hn.
  destruct (prepare_place (t_cfg s) _ _ (st_cfg s Hs) Hlt (q_entries qs) ss ds p0 p1 qd Hwd) as (pl & cur & used & E & Hw & _ & _ & Hpo);
    [apply Hws|done|done|].
  rewrite (on_seq_run _ _ _ _ _ _ Hqd E). simpl. split; [|done].
  split; simpl.
  - rewrite length_insert. apply Hs.
  - intros j q Hj. apply list_lookup_insert_Some in Hj as [(<- & <- & _)|[Hne Hj]].
    + unfold extra_of. simpl. by rewrite decide_True by lia.
    + unfold extra_of. simpl. rewrite decide_False by lia. rewrite <- (extra_of_none s j Hp). by apply Hs.
  - intros p [= <-]. simpl. split.
    + apply valid_seq_lookup. split; [done|]. simpl. rewrite list_lookup_insert_eq by done. done.
    + intros q. rewrite list_lookup_insert_eq by done. intros [= <-]. apply Hpo.
  - intros tx Htx. destruct (st_batch s Hs tx Htx) as (B1 & B2 & B3 & B4). unfold batch_ok. simpl. by rewrite length_insert.
Qed.

(** Ending a pending copy: the destination is left well formed without extra slots. *)
Lemma end_pending_wf s p q' : store_wf s -> t_pending s = Some p -> seq_wf (t_cfg s) (Z.to_nat (pc_dst p)) [] q' ->
  store_wf (set_seqs (<[Z.to_nat (pc_dst p) := q']> (t_seqs s)) (set_pending None s)).
Proof.
  intros Hs Hp Hw. destruct (st_pending s Hs p Hp) as [[H0 _]%valid_seq_lookup _]. split; simpl.
  - rewrite length_insert. apply Hs.
  - intros j q Hj. rewrite extra_of_none by done. apply list_lookup_insert_Some in Hj as [(<- & <- & _)|[Hne Hj]]; [done|].
    rewrite <- (extra_of_other s p j Hp H0) by done. by apply Hs.
  - done.
  - intros tx Htx. destruct (st_batch s Hs tx Htx) as (B1 & B2 & B3 & B4). unfold batch_ok. simpl. by rewrite length_insert.
Qed.

Lemma pending_at s p : store_wf s -> t_pending s = Some p -> exists q,
  t_seqs s !! Z.to_nat (pc_dst p) = Some q /\ seq_wf (t_cfg s) (Z.to_nat (pc_dst p)) (pc_acquired p) q /\
  pending_ok (t_cfg s) q p /\ (Z.to_nat (pc_dst p) < length (t_seqs s))%nat.
Proof.
  intros Hs Hp. destruct (st_pending s Hs p Hp) as [[H0 [q Hq]]%valid_seq_lookup Hpo]. exists q. split; [done|].
  split; [|split; [by apply Hpo|by eapply lookup_lt_Some]]. rewrite <- (extra_of_dst s p Hp H0). by apply Hs.
Qed.

Lemma commit_cp_run s p : store_wf s -> t_pending s = Some p -> exists q',
  commit_seq_cp s = (Ok tt, set_seqs (<[Z.to_nat (pc_dst p) := q']> (t_seqs s)) (set_pending None s)) /\
  store_wf (commit_seq_cp s).2 /\ q_entries q' = pc_destination p /\ q_degr q' = pc_degr p /\ q_recov q' = pc_recov p.
Proof.
  intros Hs Hp. destruct (pending_at s p Hs Hp) as (q & Hq & Hw & Hpo & Hlt).
  destruct (install_ok (t_cfg s) _ _ (st_cfg s Hs) Hlt p q Hw Hpo) as (q' & E & Hw' & E1 & E2 & E3 & _).
  exists q'. unfold commit_seq_cp. rewrite Hp.
  rewrite (on_seq_run _ _ (set_pending None s) q _ _ Hq E). split; [done|]. split; [|done].
  exact (end_pending_wf s p q' Hs Hp Hw').
Qed.

Lemma cancel_cp_run s p : store_wf s -> t_pending s = Some p -> exists q used,
  t_seqs s !! Z.to_nat (pc_dst p) = Some q /\
  cancel_seq_cp s = (Ok tt, set_seqs (<[Z.to_nat (pc_dst p) := set_qused used q]> (t_seqs s)) (set_pending None s)) /\
  seq_wf (t_cfg s) (Z.to_nat (pc_dst p)) [] (set_qused used q) /\ store_wf (cancel_seq_cp s).2.
Proof.
  intros Hs Hp. destruct (pending_at s p Hs Hp) as (q & Hq & Hw & Hpo & Hlt).
  destruct (cancel_ok (t_cfg s) _ _ (st_cfg s Hs) Hlt (pc_acquired p) q Hw) as (used & E & Hw').
  exists q, used. split; [done|]. unfold cancel_seq_cp. rewrite Hp. unfold mbind, stx_bind.
  assert (lift_seq (release_all (t_cfg s) (Z.to_nat (pc_dst p)) (pc_acquired p)) q = (Ok tt, set_qused used q)) as El
    by (unfold lift_seq; by rewrite E).
  rewrite (on_seq_run _ _ s q _ _ Hq El). split; [done|]. split; [done|].
  exact (end_pending_wf s p _ Hs Hp Hw').
Qed.

Lemma commit_cp_safe : op_safe OpCommitCp.
Proof.
  intros s Hs _. simpl. destruct (t_pending s) as [p|] eqn:Hp.
  - destruct (commit_cp_run s p Hs Hp) as (q' & E & Hs' & _). split; [done|]. by rewrite E.
  - unfold commit_seq_cp. by rewrite Hp.
Qed.

Lemma cancel_cp_safe : op_safe OpCancelCp.
Proof.
  intros s Hs _. simpl. destruct (t_pending s) as [p|] eqn:Hp.
  - destruct (cancel_cp_run s p Hs Hp) as (q & used & _ & E & _ & Hs'). split; [done|]. by rewrite E.
  - unfold cancel_seq_cp. by rewrite Hp.
Qed.

Lemma clear_seq_wf c n i extra q : cfg_ok c n -> (i < n)%nat -> seq_wf c i extra q ->
  seq_wf c i [] (clear_seq q) /\ clear_seq q = fresh_seq (g_stride c).
Proof.
  intros Hc Hi Hq. assert (clear_seq q = fresh_seq (g_stride c)) as E.
  { unfold clear_seq, fresh_seq. f_equal. destruct (so_used _ _ _ _ (sw_ok _ _ _ _ Hq)) as [Hl _].
    rewrite <- Hl. generalize (q_used q). intros u. induction u as [|b u IH]; [done|]. simpl. by f_equal. }
  split; [|done]. rewrite E. by eapply fresh_seq_wf.
Qed.

Lemma clear_safe : op_safe OpClear.
Proof.
  intros s Hs _. simpl. unfold clear, mbind, stx_bind.
  destruct (cancel_cp_safe s Hs I) as [Hs' Hr]. simpl in Hs', Hr.
  destruct (cancel_seq_cp s) as [[[]|f] s'] eqn:E; [|by destruct f]. simpl in *. split; [|done]. split; simpl.
  - rewrite length_fmap. apply Hs'.
  - intros i q Hq. rewrite extra_of_none by done. apply list_lookup_fmap_Some in Hq as (q0 & -> & Hq).
    eapply clear_seq_wf; [apply Hs'|by eapply lookup_lt_Some|by apply Hs'].
  - done.
  - done.
Qed.

(** An operation on the record of one valid sequence. *)
Lemma on_seq_safe s i (m : stx seq_state unit) : store_wf s -> t_pending s = None -> valid_seq s i = true ->
  (forall q, t_seqs s !! Z.to_nat i = Some q -> seq_wf (t_cfg s) (Z.to_nat i) [] q ->
     (Z.to_nat i < length (t_seqs s))%nat -> exists q', m q = (Ok tt, q') /\ seq_wf (t_cfg s) (Z.to_nat i) [] q') ->
  exists q', on_seq (Z.to_nat i) m s = (Ok tt, set_seqs (<[Z.to_nat i := q']> (t_seqs s)) s) /\
    store_wf (set_seqs (<[Z.to_nat i := q']> (t_seqs s)) s).
Proof.
  intros Hs Hp Hv Hm. destruct (seq_at s i Hs Hp Hv) as (q & Hq & Hw & Hlt).
  destruct (Hm q Hq Hw Hlt) as (q' & E & Hw'). exists q'. rewrite (on_seq_run _ _ _ _ _ _ Hq E).
  split; [done|]. by apply insert_seq_wf.
Qed.

Lemma seq_rm_run s i p0 p1 : store_wf s -> t_pending s = None -> exists l,
  seq_rm i p0 p1 s = (Ok tt, set_seqs l s) /\ store_wf (set_seqs l s) /\ length l = length (t_seqs s).
Proof.
  intros Hs Hp. unfold seq_rm, mbind, stx_bind, stx_get. destruct (negb (valid_seq s i)) eqn:Ev.
  { exists (t_seqs s). by destruct s. }
  bprop. destruct (on_seq_safe s i (seq_rm_seq (t_cfg s) (Z.to_nat i) p0 p1) Hs Hp Ev) as (q' & -> & Hs').
  - intros q _ Hw Hlt. destruct (seq_rm_seq_ok (t_cfg s) _ _ (st_cfg s Hs) Hlt p0 p1 [] q Hw) as (q' & ? & ? & _). eauto.
  - eexists. split; [done|]. split; [done|]. by rewrite length_insert.
Qed.

Lemma rm_safe i p0 p1 : op_safe (OpRm i p0 p1).
Proof. intros s Hs Hp. simpl. by destruct (seq_rm_run s i p0 p1 Hs Hp) as (l & -> & ? & _). Qed.

Lemma rm_cell_safe i st cell : op_safe (OpRmCell i st cell).
Proof.
  intros s Hs Hp. simpl.
  assert (exists s', seq_rm_cell i st cell s = (Ok tt, s') /\ store_wf s') as (s' & -> & ?); [|done].
  unfold seq_rm_cell. unfold mbind at 1, stx_bind at 1, stx_get at 1.
  destruct (negb (valid_seq s i)) eqn:Ev; [by exists s|]. bprop.
  match goal with |- context [on_seq _ ?m s] => destruct (on_seq_safe s i m Hs Hp Ev) as (q' & E & Hs') end.
  - intros q _ Hw Hlt. destruct (rm_cell_seq_ok (t_cfg s) _ _ (st_cfg s Hs) Hlt
      (fun e => (id_stream (e_id e) =? st) && (id_cell (e_id e) =? cell)) [] q Hw) as (q' & ? & ? & _). eauto.
  - rewrite E. eauto.
Qed.

Lemma keep_safe i : op_safe (OpKeep i).
Proof.
  intros s Hs Hp. simpl. unfold seq_keep, for_seqs.
  match goal with |- context [forX ?f ?l s] =>
    destruct (forX_inv (fun s' => store_wf s' /\ t_pending s' = None) f l s) as (s' & -> & Hs' & _); [done| |done] end.
  intros j s1 _ [H1 H2]. destruct (_ =? _); [by exists s1|].
  destruct (seq_rm_run s1 (Z.of_nat j) 0 (-1) H1 H2) as (l & -> & ? & _). eauto.
Qed.

(** Shifting and dividing, one sequence at a time. *)
Lemma touched_ok c n i (f : seq_state -> outcome (bool * seq_state)) degrade q t q1 :
  cfg_ok c n -> (i < n)%nat -> seq_wf c i [] q -> f q = Ok (t, q1) -> seq_ok c i [] q1 ->
  (t = false -> q1 = q) -> exists q',
  (q0 ← stx_get; r ← stx_lift (f q0); stx_put r.2;; if (r.1 : bool) then resettle c i degrade else mret tt) q = (Ok tt, q') /\
  seq_wf c i [] q' /\ q_entries q' = (if t then newest (seq_limit c) (stable_sort entry_lt (q_entries q1)) else q_entries q).
Proof.
  intros Hc Hi Hw E Hok Hf. unfold mbind, stx_bind, stx_get, stx_lift, stx_put. rewrite E. simpl. destruct t.
  - destruct (resettle_ok c n i Hc Hi degrade [] q1 Hok) as (q' & -> & ? & ?). eauto.
  - rewrite Hf by done. eauto.
Qed.

Lemma existsb_named ids l : existsb (named ids) l = false -> forall e, e ∈ l -> e_id e ∉ ids.
Proof.
  intros Hx e He Hin. apply not_true_iff_false in Hx. apply Hx, existsb_exists. exists e.
  split; [by apply list_elem_of_In|]. by apply bool_decide_eq_true_2.
Qed.

Lemma add_safe i p0 p1 shift : op_safe (OpAdd i p0 p1 shift).
Proof.
  intros s Hs [Hp Hr]. simpl.
  assert (exists s', seq_add i p0 p1 shift s = (Ok tt, s') /\ store_wf s') as (s' & -> & ?); [|done].
  unfold seq_add. unfold mbind at 1, stx_bind at 1, stx_get at 1.
  destruct (negb (valid_seq s i)) eqn:Ev; [by exists s|]. bprop.
  destruct (seq_at s i Hs Hp Ev) as (qi & Hqi & _). unfold moved in Hr. rewrite Hqi in Hr.
  unfold mbind at 1, stx_bind at 1, stx_lift at 1. rewrite (vec_get_Some _ _ _ Hqi).
  match goal with |- context [for_seqs ?f s] =>
    destruct (for_seqs_wf (fun j => q ← stx_get; r ← stx_lift (shift_entries (t_cfg s) j (range_identities qi p0 p1) shift q);
      stx_put r.2;; if (r.1 : bool) then resettle (t_cfg s) j (negb (shift =? 0) && negb ((p0 <=? 0) && (p1 <? 0))) else mret tt)
      s Hs Hp) as (s' & E & Hs' & _) end.
  2:{ rewrite E. eauto. }
  intros j q Hj Hq Hw.
  destruct (shift_entries_ok (t_cfg s) _ j (st_cfg s Hs) Hj (range_identities qi p0 p1) shift [] q) as (used & E & Hok);
    [by eauto|apply Hw|].
  destruct (touched_ok (t_cfg s) _ j (shift_entries (t_cfg s) j (range_identities qi p0 p1) shift)
    (negb (shift =? 0) && negb ((p0 <=? 0) && (p1 <? 0))) q _ _ (st_cfg s Hs) Hj Hw E Hok) as (q' & ? & ? & _); [|by eauto].
  intros Hx. assert (omap (shift_entry (range_identities qi p0 p1) shift) (q_entries q) = q_entries q) as Eid.
  { pose proof (existsb_named _ _ Hx) as Hall. clear -Hall. induction (q_entries q) as [|e l IH]; [done|]. simpl.
    unfold shift_entry at 1. rewrite decide_False by (apply Hall; by left). f_equal. apply IH. intros; apply Hall. by right. }
  rewrite Eid in *. destruct q as [es ix us cu de re]. unfold set_entries, set_qused in *. simpl in *. f_equal.
  eapply used_ok_unique; [apply (so_used _ _ _ _ Hok)|apply (so_used _ _ _ _ (sw_ok _ _ _ _ Hw))].
Qed.

Lemma div_safe i p0 p1 d : op_safe (OpDiv i p0 p1 d).
Proof.
  intros s Hs [Hp Hr]. simpl.
  assert (exists s', seq_div i p0 p1 d s = (Ok tt, s') /\ store_wf s') as (s' & -> & ?); [|done].
  unfold seq_div. unfold mbind at 1, stx_bind at 1, stx_get at 1.
  destruct (negb (valid_seq s i) || _) eqn:Ev; [by exists s|]. bprop.
  destruct (seq_at s i Hs Hp) as (qi & Hqi & _); [done|]. unfold moved in Hr. rewrite Hqi in Hr.
  unfold mbind at 1, stx_bind at 1, stx_lift at 1. rewrite (vec_get_Some _ _ _ Hqi).
  match goal with |- context [for_seqs ?f s] =>
    destruct (for_seqs_wf (fun j => q ← stx_get; r ← stx_lift (divide_entries (range_identities qi p0 p1) d q);
      stx_put r.2;; if (r.1 : bool) then resettle (t_cfg s) j (negb (d =? 1) && negb ((p0 <=? 0) && (p1 <? 0))) else mret tt)
      s Hs Hp) as (s' & E & Hs' & _) end.
  2:{ rewrite E. eauto. }
  intros j q Hj Hq Hw.
  destruct (divide_entries_ok (t_cfg s) j (range_identities qi p0 p1) d [] q) as [E Hok];
    [done|by eauto|apply Hw|].
  destruct (touched_ok (t_cfg s) _ j (divide_entries (range_identities qi p0 p1) d)
    (negb (d =? 1) && negb ((p0 <=? 0) && (p1 <? 0))) q _ _ (st_cfg s Hs) Hj Hw E Hok) as (q' & ? & ? & _); [|by eauto].
  intros Hx. assert (divide_entry (range_identities qi p0 p1) d <$> q_entries q = q_entries q) as Eid.
  { pose proof (existsb_named _ _ Hx) as Hall. clear -Hall. induction (q_entries q) as [|e l IH]; [done|]. simpl.
    unfold divide_entry at 1. rewrite decide_False by (apply Hall; by left). f_equal. apply IH. intros; apply Hall. by right. }
  rewrite Eid. by destruct q.
Qed.

(** ** Batches *)

Lemma set_batch_wf b s : store_wf s -> (forall tx, b = Some tx -> batch_ok s tx) -> store_wf (set_batch b s).
Proof. intros [H1 H2 H3 H4] Hb. split; simpl; done. Qed.

Lemma set_in_batch_wf b s : store_wf s -> store_wf (set_in_batch b s).
Proof. intros [H1 H2 H3 H4]. by split. Qed.

Lemma with_index_save c i extra q : seq_wf c i extra q -> with_index (save_seq q) = q.
Proof. intros [_ _ Hx _]. unfold with_index, save_seq. simpl. rewrite <- Hx. by destruct q. Qed.

Definition begin_tx (s : tail_store) : batch_transaction_state :=
  mk_tx (save_seq <$> t_seqs s) ((fun _ => []) <$> t_seqs s) ((fun _ => false) <$> t_seqs s).

Lemma begin_tx_ok s : store_wf s -> t_pending s = None -> batch_ok s (begin_tx s).
Proof.
  intros Hs Hp. unfold batch_ok, begin_tx. simpl. rewrite !length_fmap. do 3 (split; [done|]).
  intros i v (q & -> & Hq)%list_lookup_fmap_Some.
  assert (seq_wf (t_cfg s) i [] q) as Hw by (rewrite <- (extra_of_none s i Hp); by apply Hs).
  by rewrite (with_index_save _ _ _ _ Hw).
Qed.

(** Every sequence trimmed. *)
Definition trimmed (c : tail_cfg) (i : nat) (q : seq_state) : seq_state := (lift_seq (trim c i (seq_limit c)) q).2.

Lemma trim_seqs_run s : store_wf s -> t_pending s = None ->
  for_seqs (fun i => on_seq i (lift_seq (trim (t_cfg s) i (seq_limit (t_cfg s))))) s =
    (Ok tt, set_seqs (imap (trimmed (t_cfg s)) (t_seqs s)) s) /\
  store_wf (set_seqs (imap (trimmed (t_cfg s)) (t_seqs s)) s).
Proof.
  intros Hs Hp.
  destruct (for_seqs_wf (fun i => lift_seq (trim (t_cfg s) i (seq_limit (t_cfg s)))) s Hs Hp) as (s' & E & Hs' & ->).
  - intros i q Hi _ Hw.
    destruct (trim_wf (t_cfg s) _ i (st_cfg s Hs) Hi [] q (sw_ok _ _ _ _ Hw) (sw_sorted _ _ _ _ Hw) (sw_index _ _ _ _ Hw))
      as (q' & E & Hw' & _). exists q'. unfold lift_seq. by rewrite E.
  - done.
Qed.

Lemma begin_run s : store_wf s -> t_pending s = None -> t_batch s = None \/ g_compact (t_cfg s) = false ->
  begin_batch s = (Ok tt, mk_store (t_cfg s) (imap (trimmed (t_cfg s)) (t_seqs s)) None
                     (if g_compact (t_cfg s) then Some (begin_tx s) else t_batch s) true) /\
  store_wf (begin_batch s).2.
Proof.
  intros Hs Hp Hb. unfold begin_batch, mbind, stx_bind, stx_get.
  assert (forall s1, store_wf s1 -> t_pending s1 = None -> t_cfg s1 = t_cfg s -> t_seqs s1 = t_seqs s ->
    (let (o, s') := for_seqs (fun i => on_seq i (lift_seq (trim (t_cfg s) i (seq_limit (t_cfg s))))) s1 in
     match o with Ok _ => stx_modify (set_in_batch true) s' | Err f => (Err f, s') end) =
    (Ok tt, mk_store (t_cfg s) (imap (trimmed (t_cfg s)) (t_seqs s)) None (t_batch s1) true) /\
    store_wf (mk_store (t_cfg s) (imap (trimmed (t_cfg s)) (t_seqs s)) None (t_batch s1) true)) as Hgen.
  { intros s1 H1 H2 E1 E2. destruct (trim_seqs_run s1 H1 H2) as [E Hw]. rewrite E1, E2 in *. rewrite E.
    unfold stx_modify, set_in_batch, set_seqs in *. simpl. rewrite E1, H2 in *. split; [done|].
    by apply (set_in_batch_wf true) in Hw. }
  destruct (g_compact (t_cfg s)) eqn:Ec; simpl.
  - destruct Hb as [Hb|]; [|done]. rewrite Hb. simpl. fold (begin_tx s).
    destruct (Hgen (set_batch (Some (begin_tx s)) s)) as [E Hw]; [|done..|].
    + apply set_batch_wf; [done|]. intros tx [= <-]. by apply begin_tx_ok.
    + rewrite E. done.
  - destruct (Hgen s) as [E Hw]; try done. rewrite E. done.
Qed.

Lemma begin_safe : op_safe OpBegin.
Proof.
  intros s Hs Hp. simpl. destruct (t_batch s) as [tx|] eqn:Eb.
  - destruct (g_compact (t_cfg s)) eqn:Ec.
    + unfold begin_batch, mbind, stx_bind, stx_get. rewrite Ec, Eb. done.
    + destruct (begin_run s Hs Hp) as [E Hw]; [by right|]. split; [done|]. by rewrite E.
  - destruct (begin_run s Hs Hp) as [E Hw]; [by left|]. split; [done|]. by rewrite E.
Qed.

Lemma forX_ext {S} (f g : nat -> stx S unit) l (P : S -> Prop) s : P s ->
  (forall i s, i ∈ l -> P s -> f i s = g i s /\ P (g i s).2) -> forX f l s = forX g l s.
Proof.
  intros Hs Hf. revert s Hs. induction l as [|i l IH]; intros s Hs; simpl; [done|].
  destruct (Hf i s ltac:(by left) Hs) as [E HP]. unfold mbind, stx_bind. rewrite E.
  destruct (g i s) as [[] s']; [|done]. apply IH; [|done]. intros; apply Hf; [by right|done].
Qed.

Lemma on_seq_seq i (m1 m2 : stx seq_state unit) s : (on_seq i m1;; on_seq i m2) s = on_seq i (m1;; m2) s.
Proof.
  unfold on_seq, mbind, stx_bind. destruct (t_seqs s !! i) as [q|] eqn:E; [|done].
  destruct (m1 q) as [[[]|f] q1]; [|done]. simpl.
  rewrite list_lookup_insert_eq by (by eapply lookup_lt_Some). destruct (m2 q1) as [r q2].
  unfold set_seqs. simpl. by rewrite list_insert_insert_eq.
Qed.

(** What a failed batch leaves of a sequence. *)
Definition rolled_back (c : tail_cfg) (i : nat) (drop : bool) (v : saved_seq) : seq_state :=
  if drop then (drop_payload c i (with_index v)).2 else with_index v.

Definition affected_at (tx : batch_transaction_state) (i : nat) : bool := default false (tx_affected tx !! i).

Lemma finish_fail_run pm s tx : store_wf s -> t_pending s = None -> g_compact (t_cfg s) = true -> t_batch s = Some tx ->
  let l := imap (fun i v => rolled_back (t_cfg s) i (pm && affected_at tx i) v) (tx_saved tx) in
  finish_batch false pm s = (Ok tt, mk_store (t_cfg s) l None None false) /\
  store_wf (mk_store (t_cfg s) l None None false).
Proof.
  intros Hs Hp Hc Htx l. pose proof (st_batch s Hs tx Htx) as (B1 & B2 & B3 & B4).
  unfold finish_batch. unfold mbind at 1, stx_bind at 1, stx_get at 1. rewrite Hc, Htx. simpl.
  unfold mbind at 1 2, stx_bind at 1 2, stx_put at 1. set (s1 := set_seqs _ s).
  assert (length (t_seqs s1) = length (t_seqs s)) as Hl1 by (simpl; rewrite length_zip_with; lia).
  set (m := fun i => rebuild_index;; if pm && affected_at tx i then drop_payload (t_cfg s) i else mret tt).
  assert (forall i q, t_seqs s1 !! i = Some q -> exists v, tx_saved tx !! i = Some v /\
    m i q = (Ok tt, rolled_back (t_cfg s) i (pm && affected_at tx i) v) /\
    seq_wf (t_cfg s) i [] (rolled_back (t_cfg s) i (pm && affected_at tx i) v)) as Hm.
  { intros i q Hq. simpl in Hq. apply lookup_zip_with_Some in Hq as (v & q0 & -> & Hv & Hq0).
    exists v. split; [done|]. pose proof (B4 i v Hv) as Hw. unfold m, mbind, stx_bind.
    rewrite rebuild_index_eq by (apply (so_keys _ _ _ _ (sw_ok _ _ _ _ Hw))).
    change (set_qindex (index_of (q_entries (restore_seq v q0))) (restore_seq v q0)) with (with_index v).
    unfold rolled_back. destruct (pm && _); [|done].
    destruct (drop_payload_ok (t_cfg s) _ i (st_cfg s Hs) ltac:(by eapply lookup_lt_Some) _ Hw) as (q' & E & Hw' & _).
    by rewrite E. }
  assert (for_seqs (fun i => on_seq i rebuild_index;;
           match tx_affected tx !! i with
           | None => stx_throw OutOfBounds
           | Some affected => if negb pm || negb affected then mret tt else on_seq i (drop_payload (t_cfg s) i)
           end) s1 = for_seqs (fun i => on_seq i (m i)) s1) as ->.
  { unfold for_seqs. apply (forX_ext _ _ _ (fun s' => length (t_seqs s') = length (t_seqs s))); [done|].
    intros i s' Hi%elem_of_seq Hl. destruct (lookup_lt_is_Some_2 (tx_affected tx) i) as [aff Haff]; [lia|].
    unfold m, affected_at. rewrite Haff. simpl. split.
    - rewrite <- on_seq_seq. unfold mbind, stx_bind. destruct (on_seq i rebuild_index s') as [[[]|f] s2] eqn:E; [|done].
      destruct pm, aff; simpl; try done.
      all: unfold on_seq in *; destruct (t_seqs s' !! i) as [q|] eqn:Eq; [|done]; destruct (rebuild_index q) as [r q'];
        simplify_eq; simpl; rewrite list_lookup_insert_eq by (by eapply lookup_lt_Some); unfold set_seqs; simpl;
        by rewrite list_insert_insert_eq.
    - unfold on_seq. destruct (t_seqs s' !! i); [|done]. destruct (_ : outcome unit * seq_state). simpl. by rewrite length_insert. }
  rewrite for_seqs_map.
  2:{ intros i q Hq. by destruct (Hm i q Hq) as (v & _ & -> & _). }
  assert (imap (fun i q => (m i q).2) (t_seqs s1) = l) as El.
  { apply list_eq. intros i. unfold l. rewrite !list_lookup_imap. destruct (t_seqs s1 !! i) as [q|] eqn:Eq; simpl.
    - destruct (Hm i q Eq) as (v & -> & -> & _). done.
    - apply lookup_ge_None in Eq. rewrite (lookup_ge_None_2 (tx_saved tx)) by lia. done. }
  rewrite El. unfold stx_modify, set_in_batch, set_batch, set_seqs. simpl. rewrite Hp. split; [done|].
  assert (length l = length (t_seqs s)) as Ell by (unfold l; rewrite length_imap; lia).
  split; simpl; try done.
  - rewrite Ell. apply Hs.
  - intros i q Hq. rewrite extra_of_none by done. rewrite <- El in Hq.
    apply list_lookup_imap_Some in Hq as (q0 & Hq0 & ->). by destruct (Hm i q0 Hq0) as (v & _ & -> & ?).
Qed.

Lemma finish_safe ok pm : op_safe (OpFinish ok pm).
Proof.
  intros s Hs Hp. simpl. destruct (g_compact (t_cfg s)) eqn:Ec; [destruct (t_batch s) as [tx|] eqn:Eb; [destruct ok|]|].
  2:{ destruct (finish_fail_run pm s tx Hs Hp Ec Eb) as [-> ?]. done. }
  all: unfold finish_batch, mbind, stx_bind, stx_get; rewrite Ec, ?Eb; simpl; split; try done.
  - apply (set_in_batch_wf false), set_batch_wf; done.
  - by apply (set_in_batch_wf false).
Qed.

(** ** Flags and restored state *)

Lemma invalidate_safe l f : op_safe (OpInvalidate l f).
Proof.
  intros s Hs Hp. simpl. unfold invalidate_slots, mbind, stx_bind, stx_get.
  destruct (for_seqs_wf (fun i => invalidate_seq (t_cfg s) l f i) s Hs Hp) as (s' & -> & Hs' & _); [|done].
  intros i q Hi _ Hw. destruct (invalidate_seq_ok (t_cfg s) _ i (st_cfg s Hs) Hi l f [] q Hw) as (q' & ? & ? & _). eauto.
Qed.

(** Rewriting flags, whatever is pending. *)
Lemma degr_seqs_wf s (g : nat -> seq_state -> seq_state) : store_wf s ->
  (forall i q, exists d r, g i q = set_degr d r q) -> store_wf (set_seqs (imap g (t_seqs s)) s).
Proof.
  intros [H1 H2 H3 H4] Hg. split; simpl.
  - by rewrite length_imap.
  - intros i q Hq. apply list_lookup_imap_Some in Hq as (q0 & Hq0 & ->). destruct (Hg i q0) as (d & r & ->).
    apply degr_wf. by apply H2.
  - intros p Hp. destruct (H3 p Hp) as [Hv Hpo]. split.
    + apply valid_seq_lookup. apply valid_seq_lookup in Hv as [? [q Hq]]. split; [done|]. simpl.
      rewrite list_lookup_imap, Hq. by eexists.
    + intros q Hq. apply list_lookup_imap_Some in Hq as (q0 & Hq0 & ->). destruct (Hg (Z.to_nat (pc_dst p)) q0) as (d & r & ->).
      destruct (Hpo q0 Hq0) as [P1 P2 P3 P4 P5 P6]. by split.
  - intros tx Htx. destruct (H4 tx Htx) as (? & ? & ? & ?). unfold batch_ok. simpl. by rewrite length_imap.
Qed.

Lemma degr_insert_wf s i q d r : store_wf s -> t_seqs s !! i = Some q ->
  store_wf (set_seqs (<[i := set_degr d r q]> (t_seqs s)) s).
Proof.
  intros Hs Hq.
  assert (<[i := set_degr d r q]> (t_seqs s) =
    imap (fun j x => set_degr (if decide (j = i) then d else q_degr x) (if decide (j = i) then r else q_recov x) x) (t_seqs s)) as ->.
  { apply list_eq. intros j. rewrite list_lookup_imap. destruct (decide (j = i)) as [->|Hne].
    - rewrite list_lookup_insert_eq by (by eapply lookup_lt_Some). rewrite Hq. simpl. by destruct (decide (i = i)).
    - rewrite list_lookup_insert_ne by done. destruct (t_seqs s !! j) as [x|]; simpl; [|done].
      destruct (decide (j = i)); [done|]. by destruct x. }
  apply degr_seqs_wf; [done|]. intros; by do 2 eexists.
Qed.

Lemma mark_pending_wf s f p : store_wf s -> t_pending s = Some p -> store_wf (set_pending (Some (mark_pending f p)) s).
Proof.
  intros Hs Hp. split; simpl.
  - apply Hs.
  - intros i x Hx. pose proof (st_seqs s Hs i x Hx) as Hi. unfold extra_of in *. rewrite Hp in Hi. exact Hi.
  - intros p' [= <-]. simpl. destruct (st_pending s Hs p Hp) as [Hv Hpo]. split; [exact Hv|].
    intros x Hx. destruct (Hpo x Hx). by split.
  - apply Hs.
Qed.

Lemma degrade_safe i f : op_safe (OpDegrade i f).
Proof.
  intros s Hs _. simpl. unfold mark_degraded, mbind, stx_bind, stx_get, stx_modify, stx_put. destruct (i <? 0).
  - simpl. split; [|done].
    assert (store_wf (set_seqs (imap (fun _ => mark_seq f) (t_seqs s)) s)) as Hs'.
    { apply degr_seqs_wf; [done|]. intros. by do 2 eexists. }
    assert (mark_seq f <$> t_seqs s = imap (fun _ => mark_seq f) (t_seqs s)) as E.
    { apply list_eq. intros j. by rewrite list_lookup_fmap, list_lookup_imap. }
    rewrite E. destruct (t_pending s) as [p|] eqn:Hp; simpl.
    + exact (mark_pending_wf (set_seqs (imap (fun _ => mark_seq f) (t_seqs s)) s) f p Hs' Hp).
    + unfold set_pending, set_seqs in *. simpl. by rewrite Hp in Hs'.
  - destruct (valid_seq s i) eqn:Ev; [|done]. apply valid_seq_lookup in Ev as [H0 [q Hq]].
    assert (store_wf (on_seq (Z.to_nat i) (fun s0 => (Ok tt, mark_seq f s0)) s).2 /\
      (on_seq (Z.to_nat i) (fun s0 => (Ok tt, mark_seq f s0)) s).1 = Ok tt) as [Hw Hr].
    { unfold on_seq. rewrite Hq. simpl. split; [|done]. by apply degr_insert_wf. }
    destruct (t_pending s) as [p|] eqn:Hp; [destruct (pc_dst p =? i)|].
    + split; [by apply mark_pending_wf|done].
    + rewrite Hr. done.
    + rewrite Hr. done.
Qed.

Lemma restore_cursor_safe i k : op_safe (OpRestoreCursor i k).
Proof.
  intros s Hs Hk. simpl in Hk |- *. unfold restore_write_cursor, mbind, stx_bind, stx_get.
  destruct (_ || _) eqn:Eg; [done|]. bprop. assert (t_pending s = None) as Hp by (by apply dec_stable).
  destruct (on_seq_safe s i (stx_modify (set_cursor k)) Hs Hp) as (q' & -> & ?); [done| |done].
  intros q _ Hw _. eexists. split; [done|]. apply cursor_wf; [done|lia].
Qed.

Lemma reset_cursor_safe i : op_safe (OpResetCursor i).
Proof.
  intros s Hs _. simpl. unfold reset_write_cursor, mbind, stx_bind, stx_get.
  destruct (_ || _) eqn:Eg; [done|]. bprop. assert (t_pending s = None) as Hp by (by apply dec_stable).
  destruct (seq_rm_run s i (-1) (-1) Hs Hp) as (l & -> & Hs' & Hl).
  destruct (on_seq_safe (set_seqs l s) i (stx_modify (set_cursor 0)) Hs' Hp) as (q' & -> & ?); [| |done].
  - unfold valid_seq in *. simpl. by rewrite Hl.
  - intros q _ Hw _. eexists. split; [done|]. destruct Hw as [[] ? ? ?]. split; simpl; try done.
Qed.

Lemma set_provenances_wf l s : store_wf s -> (forall pv, pv ∈ l -> valid_seq s (pv_seq_id pv) = true) -> exists s',
  set_provenances l s = (Ok tt, s') /\ store_wf s' /\ length (t_seqs s') = length (t_seqs s).
Proof.
  revert s. induction l as [|pv l IH]; intros s Hs Hv; [by exists s|]. simpl. unfold set_provenance, mbind, stx_bind.
  assert (valid_seq s (pv_seq_id pv) = true) as [_ [q Hq]]%valid_seq_lookup by (apply Hv; by left).
  rewrite (on_seq_run _ _ s q (Ok tt) (set_degr (pv_degr pv) (pv_recov pv) q) Hq) by done.
  destruct (IH (set_seqs (<[Z.to_nat (pv_seq_id pv) := set_degr (pv_degr pv) (pv_recov pv) q]> (t_seqs s)) s)) as (s' & -> & ? & Hl).
  - by apply degr_insert_wf.
  - intros pv' Hpv'. unfold valid_seq. simpl. rewrite length_insert. apply Hv. by right.
  - exists s'. split; [done|]. split; [done|]. simpl in Hl. by rewrite length_insert in Hl.
Qed.

(** What the check loop accepts. *)
Definition provenance_ok (s : tail_store) (pv : tail_provenance) : bool :=
  valid_seq s (pv_seq_id pv) && (Z.ldiff (pv_degr pv) known_flags =? 0) && (pv_recov pv <=? g_n_tokens (t_cfg s))
  && negb ((pv_degr pv =? 0) && negb (pv_recov pv =? 0)).

Lemma check_provenances_Ok s l seen X : foldM (check_provenance s) l seen = Ok X ->
  Forall (fun pv => provenance_ok s pv = true) l /\ NoDup (pv_seq_id <$> l) /\ Forall (fun pv => pv_seq_id pv ∉ seen) l.
Proof.
  revert seen. induction l as [|pv l IH]; intros seen H; simpl in H; [by repeat constructor|]. inv_ok.
  unfold check_provenance in E. inv_ok. apply require_Ok in E0, E1.
  apply negb_true_iff, bool_decide_eq_false in E1. rewrite !negb_orb, !negb_involutive, Z.ltb_antisym, negb_involutive in E0.
  destruct (IH _ H) as (A1 & A2 & A3). split; [by constructor|]. split.
  - rewrite fmap_cons. constructor; [|done]. intros (pv' & Ep & Hp')%list_elem_of_fmap.
    pose proof (proj1 (Forall_forall _ _) A3 pv' Hp') as Hn. simpl in Hn. set_solver.
  - constructor; [done|]. eapply Forall_impl; [exact A3|]. intros y Hy. set_solver.
Qed.

Lemma check_provenances_err s l seen f : foldM (check_provenance s) l seen = Err f -> f = RuntimeError.
Proof.
  revert seen. induction l as [|pv l IH]; intros seen H; simpl in H; [done|].
  destruct (check_provenance s seen pv) as [X|g] eqn:E; simpl in H; [by eapply IH|].
  unfold check_provenance in E. unfold require_ in E. repeat case_match; simpl in *; congruence.
Qed.

Lemma restore_provenance_safe l d : op_safe (OpRestoreProvenance l d).
Proof.
  intros s Hs _. simpl. unfold restore_provenance, mbind, stx_bind, stx_get, stx_lift.
  destruct (foldM _ l ∅) as [X|f] eqn:E; [|simpl; by rewrite (check_provenances_err _ _ _ _ E)].
  apply check_provenances_Ok in E as (Hok & _ & _). destruct (0 <=? d).
  - destruct l as [|pv [|]]; try done. destruct (valid_seq s d) eqn:Ev; [|done].
    apply valid_seq_lookup in Ev as [_ [q Hq]]. unfold set_provenance.
    rewrite (on_seq_run _ _ s q (Ok tt) (set_degr (pv_degr pv) (pv_recov pv) q) Hq) by done.
    split; [|done]. by apply degr_insert_wf.
  - unfold stx_modify. assert (store_wf (set_seqs (imap (fun _ q => set_degr 0 0 q) (t_seqs s)) s)) as Hs'.
    { apply degr_seqs_wf; [done|]. intros. by do 2 eexists. }
    assert (set_degr 0 0 <$> t_seqs s = imap (fun _ q => set_degr 0 0 q) (t_seqs s)) as ->.
    { apply list_eq. intros j. by rewrite list_lookup_fmap, list_lookup_imap. }
    destruct (set_provenances_wf l _ Hs') as (s' & -> & ? & _); [|done].
    intros pv Hpv. pose proof (proj1 (Forall_forall _ _) Hok pv Hpv) as H. unfold provenance_ok in H. simpl in H. bprop.
    unfold valid_seq in *. simpl. by rewrite length_imap.
Qed.

Lemma restore_safe i id p o k : op_safe (OpRestore i id p o k).
Proof.
  intros s Hs [Hid Hk]. simpl. unfold restore, mbind, stx_bind, stx_get, stx_lift.
  destruct (_ || _) eqn:Eg; [done|]. bprop. assert (t_pending s = None) as Hp by (by apply dec_stable).
  destruct (seq_at s i Hs Hp) as (q & Hq & Hw & Hlt); [done|]. rewrite (vec_get_Some _ _ _ Hq). simpl.
  pose proof (st_cfg s Hs) as Hc. pose proof (sw_ok _ _ _ _ Hw) as Hok.
  destruct (g_history_limit (t_cfg s) <=? _) eqn:El; [done|]. bprop.
  destruct (so_used _ _ _ _ Hok) as [Hul Hus].
  destruct (lookup_lt_is_Some_2 (q_used q) (Z.to_nat k)) as [b Hb]; [lia|]. rewrite (vec_get_Some _ _ _ Hb). simpl.
  destruct (b || _) eqn:Eb; [done|].
  apply orb_false_iff in Eb as [-> Efresh]. apply bool_decide_eq_false, dec_stable in Efresh.
  set (q' := fun q => mk_seq _ _ _ _ _ _). rewrite (on_seq_run _ (stx_modify q') s q (Ok tt) (q' q) Hq) by done.
  split; [|done]. apply insert_seq_wf; [done|done|]. subst q'. simpl.
  pose proof (arena_bounds _ _ Hc _ Hlt) as [Ha Hb'].
  assert (to_i32 (u32 (arena_base (t_cfg s) (Z.to_nat i) + k)) = arena (t_cfg s) (Z.to_nat i) + k) as ->.
  { rewrite (arena_base_eq _ _ Hc _ Hlt), u32_id by (unfold UINT32_MAX, INT32_MAX in *; lia).
    unfold to_i32. by rewrite (proj2 (Z.leb_le _ _)) by lia. }
  set (x := mk_entry _ _ _ _). pose proof (sw_index _ _ _ _ Hw) as Hx.
  assert (ekey x ∉ keys (q_entries q)) as Hkey by (apply index_of_keys; by rewrite <- Hx).
  assert (seq_ok (t_cfg s) (Z.to_nat i) [] (set_entries (insert_before_greater x (q_entries q))
    (set_qused (<[Z.to_nat k := true]> (q_used q)) q))) as Hok'.
  { eapply (seq_ok_add _ _ [] x); [apply insert_before_greater_perm|done|done|].
    apply (mark_used_ok (t_cfg s) (length (t_seqs s))); first [done | lia]. }
  split; simpl.
  - eapply seq_ok_proper, Hok'; done.
  - apply insert_before_greater_ordered, Hw.
  - rewrite Hx. rewrite (index_of_perm (insert_before_greater x (q_entries q)) (x :: q_entries q)); [done| |apply insert_before_greater_perm].
    apply (so_keys _ _ _ _ Hok').
  - intros Hcomp. rewrite (Permutation_length (insert_before_greater_perm _ _)). simpl.
    unfold seq_limit. rewrite Hcomp. lia.
Qed.
