(* ===== verification/TailProps.v ===== *)
(** * What the tail store guarantees

    The theorems about [llama_kv_tail_store]: its invariant over every run, which
    rows a sequence keeps, what a failed batch leaves, what a sequence copy installs,
    which slots queries return, and which saved provenance is accepted. *)

From S2P Require Export TailInvariant.
Open Scope Z_scope.

(** ** Runs *)

Definition u32_args (l : list Z) : Prop := Forall (fun x => 0 <= x <= UINT32_MAX) l.

(** Stores a constructor returns. *)
Inductive constructed : tail_store -> Prop :=
  | built_overlay n_tokens n_seq_max stride sinks s :
      u32_args [n_tokens; n_seq_max; stride; sinks] ->
      store_overlay n_tokens n_seq_max stride sinks = Ok s -> constructed s
  | built_even n_tokens n_seq_max n_slots s :
      u32_args [n_tokens; n_seq_max; n_slots] -> store_even n_tokens n_seq_max n_slots = Ok s -> constructed s
  | built_compact n_tokens rollback n_seq_max stride sinks s :
      u32_args [n_tokens; rollback; n_seq_max; stride; sinks] ->
      store_compact n_tokens rollback n_seq_max stride sinks = Ok s -> constructed s.

(** Stores some run of operations, thrown exceptions included, leads to. *)
Inductive reachable_store : tail_store -> Prop :=
  | reach_new s : constructed s -> reachable_store s
  | reach_op s op : reachable_store s -> op_pre op s -> reachable_store (run_op op s).2.

Lemma fresh_store_wf c n : cfg_ok c n -> store_wf (mk_store c (replicate n (fresh_seq (g_stride c))) None None false).
Proof.
  intros Hc. split; simpl; try done.
  - by rewrite length_replicate.
  - intros i q [-> Hi]%lookup_replicate. rewrite extra_of_none by done. by eapply fresh_seq_wf.
Qed.

Lemma overlay_wf n_tokens n_seq_max stride sinks s :
  u32_args [n_tokens; n_seq_max; stride; sinks] -> store_overlay n_tokens n_seq_max stride sinks = Ok s -> store_wf s.
Proof.
  unfold u32_args. rewrite !Forall_cons. intros (H1 & H2 & H3 & H4 & _) H. unfold store_overlay in H. inv_ok.
  apply slot_count_Ok in E as [-> Hle]; try done. apply require_Ok, negb_true_iff, andb_false_iff in E0.
  rewrite !Z.ltb_ge in E0.
  apply (fresh_store_wf (mk_cfg n_tokens 0 n_tokens stride (stride * n_seq_max + sinks) false)). split; unfold seq_limit; simpl; try lia.
Qed.

Lemma compact_wf n_tokens rollback n_seq_max stride sinks s :
  u32_args [n_tokens; rollback; n_seq_max; stride; sinks] ->
  store_compact n_tokens rollback n_seq_max stride sinks = Ok s -> store_wf s.
Proof.
  unfold u32_args. rewrite !Forall_cons. intros (H1 & H2 & H3 & H4 & H5 & _) H. unfold store_compact in H. inv_ok.
  apply slot_count_Ok in E0 as [-> Hle]; try done. apply require_Ok in E1.
  assert (x = n_tokens + rollback /\ x <= UINT32_MAX) as [-> Hx].
  { unfold checked_tail_history_limit in E. inv_ok. apply require_Ok in E0. revert E0.
    rewrite u64_id by (unfold UINT32_MAX, UINT64_MAX in *; lia). intros E0. bprop. rewrite u32_id; lia. }
  bprop. apply (fresh_store_wf (mk_cfg n_tokens rollback (n_tokens + rollback) stride (stride * n_seq_max + sinks) true)).
  split; unfold seq_limit; simpl; lia || done.
Qed.

Lemma even_args n_tokens n_seq_max n_slots : u32_args [n_tokens; n_seq_max; n_slots] ->
  u32_args [n_tokens; n_seq_max; (if n_seq_max =? 0 then 0 else n_slots / n_seq_max); (if n_seq_max =? 0 then n_slots else n_slots mod n_seq_max)].
Proof.
  unfold u32_args. rewrite !Forall_cons. intros (H1 & H2 & H3 & _).
  destruct (Z.eqb_spec n_seq_max 0) as [->|Hne]; [repeat split; try done; unfold UINT32_MAX in *; lia|].
  pose proof (Z.div_le_upper_bound n_slots n_seq_max n_slots ltac:(lia) ltac:(nia)).
  pose proof (Z.div_pos n_slots n_seq_max ltac:(lia) ltac:(lia)).
  pose proof (Z.mod_pos_bound n_slots n_seq_max ltac:(lia)). repeat split; try done; lia.
Qed.

Lemma constructed_wf s : constructed s -> store_wf s.
Proof.
  intros [n_tokens n_seq_max stride sinks s' Hu H|n_tokens n_seq_max n_slots s' Hu H|n_tokens rollback n_seq_max stride sinks s' Hu H].
  - by eapply overlay_wf.
  - unfold store_even in H. inv_ok. eapply overlay_wf; [|exact E]. by apply even_args.
  - by eapply compact_wf.
Qed.

Lemma run_op_safe op : op_safe op.
Proof.
  destruct op.
  - apply commit_safe.
  - apply recycle_safe.
  - apply prepare_safe.
  - apply commit_cp_safe.
  - apply cancel_cp_safe.
  - apply rm_safe.
  - apply rm_cell_safe.
  - apply keep_safe.
  - apply add_safe.
  - apply div_safe.
  - apply begin_safe.
  - apply finish_safe.
  - apply invalidate_safe.
  - apply degrade_safe.
  - apply clear_safe.
  - apply restore_safe.
  - apply restore_cursor_safe.
  - apply reset_cursor_safe.
  - apply restore_provenance_safe.
Qed.

(** C8: the invariant of the tail store over every run of its operations, exceptions
    included: in each sequence the entries are in (position, ordinal) order, name
    distinct cells, and the hash index maps exactly their cells to them; their slots
    are distinct and inside the sequence's own arena; a slot is marked used exactly
    when an entry or the pending copy owns it; compact sequences never exceed the
    history limit.  No operation fails an assertion, leaves the bounds of a vector or
    overflows, and it throws only what and when [may_throw] says; in particular
    rebuilding an index never finds a duplicate cell. *)
Theorem tail_store_invariant s :
  reachable_store s ->
  (forall i q, t_seqs s !! i = Some q ->
     ordered entry_lt (q_entries q) /\ NoDup (keys (q_entries q)) /\
     q_index q = index_of (q_entries q) /\
     NoDup (slots (q_entries q) ++ extra_of s i) /\
     (forall slot, slot ∈ slots (q_entries q) ++ extra_of s i ->
        Z.of_nat i * g_stride (t_cfg s) <= slot < Z.of_nat (S i) * g_stride (t_cfg s)) /\
     (forall k : nat, q_used q !! k = Some true <->
        Z.of_nat k < g_stride (t_cfg s) /\ Z.of_nat i * g_stride (t_cfg s) + Z.of_nat k ∈ slots (q_entries q) ++ extra_of s i) /\
     (g_compact (t_cfg s) = true -> Z.of_nat (length (q_entries q)) <= g_history_limit (t_cfg s))) /\
  (forall op, op_pre op s -> match (run_op op s).1 with Ok _ => True | Err f => may_throw op s f end).
Proof.
  intros Hr. assert (store_wf s) as Hs.
  { induction Hr as [s Hn|s op Hr IH Hpre]; [by apply constructed_wf|]. by apply run_op_safe. }
  split; [|intros op Hpre; by apply run_op_safe].
  intros i q Hq. destruct (st_seqs s Hs i q Hq) as [Hok Ho Hx Hb].
  split; [done|]. split; [apply Hok|]. split; [done|]. split; [apply Hok|]. split; [|split].
  - intros slot Hslot. pose proof (proj1 (Forall_forall _ _) (so_slots _ _ _ _ Hok) slot Hslot) as Ha.
    unfold in_arena, arena in Ha. lia.
  - intros k. destruct (so_used _ _ _ _ Hok) as [Hl Hu]. unfold arena in Hu. split.
    + intros Hk. assert (Z.of_nat k < g_stride (t_cfg s)) as Hlt.
      { apply lookup_lt_Some in Hk. pose proof (st_cfg s Hs). destruct H. lia. }
      split; [done|]. rewrite (Hu k Hlt) in Hk. injection Hk as Hk. bprop. by rewrite elem_of_list_to_set in Hk.
    + intros [Hlt Hin]. rewrite (Hu k Hlt). f_equal. apply bool_decide_eq_true_2. by rewrite elem_of_list_to_set.
  - intros Hc. unfold seq_limit in Hb. rewrite Hc in Hb. by apply Hb.
Qed.

(** A run for the witnesses: compact storage for two tokens and one of rollback, two
    sequences; two rows are committed in a batch and a copy of them is pending. *)
Definition run_ops (ops : list tail_op) (s : tail_store) : tail_store := foldl (fun s op => (run_op op s).2) s ops.

Definition demo_start : tail_store := mk_store (mk_cfg 2 1 3 3 6 true) (replicate 2 (fresh_seq 3)) None None false.
Definition demo_id (cell : Z) : tail_identity := mk_identity 0 cell 7.
Definition demo_commits : list tail_op := [OpBegin; OpCommit 0 (demo_id 5) 5 1 0; OpCommit 0 (demo_id 6) 6 2 1].
Definition demo_done : tail_store := run_ops (demo_commits ++ [OpFinish true true]) demo_start.
Definition demo_pending : tail_store := run_ops [OpPrepare 0 1 0 0 0 (-1)] demo_done.

Lemma demo_start_constructed : constructed demo_start.
Proof. apply (built_compact 2 1 2 3 0); [repeat constructor; unfold UINT32_MAX; lia | reflexivity]. Qed.

Lemma demo_start_wf : store_wf demo_start.
Proof. apply constructed_wf, demo_start_constructed. Qed.

Fixpoint ops_pre (ops : list tail_op) (s : tail_store) : Prop :=
  match ops with [] => True | op :: ops' => op_pre op s /\ ops_pre ops' (run_op op s).2 end.

Lemma run_ops_reachable ops s : reachable_store s -> ops_pre ops s -> reachable_store (run_ops ops s).
Proof.
  revert s. induction ops as [|op ops IH]; intros s Hs; [done|]. intros [Hop Hops]. apply IH; [|done]. by apply reach_op.
Qed.

Lemma demo_done_reachable : reachable_store demo_done.
Proof.
  apply run_ops_reachable; [apply reach_new, demo_start_constructed|].
  vm_compute. repeat split; discriminate || reflexivity.
Qed.

Lemma demo_pending_reachable : reachable_store demo_pending.
Proof.
  apply run_ops_reachable; [apply demo_done_reachable|]. split; [|exact I].
  split; [unfold UINT32_MAX; lia|]. apply (bool_decide_unpack _). vm_compute. exact I.
Qed.

Lemma tail_store_invariant_witness : exists q,
  t_seqs demo_pending !! 1%nat = Some q /\ extra_of demo_pending 1 = [3; 4] /\
  NoDup (slots (q_entries q) ++ extra_of demo_pending 1).
Proof.
  eexists. split; [vm_compute; reflexivity|]. split; [vm_compute; reflexivity|].
  destruct (tail_store_invariant demo_pending demo_pending_reachable) as [H _].
  eapply H. vm_compute. reflexivity.
Defined.

(** ** What commits keep *)

Lemma reachable_wf s : reachable_store s -> store_wf s.
Proof. induction 1 as [s Hn|s op Hr IH Hpre]; [by apply constructed_wf|]. by apply run_op_safe. Qed.

(** The batch's rows of the current graph either stay out of it or fit its indices. *)
Definition row_fits (s : tail_store) (row : Z) : Prop :=
  row = UINT32_MAX \/ 0 <= row /\ g_n_slots (t_cfg s) + row <= INT32_MAX.

Lemma commit_run s i id p o row q :
  store_wf s -> t_pending s = None -> valid_seq s i = true -> g_n_tokens (t_cfg s) <> 0 -> id_ok id -> row_fits s row ->
  t_seqs s !! Z.to_nat i = Some q -> g_compact (t_cfg s) = true \/ t_in_batch s = false ->
  exists q' s', commit i id p o row s = (Ok (slot_of id (q_entries q')), s') /\ store_wf s' /\
    t_cfg s' = t_cfg s /\ t_pending s' = None /\ t_in_batch s' = t_in_batch s /\
    t_seqs s' = <[Z.to_nat i := q']> (t_seqs s) /\
    ((id ∈ e_id <$> q_entries q /\ q_entries q' = newest (seq_limit (t_cfg s))
         (stable_sort entry_lt (update_node id (fun e => mk_entry (e_id e) p o (e_slot e)) (q_entries q)))) \/
      (id ∉ e_id <$> q_entries q /\
       exists slot, q_entries q' = after_new (t_cfg s) (t_in_batch s) (mk_entry id p o slot) (q_entries q))) /\
    (tx_saved <$> t_batch s') = (tx_saved <$> t_batch s) /\
    (forall tx tx', t_batch s = Some tx -> t_batch s' = Some tx' -> forall j,
       affected_at tx' j = affected_at tx j ||
         (bool_decide (j = Z.to_nat i) && negb (row =? UINT32_MAX) && (0 <=? slot_of id (q_entries q')))).
Proof.
  intros Hs Hp Hv Hn Hid Hrow Hq Hb. pose proof (commit_safe i id p o row s Hs (conj Hp Hid)) as [Hw _]. simpl in Hw.
  unfold commit, mbind, stx_bind, stx_get in *. rewrite Hv, (proj2 (Z.eqb_neq _ _) Hn) in *. simpl in *.
  pose proof (limit_pos _ _ (st_cfg s Hs) Hn) as Hlim.
  assert (Z.to_nat i < length (t_seqs s))%nat as Hlt by (by eapply lookup_lt_Some).
  assert (seq_wf (t_cfg s) (Z.to_nat i) [] q) as Hwq by (rewrite <- (extra_of_none s (Z.to_nat i) Hp); by apply Hs).
  destruct (commit_seq_ok (t_cfg s) _ _ (st_cfg s Hs) Hlt Hlim (t_in_batch s) id p o q Hwq Hid)
    as [(q' & E & Hw' & Hent)|(q' & _ & _ & _ & _ & Hc & Hb' & _)]; [|destruct Hb; congruence].
  rewrite (on_seq_run _ _ _ _ _ _ Hq E) in *. unfold record_current in *. simpl in *.
  exists q'. destruct (t_batch s) as [tx|] eqn:Etx.
  2:{ eexists. split; [done|]. simpl. rewrite Etx. repeat (split; [done|]). done. }
  destruct (negb (row =? UINT32_MAX) && (0 <=? slot_of id (q_entries q'))) eqn:Er.
  2:{ eexists. split; [done|]. simpl. rewrite Etx. repeat (split; [done|]). intros tx1 tx2 [= <-] [= <-] j.
      by rewrite <- andb_assoc, Er, andb_false_r, orb_false_r. }
  pose proof (st_batch s Hs tx Etx) as (B1 & B2 & B3 & B4).
  apply andb_true_iff in Er as Er'. destruct Er' as [Er1 Er2]. apply negb_true_iff, Z.eqb_neq in Er1.
  destruct Hrow as [|[Hr0 Hr1]]; [done|]. destruct (st_cfg s Hs) as [C1 C2 C3 C4 C5 C6 C7 C8].
  rewrite u64_id in * by (unfold UINT64_MAX, INT32_MAX in *; nia).
  rewrite (proj2 (Z.ltb_ge _ _) Hr1) in *.
  destruct (lookup_lt_is_Some_2 (tx_current tx) (Z.to_nat i)) as [cur Ecur]; [lia|].
  destruct (lookup_lt_is_Some_2 (tx_affected tx) (Z.to_nat i)) as [aff Eaff]; [lia|].
  rewrite Ecur, Eaff in *. simpl in *. eexists. split; [done|]. simpl. repeat (split; [done|]).
  intros tx1 tx2 [= <-] [= <-] j. unfold affected_at. simpl. rewrite <- andb_assoc, Er, andb_true_r. case_bool_decide as Hj.
  - subst j. rewrite list_lookup_insert_eq by (by eapply lookup_lt_Some). by rewrite orb_true_r.
  - rewrite list_lookup_insert_ne by done. by rewrite orb_false_r.
Qed.

Lemma newest_app k a b : newest k (newest k a ++ b) = newest k (a ++ b).
Proof.
  set (d := (length a - Z.to_nat k)%nat). unfold newest at 2. fold d.
  assert (a ++ b = take d a ++ (drop d a ++ b)) as -> by (by rewrite app_assoc, take_drop).
  unfold newest. rewrite (drop_app_ge (take d a)) by (rewrite length_take, !length_app, length_take, length_drop; lia).
  f_equal. rewrite !length_app, length_take, length_drop. lia.
Qed.

Lemma newest_all k l : Z.of_nat (length l) <= k -> newest k l = l.
Proof. intros H. unfold newest. by rewrite (proj2 (Nat.sub_0_le _ _)) by lia. Qed.

Lemma newest_incl k l e : e ∈ newest k l -> e ∈ l.
Proof. intros H. eapply elem_of_submseteq; [exact H|]. apply sublist_submseteq, sublist_drop. Qed.

Lemma insert_before_greater_last x l : (forall e, e ∈ l -> entry_lt x e = false) -> insert_before_greater x l = l ++ [x].
Proof.
  induction l as [|e l IH]; intros H; [done|]. simpl. rewrite (H e) by (by left). f_equal. apply IH.
  intros; apply H. by right.
Qed.

(** A row that comes after every entry and names a new cell. *)
Lemma after_new_last c in_batch x l :
  0 < seq_limit c -> (g_compact c = true \/ in_batch = false) ->
  (g_compact c = true -> Z.of_nat (length l) <= seq_limit c) ->
  (forall e, e ∈ l -> entry_lt x e = false) -> ekey x ∉ keys l ->
  after_new c in_batch x l = newest (seq_limit c) (l ++ [x]).
Proof.
  intros Hk Hb Hl Hlast Hkey. unfold after_new, others. rewrite list_filter_id.
  2:{ intros e He Ee. apply Hkey. rewrite <- Ee. by apply (list_elem_of_fmap_2 (fun e => ekey e)). }
  rewrite insert_before_greater_last by (intros e He; apply Hlast; by eapply after_eviction_sub).
  unfold after_eviction. destruct (g_compact c || negb in_batch) eqn:Eb.
  2:{ destruct Hb as [Hb|Hb]; rewrite Hb in Eb; [done|]. by rewrite orb_true_r in Eb. }
  simpl. destruct (seq_limit c <=? Z.of_nat (length l)) eqn:El; bprop.
  - destruct l as [|a l]; [simpl in El; lia|]. simpl tail. destruct in_batch.
    + destruct Hb as [Hb|]; [|done]. specialize (Hl Hb). simpl in Hl, El. unfold newest. simpl.
      rewrite length_app. simpl. replace (S (length l + 1) - Z.to_nat (seq_limit c))%nat with 1%nat by lia. done.
    + unfold newest. simpl in El |- *. rewrite !length_app. simpl.
      replace (S (length l + 1) - Z.to_nat (seq_limit c))%nat with (S (length l + 1 - Z.to_nat (seq_limit c))) by lia. done.
  - destruct in_batch; [|done]. symmetry. apply newest_all. rewrite length_app. simpl. lia.
Qed.

Record new_row := mk_row { nr_id : tail_identity; nr_pos : Z; nr_ord : Z; nr_row : Z }.

(** Rows committed one after the other; the slots they are given. *)
Fixpoint commit_rows (seq_id : Z) (rows : list new_row) : stx tail_store (list Z) :=
  match rows with
  | [] => mret []
  | r :: rows' =>
      slot ← commit seq_id (nr_id r) (nr_pos r) (nr_ord r) (nr_row r);
      rest ← commit_rows seq_id rows';
      mret (slot :: rest)
  end.

Definition row_entry (r : new_row) (slot : Z) : exact_entry := mk_entry (nr_id r) (nr_pos r) (nr_ord r) slot.

(** Rows in increasing order, after the entries [l], of cells new to [l] and distinct. *)
Fixpoint rows_follow (l : list exact_entry) (rows : list new_row) : Prop :=
  match rows with
  | [] => True
  | r :: rows' =>
      id_ok (nr_id r) /\ key_of (nr_id r) ∉ keys l /\ (forall e, e ∈ l -> entry_lt (row_entry r 0) e = false) /\
      rows_follow (l ++ [row_entry r 0]) rows'
  end.

Lemma rows_follow_mono l l' rows :
  (forall e, e ∈ l' -> exists e', e' ∈ l /\ e_id e' = e_id e /\ e_pos e' = e_pos e /\ e_ord e' = e_ord e) ->
  rows_follow l rows -> rows_follow l' rows.
Proof.
  revert l l'. induction rows as [|r rows IH]; intros l l' H; [done|]. intros (Hid & Hk & Hlt & Hrest).
  split; [done|]. split; [|split].
  - intros (e & Ek & He)%list_elem_of_fmap. destruct (H e He) as (e' & He' & Ei & _ & _). apply Hk.
    rewrite Ek, <- Ei. by apply (list_elem_of_fmap_2 (fun e => ekey e)).
  - intros e He. destruct (H e He) as (e' & He' & _ & Ep & Eo). rewrite <- (Hlt e' He'). unfold entry_lt. by rewrite Ep, Eo.
  - eapply IH, Hrest. intros e [He|He]%elem_of_app.
    + destruct (H e He) as (e' & ? & ?). exists e'. set_solver.
    + exists e. set_solver.
Qed.

Lemma seq_wf_at s i q : store_wf s -> t_pending s = None -> t_seqs s !! i = Some q -> seq_wf (t_cfg s) i [] q.
Proof. intros Hs Hp Hq. rewrite <- (extra_of_none s i Hp). by apply Hs. Qed.

(** One row. *)
Lemma commit_last_run s i r q : store_wf s -> t_pending s = None -> valid_seq s i = true -> g_n_tokens (t_cfg s) <> 0 ->
  g_compact (t_cfg s) = true \/ t_in_batch s = false ->
  t_seqs s !! Z.to_nat i = Some q -> row_fits s (nr_row r) -> id_ok (nr_id r) -> key_of (nr_id r) ∉ keys (q_entries q) ->
  (forall e, e ∈ q_entries q -> entry_lt (row_entry r 0) e = false) ->
  exists slot s' q', commit i (nr_id r) (nr_pos r) (nr_ord r) (nr_row r) s = (Ok slot, s') /\ 0 <= slot /\ store_wf s' /\
    t_cfg s' = t_cfg s /\ t_pending s' = None /\ t_in_batch s' = t_in_batch s /\
    t_seqs s' = <[Z.to_nat i := q']> (t_seqs s) /\
    q_entries q' = newest (seq_limit (t_cfg s)) (q_entries q ++ [row_entry r slot]).
Proof.
  intros Hs Hp Hv Hn Hb Hq Hrow Hid Hk Hlt.
  destruct (commit_run s i (nr_id r) (nr_pos r) (nr_ord r) (nr_row r) q Hs Hp Hv Hn Hid Hrow Hq Hb)
    as (q' & s' & E & Hs' & Ec & Ep & Eb & Eseq & Hent & _).
  pose proof (limit_pos _ _ (st_cfg s Hs) Hn) as Hlim. pose proof (seq_wf_at s _ q Hs Hp Hq) as Hw.
  destruct Hent as [[Hin _]|[_ [slot Hent]]].
  { exfalso. apply Hk. apply list_elem_of_fmap in Hin as (e & Ee & He). rewrite Ee.
    by apply (list_elem_of_fmap_2 (fun e => ekey e)). }
  fold (row_entry r slot) in Hent. rewrite after_new_last in Hent; [|done|done|apply Hw| |done].
  2:{ intros e He. by rewrite <- (Hlt e He). }
  assert (t_seqs s' !! Z.to_nat i = Some q') as Hq'.
  { rewrite Eseq. apply list_lookup_insert_eq. by eapply lookup_lt_Some. }
  pose proof (seq_wf_at s' _ q' Hs' Ep Hq') as Hw'.
  assert (row_entry r slot ∈ q_entries q') as Hx.
  { rewrite Hent. unfold newest. rewrite length_app. simpl. rewrite drop_app_le by lia. set_solver. }
  assert (slot_of (nr_id r) (q_entries q') = slot) as Eslot.
  { change (nr_id r) with (e_id (row_entry r slot)). apply slot_of_found; [apply Hw'|done]. }
  exists slot, s', q'. rewrite E, Eslot. split; [done|]. split; [|by auto 10].
  assert (in_arena (t_cfg s') (Z.to_nat i) slot) as Ha.
  { eapply seq_ok_in_arena; [apply Hw'|]. rewrite app_nil_r. by apply (list_elem_of_fmap_2 e_slot _ _ Hx). }
  apply lookup_lt_Some in Hq'. pose proof (arena_bounds _ _ (st_cfg s' Hs') _ Hq'). unfold in_arena in Ha. lia.
Qed.

Lemma commit_rows_keep s i rows q : rows <> [] ->
  store_wf s -> t_pending s = None -> valid_seq s i = true -> g_n_tokens (t_cfg s) <> 0 ->
  g_compact (t_cfg s) = true \/ t_in_batch s = false ->
  t_seqs s !! Z.to_nat i = Some q -> Forall (fun r => row_fits s (nr_row r)) rows -> rows_follow (q_entries q) rows ->
  exists rets s' q', commit_rows i rows s = (Ok rets, s') /\ length rets = length rows /\
    Forall (fun slot => 0 <= slot) rets /\ t_seqs s' = <[Z.to_nat i := q']> (t_seqs s) /\
    q_entries q' = newest (seq_limit (t_cfg s)) (q_entries q ++ zip_with row_entry rows rets).
Proof.
  revert s q. induction rows as [|r rows IH]; intros s q Hne Hs Hp Hv Hn Hb Hq Hfit Hrows; [done|].
  apply Forall_cons in Hfit as [Hfit Hfits]. destruct Hrows as (Hid & Hk & Hlt & Hrest).
  destruct (commit_last_run s i r q Hs Hp Hv Hn Hb Hq Hfit Hid Hk Hlt)
    as (slot & s1 & q1 & E & H0 & Hs1 & Ec & Ep & Eb & Eseq & Hent).
  simpl. unfold mbind, stx_bind. rewrite E. destruct rows as [|r2 rows].
  { exists [slot], s1, q1. simpl. auto. }
  assert (t_seqs s1 !! Z.to_nat i = Some q1) as Hq1.
  { rewrite Eseq. apply list_lookup_insert_eq. by eapply lookup_lt_Some. }
  destruct (IH s1 q1) as (rets & s' & q' & E' & Hl & Hpos & Eseq' & Hent'); try done.
  - unfold valid_seq in *. by rewrite Eseq, length_insert.
  - by rewrite Ec.
  - by rewrite Ec, Eb.
  - unfold row_fits in *. by rewrite Ec.
  - eapply rows_follow_mono, Hrest. intros e He. rewrite Hent in He. apply newest_incl in He.
    apply elem_of_app in He as [He|He%list_elem_of_singleton]; [exists e; set_solver|].
    subst e. exists (row_entry r 0). set_solver.
  - exists (slot :: rets), s', q'. rewrite E'. split; [done|]. split; [simpl; by rewrite Hl|]. split; [by constructor|].
    split; [by rewrite Eseq', Eseq, list_insert_insert_eq|].
    rewrite Hent', Ec, Hent, newest_app, <- app_assoc. done.
Qed.

(** C33: outside a batch or in a compact store, with no copy prepared and when the store
    keeps rows at all ([n_tokens] above 0), committing rows that fit the graph in
    increasing order, each of a cell the sequence has no entry for, never throws;
    afterwards the sequence keeps exactly the newest [seq_limit] of its old entries
    followed by the new rows, with the slots the commits returned, and no other sequence
    has changed.  (In a batch of an overlay store a commit does not trim.) *)
Theorem commits_keep_newest s i rows q :
  reachable_store s -> t_pending s = None -> valid_seq s i = true -> g_n_tokens (t_cfg s) <> 0 ->
  g_compact (t_cfg s) = true \/ t_in_batch s = false ->
  t_seqs s !! Z.to_nat i = Some q -> rows <> [] ->
  Forall (fun r => row_fits s (nr_row r)) rows -> rows_follow (q_entries q) rows ->
  exists rets s' q', commit_rows i rows s = (Ok rets, s') /\ length rets = length rows /\
    Forall (fun slot => 0 <= slot) rets /\ t_seqs s' = <[Z.to_nat i := q']> (t_seqs s) /\
    q_entries q' = newest (seq_limit (t_cfg s)) (q_entries q ++ zip_with row_entry rows rets).
Proof. intros Hr ? ? ? ? ? ? ? ?. apply commit_rows_keep; try done. by apply reachable_wf. Qed.

Lemma commits_keep_newest_witness :
  let rows := [mk_row (demo_id 5) 5 1 0; mk_row (demo_id 6) 6 2 1; mk_row (demo_id 7) 7 3 2; mk_row (demo_id 8) 8 4 3] in
  exists rets s' q', commit_rows 0 rows demo_start = (Ok rets, s') /\ length rets = 4%nat /\
    t_seqs s' = [q'; fresh_seq 3] /\ q_entries q' = newest 3 (zip_with row_entry rows rets).
Proof.
  intros rows.
  destruct (commits_keep_newest demo_start 0 rows (fresh_seq 3)) as (rets & s' & q' & E & Hl & _ & Es & Eq).
  - apply reach_new, demo_start_constructed.
  - reflexivity.
  - reflexivity.
  - discriminate.
  - left. reflexivity.
  - reflexivity.
  - discriminate.
  - repeat (apply Forall_cons; split; [right; vm_compute; split; discriminate|]). by apply Forall_nil.
  - simpl. repeat split; try (vm_compute; discriminate); try set_solver.
    all: intros e He; repeat (apply elem_of_cons in He as [->|He]; [reflexivity|]); by apply not_elem_of_nil in He.
  - exists rets, s', q'. split; [exact E|]. split; [exact Hl|]. split; [exact Es|exact Eq].
Defined.

(** ** Batches *)

(** Computations that leave what a batch saved, and the constants, alone. *)
Definition keeps_saved {A} (m : stx tail_store A) : Prop := forall s,
  tx_saved <$> t_batch (m s).2 = tx_saved <$> t_batch s /\
  (t_cfg (m s).2 = t_cfg s /\ length (t_seqs (m s).2) = length (t_seqs s)) /\
  (g_compact (t_cfg s) = true -> t_batch s <> None -> t_in_batch (m s).2 = t_in_batch s).

Lemma keeps_ret {A} (a : A) : keeps_saved (mret a).
Proof. done. Qed.

Lemma keeps_get : keeps_saved stx_get.
Proof. done. Qed.

Lemma keeps_throw {A} f : keeps_saved (stx_throw (A := A) f).
Proof. done. Qed.

Lemma keeps_lift {A} (m : outcome A) : keeps_saved (stx_lift m).
Proof. done. Qed.

Lemma keeps_bind {A B} (m : stx tail_store A) (k : A -> stx tail_store B) :
  keeps_saved m -> (forall a, keeps_saved (k a)) -> keeps_saved (m ≫= k).
Proof.
  intros Hm Hk s. unfold mbind, stx_bind. destruct (Hm s) as (H1 & H2 & H3). destruct (m s) as [[a|f] s']; simpl in *; [|done].
  destruct H2 as [H2 H2']. destruct (Hk a s') as (H4 & [H5 H5'] & H6). rewrite H4, H5, H5'. split; [done|].
  split; [done|]. intros Hc Hb. rewrite H6; [by apply H3|by rewrite H2|]. intros Hn. rewrite Hn in H1. by destruct (t_batch s).
Qed.

Lemma keeps_get_bind {B} (k : tail_store -> stx tail_store B) :
  (forall s0, keeps_saved (k s0)) -> keeps_saved (stx_get ≫= k).
Proof. intros Hk. apply keeps_bind; [apply keeps_get|done]. Qed.

Lemma keeps_on_seq {A} i (m : stx seq_state A) : keeps_saved (on_seq i m).
Proof. intros s. unfold on_seq. destruct (t_seqs s !! i) as [q|]; [|done]. destruct (m q). simpl. by rewrite length_insert. Qed.

Lemma keeps_forX f l : (forall i, keeps_saved (f i)) -> keeps_saved (forX f l).
Proof. intros Hf. induction l as [|i l IH]; [apply keeps_ret|]. simpl. apply keeps_bind; [apply Hf|intros _; apply IH]. Qed.

Lemma keeps_for_seqs f : (forall i, keeps_saved (f i)) -> keeps_saved (for_seqs f).
Proof. intros Hf s. unfold for_seqs. by apply keeps_forX. Qed.

Lemma keeps_if {A} (b : bool) (m1 m2 : stx tail_store A) : keeps_saved m1 -> keeps_saved m2 -> keeps_saved (if b then m1 else m2).
Proof. by destruct b. Qed.

Create HintDb tail.
#[local] Hint Resolve keeps_ret keeps_get keeps_throw keeps_lift keeps_bind keeps_get_bind keeps_on_seq keeps_for_seqs keeps_if : tail.

(** Operations inside a batch other than its end and [clear]. *)
Definition in_batch_op (op : tail_op) : bool :=
  match op with OpFinish _ _ | OpClear => false | _ => true end.

Lemma keeps_seq_rm i p0 p1 : keeps_saved (seq_rm i p0 p1).
Proof. unfold seq_rm. apply keeps_get_bind. intros s0. destruct (negb _); auto with tail. Qed.

Lemma keeps_set_seqs (g : tail_store -> tail_store) :
  (forall s, t_batch (g s) = t_batch s /\ t_cfg (g s) = t_cfg s /\ t_in_batch (g s) = t_in_batch s /\
     length (t_seqs (g s)) = length (t_seqs s)) -> keeps_saved (stx_modify g).
Proof. intros Hg s. simpl. by destruct (Hg s) as (-> & -> & -> & ->). Qed.

Lemma keeps_record i id p o row r : keeps_saved (record_current i id p o row r).
Proof.
  intros s. unfold record_current. destruct (t_batch s) as [tx|] eqn:E; [|simpl; by rewrite ?E].
  repeat case_match; simpl; rewrite ?E; done.
Qed.

Lemma keeps_recycle_seq st cell g i : keeps_saved (recycle_seq st cell g i).
Proof.
  intros s. unfold recycle_seq, mbind, stx_bind, stx_get.
  destruct (t_seqs s !! i) as [q|]; [|done]. destruct (q_index q !! _); [|done]. destruct (_ =? _); [done|].
  destruct (t_batch s) as [tx|] eqn:E; simpl.
  - destruct (tx_affected tx !! i) as [a|]; [|simpl; by rewrite ?E]. simpl.
    set (s1 := set_batch _ s). assert (tx_saved <$> t_batch s1 = Some (tx_saved tx)) as E1 by done. rewrite <- E1.
    destruct (keeps_on_seq i (lift_seq (erase_entry (t_cfg s) i t true)) s1) as (H1 & H2 & H3).
    split; [exact H1|]. split; [exact H2|]. intros Hc _. apply H3; done.
  - destruct (keeps_on_seq i (lift_seq (erase_entry (t_cfg s) i t true)) s) as (H1 & H2 & H3).
    rewrite E in H1. split; [exact H1|]. done.
Qed.

Lemma keeps_commit_cp : keeps_saved commit_seq_cp.
Proof.
  intros s. unfold commit_seq_cp. destruct (t_pending s) as [p|]; [|done].
  exact (keeps_on_seq (Z.to_nat (pc_dst p)) _ (set_pending None s)).
Qed.

Lemma keeps_cancel_cp : keeps_saved cancel_seq_cp.
Proof.
  intros s. unfold cancel_seq_cp. destruct (t_pending s) as [p|]; [|done].
  refine (keeps_bind _ _ (keeps_on_seq _ _) _ s). intros _. by apply keeps_set_seqs.
Qed.

Lemma keeps_set_provenances l : keeps_saved (set_provenances l).
Proof. induction l as [|pv l IH]; [apply keeps_ret|]. simpl. apply keeps_bind; [apply keeps_on_seq|done]. Qed.

Lemma keeps_run op : in_batch_op op = true -> op <> OpBegin -> keeps_saved (run_op op).
Proof.
  intros Hop Hbeg. destruct op; simpl; try done.
  - apply keeps_bind; [|auto with tail]. unfold commit. apply keeps_get_bind. intros s0. apply keeps_if; [auto with tail|].
    apply keeps_bind; [auto with tail|]. intros r. apply keeps_bind; [apply keeps_record|auto with tail].
  - unfold recycle. apply keeps_for_seqs. intros i. apply keeps_recycle_seq.
  - apply keeps_bind; [|auto with tail]. unfold prepare_seq_cp. apply keeps_get_bind. intros s0. apply keeps_if; [auto with tail|].
    destruct (t_pending s0); [auto with tail|]. do 3 (apply keeps_bind; [auto with tail|intros ?]).
    apply keeps_bind; [by apply keeps_set_seqs|auto with tail].
  - apply keeps_commit_cp.
  - apply keeps_cancel_cp.
  - apply keeps_seq_rm.
  - unfold seq_rm_cell. apply keeps_get_bind. intros s0. apply keeps_if; auto with tail.
  - unfold seq_keep. apply keeps_for_seqs. intros i. apply keeps_if; [auto with tail|apply keeps_seq_rm].
  - unfold seq_add. apply keeps_get_bind. intros s0. apply keeps_if; [auto with tail|].
    apply keeps_bind; [auto with tail|]. intros q. apply keeps_for_seqs. auto with tail.
  - unfold seq_div. apply keeps_get_bind. intros s0. apply keeps_if; [auto with tail|].
    apply keeps_bind; [auto with tail|]. intros q. apply keeps_for_seqs. auto with tail.
  - unfold invalidate_slots. apply keeps_get_bind. intros s0. apply keeps_for_seqs. auto with tail.
  - unfold mark_degraded. intros s0. unfold mbind, stx_bind, stx_get, stx_put. simpl.
    destruct (_ <? 0); [simpl; by rewrite length_fmap|]. destruct (valid_seq _ _); [|done].
    destruct (t_pending s0) as [p|]; [destruct (_ =? _); [done|]|]; apply keeps_on_seq.
  - apply keeps_bind; [|auto with tail]. unfold restore. apply keeps_get_bind. intros s0. apply keeps_if; [auto with tail|].
    do 2 (apply keeps_bind; [auto with tail|intros ?]). apply keeps_if; auto with tail.
  - unfold restore_write_cursor. apply keeps_get_bind. intros s0. apply keeps_if; auto with tail.
  - unfold reset_write_cursor. apply keeps_get_bind. intros s0. apply keeps_if; [auto with tail|].
    apply keeps_bind; [apply keeps_seq_rm|auto with tail].
  - unfold restore_provenance. apply keeps_get_bind. intros s0. apply keeps_bind; [auto with tail|]. intros X.
    apply keeps_if.
    + destruct provenance as [|pv [|]]; auto with tail. apply keeps_if; [apply keeps_on_seq|auto with tail].
    + apply keeps_bind; [apply keeps_set_seqs; intros; simpl; by rewrite length_fmap|]. intros _. apply keeps_set_provenances.
Qed.

Lemma keeps_run_op op s : in_batch_op op = true -> t_batch s <> None -> g_compact (t_cfg s) = true ->
  tx_saved <$> t_batch (run_op op s).2 = tx_saved <$> t_batch s /\ t_cfg (run_op op s).2 = t_cfg s /\
  t_in_batch (run_op op s).2 = t_in_batch s.
Proof.
  intros Hop Hb Hc.
  assert (op = OpBegin \/ op <> OpBegin) as [->|Hbeg] by (destruct op; first [by left | by right]).
  - unfold run_op, begin_batch, mbind, stx_bind, stx_get. rewrite Hc. destruct (t_batch s) eqn:E; [|done].
    simpl. by rewrite E.
  - destruct (keeps_run op Hop Hbeg s) as (? & [? _] & H). split; [done|]. split; [done|]. by apply H.
Qed.

Lemma run_ops_saved ops s : forallb in_batch_op ops = true -> t_batch s <> None -> g_compact (t_cfg s) = true ->
  tx_saved <$> t_batch (run_ops ops s) = tx_saved <$> t_batch s /\ t_cfg (run_ops ops s) = t_cfg s.
Proof.
  revert s. induction ops as [|op ops IH]; intros s Ho Hb Hc; [done|]. simpl in Ho. apply andb_true_iff in Ho as [Ho Hos].
  destruct (keeps_run_op op s Ho Hb Hc) as (H1 & H2 & _). simpl. destruct (IH (run_op op s).2) as [H3 H4]; [done| |by rewrite H2|].
  - intros Hn. rewrite Hn in H1. by destruct (t_batch s).
  - by rewrite H3, H4, H1, H2.
Qed.

Lemma run_ops_wf ops s : store_wf s -> ops_pre ops s -> store_wf (run_ops ops s).
Proof. revert s. induction ops as [|op ops IH]; intros s Hs; [done|]. intros [Hop Hops]. apply IH; [|done]. by apply run_op_safe. Qed.

Lemma imap_with_index s f : store_wf s -> t_pending s = None ->
  (forall i q, t_seqs s !! i = Some q -> f i (save_seq q) = with_index (save_seq q)) ->
  imap f (save_seq <$> t_seqs s) = t_seqs s.
Proof.
  intros Hs Hp Hf. apply list_eq. intros i. rewrite list_lookup_imap, list_lookup_fmap.
  destruct (t_seqs s !! i) as [q|] eqn:Hq; simpl; [|done]. rewrite (Hf i q Hq). f_equal.
  by apply (with_index_save _ _ _ _ (seq_wf_at s i q Hs Hp Hq)).
Qed.

(** C31: a batch of a compact store that fails before it may have overwritten rows leaves no
    trace: begun without a prepared copy and outside a batch, whatever operations but
    [clear] ran since [begin_batch], in whatever order and with whatever exceptions, and
    with no copy left prepared, [finish_batch(false, false)] returns and the store is
    exactly the one before the batch: entries, slots, write cursors, flags and the rebuilt
    indices.  (An overlay store has no rollback, see [overlay_batch_ends].) *)
Theorem failed_batch_restores s ops :
  reachable_store s -> g_compact (t_cfg s) = true -> t_pending s = None -> t_batch s = None -> t_in_batch s = false ->
  forallb in_batch_op ops = true -> ops_pre (OpBegin :: ops) s -> t_pending (run_ops (OpBegin :: ops) s) = None ->
  run_op (OpFinish false false) (run_ops (OpBegin :: ops) s) = (Ok tt, s).
Proof.
  intros Hr Hc Hp Hb Hin Ho Hpre Hp'. apply reachable_wf in Hr as Hs.
  destruct (begin_run s Hs Hp) as [E _]; [by left|]. rewrite Hc in E.
  pose proof (run_ops_wf _ _ Hs Hpre) as Hs'. set (s' := run_ops (OpBegin :: ops) s) in *.
  destruct (run_ops_saved ops (begin_batch s).2 Ho) as [H1 H2]; [by rewrite E|by rewrite E|].
  assert (run_ops ops (begin_batch s).2 = s') as Es by done. rewrite Es, E in H1, H2. simpl in H1, H2. clear Es.
  destruct (t_batch s') as [tx|] eqn:Etx; [|done]. injection H1 as H1.
  destruct (finish_fail_run false s' tx Hs' Hp') as [Ef _]; [by rewrite H2|done|]. simpl. rewrite Ef. f_equal.
  rewrite H2, H1, (imap_with_index s); try done. clear -Hb Hp Hin. destruct s. simpl in *. by subst.
Qed.

Lemma failed_batch_restores_witness :
  run_op (OpFinish false false) (run_ops (OpBegin :: [OpCommit 0 (demo_id 7) 7 3 0; OpRecycle 0 5 8; OpCommit 0 (demo_id 9) 4 4 1; OpRm 0 6 7]) demo_done)
  = (Ok tt, demo_done).
Proof.
  apply (failed_batch_restores demo_done); [apply demo_done_reachable| | | | | | |]; vm_compute; repeat split; discriminate || reflexivity.
Defined.

(** What [llama_kv_cache::apply_ubatch] does to the store inside a batch: it recycles the
    cells of the ubatch, commits its rows and purges positions. *)
Definition ubatch_op (op : tail_op) : bool :=
  match op with OpCommit _ _ _ _ _ | OpRecycle _ _ _ | OpRm _ _ _ => true | _ => false end.

(** Sequence [j] has a row of another generation of this cell. *)
Definition has_stale (stream cell generation : Z) (s : tail_store) (j : nat) : bool :=
  match t_seqs s !! j with
  | Some q => existsb (fun e => bool_decide (ekey e = cell_key stream cell) && negb (id_generation (e_id e) =? generation)) (q_entries q)
  | None => false
  end.

(** An operation that may overwrite the rows of sequence [j]: a commit gives a row of the
    current graph a slot, or a recycled cell takes one away. *)
Definition overwrites (op : tail_op) (s : tail_store) (j : nat) : bool :=
  match op with
  | OpCommit i id p o row => bool_decide (j = Z.to_nat i) && negb (row =? UINT32_MAX) && match (commit i id p o row s).1 with Ok slot => 0 <=? slot | Err _ => false end
  | OpRecycle stream cell generation => has_stale stream cell generation s j
  | _ => false
  end.

Fixpoint overwritten (ops : list tail_op) (s : tail_store) (j : nat) : bool :=
  match ops with [] => false | op :: ops' => overwrites op s j || overwritten ops' (run_op op s).2 j end.

Lemma mark_at tx l i j : (i < length (tx_affected tx))%nat ->
  affected_at (mk_tx (tx_saved tx) l (<[i := true]> (tx_affected tx))) j = affected_at tx j || bool_decide (j = i).
Proof.
  intros Hi. unfold affected_at. simpl. case_bool_decide as E; [subst j; rewrite list_lookup_insert_eq by done; by rewrite orb_true_r|].
  rewrite list_lookup_insert_ne by done. by rewrite orb_false_r.
Qed.

Lemma commit_marks i id p o row s tx : store_wf s -> op_pre (OpCommit i id p o row) s -> g_compact (t_cfg s) = true -> t_batch s = Some tx ->
  exists tx', t_batch (run_op (OpCommit i id p o row) s).2 = Some tx' /\ forall j, affected_at tx' j = affected_at tx j || overwrites (OpCommit i id p o row) s j.
Proof.
  intros Hs [Hp Hid] Hc Htx. simpl. unfold commit, mbind, stx_bind, stx_get.
  destruct (negb (valid_seq s i) || _) eqn:Eg; [exists tx; split; [done|]; intros j; simpl; by rewrite andb_false_r, orb_false_r|]. bprop.
  destruct (seq_at s i Hs Hp) as (q & Hq & Hw & Hlt); [done|]. pose proof (limit_pos _ _ (st_cfg s Hs) H0) as Hlim.
  destruct (commit_seq_ok (t_cfg s) _ _ (st_cfg s Hs) Hlt Hlim (t_in_batch s) id p o q Hw Hid) as [(q' & E & Hw' & _)|(q' & _ & _ & _ & _ & Hc' & _)]; [|congruence].
  rewrite (on_seq_run _ _ _ _ _ _ Hq E). unfold record_current. simpl. rewrite Htx.
  destruct (negb (row =? UINT32_MAX)) eqn:Er; simpl; [|exists tx; split; [done|]; intros j; by rewrite andb_false_r, orb_false_r].
  destruct (0 <=? slot_of id (q_entries q')) eqn:Es; simpl; [|exists tx; split; [done|]; intros j; rewrite Es; by rewrite andb_false_r, orb_false_r].
  destruct (_ <? _); simpl; [exists tx; split; [done|]; intros j; by rewrite andb_false_r, orb_false_r|].
  pose proof (st_batch s Hs tx Htx) as (B1 & B2 & B3 & B4).
  destruct (lookup_lt_is_Some_2 (tx_current tx) (Z.to_nat i)) as [cur Ecur]; [lia|]. destruct (lookup_lt_is_Some_2 (tx_affected tx) (Z.to_nat i)) as [aff Eaff]; [lia|].
  rewrite Ecur, Eaff. simpl. eexists. split; [done|]. intros j. rewrite mark_at by lia. by rewrite Es, !andb_true_r.
Qed.

Lemma recycle_seq_marks st cell g i s tx : store_wf s -> t_pending s = None -> (i < length (t_seqs s))%nat -> t_batch s = Some tx ->
  exists s' tx', recycle_seq st cell g i s = (Ok tt, s') /\ store_wf s' /\ t_pending s' = None /\ length (t_seqs s') = length (t_seqs s) /\ t_batch s' = Some tx' /\
    (forall j, j <> i -> t_seqs s' !! j = t_seqs s !! j) /\ forall j, affected_at tx' j = affected_at tx j || bool_decide (j = i) && has_stale st cell g s j.
Proof.
  intros Hs Hp Hi Htx. destruct (recycle_step st cell g s i Hs Hp Hi) as (s' & E & Hs' & Hp' & Hl). exists s'. revert E.
  destruct (lookup_lt_is_Some_2 _ _ Hi) as [q Hq]. pose proof (seq_wf_at s i q Hs Hp Hq) as Hw. pose proof (so_keys _ _ _ _ (sw_ok _ _ _ _ Hw)) as Hk. pose proof (sw_index _ _ _ _ Hw) as Hx.
  assert (has_stale st cell g s i = match q_index q !! cell_key st cell with Some nid => negb (id_generation nid =? g) | None => false end) as Estale.
  { unfold has_stale. rewrite Hq. destruct (q_index q !! cell_key st cell) as [nid|] eqn:Ei.
    - destruct (index_lookup q _ _ Hk Hx Ei) as (e & He & Hke & <-). apply eq_true_iff_eq. rewrite existsb_exists. split.
      + intros (e' & He' & H). apply andb_true_iff in H as [H1 H2]. apply bool_decide_eq_true in H1. apply list_elem_of_In in He'. assert (index_of (q_entries q) !! ekey e' = Some (e_id e')) as H by (apply index_of_Some; eauto). rewrite H1, <- Hx, Ei in H. by injection H as ->.
      + intros H. exists e. split; [by apply list_elem_of_In|]. by rewrite bool_decide_eq_true_2.
    - apply not_true_iff_false. rewrite existsb_exists. intros (e & He & H). apply andb_true_iff in H as [H1 _]. apply bool_decide_eq_true in H1. apply list_elem_of_In in He. assert (index_of (q_entries q) !! ekey e = Some (e_id e)) as H by (apply index_of_Some; eauto). rewrite H1, <- Hx, Ei in H. done. }
  assert (forall b, b = has_stale st cell g s i -> forall j, bool_decide (j = i) && has_stale st cell g s j = bool_decide (j = i) && b) as Hj by (intros b -> j; by case_bool_decide; subst).
  unfold recycle_seq, mbind, stx_bind, stx_get. rewrite Hq. destruct (q_index q !! cell_key st cell) as [nid|].
  2:{ intros [= <-]. exists tx. do 6 (split; [done|]). intros j. rewrite (Hj false) by done. by rewrite andb_false_r, orb_false_r. }
  destruct (id_generation nid =? g).
  { intros [= <-]. exists tx. do 6 (split; [done|]). intros j. rewrite (Hj false) by done. by rewrite andb_false_r, orb_false_r. }
  pose proof (st_batch s Hs tx Htx) as (B1 & B2 & B3 & B4). rewrite Htx. destruct (lookup_lt_is_Some_2 (tx_affected tx) i) as [aff ->]; [lia|]. simpl. unfold on_seq. simpl. rewrite Hq. destruct (lift_seq _ q) as [r q']. intros [= -> <-].
  eexists. split; [done|]. do 3 (split; [done|]). split; [done|]. split; [intros j Hne; simpl; by rewrite list_lookup_insert_ne|]. intros j. rewrite mark_at by lia. rewrite (Hj true) by done. by rewrite andb_true_r.
Qed.

Lemma recycle_marks st cell g s tx : store_wf s -> t_pending s = None -> t_batch s = Some tx ->
  exists tx', t_batch (run_op (OpRecycle st cell g) s).2 = Some tx' /\ forall j, affected_at tx' j = affected_at tx j || overwrites (OpRecycle st cell g) s j.
Proof.
  intros Hs Hp Htx. simpl. unfold recycle, for_seqs.
  assert (forall l s1 tx1, NoDup l -> (forall i, i ∈ l -> (i < length (t_seqs s1))%nat) -> store_wf s1 -> t_pending s1 = None -> t_batch s1 = Some tx1 ->
    exists tx', t_batch (forX (recycle_seq st cell g) l s1).2 = Some tx' /\ forall j, affected_at tx' j = affected_at tx1 j || bool_decide (j ∈ l) && has_stale st cell g s1 j) as H.
  { intros l. induction l as [|i l IH]; intros s1 tx1 Hn Hl Hs1 Hp1 Htx1; [exists tx1; split; [done|]; intros j; rewrite bool_decide_eq_false_2 by (by apply not_elem_of_nil); by rewrite orb_false_r|].
    apply NoDup_cons in Hn as [Hni Hn]. destruct (recycle_seq_marks st cell g i s1 tx1 Hs1 Hp1) as (s2 & tx2 & E & Hs2 & Hp2 & Hl2 & Htx2 & Hother & Haff); [apply Hl; by left|done|].
    simpl. unfold mbind, stx_bind. rewrite E. destruct (IH s2 tx2 Hn) as (tx3 & Htx3 & Haff3); [intros k Hk; rewrite Hl2; apply Hl; by right|done..|].
    exists tx3. split; [exact Htx3|]. intros j. rewrite Haff3, Haff, <- orb_assoc. f_equal. destruct (decide (j = i)) as [->|Hne].
    - rewrite !(bool_decide_eq_true_2 (_ = _)), (bool_decide_eq_false_2 (i ∈ l)), (bool_decide_eq_true_2 (i ∈ i :: l)) by (done || by left). by rewrite orb_false_r.
    - rewrite (bool_decide_eq_false_2 (j = i)) by done. simpl. unfold has_stale. rewrite (Hother j Hne). f_equal. apply bool_decide_ext. rewrite elem_of_cons. naive_solver. }
  destruct (H (seq 0 (length (t_seqs s))) s tx) as (tx' & Htx' & Haff); [apply NoDup_seq|by intros i [_ ?]%elem_of_seq|done..|]. exists tx'. split; [exact Htx'|]. intros j. rewrite Haff. f_equal.
  destruct (decide (j < length (t_seqs s))%nat) as [Hj|Hj]; [rewrite bool_decide_eq_true_2 by (apply elem_of_seq; lia); done|]. unfold has_stale. rewrite (lookup_ge_None_2 (t_seqs s)) by lia. by rewrite andb_false_r.
Qed.

(** The marks of a batch are the operations that may have overwritten rows. *)
Lemma op_marks op s tx : ubatch_op op = true -> store_wf s -> op_pre op s -> g_compact (t_cfg s) = true -> t_batch s = Some tx ->
  exists tx', t_batch (run_op op s).2 = Some tx' /\ forall j, affected_at tx' j = affected_at tx j || overwrites op s j.
Proof.
  intros Hop Hs Hpre Hc Htx. destruct op; try done; [by apply commit_marks|by apply recycle_marks|]. exists tx. split; [|intros j; by rewrite orb_false_r].
  simpl. unfold seq_rm, mbind, stx_bind, stx_get. destruct (negb _); [done|]. unfold on_seq. destruct (t_seqs s !! _) as [q|]; [|done]. by destruct (seq_rm_seq _ _ _ _ q).
Qed.

Lemma ops_mark ops : forall s tx, forallb ubatch_op ops = true -> store_wf s -> ops_pre ops s -> g_compact (t_cfg s) = true -> t_batch s = Some tx ->
  exists tx', t_batch (run_ops ops s) = Some tx' /\ forall j, affected_at tx' j = affected_at tx j || overwritten ops s j.
Proof.
  induction ops as [|op ops IH]; intros s tx Ho Hs Hpre Hc Htx; [exists tx; split; [done|]; intros j; by rewrite orb_false_r|]. simpl in Ho. apply andb_true_iff in Ho as [Ho Hos]. destruct Hpre as [Hop Hops].
  destruct (op_marks op s tx Ho Hs Hop Hc Htx) as (tx1 & Htx1 & H1). destruct (keeps_run_op op s) as (_ & Hcfg & _); [by destruct op|by rewrite Htx|done|].
  destruct (IH _ tx1 Hos (proj1 (run_op_safe op s Hs Hop)) Hops) as (tx2 & Htx2 & H2); [by rewrite Hcfg|done|]. exists tx2. split; [done|]. intros j. simpl. by rewrite H2, H1, orb_assoc.
Qed.

Lemma begin_affected s j : affected_at (begin_tx s) j = false.
Proof.
  unfold affected_at, begin_tx. simpl. destruct ((fun _ => false) <$> t_seqs s) eqn:E; [done|].
  rewrite <- E, list_lookup_fmap. by destruct (t_seqs s !! j).
Qed.

(** C32: a batch of a compact store that fails after it may have overwritten rows.  For any
    commits, recycles and removals since [begin_batch], [finish_batch(false, true)]
    returns, and exactly the sequences in which a commit gave a slot to a row of the
    current graph or a recycled cell took a row away lose their entries and all their
    slots, and are marked [DEGRADED_PAYLOAD_INVALID] with no recovery counted; every
    other sequence is as before the batch. *)
Theorem failed_payload_batch s ops :
  reachable_store s -> g_compact (t_cfg s) = true -> t_pending s = None -> t_batch s = None ->
  forallb ubatch_op ops = true -> ops_pre (OpBegin :: ops) s -> t_pending (run_ops (OpBegin :: ops) s) = None ->
  exists s3, run_op (OpFinish false true) (run_ops (OpBegin :: ops) s) = (Ok tt, s3) /\ length (t_seqs s3) = length (t_seqs s) /\
    forall j q, t_seqs s !! j = Some q -> exists q', t_seqs s3 !! j = Some q' /\
      if overwritten ops (run_op OpBegin s).2 j
      then q_entries q' = [] /\ q_index q' = ∅ /\ Forall (fun b => b = false) (q_used q') /\
           q_degr q' = Z.lor (q_degr q) DEGRADED_PAYLOAD_INVALID /\ q_recov q' = 0
      else q' = q.
Proof.
  intros Hr Hc Hp Hb Ho Hpre Hp2. apply reachable_wf in Hr as Hs. destruct Hpre as [_ Hops]. change (run_ops (OpBegin :: ops) s) with (run_ops ops (run_op OpBegin s).2) in *.
  destruct (begin_run s Hs Hp) as [E Hw]; [by left|]. change (run_op OpBegin s) with (begin_batch s) in *. rewrite Hc in E. rewrite E in *. simpl in *.
  set (s1 := mk_store _ _ _ _ _) in *. destruct (ops_mark ops s1 (begin_tx s) Ho Hw Hops Hc eq_refl) as (tx & Etx & Eaff).
  assert (forallb in_batch_op ops = true) as Ho' by (clear -Ho; induction ops as [|op ops IH]; [done|]; simpl in *; apply andb_true_iff in Ho as [Ho Hos]; rewrite IH by done; by destruct op).
  destruct (run_ops_saved ops s1 Ho' ltac:(done) Hc) as [Esv Ec]. rewrite Etx in Esv. injection Esv as Esv. pose proof (run_ops_wf ops s1 Hw Hops) as Hs2. set (s2 := run_ops ops s1) in *.
  destruct (finish_fail_run true s2 tx Hs2 Hp2) as [Ef Hs3]; [by rewrite Ec|done|]. eexists. split; [exact Ef|]. simpl.
  rewrite Esv. simpl. split; [by rewrite length_imap, length_fmap|]. intros j q Hq.
  pose proof (seq_wf_at s j q Hs Hp Hq) as Hwq. rewrite list_lookup_imap, list_lookup_fmap, Hq. simpl. eexists. split; [done|].
  rewrite Eaff, begin_affected. simpl. unfold rolled_back. rewrite (with_index_save _ _ _ _ Hwq), Ec. simpl.
  destruct (overwritten ops s1 j); [|done].
  destruct (drop_payload_ok (t_cfg s) _ j (st_cfg s Hs) ltac:(by eapply lookup_lt_Some) q Hwq) as (q' & Ed & Hw' & E1 & E2 & E3 & _).
  rewrite Ed. simpl. split; [done|]. split; [|split; [|done]].
  - by rewrite (sw_index _ _ _ _ Hw'), E1.
  - destruct (so_used _ _ _ _ (sw_ok _ _ _ _ Hw')) as [Hul Hu]. rewrite E1 in Hu. apply Forall_lookup. intros k b Hk.
    assert (Z.of_nat k < g_stride (t_cfg s)) as Hlt by (apply lookup_lt_Some in Hk; destruct (st_cfg s Hs); lia).
    rewrite (Hu k Hlt) in Hk. by injection Hk as <-.
Qed.

(** A failed batch of an overlay store rolls nothing back. *)
Lemma overlay_batch_ends s ok pm : g_compact (t_cfg s) = false -> finish_batch ok pm s = (Ok tt, set_in_batch false s).
Proof. intros Hc. unfold finish_batch, mbind, stx_bind, stx_get. by rewrite Hc. Qed.

(** Cell 5 is used again: its row goes, sequence 1 gets it. *)
Definition demo_reuse : list tail_op := [OpRecycle 0 5 8; OpCommit 1 (mk_identity 0 5 8) 7 3 0; OpCommit 1 (demo_id 9) 8 4 UINT32_MAX].

Lemma failed_payload_batch_witness : overwritten demo_reuse (run_op OpBegin demo_done).2 0 = true /\ overwritten demo_reuse (run_op OpBegin demo_done).2 1 = true /\
  exists s3, run_op (OpFinish false true) (run_ops (OpBegin :: demo_reuse) demo_done) = (Ok tt, s3) /\ length (t_seqs s3) = 2%nat.
Proof.
  split; [vm_compute; reflexivity|]. split; [vm_compute; reflexivity|].
  destruct (failed_payload_batch demo_done demo_reuse) as (s3 & E1 & E2 & _).
  - apply demo_done_reachable.
  - reflexivity.
  - reflexivity.
  - reflexivity.
  - reflexivity.
  - vm_compute. repeat split; discriminate || reflexivity.
  - vm_compute. reflexivity.
  - exists s3. split; [exact E1|exact E2].
Defined.

(** ** Copying a sequence *)

(** An entry without its slot. *)
Definition strip (e : exact_entry) : exact_entry := with_slot e LLAMA_KV_TAIL_BODY_SLOT.

(** Rows a copy takes from the source, renamed to the stream of the destination. *)
Definition copied_rows (src_stream dst_stream p0 p1 : Z) (l : list exact_entry) : list exact_entry :=
  copy_entry dst_stream <$> filter (fun e => id_stream (e_id e) = src_stream /\ outside p0 p1 e = false) l.

Lemma strip_candidates c srcE dstE ss ds p0 p1 :
  (strip ∘ cd_entry) <$> cp_candidates c srcE dstE ss ds p0 p1 =
  newest (seq_limit c) (stable_sort entry_lt
    ((strip <$> filter (fun e => outside p0 p1 e = true) dstE) ++ copied_rows ss ds p0 p1 srcE)).
Proof.
  unfold cp_candidates. set (L := _ ++ _).
  assert ((strip ∘ cd_entry) <$> L =
    (strip <$> filter (fun e => outside p0 p1 e = true) dstE) ++ copied_rows ss ds p0 p1 srcE) as <-.
  { unfold L, copied_rows. rewrite fmap_app, <- !list_fmap_compose. f_equal.
    - f_equal. apply list_filter_iff. intros x. by destruct (outside p0 p1 x).
    - rewrite (list_filter_iff _ (fun e => id_stream (e_id e) = ss /\ outside p0 p1 e = false)); [done|].
      intros x. destruct (Z.eqb_spec (id_stream (e_id x)) ss), (outside p0 p1 x); simpl; naive_solver. }
  rewrite <- (stable_sort_fmap cand_lt entry_lt (strip ∘ cd_entry)) by done.
  unfold newest. by rewrite fmap_drop, length_fmap.
Qed.

(** [e] is [e0] of the source, renamed, in the slot the copy goes to. *)
Definition copies_row (ds : Z) (e0 e : exact_entry) : Prop := e = with_slot (copy_entry ds e0) (e_slot e).

Lemma elem_of_copies cands dest cp : Forall2 placed cands dest ->
  cp ∈ copies_of cands dest <-> exists cd e, (cd, e) ∈ zip cands dest /\ cd_copied cd = true /\ cp = mk_copy (cd_src_slot cd) (e_slot e).
Proof.
  intros _. unfold copies_of. rewrite list_elem_of_omap. split.
  - intros ([cd e] & Hin & H). simpl in H. destruct (cd_copied cd) eqn:E; simplify_eq. eauto 10.
  - intros (cd & e & Hin & Hc & ->). exists (cd, e). simpl. by rewrite Hc.
Qed.

Lemma placed_zip cands dest cd e : Forall2 placed cands dest -> (cd, e) ∈ zip cands dest -> placed cd e /\ cd ∈ cands /\ e ∈ dest.
Proof.
  intros H Hin. apply list_elem_of_lookup in Hin as [k Hk]. apply lookup_zip_with_Some in Hk as (x & y & E & Hx & Hy). simplify_eq.
  split; [by eapply Forall2_lookup_lr|]. split; by eapply list_elem_of_lookup_2.
Qed.

Lemma zip_elem cands dest e : Forall2 placed cands dest -> e ∈ dest -> exists cd, (cd, e) ∈ zip cands dest.
Proof.
  intros H Hin. apply list_elem_of_lookup in Hin as [k Hk]. destruct (Forall2_lookup_r _ _ _ _ _ H Hk) as (cd & Hcd & _).
  exists cd. apply list_elem_of_lookup. exists k. by rewrite lookup_zip_with, Hcd, Hk.
Qed.

Lemma placed_strip cands dest : Forall2 placed cands dest -> strip <$> dest = (strip ∘ cd_entry) <$> cands.
Proof.
  induction 1 as [|cd e cands dest He Hall IH]; [done|]. rewrite !fmap_cons, IH. f_equal.
  unfold placed in He. destruct (cd_copied cd); by rewrite He.
Qed.

Lemma prepare_run s src dst ss ds p0 p1 qs qd :
  store_wf s -> t_pending s = None -> valid_seq s src = true -> valid_seq s dst = true -> src <> dst ->
  t_seqs s !! Z.to_nat src = Some qs -> t_seqs s !! Z.to_nat dst = Some qd ->
  op_pre (OpPrepare src dst ss ds p0 p1) s ->
  let cands := cp_candidates (t_cfg s) (q_entries qs) (q_entries qd) ss ds p0 p1 in
  exists pl cur used degr recov, let q1 := set_cursor cur (set_qused used qd) in
    prepare_seq_cp src dst ss ds p0 p1 s = (Ok (pl_copies pl),
      set_pending (Some (mk_pending src dst (pl_dest pl) (pl_copies pl) (pl_acquired pl) degr recov))
        (set_seqs (<[Z.to_nat dst := q1]> (t_seqs s)) s)) /\
    degr = Z.lor (q_degr qd) (q_degr qs) /\ recov = (if degr =? 0 then Z.min (q_recov qd) (q_recov qs) else 0) /\
    Forall2 placed cands (pl_dest pl) /\ pl_copies pl = copies_of cands (pl_dest pl).
Proof.
  intros Hs Hp Hvs Hvd Hne Hqs Hqd [Hds Hn]. pose proof (seq_wf_at s _ qd Hs Hp Hqd) as Hwd.
  unfold prepared in Hn. rewrite Hqs, Hqd in Hn. simpl.
  destruct (prepare_place (t_cfg s) _ _ (st_cfg s Hs) ltac:(by eapply lookup_lt_Some) (q_entries qs) ss ds p0 p1 qd Hwd)
    as (pl & cur & used & E & Hw & Hpl & Hcp & _); [apply (seq_wf_at s _ qs Hs Hp Hqs)|done|done|].
  exists pl, cur, used. do 2 eexists. unfold prepare_seq_cp, mbind, stx_bind, stx_get, stx_lift.
  rewrite Hvs, Hvd, (proj2 (Z.eqb_neq _ _) Hne). simpl. rewrite Hp, (vec_get_Some _ _ _ Hqs), (vec_get_Some _ _ _ Hqd).
  rewrite (on_seq_run _ _ _ _ _ _ Hqd E). simpl. done.
Qed.

(** C34: copying a sequence over another. Preparing never throws and changes nothing a
    query sees of any sequence; cancelling gives the slots back, so that only the write
    cursor of the destination may have moved; committing leaves in the destination
    exactly the newest [seq_limit] of its rows outside the range and the source's rows
    inside it, in order; rows of the destination keep their slots, every copied row is
    listed with the slot to copy it from and the slot it went to, nothing else is
    listed, and no two rows share a slot. *)
Theorem seq_cp_installs s src dst ss ds p0 p1 qs qd :
  reachable_store s -> t_pending s = None -> valid_seq s src = true -> valid_seq s dst = true -> src <> dst ->
  t_seqs s !! Z.to_nat src = Some qs -> t_seqs s !! Z.to_nat dst = Some qd ->
  op_pre (OpPrepare src dst ss ds p0 p1) s ->
  exists copies s1, prepare_seq_cp src dst ss ds p0 p1 s = (Ok copies, s1) /\
    (exists cur, cancel_seq_cp s1 = (Ok tt, set_seqs (<[Z.to_nat dst := set_cursor cur qd]> (t_seqs s)) s)) /\
    (exists s2 q', commit_seq_cp s1 = (Ok tt, s2) /\ t_pending s2 = None /\ t_seqs s2 = <[Z.to_nat dst := q']> (t_seqs s) /\
       strip <$> q_entries q' = newest (seq_limit (t_cfg s)) (stable_sort entry_lt
         ((strip <$> filter (fun e => outside p0 p1 e = true) (q_entries qd)) ++ copied_rows ss ds p0 p1 (q_entries qs))) /\
       NoDup (slots (q_entries q')) /\
       (forall e, e ∈ q_entries q' -> e ∈ q_entries qd \/
          exists e0, e0 ∈ q_entries qs /\ copies_row ds e0 e /\ mk_copy (e_slot e0) (e_slot e) ∈ copies) /\
       (forall cp, cp ∈ copies -> exists e0 e, e0 ∈ q_entries qs /\ e ∈ q_entries q' /\ copies_row ds e0 e /\
          cp = mk_copy (e_slot e0) (e_slot e)) /\
       q_degr q' = Z.lor (q_degr qd) (q_degr qs) /\
       q_recov q' = (if q_degr q' =? 0 then Z.min (q_recov qd) (q_recov qs) else 0)).
Proof.
  intros Hr Hp Hvs Hvd Hne Hqs Hqd Hpre. apply reachable_wf in Hr as Hs.
  destruct (prepare_run s src dst ss ds p0 p1 qs qd Hs Hp Hvs Hvd Hne Hqs Hqd Hpre)
    as (pl & cur & used & degr & recov & E & Ed & Er & Hpl & Hcp).
  set (s1 := set_pending _ _) in E. pose proof (prepare_safe src dst ss ds p0 p1 s Hs Hpre) as [Hs1 _].
  simpl in Hs1. unfold mbind, stx_bind in Hs1. rewrite E in Hs1. simpl in Hs1.
  assert (t_seqs s1 !! Z.to_nat dst = Some (set_cursor cur (set_qused used qd))) as Hq1.
  { simpl. apply list_lookup_insert_eq. by eapply lookup_lt_Some. }
  exists (pl_copies pl), s1. split; [done|]. split.
  - destruct (cancel_cp_run s1 _ Hs1 eq_refl) as (q & used' & Hq & Ec & Hw & _). simpl pc_dst in *.
    rewrite Hq1 in Hq. injection Hq as <-. exists cur. rewrite Ec. f_equal. unfold set_pending, set_seqs. simpl.
    rewrite list_insert_insert_eq. assert (used' = q_used qd) as ->; [|by destruct s; simpl in *; subst].
    eapply used_ok_unique; [apply (so_used _ _ _ _ (sw_ok _ _ _ _ Hw))|].
    apply (so_used _ _ _ _ (sw_ok _ _ _ _ (seq_wf_at s _ qd Hs Hp Hqd))).
  - destruct (commit_cp_run s1 _ Hs1 eq_refl) as (q' & Ec & Hs2 & E1 & E2 & E3). simpl in Ec, E1, E2, E3.
    eexists _, q'. split; [exact Ec|]. simpl. rewrite list_insert_insert_eq. split; [done|]. split; [done|].
    rewrite Ec in Hs2. assert (NoDup (slots (q_entries q'))) as Hnd.
    { eapply seq_wf_at with (i := Z.to_nat dst) (q := q') in Hs2; [|done|simpl; apply list_lookup_insert_eq; rewrite length_insert; by eapply lookup_lt_Some].
      pose proof (so_nodup _ _ _ _ (sw_ok _ _ _ _ Hs2)) as H. by rewrite app_nil_r in H. }
    rewrite E1 in *. split; [by rewrite (placed_strip _ _ Hpl), strip_candidates|]. split; [done|]. split; [|split].
    + intros e He. destruct (zip_elem _ _ e Hpl He) as [cd Hz]. destruct (placed_zip _ _ _ _ Hpl Hz) as (Hpe & Hcd & _).
      apply elem_of_cp_candidates in Hcd as [(e0 & He0 & _ & ->)|(e0 & He0 & _ & _ & ->)]; [left; by rewrite Hpe|].
      right. exists e0. split; [done|]. split; [exact Hpe|]. rewrite Hcp. apply (elem_of_copies _ _ _ Hpl). eauto 10.
    + intros cp Hin. rewrite Hcp in Hin. apply (elem_of_copies _ _ _ Hpl) in Hin as (cd & e & Hz & Hc & ->).
      destruct (placed_zip _ _ _ _ Hpl Hz) as (Hpe & Hcd & He).
      apply elem_of_cp_candidates in Hcd as [(e0 & He0 & _ & ->)|(e0 & He0 & _ & _ & ->)]; [done|]. exists e0, e. done.
    + rewrite E2, E3, Er, Ed. done.
Qed.

Lemma seq_cp_installs_witness : exists copies s1 s2, prepare_seq_cp 0 1 0 0 0 (-1) demo_done = (Ok copies, s1) /\
  commit_seq_cp s1 = (Ok tt, s2) /\ t_pending s2 = None.
Proof.
  destruct (seq_cp_installs demo_done 0 1 0 0 0 (-1) (nth 0 (t_seqs demo_done) (fresh_seq 3)) (nth 1 (t_seqs demo_done) (fresh_seq 3)))
    as (copies & s1 & E & _ & (s2 & q' & E2 & E3 & _)).
  - apply demo_done_reachable.
  - reflexivity.
  - reflexivity.
  - reflexivity.
  - discriminate.
  - vm_compute. reflexivity.
  - vm_compute. reflexivity.
  - split; [unfold UINT32_MAX; lia|]. apply (bool_decide_unpack _). vm_compute. exact I.
  - exists copies, s1, s2. split; [exact E|]. split; [exact E2|exact E3].
Defined.
