(* ===== verification/TailQueries.v ===== *)
(** * Queries and saved state of the tail store

    Which slots the graph reads, the contiguous runs of a sequence, clones, and the
    provenance a saved state may restore. *)

From S2P Require Export TailProps.
Open Scope Z_scope.

(** ** The source plan *)

(** The entry a visible identity names. *)
Definition entry_of (id : tail_identity) (l : list exact_entry) : option exact_entry :=
  List.find (fun e => bool_decide (e_id e = id)) l.

Definition plan_candidates (visible : list tail_identity) (l : list exact_entry) : list (nat * exact_entry) :=
  omap (fun x : nat * tail_identity => pair x.1 <$> entry_of x.2 l) (imap pair visible).

(** The order of the plan: position, ordinal, then place among the visible rows. *)
Definition plan_before (a b : nat * exact_entry) : bool :=
  entry_lt a.2 b.2 || (negb (entry_lt b.2 a.2) && (a.1 <? b.1)%nat).

Lemma plan_before_irrefl a : plan_before a a = false.
Proof.
  unfold plan_before. rewrite Nat.ltb_irrefl, andb_false_r, orb_false_r. unfold entry_lt.
  by rewrite !Z.ltb_irrefl, andb_false_r.
Qed.

Lemma plan_before_asym a b : plan_before a b = true -> plan_before b a = false.
Proof.
  unfold plan_before. destruct (entry_lt a.2 b.2) eqn:E1, (entry_lt b.2 a.2) eqn:E2; simpl; try done.
  - apply swo_asym in E1. congruence.
  - intros H. bprop. apply Nat.ltb_ge. lia.
Qed.

(** Sorting candidates taken in order of their place gives the strict order. *)
Lemma plan_sorted l : StronglySorted (fun a b : nat * exact_entry => (a.1 < b.1)%nat) l ->
  StronglySorted (fun a b => plan_before a b = true) (stable_sort plan_lt l).
Proof.
  induction 1 as [|x l Hl IH Hx]; [constructor|]. simpl.
  assert (forall y, y ∈ stable_sort plan_lt l -> (x.1 < y.1)%nat) as Hlt.
  { intros y Hy. rewrite stable_sort_perm in Hy. by apply (proj1 (Forall_forall _ _) Hx). }
  clear Hl Hx. induction IH as [|y k Hk IH Hy]; simpl; [repeat constructor|].
  destruct (plan_lt y x) eqn:E.
  - constructor; [apply IH; intros; apply Hlt; by right|]. rewrite sinsert_perm. constructor; [|done].
    unfold plan_before. unfold plan_lt in E. by rewrite E.
  - constructor; [by constructor|]. constructor.
    + unfold plan_before. unfold plan_lt in E. rewrite E. simpl.
      rewrite (proj2 (Nat.ltb_lt _ _)) by (apply Hlt; by left). by rewrite orb_true_r.
    + apply Forall_forall. intros z Hz. pose proof (proj1 (Forall_forall _ _) Hy z Hz) as Hyz. simpl in Hyz.
      unfold plan_before, plan_lt in *. rewrite (proj2 (Nat.ltb_lt x.1 z.1)) by (apply Hlt; by right). rewrite andb_true_r.
      destruct (entry_lt x.2 z.2) eqn:Exz; [done|]. simpl. apply negb_true_iff.
      destruct (entry_lt y.2 z.2) eqn:Eyz.
      * assert (entry_lt y.2 z.2 = false) by (by eapply swo_negtrans). congruence.
      * simpl in Hyz. apply andb_true_iff in Hyz as [Hyz _]. apply negb_true_iff in Hyz.
        destruct (entry_lt z.2 x.2) eqn:Ezx; [|done].
        assert (entry_lt z.2 x.2 = false) by (by eapply swo_negtrans). congruence.
Qed.

(** In a strictly sorted list the elements after [x] are those greater than it. *)
Lemma kept_iff_few_after k (l : list (nat * exact_entry)) x :
  StronglySorted (fun a b => plan_before a b = true) l -> x ∈ l ->
  x ∈ drop (length l - k) l <-> (cnt (plan_before x) l < k)%nat.
Proof.
  intros Hl [m Hm]%list_elem_of_lookup.
  assert (cnt (plan_before x) l = (length l - S m)%nat) as Ec.
  { rewrite <- (take_drop_middle l m x Hm) in Hl |- *. rewrite cnt_app, cnt_cons, plan_before_irrefl. simpl.
    assert (forall l1 l2, StronglySorted (fun a b => plan_before a b = true) (l1 ++ x :: l2) ->
      cnt (plan_before x) l1 = 0%nat /\ cnt (plan_before x) l2 = length l2) as H.
    { clear. intros l1 l2. induction l1 as [|y l1 IH]; simpl; intros H; apply StronglySorted_inv in H as [H Hy].
      - split; [done|]. unfold cnt. f_equal. induction l2 as [|z l2 IH]; [done|]. apply Forall_cons in Hy as [Hz Hy].
        simpl. rewrite Hz. f_equal. apply IH; [|done]. apply StronglySorted_inv in H. tauto.
      - destruct (IH H) as [H1 H2]. split; [|done]. rewrite cnt_cons, H1.
        apply Forall_app in Hy as [_ Hy]. apply Forall_cons in Hy as [Hy _]. by rewrite (plan_before_asym _ _ Hy). }
    destruct (H _ _ Hl) as [-> ->]. rewrite length_app, length_take, length_cons, length_drop.
    apply lookup_lt_Some in Hm. lia. }
  rewrite Ec. apply lookup_lt_Some in Hm as Hlt. split.
  - intros [j Hj]%list_elem_of_lookup. rewrite lookup_drop in Hj.
    assert (m = (length l - k + j)%nat) as ->; [|lia].
    (* a strictly sorted list has no repetition *)
    assert (forall a b, l !! a = Some x -> l !! b = Some x -> (a < b)%nat -> False) as Hnd.
    { intros a b Ha Hb Hab. assert (plan_before x x = true) as H; [|by rewrite plan_before_irrefl in H].
      clear -Hl Ha Hb Hab. revert a b Ha Hb Hab. induction Hl as [|y l Hl IH Hy]; intros a b Ha Hb Hab; [done|].
      destruct b as [|b]; [lia|]. destruct a as [|a]; simpl in *; [|apply (IH a b); [done|done|lia]].
      injection Ha as ->. apply list_elem_of_lookup_2 in Hb. by apply (proj1 (Forall_forall _ _) Hy). }
    destruct (Nat.lt_trichotomy m (length l - k + j)) as [|[|]]; [exfalso; eauto|done|exfalso; eauto].
  - intros H. apply list_elem_of_lookup. exists (m - (length l - k))%nat. rewrite lookup_drop. rewrite <- Hm. f_equal. lia.
Qed.

Lemma plan_fill (l : list (nat * exact_entry)) base k : NoDup l.*1 ->
  foldl (fun r x => <[x.1 := e_slot x.2]> r) base l !! k =
  match List.find (fun x : nat * exact_entry => (x.1 =? k)%nat) l with
  | Some x => if (k <? length base)%nat then Some (e_slot x.2) else None
  | None => base !! k
  end.
Proof.
  revert base. induction l as [|[j e] l IH]; intros base Hn; [done|]. rewrite fmap_cons in Hn. apply NoDup_cons in Hn as [Hj Hn].
  simpl. rewrite IH by done. destruct (Nat.eqb_spec j k) as [->|Hne].
  - destruct (List.find _ l) as [x|] eqn:E.
    + apply List.find_some in E as [Hin Hx]. bprop. exfalso. simpl in Hj. apply Hj. rewrite <- Hx.
      apply (list_elem_of_fmap_2 fst). by apply list_elem_of_In.
    + simpl. destruct (Nat.ltb_spec k (length base)); [by apply list_lookup_insert_eq|]. apply lookup_ge_None_2.
      rewrite length_insert. lia.
  - rewrite length_insert. destruct (List.find _ l); [done|]. by rewrite list_lookup_insert_ne.
Qed.

Lemma plan_candidates_spec visible l :
  StronglySorted (fun a b : nat * exact_entry => (a.1 < b.1)%nat) (plan_candidates visible l) /\
  forall k e, (k, e) ∈ plan_candidates visible l <-> exists id, visible !! k = Some id /\ entry_of id l = Some e.
Proof.
  assert (forall (v : list tail_identity) (f : nat -> nat), (forall a b, (a < b)%nat -> (f a < f b)%nat) ->
    let cs := omap (fun x : nat * tail_identity => pair x.1 <$> entry_of x.2 l) (imap (fun i => pair (f i)) v) in
    StronglySorted (fun a b : nat * exact_entry => (a.1 < b.1)%nat) cs /\ (forall x, x ∈ cs -> (f 0 <= x.1)%nat) /\
    forall k e, (k, e) ∈ cs <-> exists m id, k = f m /\ v !! m = Some id /\ entry_of id l = Some e) as H.
  { induction v as [|id v IH]; intros f Hf.
    { simpl. split; [constructor|]. split; [intros x Hx; by apply not_elem_of_nil in Hx|]. intros k e.
      split; [intros Hx; by apply not_elem_of_nil in Hx|by intros (? & ? & _ & ? & _)]. }
    cbn [imap]. destruct (IH (f ∘ S)) as (H1 & H2 & H3); [intros; apply Hf; lia|]. simpl in *.
    assert (forall k e, (exists m id', k = f m /\ (id :: v) !! m = Some id' /\ entry_of id' l = Some e) <->
      (k = f 0%nat /\ entry_of id l = Some e) \/ (exists m id', k = f (S m) /\ v !! m = Some id' /\ entry_of id' l = Some e)) as H4.
    { intros k e. split.
      - intros ([|m] & id' & -> & Hm & He); simpl in Hm; [left; by simplify_eq|right; eauto].
      - intros [[-> ?]|(m & id' & -> & ? & ?)]; [by exists 0%nat, id|by exists (S m), id']. }
    destruct (entry_of id l) as [e0|] eqn:E0; simpl.
    - split; [|split].
      + constructor; [done|]. apply Forall_forall. intros x Hx. specialize (H2 x Hx). specialize (Hf 0%nat 1%nat). simpl in *. lia.
      + intros x [->|Hx]%elem_of_cons; [done|]. specialize (H2 x Hx). specialize (Hf 0%nat 1%nat). lia.
      + intros k e. rewrite H4, elem_of_cons, H3. naive_solver.
    - split; [done|]. split; [intros x Hx; specialize (H2 x Hx); specialize (Hf 0%nat 1%nat); lia|].
      intros k e. rewrite H4, H3. naive_solver. }
  destruct (H visible (fun i => i) ltac:(done)) as (H1 & _ & H3). split; [done|]. intros k e. rewrite H3. naive_solver.
Qed.

Lemma fst_nodup (l : list (nat * exact_entry)) :
  StronglySorted (fun a b : nat * exact_entry => (a.1 < b.1)%nat) l -> NoDup l.*1.
Proof.
  induction 1 as [|x l Hl IH Hx]; [constructor|]. rewrite fmap_cons. constructor; [|done].
  intros (y & E & Hy)%list_elem_of_fmap. pose proof (proj1 (Forall_forall _ _) Hx y Hy). simpl in *. lia.
Qed.

(** the source plan gives one slot per visible row: a row the sequence has an
    entry for gets its slot exactly when fewer than [n_tokens] of the other visible
    rows with an entry come after it in (position, ordinal) order, ties in the order
    given; every other row, and every row of a sequence that does not exist, is read
    from the body. *)
Theorem source_plan_correct s seq_id visible :
  0 <= g_n_tokens (t_cfg s) ->
  exists plan, build_source_plan s seq_id visible = Ok plan /\ length plan = length visible /\
  forall k id, visible !! k = Some id -> plan !! k = Some (
    match (if valid_seq s seq_id then t_seqs s !! Z.to_nat seq_id ≫= fun q => pair q <$> entry_of id (q_entries q) else None) with
    | Some (q, e) => if Z.of_nat (cnt (plan_before (k, e)) (plan_candidates visible (q_entries q))) <? g_n_tokens (t_cfg s)
                     then e_slot e else LLAMA_KV_TAIL_BODY_SLOT
    | None => LLAMA_KV_TAIL_BODY_SLOT
    end).
Proof.
  intros H0. unfold build_source_plan. destruct (valid_seq s seq_id) eqn:Hv; simpl.
  2:{ eexists. split; [done|]. split; [by rewrite length_replicate|]. intros k id Hk.
      apply lookup_replicate_2. by eapply lookup_lt_Some. }
  apply valid_seq_lookup in Hv as [_ [q Hq]]. rewrite (vec_get_Some _ _ _ Hq), Hq. simpl.
  set (n := g_n_tokens (t_cfg s)) in *. destruct (Z.eqb_spec n 0) as [Hn|Hn].
  { eexists. split; [done|]. split; [by rewrite length_replicate|]. intros k id Hk.
    rewrite lookup_replicate_2 by (by eapply lookup_lt_Some). destruct (entry_of id (q_entries q)); [|done].
    simpl. by rewrite (proj2 (Z.ltb_ge _ _)) by lia. }
  change (omap (fun x : nat * tail_identity => pair x.1 <$>
    List.find (fun e => bool_decide (e_id e = x.2)) (q_entries q)) (imap pair visible)) with (plan_candidates visible (q_entries q)).
  set (cs := plan_candidates visible (q_entries q)).
  eexists. split; [done|]. destruct (plan_candidates_spec visible (q_entries q)) as [Hs He]. fold cs in Hs, He.
  pose proof (plan_sorted cs Hs) as Hsort. set (sorted := stable_sort plan_lt cs) in *.
  assert (sorted ≡ₚ cs) as Hperm by apply stable_sort_perm.
  set (kept := drop (length sorted - Z.to_nat n) sorted).
  assert (NoDup kept.*1) as Hnd.
  { unfold kept. rewrite fmap_drop. eapply sublist_NoDup; [|apply sublist_drop]. rewrite Hperm. by apply fst_nodup. }
  assert (forall l base, length (foldl (fun r (x : nat * exact_entry) => <[x.1 := e_slot x.2]> r) base l) = length base) as Hlen.
  { clear. induction l as [|x l IH]; intros base; [done|]. simpl. by rewrite IH, length_insert. }
  split; [by rewrite Hlen, length_replicate|]. intros k id Hk. rewrite plan_fill by done. rewrite length_replicate.
  apply lookup_lt_Some in Hk as Hlt. rewrite lookup_replicate_2, (proj2 (Nat.ltb_lt _ _)) by done.
  assert (forall e, (k, e) ∈ kept <-> entry_of id (q_entries q) = Some e /\ Z.of_nat (cnt (plan_before (k, e)) cs) < n) as Hkept.
  { intros e. assert ((k, e) ∈ cs <-> entry_of id (q_entries q) = Some e) as Hc by (rewrite He; naive_solver).
    assert (cnt (plan_before (k, e)) cs = cnt (plan_before (k, e)) sorted) as ->.
    { unfold cnt. clear -Hperm. induction Hperm; simpl; repeat case_match; simpl; congruence. }
    assert ((k, e) ∈ kept -> (k, e) ∈ sorted) as Hsub.
    { intros H. eapply elem_of_submseteq; [exact H|]. apply sublist_submseteq, sublist_drop. }
    rewrite <- Hc, <- Hperm. split.
    - intros H. split; [auto|]. unfold kept in H. rewrite kept_iff_few_after in H by auto. lia.
    - intros [H1 H2]. unfold kept. rewrite kept_iff_few_after by done. lia. }
  destruct (List.find (fun x : nat * exact_entry => (x.1 =? k)%nat) kept) as [[j e]|] eqn:Ef.
  - apply List.find_some in Ef as [Hin Hj]. simpl in Hj. apply Nat.eqb_eq in Hj as ->. apply list_elem_of_In, Hkept in Hin as [-> Hc].
    simpl. fold cs. apply Z.ltb_lt in Hc. by rewrite Hc.
  - destruct (entry_of id (q_entries q)) as [e|] eqn:Ee; [|done]. simpl. destruct (_ <? _) eqn:Ec; [|done]. exfalso.
    assert ((k, e) ∈ kept) as Hin by (apply Hkept; bprop; done). apply list_elem_of_In in Hin.
    pose proof (List.find_none _ _ Ef _ Hin) as H. simpl in H. by rewrite Nat.eqb_refl in H.
Qed.

Lemma source_plan_correct_witness : exists plan,
  build_source_plan demo_done 0 [demo_id 6; demo_id 9; demo_id 5] = Ok plan /\ length plan = 3%nat.
Proof.
  destruct (source_plan_correct demo_done 0 [demo_id 6; demo_id 9; demo_id 5]) as (plan & E & H & _).
  - vm_compute. discriminate.
  - exists plan. split; [exact E|exact H].
Defined.

(** ** Runs of a sequence *)

Definition run_rows (r : tail_source_run) : list (Z * Z) :=
  (fun k => (rn_stream r, u32 (rn_cell r + k))) <$> seqZ 0 (rn_length r).

Definition row_of (e : exact_entry) : Z * Z := (id_stream (e_id e), id_cell (e_id e)).

(** Consecutive offsets from [from] to [to]. *)
Fixpoint offsets_chain (from : Z) (runs : list tail_source_run) (to : Z) : Prop :=
  match runs with
  | [] => from = to
  | r :: runs' => rn_exact_offset r = from /\ 0 < rn_length r /\ offsets_chain (from + rn_length r) runs' to
  end.

(** A run that could have been extended by the next one. *)
Definition extends (r r' : tail_source_run) : Prop :=
  rn_stream r = rn_stream r' /\ u32 (rn_cell r + rn_length r) = rn_cell r'.

Fixpoint maximal_runs (runs : list tail_source_run) : Prop :=
  match runs with
  | r :: (r' :: _) as rest => ~ extends r r' /\ maximal_runs (rest)
  | _ => True
  end.

Lemma offsets_chain_snoc from rs r to :
  offsets_chain from (rs ++ [r]) to <->
  offsets_chain from rs (rn_exact_offset r) /\ 0 < rn_length r /\ rn_exact_offset r + rn_length r = to.
Proof. revert from; induction rs as [|x rs IH]; intros from; simpl; [intuition lia|]. rewrite IH. tauto. Qed.

Lemma offsets_chain_le from runs to : offsets_chain from runs to -> from <= to.
Proof. revert from; induction runs as [|r rs IH]; intros from; simpl; [lia|]. intros (_ & ? & H%IH). lia. Qed.

Lemma maximal_snoc rs r1 r2 : maximal_runs (rs ++ [r1]) -> ~ extends r1 r2 -> maximal_runs ((rs ++ [r1]) ++ [r2]).
Proof.
  induction rs as [|x rs IH]; [simpl; tauto|]. intros H Hne.
  destruct rs as [|y rs]; simpl in *; [tauto|]. destruct H as [H1 H2]. split; [done|]. by apply IH.
Qed.

Lemma maximal_grow rs r r' : rn_stream r' = rn_stream r -> rn_cell r' = rn_cell r ->
  maximal_runs (rs ++ [r]) -> maximal_runs (rs ++ [r']).
Proof.
  intros E1 E2. induction rs as [|x rs IH]; [done|].
  destruct rs as [|y rs]; simpl in *; [unfold extends; by rewrite E1, E2|]. intros [H1 H2]. split; [done|]. by apply IH.
Qed.

Lemma source_runs_fold l : Z.of_nat (length l) <= UINT32_MAX -> Forall (fun e => 0 <= id_cell (e_id e) <= UINT32_MAX) l ->
  exists runs, foldl source_run_step ([], 0) l = (runs, Z.of_nat (length l)) /\
    concat (run_rows <$> runs) = row_of <$> l /\ offsets_chain 0 runs (Z.of_nat (length l)) /\ maximal_runs runs.
Proof.
  induction l as [|e l IH] using rev_ind; intros Hlen Hc; [by exists []|].
  rewrite length_app in Hlen. simpl in Hlen. apply Forall_app in Hc as [Hc He]. apply Forall_cons in He as [He _].
  destruct IH as (runs & E & Hrows & Hch & Hmax); [lia|done|].
  rewrite foldl_app, E. simpl. rewrite length_app. simpl. rewrite fmap_app, <- Hrows. simpl.
  assert (u32 (Z.of_nat (length l) + 1) = Z.of_nat (length l + 1)) as -> by (rewrite u32_id; lia).
  destruct (last runs) as [r|] eqn:El.
  - apply last_Some in El as [rs ->]. apply offsets_chain_snoc in Hch as (Hch & Hr & Hend).
    pose proof (offsets_chain_le _ _ _ Hch) as H0.
    rewrite (u32_id (rn_exact_offset r + rn_length r)), (proj2 (Z.eqb_eq _ _) Hend) by lia. simpl.
    destruct (Z.eqb_spec (rn_stream r) (id_stream (e_id e))) as [Es|Es];
      [destruct (Z.eqb_spec (u32 (rn_cell r + rn_length r)) (id_cell (e_id e))) as [Ec|Ec]|]; simpl.
    + rewrite removelast_last. eexists. split; [done|]. rewrite u32_id by lia. split; [|split].
      * rewrite !fmap_app, !concat_app. simpl. rewrite !app_nil_r, <- app_assoc. f_equal.
        unfold run_rows. simpl. rewrite seqZ_app, fmap_app by lia. f_equal.
        rewrite seqZ_cons, seqZ_nil by lia. simpl. unfold row_of. by rewrite ?Z.add_0_l, Es, Ec.
      * apply offsets_chain_snoc. simpl. split; [done|lia].
      * by eapply maximal_grow; [| |exact Hmax].
    + eexists. split; [done|]. split; [|split].
      * rewrite (fmap_app _ (rs ++ [r])), concat_app. f_equal. simpl. unfold run_rows, row_of. simpl.
        rewrite Z.add_0_r, u32_id by done. done.
      * apply offsets_chain_snoc. simpl. split; [|lia]. apply offsets_chain_snoc. done.
      * apply maximal_snoc; [done|]. intros [? ?]. simpl in *. congruence.
    + eexists. split; [done|]. split; [|split].
      * rewrite (fmap_app _ (rs ++ [r])), concat_app. f_equal. simpl. unfold run_rows, row_of. simpl.
        rewrite Z.add_0_r, u32_id by done. done.
      * apply offsets_chain_snoc. simpl. split; [|lia]. apply offsets_chain_snoc. done.
      * apply maximal_snoc; [done|]. intros [? ?]. simpl in *. congruence.
  - apply last_None in El as ->. simpl in *. eexists. split; [done|]. simpl. unfold run_rows, row_of. simpl.
    rewrite Z.add_0_r, u32_id by done. split; [done|]. lia.
Qed.

(** The source runs of a sequence, in a well-formed store: expanding them gives
    the stream and cell of every entry in order, their offsets count the entries
    without gap, none is empty, and no run could have continued the one before. *)
Theorem source_runs_expand s seq_id q :
  reachable_store s -> valid_seq s seq_id = true -> t_seqs s !! Z.to_nat seq_id = Some q ->
  exists runs, source_runs s seq_id = Ok runs /\ concat (run_rows <$> runs) = row_of <$> q_entries q /\
    offsets_chain 0 runs (Z.of_nat (length (q_entries q))) /\ maximal_runs runs.
Proof.
  intros Hr Hv Hq. apply reachable_wf in Hr as Hs. pose proof (sw_ok _ _ _ _ (st_seqs s Hs _ q Hq)) as Hok.
  unfold source_runs. rewrite Hv, (vec_get_Some _ _ _ Hq). simpl.
  destruct (source_runs_fold (q_entries q)) as (runs & -> & ? & ? & ?); [| |by exists runs].
  - pose proof (so_nodup _ _ _ _ Hok) as Hn. apply NoDup_app in Hn as [Hn _].
    assert (slots (q_entries q) ⊆+ seqZ (arena (t_cfg s) (Z.to_nat seq_id)) (g_stride (t_cfg s))) as Hsub.
    { apply NoDup_submseteq; [done|]. intros x Hx. apply elem_of_seqZ.
      pose proof (seq_ok_in_arena _ _ _ _ x Hok ltac:(set_solver)) as Ha. exact Ha. }
    apply submseteq_length in Hsub. rewrite length_fmap, length_seqZ in Hsub.
    apply lookup_lt_Some in Hq. pose proof (arena_bounds _ _ (st_cfg s Hs) _ Hq). unfold UINT32_MAX, INT32_MAX in *. lia.
  - eapply Forall_impl; [apply (so_ids _ _ _ _ Hok)|]. intros e [_ ?]. done.
Qed.

Lemma source_runs_expand_witness : exists runs, source_runs demo_done 0 = Ok runs /\ concat (run_rows <$> runs) = [(0, 5); (0, 6)].
Proof.
  destruct (source_runs_expand demo_done 0 (nth 0 (t_seqs demo_done) (fresh_seq 3))) as (runs & E & H & _).
  - apply demo_done_reachable.
  - reflexivity.
  - vm_compute. reflexivity.
  - exists runs. split; [exact E|exact H].
Defined.

(** ** Clones and provenance *)


(** No operation changes the constants or the number of sequences. *)
Lemma run_op_cfg op s : store_wf s -> op_pre op s ->
  t_cfg (run_op op s).2 = t_cfg s /\ length (t_seqs (run_op op s).2) = length (t_seqs s).
Proof.
  intros Hs Hpre.
  assert (op = OpBegin \/ op = OpClear \/ (exists a b, op = OpFinish a b) \/ (in_batch_op op = true /\ op <> OpBegin))
    as [-> | [-> | [(a & b & ->) | [H1 H2]]]].
  { destruct op; first [by left | by right; left | by (right; right; left; eauto) | by (right; right; right)]. }
  - simpl in *. destruct (t_batch s) as [tx|] eqn:Eb; [destruct (g_compact (t_cfg s)) eqn:Ec|].
    + unfold begin_batch, mbind, stx_bind, stx_get. by rewrite Ec, Eb.
    + destruct (begin_run s Hs Hpre) as [-> _]; [by right|]. simpl. by rewrite length_imap.
    + destruct (begin_run s Hs Hpre) as [-> _]; [by left|]. simpl. by rewrite length_imap.
  - simpl. unfold clear, mbind, stx_bind. destruct (keeps_cancel_cp s) as (_ & [E1 E2] & _).
    destruct (cancel_seq_cp s) as [[[]|f] s1]; simpl in *; [|done]. by rewrite length_fmap.
  - simpl in *. destruct (g_compact (t_cfg s)) eqn:Ec; [destruct (t_batch s) as [tx|] eqn:Eb; [destruct a|]|].
    2:{ destruct (finish_fail_run b s tx Hs Hpre Ec Eb) as [-> _]. simpl. split; [done|]. rewrite length_imap.
        apply (st_batch s Hs tx Eb). }
    all: unfold finish_batch, mbind, stx_bind, stx_get; by rewrite Ec, ?Eb.
  - by apply keeps_run.
Qed.

Lemma reachable_built s : reachable_store s -> exists s0, constructed s0 /\ t_cfg s = t_cfg s0 /\ length (t_seqs s) = length (t_seqs s0).
Proof.
  induction 1 as [s Hn|s op Hr (s0 & H0 & E1 & E2) Hpre]; [by exists s|].
  exists s0. split; [done|]. apply reachable_wf in Hr. destruct (run_op_cfg op s Hr Hpre) as [-> ->]. done.
Qed.

(** What [clone_logical_state] passes to the constructor rebuilds the fresh store. *)
Lemma constructed_again s0 : constructed s0 ->
  let c := t_cfg s0 in
  let n := u32 (Z.of_nat (length (t_seqs s0))) in
  let sinks := u32 (g_n_slots c - u32 (g_stride c * n)) in
  (if g_compact c then store_compact (g_n_tokens c) (g_rollback c) n (g_stride c) sinks
   else store_overlay (g_n_tokens c) n (g_stride c) sinks) = Ok s0.
Proof.
  assert (forall stride n_seq sinks x, u32_args [n_seq; stride; sinks] -> checked_tail_slot_count stride n_seq sinks = Ok x ->
    u32 (Z.of_nat (Z.to_nat n_seq)) = n_seq /\ u32 (x - u32 (stride * n_seq)) = sinks) as Hargs.
  { intros stride n_seq sinks x Hu Hx. unfold u32_args in Hu. rewrite !Forall_cons in Hu. destruct Hu as (H1 & H2 & H3 & _).
    destruct (slot_count_Ok stride n_seq sinks x H2 H1 H3 Hx) as [-> Hle]. rewrite Z2Nat.id, u32_id by lia. split; [done|].
    assert (0 <= stride * n_seq) by nia. unfold UINT32_MAX, INT32_MAX in *.
    rewrite (u32_id (stride * n_seq)) by (unfold UINT32_MAX; lia). rewrite u32_id by (unfold UINT32_MAX; lia). lia. }
  assert (forall n_tokens n_seq stride sinks s1, u32_args [n_tokens; n_seq; stride; sinks] ->
    store_overlay n_tokens n_seq stride sinks = Ok s1 ->
    let c := t_cfg s1 in let n := u32 (Z.of_nat (length (t_seqs s1))) in
    let k := u32 (g_n_slots c - u32 (g_stride c * n)) in g_compact c = false /\ store_overlay (g_n_tokens c) n (g_stride c) k = Ok s1) as Hover.
  { intros n_tokens n_seq stride sinks s1 Hu H. unfold u32_args in Hu. rewrite !Forall_cons in Hu. destruct Hu as (H1 & H2 & H3 & H4 & _).
    pose proof H as H'. unfold store_overlay in H'. inv_ok. simpl. rewrite length_replicate.
    destruct (Hargs stride n_seq sinks x) as [-> ->]; [by unfold u32_args; rewrite !Forall_cons|done|]. done. }
  intros [n_tokens n_seq stride sinks s1 Hu H|n_tokens n_seq n_slots s1 Hu H|n_tokens rollback n_seq stride sinks s1 Hu H]; simpl.
  - destruct (Hover _ _ _ _ _ Hu H) as [-> E]. exact E.
  - unfold store_even in H. inv_ok. apply require_Ok in E0.
    destruct (Hover _ _ _ _ _ ltac:(by apply even_args) E) as [-> E']. exact E'.
  - unfold u32_args in Hu. rewrite !Forall_cons in Hu. destruct Hu as (H1 & H2 & H3 & H4 & H5 & _).
    pose proof H as H'. unfold store_compact in H'. inv_ok. simpl. rewrite length_replicate.
    destruct (Hargs stride n_seq sinks x0) as [-> ->]; [by unfold u32_args; rewrite !Forall_cons|done|]. done.
Qed.

(** Cloning the logical state of a store without a pending copy and without an
    open batch gives an equal store, the rebuilt indices included; a store with a
    transaction is refused. *)
Theorem clone_is_equal s :
  reachable_store s ->
  (t_pending s = None -> t_batch s = None -> t_in_batch s = false -> clone_logical_state s = Ok s) /\
  (t_pending s <> None \/ t_batch s <> None \/ t_in_batch s = true -> clone_logical_state s = Err RuntimeError).
Proof.
  intros Hr. destruct (reachable_built s Hr) as (s0 & H0 & Ec & El). apply reachable_wf in Hr as Hs.
  pose proof (constructed_again s0 H0) as Hagain. simpl in Hagain. rewrite <- Ec, <- El in Hagain.
  unfold clone_logical_state. rewrite Hagain. cbn [mbind outcome_bind].
  unfold clone_logical_state_from. unfold mbind, stx_bind, stx_get.
  rewrite (bool_decide_eq_true_2 (t_cfg s0 = t_cfg s)), (proj2 (Nat.eqb_eq _ _)) by done. simpl.
  split.
  - intros Hp Hb Hi. rewrite Hp, Hb, Hi. simpl. unfold stx_put. set (s1 := mk_store _ _ _ _ _).
    assert (forall i q, t_seqs s1 !! i = Some q -> exists q0, t_seqs s !! i = Some q0 /\ rebuild_index q = (Ok tt, q0)) as Hq.
    { intros i q Hq. simpl in Hq. apply lookup_zip_with_Some in Hq as (v & q1 & -> & Hv & Hq1).
      apply list_lookup_fmap_Some in Hv as (q0 & -> & Hq0). exists q0. split; [done|].
      pose proof (seq_wf_at s i q0 Hs Hp Hq0) as Hw.
      rewrite rebuild_index_eq by (apply (so_keys _ _ _ _ (sw_ok _ _ _ _ Hw))).
      f_equal. symmetry. rewrite <- (with_index_save _ _ _ _ Hw) at 1. done. }
    rewrite for_seqs_map by (intros i q (q0 & _ & ->)%Hq; done).
    assert (imap (fun _ q => (rebuild_index q).2) (t_seqs s1) = t_seqs s) as ->.
    { apply list_eq. intros i. rewrite list_lookup_imap. destruct (t_seqs s1 !! i) as [q|] eqn:E.
      - destruct (Hq i q E) as (q0 & -> & E'). simpl. by rewrite E'.
      - simpl. symmetry. apply lookup_ge_None. apply lookup_ge_None in E. simpl in E.
        rewrite length_zip_with, length_fmap in E. lia. }
    f_equal. unfold set_seqs. simpl. rewrite <- Ec. destruct s; simpl in *; subst. done.
  - intros Ht.
    assert (t_in_batch s || bool_decide (t_pending s <> None) || bool_decide (t_batch s <> None) = true) as ->; [|done].
    destruct Ht as [H|[H|H]]; [rewrite (bool_decide_eq_true_2 _ H)|rewrite (bool_decide_eq_true_2 _ H)|rewrite H];
      by rewrite ?orb_true_r.
Qed.

Lemma clone_is_equal_witness : clone_logical_state demo_done = Ok demo_done.
Proof. apply (clone_is_equal demo_done); [apply demo_done_reachable| | |]; vm_compute; reflexivity. Defined.

(** *** Provenance *)

Lemma check_provenances_accept s l seen : forallb (provenance_ok s) l = true -> NoDup (pv_seq_id <$> l) ->
  (forall pv, pv ∈ l -> pv_seq_id pv ∉ seen) -> exists X, foldM (check_provenance s) l seen = Ok X.
Proof.
  revert seen. induction l as [|pv l IH]; intros seen Hok Hn Hseen; [by exists seen|].
  simpl in Hok. apply andb_true_iff in Hok as [Hpv Hok]. rewrite fmap_cons in Hn. apply NoDup_cons in Hn as [Hni Hn].
  assert (check_provenance s seen pv = Ok ({[pv_seq_id pv]} ∪ seen)) as E.
  { unfold check_provenance. rewrite !negb_orb, !negb_involutive, Z.ltb_antisym, negb_involutive.
    unfold provenance_ok in Hpv. rewrite Hpv. simpl. by rewrite bool_decide_eq_false_2 by (apply Hseen; by left). }
  simpl. rewrite E. simpl.
  apply IH; [done|done|]. intros pv' Hpv' [Hx|Hx]%elem_of_union.
  - apply elem_of_singleton in Hx. apply Hni. rewrite <- Hx. by apply (list_elem_of_fmap_2 pv_seq_id).
  - apply (Hseen pv'); [by right|done].
Qed.

Lemma set_provenances_run l s : NoDup (pv_seq_id <$> l) -> (forall pv, pv ∈ l -> valid_seq s (pv_seq_id pv) = true) -> exists s',
  set_provenances l s = (Ok tt, s') /\ length (t_seqs s') = length (t_seqs s) /\
  forall i q, t_seqs s !! i = Some q -> t_seqs s' !! i = Some (
    match List.find (fun pv => pv_seq_id pv =? Z.of_nat i) l with
    | Some pv => set_degr (pv_degr pv) (pv_recov pv) q
    | None => q
    end).
Proof.
  revert s. induction l as [|pv l IH]; intros s Hn Hv; [by exists s|].
  rewrite fmap_cons in Hn. apply NoDup_cons in Hn as [Hni Hn]. simpl. unfold set_provenance, mbind, stx_bind.
  assert (valid_seq s (pv_seq_id pv) = true) as [H0 [q0 Hq0]]%valid_seq_lookup by (apply Hv; by left).
  rewrite (on_seq_run _ _ s q0 (Ok tt) (set_degr (pv_degr pv) (pv_recov pv) q0) Hq0) by done.
  set (s1 := set_seqs _ s).
  destruct (IH s1 Hn) as (s' & -> & Hl & Hs').
  { intros pv' Hpv'. unfold valid_seq. simpl. rewrite length_insert. apply Hv. by right. }
  exists s'. split; [done|]. split; [simpl in Hl; by rewrite Hl, length_insert|]. intros i q Hq.
  destruct (Z.eqb_spec (pv_seq_id pv) (Z.of_nat i)) as [E|E].
  - rewrite (Hs' i (set_degr (pv_degr pv) (pv_recov pv) q0)).
    + assert (Z.to_nat (pv_seq_id pv) = i) as Ei by lia. rewrite Ei in Hq0. rewrite Hq in Hq0. injection Hq0 as ->.
      destruct (List.find _ l) as [pv'|] eqn:Ef; [|done]. exfalso. apply List.find_some in Ef as [Hin Hpv']. bprop.
      apply Hni. rewrite E, <- Hpv'. apply (list_elem_of_fmap_2 pv_seq_id). by apply list_elem_of_In.
    + simpl. assert (Z.to_nat (pv_seq_id pv) = i) as -> by lia. apply list_lookup_insert_eq. by eapply lookup_lt_Some.
  - rewrite (Hs' i q); [done|]. simpl. rewrite list_lookup_insert_ne by lia. done.
Qed.

(** Restoring the provenance of a whole store accepts exactly the lists whose
    records each name an existing sequence once, carry only the three flags of
    [known_flags], count at most [n_tokens] recovered rows and none without a flag;
    then every named sequence has its flags and count and every other one is clean.
    Anything else is refused and changes nothing; so the provenance of a store with a
    sequence marked [DEGRADED_PAYLOAD_INVALID] cannot be restored at all. *)
Theorem restore_provenance_exact s l :
  store_wf s ->
  (if forallb (provenance_ok s) l && bool_decide (NoDup (pv_seq_id <$> l))
   then exists s', restore_provenance l (-1) s = (Ok tt, s') /\ length (t_seqs s') = length (t_seqs s) /\
     forall i q, t_seqs s !! i = Some q -> t_seqs s' !! i = Some (
       match List.find (fun pv => pv_seq_id pv =? Z.of_nat i) l with
       | Some pv => set_degr (pv_degr pv) (pv_recov pv) q
       | None => set_degr 0 0 q
       end)
   else restore_provenance l (-1) s = (Err RuntimeError, s)) /\
  (forall i q s0 pvs, t_seqs s0 !! i = Some q -> t_pending s0 = None -> Z.testbit (q_degr q) 3 = true ->
     snapshot_provenance s0 (-1) = Ok pvs -> restore_provenance pvs (-1) s = (Err RuntimeError, s)).
Proof.
  intros Hs.
  assert (forall l, if forallb (provenance_ok s) l && bool_decide (NoDup (pv_seq_id <$> l))
     then exists s', restore_provenance l (-1) s = (Ok tt, s') /\ length (t_seqs s') = length (t_seqs s) /\
       forall i q, t_seqs s !! i = Some q -> t_seqs s' !! i = Some (
         match List.find (fun pv => pv_seq_id pv =? Z.of_nat i) l with
         | Some pv => set_degr (pv_degr pv) (pv_recov pv) q
         | None => set_degr 0 0 q
         end)
     else restore_provenance l (-1) s = (Err RuntimeError, s)) as Hall.
  { clear l. intros l. unfold restore_provenance, mbind, stx_bind, stx_get, stx_lift. simpl.
    destruct (_ && _) eqn:E; bprop.
    - destruct (check_provenances_accept s l ∅) as [X ->]; [done|done|set_solver|]. unfold stx_modify.
      destruct (set_provenances_run l (set_seqs (set_degr 0 0 <$> t_seqs s) s)) as (s' & -> & Hl & Hs'); [done| |].
      + intros pv Hpv. apply forallb_forall with (x := pv) in H; [|by apply list_elem_of_In].
        unfold provenance_ok in H. bprop. unfold valid_seq in *. simpl. by rewrite length_fmap.
      + exists s'. split; [done|]. split; [by rewrite Hl; simpl; rewrite length_fmap|]. intros i q Hq.
        rewrite (Hs' i (set_degr 0 0 q)); [by destruct (List.find _ l)|]. simpl. by rewrite list_lookup_fmap, Hq.
    - destruct (foldM _ l ∅) as [X|f] eqn:Ef; [|by rewrite (check_provenances_err _ _ _ _ Ef)]. exfalso.
      apply check_provenances_Ok in Ef as (H1 & H2 & _). destruct E as [E|E]; bprop; [|done].
      apply not_true_iff_false in E. apply E, forallb_forall. intros pv Hpv. apply list_elem_of_In in Hpv.
      by apply (proj1 (Forall_forall _ _) H1). }
  split; [apply Hall|]. intros i q s0 pvs Hq Hp Hbit Hsnap. specialize (Hall pvs).
  assert (forallb (provenance_ok s) pvs = false) as Hf; [|by rewrite Hf in Hall].
  simpl in Hsnap. injection Hsnap as <-. apply not_true_iff_false. intros Hok.
  apply forallb_forall with (x := provenance_of s0 (Z.of_nat i) q) in Hok.
  - assert (Z.ldiff (q_degr q) known_flags = 0) as H.
    { unfold provenance_of, pending_for in Hok. rewrite Hp in Hok. unfold provenance_ok in Hok.
      cbn [pv_degr] in Hok. bprop. done. }
    apply (f_equal (fun x => Z.testbit x 3)) in H. by rewrite Z.ldiff_spec, Hbit in H.
  - apply list_elem_of_In, list_elem_of_lookup. exists i. by rewrite list_lookup_imap, Hq.
Qed.

Lemma restore_provenance_exact_witness :
  exists s', restore_provenance [mk_provenance 1 2 1] (-1) demo_done = (Ok tt, s') /\ length (t_seqs s') = 2%nat.
Proof.
  assert (forallb (provenance_ok demo_done) [mk_provenance 1 2 1] &&
    bool_decide (NoDup (pv_seq_id <$> [mk_provenance 1 2 1])) = true) as Ec by (vm_compute; reflexivity).
  destruct (restore_provenance_exact demo_done [mk_provenance 1 2 1]) as [H _].
  { apply reachable_wf, demo_done_reachable. }
  rewrite Ec in H. destruct H as (s' & E & Hl & _). exists s'. split; [exact E|]. rewrite Hl. vm_compute. reflexivity.
Defined.
