(* ===== verification/Batch.v ===== *)
(** * llama_batch_allocr (src/src/llama-batch.{h,cpp})

    Sanitizes the batch the caller submits, fills in the fields it left out, and
    cuts it into ubatches.  [init] keeps, for the whole batch, the positions of
    every sequence, the coupling of sequences, the sequence set of every token
    and the indices of every sequence set; the three splits then take unused
    tokens, mark them used and copy them into a [llama_ubatch].

    A null pointer of the C struct is [None] and reading through it is a fault,
    as is reading past the end of an array.  The vectors [pos], [n_seq_id],
    [seq_id] and [output] of the class only own the storage that [init] makes
    [batch] point to, so they are the fields of [a_batch] here.  Floats are their
    32-bit patterns.  The memory module is the interface [llama_memory]: the two
    queries [init] makes on it.  Counters of tokens are [nat]: they never exceed
    the [int32_t] number of tokens. *)

From S2P Require Export Prelude.
From S2P Require Import KvCells.

(** ** Data *)

Record llama_batch := mk_batch {
  b_n_tokens : Z;
  b_token : option (list Z);
  b_embd : option (list Z);
  b_pos : option (list Z);
  b_n_seq_id : option (list Z);
  b_seq_id : option (list (list Z));
  b_logits : option (list Z)
}.

Record llama_ubatch := mk_ubatch {
  u_equal_seqs : bool;
  u_n_tokens : nat;
  u_n_seq_tokens : nat;
  u_n_seqs : nat;
  u_n_seqs_unq : nat;
  u_n_pos : nat;
  u_token : option (list Z);
  u_embd : option (list Z);
  u_pos : list Z;
  u_n_seq_id : list Z;
  u_seq_id : list (list Z);
  u_seq_id_unq : list nat;
  u_seq_idx : list Z;
  u_output : list Z
}.

Definition is_pos_2d (u : llama_ubatch) : bool := 3 <=? u_n_pos u.

(** [return {}] *)
Definition no_ubatch : llama_ubatch := mk_ubatch false 0 0 0 0 0 None None [] [] [] [] [] [].

(** What [init] asks the memory module. *)
Record llama_memory := mk_memory { m_pos_min : nat -> Z; m_pos_max : nat -> Z }.

Record llama_batch_allocr := mk_allocr {
  a_n_pos_per_embd : nat;
  a_batch : llama_batch;
  a_n_embd : nat;
  a_n_seq_max : nat;
  a_n_outputs : nat;
  a_seq_id_unq : list nat;
  a_seq_idx : list Z;
  a_has_cpl : bool;
  a_seq_pos : list (gset Z);
  a_seq_cpl : list (list bool);
  a_seq_set : list (gset nat);
  a_seq_set_map : gmap (gset nat) (list nat);
  a_out_ids : list nat;
  a_n_used : nat;
  a_used : list bool
}.

Definition null_batch : llama_batch := mk_batch 0 None None None None None None.

(** The constructor. *)
Definition new_allocr (n_pos_per_embd : nat) : llama_batch_allocr :=
  mk_allocr n_pos_per_embd null_batch 0 0 0 [] (replicate LLAMA_MAX_SEQ (-1)%Z) false
    (replicate LLAMA_MAX_SEQ ∅) (replicate LLAMA_MAX_SEQ (replicate LLAMA_MAX_SEQ false))
    [] ∅ [] 0 [].

Definition set_batch b a := mk_allocr (a_n_pos_per_embd a) b (a_n_embd a) (a_n_seq_max a) (a_n_outputs a)
  (a_seq_id_unq a) (a_seq_idx a) (a_has_cpl a) (a_seq_pos a) (a_seq_cpl a) (a_seq_set a) (a_seq_set_map a)
  (a_out_ids a) (a_n_used a) (a_used a).
Definition set_stats n_embd n_seq_max n_outputs a := mk_allocr (a_n_pos_per_embd a) (a_batch a) n_embd n_seq_max n_outputs
  (a_seq_id_unq a) (a_seq_idx a) (a_has_cpl a) (a_seq_pos a) (a_seq_cpl a) (a_seq_set a) (a_seq_set_map a)
  (a_out_ids a) (a_n_used a) (a_used a).
Definition set_unq unq idx a := mk_allocr (a_n_pos_per_embd a) (a_batch a) (a_n_embd a) (a_n_seq_max a) (a_n_outputs a)
  unq idx (a_has_cpl a) (a_seq_pos a) (a_seq_cpl a) (a_seq_set a) (a_seq_set_map a)
  (a_out_ids a) (a_n_used a) (a_used a).
Definition set_cpl has_cpl pos cpl a := mk_allocr (a_n_pos_per_embd a) (a_batch a) (a_n_embd a) (a_n_seq_max a) (a_n_outputs a)
  (a_seq_id_unq a) (a_seq_idx a) has_cpl pos cpl (a_seq_set a) (a_seq_set_map a)
  (a_out_ids a) (a_n_used a) (a_used a).
Definition set_sets sets m a := mk_allocr (a_n_pos_per_embd a) (a_batch a) (a_n_embd a) (a_n_seq_max a) (a_n_outputs a)
  (a_seq_id_unq a) (a_seq_idx a) (a_has_cpl a) (a_seq_pos a) (a_seq_cpl a) sets m
  (a_out_ids a) (a_n_used a) (a_used a).
Definition set_split out n_used used a := mk_allocr (a_n_pos_per_embd a) (a_batch a) (a_n_embd a) (a_n_seq_max a) (a_n_outputs a)
  (a_seq_id_unq a) (a_seq_idx a) (a_has_cpl a) (a_seq_pos a) (a_seq_cpl a) (a_seq_set a) (a_seq_set_map a)
  out n_used used.

(** ** Reading the arrays *)

(** Dereferencing a pointer. *)
Definition deref {A} (p : option A) : outcome A :=
  match p with Some a => Ok a | None => Err OutOfBounds end.

(** Indexing by a signed integer. *)
Definition arr_get {A} (v : list A) (z : Z) : outcome A :=
  if (z <? 0)%Z then Err OutOfBounds else vec_get v (Z.to_nat z).

Definition arr_set {A} (v : list A) (z : Z) (a : A) : outcome (list A) :=
  if (z <? 0)%Z then Err OutOfBounds else vec_set v (Z.to_nat z) a.

Definition token_get (b : llama_batch) (i : nat) : outcome Z := l ← deref (b_token b); vec_get l i.
Definition pos_at (b : llama_batch) (i : nat) : outcome Z := l ← deref (b_pos b); vec_get l i.
Definition logit_at (b : llama_batch) (i : nat) : outcome Z := l ← deref (b_logits b); vec_get l i.
Definition n_seq_at (b : llama_batch) (i : nat) : outcome Z := l ← deref (b_n_seq_id b); vec_get l i.
Definition seq_id_at (b : llama_batch) (i s : nat) : outcome Z :=
  l ← deref (b_seq_id b); ids ← vec_get l i; vec_get ids s.

(** [seq_id[i][s]] for [s] from 0 to [n_seq_id[i]] *)
Definition token_ids (b : llama_batch) (i : nat) : outcome (list Z) :=
  n ← n_seq_at b i;
  foldM (fun r s => x ← seq_id_at b i s; Ok (r ++ [x])) (seq 0 (Z.to_nat n)) [].

(** [for (i = 0; i < batch.n_tokens; ++i)] *)
Definition token_loop (b : llama_batch) : list nat := seq 0 (Z.to_nat (b_n_tokens b)).

(** A loop that returns [false] from the function at the first failed test. *)
Fixpoint allM {A} (f : A -> outcome bool) (l : list A) : outcome bool :=
  match l with
  | [] => Ok true
  | a :: l' => b ← f a; if (b : bool) then allM f l' else Ok false
  end.

(** ** Helpers of the class *)

Definition clear (a : llama_batch_allocr) : llama_batch_allocr :=
  mk_allocr (a_n_pos_per_embd a) null_batch (a_n_embd a) (a_n_seq_max a) 0
    [] (map (fun _ => (-1)%Z) (a_seq_idx a)) (a_has_cpl a) (map (fun _ => ∅) (a_seq_pos a))
    (map (map (fun _ => false)) (a_seq_cpl a)) [] ∅
    (a_out_ids a) (a_n_used a) (a_used a).

Definition get_n_tokens (a : llama_batch_allocr) : nat := Z.to_nat (b_n_tokens (a_batch a)).

Definition split_reset (a : llama_batch_allocr) : llama_batch_allocr :=
  set_split [] 0 (replicate (get_n_tokens a) false) a.

Definition seq_pos_min (a : llama_batch_allocr) (s : nat) : outcome Z :=
  m ← vec_get (a_seq_pos a) s; Ok (default (-1)%Z (head (setZ_list m))).

Definition seq_pos_max (a : llama_batch_allocr) (s : nat) : outcome Z :=
  m ← vec_get (a_seq_pos a) s; Ok (default (-1)%Z (last (setZ_list m))).

(** ** Validation of the input *)

Definition token_valid (n_vocab : Z) (b : llama_batch) (i : nat) : outcome bool :=
  t ← token_get b i; Ok (negb ((t <? 0)%Z || (n_vocab <=? t)%Z)).

Definition tokens_valid (n_vocab : Z) (b : llama_batch) : outcome bool :=
  match b_token b with
  | Some _ => allM (token_valid n_vocab b) (token_loop b)
  | None => Ok true
  end.

Definition seq_id_valid (n_seq_max : nat) (b : llama_batch) (i s : nat) : outcome bool :=
  x ← seq_id_at b i s; Ok (negb ((x <? 0)%Z || (Z.of_nat n_seq_max <=? x)%Z)).

Definition seq_ids_valid (n_seq_max : nat) (b : llama_batch) : outcome bool :=
  match b_seq_id b with
  | Some _ => allM (fun i => n ← n_seq_at b i; allM (seq_id_valid n_seq_max b i) (seq 0 (Z.to_nat n))) (token_loop b)
  | None => Ok true
  end.

(** ** Fields the caller left out *)

Definition gen_n_seq_id (b : llama_batch) : llama_batch :=
  match b_n_seq_id b with
  | Some _ => b
  | None => mk_batch (b_n_tokens b) (b_token b) (b_embd b) (b_pos b)
              (Some (replicate (Z.to_nat (b_n_tokens b)) 1%Z)) (b_seq_id b) (b_logits b)
  end.

(** Every token belongs to [seq_id_0]. *)
Definition gen_seq_id (b : llama_batch) : llama_batch :=
  match b_seq_id b with
  | Some _ => b
  | None => mk_batch (b_n_tokens b) (b_token b) (b_embd b) (b_pos b) (b_n_seq_id b)
              (Some (replicate (Z.to_nat (b_n_tokens b)) [0%Z])) (b_logits b)
  end.

(** The next position of every sequence. *)
Definition initial_positions (memory : option llama_memory) (n_seq_max : nat) : outcome (list Z) :=
  foldM (fun p0 s => p ← (match memory with None => Ok 0%Z | Some m => i32 (m_pos_max m s + 1) end); Ok (p0 ++ [p]))
    (seq 0 n_seq_max) [].

Definition gen_pos_step (b : llama_batch) (st : list Z * list Z) (i : nat) : outcome (list Z * list Z) :=
  let '(p0, pos) := st in
  s0 ← seq_id_at b i 0;
  p ← arr_get p0 s0;
  ids ← token_ids b i;
  p0 ← foldM (fun p0 s => q ← i32 (p + 1); arr_set p0 s q) ids p0;
  Ok (p0, pos ++ [p]).

Definition gen_pos (memory : option llama_memory) (n_seq_max : nat) (b : llama_batch) : outcome llama_batch :=
  match b_pos b with
  | Some _ => Ok b
  | None =>
      p0 ← initial_positions memory n_seq_max;
      r ← foldM (gen_pos_step b) (token_loop b) (p0, []);
      Ok (mk_batch (b_n_tokens b) (b_token b) (b_embd b) (Some r.2) (b_n_seq_id b) (b_seq_id b) (b_logits b))
  end.

Definition with_logits (l : list Z) (b : llama_batch) : llama_batch :=
  mk_batch (b_n_tokens b) (b_token b) (b_embd b) (b_pos b) (b_n_seq_id b) (b_seq_id b) (Some l).

Definition gen_logits (output_all : bool) (b : llama_batch) : outcome llama_batch :=
  let n := Z.to_nat (b_n_tokens b) in
  match b_logits b with
  | None =>
      if output_all then Ok (with_logits (replicate n 1%Z) b)
      else l ← vec_set (replicate n 0%Z) (n - 1) 1%Z; Ok (with_logits l b)
  | Some _ =>
      if output_all then
        warn ← foldM (fun w i => x ← logit_at b i; Ok (w || (x =? 0)%Z)) (token_loop b) false;
        Ok (if (warn : bool) then with_logits (replicate n 1%Z) b else b)
      else Ok b
  end.

(** ** Statistics *)

Definition count_outputs (b : llama_batch) : outcome nat :=
  foldM (fun n i => x ← logit_at b i; Ok (if (x =? 0)%Z then n else n + 1)) (token_loop b) 0.

(** [seq_cpl[s1][s0] = true] *)
Definition couple (s1 s0 : Z) (cpl : list (list bool)) : outcome (list (list bool)) :=
  row ← arr_get cpl s1;
  row ← arr_set row s0 true;
  arr_set cpl s1 row.

Definition note_seq (p s0 : Z) (st : bool * list (gset Z) * list (list bool)) (js : nat * Z)
    : outcome (bool * list (gset Z) * list (list bool)) :=
  let '(has_cpl, seq_pos, cpl) := st in
  let '(j, s1) := js in
  m ← arr_get seq_pos s1;
  seq_pos ← arr_set seq_pos s1 ({[p]} ∪ m);
  if 0 <? j then cpl ← couple s1 s0 cpl; Ok (true, seq_pos, cpl)
  else Ok (has_cpl, seq_pos, cpl).

Definition note_token (b : llama_batch) (st : bool * list (gset Z) * list (list bool)) (i : nat)
    : outcome (bool * list (gset Z) * list (list bool)) :=
  s0 ← seq_id_at b i 0;
  ids ← token_ids b i;
  p ← pos_at b i;
  foldM (note_seq p s0) (imap pair ids) st.

(** The coupled sequences and the positions of every sequence. *)
Definition find_coupled (a : llama_batch_allocr) : outcome llama_batch_allocr :=
  r ← foldM (note_token (a_batch a)) (token_loop (a_batch a)) (false, a_seq_pos a, a_seq_cpl a);
  let '(has_cpl, seq_pos, cpl) := r in
  Ok (set_cpl has_cpl seq_pos cpl a).

(** [bitset::set] throws past the last bit. *)
Definition bit_set (s : Z) (X : gset nat) : outcome (gset nat) :=
  _ ← require_ OutOfRange ((0 <=? s)%Z && (s <? Z.of_nat LLAMA_MAX_SEQ)%Z);
  Ok ({[Z.to_nat s]} ∪ X).

Definition token_set (b : llama_batch) (i : nat) : outcome (gset nat) :=
  ids ← token_ids b i;
  foldM (fun X s => bit_set s X) ids ∅.

Definition push_index (S : gset nat) (i : nat) (m : gmap (gset nat) (list nat)) : gmap (gset nat) (list nat) :=
  <[S := default [] (m !! S) ++ [i]]> m.

Definition find_sets_step (b : llama_batch)
    (st : gset nat * list (gset nat) * gmap (gset nat) (list nat)) (i : nat)
    : outcome (gset nat * list (gset nat) * gmap (gset nat) (list nat)) :=
  let '(unq, sets, m) := st in
  S ← token_set b i;
  Ok (unq ∪ S, sets ++ [S], push_index S i m).

(** [for (s = 0; s < n_seq_max; ++s) if (set.test(s)) { idx[s] = unq.size(); unq.push_back(s); }] *)
Definition collect_unq (n_seq_max : nat) (X : gset nat) (idx : list Z) : outcome (list nat * list Z) :=
  foldM (fun '(unq, idx) s =>
    if decide (s ∈ X) then idx ← vec_set idx s (Z.of_nat (length unq)); Ok (unq ++ [s], idx)
    else Ok (unq, idx)) (seq 0 n_seq_max) ([], idx).

Definition find_sets (n_seq_max : nat) (a : llama_batch_allocr) : outcome llama_batch_allocr :=
  r ← foldM (find_sets_step (a_batch a)) (token_loop (a_batch a)) (∅, a_seq_set a, a_seq_set_map a);
  let '(unq, sets, m) := r in
  u ← collect_unq n_seq_max unq (a_seq_idx a);
  Ok (set_unq u.1 u.2 (set_sets sets m a)).

(** ** Consistency checks *)

(** [memory ? memory->seq_pos_max(s) : -1] *)
Definition memory_max (memory : option llama_memory) (s : nat) : Z :=
  match memory with Some m => m_pos_max m s | None => (-1)%Z end.

Definition check_mrope (memory : option llama_memory) (a : llama_batch_allocr) (s : nat) : outcome bool :=
  m ← vec_get (a_seq_pos a) s;
  if decide (m = ∅) then Ok true else
  let p0 := memory_max memory s in
  lo ← seq_pos_min a s;
  Ok (negb ((0 <=? p0)%Z &&
        match b_token (a_batch a) with Some _ => (lo <=? p0)%Z | None => (lo <? p0)%Z end)).

Definition check_consecutive (memory : option llama_memory) (a : llama_batch_allocr) (s : nat) : outcome bool :=
  m ← vec_get (a_seq_pos a) s;
  if decide (m = ∅) then Ok true else
  let p0 := memory_max memory s in
  lo ← seq_pos_min a s;
  ok ← (if (0 <=? p0)%Z then q ← i32 (p0 + 1); Ok (lo =? q)%Z else Ok true);
  if negb ok then Ok false else
  hi ← seq_pos_max a s;
  d ← i32 (hi - lo);
  n ← i32 (d + 1);
  Ok (negb (Z.of_nat (size m) <? n)%Z).

Definition check_positions (memory : option llama_memory) (n_seq_max : nat) (a : llama_batch_allocr) : outcome bool :=
  if 1 <? a_n_pos_per_embd a then allM (check_mrope memory a) (seq 0 n_seq_max)
  else allM (check_consecutive memory a) (seq 0 n_seq_max).

Definition check_coupled_pair (m : llama_memory) (a : llama_batch_allocr) (s0 s1 : nat) : outcome bool :=
  row ← vec_get (a_seq_cpl a) s0;
  c ← vec_get row s1;
  if (c : bool) then
    Ok (negb (negb (m_pos_min m s0 =? m_pos_min m s1)%Z || negb (m_pos_max m s0 =? m_pos_max m s1)%Z))
  else Ok true.

Definition check_coupled (memory : option llama_memory) (n_seq_max : nat) (a : llama_batch_allocr) : outcome bool :=
  match memory with
  | Some m => allM (fun s0 => allM (check_coupled_pair m a s0) (seq 0 n_seq_max)) (seq 0 n_seq_max)
  | None => Ok true
  end.

(** The bitset with every bit set. *)
Definition all_bits : gset nat := list_to_set seq_ids.

(** The inner loop on one token; [None] is the [return false]. *)
Fixpoint check_order_ids (S : gset nat) (p : Z) (ids : list Z) (st : list (gset nat) * list Z)
    : outcome (option (list (gset nat) * list Z)) :=
  match ids with
  | [] => Ok (Some st)
  | s :: ids' =>
      let '(sets, poss) := st in
      X ← arr_get sets s;
      let X' := X ∩ S in
      sets ← arr_set sets s X';
      if decide (X' = ∅) then Ok None else
      q ← arr_get poss s;
      if (p <? q)%Z then Ok None else
      poss ← arr_set poss s p;
      check_order_ids S p ids' (sets, poss)
  end.

Fixpoint check_order_loop (a : llama_batch_allocr) (tokens : list nat) (st : list (gset nat) * list Z) : outcome bool :=
  match tokens with
  | [] => Ok true
  | i :: tokens' =>
      p ← pos_at (a_batch a) i;
      ids ← token_ids (a_batch a) i;
      S ← vec_get (a_seq_set a) i;
      r ← check_order_ids S p ids st;
      match r with Some st => check_order_loop a tokens' st | None => Ok false end
  end.

(** Incompatible sequence sets and decreasing positions. *)
Definition check_order (n_seq_max : nat) (a : llama_batch_allocr) : outcome bool :=
  check_order_loop a (token_loop (a_batch a)) (replicate n_seq_max all_bits, replicate n_seq_max (-1)%Z).

(** ** [init] *)

(** "compute stats" *)
Definition compute_stats (b : llama_batch) (n_embd n_seq_max : nat) (a : llama_batch_allocr)
    : outcome llama_batch_allocr :=
  n_outputs ← count_outputs b;
  a ← find_coupled (set_stats n_embd n_seq_max n_outputs (set_batch b a));
  find_sets n_seq_max a.

(** "consistency checks" *)
Definition check_consistency (memory : option llama_memory) (n_seq_max : nat) (a : llama_batch_allocr)
    : outcome bool :=
  ok ← check_positions memory n_seq_max a;
  if negb ok then Ok false else
  ok ← check_coupled memory n_seq_max a;
  if negb ok then Ok false else
  check_order n_seq_max a.

Definition init (batch_inp : llama_batch) (n_vocab : Z) (memory : option llama_memory)
    (n_embd n_seq_max : nat) (output_all : bool) (a : llama_batch_allocr) : outcome (bool * llama_batch_allocr) :=
  let a := set_batch batch_inp (clear a) in
  _ ← assert_ (0 <? b_n_tokens batch_inp)%Z;
  if LLAMA_MAX_SEQ <? n_seq_max then Ok (false, a) else
  ok ← tokens_valid n_vocab batch_inp;
  if negb ok then Ok (false, a) else
  ok ← seq_ids_valid n_seq_max batch_inp;
  if negb ok then Ok (false, a) else
  b ← gen_pos memory n_seq_max (gen_seq_id (gen_n_seq_id batch_inp));
  b ← gen_logits output_all b;
  a ← compute_stats b n_embd n_seq_max a;
  ok ← check_consistency memory n_seq_max a;
  if negb ok then Ok (false, a) else
  Ok (true, split_reset a).

(** ** Making a ubatch *)

(** [memcpy] of [n] words. *)
Definition slice (v : list Z) (off n : nat) : outcome (list Z) :=
  if off + n <=? length v then Ok (take n (drop off v)) else Err OutOfBounds.

(** The positions of section [j], copied as they are or broadcast from the first section. *)
Definition gather_pos (b : llama_batch) (idxs : list nat) (j : nat) : outcome (list Z) :=
  let src_off := match b_token b with Some _ => 0 | None => j * Z.to_nat (b_n_tokens b) end in
  mapM (fun idx => pos_at b (src_off + idx)) idxs.

Definition ubatch_add (idxs : list nat) (n_seqs : nat) (equal_seqs : bool) (a : llama_batch_allocr)
    : outcome (llama_ubatch * llama_batch_allocr) :=
  let b := a_batch a in
  let n_tokens := length idxs in
  _ ← require_ DivByZero (negb (n_seqs =? 0));
  _ ← assert_ (n_tokens mod n_seqs =? 0);
  token ← (match b_token b with Some l => fmap Some (mapM (vec_get l) idxs) | None => Ok None end);
  embd ← (match b_embd b with
          | Some e => l ← mapM (fun idx => slice e (idx * a_n_embd a) (a_n_embd a)) idxs; Ok (Some (concat l))
          | None => Ok None end);
  pos ← mapM (gather_pos b idxs) (seq 0 (a_n_pos_per_embd a));
  n_seq_id ← mapM (n_seq_at b) idxs;
  output ← mapM (logit_at b) idxs;
  seq_id ← mapM (token_ids b) idxs;
  unq ← foldM (fun X s => bit_set s X) (concat seq_id) ∅;
  u ← collect_unq (a_n_seq_max a) unq (replicate LLAMA_MAX_SEQ (-1)%Z);
  let out := (fun x => x.1) <$> List.filter (fun x => negb (x.2 =? 0)%Z) (zip idxs output) in
  Ok (mk_ubatch equal_seqs n_tokens (n_tokens / n_seqs) n_seqs (length u.1) (a_n_pos_per_embd a)
        token embd (concat pos) n_seq_id seq_id u.1 u.2 output,
      set_split (a_out_ids a ++ out) (a_n_used a) (a_used a) a).

Definition ubatch_reserve (n_seq_tokens n_seqs : nat) (a : llama_batch_allocr)
    : outcome (llama_ubatch * llama_batch_allocr) :=
  let n_tokens := n_seq_tokens * n_seqs in
  idx ← foldM (fun idx s => vec_set idx s (Z.of_nat s)) (seq 0 n_seqs) (replicate LLAMA_MAX_SEQ (-1)%Z);
  Ok (mk_ubatch true n_tokens n_seq_tokens n_seqs n_seqs (a_n_pos_per_embd a)
        (Some (replicate n_tokens 0%Z)) None (replicate (n_tokens * a_n_pos_per_embd a) 0%Z)
        (replicate n_tokens 0%Z) (replicate n_tokens []) (seq 0 n_seqs) idx (replicate n_tokens 0%Z),
      split_reset (clear a)).

(** ** Splitting *)

(** [while (cur_idx < used.size() && used[cur_idx]) ++cur_idx;] *)
Fixpoint first_unused (used : list bool) : nat :=
  match used with
  | true :: used' => S (first_unused used')
  | _ => 0
  end.

(** [used[i] = true; ++n_used;] and back. *)
Definition mark (st : list bool * nat) (i : nat) : outcome (list bool * nat) :=
  used ← vec_set st.1 i true; Ok (used, st.2 + 1).
Definition unmark (st : list bool * nat) (i : nat) : outcome (list bool * nat) :=
  used ← vec_set st.1 i false; Ok (used, st.2 - 1).

Fixpoint simple_loop (fuel n_ubatch cur : nat) (idxs : list nat) (st : list bool * nat)
    : outcome (list nat * (list bool * nat)) :=
  match fuel with
  | 0 => Err OutOfFuel
  | S fuel =>
      let idxs := idxs ++ [cur] in
      st ← mark st cur;
      if length st.1 <=? cur + 1 then Ok (idxs, st)
      else if n_ubatch <=? length idxs then Ok (idxs, st)
      else simple_loop fuel n_ubatch (cur + 1) idxs st
  end.

Definition split_simple (n_ubatch : nat) (a : llama_batch_allocr) : outcome (llama_ubatch * llama_batch_allocr) :=
  let cur_idx := first_unused (a_used a) in
  if length (a_used a) <=? cur_idx then Ok (no_ubatch, a) else
  r ← simple_loop (length (a_used a)) n_ubatch cur_idx [] (a_used a, a_n_used a);
  ubatch_add r.1 (length r.1) false (set_split (a_out_ids a) r.2.2 r.2.1 a).

(** The sequence sets of the next ubatch. *)
Fixpoint choose_sets (a : llama_batch_allocr) (n_ubatch : nat) (sequential : bool) (tokens : list nat)
    (cur : list (gset nat)) (last_seq_id : Z) : outcome (list (gset nat)) :=
  match tokens with
  | [] => Ok cur
  | i :: tokens' =>
      u ← vec_get (a_used a) i;
      if (u : bool) then choose_sets a n_ubatch sequential tokens' cur last_seq_id else
      S ← vec_get (a_seq_set a) i;
      let add := forallb (fun T => bool_decide (T ∩ S = ∅)) cur in
      add ← (if sequential && add && negb (length cur =? 0) then
               s0 ← seq_id_at (a_batch a) i 0; q ← i32 (last_seq_id + 1); Ok (s0 =? q)%Z
             else Ok add);
      if (add : bool) then
        s0 ← seq_id_at (a_batch a) i 0;
        if n_ubatch <? length (cur ++ [S]) then Ok (cur ++ [S])
        else choose_sets a n_ubatch sequential tokens' (cur ++ [S]) s0
      else choose_sets a n_ubatch sequential tokens' cur last_seq_id
  end.

(** [seq_set_map[cur_seq_set[s]]], [cur_idx[s]] and [idxs_per_seq[s]] *)
Record set_cursor := mk_cursor { w_all : list nat; w_cur : nat; w_idxs : list nat }.

(** [while (used[all[cur]]) ++cur;] *)
Fixpoint skip_used (used : list bool) (all : list nat) : outcome nat :=
  match all with
  | [] => Err OutOfBounds
  | i :: all' => u ← vec_get used i;
                 if (u : bool) then n ← skip_used used all'; Ok (S n) else Ok 0
  end.

Definition start_cursor (a : llama_batch_allocr) (S : gset nat) : outcome set_cursor :=
  let all := default [] (a_seq_set_map a !! S) in
  n ← skip_used (a_used a) all;
  Ok (mk_cursor all n []).

Definition advance (x : list set_cursor * (list bool * nat)) (w : set_cursor)
    : outcome (list set_cursor * (list bool * nat)) :=
  idx ← vec_get (w_all w) (w_cur w);
  st ← mark x.2 idx;
  Ok (x.1 ++ [mk_cursor (w_all w) (w_cur w + 1) (w_idxs w ++ [idx])], st).

Fixpoint expand_loop (fuel n_ubatch : nat) (ws : list set_cursor) (st : list bool * nat)
    : outcome (list set_cursor * (list bool * nat)) :=
  match fuel with
  | 0 => Err OutOfFuel
  | S fuel =>
      if forallb (fun w => w_cur w <? length (w_all w)) ws then
        x ← foldM advance ws ([], st);
        w0 ← vec_get x.1 0;
        if n_ubatch <? (length (w_idxs w0) + 1) * length x.1 then Ok x
        else expand_loop fuel n_ubatch x.1 x.2
      else Ok (ws, st)
  end.

Definition n_remaining (w : set_cursor) : nat := length (w_all w) - w_cur w.

(** The longest prefix of sets that end here or keep enough tokens for later. *)
Fixpoint keep_prefix (n_keep_tail : nat) (ws : list set_cursor) : nat :=
  match ws with
  | [] => 0
  | w :: ws' =>
      if negb (n_remaining w =? 0) && (n_remaining w <? n_keep_tail) then 0
      else S (keep_prefix n_keep_tail ws')
  end.

(** Extend the first set to its end. *)
Definition complete_first (w : set_cursor) (st : list bool * nat) : outcome (set_cursor * (list bool * nat)) :=
  st ← foldM mark (drop (w_cur w) (w_all w)) st;
  Ok (mk_cursor (w_all w) (length (w_all w)) (w_idxs w ++ drop (w_cur w) (w_all w)), st).

(** Give tokens of the first set back until [n_keep_tail] remain. *)
Fixpoint truncate_first (fuel n_keep_tail : nat) (w : set_cursor) (st : list bool * nat)
    : outcome (set_cursor * (list bool * nat)) :=
  match fuel with
  | 0 => Err OutOfFuel
  | S fuel =>
      if n_remaining w <? n_keep_tail then
        idx ← deref (last (w_idxs w));
        st ← unmark st idx;
        truncate_first fuel n_keep_tail (mk_cursor (w_all w) (w_cur w - 1) (removelast (w_idxs w))) st
      else Ok (w, st)
  end.

Definition keep_tails (n_ubatch n_keep_tail : nat) (ws : list set_cursor) (st : list bool * nat)
    : outcome (list set_cursor * (list bool * nat)) :=
  if n_keep_tail =? 0 then Ok (ws, st) else
  _ ← assert_ (n_keep_tail <? n_ubatch);
  let n_keep := keep_prefix n_keep_tail ws in
  x ← (if n_keep =? 0 then
         w ← vec_get ws 0;
         r ← (if length (w_idxs w) + n_remaining w <=? n_ubatch then complete_first w st
              else truncate_first (S n_keep_tail) n_keep_tail w st);
         Ok (1, <[0 := r.1]> ws, r.2)
       else Ok (n_keep, ws, st));
  let '(n_keep, ws, st) := x in
  st ← foldM unmark (concat (w_idxs <$> drop n_keep ws)) st;
  Ok (take n_keep ws, st).

Definition split_equal (n_ubatch : nat) (sequential : bool) (n_keep_tail : nat) (a : llama_batch_allocr)
    : outcome (llama_ubatch * llama_batch_allocr) :=
  if sequential && a_has_cpl a then Ok (no_ubatch, a) else
  sets ← choose_sets a n_ubatch sequential (token_loop (a_batch a)) [] (-1);
  if length sets =? 0 then Ok (no_ubatch, a) else
  ws ← mapM (start_cursor a) sets;
  x ← expand_loop (S (get_n_tokens a)) n_ubatch ws (a_used a, a_n_used a);
  x ← keep_tails n_ubatch n_keep_tail x.1 x.2;
  ubatch_add (concat (w_idxs <$> x.1)) (length x.1) true (set_split (a_out_ids a) x.2.2 x.2.1 a).

(** [do ++cur_idx; while (cur_idx < n_tokens && (used[cur_idx] || (cur & set) != set))] *)
Fixpoint next_subset (a : llama_batch_allocr) (used : list bool) (cur : gset nat) (tokens : list nat)
    : outcome (option nat) :=
  match tokens with
  | [] => Ok None
  | i :: tokens' =>
      u ← vec_get used i;
      if (u : bool) then next_subset a used cur tokens' else
      S ← vec_get (a_seq_set a) i;
      if decide (cur ∩ S = S) then Ok (Some i) else next_subset a used cur tokens'
  end.

Fixpoint seq_loop (fuel n_ubatch cur_idx : nat) (cur : gset nat) (idxs : list nat) (a : llama_batch_allocr)
    (st : list bool * nat) : outcome (list nat * (list bool * nat)) :=
  match fuel with
  | 0 => Err OutOfFuel
  | S fuel =>
      let idxs := idxs ++ [cur_idx] in
      st ← mark st cur_idx;
      if n_ubatch <=? length idxs then Ok (idxs, st) else
      r ← next_subset a st.1 cur (seq (cur_idx + 1) (get_n_tokens a - (cur_idx + 1)));
      match r with
      | None => Ok (idxs, st)
      | Some i => S ← vec_get (a_seq_set a) i; seq_loop fuel n_ubatch i S idxs a st
      end
  end.

Definition split_seq (n_ubatch : nat) (a : llama_batch_allocr) : outcome (llama_ubatch * llama_batch_allocr) :=
  let cur_idx := first_unused (a_used a) in
  if length (a_used a) <=? cur_idx then Ok (no_ubatch, a) else
  S ← vec_get (a_seq_set a) cur_idx;
  r ← seq_loop (length (a_used a)) n_ubatch cur_idx S [] a (a_used a, a_n_used a);
  ubatch_add r.1 1 true (set_split (a_out_ids a) r.2.2 r.2.1 a).

(** ** The loop of [llama_kv_cache::init_batch]

    [while (true)] until an empty ubatch; a batch that is not used up is refused. *)

Fixpoint split_loop (fuel : nat) (split : llama_batch_allocr -> outcome (llama_ubatch * llama_batch_allocr))
    (ubatches : list llama_ubatch) (a : llama_batch_allocr) : outcome (list llama_ubatch * llama_batch_allocr) :=
  match fuel with
  | 0 => Err OutOfFuel
  | S fuel =>
      r ← split a;
      if u_n_tokens r.1 =? 0 then Ok (ubatches, r.2) else split_loop fuel split (ubatches ++ [r.1]) r.2
  end.

Definition split_ubatches (n_stream n_ubatch : nat) (a : llama_batch_allocr)
    : outcome (option (list llama_ubatch) * llama_batch_allocr) :=
  let a := split_reset a in
  r ← split_loop (S (get_n_tokens a))
        (if n_stream =? 1 then split_simple n_ubatch else split_equal n_ubatch true 0) [] a;
  if a_n_used r.2 <? get_n_tokens r.2 then Ok (None, r.2) else Ok (Some r.1, r.2).
