(* ===== verification/BatchInit.v ===== *)
(** * Batch validation

    What [init] (Batch.v) accepts: the tokens are in the vocabulary, the sequence
    ids in range, the positions of every sequence continue its memory without
    gaps and never decrease, and coupled sequences agree in the memory.  When it
    accepts, the allocator is [ready] for the splits (BatchSplit.v). *)

From S2P Require Import KvCells.
From S2P Require Export Batch.

(** ** The batch as a list of tokens *)

(** Positions of the tokens of sequence [s], in batch order. *)
Definition owned_pos (s : Z) (l : list (list Z * Z)) : list Z :=
  snd <$> filter (fun x => s ∈ x.1) l.

(** A batch with every array but the optional ones filled in: token [i] belongs to
    the sequences [ids !! i] and is at position [pos !! i]. *)
Record filled (b : llama_batch) (ids : list (list Z)) (pos : list Z) : Prop := {
  fl_n : b_n_tokens b = Z.of_nat (length ids);
  fl_ids : b_seq_id b = Some ids;
  fl_n_seq : b_n_seq_id b = Some ((fun l => Z.of_nat (length l)) <$> ids);
  fl_pos : b_pos b = Some pos;
  fl_pos_len : length ids <= length pos;
  fl_ne : Forall (fun l => l <> []) ids
}.

(** What the caller may submit: arrays of the right length, or null pointers. *)
Record input_wf (n_embd n_pos : nat) (b : llama_batch) (ids : list (list Z)) (pos : list Z) : Prop := {
  in_n : b_n_tokens b = Z.of_nat (length ids);
  in_some : 0 < length ids;
  in_owners : match b_seq_id b with
              | Some l => l = ids /\ b_n_seq_id b = Some ((fun l => Z.of_nat (length l)) <$> ids)
              | None => ids = replicate (length ids) [0%Z] /\
                        (b_n_seq_id b = None \/ b_n_seq_id b = Some (replicate (length ids) 1%Z))
              end;
  in_pos : b_pos b = Some pos;
  in_pos_len : length ids <= length pos;
  in_ne : Forall (fun l => l <> []) ids;
  in_token : forall l, b_token b = Some l -> length l = length ids;
  in_embd : forall l, b_embd b = Some l -> length l = length ids * n_embd;
  in_mrope : b_token b = None -> length ids * n_pos <= length pos;
  in_logits : forall l, b_logits b = Some l -> length l = length ids
}.

(** Every id is one of the [n] sequences. *)
Definition in_range (n : nat) (ids : list (list Z)) : Prop :=
  Forall (Forall (fun x => 0 <= x < Z.of_nat n)%Z) ids.

Section filled.
Context (b : llama_batch) (ids : list (list Z)) (pos : list Z) (Hb : filled b ids pos).

Lemma filled_loop : token_loop b = seq 0 (length ids).
Proof. unfold token_loop. by rewrite (fl_n _ _ _ Hb), Nat2Z.id. Qed.

Lemma filled_n_seq i l : ids !! i = Some l -> n_seq_at b i = Ok (Z.of_nat (length l)).
Proof.
  intros Hi. unfold n_seq_at. rewrite (fl_n_seq _ _ _ Hb); simpl. apply vec_get_Some.
  by rewrite list_lookup_fmap, Hi.
Qed.

Lemma filled_seq_id i s l x : ids !! i = Some l -> l !! s = Some x -> seq_id_at b i s = Ok x.
Proof.
  intros Hi Hs. unfold seq_id_at. rewrite (fl_ids _ _ _ Hb); simpl. rewrite (vec_get_Some _ _ _ Hi); simpl.
  by apply vec_get_Some.
Qed.

Lemma filled_token_ids i l : ids !! i = Some l -> token_ids b i = Ok l.
Proof.
  intros Hi. unfold token_ids. rewrite (filled_n_seq i l Hi); simpl. rewrite Nat2Z.id.
  rewrite (foldM_snoc (seq_id_at b i) (fun s => default 0%Z (l !! s))).
  - simpl. f_equal. apply list_eq. intros s. rewrite list_lookup_fmap.
    destruct (decide (s < length l)) as [Hs | Hs].
    + rewrite lookup_seq_lt by lia. simpl. by destruct (lookup_lt_is_Some_2 l s Hs) as [x ->].
    + rewrite lookup_seq_ge, lookup_ge_None_2 by lia. done.
  - intros s [_ Hs]%elem_of_seq. destruct (lookup_lt_is_Some_2 l s) as [x Hx]; [lia|].
    rewrite Hx. by apply (filled_seq_id i s l).
Qed.

Lemma filled_first i l : ids !! i = Some l -> exists s0, l !! 0 = Some s0 /\ seq_id_at b i 0 = Ok s0.
Proof.
  intros Hi. pose proof (Forall_lookup_1 _ _ _ _ (fl_ne _ _ _ Hb) Hi) as Hne.
  destruct l as [|s0 l]; [done|]. exists s0. split; [done|]. by apply (filled_seq_id i 0 (s0 :: l)).
Qed.

Lemma filled_pos i : i < length ids -> exists p, pos !! i = Some p /\ pos_at b i = Ok p.
Proof.
  intros Hi. pose proof (fl_pos_len _ _ _ Hb). destruct (lookup_lt_is_Some_2 pos i) as [p Hp]; [lia|].
  exists p. split; [done|]. unfold pos_at. rewrite (fl_pos _ _ _ Hb); simpl. by apply vec_get_Some.
Qed.

Lemma filled_zip i l p : ids !! i = Some l -> pos !! i = Some p -> zip ids pos !! i = Some (l, p).
Proof. intros. apply lookup_zip_with_Some. eauto. Qed.

Lemma filled_zip_length : length (zip ids pos) = length ids.
Proof. rewrite length_zip. pose proof (fl_pos_len _ _ _ Hb). lia. Qed.
End filled.

Lemma owned_pos_app s l1 l2 : owned_pos s (l1 ++ l2) = owned_pos s l1 ++ owned_pos s l2.
Proof. unfold owned_pos. by rewrite filter_app, fmap_app. Qed.

Lemma owned_pos_cons s l p rest :
  owned_pos s ((l, p) :: rest) = (if decide (s ∈ l) then [p] else []) ++ owned_pos s rest.
Proof. unfold owned_pos. rewrite filter_cons. simpl. by destruct (decide (s ∈ l)). Qed.

Lemma elem_of_owned_pos s l p : p ∈ owned_pos s l <-> exists x, x ∈ l /\ s ∈ x.1 /\ x.2 = p.
Proof.
  unfold owned_pos. rewrite list_elem_of_fmap. split.
  - intros (x & -> & [Hs Hx]%list_elem_of_filter). eauto.
  - intros (x & Hx & Hs & <-). exists x. split; [done|]. apply list_elem_of_filter. done.
Qed.

Lemma take_S_zip {A B} (l1 : list A) (l2 : list B) k a c :
  l1 !! k = Some a -> l2 !! k = Some c -> take (k + 1) (zip l1 l2) = take k (zip l1 l2) ++ [(a, c)].
Proof.
  intros Ha Hc. rewrite Nat.add_1_r. apply take_S_r. apply lookup_zip_with_Some. eauto.
Qed.

(** ** Tests in a loop *)

Lemma allM_iff {A} (f : A -> outcome bool) (P : A -> Prop) l :
  (forall a, a ∈ l -> exists t, f a = Ok t /\ (t = true <-> P a)) ->
  exists t, allM f l = Ok t /\ (t = true <-> Forall P l).
Proof.
  induction l as [|a l IH]; intros H; simpl; [exists true; done|].
  destruct (H a) as (t & -> & Ht); [by left|]; simpl. destruct t.
  - destruct IH as (t & -> & Ht'); [intros; apply H; by right|]. exists t. split; [done|].
    rewrite Forall_cons, <- Ht'. naive_solver.
  - exists false. split; [done|]. rewrite Forall_cons, <- Ht. naive_solver.
Qed.

Lemma Forall_seq_lookup {A} (P : A -> Prop) (l : list A) :
  Forall P l <-> Forall (fun i => forall a, l !! i = Some a -> P a) (seq 0 (length l)).
Proof.
  rewrite Forall_lookup, Forall_forall. split.
  - intros H i _ a Ha. eauto.
  - intros H i a Ha. apply (H i); [|done]. apply elem_of_seq. apply lookup_lt_Some in Ha. lia.
Qed.

(** ** Validation of the arrays *)

Lemma tokens_valid_spec n b :
  (forall l, b_token b = Some l -> length l = Z.to_nat (b_n_tokens b)) ->
  exists t, tokens_valid n b = Ok t /\
    (t = true <-> forall l, b_token b = Some l -> Forall (fun x => 0 <= x < n)%Z l).
Proof.
  intros Hl. unfold tokens_valid. destruct (b_token b) as [l|] eqn:E; [|by exists true].
  specialize (Hl l eq_refl). unfold token_loop. rewrite <- Hl.
  destruct (allM_iff (token_valid n b) (fun i => forall x, l !! i = Some x -> (0 <= x < n)%Z) (seq 0 (length l)))
    as (t & -> & Ht).
  - intros i [_ Hi]%elem_of_seq. destruct (lookup_lt_is_Some_2 l i) as [x Hx]; [lia|].
    unfold token_valid, token_get. rewrite E; simpl. rewrite (vec_get_Some _ _ _ Hx). simpl.
    eexists; split; [done|]. rewrite negb_true_iff, orb_false_iff, Z.ltb_ge, Z.leb_gt. naive_solver lia.
  - exists t. split; [done|]. pose proof (Forall_seq_lookup (fun x => 0 <= x < n)%Z l). naive_solver.
Qed.

Lemma seq_ids_valid_spec e k n b ids pos :
  input_wf e k b ids pos -> 0 < n ->
  exists t, seq_ids_valid n b = Ok t /\ (t = true <-> in_range n ids).
Proof.
  intros Hb Hn. pose proof (in_owners _ _ _ _ _ Hb) as Ho. unfold seq_ids_valid.
  destruct (b_seq_id b) as [l|] eqn:E.
  - destruct Ho as [-> Hns]. assert (token_loop b = seq 0 (length ids)) as ->
      by (unfold token_loop; by rewrite (in_n _ _ _ _ _ Hb), Nat2Z.id).
    enough (exists t, allM (fun i => n0 ← n_seq_at b i; allM (seq_id_valid n b i) (seq 0 (Z.to_nat n0)))
      (seq 0 (length ids)) = Ok t /\ (t = true <-> Forall (fun i => forall l, ids !! i = Some l ->
        Forall (fun x => 0 <= x < Z.of_nat n)%Z l) (seq 0 (length ids)))) as (t & -> & Ht)
      by (exists t; split; [done|]; rewrite Ht; symmetry; apply Forall_seq_lookup).
    apply allM_iff.
    intros i [_ Hi]%elem_of_seq. destruct (lookup_lt_is_Some_2 ids i) as [l Hl]; [lia|].
    unfold n_seq_at. rewrite Hns; simpl. rewrite (vec_get_Some _ _ (Z.of_nat (length l)))
      by (by rewrite list_lookup_fmap, Hl). simpl. rewrite Nat2Z.id.
    destruct (allM_iff (seq_id_valid n b i) (fun s => forall x, l !! s = Some x -> (0 <= x < Z.of_nat n)%Z)
      (seq 0 (length l))) as (t & -> & Ht).
    + intros s [_ Hs]%elem_of_seq. destruct (lookup_lt_is_Some_2 l s) as [x Hx]; [lia|].
      unfold seq_id_valid, seq_id_at. rewrite E; simpl. rewrite (vec_get_Some _ _ _ Hl); simpl.
      rewrite (vec_get_Some _ _ _ Hx); simpl. eexists; split; [done|].
      rewrite negb_true_iff, orb_false_iff, Z.ltb_ge, Z.leb_gt. naive_solver lia.
    + exists t. split; [done|]. pose proof (Forall_seq_lookup (fun x => 0 <= x < Z.of_nat n)%Z l). naive_solver.
  - destruct Ho as [Hids _]. exists true. split; [done|]. split; [|done]. intros _. unfold in_range. rewrite Hids.
    apply Forall_replicate. constructor; [lia | constructor].
Qed.

(** ** Fields left out *)

Lemma gen_fields_filled e k b ids pos :
  input_wf e k b ids pos ->
  exists b', gen_pos None 0 (gen_seq_id (gen_n_seq_id b)) = Ok b' /\ filled b' ids pos /\
    (forall memory n, gen_pos memory n (gen_seq_id (gen_n_seq_id b)) = Ok b') /\
    b_token b' = b_token b /\ b_embd b' = b_embd b /\ b_logits b' = b_logits b.
Proof.
  intros Hb. pose proof (in_owners _ _ _ _ _ Hb) as Ho.
  assert (b_pos (gen_seq_id (gen_n_seq_id b)) = Some pos) as Hp
    by (unfold gen_seq_id, gen_n_seq_id; rewrite <- (in_pos _ _ _ _ _ Hb); by repeat case_match).
  exists (gen_seq_id (gen_n_seq_id b)). unfold gen_pos. rewrite Hp. split; [done|]. split; [|split; [done|]].
  - pose proof (in_n _ _ _ _ _ Hb) as Hn.
    assert ((fun l : list Z => Z.of_nat (length l)) <$> replicate (length ids) [0%Z] = replicate (length ids) 1%Z) as Er
      by (by rewrite fmap_replicate).
    split; [| | |done|by apply in_pos_len in Hb|by apply in_ne in Hb].
    + rewrite <- Hn. unfold gen_seq_id, gen_n_seq_id. by repeat case_match.
    + unfold gen_seq_id, gen_n_seq_id. destruct (b_n_seq_id b) as [ns|], (b_seq_id b) as [l|] eqn:E; simpl;
        rewrite ?E; simpl; rewrite ?E, ?Hn, ?Nat2Z.id; destruct Ho as [Hids Ho]; congruence.
    + unfold gen_seq_id, gen_n_seq_id.
      destruct (b_n_seq_id b) as [ns|] eqn:En, (b_seq_id b) as [l|] eqn:E; simpl;
        rewrite ?E; simpl; rewrite ?En, ?Hn, ?Nat2Z.id; destruct Ho as [Hids Ho]; try congruence;
        destruct Ho as [Ho | Ho]; congruence.
  - unfold gen_seq_id, gen_n_seq_id. by repeat case_match.
Qed.

Definition has_logits (b : llama_batch) (n : nat) : Prop := exists l, b_logits b = Some l /\ length l = n.

Lemma gen_logits_spec output_all b ids pos :
  filled b ids pos -> 0 < length ids -> (forall l, b_logits b = Some l -> length l = length ids) ->
  exists b', gen_logits output_all b = Ok b' /\ filled b' ids pos /\ has_logits b' (length ids) /\
    b_token b' = b_token b /\ b_embd b' = b_embd b.
Proof.
  intros Hb Hpos Hl. pose proof (fl_n _ _ _ Hb) as Hn.
  assert (forall l, length l = length ids -> filled (with_logits l b) ids pos /\
    has_logits (with_logits l b) (length ids)) as Hw.
  { intros l El. destruct Hb. split; [by split | by exists l]. }
  unfold gen_logits. rewrite Hn, Nat2Z.id. destruct (b_logits b) as [l|] eqn:E.
  - specialize (Hl l eq_refl). destruct output_all; [|exists b; split_and!; try done; by exists l].
    destruct (foldM_seq (fun w i => x ← logit_at b i; Ok (w || (x =? 0)%Z)) (fun _ _ => True) 0 (length ids) false)
      as (w & Ew & _); [done| |].
    { intros k w [_ Hk] _. destruct (lookup_lt_is_Some_2 l k) as [x Hx]; [lia|].
      unfold logit_at. rewrite E; simpl. rewrite (vec_get_Some _ _ _ Hx); simpl. eauto. }
    unfold token_loop. rewrite Hn, Nat2Z.id, Ew; simpl.
    destruct w; [|exists b; split_and!; try done; by exists l].
    eexists; split; [done|]. destruct (Hw (replicate (length ids) 1%Z)); [apply length_replicate|].
    done.
  - destruct output_all; simpl.
    + eexists; split; [done|]. destruct (Hw (replicate (length ids) 1%Z)); [apply length_replicate | done].
    + rewrite (vec_set_Some _ _ 0%Z) by (apply lookup_replicate; split; [done | lia]); simpl.
      eexists; split; [done|].
      destruct (Hw (<[length ids - 1 := 1%Z]> (replicate (length ids) 0%Z)));
        [by rewrite length_insert, length_replicate | done].
Qed.

Lemma count_outputs_spec b ids pos :
  filled b ids pos -> has_logits b (length ids) -> exists n, count_outputs b = Ok n.
Proof.
  intros Hb (l & E & Hl). unfold count_outputs. rewrite (filled_loop _ _ _ Hb).
  destruct (foldM_seq (fun n i => x ← logit_at b i; Ok (if (x =? 0)%Z then n else n + 1)) (fun _ _ => True)
    0 (length ids) 0) as (w & Ew & _); [done| |by eauto].
  intros k w [_ Hk] _. destruct (lookup_lt_is_Some_2 l k) as [x Hx]; [lia|].
  unfold logit_at. rewrite E; simpl. rewrite (vec_get_Some _ _ _ Hx); simpl. eauto.
Qed.

(** ** Coupled sequences *)

Abbreviation couple_state := (bool * list (gset Z) * list (list bool))%type.

Record noted (st : couple_state) (P : nat -> gset Z) (C : nat -> nat -> Prop) (h : Prop) : Prop := {
  nt_cpl : st.1.1 = true <-> h;
  nt_pos_len : length st.1.2 = LLAMA_MAX_SEQ;
  nt_pos : forall s, s < LLAMA_MAX_SEQ -> st.1.2 !! s = Some (P s);
  nt_cpl_len : length st.2 = LLAMA_MAX_SEQ;
  nt_row : forall s1, s1 < LLAMA_MAX_SEQ -> exists row, st.2 !! s1 = Some row /\ length row = LLAMA_MAX_SEQ /\
             forall s0 c, row !! s0 = Some c -> (c = true <-> C s1 s0)
}.

Lemma noted_ext st P P' (C C' : nat -> nat -> Prop) (h h' : Prop) :
  (forall s, s < LLAMA_MAX_SEQ -> P s = P' s) ->
  (forall s1 s0, s1 < LLAMA_MAX_SEQ -> s0 < LLAMA_MAX_SEQ -> C s1 s0 <-> C' s1 s0) -> (h <-> h') ->
  noted st P C h -> noted st P' C' h'.
Proof.
  intros HP HC Hh [H1 H2 H3 H4 H5]. split; try done.
  - by rewrite H1.
  - intros s Hs. by rewrite <- HP, H3.
  - intros s1 Hs1. destruct (H5 s1 Hs1) as (row & E & El & Hr). exists row. split_and!; try done.
    intros s0 c Hc. rewrite (Hr s0 c Hc). apply HC; [done|]. apply lookup_lt_Some in Hc. lia.
Qed.

Lemma arr_get_Z {A} (v : list A) s a : v !! s = Some a -> arr_get v (Z.of_nat s) = Ok a.
Proof.
  intros H. unfold arr_get. rewrite (proj2 (Z.ltb_ge _ _)), Nat2Z.id by lia. by apply vec_get_Some.
Qed.

Lemma arr_set_Z {A} (v : list A) s (a : A) : s < length v -> arr_set v (Z.of_nat s) a = Ok (<[s := a]> v).
Proof.
  intros [b Hb]%lookup_lt_is_Some_2. unfold arr_set. rewrite (proj2 (Z.ltb_ge _ _)), Nat2Z.id by lia.
  by apply (vec_set_Some _ _ b).
Qed.

Lemma arr_get_nn {A} (v : list A) x a : (0 <= x)%Z -> v !! Z.to_nat x = Some a -> arr_get v x = Ok a.
Proof. intros Hx H. rewrite <- (Z2Nat.id x) by lia. by apply arr_get_Z. Qed.

Lemma arr_set_nn {A} (v : list A) x (a : A) :
  (0 <= x)%Z -> Z.to_nat x < length v -> arr_set v x a = Ok (<[Z.to_nat x := a]> v).
Proof. intros Hx H. rewrite <- (Z2Nat.id x) at 1 by lia. by apply arr_set_Z. Qed.

Lemma note_seq_spec p s0 j s1 st P (C : nat -> nat -> Prop) (h : Prop) :
  s0 < LLAMA_MAX_SEQ -> s1 < LLAMA_MAX_SEQ -> noted st P C h ->
  exists st', note_seq p (Z.of_nat s0) st (j, Z.of_nat s1) = Ok st' /\
    noted st' (fun s => if decide (s = s1) then {[p]} ∪ P s else P s)
      (fun a b => C a b \/ (0 < j /\ a = s1 /\ b = s0)) (h \/ 0 < j).
Proof.
  intros Hs0 Hs1 [H1 H2 H3 H4 H5]. destruct st as [[hc sp] cpl]; simpl in *.
  rewrite (arr_get_Z _ _ _ (H3 s1 Hs1)); simpl. rewrite arr_set_Z by lia; simpl.
  assert (forall s, s < LLAMA_MAX_SEQ ->
    <[s1 := {[p]} ∪ P s1]> sp !! s = Some (if decide (s = s1) then {[p]} ∪ P s else P s)) as HP.
  { intros s Hs. destruct (decide (s = s1)) as [-> | Hne]; [apply list_lookup_insert_eq; lia|].
    rewrite list_lookup_insert_ne by done. by apply H3. }
  destruct (0 <? j) eqn:Ej; bprop.
  - destruct (H5 s1 Hs1) as (row & Er & El & Hr). unfold couple.
    rewrite (arr_get_Z _ _ _ Er); simpl. rewrite arr_set_Z by lia; simpl. rewrite arr_set_Z by lia; simpl.
    eexists; split; [done|]. split; simpl; [naive_solver | by rewrite length_insert | done | by rewrite length_insert |].
    intros s Hs. destruct (decide (s = s1)) as [-> | Hne].
    + eexists. split; [apply list_lookup_insert_eq; lia|]. split; [by rewrite length_insert|].
      intros s0' c Hc. destruct (decide (s0' = s0)) as [-> | Hne0].
      * rewrite list_lookup_insert_eq in Hc by lia. naive_solver.
      * rewrite list_lookup_insert_ne in Hc by done. rewrite (Hr _ _ Hc). naive_solver.
    + rewrite list_lookup_insert_ne by done. destruct (H5 s Hs) as (row' & Er' & El' & Hr').
      exists row'. split_and!; try done. intros s0' c Hc. rewrite (Hr' _ _ Hc). naive_solver.
  - eexists; split; [done|]. split; simpl; [| by rewrite length_insert | done | done |].
    + rewrite H1. split; [by left | intros [? | ?]; [done | lia]].
    + intros s Hs. destruct (H5 s Hs) as (row' & Er' & El' & Hr'). exists row'. split_and!; try done.
      intros s0' c Hc. rewrite (Hr' _ _ Hc). split; [by left | intros [? | ?]; [done | lia]].
Qed.

(** [s1] follows [s0] in the sequence ids of some token. *)
Definition coupled (ids : list (list Z)) (s1 s0 : nat) : Prop :=
  exists i rest, ids !! i = Some (Z.of_nat s0 :: rest) /\ Z.of_nat s1 ∈ rest.

Definition pos_set_of (l : list (list Z * Z)) (s : nat) : gset Z := list_to_set (owned_pos (Z.of_nat s) l).

Lemma note_token_spec b ids pos i l p st P (C : nat -> nat -> Prop) (h : Prop) :
  filled b ids pos -> ids !! i = Some l -> pos !! i = Some p ->
  Forall (fun x => 0 <= x < Z.of_nat LLAMA_MAX_SEQ)%Z l -> noted st P C h ->
  exists st', note_token b st i = Ok st' /\
    noted st' (fun s => if decide (Z.of_nat s ∈ l) then {[p]} ∪ P s else P s)
      (fun a c => C a c \/ exists rest, l = Z.of_nat c :: rest /\ Z.of_nat a ∈ rest) (h \/ 1 < length l).
Proof.
  intros Hb Hi Hp Hl Hst. unfold note_token.
  destruct (filled_first _ _ _ Hb i l Hi) as (z0 & Hz0 & E0). rewrite E0; simpl.
  rewrite (filled_token_ids _ _ _ Hb i l Hi); simpl.
  destruct (filled_pos _ _ _ Hb i) as (p' & Hp' & ->); [by eapply lookup_lt_Some|]. simplify_eq; simpl.
  pose proof (Forall_lookup_1 _ _ _ _ Hl Hz0) as Hr0; simpl in Hr0.
  destruct l as [|z0' rest]; [done|]; simpl in Hz0; injection Hz0 as ->.
  destruct (foldM_indexed (note_seq p z0)
    (fun k st => noted st (fun s => if decide (Z.of_nat s ∈ take k (z0 :: rest)) then {[p]} ∪ P s else P s)
      (fun a c => C a c \/ (Z.of_nat c = z0 /\ exists j, 0 < j < k /\ (z0 :: rest) !! j = Some (Z.of_nat a)))
      (h \/ 1 < k)) (z0 :: rest) st) as (st' & Est & Hst').
  - eapply noted_ext; [| | |exact Hst]; simpl.
    + done.
    + intros a c _ _. split; [by left | intros [? | (_ & j & ? & _)]; [done | lia]].
    + split; [by left | intros [? | ?]; [done | lia]].
  - intros k x st1 Hk Hst1. pose proof (Forall_lookup_1 _ _ _ _ Hl Hk) as Hx; simpl in Hx.
    destruct (note_seq_spec p (Z.to_nat z0) k (Z.to_nat x) st1 _ _ _ ltac:(lia) ltac:(lia) Hst1) as (st2 & E2 & H2).
    rewrite !Z2Nat.id in E2 by lia. exists st2. split; [done|].
    rewrite Nat.add_1_r, (take_S_r _ _ _ Hk).
    eapply noted_ext; [| | |exact H2]; simpl.
    + intros s _. destruct (decide (s = Z.to_nat x)) as [-> | Hne].
      * rewrite Z2Nat.id by lia. rewrite (decide_True (P := x ∈ take k (z0 :: rest) ++ [x])) by set_solver.
        destruct (decide _); [set_solver | done].
      * assert (Z.of_nat s <> x) by lia.
        destruct (decide (Z.of_nat s ∈ take k (z0 :: rest))), (decide (Z.of_nat s ∈ take k (z0 :: rest) ++ [x]));
          set_solver.
    + intros a c _ _. split.
      * intros [[? | (? & j & Hj & E)] | (Hk0 & -> & ->)].
        -- by left.
        -- right. split; [done|]. exists j. split; [lia | done].
        -- right. split; [lia|]. exists k. split; [lia|]. by rewrite Hk, Z2Nat.id by lia.
      * intros [? | (Hc & j & Hj & E)]; [by left; left|].
        destruct (decide (j = k)) as [-> | Hne]; [right | left; right; split; [done|]; exists j; split; [lia | done]].
        rewrite Hk in E. injection E as ->. split; [lia|]. split; [by rewrite Nat2Z.id | lia].
    + split; [intros [[? | ?] | ?] | intros [? | ?]]; first [by left; left | by left | right; lia].
  - exists st'. split; [exact Est|]. eapply noted_ext; [| | |exact Hst'].
    + intros s _. by rewrite take_ge by done.
    + intros a c _ _. split; (intros [? | H]; [by left | right]).
      * destruct H as (<- & [|j] & Hj & E); [lia|]. exists rest. split; [done|]. simpl in E.
        by eapply list_elem_of_lookup_2.
      * destruct H as (rest' & E & Ha). injection E as <- ->. split; [done|].
        apply list_elem_of_lookup in Ha as [j Hj]. exists (S j). split; [|done].
        apply lookup_lt_Some in Hj. simpl. lia.
    + done.
Qed.

Definition multi (ids : list (list Z)) : Prop := exists l, l ∈ ids /\ 1 < length l.

Lemma pos_set_of_snoc zs l p s :
  pos_set_of (zs ++ [(l, p)]) s = if decide (Z.of_nat s ∈ l) then {[p]} ∪ pos_set_of zs s else pos_set_of zs s.
Proof.
  unfold pos_set_of. rewrite owned_pos_app, owned_pos_cons, list_to_set_app_L.
  destruct (decide _); simpl; set_solver.
Qed.

Lemma find_coupled_spec b ids pos a :
  filled b ids pos -> in_range LLAMA_MAX_SEQ ids -> a_batch a = b ->
  noted (a_has_cpl a, a_seq_pos a, a_seq_cpl a) (fun _ => ∅) (fun _ _ => False) (a_has_cpl a = true) ->
  exists hc sp cpl, find_coupled a = Ok (set_cpl hc sp cpl a) /\
    noted (hc, sp, cpl) (pos_set_of (zip ids pos)) (coupled ids) (multi ids).
Proof.
  intros Hb Hr Ha Ht. unfold find_coupled. rewrite Ha, (filled_loop _ _ _ Hb).
  destruct (foldM_seq (note_token b)
    (fun k st => noted st (pos_set_of (take k (zip ids pos))) (coupled (take k ids)) (multi (take k ids)))
    0 (length ids) (false, a_seq_pos a, a_seq_cpl a)) as ([[hc sp] cpl] & E & Hst).
  - destruct Ht as [_ ? ? ? ?]. eapply (noted_ext _ (fun _ => ∅) _ (fun _ _ => False) _ False); [done| | |by split].
    + intros s1 s0 _ _. split; [done|]. by intros (i & rest & E & _).
    + split; [done|]. by intros (l & Hl%elem_of_nil & _).
  - intros k st Hk Hst. destruct (lookup_lt_is_Some_2 ids k) as [l Hl]; [lia|].
    destruct (filled_pos _ _ _ Hb k) as (p & Hp & _); [lia|].
    destruct (note_token_spec b ids pos k l p st _ _ _ Hb Hl Hp (Forall_lookup_1 _ _ _ _ Hr Hl) Hst)
      as (st' & E & Hst').
    exists st'. split; [done|]. rewrite (take_S_zip _ _ _ _ _ Hl Hp), Nat.add_1_r, (take_S_r _ _ _ Hl).
    assert (length (take k ids) = k) as Hlen by (rewrite length_take; lia).
    eapply noted_ext; [| | |exact Hst'].
    + intros s _. by rewrite pos_set_of_snoc.
    + intros s1 s0 _ _. unfold coupled. split.
      * intros [(i & rest & Ei & Hs) | (rest & -> & Hs)].
        -- exists i, rest. split; [|done]. apply lookup_app_l_Some. done.
        -- exists k, rest. split; [|done]. by rewrite list_lookup_middle by done.
      * intros (i & rest & Ei & Hs). apply lookup_app_Some in Ei as [Ei | [Hi Ei]]; [left; eauto|].
        right. rewrite Hlen in Ei. destruct (i - k) eqn:Eik; simplify_eq/=. eauto.
    + unfold multi. split.
      * intros [(l' & Hl' & ?) | ?]; [exists l' | exists l]; set_solver.
      * intros (l' & [Hl' | ->%list_elem_of_singleton]%elem_of_app & ?); eauto.
  - rewrite E; simpl. exists hc, sp, cpl. split; [done|]. simpl in Hst.
    rewrite take_ge, (take_ge ids) in Hst; [done | done |].
    by rewrite (filled_zip_length b) by done.
Qed.

(** ** Sequence sets *)

Definition ids_set (l : list Z) : gset nat := list_to_set (Z.to_nat <$> l).

(** The tokens whose sequence set is [S]. *)
Definition set_indices (S : gset nat) (sets : list (gset nat)) : list nat :=
  filter (fun i => sets !! i = Some S) (seq 0 (length sets)).

Definition map_ok (m : gmap (gset nat) (list nat)) (sets : list (gset nat)) : Prop :=
  forall S, default [] (m !! S) = set_indices S sets.

Lemma bits_spec l X :
  Forall (fun x => 0 <= x < Z.of_nat LLAMA_MAX_SEQ)%Z l ->
  foldM (fun X s => bit_set s X) l X = Ok (ids_set l ∪ X).
Proof.
  revert X; induction l as [|x l IH]; intros X Hl; simpl.
  - f_equal. unfold ids_set. simpl. set_solver.
  - apply Forall_cons in Hl as [Hx Hl]. unfold bit_set.
    rewrite (proj2 (Z.leb_le _ _)), (proj2 (Z.ltb_lt _ _)) by lia; simpl. rewrite IH by done.
    f_equal. unfold ids_set. simpl. set_solver.
Qed.

Lemma list_filter_ext_in {A} (P Q : A -> Prop) `{!forall x, Decision (P x), !forall x, Decision (Q x)} (l : list A) :
  (forall a, a ∈ l -> P a <-> Q a) -> filter P l = filter Q l.
Proof.
  induction l as [|a l IH]; intros HPQ; [done|]. rewrite !filter_cons, IH by (intros; apply HPQ; by right).
  pose proof (HPQ a ltac:(by left)) as Ha. destruct (decide (P a)), (decide (Q a)); naive_solver.
Qed.

Lemma set_indices_snoc S sets S' :
  set_indices S (sets ++ [S']) = set_indices S sets ++ (if decide (S' = S) then [length sets] else []).
Proof.
  unfold set_indices. rewrite length_app, seq_app, filter_app. f_equal.
  - apply list_filter_ext_in. intros i [_ Hi]%elem_of_seq. by rewrite lookup_app_l by lia.
  - simpl. rewrite filter_cons, filter_nil, list_lookup_middle by done.
    destruct (decide (Some S' = Some S)), (decide (S' = S)); try done; congruence.
Qed.

Lemma map_ok_push m sets S :
  map_ok m sets -> map_ok (push_index S (length sets) m) (sets ++ [S]).
Proof.
  intros Hm T. rewrite set_indices_snoc. unfold push_index.
  destruct (decide (S = T)) as [-> | Hne].
  - rewrite lookup_insert_eq. simpl. by rewrite Hm.
  - rewrite lookup_insert_ne by done. by rewrite Hm, app_nil_r.
Qed.

Lemma collect_unq_spec n X idx :
  n <= length idx ->
  exists idx', collect_unq n X idx = Ok (filter (fun s => s ∈ X) (seq 0 n), idx') /\ length idx' = length idx /\
    (forall k s, filter (fun s => s ∈ X) (seq 0 n) !! k = Some s -> idx' !! s = Some (Z.of_nat k)) /\
    (forall s, ~ (s < n /\ s ∈ X) -> idx' !! s = idx !! s).
Proof.
  intros Hn. unfold collect_unq.
  destruct (foldM_seq (fun '(unq, idx) s =>
      if decide (s ∈ X) then idx ← vec_set idx s (Z.of_nat (length unq)); Ok (unq ++ [s], idx) else Ok (unq, idx))
    (fun k st => st.1 = filter (fun s => s ∈ X) (seq 0 k) /\ length st.2 = length idx /\
       (forall j s, st.1 !! j = Some s -> st.2 !! s = Some (Z.of_nat j)) /\
       (forall s, ~ (s < k /\ s ∈ X) -> st.2 !! s = idx !! s)) 0 n ([], idx)) as ([unq idx'] & E & Hfin).
  - split_and!; done.
  - intros k [unq idx1] Hk (E & Hl & Hin & Hout); simpl in *.
    rewrite seq_app, filter_app; simpl. rewrite filter_cons, filter_nil.
    destruct (decide (k ∈ X)) as [Hx | Hx].
    + destruct (lookup_lt_is_Some_2 idx1 k) as [z Hz]; [lia|]. rewrite (vec_set_Some _ _ _ _ Hz); simpl.
      eexists; split; [done|]; simpl. split_and!; [by rewrite E | by rewrite length_insert | |].
      * intros j s Hj. apply lookup_app_Some in Hj as [Hj | [Hlen Hj]].
        -- assert (s < k) as Hs.
           { apply list_elem_of_lookup_2 in Hj. rewrite E in Hj.
             apply list_elem_of_filter in Hj as [_ Hj%elem_of_seq]. lia. }
           rewrite list_lookup_insert_ne by lia. by apply Hin.
        -- destruct (j - length unq) eqn:Ej; simplify_eq/=. rewrite list_lookup_insert_eq by lia.
           f_equal. lia.
      * intros s Hs. rewrite list_lookup_insert_ne by (intros ->; apply Hs; split; [lia | done]).
        apply Hout. intros [? ?]; apply Hs; split; [lia | done].
    + eexists; split; [done|]; simpl. rewrite app_nil_r. split_and!; [done | done | done |].
      intros s Hs. apply Hout. intros [? ?]; apply Hs; split; [lia | done].
  - rewrite E. simpl in Hfin. destruct Hfin as (E1 & Hl & Hin & Hout). exists idx'. rewrite <- E1. by split_and!.
Qed.

Lemma find_sets_spec b ids pos n a :
  filled b ids pos -> in_range LLAMA_MAX_SEQ ids -> a_batch a = b -> n <= LLAMA_MAX_SEQ ->
  a_seq_set a = [] -> a_seq_set_map a = ∅ -> length (a_seq_idx a) = LLAMA_MAX_SEQ ->
  exists unq idx m, find_sets n a = Ok (set_unq unq idx (set_sets (ids_set <$> ids) m a)) /\
    map_ok m (ids_set <$> ids) /\ length idx = LLAMA_MAX_SEQ.
Proof.
  intros Hb Hr Ha Hn Hs Hm Hi. unfold find_sets. rewrite Ha, Hs, Hm, (filled_loop _ _ _ Hb).
  destruct (foldM_seq (find_sets_step b)
    (fun k st => st.1.2 = ids_set <$> take k ids /\ map_ok st.2 (ids_set <$> take k ids))
    0 (length ids) (∅, [], ∅)) as ([[unq sets] m] & E & Hst1 & Hst2).
  - split; [done|]. intros S; simpl. by rewrite lookup_empty.
  - intros k [[unq sets] m] Hk [E Hmk]; simpl in *. destruct (lookup_lt_is_Some_2 ids k) as [l Hl]; [lia|].
    unfold token_set. rewrite (filled_token_ids _ _ _ Hb k l Hl); simpl.
    rewrite (bits_spec l ∅) by (by apply (Forall_lookup_1 _ _ _ _ Hr Hl)); simpl. rewrite (union_empty_r_L (ids_set l)).
    eexists; split; [done|]; simpl. rewrite Nat.add_1_r, (take_S_r _ _ _ Hl), fmap_app; simpl.
    split; [by rewrite E|]. replace k with (length (ids_set <$> take k ids)) at 1
      by (rewrite length_fmap, length_take; lia). by apply map_ok_push.
  - simpl in *. rewrite take_ge in Hst1, Hst2 by done. rewrite E; simpl.
    destruct (collect_unq_spec n unq (a_seq_idx a)) as (idx & Eu & Hl & _); [lia|].
    rewrite Eu; simpl. rewrite Hst1. eexists _, idx, m. split; [done|]. split; [done|]. lia.
Qed.

(** ** Positions *)

Lemma setZ_min m : m <> ∅ -> exists lo, head (setZ_list m) = Some lo /\ lo ∈ m /\ forall p, p ∈ m -> (lo <= p)%Z.
Proof.
  intros Hm. pose proof (setZ_list_sorted m) as Hs.
  destruct (setZ_list m) as [|lo l] eqn:E.
  - destruct Hm. apply set_eq. intros p. rewrite <- elem_of_setZ_list, E. set_solver.
  - exists lo. split; [done|]. apply StronglySorted_inv in Hs as [_ Hlo]. split.
    + rewrite <- elem_of_setZ_list, E. by left.
    + intros p. rewrite <- elem_of_setZ_list, E. intros [-> | Hp]%elem_of_cons; [lia|].
      by apply (proj1 (Forall_forall _ _) Hlo).
Qed.

Lemma setZ_max m : m <> ∅ -> exists hi, last (setZ_list m) = Some hi /\ hi ∈ m /\ forall p, p ∈ m -> (p <= hi)%Z.
Proof.
  intros Hm. pose proof (setZ_list_sorted m) as Hs.
  destruct (last (setZ_list m)) as [hi|] eqn:E.
  - exists hi. split; [done|]. split.
    + rewrite <- elem_of_setZ_list. apply last_Some in E as [l ->]. set_solver.
    + intros p. rewrite <- elem_of_setZ_list. intros Hp. by apply (StronglySorted_last Z.le (setZ_list m)).
  - apply last_None in E. destruct Hm. apply set_eq. intros p. rewrite <- elem_of_setZ_list, E. set_solver.
Qed.

(** A set of integers is an interval when it has enough elements. *)
Lemma interval_size (m : gset Z) lo hi :
  lo ∈ m -> (forall p, p ∈ m -> (lo <= p <= hi)%Z) ->
  (hi - lo + 1 <= Z.of_nat (size m))%Z <-> forall r, (lo <= r <= hi)%Z -> r ∈ m.
Proof.
  intros Hlo Hm. pose proof (Hm lo Hlo) as Hle. set (I := list_to_set (C := gset Z) (seqZ lo (hi - lo + 1))).
  assert (size I = Z.to_nat (hi - lo + 1)) as HI
    by (unfold I; by rewrite size_list_to_set, length_seqZ by apply NoDup_seqZ).
  assert (forall r, r ∈ I <-> (lo <= r <= hi)%Z) as HiI
    by (intros r; unfold I; rewrite elem_of_list_to_set, elem_of_seqZ; lia).
  split.
  - intros Hs r Hr. assert (m = I) as ->; [|by apply HiI].
    apply set_subseteq_size_eq; [intros p Hp; by apply HiI, Hm | lia].
  - intros Hall. assert (I ⊆ m) as Hsub by (intros r Hr; by apply Hall, HiI).
    apply subseteq_size in Hsub. lia.
Qed.

(** The positions of a sequence follow those in the memory. *)
Definition follows (memory : option llama_memory) (s : nat) (P : list Z) : Prop :=
  (0 <= memory_max memory s -> P <> [] ->
     memory_max memory s + 1 ∈ P /\ forall p, p ∈ P -> memory_max memory s + 1 <= p)%Z /\
  (forall p q r, p ∈ P -> q ∈ P -> p <= r <= q -> r ∈ P)%Z.

Definition follows_mrope (memory : option llama_memory) (token : bool) (s : nat) (P : list Z) : Prop :=
  (0 <= memory_max memory s -> forall p, p ∈ P ->
     if token then memory_max memory s < p else memory_max memory s <= p)%Z.

(** Values [int32_t] arithmetic on positions cannot overflow on. *)
Definition small (p : Z) : Prop := (-1073741824 <= p <= 1073741822)%Z.

Lemma check_consecutive_spec memory a s P :
  a_seq_pos a !! s = Some (list_to_set P) -> Forall small P -> small (memory_max memory s) ->
  exists t, check_consecutive memory a s = Ok t /\ (t = true <-> follows memory s P).
Proof.
  intros Hs HP HM. unfold check_consecutive, seq_pos_min, seq_pos_max.
  rewrite (vec_get_Some _ _ _ Hs); simpl. set (m := list_to_set P : gset Z) in *.
  assert (forall p, p ∈ m <-> p ∈ P) as Hm by (intros p; unfold m; apply elem_of_list_to_set).
  destruct (decide (m = ∅)) as [He | Hne].
  { exists true. split; [done|]. split; [|done]. intros _.
    assert (P = []) as -> by (apply elem_of_nil_inv; intros p Hp%Hm; rewrite He in Hp; set_solver).
    split; [done|]. intros p q r Hp%elem_of_nil; done. }
  destruct (setZ_min m Hne) as (lo & Elo & Hlo & Hmin). destruct (setZ_max m Hne) as (hi & Ehi & Hhi & Hmax).
  rewrite Elo, Ehi; simpl.
  pose proof (proj1 (Forall_forall _ _) HP lo (proj1 (Hm lo) Hlo)) as Blo.
  pose proof (proj1 (Forall_forall _ _) HP hi (proj1 (Hm hi) Hhi)) as Bhi. unfold small in *.
  assert (P <> []) as HPne by (intros ->; apply Hm in Hlo; by apply elem_of_nil in Hlo).
  set (M := memory_max memory s) in *.
  assert (exists ok, (if (0 <=? M)%Z then q ← i32 (M + 1); Ok (lo =? q)%Z else Ok true) = Ok ok /\
    (ok = true <-> (0 <= M -> lo = M + 1)%Z)) as (ok & -> & Hok).
  { destruct (0 <=? M)%Z eqn:E; bprop.
    - rewrite i32_in by (unfold INT32_MIN, INT32_MAX; lia); simpl. eexists; split; [done|].
      rewrite Z.eqb_eq. naive_solver.
    - exists true. split; [done|]. split; [intros; lia | done]. }
  simpl. rewrite !i32_in by (unfold INT32_MIN, INT32_MAX; lia). simpl.
  rewrite i32_in by (unfold INT32_MIN, INT32_MAX; lia). simpl.
  assert (follows memory s P <-> (ok = true /\ (hi - lo + 1 <= Z.of_nat (size m))%Z)) as Hiff.
  { rewrite (interval_size m lo hi Hlo) by (intros p Hp; split; auto). rewrite Hok. unfold follows. fold M. split.
    - intros [H1 H2]. split.
      + intros HM0. destruct (H1 HM0 HPne) as [Hin Hge]. apply Z.le_antisymm; [by apply Hmin, Hm | by apply Hge, Hm].
      + intros r Hr. apply Hm. by apply (H2 lo hi); [apply Hm | apply Hm | ].
    - intros [H1 H2]. split.
      + intros HM0 _. rewrite <- (H1 HM0). split; [by apply Hm|]. intros p Hp%Hm. by apply Hmin.
      + intros p q r Hp%Hm Hq%Hm Hr. apply Hm, H2. pose proof (Hmin p Hp). pose proof (Hmax q Hq). lia. }
  destruct ok; simpl.
  - eexists; split; [done|]. rewrite Hiff, negb_true_iff, Z.ltb_ge. naive_solver.
  - exists false. split; [done|]. rewrite Hiff. naive_solver.
Qed.

Lemma check_mrope_spec memory a s P :
  a_seq_pos a !! s = Some (list_to_set P) ->
  exists t, check_mrope memory a s = Ok t /\
    (t = true <-> follows_mrope memory (bool_decide (is_Some (b_token (a_batch a)))) s P).
Proof.
  intros Hs. unfold check_mrope, seq_pos_min. rewrite (vec_get_Some _ _ _ Hs); simpl.
  set (m := list_to_set P : gset Z) in *.
  assert (forall p, p ∈ m <-> p ∈ P) as Hm by (intros p; unfold m; apply elem_of_list_to_set).
  destruct (decide (m = ∅)) as [He | Hne].
  { exists true. split; [done|]. split; [|done]. intros _ _ p Hp%Hm. rewrite He in Hp. set_solver. }
  destruct (setZ_min m Hne) as (lo & Elo & Hlo & Hmin). rewrite Elo; simpl. eexists; split; [done|].
  unfold follows_mrope. set (M := memory_max memory s).
  destruct (b_token (a_batch a)); simpl; rewrite negb_true_iff, andb_false_iff, ?Z.leb_gt, ?Z.ltb_ge;
    (split; [intros H HM p Hp%Hm; specialize (Hmin p Hp); lia |
             intros H; destruct (decide (0 <= M)%Z) as [HM | ?]; [right; apply (H HM); by apply Hm | left; lia]]).
Qed.

(** ** Coupled sequences agree in the memory *)

Lemma check_coupled_spec memory n a st P C h :
  n <= LLAMA_MAX_SEQ -> noted st P C h -> a_seq_cpl a = st.2 ->
  exists t, check_coupled memory n a = Ok t /\
    (t = true <-> forall m s0 s1, memory = Some m -> s0 < n -> s1 < n -> C s0 s1 ->
       m_pos_min m s0 = m_pos_min m s1 /\ m_pos_max m s0 = m_pos_max m s1).
Proof.
  intros Hn Hst Ha. unfold check_coupled. destruct memory as [m|]; [|by exists true].
  destruct (allM_iff (fun s0 => allM (check_coupled_pair m a s0) (seq 0 n))
    (fun s0 => Forall (fun s1 => C s0 s1 -> m_pos_min m s0 = m_pos_min m s1 /\ m_pos_max m s0 = m_pos_max m s1) (seq 0 n))
    (seq 0 n)) as (t & -> & Ht).
  - intros s0 [_ Hs0]%elem_of_seq. apply allM_iff. intros s1 [_ Hs1]%elem_of_seq.
    unfold check_coupled_pair. rewrite Ha.
    destruct (nt_row _ _ _ _ Hst s0) as (row & Er & El & Hr); [lia|]. rewrite (vec_get_Some _ _ _ Er); simpl.
    destruct (lookup_lt_is_Some_2 row s1) as [c Hc]; [lia|]. rewrite (vec_get_Some _ _ _ Hc); simpl.
    specialize (Hr s1 c Hc). destruct c; [|exists true; naive_solver].
    eexists; split; [done|]. rewrite negb_true_iff, orb_false_iff, !negb_false_iff, !Z.eqb_eq. naive_solver.
  - exists t. split; [done|]. rewrite Ht, Forall_forall. split.
    + intros H m' s0 s1 [= <-] Hs0 Hs1. specialize (H s0). rewrite elem_of_seq, Forall_forall in H.
      apply (H ltac:(lia) s1). apply elem_of_seq. lia.
    + intros H s0 [_ Hs0]%elem_of_seq. apply Forall_forall. intros s1 [_ Hs1]%elem_of_seq. eapply H; eauto; lia.
Qed.

(** ** Order of the positions, and the sequence sets of one sequence *)

Lemma Sorted_cons2 q p l : Sorted Z.le (q :: p :: l) <-> (q <= p)%Z /\ Sorted Z.le (p :: l).
Proof.
  split; [intros H; apply Sorted_inv in H as [Hs Hh]; by apply HdRel_inv in Hh |
          intros [H1 H2]; by constructor; [|constructor]].
Qed.

(** The intersection kept for a sequence always has the sequence itself. *)
Definition self_in (n : nat) (sets : list (gset nat)) : Prop :=
  length sets = n /\ forall s X, sets !! s = Some X -> s ∈ X.

Lemma check_order_ids_spec n T p l sets poss :
  Forall (fun x => 0 <= x < Z.of_nat n /\ Z.to_nat x ∈ T)%Z l -> self_in n sets -> length poss = n ->
  exists r, check_order_ids T p l (sets, poss) = Ok r /\
    ((r = None /\ exists s q, Z.of_nat s ∈ l /\ poss !! s = Some q /\ (p < q)%Z) \/
     (exists sets' poss', r = Some (sets', poss') /\ self_in n sets' /\ length poss' = n /\
        (forall s q, Z.of_nat s ∈ l -> poss !! s = Some q -> (q <= p)%Z) /\
        forall s, s < n -> poss' !! s = if decide (Z.of_nat s ∈ l) then Some p else poss !! s)).
Proof.
  revert sets poss; induction l as [|x l IH]; intros sets poss Hl Hself Hlen; simpl.
  { eexists; split; [done|]. right. eexists _, _. split_and!; try done. by intros s q ?%elem_of_nil. }
  apply Forall_cons in Hl as [[Hx HT] Hl]. destruct Hself as [Hsl Hself].
  destruct (lookup_lt_is_Some_2 sets (Z.to_nat x)) as [X HX]; [lia|].
  destruct (lookup_lt_is_Some_2 poss (Z.to_nat x)) as [q Hq]; [lia|].
  rewrite (arr_get_nn sets x X) by (done || lia); simpl. rewrite (arr_set_nn sets) by lia; simpl.
  rewrite decide_False by (pose proof (Hself _ _ HX); set_solver).
  rewrite (arr_get_nn poss x q) by (done || lia); simpl. destruct (p <? q)%Z eqn:E; bprop.
  { eexists; split; [done|]. left. split; [done|]. exists (Z.to_nat x), q. rewrite Z2Nat.id by lia.
    split_and!; [by left | done | done]. }
  rewrite arr_set_nn by lia; simpl.
  destruct (IH (<[Z.to_nat x := X ∩ T]> sets) (<[Z.to_nat x := p]> poss) Hl) as (r & -> & Hr).
  - split; [by rewrite length_insert|]. intros s Y HY. apply list_lookup_insert_Some in HY as [(<- & <- & _) | [_ HY]].
    + pose proof (Hself _ _ HX). set_solver.
    + by apply Hself.
  - by rewrite length_insert.
  - assert (forall s q', s <> Z.to_nat x -> <[Z.to_nat x := p]> poss !! s = Some q' <-> poss !! s = Some q') as Hne
      by (intros s q' Hs; by rewrite list_lookup_insert_ne by done).
    eexists; split; [done|]. destruct Hr as [(-> & s & q' & Hs & Hq' & Hlt) | (sets' & poss' & -> & Hs' & Hl' & Hle & Hp')].
    + left. split; [done|]. destruct (decide (s = Z.to_nat x)) as [-> | Hsx].
      * rewrite list_lookup_insert_eq in Hq' by lia. simplify_eq. lia.
      * exists s, q'. rewrite <- Hne by done. split_and!; [by right | done | done].
    + right. exists sets', poss'. split_and!; try done.
      * intros s q' Hs Hq'. destruct (decide (s = Z.to_nat x)) as [-> | Hsx]; [by simplify_eq|].
        apply elem_of_cons in Hs as [Hs | Hs]; [lia|]. apply (Hle s q' Hs). by apply Hne.
      * intros s Hs. rewrite (Hp' s Hs). destruct (decide (s = Z.to_nat x)) as [-> | Hsx].
        -- rewrite list_lookup_insert_eq by lia. rewrite Z2Nat.id by lia.
           rewrite (decide_True (P := x ∈ x :: l)) by (by left). by destruct (decide _).
        -- rewrite list_lookup_insert_ne by done. assert (Z.of_nat s <> x) by lia.
           destruct (decide (Z.of_nat s ∈ l)), (decide (Z.of_nat s ∈ x :: l)); set_solver.
Qed.

Section order.
Context (a : llama_batch_allocr) (ids : list (list Z)) (pos : list Z) (n : nat).
Context (Hb : filled (a_batch a) ids pos) (Hr : in_range n ids) (Hset : a_seq_set a = ids_set <$> ids).

Lemma check_order_loop_spec m k sets poss :
  k + m = length ids -> self_in n sets -> length poss = n ->
  exists t, check_order_loop a (seq k m) (sets, poss) = Ok t /\
    (t = true <-> forall s q, poss !! s = Some q ->
       Sorted Z.le (q :: owned_pos (Z.of_nat s) (drop k (zip ids pos)))).
Proof using Type*.
  revert k sets poss; induction m as [|m IH]; intros k sets poss Hk Hself Hlen; simpl.
  { exists true. split; [done|]. split; [|done]. intros _ s q _.
    rewrite drop_ge by (rewrite (filled_zip_length (a_batch a)) by done; lia). repeat constructor. }
  destruct (lookup_lt_is_Some_2 ids k) as [l Hl]; [lia|].
  destruct (filled_pos _ _ _ Hb k) as (p & Hp & ->); [lia|]; simpl.
  rewrite (filled_token_ids _ _ _ Hb k l Hl); simpl. rewrite Hset.
  rewrite (vec_get_Some _ _ (ids_set l)) by (by rewrite list_lookup_fmap, Hl); simpl.
  rewrite (drop_S (zip ids pos) (l, p) k) by (by apply filled_zip).
  destruct (check_order_ids_spec n (ids_set l) p l sets poss) as (r & -> & Hcase); [|done|done|]; simpl.
  { apply Forall_forall. intros x Hx. split.
    - by apply (proj1 (Forall_forall _ _) (Forall_lookup_1 _ _ _ _ Hr Hl)).
    - unfold ids_set. apply elem_of_list_to_set, list_elem_of_fmap. eauto. }
  destruct Hcase as [(-> & s & q & Hs & Hq & Hlt) | (sets' & poss' & -> & Hs' & Hl' & Hle & Hp')].
  - exists false. split; [done|]. split; [done|]. intros H. specialize (H s q Hq).
    rewrite owned_pos_cons, decide_True in H by done. apply Sorted_cons2 in H as [H _]. lia.
  - destruct (IH (S k) sets' poss' ltac:(lia) Hs' Hl') as (t & Et & Ht). exists t. split; [done|]. rewrite Ht. split.
    + intros H s q Hq. assert (s < n) as Hsn by (apply lookup_lt_Some in Hq; lia). rewrite owned_pos_cons.
      specialize (Hp' s Hsn). destruct (decide (Z.of_nat s ∈ l)) as [Hin | Hin]; simpl.
      * apply Sorted_cons2. split; [by apply (Hle s) | by apply H].
      * apply H. by rewrite Hp'.
    + intros H s q Hq. assert (s < n) as Hsn by (apply lookup_lt_Some in Hq; lia).
      rewrite (Hp' s Hsn) in Hq. destruct (decide (Z.of_nat s ∈ l)) as [Hin | Hin].
      * simplify_eq. destruct (lookup_lt_is_Some_2 poss s) as [q0 Hq0]; [lia|].
        specialize (H s q0 Hq0). rewrite owned_pos_cons, decide_True in H by done. by apply Sorted_cons2 in H as [_ H].
      * specialize (H s q Hq). by rewrite owned_pos_cons, decide_False in H by done.
Qed.

Lemma check_order_spec :
  n <= LLAMA_MAX_SEQ ->
  exists t, check_order n a = Ok t /\
    (t = true <-> forall s, s < n -> Sorted Z.le ((-1)%Z :: owned_pos (Z.of_nat s) (zip ids pos))).
Proof using Type*.
  intros Hn. unfold check_order. rewrite (filled_loop _ _ _ Hb).
  destruct (check_order_loop_spec (length ids) 0 (replicate n all_bits) (replicate n (-1)%Z)) as (t & -> & Ht);
    [done| |by rewrite length_replicate|].
  - split; [apply length_replicate|]. intros s X HX. apply lookup_replicate in HX as [-> Hs].
    unfold all_bits. apply elem_of_list_to_set, elem_of_seq_ids. lia.
  - exists t. split; [done|]. rewrite Ht. setoid_rewrite lookup_replicate. rewrite drop_0. naive_solver.
Qed.
End order.

(** ** [init] *)

(** What makes a batch acceptable. *)
Definition batch_valid (n_vocab : Z) (memory : option llama_memory) (n_seq_max n_pos : nat)
    (b : llama_batch) (ids : list (list Z)) (pos : list Z) : Prop :=
  n_seq_max <= LLAMA_MAX_SEQ /\
  (forall l, b_token b = Some l -> Forall (fun x => 0 <= x < n_vocab)%Z l) /\
  in_range n_seq_max ids /\
  (forall s, s < n_seq_max ->
     let P := owned_pos (Z.of_nat s) (zip ids pos) in
     Sorted Z.le ((-1)%Z :: P) /\
     if 1 <? n_pos then follows_mrope memory (bool_decide (is_Some (b_token b))) s P else follows memory s P) /\
  (forall m s0 s1, memory = Some m -> s0 < n_seq_max -> s1 < n_seq_max -> coupled ids s0 s1 ->
     m_pos_min m s0 = m_pos_min m s1 /\ m_pos_max m s0 = m_pos_max m s1).

(** The arrays of the class have one element per sequence id. *)
Record shaped (a : llama_batch_allocr) : Prop := {
  sh_idx : length (a_seq_idx a) = LLAMA_MAX_SEQ;
  sh_pos : length (a_seq_pos a) = LLAMA_MAX_SEQ;
  sh_cpl : length (a_seq_cpl a) = LLAMA_MAX_SEQ;
  sh_row : Forall (fun r => length r = LLAMA_MAX_SEQ) (a_seq_cpl a)
}.

(** A batch the splits can be called on. *)
Record ready (a : llama_batch_allocr) (ids : list (list Z)) (pos : list Z) : Prop := {
  rd_batch : filled (a_batch a) ids pos;
  rd_some : 0 < length ids;
  rd_max : a_n_seq_max a <= LLAMA_MAX_SEQ;
  rd_range : in_range (a_n_seq_max a) ids;
  rd_logits : has_logits (a_batch a) (length ids);
  rd_token : forall l, b_token (a_batch a) = Some l -> length l = length ids;
  rd_embd : forall l, b_embd (a_batch a) = Some l -> length l = length ids * a_n_embd a;
  rd_mrope : b_token (a_batch a) = None -> length ids * a_n_pos_per_embd a <= length pos;
  rd_sets : a_seq_set a = ids_set <$> ids;
  rd_map : map_ok (a_seq_set_map a) (a_seq_set a);
  rd_cpl : a_has_cpl a = true <-> multi ids
}.

(** Which tokens are used up, and how many. *)
Definition used_ok (a : llama_batch_allocr) (n : nat) : Prop :=
  length (a_used a) = n /\ a_n_used a = cnt id (a_used a).

Lemma new_allocr_shaped n : shaped (new_allocr n).
Proof.
  split; simpl; rewrite ?length_replicate; try done. by apply Forall_replicate, length_replicate.
Qed.

Lemma lookup_map {A B} (f : A -> B) l i : map f l !! i = f <$> l !! i.
Proof. revert i; induction l as [|x l IH]; intros [|i]; [done|done|done|apply IH]. Qed.

Lemma clear_noted a b :
  shaped a -> let c := set_batch b (clear a) in
  noted (a_has_cpl c, a_seq_pos c, a_seq_cpl c) (fun _ => ∅) (fun _ _ => False) (a_has_cpl c = true).
Proof.
  intros [H1 H2 H3 H4]. split; simpl; rewrite ?length_map; try done.
  - intros s Hs. destruct (lookup_lt_is_Some_2 (a_seq_pos a) s) as [m Hm]; [lia|]. by rewrite lookup_map, Hm.
  - intros s1 Hs1. destruct (lookup_lt_is_Some_2 (a_seq_cpl a) s1) as [row Hrow]; [lia|].
    exists (map (fun _ => false) row). rewrite length_map, (Forall_lookup_1 _ _ _ _ H4 Hrow).
    split_and!; [|done|].
    + by rewrite lookup_map, Hrow.
    + intros s0 c Hc. rewrite lookup_map in Hc. destruct (row !! s0); by simplify_eq/=.
Qed.

Lemma Forall_owned (P : Z -> Prop) s ids pos : Forall P pos -> Forall P (owned_pos s (zip ids pos)).
Proof.
  intros H. apply Forall_forall. intros p Hp%elem_of_owned_pos. destruct Hp as ([l q] & Hx & _ & <-).
  apply elem_of_zip_r in Hx. by apply (proj1 (Forall_forall _ _) H).
Qed.

(** What the statistics of a batch are. *)
Record stats (a : llama_batch_allocr) (b : llama_batch) (n_embd n_seq_max n_pos : nat)
    (ids : list (list Z)) (pos : list Z) : Prop := {
  sa_batch : a_batch a = b;
  sa_n_pos : a_n_pos_per_embd a = n_pos;
  sa_n_embd : a_n_embd a = n_embd;
  sa_max : a_n_seq_max a = n_seq_max;
  sa_sets : a_seq_set a = ids_set <$> ids;
  sa_map : map_ok (a_seq_set_map a) (a_seq_set a);
  sa_noted : noted (a_has_cpl a, a_seq_pos a, a_seq_cpl a) (pos_set_of (zip ids pos)) (coupled ids) (multi ids)
}.

Lemma compute_stats_spec b ids pos n_embd n_seq_max a inp :
  filled b ids pos -> has_logits b (length ids) -> in_range n_seq_max ids -> n_seq_max <= LLAMA_MAX_SEQ -> shaped a ->
  exists a', compute_stats b n_embd n_seq_max (set_batch inp (clear a)) = Ok a' /\
    stats a' b n_embd n_seq_max (a_n_pos_per_embd a) ids pos.
Proof.
  intros Hb Hlog Hr Hn Hsh. unfold compute_stats.
  assert (in_range LLAMA_MAX_SEQ ids) as Hr'.
  { eapply Forall_impl; [exact Hr|]. intros l Hl. eapply Forall_impl; [exact Hl|]. simpl. lia. }
  destruct (count_outputs_spec b ids pos Hb Hlog) as (n_out & ->). cbn [mbind outcome_bind].
  pose proof (clear_noted a b Hsh) as Hc. pose proof (sh_idx _ Hsh) as Hi.
  remember (set_stats n_embd n_seq_max n_out (set_batch b (set_batch inp (clear a)))) as c eqn:Ec.
  assert (noted (a_has_cpl c, a_seq_pos c, a_seq_cpl c) (fun _ => ∅) (fun _ _ => False) (a_has_cpl c = true)) as Hc'
    by (rewrite Ec; exact Hc).
  destruct (find_coupled_spec b ids pos c Hb Hr' ltac:(by rewrite Ec) Hc') as (hc & sp & cpl & -> & Hnt).
  cbn [mbind outcome_bind].
  assert (length (a_seq_idx c) = LLAMA_MAX_SEQ) as Hic by (rewrite Ec; simpl; by rewrite length_map).
  destruct (find_sets_spec b ids pos n_seq_max (set_cpl hc sp cpl c) Hb Hr')
    as (unq & idx & m & -> & Hm & Hidx); try (by rewrite Ec); [done | done |].
  eexists. split; [done|]. split; simpl; try (by rewrite Ec); done.
Qed.

(** The checks that follow the statistics. *)
Lemma check_consistency_spec memory n a b n_embd n_pos ids pos :
  stats a b n_embd n n_pos ids pos ->
  filled b ids pos -> in_range n ids -> n <= LLAMA_MAX_SEQ ->
  Forall small pos -> (forall s, small (memory_max memory s)) ->
  exists t, check_consistency memory n a = Ok t /\
    (t = true <->
     (forall s, s < n ->
        let P := owned_pos (Z.of_nat s) (zip ids pos) in
        Sorted Z.le ((-1)%Z :: P) /\
        if 1 <? n_pos
        then follows_mrope memory (bool_decide (is_Some (b_token b))) s P else follows memory s P) /\
     (forall m s0 s1, memory = Some m -> s0 < n -> s1 < n -> coupled ids s0 s1 ->
        m_pos_min m s0 = m_pos_min m s1 /\ m_pos_max m s0 = m_pos_max m s1)).
Proof.
  intros Hs Hb Hr Hn Hpos Hmem. pose proof (sa_noted _ _ _ _ _ _ _ Hs) as Hnt.
  pose proof (sa_batch _ _ _ _ _ _ _ Hs) as <-. pose proof (sa_n_pos _ _ _ _ _ _ _ Hs) as <-.
  pose proof (sa_sets _ _ _ _ _ _ _ Hs) as Hset.
  assert (exists t1, check_positions memory n a = Ok t1 /\ (t1 = true <-> Forall (fun s =>
    if 1 <? a_n_pos_per_embd a
    then follows_mrope memory (bool_decide (is_Some (b_token (a_batch a)))) s (owned_pos (Z.of_nat s) (zip ids pos))
    else follows memory s (owned_pos (Z.of_nat s) (zip ids pos))) (seq 0 n))) as (t1 & E1 & H1).
  { unfold check_positions. destruct (1 <? a_n_pos_per_embd a); apply allM_iff; intros s [_ Hsn]%elem_of_seq;
      pose proof (nt_pos _ _ _ _ Hnt s ltac:(lia)) as Hl.
    - by apply check_mrope_spec.
    - apply check_consecutive_spec; [done | by apply Forall_owned | done]. }
  destruct (check_coupled_spec memory n a _ _ _ _ Hn Hnt eq_refl) as (t2 & E2 & H2).
  destruct (check_order_spec a ids pos n Hb Hr Hset Hn) as (t3 & E3 & H3).
  exists (t1 && (t2 && t3)). split.
  - unfold check_consistency. rewrite E1, E2, E3. by destruct t1, t2, t3.
  - rewrite !andb_true_iff, H1, H2, H3, Forall_forall. setoid_rewrite elem_of_seq. split.
    + intros (Ha & Hc & Ho). split; [|done]. intros s Hsn. split; [by apply Ho | apply Ha; lia].
    + intros (Ha & Hc). split; [|split; [done|]]; intros s Hsn; [apply Ha; lia | by apply Ha].
Qed.

(** [init] returns, with the answer [batch_valid] gives. *)
Lemma init_spec n_vocab memory n_embd n_seq_max output_all a inp ids pos :
  shaped a -> input_wf n_embd (a_n_pos_per_embd a) inp ids pos -> 0 < n_seq_max ->
  Forall small pos -> (forall s, small (memory_max memory s)) ->
  exists ok a', init inp n_vocab memory n_embd n_seq_max output_all a = Ok (ok, a') /\
    (ok = true <-> batch_valid n_vocab memory n_seq_max (a_n_pos_per_embd a) inp ids pos) /\
    (ok = true -> ready a' ids pos /\ used_ok a' (length ids) /\ a_used a' = replicate (length ids) false).
Proof.
  intros Hsh Hin Hn0 Hpos Hmem. unfold init, batch_valid.
  rewrite assert_true by (apply Z.ltb_lt; rewrite (in_n _ _ _ _ _ Hin); pose proof (in_some _ _ _ _ _ Hin); lia).
  cbn [mbind outcome_bind]. destruct (LLAMA_MAX_SEQ <? n_seq_max) eqn:EM; bprop.
  { exists false. eexists. split; [done|]. split; [|done]. split; [done | intros (? & _); lia]. }
  destruct (tokens_valid_spec n_vocab inp) as (t & -> & Ht).
  { intros l Hl. rewrite (in_n _ _ _ _ _ Hin), Nat2Z.id. by apply (in_token _ _ _ _ _ Hin). }
  cbn [mbind outcome_bind]. destruct t; cbn [negb]; [|exists false; eexists; split; [done|]; naive_solver].
  destruct (seq_ids_valid_spec _ _ n_seq_max _ _ _ Hin Hn0) as (t & -> & Hr).
  cbn [mbind outcome_bind]. destruct t; cbn [negb]; [|exists false; eexists; split; [done|]; naive_solver].
  pose proof (proj1 Hr eq_refl) as Hrange.
  destruct (gen_fields_filled _ _ _ _ _ Hin) as (b1 & _ & Hb1 & Egen & Et1 & Ee1 & El1). rewrite Egen.
  cbn [mbind outcome_bind].
  destruct (gen_logits_spec output_all b1 ids pos Hb1 (in_some _ _ _ _ _ Hin)) as (b & -> & Hb & Hlog & Et & Ee).
  { intros l. rewrite El1. apply (in_logits _ _ _ _ _ Hin). }
  cbn [mbind outcome_bind].
  destruct (compute_stats_spec b ids pos n_embd n_seq_max a inp Hb Hlog Hrange EM Hsh) as (a1 & -> & Hs).
  cbn [mbind outcome_bind].
  destruct (check_consistency_spec memory _ a1 b _ _ ids pos Hs Hb Hrange EM Hpos Hmem) as (t & -> & Hall).
  cbn [mbind outcome_bind]. destruct Hs as [Hs1 Hs2 Hs3 Hs4 Hs5 Hs6 Hs7].
  exists t, (if t then split_reset a1 else a1). split; [by destruct t|]. split.
  - rewrite Hall. rewrite Et, Et1. naive_solver.
  - intros ->. assert (get_n_tokens a1 = length ids) as Hlen
      by (unfold get_n_tokens; by rewrite Hs1, (fl_n _ _ _ Hb), Nat2Z.id).
    split; [|split; [split|]]; simpl; rewrite ?Hlen, ?length_replicate; try done.
    + split; simpl; rewrite ?Hs1, ?Hs2, ?Hs3, ?Hs4, ?Et, ?Et1, ?Ee, ?Ee1; try done.
      * apply (in_some _ _ _ _ _ Hin).
      * apply (in_token _ _ _ _ _ Hin).
      * apply (in_embd _ _ _ _ _ Hin).
      * apply (in_mrope _ _ _ _ _ Hin).
      * apply (nt_cpl _ _ _ _ Hs7).
    + symmetry. apply cnt_zero. by intros x [-> _]%elem_of_replicate.
Qed.

(** The sequence sets of the tokens are not a condition of [batch_valid]: the
    intersection the code keeps for a sequence always has that sequence in it. *)

(** C36: [init] on a well-formed batch with given positions and an allocator in any
    previous state always returns, and it returns [true] exactly for the valid
    batches: at most 256 sequences, tokens in the vocabulary, sequence ids in
    range, and for every sequence positions that never decrease from -1 and
    (one position per token) form an interval starting right after the memory's
    last one, or (M-RoPE) start after it; coupled sequences have the same extent
    in the memory.  There is no further condition on the sequence sets: the test
    for incompatible sets never rejects.  When it returns [true] the allocator is
    ready for the splits with every token unused. *)
Theorem init_accepts_valid n_vocab memory n_embd n_seq_max output_all a inp ids pos :
  shaped a -> input_wf n_embd (a_n_pos_per_embd a) inp ids pos -> 0 < n_seq_max ->
  Forall small pos -> (forall s, small (memory_max memory s)) ->
  exists ok a', init inp n_vocab memory n_embd n_seq_max output_all a = Ok (ok, a') /\
    (ok = true <-> batch_valid n_vocab memory n_seq_max (a_n_pos_per_embd a) inp ids pos) /\
    (ok = true -> ready a' ids pos /\ used_ok a' (length ids) /\ a_used a' = replicate (length ids) false).
Proof. apply init_spec. Qed.

(** The batch the comment in [init] calls invalid: token 0 belongs to sequences 0, 1
    and 2, token 1 to 0 and 1, token 2 to 1 and 2. *)
Definition demo_ids : list (list Z) := [[0; 1; 2]; [0; 1]; [1; 2]]%Z.
Definition demo_batch : llama_batch :=
  mk_batch 3 (Some [5; 6; 7]%Z) None (Some [0; 1; 1]%Z) (Some [3; 2; 2]%Z) (Some demo_ids) None.

Lemma demo_input_wf : input_wf 0 1 demo_batch demo_ids [0; 1; 1]%Z.
Proof.
  split; simpl; try done; try lia.
  - by repeat constructor.
  - by intros l [= <-].
Qed.

Lemma init_accepts_valid_witness :
  exists a', init demo_batch 10 None 0 4 false (new_allocr 1) = Ok (true, a') /\
    ready a' demo_ids [0; 1; 1]%Z /\ used_ok a' 3.
Proof.
  destruct (init_accepts_valid 10 None 0 4 false (new_allocr 1) demo_batch demo_ids [0; 1; 1]%Z)
    as (ok & a' & E & _ & Hok).
  - apply new_allocr_shaped.
  - apply demo_input_wf.
  - lia.
  - repeat constructor; unfold small; lia.
  - intros s. unfold small. simpl. lia.
  - assert (match init demo_batch 10 None 0 4 false (new_allocr 1) with Ok (t, _) => t | Err _ => false end = true) as Et
      by (vm_compute; reflexivity).
    rewrite E in Et. subst ok. destruct (Hok eq_refl) as (Hr & Hu & _). exists a'. split; [exact E|]. split; [exact Hr|].
    exact Hu.
Defined.
