(* ===== verification/BatchSplit.v ===== *)
(** * Splitting a batch

    What a ubatch contains ([ubatch_add]), what each split takes, and that calling
    a split until it returns an empty ubatch cuts the batch into ubatches with
    every token in exactly one of them.  A split is used through the interface
    [Splitter]; the loop over it is the one of [llama_kv_cache::init_batch]. *)

From S2P Require Import KvCells.
From S2P Require Export BatchInit.

(** ** The content of a ubatch *)

(** Row [i] of [u] is token [k] of the batch. *)
Definition row_of (a : llama_batch_allocr) (ids : list (list Z)) (pos : list Z) (u : llama_ubatch) (i k : nat) : Prop :=
  u_seq_id u !! i = ids !! k /\
  u_n_seq_id u !! i = (fun l => Z.of_nat (length l)) <$> ids !! k /\
  (forall l, b_logits (a_batch a) = Some l -> u_output u !! i = l !! k) /\
  (forall l, b_token (a_batch a) = Some l -> exists l', u_token u = Some l' /\ l' !! i = l !! k) /\
  (forall e, b_embd (a_batch a) = Some e -> exists e', u_embd u = Some e' /\
     take (a_n_embd a) (drop (i * a_n_embd a) e') = take (a_n_embd a) (drop (k * a_n_embd a) e)) /\
  (forall j, j < a_n_pos_per_embd a ->
     u_pos u !! (j * u_n_tokens u + i) =
       pos !! (match b_token (a_batch a) with Some _ => k | None => j * length ids + k end)).

(** [u] is made of the tokens [idxs], in that order. *)
Record ubatch_of (a : llama_batch_allocr) (ids : list (list Z)) (pos : list Z) (idxs : list nat) (u : llama_ubatch) : Prop := {
  uo_n : u_n_tokens u = length idxs;
  uo_pos : u_n_pos u = a_n_pos_per_embd a;
  uo_row : forall i k, idxs !! i = Some k -> row_of a ids pos u i k;
  uo_len : length (u_seq_id u) = length idxs;
  uo_unq : StronglySorted lt (u_seq_id_unq u);
  uo_mem : forall s, s ∈ u_seq_id_unq u <-> exists l, l ∈ u_seq_id u /\ Z.of_nat s ∈ l;
  uo_n_unq : u_n_seqs_unq u = length (u_seq_id_unq u);
  uo_idx : forall j s, u_seq_id_unq u !! j = Some s -> u_seq_idx u !! s = Some (Z.of_nat j)
}.

(** Row [j] of rows of equal length. *)
Lemma concat_lookup {A} (rows : list (list A)) n j i row :
  Forall (fun r => length r = n) rows -> rows !! j = Some row -> i < n ->
  concat rows !! (j * n + i) = row !! i.
Proof.
  revert j; induction rows as [|r rows IH]; intros j Hl Hj Hi; [done|].
  apply Forall_cons in Hl as [Hr Hl]. destruct j as [|j]; simpl in *.
  - injection Hj as ->. by rewrite lookup_app_l by lia.
  - rewrite lookup_app_r by lia. rewrite <- (IH j Hl Hj Hi). f_equal. lia.
Qed.

Lemma concat_row {A} (rows : list (list A)) n j row :
  Forall (fun r => length r = n) rows -> rows !! j = Some row ->
  take n (drop (j * n) (concat rows)) = row.
Proof.
  revert j; induction rows as [|r rows IH]; intros j Hl Hj; [done|].
  apply Forall_cons in Hl as [Hr Hl]. destruct j as [|j]; simpl in *.
  - injection Hj as ->. rewrite drop_0, <- Hr. by rewrite take_app_length.
  - rewrite drop_app_ge by lia. replace (n + j * n - length r) with (j * n) by lia. by apply IH.
Qed.

Section ubatch_add.
Context (a : llama_batch_allocr) (ids : list (list Z)) (pos : list Z) (Ha : ready a ids pos).
Context (idxs : list nat) (Hidx : Forall (fun k => k < length ids) idxs).

Lemma idx_lt k : k ∈ idxs -> k < length ids.
Proof using Hidx. apply (proj1 (Forall_forall _ _) Hidx). Qed.

Definition ids_at (k : nat) : list Z := default [] (ids !! k).

Lemma ids_at_lookup k : k ∈ idxs -> ids !! k = Some (ids_at k).
Proof using Hidx.
  intros Hk%idx_lt. unfold ids_at. by destruct (lookup_lt_is_Some_2 ids k Hk) as [l ->].
Qed.

Lemma gather_token l : b_token (a_batch a) = Some l ->
  mapM (vec_get l) idxs = Ok ((fun k => default 0%Z (l !! k)) <$> idxs).
Proof using Ha Hidx.
  intros Hl. apply mapM_Ok. intros k Hk%idx_lt. rewrite <- (rd_token _ _ _ Ha l Hl) in Hk.
  apply lookup_lt_is_Some_2 in Hk as [x Hx]. rewrite (vec_get_Some _ _ _ Hx). by rewrite Hx.
Qed.

Lemma gather_embd e : b_embd (a_batch a) = Some e ->
  mapM (fun idx => slice e (idx * a_n_embd a) (a_n_embd a)) idxs =
  Ok ((fun k => take (a_n_embd a) (drop (k * a_n_embd a) e)) <$> idxs).
Proof using Ha Hidx.
  intros He. apply mapM_Ok. intros k Hk%idx_lt. unfold slice. rewrite (proj2 (Nat.leb_le _ _)); [done|].
  rewrite (rd_embd _ _ _ Ha e He). nia.
Qed.

(** Where position [j] of token [k] is in the batch. *)
Definition pos_src (j k : nat) : nat :=
  match b_token (a_batch a) with Some _ => k | None => j * length ids + k end.

Lemma pos_src_lt j k : j < a_n_pos_per_embd a -> k < length ids -> pos_src j k < length pos.
Proof using Ha.
  intros Hj Hk. unfold pos_src. pose proof (fl_pos_len _ _ _ (rd_batch _ _ _ Ha)). destruct (b_token (a_batch a)) eqn:E; [lia|].
  pose proof (rd_mrope _ _ _ Ha E). nia.
Qed.

Lemma gather_pos_row j : j < a_n_pos_per_embd a ->
  gather_pos (a_batch a) idxs j = Ok ((fun k => default 0%Z (pos !! pos_src j k)) <$> idxs).
Proof using Ha Hidx.
  intros Hj. unfold gather_pos. apply mapM_Ok. intros k Hk%idx_lt.
  pose proof (pos_src_lt j k Hj Hk) as Hlt. apply lookup_lt_is_Some_2 in Hlt as [p Hp]. rewrite Hp. simpl.
  pose proof (rd_batch _ _ _ Ha) as Hb. unfold pos_at. rewrite (fl_pos _ _ _ Hb); simpl. apply vec_get_Some.
  rewrite <- Hp. unfold pos_src. f_equal. rewrite (fl_n _ _ _ Hb), Nat2Z.id. by destruct (b_token (a_batch a)).
Qed.

Lemma gather_n_seq : mapM (n_seq_at (a_batch a)) idxs = Ok ((fun k => Z.of_nat (length (ids_at k))) <$> idxs).
Proof using Ha Hidx.
  apply mapM_Ok. intros k Hk. apply (filled_n_seq _ _ _ (rd_batch _ _ _ Ha)). by apply ids_at_lookup.
Qed.

Lemma gather_seq_id : mapM (token_ids (a_batch a)) idxs = Ok (ids_at <$> idxs).
Proof using Ha Hidx.
  apply mapM_Ok. intros k Hk. apply (filled_token_ids _ _ _ (rd_batch _ _ _ Ha)). by apply ids_at_lookup.
Qed.

Lemma gather_output l : b_logits (a_batch a) = Some l -> length l = length ids ->
  mapM (logit_at (a_batch a)) idxs = Ok ((fun k => default 0%Z (l !! k)) <$> idxs).
Proof using Hidx.
  intros Hl Hn. apply mapM_Ok. intros k Hk%idx_lt. rewrite <- Hn in Hk. unfold logit_at. rewrite Hl; simpl.
  apply lookup_lt_is_Some_2 in Hk as [x Hx]. rewrite (vec_get_Some _ _ _ Hx). by rewrite Hx.
Qed.

Lemma ids_at_range k : k ∈ idxs -> Forall (fun x => 0 <= x < Z.of_nat (a_n_seq_max a))%Z (ids_at k).
Proof using Ha Hidx. intros Hk. apply (Forall_lookup_1 _ _ k _ (rd_range _ _ _ Ha)). by apply ids_at_lookup. Qed.

Lemma ids_range_wide : Forall (fun x => 0 <= x < Z.of_nat LLAMA_MAX_SEQ)%Z (concat (ids_at <$> idxs)).
Proof using Ha Hidx.
  apply Forall_concat, Forall_fmap, Forall_forall. intros k Hk. eapply Forall_impl; [by apply ids_at_range|].
  pose proof (rd_max _ _ _ Ha). simpl. lia.
Qed.
End ubatch_add.

Lemma filter_seq_sorted (P : nat -> Prop) `{!forall x, Decision (P x)} i n :
  StronglySorted lt (filter P (seq i n)).
Proof.
  revert i; induction n as [|n IH]; intros i; simpl; [constructor|]. rewrite filter_cons.
  destruct (decide (P i)); [|done]. constructor; [done|].
  apply Forall_forall. intros j [_ Hj%elem_of_seq]%list_elem_of_filter. lia.
Qed.

Lemma elem_of_concat {A} (x : A) ls : x ∈ concat ls <-> exists l, x ∈ l /\ l ∈ ls.
Proof.
  rewrite list_elem_of_In, in_concat. split; intros (l & H1 & H2); exists l; by rewrite !list_elem_of_In in *.
Qed.

(** [ubatch_add] on tokens of a ready batch: the ubatch, and the output ids it appends. *)
Lemma ubatch_add_spec a ids pos idxs n_seqs eq :
  ready a ids pos -> Forall (fun k => k < length ids) idxs -> 0 < n_seqs -> length idxs mod n_seqs = 0 ->
  exists u out, ubatch_add idxs n_seqs eq a = Ok (u, set_split (a_out_ids a ++ out) (a_n_used a) (a_used a) a) /\
    ubatch_of a ids pos idxs u /\ u_equal_seqs u = eq /\ u_n_seqs u = n_seqs /\
    u_n_seq_tokens u = length idxs / n_seqs /\
    (forall l, b_logits (a_batch a) = Some l -> out = filter (fun k => l !! k <> Some 0%Z) idxs).
Proof.
  intros Ha Hi Hn Hmod. unfold ubatch_add.
  rewrite (proj2 (Nat.eqb_neq n_seqs 0)), Hmod by lia. cbn [negb require_ assert_ mbind outcome_bind Nat.eqb].
  destruct (rd_logits _ _ _ Ha) as (l & El & Hl). pose proof (rd_batch _ _ _ Ha) as Hb.
  assert (exists tok, (match b_token (a_batch a) with
    | Some l => fmap Some (mapM (vec_get l) idxs) | None => Ok None end) = Ok tok /\
    forall l, b_token (a_batch a) = Some l -> tok = Some ((fun k => default 0%Z (l !! k)) <$> idxs)) as (tok & -> & Htok).
  { destruct (b_token (a_batch a)) as [lt|] eqn:E; [|by eexists].
    rewrite (gather_token a ids pos Ha idxs Hi lt E). simpl. eexists; split; [done|]. by intros l' [= <-]. }
  assert (exists emb, (match b_embd (a_batch a) with
    | Some e => l ← mapM (fun idx => slice e (idx * a_n_embd a) (a_n_embd a)) idxs; Ok (Some (concat l))
    | None => Ok None end) = Ok emb /\
    forall e, b_embd (a_batch a) = Some e ->
      emb = Some (concat ((fun k => take (a_n_embd a) (drop (k * a_n_embd a) e)) <$> idxs))) as (emb & -> & Hemb).
  { destruct (b_embd (a_batch a)) as [e|] eqn:E; [|by eexists].
    rewrite (gather_embd a ids pos Ha idxs Hi e E). simpl. eexists; split; [done|]. by intros e' [= <-]. }
  cbn [mbind outcome_bind].
  rewrite (mapM_Ok (gather_pos (a_batch a) idxs)
    (fun j => (fun k => default 0%Z (pos !! pos_src a ids j k)) <$> idxs))
    by (intros j [_ Hj]%elem_of_seq; by apply (gather_pos_row a ids pos)).
  cbn [mbind outcome_bind].
  rewrite (gather_n_seq a ids pos Ha idxs Hi), (gather_output a ids idxs Hi l El Hl), (gather_seq_id a ids pos Ha idxs Hi).
  cbn [mbind outcome_bind].
  rewrite (bits_spec _ _ (ids_range_wide a ids pos Ha idxs Hi)). cbn [mbind outcome_bind].
  set (U := ids_set _ ∪ ∅).
  destruct (collect_unq_spec (a_n_seq_max a) U (replicate LLAMA_MAX_SEQ (-1)%Z)) as (idx & -> & _ & Hidx & _);
    [rewrite length_replicate; by apply (rd_max _ _ _ Ha)|]. cbn [mbind outcome_bind fst snd].
  eexists _, _. split; [done|]. split_and!; try done.
  - split; simpl; try done.
    + intros i k Hk. pose proof (Forall_lookup_1 _ _ _ _ Hi Hk) as Hlt; simpl in Hlt.
      pose proof (list_elem_of_lookup_2 _ _ _ Hk) as Hin. unfold row_of; simpl.
      pose proof (ids_at_lookup ids idxs Hi k Hin) as Eids. split_and!.
      * by rewrite list_lookup_fmap, Hk, Eids.
      * by rewrite list_lookup_fmap, Hk, Eids.
      * intros l' El'. rewrite El in El'. injection El' as <-. rewrite list_lookup_fmap, Hk. simpl.
        destruct (lookup_lt_is_Some_2 l k) as [x ->]; [lia | done].
      * intros l' El'. eexists; split; [by apply Htok|]. rewrite list_lookup_fmap, Hk. simpl.
        destruct (lookup_lt_is_Some_2 l' k) as [x ->]; [by rewrite (rd_token _ _ _ Ha l' El') | done].
      * intros e Ee. eexists; split; [by apply Hemb|].
        apply concat_row; [|by rewrite list_lookup_fmap, Hk].
        apply Forall_fmap, Forall_forall. intros k' Hk'. pose proof (idx_lt ids idxs Hi k' Hk'). simpl.
        rewrite length_take, length_drop, (rd_embd _ _ _ Ha e Ee). nia.
      * intros j Hj.
        rewrite (concat_lookup _ (length idxs) j i ((fun k => default 0%Z (pos !! pos_src a ids j k)) <$> idxs)).
        -- rewrite list_lookup_fmap, Hk. simpl. change (match b_token (a_batch a) with Some _ => k | None => j * length ids + k end)
             with (pos_src a ids j k).
           pose proof (pos_src_lt a ids pos Ha j k Hj Hlt) as Hs. by apply lookup_lt_is_Some_2 in Hs as [p ->].
        -- apply Forall_fmap, Forall_forall. intros j' _. simpl. apply length_fmap.
        -- rewrite list_lookup_fmap, lookup_seq_lt by lia. done.
        -- by eapply lookup_lt_Some.
    + apply length_fmap.
    + apply filter_seq_sorted.
    + intros s. rewrite list_elem_of_filter, elem_of_seq. unfold U, ids_set.
      rewrite union_empty_r_L, elem_of_list_to_set, list_elem_of_fmap.
      split.
      * intros [(x & -> & Hx) Hs]. apply elem_of_concat in Hx as (k & Hk & Hx). exists k. split; [done|].
        apply list_elem_of_fmap in Hx as (k' & -> & Hk'). pose proof (ids_at_range a ids pos Ha idxs Hi k' Hk') as Hr.
        pose proof (proj1 (Forall_forall _ _) Hr _ Hk) as Hrx. simpl in Hrx. by rewrite Z2Nat.id by lia.
      * intros (k & Hk & Hs). apply list_elem_of_fmap in Hk as (k' & -> & Hk').
        pose proof (ids_at_range a ids pos Ha idxs Hi k' Hk') as Hr.
        pose proof (proj1 (Forall_forall _ _) Hr _ Hs) as Hrs. simpl in Hrs. split; [|lia].
        exists (Z.of_nat s). split; [by rewrite Nat2Z.id|]. apply elem_of_concat. eexists; split; [exact Hs|].
        apply list_elem_of_fmap. eauto.
  - intros l' El'. rewrite El in El'. injection El' as <-. clear -Hi Hl.
    induction idxs as [|k idxs IH]; [done|]. apply Forall_cons in Hi as [Hk Hi]. simpl. rewrite filter_cons.
    destruct (lookup_lt_is_Some_2 l k) as [x Hx]; [lia|]. rewrite Hx at 1. simpl.
    destruct (Z.eqb_spec x 0) as [-> | Hne]; simpl.
    + rewrite decide_False by congruence. by apply IH.
    + rewrite decide_True by congruence. simpl. f_equal. by apply IH.
Qed.

(** ** Marking tokens used *)

(** [u'] is [u] with the tokens [idxs] marked. *)
Definition marks (idxs : list nat) (u u' : list bool) : Prop :=
  length u' = length u /\
  forall i, i < length u -> u' !! i = if decide (i ∈ idxs) then Some true else u !! i.

Definition count_ok (st : list bool * nat) : Prop := st.2 = cnt id st.1.

Lemma marks_nil u : marks [] u u.
Proof. split; [done|]. intros i _. by rewrite decide_False by set_solver. Qed.

Lemma marks_ext l l' u u' : (forall i, i ∈ l <-> i ∈ l') -> marks l u u' -> marks l' u u'.
Proof.
  intros H [Hl Hm]. split; [done|]. intros i Hi. rewrite (Hm i Hi).
  destruct (decide (i ∈ l)), (decide (i ∈ l')); naive_solver.
Qed.

Lemma marks_app l l' u u' u'' : marks l u u' -> marks l' u' u'' -> marks (l ++ l') u u''.
Proof.
  intros [Hl Hm] [Hl' Hm']. split; [lia|]. intros i Hi. rewrite Hm' by lia. rewrite (Hm i Hi).
  destruct (decide (i ∈ l)), (decide (i ∈ l')), (decide (i ∈ l ++ l')); set_solver.
Qed.

Lemma mark_spec l u st i :
  marks l u st.1 -> count_ok st -> u !! i = Some false -> i ∉ l ->
  exists st', mark st i = Ok st' /\ marks (l ++ [i]) u st'.1 /\ count_ok st'.
Proof.
  intros Hm Hc Hi Hn. pose proof (lookup_lt_Some _ _ _ Hi) as Hlt. destruct Hm as [Hl Hm].
  assert (st.1 !! i = Some false) as Hf by (by rewrite (Hm i Hlt), decide_False).
  unfold mark. rewrite (vec_set_Some _ _ _ _ Hf); simpl. eexists; split; [done|]. split.
  - apply (marks_app l [i] u st.1); [done|]. split; simpl; [by rewrite length_insert|]. intros j Hj.
    destruct (decide (j = i)) as [-> | Hne].
    + rewrite list_lookup_insert_eq by lia. by rewrite decide_True by set_solver.
    + rewrite list_lookup_insert_ne by done. by rewrite decide_False by set_solver.
  - unfold count_ok in *; simpl. pose proof (cnt_insert id st.1 i false true Hf) as E. simpl in E. lia.
Qed.

(** ** The interface of a split *)

Definition unused (a : llama_batch_allocr) (i : nat) : Prop := a_used a !! i = Some false.

(** The tokens of one sequence set are used in order. *)
Definition in_order (a : llama_batch_allocr) : Prop :=
  forall i j, i < j -> j < length (a_seq_set a) -> a_seq_set a !! i = a_seq_set a !! j ->
    a_used a !! j = Some true -> a_used a !! i = Some true.

(** A split takes unused tokens of the batch, at least one if there is one. *)
Class Splitter (split : llama_batch_allocr -> outcome (llama_ubatch * llama_batch_allocr))
    (ids : list (list Z)) (pos : list Z) (inv : llama_batch_allocr -> Prop) : Prop := {
  split_done : forall a, ready a ids pos -> used_ok a (length ids) -> inv a ->
    (forall i, ~ unused a i) -> split a = Ok (no_ubatch, a);
  split_takes : forall a, ready a ids pos -> used_ok a (length ids) -> inv a ->
    (exists i, unused a i) ->
    exists idxs u a' out, split a = Ok (u, a') /\ a' = set_split out (a_n_used a') (a_used a') a /\
      idxs <> [] /\ NoDup idxs /\ (forall i, i ∈ idxs -> unused a i) /\
      marks idxs (a_used a) (a_used a') /\ used_ok a' (length ids) /\ inv a' /\ ubatch_of a ids pos idxs u /\
      (forall S, StronglySorted lt (filter (fun i => a_seq_set a !! i = Some S) idxs));
  split_in_order : forall a, inv a -> in_order a
}.

(** The splits do not change what [ready] says. *)
Lemma ready_set_split out n u a ids pos : ready a ids pos -> ready (set_split out n u a) ids pos.
Proof. intros []. by split. Qed.

Lemma ubatch_of_set_split out n u a ids pos idxs ub :
  ubatch_of (set_split out n u a) ids pos idxs ub <-> ubatch_of a ids pos idxs ub.
Proof. split; intros []; by split. Qed.

(** ** [split_simple] *)

(** The used tokens come first. *)
Definition prefix_used (a : llama_batch_allocr) : Prop :=
  forall i j, i < j -> a_used a !! j = Some true -> a_used a !! i = Some true.

Lemma first_unused_spec u :
  (forall i, i < first_unused u -> u !! i = Some true) /\ first_unused u <= length u /\
  (first_unused u < length u -> u !! first_unused u = Some false).
Proof.
  induction u as [|b u (IH1 & IH2 & IH3)]; simpl; [split_and!; [intros; lia | lia | lia]|].
  destruct b; simpl.
  - split_and!; [intros [|i] Hi; [done | apply IH1; lia] | lia | intros; apply IH3; lia].
  - split_and!; [intros; lia | lia | done].
Qed.

Lemma first_unused_done a : first_unused (a_used a) >= length (a_used a) <-> forall i, ~ unused a i.
Proof.
  pose proof (first_unused_spec (a_used a)) as (H1 & H2 & H3). unfold unused. split.
  - intros H i Hi. pose proof (lookup_lt_Some _ _ _ Hi). rewrite H1 in Hi by lia. done.
  - intros H. destruct (decide (first_unused (a_used a) < length (a_used a))) as [Hlt | ?]; [|lia].
    by destruct (H _ (H3 Hlt)).
Qed.

Lemma simple_loop_spec n u m acc fuel cur st :
  (forall i, cur <= i < length u -> u !! i = Some false) -> cur + m = length u -> 0 < m -> m <= fuel ->
  (forall i, i ∈ acc -> i < cur) -> marks acc u st.1 -> count_ok st ->
  exists k st', simple_loop fuel n cur acc st = Ok (acc ++ seq cur k, st') /\
    0 < k <= m /\ k <= Nat.max 1 (n - length acc) /\ marks (acc ++ seq cur k) u st'.1 /\ count_ok st'.
Proof.
  revert acc cur st fuel; induction m as [|m IH]; intros acc cur st fuel Hun Hlen Hm Hf Hacc Hmk Hc; [lia|].
  destruct fuel as [|fuel]; [lia|]. simpl.
  destruct (mark_spec acc u st cur Hmk Hc) as (st1 & -> & Hmk1 & Hc1);
    [apply Hun; lia | intros H%Hacc; lia |]. simpl.
  destruct Hmk1 as [Hl1 Hmk1]. rewrite Hl1. destruct (length u <=? cur + 1) eqn:E1; bprop.
  { exists 1, st1. split_and!; [done | lia | lia | lia | by split | done]. }
  destruct (n <=? length (acc ++ [cur])) eqn:E2; bprop; rewrite length_app in E2; simpl in E2.
  { exists 1, st1. split_and!; [done | lia | lia | lia | by split | done]. }
  destruct (IH (acc ++ [cur]) (cur + 1) st1 fuel) as (k & st' & -> & Hk & Hk' & Hmk' & Hc'); try lia; try done.
  - intros i Hi. apply Hun. lia.
  - intros i [Hi%Hacc | ->%list_elem_of_singleton]%elem_of_app; lia.
  - exists (S k), st'. rewrite length_app in Hk'. simpl in Hk'. rewrite <- app_assoc in *. simpl in *.
    replace (cur + 1) with (S cur) in * by lia. split_and!; [done | lia | lia | lia | done | done].
Qed.

(** [split_simple] takes the next tokens, at most [n_ubatch] of them. *)
Lemma split_simple_spec n a ids pos :
  ready a ids pos -> used_ok a (length ids) -> prefix_used a -> (exists i, unused a i) ->
  exists k u a' out, let cur := first_unused (a_used a) in
    split_simple n a = Ok (u, a') /\ a' = set_split out (a_n_used a') (a_used a') a /\
    0 < k <= Nat.max 1 n /\ cur + k <= length ids /\
    marks (seq cur k) (a_used a) (a_used a') /\ used_ok a' (length ids) /\ ubatch_of a ids pos (seq cur k) u.
Proof.
  intros Ha [Hl Hc] Hp [i Hi]. simpl. unfold split_simple.
  pose proof (first_unused_spec (a_used a)) as (H1 & H2 & H3).
  set (cur := first_unused (a_used a)) in *.
  assert (cur < length (a_used a)) as Hlt.
  { destruct (decide (cur < length (a_used a))); [done|]. pose proof (lookup_lt_Some _ _ _ Hi).
    unfold unused in Hi. rewrite H1 in Hi by lia. done. }
  rewrite (proj2 (Nat.leb_gt _ _)) by done.
  destruct (simple_loop_spec n (a_used a) (length (a_used a) - cur) [] (length (a_used a)) cur (a_used a, a_n_used a))
    as (k & st & -> & Hk & Hk' & Hmk & Hct); try lia; try done.
  - intros j Hj. destruct (lookup_lt_is_Some_2 (a_used a) j) as [b Hb]; [lia|]. destruct b; [|done].
    destruct (decide (j = cur)) as [-> | ?]; [by rewrite H3 in Hb |].
    rewrite (Hp cur j) in H3; [by specialize (H3 Hlt) | lia | done].
  - by intros j ?%elem_of_nil.
  - simpl in *. rewrite length_seq.
    set (a1 := set_split (a_out_ids a) st.2 st.1 a).
    destruct (ubatch_add_spec a1 ids pos (seq cur k) k false) as (u & out & E & Hu & _).
    + by apply ready_set_split.
    + apply Forall_forall. intros j Hj%elem_of_seq. lia.
    + lia.
    + rewrite length_seq. apply Nat.Div0.mod_same.
    + rewrite E. exists k, u, (set_split (a_out_ids a1 ++ out) (a_n_used a1) (a_used a1) a1), (a_out_ids a ++ out).
      split_and!; try done; try lia.
      * destruct Hmk as [Hml _]. split; simpl; [lia | exact Hct].
      * unfold a1 in Hu. by rewrite ubatch_of_set_split in Hu.
Qed.

#[export] Instance split_simple_splitter n ids pos : Splitter (split_simple n) ids pos prefix_used.
Proof.
  split.
  - intros a _ _ _ Hd%first_unused_done. unfold split_simple. by rewrite (proj2 (Nat.leb_le _ _)) by lia.
  - intros a Ha Hu Hp Hex. pose proof (proj1 Hu) as Hlu.
    destruct (split_simple_spec n a ids pos Ha Hu Hp Hex) as (k & u & a' & out & E & Ea & Hk & Hle & Hmk & Hu' & Hub).
    pose proof (first_unused_spec (a_used a)) as (H1 & H2 & H3). set (cur := first_unused (a_used a)) in *.
    assert (forall j, cur <= j < length (a_used a) -> unused a j) as Hun.
    { intros j Hj. unfold unused. destruct (lookup_lt_is_Some_2 (a_used a) j) as [b Hb]; [lia|]. destruct b; [|done].
      destruct (decide (j = cur)) as [-> | ?]; [rewrite H3 in Hb by lia; done|].
      rewrite (Hp cur j) in H3; [by specialize (H3 ltac:(lia)) | lia | done]. }
    exists (seq cur k), u, a', out. split_and!; try done.
    + destruct k; [lia | done].
    + apply NoDup_seq.
    + intros i Hi%elem_of_seq. apply Hun. lia.
    + destruct Hmk as [Hml Hmk]. intros i j Hij Hj. pose proof (lookup_lt_Some _ _ _ Hj). 
      rewrite Hmk by lia. rewrite Hmk in Hj by lia. destruct (decide (i ∈ seq cur k)) as [|Hni]; [done|].
      destruct (decide (j ∈ seq cur k)) as [Hj'%elem_of_seq | _]; [|by apply (Hp i j)].
      apply H1. rewrite elem_of_seq in Hni. lia.
    + intros S. apply filter_seq_sorted.
  - intros a Hp i j Hij _ _ Hj. by apply (Hp i j).
Qed.

(** ** [split_equal] without a tail to keep together *)

(** No two of the sets share a sequence. *)
Definition disjoint_sets (sets : list (gset nat)) : Prop :=
  forall i j S T, sets !! i = Some S -> sets !! j = Some T -> i <> j -> S ∩ T = ∅.

Lemma disjoint_sets_snoc sets S :
  disjoint_sets sets -> (forall T, T ∈ sets -> T ∩ S = ∅) -> disjoint_sets (sets ++ [S]).
Proof.
  intros Hd HS i j X Y Hi Hj Hij.
  apply lookup_app_Some in Hi as [Hi | [Hi1 Hi]]; apply lookup_app_Some in Hj as [Hj | [Hj1 Hj]].
  - by apply (Hd i j).
  - apply list_lookup_singleton_Some in Hj as [_ <-]. apply HS. by eapply list_elem_of_lookup_2.
  - apply list_lookup_singleton_Some in Hi as [_ <-]. rewrite intersection_comm_L. apply HS.
    by eapply list_elem_of_lookup_2.
  - apply list_lookup_singleton_Some in Hi as [Hi _]. apply list_lookup_singleton_Some in Hj as [Hj _]. lia.
Qed.

(** The set has an unused token. *)
Definition available (a : llama_batch_allocr) (S : gset nat) : Prop :=
  exists i, unused a i /\ a_seq_set a !! i = Some S.

(** First sequence ids of consecutive sets follow each other. *)
Definition sequential_ids (ids : list (list Z)) (sets : list (gset nat)) (last : Z) : Prop :=
  exists firsts : list Z, length firsts = length sets /\
    (forall k S, sets !! k = Some S -> exists i l, ids !! i = Some l /\ ids_set l = S /\ head l = firsts !! k) /\
    (forall k x y, firsts !! k = Some x -> firsts !! (Datatypes.S k) = Some y -> y = (x + 1)%Z) /\
    (firsts <> [] -> list.last firsts = Some last).

Lemma ids_set_nonempty l : l <> [] -> ids_set l <> ∅.
Proof. destruct l; [done|]. unfold ids_set. simpl. set_solver. Qed.

Section equal.
Context (a : llama_batch_allocr) (ids : list (list Z)) (pos : list Z) (Ha : ready a ids pos).
Context (Hu : used_ok a (length ids)).

Lemma ready_set i l : ids !! i = Some l -> a_seq_set a !! i = Some (ids_set l).
Proof using Ha. intros Hi. by rewrite (rd_sets _ _ _ Ha), list_lookup_fmap, Hi. Qed.

Lemma unused_lt i : unused a i -> i < length ids.
Proof using Hu. intros Hi. rewrite <- (proj1 Hu). by eapply lookup_lt_Some. Qed.

Lemma available_nonempty S : available a S -> S <> ∅.
Proof using Ha Hu.
  intros (i & Hi & HS). destruct (lookup_lt_is_Some_2 ids i (unused_lt i Hi)) as [l Hl].
  rewrite (ready_set i l Hl) in HS. injection HS as <-.
  apply ids_set_nonempty. by apply (Forall_lookup_1 _ _ _ _ (fl_ne _ _ _ (rd_batch _ _ _ Ha)) Hl).
Qed.

Lemma choose_sets_spec n sequential m k cur last :
  k + m = length ids -> disjoint_sets cur -> Forall (available a) cur -> length cur <= n ->
  (sequential = true -> sequential_ids ids cur last) ->
  (-1 <= last < Z.of_nat LLAMA_MAX_SEQ)%Z ->
  exists sets last', choose_sets a n sequential (seq k m) cur last = Ok sets /\
    disjoint_sets sets /\ Forall (available a) sets /\ length sets <= n + 1 /\
    (cur <> [] -> sets <> []) /\ ((exists i, k <= i /\ unused a i) -> sets <> []) /\
    (sequential = true -> sequential_ids ids sets last').
Proof using Ha Hu.
  revert k cur last; induction m as [|m IH]; intros k cur last Hk Hd Hav Hn Hseq Hlast; simpl.
  { exists cur, last. split_and!; try done; try lia. intros (i & Hi & Hun). pose proof (unused_lt i Hun). lia. }
  destruct (lookup_lt_is_Some_2 (a_used a) k) as [b Hb]; [pose proof (proj1 Hu); lia|].
  rewrite (vec_get_Some _ _ _ Hb); simpl. destruct b.
  { destruct (IH (S k) cur last ltac:(lia) Hd Hav Hn Hseq Hlast)
      as (sets & last' & -> & H1 & H2 & H3 & H4 & H5 & H6).
    exists sets, last'. split_and!; try done. intros (i & Hi & Hun). apply H5. exists i. split; [|done].
    destruct (decide (i = k)) as [-> | ?]; [unfold unused in Hun; congruence | lia]. }
  destruct (lookup_lt_is_Some_2 ids k) as [l Hl]; [lia|].
  rewrite (vec_get_Some _ _ _ (ready_set k l Hl)); simpl.
  destruct (filled_first _ _ _ (rd_batch _ _ _ Ha) k l Hl) as (s0 & Hs0 & Es0).
  pose proof (Forall_lookup_1 _ _ _ _ (Forall_lookup_1 _ _ _ _ (rd_range _ _ _ Ha) Hl) Hs0) as Hr0; simpl in Hr0.
  pose proof (rd_max _ _ _ Ha) as Hmax.
  set (add0 := forallb (fun T => bool_decide (T ∩ ids_set l = ∅)) cur).
  set (add := add0 && (negb sequential || (length cur =? 0) || (s0 =? last + 1)%Z)).
  assert ((if sequential && add0 && negb (length cur =? 0)
    then s1 ← seq_id_at (a_batch a) k 0; q ← i32 (last + 1); Ok (s1 =? q)%Z else Ok add0) = Ok add) as ->.
  { unfold add. destruct sequential, add0, (length cur =? 0); simpl; try done.
    rewrite Es0; simpl. rewrite i32_in by (unfold INT32_MIN, INT32_MAX; pose proof max_seq_256; lia). done. }
  simpl. destruct add eqn:Eadd.
  - rewrite Es0; simpl. unfold add in Eadd. apply andb_true_iff in Eadd as [Ed Es].
    assert (disjoint_sets (cur ++ [ids_set l])) as Hd'.
    { apply disjoint_sets_snoc; [done|]. intros T HT. unfold add0 in Ed.
      apply (proj1 (forallb_forall _ _)) with (x := T) in Ed; [by bprop | by apply list_elem_of_In]. }
    assert (Forall (available a) (cur ++ [ids_set l])) as Hav'.
    { apply Forall_app. split; [done|]. constructor; [|done]. exists k. split; [done | by apply ready_set]. }
    assert (sequential = true -> sequential_ids ids (cur ++ [ids_set l]) s0) as Hseq'.
    { intros Hs. destruct (Hseq Hs) as (firsts & Hfl & Hf1 & Hf2 & Hf3). exists (firsts ++ [s0]). split_and!.
      - rewrite !length_app. simpl. lia.
      - intros j T HT. apply lookup_app_Some in HT as [HT | [Hj HT]].
        + destruct (Hf1 j T HT) as (i & l' & Hi & HS & Hh). exists i, l'. split_and!; try done. rewrite Hh.
          symmetry. apply lookup_app_l. apply lookup_lt_Some in HT. lia.
        + apply list_lookup_singleton_Some in HT as [Hj' <-]. exists k, l. split_and!; try done.
          rewrite lookup_app_r by lia. replace (j - length firsts) with 0 by lia. simpl. by destruct l; simplify_eq/=.
      - intros j x y Hx Hy. apply lookup_app_Some in Hy as [Hy | [Hj Hy]].
        + rewrite lookup_app_l in Hx by (apply lookup_lt_Some in Hy; lia). by apply (Hf2 j).
        + apply list_lookup_singleton_Some in Hy as [Hj' <-].
          rewrite lookup_app_l in Hx by lia. assert (firsts <> []) as Hne by (intros ->; done).
          specialize (Hf3 Hne). rewrite last_lookup in Hf3. replace (pred (length firsts)) with j in Hf3 by lia.
          rewrite Hf3 in Hx. injection Hx as <-. rewrite Hs in Es. simpl in Es.
          apply orb_true_iff in Es as [Es | Es]; bprop; [|lia]. lia.
      - intros _. by rewrite last_snoc. }
    rewrite length_app. simpl. destruct (n <? length cur + 1) eqn:En; bprop.
    + exists (cur ++ [ids_set l]), s0. split_and!; try done; try (by destruct cur).
      rewrite length_app. simpl. lia.
    + destruct (IH (S k) (cur ++ [ids_set l]) s0 ltac:(lia) Hd' Hav')
        as (sets & last' & -> & H1 & H2 & H3 & H4 & H5 & H6); [rewrite length_app; simpl; lia | done | lia|].
      exists sets, last'. split_and!; try done; intros _; apply H4; by destruct cur.
  - assert (cur <> []) as Hcne.
    { intros ->. unfold add, add0 in Eadd. simpl in Eadd. destruct sequential; simpl in Eadd; done. }
    destruct (IH (S k) cur last ltac:(lia) Hd Hav Hn Hseq Hlast)
      as (sets & last' & -> & H1 & H2 & H3 & H4 & H5 & H6).
    exists sets, last'. split_and!; try done. intros _. by apply H4.
Qed.
End equal.

(** ** Expanding the sets in lockstep *)

Lemma mapM_Forall2 {A B} (f : A -> outcome B) (R : A -> B -> Prop) l :
  (forall x, x ∈ l -> exists y, f x = Ok y /\ R x y) -> exists l', mapM f l = Ok l' /\ Forall2 R l l'.
Proof.
  induction l as [|x l IH]; intros H; simpl; [by exists []|].
  destruct (H x) as (y & -> & Hy); [by left|]. simpl.
  destruct IH as (l' & -> & Hl'); [intros; apply H; by right|]. simpl. eexists; split; [done|]. by constructor.
Qed.

Lemma NoDup_concat_lookup {A} (ls : list (list A)) j j' l l' k k' x :
  NoDup (concat ls) -> ls !! j = Some l -> ls !! j' = Some l' -> l !! k = Some x -> l' !! k' = Some x -> j = j' /\ k = k'.
Proof.
  revert j j'; induction ls as [|r ls IH]; intros j j' Hn Hj Hj' Hk Hk'; [done|]. simpl in Hn.
  apply NoDup_app in Hn as (Hr & Hd & Hn).
  assert (forall i m q, ls !! i = Some m -> m !! q = Some x -> x ∈ concat ls) as Hc.
  { intros i m q Hi Hq. apply elem_of_concat. exists m. split; by eapply list_elem_of_lookup_2. }
  destruct j as [|j], j' as [|j']; simpl in *; simplify_eq.
  - split; [done|]. by apply (NoDup_lookup l k k' x).
  - exfalso. apply (Hd x); [by eapply list_elem_of_lookup_2 | by eapply Hc].
  - exfalso. apply (Hd x); [by eapply list_elem_of_lookup_2 | by eapply Hc].
  - destruct (IH j j') as [-> ->]; done.
Qed.

Lemma set_indices_sorted S sets : StronglySorted lt (set_indices S sets).
Proof. apply filter_seq_sorted. Qed.

Lemma elem_of_set_indices S sets i : i ∈ set_indices S sets <-> sets !! i = Some S.
Proof.
  unfold set_indices. rewrite list_elem_of_filter, elem_of_seq. split; [by intros [? _]|].
  intros H. split; [done|]. apply lookup_lt_Some in H. lia.
Qed.

Lemma StronglySorted_lt_lookup l j k x y :
  StronglySorted lt l -> l !! j = Some x -> l !! k = Some y -> (j < k <-> x < y).
Proof.
  intros Hs Hj Hk. assert (forall j k x y, l !! j = Some x -> l !! k = Some y -> j < k -> x < y) as H.
  { clear j k x y Hj Hk. induction Hs as [|a l Hs IH Ha]; intros j k x y Hj Hk Hjk; [done|].
    destruct j as [|j], k as [|k]; simpl in *; try lia; simplify_eq.
    - by apply (Forall_lookup_1 _ _ _ _ Ha Hk).
    - apply (IH j k); [done | done | lia]. }
  split; [by apply H|]. intros Hxy. destruct (Nat.lt_trichotomy j k) as [? | [-> | Hkj]]; [done | |].
  - simplify_eq. lia.
  - pose proof (H k j y x Hk Hj Hkj). lia.
Qed.

(** Every cursor [w] of [ws] has moved [m] tokens on. *)
Definition bump (m : nat) (w : set_cursor) : set_cursor :=
  mk_cursor (w_all w) (w_cur w + m) (take m (drop (w_cur w) (w_all w))).

Definition taken (m : nat) (ws : list set_cursor) : list nat := concat ((fun w => w_idxs (bump m w)) <$> ws).

(** The cursor of an available set, at its first unused token. *)
Record fresh_cursor (a : llama_batch_allocr) (S : gset nat) (w : set_cursor) : Prop := {
  fc_all : w_all w = set_indices S (a_seq_set a);
  fc_idxs : w_idxs w = [];
  fc_cur : w_cur w < length (w_all w);
  fc_before : forall k i, k < w_cur w -> w_all w !! k = Some i -> a_used a !! i = Some true;
  fc_after : forall k i, w_cur w <= k -> w_all w !! k = Some i -> unused a i
}.

Lemma skip_used_spec used all :
  Forall (fun i => i < length used) all -> (exists i, i ∈ all /\ used !! i = Some false) ->
  exists n i, skip_used used all = Ok n /\ all !! n = Some i /\ used !! i = Some false /\
    forall k j, k < n -> all !! k = Some j -> used !! j = Some true.
Proof.
  induction all as [|j all IH]; intros Hl (i & Hi & Hf); [by apply elem_of_nil in Hi|]. simpl.
  apply Forall_cons in Hl as [Hj Hl]. destruct (lookup_lt_is_Some_2 used j Hj) as [b Hb].
  rewrite (vec_get_Some _ _ _ Hb); simpl. destruct b.
  - destruct IH as (n & i' & -> & Hn & Hi' & Hbefore); [done | |].
    + apply elem_of_cons in Hi as [-> | Hi]; [congruence | eauto].
    + simpl. exists (S n), i'. split_and!; try done. intros [|k] j' Hk Hj'; simpl in *; [by simplify_eq|].
      apply (Hbefore k j'); [lia | done].
  - exists 0, j. split_and!; try done. intros; lia.
Qed.

Lemma start_cursor_spec a ids pos S :
  ready a ids pos -> used_ok a (length ids) -> in_order a -> available a S ->
  exists w, start_cursor a S = Ok w /\ fresh_cursor a S w.
Proof.
  intros Ha Hu Ho (i & Hi & HS). unfold start_cursor. rewrite (rd_map _ _ _ Ha).
  assert (length (a_seq_set a) = length ids) as Hls by (rewrite (rd_sets _ _ _ Ha); apply length_fmap).
  destruct (skip_used_spec (a_used a) (set_indices S (a_seq_set a))) as (n & j & -> & Hj & Hf & Hb).
  - apply Forall_forall. intros k Hk%elem_of_set_indices. apply lookup_lt_Some in Hk. rewrite (proj1 Hu). lia.
  - exists i. split; [by apply elem_of_set_indices | done].
  - simpl. eexists; split; [done|]. split; simpl; try done; [by eapply lookup_lt_Some|].
    intros k x Hk Hx. destruct (decide (k = n)) as [-> | Hne]; [by simplify_eq|].
    assert (j < x) as Hjx by (apply (StronglySorted_lt_lookup (set_indices S (a_seq_set a)) n k);
      [apply set_indices_sorted | done | done | lia]).
    pose proof (proj1 (elem_of_set_indices _ _ _) (list_elem_of_lookup_2 _ _ _ Hj)) as Sj.
    pose proof (proj1 (elem_of_set_indices _ _ _) (list_elem_of_lookup_2 _ _ _ Hx)) as Sx.
    pose proof (lookup_lt_Some _ _ _ Sx) as Hlx.
    destruct (lookup_lt_is_Some_2 (a_used a) x) as [b Hbx]; [rewrite (proj1 Hu); lia|].
    destruct b; [|done]. rewrite (Ho j x Hjx Hlx) in Hf; [done | congruence | done].
Qed.

Lemma bump_S m w x :
  w_all w !! (w_cur w + m) = Some x ->
  mk_cursor (w_all w) (w_cur w + m + 1) (take m (drop (w_cur w) (w_all w)) ++ [x]) = bump (m + 1) w.
Proof.
  intros Hx. unfold bump. f_equal; [lia|]. rewrite Nat.add_1_r. symmetry. apply take_S_r. by rewrite lookup_drop.
Qed.

Section expand.
Context (a : llama_batch_allocr) (ids : list (list Z)) (pos : list Z).
Context (Ha : ready a ids pos) (Hu : used_ok a (length ids)).
Context (sets : list (gset nat)) (ws : list set_cursor) (Hws : Forall2 (fresh_cursor a) sets ws).
Context (Hdisj : disjoint_sets sets) (Havail : Forall (available a) sets).

Lemma ws_fresh j w : ws !! j = Some w -> exists S, sets !! j = Some S /\ fresh_cursor a S w.
Proof using Hws. intros Hj. destruct (Forall2_lookup_r _ _ _ _ _ Hws Hj) as (S & HS & H). eauto. Qed.

(** A token is in the list of at most one set, once. *)
Lemma ws_unique j j' w w' k k' x :
  ws !! j = Some w -> ws !! j' = Some w' -> w_all w !! k = Some x -> w_all w' !! k' = Some x -> j = j' /\ k = k'.
Proof using Ha Hu Hws Hdisj Havail.
  intros Hj Hj' Hk Hk'. destruct (ws_fresh j w Hj) as (S & HS & Hf). destruct (ws_fresh j' w' Hj') as (S' & HS' & Hf').
  rewrite (fc_all _ _ _ Hf) in Hk. rewrite (fc_all _ _ _ Hf') in Hk'.
  pose proof (proj1 (elem_of_set_indices _ _ _) (list_elem_of_lookup_2 _ _ _ Hk)) as Hx.
  pose proof (proj1 (elem_of_set_indices _ _ _) (list_elem_of_lookup_2 _ _ _ Hk')) as Hx'.
  assert (S' = S) as -> by congruence.
  assert (j = j') as ->.
  { destruct (decide (j = j')) as [|Hne]; [done|]. pose proof (Hdisj j j' S S HS HS' Hne) as He.
    destruct (available_nonempty a ids pos Ha Hu S); [by apply (Forall_lookup_1 _ _ _ _ Havail HS)|]. set_solver. }
  split; [done|]. pose proof (StronglySorted_lt_lookup _ k k' x x (set_indices_sorted S (a_seq_set a)) Hk Hk').
  pose proof (StronglySorted_lt_lookup _ k' k x x (set_indices_sorted S (a_seq_set a)) Hk' Hk). lia.
Qed.

Lemma elem_of_taken m x :
  x ∈ taken m ws <-> exists j w k, ws !! j = Some w /\ w_cur w <= k < w_cur w + m /\ w_all w !! k = Some x.
Proof using Type.
  clear. unfold taken. rewrite elem_of_concat. split.
  - intros (l & Hx & Hl). apply list_elem_of_fmap in Hl as (w & -> & Hw). simpl in Hx.
    apply list_elem_of_lookup in Hw as [j Hj]. apply list_elem_of_lookup in Hx as [k Hk].
    apply lookup_take_Some in Hk as [Hk Hkm]. rewrite lookup_drop in Hk. exists j, w, (w_cur w + k).
    split_and!; [done | lia | lia | done].
  - intros (j & w & k & Hj & Hk & Hx). eexists. split; [|apply list_elem_of_fmap; exists w; split; [done | by eapply list_elem_of_lookup_2]].
    simpl. apply list_elem_of_lookup. exists (k - w_cur w). apply lookup_take_Some. rewrite lookup_drop.
    split; [|lia]. by replace (w_cur w + (k - w_cur w)) with k by lia.
Qed.

Lemma advance_round m st :
  Forall (fun w => w_cur w + m < length (w_all w)) ws -> marks (taken m ws) (a_used a) st.1 -> count_ok st ->
  exists st', foldM advance (bump m <$> ws) ([], st) = Ok (bump (m + 1) <$> ws, st') /\
    marks (taken (m + 1) ws) (a_used a) st'.1 /\ count_ok st'.
Proof using Ha Hu Hws Hdisj Havail.
  intros Hlt Hmk Hc.
  assert (forall n, n <= length ws -> exists st', foldM advance (bump m <$> take n ws) ([], st) = Ok (bump (m + 1) <$> take n ws, st') /\
    marks (taken m ws ++ ((fun w => default 0 (w_all w !! (w_cur w + m))) <$> take n ws)) (a_used a) st'.1 /\ count_ok st') as H.
  { induction n as [|n IH]; intros Hn.
    { exists st. split; [done|]. simpl. by rewrite app_nil_r. }
    destruct IH as (st1 & E1 & Hmk1 & Hc1); [lia|]. destruct (lookup_lt_is_Some_2 ws n) as [w Hw]; [lia|].
    rewrite (take_S_r _ _ _ Hw), !fmap_app, foldM_app, E1. simpl.
    pose proof (Forall_lookup_1 _ _ _ _ Hlt Hw) as Hwl; simpl in Hwl.
    destruct (lookup_lt_is_Some_2 (w_all w) (w_cur w + m)) as [x Hx]; [lia|].
    unfold advance; simpl. rewrite (vec_get_Some _ _ _ Hx); simpl.
    destruct (mark_spec _ _ st1 x Hmk1 Hc1) as (st2 & -> & Hmk2 & Hc2).
    - destruct (ws_fresh n w Hw) as (S & _ & Hf). apply (fc_after _ _ _ Hf (w_cur w + m)); [lia | done].
    - intros [Hin%elem_of_taken | Hin]%elem_of_app.
      + destruct Hin as (j & w' & k & Hj & Hk & Hxk).
        destruct (ws_unique n j w w' (w_cur w + m) k x) as [-> <-]; try done. simplify_eq. lia.
      + apply list_elem_of_fmap in Hin as (w' & Hxw & Hin). apply list_elem_of_lookup in Hin as [j Hj].
        apply lookup_take_Some in Hj as [Hj Hjn]. pose proof (Forall_lookup_1 _ _ _ _ Hlt Hj) as Hwl'; simpl in Hwl'.
        destruct (lookup_lt_is_Some_2 (w_all w') (w_cur w' + m)) as [y Hy]; [lia|].
        rewrite Hy in Hxw. simpl in Hxw. subst y. destruct (ws_unique n j w w' (w_cur w + m) (w_cur w' + m) x); try done. lia.
    - simpl. exists st2. split; [|split; [|done]].
      + rewrite <- (bump_S m w x Hx). done.
      + rewrite app_assoc. by rewrite Hx. }
  destruct (H (length ws)) as (st' & E & Hmk' & Hc'); [done|]. rewrite !take_ge in * by done.
  exists st'. split; [done|]. split; [|done]. eapply marks_ext; [|exact Hmk']. intros x. rewrite elem_of_app, !elem_of_taken. split.
  - intros [(j & w & k & Hj & Hk & Hx) | Hx]; [exists j, w, k; split_and!; try done; lia|].
    apply list_elem_of_fmap in Hx as (w & -> & Hw). apply list_elem_of_lookup in Hw as [j Hj].
    pose proof (Forall_lookup_1 _ _ _ _ Hlt Hj) as Hwl; simpl in Hwl.
    destruct (lookup_lt_is_Some_2 (w_all w) (w_cur w + m)) as [y Hy]; [lia|].
    exists j, w, (w_cur w + m). rewrite Hy. split_and!; try done; lia.
  - intros (j & w & k & Hj & Hk & Hx). destruct (decide (k = w_cur w + m)) as [-> | Hne].
    + right. apply list_elem_of_fmap. exists w. rewrite Hx. split; [done | by eapply list_elem_of_lookup_2].
    + left. exists j, w, k. split_and!; try done; lia.
Qed.

Lemma expand_loop_spec n fuel m st :
  ws <> [] -> length ids < fuel + m ->
  Forall (fun w => w_cur w + m <= length (w_all w)) ws -> marks (taken m ws) (a_used a) st.1 -> count_ok st ->
  exists m' st', expand_loop fuel n (bump m <$> ws) st = Ok (bump m' <$> ws, st') /\ m <= m' /\
    (Forall (fun w => w_cur w + m < length (w_all w)) ws -> m < m') /\
    (m' * length ws <= n \/ m' <= m + 1) /\
    Forall (fun w => w_cur w + m' <= length (w_all w)) ws /\ marks (taken m' ws) (a_used a) st'.1 /\ count_ok st'.
Proof using Ha Hu Hws Hdisj Havail.
  intros Hne. revert m st; induction fuel as [|fuel IH]; intros m st Hf Hle Hmk Hc.
  { exfalso. assert (exists w0, ws !! 0 = Some w0) as [w Hw0] by (clear -Hne; destruct ws; [done | eauto]).
    pose proof (Forall_lookup_1 _ _ _ _ Hle Hw0) as Hw; simpl in Hw.
    destruct (ws_fresh 0 w Hw0) as (S & _ & Hfr). rewrite (fc_all _ _ _ Hfr) in Hw.
    assert (length (set_indices S (a_seq_set a)) <= length ids).
    { unfold set_indices. etransitivity; [apply length_filter|]. rewrite length_seq, (rd_sets _ _ _ Ha). by rewrite length_fmap. }
    lia. }
  simpl. destruct (forallb _ _) eqn:E.
  - assert (Forall (fun w => w_cur w + m < length (w_all w)) ws) as Hlt.
    { apply Forall_forall. intros w Hw. rewrite forallb_forall in E.
      specialize (E (bump m w)). apply Nat.ltb_lt in E; [exact E|]. apply list_elem_of_In, list_elem_of_fmap. eauto. }
    destruct (advance_round m st Hlt Hmk Hc) as (st1 & -> & Hmk1 & Hc1). simpl.
    assert (exists w0, ws !! 0 = Some w0) as [w0 Hw0] by (clear -Hne; destruct ws; [done | eauto]).
    rewrite (vec_get_Some _ _ (bump (m + 1) w0)) by (by rewrite list_lookup_fmap, Hw0). simpl.
    rewrite length_fmap, length_take, length_drop.
    pose proof (Forall_lookup_1 _ _ _ _ Hlt Hw0) as Hl0; simpl in Hl0.
    replace (min (m + 1) (length (w_all w0) - w_cur w0)) with (m + 1) by lia.
    assert (Forall (fun w => w_cur w + (m + 1) <= length (w_all w)) ws) as Hle1
      by (eapply Forall_impl; [exact Hlt | simpl; intros; lia]).
    destruct (n <? (m + 1 + 1) * length ws) eqn:En; bprop.
    + exists (m + 1), st1. split_and!; try done; lia.
    + destruct (IH (m + 1) st1 ltac:(lia) Hle1 Hmk1 Hc1) as (m' & st' & -> & Hm & _ & Hb & Hle' & Hmk' & Hc').
      exists m', st'. split_and!; try done; try lia. left. nia.
  - exists m, st. split_and!; try done; try lia. intros Hlt. exfalso.
    assert (forallb (fun w => w_cur w <? length (w_all w)) (bump m <$> ws) = true) as E'; [|congruence].
    apply forallb_forall. intros w Hw%list_elem_of_In. apply list_elem_of_fmap in Hw as (w' & -> & Hw').
    apply Nat.ltb_lt. simpl. by apply (proj1 (Forall_forall _ _) Hlt).
Qed.
End expand.

(** Row [row] of an equal split: [m] unused tokens of the sequence set [S], in order. *)
Definition equal_row (a : llama_batch_allocr) (m : nat) (S : gset nat) (row : list nat) : Prop :=
  length row = m /\ StronglySorted lt row /\ forall i, i ∈ row -> unused a i /\ a_seq_set a !! i = Some S.

Lemma fresh_row a S w m :
  fresh_cursor a S w -> w_cur w + m <= length (w_all w) -> equal_row a m S (w_idxs (bump m w)).
Proof.
  intros Hf Hm. unfold equal_row, bump; simpl. split_and!.
  - rewrite length_take, length_drop. lia.
  - assert (StronglySorted lt (w_all w)) as Hs by (rewrite (fc_all _ _ _ Hf); apply set_indices_sorted).
    apply (StronglySorted_drop lt (w_cur w)) in Hs. rewrite <- (take_drop m (drop (w_cur w) (w_all w))) in Hs.
    by apply StronglySorted_app_1_l in Hs.
  - intros i Hi. apply list_elem_of_lookup in Hi as [k Hk]. apply lookup_take_Some in Hk as [Hk _].
    rewrite lookup_drop in Hk. split; [apply (fc_after _ _ _ Hf (w_cur w + k)); [lia | done]|].
    apply elem_of_set_indices. rewrite <- (fc_all _ _ _ Hf). by eapply list_elem_of_lookup_2.
Qed.

Lemma StronglySorted_lt_NoDup l : StronglySorted lt l -> NoDup l.
Proof.
  induction 1 as [|x l _ IH Hx]; constructor; [|done]. intros Hin.
  pose proof (proj1 (Forall_forall _ _) Hx x Hin). lia.
Qed.

Lemma rows_NoDup a sets rows m :
  Forall2 (equal_row a m) sets rows -> disjoint_sets sets -> Forall (fun S => S <> ∅) sets -> NoDup (concat rows).
Proof.
  induction 1 as [|S row sets rows (_ & Hs & Hrow) Hrows IH]; intros Hd Hne; simpl; [constructor|].
  apply Forall_cons in Hne as [HS Hne]. apply NoDup_app. split_and!.
  - by apply StronglySorted_lt_NoDup.
  - intros i Hi Hin. apply elem_of_concat in Hin as (r & Hir & Hr). apply list_elem_of_lookup in Hr as [j Hj].
    destruct (Forall2_lookup_r _ _ _ _ _ Hrows Hj) as (T & HT & _ & _ & Hr).
    destruct (Hrow i Hi) as [_ E1]. destruct (Hr i Hir) as [_ E2]. assert (T = S) as -> by congruence.
    pose proof (Hd 0 (Datatypes.S j) S S eq_refl HT ltac:(done)). set_solver.
  - apply IH; [|done]. intros i j X Y Hi Hj Hij. apply (Hd (Datatypes.S i) (Datatypes.S j) X Y Hi Hj). lia.
Qed.

Lemma length_concat_const {A} (rows : list (list A)) m :
  Forall (fun r => length r = m) rows -> length (concat rows) = m * length rows.
Proof. induction 1 as [|r rows Hr _ IH]; simpl; [lia|]. rewrite length_app, IH. lia. Qed.

Lemma in_order_marks a sets ws m a' :
  Forall2 (fresh_cursor a) sets ws -> in_order a -> a_seq_set a' = a_seq_set a ->
  length (a_seq_set a) = length (a_used a) -> marks (taken m ws) (a_used a) (a_used a') -> in_order a'.
Proof.
  intros Hws Ho Hs Hlen [Hl Hm] i j Hij Hj Heq Hused. rewrite Hs in Hj, Heq.
  rewrite Hm in Hused by lia. rewrite Hm by lia.
  destruct (decide (i ∈ taken m ws)) as [|Hni]; [done|].
  destruct (decide (j ∈ taken m ws)) as [Hin | _]; [|by apply (Ho i j)].
  apply elem_of_taken in Hin as (k & w & q & Hk & Hq & Hx).
  destruct (Forall2_lookup_r _ _ _ _ _ Hws Hk) as (S & _ & Hf).
  pose proof Hx as Hx'. rewrite (fc_all _ _ _ Hf) in Hx'.
  pose proof (proj1 (elem_of_set_indices _ _ _) (list_elem_of_lookup_2 _ _ _ Hx')) as Sj.
  rewrite Sj in Heq. apply elem_of_set_indices in Heq. rewrite <- (fc_all _ _ _ Hf) in Heq.
  apply list_elem_of_lookup in Heq as [p Hp]. pose proof Hp as Hp'. rewrite (fc_all _ _ _ Hf) in Hp'.
  pose proof (StronglySorted_lt_lookup _ _ _ _ _ (set_indices_sorted S (a_seq_set a)) Hp' Hx') as Hpq.
  destruct (decide (p < w_cur w)) as [Hlt | Hge]; [by apply (fc_before _ _ _ Hf p)|].
  destruct Hni. apply elem_of_taken. exists k, w, p. split_and!; try done; lia.
Qed.

Lemma split_equal_spec n sequential a ids pos :
  ready a ids pos -> used_ok a (length ids) -> in_order a -> (exists i, unused a i) ->
  (sequential = true -> a_has_cpl a = false) ->
  exists sets rows m u a' out, split_equal n sequential 0 a = Ok (u, a') /\
    a' = set_split out (a_n_used a') (a_used a') a /\
    disjoint_sets sets /\ Forall2 (equal_row a m) sets rows /\
    0 < length rows <= n + 1 /\ 0 < m /\ (m * length rows <= n \/ m = 1) /\
    (sequential = true -> exists last, sequential_ids ids sets last) /\
    NoDup (concat rows) /\ marks (concat rows) (a_used a) (a_used a') /\ used_ok a' (length ids) /\ in_order a' /\
    ubatch_of a ids pos (concat rows) u /\ u_equal_seqs u = true /\ u_n_seqs u = length rows /\ u_n_seq_tokens u = m.
Proof.
  intros Ha Hu Ho Hex Hcpl. unfold split_equal.
  replace (sequential && a_has_cpl a) with false by (destruct sequential; [by rewrite Hcpl | done]). cbv iota.
  rewrite (filled_loop _ _ _ (rd_batch _ _ _ Ha)).
  destruct (choose_sets_spec a ids pos Ha Hu n sequential (length ids) 0 [] (-1))
    as (sets & last & -> & Hd & Hav & Hlen & _ & Hsome & Hseq); try done; try lia.
  { simpl; lia. }
  { intros _. exists []. split_and!; try done; intros; done. }
  assert (sets <> []) as Hne by (destruct Hex as [i Hi]; apply Hsome; exists i; split; [lia | done]).
  cbn [mbind outcome_bind]. rewrite (proj2 (Nat.eqb_neq (length sets) 0)) by (by destruct sets).
  destruct (mapM_Forall2 (start_cursor a) (fresh_cursor a) sets) as (ws & -> & Hws).
  { intros S HS. apply (start_cursor_spec a ids pos); try done. by apply (proj1 (Forall_forall _ _) Hav). }
  cbn [mbind outcome_bind]. pose proof (Forall2_length _ _ _ Hws) as Hlw.
  assert (ws = bump 0 <$> ws) as E0.
  { clear -Hws. induction Hws as [|S w sets ws Hf _ IH]; [done|]. rewrite fmap_cons. f_equal; [|exact IH].
    pose proof (fc_idxs _ _ _ Hf) as E. destruct w as [all cur idxs]; simpl in E. unfold bump; simpl.
    rewrite E. f_equal. lia. }
  assert (Forall (fun w => w_cur w + 0 < length (w_all w)) ws) as Hlt0.
  { clear -Hws. induction Hws as [|S w sets ws Hf _ IH]; constructor; [|done]. pose proof (fc_cur _ _ _ Hf). lia. }
  assert (get_n_tokens a = length ids) as Hn
    by (unfold get_n_tokens; by rewrite (fl_n _ _ _ (rd_batch _ _ _ Ha)), Nat2Z.id).
  destruct (expand_loop_spec a ids pos Ha Hu sets ws Hws Hd Hav n (S (get_n_tokens a)) 0 (a_used a, a_n_used a))
    as (m & st & E & _ & Hm & Hb & Hle & Hmk & Hc).
  - intros E. rewrite E in Hlw. by destruct sets.
  - lia.
  - eapply Forall_impl; [exact Hlt0 | simpl; intros; lia].
  - eapply marks_ext; [|apply marks_nil]. intros x. rewrite elem_of_taken. split; [by intros ?%elem_of_nil|].
    intros (j & w & k & _ & Hk & _). lia.
  - apply (proj2 Hu).
  - rewrite <- E0 in E. rewrite E. cbn [mbind outcome_bind fst snd]. unfold keep_tails. simpl (0 =? 0). cbv iota.
    cbn [mbind outcome_bind fst snd]. specialize (Hm Hlt0).
    set (rows := (fun w => w_idxs (bump m w)) <$> ws).
    replace (w_idxs <$> (bump m <$> ws)) with rows by (unfold rows; by rewrite <- (list_fmap_compose (bump m) w_idxs)).
    assert (Forall2 (equal_row a m) sets rows) as Hrows.
    { unfold rows. clear -Hws Hle. induction Hws as [|S w sets ws Hf _ IH]; simpl; constructor.
      - apply fresh_row; [done|]. by apply Forall_inv in Hle.
      - apply IH. by apply Forall_inv_tail in Hle. }
    assert (length (concat rows) = m * length rows) as Hlc.
    { apply length_concat_const, Forall_forall. intros r Hr. apply list_elem_of_lookup in Hr as [j Hj].
      destruct (Forall2_lookup_r _ _ _ _ _ Hrows Hj) as (S & _ & H & _). done. }
    assert (length rows = length ws) as Hlr by (unfold rows; by rewrite length_fmap).
    assert (0 < length ws) as Hw0 by (destruct sets; [done | simpl in Hlw; lia]).
    rewrite length_fmap. set (a1 := set_split (a_out_ids a) st.2 st.1 a).
    destruct (ubatch_add_spec a1 ids pos (concat rows) (length ws) true) as (u & out & Eu & Hub & He & Hns & Hnt & _).
    + by apply ready_set_split.
    + apply Forall_concat, Forall_forall. intros r Hr. apply list_elem_of_lookup in Hr as [j Hj].
      destruct (Forall2_lookup_r _ _ _ _ _ Hrows Hj) as (S & _ & _ & _ & H). apply Forall_forall. intros i Hi.
      by apply (unused_lt a ids Hu), H.
    + done.
    + rewrite Hlc, Hlr. apply Nat.Div0.mod_mul.
    + rewrite Eu. exists sets, rows, m, u, (set_split (a_out_ids a1 ++ out) (a_n_used a1) (a_used a1) a1), (a_out_ids a ++ out).
      unfold a1 in Hub. rewrite ubatch_of_set_split in Hub.
      split_and!; try done; try lia.
      * intros Hs. exists last. by apply Hseq.
      * apply (rows_NoDup a sets rows m); try done. eapply Forall_impl; [exact Hav|]. intros S HS.
        by apply (available_nonempty a ids pos).
      * destruct Hmk as [Hl _]. unfold used_ok. simpl. split; [by rewrite Hl, (proj1 Hu) | exact Hc].
      * eapply (in_order_marks a sets ws m); try done. by rewrite (rd_sets _ _ _ Ha), length_fmap, (proj1 Hu).
      * rewrite Hnt, Hlc, Hlr. apply Nat.div_mul. lia.
Qed.

Lemma rows_sorted a sets rows m S :
  Forall2 (equal_row a m) sets rows -> disjoint_sets sets -> Forall (fun T => T <> ∅) sets ->
  StronglySorted lt (filter (fun i => a_seq_set a !! i = Some S) (concat rows)).
Proof.
  induction 1 as [|T row sets rows (_ & Hs & Hrow) Hrows IH]; intros Hd Hne; simpl; [constructor|].
  apply Forall_cons in Hne as [HT Hne]. rewrite filter_app.
  assert (disjoint_sets sets) as Hd'.
  { intros i j X Y Hi Hj Hij. apply (Hd (Datatypes.S i) (Datatypes.S j) X Y Hi Hj). lia. }
  destruct (decide (T = S)) as [-> | HTS].
  - rewrite (list_filter_none _ (concat rows)), app_nil_r.
    + rewrite list_filter_id; [done|]. intros i Hi. by apply Hrow.
    + intros i Hi E. apply elem_of_concat in Hi as (r & Hir & Hr). apply list_elem_of_lookup in Hr as [j Hj].
      destruct (Forall2_lookup_r _ _ _ _ _ Hrows Hj) as (X & HX & _ & _ & Hr).
      destruct (Hr i Hir) as [_ E2]. assert (X = S) as -> by congruence.
      pose proof (Hd 0 (Datatypes.S j) S S eq_refl HX ltac:(done)). set_solver.
  - rewrite (list_filter_none _ row); [by apply IH|]. intros i Hi E. destruct (Hrow i Hi) as [_ E']. congruence.
Qed.

(** A split that wants sequential ids needs a batch without coupled sequences. *)
Definition equal_inv (sequential : bool) (a : llama_batch_allocr) : Prop :=
  in_order a /\ (sequential = true -> a_has_cpl a = false).

#[export] Instance split_equal_splitter n sequential ids pos :
  Splitter (split_equal n sequential 0) ids pos (equal_inv sequential).
Proof.
  split.
  - intros a Ha Hu [Ho Hcpl] Hno. unfold split_equal.
    replace (sequential && a_has_cpl a) with false by (destruct sequential; [by rewrite Hcpl | done]). cbv iota.
    rewrite (filled_loop _ _ _ (rd_batch _ _ _ Ha)).
    destruct (choose_sets_spec a ids pos Ha Hu n sequential (length ids) 0 [] (-1))
      as (sets & last & -> & _ & Hav & _); try done; try lia.
    { simpl; lia. }
    { intros _. exists []. split_and!; try done; intros; done. }
    destruct sets as [|S sets]; [done|]. apply Forall_inv in Hav as (i & Hi & _). by destruct (Hno i).
  - intros a Ha Hu [Ho Hcpl] Hex.
    destruct (split_equal_spec n sequential a ids pos Ha Hu Ho Hex Hcpl)
      as (sets & rows & m & u & a' & out & E & Ea & Hd & Hrows & Hlr & Hm & _ & _ & Hnd & Hmk & Hu' & Ho' & Hub & _).
    assert (Forall (fun T => T <> ∅) sets) as Hne.
    { apply Forall_forall. intros T HT. apply list_elem_of_lookup in HT as [j Hj].
      destruct (Forall2_lookup_l _ _ _ _ _ Hrows Hj) as (row & Hrow & Hlen & _ & Hin).
      destruct row as [|i row]; [simpl in Hlen; lia|]. destruct (Hin i) as [Hi HS]; [by left|].
      apply (available_nonempty a ids pos Ha Hu). by exists i. }
    exists (concat rows), u, a', out. split_and!; try done.
    + destruct rows as [|row rows]; [simpl in Hlr; lia|]. apply Forall2_cons_inv_r in Hrows as (S & l & (Hlen & _) & _ & _).
      destruct row; [simpl in Hlen; lia | done].
    + intros i Hi. apply elem_of_concat in Hi as (r & Hir & Hr). apply list_elem_of_lookup in Hr as [j Hj].
      destruct (Forall2_lookup_r _ _ _ _ _ Hrows Hj) as (X & _ & _ & _ & Hr). by apply Hr.
    + split; [done|]. intros Hs. rewrite Ea. by apply Hcpl.
    + intros S. by apply (rows_sorted a sets rows m).
  - intros a [Ho _]. done.
Qed.

(** ** [split_seq] *)

Lemma next_subset_spec a used cur k m :
  length (a_seq_set a) = length used -> k + m = length used ->
  exists r, next_subset a used cur (seq k m) = Ok r /\
    match r with
    | Some i => k <= i < length used /\ used !! i = Some false /\
        (exists S, a_seq_set a !! i = Some S /\ S ⊆ cur) /\
        forall j S, k <= j < i -> used !! j = Some false -> a_seq_set a !! j = Some S -> ~ S ⊆ cur
    | None => forall j S, k <= j -> used !! j = Some false -> a_seq_set a !! j = Some S -> ~ S ⊆ cur
    end.
Proof.
  intros Hl. revert k; induction m as [|m IH]; intros k Hk; simpl.
  { exists None. split; [done|]. intros j S Hj Hf. apply lookup_lt_Some in Hf. lia. }
  destruct (lookup_lt_is_Some_2 used k) as [b Hb]; [lia|]. rewrite (vec_get_Some _ _ _ Hb); simpl.
  destruct (lookup_lt_is_Some_2 (a_seq_set a) k) as [S HS]; [lia|].
  assert (forall P : Prop, (b = true \/ (b = false /\ ~ S ⊆ cur)) ->
    (exists r, next_subset a used cur (seq (Datatypes.S k) m) = Ok r /\ (
      match r with
      | Some i => k <= i < length used /\ used !! i = Some false /\
          (exists S, a_seq_set a !! i = Some S /\ S ⊆ cur) /\
          forall j S, k <= j < i -> used !! j = Some false -> a_seq_set a !! j = Some S -> ~ S ⊆ cur
      | None => forall j S, k <= j -> used !! j = Some false -> a_seq_set a !! j = Some S -> ~ S ⊆ cur
      end))) as Hnext.
  { intros _ Hcase. destruct (IH (Datatypes.S k) ltac:(lia)) as (r & -> & Hr). exists r. split; [done|].
    assert (forall j S', k <= j -> j = k -> used !! j = Some false -> a_seq_set a !! j = Some S' -> ~ S' ⊆ cur) as H0.
    { intros j S' _ -> Hf HS'. rewrite Hb in Hf. rewrite HS in HS'. injection HS' as <-.
      destruct Hcase as [-> | [_ ?]]; [done | done]. }
    destruct r as [i|].
    - destruct Hr as (H1 & H2 & H3 & H4). split_and!; try done; try lia. intros j S' Hj Hf HS'.
      destruct (decide (j = k)) as [Hjk |]; [by apply (H0 j S' ltac:(lia))|]. apply (H4 j); [lia | done | done].
    - intros j S' Hj Hf HS'. destruct (decide (j = k)) as [Hjk |]; [by apply (H0 j S' ltac:(lia))|]. apply (Hr j); [lia | done | done]. }
  destruct b; [apply (Hnext True); by left|].
  rewrite (vec_get_Some _ _ _ HS); simpl. destruct (decide (cur ∩ S = S)) as [Hsub | Hns].
  - exists (Some k). split; [done|]. split_and!; try done; try lia.
    exists S. split; [done | set_solver].
  - apply (Hnext True). right. split; [done|]. intros Hc. apply Hns. set_solver.
Qed.

(** Increasing tokens whose sequence sets shrink. *)
Definition chain (a : llama_batch_allocr) (idxs : list nat) : Prop :=
  StronglySorted (fun i j => i < j /\ forall S T, a_seq_set a !! i = Some S -> a_seq_set a !! j = Some T -> T ⊆ S) idxs.

(** Nothing of the same set was left behind. *)
Definition none_skipped (a : llama_batch_allocr) (idxs : list nat) : Prop :=
  forall i j, j ∈ idxs -> i < j -> unused a i -> a_seq_set a !! i = a_seq_set a !! j -> i ∈ idxs.

Lemma seq_loop_spec a n fuel cur_idx S acc st :
  length (a_seq_set a) = length (a_used a) -> get_n_tokens a = length (a_used a) ->
  a_seq_set a !! cur_idx = Some S -> unused a cur_idx -> length (a_used a) <= fuel + cur_idx ->
  chain a (acc ++ [cur_idx]) ->
  (forall i T, i < cur_idx -> unused a i -> i ∉ acc -> a_seq_set a !! i = Some T -> ~ T ⊆ S) ->
  (forall i, i ∈ acc -> unused a i) ->
  marks acc (a_used a) st.1 -> count_ok st ->
  exists idxs st', seq_loop fuel n cur_idx S acc a st = Ok (idxs, st') /\
    (exists rest, idxs = acc ++ cur_idx :: rest) /\ length idxs <= Nat.max (length acc + 1) n /\
    chain a idxs /\ (forall i, i ∈ idxs -> unused a i) /\
    (forall i j, j ∈ idxs -> j ∉ acc -> i < j -> unused a i -> a_seq_set a !! i = a_seq_set a !! j -> i ∈ idxs) /\
    marks idxs (a_used a) st'.1 /\ count_ok st'.
Proof.
  intros Hls Hn. revert cur_idx S acc st; induction fuel as [|fuel IH];
    intros cur_idx S acc st HS Hun Hf Hch Hskip Hacc Hmk Hc.
  { apply lookup_lt_Some in Hun. lia. }
  simpl. assert (cur_idx ∉ acc) as Hni.
  { intros Hin. unfold chain in Hch. apply StronglySorted_app in Hch as (Hx & _ & _).
    destruct (Hx cur_idx cur_idx) as [? _]; [done | by left | lia]. }
  destruct (mark_spec acc (a_used a) st cur_idx Hmk Hc Hun Hni) as (st1 & -> & Hmk1 & Hc1). simpl.
  assert (forall i, i ∈ acc ++ [cur_idx] -> unused a i) as Hacc1
    by (intros i [Hi | ->%list_elem_of_singleton]%elem_of_app; [by apply Hacc | done]).
  (* the loop stops here *)
  assert (exists idxs st', Ok (acc ++ [cur_idx], st1) = Ok (idxs, st') /\
    (exists rest, idxs = acc ++ cur_idx :: rest) /\ length idxs <= Nat.max (length acc + 1) n /\
    chain a idxs /\ (forall i, i ∈ idxs -> unused a i) /\
    (forall i j, j ∈ idxs -> j ∉ acc -> i < j -> unused a i -> a_seq_set a !! i = a_seq_set a !! j -> i ∈ idxs) /\
    marks idxs (a_used a) st'.1 /\ count_ok st') as Hstop.
  { exists (acc ++ [cur_idx]), st1. split_and!; try done; [by eexists | rewrite length_app; simpl; lia |].
    intros i j [Hj | ->%list_elem_of_singleton]%elem_of_app Hnj Hij Hui Heq; [done|].
    destruct (decide (i ∈ acc)) as [|Hnia]; [by apply elem_of_app; left|].
    rewrite HS in Heq. by destruct (Hskip i S Hij Hui Hnia Heq). }
  destruct (n <=? length (acc ++ [cur_idx])) eqn:En; [exact Hstop|]. bprop.
  pose proof (lookup_lt_Some _ _ _ Hun) as Hlt. pose proof (proj1 Hmk1) as Hl1.
  destruct (next_subset_spec a st1.1 S (cur_idx + 1) (get_n_tokens a - (cur_idx + 1))) as (r & -> & Hr); [lia | lia|].
  simpl. destruct r as [k|]; [|exact Hstop].
  destruct Hr as (Hk & Hfk & (T & HT & HTS) & Hbetween). rewrite (vec_get_Some _ _ _ HT); simpl.
  assert (forall i, cur_idx < i -> unused a i -> st1.1 !! i = Some false) as Hstill.
  { intros i Hi Hui. rewrite (proj2 Hmk1) by (by eapply lookup_lt_Some). rewrite decide_False; [done|].
    intros [Hin | ->%list_elem_of_singleton]%elem_of_app; [|lia].
    unfold chain in Hch. apply StronglySorted_app in Hch as (Hx & _ & _).
    destruct (Hx i cur_idx) as [? _]; [done | by left | lia]. }
  assert (unused a k) as Huk.
  { unfold unused. rewrite (proj2 Hmk1) in Hfk by lia. destruct (decide _); [done | exact Hfk]. }
  destruct (IH k T (acc ++ [cur_idx]) st1) as (idxs & st' & -> & Hrest & Hlen & Hch' & Hall & Hsk & Hmk' & Hc'); try done; try lia.
  - unfold chain in *. apply StronglySorted_app. split_and!; [|done | by repeat constructor].
    intros x y Hx ->%list_elem_of_singleton. apply elem_of_app in Hx as [Hx | ->%list_elem_of_singleton].
    + apply StronglySorted_app in Hch as (Hx' & _ & _). destruct (Hx' x cur_idx Hx) as [Hlt1 Hsub1]; [by left|].
      split; [lia|]. intros X Y HX HY. rewrite HT in HY. injection HY as <-. etransitivity; [exact HTS|]. by apply (Hsub1 X S).
    + split; [lia|]. intros X Y HX HY. rewrite HT in HY. rewrite HS in HX. by simplify_eq.
  - intros i X Hi Hui Hni' HX Hsub. rewrite elem_of_app in Hni'.
    assert (i <> cur_idx) as Hne by (intros ->; apply Hni'; right; by left).
    destruct (decide (i < cur_idx)) as [Hlt1 | Hge].
    + apply (Hskip i X Hlt1 Hui); [by intros ?; apply Hni'; left | done | by etransitivity].
    + apply (Hbetween i X); [lia | apply Hstill; [lia | done] | done | by etransitivity].
  - exists idxs, st'. split_and!; try done.
    + destruct Hrest as (rest & ->). exists (k :: rest). by rewrite <- app_assoc.
    + rewrite length_app in *. simpl in *. lia.
    + intros i j Hj Hnj Hij Hui Heq. destruct (decide (j = cur_idx)) as [-> | Hne].
      * destruct (decide (i ∈ acc)) as [Hia | Hnia].
        -- destruct Hrest as (rest & ->). rewrite !elem_of_app. by left; left.
        -- rewrite HS in Heq. by destruct (Hskip i S Hij Hui Hnia Heq).
      * apply (Hsk i j); try done. intros [? | ->%list_elem_of_singleton]%elem_of_app; done.
Qed.

Lemma split_seq_spec n a ids pos :
  ready a ids pos -> used_ok a (length ids) -> in_order a -> (exists i, unused a i) ->
  exists idxs u a' out, split_seq n a = Ok (u, a') /\ a' = set_split out (a_n_used a') (a_used a') a /\
    head idxs = Some (first_unused (a_used a)) /\ length idxs <= Nat.max 1 n /\ chain a idxs /\
    (forall i, i ∈ idxs -> unused a i) /\ none_skipped a idxs /\
    marks idxs (a_used a) (a_used a') /\ used_ok a' (length ids) /\ in_order a' /\ ubatch_of a ids pos idxs u.
Proof.
  intros Ha Hu Ho [i Hi]. unfold split_seq.
  pose proof (first_unused_spec (a_used a)) as (H1 & H2 & H3). set (cur := first_unused (a_used a)) in *.
  assert (cur < length (a_used a)) as Hlt.
  { destruct (decide (cur < length (a_used a))); [done|]. pose proof (lookup_lt_Some _ _ _ Hi).
    unfold unused in Hi. rewrite H1 in Hi by lia. done. }
  rewrite (proj2 (Nat.leb_gt _ _)) by done.
  assert (length (a_seq_set a) = length (a_used a)) as Hls
    by (rewrite (rd_sets _ _ _ Ha), length_fmap; symmetry; apply (proj1 Hu)).
  destruct (lookup_lt_is_Some_2 (a_seq_set a) cur) as [S HS]; [lia|]. rewrite (vec_get_Some _ _ _ HS).
  cbn [mbind outcome_bind].
  destruct (seq_loop_spec a n (length (a_used a)) cur S [] (a_used a, a_n_used a))
    as (idxs & st & -> & (rest & Hr) & Hlen & Hch & Hun & Hsk & Hmk & Hc); try done.
  - unfold get_n_tokens. rewrite (fl_n _ _ _ (rd_batch _ _ _ Ha)), Nat2Z.id. symmetry. apply (proj1 Hu).
  - by apply H3.
  - lia.
  - by repeat constructor.
  - intros j T Hj Huj. unfold unused in Huj. rewrite H1 in Huj by done. done.
  - intros j Hj. by apply elem_of_nil in Hj.
  - apply (proj2 Hu).
  - cbn [mbind outcome_bind fst snd]. simpl in Hr, Hlen. subst idxs.
    set (a1 := set_split (a_out_ids a) st.2 st.1 a).
    destruct (ubatch_add_spec a1 ids pos (cur :: rest) 1 true) as (u & out & E & Hub & _).
    + by apply ready_set_split.
    + apply Forall_forall. intros j Hj. by apply (unused_lt a ids Hu), Hun.
    + lia.
    + apply Nat.mod_1_r.
    + rewrite E. exists (cur :: rest), u, (set_split (a_out_ids a1 ++ out) (a_n_used a1) (a_used a1) a1), (a_out_ids a ++ out).
      unfold a1 in Hub. rewrite ubatch_of_set_split in Hub. split_and!; try done.
      * intros x y Hy Hxy Hux Heq. apply (Hsk x y); try done. by intros ?%elem_of_nil.
      * split; [simpl; by rewrite (proj1 Hmk), (proj1 Hu) | exact Hc].
      * intros x y Hxy Hy Heq Hused. cbn in Hused, Hy, Heq |- *. rewrite (proj2 Hmk) in Hused |- * by lia.
        destruct (decide (x ∈ cur :: rest)) as [|Hnx]; [done|].
        destruct (decide (y ∈ cur :: rest)) as [Hy' |]; [|by apply (Ho x y)].
        destruct (lookup_lt_is_Some_2 (a_used a) x) as [b Hb]; [lia|]. destruct b; [done|].
        destruct Hnx. apply (Hsk x y); try done. by intros ?%elem_of_nil.
Qed.

Lemma chain_sorted a idxs : chain a idxs -> StronglySorted lt idxs.
Proof. intros H. eapply StronglySorted_impl; [|exact H]. by intros i j [? _]. Qed.

#[export] Instance split_seq_splitter n ids pos : Splitter (split_seq n) ids pos in_order.
Proof.
  split.
  - intros a _ _ _ Hd%first_unused_done. unfold split_seq. by rewrite (proj2 (Nat.leb_le _ _)) by lia.
  - intros a Ha Hu Ho Hex.
    destruct (split_seq_spec n a ids pos Ha Hu Ho Hex) as (idxs & u & a' & out & E & Ea & Hh & _ & Hch & Hun & _ & Hr).
    apply chain_sorted in Hch. exists idxs, u, a', out. split_and!; try done; try apply Hr.
    + by destruct idxs.
    + by apply StronglySorted_lt_NoDup.
    + intros S. clear -Hch. induction Hch as [|i idxs _ IH Hi]; [constructor|]. rewrite filter_cons.
      destruct (decide _); [|done]. constructor; [done|]. apply Forall_forall.
      intros j [_ Hj]%list_elem_of_filter. by apply (proj1 (Forall_forall _ _) Hi).
  - done.
Qed.

(** ** Splitting until nothing is left *)

#[export] Instance unused_dec a i : Decision (unused a i).
Proof. unfold unused. apply _. Defined.

Definition unused_list (a : llama_batch_allocr) : list nat :=
  filter (fun i => unused a i) (seq 0 (length (a_used a))).

Lemma cnt_all u : (forall i, u !! i <> Some false) -> cnt id u = length u.
Proof.
  induction u as [|b u IH]; intros H; [done|]. rewrite cnt_cons. simpl.
  rewrite IH by (intros i; apply (H (S i))). destruct b; [done|]. by destruct (H 0).
Qed.

Lemma elem_of_unused_list a i : i ∈ unused_list a <-> unused a i.
Proof.
  unfold unused_list. rewrite list_elem_of_filter, elem_of_seq. split; [by intros [? _]|].
  intros Hi. split; [done|]. apply lookup_lt_Some in Hi. lia.
Qed.

Lemma marks_unused idxs a a' :
  marks idxs (a_used a) (a_used a') -> (forall i, unused a' i <-> unused a i /\ i ∉ idxs).
Proof.
  intros [Hl Hm] i. unfold unused. split.
  - intros Hi. pose proof (lookup_lt_Some _ _ _ Hi). rewrite Hm in Hi by lia. destruct (decide (i ∈ idxs)); done.
  - intros [Hi Hn]. pose proof (lookup_lt_Some _ _ _ Hi). rewrite Hm by lia. by rewrite decide_False.
Qed.

Lemma unused_list_perm idxs a a' :
  marks idxs (a_used a) (a_used a') -> NoDup idxs -> (forall i, i ∈ idxs -> unused a i) ->
  idxs ++ unused_list a' ≡ₚ unused_list a.
Proof.
  intros Hm Hn Hun. pose proof (marks_unused idxs a a' Hm) as Hu.
  apply NoDup_Permutation.
  - apply NoDup_app. split_and!; [done | | apply NoDup_filter, NoDup_seq]. intros i Hi Hi'.
    apply elem_of_unused_list, Hu in Hi' as [_ ?]. done.
  - apply NoDup_filter, NoDup_seq.
  - intros i. rewrite elem_of_app, !elem_of_unused_list, Hu. split; [intros [Hi | [Hi _]]; [by apply Hun | done]|].
    intros Hi. destruct (decide (i ∈ idxs)); [by left | by right].
Qed.

(** Tokens of the same sequence set stay in batch order. *)
Definition keeps_order (a : llama_batch_allocr) (idxs : list nat) : Prop :=
  forall S, StronglySorted lt (filter (fun i => a_seq_set a !! i = Some S) idxs).

Section split_loop.
Context (split : llama_batch_allocr -> outcome (llama_ubatch * llama_batch_allocr)).
Context (ids : list (list Z)) (pos : list Z) (inv : llama_batch_allocr -> Prop).
Context `{!Splitter split ids pos inv}.

Lemma split_loop_spec fuel acc a :
  ready a ids pos -> used_ok a (length ids) -> inv a -> length (unused_list a) < fuel ->
  exists idxss us a', split_loop fuel split acc a = Ok (acc ++ us, a') /\
    Forall2 (ubatch_of a ids pos) idxss us /\ Forall (fun idxs => idxs <> []) idxss /\
    concat idxss ≡ₚ unused_list a /\ keeps_order a (concat idxss) /\
    a_n_used a' = length ids /\ a_batch a' = a_batch a.
Proof using Type*.
  revert acc a; induction fuel as [|fuel IH]; intros acc a Ha Hu Hinv Hf; [lia|].
  simpl. destruct (unused_list a) as [|i0 rest] eqn:El.
  - assert (forall i, ~ unused a i) as Hno by (intros i Hi; apply elem_of_unused_list in Hi; rewrite El in Hi; by apply elem_of_nil in Hi).
    rewrite (split_done a Ha Hu Hinv Hno). simpl. exists [], [], a. rewrite app_nil_r. split_and!; try done.
    + intros S. constructor.
    + destruct Hu as [Hl ->]. rewrite <- Hl. apply cnt_all. exact Hno.
  - assert (exists i, unused a i) as Hex by (exists i0; apply elem_of_unused_list; rewrite El; by left).
    rewrite <- El in *. clear El rest i0.
    destruct (split_takes a Ha Hu Hinv Hex) as
      (idxs & u & a' & out & -> & Ea & Hne & Hnd & Hun & Hmk & Hu' & Hinv' & Hub & Hord). simpl.
    rewrite (uo_n _ _ _ _ _ Hub). rewrite (proj2 (Nat.eqb_neq _ 0)) by (by destruct idxs).
    pose proof (marks_unused idxs a a' Hmk) as Humk.
    pose proof (unused_list_perm idxs a a' Hmk Hnd Hun) as Hp.
    destruct (IH (acc ++ [u]) a') as (idxss & us & a2 & -> & Hubs & Hnes & Hperm & Hko & Hn & Hb); try done.
    + rewrite Ea. by apply ready_set_split.
    + apply Permutation_length in Hp. rewrite length_app in Hp. destruct idxs; [done|]. simpl in Hp. lia.
    + exists (idxs :: idxss), (u :: us), a2. rewrite <- app_assoc. split_and!; try done.
      * constructor; [done|]. eapply Forall2_impl; [exact Hubs|]. intros x y Hxy. rewrite Ea in Hxy.
        by rewrite ubatch_of_set_split in Hxy.
      * by constructor.
      * simpl. by rewrite Hperm.
      * intros S. simpl. rewrite filter_app. apply StronglySorted_app. split_and!; [|apply Hord |].
        -- intros x y [Sx Hx]%list_elem_of_filter [Sy Hy]%list_elem_of_filter.
           rewrite Hperm, elem_of_unused_list in Hy.
           destruct (Nat.lt_trichotomy x y) as [? | [-> | Hyx]]; [done | |].
           ++ by apply Humk in Hy as [_ ?].
           ++ exfalso. pose proof (split_in_order a' Hinv') as Ho.
              assert (a_used a' !! x = Some true) as Hxu.
              { rewrite (proj2 Hmk) by (apply (lookup_lt_Some (a_used a) x false), Hun; done). by rewrite decide_True. }
              unfold unused in Hy. rewrite (Ho y x) in Hy; try done; rewrite Ea; simpl; [by eapply lookup_lt_Some | congruence].
        -- specialize (Hko S). rewrite Ea in Hko. exact Hko.
      * rewrite Hb, Ea. done.
Qed.
End split_loop.
