(* ===== verification/BatchProps.v ===== *)
(** * Properties of the batch splits

    The claims on Batch.v beyond [init]: the loop of [init_batch] cuts a batch into
    ubatches without losing or repeating a token, and the shapes of the ubatches
    of [split_equal] and [split_seq]. *)

From S2P Require Import KvCells.
From S2P Require Export BatchSplit.

Lemma ready_split_reset a ids pos :
  ready a ids pos -> ready (split_reset a) ids pos /\ used_ok (split_reset a) (length ids) /\
    a_used (split_reset a) = replicate (length ids) false.
Proof.
  intros Ha. assert (get_n_tokens a = length ids) as Hn
    by (unfold get_n_tokens; by rewrite (fl_n _ _ _ (rd_batch _ _ _ Ha)), Nat2Z.id).
  split_and!; [by apply ready_set_split | | simpl; by rewrite Hn].
  split; simpl; rewrite Hn; [apply length_replicate|]. symmetry. apply cnt_zero. by intros x [-> _]%elem_of_replicate.
Qed.

Lemma unused_list_fresh a n : a_used a = replicate n false -> unused_list a = seq 0 n.
Proof.
  intros E. unfold unused_list. rewrite E, length_replicate. apply list_filter_id.
  intros i Hi%elem_of_seq. unfold unused. rewrite E. apply lookup_replicate. split; [done | lia].
Qed.

Lemma fresh_no_used a n i : a_used a = replicate n false -> a_used a !! i <> Some true.
Proof. intros -> H. by apply lookup_replicate in H as [? _]. Qed.

(** C10: the splitting loop of [init_batch] terminates and loses nothing: for a batch
    [init] accepted, with one stream ([split_simple]) or without coupled sequences
    ([split_equal], sequential), it returns ubatches that copy pairwise different
    tokens, together every token of the batch exactly once; no ubatch is empty and
    tokens of the same sequence set keep their order.  With several streams and
    coupled sequences it refuses the batch. *)
Theorem split_ubatches_partition n_stream n_ubatch a ids pos :
  ready a ids pos ->
  if (n_stream =? 1) || negb (a_has_cpl a) then
    exists idxss us a', split_ubatches n_stream n_ubatch a = Ok (Some us, a') /\
      Forall2 (ubatch_of a ids pos) idxss us /\ Forall (fun idxs => idxs <> []) idxss /\
      concat idxss ≡ₚ seq 0 (length ids) /\ keeps_order a (concat idxss)
  else exists a', split_ubatches n_stream n_ubatch a = Ok (None, a').
Proof.
  intros Ha. destruct (ready_split_reset a ids pos Ha) as (Ha' & Hu' & Ef).
  pose proof (unused_list_fresh _ _ Ef) as Eun. pose proof (fun i => fresh_no_used _ _ i Ef) as Hno.
  assert (get_n_tokens (split_reset a) = length ids) as Hn
    by (unfold get_n_tokens; by rewrite (fl_n _ _ _ (rd_batch _ _ _ Ha')), Nat2Z.id).
  assert (forall split inv, Splitter split ids pos inv -> inv (split_reset a) ->
    exists idxss us a', split_loop (S (length ids)) split [] (split_reset a) = Ok (us, a') /\
      Forall2 (ubatch_of a ids pos) idxss us /\ Forall (fun idxs => idxs <> []) idxss /\
      concat idxss ≡ₚ seq 0 (length ids) /\ keeps_order a (concat idxss) /\
      a_n_used a' = length ids /\ get_n_tokens a' = length ids) as Hloop.
  { intros split inv Hs Hinv.
    destruct (split_loop_spec split ids pos inv (S (length ids)) [] (split_reset a) Ha' Hu' Hinv)
      as (idxss & us & a' & E & Hub & Hne & Hp & Ho & Hc & Hb); [rewrite Eun, length_seq; lia|].
    exists idxss, us, a'. rewrite Eun in Hp. split_and!; try done.
    - eapply Forall2_impl; [exact Hub|]. intros x y. apply ubatch_of_set_split.
    - unfold get_n_tokens. by rewrite Hb. }
  unfold split_ubatches. rewrite Hn. destruct (n_stream =? 1) eqn:En; simpl orb; cbv iota.
  - destruct (Hloop _ _ (split_simple_splitter n_ubatch ids pos)) as (idxss & us & a' & -> & H1 & H2 & H3 & H4 & Hc & Hg).
    { intros i j _ Hj. by destruct (Hno j). }
    cbn [mbind outcome_bind fst snd]. rewrite Hc, Hg, Nat.ltb_irrefl. by exists idxss, us, a'.
  - destruct (a_has_cpl a) eqn:Ec; simpl negb; cbv iota.
    + simpl split_loop. unfold split_equal. simpl (a_has_cpl _). rewrite Ec. simpl.
      rewrite Hn. rewrite (proj2 (Nat.ltb_lt 0 (length ids))) by apply (rd_some _ _ _ Ha). by eexists.
    + destruct (Hloop _ _ (split_equal_splitter n_ubatch true ids pos)) as (idxss & us & a' & -> & H1 & H2 & H3 & H4 & Hc & Hg).
      { split; [|done]. intros i j _ _ _ Hj. by destruct (Hno j). }
      cbn [mbind outcome_bind fst snd]. rewrite Hc, Hg, Nat.ltb_irrefl. by exists idxss, us, a'.
Qed.

(** C38: an equal split (no tail to keep together) of a batch with unused tokens takes
    the same number [m] of unused tokens, in order, from each of its sequence sets;
    the sets have no sequence in common, and with [sequential] their first ids are
    consecutive.  All rows fit in [n_ubatch] unless [m] is 1, and then there can be
    [n_ubatch + 1] of them: one token more than asked for. *)
Theorem split_equal_shape n sequential a ids pos :
  ready a ids pos -> used_ok a (length ids) -> in_order a -> (exists i, unused a i) ->
  (sequential = true -> a_has_cpl a = false) ->
  exists sets rows m u a', split_equal n sequential 0 a = Ok (u, a') /\
    disjoint_sets sets /\ Forall2 (equal_row a m) sets rows /\
    0 < length rows <= n + 1 /\ 0 < m /\ (m * length rows <= n \/ m = 1) /\
    (sequential = true -> exists last, sequential_ids ids sets last) /\
    ubatch_of a ids pos (concat rows) u /\ u_n_seqs u = length rows /\ u_n_seq_tokens u = m /\
    marks (concat rows) (a_used a) (a_used a') /\ used_ok a' (length ids).
Proof.
  intros Ha Hu Ho Hex Hc. destruct (split_equal_spec n sequential a ids pos Ha Hu Ho Hex Hc)
    as (sets & rows & m & u & a' & out & E & _ & H1 & H2 & H3 & H4 & H5 & H6 & _ & H7 & H8 & _ & H9 & _ & H10 & H11).
  by exists sets, rows, m, u, a'.
Qed.

(** a sequence-wise split starts at the first unused token and takes at most
    [n_ubatch] tokens (at least one), in batch order, each with a sequence set
    included in the previous one's; no unused token of the same sequence set as a
    taken one is skipped before it. *)
Theorem split_seq_shape n a ids pos :
  ready a ids pos -> used_ok a (length ids) -> in_order a -> (exists i, unused a i) ->
  exists idxs u a', split_seq n a = Ok (u, a') /\
    head idxs = Some (first_unused (a_used a)) /\ length idxs <= Nat.max 1 n /\ chain a idxs /\
    (forall i, i ∈ idxs -> unused a i) /\ none_skipped a idxs /\ ubatch_of a ids pos idxs u /\
    marks idxs (a_used a) (a_used a') /\ used_ok a' (length ids) /\ in_order a'.
Proof.
  intros Ha Hu Ho Hex. destruct (split_seq_spec n a ids pos Ha Hu Ho Hex)
    as (idxs & u & a' & out & E & _ & H1 & H2 & H3 & H4 & H5 & H6 & H7 & H8 & H9).
  by exists idxs, u, a'.
Qed.

(** ** Witnesses: three sequences, two tokens of the first *)

Definition split_ids : list (list Z) := [[0]; [1]; [0]; [2]]%Z.
Definition split_pos : list Z := [0; 0; 1; 0]%Z.
Definition split_batch : llama_batch :=
  mk_batch 4 (Some [5; 6; 7; 8]%Z) None (Some split_pos) (Some [1; 1; 1; 1]%Z) (Some split_ids) None.

Definition split_demo : llama_batch_allocr :=
  match init split_batch 10 None 0 4 false (new_allocr 1) with Ok (_, a) => a | Err _ => new_allocr 1 end.

Lemma split_demo_ready :
  ready split_demo split_ids split_pos /\ used_ok split_demo 4 /\ in_order split_demo /\ unused split_demo 0 /\
  a_has_cpl split_demo = false.
Proof.
  destruct (init_spec 10 None 0 4 false (new_allocr 1) split_batch split_ids split_pos) as (ok & a' & E & _ & Hok).
  - apply new_allocr_shaped.
  - split; simpl; try done; try lia; [by repeat constructor | by intros l [= <-]].
  - lia.
  - repeat constructor; unfold small; lia.
  - intros s. unfold small. simpl. lia.
  - assert (match init split_batch 10 None 0 4 false (new_allocr 1) with Ok (t, _) => t | Err _ => false end = true) as Et
      by (vm_compute; reflexivity).
    rewrite E in Et. subst ok. destruct (Hok eq_refl) as (Hr & Hu & Hf).
    assert (split_demo = a') as -> by (unfold split_demo; rewrite E; reflexivity).
    clear E. split_and!; [exact Hr | exact Hu | | |].
    + intros i j _ _ _ Hj. by destruct (fresh_no_used _ _ j Hf).
    + unfold unused. by rewrite Hf.
    + destruct (a_has_cpl a') eqn:Ec; [|done]. apply (rd_cpl _ _ _ Hr) in Ec as (l & Hl & Hlt).
      unfold split_ids in Hl. set_unfold. destruct_or!; subst; simpl in Hlt; lia.
Qed.

Lemma split_ubatches_partition_witness :
  exists idxss us a', split_ubatches 3 2 split_demo = Ok (Some us, a') /\ concat idxss ≡ₚ [0; 1; 2; 3] /\
    u_n_tokens <$> us = [3; 1].
Proof.
  destruct split_demo_ready as (Hr & _ & _ & _ & Hc).
  pose proof (split_ubatches_partition 3 2 split_demo split_ids split_pos Hr) as H. rewrite Hc in H.
  destruct H as (idxss & us & a' & E & _ & _ & Hp & _). exists idxss, us, a'. split; [exact E|]. split; [exact Hp|].
  assert (match split_ubatches 3 2 split_demo with Ok (Some us, _) => u_n_tokens <$> us | _ => [] end = [3; 1]) as Et
    by (vm_compute; reflexivity).
  rewrite E in Et. exact Et.
Defined.

(** Three tokens although [n_ubatch] is 2. *)
Lemma split_equal_shape_witness :
  exists u a', split_equal 2 true 0 split_demo = Ok (u, a') /\ u_n_tokens u = 3 /\ u_n_seqs u = 3.
Proof.
  destruct split_demo_ready as (Hr & Hu & Ho & Hun & Hc).
  destruct (split_equal_shape 2 true split_demo split_ids split_pos Hr Hu Ho (ex_intro _ 0 Hun) (fun _ => Hc))
    as (sets & rows & m & u & a' & E & _).
  exists u, a'. split; [exact E|].
  assert (match split_equal 2 true 0 split_demo with Ok (u, _) => (u_n_tokens u, u_n_seqs u) | _ => (0, 0) end = (3, 3)) as Et
    by (vm_compute; reflexivity).
  rewrite E in Et. injection Et as E1 E2. split; [exact E1 | exact E2].
Defined.

Lemma split_seq_shape_witness :
  exists u a', split_seq 4 split_demo = Ok (u, a') /\ u_pos u = [0; 1]%Z.
Proof.
  destruct split_demo_ready as (Hr & Hu & Ho & Hun & _).
  destruct (split_seq_shape 4 split_demo split_ids split_pos Hr Hu Ho (ex_intro _ 0 Hun)) as (idxs & u & a' & E & _).
  exists u, a'. split; [exact E|].
  assert (match split_seq 4 split_demo with Ok (u, _) => u_pos u | _ => [] end = [0; 1]%Z) as Et
    by (vm_compute; reflexivity).
  rewrite E in Et. exact Et.
Defined.
