(* ===== verification/KvCache.v ===== *)
(** * llama_kv_cache: state and sequence operations (src/src/llama-kv-cache.{h,cpp})

    The cache owns one [kv_cells] per stream, a search head per stream, the map
    from sequences to streams, the allocation cursors of structured caches and
    the exact tail.  This file has its state and every operation on sequences;
    KvSlots.v places batches.

    What the model leaves out is the payload: the K and V tensors, the copies
    between them and the graphs that read them.  Streams and cells are [nat],
    sequence ids are [Z] as the callers pass them, generations and ordinals wrap
    at 64 bits.  A cache that shares the cells of another one
    ([other]) answers position queries through the interface [llama_memory].

    Operations are state transformers: the state survives an exception.  Inside a
    loop over cells only assertions can fail (the sequence ids are checked before),
    and they end the program, so the partial changes of such a loop are not kept. *)

From S2P Require Import KvCells Batch.
From S2P Require Import TailStore.
From S2P Require Export Prelude TailPlan.
Open Scope nat_scope.

(** ** Data *)

(** The [const] members and those the constructor settles. *)
Record cache_cfg := mk_cache_cfg {
  n_seq_max : nat;
  n_stream : nat;
  n_pad : Z;
  n_swa : Z;
  swa_type : llama_swa_type;
  n_pos_per_embd : nat;
  tail_metadata_only : bool;
  tail_rollback_tokens : Z;
  tail_plan : llama_kv_tail_storage_plan;
  tail_arena_stride : Z;
  tail_sink_slots : Z;
  tail_slots : Z;
  other : option llama_memory
}.

Definition has_compact_tail (g : cache_cfg) : bool :=
  match sp_kind (tail_plan g) with
  | STORAGE_COMPACT_OVERLAY | STORAGE_COMPACT_NATIVE_EXACT => true
  | _ => false
  end.

Definition has_tail_overlay (g : cache_cfg) : bool :=
  match sp_kind (tail_plan g) with
  | STORAGE_OVERLAY | STORAGE_COMPACT_OVERLAY | STORAGE_COMPACT_NATIVE_EXACT => true
  | _ => false
  end.

Record stream_copy_info := mk_sc {
  ssrc : list nat; sdst : list nat;
  tail_src_slots : list Z; tail_dst_slots : list Z;
  tail_transaction : bool
}.

Definition no_copies : stream_copy_info := mk_sc [] [] [] [] false.

Definition sc_empty (i : stream_copy_info) : outcome bool :=
  _ ← assert_ (length (ssrc i) =? length (sdst i));
  _ ← assert_ (length (tail_src_slots i) =? length (tail_dst_slots i));
  Ok ((length (ssrc i) =? 0) && (length (tail_src_slots i) =? 0) && negb (tail_transaction i)).

(** Allocation of whole record groups, for structured caches. *)
Record alloc_state := mk_alloc {
  allocation_group_size : nat;
  allocation_stage_groups : nat;
  allocation_group_sealed : list bool;
  allocation_seq_heads : list nat;
  state_remap_group_size : nat
}.

Record tail_state := mk_tail {
  tail : option tail_store;
  tail_generations : list (list Z);
  tail_generations_before_batch : list (list Z);
  tail_ordinal : Z;
  tail_write_slots : list Z;
  tail_write_levels : nat;
  tail_preparing : bool;
  tail_graph_started : bool
}.

Record kv_cache := mk_cache {
  k_cfg : cache_cfg;
  v_cells : list kv_cells;
  v_heads : list nat;
  seq_to_stream : list nat;
  k_alloc : alloc_state;
  k_tail : tail_state;
  sc_info : stream_copy_info;
  restored_tail_payload_slots : list (list Z);
  state_cell_remap : list (nat * nat)
}.

Definition set_cells v k := mk_cache (k_cfg k) v (v_heads k) (seq_to_stream k) (k_alloc k) (k_tail k) (sc_info k)
  (restored_tail_payload_slots k) (state_cell_remap k).
Definition set_heads v k := mk_cache (k_cfg k) (v_cells k) v (seq_to_stream k) (k_alloc k) (k_tail k) (sc_info k)
  (restored_tail_payload_slots k) (state_cell_remap k).
Definition set_alloc v k := mk_cache (k_cfg k) (v_cells k) (v_heads k) (seq_to_stream k) v (k_tail k) (sc_info k)
  (restored_tail_payload_slots k) (state_cell_remap k).
Definition set_tail v k := mk_cache (k_cfg k) (v_cells k) (v_heads k) (seq_to_stream k) (k_alloc k) v (sc_info k)
  (restored_tail_payload_slots k) (state_cell_remap k).
Definition set_sc v k := mk_cache (k_cfg k) (v_cells k) (v_heads k) (seq_to_stream k) (k_alloc k) (k_tail k) v
  (restored_tail_payload_slots k) (state_cell_remap k).

Definition set_al_heads v a := mk_alloc (allocation_group_size a) (allocation_stage_groups a)
  (allocation_group_sealed a) v (state_remap_group_size a).
Definition set_sealed v a := mk_alloc (allocation_group_size a) (allocation_stage_groups a) v
  (allocation_seq_heads a) (state_remap_group_size a).

Definition set_store v t := mk_tail v (tail_generations t) (tail_generations_before_batch t) (tail_ordinal t)
  (tail_write_slots t) (tail_write_levels t) (tail_preparing t) (tail_graph_started t).
Definition set_generations v t := mk_tail (tail t) v (tail_generations_before_batch t) (tail_ordinal t)
  (tail_write_slots t) (tail_write_levels t) (tail_preparing t) (tail_graph_started t).
Definition set_before v started t := mk_tail (tail t) (tail_generations t) v (tail_ordinal t)
  (tail_write_slots t) (tail_write_levels t) (tail_preparing t) started.
Definition set_ordinal v t := mk_tail (tail t) (tail_generations t) (tail_generations_before_batch t) v
  (tail_write_slots t) (tail_write_levels t) (tail_preparing t) (tail_graph_started t).
Definition set_writes slots levels t := mk_tail (tail t) (tail_generations t) (tail_generations_before_batch t)
  (tail_ordinal t) slots levels (tail_preparing t) (tail_graph_started t).
Definition set_preparing v t := mk_tail (tail t) (tail_generations t) (tail_generations_before_batch t)
  (tail_ordinal t) (tail_write_slots t) (tail_write_levels t) v (tail_graph_started t).

(** ** Running the parts *)

Definition gets {A} (f : kv_cache -> outcome A) : stx kv_cache A := fun k => (f k, k).

(** [v_cells[st]] and [v_heads[st]] by reference. *)
Definition on_cells {A} (st : nat) (f : kv_cells -> outcome (A * kv_cells)) : stx kv_cache A := fun k =>
  match v_cells k !! st with
  | None => (Err OutOfBounds, k)
  | Some c => match f c with
              | Ok (a, c') => (Ok a, set_cells (<[st := c']> (v_cells k)) k)
              | Err e => (Err e, k)
              end
  end.

Definition on_head (st : nat) (f : nat -> nat) : stx kv_cache unit := fun k =>
  match v_heads k !! st with
  | None => (Err OutOfBounds, k)
  | Some h => (Ok tt, set_heads (<[st := f h]> (v_heads k)) k)
  end.

(** [tail->m()]; through a null pointer it is a fault. *)
Definition on_tail {A} (m : stx tail_store A) : stx kv_cache A := fun k =>
  match tail (k_tail k) with
  | None => (Err OutOfBounds, k)
  | Some t => let '(r, t') := m t in (r, set_tail (set_store (Some t') (k_tail k)) k)
  end.

(** [if (tail) { m }] *)
Definition if_tail (m : stx kv_cache unit) : stx kv_cache unit := fun k =>
  match tail (k_tail k) with Some _ => m k | None => (Ok tt, k) end.

Definition stream_of (seq_id : Z) (k : kv_cache) : outcome nat :=
  _ ← assert_ ((0 <=? seq_id)%Z && (seq_id <? Z.of_nat (length (seq_to_stream k)))%Z);
  vec_get (seq_to_stream k) (Z.to_nat seq_id).

Definition cells_of (st : nat) (k : kv_cache) : outcome kv_cells := vec_get (v_cells k) st.

(** [for (seq_id = 0; seq_id < n_seq_max; ++seq_id)] *)
Definition for_all_seqs (f : Z -> stx kv_cache unit) : stx kv_cache unit := fun k =>
  forX (fun i => f (Z.of_nat i)) (seq 0 (n_seq_max (k_cfg k))) k.

(** ** Construction *)

(** The data members the constructor sets up, for a cache of its own; the tail
    store, when there is one, is made by [finalize_tail_overlay_metadata]. *)
Definition new_cache (g : cache_cfg) (kv_size : nat) : kv_cache :=
  mk_cache g (replicate (n_stream g) (cells_resize kv_size empty_cells)) (replicate (n_stream g) 0)
    (if 1 <? n_stream g then seq 0 (n_stream g) else replicate LLAMA_MAX_SEQ 0)
    (mk_alloc 1 1 [] (replicate (n_seq_max g) 0) 1)
    (mk_tail None [] [] 0 [] 0 false false) no_copies [] [].

Definition get_size (k : kv_cache) : outcome nat :=
  st ← vec_get (seq_to_stream k) 0;
  c ← cells_of st k;
  Ok (cells_size c).

(** The store follows the plan; the routes are checked before. *)
Definition finalize_tail_overlay_metadata : stx kv_cache unit :=
  k ← stx_get;
  if negb (has_tail_overlay (k_cfg k)) || bool_decide (tail (k_tail k) <> None) then mret tt else
  let p := tail_plan (k_cfg k) in
  let seqs := Z.of_nat (n_seq_max (k_cfg k)) in
  s ← stx_lift (if has_compact_tail (k_cfg k)
        then store_compact (sp_effective_tokens p) (cl_rollback_tokens (sp_compact_layout p)) seqs
               (cl_history_stride (sp_compact_layout p)) 0
        else store_overlay (sp_effective_tokens p) seqs (tl_arena_stride (sp_layout p)) (tl_sink_slots (sp_layout p)));
  n ← gets get_size;
  stx_modify (fun k => set_tail (set_store (Some s)
    (set_generations (replicate (n_stream (k_cfg k)) (replicate n 0%Z)) (k_tail k))) k).

(** ** Allocation heads of structured caches *)

Definition reset_allocation_head (seq_id : Z) : stx kv_cache unit :=
  k ← stx_get;
  if (seq_id <? 0)%Z || (Z.of_nat (n_seq_max (k_cfg k)) <=? seq_id)%Z || (length (allocation_seq_heads (k_alloc k)) =? 0)
  then mret tt else
  heads ← stx_lift (vec_set (allocation_seq_heads (k_alloc k)) (Z.to_nat seq_id) 0);
  stx_modify (fun k => set_alloc (set_al_heads heads (k_alloc k)) k).

(** The newest cell of a sequence, or the number of cells. *)
Definition newest_cell (seq_id : nat) (c : kv_cells) : outcome nat :=
  r ← foldM (fun '(pos_max, newest) cell =>
        t ← seq_has cell seq_id c;
        if (t : bool) then
          p ← pos_get cell c;
          Ok (if (pos_max <? p)%Z then (p, cell) else (pos_max, newest))
        else Ok (pos_max, newest)) (seq 0 (cells_size c)) ((-1)%Z, cells_size c);
  Ok r.2.

Definition rebuild_allocation_head (seq_id : Z) : stx kv_cache unit :=
  k ← stx_get;
  if (seq_id <? 0)%Z || (Z.of_nat (n_seq_max (k_cfg k)) <=? seq_id)%Z
     || (allocation_group_size (k_alloc k) <=? 1) || negb (n_stream (k_cfg k) =? 1)
  then mret tt else
  c ← gets (cells_of 0);
  newest ← stx_lift (newest_cell (Z.to_nat seq_id) c);
  if newest =? cells_size c then reset_allocation_head seq_id else
  heads ← stx_lift (vec_set (allocation_seq_heads (k_alloc k)) (Z.to_nat seq_id) (newest + 1));
  stx_modify (fun k => set_alloc (set_al_heads heads (k_alloc k)) k).

Definition allocation_cell_uses_stage (cell : nat) (k : kv_cache) : outcome bool :=
  let a := k_alloc k in
  if (allocation_group_size a <=? 1) || negb (n_stream (k_cfg k) =? 1) then Ok false else
  n ← get_size k;
  if n <=? cell then Ok false else
  let group := cell / allocation_group_size a in
  if group =? 0 then Ok true else
  Ok (existsb (fun head => negb (head =? 0) && negb (head mod allocation_group_size a =? 0)
                           && ((head - 1) / allocation_group_size a =? group)) (allocation_seq_heads a)).

(** Number of used cells among [n] from [i] on. *)
Definition count_used (c : kv_cells) (i n : nat) : outcome nat :=
  foldM (fun used cell => e ← is_empty cell c; Ok (if (e : bool) then used else used + 1)) (seq i n) 0.

Definition sealed_of (k : kv_cache) (c : kv_cells) (sealed : list bool) (group : nat) : outcome (list bool) :=
  let size := allocation_group_size (k_alloc k) in
  let start := group * size in
  used ← count_used c start (Nat.min (start + size) (cells_size c) - start);
  if used =? 0 then Ok sealed else
  if size <=? used then vec_set sealed group true else
  stage ← allocation_cell_uses_stage start k;
  vec_set sealed group (negb stage).

Definition rebuild_allocation_group_sealed : stx kv_cache unit :=
  k ← stx_get;
  let size := allocation_group_size (k_alloc k) in
  if (size <=? 1) || negb (n_stream (k_cfg k) =? 1) || (length (v_cells k) =? 0) then mret tt else
  c ← gets (cells_of 0);
  let n_groups := cells_size c / size in
  sealed ← stx_lift (foldM (sealed_of k c) (seq 1 (n_groups - 1)) (replicate n_groups false));
  stx_modify (fun k => set_alloc (set_sealed sealed (k_alloc k)) k).

Definition set_state_remap_group_size (group_size : nat) : stx kv_cache unit :=
  n ← gets get_size;
  if (group_size =? 0) || negb (n mod group_size =? 0) then stx_throw InvalidArgument else
  stx_modify (fun k => let a := k_alloc k in set_alloc (mk_alloc (allocation_group_size a) (allocation_stage_groups a)
    (allocation_group_sealed a) (allocation_seq_heads a) group_size) k).

Definition set_allocation_group_size (group_size stage_groups : nat) : stx kv_cache unit :=
  n ← gets get_size;
  if (group_size =? 0) || (stage_groups =? 0) || negb (n mod group_size =? 0) || (n / group_size <? stage_groups)
  then stx_throw InvalidArgument else
  stx_modify (fun k => let a := k_alloc k in set_alloc (mk_alloc group_size stage_groups
    (allocation_group_sealed a) (allocation_seq_heads a) (state_remap_group_size a)) k);;
  for_all_seqs reset_allocation_head.

(** ** Clearing *)

(** The buffers are not cleared here. *)
Definition clear : stx kv_cache unit :=
  stx_modify (set_sc no_copies);;
  if_tail
    (on_tail TailStore.clear;;
     stx_modify (fun k => let t := k_tail k in
       set_tail (set_generations (map (map (fun _ => 0%Z)) (tail_generations t))
         (set_writes [] (tail_write_levels t) (set_ordinal 0 t))) k));;
  k ← stx_get;
  forX (fun st => on_cells st (fun c => Ok (tt, cells_reset c));; on_head st (fun _ => 0)) (seq 0 (n_stream (k_cfg k)));;
  for_all_seqs reset_allocation_head.

Definition reset_tail_write_cursor (seq_id : Z) : stx kv_cache unit :=
  if_tail
    (k ← stx_get;
     if (seq_id <? 0)%Z then for_all_seqs (fun s => on_tail (TailStore.reset_write_cursor s))
     else if (seq_id <? Z.of_nat (n_seq_max (k_cfg k)))%Z then on_tail (TailStore.reset_write_cursor seq_id)
     else mret tt).

(** ** Positions of a sequence *)

(** The sequence id of the shared cache's query is the caller's. *)
Definition seq_pos_min (seq_id : Z) (k : kv_cache) : outcome Z :=
  match other (k_cfg k) with
  | Some m => Ok (m_pos_min m (Z.to_nat seq_id))
  | None => st ← stream_of seq_id k; c ← cells_of st k; KvCells.seq_pos_min (Z.to_nat seq_id) c
  end.

Definition seq_pos_max (seq_id : Z) (k : kv_cache) : outcome Z :=
  match other (k_cfg k) with
  | Some m => Ok (m_pos_max m (Z.to_nat seq_id))
  | None => st ← stream_of seq_id k; c ← cells_of st k; KvCells.seq_pos_max (Z.to_nat seq_id) c
  end.

(** The copied indices and the number of matching cells. *)
Definition cells_at_pos (seq_id pos n_max : Z) (k : kv_cache) : outcome (list nat * nat) :=
  st ← stream_of seq_id k;
  c ← cells_of st k;
  result ← KvCells.cells_at (Z.to_nat seq_id) pos c;
  Ok (take (Z.to_nat n_max) result, length result).

Definition get_has_shift (k : kv_cache) : outcome bool :=
  foldM (fun r st => c ← cells_of st k; Ok (r || c_has_shift c)) (seq 0 (n_stream (k_cfg k))) false.

(** ** What may be removed *)

Record seq_rm_capability := mk_rm_capability {
  full_clear : bool; arbitrary_ranges : bool; suffix_rollback_tokens : Z
}.

(** [{}] of the interface: everything, unbounded. *)
Definition any_seq_rm : seq_rm_capability := mk_rm_capability true true UINT32_MAX.

(** Positions survive outside the tail. *)
Definition body_kept (g : cache_cfg) : bool :=
  tail_metadata_only g || sp_has_owned_body (tail_plan g) || sp_has_shared_body (tail_plan g).

Definition get_seq_rm_capability (k : kv_cache) : seq_rm_capability :=
  if has_compact_tail (k_cfg k) then
    mk_rm_capability true false (if body_kept (k_cfg k) then UINT32_MAX else tail_rollback_tokens (k_cfg k))
  else any_seq_rm.

Definition can_seq_rm (seq_id p0 p1 : Z) (k : kv_cache) : outcome bool :=
  if negb (has_compact_tail (k_cfg k)) then Ok true else
  if (seq_id <? 0)%Z || (Z.of_nat (length (seq_to_stream k)) <=? seq_id)%Z then Ok ((p0 <=? 0)%Z && (p1 <? 0)%Z) else
  if (p0 <=? 0)%Z && (p1 <? 0)%Z then Ok true else
  if (p0 <=? 0)%Z || (0 <=? p1)%Z then Ok false else
  if body_kept (k_cfg k) then Ok true else
  pos_max ← seq_pos_max seq_id k;
  llama_kv_tail_can_remove_suffix pos_max p0 p1 (tail_rollback_tokens (k_cfg k)).

Definition seq_rm_plan (seq_id p0 p1 : Z) (k : kv_cache) : outcome (option (Z * Z)) :=
  ok ← can_seq_rm seq_id p0 p1 k;
  Ok (if (ok : bool) then Some (p0, p1) else None).

(** ** Sweeping over the cells of a stream

    [for (i = 0; i < cells.size(); ++i)] with the first freed cell noted in
    [new_head]; [P] guards the body and [f] tells whether it freed the cell. *)

Definition note_freed (size new_head i : nat) (freed : bool) : nat :=
  if freed && (new_head =? size) then i else new_head.

Definition sweep (P : nat -> kv_cells -> outcome bool) (f : nat -> kv_cells -> outcome (bool * kv_cells))
    (c : kv_cells) : outcome (nat * kv_cells) :=
  foldM (fun '(new_head, c) i =>
    b ← P i c;
    if (b : bool) then r ← f i c; Ok (note_freed (cells_size r.2) new_head i r.1, r.2)
    else Ok (new_head, c)) (seq 0 (cells_size c)) (cells_size c, c).

(** [if (new_head != cells.size() && new_head < head) head = new_head;] *)
Definition lower_head (size new_head head : nat) : nat :=
  if negb (new_head =? size) && (new_head <? head) then new_head else head.

(** The sweep on stream [st], then its head. *)
Definition sweep_stream (P : nat -> kv_cells -> outcome bool) (f : nat -> kv_cells -> outcome (bool * kv_cells))
    (st : nat) (to_head : nat -> nat -> nat -> nat) : stx kv_cache unit :=
  c ← gets (cells_of st);
  new_head ← on_cells st (sweep P f);
  on_head st (to_head (cells_size c) new_head).

(** [cells.pos_in(i, p0, p1) && cells.seq_has(i, seq_id)] *)
Definition in_seq (s : nat) (p0 p1 : Z) (i : nat) (c : kv_cells) : outcome bool :=
  b ← pos_in i p0 p1 c;
  if (b : bool) then seq_has i s c else Ok false.

(** A body that frees no cell. *)
Definition no_free (f : nat -> kv_cells -> outcome kv_cells) (i : nat) (c : kv_cells) : outcome (bool * kv_cells) :=
  c ← f i c; Ok (false, c).

(** [if (p0 < 0) p0 = 0;] and [if (p1 < 0) p1 = max;] *)
Definition clip_lo (p0 : Z) : Z := if (p0 <? 0)%Z then 0%Z else p0.
Definition clip_hi (p1 : Z) : Z := if (p1 <? 0)%Z then INT32_MAX else p1.

(** ** Pending copies *)

(** The payload copies go through the tensors of the layers. *)
Definition materialize_pending_copies : stx kv_cache unit :=
  k ← stx_get;
  e ← stx_lift (sc_empty (sc_info k));
  if (e : bool) then mret tt else
  (if tail_transaction (sc_info k) then if_tail (on_tail commit_seq_cp) else mret tt);;
  stx_modify (set_sc no_copies).

Definition take_pending_tail_copies : stx kv_cache stream_copy_info :=
  k ← stx_get;
  let i := sc_info k in
  stx_put (set_sc (mk_sc (ssrc i) (sdst i) [] [] false) k);;
  mret (mk_sc [] [] (tail_src_slots i) (tail_dst_slots i) (tail_transaction i)).

Definition commit_pending_tail_copy : stx kv_cache unit := if_tail (on_tail commit_seq_cp).
Definition cancel_pending_tail_copy : stx kv_cache unit := if_tail (on_tail cancel_seq_cp).

(** ** The exact tail after a historical operation *)

(** [if (coverage.exact < coverage.requested) tail->mark_degraded(...)] *)
Definition mark_if_incomplete (st : nat) (current : Z) : stx kv_cache unit :=
  c ← gets (cells_of st);
  available ← stx_lift (seq_size (Z.to_nat current) c);
  cv ← on_tail (s ← stx_get; stx_lift (coverage s current (u32 available)));
  if (cv_exact cv <? cv_requested cv)%Z then on_tail (mark_degraded current DEGRADED_HISTORICAL_OP) else mret tt.

(** ** Removing *)

Definition remove_from_stream (st : nat) (seq_id p0 p1 : Z) : stx kv_cache unit :=
  sweep_stream (in_seq (Z.to_nat seq_id) p0 p1) (fun i => KvCells.seq_rm i (Z.to_nat seq_id)) st lower_head.

Definition remove_any (p0 p1 : Z) (st : nat) : stx kv_cache unit :=
  sweep_stream (fun i => pos_in i p0 p1) (fun i c => c ← rm i c; Ok (true, c)) st lower_head.

(** [f] for one sequence, or for all when the id is negative. *)
Definition one_or_all (seq_id : Z) (f : Z -> stx kv_cache unit) : stx kv_cache unit :=
  if (0 <=? seq_id)%Z then f seq_id else for_all_seqs f.

Definition seq_rm_unchecked (seq_id p0 p1 : Z) : stx kv_cache bool :=
  k ← stx_get;
  match other (k_cfg k) with
  | Some _ => mret true
  | None =>
      materialize_pending_copies;;
      stx_lift (assert_ ((seq_id =? -1)%Z || ((0 <=? seq_id)%Z && (seq_id <? Z.of_nat (length (seq_to_stream k)))%Z)));;
      if_tail (one_or_all seq_id (fun current => on_tail (TailStore.seq_rm current p0 p1)));;
      (if (0 <=? seq_id)%Z then
         st ← gets (stream_of seq_id); remove_from_stream st seq_id (clip_lo p0) (clip_hi p1)
       else forX (remove_any (clip_lo p0) (clip_hi p1)) (seq 0 (n_stream (k_cfg k))));;
      if_tail (one_or_all seq_id (fun current => st ← gets (stream_of current); mark_if_incomplete st current));;
      one_or_all seq_id rebuild_allocation_head;;
      mret true
  end.

Definition seq_rm (seq_id p0 p1 : Z) : stx kv_cache bool :=
  k ← stx_get;
  match other (k_cfg k) with
  | Some _ => mret true
  | None =>
      ok ← gets (can_seq_rm seq_id p0 p1);
      if (ok : bool) then seq_rm_unchecked seq_id p0 p1 else mret false
  end.

Definition seq_rm_cell (seq_id : Z) (cell_idx : nat) : stx kv_cache bool :=
  st ← gets (stream_of seq_id);
  removed ← on_cells st (KvCells.seq_rm_cell cell_idx (Z.to_nat seq_id));
  (if (removed : bool) then
     if_tail
       (on_tail (TailStore.seq_rm_cell seq_id (Z.of_nat st) (Z.of_nat cell_idx));;
        mark_if_incomplete st seq_id);;
     on_head st (fun head => if cell_idx <? head then cell_idx else head);;
     rebuild_allocation_head seq_id
   else mret tt);;
  mret true.

(** ** Copying *)

(** [queue_tail_copies]: [s0] and [s1] are the streams. *)
Definition queue_tail_copies (src dst : Z) (s0 s1 : nat) (p0 p1 : Z) : stx kv_cache unit :=
  if_tail
    (copies ← on_tail (prepare_seq_cp src dst (Z.of_nat s0) (Z.of_nat s1) p0 p1);
     pending ← on_tail (s ← stx_get; mret (bool_decide (t_pending s <> None)));
     stx_modify (fun k => let i := sc_info k in
       set_sc (mk_sc (ssrc i) (sdst i) (tail_src_slots i ++ (cp_src_slot <$> copies))
                 (tail_dst_slots i ++ (cp_dst_slot <$> copies)) pending) k)).

(** [p > 0 && p + 1 < (int) get_size()] *)
Definition cuts_buffer (p : Z) (size : nat) : outcome bool :=
  if (0 <? p)%Z then q ← i32 (p + 1); Ok (q <? Z.of_nat size)%Z else Ok false.

(** One cell of the source stream, with its generation when there is a tail. *)
Definition copy_cell (src dst : nat) (c0 : kv_cells) (g0 : option (list Z))
    (st : kv_cells * list Z) (i : nat) : outcome (kv_cells * list Z) :=
  let '(c1, g1) := st in
  t ← seq_has i src c0;
  if (t : bool) then
    pos ← pos_get i c0;
    shift ← get_shift i c0;
    ext ← ext_get i c0;
    pos ← (if (shift =? 0)%Z then Ok pos else
             p ← i32 (pos - shift); _ ← assert_ (0 <=? p)%Z; Ok p);
    c1 ← pos_set i pos c1;
    c1 ← KvCells.seq_add i dst c1;
    c1 ← (if (shift =? 0)%Z then Ok c1 else r ← pos_add i shift c1; Ok r.2);
    c1 ← ext_set i ext c1;
    g1 ← (match g0 with Some g => x ← vec_get g i; vec_set g1 i x | None => Ok g1 end);
    Ok (c1, g1)
  else Ok (c1, g1).

(** The destination stream takes over the cells of [src]. *)
Definition copy_stream (src dst : Z) (s0 s1 : nat) : stx kv_cache unit :=
  c0 ← gets (cells_of s0);
  c1 ← gets (cells_of s1);
  k ← stx_get;
  match tail (k_tail k) with
  | None =>
      r ← stx_lift (foldM (copy_cell (Z.to_nat src) (Z.to_nat dst) c0 None) (seq 0 (cells_size c0)) (cells_reset c1, []));
      stx_put (set_cells (<[s1 := r.1]> (v_cells k)) k)
  | Some _ =>
      g0 ← stx_lift (vec_get (tail_generations (k_tail k)) s0);
      g1 ← stx_lift (vec_get (tail_generations (k_tail k)) s1);
      r ← stx_lift (foldM (copy_cell (Z.to_nat src) (Z.to_nat dst) c0 (Some g0)) (seq 0 (cells_size c0))
            (cells_reset c1, map (fun _ => 0%Z) g1));
      stx_put (set_tail (set_generations (<[s1 := r.2]> (tail_generations (k_tail k))) (k_tail k))
                (set_cells (<[s1 := r.1]> (v_cells k)) k))
  end.

Definition seq_cp (src dst p0 p1 : Z) : stx kv_cache unit :=
  k ← stx_get;
  match other (k_cfg k) with
  | Some _ => mret tt
  | None =>
      materialize_pending_copies;;
      s0 ← gets (stream_of src);
      s1 ← gets (stream_of dst);
      if s0 =? s1 then
        queue_tail_copies src dst s0 s1 p0 p1;;
        if (src =? dst)%Z then mret tt else
        sweep_stream (in_seq (Z.to_nat src) (clip_lo p0) (clip_hi p1)) (no_free (fun i => KvCells.seq_add i (Z.to_nat dst)))
          s0 (fun _ _ head => head);;
        if_tail (mark_if_incomplete s0 dst);;
        rebuild_allocation_head dst
      else
        n ← gets get_size;
        b0 ← stx_lift (cuts_buffer p0 n);
        b1 ← stx_lift (cuts_buffer p1 n);
        stx_lift (assert_ (negb b0 && negb b1));;
        stx_modify (fun k => let i := sc_info k in
          set_sc (mk_sc (ssrc i ++ [s0]) (sdst i ++ [s1]) (tail_src_slots i) (tail_dst_slots i) (tail_transaction i)) k);;
        copy_stream src dst s0 s1;;
        if_tail (queue_tail_copies src dst s0 s1 p0 p1;; mark_if_incomplete s1 dst);;
        head ← gets (fun k => vec_get (v_heads k) s0);
        on_head s1 (fun _ => head);;
        rebuild_allocation_head dst
  end.

(** ** Keeping, shifting, dividing *)

(** Only the stream of [seq_id] is swept. *)
Definition seq_keep (seq_id : Z) : stx kv_cache unit :=
  k ← stx_get;
  match other (k_cfg k) with
  | Some _ => mret tt
  | None =>
      materialize_pending_copies;;
      st ← gets (stream_of seq_id);
      if_tail (on_tail (TailStore.seq_keep seq_id));;
      sweep_stream (fun _ _ => Ok true) (fun i => KvCells.seq_keep i (Z.to_nat seq_id)) st lower_head;;
      for_all_seqs rebuild_allocation_head
  end.

Definition full_range (p0 p1 : Z) : bool := (p0 <=? 0)%Z && (p1 <? 0)%Z.

Definition seq_add (seq_id p0 p1 shift : Z) : stx kv_cache unit :=
  k ← stx_get;
  match other (k_cfg k) with
  | Some _ => mret tt
  | None =>
      materialize_pending_copies;;
      st ← gets (stream_of seq_id);
      stx_lift (assert_ (n_pos_per_embd (k_cfg k) =? 1));;
      if_tail
        (on_tail (TailStore.seq_add seq_id p0 p1 shift);;
         if negb (shift =? 0)%Z && negb (full_range p0 p1)
         then on_tail (mark_degraded seq_id DEGRADED_HISTORICAL_OP) else mret tt);;
      if (shift =? 0)%Z then mret tt else
      if (clip_lo p0 =? clip_hi p1)%Z then mret tt else
      sweep_stream (in_seq (Z.to_nat seq_id) (clip_lo p0) (clip_hi p1)) (fun i => pos_add i shift) st
        (fun size new_head _ => if new_head =? size then 0 else new_head);;
      rebuild_allocation_head seq_id
  end.

Definition seq_div (seq_id p0 p1 d : Z) : stx kv_cache unit :=
  k ← stx_get;
  match other (k_cfg k) with
  | Some _ => mret tt
  | None =>
      materialize_pending_copies;;
      st ← gets (stream_of seq_id);
      stx_lift (assert_ (n_pos_per_embd (k_cfg k) =? 1));;
      if_tail
        (on_tail (TailStore.seq_div seq_id p0 p1 d);;
         if negb (d =? 1)%Z && negb (full_range p0 p1)
         then on_tail (mark_degraded seq_id DEGRADED_HISTORICAL_OP) else mret tt);;
      if (d =? 1)%Z then mret tt else
      if (clip_lo p0 =? clip_hi p1)%Z then mret tt else
      sweep_stream (in_seq (Z.to_nat seq_id) (clip_lo p0) (clip_hi p1)) (no_free (fun i => pos_div i d)) st
        (fun _ _ head => head);;
      rebuild_allocation_head seq_id
  end.

(** ** Cloning the logical state *)

Definition clone_cells (source : kv_cache) (st : nat) : stx kv_cache unit :=
  c ← gets (cells_of st);
  sc ← stx_lift (cells_of st source);
  if negb (cells_size c =? cells_size sc) then stx_throw RuntimeError else
  on_cells st (fun c => saved ← cp_range 0 (cells_size sc) sc; c' ← set_range 0 saved c; Ok (tt, c')).

Definition clone_logical_state_from (source : kv_cache) : stx kv_cache unit :=
  k ← stx_get;
  let g := k_cfg k in let g' := k_cfg source in let t' := k_tail source in
  if negb (n_seq_max g =? n_seq_max g') || negb (n_stream g =? n_stream g')
     || negb (length (v_cells k) =? length (v_cells source))
     || negb (length (tail_generations (k_tail k)) =? length (tail_generations t'))
     || negb (Bool.eqb (bool_decide (tail (k_tail k) <> None)) (bool_decide (tail t' <> None)))
  then stx_throw RuntimeError else
  if tail_preparing t' || tail_graph_started t'
     || match tail t' with
        | Some s => bool_decide (t_batch s <> None) || bool_decide (t_pending s <> None)
        | None => false
        end
  then stx_throw RuntimeError else
  forX (clone_cells source) (seq 0 (n_stream g));;
  stx_modify (fun k =>
    mk_cache (k_cfg k) (v_cells k) (v_heads source) (seq_to_stream source)
      (mk_alloc (allocation_group_size (k_alloc k)) (allocation_stage_groups (k_alloc k))
         (allocation_group_sealed (k_alloc source)) (allocation_seq_heads (k_alloc source))
         (state_remap_group_size (k_alloc k)))
      (mk_tail (tail (k_tail k)) (tail_generations t') (tail_generations_before_batch t') (tail_ordinal t')
         (tail_write_slots (k_tail k)) (tail_write_levels (k_tail k)) (tail_preparing (k_tail k))
         (tail_graph_started (k_tail k)))
      no_copies [] []);;
  match tail t' with
  | Some s => if_tail (on_tail (TailStore.clone_logical_state_from s))
  | None => mret tt
  end.
