(* ===== verification/KvSlots.v ===== *)
(** * llama_kv_cache: finding slots and placing batches (src/src/llama-kv-cache.cpp)

    [find_slot] chooses the cells of a ubatch: one by one around the ring from the
    head of each stream, or, for structured caches on one stream, in whole record
    groups owned by one set of sequences, under the constraint that the live
    incomplete groups have distinct F16 stage slots.  [apply_ubatch] writes the
    metadata of the ubatch into the cells; [prepare] finds slots for all ubatches of
    a batch by placing them one after the other and then restoring the cells.

    [find_slot] is [const], but [allocation_group_sealed] is mutable: it is a state
    transformer here.  Counters and indices are [nat]; a head never passes the
    number of cells. *)

From S2P Require Import KvCells Batch TailStore.
From S2P Require Export KvCache.
Open Scope nat_scope.

(** ** Slots *)

Record slot_info := mk_slot { s0 : nat; s1 : nat; strm : list nat; idxs : list (list nat) }.

(** [return {}] *)
Definition no_slot : slot_info := mk_slot 0 0 [] [].

Definition slot_empty (i : slot_info) : bool := length (idxs i) =? 0.
Definition slot_n_stream (i : slot_info) : nat := length (strm i).

Definition slot_size (i : slot_info) : outcome nat :=
  _ ← assert_ (length (idxs i) =? length (strm i));
  _ ← assert_ (negb (length (idxs i) =? 0));
  l ← vec_get (idxs i) 0;
  Ok (length l).

Definition slot_head (i : slot_info) : outcome nat :=
  _ ← assert_ (length (idxs i) =? 1);
  l ← vec_get (idxs i) 0;
  _ ← assert_ (negb (length l =? 0));
  vec_get l 0.

Definition is_contiguous (i : slot_info) : bool :=
  match idxs i with
  | [] | [] :: _ => true
  | [h :: l] => forallb (fun x => x.2 =? h + x.1) (imap pair (h :: l))
  | _ => false
  end.

(** ** Reading a ubatch *)

(** [seq_id[i][0 .. n_seq_id[i])] *)
Definition u_ids (u : llama_ubatch) (i : nat) : outcome (list Z) :=
  n ← vec_get (u_n_seq_id u) i;
  ids ← vec_get (u_seq_id u) i;
  if Z.to_nat n <=? length ids then Ok (take (Z.to_nat n) ids) else Err OutOfBounds.

(** Equal counts, and every id of the first among the second. *)
Definition same_seq_set (u : llama_ubatch) (a b : nat) : outcome bool :=
  na ← vec_get (u_n_seq_id u) a;
  nb ← vec_get (u_n_seq_id u) b;
  if negb (na =? nb)%Z then Ok false else
  ids_a ← u_ids u a;
  ids_b ← u_ids u b;
  Ok (forallb (fun x => existsb (Z.eqb x) ids_b) ids_a).

(** Every token belongs to one sequence, the same for all. *)
Fixpoint one_seq_loop (u : llama_ubatch) (tokens : list nat) (only_seq : Z) : outcome bool :=
  match tokens with
  | [] => Ok true
  | i :: tokens' =>
      n ← vec_get (u_n_seq_id u) i;
      if negb (n =? 1)%Z then Ok false else
      ids ← vec_get (u_seq_id u) i;
      s ← vec_get ids 0;
      if (only_seq <? 0)%Z then one_seq_loop u tokens' s
      else if negb (s =? only_seq)%Z then Ok false
      else one_seq_loop u tokens' only_seq
  end.

Definition ubatch_one_seq (u : llama_ubatch) : outcome bool := one_seq_loop u (seq 0 (u_n_tokens u)) (-1).

(** ** Structured allocation *)

(** Group 0 has a slot of its own, the others share a ring. *)
Definition stage_slot (a : alloc_state) (group : nat) : nat :=
  if group =? 0 then 0 else 1 + (group - 1) mod allocation_stage_groups a.

(** Number of used cells of every group. *)
Definition count_groups (a : alloc_state) (c : kv_cells) : outcome (list nat) :=
  foldM (fun used cell =>
    e ← is_empty cell c;
    n ← vec_get used (cell / allocation_group_size a);
    vec_set used (cell / allocation_group_size a) (if (e : bool) then n else n + 1))
    (seq 0 (cells_size c)) (replicate (cells_size c / allocation_group_size a) 0).

(** Live groups take their stage slots; the state is [allocation_group_sealed]. *)
Definition seed_group (a : alloc_state) (group_used : list nat) (group : nat) (owners : list (option nat))
    : stx (list bool) (list (option nat)) :=
  used ← stx_lift (vec_get group_used group);
  sealed ← stx_get;
  if used =? 0 then
    sealed ← stx_lift (vec_set sealed group false); stx_put sealed;; mret owners
  else if allocation_group_size a <=? used then
    sealed ← stx_lift (vec_set sealed group true); stx_put sealed;; mret owners
  else
    b ← stx_lift (vec_get sealed group);
    if (b : bool) then mret owners else
    let slot := stage_slot a group in
    o ← stx_lift (vec_get owners slot);
    match o with
    | Some g => if g =? group then stx_lift (vec_set owners slot (Some group)) else stx_throw RuntimeError
    | None => stx_lift (vec_set owners slot (Some group))
    end.

Fixpoint seed_groups (a : alloc_state) (group_used : list nat) (groups : list nat) (owners : list (option nat))
    : stx (list bool) (list (option nat)) :=
  match groups with
  | [] => mret owners
  | g :: groups' => owners ← seed_group a group_used g owners; seed_groups a group_used groups' owners
  end.

(** What the search keeps: cursors of the sequences, cells reserved by this call,
    used cells of every group, the token that first took a group in this call, the
    owner of every stage slot, the sealed groups and the chosen cells. *)
Record search := mk_search {
  h_heads : list nat;
  h_reserved : list bool;
  h_used : list nat;
  h_claim : list (option nat);
  h_stage : list (option nat);
  h_sealed : list bool;
  h_idxs : list nat
}.

(** Every used cell of the group is owned by exactly these sequences. *)
Definition group_compatible (a : alloc_state) (c : kv_cells) (n_cell_seqs : Z) (ids : list Z) (group : nat) : outcome bool :=
  let group_begin := group * allocation_group_size a in
  let group_end := Nat.min (group_begin + allocation_group_size a) (cells_size c) in
  allM (fun cell =>
    e ← is_empty cell c;
    if (e : bool) then Ok true else
    n ← seq_count cell c;
    if negb (Z.of_nat n =? n_cell_seqs)%Z then Ok false else
    allM (fun s => seq_has cell (Z.to_nat s) c) ids) (seq group_begin (group_end - group_begin)).

(** The tests on a candidate cell for token [i]. *)
Definition cell_allowed (a : alloc_state) (c : kv_cells) (u : llama_ubatch) (one_seq : bool) (i : nat) (ids : list Z)
    (h : search) (idx : nat) : outcome bool :=
  let group := idx / allocation_group_size a in
  r ← vec_get (h_reserved h) idx;
  e ← (if (r : bool) then Ok false else is_empty idx c);
  if r || negb e then Ok false else
  claim ← vec_get (h_claim h) group;
  same ← (match claim with Some t => same_seq_set u t i | None => Ok true end);
  if negb same then Ok false else
  compatible ← group_compatible a c (Z.of_nat (length ids)) ids group;
  if negb compatible then Ok false else
  used ← vec_get (h_used h) group;
  sealed ← vec_get (h_sealed h) group;
  if (0 <? group) && (0 <? used) && (used <? allocation_group_size a) && sealed then Ok false else
  owner ← vec_get (h_stage h) (stage_slot a group);
  let fills_here := one_seq && (0 <? group) && (idx mod allocation_group_size a =? 0)
                    && (allocation_group_size a <=? u_n_tokens u - i) in
  Ok (negb ((used =? 0) && negb fills_here
            && match owner with Some g => negb (g =? group) | None => false end)).

(** [heads[cell_seqs[j]] = head_cur] for every sequence of the token. *)
Definition set_seq_heads (ids : list Z) (v : nat) (heads : list nat) : outcome (list nat) :=
  foldM (fun heads s => arr_set heads s v) ids heads.

(** The chosen cell is reserved and its group charged. *)
Definition take_cell (a : alloc_state) (u : llama_ubatch) (one_seq : bool) (i : nat) (ids : list Z)
    (idx : nat) (h : search) : outcome search :=
  let group := idx / allocation_group_size a in
  let slot := stage_slot a group in
  used ← vec_get (h_used h) group;
  let fills_here := one_seq && (0 <? group) && (idx mod allocation_group_size a =? 0)
                    && (allocation_group_size a <=? u_n_tokens u - i) in
  stage ← (if (used =? 0) && negb fills_here then vec_set (h_stage h) slot (Some group) else Ok (h_stage h));
  reserved ← vec_set (h_reserved h) idx true;
  claim ← vec_get (h_claim h) group;
  claims ← vec_set (h_claim h) group (Some (default i claim));
  group_used ← vec_set (h_used h) group (used + 1);
  let full := (used + 1 =? allocation_group_size a) && (0 <? group) in
  sealed ← (if full then vec_set (h_sealed h) group true else Ok (h_sealed h));
  stage ← (if full then
             o ← vec_get stage slot;
             if bool_decide (o = Some group) then vec_set stage slot None else Ok stage
           else Ok stage);
  heads ← set_seq_heads ids (idx + 1) (h_heads h);
  Ok (mk_search heads reserved group_used claims stage sealed (h_idxs h ++ [idx])).

(** [for (tested = 0; tested < cells.size(); ++tested)] *)
Fixpoint scan_cells (a : alloc_state) (c : kv_cells) (u : llama_ubatch) (one_seq : bool) (i : nat) (ids : list Z)
    (tested head_cur : nat) (h : search) : outcome (option nat) :=
  match tested with
  | 0 => Ok None
  | S tested =>
      let idx := if cells_size c <=? head_cur then 0 else head_cur in
      ok ← cell_allowed a c u one_seq i ids h idx;
      if (ok : bool) then Ok (Some idx) else scan_cells a c u one_seq i ids tested (idx + 1) h
  end.

(** The smallest owner; ids out of range throw. *)
Definition owner_of (n_seq_max : nat) (ids : list Z) : outcome Z :=
  first ← vec_get ids 0;
  foldM (fun owner s =>
    _ ← require_ RuntimeError (negb ((s <? 0)%Z || (Z.of_nat n_seq_max <=? s)%Z));
    Ok (Z.min owner s)) ids first.

Definition lift_search {A} (f : search -> outcome A) : stx search A := fun h => (f h, h).

(** One token: whether a cell was found. *)
Definition place_one (n_seq_max : nat) (a : alloc_state) (c : kv_cells) (u : llama_ubatch) (one_seq : bool) (i : nat)
    : stx search bool :=
  n ← stx_lift (vec_get (u_n_seq_id u) i);
  if (n <=? 0)%Z then stx_throw RuntimeError else
  ids ← stx_lift (u_ids u i);
  owner ← stx_lift (owner_of n_seq_max ids);
  head_cur ← lift_search (fun h => arr_get (h_heads h) owner);
  found ← lift_search (scan_cells a c u one_seq i ids (cells_size c) head_cur);
  match found with
  | None => mret false
  | Some idx => h ← lift_search (take_cell a u one_seq i ids idx); stx_put h;; mret true
  end.

Fixpoint place_all (n_seq_max : nat) (a : alloc_state) (c : kv_cells) (u : llama_ubatch) (one_seq : bool) (tokens : list nat)
    : stx search bool :=
  match tokens with
  | [] => mret true
  | i :: tokens' =>
      found ← place_one n_seq_max a c u one_seq i;
      if (found : bool) then place_all n_seq_max a c u one_seq tokens' else mret false
  end.

(** [allocation_group_sealed] as the state of a computation. *)
Definition on_sealed {A} (m : stx (list bool) A) : stx kv_cache A := fun k =>
  let '(r, v) := m (allocation_group_sealed (k_alloc k)) in (r, set_alloc (set_sealed v (k_alloc k)) k).

(** The search runs on local copies of everything but the sealed groups. *)
Definition on_search {A} (h : search) (m : stx search A) : stx kv_cache (A * search) := fun k =>
  let '(r, h') := m h in
  let k' := set_alloc (set_sealed (h_sealed h') (k_alloc k)) k in
  match r with Ok x => (Ok (x, h'), k') | Err e => (Err e, k') end.

Definition find_slot_structured (u : llama_ubatch) : stx kv_cache slot_info :=
  k ← stx_get;
  c ← gets (cells_of 0);
  let a := k_alloc k in
  group_used ← stx_lift (count_groups a c);
  let n_groups := length group_used in
  e0 ← stx_lift (is_empty 0 c);
  let owners := (if (e0 : bool) then None else Some 0) :: replicate (allocation_stage_groups a) None in
  stage ← on_sealed
    (sealed ← stx_get;
     stx_put (if length sealed =? n_groups then sealed else replicate n_groups false);;
     seed_groups a group_used (seq 1 (n_groups - 1)) owners);
  one_seq ← stx_lift (ubatch_one_seq u);
  k ← stx_get;
  r ← on_search
    (mk_search (allocation_seq_heads a) (replicate (cells_size c) false) group_used (replicate n_groups None) stage
       (allocation_group_sealed (k_alloc k)) [])
    (place_all (n_seq_max (k_cfg k)) a c u one_seq (seq 0 (u_n_tokens u)));
  mret (if (r.1 : bool) then mk_slot 0 0 [0] [h_idxs r.2] else no_slot).

(** ** Cell by cell *)

(** A structured cache on the generic path: the group must be owned by the token's
    sequences. *)
Definition generic_group_ok (k : kv_cache) (c : kv_cells) (u : llama_ubatch) (seq_id token_index idx : nat) : outcome bool :=
  n_cell_seqs ← (if n_stream (k_cfg k) =? 1 then vec_get (u_n_seq_id u) token_index else Ok 1%Z);
  if (n_cell_seqs <=? 0)%Z then Err RuntimeError else
  ids ← (if n_stream (k_cfg k) =? 1 then u_ids u token_index else Ok [Z.of_nat seq_id]);
  first ← vec_get ids 0;
  if (foldl Z.min first ids <? 0)%Z then Err RuntimeError else
  group_compatible (k_alloc k) c n_cell_seqs ids (idx / allocation_group_size (k_alloc k)).

Definition can_use_cell (k : kv_cache) (c : kv_cells) (u : llama_ubatch) (seq_id token_index idx : nat) : outcome bool :=
  e ← is_empty idx c;
  can_use ← (if e && (1 <? allocation_group_size (k_alloc k)) then generic_group_ok k c u seq_id token_index idx else Ok e);
  if (can_use : bool) then Ok true else
  n ← seq_count idx c;
  if negb (n =? 1) then Ok false else
  pos_cell ← pos_get idx c;
  seq_id_cell ← seq_get idx c;
  pos_max ← KvCells.seq_pos_max (Z.to_nat seq_id_cell) c;
  next ← i32 (pos_max + 1);
  is_masked_swa (n_swa (k_cfg k)) (swa_type (k_cfg k)) pos_cell next.

(** [for (i = 0; i < n_test; i++)]: the head, the number of cells tested and the slot. *)
Fixpoint test_cells (k : kv_cache) (c : kv_cells) (u : llama_ubatch) (seq_id : nat) (cont : bool) (n_test head_cur n_tested : nat)
    (slot : list nat) : outcome (nat * nat * list nat) :=
  match n_test with
  | 0 => Ok (head_cur, n_tested, slot)
  | S n_test =>
      can_use ← can_use_cell k c u seq_id (length slot) head_cur;
      if (can_use : bool) then test_cells k c u seq_id cont n_test (head_cur + 1) (n_tested + 1) (slot ++ [head_cur])
      else if cont then Ok (head_cur + 1, n_tested + 1, slot)
      else test_cells k c u seq_id cont n_test (head_cur + 1) (n_tested + 1) slot
  end.

(** [while (true)]; [None] is the [return {}]. *)
Fixpoint find_loop (fuel : nat) (k : kv_cache) (c : kv_cells) (u : llama_ubatch) (seq_id : nat) (cont : bool) (n_tokens : nat)
    (head_cur n_tested : nat) (slot : list nat) : outcome (option (list nat)) :=
  match fuel with
  | 0 => Err OutOfFuel
  | S fuel =>
      let n_test := if cont then n_tokens else 1 in
      if cells_size c <? head_cur + n_test then
        find_loop fuel k c u seq_id cont n_tokens 0 (n_tested + (cells_size c - head_cur)) slot
      else
        r ← test_cells k c u seq_id cont n_test head_cur n_tested slot;
        let '(head_cur, n_tested, slot) := r in
        if length slot =? n_tokens then Ok (Some slot) else
        let slot := if cont then [] else slot in
        if cells_size c <=? n_tested then Ok None
        else find_loop fuel k c u seq_id cont n_tokens head_cur n_tested slot
  end.

(** The slot of one sequence: every round but the wrap tests a cell. *)
Definition find_in_stream (k : kv_cache) (u : llama_ubatch) (cont : bool) (n_tokens : nat) (seq_id st : nat)
    : outcome (option (list nat)) :=
  c ← cells_of st k;
  head ← vec_get (v_heads k) st;
  let head_cur := if get_used c + 2 * n_tokens <? head then 0 else head in
  if cells_size c <? n_tokens then Ok None else
  find_loop (2 * cells_size c + 2) k c u seq_id cont n_tokens head_cur 0 [].

Definition add_stream (st : nat) (slot : list nat) (res : slot_info) : slot_info :=
  mk_slot (Nat.min (s0 res) st) (Nat.max (s1 res) st) (strm res ++ [st]) (idxs res ++ [slot]).

(** [for (s = 0; s < n_seqs; ++s)] *)
Fixpoint find_streams (k : kv_cache) (u : llama_ubatch) (cont : bool) (n_tokens : nat) (seqs : list nat) (res : slot_info)
    : outcome slot_info :=
  match seqs with
  | [] => _ ← assert_ (s0 res <=? s1 res); Ok res
  | s :: seqs' =>
      seq_id ← vec_get (u_seq_id_unq u) s;
      _ ← (if 1 <? n_stream (k_cfg k) then
             n ← vec_get (u_n_seq_id u) (s * n_tokens);
             _ ← assert_ (n =? 1)%Z;
             ids ← vec_get (u_seq_id u) (s * n_tokens);
             id ← vec_get ids 0;
             assert_ (id =? Z.of_nat seq_id)%Z
           else Ok tt);
      st ← vec_get (seq_to_stream k) seq_id;
      r ← find_in_stream k u cont n_tokens seq_id st;
      match r with
      | Some slot => find_streams k u cont n_tokens seqs' (add_stream st slot res)
      | None => Ok no_slot
      end
  end.

Definition find_slot_generic (k : kv_cache) (u : llama_ubatch) (cont : bool) : outcome slot_info :=
  let unq := u_n_seqs_unq u in
  _ ← (if 1 <? n_stream (k_cfg k) then
         _ ← require_ DivByZero (negb (unq =? 0)); assert_ (u_n_tokens u mod unq =? 0)
       else Ok tt);
  let n_seqs := if 1 <? n_stream (k_cfg k) then unq else 1 in
  find_streams k u cont (u_n_tokens u / n_seqs) (seq 0 n_seqs) (mk_slot LLAMA_MAX_SEQ 0 [] []).

Definition find_slot (u : llama_ubatch) (cont : bool) : stx kv_cache slot_info :=
  k ← stx_get;
  if (1 <? allocation_group_size (k_alloc k)) && (n_stream (k_cfg k) =? 1) && negb cont
  then find_slot_structured u
  else gets (fun k => find_slot_generic k u cont).

(** ** Placing a ubatch *)

Definition live_tail (k : kv_cache) : bool := bool_decide (tail (k_tail k) <> None) && negb (tail_preparing (k_tail k)).

(** [if (tail && !tail_preparing) { m }] *)
Definition if_live (m : stx kv_cache unit) : stx kv_cache unit := fun k => if live_tail k then m k else (Ok tt, k).

Fixpoint foldX {S A B} (f : B -> A -> stx S B) (l : list A) (b : B) : stx S B :=
  match l with
  | [] => mret b
  | a :: l' => b ← f b a; foldX f l' b
  end.

Definition begin_writes (u : llama_ubatch) : stx kv_cache unit :=
  k ← stx_get;
  (if has_compact_tail (k_cfg k)
   then stx_modify (fun k => set_tail (set_before (tail_generations (k_tail k)) false (k_tail k)) k) else mret tt);;
  on_tail begin_batch;;
  levels ← stx_lift (foldM (fun m i => n ← vec_get (u_n_seq_id u) i; Ok (Z.max m (u32 n))) (seq 0 (u_n_tokens u)) 0%Z);
  stx_lift (assert_ (levels <=? Z.of_nat (n_seq_max (k_cfg k)))%Z);;
  stx_modify (fun k => set_tail
    (set_writes (replicate (u_n_tokens u * Z.to_nat levels) LLAMA_KV_TAIL_BODY_SLOT) (Z.to_nat levels) (k_tail k)) k).

(** [++tail_generations[st][idx]] and the rows of the old generation. *)
Definition recycle_cell (st idx : nat) : stx kv_cache unit :=
  k ← stx_get;
  row ← stx_lift (vec_get (tail_generations (k_tail k)) st);
  g ← stx_lift (vec_get row idx);
  let g' := u64 (g + 1) in
  stx_put (set_tail (set_generations (<[st := <[idx := g']> row]> (tail_generations (k_tail k))) (k_tail k)) k);;
  on_tail (recycle (Z.of_nat st) (Z.of_nat idx) g').

(** The cell is freed for its new content; the largest position lost by every
    sequence is noted. *)
Definition evict (st idx : nat) (max_rm : list Z) : stx kv_cache (list Z) :=
  on_cells st (fun c =>
    e ← is_empty idx c;
    if (e : bool) then Ok (max_rm, c) else
    n ← seq_count idx c;
    _ ← assert_ (n =? 1);
    s ← seq_get idx c;
    p ← pos_get idx c;
    m ← arr_get max_rm s;
    max_rm ← arr_set max_rm s (Z.max m p);
    c ← rm idx c;
    Ok (max_rm, c)).

Definition write_cell (u : llama_ubatch) (i st idx : nat) : stx kv_cache unit :=
  on_cells st (fun c =>
    p ← vec_get (u_pos u) i;
    c ← pos_set idx p c;
    c ← (if is_pos_2d u then
           x ← vec_get (u_pos u) (i + u_n_tokens u * 2);
           y ← vec_get (u_pos u) (i + u_n_tokens u);
           ext_set idx (mk_ext x y) c
         else Ok c);
    Ok (tt, c)).

(** The exact row of one owner. *)
Definition commit_row (u : llama_ubatch) (i st idx iseq : nat) (owner : Z) : stx kv_cache unit :=
  k ← stx_get;
  row ← stx_lift (vec_get (tail_generations (k_tail k)) st);
  g ← stx_lift (vec_get row idx);
  p ← stx_lift (vec_get (u_pos u) i);
  let ordinal := tail_ordinal (k_tail k) in
  stx_modify (fun k => set_tail (set_ordinal (u64 (ordinal + 1)) (k_tail k)) k);;
  slot ← on_tail (commit owner (mk_identity (Z.of_nat st) (Z.of_nat idx) g) p ordinal
                    (if has_compact_tail (k_cfg k) then Z.of_nat i else UINT32_MAX));
  k ← stx_get;
  writes ← stx_lift (vec_set (tail_write_slots (k_tail k)) (iseq * u_n_tokens u + i) slot);
  stx_modify (fun k => set_tail (set_writes writes (tail_write_levels (k_tail k)) (k_tail k)) k).

Definition add_owner (u : llama_ubatch) (i st idx : nat) (x : nat * Z) : stx kv_cache unit :=
  let '(iseq, owner) := x in
  _ ← stx_lift (require_ OutOfBounds (0 <=? owner)%Z);
  on_cells st (fun c => c ← KvCells.seq_add idx (Z.to_nat owner) c; Ok (tt, c));;
  k ← stx_get;
  (if (1 <? allocation_group_size (k_alloc k)) && (n_stream (k_cfg k) =? 1) then
     heads ← stx_lift (arr_set (allocation_seq_heads (k_alloc k)) owner (idx + 1));
     stx_modify (fun k => set_alloc (set_al_heads heads (k_alloc k)) k)
   else mret tt);;
  if_live (commit_row u i st idx iseq owner).

(** Row [ii] of stream [s] of the slot. *)
Definition place_token (u : llama_ubatch) (i st : nat) (max_rm : list Z) (idx : nat) : stx kv_cache (list Z) :=
  if_live (recycle_cell st idx);;
  max_rm ← evict st idx max_rm;
  write_cell u i st idx;;
  ids ← stx_lift (u_ids u i);
  foldX (fun _ x => add_owner u i st idx x) (imap pair ids) tt;;
  mret max_rm.

Definition place_stream (u : llama_ubatch) (sinfo : slot_info) (size : nat) (max_rm : list Z) (s : nat) : stx kv_cache (list Z) :=
  st ← stx_lift (vec_get (strm sinfo) s);
  cells ← stx_lift (vec_get (idxs sinfo) s);
  foldX (fun max_rm ii =>
    idx ← stx_lift (vec_get cells ii);
    place_token u (s * size + ii) st max_rm idx) (seq 0 size) max_rm.

(** Rows without an exact slot go to the sinks of the overlay. *)
Definition sink_rows (u : llama_ubatch) : stx kv_cache unit :=
  k ← stx_get;
  let g := k_cfg k in
  let sink_base := u32 (tail_arena_stride g * Z.of_nat (n_seq_max g)) in
  writes ← stx_lift (foldM (fun w j =>
      slot ← vec_get w j;
      let i := j mod u_n_tokens u in
      slot ← (if (slot =? LLAMA_KV_TAIL_BODY_SLOT)%Z && negb (has_compact_tail g) then
                _ ← assert_ (Z.of_nat i <? tail_sink_slots g)%Z; Ok (u32 (sink_base + Z.of_nat i))
              else Ok slot);
      _ ← assert_ ((has_compact_tail g && (slot =? LLAMA_KV_TAIL_BODY_SLOT)%Z)
                   || ((0 <=? slot)%Z && (slot <? tail_slots g)%Z));
      vec_set w j slot)
    (seq 0 (tail_write_levels (k_tail k) * u_n_tokens u)) (tail_write_slots (k_tail k)));
  stx_modify (fun k => set_tail (set_writes writes (tail_write_levels (k_tail k)) (k_tail k)) k).

(** Positions up to the largest overwritten one are purged. *)
Definition purge (max_rm : list Z) (s : nat) : stx kv_cache unit :=
  m ← stx_lift (vec_get max_rm s);
  if (m =? -1)%Z then mret tt else
  st ← gets (stream_of (Z.of_nat s));
  c ← gets (cells_of st);
  lo ← stx_lift (KvCells.seq_pos_min s c);
  if (lo <=? m)%Z then
    q ← stx_lift (i32 (m + 1));
    ok ← seq_rm_unchecked (Z.of_nat s) lo q;
    stx_lift (assert_ ok)
  else mret tt.

Definition move_head (sinfo : slot_info) (s : nat) : stx kv_cache unit :=
  st ← stx_lift (vec_get (strm sinfo) s);
  cells ← stx_lift (vec_get (idxs sinfo) s);
  back ← stx_lift (deref (last cells));
  on_head st (fun _ => back + 1).

Definition apply_ubatch (sinfo : slot_info) (u : llama_ubatch) : stx kv_cache unit :=
  k ← stx_get;
  match other (k_cfg k) with
  | Some _ => mret tt
  | None =>
      size ← stx_lift (slot_size sinfo);
      stx_lift (assert_ (u_n_tokens u =? slot_n_stream sinfo * size));;
      if_live (begin_writes u);;
      max_rm ← foldX (place_stream u sinfo size) (seq 0 (slot_n_stream sinfo)) (replicate LLAMA_MAX_SEQ (-1)%Z);
      if_live (sink_rows u);;
      forX (purge max_rm) (seq 0 LLAMA_MAX_SEQ);;
      forX (move_head sinfo) (seq 0 (slot_n_stream sinfo))
  end.

Definition finish_tail_batch (success payload_may_be_modified : bool) : stx kv_cache unit :=
  if_live
    (on_tail (finish_batch success payload_may_be_modified);;
     stx_modify (fun k =>
       let t := k_tail k in
       let before := tail_generations_before_batch t in
       let gens := if negb success && has_compact_tail (k_cfg k) && negb (length before =? 0) then before else tail_generations t in
       set_tail (set_before [] false (set_generations gens t)) k)).

(** ** Preparing a batch *)

Record saved_state := mk_saved_state { sv_sinfo : slot_info; sv_heads_old : list nat; sv_cells : list kv_cells }.

Definition save_streams (sinfo : slot_info) (k : kv_cache) : outcome (list kv_cells) :=
  foldM (fun saved s =>
    st ← vec_get (strm sinfo) s;
    cells ← vec_get (idxs sinfo) s;
    c ← cells_of st k;
    sv ← cp_idxs cells c;
    Ok (saved ++ [sv])) (seq 0 (slot_n_stream sinfo)) [].

(** The loop over the ubatches: whether all found a slot, the slots and the
    recovery stack. *)
Fixpoint place_ubatches (ubatches : list llama_ubatch) (res : list slot_info) (states : list saved_state)
    : stx kv_cache (bool * list slot_info * list saved_state) :=
  match ubatches with
  | [] => mret (true, res, states)
  | u :: ubatches' =>
      sinfo ← find_slot u false;
      if slot_empty sinfo then mret (false, res, states) else
      saved ← gets (save_streams sinfo);
      k ← stx_get;
      apply_ubatch sinfo u;;
      place_ubatches ubatches' (res ++ [sinfo]) (states ++ [mk_saved_state sinfo (v_heads k) saved])
  end.

(** The cells of stream [strm[s]], and the head saved at index [s]. *)
Definition restore_stream (x : saved_state) (s : nat) : stx kv_cache unit :=
  st ← stx_lift (vec_get (strm (sv_sinfo x)) s);
  cells ← stx_lift (vec_get (idxs (sv_sinfo x)) s);
  saved ← stx_lift (vec_get (sv_cells x) s);
  on_cells st (fun c => c ← set_idxs cells saved c; Ok (tt, c));;
  h ← stx_lift (vec_get (sv_heads_old x) s);
  on_head st (fun _ => h).

Fixpoint restore_states (states : list saved_state) : stx kv_cache unit :=
  match states with
  | [] => mret tt
  | x :: states' => forX (restore_stream x) (seq 0 (slot_n_stream (sv_sinfo x)));; restore_states states'
  end.

Definition prepare (ubatches : list llama_ubatch) : stx kv_cache (list slot_info) :=
  stx_modify (fun k => set_tail (set_preparing true (k_tail k)) k);;
  r ← place_ubatches ubatches [] [];
  let '(success, res, states) := r in
  stx_modify (fun k => set_tail (set_preparing false (k_tail k)) k);;
  stx_lift (assert_ (negb (length states =? 0) || negb success));;
  restore_states (rev states);;
  mret (if (success : bool) then res else []).

(** Splitting, then preparing; [None] is the failed status. *)
Definition init_batch (n_ubatch : nat) (balloc : llama_batch_allocr)
    : stx kv_cache (option (list slot_info * list llama_ubatch) * llama_batch_allocr) :=
  k ← stx_get;
  r ← stx_lift (split_ubatches (n_stream (k_cfg k)) n_ubatch balloc);
  match r.1 with
  | None => mret (None, r.2)
  | Some ubatches =>
      sinfos ← prepare ubatches;
      mret (if length sinfos =? 0 then None else Some (sinfos, ubatches), r.2)
  end.

(** ** The number of cells attention looks at *)

(** [GGML_PAD(x, n)] *)
Definition ggml_pad (x n : Z) : Z := Z.land (u32 (x + n - 1)) (u32 (Z.lnot (n - 1))).

Definition get_n_kv (sinfo : slot_info) (k : kv_cache) : outcome Z :=
  let n_pad_cur := Z.max (n_pad (k_cfg k)) 256 in
  foldM (fun result s =>
    st ← vec_get (strm sinfo) s;
    c ← cells_of st k;
    Ok (Z.max (Z.min (Z.of_nat (cells_size c)) (Z.max n_pad_cur (ggml_pad (Z.of_nat (used_max_p1 c)) n_pad_cur))) result))
    (seq 0 (slot_n_stream sinfo)) 0%Z.
