(* ===== verification/KvWf.v ===== *)
(** * Well-formed caches and sweeps over cells

    A weakest precondition for the state transformers, the invariant [kv_wf] of
    llama_kv_cache, the abstract state of a stream (what every used cell holds and
    for whom), and the lemma that carries every loop over cells: a sweep whose body
    acts on one cell acts on the abstract state as [omap]. *)

From S2P Require Import KvCells.
From S2P Require Import TailProps.
From S2P Require Export KvCache.
Open Scope nat_scope.

(** ** Weakest preconditions: the computation returns *)

Definition wp {S A} (m : stx S A) (Q : A -> S -> Prop) (s : S) : Prop :=
  match m s with (Ok a, s') => Q a s' | (Err _, _) => False end.

Section wp.
Context {S : Type}.
Implicit Types s : S.

Lemma wp_run {A} (m : stx S A) Q s : wp m Q s -> exists a s', m s = (Ok a, s') /\ Q a s'.
Proof. unfold wp. destruct (m s) as [[a|e] s']; [eauto|done]. Qed.

Lemma wp_bind {A B} (m : stx S A) (k : A -> stx S B) Q s : wp m (fun a => wp (k a) Q) s -> wp (m ≫= k) Q s.
Proof. unfold wp, mbind, stx_bind. by destruct (m s) as [[a|e] s']. Qed.

Lemma wp_mono {A} (m : stx S A) (Q Q' : A -> S -> Prop) s : wp m Q s -> (forall a s', Q a s' -> Q' a s') -> wp m Q' s.
Proof. unfold wp. destruct (m s) as [[a|e] s']; auto. Qed.

Lemma wp_ret {A} (a : A) (Q : A -> S -> Prop) s : Q a s -> wp (mret a) Q s.
Proof. done. Qed.

Lemma wp_get (Q : S -> S -> Prop) s : Q s s -> wp stx_get Q s.
Proof. done. Qed.

Lemma wp_put s' (Q : unit -> S -> Prop) s : Q tt s' -> wp (stx_put s') Q s.
Proof. done. Qed.

Lemma wp_modify g (Q : unit -> S -> Prop) s : Q tt (g s) -> wp (stx_modify g) Q s.
Proof. done. Qed.

Lemma wp_lift {A} (m : outcome A) a (Q : A -> S -> Prop) s : m = Ok a -> Q a s -> wp (stx_lift m) Q s.
Proof. unfold wp, stx_lift. by intros ->. Qed.

(** A loop keeps an invariant that may mention what is left. *)
Lemma wp_forX (I : list nat -> S -> Prop) (f : nat -> stx S unit) l Q s :
  I l s -> (forall i l' s, i ∈ l -> I (i :: l') s -> wp (f i) (fun _ => I l') s) -> (forall s, I [] s -> Q tt s) -> wp (forX f l) Q s.
Proof.
  intros HI Hf HQ. revert s HI Hf. induction l as [|i l IH]; intros s HI Hf; simpl; [by apply HQ|].
  apply wp_bind. eapply wp_mono; [apply (Hf i l); [by left|done]|]. intros [] s' HI'. apply IH; [done|].
  intros j l' s1 Hj. apply Hf. by right.
Qed.

(** The same without the list. *)
Lemma wp_forX_const (I : S -> Prop) (f : nat -> stx S unit) l Q s :
  I s -> (forall i s, i ∈ l -> I s -> wp (f i) (fun _ => I) s) -> (forall s, I s -> Q tt s) -> wp (forX f l) Q s.
Proof. intros HI Hf HQ. apply (wp_forX (fun _ => I)); auto. Qed.
End wp.

(** ** The abstract state of a stream *)

Abbreviation amap := (gmap nat (Z * gset nat)).

Definition used_content (x : Z * gset nat) : option (Z * gset nat) := if (x.1 =? -1)%Z then None else Some x.

Definition abs_cells (c : kv_cells) : amap := omap used_content (map_seq 0 (view c) : amap).

Definition abs (k : kv_cache) : list amap := abs_cells <$> v_cells k.

Lemma abs_lookup c i : abs_cells c !! i = view c !! i ≫= used_content.
Proof. unfold abs_cells. by rewrite lookup_omap, lookup_map_seq_0. Qed.

Lemma abs_cell c i p S sh e : cell_is c i p S sh e -> abs_cells c !! i = if (p =? -1)%Z then None else Some (p, S).
Proof. intros Hc. rewrite abs_lookup, (cell_is_view _ _ _ _ _ _ Hc). simpl. unfold used_content. simpl. by destruct (p =? -1)%Z. Qed.

Lemma abs_None c i : cells_size c <= i -> abs_cells c !! i = None.
Proof.
  intros Hi. rewrite abs_lookup. rewrite lookup_ge_None_2; [done|]. rewrite length_zip_with. unfold cells_size in Hi. lia.
Qed.

(** ** Well-formedness of the cells of a stream *)

(** A used cell has an owner; positions and shifts fit their type. *)
Record stream_wf (n : nat) (c : kv_cells) : Prop := {
  sm_wf : cells_wf c;
  sm_size : cells_size c = n;
  sm_owned : forall i p S, view c !! i = Some (p, S) -> p <> (-1)%Z -> S <> ∅;
  sm_pos : forall i p, c_pos c !! i = Some p -> (p <= INT32_MAX)%Z;
  sm_shift : forall i sh, c_shift c !! i = Some sh -> in_i32 sh = true
}.

Definition cell_at (c : kv_cells) (i : nat) : option Z * option (gset nat) * option Z * option kv_cell_ext :=
  (c_pos c !! i, c_seq c !! i, c_shift c !! i, c_ext c !! i).

Lemma cell_at_is c c' i p S sh e : cell_at c' i = cell_at c i -> cell_is c i p S sh e -> cell_is c' i p S sh e.
Proof. unfold cell_at, cell_is. intros [= -> -> -> ->]. done. Qed.

Lemma cell_at_abs c c' i : cell_at c' i = cell_at c i -> abs_cells c' !! i = abs_cells c !! i.
Proof. unfold cell_at. intros [= E1 E2 _ _]. by rewrite !abs_lookup, !lookup_zip_with, E1, E2. Qed.

Lemma put_cell_others c i p S sh e c' j : put_cell c i p S sh e c' -> j <> i -> cell_at c' j = cell_at c j.
Proof. intros (E1 & E2 & E3 & E4) Hj. unfold cell_at. by rewrite E1, E2, E3, E4, !list_lookup_insert_ne. Qed.

Lemma put_cell_size c i p S sh e c' : put_cell c i p S sh e c' -> cells_size c' = cells_size c.
Proof. intros (E1 & _). unfold cells_size. by rewrite E1, length_insert. Qed.

(** Changing one cell keeps a stream well-formed. *)
Lemma cell_stream n c i p S sh e c' :
  stream_wf n c -> cells_wf c' -> cells_size c' = n -> (forall j, j <> i -> cell_at c' j = cell_at c j) ->
  cell_is c' i p S sh e -> (p <> (-1)%Z -> S <> ∅) -> (p <= INT32_MAX)%Z -> in_i32 sh = true ->
  stream_wf n c' /\ (forall j, j <> i -> cell_at c' j = cell_at c j) /\
  abs_cells c' !! i = (if (p =? -1)%Z then None else Some (p, S)).
Proof.
  intros Hc Hwf Hsize Ho Hi' HS Hp Hsh.
  split; [|split; [done | by eapply abs_cell]]. destruct Hi' as (P1 & P2 & P3 & _).
  assert (forall j, j <> i -> c_pos c' !! j = c_pos c !! j /\ c_seq c' !! j = c_seq c !! j /\ c_shift c' !! j = c_shift c !! j) as Ho'.
  { intros j Hj. specialize (Ho j Hj). unfold cell_at in Ho. injection Ho as E1 E2 E3 E4. by rewrite E1, E2, E3. }
  split.
  - done.
  - done.
  - intros j q T Hv Hq. destruct (decide (j = i)) as [->|Hj].
    + rewrite (proj2 (view_lookup _ _ _ _) (conj P1 P2)) in Hv. injection Hv as <- <-. by apply HS.
    + destruct (Ho' j Hj) as (E1 & E2 & _). rewrite lookup_zip_with, E1, E2, <- lookup_zip_with in Hv.
      by eapply (sm_owned n c Hc).
  - intros j q Hv. destruct (decide (j = i)) as [->|Hj]; [rewrite P1 in Hv; by injection Hv as <-|].
    destruct (Ho' j Hj) as (E1 & _). rewrite E1 in Hv. by eapply (sm_pos n c Hc).
  - intros j q Hv. destruct (decide (j = i)) as [->|Hj]; [rewrite P3 in Hv; by injection Hv as <-|].
    destruct (Ho' j Hj) as (_ & _ & E1). rewrite E1 in Hv. by eapply (sm_shift n c Hc).
Qed.

Lemma put_cell_stream n c i p0 S0 sh0 e0 p S sh e c' :
  stream_wf n c -> cell_is c i p0 S0 sh0 e0 -> put_cell c i p S sh e c' -> cells_wf c' ->
  (p <> (-1)%Z -> S <> ∅) -> (p <= INT32_MAX)%Z -> in_i32 sh = true ->
  stream_wf n c' /\ (forall j, j <> i -> cell_at c' j = cell_at c j) /\
  abs_cells c' !! i = (if (p =? -1)%Z then None else Some (p, S)).
Proof.
  intros Hc Hi Hput Hwf. apply (cell_stream n c i p S sh e); [done|done| | |by eapply put_cell_at].
  - by rewrite (put_cell_size _ _ _ _ _ _ _ Hput), (sm_size n c Hc).
  - intros. by eapply put_cell_others.
Qed.

Lemma fresh_stream n : stream_wf n (fresh_cells n) /\ abs_cells (fresh_cells n) = ∅.
Proof.
  assert (forall i p S, view (fresh_cells n) !! i = Some (p, S) -> p = (-1)%Z) as Hf.
  { intros i p S [Hp _]%view_lookup. simpl in Hp. by apply lookup_replicate in Hp as [-> _]. }
  split.
  - split.
    + apply fresh_wf.
    + unfold cells_size. simpl. by rewrite length_replicate.
    + intros i p S Hv Hp. by apply Hf in Hv.
    + intros i p Hp. simpl in Hp. apply lookup_replicate in Hp as [-> _]. unfold INT32_MAX. lia.
    + intros i sh Hs. simpl in Hs. by apply lookup_replicate in Hs as [-> _].
  - apply map_eq. intros i. rewrite abs_lookup, lookup_empty. destruct (view _ !! i) as [[p S]|] eqn:Hv; [|done].
    apply Hf in Hv as ->. done.
Qed.

(** ** Sweeps *)

(** What the body of a sweep does at cell [i]: nothing, or [g] on its content. *)
Definition sweep_body (n : nat) (P : nat -> kv_cells -> outcome bool) (f : nat -> kv_cells -> outcome (bool * kv_cells))
    (g : Z * gset nat -> option (Z * gset nat)) (i : nat) (c : kv_cells) : Prop :=
  exists b, P i c = Ok b /\
    if (b : bool) then exists freed c', f i c = Ok (freed, c') /\ stream_wf n c' /\
      (forall j, j <> i -> cell_at c' j = cell_at c j) /\ abs_cells c' !! i = abs_cells c !! i ≫= g
    else abs_cells c !! i = abs_cells c !! i ≫= g.

Lemma sweep_ok n P f g c :
  stream_wf n c ->
  (forall i c1, i < n -> stream_wf n c1 -> cell_at c1 i = cell_at c i -> sweep_body n P f g i c1) ->
  exists h c', sweep P f c = Ok (h, c') /\ stream_wf n c' /\ h <= n /\ abs_cells c' = omap g (abs_cells c).
Proof.
  intros Hc Hbody. pose proof (sm_size n c Hc) as Hn. unfold sweep. rewrite Hn.
  destruct (foldM_seq (fun '(new_head, c) i => b ← P i c;
      if (b : bool) then r ← f i c; Ok (note_freed (cells_size r.2) new_head i r.1, r.2) else Ok (new_head, c))
    (fun k (st : nat * kv_cells) => stream_wf n st.2 /\ st.1 <= n /\
       (forall j, k <= j -> cell_at st.2 j = cell_at c j) /\
       (forall j, j < k -> abs_cells st.2 !! j = abs_cells c !! j ≫= g)) 0 n (n, c)) as ([h c'] & E & Hc' & Hh & _ & Ha).
  - split_and!; simpl; try done. intros; lia.
  - intros k [h1 c1] Hk (Hc1 & Hh1 & Hrest & Hdone). cbn [fst snd] in *.
    destruct (Hbody k c1 ltac:(lia) Hc1 (Hrest k ltac:(lia))) as (b & -> & Hb). cbn [mbind outcome_bind].
    pose proof (cell_at_abs _ _ _ (Hrest k ltac:(lia))) as Ek. destruct b.
    + destruct Hb as (freed & c2 & -> & Hc2 & Ho & Hg). cbn [mbind outcome_bind fst snd].
      eexists. split; [done|]. cbn [fst snd]. split_and!; [done| | |].
      * unfold note_freed. destruct (freed && _); lia.
      * intros j Hj. rewrite Ho by lia. apply Hrest. lia.
      * intros j Hj. destruct (decide (j = k)) as [->|Hne]; [by rewrite Hg, Ek|].
        rewrite (cell_at_abs _ _ _ (Ho j Hne)). apply Hdone. lia.
    + eexists. split; [done|]. cbn [fst snd]. split_and!; [done|done| |].
      * intros j Hj. apply Hrest. lia.
      * intros j Hj. destruct (decide (j = k)) as [->|Hne]; [by rewrite <- Ek, <- Hb|]. apply Hdone. lia.
  - exists h, c'. split; [exact E|]. split; [done|]. split; [done|]. apply map_eq. intros j. rewrite lookup_omap.
    destruct (decide (j < n)) as [Hj|Hj]; [apply Ha; lia|].
    rewrite !abs_None; [done| |]; simpl in *; [lia | rewrite (sm_size n c' Hc'); lia].
Qed.

(** ** What the operations mean for one cell *)

Definition in_rng (p0 p1 p : Z) : bool := (p0 <=? p)%Z && (p <? p1)%Z.

Definition sp_rm (s : nat) (p0 p1 : Z) (x : Z * gset nat) : option (Z * gset nat) :=
  if in_rng p0 p1 x.1 && bool_decide (s ∈ x.2)
  then if decide (x.2 ∖ {[s]} = ∅) then None else Some (x.1, x.2 ∖ {[s]}) else Some x.

Definition sp_rm_any (p0 p1 : Z) (x : Z * gset nat) : option (Z * gset nat) :=
  if in_rng p0 p1 x.1 then None else Some x.

Definition sp_share (src dst : nat) (p0 p1 : Z) (x : Z * gset nat) : option (Z * gset nat) :=
  if in_rng p0 p1 x.1 && bool_decide (src ∈ x.2) then Some (x.1, {[dst]} ∪ x.2) else Some x.

Definition sp_take (src dst : nat) (x : Z * gset nat) : option (Z * gset nat) :=
  if decide (src ∈ x.2) then Some (x.1, {[dst]}) else None.

Definition sp_keep (s : nat) (x : Z * gset nat) : option (Z * gset nat) :=
  if decide (s ∈ x.2) then Some (x.1, {[s]}) else None.

Definition sp_add (s : nat) (p0 p1 d : Z) (x : Z * gset nat) : option (Z * gset nat) :=
  if in_rng p0 p1 x.1 && bool_decide (s ∈ x.2)
  then if (x.1 + d <? 0)%Z then None else Some ((x.1 + d)%Z, x.2) else Some x.

Definition sp_div (s : nat) (p0 p1 d : Z) (x : Z * gset nat) : option (Z * gset nat) :=
  if in_rng p0 p1 x.1 && bool_decide (s ∈ x.2) then Some ((x.1 / d)%Z, x.2) else Some x.

(** ** The bodies of the sweeps *)
Section bodies.
Context (n : nat) (c : kv_cells) (i : nat).
Hypothesis Hc : stream_wf n c.
Hypothesis Hi : i < n.

Lemma stream_cell : exists p S sh e, cell_is c i p S sh e.
Proof. apply wf_cell; [apply Hc|]. by rewrite (sm_size n c Hc). Qed.

Lemma pos_in_at p S sh e p0 p1 : cell_is c i p S sh e -> pos_in i p0 p1 c = Ok (in_rng p0 p1 p).
Proof. intros (Hp & _). unfold pos_in. by rewrite Hp. Qed.

Lemma seq_has_at p S sh e s : cell_is c i p S sh e -> s < LLAMA_MAX_SEQ -> seq_has i s c = Ok (bool_decide (s ∈ S)).
Proof.
  intros (_ & HS & _) Hs. unfold seq_has. rewrite (sm_size n c Hc), (assert_true _ (proj2 (Nat.ltb_lt _ _) Hi)). simpl.
  by apply seq_test_Ok.
Qed.

Lemma in_seq_at p S sh e s p0 p1 : cell_is c i p S sh e -> s < LLAMA_MAX_SEQ ->
  in_seq s p0 p1 i c = Ok (in_rng p0 p1 p && bool_decide (s ∈ S)).
Proof.
  intros Hcell Hs. unfold in_seq. rewrite (pos_in_at _ _ _ _ _ _ Hcell). simpl.
  destruct (in_rng p0 p1 p); [by eapply seq_has_at|done].
Qed.

Lemma in_rng_used p0 p1 p : (0 <= p0)%Z -> in_rng p0 p1 p = true -> (0 <= p)%Z /\ (p =? -1)%Z = false.
Proof. unfold in_rng. intros. bprop. split; [lia|]. apply Z.eqb_neq. lia. Qed.

(** A body guarded by [in_seq] whose [g] leaves the other cells alone. *)
Lemma in_seq_body s p0 p1 f (g : Z * gset nat -> option (Z * gset nat)) :
  (0 <= p0)%Z -> s < LLAMA_MAX_SEQ ->
  (forall p S, in_rng p0 p1 p && bool_decide (s ∈ S) = false -> g (p, S) = Some (p, S)) ->
  (forall p S sh e, cell_is c i p S sh e -> (0 <= p)%Z -> in_rng p0 p1 p = true -> s ∈ S ->
     exists freed c', f i c = Ok (freed, c') /\ stream_wf n c' /\
       (forall j, j <> i -> cell_at c' j = cell_at c j) /\ abs_cells c' !! i = g (p, S)) ->
  sweep_body n (in_seq s p0 p1) f g i c.
Proof.
  intros Hp0 Hs Hout Hin. destruct stream_cell as (p & S & sh & e & Hcell).
  exists (in_rng p0 p1 p && bool_decide (s ∈ S)). split; [by eapply in_seq_at|].
  rewrite (abs_cell _ _ _ _ _ _ Hcell). destruct (in_rng p0 p1 p && bool_decide (s ∈ S)) eqn:E.
  - apply andb_prop in E as [Er Es]. bprop. destruct (in_rng_used _ _ _ Hp0 Er) as [Hge Hne]. rewrite Hne. simpl. by eapply Hin.
  - destruct (p =? -1)%Z; simpl; [done|]. by rewrite Hout.
Qed.

Lemma rm_body s p0 p1 : (0 <= p0)%Z -> s < LLAMA_MAX_SEQ ->
  sweep_body n (in_seq s p0 p1) (fun i => KvCells.seq_rm i s) (sp_rm s p0 p1) i c.
Proof.
  intros Hp0 Hs. apply in_seq_body; [done|done| |].
  { intros p S E. unfold sp_rm. simpl. by rewrite E. }
  intros p S sh e Hcell Hp Hr HsS.
  destruct (seq_rm_spec c i s p S sh e) as (c' & E & Hwf & _ & Hput); [apply Hc|done|lia|done|].
  exists (bool_decide (S ∖ {[s]} = ∅)), c'. split; [exact E|]. unfold sp_rm. cbn [fst snd]. rewrite Hr, bool_decide_eq_true_2 by done.
  simpl. destruct (decide (S ∖ {[s]} = ∅)).
  - eapply (put_cell_stream n c i p S sh e (-1) ∅ 0 ext_reset); try done; try lia.
  - pose proof Hcell as (Hpos & _ & Hsh & _).
    destruct (put_cell_stream n c i p S sh e p (S ∖ {[s]}) sh e c') as (H1 & H2 & H3); try done.
    + by eapply (sm_pos n c Hc).
    + by eapply (sm_shift n c Hc).
    + split; [done|]. split; [done|]. rewrite H3. by rewrite (proj2 (Z.eqb_neq _ _)) by lia.
Qed.

Lemma rm_any_body p0 p1 : (0 <= p0)%Z ->
  sweep_body n (fun i => pos_in i p0 p1) (fun i c => c ← rm i c; Ok (true, c)) (sp_rm_any p0 p1) i c.
Proof.
  intros Hp0. destruct stream_cell as (p & S & sh & e & Hcell).
  exists (in_rng p0 p1 p). split; [by eapply pos_in_at|]. rewrite (abs_cell _ _ _ _ _ _ Hcell).
  unfold sp_rm_any. destruct (in_rng p0 p1 p) eqn:Er.
  - destruct (in_rng_used _ _ _ Hp0 Er) as [Hge Hne]. rewrite Hne. simpl. rewrite Er.
    destruct (rm_spec c i p) as (c' & E & Hwf & Hem); [apply Hc|apply Hcell|lia|]. rewrite E. simpl.
    exists true, c'. split; [done|]. eapply (put_cell_stream n c i p S sh e (-1) ∅ 0 ext_reset); try done; try lia.
  - destruct (p =? -1)%Z; simpl; [done|]. by rewrite Er.
Qed.

Lemma share_body src dst p0 p1 : (0 <= p0)%Z -> src < LLAMA_MAX_SEQ -> dst < LLAMA_MAX_SEQ ->
  (forall p S, view c !! i = Some (p, S) -> in_rng p0 p1 p = true -> src ∈ S -> dst ∉ S) ->
  sweep_body n (in_seq src p0 p1) (no_free (fun i => KvCells.seq_add i dst)) (sp_share src dst p0 p1) i c.
Proof.
  intros Hp0 Hs Hd Hnot. apply in_seq_body; [done|done| |].
  { intros p S E. unfold sp_share. simpl. by rewrite E. }
  intros p S sh e Hcell Hp Hr HsS. pose proof Hcell as (Hpos & Hseq & Hsh & He).
  destruct (seq_add_spec c i p S dst) as (c' & E & Hwf & E1 & E2 & E3 & E4 & _); try done; [apply Hc|lia| |].
  { eapply Hnot; [by eapply cell_is_view|done|done]. }
  unfold no_free. rewrite E. simpl. exists false, c'. split; [done|].
  destruct (put_cell_stream n c i p S sh e p ({[dst]} ∪ S) sh e c') as (H1 & H2 & H3); try done.
  - unfold put_cell. rewrite E1, E2, E3, E4, (list_insert_id _ _ _ Hpos), (list_insert_id _ _ _ Hsh), (list_insert_id _ _ _ He). done.
  - set_solver.
  - by eapply (sm_pos n c Hc).
  - by eapply (sm_shift n c Hc).
  - split; [done|]. split; [done|]. rewrite H3. rewrite (proj2 (Z.eqb_neq _ _)) by lia. unfold sp_share. simpl.
    by rewrite Hr, bool_decide_eq_true_2 by done.
Qed.

Lemma keep_body s : s < LLAMA_MAX_SEQ ->
  sweep_body n (fun _ _ => Ok true) (fun i => KvCells.seq_keep i s) (sp_keep s) i c.
Proof.
  intros Hs. destruct stream_cell as (p & S & sh & e & Hcell). exists true. split; [done|].
  pose proof Hcell as (Hpos & Hseq & Hsh & He).
  destruct (seq_keep_spec c i s p S sh e) as (c' & E & Hwf & _ & Hput); [apply Hc|done|done| |].
  { eapply (sm_owned n c Hc). by eapply cell_is_view. }
  exists (bool_decide (S <> ∅ /\ s ∉ S)), c'. split; [exact E|]. rewrite (abs_cell _ _ _ _ _ _ Hcell).
  destruct (decide (s ∈ S)) as [HsS|HsS].
  - assert (p <> (-1)%Z) as Hne.
    { intros ->. destruct (wf_free c (sm_wf n c Hc) i Hpos) as [H _]. rewrite Hseq in H. injection H as ->. set_solver. }
    destruct (put_cell_stream n c i p S sh e p {[s]} sh e c') as (H1 & H2 & H3); try done.
    + by eapply (sm_pos n c Hc).
    + by eapply (sm_shift n c Hc).
    + split; [done|]. split; [done|]. rewrite H3. rewrite (proj2 (Z.eqb_neq _ _)) by done. unfold sp_keep. simpl.
      by rewrite decide_True by done.
  - destruct (decide (S <> ∅)) as [HS|HS].
    + destruct (put_cell_stream n c i p S sh e (-1) ∅ 0 ext_reset c') as (H1 & H2 & H3); try done; try lia.
      split; [done|]. split; [done|]. rewrite H3. destruct (p =? -1)%Z; simpl; [done|]. unfold sp_keep. simpl. by rewrite decide_False.
    + subst c'. split; [done|]. split; [done|]. rewrite (abs_cell _ _ _ _ _ _ Hcell).
      destruct (p =? -1)%Z eqn:Ep; [done|]. exfalso. apply HS. eapply (sm_owned n c Hc); [by eapply cell_is_view|]. by bprop.
Qed.

Lemma add_body s p0 p1 d : (0 <= p0)%Z -> s < LLAMA_MAX_SEQ ->
  (forall p S sh e, cell_is c i p S sh e -> in_rng p0 p1 p = true -> s ∈ S -> in_i32 (p + d) = true /\ in_i32 (sh + d) = true) ->
  sweep_body n (in_seq s p0 p1) (fun i => pos_add i d) (sp_add s p0 p1 d) i c.
Proof.
  intros Hp0 Hs Hfit. apply in_seq_body; [done|done| |].
  { intros p S E. unfold sp_add. simpl. by rewrite E. }
  intros p S sh e Hcell Hp Hr HsS. destruct (Hfit p S sh e Hcell Hr HsS) as [F1 F2].
  destruct (pos_add_spec c i d p S sh e) as (c' & E & Hwf & _ & Hput); try done; [apply Hc|lia|].
  exists (p + d <? 0)%Z, c'. split; [exact E|]. unfold sp_add. cbn [fst snd]. rewrite Hr, bool_decide_eq_true_2 by done. simpl.
  destruct (p + d <? 0)%Z eqn:Ed; bprop.
  - eapply (put_cell_stream n c i p S sh e (-1) ∅ 0 e); try done; try lia.
  - destruct (put_cell_stream n c i p S sh e (p + d) S (sh + d) e c') as (H1 & H2 & H3); try done.
    + intros _. eapply (sm_owned n c Hc); [by eapply cell_is_view|]. lia.
    + unfold in_i32 in F1. bprop. lia.
    + split; [done|]. split; [done|]. rewrite H3. by rewrite (proj2 (Z.eqb_neq _ _)) by lia.
Qed.

Lemma div_body s p0 p1 d : (0 <= p0)%Z -> s < LLAMA_MAX_SEQ -> (0 < d)%Z ->
  (forall p S sh e, cell_is c i p S sh e -> in_rng p0 p1 p = true -> s ∈ S -> in_i32 (sh + (p - p / d)) = true) ->
  sweep_body n (in_seq s p0 p1) (no_free (fun i => pos_div i d)) (sp_div s p0 p1 d) i c.
Proof.
  intros Hp0 Hs Hd Hfit. apply in_seq_body; [done|done| |].
  { intros p S E. unfold sp_div. simpl. by rewrite E. }
  intros p S sh e Hcell Hp Hr HsS. pose proof (Hfit p S sh e Hcell Hr HsS) as F2.
  pose proof Hcell as (Hpos & _). pose proof (sm_pos n c Hc i p Hpos) as Hmax.
  assert (0 <= p / d <= p)%Z as Hq by (split; [by apply Z.div_pos|apply Z.div_le_upper_bound; nia]).
  destruct (pos_div_spec c i d p S sh e) as (c' & E & Hwf & _ & Hput); try done; [apply Hc|lia| | |].
  { unfold in_i32. rewrite (proj2 (Z.leb_le _ _)), (proj2 (Z.leb_le _ _)); unfold INT32_MIN in *; try lia; done. }
  { unfold in_i32. rewrite (proj2 (Z.leb_le _ _)), (proj2 (Z.leb_le _ _)); unfold INT32_MIN in *; try lia; done. }
  unfold no_free. rewrite E. simpl. exists false, c'. split; [done|].
  destruct (put_cell_stream n c i p S sh e (p / d) S (sh + (p - p / d)) e c') as (H1 & H2 & H3); try done.
  - intros _. eapply (sm_owned n c Hc); [by eapply cell_is_view|]. lia.
  - lia.
  - split; [done|]. split; [done|]. rewrite H3. rewrite (proj2 (Z.eqb_neq _ _)) by lia. unfold sp_div. simpl.
    by rewrite Hr, bool_decide_eq_true_2 by done.
Qed.
End bodies.
