(* ===== verification/KvInv.v ===== *)
(** * The invariant of llama_kv_cache

    [kv_wf] holds between operations; [calm] steps change only the tail and the
    allocation cursors.  The exact tail enters through the safety of its operations
    (TailProps.run_op_safe), so none of its internals is opened here. *)

From S2P Require Import KvCells TailStore TailProps.
From S2P Require Export KvWf.
Open Scope nat_scope.

(** ** Operations of the tail that leave a pending copy alone *)

Definition pendingness (t : tail_store) : bool * nat := (bool_decide (t_pending t = None), length (t_seqs t)).

Definition keeps {A} (m : stx tail_store A) : Prop := forall t, pendingness (m t).2 = pendingness t.

Lemma keeps_same {A} (m : stx tail_store A) : (forall t, (m t).2 = t) -> keeps m.
Proof. intros H t. by rewrite H. Qed.

Lemma pend_bind {A B} (m : stx tail_store A) (k : A -> stx tail_store B) :
  keeps m -> (forall a, keeps (k a)) -> keeps (m ≫= k).
Proof.
  intros Hm Hk t. unfold mbind, stx_bind. specialize (Hm t). destruct (m t) as [[a|e] t']; simpl in *; [|done].
  by rewrite (Hk a t').
Qed.

Lemma pend_on_seq {A} i (m : stx seq_state A) : keeps (on_seq i m).
Proof.
  intros t. unfold on_seq, pendingness. destruct (t_seqs t !! i); [|done]. destruct (m s). simpl. by rewrite length_insert.
Qed.

Lemma pend_forX f l : (forall i, keeps (f i)) -> keeps (forX f l).
Proof. intros Hf. induction l as [|i l IH]; [by apply keeps_same|]. apply pend_bind; auto. Qed.

Lemma pend_for_seqs f : (forall i, keeps (f i)) -> keeps (for_seqs f).
Proof. intros Hf t. apply (pend_forX f (seq 0 (length (t_seqs t))) Hf t). Qed.

Lemma keeps_get_then {A} (k : tail_store -> stx tail_store A) :
  (forall s, keeps (k s)) -> keeps (s ← stx_get; k s).
Proof. intros Hk. apply pend_bind; [by apply keeps_same|done]. Qed.

Lemma keeps_lift_then {A B} (m : outcome A) (k : A -> stx tail_store B) :
  (forall a, keeps (k a)) -> keeps (a ← stx_lift m; k a).
Proof. intros Hk. apply pend_bind; [by apply keeps_same|done]. Qed.

#[local] Hint Resolve pend_on_seq pend_for_seqs keeps_get_then keeps_lift_then : core.

Lemma pend_ret {A} (a : A) : keeps (mret a).
Proof. by apply keeps_same. Qed.
#[local] Hint Resolve pend_ret : core.

Lemma keeps_rm i p0 p1 : keeps (TailStore.seq_rm i p0 p1).
Proof. apply keeps_get_then. intros s. destruct (negb _); auto. Qed.

Lemma keeps_rm_cell i st cell : keeps (TailStore.seq_rm_cell i st cell).
Proof. apply keeps_get_then. intros s. destruct (negb _); auto. Qed.

Lemma keeps_keep i : keeps (TailStore.seq_keep i).
Proof. apply pend_for_seqs. intros j. destruct (_ =? _)%Z; [auto|apply keeps_rm]. Qed.

Lemma keeps_add i p0 p1 d : keeps (TailStore.seq_add i p0 p1 d).
Proof. apply keeps_get_then. intros s. destruct (negb _); [auto|]. apply keeps_lift_then. auto. Qed.

Lemma keeps_div i p0 p1 d : keeps (TailStore.seq_div i p0 p1 d).
Proof. apply keeps_get_then. intros s. destruct (_ || _); [auto|]. apply keeps_lift_then. auto. Qed.

Lemma keeps_degrade i f : keeps (mark_degraded i f).
Proof.
  intros t. unfold mark_degraded, mbind, stx_bind, stx_get. destruct (i <? 0)%Z.
  - unfold stx_modify, pendingness. simpl. rewrite length_fmap. by destruct (t_pending t).
  - destruct (valid_seq t i); [|done]. destruct (t_pending t) as [p|] eqn:Hp; [|apply pend_on_seq].
    destruct (pc_dst p =? i)%Z; [|apply pend_on_seq]. unfold pendingness. simpl. by rewrite Hp.
Qed.

(** ** The invariant *)

(** The tail store of a cache for [seqs] sequences. *)
Record tail_ok (seqs : nat) (i : stream_copy_info) (t : tail_store) : Prop := {
  to_wf : store_wf t;
  to_seqs : length (t_seqs t) = seqs;
  to_pending : t_pending t <> None -> tail_transaction i = true
}.

(** [n] cells per stream; a sequence owns cells of its own stream only. *)
Record kv_wf (n : nat) (k : kv_cache) : Prop := {
  kw_cells : forall st c, v_cells k !! st = Some c -> stream_wf n c;
  kw_streams : length (v_cells k) = n_stream (k_cfg k);
  kw_heads : length (v_heads k) = n_stream (k_cfg k) /\ Forall (fun h => h <= n) (v_heads k);
  kw_map : Forall (fun st => st < n_stream (k_cfg k)) (seq_to_stream k);
  kw_seqs : 0 < n_seq_max (k_cfg k) <= length (seq_to_stream k) /\ length (seq_to_stream k) <= LLAMA_MAX_SEQ;
  kw_home : forall st m i p S s, abs k !! st = Some m -> m !! i = Some (p, S) -> s ∈ S -> seq_to_stream k !! s = Some st;
  kw_alloc : length (allocation_seq_heads (k_alloc k)) = n_seq_max (k_cfg k) /\
    Forall (fun h => h <= n) (allocation_seq_heads (k_alloc k));
  kw_copies : length (ssrc (sc_info k)) = length (sdst (sc_info k)) /\
    length (tail_src_slots (sc_info k)) = length (tail_dst_slots (sc_info k));
  kw_tail : forall t, tail (k_tail k) = Some t -> tail_ok (n_seq_max (k_cfg k)) (sc_info k) t;
  kw_gens : tail (k_tail k) <> None -> length (tail_generations (k_tail k)) = n_stream (k_cfg k) /\
    Forall (fun r => length r = n) (tail_generations (k_tail k))
}.

(** No copy is pending. *)
Definition settled (k : kv_cache) : Prop := forall t, tail (k_tail k) = Some t -> t_pending t = None.

(** A step that changes the tail and the allocation cursors only. *)
Record calm (n : nat) (k k' : kv_cache) : Prop := {
  cm_wf : kv_wf n k';
  cm_cells : v_cells k' = v_cells k;
  cm_heads : v_heads k' = v_heads k;
  cm_cfg : k_cfg k' = k_cfg k;
  cm_map : seq_to_stream k' = seq_to_stream k;
  cm_tail : tail (k_tail k') = None <-> tail (k_tail k) = None;
  cm_settled : settled k -> settled k';
  cm_sc : sc_info k' = sc_info k
}.

Lemma calm_refl n k : kv_wf n k -> calm n k k.
Proof. by split. Qed.

Lemma calm_trans n k1 k2 k3 : calm n k1 k2 -> calm n k2 k3 -> calm n k1 k3.
Proof. intros [] []. split; try congruence; [by rewrite cm_tail1, cm_tail0|auto]. Qed.

(** A step that changes no cell. *)
Record quiet (n : nat) (k k' : kv_cache) : Prop := {
  qt_wf : kv_wf n k';
  qt_cells : v_cells k' = v_cells k;
  qt_cfg : k_cfg k' = k_cfg k;
  qt_map : seq_to_stream k' = seq_to_stream k;
  qt_tail : tail (k_tail k') = None <-> tail (k_tail k) = None
}.

Lemma calm_quiet n k k' : calm n k k' -> quiet n k k'.
Proof. intros []. by split. Qed.

Lemma quiet_trans n k1 k2 k3 : quiet n k1 k2 -> quiet n k2 k3 -> quiet n k1 k3.
Proof. intros [] []. split; try congruence. by rewrite qt_tail1, qt_tail0. Qed.

Lemma quiet_abs n k k' : quiet n k k' -> abs k' = abs k.
Proof. intros H. unfold abs. by rewrite (qt_cells _ _ _ H). Qed.

Lemma calm_abs n k k' : calm n k k' -> abs k' = abs k.
Proof. intros H. unfold abs. by rewrite (cm_cells _ _ _ H). Qed.

(** Sequencing calm steps. *)
Lemma wp_calm_bind {A B} n (m : stx kv_cache A) (f : A -> stx kv_cache B) (Q : B -> kv_cache -> Prop) k :
  wp m (fun _ => calm n k) k -> (forall a k', calm n k k' -> wp (f a) Q k') -> wp (m ≫= f) Q k.
Proof. intros Hm Hf. apply wp_bind. eapply wp_mono; [exact Hm|]. simpl. auto. Qed.

Lemma wp_calm_forX n (f : nat -> stx kv_cache unit) l k :
  kv_wf n k -> (forall i k', i ∈ l -> calm n k k' -> wp (f i) (fun _ => calm n k') k') -> wp (forX f l) (fun _ => calm n k) k.
Proof.
  intros Hk Hf. apply (wp_forX_const (calm n k)); [by apply calm_refl| |done].
  intros i k' Hi Hk'. eapply wp_mono; [by apply Hf|]. intros [] k'' Hc. by eapply calm_trans.
Qed.

Lemma wp_for_all n (f : Z -> stx kv_cache unit) k :
  kv_wf n k -> (forall i k', i < n_seq_max (k_cfg k) -> calm n k k' -> wp (f (Z.of_nat i)) (fun _ => calm n k') k') ->
  wp (for_all_seqs f) (fun _ => calm n k) k.
Proof. intros Hk Hf. apply wp_calm_forX; [done|]. intros i k' Hi%elem_of_seq. apply Hf. lia. Qed.

Lemma wp_if_tail n (m : stx kv_cache unit) k :
  kv_wf n k -> (tail (k_tail k) <> None -> wp m (fun _ => calm n k) k) -> wp (if_tail m) (fun _ => calm n k) k.
Proof. intros Hk Hm. unfold wp, if_tail. destruct (tail (k_tail k)) eqn:E; [by apply Hm|by apply calm_refl]. Qed.

(** *** Replacing a part *)

Lemma set_tail_wf n k ts : kv_wf n k ->
  (forall t, tail ts = Some t -> tail_ok (n_seq_max (k_cfg k)) (sc_info k) t) ->
  (tail ts <> None -> length (tail_generations ts) = n_stream (k_cfg k) /\ Forall (fun r => length r = n) (tail_generations ts)) ->
  kv_wf n (set_tail ts k).
Proof. intros [] H1 H2. by split. Qed.

Lemma set_alloc_heads_wf n k heads : kv_wf n k -> length heads = n_seq_max (k_cfg k) -> Forall (fun h => h <= n) heads ->
  calm n k (set_alloc (set_al_heads heads (k_alloc k)) k).
Proof. intros [] Hl Hh. by split. Qed.

(** ** Operations of the tail on the cache *)

Lemma set_store_calm n k t t' : kv_wf n k -> tail (k_tail k) = Some t -> store_wf t' -> pendingness t' = pendingness t ->
  calm n k (set_tail (set_store (Some t') (k_tail k)) k).
Proof.
  intros Hk Ht Hw Hp. unfold pendingness in Hp. injection Hp as Hp Hl. destruct (kw_tail n k Hk t Ht) as [T1 T2 T3].
  assert (t_pending t' = None <-> t_pending t = None) as Hiff.
  { destruct (decide (t_pending t' = None)) as [E|E]; [rewrite (bool_decide_eq_true_2 _ E) in Hp|rewrite (bool_decide_eq_false_2 _ E) in Hp];
      symmetry in Hp; bprop; tauto. }
  split; simpl; try done.
  - apply set_tail_wf; [done| |].
    + intros t1 [= <-]. split; [done|by rewrite Hl|]. intros H. apply T3. by rewrite <- Hiff.
    + intros _. apply (kw_gens n k Hk). by rewrite Ht.
  - rewrite Ht. done.
  - intros Hs t1 [= <-]. apply Hiff. by apply Hs.
Qed.

Lemma wp_on_tail n op k : kv_wf n k -> keeps (run_op op) ->
  (forall t, tail (k_tail k) = Some t -> op_pre op t /\ forall f, ~ may_throw op t f) -> tail (k_tail k) <> None ->
  wp (on_tail (run_op op)) (fun _ => calm n k) k.
Proof.
  intros Hk Hkeeps Hpre Ht. destruct (tail (k_tail k)) as [t|] eqn:E; [|done]. destruct (Hpre t eq_refl) as [Hop Hno].
  destruct (run_op_safe op t (to_wf _ _ _ (kw_tail n k Hk t E)) Hop) as [Hw Hr]. specialize (Hkeeps t).
  unfold wp, on_tail. rewrite E. destruct (run_op op t) as [[[]|f] t']; simpl in *.
  - by eapply set_store_calm.
  - by apply (Hno f).
Qed.

(** *** Coverage *)

Lemma coverage_ok t i available : exists cv, coverage t i available = Ok cv.
Proof.
  unfold coverage. destruct (valid_seq t i) eqn:Ev.
  - destruct (pending_for t i); [by eexists|]. apply valid_seq_lookup in Ev as [_ [q Hq]].
    rewrite (vec_get_Some _ _ _ Hq). by eexists.
  - by eexists.
Qed.

Lemma wp_coverage n k i available : kv_wf n k -> tail (k_tail k) <> None ->
  wp (on_tail (s ← stx_get; stx_lift (coverage s i available))) (fun _ => calm n k) k.
Proof.
  intros Hk Ht. destruct (tail (k_tail k)) as [t|] eqn:E; [|done]. destruct (coverage_ok t i available) as [cv Ecv].
  unfold wp, on_tail, mbind, stx_bind, stx_get, stx_lift. rewrite E, Ecv.
  eapply set_store_calm; [done|done|apply (kw_tail n k Hk t E)|done].
Qed.

(** ** Looking things up *)

Lemma wp_gets {A} (f : kv_cache -> outcome A) a (Q : A -> kv_cache -> Prop) k : f k = Ok a -> Q a k -> wp (gets f) Q k.
Proof. unfold wp, gets. by intros ->. Qed.

Definition valid_id (i : Z) (k : kv_cache) : Prop := (0 <= i < Z.of_nat (length (seq_to_stream k)))%Z.

Lemma stream_of_ok n k i : kv_wf n k -> valid_id i k -> exists st c, stream_of i k = Ok st /\
  seq_to_stream k !! Z.to_nat i = Some st /\ cells_of st k = Ok c /\ v_cells k !! st = Some c /\ stream_wf n c /\ st < n_stream (k_cfg k).
Proof.
  intros Hk Hi. unfold valid_id in Hi. destruct (lookup_lt_is_Some_2 (seq_to_stream k) (Z.to_nat i)) as [st Hst]; [lia|].
  pose proof (proj1 (Forall_lookup _ _) (kw_map n k Hk) _ _ Hst) as Hlt. simpl in Hlt.
  destruct (lookup_lt_is_Some_2 (v_cells k) st) as [c Hc]; [by rewrite (kw_streams n k Hk)|].
  exists st, c. unfold stream_of, cells_of. rewrite (proj2 (Z.leb_le _ _)), (proj2 (Z.ltb_lt _ _)) by lia. simpl.
  split_and!; [by apply vec_get_Some|done|by apply vec_get_Some|done|by eapply kw_cells|done].
Qed.

Lemma valid_id_max n k i : kv_wf n k -> valid_id i k -> Z.to_nat i < LLAMA_MAX_SEQ.
Proof. intros Hk Hi. pose proof (kw_seqs n k Hk). unfold valid_id in Hi. lia. Qed.

Lemma cells_of_0 n k : kv_wf n k -> exists c, cells_of 0 k = Ok c /\ v_cells k !! 0 = Some c /\ stream_wf n c.
Proof.
  intros Hk. destruct (kw_seqs n k Hk) as [[? ?] _].
  destruct (lookup_lt_is_Some_2 (seq_to_stream k) 0) as [st Hst]; [lia|].
  pose proof (proj1 (Forall_lookup _ _) (kw_map n k Hk) _ _ Hst) as Hlt. simpl in Hlt.
  destruct (lookup_lt_is_Some_2 (v_cells k) 0) as [c Hc]; [rewrite (kw_streams n k Hk); lia|].
  exists c. split; [by apply vec_get_Some|]. split; [done|]. by eapply kw_cells.
Qed.

Lemma get_size_ok n k : kv_wf n k -> get_size k = Ok n.
Proof.
  intros Hk. destruct (kw_seqs n k Hk) as [[? ?] _]. destruct (stream_of_ok n k 0 Hk) as (st & c & _ & Hst & Hc & _ & Hw & _).
  { unfold valid_id. lia. }
  unfold get_size. change (Z.to_nat 0) with 0 in Hst. rewrite (vec_get_Some _ _ _ Hst). simpl. rewrite Hc. simpl. by rewrite (sm_size n c Hw).
Qed.

(** ** Degrading after an incomplete historical operation *)

Lemma wp_mark_if_incomplete n k st c i : kv_wf n k -> tail (k_tail k) <> None -> v_cells k !! st = Some c ->
  (0 <= i < Z.of_nat LLAMA_MAX_SEQ)%Z -> wp (mark_if_incomplete st i) (fun _ => calm n k) k.
Proof.
  intros Hk Ht Hst Hi. unfold mark_if_incomplete. apply wp_bind, (wp_gets _ c); [by apply vec_get_Some|].
  destruct (index_at c (Z.to_nat i)) as (m & u & _ & Hu & _); [apply (kw_cells n k Hk _ _ Hst)|lia|].
  apply wp_bind, (wp_lift _ u).
  { unfold seq_size. rewrite (proj2 (Nat.ltb_lt (Z.to_nat i) LLAMA_MAX_SEQ)) by lia; simpl. by apply vec_get_Some. }
  apply (wp_calm_bind n); [by apply wp_coverage|]. intros cv k' Hc. destruct (_ <? _)%Z; [|done].
  eapply wp_mono; [apply (wp_on_tail n (OpDegrade i DEGRADED_HISTORICAL_OP)); [apply Hc|apply keeps_degrade| |]|].
  - intros t _. split; [exact I|intros []; exact id].
  - by rewrite (cm_tail _ _ _ Hc).
  - intros [] k'' Hc'. by eapply calm_trans.
Qed.

(** ** Allocation heads *)

Lemma newest_cell_ok n c s : stream_wf n c -> s < LLAMA_MAX_SEQ -> exists i, newest_cell s c = Ok i /\ i <= n.
Proof.
  intros Hc Hs. unfold newest_cell. rewrite (sm_size n c Hc).
  destruct (foldM_seq (fun '(pos_max, newest) cell =>
        t ← seq_has cell s c;
        if (t : bool) then
          p ← pos_get cell c;
          Ok (if (pos_max <? p)%Z then (p, cell) else (pos_max, newest))
        else Ok (pos_max, newest)) (fun _ (x : Z * nat) => x.2 <= n) 0 n ((-1)%Z, n)) as ([pm i] & -> & Hi).
  - done.
  - intros k [pm i] Hk Hi. destruct (stream_cell n c k Hc ltac:(lia)) as (p & S & sh & e & Hcell).
    rewrite (seq_has_at n c k Hc ltac:(lia) _ _ _ _ _ Hcell Hs). simpl. case_bool_decide as HsS; [|eauto].
    destruct Hcell as (Hp & HS & _). unfold pos_get. rewrite (used_cell_Some _ _ _ Hp).
    + simpl. destruct (pm <? p)%Z; eexists; (split; [done|]); simpl; [lia|done].
    + intros ->. destruct (wf_free c (sm_wf n c Hc) k Hp) as [H _]. rewrite HS in H. injection H as ->. set_solver.
  - exists i. done.
Qed.

Lemma wp_reset_head n k i : kv_wf n k -> wp (reset_allocation_head i) (fun _ => calm n k) k.
Proof.
  intros Hk. unfold reset_allocation_head. apply wp_bind, wp_get. destruct (_ || _ || _) eqn:E; [by apply calm_refl|]. bprop.
  destruct (kw_alloc n k Hk) as [Hl Hf]. destruct (lookup_lt_is_Some_2 (allocation_seq_heads (k_alloc k)) (Z.to_nat i)) as [h Hh]; [lia|].
  apply wp_bind. eapply wp_lift; [by eapply vec_set_Some|]. apply wp_modify. apply set_alloc_heads_wf; [done|by rewrite length_insert|].
  apply Forall_insert; [done|lia].
Qed.

Lemma wp_rebuild_head n k i : kv_wf n k -> wp (rebuild_allocation_head i) (fun _ => calm n k) k.
Proof.
  intros Hk. unfold rebuild_allocation_head. apply wp_bind, wp_get.
  destruct ((i <? 0)%Z || (Z.of_nat (n_seq_max (k_cfg k)) <=? i)%Z || (allocation_group_size (k_alloc k) <=? 1) || negb (n_stream (k_cfg k) =? 1)) eqn:E;
    [by apply calm_refl|]. bprop.
  destruct (cells_of_0 n k Hk) as (c & Hc & _ & Hw). apply wp_bind, (wp_gets _ c); [done|].
  destruct (kw_alloc n k Hk) as [Hl Hf]. pose proof (kw_seqs n k Hk).
  destruct (newest_cell_ok n c (Z.to_nat i) Hw) as (cell & Hcell & Hle); [lia|].
  apply wp_bind, (wp_lift _ cell); [done|]. rewrite (sm_size n c Hw). destruct (cell =? n) eqn:En; bprop; [by apply wp_reset_head|].
  destruct (lookup_lt_is_Some_2 (allocation_seq_heads (k_alloc k)) (Z.to_nat i)) as [h Hh]; [lia|].
  apply wp_bind. eapply wp_lift; [by eapply vec_set_Some|]. apply wp_modify. apply set_alloc_heads_wf; [done|by rewrite length_insert|].
  apply Forall_insert; [done|lia].
Qed.

(** ** The position bounds of a sequence *)

Lemma abs_view c i p S : abs_cells c !! i = Some (p, S) <-> view c !! i = Some (p, S) /\ p <> (-1)%Z.
Proof.
  rewrite abs_lookup. destruct (view c !! i) as [[q T]|]; simpl; unfold used_content; simpl.
  - destruct (q =? -1)%Z eqn:E; bprop; split; intros H; [done|destruct H; congruence|by injection H as -> ->|by destruct H].
  - split; [done|by intros [? _]].
Qed.

(** The positions the index keeps for a sequence. *)
Lemma owned_dom n c s m u q : stream_wf n c -> ix_at (view c) s m u -> q ∈ dom m <-> exists i S, abs_cells c !! i = Some (q, S) /\ s ∈ S.
Proof.
  intros Hc Hat. rewrite (index_dom (view c) s m u q Hat). split.
  - intros (i & S & Hv & HsS). exists i, S. rewrite abs_view. split; [|done]. split; [done|]. intros ->.
    apply view_lookup in Hv as [Hp HS]. destruct (wf_free c (sm_wf n c Hc) i Hp) as [HS' _]. rewrite HS in HS'. injection HS' as ->. set_solver.
  - intros (i & S & Hv & HsS). apply abs_view in Hv as [Hv _]. eauto.
Qed.

Lemma abs_pos_range n c i p S : stream_wf n c -> abs_cells c !! i = Some (p, S) -> (0 <= p <= INT32_MAX)%Z.
Proof.
  intros Hc [Hv Hne]%abs_view. apply view_lookup in Hv as [Hp _].
  pose proof (wf_pos c (sm_wf n c Hc) i p Hp). pose proof (sm_pos n c Hc i p Hp). lia.
Qed.

Lemma seq_pos_max_ok n c s : stream_wf n c -> s < LLAMA_MAX_SEQ -> exists hi, KvCells.seq_pos_max s c = Ok hi /\
  (-1 <= hi <= INT32_MAX)%Z /\ (forall i p S, abs_cells c !! i = Some (p, S) -> s ∈ S -> (p <= hi)%Z) /\
  (hi <> (-1)%Z -> exists i S, abs_cells c !! i = Some (hi, S) /\ s ∈ S).
Proof.
  intros Hc Hs. destruct (index_at c s) as (m & u & Hm & _ & Hat); [apply Hc|done|].
  unfold KvCells.seq_pos_max. rewrite (proj2 (Nat.ltb_lt s LLAMA_MAX_SEQ) Hs), (vec_get_Some _ _ _ Hm). simpl.
  pose proof (fun q => owned_dom n c s m u q Hc Hat) as Hdom.
  destruct (last (setZ_list (dom m))) as [hi|] eqn:El.
  - assert (hi ∈ dom m) as Hhi by (apply elem_of_setZ_list; apply last_Some in El as [l' ->]; set_solver).
    rewrite (assert_true _ (proj2 (Z.ltb_lt _ _) (index_count _ _ _ _ _ Hat Hhi))). simpl. exists hi. split; [done|].
    apply Hdom in Hhi as (i & S & Hi & HsS). split_and!.
    + pose proof (abs_pos_range n c i hi S Hc Hi). lia.
    + pose proof (abs_pos_range n c i hi S Hc Hi). lia.
    + intros j p T Hj HsT. eapply (StronglySorted_last Z.le (setZ_list (dom m))); [apply setZ_list_sorted|done|].
      apply elem_of_setZ_list, Hdom. eauto.
    + intros _. eauto.
  - exists (-1)%Z. split; [done|]. split; [unfold INT32_MAX; lia|]. apply last_None in El. split; [|done].
    intros j p T Hj HsT. assert (p ∈ setZ_list (dom m)) as Hp by (apply elem_of_setZ_list, Hdom; eauto). rewrite El in Hp. by apply not_elem_of_nil in Hp.
Qed.

Lemma seq_pos_min_ok n c s : stream_wf n c -> s < LLAMA_MAX_SEQ -> exists lo, KvCells.seq_pos_min s c = Ok lo /\
  (-1 <= lo <= INT32_MAX)%Z /\ (forall i p S, abs_cells c !! i = Some (p, S) -> s ∈ S -> (lo <= p)%Z).
Proof.
  intros Hc Hs. destruct (index_at c s) as (m & u & Hm & _ & Hat); [apply Hc|done|].
  unfold KvCells.seq_pos_min. rewrite (proj2 (Nat.ltb_lt s LLAMA_MAX_SEQ) Hs), (vec_get_Some _ _ _ Hm). simpl.
  pose proof (fun q => owned_dom n c s m u q Hc Hat) as Hdom. pose proof (setZ_list_sorted (dom m)) as Hsort.
  assert (forall q, q ∈ setZ_list (dom m) <-> q ∈ dom m) as Hel by (intros; apply elem_of_setZ_list).
  destruct (setZ_list (dom m)) as [|lo l].
  - exists (-1)%Z. split; [done|]. split; [unfold INT32_MAX; lia|]. intros j p T Hj HsT.
    assert (p ∈ @nil Z) as Hp by (apply Hel, Hdom; eauto). by apply not_elem_of_nil in Hp.
  - assert (lo ∈ dom m) as Hlo by (apply Hel; by left). simpl.
    rewrite (assert_true _ (proj2 (Z.ltb_lt _ _) (index_count _ _ _ _ _ Hat Hlo))). simpl. exists lo. split; [done|].
    apply Hdom in Hlo as (i & S & Hi & HsS). pose proof (abs_pos_range n c i lo S Hc Hi). split; [lia|].
    intros j p T Hj HsT. assert (p ∈ lo :: l) as Hp by (apply Hel, Hdom; eauto). apply StronglySorted_inv in Hsort as [_ Hall].
    apply elem_of_cons in Hp as [->|Hp]; [lia|]. rewrite Forall_forall in Hall. by apply Hall.
Qed.

Lemma can_seq_rm_ok n k i p0 p1 : kv_wf n k -> other (k_cfg k) = None -> i = (-1)%Z \/ valid_id i k ->
  exists b, can_seq_rm i p0 p1 k = Ok b /\ (b = false -> has_compact_tail (k_cfg k) = true).
Proof.
  intros Hk Ho Hi. unfold can_seq_rm. destruct (has_compact_tail (k_cfg k)); [|by exists true]. simpl.
  destruct ((i <? 0)%Z || (Z.of_nat (length (seq_to_stream k)) <=? i)%Z) eqn:E; [by eexists|]. bprop.
  destruct Hi as [->|Hi]; [lia|].
  destruct ((p0 <=? 0)%Z && (p1 <? 0)%Z) eqn:E1; [by eexists|]. destruct ((p0 <=? 0)%Z || (0 <=? p1)%Z) eqn:E2; [by eexists|].
  destruct (body_kept (k_cfg k)); [by eexists|].
  destruct (stream_of_ok n k i Hk Hi) as (st & c & Es & _ & Ec & _ & Hw & _).
  destruct (seq_pos_max_ok n c (Z.to_nat i) Hw) as (hi & Eh & Hhi & _); [by eapply valid_id_max|].
  unfold seq_pos_max. rewrite Ho, Es. simpl. rewrite Ec. simpl. rewrite Eh. simpl.
  unfold llama_kv_tail_can_remove_suffix. rewrite E1, E2. destruct (hi <? p0)%Z eqn:Eh0; [by eexists|]. bprop.
  rewrite i32_in; [by eexists|]. unfold INT32_MIN, INT32_MAX in *. lia.
Qed.

(** ** Replacing the cells of a stream *)

Lemma insert_abs st c k : <[st := abs_cells c]> (abs k) = abs (set_cells (<[st := c]> (v_cells k)) k).
Proof. unfold abs. simpl. by rewrite list_fmap_insert. Qed.

Lemma set_cells_wf n k st c' : kv_wf n k -> stream_wf n c' ->
  (forall i p S s, abs_cells c' !! i = Some (p, S) -> s ∈ S -> seq_to_stream k !! s = Some st) ->
  kv_wf n (set_cells (<[st := c']> (v_cells k)) k).
Proof.
  intros [] Hc Hhome. split; simpl; try done.
  - intros st' c Hst. apply list_lookup_insert_Some in Hst as [(<- & <- & _)|[_ Hst]]; [done|]. by eapply kw_cells.
  - by rewrite length_insert.
  - intros st' m i p S s Hst Hm HsS. rewrite <- insert_abs in Hst.
    apply list_lookup_insert_Some in Hst as [(<- & <- & _)|[_ Hst]]; [by eapply Hhome|by eapply kw_home].
Qed.

Lemma abs_stream k st c : v_cells k !! st = Some c -> abs k !! st = Some (abs_cells c).
Proof. intros H. unfold abs. by rewrite list_lookup_fmap, H. Qed.
