(* ===== verification/KvDemo.v ===== *)
(** * New caches, and concrete ones

    A cache fresh from its constructor is well-formed; decidable criteria for the
    invariant; two small caches without a tail on which the properties are
    instantiated. *)

From S2P Require Import KvCells TailStore.
From S2P Require Export KvInv.
Open Scope nat_scope.

(** ** Construction *)

(** The streams the constructor accepts: one for all sequences, or one each. *)
Definition cfg_ok (g : cache_cfg) : Prop :=
  0 < n_seq_max g <= LLAMA_MAX_SEQ /\ (n_stream g = 1 \/ n_stream g = n_seq_max g).

Lemma new_cells n : cells_resize n empty_cells = fresh_cells n.
Proof. apply cells_resize_fresh. apply (fresh_wf 0). Qed.

Lemma abs_fresh n : abs_cells (fresh_cells n) = ∅.
Proof. apply fresh_stream. Qed.

Lemma new_cache_wf g n : cfg_ok g -> kv_wf n (new_cache g n).
Proof.
  intros [[H0 Hmax] Hs]. unfold new_cache. rewrite new_cells. split; simpl; try done.
  - intros st c [-> _]%lookup_replicate. apply fresh_stream.
  - apply length_replicate.
  - rewrite length_replicate. split; [done|]. apply Forall_replicate. lia.
  - destruct (1 <? n_stream g) eqn:E; bprop; apply Forall_forall; intros st Hst.
    + apply elem_of_seq in Hst. lia.
    + apply elem_of_replicate in Hst as [-> _]. lia.
  - destruct (1 <? n_stream g) eqn:E; bprop; rewrite ?length_seq, ?length_replicate; lia.
  - intros st m i p S s Hm Hi. unfold abs in Hm. simpl in Hm. rewrite list_lookup_fmap in Hm.
    apply fmap_Some in Hm as (c & [-> _]%lookup_replicate & ->). rewrite abs_fresh in Hi. by rewrite lookup_empty in Hi.
  - rewrite length_replicate. split; [done|]. apply Forall_replicate. lia.
Qed.

(** ** Decidable criteria *)

Definition owned_ok (x : Z * gset nat) : Prop := x.1 = (-1)%Z \/ x.2 <> ∅.

#[export] Instance owned_ok_dec x : Decision (owned_ok x).
Proof. unfold owned_ok. apply _. Defined.

Lemma stream_wf_dec n c : cells_wf c -> cells_size c = n -> Forall owned_ok (view c) ->
  Forall (fun p => p <= INT32_MAX)%Z (c_pos c) -> Forall (fun sh => in_i32 sh = true) (c_shift c) -> stream_wf n c.
Proof.
  intros Hw Hn Ho Hp Hs. rewrite Forall_lookup in Ho. rewrite Forall_lookup in Hp. rewrite Forall_lookup in Hs.
  split; [done|done| |done|done]. intros i p S Hv Hne. by destruct (Ho i _ Hv).
Qed.

Definition at_home (M : list nat) (st : nat) (x : Z * gset nat) : Prop := set_Forall (fun s => M !! s = Some st) x.2.

#[export] Instance at_home_dec M st x : Decision (at_home M st x).
Proof. unfold at_home. apply _. Defined.

Lemma stream_home_dec M st c : Forall (at_home M st) (view c) ->
  forall i p S s, abs_cells c !! i = Some (p, S) -> s ∈ S -> M !! s = Some st.
Proof.
  intros H i p S s Hi Hs. rewrite abs_lookup in Hi. destruct (view c !! i) as [x|] eqn:Hx; [|done].
  simpl in Hi. unfold used_content in Hi. destruct (_ =? _)%Z; [done|]. injection Hi as ->.
  rewrite Forall_lookup in H. by apply (H i _ Hx).
Qed.

(** ** Concrete caches *)

Definition demo_plan : llama_kv_tail_storage_plan :=
  disabled_plan (mk_storage_request GGML_TYPE_F16 GGML_TYPE_F16 GGML_TYPE_F16 0 0 4 2 0 4 8 8 8
    false false true false false false false false 0 false false false false) 0 0.

Definition demo_cfg (ns : nat) : cache_cfg :=
  mk_cache_cfg 4 ns 1 0 SWA_TYPE_NONE 1 false 0 demo_plan 0 0 0 None.

(** Stream [st] holds positions 7 and 9 of sequence 3. *)
Definition demo_cache (ns st : nat) : kv_cache :=
  let k := new_cache (demo_cfg ns) 4 in set_cells (<[st := demo_cells]> (v_cells k)) k.

Lemma demo_stream : stream_wf 4 demo_cells.
Proof.
  apply stream_wf_dec; [apply demo_wf|vm_compute; reflexivity| | |]; apply (bool_decide_unpack _); vm_compute; exact I.
Qed.

Lemma demo_cache_wf ns st : ns = 1 /\ st = 0 \/ ns = 4 /\ st = 3 -> kv_wf 4 (demo_cache ns st).
Proof.
  intros Hc. apply set_cells_wf; [|apply demo_stream|].
  - apply new_cache_wf. unfold cfg_ok. simpl. rewrite max_seq_256. destruct Hc as [[-> _]|[-> _]]; lia.
  - apply stream_home_dec. destruct Hc as [[-> ->]|[-> ->]]; apply (bool_decide_unpack _); vm_compute; exact I.
Qed.
