(* ===== verification/KvSeqProps.v ===== *)
(** * The sequence operations refine their abstract specification

    Abstractly a cache is, per stream, a finite map from used cells to the position
    they hold and the sequences they hold it for.  Removing, copying, keeping,
    shifting and dividing a sequence are maps over it; the code reaches the same
    state through loops over all cells, three incremental indices, a search head,
    allocation cursors, pending copies and the exact tail. *)

From S2P Require Import KvCells TailStore TailProps.
From S2P Require Export KvDemo.
Open Scope nat_scope.

(** ** Pending copies *)

(** The tail after its pending copy. *)
Definition settled_store (t : tail_store) : tail_store := (commit_seq_cp t).2.

Record settle_step (n : nat) (k k' : kv_cache) : Prop := {
  ss_wf : kv_wf n k';
  ss_settled : settled k';
  ss_cells : v_cells k' = v_cells k;
  ss_cfg : k_cfg k' = k_cfg k;
  ss_map : seq_to_stream k' = seq_to_stream k;
  ss_tail : tail (k_tail k') = settled_store <$> tail (k_tail k)
}.

Lemma settled_store_ok seqs i t : tail_ok seqs i t -> commit_seq_cp t = (Ok tt, settled_store t) /\
  store_wf (settled_store t) /\ length (t_seqs (settled_store t)) = seqs /\ t_pending (settled_store t) = None.
Proof.
  intros [Hw Hl _]. unfold settled_store. destruct (t_pending t) as [p|] eqn:Hp.
  - destruct (commit_cp_run t p Hw Hp) as (q & E & Hw' & _). rewrite E in *. simpl in *. split_and!; [done|done| |done].
    by rewrite length_insert.
  - assert (commit_seq_cp t = (Ok tt, t)) as -> by (unfold commit_seq_cp; by rewrite Hp). done.
Qed.

Lemma sc_empty_eq k n : kv_wf n k ->
  sc_empty (sc_info k) = Ok ((length (ssrc (sc_info k)) =? 0) && (length (tail_src_slots (sc_info k)) =? 0) && negb (tail_transaction (sc_info k))).
Proof.
  intros Hk. destruct (kw_copies n k Hk) as [E1 E2]. unfold sc_empty. by rewrite E1, E2, !Nat.eqb_refl.
Qed.

Lemma wp_materialize n k : kv_wf n k -> wp materialize_pending_copies (fun _ => settle_step n k) k.
Proof.
  intros Hk. unfold materialize_pending_copies. apply wp_bind, wp_get. apply wp_bind.
  eapply wp_lift; [by eapply sc_empty_eq|].
  assert (forall k', v_cells k' = v_cells k -> v_heads k' = v_heads k -> k_cfg k' = k_cfg k -> seq_to_stream k' = seq_to_stream k ->
    k_alloc k' = k_alloc k -> tail_generations (k_tail k') = tail_generations (k_tail k) ->
    tail (k_tail k') = settled_store <$> tail (k_tail k) -> sc_info k' = no_copies -> settle_step n k k') as Hgen.
  { intros k' E1 E2 E3 E4 E5 E6 E7 E8.
    assert (forall t, tail (k_tail k') = Some t -> store_wf t /\ length (t_seqs t) = n_seq_max (k_cfg k) /\ t_pending t = None) as Ht'.
    { intros t Ht. rewrite E7 in Ht. apply fmap_Some in Ht as (t0 & Ht0 & ->). by apply (settled_store_ok _ _ _ (kw_tail n k Hk t0 Ht0)). }
    split; [|intros t Ht; by apply Ht'|done..].
    pose proof Hk as [H1 H2 H3 H4 H5 H6 H7 H8 H9 H10]. split; rewrite ?E1, ?E2, ?E3, ?E4, ?E5, ?E6, ?E8; try done.
    - intros st m. unfold abs. rewrite E1. apply H6.
    - intros t Ht. destruct (Ht' t Ht) as (? & ? & Hp). split; [done|done|]. by rewrite Hp.
    - intros Hnone. apply H10. intros Hn. apply Hnone. by rewrite E7, Hn. }
  destruct ((_ =? 0) && (_ =? 0) && negb _) eqn:E.
  - bprop. apply Hgen; try done.
    + destruct (tail (k_tail k)) as [t|] eqn:Ht; [|done]. simpl. f_equal. unfold settled_store, commit_seq_cp.
      destruct (t_pending t) as [p|] eqn:Hp; [|done]. exfalso.
      pose proof (to_pending _ _ _ (kw_tail n k Hk t Ht)) as Htp. rewrite Hp in Htp. specialize (Htp ltac:(done)). congruence.
    + destruct (kw_copies n k Hk) as [L1 L2]. destruct (sc_info k) as [a b c d e]. simpl in *.
      destruct a, b, c, d; try done. by subst e.
  - destruct (tail (k_tail k)) as [t|] eqn:Ht.
    + destruct (settled_store_ok _ _ _ (kw_tail n k Hk t Ht)) as (Et & _).
      destruct (tail_transaction (sc_info k)) eqn:Etr.
      * unfold wp, mbind, stx_bind, if_tail, on_tail. rewrite !Ht, Et. by apply Hgen.
      * apply Hgen; try done. simpl. f_equal. unfold settled_store, commit_seq_cp.
        destruct (t_pending t) as [p|] eqn:Hp; [|done]. exfalso.
        pose proof (to_pending _ _ _ (kw_tail n k Hk t Ht)) as Htp. rewrite Hp in Htp. specialize (Htp ltac:(done)). congruence.
    + destruct (tail_transaction (sc_info k)).
      * unfold wp, mbind, stx_bind, if_tail. rewrite Ht. by apply Hgen.
      * by apply Hgen.
Qed.

(** ** Sweeping one stream *)

Record swept (n st : nat) (m : amap) (k k' : kv_cache) : Prop := {
  sp_wf : kv_wf n k';
  sp_abs : abs k' = <[st := m]> (abs k);
  sp_cfg : k_cfg k' = k_cfg k;
  sp_map : seq_to_stream k' = seq_to_stream k;
  sp_tail : k_tail k' = k_tail k;
  sp_sc : sc_info k' = sc_info k
}.

(** Owners after [g] are of the same stream. *)
Definition stays_home (k : kv_cache) (st : nat) (g : Z * gset nat -> option (Z * gset nat)) : Prop :=
  forall x y, g x = Some y -> (forall s, s ∈ x.2 -> seq_to_stream k !! s = Some st) -> forall s, s ∈ y.2 -> seq_to_stream k !! s = Some st.

Lemma set_heads_wf n k st h : kv_wf n k -> h <= n -> kv_wf n (set_heads (<[st := h]> (v_heads k)) k).
Proof.
  intros [? ? [Hl Hf] ? ? ? ? ? ? ?] Hh. split; simpl; try done. split; [by rewrite length_insert|]. by apply Forall_insert.
Qed.

Lemma wp_sweep n k st c P f g to_head :
  kv_wf n k -> v_cells k !! st = Some c ->
  (forall i c1, i < n -> stream_wf n c1 -> cell_at c1 i = cell_at c i -> sweep_body n P f g i c1) ->
  (forall h head, h <= n -> head <= n -> to_head n h head <= n) -> stays_home k st g ->
  wp (sweep_stream P f st to_head) (fun _ => swept n st (omap g (abs_cells c)) k) k.
Proof.
  intros Hk Hst Hbody Hto Hhome. pose proof (kw_cells n k Hk st c Hst) as Hc.
  destruct (sweep_ok n P f g c Hc Hbody) as (h & c' & E & Hc' & Hh & Ha).
  unfold sweep_stream. apply wp_bind, (wp_gets _ c); [by apply vec_get_Some|].
  unfold wp, mbind, stx_bind, on_cells. rewrite Hst, E. unfold on_head. simpl.
  destruct (kw_heads n k Hk) as [Hl Hf].
  destruct (lookup_lt_is_Some_2 (v_heads k) st) as [head Hhead].
  { rewrite Hl, <- (kw_streams n k Hk). by eapply lookup_lt_Some. }
  pose proof (proj1 (Forall_lookup _ _) Hf _ _ Hhead) as Hle. simpl in Hle.
  rewrite Hhead. rewrite (sm_size n c Hc).
  assert (kv_wf n (set_cells (<[st := c']> (v_cells k)) k)) as Hk1.
  { apply set_cells_wf; [done|done|]. intros i p S s Hi HsS. rewrite Ha, lookup_omap in Hi.
    destruct (abs_cells c !! i) as [x|] eqn:Ex; [|done]. eapply (Hhome x); [exact Hi| |exact HsS].
    intros s' Hs'. destruct x as [q T]. eapply (kw_home n k Hk st (abs_cells c) i q T); [by apply abs_stream|done|done]. }
  split; try done.
  - apply (set_heads_wf n _ st (to_head n h head)) in Hk1; [exact Hk1|]. by apply Hto.
  - rewrite <- Ha, insert_abs. done.
Qed.

Lemma lower_head_le n h head : h <= n -> head <= n -> lower_head n h head <= n.
Proof. unfold lower_head. intros. destruct (_ && _); lia. Qed.

Lemma home_sub k st g : (forall x y, g x = Some y -> y.2 ⊆ x.2) -> stays_home k st g.
Proof. intros Hg x y Hxy Hx s Hs. apply Hx. by eapply Hg. Qed.

Lemma sp_rm_sub s p0 p1 x y : sp_rm s p0 p1 x = Some y -> y.2 ⊆ x.2.
Proof. unfold sp_rm. destruct (_ && _); [case_decide|]; intros [= <-]; set_solver. Qed.

Lemma sp_rm_any_sub p0 p1 x y : sp_rm_any p0 p1 x = Some y -> y.2 ⊆ x.2.
Proof. unfold sp_rm_any. destruct (in_rng _ _ _); by intros [= <-]. Qed.

Lemma sp_keep_sub s x y : sp_keep s x = Some y -> y.2 ⊆ x.2.
Proof. unfold sp_keep. case_decide; intros [= <-]. set_solver. Qed.

Lemma sp_add_sub s p0 p1 d x y : sp_add s p0 p1 d x = Some y -> y.2 ⊆ x.2.
Proof. unfold sp_add. destruct (_ && _); [destruct (_ <? _)%Z|]; by intros [= <-]. Qed.

Lemma sp_div_sub s p0 p1 d x y : sp_div s p0 p1 d x = Some y -> y.2 ⊆ x.2.
Proof. unfold sp_div. destruct (_ && _); by intros [= <-]. Qed.

Lemma clip_lo_nonneg p : (0 <= clip_lo p)%Z.
Proof. unfold clip_lo. destruct (p <? 0)%Z eqn:E; bprop; lia. Qed.

(** ** Queuing the copies of the tail *)

Definition keeps_len {A} (m : stx tail_store A) : Prop := forall t, length (t_seqs (m t).2) = length (t_seqs t).

Lemma keeps_len_of {A} (m : stx tail_store A) : keeps m -> keeps_len m.
Proof. intros Hm t. specialize (Hm t). unfold pendingness in Hm. by injection Hm. Qed.

Lemma keeps_len_bind {A B} (m : stx tail_store A) (f : A -> stx tail_store B) :
  keeps_len m -> (forall a, keeps_len (f a)) -> keeps_len (m ≫= f).
Proof.
  intros Hm Hf t. unfold mbind, stx_bind. specialize (Hm t). destruct (m t) as [[a|e] t']; simpl in *; [|done].
  by rewrite (Hf a t').
Qed.

Lemma keeps_len_prepare src dst a b p0 p1 : keeps_len (prepare_seq_cp src dst a b p0 p1).
Proof.
  apply keeps_len_bind; [done|]. intros s. destruct (_ || _ || _); [done|]. destruct (t_pending s); [done|].
  apply keeps_len_bind; [done|]. intros qs. apply keeps_len_bind; [done|]. intros qd.
  apply keeps_len_bind; [apply keeps_len_of, pend_on_seq|]. intros pl. by apply keeps_len_bind.
Qed.

Lemma prepare_ok t src dst a b p0 p1 : store_wf t -> t_pending t = None -> op_pre (OpPrepare src dst a b p0 p1) t ->
  exists copies t', prepare_seq_cp src dst a b p0 p1 t = (Ok copies, t') /\ store_wf t' /\ length (t_seqs t') = length (t_seqs t).
Proof.
  intros Hw Hp Hpre. destruct (run_op_safe (OpPrepare src dst a b p0 p1) t Hw Hpre) as [Hw' Hr].
  pose proof (keeps_len_prepare src dst a b p0 p1 t) as Hl. cbn [run_op] in Hw', Hr.
  unfold mbind, stx_bind in Hw', Hr. destruct (prepare_seq_cp src dst a b p0 p1 t) as [[copies|f] t'].
  - by exists copies, t'.
  - exfalso. simpl in Hr. destruct f; try exact Hr. by apply Hr.
Qed.

Lemma wp_queue n k src dst a b p0 p1 : kv_wf n k -> settled k ->
  (forall t, tail (k_tail k) = Some t -> op_pre (OpPrepare src dst (Z.of_nat a) (Z.of_nat b) p0 p1) t) ->
  wp (queue_tail_copies src dst a b p0 p1) (fun _ => quiet n k) k.
Proof.
  intros Hk Hs Hpre. destruct (tail (k_tail k)) as [t|] eqn:Ht.
  2:{ unfold wp, queue_tail_copies, if_tail. rewrite Ht. by apply calm_quiet, calm_refl. }
  pose proof (kw_tail n k Hk t Ht) as Hok.
  destruct (prepare_ok t src dst (Z.of_nat a) (Z.of_nat b) p0 p1) as (copies & t' & E & Hw' & Hl); [apply Hok|by apply Hs|by apply Hpre|].
  unfold wp, queue_tail_copies, if_tail, mbind, stx_bind, on_tail. rewrite Ht, E. cbn.
  split; try done.
  2:{ simpl. by rewrite Ht. }
  pose proof Hk as [H1 H2 H3 H4 H5 H6 H7 H8 H9 H10]. split; simpl; try done.
  - rewrite !length_app, !length_fmap. lia.
  - intros t1 [= <-]. split; [done|by rewrite Hl; apply Hok|]. simpl. intros Hp. by rewrite bool_decide_eq_true_2.
  - intros _. apply H10. by rewrite Ht.
Qed.

(** ** The abstract operations *)

Inductive seq_op :=
  | SeqRm (seq_id p0 p1 : Z)
  | SeqCp (src dst p0 p1 : Z)
  | SeqKeep (seq_id : Z)
  | SeqAdd (seq_id p0 p1 shift : Z)
  | SeqDiv (seq_id p0 p1 d : Z).

Definition run_seq_op (o : seq_op) : stx kv_cache bool :=
  match o with
  | SeqRm i p0 p1 => seq_rm i p0 p1
  | SeqCp src dst p0 p1 => seq_cp src dst p0 p1;; mret true
  | SeqKeep i => seq_keep i;; mret true
  | SeqAdd i p0 p1 d => seq_add i p0 p1 d;; mret true
  | SeqDiv i p0 p1 d => seq_div i p0 p1 d;; mret true
  end.

(** The stream of a sequence, when it has one. *)
Definition home (M : list nat) (i : Z) : nat := default 0 (M !! Z.to_nat i).

Definition on_stream (st : nat) (g : Z * gset nat -> option (Z * gset nat)) (A : list amap) : list amap := alter (omap g) st A.

(** Copying inside a stream shares cells; copying across streams replaces the
    content of the destination's stream.  Ranges as the code clips them. *)
Definition clip_seq_op (M : list nat) (o : seq_op) (A : list amap) : list amap :=
  match o with
  | SeqRm i p0 p1 =>
      if (i <? 0)%Z then (fun m : amap => omap (sp_rm_any (clip_lo p0) (clip_hi p1)) m) <$> A
      else on_stream (home M i) (sp_rm (Z.to_nat i) (clip_lo p0) (clip_hi p1)) A
  | SeqCp src dst p0 p1 =>
      if home M src =? home M dst then
        if (src =? dst)%Z then A else on_stream (home M src) (sp_share (Z.to_nat src) (Z.to_nat dst) (clip_lo p0) (clip_hi p1)) A
      else <[home M dst := omap (sp_take (Z.to_nat src) (Z.to_nat dst)) (A !!! home M src : amap)]> A
  | SeqKeep i => on_stream (home M i) (sp_keep (Z.to_nat i)) A
  | SeqAdd i p0 p1 d => on_stream (home M i) (sp_add (Z.to_nat i) (clip_lo p0) (clip_hi p1) d) A
  | SeqDiv i p0 p1 d => on_stream (home M i) (sp_div (Z.to_nat i) (clip_lo p0) (clip_hi p1) d) A
  end.

(** The part of a precondition that is about the tail. *)
Definition tail_pre (op : tail_op) (k : kv_cache) : Prop :=
  forall t, tail (k_tail k) = Some t -> op_pre op (settled_store t).

(** Cells of a sequence in a range. *)
Definition moved_cell (k : kv_cache) (i p0 p1 p sh : Z) : Prop :=
  exists c j S e, v_cells k !! home (seq_to_stream k) i = Some c /\ cell_is c j p S sh e /\
    in_rng (clip_lo p0) (clip_hi p1) p = true /\ Z.to_nat i ∈ S.

(** How the callers use the operations: ids name sequences, the destination of a copy
    has been cleared in the range, whole buffers are copied across streams, positions
    and shifts fit their type. *)
Definition seq_pre (n : nat) (o : seq_op) (k : kv_cache) : Prop :=
  other (k_cfg k) = None /\
  match o with
  | SeqRm i _ _ => i = (-1)%Z \/ valid_id i k
  | SeqCp src dst p0 p1 =>
      let s0 := home (seq_to_stream k) src in let s1 := home (seq_to_stream k) dst in
      valid_id src k /\ valid_id dst k /\ tail_pre (OpPrepare src dst (Z.of_nat s0) (Z.of_nat s1) p0 p1) k /\
      if decide (s0 = s1) then
        src <> dst -> forall c j p S, v_cells k !! s0 = Some c -> view c !! j = Some (p, S) ->
          in_rng (clip_lo p0) (clip_hi p1) p = true -> Z.to_nat src ∈ S -> Z.to_nat dst ∉ S
      else cuts_buffer p0 n = Ok false /\ cuts_buffer p1 n = Ok false /\
        forall c j p S sh e, v_cells k !! s0 = Some c -> cell_is c j p S sh e -> Z.to_nat src ∈ S -> (0 <= p - sh <= INT32_MAX)%Z
  | SeqKeep i => valid_id i k
  | SeqAdd i p0 p1 d => valid_id i k /\ n_pos_per_embd (k_cfg k) = 1 /\ tail_pre (OpAdd i p0 p1 d) k /\
      forall p sh, moved_cell k i p0 p1 p sh -> in_i32 (p + d) = true /\ in_i32 (sh + d) = true
  | SeqDiv i p0 p1 d => valid_id i k /\ n_pos_per_embd (k_cfg k) = 1 /\ tail_pre (OpDiv i p0 p1 d) k /\ (0 < d)%Z /\
      forall p sh, moved_cell k i p0 p1 p sh -> in_i32 (sh + (p - p / d)) = true
  end.

(** What an operation ends with. *)
Record refined (n : nat) (k : kv_cache) (A : list amap) (k' : kv_cache) : Prop := {
  rf_wf : kv_wf n k';
  rf_abs : abs k' = A;
  rf_cfg : k_cfg k' = k_cfg k;
  rf_map : seq_to_stream k' = seq_to_stream k
}.

Lemma refined_quiet n k A k1 k2 : refined n k A k1 -> quiet n k1 k2 -> refined n k A k2.
Proof. intros [] H. pose proof (quiet_abs _ _ _ H). destruct H. split; congruence. Qed.

Lemma refined_calm n k A k1 k2 : refined n k A k1 -> calm n k1 k2 -> refined n k A k2.
Proof. intros H Hc. eapply refined_quiet; [done|by apply calm_quiet]. Qed.

Lemma alter_insert (st : nat) (g : Z * gset nat -> option (Z * gset nat)) (A : list amap) m :
  A !! st = Some m -> <[st := omap g m]> A = on_stream st g A.
Proof.
  intros H. unfold on_stream. apply list_eq. intros j. rewrite list_lookup_alter, list_lookup_insert.
  pose proof (lookup_lt_Some _ _ _ H). destruct (decide (st = j)) as [->|Hne].
  - rewrite !decide_True by done. by rewrite H.
  - rewrite !decide_False by (by intros [??]). done.
Qed.

(** The abstract positions are never negative. *)
Lemma abs_nonneg n c i p S : stream_wf n c -> abs_cells c !! i = Some (p, S) -> (0 <= p)%Z.
Proof.
  intros Hc. rewrite abs_lookup. destruct (view c !! i) as [[q T]|] eqn:Hv; [|done]. simpl. unfold used_content. simpl.
  destruct (q =? -1)%Z eqn:E; [done|]. intros [= -> ->]. bprop. apply view_lookup in Hv as [Hp _].
  pose proof (wf_pos c (sm_wf n c Hc) i p Hp). lia.
Qed.

Lemma on_stream_id n k st g : kv_wf n k ->
  (forall x, (0 <= x.1)%Z -> g x = Some x) -> on_stream st g (abs k) = abs k.
Proof.
  intros Hk Hg. unfold on_stream. apply list_eq. intros j. rewrite list_lookup_alter. destruct (decide (st = j)) as [->|]; [|done].
  unfold abs. rewrite list_lookup_fmap. destruct (v_cells k !! j) as [c|] eqn:Hc; [|done]. simpl. f_equal.
  apply map_eq. intros i. rewrite lookup_omap. destruct (abs_cells c !! i) as [[p S]|] eqn:Hi; [|done]. simpl. apply Hg. simpl.
  eapply abs_nonneg; [by eapply kw_cells|done].
Qed.

Lemma home_ok k i st : seq_to_stream k !! Z.to_nat i = Some st -> home (seq_to_stream k) i = st.
Proof. unfold home. by intros ->. Qed.

(** ** Removing *)

Lemma settle_quiet n k k1 : settle_step n k k1 -> abs k1 = abs k /\ kv_wf n k1 /\ settled k1.
Proof. intros []. unfold abs. by rewrite ss_cells0. Qed.

(** After the pending copies, a calm step of the tail, then the rest. *)
Lemma wp_on_tail_settled n op k k1 : settle_step n k k1 -> keeps (run_op op) -> (forall t f, ~ may_throw op t f) -> tail_pre op k ->
  tail (k_tail k1) <> None -> wp (on_tail (run_op op)) (fun _ => calm n k1) k1.
Proof.
  intros Hs Hkeeps Hno Hpre Ht. apply wp_on_tail; [apply Hs|done| |done].
  intros t Et. split; [|apply Hno]. rewrite (ss_tail _ _ _ Hs) in Et. apply fmap_Some in Et as (t0 & Et0 & ->). by apply Hpre.
Qed.

Lemma wp_tail_rm n k i p0 p1 : kv_wf n k -> settled k -> tail (k_tail k) <> None ->
  wp (on_tail (TailStore.seq_rm i p0 p1)) (fun _ => calm n k) k.
Proof.
  intros Hk Hs Ht. apply (wp_on_tail n (OpRm i p0 p1)); [done|apply keeps_rm| |done].
  intros t Et. split; [by apply Hs|]. intros f. exact id.
Qed.

Lemma wp_one_or_all n i f k : kv_wf n k -> i = (-1)%Z \/ valid_id i k ->
  (forall j k', valid_id j k -> calm n k k' -> wp (f j) (fun _ => calm n k') k') ->
  wp (one_or_all i f) (fun _ => calm n k) k.
Proof.
  intros Hk Hi Hf. unfold one_or_all. destruct (0 <=? i)%Z eqn:E; bprop.
  - apply Hf; [|by apply calm_refl]. destruct Hi as [->|Hi]; [lia|done].
  - apply wp_for_all; [done|]. intros j k' Hj Hc. apply Hf; [|done]. pose proof (kw_seqs n k Hk). unfold valid_id. lia.
Qed.

Lemma calm_valid n k k' i : calm n k k' -> valid_id i k -> valid_id i k'.
Proof. unfold valid_id. intros H. by rewrite (cm_map _ _ _ H). Qed.

Lemma quiet_valid n k k' i : quiet n k k' -> valid_id i k -> valid_id i k'.
Proof. unfold valid_id. intros H. by rewrite (qt_map _ _ _ H). Qed.

Lemma swept_refined n st m k k' : swept n st m k k' -> refined n k (<[st := m]> (abs k)) k'.
Proof. intros []. by split. Qed.

Lemma wp_remove_from_stream n k i p0 p1 st c : kv_wf n k -> valid_id i k -> seq_to_stream k !! Z.to_nat i = Some st ->
  v_cells k !! st = Some c -> (0 <= p0)%Z ->
  wp (remove_from_stream st i p0 p1) (fun _ k' => swept n st (omap (sp_rm (Z.to_nat i) p0 p1) (abs_cells c)) k k') k.
Proof.
  intros Hk Hi Hst Hc Hp0. apply wp_sweep; [done|done| | |].
  - intros j c1 Hj Hc1 _. apply rm_body; [done|done|done|by eapply valid_id_max].
  - apply lower_head_le.
  - apply home_sub. apply sp_rm_sub.
Qed.

(** All streams, for any sequence. *)
Definition any_done (p0 p1 : Z) (left : list nat) (A : list amap) : list amap :=
  imap (fun st (m : amap) => if decide (st ∈ left) then m else omap (sp_rm_any p0 p1) m) A.

Lemma wp_remove_all n k p0 p1 : kv_wf n k -> (0 <= p0)%Z ->
  wp (forX (remove_any p0 p1) (seq 0 (n_stream (k_cfg k))))
    (fun _ k' => kv_wf n k' /\ abs k' = (fun m : amap => omap (sp_rm_any p0 p1) m) <$> abs k /\
       k_cfg k' = k_cfg k /\ seq_to_stream k' = seq_to_stream k /\ k_tail k' = k_tail k) k.
Proof.
  intros Hk Hp0.
  apply (wp_forX (fun l k' => kv_wf n k' /\ abs k' = any_done p0 p1 l (abs k) /\
       k_cfg k' = k_cfg k /\ seq_to_stream k' = seq_to_stream k /\ k_tail k' = k_tail k /\ NoDup l)).
  - split_and!; try done; [|apply NoDup_seq]. unfold any_done. apply list_eq. intros j. rewrite list_lookup_imap.
    destruct (abs k !! j) as [m|] eqn:Hj; [|done]. simpl. rewrite decide_True; [done|]. apply elem_of_seq.
    apply lookup_lt_Some in Hj. unfold abs in Hj. rewrite length_fmap, (kw_streams n k Hk) in Hj. lia.
  - intros st l k1 Hst (Hk1 & Ha & Hg & Hm & Ht & Hnd). apply NoDup_cons in Hnd as [Hni Hnd]. apply elem_of_seq in Hst.
    destruct (lookup_lt_is_Some_2 (v_cells k1) st) as [c Hc]; [rewrite (kw_streams n k1 Hk1), Hg; lia|].
    eapply wp_mono; [apply (wp_sweep n k1 st c _ _ (sp_rm_any p0 p1)); [done|done| | |]|].
    + intros j c1 Hj Hc1 _. by apply rm_any_body.
    + apply lower_head_le.
    + apply home_sub, sp_rm_any_sub.
    + intros [] k2 [Hk2 Ha2 Hg2 Hm2 Ht2 _]. split_and!; [done| |congruence..|done].
      rewrite Ha2, Ha. unfold any_done. apply list_eq. intros j. rewrite list_lookup_insert, !list_lookup_imap.
      assert (abs k1 !! st = Some (abs_cells c)) as Hst1 by (by apply abs_stream).
      rewrite Ha in Hst1. unfold any_done in Hst1. rewrite list_lookup_imap in Hst1. rewrite length_imap.
      destruct (decide (st = j)) as [<-|Hne].
      * destruct (abs k !! st) as [m|] eqn:Em; [|done]. simpl in Hst1 |- *. rewrite decide_True in Hst1 by (by left).
        injection Hst1 as ->. rewrite (decide_True (P := st = st /\ st < length (abs k))) by (split; [done|by eapply lookup_lt_Some]).
        by rewrite decide_False.
      * rewrite decide_False by (by intros [??]). destruct (abs k !! j) as [m|]; [|done]. simpl. f_equal.
        destruct (decide (j ∈ l)) as [Hj|Hj]; [by rewrite decide_True by (by right)|].
        rewrite decide_False; [done|]. intros [?|?]%elem_of_cons; congruence.
  - intros k1 (Hk1 & Ha & Hg & Hm & Ht & _). split_and!; try done. rewrite Ha. unfold any_done.
    apply list_eq. intros j. rewrite list_lookup_imap, list_lookup_fmap. by destruct (abs k !! j).
Qed.

(** What follows the loops of a removal. *)
Lemma wp_after_rm n i k : kv_wf n k -> i = (-1)%Z \/ valid_id i k ->
  wp (if_tail (one_or_all i (fun current => st ← gets (stream_of current); mark_if_incomplete st current));;
      one_or_all i rebuild_allocation_head) (fun _ => calm n k) k.
Proof.
  intros Hk Hi. apply (wp_calm_bind n).
  - apply wp_if_tail; [done|]. intros Ht. apply wp_one_or_all; [done|done|]. intros j k' Hj Hc.
    assert (valid_id j k') as Hj' by (by eapply calm_valid). pose proof (cm_wf _ _ _ Hc) as Hk'.
    destruct (stream_of_ok n k' j Hk' Hj') as (st & c & Es & _ & _ & Hst & _).
    apply wp_bind, (wp_gets _ st); [done|]. eapply wp_mark_if_incomplete; [done|by rewrite (cm_tail _ _ _ Hc)|done|].
    pose proof (kw_seqs n k' Hk'). unfold valid_id in Hj'. lia.
  - intros [] k' Hc. eapply wp_mono.
    + apply (wp_one_or_all n i); [apply Hc| |].
      { destruct Hi as [?|Hi]; [by left|right; by eapply calm_valid]. }
      intros j k2 _ Hc2. apply wp_rebuild_head, Hc2.
    + intros [] k2 Hc2. by eapply calm_trans.
Qed.

Lemma wp_seq_rm_unchecked n k i p0 p1 : kv_wf n k -> other (k_cfg k) = None -> i = (-1)%Z \/ valid_id i k ->
  wp (seq_rm_unchecked i p0 p1) (fun b k' => b = true /\ refined n k (clip_seq_op (seq_to_stream k) (SeqRm i p0 p1) (abs k)) k') k.
Proof.
  intros Hk Ho Hi. unfold seq_rm_unchecked. apply wp_bind, wp_get. rewrite Ho.
  apply wp_bind. eapply wp_mono; [by apply wp_materialize|]. intros [] k1 Hs. destruct (settle_quiet n k k1 Hs) as (Ha1 & Hk1 & Hset).
  apply wp_bind, (wp_lift _ tt).
  { apply assert_true. destruct Hi as [->|Hi]; [done|]. unfold valid_id in Hi. rewrite (proj2 (Z.leb_le 0 i)), (proj2 (Z.ltb_lt i _)) by lia.
    by rewrite orb_true_r. }
  assert (i = (-1)%Z \/ valid_id i k1) as Hi1 by (unfold valid_id; by rewrite (ss_map _ _ _ Hs)).
  apply (wp_calm_bind n).
  { apply wp_if_tail; [done|]. intros Ht. apply wp_one_or_all; [done|done|]. intros j k' _ Hc.
    apply wp_tail_rm; [apply Hc|by apply (cm_settled _ _ _ Hc)|by rewrite (cm_tail _ _ _ Hc)]. }
  intros [] k2 Hc2. pose proof (cm_wf _ _ _ Hc2) as Hk2. pose proof (calm_abs _ _ _ Hc2) as Ha2.
  assert (k_cfg k2 = k_cfg k) as Hg2 by (by rewrite (cm_cfg _ _ _ Hc2), (ss_cfg _ _ _ Hs)).
  assert (seq_to_stream k2 = seq_to_stream k) as Hm2 by (by rewrite (cm_map _ _ _ Hc2), (ss_map _ _ _ Hs)).
  apply wp_bind. apply (wp_mono _ (fun _ => refined n k (clip_seq_op (seq_to_stream k) (SeqRm i p0 p1) (abs k)))).
  - simpl clip_seq_op. destruct (0 <=? i)%Z eqn:E; bprop.
    + rewrite (proj2 (Z.ltb_ge i 0)) by done. destruct Hi as [->|Hi]; [lia|].
      assert (valid_id i k2) as Hi2 by (unfold valid_id; by rewrite Hm2).
      destruct (stream_of_ok n k2 i Hk2 Hi2) as (st & c & Es & Em & _ & Hst & _).
      apply wp_bind, (wp_gets _ st); [done|]. eapply wp_mono.
      * apply (wp_remove_from_stream n k2 i (clip_lo p0) (clip_hi p1) st c); try done. apply clip_lo_nonneg.
      * intros [] k3 [H1 H2 H3 H4 _ _]. rewrite Hm2 in Em. rewrite (home_ok k i st Em).
        rewrite <- (alter_insert st _ _ (abs_cells c)).
        2:{ rewrite <- Ha1, <- Ha2. by apply abs_stream. }
        split; [done|by rewrite H2, Ha2, Ha1|congruence..].
    + rewrite (proj2 (Z.ltb_lt i 0)) by lia. eapply wp_mono; [rewrite <- Hg2; apply (wp_remove_all n); [done|apply clip_lo_nonneg]|].
      intros [] k3 (H1 & H2 & H3 & H4 & _). split; [done|by rewrite H2, Ha2, Ha1|congruence..].
  - intros [] k3 Hr. pose proof (wp_after_rm n i k3 (rf_wf _ _ _ _ Hr)) as Hafter.
    assert (i = (-1)%Z \/ valid_id i k3) as Hi3 by (unfold valid_id; by rewrite (rf_map _ _ _ _ Hr)).
    specialize (Hafter Hi3). apply wp_bind.
    unfold wp, mbind, stx_bind in Hafter |- *.
    destruct (if_tail _ k3) as [[[]|e] k4]; [|done]. destruct (one_or_all i rebuild_allocation_head k4) as [[[]|e] k5]; [|done].
    split; [done|]. by eapply refined_calm.
Qed.

Lemma wp_seq_rm n k i p0 p1 : kv_wf n k -> seq_pre n (SeqRm i p0 p1) k ->
  wp (seq_rm i p0 p1) (fun b k' => refined n k (if b then clip_seq_op (seq_to_stream k) (SeqRm i p0 p1) (abs k) else abs k) k' /\
    (b = false -> k' = k /\ has_compact_tail (k_cfg k) = true)) k.
Proof.
  intros Hk [Ho Hi]. unfold seq_rm. apply wp_bind, wp_get. rewrite Ho.
  destruct (can_seq_rm_ok n k i p0 p1 Hk Ho Hi) as (b & Eb & Hb). apply wp_bind, (wp_gets _ b); [done|]. destruct b.
  - eapply wp_mono; [by apply wp_seq_rm_unchecked|]. intros b' k' [-> Hr]. by split.
  - split; [by split|]. auto.
Qed.

(** ** Keeping, shifting, dividing *)

(** The common shape: settle, find the stream, a calm step of the tail, a sweep of the
    stream and calm steps. *)
Lemma wp_on_own_stream n k i (m1 : stx kv_cache unit) P f g to_head (m2 : stx kv_cache unit) :
  kv_wf n k -> valid_id i k ->
  (forall k1, settle_step n k k1 -> tail (k_tail k1) <> None -> wp m1 (fun _ => calm n k1) k1) ->
  (forall c j c1, v_cells k !! home (seq_to_stream k) i = Some c -> j < n -> stream_wf n c1 -> cell_at c1 j = cell_at c j -> sweep_body n P f g j c1) ->
  (forall h head, h <= n -> head <= n -> to_head n h head <= n) -> (forall x y, g x = Some y -> y.2 ⊆ x.2) ->
  (forall k1, kv_wf n k1 -> wp m2 (fun _ => calm n k1) k1) ->
  wp (materialize_pending_copies;; st ← gets (stream_of i); if_tail m1;; sweep_stream P f st to_head;; m2)
    (fun _ => refined n k (on_stream (home (seq_to_stream k) i) g (abs k))) k.
Proof.
  intros Hk Hi Hm1 Hbody Hto Hg Hm2.
  apply wp_bind. eapply wp_mono; [by apply wp_materialize|]. intros [] k1 Hs. destruct (settle_quiet n k k1 Hs) as (Ha1 & Hk1 & Hset).
  assert (valid_id i k1) as Hi1 by (unfold valid_id; by rewrite (ss_map _ _ _ Hs)).
  destruct (stream_of_ok n k1 i Hk1 Hi1) as (st & c & Es & Em & _ & Hst & _). rewrite (ss_map _ _ _ Hs) in Em.
  apply wp_bind, (wp_gets _ st); [done|]. apply (wp_calm_bind n).
  { apply wp_if_tail; [done|]. intros Ht. by apply Hm1. }
  intros [] k2 Hc2. apply wp_bind. eapply wp_mono.
  - apply (wp_sweep n k2 st c P f g); [apply Hc2|by rewrite (cm_cells _ _ _ Hc2)| |done|by apply home_sub].
    intros j c1 Hj Hc1 Hat. apply (Hbody c); [|done..]. by rewrite (home_ok k i st Em), <- (ss_cells _ _ _ Hs).
  - intros [] k3 [H1 H2 H3 H4 _ _]. eapply wp_mono; [by apply Hm2|]. intros [] k4 Hc4.
    assert (refined n k (on_stream (home (seq_to_stream k) i) g (abs k)) k3) as Hr; [|by eapply refined_calm].
    split; [done| | |].
    + rewrite H2, (calm_abs _ _ _ Hc2), Ha1, (home_ok k i st Em). apply alter_insert. rewrite <- Ha1. by apply abs_stream.
    + by rewrite H3, (cm_cfg _ _ _ Hc2), (ss_cfg _ _ _ Hs).
    + by rewrite H4, (cm_map _ _ _ Hc2), (ss_map _ _ _ Hs).
Qed.

Lemma wp_seq_keep n k i : kv_wf n k -> seq_pre n (SeqKeep i) k ->
  wp (seq_keep i) (fun _ => refined n k (clip_seq_op (seq_to_stream k) (SeqKeep i) (abs k))) k.
Proof.
  intros Hk [Ho Hi]. unfold seq_keep. apply wp_bind, wp_get. rewrite Ho.
  apply wp_on_own_stream; [done|done| | | | |].
  - intros k1 Hs Ht. apply (wp_on_tail n (OpKeep i)); [apply Hs|apply keeps_keep| |done].
    intros t Et. split; [by apply (ss_settled _ _ _ Hs)|]. intros f. exact id.
  - intros c j c1 _ Hj Hc1 _. apply keep_body; [done|done|by eapply valid_id_max].
  - apply lower_head_le.
  - apply sp_keep_sub.
  - intros k1 Hk1. apply wp_for_all; [done|]. intros j k' _ Hc. apply wp_rebuild_head, Hc.
Qed.

(** The tail's part of a shift or division, and the early returns. *)
Lemma wp_shift_tail n k k1 op i (degrade : bool) : settle_step n k k1 -> keeps (run_op op) -> (forall t f, ~ may_throw op t f) ->
  tail_pre op k -> tail (k_tail k1) <> None ->
  wp (on_tail (run_op op);; if degrade then on_tail (mark_degraded i DEGRADED_HISTORICAL_OP) else mret tt) (fun _ => calm n k1) k1.
Proof.
  intros Hs Hkeeps Hno Hpre Ht. apply (wp_calm_bind n); [by eapply wp_on_tail_settled|]. intros [] k2 Hc.
  destruct degrade; [|done]. eapply wp_mono.
  - apply (wp_on_tail n (OpDegrade i DEGRADED_HISTORICAL_OP)); [apply Hc|apply keeps_degrade| |by rewrite (cm_tail _ _ _ Hc)].
    intros t _. split; [exact I|intros []; exact id].
  - intros [] k3 Hc3. by eapply calm_trans.
Qed.

(** The same operation stopped after the tail's part. *)
Lemma wp_early_return n k i (m1 : stx kv_cache unit) :
  kv_wf n k -> valid_id i k -> n_pos_per_embd (k_cfg k) = 1 ->
  (forall k1, settle_step n k k1 -> tail (k_tail k1) <> None -> wp m1 (fun _ => calm n k1) k1) ->
  wp (materialize_pending_copies;; st ← gets (stream_of i); stx_lift (assert_ (n_pos_per_embd (k_cfg k) =? 1));; if_tail m1;; mret tt)
    (fun _ => refined n k (abs k)) k.
Proof.
  intros Hk Hi Hn Hm1.
  apply wp_bind. eapply wp_mono; [by apply wp_materialize|]. intros [] k1 Hs. destruct (settle_quiet n k k1 Hs) as (Ha1 & Hk1 & Hset).
  assert (valid_id i k1) as Hi1 by (unfold valid_id; by rewrite (ss_map _ _ _ Hs)).
  destruct (stream_of_ok n k1 i Hk1 Hi1) as (st & c & Es & _). apply wp_bind, (wp_gets _ st); [done|].
  apply wp_bind, (wp_lift _ tt); [by rewrite Hn|]. apply (wp_calm_bind n).
  { apply wp_if_tail; [done|]. intros Ht. by apply Hm1. }
  intros [] k2 Hc2. apply wp_ret. eapply refined_calm; [|done]. split; [done|done|apply Hs|apply Hs].
Qed.

(** With the assertion on the positions in the way. *)
Lemma wp_assert_pos k i (m1 : stx kv_cache unit) (m2 : nat -> stx kv_cache unit) Q :
  n_pos_per_embd (k_cfg k) = 1 ->
  wp (materialize_pending_copies;; st ← gets (stream_of i); if_tail m1;; m2 st) Q k ->
  wp (materialize_pending_copies;; st ← gets (stream_of i); stx_lift (assert_ (n_pos_per_embd (k_cfg k) =? 1));; if_tail m1;; m2 st) Q k.
Proof. intros ->. done. Qed.

Lemma moved_at k i p0 p1 c j c1 p S sh e : v_cells k !! home (seq_to_stream k) i = Some c -> cell_at c1 j = cell_at c j ->
  cell_is c1 j p S sh e -> in_rng (clip_lo p0) (clip_hi p1) p = true -> Z.to_nat i ∈ S -> moved_cell k i p0 p1 p sh.
Proof. intros Hc Hat Hcell Hr HsS. exists c, j, S, e. split; [done|]. split; [by eapply cell_at_is|done]. Qed.

Lemma clip_empty p0 p1 x : clip_lo p0 = clip_hi p1 -> in_rng (clip_lo p0) (clip_hi p1) x = false.
Proof.
  intros ->. unfold in_rng. destruct (clip_hi p1 <=? x)%Z eqn:E; [|done]. bprop. simpl. by apply Z.ltb_ge.
Qed.

Lemma wp_seq_add n k i p0 p1 d : kv_wf n k -> seq_pre n (SeqAdd i p0 p1 d) k ->
  wp (seq_add i p0 p1 d) (fun _ => refined n k (clip_seq_op (seq_to_stream k) (SeqAdd i p0 p1 d) (abs k))) k.
Proof.
  intros Hk (Ho & Hi & Hn & Hpre & Hfit). unfold seq_add. apply wp_bind, wp_get. rewrite Ho.
  assert (forall k1, settle_step n k k1 -> tail (k_tail k1) <> None ->
    wp (on_tail (TailStore.seq_add i p0 p1 d);; if negb (d =? 0)%Z && negb (full_range p0 p1)
        then on_tail (mark_degraded i DEGRADED_HISTORICAL_OP) else mret tt) (fun _ => calm n k1) k1) as Hm1.
  { intros k1 Hs Ht. apply (wp_shift_tail n k k1 (OpAdd i p0 p1 d)); [done|apply keeps_add|intros t f; exact id|done|done]. }
  destruct (d =? 0)%Z eqn:Ed; bprop.
  - simpl clip_seq_op. rewrite (on_stream_id n k _ _ Hk) by (intros [p S] Hp; unfold sp_add; simpl in *; subst d;
      destruct (_ && _); [|done]; rewrite (proj2 (Z.ltb_ge _ _)) by lia; by rewrite Z.add_0_r).
    by apply wp_early_return.
  - destruct (clip_lo p0 =? clip_hi p1)%Z eqn:Ep; bprop.
    + simpl clip_seq_op. rewrite (on_stream_id n k _ _ Hk) by (intros [p S] Hp; unfold sp_add; by rewrite clip_empty).
      by apply wp_early_return.
    + apply wp_assert_pos; [done|]. apply wp_on_own_stream; [done|done|done| | | |].
      * intros c j c1 Hc Hj Hc1 Hat. apply add_body; [done|done|apply clip_lo_nonneg|by eapply valid_id_max|].
        intros p S sh e Hcell Hr HsS. apply Hfit. by eapply moved_at.
      * intros h head Hh _. destruct (h =? n); lia.
      * apply sp_add_sub.
      * intros k1 Hk1. by apply wp_rebuild_head.
Qed.

Lemma wp_seq_div n k i p0 p1 d : kv_wf n k -> seq_pre n (SeqDiv i p0 p1 d) k ->
  wp (seq_div i p0 p1 d) (fun _ => refined n k (clip_seq_op (seq_to_stream k) (SeqDiv i p0 p1 d) (abs k))) k.
Proof.
  intros Hk (Ho & Hi & Hn & Hpre & Hd & Hfit). unfold seq_div. apply wp_bind, wp_get. rewrite Ho.
  assert (forall k1, settle_step n k k1 -> tail (k_tail k1) <> None ->
    wp (on_tail (TailStore.seq_div i p0 p1 d);; if negb (d =? 1)%Z && negb (full_range p0 p1)
        then on_tail (mark_degraded i DEGRADED_HISTORICAL_OP) else mret tt) (fun _ => calm n k1) k1) as Hm1.
  { intros k1 Hs Ht. apply (wp_shift_tail n k k1 (OpDiv i p0 p1 d)); [done|apply keeps_div|intros t f; exact id|done|done]. }
  destruct (d =? 1)%Z eqn:Ed; bprop.
  - simpl clip_seq_op. rewrite (on_stream_id n k _ _ Hk) by (intros [p S] Hp; unfold sp_div; simpl in *; subst d;
      destruct (_ && _); [|done]; by rewrite Z.div_1_r).
    by apply wp_early_return.
  - destruct (clip_lo p0 =? clip_hi p1)%Z eqn:Ep; bprop.
    + simpl clip_seq_op. rewrite (on_stream_id n k _ _ Hk) by (intros [p S] Hp; unfold sp_div; by rewrite clip_empty).
      by apply wp_early_return.
    + apply wp_assert_pos; [done|]. apply wp_on_own_stream; [done|done|done| | | |].
      * intros c j c1 Hc Hj Hc1 Hat. apply div_body; [done|done|apply clip_lo_nonneg|by eapply valid_id_max|done|].
        intros p S sh e Hcell Hr HsS. apply Hfit. by eapply moved_at.
      * intros h head Hh Hhead. done.
      * apply sp_div_sub.
      * intros k1 Hk1. by apply wp_rebuild_head.
Qed.

(** ** Copying inside a stream *)

Lemma wp_mark_and_rebuild n k st c i : kv_wf n k -> v_cells k !! st = Some c -> (0 <= i < Z.of_nat LLAMA_MAX_SEQ)%Z ->
  wp (if_tail (mark_if_incomplete st i);; rebuild_allocation_head i) (fun _ => calm n k) k.
Proof.
  intros Hk Hst Hi. apply (wp_calm_bind n).
  - apply wp_if_tail; [done|]. intros Ht. by eapply wp_mark_if_incomplete.
  - intros [] k1 Hc. eapply wp_mono; [apply wp_rebuild_head, Hc|]. intros [] k2 Hc2. by eapply calm_trans.
Qed.

Lemma wp_share_cells n k src dst st p0 p1 : kv_wf n k -> valid_id src k -> valid_id dst k ->
  seq_to_stream k !! Z.to_nat src = Some st -> seq_to_stream k !! Z.to_nat dst = Some st ->
  (forall c j p S, v_cells k !! st = Some c -> view c !! j = Some (p, S) ->
     in_rng (clip_lo p0) (clip_hi p1) p = true -> Z.to_nat src ∈ S -> Z.to_nat dst ∉ S) ->
  wp (sweep_stream (in_seq (Z.to_nat src) (clip_lo p0) (clip_hi p1)) (no_free (fun i => KvCells.seq_add i (Z.to_nat dst)))
        st (fun _ _ head => head);; if_tail (mark_if_incomplete st dst);; rebuild_allocation_head dst)
    (fun _ => refined n k (on_stream st (sp_share (Z.to_nat src) (Z.to_nat dst) (clip_lo p0) (clip_hi p1)) (abs k))) k.
Proof.
  intros Hk Hsrc Hdst Es Ed Hnot. destruct (stream_of_ok n k src Hk Hsrc) as (st' & c & _ & Es' & _ & Hst & _).
  rewrite Es in Es'. injection Es' as <-. apply wp_bind. eapply wp_mono.
  - apply (wp_sweep n k st c _ _ (sp_share (Z.to_nat src) (Z.to_nat dst) (clip_lo p0) (clip_hi p1))); [done|done| |done|].
    + intros j c1 Hj Hc1 Hat. apply share_body; [done|done|apply clip_lo_nonneg|by eapply valid_id_max|by eapply valid_id_max|].
      intros p S Hv. apply (Hnot c j p S Hst). unfold cell_at in Hat. injection Hat as E1 E2 _ _.
      by rewrite lookup_zip_with, <- E1, <- E2, <- lookup_zip_with.
    + intros x y. unfold sp_share. destruct (_ && _); intros [= <-] Hx s; simpl; [|by apply Hx].
      intros [->%elem_of_singleton|Hs]%elem_of_union; [done|by apply Hx].
  - intros [] k1 Hs. pose proof Hs as [H1 H2 H3 H4 H5 _].
    assert (exists c1, v_cells k1 !! st = Some c1) as [c1 Hc1].
    { apply lookup_lt_is_Some_2. rewrite (kw_streams n k1 H1), H3, <- (kw_streams n k Hk). by eapply lookup_lt_Some. }
    eapply wp_mono.
    + apply (wp_mark_and_rebuild n k1 st c1 dst); [done|done|]. pose proof (valid_id_max n k dst Hk Hdst). unfold valid_id in Hdst. lia.
    + intros [] k2 Hc2. eapply refined_calm; [|done]. split; try done. rewrite H2. apply alter_insert. by apply abs_stream.
Qed.

(** ** Copying across streams *)

(** One cell of the source, copied into an empty cell. *)
Lemma copy_cell_body n src dst c0 g0 c1 g1 i :
  stream_wf n c0 -> stream_wf n c1 -> i < n -> src < LLAMA_MAX_SEQ -> dst < LLAMA_MAX_SEQ ->
  c_pos c1 !! i = Some (-1)%Z -> (forall g, g0 = Some g -> length g = n /\ length g1 = n) ->
  (forall p S sh e, cell_is c0 i p S sh e -> src ∈ S -> (0 <= p - sh <= INT32_MAX)%Z) ->
  exists c2 g2, copy_cell src dst c0 g0 (c1, g1) i = Ok (c2, g2) /\ stream_wf n c2 /\ length g2 = length g1 /\
    (forall j, j <> i -> cell_at c2 j = cell_at c1 j) /\ abs_cells c2 !! i = abs_cells c0 !! i ≫= sp_take src dst.
Proof.
  intros Hc0 Hc1 Hi Hs Hd Hfree Hg Hfit. destruct (stream_cell n c0 i Hc0 Hi) as (p & S & sh & e & Hcell).
  unfold copy_cell. rewrite (seq_has_at n c0 i Hc0 Hi _ _ _ _ _ Hcell Hs). cbn [mbind outcome_bind].
  rewrite (abs_cell _ _ _ _ _ _ Hcell). destruct (decide (src ∈ S)) as [HsS|HsS].
  2:{ rewrite bool_decide_eq_false_2 by done. exists c1, g1. split; [done|]. split; [done|]. split; [done|]. split; [done|].
      assert (abs_cells c1 !! i = None) as ->.
      { rewrite abs_lookup. destruct (wf_free c1 (sm_wf n c1 Hc1) i Hfree) as [HS1 _].
        by rewrite (proj2 (view_lookup _ _ _ _) (conj Hfree HS1)). }
      destruct (p =? -1)%Z; [done|]. simpl. unfold sp_take. simpl. by rewrite decide_False. }
  rewrite bool_decide_eq_true_2 by done. pose proof Hcell as (Hp & HS & Hsh & He).
  assert (p <> (-1)%Z) as Hne.
  { intros ->. destruct (wf_free c0 (sm_wf n c0 Hc0) i Hp) as [H _]. rewrite HS in H. injection H as ->. set_solver. }
  unfold pos_get, get_shift, ext_get. rewrite (used_cell_Some _ _ _ Hp Hne). cbn [mbind outcome_bind].
  rewrite (vec_get_Some _ _ _ Hsh), (vec_get_Some _ _ _ He). cbn [mbind outcome_bind].
  pose proof (Hfit p S sh e Hcell HsS) as Hq. pose proof (sm_shift n c0 Hc0 i sh Hsh) as Hshr. pose proof (sm_pos n c0 Hc0 i p Hp) as Hpr.
  pose proof (wf_pos c0 (sm_wf n c0 Hc0) i p Hp) as Hp1.
  assert ((if (sh =? 0)%Z then Ok p else p ← i32 (p - sh); _ ← assert_ (0 <=? p)%Z; Ok p) = Ok (p - sh)%Z) as ->.
  { destruct (sh =? 0)%Z eqn:E; bprop; [f_equal; lia|]. rewrite i32_in by (unfold INT32_MIN, INT32_MAX in *; lia). simpl.
    by rewrite (proj2 (Z.leb_le _ _)) by lia. }
  cbn [mbind outcome_bind].
  destruct (wf_free c1 (sm_wf n c1 Hc1) i Hfree) as [HS1 Hsh1]. destruct (stream_cell n c1 i Hc1 Hi) as (p1 & S1 & sh1 & e1 & (_ & _ & _ & He1)).
  destruct (pos_set_spec c1 i (p - sh) (sm_wf n c1 Hc1) Hfree) as (d1 & -> & W1 & A1 & A2 & A3 & A4 & _); [lia|]. cbn [mbind outcome_bind].
  assert (i < length (c_pos c1)) as Hlen by (by eapply lookup_lt_Some).
  destruct (seq_add_spec d1 i (p - sh) ∅ dst W1) as (d2 & -> & W2 & B1 & B2 & B3 & B4 & _); [by rewrite A1, list_lookup_insert_eq|lia|by rewrite A2|set_solver|done|].
  cbn [mbind outcome_bind].
  assert (cell_is d2 i (p - sh) ({[dst]} ∪ ∅) 0 e1) as Hd2.
  { unfold cell_is. rewrite B1, B2, B3, B4, A1, A2, A3, A4. split; [by apply list_lookup_insert_eq|]. split; [|done].
    apply list_lookup_insert_eq. by eapply lookup_lt_Some. }
  assert (exists d3, (if (sh =? 0)%Z then Ok d2 else r ← pos_add i sh d2; Ok r.2) = Ok d3 /\ cells_wf d3 /\
     put_cell d2 i p ({[dst]} ∪ ∅) sh e1 d3) as (d3 & -> & W3 & Hput).
  { destruct (sh =? 0)%Z eqn:E; bprop.
    - subst sh. exists d2. split; [done|]. split; [done|]. destruct Hd2 as (D1 & D2 & D3 & D4). rewrite Z.sub_0_r in D1.
      unfold put_cell. by rewrite !list_insert_id.
    - destruct (pos_add_spec d2 i sh _ _ _ _ W2 Hd2) as (d3 & -> & W3 & _ & Hput); [lia| |done|].
      { replace (p - sh + sh)%Z with p by lia. unfold in_i32. rewrite (proj2 (Z.leb_le _ _)), (proj2 (Z.leb_le _ _)); [done|lia|unfold INT32_MIN; lia]. }
      replace (p - sh + sh)%Z with p in Hput by lia. rewrite (proj2 (Z.ltb_ge p 0)) in Hput by lia. simpl in Hput.
      exists d3. done. }
  cbn [mbind outcome_bind]. destruct Hput as (F1 & F2 & F3 & F4).
  assert (i < length (c_ext d3)) as Hext by (rewrite F4, length_insert, B4, A4; by eapply lookup_lt_Some).
  unfold ext_set. rewrite (proj2 (Nat.ltb_lt _ _) Hext). cbn [assert_ mbind outcome_bind].
  assert (exists g2, match g0 with Some g => x ← vec_get g i; vec_set g1 i x | None => Ok g1 end = Ok g2 /\ length g2 = length g1) as (g2 & -> & Hg2).
  { destruct g0 as [g|]; [|by eexists]. destruct (Hg g eq_refl) as [L1 L2].
    destruct (lookup_lt_is_Some_2 g i) as [x Hx]; [lia|]. destruct (lookup_lt_is_Some_2 g1 i) as [y Hy]; [lia|].
    rewrite (vec_get_Some _ _ _ Hx). simpl. rewrite (vec_set_Some _ _ _ _ Hy). eexists. split; [done|]. by rewrite length_insert. }
  cbn [mbind outcome_bind]. eexists _, g2. split; [done|].
  destruct (cell_stream n c1 i p {[dst]} sh e (set_ext (<[i := e]> (c_ext d3)) d3)) as (G1 & G2 & G3); try done.
  - by apply ext_insert_wf.
  - unfold cells_size. simpl. rewrite F1, length_insert, B1, A1, length_insert. apply (sm_size n c1 Hc1).
  - intros j Hj. unfold cell_at. simpl. by rewrite F1, F2, F3, F4, B1, B2, B3, B4, A1, A2, A3, A4, !list_lookup_insert_ne.
  - unfold cell_is. simpl. rewrite F1, F2, F3, B1, B2, B3, A1, A2, A3.
    rewrite (right_id_L ∅ (∪)). split_and!; [| | |by apply list_lookup_insert_eq]; apply list_lookup_insert_eq; rewrite ?length_insert; by eapply lookup_lt_Some.
  - split; [done|]. split; [done|]. split; [done|]. rewrite G3. rewrite (proj2 (Z.eqb_neq _ _)) by done. simpl. unfold sp_take. simpl. by rewrite decide_True.
Qed.

(** The loop over the source, from an empty stream. *)
Lemma copy_cells_loop n src dst c0 g0 c1 g1 :
  stream_wf n c0 -> stream_wf n c1 -> src < LLAMA_MAX_SEQ -> dst < LLAMA_MAX_SEQ ->
  (forall g, g0 = Some g -> length g = n /\ length g1 = n) ->
  (forall i p S sh e, cell_is c0 i p S sh e -> src ∈ S -> (0 <= p - sh <= INT32_MAX)%Z) ->
  exists c2 g2, foldM (copy_cell src dst c0 g0) (seq 0 (cells_size c0)) (cells_reset c1, g1) = Ok (c2, g2) /\
    stream_wf n c2 /\ length g2 = length g1 /\ abs_cells c2 = omap (sp_take src dst) (abs_cells c0).
Proof.
  intros Hc0 Hc1 Hs Hd Hg Hfit. rewrite (cells_reset_fresh c1) by apply Hc1. rewrite (sm_size n c1 Hc1), (sm_size n c0 Hc0).
  destruct (fresh_stream n) as [Hfr _].
  destruct (foldM_seq (copy_cell src dst c0 g0) (fun m (st : kv_cells * list Z) =>
      stream_wf n st.1 /\ length st.2 = length g1 /\ (forall j, m <= j -> cell_at st.1 j = cell_at (fresh_cells n) j) /\
      (forall j, j < m -> abs_cells st.1 !! j = abs_cells c0 !! j ≫= sp_take src dst)) 0 n (fresh_cells n, g1))
    as ([c2 g2] & E & Hc2 & Hl & _ & Ha).
  - split_and!; simpl; try done. intros; lia.
  - intros m [d g] Hm (Hd1 & Hl & Hrest & Hdone). cbn [fst snd] in *.
    destruct (copy_cell_body n src dst c0 g0 d g m) as (d2 & g2 & E & Hd2 & Hl2 & Ho & Ha); try done; [lia| | | |].
    + specialize (Hrest m ltac:(lia)). unfold cell_at in Hrest. injection Hrest as -> _ _ _. simpl.
      apply lookup_replicate. split; [done|lia].
    + intros g' Hg'. rewrite Hl. by apply Hg.
    + intros p S sh e. apply Hfit.
    + exists (d2, g2). split; [exact E|]. cbn [fst snd]. split; [done|]. split; [by rewrite Hl2|]. split.
      * intros j Hj. rewrite Ho by lia. apply Hrest. lia.
      * intros j Hj. destruct (decide (j = m)) as [->|Hne]; [done|]. rewrite (cell_at_abs _ _ _ (Ho j Hne)). apply Hdone. lia.
  - exists c2, g2. split; [exact E|]. split; [done|]. split; [done|]. apply map_eq. intros j. rewrite lookup_omap.
    destruct (decide (j < n)) as [Hj|Hj]; [apply Ha; lia|].
    rewrite !abs_None; [done| |]; [rewrite (sm_size n c0 Hc0)|rewrite (sm_size n c2 Hc2)]; lia.
Qed.

Lemma wp_copy_stream n k src dst a b c0 : kv_wf n k -> valid_id src k -> valid_id dst k ->
  seq_to_stream k !! Z.to_nat src = Some a -> seq_to_stream k !! Z.to_nat dst = Some b -> v_cells k !! a = Some c0 ->
  (forall i p S sh e, cell_is c0 i p S sh e -> Z.to_nat src ∈ S -> (0 <= p - sh <= INT32_MAX)%Z) ->
  wp (copy_stream src dst a b) (fun _ k' =>
    refined n k (<[b := omap (sp_take (Z.to_nat src) (Z.to_nat dst)) (abs_cells c0)]> (abs k)) k' /\
    (forall t, tail (k_tail k') = Some t <-> tail (k_tail k) = Some t)) k.
Proof.
  intros Hk Hsrc Hdst Es Ed Ha Hfit.
  destruct (stream_of_ok n k dst Hk Hdst) as (b' & c1 & _ & Ed' & _ & Hb & Hc1 & Hlt). rewrite Ed in Ed'. injection Ed' as <-.
  pose proof (kw_cells n k Hk a c0 Ha) as Hc0.
  pose proof (valid_id_max n k src Hk Hsrc) as Hs. pose proof (valid_id_max n k dst Hk Hdst) as Hd.
  assert (forall c2, stream_wf n c2 -> abs_cells c2 = omap (sp_take (Z.to_nat src) (Z.to_nat dst)) (abs_cells c0) ->
    kv_wf n (set_cells (<[b := c2]> (v_cells k)) k)) as Hset.
  { intros c2 Hc2 Hac. apply set_cells_wf; [done|done|]. intros i p S s Hi HsS. rewrite Hac, lookup_omap in Hi.
    destruct (abs_cells c0 !! i) as [x|]; [|done]. simpl in Hi. unfold sp_take in Hi. case_decide; [|done].
    injection Hi as _ <-. apply elem_of_singleton in HsS as ->. done. }
  unfold copy_stream. apply wp_bind, (wp_gets _ c0); [by apply vec_get_Some|]. apply wp_bind, (wp_gets _ c1); [by apply vec_get_Some|].
  apply wp_bind, wp_get. destruct (tail (k_tail k)) as [t|] eqn:Ht.
  - destruct (kw_gens n k Hk) as [Lg Fg]; [by rewrite Ht|].
    assert (a < n_stream (k_cfg k)) as Hlta by (rewrite <- (kw_streams n k Hk); by eapply lookup_lt_Some).
    destruct (lookup_lt_is_Some_2 (tail_generations (k_tail k)) a) as [g0 Hg0]; [lia|].
    destruct (lookup_lt_is_Some_2 (tail_generations (k_tail k)) b) as [g1 Hg1]; [lia|].
    pose proof (proj1 (Forall_lookup _ _) Fg _ _ Hg0) as L0. pose proof (proj1 (Forall_lookup _ _) Fg _ _ Hg1) as L1. simpl in L0, L1.
    apply wp_bind, (wp_lift _ g0); [by apply vec_get_Some|]. apply wp_bind, (wp_lift _ g1); [by apply vec_get_Some|].
    destruct (copy_cells_loop n (Z.to_nat src) (Z.to_nat dst) c0 (Some g0) c1 (map (fun _ => 0%Z) g1)) as (c2 & g2 & E & Hc2 & Hl & Hac); try done.
    { intros g [= <-]. by rewrite length_map. }
    apply wp_bind, (wp_lift _ (c2, g2)); [done|]. apply wp_put. cbn [fst snd]. split; [|by rewrite <- Ht].
    split; [|by rewrite <- Hac, insert_abs|done..]. apply set_tail_wf; [by apply Hset| |].
    + intros t1 Ht1. apply (kw_tail n k Hk). done.
    + intros _. simpl. rewrite length_insert. split; [done|]. apply Forall_insert; [done|]. by rewrite Hl, length_map.
  - destruct (copy_cells_loop n (Z.to_nat src) (Z.to_nat dst) c0 None c1 []) as (c2 & g2 & E & Hc2 & Hl & Hac); try done.
    apply wp_bind, (wp_lift _ (c2, g2)); [done|]. apply wp_put. cbn [fst snd]. split; [|by rewrite <- Ht].
    split; [by apply Hset|by rewrite <- Hac, insert_abs|done..].
Qed.

Lemma tail_pre_at n op k k1 : settle_step n k k1 -> tail_pre op k -> forall t, tail (k_tail k1) = Some t -> op_pre op t.
Proof. intros Hs Hpre t Et. rewrite (ss_tail _ _ _ Hs) in Et. apply fmap_Some in Et as (t0 & Et0 & ->). by apply Hpre. Qed.

Lemma wp_quiet_bind {B} n (m : stx kv_cache unit) (f : stx kv_cache B) k A Q :
  refined n k A k -> wp m (fun _ => quiet n k) k -> (forall k', refined n k A k' -> quiet n k k' -> wp f Q k') -> wp (m ;; f) Q k.
Proof. intros Hr Hm Hf. apply wp_bind. eapply wp_mono; [exact Hm|]. intros [] k' Hq. apply Hf; [by eapply refined_quiet|done]. Qed.

(** Queue and mark, when there is a tail. *)
Lemma wp_queue_and_mark n k src dst a b p0 p1 c : kv_wf n k -> settled k -> v_cells k !! b = Some c -> (0 <= dst < Z.of_nat LLAMA_MAX_SEQ)%Z ->
  (forall t, tail (k_tail k) = Some t -> op_pre (OpPrepare src dst (Z.of_nat a) (Z.of_nat b) p0 p1) t) ->
  wp (if_tail (queue_tail_copies src dst a b p0 p1;; mark_if_incomplete b dst)) (fun _ => quiet n k) k.
Proof.
  intros Hk Hs Hc Hd Hpre. unfold wp, if_tail. destruct (tail (k_tail k)) as [t|] eqn:Ht; [|by apply calm_quiet, calm_refl].
  rewrite <- Ht in Hpre. change (wp (queue_tail_copies src dst a b p0 p1;; mark_if_incomplete b dst) (fun _ => quiet n k) k).
  apply wp_bind. eapply wp_mono; [by apply wp_queue|]. intros [] k1 Hq. eapply wp_mono.
  - apply (wp_mark_if_incomplete n k1 b c dst); [apply Hq| |by rewrite (qt_cells _ _ _ Hq)|done].
    rewrite (qt_tail _ _ _ Hq). by rewrite Ht.
  - intros [] k2 Hc2. eapply quiet_trans; [done|by apply calm_quiet].
Qed.

Lemma wp_cp_same n k k1 src dst p0 p1 st : kv_wf n k -> settle_step n k k1 -> valid_id src k -> valid_id dst k ->
  tail_pre (OpPrepare src dst (Z.of_nat st) (Z.of_nat st) p0 p1) k ->
  seq_to_stream k !! Z.to_nat src = Some st -> seq_to_stream k !! Z.to_nat dst = Some st ->
  (src <> dst -> forall c j p S, v_cells k !! st = Some c -> view c !! j = Some (p, S) ->
     in_rng (clip_lo p0) (clip_hi p1) p = true -> Z.to_nat src ∈ S -> Z.to_nat dst ∉ S) ->
  wp (queue_tail_copies src dst st st p0 p1;;
      if (src =? dst)%Z then mret tt else
      sweep_stream (in_seq (Z.to_nat src) (clip_lo p0) (clip_hi p1)) (no_free (fun i => KvCells.seq_add i (Z.to_nat dst)))
        st (fun _ _ head => head);;
      if_tail (mark_if_incomplete st dst);;
      rebuild_allocation_head dst)
    (fun _ => refined n k (if (src =? dst)%Z then abs k
       else on_stream st (sp_share (Z.to_nat src) (Z.to_nat dst) (clip_lo p0) (clip_hi p1)) (abs k))) k1.
Proof.
  intros Hk Hs Hsrc Hdst Hpre Es Ed Hnot. destruct (settle_quiet n k k1 Hs) as (Ha1 & Hk1 & Hset).
  apply wp_bind. eapply wp_mono; [apply wp_queue; [done|done|by eapply tail_pre_at]|]. intros [] k2 Hq.
  assert (refined n k (abs k) k2) as Hr.
  { split; [apply Hq|by rewrite (quiet_abs _ _ _ Hq)|by rewrite (qt_cfg _ _ _ Hq), (ss_cfg _ _ _ Hs)|by rewrite (qt_map _ _ _ Hq), (ss_map _ _ _ Hs)]. }
  destruct (src =? dst)%Z eqn:E; [by apply wp_ret|]. bprop. destruct Hr as [Hk2 Ha2 Hg2 Hm2].
  assert (v_cells k2 = v_cells k) as Hc2 by (by rewrite (qt_cells _ _ _ Hq), (ss_cells _ _ _ Hs)).
  eapply wp_mono; [apply (wp_share_cells n k2 src dst st p0 p1); unfold valid_id; rewrite ?Hm2, ?Hc2; try done; by apply Hnot|].
  intros [] k3 [H1 H2 H3 H4]. split; congruence.
Qed.

Lemma push_copy_wf n k a b : kv_wf n k -> settled k -> kv_wf n (set_sc (mk_sc (ssrc (sc_info k) ++ [a]) (sdst (sc_info k) ++ [b])
  (tail_src_slots (sc_info k)) (tail_dst_slots (sc_info k)) (tail_transaction (sc_info k))) k).
Proof.
  intros [] Hs. split; simpl; try done.
  - rewrite !length_app. simpl. lia.
  - intros t Ht. destruct (kw_tail t Ht) as [T1 T2 T3]. by split.
Qed.

Lemma wp_cp_cross n k k1 src dst p0 p1 a b : kv_wf n k -> settle_step n k k1 -> valid_id src k -> valid_id dst k ->
  tail_pre (OpPrepare src dst (Z.of_nat a) (Z.of_nat b) p0 p1) k ->
  seq_to_stream k !! Z.to_nat src = Some a -> seq_to_stream k !! Z.to_nat dst = Some b ->
  cuts_buffer p0 n = Ok false -> cuts_buffer p1 n = Ok false ->
  (forall c j p S sh e, v_cells k !! a = Some c -> cell_is c j p S sh e -> Z.to_nat src ∈ S -> (0 <= p - sh <= INT32_MAX)%Z) ->
  wp (n ← gets get_size;
      b0 ← stx_lift (cuts_buffer p0 n);
      b1 ← stx_lift (cuts_buffer p1 n);
      stx_lift (assert_ (negb b0 && negb b1));;
      stx_modify (fun k => let i := sc_info k in
        set_sc (mk_sc (ssrc i ++ [a]) (sdst i ++ [b]) (tail_src_slots i) (tail_dst_slots i) (tail_transaction i)) k);;
      copy_stream src dst a b;;
      if_tail (queue_tail_copies src dst a b p0 p1;; mark_if_incomplete b dst);;
      head ← gets (fun k => vec_get (v_heads k) a);
      on_head b (fun _ => head);;
      rebuild_allocation_head dst)
    (fun _ => refined n k (<[b := omap (sp_take (Z.to_nat src) (Z.to_nat dst)) (abs k !!! a : amap)]> (abs k))) k1.
Proof.
  intros Hk Hs Hsrc Hdst Hpre Es Ed Hc0 Hc1 Hfit. destruct (settle_quiet n k k1 Hs) as (Ha1 & Hk1 & Hset).
  destruct (stream_of_ok n k src Hk Hsrc) as (a' & c0 & _ & Es' & _ & Hca & _). rewrite Es in Es'. injection Es' as <-.
  apply wp_bind, (wp_gets _ n); [by apply get_size_ok|]. apply wp_bind, (wp_lift _ false); [done|]. apply wp_bind, (wp_lift _ false); [done|].
  apply wp_bind, (wp_lift _ tt); [done|]. apply wp_bind, wp_modify.
  pose proof (push_copy_wf n k1 a b Hk1 Hset) as Hk2. set (k2 := set_sc _ k1) in *. cbv zeta. fold k2.
  assert (v_cells k2 = v_cells k /\ k_cfg k2 = k_cfg k /\ seq_to_stream k2 = seq_to_stream k /\ k_tail k2 = k_tail k1) as (E1 & E2 & E3 & E4).
  { split; [apply Hs|]. split; [apply Hs|]. split; [apply Hs|done]. }
  apply wp_bind. eapply wp_mono.
  { apply (wp_copy_stream n k2 src dst a b c0); unfold valid_id; rewrite ?E1, ?E3; try done. intros j p S sh e. by apply Hfit. }
  intros [] k3 [[Hk3 Ha3 Hg3 Hm3] Ht3].
  assert (abs k2 = abs k) as Ea by (unfold abs; by rewrite E1). rewrite Ea in Ha3.
  rewrite (list_lookup_total_correct _ _ _ (abs_stream k a c0 Hca)).
  assert (refined n k (<[b := omap (sp_take (Z.to_nat src) (Z.to_nat dst)) (abs_cells c0)]> (abs k)) k3) as Hr by (split; congruence).
  assert (valid_id dst k3) as Hd3 by (unfold valid_id; rewrite Hm3, E3; done).
  destruct (stream_of_ok n k3 dst Hk3 Hd3) as (b' & c3 & _ & Ed' & _ & Hcb & _ & Hlt). rewrite Hm3, E3, Ed in Ed'. injection Ed' as <-.
  apply wp_bind. eapply wp_mono.
  { apply (wp_queue_and_mark n k3 src dst a b p0 p1 c3); [done| |done| |].
    - intros t Et. apply Ht3 in Et. rewrite E4 in Et. by apply Hset.
    - pose proof (valid_id_max n k dst Hk Hdst). unfold valid_id in Hdst. lia.
    - intros t Et. apply Ht3 in Et. rewrite E4 in Et. by eapply tail_pre_at. }
  intros [] k4 Hq. pose proof (refined_quiet _ _ _ _ _ Hr Hq) as Hr4. pose proof (rf_wf _ _ _ _ Hr4) as Hk4.
  destruct (kw_heads n k4 Hk4) as [Hlh Hfh].
  assert (a < length (v_heads k4)) as Hla.
  { rewrite Hlh, (rf_cfg _ _ _ _ Hr4), <- (kw_streams n k Hk). by eapply lookup_lt_Some. }
  destruct (lookup_lt_is_Some_2 (v_heads k4) a Hla) as [h Hh]. pose proof (proj1 (Forall_lookup _ _) Hfh _ _ Hh) as Hle. simpl in Hle.
  apply wp_bind, (wp_gets _ h); [by apply vec_get_Some|].
  destruct (lookup_lt_is_Some_2 (v_heads k4) b) as [hb Hhb].
  { rewrite Hlh, (rf_cfg _ _ _ _ Hr4). by rewrite Hg3, E2 in Hlt. }
  assert (forall Q, Q tt (set_heads (<[b := h]> (v_heads k4)) k4) -> wp (on_head b (fun _ => h)) Q k4) as Hon.
  { intros Q HQ. unfold wp, on_head. by rewrite Hhb. }
  apply wp_bind, Hon. pose proof (set_heads_wf n k4 b h Hk4 Hle) as Hk5.
  eapply wp_mono; [by apply wp_rebuild_head|]. intros [] k6 Hc6. eapply refined_calm; [|done].
  destruct Hr4 as [R1 R2 R3 R4]. by split.
Qed.

Lemma wp_seq_cp n k src dst p0 p1 : kv_wf n k -> seq_pre n (SeqCp src dst p0 p1) k ->
  wp (seq_cp src dst p0 p1) (fun _ => refined n k (clip_seq_op (seq_to_stream k) (SeqCp src dst p0 p1) (abs k))) k.
Proof.
  intros Hk (Ho & Hsrc & Hdst & Hpre & Hcase). unfold seq_cp. apply wp_bind, wp_get. rewrite Ho.
  apply wp_bind. eapply wp_mono; [by apply wp_materialize|]. intros [] k1 Hs.
  assert (valid_id src k1 /\ valid_id dst k1) as [Hsrc1 Hdst1] by (unfold valid_id; by rewrite (ss_map _ _ _ Hs)).
  pose proof (ss_wf _ _ _ Hs) as Hk1.
  destruct (stream_of_ok n k1 src Hk1 Hsrc1) as (a & ca & Ea & Ma & _). destruct (stream_of_ok n k1 dst Hk1 Hdst1) as (b & cb & Eb & Mb & _).
  rewrite (ss_map _ _ _ Hs) in Ma, Mb. apply wp_bind, (wp_gets _ a); [done|]. apply wp_bind, (wp_gets _ b); [done|].
  simpl clip_seq_op. cbv zeta in Hcase. rewrite (home_ok _ _ _ Ma), (home_ok _ _ _ Mb) in *.
  destruct (a =? b) eqn:E; bprop.
  - subst b. rewrite decide_True in Hcase by done. by apply wp_cp_same.
  - rewrite decide_False in Hcase by done. destruct Hcase as (C0 & C1 & Hfit). by apply wp_cp_cross.
Qed.

(** ** The specification *)

(** The range of positions a call means: a negative end leaves that side open (the
    largest position of the type is never used). *)
Definition from_pos (p0 : Z) : Z := Z.max 0 p0.
Definition upto_pos (p1 : Z) : Z := if decide (0 <= p1)%Z then p1 else INT32_MAX.

Definition spec_seq_op (M : list nat) (o : seq_op) (A : list amap) : list amap :=
  match o with
  | SeqRm i p0 p1 =>
      if decide (i < 0)%Z then (fun m : amap => omap (sp_rm_any (from_pos p0) (upto_pos p1)) m) <$> A
      else on_stream (home M i) (sp_rm (Z.to_nat i) (from_pos p0) (upto_pos p1)) A
  | SeqCp src dst p0 p1 =>
      if decide (home M src = home M dst) then
        if decide (src = dst) then A
        else on_stream (home M src) (sp_share (Z.to_nat src) (Z.to_nat dst) (from_pos p0) (upto_pos p1)) A
      else <[home M dst := omap (sp_take (Z.to_nat src) (Z.to_nat dst)) (A !!! home M src : amap)]> A
  | SeqKeep i => on_stream (home M i) (sp_keep (Z.to_nat i)) A
  | SeqAdd i p0 p1 d => on_stream (home M i) (sp_add (Z.to_nat i) (from_pos p0) (upto_pos p1) d) A
  | SeqDiv i p0 p1 d => on_stream (home M i) (sp_div (Z.to_nat i) (from_pos p0) (upto_pos p1) d) A
  end.

Lemma clip_from p0 : clip_lo p0 = from_pos p0.
Proof. unfold clip_lo, from_pos. destruct (p0 <? 0)%Z eqn:E; bprop; lia. Qed.

Lemma clip_upto p1 : clip_hi p1 = upto_pos p1.
Proof. unfold clip_hi, upto_pos. destruct (p1 <? 0)%Z eqn:E; bprop; case_decide; lia. Qed.

Lemma spec_clip M o A : spec_seq_op M o A = clip_seq_op M o A.
Proof.
  destruct o; simpl; rewrite <- ?clip_from, <- ?clip_upto; try done.
  - destruct (seq_id <? 0)%Z eqn:E; bprop; [by rewrite decide_True|by rewrite decide_False by lia].
  - destruct (home M src =? home M dst) eqn:E; bprop; [rewrite decide_True by done|by rewrite decide_False].
    destruct (src =? dst)%Z eqn:E2; bprop; [by rewrite decide_True|by rewrite decide_False].
Qed.

(** ** All of them *)

(** C1: every sequence operation of the cache (removal, copy, keep, shift, division)
    from a well-formed cache, called as its callers do, returns; it leaves a
    well-formed cache whose abstract state is the specification's image of the former
    one; a removal that is refused changes nothing and only a compact tail refuses. *)
Theorem seq_ops_refine n k o : kv_wf n k -> seq_pre n o k ->
  exists b k', run_seq_op o k = (Ok b, k') /\ kv_wf n k' /\ k_cfg k' = k_cfg k /\ seq_to_stream k' = seq_to_stream k /\
    abs k' = (if b then spec_seq_op (seq_to_stream k) o (abs k) else abs k) /\
    (b = false -> k' = k /\ has_compact_tail (k_cfg k) = true /\ exists i p0 p1, o = SeqRm i p0 p1).
Proof.
  intros Hk Hpre. rewrite spec_clip.
  assert (wp (run_seq_op o) (fun b k' => refined n k (if b then clip_seq_op (seq_to_stream k) o (abs k) else abs k) k' /\
    (b = false -> k' = k /\ has_compact_tail (k_cfg k) = true /\ exists i p0 p1, o = SeqRm i p0 p1)) k) as Hwp.
  { assert (forall m : stx kv_cache unit, wp m (fun _ => refined n k (clip_seq_op (seq_to_stream k) o (abs k))) k ->
      wp (m;; mret true) (fun b k' => refined n k (if b then clip_seq_op (seq_to_stream k) o (abs k) else abs k) k' /\
       (b = false -> k' = k /\ has_compact_tail (k_cfg k) = true /\ exists i p0 p1, o = SeqRm i p0 p1)) k) as Hret.
    { intros m Hm. apply wp_bind. eapply wp_mono; [exact Hm|]. intros [] k' Hr. by apply wp_ret. }
    destruct o; cbn [run_seq_op].
    - eapply wp_mono; [by apply wp_seq_rm|]. intros b k' [Hr Hb]. split; [done|]. intros ->. destruct (Hb eq_refl). eauto 6.
    - by apply Hret, wp_seq_cp.
    - by apply Hret, wp_seq_keep.
    - by apply Hret, wp_seq_add.
    - by apply Hret, wp_seq_div. }
  apply wp_run in Hwp as (b & k' & E & [[H1 H2 H3 H4] H5]). exists b, k'. by split_and!.
Qed.

(** Decidable forms of the conditions on cells. *)
Lemma view_forall_cells c (P : Z -> gset nat -> Z -> Prop) :
  Forall (fun x : (Z * gset nat) * Z => P x.1.1 x.1.2 x.2) (zip (view c) (c_shift c)) ->
  forall j p S sh e, cell_is c j p S sh e -> P p S sh.
Proof.
  intros H j p S sh e Hc. pose proof (cell_is_view _ _ _ _ _ _ Hc) as Hv. destruct Hc as (_ & _ & Hsh & _).
  rewrite Forall_lookup in H. apply (H j ((p, S), sh)). by rewrite lookup_zip_with, Hv, Hsh.
Qed.

Lemma demo_cp_pre : seq_pre 4 (SeqCp 3 0 (-1) (-1)) (demo_cache 4 3).
Proof.
  split; [done|]. cbv zeta. split; [vm_compute; split; congruence|]. split; [vm_compute; split; congruence|]. split; [by intros t|].
  rewrite decide_False by (vm_compute; discriminate). split; [done|]. split; [done|].
  intros c j p S sh e Hc. assert (c = demo_cells) as -> by (vm_compute in Hc; injection Hc as <-; reflexivity).
  revert j p S sh e. apply (view_forall_cells demo_cells (fun p S sh => 3%nat ∈ S -> (0 <= p - sh <= INT32_MAX)%Z)).
  apply (bool_decide_unpack _). vm_compute. exact I.
Qed.

(** Copying sequence 3 to sequence 0, of another stream. *)
Lemma seq_ops_refine_witness : exists b k',
  run_seq_op (SeqCp 3 0 (-1) (-1)) (demo_cache 4 3) = (Ok b, k') /\ kv_wf 4 k' /\
  abs k' !! 0 = Some (<[1 := (7%Z, {[0]})]> (<[2 := (9%Z, {[0]})]> ∅)) /\ abs k' !! 3 = abs (demo_cache 4 3) !! 3.
Proof.
  assert (kv_wf 4 (demo_cache 4 3)) as Hk by (apply demo_cache_wf; by right).
  destruct (seq_ops_refine 4 (demo_cache 4 3) (SeqCp 3 0 (-1) (-1)) Hk demo_cp_pre) as (b & k' & E & Hk' & _ & _ & Ha & Hb).
  exists b, k'. split; [exact E|]. split; [exact Hk'|].
  destruct b; [|destruct (Hb eq_refl) as (_ & Hc & _); vm_compute in Hc; discriminate].
  rewrite Ha. split; apply (bool_decide_unpack _); vm_compute; exact I.
Defined.
