(* ===== verification/KvApply.v ===== *)
(** * Placing a ubatch in the cells

    What [apply_ubatch] does to a cache whose tail is absent or in preparation: every
    row of the slot becomes its token (position and sequences), and what was evicted
    takes the older positions of its sequence along. *)

From S2P Require Import KvCells TailStore Batch BatchInit.
From S2P Require Export KvSlots KvSeqProps.
Open Scope nat_scope.

(** ** Loops with a result *)

Lemma wp_foldX {T A B} (I : list A -> B -> T -> Prop) (f : B -> A -> stx T B) l b (Q : B -> T -> Prop) s :
  I l b s -> (forall a l' b s, I (a :: l') b s -> wp (f b a) (fun b' s' => I l' b' s') s) -> (forall b s, I [] b s -> Q b s) ->
  wp (foldX f l b) Q s.
Proof.
  intros HI Hf HQ. revert b s HI. induction l as [|a l IH]; intros b s HI; simpl; [by apply HQ|].
  apply wp_bind. eapply wp_mono; [by apply Hf|]. intros b' s' HI'. by apply IH.
Qed.

Lemma foldX_imap_unit {T A} (f : nat * A -> stx T unit) l (I : nat -> T -> Prop) s :
  I 0 s -> (forall j a s, l !! j = Some a -> I j s -> wp (f (j, a)) (fun _ => I (j + 1)) s) ->
  wp (foldX (fun _ x => f x) (imap pair l) tt) (fun _ => I (length l)) s.
Proof.
  intros H0 Hf. apply (wp_foldX (fun rest _ s => exists j, rest = drop j (imap pair l) /\ j <= length l /\ I j s)).
  - exists 0. rewrite drop_0. split; [done|]. split; [lia|done].
  - intros a rest [] s1 (j & Hd & Hj & HI). destruct (imap pair l !! j) as [[j' x]|] eqn:Ej.
    + rewrite (drop_S _ _ _ Ej) in Hd. injection Hd as -> ->.
      rewrite list_lookup_imap in Ej. destruct (l !! j) as [y|] eqn:Ey; [|done]. injection Ej as <- ->.
      eapply wp_mono; [by apply Hf|]. intros [] s2 H2. exists (Datatypes.S j). split; [done|].
      split; [by apply lookup_lt_Some in Ey; lia|]. by rewrite <- Nat.add_1_r.
    + apply lookup_ge_None in Ej. rewrite drop_ge in Hd by done. done.
  - intros [] s1 (j & Hd & Hj & HI). assert (j = length l) as ->; [|done].
    apply (f_equal length) in Hd. rewrite length_drop, length_imap in Hd. simpl in Hd. lia.
Qed.

(** ** A token *)

(** Token [i] at position [p], for the sequences [ids] of stream [st]. *)
Record tok_ok (u : llama_ubatch) (k : kv_cache) (i st : nat) (p : Z) (ids : list Z) : Prop := {
  tk_ids : u_ids u i = Ok ids;
  tk_some : ids <> [];
  tk_nodup : NoDup ids;
  tk_home : Forall (fun s => (0 <= s < Z.of_nat (n_seq_max (k_cfg k)))%Z /\ seq_to_stream k !! Z.to_nat s = Some st) ids;
  tk_pos : u_pos u !! i = Some p;
  tk_range : (0 <= p <= INT32_MAX)%Z;
  tk_2d : is_pos_2d u = true -> exists x y, u_pos u !! (i + u_n_tokens u * 2) = Some x /\ u_pos u !! (i + u_n_tokens u) = Some y
}.

(** The largest position every sequence loses. *)
Definition note_loss (x : option (Z * gset nat)) (max_rm : list Z) : list Z :=
  match x with
  | None => max_rm
  | Some (p, T) => imap (fun s m => if decide (s ∈ T) then Z.max m p else m) max_rm
  end.

Lemma seq_get_singleton c i s : c_seq c !! i = Some {[s]} -> s < LLAMA_MAX_SEQ -> seq_get i c = Ok (Z.of_nat s).
Proof.
  intros HS Hs. unfold seq_get. rewrite (vec_get_Some _ _ _ HS). cbn [mbind outcome_bind].
  rewrite size_singleton. simpl. destruct (List.find _ seq_ids) as [t|] eqn:E.
  - apply List.find_some in E as [_ E]. apply bool_decide_eq_true in E. apply elem_of_singleton in E as ->. done.
  - exfalso. assert (In s seq_ids) as Hin by (by apply list_elem_of_In, elem_of_seq_ids).
    pose proof (List.find_none _ _ E s Hin) as H. simpl in H. apply bool_decide_eq_false in H. set_solver.
Qed.

Lemma is_empty_at c i p S sh e : cells_wf c -> cell_is c i p S sh e -> is_empty i c = Ok (p =? -1)%Z.
Proof.
  intros Hw (Hp & _). unfold is_empty. rewrite Hp. cbn [mbind outcome_bind]. pose proof (wf_pos c Hw i p Hp).
  rewrite assert_true; [done|]. destruct (p =? -1)%Z eqn:E; bprop; [subst p; done|]. rewrite (proj2 (Z.leb_le 0 p)) by lia. by rewrite orb_true_r.
Qed.

(** A chosen cell is empty or has one owner. *)
Definition usable (c : kv_cells) (idx : nat) : Prop := forall p S, abs_cells c !! idx = Some (p, S) -> size S = 1.

(** A changed cell [idx]; an empty one keeps its shift. *)
Definition same_but (idx : nat) (c c' : kv_cells) : Prop :=
  cells_size c' = cells_size c /\ (forall j, j <> idx -> cell_at c' j = cell_at c j) /\
  (abs_cells c !! idx = None -> c_shift c' = c_shift c /\ c_has_shift c' = c_has_shift c).

Lemma evict_ok n st idx max_rm k c : kv_wf n k -> v_cells k !! st = Some c -> idx < n -> usable c idx -> length max_rm = LLAMA_MAX_SEQ ->
  exists c', evict st idx max_rm k = (Ok (note_loss (abs_cells c !! idx) max_rm), set_cells (<[st := c']> (v_cells k)) k) /\
    cells_wf c' /\ same_but idx c c' /\ exists e, cell_is c' idx (-1) ∅ 0 e.
Proof.
  intros Hk Hst Hidx Hus Hlen. pose proof (kw_cells n k Hk st c Hst) as Hc. pose proof (sm_wf n c Hc) as Hw.
  destruct (stream_cell n c idx Hc Hidx) as (p & S & sh & e & Hcell). unfold evict, on_cells. rewrite Hst.
  rewrite (is_empty_at _ _ _ _ _ _ Hw Hcell). cbn [mbind outcome_bind].
  pose proof (abs_cell _ _ _ _ _ _ Hcell) as Ha. pose proof Hcell as (Hp & HS & Hsh & He). destruct (p =? -1)%Z eqn:E.
  - bprop. subst p. rewrite Ha. exists c. split; [done|]. split; [done|]. split; [done|]. destruct (wf_free c Hw idx Hp) as [HS' Hsh'].
    rewrite HS in HS'. rewrite Hsh in Hsh'. injection HS' as ->. injection Hsh' as ->. by exists e.
  - bprop. specialize (Hus p S Ha). rewrite Ha. pose proof Hus as Hs1. apply size_1_elem_of in Hs1 as [s Hs]. fold_leibniz. subst S.
    assert (s < LLAMA_MAX_SEQ) as Hlt by (eapply (wf_ids c Hw); [done|set_solver]).
    unfold seq_count. rewrite (used_cell_Some _ _ _ Hp E), (vec_get_Some _ _ _ HS). cbn [mbind outcome_bind].
    rewrite Hus. cbn [assert_ Nat.eqb mbind outcome_bind]. rewrite (seq_get_singleton c idx s HS Hlt). cbn [mbind outcome_bind].
    unfold pos_get. rewrite (used_cell_Some _ _ _ Hp E). cbn [mbind outcome_bind].
    destruct (lookup_lt_is_Some_2 max_rm s) as [m Hm]; [lia|].
    unfold arr_get, arr_set. rewrite (proj2 (Z.ltb_ge _ _)) by lia. rewrite Nat2Z.id, (vec_get_Some _ _ _ Hm). cbn [mbind outcome_bind].
    rewrite (vec_set_Some _ _ _ _ Hm). cbn [mbind outcome_bind].
    destruct (rm_spec c idx p Hw Hp E) as (c' & -> & Hw' & (E1 & E2 & E3 & E4)). cbn [mbind outcome_bind].
    exists c'. split; [|split; [done|split]].
    + f_equal. f_equal. simpl. apply list_eq. intros j. rewrite list_lookup_imap, list_lookup_insert.
      destruct (decide (s = j)) as [<-|Hne].
      * rewrite Hm. simpl. rewrite !decide_True; [done|set_solver|by split; [|eapply lookup_lt_Some]].
      * rewrite decide_False by (by intros [??]). destruct (max_rm !! j); [|done]. simpl. rewrite decide_False; [done|set_solver].
    + split; [unfold cells_size; by rewrite E1, length_insert|]. split.
      * intros j Hj. unfold cell_at. by rewrite E1, E2, E3, E4, !list_lookup_insert_ne.
      * intros H. congruence.
    + exists ext_reset. unfold cell_is. rewrite E1, E2, E3, E4. split_and!; apply list_lookup_insert_eq; by eapply lookup_lt_Some.
Qed.

(** ** Writing a cell and its owners *)

(** [c'] is [c] with position [p] and owners [S] in the cell. *)
Record wrote (idx : nat) (c c' : kv_cells) (p : Z) (S : gset nat) : Prop := {
  wr_wf : cells_wf c';
  wr_size : cells_size c' = cells_size c;
  wr_others : forall j, j <> idx -> cell_at c' j = cell_at c j;
  wr_shift : c_shift c' = c_shift c;
  wr_has : c_has_shift c' = c_has_shift c;
  wr_cell : exists e, cell_is c' idx p S 0 e
}.

Lemma write_cell_ok u k i st idx c p e : v_cells k !! st = Some c -> cells_wf c -> cell_is c idx (-1) ∅ 0 e ->
  u_pos u !! i = Some p -> (0 <= p)%Z ->
  (is_pos_2d u = true -> exists x y, u_pos u !! (i + u_n_tokens u * 2) = Some x /\ u_pos u !! (i + u_n_tokens u) = Some y) ->
  exists c', write_cell u i st idx k = (Ok tt, set_cells (<[st := c']> (v_cells k)) k) /\ wrote idx c c' p ∅.
Proof.
  intros Hst Hw (Hp & HS & Hsh & He) Hpos Hge H2d. unfold write_cell, on_cells. rewrite Hst, (vec_get_Some _ _ _ Hpos). cbn [mbind outcome_bind].
  destruct (pos_set_spec c idx p Hw Hp Hge) as (c1 & -> & W1 & A1 & A2 & A3 & A4 & A5). cbn [mbind outcome_bind].
  assert (idx < length (c_pos c) /\ idx < length (c_ext c)) as [Hl1 Hl2] by (split; by eapply lookup_lt_Some).
  assert (wrote idx c c1 p ∅) as Hw1.
  { split; [done|unfold cells_size; by rewrite A1, length_insert| |done|done|].
    - intros j Hj. unfold cell_at. by rewrite A1, A2, A3, A4, list_lookup_insert_ne.
    - exists e. unfold cell_is. rewrite A1, A2, A3, A4. split; [by apply list_lookup_insert_eq|done]. }
  destruct (is_pos_2d u); [|by exists c1].
  destruct (H2d eq_refl) as (x & y & Hx & Hy). rewrite (vec_get_Some _ _ _ Hx), (vec_get_Some _ _ _ Hy). cbn [mbind outcome_bind].
  unfold ext_set. rewrite A4, (proj2 (Nat.ltb_lt _ _) Hl2). cbn [assert_ mbind outcome_bind].
  eexists. split; [done|]. destruct Hw1 as [B1 B2 B3 B4 B5 (e1 & C1 & C2 & C3 & C4)].
  split; simpl; try done.
  - rewrite <- A4. by apply ext_insert_wf.
  - intros j Hj. rewrite <- (B3 j Hj). unfold cell_at. simpl. by rewrite A4, list_lookup_insert_ne.
  - eexists. unfold cell_is. simpl. split; [done|]. split; [done|]. split; [done|]. by apply list_lookup_insert_eq.
Qed.

(** The state after owners were added. *)
Definition written (n : nat) (k : kv_cache) (st idx : nat) (c : kv_cells) (p : Z) (S : gset nat) (k' : kv_cache) : Prop :=
  exists c' heads, k' = set_alloc (set_al_heads heads (k_alloc k)) (set_cells (<[st := c']> (v_cells k)) k) /\
    wrote idx c c' p S /\ length heads = length (allocation_seq_heads (k_alloc k)) /\ Forall (fun h => h <= n) heads.

Lemma add_owner_ok n u k i st idx c p S k1 j s : st < length (v_cells k) -> written n k st idx c p S k1 -> p <> (-1)%Z -> idx < n -> live_tail k = false ->
  (0 <= s < Z.of_nat (length (allocation_seq_heads (k_alloc k))))%Z -> Z.to_nat s < LLAMA_MAX_SEQ -> Z.to_nat s ∉ S ->
  wp (add_owner u i st idx (j, s)) (fun _ => written n k st idx c p ({[Z.to_nat s]} ∪ S)) k1.
Proof.
  intros Hst (c1 & heads & -> & [W1 W2 W3 W4 W5 (e & C1 & C2 & C3 & C4)] & Hl & Hf) Hp Hidx Hlive Hs Hmax Hni.
  unfold add_owner. apply wp_bind, (wp_lift _ tt); [by rewrite (proj2 (Z.leb_le 0 s)) by lia|].
  destruct (seq_add_spec c1 idx p S (Z.to_nat s) W1 C1 Hp C2 Hni Hmax) as (c2 & E & V1 & A1 & A2 & A3 & A4 & A5 & _).
  assert (wrote idx c c2 p ({[Z.to_nat s]} ∪ S)) as Hw2.
  { split; [done|unfold cells_size; by rewrite A1| |congruence..|].
    - intros j' Hj. rewrite <- (W3 j' Hj). unfold cell_at. by rewrite A1, A2, A3, A4, list_lookup_insert_ne.
    - exists e. unfold cell_is. rewrite A1, A2, A3, A4. split; [done|]. split; [|done]. apply list_lookup_insert_eq. by eapply lookup_lt_Some. }
  apply wp_bind. unfold wp at 1. unfold on_cells. cbn [v_cells set_cells set_alloc].
  rewrite list_lookup_insert_eq by done. rewrite E. cbn [mbind outcome_bind].
  apply wp_bind, wp_get. apply wp_bind.
  set (k2 := set_cells _ _).
  assert (k2 = set_alloc (set_al_heads heads (k_alloc k)) (set_cells (<[st := c2]> (v_cells k)) k)) as ->.
  { subst k2. unfold set_cells, set_alloc. simpl. by rewrite list_insert_insert_eq. }
  assert (forall heads' Q, length heads' = length heads -> Forall (fun h => h <= n) heads' ->
    (forall k', written n k st idx c p ({[Z.to_nat s]} ∪ S) k' -> Q tt k') ->
    Q tt (set_alloc (set_al_heads heads' (k_alloc k)) (set_cells (<[st := c2]> (v_cells k)) k))) as Hdone.
  { intros heads' Q H1 H2 HQ. apply HQ. exists c2, heads'. split; [done|]. split; [done|]. split; [congruence|done]. }
  assert (forall k', written n k st idx c p ({[Z.to_nat s]} ∪ S) k' -> wp (if_live (commit_row u i st idx j s)) (fun _ => written n k st idx c p ({[Z.to_nat s]} ∪ S)) k') as Hif.
  { intros k' Hw'. unfold wp, if_live. assert (live_tail k' = live_tail k) as -> by (by destruct Hw' as (? & ? & -> & _)). by rewrite Hlive. }
  destruct (_ && _).
  - apply wp_bind. cbn [k_alloc set_alloc set_al_heads allocation_seq_heads].
    destruct (lookup_lt_is_Some_2 heads (Z.to_nat s)) as [h Hh]; [lia|].
    apply (wp_lift _ (<[Z.to_nat s := idx + 1]> heads)).
    { unfold arr_set. rewrite (proj2 (Z.ltb_ge s 0)) by lia. by eapply vec_set_Some. }
    apply wp_modify. apply (Hdone (<[Z.to_nat s := idx + 1]> heads) (fun _ k' => wp _ _ k')); [by rewrite length_insert|apply Forall_insert; [done|lia]|done].
  - apply wp_ret. by apply (Hdone heads (fun _ k' => wp _ _ k')).
Qed.

(** ** Placing a token *)

(** The content of a token's cell. *)
Definition row_ids (u : llama_ubatch) (i : nat) : gset nat := match u_ids u i with Ok ids => ids_set ids | Err _ => ∅ end.
Definition token_content (u : llama_ubatch) (i : nat) : Z * gset nat := (default 0%Z (u_pos u !! i), row_ids u i).

(** Only cells and allocation heads differ. *)
Definition framed (k k' : kv_cache) : Prop :=
  exists cells heads, k' = set_alloc (set_al_heads heads (k_alloc k)) (set_cells cells k).

Lemma framed_refl k : framed k k.
Proof. exists (v_cells k), (allocation_seq_heads (k_alloc k)). by destruct k as [? ? ? ? [] ? ? ? ?]. Qed.

Lemma framed_trans k1 k2 k3 : framed k1 k2 -> framed k2 k3 -> framed k1 k3.
Proof. intros (c1 & h1 & ->) (c2 & h2 & ->). by exists c2, h2. Qed.

Record placed (n : nat) (k : kv_cache) (st idx : nat) (c : kv_cells) (x : Z * gset nat) (k' : kv_cache) : Prop := {
  pl_wf : kv_wf n k';
  pl_frame : framed k k';
  pl_cells : exists c', v_cells k' = <[st := c']> (v_cells k) /\ same_but idx c c' /\ abs_cells c' = <[idx := x]> (abs_cells c)
}.

Lemma wp_add_owners n u k i st idx c p ids : st < length (v_cells k) -> p <> (-1)%Z -> idx < n -> live_tail k = false ->
  Forall (fun s => (0 <= s < Z.of_nat (length (allocation_seq_heads (k_alloc k))))%Z /\ Z.to_nat s < LLAMA_MAX_SEQ) ids -> NoDup ids ->
  forall k1, written n k st idx c p ∅ k1 ->
  wp (foldX (fun _ x => add_owner u i st idx x) (imap pair ids) tt) (fun _ => written n k st idx c p (ids_set ids)) k1.
Proof.
  intros Hst Hp Hidx Hlive Hids Hnd k1 H1.
  assert (ids_set ids = ids_set (take (length ids) ids)) as -> by (by rewrite firstn_all).
  apply (foldX_imap_unit _ ids (fun j => written n k st idx c p (ids_set (take j ids)))); [done|].
  intros j s k2 Hj Hw. pose proof (proj1 (Forall_lookup _ _) Hids _ _ Hj) as [Hs Hmax].
  assert (ids_set (take (j + 1) ids) = {[Z.to_nat s]} ∪ ids_set (take j ids)) as ->.
  { unfold ids_set. rewrite Nat.add_1_r, (take_S_r _ _ _ Hj), fmap_app, list_to_set_app_L. set_solver. }
  apply add_owner_ok; try done. unfold ids_set. rewrite elem_of_list_to_set, list_elem_of_fmap.
  intros (t & Et & Ht). apply list_elem_of_lookup in Ht as [m Hm]. apply lookup_take_Some in Hm as [Hm Hlt].
  pose proof (proj1 (Forall_lookup _ _) Hids _ _ Hm) as [Ht _]. simpl in Hs, Ht. assert (t = s) as -> by lia.
  pose proof (NoDup_lookup _ _ _ _ Hnd Hm Hj). lia.
Qed.

Lemma written_placed n k st idx c p S k' : kv_wf n k -> v_cells k !! st = Some c -> idx < n -> (0 <= p <= INT32_MAX)%Z -> S <> ∅ ->
  (forall s, s ∈ S -> seq_to_stream k !! s = Some st) ->
  forall c0, same_but idx c c0 -> written n (set_cells (<[st := c0]> (v_cells k)) k) st idx c0 p S k' -> placed n k st idx c (p, S) k'.
Proof.
  intros Hk Hst Hidx Hp HS Hhome c0 (S1 & S2 & S3) (c' & heads & -> & [W1 W2 W3 W4 W5 (e & Hcell)] & Hl & Hf).
  simpl. rewrite list_insert_insert_eq. pose proof (kw_cells n k Hk st c Hst) as Hc.
  destruct (cell_stream n c idx p S 0 e c' Hc W1) as (H1 & H2 & H3); try done; [by rewrite W2, S1, (sm_size n c Hc)| |lia|].
  { intros j Hj. by rewrite W3, S2. }
  rewrite (proj2 (Z.eqb_neq _ _)) in H3 by lia.
  assert (abs_cells c' = <[idx := (p, S)]> (abs_cells c)) as Ha.
  { apply map_eq. intros j. destruct (decide (j = idx)) as [->|Hj]; [by rewrite lookup_insert_eq|].
    rewrite lookup_insert_ne by done. apply cell_at_abs. by apply H2. }
  split.
  - destruct (set_cells_wf n k st c' Hk H1) as [].
    { intros i q T s Hi Hs. rewrite Ha in Hi. destruct (decide (i = idx)) as [->|Hne].
      - rewrite lookup_insert_eq in Hi. injection Hi as <- <-. by apply Hhome.
      - rewrite lookup_insert_ne in Hi by done. eapply (kw_home n k Hk st (abs_cells c)); [by apply abs_stream|done|done]. }
    split; simpl in *; try done. rewrite Hl. destruct kw_alloc. done.
  - by exists (<[st := c']> (v_cells k)), heads.
  - exists c'. split; [done|]. split; [|done]. split; [by rewrite W2|]. split; [done|].
    intros H. rewrite W4, W5. by apply S3.
Qed.

Lemma tok_content_eq u k i st p ids : tok_ok u k i st p ids -> token_content u i = (p, ids_set ids).
Proof. intros []. unfold token_content, row_ids. by rewrite tk_ids0, tk_pos0. Qed.

Lemma wp_place_token n u i st max_rm idx k c p ids : kv_wf n k -> live_tail k = false -> v_cells k !! st = Some c -> idx < n -> usable c idx ->
  length max_rm = LLAMA_MAX_SEQ -> tok_ok u k i st p ids ->
  wp (place_token u i st max_rm idx) (fun m k' => m = note_loss (abs_cells c !! idx) max_rm /\ placed n k st idx c (token_content u i) k') k.
Proof.
  intros Hk Hlive Hst Hidx Hus Hlen Htok. rewrite (tok_content_eq _ _ _ _ _ _ Htok). destruct Htok as [T1 T2 T3 T4 T5 T6 T7].
  unfold place_token. apply wp_bind. unfold wp at 1. unfold if_live. rewrite Hlive.
  destruct (evict_ok n st idx max_rm k c Hk Hst Hidx Hus Hlen) as (c1 & E & W1 & Hsame & e & Hcell1).
  apply wp_bind. unfold wp at 1. rewrite E.
  set (k1 := set_cells (<[st := c1]> (v_cells k)) k).
  assert (st < length (v_cells k)) as Hlt by (by eapply lookup_lt_Some).
  assert (v_cells k1 !! st = Some c1) as Hst1 by (by apply list_lookup_insert_eq).
  destruct (write_cell_ok u k1 i st idx c1 p e Hst1 W1 Hcell1 T5) as (c2 & E2 & Hw2); [lia|done|].
  apply wp_bind. unfold wp at 1. rewrite E2. apply wp_bind, (wp_lift _ ids); [done|]. apply wp_bind.
  eapply wp_mono.
  - apply (wp_add_owners n u k1 i st idx c1 p ids).
    + simpl. by rewrite length_insert.
    + lia.
    + done.
    + done.
    + simpl. destruct (kw_alloc n k Hk) as [-> _]. eapply Forall_impl; [exact T4|]. intros s [Hs Hh]. split; [done|].
      pose proof (kw_seqs n k Hk). apply lookup_lt_Some in Hh. lia.
    + done.
    + exists c2, (allocation_seq_heads (k_alloc k)). split; [by destruct k as [? ? ? ? [] ? ? ? ?]|]. split; [done|]. split; [done|]. apply (kw_alloc n k Hk).
  - intros [] k2 H2. apply wp_ret. split; [done|]. eapply (written_placed n k st idx c p (ids_set ids)); try done.
    + destruct ids as [|s ids]; [done|]. unfold ids_set. simpl. set_solver.
    + intros s Hs. unfold ids_set in Hs. rewrite elem_of_list_to_set, list_elem_of_fmap in Hs. destruct Hs as (t & -> & Ht).
      rewrite Forall_forall in T4. by apply T4.
Qed.

(** ** The rows of a slot *)

(** Token, stream and cell of every row, in the order of the loops. *)
Fixpoint rows_from (size s : nat) (l : list (nat * list nat)) : list (nat * nat * nat) :=
  match l with
  | [] => []
  | (st, cells) :: l' => imap (fun ii idx => (s * size + ii, st, idx)) cells ++ rows_from size (s + 1) l'
  end.

Definition slot_rows (size : nat) (sinfo : slot_info) : list (nat * nat * nat) := rows_from size 0 (zip (strm sinfo) (idxs sinfo)).

Definition place_row (u : llama_ubatch) (max_rm : list Z) (r : nat * nat * nat) : stx kv_cache (list Z) :=
  place_token u r.1.1 r.1.2 max_rm r.2.

Lemma foldX_app {T A B} (f : B -> A -> stx T B) l1 l2 b s : foldX f (l1 ++ l2) b s = (b' ← foldX f l1 b; foldX f l2 b') s.
Proof.
  revert b s. induction l1 as [|a l1 IH]; intros b s; simpl; [done|]. unfold mbind, stx_bind in *.
  destruct (f b a s) as [[b1|e] s1]; [|done]. apply IH.
Qed.

Lemma foldX_ext {T A B} (f g : B -> A -> stx T B) l b s : (forall a b s, a ∈ l -> f b a s = g b a s) -> foldX f l b s = foldX g l b s.
Proof.
  revert b s. induction l as [|a l IH]; intros b s H; simpl; [done|]. unfold mbind, stx_bind. rewrite H by (by left).
  destruct (g b a s) as [[b1|e] s1]; [|done]. apply IH. intros. apply H. by right.
Qed.

Lemma foldX_map {T A A' B} (f : B -> A' -> stx T B) (h : A -> A') l b s : foldX f (h <$> l) b s = foldX (fun b a => f b (h a)) l b s.
Proof.
  revert b s. induction l as [|a l IH]; intros b s; simpl; [done|]. unfold mbind, stx_bind.
  destruct (f b (h a) s) as [[b1|e] s1]; [|done]. apply IH.
Qed.

Lemma place_stream_rows u sinfo size s st cells m k : strm sinfo !! s = Some st -> idxs sinfo !! s = Some cells -> length cells = size ->
  place_stream u sinfo size m s k = foldX (place_row u) (imap (fun ii idx => (s * size + ii, st, idx)) cells) m k.
Proof.
  intros Hst Hc <-. unfold place_stream. rewrite (vec_get_Some _ _ _ Hst), (vec_get_Some _ _ _ Hc).
  unfold stx_lift, mbind, stx_bind at 1. cbv beta iota. unfold stx_bind at 1.
  assert (imap (fun ii idx => (s * length cells + ii, st, idx)) cells =
    (fun ii => (s * length cells + ii, st, default 0 (cells !! ii))) <$> seq 0 (length cells)) as ->.
  { apply list_eq. intros j. rewrite list_lookup_imap, list_lookup_fmap. destruct (cells !! j) as [idx|] eqn:Ej.
    - rewrite lookup_seq_lt by (by eapply lookup_lt_Some). simpl. by rewrite Ej.
    - rewrite lookup_seq_ge; [done|]. by apply lookup_ge_None in Ej. }
  rewrite foldX_map. apply foldX_ext. intros ii b s' Hii. apply elem_of_seq in Hii.
  destruct (lookup_lt_is_Some_2 cells ii) as [idx Hidx]; [lia|]. rewrite (vec_get_Some _ _ _ Hidx), Hidx. done.
Qed.

Lemma place_streams_rows u sinfo size m k : length (idxs sinfo) = length (strm sinfo) -> Forall (fun l => length l = size) (idxs sinfo) ->
  foldX (place_stream u sinfo size) (seq 0 (slot_n_stream sinfo)) m k = foldX (place_row u) (slot_rows size sinfo) m k.
Proof.
  intros Hl Hf. unfold slot_rows, slot_n_stream.
  assert (forall a l m k, l = drop a (zip (strm sinfo) (idxs sinfo)) -> a <= length (strm sinfo) ->
    foldX (place_stream u sinfo size) (seq a (length (strm sinfo) - a)) m k = foldX (place_row u) (rows_from size a l) m k) as H.
  { intros a l. revert a. induction l as [|[st cells] l IH]; intros a m' k' Hd Ha.
    - assert (length (strm sinfo) - a = 0) as ->; [|done].
      apply (f_equal length) in Hd. rewrite length_drop, length_zip_with, Hl, Nat.min_id in Hd. simpl in Hd. lia.
    - assert (zip (strm sinfo) (idxs sinfo) !! a = Some (st, cells)) as Hz.
      { rewrite <- (Nat.add_0_r a), <- lookup_drop, <- Hd. done. }
      pose proof Hz as Hz'. apply lookup_lt_Some in Hz'. rewrite length_zip_with, Hl, Nat.min_id in Hz'.
      pose proof Hz as Hz2. apply lookup_zip_with_Some in Hz2 as (st' & cells' & [= <- <-] & Hst & Hc).
      replace (length (strm sinfo) - a) with (Datatypes.S (length (strm sinfo) - (a + 1))) by lia. simpl.
      rewrite foldX_app. unfold mbind, stx_bind. rewrite (place_stream_rows u sinfo size a st cells m' k' Hst Hc).
      2:{ rewrite Forall_lookup in Hf. by eapply Hf. }
      destruct (foldX (place_row u) _ m' k') as [[m1|e] k1]; [|done]. rewrite <- (Nat.add_1_r a). apply IH; [|lia].
      rewrite (drop_S _ _ _ Hz) in Hd. injection Hd as Hd. by rewrite Nat.add_1_r. }
  specialize (H 0 _ m k eq_refl). rewrite Nat.sub_0_r in H. rewrite drop_0 in H. apply H. lia.
Qed.

(** ** All rows *)

Definition target (r : nat * nat * nat) : nat * nat := (r.1.2, r.2).

Record row_ok (n : nat) (u : llama_ubatch) (k : kv_cache) (r : nat * nat * nat) : Prop := {
  ro_cell : r.2 < n;
  ro_usable : forall c, v_cells k !! r.1.2 = Some c -> usable c r.2;
  ro_stream : r.1.2 < n_stream (k_cfg k);
  ro_token : exists p ids, tok_ok u k r.1.1 r.1.2 p ids
}.

(** The rows take their cells; what every sequence loses. *)
Definition spec_place (u : llama_ubatch) (rows : list (nat * nat * nat)) (A : list amap) : list amap :=
  foldl (fun A r => alter (fun m : amap => <[r.2 := token_content u r.1.1]> m) r.1.2 A) A rows.

Definition content_at (A : list amap) (x : nat * nat) : option (Z * gset nat) := A !! x.1 ≫= fun m : amap => m !! x.2.

Definition spec_losses (A : list amap) (rows : list (nat * nat * nat)) : list Z :=
  foldl (fun m r => note_loss (content_at A (target r)) m) (replicate LLAMA_MAX_SEQ (-1)%Z) rows.

(** Cells outside of the rows, the shifts when only empty cells are taken, and streams
    without rows. *)
Definition streams_same (rows : list (nat * nat * nat)) (k k' : kv_cache) : Prop :=
  forall st c, v_cells k !! st = Some c -> exists c', v_cells k' !! st = Some c' /\
    (forall j, (st, j) ∉ target <$> rows -> cell_at c' j = cell_at c j) /\
    ((forall j, (st, j) ∈ target <$> rows -> abs_cells c !! j = None) -> c_shift c' = c_shift c /\ c_has_shift c' = c_has_shift c) /\
    ((forall j, (st, j) ∉ target <$> rows) -> c' = c).

Record rows_placed (n : nat) (u : llama_ubatch) (k : kv_cache) (rows : list (nat * nat * nat)) (m : list Z) (k' : kv_cache) : Prop := {
  rp_wf : kv_wf n k';
  rp_frame : framed k k';
  rp_abs : abs k' = spec_place u rows (abs k);
  rp_loss : m = spec_losses (abs k) rows;
  rp_same : streams_same rows k k'
}.

Lemma note_loss_length x m : length (note_loss x m) = length m.
Proof. destruct x as [[p S]|]; simpl; [apply length_imap|done]. Qed.

Lemma spec_losses_length A rows : length (spec_losses A rows) = LLAMA_MAX_SEQ.
Proof.
  unfold spec_losses. assert (forall m, length m = LLAMA_MAX_SEQ ->
    length (foldl (fun m r => note_loss (content_at A (target r)) m) m rows) = LLAMA_MAX_SEQ) as H.
  { induction rows as [|r rows IH]; intros m Hm; simpl; [done|]. apply IH. by rewrite note_loss_length. }
  apply H, length_replicate.
Qed.

Lemma tok_ok_framed u k k' i st p ids : framed k k' -> tok_ok u k i st p ids -> tok_ok u k' i st p ids.
Proof. intros (cells & heads & ->) []. by split. Qed.

Lemma live_framed k k' : framed k k' -> live_tail k' = live_tail k.
Proof. by intros (cells & heads & ->). Qed.

Lemma streams_same_step n done r k k1 k2 c1 x : streams_same done k k1 -> v_cells k1 !! r.1.2 = Some c1 -> target r ∉ target <$> done ->
  placed n k1 r.1.2 r.2 c1 x k2 -> streams_same (done ++ [r]) k k2.
Proof.
  intros Hs Hc1 Hni [_ _ (c2 & E & (Z1 & Z2 & Z3) & _)] st c Hst. destruct (Hs st c Hst) as (c' & Hc' & O1 & O2 & O3).
  assert (forall j, (st, j) ∈ target <$> (done ++ [r]) <-> (st, j) ∈ target <$> done \/ (st, j) = target r) as Hin.
  { intros j. rewrite fmap_app. simpl. set_solver. }
  rewrite E. destruct (decide (r.1.2 = st)) as [Est|Hne].
  - subst st. rewrite Hc1 in Hc'. injection Hc' as <-. exists c2. split; [apply list_lookup_insert_eq; by eapply lookup_lt_Some|]. split.
    + intros j Hj. rewrite Hin in Hj. rewrite Z2; [apply O1; tauto|]. intros ->. apply Hj. by right.
    + split; [|intros H; exfalso; apply (H r.2), Hin; by right].
      intros He. destruct O2 as [O2 O4]; [intros j Hj; apply He; rewrite Hin; by left|].
      destruct Z3 as [Z3 Z4]; [|split; congruence].
      rewrite (cell_at_abs _ _ _ (O1 r.2 Hni)). apply He. rewrite Hin. by right.
  - exists c'. rewrite list_lookup_insert_ne by done. split; [done|]. split.
    + intros j Hj. apply O1. rewrite Hin in Hj. tauto.
    + split; [intros He; apply O2; intros j Hj; apply He; rewrite Hin; by left|].
      intros H. apply O3. intros j Hj. apply (H j). rewrite Hin. by left.
Qed.

Lemma wp_place_rows n u k rows : kv_wf n k -> live_tail k = false -> NoDup (target <$> rows) -> Forall (row_ok n u k) rows ->
  wp (foldX (place_row u) rows (replicate LLAMA_MAX_SEQ (-1)%Z)) (rows_placed n u k rows) k.
Proof.
  intros Hk Hlive Hnd Hok.
  apply (wp_foldX (fun rest m k' => exists done, rows = done ++ rest /\ rows_placed n u k done m k')).
  - exists []. split; [done|]. split; [done|apply framed_refl|done|done|]. intros st c Hst. by exists c.
  - intros r rest m k1 (done & E & [P1 P2 P3 P4 P5]). subst rows.
    rewrite fmap_app in Hnd. apply NoDup_app in Hnd as (_ & Hni & _).
    assert (target r ∉ target <$> done) as Hr by (intros H; apply (Hni _ H); by left).
    apply Forall_app in Hok as [_ Hok]. apply Forall_cons in Hok as [[R1 R2 R3 (p & ids & R4)] _].
    destruct (lookup_lt_is_Some_2 (v_cells k) r.1.2) as [c Hc]; [by rewrite (kw_streams n k Hk)|].
    destruct (P5 r.1.2 c Hc) as (c1 & Hc1 & O1 & _). pose proof (cell_at_abs _ _ _ (O1 r.2 Hr)) as Habs.
    eapply wp_mono.
    + apply (wp_place_token n u r.1.1 r.1.2 m r.2 k1 c1 p ids); [done|by rewrite (live_framed _ _ P2)|done|done| | |by eapply tok_ok_framed].
      * intros q T. rewrite Habs. by apply R2.
      * rewrite P4. apply spec_losses_length.
    + intros m' k2 [-> Hpl]. exists (done ++ [r]). split; [by rewrite <- app_assoc|].
      pose proof (streams_same_step n done r k k1 k2 c1 _ P5 Hc1 Hr Hpl) as Hsame.
      destruct Hpl as [Q1 Q2 (c2 & Q3 & _ & Q4)]. split; [done|by eapply framed_trans| | |done].
      * unfold spec_place. rewrite foldl_snoc. fold (spec_place u done (abs k)). rewrite <- P3. unfold abs at 1. rewrite Q3, list_fmap_insert, Q4.
        apply list_eq. intros j. rewrite list_lookup_insert, list_lookup_alter. unfold abs. rewrite length_fmap, list_lookup_fmap.
        destruct (decide (r.1.2 = j)) as [<-|Hne].
        -- rewrite decide_True by (split; [done|by eapply lookup_lt_Some]). by rewrite list_lookup_fmap, Hc1.
        -- by rewrite decide_False by (by intros [??]).
      * unfold spec_losses. rewrite foldl_snoc. fold (spec_losses (abs k) done). rewrite P4. f_equal.
        unfold content_at. simpl. by rewrite (abs_stream k _ c Hc).
  - intros m k' (done & E & H). rewrite app_nil_r in E. by subst done.
Qed.

(** ** The purge *)

(** A sequence that loses position [m] loses everything before. *)
Definition spec_purge (M : list nat) (losses : list Z) (A : list amap) (s : nat) : list amap :=
  match losses !! s with
  | Some m => if (m =? -1)%Z then A else on_stream (home M (Z.of_nat s)) (sp_rm s 0 (m + 1)) A
  | None => A
  end.

Definition spec_purges (M : list nat) (losses : list Z) (A : list amap) : list amap :=
  foldl (spec_purge M losses) A (seq 0 LLAMA_MAX_SEQ).

Lemma on_stream_ext k st g g' : (forall c i x, v_cells k !! st = Some c -> abs_cells c !! i = Some x -> g x = g' x) ->
  on_stream st g (abs k) = on_stream st g' (abs k).
Proof.
  intros H. unfold on_stream. apply list_eq. intros j. rewrite !list_lookup_alter. destruct (decide (st = j)) as [<-|]; [|done].
  unfold abs. rewrite list_lookup_fmap. destruct (v_cells k !! st) as [c|] eqn:Hc; [|done]. simpl. f_equal.
  apply map_eq. intros i. rewrite !lookup_omap. destruct (abs_cells c !! i) as [x|] eqn:Hi; [|done]. simpl. by eapply H.
Qed.

Lemma on_stream_Some k st : on_stream st Some (abs k) = abs k.
Proof.
  unfold on_stream. apply list_eq. intros j. rewrite list_lookup_alter. destruct (decide (st = j)) as [<-|]; [|done].
  destruct (abs k !! st) as [m|]; [|done]. simpl. f_equal. apply map_eq. intros i. rewrite lookup_omap. by destruct (m !! i).
Qed.

(** What may be lost. *)
Definition loss_ok (k : kv_cache) (losses : list Z) : Prop :=
  forall s m, losses !! s = Some m -> m <> (-1)%Z -> (0 <= m < INT32_MAX)%Z /\ s < length (seq_to_stream k).

Lemma wp_purge n k losses s m : kv_wf n k -> other (k_cfg k) = None -> loss_ok k losses -> losses !! s = Some m ->
  wp (purge losses s) (fun _ => refined n k (spec_purge (seq_to_stream k) losses (abs k) s)) k.
Proof.
  intros Hk Ho Hl Hm. unfold purge, spec_purge. rewrite Hm. apply wp_bind, (wp_lift _ m); [by apply vec_get_Some|].
  destruct (m =? -1)%Z eqn:E; [by apply wp_ret|]. bprop. destruct (Hl s m Hm E) as [Hr Hs].
  assert (valid_id (Z.of_nat s) k) as Hv by (unfold valid_id; lia).
  destruct (stream_of_ok n k (Z.of_nat s) Hk Hv) as (st & c & Es & Em & Ec & Hst & Hc & _). rewrite (home_ok k (Z.of_nat s) st Em).
  apply wp_bind, (wp_gets _ st); [done|]. apply wp_bind, (wp_gets _ c); [done|].
  pose proof (valid_id_max n k _ Hk Hv) as Hmax. rewrite Nat2Z.id in Hmax.
  destruct (seq_pos_min_ok n c s Hc Hmax) as (lo & El & Hlo & Hmin). apply wp_bind, (wp_lift _ lo); [done|].
  destruct (lo <=? m)%Z eqn:E2; bprop.
  - apply wp_bind, (wp_lift _ (m + 1)%Z); [apply i32_in; unfold INT32_MIN, INT32_MAX in *; lia|]. apply wp_bind.
    eapply wp_mono; [apply (wp_seq_rm_unchecked n k (Z.of_nat s) lo (m + 1)); [done|done|by right]|].
    intros b k' [-> Hr']. apply (wp_lift _ tt); [done|]. destruct Hr' as [R1 R2 R3 R4]. split; [done| |done|done]. rewrite R2. simpl clip_seq_op.
    rewrite (proj2 (Z.ltb_ge _ _)) by lia. rewrite (home_ok k (Z.of_nat s) st Em), Nat2Z.id. apply on_stream_ext.
    intros c' i [p T] Hc' Hi. rewrite Hst in Hc'. injection Hc' as <-. unfold sp_rm. simpl.
    destruct (decide (s ∈ T)) as [HsT|HsT]; [|by rewrite bool_decide_eq_false_2, !andb_false_r by done].
    assert (in_rng (clip_lo lo) (clip_hi (m + 1)) p = in_rng 0 (m + 1) p) as ->; [|done].
    pose proof (Hmin i p T Hi HsT). pose proof (abs_pos_range n c i p T Hc Hi). unfold in_rng, clip_hi, clip_lo.
    rewrite (proj2 (Z.ltb_ge (m + 1) 0)) by lia. rewrite (proj2 (Z.leb_le 0 p)) by lia. destruct (lo <? 0)%Z; by rewrite (proj2 (Z.leb_le _ p)) by lia.
  - apply wp_ret. split; [done| |done|done]. rewrite (on_stream_ext k st _ Some); [by rewrite on_stream_Some|].
    intros c' i [p T] Hc' Hi. rewrite Hst in Hc'. injection Hc' as <-. unfold sp_rm. simpl.
    destruct (decide (s ∈ T)) as [HsT|HsT]; [|by rewrite bool_decide_eq_false_2, !andb_false_r by done].
    pose proof (Hmin i p T Hi HsT). unfold in_rng. rewrite (proj2 (Z.ltb_ge p (m + 1))) by lia. by rewrite andb_false_r.
Qed.

Lemma wp_purges n k losses : kv_wf n k -> other (k_cfg k) = None -> loss_ok k losses -> length losses = LLAMA_MAX_SEQ ->
  wp (forX (purge losses) (seq 0 LLAMA_MAX_SEQ)) (fun _ => refined n k (spec_purges (seq_to_stream k) losses (abs k))) k.
Proof.
  intros Hk Ho Hl Hlen. unfold spec_purges.
  apply (wp_forX (fun rest k' => refined n k (abs k') k' /\
    foldl (spec_purge (seq_to_stream k) losses) (abs k') rest = foldl (spec_purge (seq_to_stream k) losses) (abs k) (seq 0 LLAMA_MAX_SEQ))).
  - by split.
  - intros s rest k1 Hs [[R1 _ R3 R4] He]. apply elem_of_seq in Hs. destruct (lookup_lt_is_Some_2 losses s) as [m Hm]; [lia|].
    eapply wp_mono; [apply (wp_purge n k1 losses s m); [done|by rewrite R3| |done]|].
    + intros s' m'. rewrite R4. apply Hl.
    + intros [] k2 [Q1 Q2 Q3 Q4]. split; [by split; congruence|]. simpl in He. by rewrite Q2, R4.
  - intros k' [[R1 _ R3 R4] He]. by split.
Qed.

(** No loss, no purge. *)
Lemma purge_none losses l k : Forall (fun m => m = (-1)%Z) losses -> Forall (fun s => s < length losses) l -> forX (purge losses) l k = (Ok tt, k).
Proof.
  intros Hf. induction l as [|s l IH]; intros Hl; [done|]. apply Forall_cons in Hl as [Hs Hl]. simpl.
  destruct (lookup_lt_is_Some_2 losses s Hs) as [m Hm]. rewrite Forall_lookup in Hf. rewrite (Hf s m Hm) in Hm.
  unfold mbind, stx_bind. unfold purge at 1. unfold mbind, stx_bind, stx_lift. rewrite (vec_get_Some _ _ _ Hm). simpl. by apply IH.
Qed.

Lemma losses_ok n u k rows : kv_wf n k -> Forall (row_ok n u k) rows ->
  (forall r p S, r ∈ rows -> content_at (abs k) (target r) = Some (p, S) -> (p < INT32_MAX)%Z) -> loss_ok k (spec_losses (abs k) rows).
Proof.
  intros Hk Hok Hlt. unfold spec_losses.
  assert (forall m, loss_ok k m -> loss_ok k (foldl (fun m r => note_loss (content_at (abs k) (target r)) m) m rows)) as H.
  { clear Hok. induction rows as [|r rows IH]; intros m Hm; simpl; [done|]. apply IH; [intros; eapply Hlt; [by right|done]|].
    destruct (content_at (abs k) (target r)) as [[p T]|] eqn:Er; [|done]. simpl. intros s q Hs Hq. rewrite list_lookup_imap in Hs.
    destruct (m !! s) as [q0|] eqn:Em; [|done]. simpl in Hs. injection Hs as <-. destruct (decide (s ∈ T)) as [HsT|]; [|by apply Hm].
    pose proof (Hlt r p T ltac:(by left) Er) as Hp. unfold content_at in Er. destruct (abs k !! (target r).1) as [a|] eqn:Ea; [|done]. simpl in Er.
    pose proof (kw_home n k Hk _ a _ _ _ s Ea Er HsT) as Hh. apply lookup_lt_Some in Hh.
    unfold abs in Ea. rewrite list_lookup_fmap in Ea. destruct (v_cells k !! (target r).1) as [c|] eqn:Ec; [|done]. injection Ea as <-.
    pose proof (abs_pos_range n c _ p T (kw_cells n k Hk _ c Ec) Er). split; [|done].
    destruct (decide (q0 = (-1)%Z)) as [->|Hne]; [lia|]. destruct (Hm s q0 Em Hne). lia. }
  apply H. intros s m Hm. apply lookup_replicate in Hm as [-> _]. done.
Qed.

(** ** The heads *)

(** The head of every stream of the slot follows its last cell. *)
Definition heads_moved (sinfo : slot_info) (k : kv_cache) : Prop :=
  forall s st cells b, strm sinfo !! s = Some st -> idxs sinfo !! s = Some cells -> last cells = Some b -> v_heads k !! st = Some (b + 1).

(** A slot for [u] in [k]: streams are distinct, every one has [size] cells. *)
Record slot_ok (n : nat) (u : llama_ubatch) (k : kv_cache) (sinfo : slot_info) (size : nat) : Prop := {
  so_len : length (idxs sinfo) = length (strm sinfo);
  so_some : 0 < length (strm sinfo) /\ 0 < size;
  so_size : Forall (fun l => length l = size) (idxs sinfo);
  so_tokens : u_n_tokens u = length (strm sinfo) * size;
  so_strm : NoDup (strm sinfo);
  so_cells : NoDup (target <$> slot_rows size sinfo);
  so_rows : Forall (row_ok n u k) (slot_rows size sinfo)
}.

Lemma slot_rows_row size sinfo s st cells ii idx : length (idxs sinfo) = length (strm sinfo) ->
  strm sinfo !! s = Some st -> idxs sinfo !! s = Some cells -> cells !! ii = Some idx -> (s * size + ii, st, idx) ∈ slot_rows size sinfo.
Proof.
  intros Hl Hst Hc Hi. unfold slot_rows. assert (zip (strm sinfo) (idxs sinfo) !! s = Some (st, cells)) as Hz by (by rewrite lookup_zip_with, Hst, Hc).
  change s with (0 + s). revert Hz. generalize 0. revert s Hst Hc. intros s _ _. revert s. generalize (zip (strm sinfo) (idxs sinfo)).
  intros l. induction l as [|[st' cells'] l IH]; intros s a Hz; [done|]. simpl. apply elem_of_app. destruct s as [|s].
  - injection Hz as -> ->. left. apply elem_of_lookup_imap. exists ii, idx. split; [by rewrite Nat.add_0_r|done].
  - right. replace (a + Datatypes.S s) with (a + 1 + s) by lia. by apply IH.
Qed.

Lemma slot_size_ok n u k sinfo size : slot_ok n u k sinfo size -> slot_size sinfo = Ok size.
Proof.
  intros [L [S1 S2] F _ _ _ _]. unfold slot_size. rewrite L, Nat.eqb_refl. cbn [assert_ mbind outcome_bind].
  destruct (lookup_lt_is_Some_2 (idxs sinfo) 0) as [l Hl]; [lia|]. rewrite (proj2 (Nat.eqb_neq _ 0)) by lia. cbn [negb assert_ mbind outcome_bind].
  rewrite (vec_get_Some _ _ _ Hl). cbn [mbind outcome_bind]. rewrite Forall_lookup in F. by rewrite (F _ _ Hl).
Qed.

Lemma wp_move_heads n u k0 k sinfo size : kv_wf n k -> slot_ok n u k0 sinfo size -> k_cfg k = k_cfg k0 ->
  wp (forX (move_head sinfo) (seq 0 (slot_n_stream sinfo)))
    (fun _ k' => kv_wf n k' /\ (exists heads, k' = set_heads heads k) /\ heads_moved sinfo k') k.
Proof.
  intros Hk [L [_ S2] F _ Hnd _ Hrows] Hg.
  apply (wp_forX (fun rest k' => kv_wf n k' /\ (exists heads, k' = set_heads heads k) /\
    exists j, rest = seq j (slot_n_stream sinfo - j) /\ j <= slot_n_stream sinfo /\
    forall s st cells b, s < j -> strm sinfo !! s = Some st -> idxs sinfo !! s = Some cells -> last cells = Some b -> v_heads k' !! st = Some (b + 1))).
  - split; [done|]. split; [exists (v_heads k); by destruct k|]. exists 0. rewrite Nat.sub_0_r. split; [done|]. split; [lia|]. intros; lia.
  - intros s rest k1 _ (Hk1 & (heads & Eh) & j & Er & Hj & Hdone).
    destruct (slot_n_stream sinfo - j) as [|d] eqn:Ed; [done|]. simpl in Er. injection Er as -> ->.
    unfold slot_n_stream in *. destruct (lookup_lt_is_Some_2 (strm sinfo) j) as [st Hst]; [lia|].
    destruct (lookup_lt_is_Some_2 (idxs sinfo) j) as [cells Hc]; [lia|]. rewrite Forall_lookup in F. pose proof (F _ _ Hc) as Hcl. simpl in Hcl.
    destruct (last cells) as [b|] eqn:El; [|apply last_None in El as ->; simpl in *; lia].
    assert ((j * size + (length cells - 1), st, b) ∈ slot_rows size sinfo) as Hin.
    { eapply slot_rows_row; try done. rewrite <- El, last_lookup. f_equal. lia. }
    rewrite Forall_forall in Hrows. destruct (Hrows _ Hin) as [Hb _ Hs _]. simpl in Hb, Hs.
    unfold move_head. apply wp_bind, (wp_lift _ st); [by apply vec_get_Some|]. apply wp_bind, (wp_lift _ cells); [by apply vec_get_Some|].
    apply wp_bind, (wp_lift _ b); [by rewrite El|].
    destruct (kw_heads n k1 Hk1) as [Hlh _]. rewrite Eh in Hlh. simpl in Hlh.
    destruct (lookup_lt_is_Some_2 (v_heads k1) st) as [h Hh]; [rewrite Eh; simpl; rewrite Hlh, Hg; lia|].
    unfold wp, on_head. rewrite Hh. split; [apply set_heads_wf; [done|lia]|]. split; [exists (<[st := b + 1]> (v_heads k1)); by rewrite Eh|].
    exists (j + 1). split; [rewrite Nat.add_1_r; f_equal; lia|]. split; [lia|]. intros s st' cells' b' Hlt H1 H2 H3. simpl.
    destruct (decide (s = j)) as [->|Hne].
    + rewrite Hst in H1. rewrite Hc in H2. injection H1 as <-. injection H2 as <-. rewrite El in H3. injection H3 as <-.
      apply list_lookup_insert_eq. by eapply lookup_lt_Some.
    + rewrite list_lookup_insert_ne; [eapply (Hdone s); try done; lia|]. intros <-. apply Hne. by eapply NoDup_lookup.
  - intros k' (Hk' & Hh & j & Er & Hj & Hdone). split; [done|]. split; [done|]. intros s st cells b H1 H2 H3. eapply Hdone; try done.
    apply lookup_lt_Some in H1. unfold slot_n_stream in *. destruct (length (strm sinfo) - j) eqn:E; [lia|done].
Qed.

(** ** The whole operation *)

Definition spec_apply (u : llama_ubatch) (sinfo : slot_info) (size : nat) (M : list nat) (A : list amap) : list amap :=
  spec_purges M (spec_losses A (slot_rows size sinfo)) (spec_place u (slot_rows size sinfo) A).

Lemma if_live_skip m k : live_tail k = false -> if_live m k = (Ok tt, k).
Proof. unfold if_live. by intros ->. Qed.

(** With empty cells only, nothing is purged. *)
Lemma spec_losses_none A rows : (forall r, r ∈ rows -> content_at A (target r) = None) -> spec_losses A rows = replicate LLAMA_MAX_SEQ (-1)%Z.
Proof.
  unfold spec_losses. generalize (replicate LLAMA_MAX_SEQ (-1)%Z). induction rows as [|r rows IH]; intros m H; simpl; [done|].
  rewrite (H r) by (by left). simpl. apply IH. intros. apply H. by right.
Qed.

Record placed_empty (n : nat) (u : llama_ubatch) (sinfo : slot_info) (size : nat) (k k' : kv_cache) : Prop := {
  pe_wf : kv_wf n k';
  pe_frame : exists heads k1, framed k k1 /\ k' = set_heads heads k1;
  pe_abs : abs k' = spec_place u (slot_rows size sinfo) (abs k);
  pe_same : streams_same (slot_rows size sinfo) k k'
}.

Lemma wp_apply_empty n u k sinfo size : kv_wf n k -> other (k_cfg k) = None -> live_tail k = false -> slot_ok n u k sinfo size ->
  (forall r, r ∈ slot_rows size sinfo -> content_at (abs k) (target r) = None) ->
  wp (apply_ubatch sinfo u) (fun _ => placed_empty n u sinfo size k) k.
Proof.
  intros Hk Ho Hlive Hslot He.
  unfold apply_ubatch. apply wp_bind, wp_get. rewrite Ho. apply wp_bind, (wp_lift _ size); [by eapply slot_size_ok|].
  pose proof Hslot as [L _ F T _ Hnd Hrows]. apply wp_bind, (wp_lift _ tt); [unfold slot_n_stream; by rewrite T, Nat.eqb_refl|].
  apply wp_bind. unfold wp at 1. rewrite if_live_skip by done. apply wp_bind. unfold wp at 1. rewrite (place_streams_rows u sinfo size) by done.
  change (wp (foldX (place_row u) (slot_rows size sinfo) (replicate LLAMA_MAX_SEQ (-1)%Z)) (fun max_rm => wp (if_live (sink_rows u);;
    forX (purge max_rm) (seq 0 LLAMA_MAX_SEQ);; forX (move_head sinfo) (seq 0 (slot_n_stream sinfo)))
    (fun _ => placed_empty n u sinfo size k)) k).
  eapply wp_mono; [by apply (wp_place_rows n)|]. intros m k1 [P1 P2 P3 -> P5].
  apply wp_bind. unfold wp at 1. rewrite if_live_skip by (by rewrite (live_framed _ _ P2)).
  assert (k_cfg k1 = k_cfg k) as G1 by (by destruct P2 as (? & ? & ->)).
  apply wp_bind. unfold wp at 1. rewrite purge_none.
  2:{ rewrite spec_losses_none by done. by apply Forall_replicate. }
  2:{ rewrite spec_losses_length. apply Forall_forall. intros s Hs%elem_of_seq. lia. }
  eapply wp_mono; [apply (wp_move_heads n u k k1 sinfo size); [done|done|congruence]|].
  intros [] k3 (Q1 & (heads & ->) & Q3). split; [done|by exists heads, k1|done|done].
Qed.

(** C11: placing a ubatch in a slot (its cells distinct, each empty or with one owner),
    when no exact row is written: no assertion fires, the cache stays well-formed,
    every cell of the slot becomes its token with exactly the token's sequences, all
    other cells stay, except that a sequence that lost a cell loses all its positions
    up to the largest lost one; the heads follow the slot. *)
Theorem apply_ubatch_places n u k sinfo size : kv_wf n k -> other (k_cfg k) = None -> live_tail k = false -> slot_ok n u k sinfo size ->
  (forall r p S, r ∈ slot_rows size sinfo -> content_at (abs k) (target r) = Some (p, S) -> (p < INT32_MAX)%Z) ->
  exists k', apply_ubatch sinfo u k = (Ok tt, k') /\ kv_wf n k' /\ k_cfg k' = k_cfg k /\ seq_to_stream k' = seq_to_stream k /\
    abs k' = spec_apply u sinfo size (seq_to_stream k) (abs k) /\ heads_moved sinfo k'.
Proof.
  intros Hk Ho Hlive Hslot Hlt.
  assert (wp (apply_ubatch sinfo u) (fun _ k' => refined n k (spec_apply u sinfo size (seq_to_stream k) (abs k)) k' /\ heads_moved sinfo k') k) as Hwp.
  2:{ apply wp_run in Hwp as ([] & k' & E & [R1 R2 R3 R4] & Hh). by exists k'. }
  unfold apply_ubatch. apply wp_bind, wp_get. rewrite Ho. apply wp_bind, (wp_lift _ size); [by eapply slot_size_ok|].
  pose proof Hslot as [L _ F T _ Hnd Hrows]. apply wp_bind, (wp_lift _ tt); [unfold slot_n_stream; by rewrite T, Nat.eqb_refl|].
  apply wp_bind. unfold wp at 1. rewrite if_live_skip by done. apply wp_bind. unfold wp at 1. rewrite (place_streams_rows u sinfo size) by done.
  change (wp (foldX (place_row u) (slot_rows size sinfo) (replicate LLAMA_MAX_SEQ (-1)%Z)) (fun max_rm => wp (if_live (sink_rows u);;
    forX (purge max_rm) (seq 0 LLAMA_MAX_SEQ);; forX (move_head sinfo) (seq 0 (slot_n_stream sinfo)))
    (fun _ k' => refined n k (spec_apply u sinfo size (seq_to_stream k) (abs k)) k' /\ heads_moved sinfo k')) k).
  eapply wp_mono; [by apply (wp_place_rows n)|]. intros m k1 [P1 P2 P3 -> P5].
  apply wp_bind. unfold wp at 1. rewrite if_live_skip by (by rewrite (live_framed _ _ P2)).
  assert (k_cfg k1 = k_cfg k /\ seq_to_stream k1 = seq_to_stream k) as [G1 G2] by (by destruct P2 as (? & ? & ->)).
  apply wp_bind. eapply wp_mono; [apply (wp_purges n k1); [done|by rewrite G1| |apply spec_losses_length]|].
  { intros s q. rewrite G2. by apply (losses_ok n u k). }
  intros [] k2 [R1 R2 R3 R4]. eapply wp_mono; [apply (wp_move_heads n u k k2 sinfo size); [done|done|congruence]|].
  intros [] k3 (Q1 & (heads & ->) & Q3). split; [|done]. split; [done| |simpl; congruence|simpl; congruence].
  unfold abs at 1. simpl. fold (abs k2). rewrite R2, P3, G2. done.
Qed.

(** Two tokens of sequence 3, the first in the cell that holds its position 7. *)
Definition demo_ubatch : llama_ubatch :=
  mk_ubatch false 2 1 2 1 1 None None [10%Z; 11%Z] [1%Z; 1%Z] [[3%Z]; [3%Z]] [3] [] [].

Definition demo_slot : slot_info := mk_slot 0 0 [0] [[1; 0]].

Lemma demo_content j x : content_at (abs (demo_cache 1 0)) (0, j) = Some x -> abs_cells demo_cells !! j = Some x.
Proof. done. Qed.

Lemma demo_usable j : usable demo_cells j /\ forall p S, abs_cells demo_cells !! j = Some (p, S) -> (p < INT32_MAX)%Z.
Proof.
  assert (map_Forall (fun _ x => size x.2 = 1 /\ (x.1 < INT32_MAX)%Z) (abs_cells demo_cells)) as H.
  { apply (bool_decide_unpack _). vm_compute. exact I. }
  split; intros p S Hj; by apply (H j (p, S) Hj).
Qed.

Lemma demo_slot_ok : slot_ok 4 demo_ubatch (demo_cache 1 0) demo_slot 2.
Proof.
  split; [done|simpl; lia|by repeat constructor|done|by apply NoDup_singleton|apply (bool_decide_unpack _); vm_compute; exact I|].
  assert (forall i st idx, (i, st, idx) ∈ slot_rows 2 demo_slot -> st = 0 /\ (i = 0 /\ idx = 1 \/ i = 1 /\ idx = 0)) as Hr.
  { intros i st idx H. unfold slot_rows in H. simpl in H. rewrite !elem_of_cons in H. destruct H as [[= -> -> ->]|[[= -> -> ->]|H]]; [lia|lia|].
    by apply not_elem_of_nil in H. }
  apply Forall_forall. intros [[i st] idx] H. apply Hr in H as [-> Hi]. split.
  - simpl. lia.
  - intros c Hc. injection Hc as <-. apply demo_usable.
  - simpl. lia.
  - exists (10 + Z.of_nat i)%Z, [3%Z]. split; try done.
    + by destruct Hi as [[-> _]|[-> _]].
    + by apply NoDup_singleton.
    + constructor; [|done]. split; [simpl; lia|done].
    + by destruct Hi as [[-> _]|[-> _]].
    + unfold INT32_MAX. simpl. lia.
Qed.

Lemma apply_ubatch_places_witness : exists k',
  apply_ubatch demo_slot demo_ubatch (demo_cache 1 0) = (Ok tt, k') /\ kv_wf 4 k' /\
  abs k' = [<[0 := (11%Z, {[3]})]> (<[1 := (10%Z, {[3]})]> (<[2 := (9%Z, {[3]})]> ∅))] /\ v_heads k' = [1].
Proof.
  assert (kv_wf 4 (demo_cache 1 0)) as Hk by (apply demo_cache_wf; by left).
  destruct (apply_ubatch_places 4 demo_ubatch (demo_cache 1 0) demo_slot 2 Hk eq_refl eq_refl demo_slot_ok) as (k' & E & Hk' & Hg & _ & Ha & Hh).
  - intros [[i st] idx] p S Hr Hc. assert (st = 0) as ->.
    { unfold slot_rows in Hr. simpl in Hr. rewrite !elem_of_cons in Hr. destruct Hr as [[= _ -> _]|[[= _ -> _]|Hr]]; [done|done|by apply not_elem_of_nil in Hr]. }
    apply demo_content in Hc. by eapply demo_usable.
  - exists k'. split; [exact E|]. split; [exact Hk'|]. split.
    + rewrite Ha. apply (bool_decide_unpack _). vm_compute. exact I.
    + pose proof (Hh 0 0 [1; 0] 0 eq_refl eq_refl eq_refl) as H0. destruct (kw_heads 4 k' Hk') as [Hl _]. rewrite Hg in Hl.
      destruct (v_heads k') as [|h [|]]; try discriminate Hl. simpl in H0. injection H0 as ->. reflexivity.
Defined.
