(* ===== verification/KvFind.v ===== *)
(** * Finding slots cell by cell

    The search of [find_slot] around the ring of cells terminates, visits every cell
    once and finds a slot exactly when the stream has enough usable cells; what it
    returns is a slot [apply_ubatch] can be given. *)

From S2P Require Import KvCells TailStore Batch BatchInit.
From S2P Require Export KvApply.
Open Scope nat_scope.

(** ** Ring order *)

Definition ring (h n : nat) : list nat := seq h (n - h) ++ seq 0 h.

Lemma ring_length h n : h <= n -> length (ring h n) = n.
Proof. intros. unfold ring. rewrite length_app, !length_seq. lia. Qed.

Lemma ring_NoDup h n : NoDup (ring h n).
Proof.
  unfold ring. apply NoDup_app. split; [apply NoDup_seq|]. split; [|apply NoDup_seq].
  intros i H1 H2. apply elem_of_seq in H1, H2. lia.
Qed.

Lemma elem_of_ring h n i : h <= n -> i ∈ ring h n <-> i < n.
Proof. intros. unfold ring. rewrite elem_of_app, !elem_of_seq. lia. Qed.

Lemma ring_lookup h n t : h <= n -> t < n -> ring h n !! t = Some (if decide (t < n - h) then h + t else t - (n - h)).
Proof.
  intros Hh Ht. unfold ring. case_decide.
  - rewrite lookup_app_l by (rewrite length_seq; lia). apply lookup_seq_lt. lia.
  - rewrite lookup_app_r by (rewrite length_seq; lia). rewrite length_seq, lookup_seq_lt by lia. done.
Qed.

(** ** Usable cells *)

(** The code's test, where it returns. *)
Record test_ok (k : kv_cache) (c : kv_cells) (u : llama_ubatch) (seq_id n : nat) (f : nat -> bool) : Prop := {
  ts_run : forall i tok, i < n -> can_use_cell k c u seq_id tok i = Ok (f i);
  ts_empty : forall i, i < n -> abs_cells c !! i = None -> f i = true;
  ts_usable : forall i, i < n -> f i = true -> usable c i;
  ts_none : swa_type (k_cfg k) = SWA_TYPE_NONE -> forall i, i < n -> f i = true -> abs_cells c !! i = None
}.

(** Positions leave room for a next one, and chunks are not empty. *)
Definition swa_ok (k : kv_cache) : Prop :=
  (swa_type (k_cfg k) = SWA_TYPE_CHUNKED -> n_swa (k_cfg k) <> 0%Z) /\
  forall st c i p S, v_cells k !! st = Some c -> abs_cells c !! i = Some (p, S) -> (p < INT32_MAX)%Z.

Lemma is_masked_ok g w p q : (w = SWA_TYPE_CHUNKED -> g <> 0%Z) -> (0 <= p)%Z -> (0 <= q)%Z -> exists b, is_masked_swa g w p q = Ok b /\ (w = SWA_TYPE_NONE -> b = false).
Proof.
  intros Hw Hp Hq. unfold is_masked_swa. rewrite (proj2 (Z.leb_le 0 p)), (proj2 (Z.leb_le 0 q)) by lia. cbn [andb assert_ mbind outcome_bind].
  destruct w; try (by eexists). rewrite (proj2 (Z.eqb_neq g 0)) by (by apply Hw). by eexists.
Qed.

Lemma can_use_ok n k st c u seq_id i : kv_wf n k -> swa_ok k -> allocation_group_size (k_alloc k) <= 1 -> v_cells k !! st = Some c -> i < n ->
  exists b, (forall tok, can_use_cell k c u seq_id tok i = Ok b) /\ (abs_cells c !! i = None -> b = true) /\
    (b = true -> usable c i /\ (swa_type (k_cfg k) = SWA_TYPE_NONE -> abs_cells c !! i = None)).
Proof.
  intros Hk [Hch Hmax] Hg Hst Hi. pose proof (kw_cells n k Hk st c Hst) as Hc. pose proof (sm_wf n c Hc) as Hw.
  destruct (stream_cell n c i Hc Hi) as (p & S & sh & e & Hcell). pose proof (abs_cell _ _ _ _ _ _ Hcell) as Ha.
  unfold can_use_cell. rewrite (is_empty_at _ _ _ _ _ _ Hw Hcell). rewrite (proj2 (Nat.ltb_ge 1 _)) by lia.
  cbn [mbind outcome_bind]. rewrite andb_false_r. cbn [mbind outcome_bind]. destruct (p =? -1)%Z eqn:E.
  { exists true. split; [done|]. split; [done|]. intros _. split; [|done]. intros q T. by rewrite Ha. }
  bprop. pose proof Hcell as (Hp & HS & _). unfold seq_count. rewrite (used_cell_Some _ _ _ Hp E), (vec_get_Some _ _ _ HS). cbn [mbind outcome_bind].
  rewrite Ha. destruct (size S =? 1) eqn:Es; cbn [negb]; bprop.
  2:{ exists false. split; [done|]. split; done. }
  pose proof Es as Es1. apply size_1_elem_of in Es1 as [s Hs]. fold_leibniz. subst S.
  assert (s < LLAMA_MAX_SEQ) as Hlt by (eapply (wf_ids c Hw); [done|set_solver]).
  unfold pos_get. rewrite (used_cell_Some _ _ _ Hp E), (seq_get_singleton c i s HS Hlt). cbn [mbind outcome_bind].
  rewrite Nat2Z.id. destruct (seq_pos_max_ok n c s Hc Hlt) as (hi & -> & Hhi & Hle & Hex). cbn [mbind outcome_bind].
  pose proof (Hle i p {[s]} Ha ltac:(set_solver)) as Hple. pose proof (abs_pos_range n c i p _ Hc Ha) as Hpr.
  assert (hi < INT32_MAX)%Z as Hhm. { destruct Hex as (j & T & Hj & _); [lia|]. by eapply Hmax. }
  rewrite i32_in by (unfold INT32_MIN, INT32_MAX in *; lia). cbn [mbind outcome_bind].
  destruct (is_masked_ok (n_swa (k_cfg k)) (swa_type (k_cfg k)) p (hi + 1)) as (b & -> & Hb); [done|lia|lia|].
  exists b. split; [done|]. split; [done|]. intros ->. split; [intros q T Hq; congruence|]. intros Hn. by specialize (Hb Hn).
Qed.

Lemma test_ok_ex n k st c u seq_id : kv_wf n k -> swa_ok k -> allocation_group_size (k_alloc k) <= 1 -> v_cells k !! st = Some c ->
  exists f, test_ok k c u seq_id n f.
Proof.
  intros Hk Hs Hg Hst. set (f i := match can_use_cell k c u seq_id 0 i with Ok b => b | Err _ => false end). exists f.
  assert (forall i, i < n -> exists b, (forall tok, can_use_cell k c u seq_id tok i = Ok b) /\ f i = b /\ (abs_cells c !! i = None -> b = true) /\
    (b = true -> usable c i /\ (swa_type (k_cfg k) = SWA_TYPE_NONE -> abs_cells c !! i = None))) as H.
  { intros i Hi. destruct (can_use_ok n k st c u seq_id i Hk Hs Hg Hst Hi) as (b & H1 & H2 & H3). exists b. split; [done|]. split; [|done].
    unfold f. by rewrite H1. }
  split.
  - intros i tok Hi. destruct (H i Hi) as (b & H1 & -> & _). apply H1.
  - intros i Hi. by destruct (H i Hi) as (b & _ & -> & H2 & _).
  - intros i Hi. destruct (H i Hi) as (b & _ & -> & _ & H3). intros Hb. by apply H3.
  - intros Hn i Hi. destruct (H i Hi) as (b & _ & -> & _ & H3). intros Hb. by apply H3.
Qed.

(** ** The loop *)

Section loop.
Context (k : kv_cache) (c : kv_cells) (u : llama_ubatch) (seq_id n n_tokens h : nat) (f : nat -> bool).
Hypothesis Hf : test_ok k c u seq_id n f.
Hypothesis Hn : cells_size c = n.
Hypothesis Hh : h <= n.
Hypothesis Ht : 0 < n_tokens <= n.

Definition found (t : nat) : list nat := List.filter f (take t (ring h n)).

(** The head after [t] cells. *)
Definition head_at (t head_cur : nat) : Prop :=
  t < n - h /\ head_cur = h + t \/ t = n - h /\ head_cur = n \/ n - h <= t /\ head_cur = t - (n - h).

Lemma found_step t i : ring h n !! t = Some i -> found (t + 1) = found t ++ (if f i then [i] else []).
Proof. intros Hi. unfold found. rewrite Nat.add_1_r, (take_S_r _ _ _ Hi), List.filter_app. simpl. by destruct (f i). Qed.

Lemma found_prefix t : t <= n -> found t = take (length (found t)) (List.filter f (ring h n)).
Proof.
  intros _. assert (List.filter f (ring h n) = found t ++ List.filter f (drop t (ring h n))) as ->.
  { unfold found. by rewrite <- List.filter_app, take_drop. }
  by rewrite take_app_length.
Qed.

Definition search_result : option (list nat) :=
  if n_tokens <=? length (List.filter f (ring h n)) then Some (take n_tokens (List.filter f (ring h n))) else None.

Lemma test_step t head_cur fuel : t < n -> head_at t head_cur -> head_cur < n -> length (found t) < n_tokens ->
  find_loop (fuel + 1) k c u seq_id false n_tokens head_cur t (found t) =
    (if length (found (t + 1)) =? n_tokens then Ok (Some (found (t + 1))) else
     if n <=? t + 1 then Ok None else find_loop fuel k c u seq_id false n_tokens (head_cur + 1) (t + 1) (found (t + 1))) /\
  head_at (t + 1) (head_cur + 1).
Proof.
  intros Htn Hat Hlt Hlen. assert (ring h n !! t = Some head_cur) as Hr.
  { rewrite ring_lookup by lia. f_equal. unfold head_at in Hat. case_decide; lia. }
  split; [|unfold head_at in *; lia]. rewrite (found_step t head_cur Hr). rewrite Nat.add_1_r. simpl. rewrite Hn.
  rewrite (proj2 (Nat.ltb_ge n (head_cur + 1))) by lia. rewrite (ts_run _ _ _ _ _ _ Hf) by done. cbn [mbind outcome_bind].
  rewrite (Nat.add_1_r t). destruct (f head_cur); cbn [mbind outcome_bind]; rewrite ?app_nil_r; done.
Qed.

Lemma stop_found t : t <= n -> length (found t) = n_tokens -> search_result = Some (found t).
Proof.
  intros Htn Hl. unfold search_result. pose proof (found_prefix t Htn) as Hp.
  assert (length (found t) <= length (List.filter f (ring h n))) as Hle.
  { rewrite Hp, length_take. lia. }
  rewrite (proj2 (Nat.leb_le _ _)) by lia. by rewrite Hp, Hl at 1.
Qed.

Lemma find_loop_ok d t head_cur fuel : n - t = d -> t < n -> head_at t head_cur -> length (found t) < n_tokens ->
  2 * d <= fuel + (if head_cur <? n then 1 else 0) ->
  find_loop fuel k c u seq_id false n_tokens head_cur t (found t) = Ok search_result.
Proof.
  revert t head_cur fuel. induction d as [|d IH]; intros t head_cur fuel Hd Htn Hat Hlen Hfuel; [lia|].
  assert (forall head fuel, head_at t head -> head < n -> 2 * d + 1 <= fuel ->
    find_loop fuel k c u seq_id false n_tokens head t (found t) = Ok search_result) as Htest.
  { intros head fl Ha Hlt Hfl. replace fl with ((fl - 1) + 1) by lia. destruct (test_step t head (fl - 1) Htn Ha Hlt Hlen) as [-> Ha'].
    destruct (length (found (t + 1)) =? n_tokens) eqn:El; bprop; [by rewrite (stop_found (t + 1)) by lia|].
    assert (length (found (t + 1)) < n_tokens) as Hlen'.
    { assert (ring h n !! t = Some head) as Hr by (rewrite ring_lookup by lia; f_equal; unfold head_at in Ha; case_decide; lia).
      rewrite (found_step t head Hr), length_app in El |- *. destruct (f head); simpl in *; lia. }
    destruct (n <=? t + 1) eqn:En; bprop.
    - f_equal. unfold search_result. assert (t + 1 = n) as Etn by lia. unfold found in Hlen'. rewrite Etn, take_ge in Hlen' by (rewrite ring_length; lia).
      by rewrite (proj2 (Nat.leb_gt _ _)) by lia.
    - apply IH; [lia|lia|done|done|]. destruct (head + 1 <? n); lia. }
  destruct (head_cur <? n) eqn:E; bprop; [apply Htest; [done|done|lia]|].
  assert (head_cur = n) as -> by (unfold head_at in Hat; lia).
  replace fuel with ((fuel - 1) + 1) by lia. rewrite Nat.add_1_r. simpl. rewrite Hn, (proj2 (Nat.ltb_lt n (n + 1))) by lia.
  rewrite Nat.sub_diag, Nat.add_0_r. apply Htest; [unfold head_at in *; lia|lia|lia].
Qed.

Lemma elem_of_filter_b l i : i ∈ List.filter f l <-> i ∈ l /\ f i = true.
Proof. by rewrite list_elem_of_In, List.filter_In, <- list_elem_of_In. Qed.

Lemma NoDup_filter_b l : NoDup l -> NoDup (List.filter f l).
Proof. rewrite !NoDup_ListNoDup. apply List.NoDup_filter. Qed.

Lemma search_result_spec : match search_result with
  | Some slot => length slot = n_tokens /\ NoDup slot /\ forall i, i ∈ slot -> i < n /\ f i = true
  | None => length (List.filter f (seq 0 n)) < n_tokens
  end.
Proof.
  assert (Permutation (List.filter f (ring h n)) (List.filter f (seq 0 n))) as Hp.
  { apply NoDup_Permutation; [apply NoDup_filter_b, ring_NoDup|apply NoDup_filter_b, NoDup_seq|].
    intros i. rewrite !elem_of_filter_b, elem_of_ring, elem_of_seq by done. split; intros [? ?]; (split; [lia|done]). }
  unfold search_result. destruct (_ <=? _) eqn:E; bprop; [|by rewrite <- Hp].
  split; [rewrite length_take; lia|]. split.
  { pose proof (NoDup_filter_b _ (ring_NoDup h n)) as Hd. rewrite <- (take_drop n_tokens (List.filter f (ring h n))) in Hd.
    by apply NoDup_app in Hd as [Hd _]. }
  intros i Hi. apply elem_of_take in Hi as (j & Hi & _). apply list_elem_of_lookup_2 in Hi. apply elem_of_filter_b in Hi as [Hi Hfi].
  by rewrite elem_of_ring in Hi.
Qed.
End loop.

(** ** One stream *)

(** Number of cells the test accepts. *)
Definition n_usable (f : nat -> bool) (n : nat) : nat := length (List.filter f (seq 0 n)).

Definition good_cells (k : kv_cache) (c : kv_cells) (n nt : nat) (cells : list nat) : Prop :=
  length cells = nt /\ NoDup cells /\ forall i, i ∈ cells -> i < n /\ usable c i /\ (swa_type (k_cfg k) = SWA_TYPE_NONE -> abs_cells c !! i = None).

Lemma find_in_stream_ok n k u nt q st c : kv_wf n k -> swa_ok k -> allocation_group_size (k_alloc k) <= 1 -> v_cells k !! st = Some c -> 0 < nt ->
  exists r, find_in_stream k u false nt q st = Ok r /\
    match r with
    | Some cells => good_cells k c n nt cells
    | None => forall f, test_ok k c u q n f -> n_usable f n < nt
    end.
Proof.
  intros Hk Hs Hg Hst Hnt. pose proof (kw_cells n k Hk st c Hst) as Hc. pose proof (sm_size n c Hc) as Hsz.
  destruct (kw_heads n k Hk) as [Hlh Hfh]. destruct (lookup_lt_is_Some_2 (v_heads k) st) as [head Hhead].
  { rewrite Hlh, <- (kw_streams n k Hk). by eapply lookup_lt_Some. }
  pose proof (proj1 (Forall_lookup _ _) Hfh _ _ Hhead) as Hle. simpl in Hle.
  unfold find_in_stream, cells_of. rewrite (vec_get_Some _ _ _ Hst), (vec_get_Some _ _ _ Hhead). cbn [mbind outcome_bind]. rewrite Hsz.
  destruct (n <? nt) eqn:En; bprop.
  { exists None. split; [done|]. intros f _. unfold n_usable. pose proof (List.filter_length_le f (seq 0 n)). rewrite length_seq in *. lia. }
  destruct (test_ok_ex n k st c u q Hk Hs Hg Hst) as [f Hf]. set (h := if _ <? head then 0 else head).
  assert (h <= n) as Hh by (subst h; destruct (_ <? head); lia).
  pose proof (find_loop_ok k c u q n nt h f Hf Hsz Hh ltac:(lia) (n - 0) 0 h (2 * n + 2)) as Hrun.
  change (found n h f 0) with (@nil nat) in Hrun. simpl length in Hrun.
  rewrite Hrun; [|lia|lia|unfold head_at; lia|lia|destruct (h <? n); lia].
  exists (search_result n nt h f). split; [done|]. pose proof (search_result_spec c n nt h f Hsz Hh ltac:(lia)) as Hr.
  destruct (search_result n nt h f) as [cells|].
  - destruct Hr as (H1 & H2 & H3). split; [done|]. split; [done|]. intros i Hi. destruct (H3 i Hi) as [Hi' Hfi]. split; [done|]. split.
    + by eapply ts_usable.
    + intros Hn. by eapply ts_none.
  - intros g Hg'. unfold n_usable. erewrite List.filter_ext_in; [exact Hr|]. intros i Hi. apply list_elem_of_In, elem_of_seq in Hi.
    pose proof (ts_run _ _ _ _ _ _ Hf i 0 ltac:(lia)) as E1. pose proof (ts_run _ _ _ _ _ _ Hg' i 0 ltac:(lia)) as E2. congruence.
Qed.

(** ** All streams *)

(** A ubatch as the splits make it: [nt] tokens for every sequence set, one set per
    stream, each token of sequences of that stream. *)
Record ubatch_ok (u : llama_ubatch) (k : kv_cache) (nt : nat) (streams : list nat) : Prop := {
  uo_pos : 0 < nt /\ 0 < length streams;
  uo_count : length streams = if 1 <? n_stream (k_cfg k) then u_n_seqs_unq u else 1;
  uo_tokens : u_n_tokens u = length streams * nt;
  uo_streams : NoDup streams;
  uo_unq : forall s st, streams !! s = Some st -> exists q, u_seq_id_unq u !! s = Some q /\ seq_to_stream k !! q = Some st /\
    (1 < n_stream (k_cfg k) -> u_n_seq_id u !! (s * nt) = Some 1%Z /\ exists rest, u_seq_id u !! (s * nt) = Some (Z.of_nat q :: rest));
  uo_rows : forall s st ii, streams !! s = Some st -> ii < nt -> exists p ids, tok_ok u k (s * nt + ii) st p ids
}.

Lemma elem_of_rows_from size l : forall a i st idx, (i, st, idx) ∈ rows_from size a l ->
  exists s cells ii, l !! s = Some (st, cells) /\ cells !! ii = Some idx /\ i = (a + s) * size + ii.
Proof.
  induction l as [|[st' cells] l IH]; intros a i st idx H; simpl in H; [by apply not_elem_of_nil in H|].
  apply elem_of_app in H as [H|H].
  - apply elem_of_lookup_imap in H as (ii & x & [= -> -> ->] & Hx). exists 0, cells, ii. by rewrite Nat.add_0_r.
  - apply IH in H as (s & cells' & ii & H1 & H2 & ->). exists (Datatypes.S s), cells', ii. split; [done|]. split; [done|]. lia.
Qed.

Lemma NoDup_targets size l : forall a, NoDup l.*1 -> Forall (fun x : nat * list nat => NoDup x.2) l -> NoDup (target <$> rows_from size a l).
Proof.
  induction l as [|[st cells] l IH]; intros a H1 H2; simpl; [constructor|]. apply NoDup_cons in H1 as [Hni H1]. apply Forall_cons in H2 as [Hc H2].
  rewrite fmap_app. assert (target <$> imap (fun ii idx => (a * size + ii, st, idx)) cells = pair st <$> cells) as ->.
  { apply list_eq. intros j. rewrite !list_lookup_fmap, list_lookup_imap. by destruct (cells !! j). }
  apply NoDup_app. split; [|split; [|by apply IH]].
  - apply NoDup_fmap_2; [|done]. by intros x y [= ->].
  - intros [st' idx] Hx Hy. apply list_elem_of_fmap in Hx as (x & [= -> ->] & _).
    apply list_elem_of_fmap in Hy as ([[i st2] idx2] & [= -> ->] & Hy). apply elem_of_rows_from in Hy as (s & cells' & ii & Hs & _).
    apply Hni. simpl. apply list_elem_of_fmap. exists (st2, cells'). split; [done|]. by eapply list_elem_of_lookup_2.
Qed.

(** A stream without enough usable cells. *)
Definition short (n : nat) (u : llama_ubatch) (k : kv_cache) (nt : nat) (streams : list nat) : Prop :=
  exists s st q c, streams !! s = Some st /\ u_seq_id_unq u !! s = Some q /\ v_cells k !! st = Some c /\
    forall f, test_ok k c u q n f -> n_usable f n < nt.

(** What the loop has after the first [j] streams. *)
Record partial_slot (n : nat) (k : kv_cache) (nt : nat) (streams : list nat) (j : nat) (res : slot_info) : Prop := {
  ps_strm : strm res = take j streams;
  ps_len : length (idxs res) = j;
  ps_cells : forall s st cells c, strm res !! s = Some st -> idxs res !! s = Some cells -> v_cells k !! st = Some c -> good_cells k c n nt cells;
  ps_bounds : 0 < j -> s0 res <= s1 res
}.

Lemma find_streams_ok n u k nt streams : kv_wf n k -> swa_ok k -> allocation_group_size (k_alloc k) <= 1 -> ubatch_ok u k nt streams ->
  forall d j res, length streams = j + d -> partial_slot n k nt streams j res ->
  exists sinfo, find_streams k u false nt (seq j d) res = Ok sinfo /\
    (partial_slot n k nt streams (length streams) sinfo \/ sinfo = no_slot /\ short n u k nt streams).
Proof.
  intros Hk Hs Hg [[U1 U0] U2 U3 U4 U5 U6] d. induction d as [|d IH]; intros j res Hd [P1 P2 P3 P4]; simpl.
  - rewrite assert_true by (apply Nat.leb_le, P4; lia). exists res. split; [done|]. left. by rewrite Nat.add_0_r in Hd; subst j.
  - destruct (lookup_lt_is_Some_2 streams j) as [st Hst]; [lia|]. destruct (U5 j st Hst) as (q & Hq & Hm & Hfirst).
    rewrite (vec_get_Some _ _ _ Hq). cbn [mbind outcome_bind].
    assert ((if 1 <? n_stream (k_cfg k) then
             n ← vec_get (u_n_seq_id u) (j * nt);
             _ ← assert_ (n =? 1)%Z;
             ids ← vec_get (u_seq_id u) (j * nt);
             id ← vec_get ids 0;
             assert_ (id =? Z.of_nat q)%Z
           else Ok tt) = Ok tt) as ->.
    { destruct (1 <? n_stream (k_cfg k)) eqn:E; [|done]. bprop. destruct (Hfirst E) as (H1 & rest & H2).
      rewrite (vec_get_Some _ _ _ H1). simpl. rewrite (vec_get_Some _ _ _ H2). simpl. by rewrite Z.eqb_refl. }
    cbn [mbind outcome_bind]. rewrite (vec_get_Some _ _ _ Hm). cbn [mbind outcome_bind].
    pose proof (proj1 (Forall_lookup _ _) (kw_map n k Hk) _ _ Hm) as Hlt. simpl in Hlt.
    destruct (lookup_lt_is_Some_2 (v_cells k) st) as [c Hc]; [by rewrite (kw_streams n k Hk)|].
    destruct (find_in_stream_ok n k u nt q st c Hk Hs Hg Hc U1) as (r & -> & Hr). cbn [mbind outcome_bind]. destruct r as [cells|].
    + rewrite <- (Nat.add_1_r j). apply IH; [lia|]. split; simpl.
      * rewrite P1, Nat.add_1_r. by rewrite (take_S_r _ _ _ Hst).
      * rewrite length_app, P2. done.
      * intros s st' cells' c' H1 H2 H3. assert (length (strm res) = j) as Hl by (rewrite P1, length_take; lia).
        apply lookup_app_Some in H1 as [H1|[H1 H1']].
        -- apply lookup_app_Some in H2 as [H2|[H2 _]]; [by eapply P3|]. apply lookup_lt_Some in H1. lia.
        -- rewrite lookup_app_r in H2 by lia. assert (s = j) as -> by (apply lookup_lt_Some in H1'; simpl in H1'; lia).
           rewrite Hl, Nat.sub_diag in H1'. rewrite P2, Nat.sub_diag in H2. injection H1' as ->. injection H2 as ->. congruence.
      * intros _. lia.
    + exists no_slot. split; [done|]. right. split; [done|]. by exists j, st, q, c.
Qed.

(** ** The whole search *)

Lemma partial_slot_ok n u k nt streams sinfo : kv_wf n k -> ubatch_ok u k nt streams -> partial_slot n k nt streams (length streams) sinfo ->
  slot_ok n u k sinfo nt /\ strm sinfo = streams /\
  (swa_type (k_cfg k) = SWA_TYPE_NONE -> forall r, r ∈ slot_rows nt sinfo -> content_at (abs k) (target r) = None).
Proof.
  intros Hk [[U1 U0] U2 U3 U4 U5 U6] [P1 P2 P3 _]. rewrite firstn_all in P1.
  assert (forall s st cells, strm sinfo !! s = Some st -> idxs sinfo !! s = Some cells -> exists c, v_cells k !! st = Some c /\ good_cells k c n nt cells) as Hgood.
  { intros s st cells H1 H2. pose proof H1 as H1'. rewrite P1 in H1'. destruct (U5 s st H1') as (q & _ & Hm & _).
    pose proof (proj1 (Forall_lookup _ _) (kw_map n k Hk) _ _ Hm) as Hlt. simpl in Hlt.
    destruct (lookup_lt_is_Some_2 (v_cells k) st) as [c Hc]; [by rewrite (kw_streams n k Hk)|]. exists c. split; [done|]. by eapply P3. }
  assert (forall i st idx, (i, st, idx) ∈ slot_rows nt sinfo -> exists s ii c cells, i = s * nt + ii /\ ii < nt /\ streams !! s = Some st /\
    v_cells k !! st = Some c /\ good_cells k c n nt cells /\ idx ∈ cells) as Hrow.
  { intros i st idx H. apply elem_of_rows_from in H as (s & cells & ii & Hz & Hi & ->).
    apply lookup_zip_with_Some in Hz as (st' & cells' & [= <- <-] & H1 & H2). destruct (Hgood s st cells H1 H2) as (c & Hc & Hg).
    exists s, ii, c, cells. split; [done|]. split; [destruct Hg as [<- _]; by eapply lookup_lt_Some|]. split; [by rewrite <- P1|].
    split; [done|]. split; [done|]. by eapply list_elem_of_lookup_2. }
  split; [|split; [done|]].
  - split.
    + by rewrite P1, P2.
    + rewrite P1. done.
    + apply Forall_lookup. intros s cells Hc. destruct (lookup_lt_is_Some_2 (strm sinfo) s) as [st Hst].
      { rewrite P1, <- P2. by eapply lookup_lt_Some. }
      by destruct (Hgood s st cells Hst Hc) as (c & _ & [? _]).
    + by rewrite U3, P1.
    + by rewrite P1.
    + apply NoDup_targets.
      * rewrite fst_zip by (by rewrite P1, P2). by rewrite P1.
      * apply Forall_lookup. intros s [st cells] Hz. apply lookup_zip_with_Some in Hz as (st' & cells' & [= <- <-] & H1 & H2).
        by destruct (Hgood s st cells H1 H2) as (c & _ & _ & ? & _).
    + apply Forall_forall. intros [[i st] idx] H. destruct (Hrow i st idx H) as (s & ii & c & cells & -> & Hii & Hs & Hc & (_ & _ & Hg) & Hidx).
      destruct (Hg idx Hidx) as (Hlt & Hus & _). split; simpl; [done| | |by apply U6].
      * intros c' Hc'. rewrite Hc in Hc'. by injection Hc' as <-.
      * rewrite <- (kw_streams n k Hk). by eapply lookup_lt_Some.
  - intros Hn [[i st] idx] H. destruct (Hrow i st idx H) as (s & ii & c & cells & -> & Hii & Hs & Hc & (_ & _ & Hg) & Hidx).
    destruct (Hg idx Hidx) as (Hlt & _ & He). unfold content_at. simpl. rewrite (abs_stream k st c Hc). simpl. by apply He.
Qed.

Lemma find_slot_ok n u k nt streams : kv_wf n k -> swa_ok k -> allocation_group_size (k_alloc k) <= 1 -> ubatch_ok u k nt streams ->
  exists sinfo, find_slot u false k = (Ok sinfo, k) /\
    (partial_slot n k nt streams (length streams) sinfo \/ sinfo = no_slot /\ short n u k nt streams).
Proof.
  intros Hk Hs Hg Hu. pose proof Hu as [[U1 U0] U2 U3 U4 U5 U6].
  destruct (find_streams_ok n u k nt streams Hk Hs Hg Hu (length streams) 0 (mk_slot LLAMA_MAX_SEQ 0 [] [])) as (sinfo & E & Hr); [done| |].
  { split; simpl; try done. intros; lia. }
  exists sinfo. split; [|done]. unfold find_slot, mbind, stx_bind, stx_get. rewrite (proj2 (Nat.ltb_ge 1 _)) by lia. simpl. unfold gets. f_equal.
  unfold find_slot_generic. rewrite <- U2, U3.
  assert ((if 1 <? n_stream (k_cfg k) then _ ← require_ DivByZero (negb (u_n_seqs_unq u =? 0)); assert_ ((length streams * nt) mod u_n_seqs_unq u =? 0) else Ok tt) = Ok tt) as ->.
  { destruct (1 <? n_stream (k_cfg k)) eqn:E1; [|done]. rewrite <- U2. rewrite (proj2 (Nat.eqb_neq (length streams) 0)) by lia. simpl.
    rewrite (Nat.mul_comm _ nt), Nat.Div0.mod_mul. done. }
  cbn [mbind outcome_bind]. rewrite (Nat.mul_comm _ nt), Nat.div_mul by lia. exact E.
Qed.

(** C19: the cell-by-cell search for a ubatch always returns and changes nothing; it
    finds a slot unless some stream of the ubatch has fewer usable cells than the
    ubatch has tokens for it.  The slot has the ubatch's streams in order, its cells
    are pairwise distinct, in range and each empty or evictable with one owner (empty
    when there is no window), so that [apply_ubatch] can be given it. *)
Theorem find_slot_complete n u k nt streams : kv_wf n k -> swa_ok k -> allocation_group_size (k_alloc k) <= 1 -> ubatch_ok u k nt streams ->
  exists sinfo, find_slot u false k = (Ok sinfo, k) /\
    (slot_ok n u k sinfo nt /\ strm sinfo = streams /\
       (swa_type (k_cfg k) = SWA_TYPE_NONE -> forall r, r ∈ slot_rows nt sinfo -> content_at (abs k) (target r) = None)
     \/ sinfo = no_slot /\ short n u k nt streams).
Proof.
  intros Hk Hs Hg Hu. destruct (find_slot_ok n u k nt streams Hk Hs Hg Hu) as (sinfo & E & Hr). exists sinfo. split; [done|].
  destruct Hr as [Hr|Hr]; [left; by apply partial_slot_ok|by right].
Qed.

(** ** An instance *)

Lemma demo_swa_ok ns st : ns = 1 /\ st = 0 \/ ns = 4 /\ st = 3 -> swa_ok (demo_cache ns st).
Proof.
  intros Hc. split; [done|]. intros st' c i p S Hst Hi.
  assert (c = demo_cells \/ c = fresh_cells 4) as [->| ->].
  { unfold demo_cache, new_cache in Hst. rewrite new_cells in Hst. simpl in Hst.
    apply list_lookup_insert_Some in Hst as [(_ & -> & _)|[_ Hst]]; [by left|]. right. by apply lookup_replicate in Hst as [-> _]. }
  - by eapply demo_usable.
  - rewrite abs_fresh in Hi. by rewrite lookup_empty in Hi.
Qed.

(** Streams 0 and 3, one token each. *)
Definition demo_ubatch4 : llama_ubatch :=
  mk_ubatch true 2 1 2 2 1 None None [0%Z; 10%Z] [1%Z; 1%Z] [[0%Z]; [3%Z]] [0; 3] [] [].

Lemma demo_ubatch4_ok : ubatch_ok demo_ubatch4 (demo_cache 4 3) 1 [0; 3].
Proof.
  split; simpl; try done.
  - lia.
  - apply (bool_decide_unpack _). vm_compute. exact I.
  - intros [|[|s]] st H; [| |done]; injection H as <-; eexists; (split; [done|]); (split; [done|]); intros _; (split; [done|]); by eexists.
  - intros [|[|s]] st [|ii] H Hlt; try done; try lia; injection H as <-.
    + exists 0%Z, [0%Z]. split; try done; [by apply NoDup_singleton|constructor; [|done]; split; [simpl; lia|done]].
    + exists 10%Z, [3%Z]. split; try done; [by apply NoDup_singleton|constructor; [|done]; split; [simpl; lia|done]].
Qed.

Lemma find_slot_complete_witness : exists sinfo,
  find_slot demo_ubatch4 false (demo_cache 4 3) = (Ok sinfo, demo_cache 4 3) /\ sinfo = mk_slot 0 3 [0; 3] [[0]; [0]] /\
  slot_ok 4 demo_ubatch4 (demo_cache 4 3) sinfo 1.
Proof.
  assert (kv_wf 4 (demo_cache 4 3)) as Hk by (apply demo_cache_wf; by right).
  assert (swa_ok (demo_cache 4 3)) as Hs by (apply demo_swa_ok; by right).
  destruct (find_slot_complete 4 demo_ubatch4 (demo_cache 4 3) 1 [0; 3] Hk Hs (le_n 1) demo_ubatch4_ok) as (sinfo & E & Hr).
  assert ((find_slot demo_ubatch4 false (demo_cache 4 3)).1 = Ok (mk_slot 0 3 [0; 3] [[0]; [0]])) as E1 by (vm_compute; reflexivity).
  rewrite E in E1. simpl in E1. injection E1 as E1. exists sinfo. split; [exact E|]. split; [exact E1|].
  destruct Hr as [(Hok & _)|(He & _)]; [exact Hok|]. rewrite He in E1. discriminate E1.
Defined.
