(* ===== verification/KvPrepare.v ===== *)
(** * Preparing a batch is a dry run

    [prepare] places every ubatch in turn to find its slot and undoes all of it: the
    cells come back exactly, and the slots it returns never share a cell. *)

From S2P Require Import KvCells TailStore Batch BatchInit.
From S2P Require Export KvFind.
Open Scope nat_scope.

(** ** Saving and restoring one slot *)

Lemma stream_cells size sinfo s st cells : length (idxs sinfo) = length (strm sinfo) -> NoDup (target <$> slot_rows size sinfo) ->
  strm sinfo !! s = Some st -> idxs sinfo !! s = Some cells ->
  forall idx, idx ∈ cells -> (st, idx) ∈ target <$> slot_rows size sinfo.
Proof.
  intros L _ H1 H2 idx Hi. apply list_elem_of_lookup in Hi as [ii Hi]. apply list_elem_of_fmap.
  exists (s * size + ii, st, idx). split; [done|]. by eapply slot_rows_row.
Qed.

(** A stream of the slot has its own row set. *)
Lemma stream_cells_inv n u k size sinfo s st cells idx : slot_ok n u k sinfo size ->
  strm sinfo !! s = Some st -> idxs sinfo !! s = Some cells -> (st, idx) ∈ target <$> slot_rows size sinfo -> idx ∈ cells.
Proof.
  intros [L _ _ _ Hnd _ _] H1 H2 H. apply list_elem_of_fmap in H as ([[i st'] idx'] & [= <- <-] & H).
  apply elem_of_rows_from in H as (s' & cells' & ii & Hz & Hi & _). apply lookup_zip_with_Some in Hz as (st2 & c2 & [= <- <-] & H3 & H4).
  assert (s' = s) as -> by (by eapply NoDup_lookup). rewrite H2 in H4. injection H4 as <-. by eapply list_elem_of_lookup_2.
Qed.

Lemma NoDup_stream_cells size l : forall a s st cells, NoDup (target <$> rows_from size a l) -> l !! s = Some (st, cells) -> NoDup cells.
Proof.
  induction l as [|[st' cells'] l IH]; intros a s st cells Hnd Hs; [done|]. simpl in Hnd. rewrite fmap_app in Hnd.
  apply NoDup_app in Hnd as (H1 & _ & H2). destruct s as [|s]; [|by eapply IH]. injection Hs as -> ->.
  assert (target <$> imap (fun ii idx => (a * size + ii, st, idx)) cells = pair st <$> cells) as E.
  { apply list_eq. intros j. rewrite !list_lookup_fmap, list_lookup_imap. by destruct (cells !! j). }
  rewrite E in H1. by apply NoDup_fmap_1 in H1.
Qed.

(** What is saved. *)
Definition saved_ok (sinfo : slot_info) (k : kv_cache) (saved : list kv_cells) : Prop :=
  length saved = length (strm sinfo) /\ forall s st cells c, strm sinfo !! s = Some st -> idxs sinfo !! s = Some cells -> v_cells k !! st = Some c ->
    exists sv, saved !! s = Some sv /\ cp_idxs cells c = Ok sv.

(** The cells of a slot are free. *)
Definition slot_free (size : nat) (sinfo : slot_info) (k : kv_cache) : Prop :=
  forall r, r ∈ slot_rows size sinfo -> content_at (abs k) (target r) = None.

Lemma free_shift n k st c idx : kv_wf n k -> v_cells k !! st = Some c -> idx < n -> content_at (abs k) (st, idx) = None ->
  abs_cells c !! idx = None /\ idx < cells_size c /\ c_shift c !! idx = Some 0%Z.
Proof.
  intros Hk Hst Hidx He. unfold content_at in He. simpl in He. rewrite (abs_stream k st c Hst) in He. simpl in He.
  pose proof (kw_cells n k Hk st c Hst) as Hc. split; [done|]. split; [by rewrite (sm_size n c Hc)|].
  destruct (stream_cell n c idx Hc Hidx) as (p & S & sh & e & Hcell). rewrite (abs_cell _ _ _ _ _ _ Hcell) in He.
  destruct (p =? -1)%Z eqn:E; [|done]. bprop. subst p. destruct Hcell as (Hp & _). by apply (wf_free c (sm_wf n c Hc)).
Qed.

Lemma slot_cell_free n u k sinfo size s st cells c : kv_wf n k -> slot_ok n u k sinfo size -> slot_free size sinfo k ->
  strm sinfo !! s = Some st -> idxs sinfo !! s = Some cells -> v_cells k !! st = Some c ->
  NoDup cells /\ forall i, i ∈ cells -> abs_cells c !! i = None /\ i < cells_size c /\ c_shift c !! i = Some 0%Z.
Proof.
  intros Hk Hslot Hfree H1 H2 Hc. pose proof Hslot as [L _ _ _ _ Hnd Hrows]. split.
  - eapply (NoDup_stream_cells size (zip (strm sinfo) (idxs sinfo)) 0 s st); [done|]. by rewrite lookup_zip_with, H1, H2.
  - intros i Hi. apply list_elem_of_lookup in Hi as [ii Hi]. pose proof (slot_rows_row size sinfo s st cells ii i L H1 H2 Hi) as Hr.
    rewrite Forall_forall in Hrows. destruct (Hrows _ Hr) as [Hlt _ _ _]. by apply (free_shift n k st c i Hk Hc Hlt), (Hfree _ Hr).
Qed.

Lemma save_streams_ok n u k sinfo size : kv_wf n k -> slot_ok n u k sinfo size -> slot_free size sinfo k ->
  exists saved, save_streams sinfo k = Ok saved /\ saved_ok sinfo k saved.
Proof.
  intros Hk Hslot Hfree. unfold save_streams, slot_n_stream.
  pose proof Hslot as [L _ _ _ _ _ Hrows].
  destruct (foldM_seq (fun saved s => st ← vec_get (strm sinfo) s; cells ← vec_get (idxs sinfo) s; c ← cells_of st k; sv ← cp_idxs cells c; Ok (saved ++ [sv]))
    (fun j (saved : list kv_cells) => length saved = j /\ forall s st cells c, s < j -> strm sinfo !! s = Some st -> idxs sinfo !! s = Some cells ->
      v_cells k !! st = Some c -> exists sv, saved !! s = Some sv /\ cp_idxs cells c = Ok sv) 0 (length (strm sinfo)) []) as (saved & E & Hl & Hs).
  - split; [done|]. intros; lia.
  - intros j saved Hj [Hl Hs]. destruct (lookup_lt_is_Some_2 (strm sinfo) j) as [st Hst]; [lia|].
    destruct (lookup_lt_is_Some_2 (idxs sinfo) j) as [cells Hc]; [lia|].
    assert (exists c, v_cells k !! st = Some c) as [c Hcc].
    { destruct cells as [|i0 cells0] eqn:Ec.
      - destruct Hslot as [_ [_ Hsz] F _ _ _ _]. rewrite Forall_lookup in F. specialize (F _ _ Hc). simpl in F. lia.
      - pose proof (slot_rows_row size sinfo j st _ 0 i0 L Hst Hc eq_refl) as Hr. rewrite Forall_forall in Hrows.
        destruct (Hrows _ Hr) as [_ _ Hs' _]. simpl in Hs'. apply lookup_lt_is_Some_2. by rewrite (kw_streams n k Hk). }
    destruct (slot_cell_free n u k sinfo size j st cells c Hk Hslot Hfree Hst Hc Hcc) as [_ Hin].
    destruct (cp_idxs_spec c cells) as (sv & Esv & _); [apply (kw_cells n k Hk _ _ Hcc)|intros i Hi; by apply Hin|].
    rewrite (vec_get_Some _ _ _ Hst), (vec_get_Some _ _ _ Hc). cbn [mbind outcome_bind]. unfold cells_of.
    rewrite (vec_get_Some _ _ _ Hcc). cbn [mbind outcome_bind]. rewrite Esv. cbn [mbind outcome_bind].
    eexists. split; [done|]. split; [rewrite length_app; simpl; lia|].
    intros s st' cells' c' Hlt H1 H2 H3. destruct (decide (s = j)) as [->|Hne].
    + rewrite Hst in H1. injection H1 as <-. rewrite Hc in H2. injection H2 as <-. rewrite Hcc in H3. injection H3 as <-.
      exists sv. split; [|done]. by rewrite lookup_app_r, Hl, Nat.sub_diag by lia.
    + destruct (Hs s st' cells' c') as (sv' & G1 & G2); try done; [lia|]. exists sv'. split; [|done]. by apply lookup_app_l_Some.
  - exists saved. split; [exact E|]. split; [done|]. intros s st cells c H1. apply Hs; [|done]. apply lookup_lt_Some in H1. lia.
Qed.

(** Only cells and heads differ; the heads stay in range. *)
Definition reheaded (n : nat) (k k' : kv_cache) : Prop := exists cells heads, k' = set_heads heads (set_cells cells k) /\
  length heads = length (v_heads k) /\ (Forall (fun h => h <= n) (v_heads k) -> Forall (fun h => h <= n) heads).

Lemma reheaded_trans n k1 k2 k3 : reheaded n k1 k2 -> reheaded n k2 k3 -> reheaded n k1 k3.
Proof.
  intros (c1 & h1 & -> & H1 & F1) (c2 & h2 & -> & H2 & F2). exists c2, h2. simpl in *. split; [done|]. split; [congruence|]. auto.
Qed.

Lemma reheaded_refl n k : reheaded n k k.
Proof. exists (v_cells k), (v_heads k). by destruct k. Qed.

Lemma slot_streams n u k sinfo size : slot_ok n u k sinfo size ->
  Forall (fun st => st < n_stream (k_cfg k)) (strm sinfo) /\ length (strm sinfo) <= n_stream (k_cfg k).
Proof.
  intros [L [S1 S2] F _ Hnd _ Hrows].
  assert (Forall (fun st => st < n_stream (k_cfg k)) (strm sinfo)) as Hf.
  { apply Forall_lookup. intros s st Hst. destruct (lookup_lt_is_Some_2 (idxs sinfo) s) as [cells Hc]; [rewrite L; by eapply lookup_lt_Some|].
    rewrite Forall_lookup in F. pose proof (F _ _ Hc) as Hl. simpl in Hl. destruct (lookup_lt_is_Some_2 cells 0) as [i Hi]; [lia|].
    pose proof (slot_rows_row size sinfo s st cells 0 i L Hst Hc Hi) as Hr. rewrite Forall_forall in Hrows. by destruct (Hrows _ Hr). }
  split; [done|]. rewrite <- (length_seq (n_stream (k_cfg k)) 0). apply submseteq_length, NoDup_submseteq; [done|].
  intros st Hst. rewrite Forall_forall in Hf. apply elem_of_seq. specialize (Hf st Hst). lia.
Qed.

(** One stream of the slot is restored. *)
Lemma restore_cells n u k k1 sinfo size s st cells c c1 sv : kv_wf n k -> kv_wf n k1 -> slot_ok n u k sinfo size -> slot_free size sinfo k ->
  streams_same (slot_rows size sinfo) k k1 -> strm sinfo !! s = Some st -> idxs sinfo !! s = Some cells ->
  v_cells k !! st = Some c -> v_cells k1 !! st = Some c1 -> cp_idxs cells c = Ok sv -> set_idxs cells sv c1 = Ok c.
Proof.
  intros Hk Hk1 Hslot Hfree Hsame H1 H2 Hc Hc1 Hsv. destruct (Hsame st c Hc) as (c1' & Hc1' & O1 & O2 & _).
  rewrite Hc1 in Hc1'. injection Hc1' as <-. destruct (slot_cell_free n u k sinfo size s st cells c Hk Hslot Hfree H1 H2 Hc) as [Hnd Hin].
  assert (forall j, (st, j) ∈ target <$> slot_rows size sinfo -> j ∈ cells) as Hback by (intros j; by eapply stream_cells_inv).
  destruct O2 as [O2 O3]; [intros j Hj; apply Hin; by apply Hback|].
  apply (cp_set_idxs_restores c c1 cells sv); try done.
  - apply (kw_cells n k Hk _ _ Hc).
  - apply (kw_cells n k1 Hk1 _ _ Hc1).
  - intros i Hi. by apply Hin.
  - by rewrite (sm_size n c (kw_cells n k Hk _ _ Hc)), (sm_size n c1 (kw_cells n k1 Hk1 _ _ Hc1)).
  - intros i Hi. assert (cell_at c1 i = cell_at c i) as E by (apply O1; intros H; apply Hi; by apply Hback).
    unfold cell_at in E. by injection E as -> -> _ ->.
Qed.

(** The cells of [k] for the first [j] streams of the slot, of [k1] for the others. *)
Definition half_restored (sinfo : slot_info) (k k1 : kv_cache) (j : nat) (k' : kv_cache) : Prop :=
  length (v_cells k') = length (v_cells k) /\ forall st, v_cells k' !! st = if decide (st ∈ take j (strm sinfo)) then v_cells k !! st else v_cells k1 !! st.

(** Restoring what was saved in [k] gives its cells back. *)
Lemma wp_restore n u k k1 kx sinfo size saved : kv_wf n k -> kv_wf n k1 -> slot_ok n u k sinfo size -> slot_free size sinfo k -> saved_ok sinfo k saved ->
  streams_same (slot_rows size sinfo) k k1 -> length (v_cells k1) = length (v_cells k) -> v_cells kx = v_cells k1 -> length (v_heads kx) = length (v_heads k) ->
  wp (forX (restore_stream (mk_saved_state sinfo (v_heads k) saved)) (seq 0 (slot_n_stream sinfo)))
    (fun _ k' => v_cells k' = v_cells k /\ reheaded n kx k' /\ (n_stream (k_cfg k) = 1 -> v_heads k' = v_heads k)) kx.
Proof.
  intros Hk Hk1 Hslot Hfree [Hls Hsaved] Hsame Hlen Hcx Hhx. pose proof Hslot as [L [S1 _] _ _ Hnd _ _].
  destruct (slot_streams _ _ _ _ _ Hslot) as [Hf Hle]. destruct (kw_heads n k Hk) as [Hlh _]. pose proof (kw_streams n k Hk) as Hlc.
  apply (wp_forX (fun rest k' => exists j, rest = seq j (slot_n_stream sinfo - j) /\ j <= slot_n_stream sinfo /\ reheaded n kx k' /\
    half_restored sinfo k k1 j k' /\ (n_stream (k_cfg k) = 1 -> 0 < j -> v_heads k' = v_heads k))).
  - exists 0. rewrite Nat.sub_0_r. split; [done|]. split; [lia|]. split; [apply reheaded_refl|]. split; [|lia].
    split; [congruence|]. intros st. by rewrite Hcx.
  - intros s rest k2 _ (j & Er & Hj & Hr & [Hl2 Hh] & Hv). destruct (slot_n_stream sinfo - j) as [|d] eqn:Ed; [done|]. simpl in Er. injection Er as -> ->.
    unfold slot_n_stream in *. destruct (lookup_lt_is_Some_2 (strm sinfo) j) as [st Hst]; [lia|].
    destruct (lookup_lt_is_Some_2 (idxs sinfo) j) as [cells Hc]; [lia|].
    pose proof (proj1 (Forall_lookup _ _) Hf _ _ Hst) as Hlt. simpl in Hlt.
    destruct (lookup_lt_is_Some_2 (v_cells k) st) as [c Hcc]; [lia|]. destruct (lookup_lt_is_Some_2 (v_cells k1) st) as [c1 Hc1]; [lia|].
    destruct (Hsaved j st cells c Hst Hc Hcc) as (sv & Hsv & Ecp).
    assert (st ∉ take j (strm sinfo)) as Hni.
    { intros Hin. apply elem_of_take in Hin as (j' & Hj' & Hlt'). pose proof (NoDup_lookup _ _ _ _ Hnd Hj' Hst). lia. }
    assert (v_cells k2 !! st = Some c1) as Hc2 by (by rewrite Hh, decide_False).
    pose proof (restore_cells n u k k1 sinfo size j st cells c c1 sv Hk Hk1 Hslot Hfree Hsame Hst Hc Hcc Hc1 Ecp) as Eset.
    unfold restore_stream. cbn [sv_sinfo sv_cells sv_heads_old].
    apply wp_bind, (wp_lift _ st); [by apply vec_get_Some|]. apply wp_bind, (wp_lift _ cells); [by apply vec_get_Some|].
    apply wp_bind, (wp_lift _ sv); [by apply vec_get_Some|]. apply wp_bind. unfold wp at 1, on_cells. rewrite Hc2, Eset. cbn [mbind outcome_bind].
    destruct (lookup_lt_is_Some_2 (v_heads k) j) as [h Hh0]; [lia|]. apply wp_bind, (wp_lift _ h); [by apply vec_get_Some|].
    assert (length (v_heads k2) = length (v_heads k)) as Hlh2 by (destruct Hr as (? & ? & -> & Hr & _); simpl in *; congruence).
    destruct (lookup_lt_is_Some_2 (v_heads k2) st) as [h2 Hh2]; [lia|].
    unfold wp, on_head. cbn [v_heads set_cells]. rewrite Hh2. exists (j + 1).
    split; [rewrite Nat.add_1_r; f_equal; lia|]. split; [lia|]. split; [|split; [split|]].
    + eapply reheaded_trans; [exact Hr|]. exists (<[st := c]> (v_cells k2)), (<[st := h]> (v_heads k2)). split; [done|].
      split; [by rewrite length_insert|]. intros HF. apply Forall_insert; [done|]. destruct (kw_heads n k Hk) as [_ Hfh].
      by apply (proj1 (Forall_lookup _ _) Hfh j h).
    + simpl. by rewrite length_insert.
    + intros st'. simpl. rewrite Nat.add_1_r, (take_S_r _ _ _ Hst). rewrite list_lookup_insert. destruct (decide (st = st')) as [<-|Hne].
      * rewrite !decide_True; [done|set_solver|split; [done|lia]].
      * rewrite decide_False by (by intros [??]). rewrite Hh. destruct (decide (st' ∈ take j (strm sinfo))) as [Hin|Hin].
        -- rewrite decide_True by set_solver. done.
        -- rewrite decide_False by set_solver. done.
    + intros Hn _. simpl. assert (j = 0) as -> by lia. assert (st = 0) as -> by lia.
      rewrite Hn in Hlh. destruct (v_heads k) as [|h' [|]]; try discriminate Hlh. injection Hh0 as ->.
      destruct (v_heads k2) as [|h3 [|]]; try discriminate Hlh2. done.
  - intros k' (j & Er & Hj & Hr & [Hl2 Hh] & Hv). assert (j = slot_n_stream sinfo) as ->.
    { destruct (slot_n_stream sinfo - j) eqn:E; [lia|done]. }
    unfold slot_n_stream in Hh, Hv. rewrite firstn_all in Hh. split; [|split; [done|intros Hn; by apply Hv]].
    apply list_eq. intros st. rewrite Hh. destruct (decide (st ∈ strm sinfo)) as [Hin|Hin]; [done|].
    destruct (v_cells k !! st) as [c|] eqn:Hc.
    + destruct (Hsame st c Hc) as (c1 & Hc1 & _ & _ & O3). rewrite Hc1. f_equal. apply O3.
      intros i Hi. apply Hin. apply list_elem_of_fmap in Hi as ([[a st'] idx'] & [= <- <-] & Hi).
      apply elem_of_rows_from in Hi as (s & cells & ii & Hz & _). apply lookup_zip_with_Some in Hz as (st2 & c2 & [= <- <-] & H3 & _).
      by eapply list_elem_of_lookup_2.
    + apply lookup_ge_None in Hc. apply lookup_ge_None. lia.
Qed.

(** ** Contents after a placement *)

Lemma content_alter A st idx x y : content_at (alter (fun m : amap => <[idx := x]> m) st A) y =
  if decide (y = (st, idx)) then (if decide (st < length A) then Some x else None) else content_at A y.
Proof.
  destruct y as [st' idx']. unfold content_at. simpl. rewrite list_lookup_alter. destruct (decide (st = st')) as [<-|Hne].
  - destruct (A !! st) as [m|] eqn:E; simpl.
    + destruct (decide (idx' = idx)) as [->|Hi].
      * rewrite !decide_True; [by rewrite lookup_insert_eq|by eapply lookup_lt_Some|done].
      * rewrite decide_False by (intros [= ?]; congruence). by rewrite lookup_insert_ne.
    + apply lookup_ge_None in E. case_decide; [|done]. by rewrite decide_False by lia.
  - rewrite decide_False by (intros [= ??]; congruence). done.
Qed.

Lemma length_spec_place u rows A : length (spec_place u rows A) = length A.
Proof.
  unfold spec_place. revert A. induction rows as [|r rows IH]; intros A; simpl; [done|]. rewrite IH. apply length_alter.
Qed.

Lemma spec_place_snoc u rows r A : spec_place u (rows ++ [r]) A = alter (fun m : amap => <[r.2 := token_content u r.1.1]> m) r.1.2 (spec_place u rows A).
Proof. unfold spec_place. by rewrite foldl_snoc. Qed.

(** A cell of the rows has the content of its token, the others are as before. *)
Lemma spec_place_at u rows A x : (forall r, r ∈ rows -> r.1.2 < length A) ->
  if decide (x ∈ target <$> rows) then exists r, r ∈ rows /\ target r = x /\ content_at (spec_place u rows A) x = Some (token_content u r.1.1)
  else content_at (spec_place u rows A) x = content_at A x.
Proof.
  induction rows as [|r rows IH] using rev_ind; intros Hlt; [done|].
  rewrite spec_place_snoc, content_alter, length_spec_place.
  specialize (IH (fun r' H => Hlt r' ltac:(set_solver))). pose proof (Hlt r ltac:(set_solver)) as Hr.
  assert (x ∈ target <$> (rows ++ [r]) <-> x ∈ target <$> rows \/ x = target r) as Hin by (rewrite fmap_app; simpl; set_solver).
  destruct (decide (x = (r.1.2, r.2))) as [Hx|Hx].
  - rewrite decide_True by (apply Hin; by right). exists r. split; [set_solver|]. split; [by rewrite Hx|]. by rewrite decide_True.
  - destruct (decide (x ∈ target <$> rows)) as [Hd|Hd].
    + rewrite decide_True by (apply Hin; by left). destruct IH as (r' & Hr' & Et & E). exists r'. split; [set_solver|done].
    + rewrite decide_False; [done|]. rewrite Hin. intros [?|?]; [done|]. by apply Hx.
Qed.

(** ** The loop *)

(** The stream and cell of every row of a slot. *)
Definition slot_targets (sinfo : slot_info) : list (nat * nat) :=
  concat (zip_with (fun st cells => pair st <$> cells) (strm sinfo) (idxs sinfo)).

Lemma slot_targets_rows size sinfo : target <$> slot_rows size sinfo = slot_targets sinfo.
Proof.
  unfold slot_targets, slot_rows. generalize 0. generalize (idxs sinfo). induction (strm sinfo) as [|st l IH]; intros [|cells l'] a; try done.
  simpl. rewrite fmap_app, IH. f_equal. apply list_eq. intros j. rewrite !list_lookup_fmap, list_lookup_imap. by destruct (cells !! j).
Qed.

(** A ubatch of the batch; its positions leave room for a next one. *)
Definition prepared_ok (k : kv_cache) (u : llama_ubatch) : Prop :=
  (exists nt streams, ubatch_ok u k nt streams) /\ forall i p, u_pos u !! i = Some p -> (p < INT32_MAX)%Z.

(** The caches [prepare] works on here. *)
Record plain (n : nat) (k : kv_cache) : Prop := {
  pn_wf : kv_wf n k;
  pn_own : other (k_cfg k) = None;
  pn_swa : swa_type (k_cfg k) = SWA_TYPE_NONE;
  pn_below : swa_ok k;
  pn_flat : allocation_group_size (k_alloc k) <= 1
}.

(** The state after some placements. *)
Definition moved (k k' : kv_cache) : Prop := exists heads k1, framed k k1 /\ k' = set_heads heads k1 /\ length heads = length (v_heads k).

Lemma moved_refl k : moved k k.
Proof. exists (v_heads k), k. split; [apply framed_refl|]. by destruct k. Qed.

Lemma moved_trans k1 k2 k3 : moved k1 k2 -> moved k2 k3 -> moved k1 k3.
Proof.
  intros (h1 & ? & (c1 & a1 & ->) & -> & L1) (h2 & ? & (c2 & a2 & ->) & -> & L2). simpl in L2.
  eexists h2, _. split; [by exists c2, a2|]. split; [done|congruence].
Qed.

Lemma moved_cfg k k' : moved k k' -> k_cfg k' = k_cfg k /\ seq_to_stream k' = seq_to_stream k /\ k_tail k' = k_tail k /\
  allocation_group_size (k_alloc k') = allocation_group_size (k_alloc k).
Proof. by intros (h1 & ? & (c1 & a1 & ->) & -> & _). Qed.

Lemma ubatch_ok_same k k' u nt streams : k_cfg k' = k_cfg k -> seq_to_stream k' = seq_to_stream k -> ubatch_ok u k nt streams -> ubatch_ok u k' nt streams.
Proof.
  intros E1 E2 []. split; rewrite ?E1, ?E2; try done. intros s st ii H1 H2. destruct (uo_rows s st ii H1 H2) as (p & ids & []).
  exists p, ids. by split; rewrite ?E1, ?E2.
Qed.

Lemma prepared_same k k' u : moved k k' -> prepared_ok k u -> prepared_ok k' u.
Proof.
  intros (E1 & E2 & _)%moved_cfg [(nt & streams & H) Hp]. split; [|done]. exists nt, streams. by eapply ubatch_ok_same.
Qed.

Lemma content_abs k st idx c : v_cells k !! st = Some c -> content_at (abs k) (st, idx) = abs_cells c !! idx.
Proof. intros H. unfold content_at. simpl. by rewrite (abs_stream k st c H). Qed.

Lemma content_cells k st idx x : content_at (abs k) (st, idx) = Some x -> exists c, v_cells k !! st = Some c /\ abs_cells c !! idx = Some x.
Proof.
  unfold content_at, abs. simpl. rewrite list_lookup_fmap. destruct (v_cells k !! st) as [c|]; [|done]. simpl. intros H. by exists c.
Qed.

Lemma plain_placed n u sinfo size k k' : plain n k -> prepared_ok k u -> slot_ok n u k sinfo size -> placed_empty n u sinfo size k k' -> moved k k' -> plain n k'.
Proof.
  intros [H1 H2 H3 [H4 H4'] H5] [_ Hp] Hslot [P1 _ P3 _] Hm. destruct (moved_cfg _ _ Hm) as (E1 & E2 & _ & E4).
  split; rewrite ?E1, ?E4; try done. split; rewrite ?E1; [done|]. intros st c i p S Hc Hi.
  assert (forall r, r ∈ slot_rows size sinfo -> r.1.2 < length (abs k)) as Hlt.
  { intros r Hr. destruct Hslot as [_ _ _ _ _ _ Hrows]. rewrite Forall_forall in Hrows. destruct (Hrows r Hr) as [_ _ Hs _].
    unfold abs. rewrite length_fmap, (kw_streams n k H1). done. }
  rewrite <- (content_abs k' st i c Hc), P3 in Hi. pose proof (spec_place_at u _ (abs k) (st, i) Hlt) as Hat.
  destruct (decide _) as [Hd|Hd].
  - destruct Hat as (r & _ & _ & E). rewrite Hi in E. injection E as -> _. destruct (u_pos u !! r.1.1) as [q|] eqn:Eq; simpl; [by eapply Hp|unfold INT32_MAX; lia].
  - rewrite Hat in Hi. apply content_cells in Hi as (c0 & Hc0 & Hi). by eapply H4'.
Qed.

Lemma restore_states_app l1 l2 k : restore_states (l1 ++ l2) k = (restore_states l1;; restore_states l2) k.
Proof.
  revert k. induction l1 as [|x l1 IH]; intros k; simpl; [done|]. unfold mbind, stx_bind in *.
  destruct (forX _ _ k) as [[[]|e] k1]; [|done]. apply IH.
Qed.

(** A slot whose cells are free in another state is a slot there too. *)
Lemma slot_ok_same n u k k' sinfo size : k_cfg k' = k_cfg k -> seq_to_stream k' = seq_to_stream k -> kv_wf n k' ->
  (forall r, r ∈ slot_rows size sinfo -> content_at (abs k') (target r) = None) -> slot_ok n u k sinfo size -> slot_ok n u k' sinfo size.
Proof.
  intros E1 E2 Hk' Hfree []. split; try done. apply Forall_forall. intros r Hr. rewrite Forall_forall in so_rows. destruct (so_rows r Hr) as [R1 _ R3 (p & ids & [])].
  split; [done| |by rewrite E1|exists p, ids; by split; rewrite ?E1, ?E2]. intros c Hc p0 T Hi. exfalso.
  specialize (Hfree r Hr). unfold target in Hfree. rewrite (content_abs k' r.1.2 r.2 c Hc) in Hfree. congruence.
Qed.

(** What the loop over the ubatches ends with, from [k]. *)
Record loop_done (n : nat) (k : kv_cache) (ubatches : list llama_ubatch) (ok : bool) (res : list slot_info) (states : list saved_state) (k' : kv_cache) : Prop := {
  ld_wf : kv_wf n k';
  ld_moved : moved k k';
  ld_count : length res = length states /\ if ok then length res = length ubatches else length res < length ubatches;
  ld_disjoint : NoDup (concat (slot_targets <$> res));
  ld_free : forall x, x ∈ concat (slot_targets <$> res) -> content_at (abs k) x = None;
  ld_slots : ok = true -> Forall2 (fun u sinfo => exists nt, slot_ok n u k sinfo nt) ubatches res;
  ld_restore : forall kx, v_cells kx = v_cells k' -> length (v_heads kx) = length (v_heads k) ->
    wp (restore_states (rev states)) (fun _ k'' => v_cells k'' = v_cells k /\ reheaded n kx k'' /\
      (n_stream (k_cfg k) = 1 -> v_heads kx = v_heads k' -> v_heads k'' = v_heads k)) kx
}.

Lemma loop_done_nil n k ubatches (ok : bool) : kv_wf n k -> (if ok then ubatches = [] else ubatches <> []) -> loop_done n k ubatches ok [] [] k.
Proof.
  intros Hk Hu. split; [done|apply moved_refl| | | | |].
  - split; [done|]. destruct ok; [by rewrite Hu|]. destruct ubatches; [done|]. simpl. lia.
  - constructor.
  - intros x H. by apply not_elem_of_nil in H.
  - intros ->. by rewrite Hu.
  - intros kx Hc Hh. apply wp_ret. split; [done|]. split; [apply reheaded_refl|auto].
Qed.

Lemma concat_targets nt (res : list slot_info) i sinfo r : res !! i = Some sinfo -> r ∈ slot_rows nt sinfo -> target r ∈ concat (slot_targets <$> res).
Proof.
  intros Hi Hr. apply list_elem_of_In, List.in_concat. exists (slot_targets sinfo).
  split; [by apply list_elem_of_In, list_elem_of_fmap_2, (list_elem_of_lookup_2 _ i)|]. rewrite <- (slot_targets_rows nt).
  by apply list_elem_of_In, list_elem_of_fmap_2.
Qed.

Lemma loop_done_cons n k u sinfo size saved k1 ubatches ok res states k' : plain n k -> slot_ok n u k sinfo size -> slot_free size sinfo k ->
  saved_ok sinfo k saved -> placed_empty n u sinfo size k k1 -> moved k k1 -> loop_done n k1 ubatches ok res states k' ->
  loop_done n k (u :: ubatches) ok (sinfo :: res) (mk_saved_state sinfo (v_heads k) saved :: states) k'.
Proof.
  intros Hk Hslot Hfree Hsaved Hpl Hm [L1 L2 [L3 L4] L5 L6 LS L7]. pose proof (pn_wf _ _ Hk) as Hwf.
  assert (forall r, r ∈ slot_rows size sinfo -> r.1.2 < length (abs k)) as Hlt.
  { intros r Hr. destruct Hslot as [_ _ _ _ _ _ Hrows]. rewrite Forall_forall in Hrows. destruct (Hrows r Hr) as [_ _ Hs _].
    unfold abs. by rewrite length_fmap, (kw_streams n k Hwf). }
  assert (forall x, x ∈ concat (slot_targets <$> res) -> x ∉ slot_targets sinfo /\ content_at (abs k) x = None) as Hrest.
  { intros x Hx. specialize (L6 x Hx). rewrite (pe_abs _ _ _ _ _ _ Hpl) in L6. pose proof (spec_place_at u _ (abs k) x Hlt) as Hat.
    rewrite <- (slot_targets_rows size). destruct (decide _) as [Hd|Hd]; [destruct Hat as (? & _ & _ & ?); congruence|]. split; [done|congruence]. }
  destruct (moved_cfg _ _ Hm) as (E1 & E2 & E3 & E4). split.
  - done.
  - by eapply moved_trans.
  - split; [simpl; congruence|]. destruct ok; simpl; lia.
  - simpl. apply NoDup_app. split; [rewrite <- (slot_targets_rows size); apply Hslot|]. split; [|done].
    intros x H1 H2. by apply (Hrest x H2).
  - intros x Hx. simpl in Hx. apply elem_of_app in Hx as [Hx|Hx]; [|by apply Hrest].
    rewrite <- (slot_targets_rows size) in Hx. apply list_elem_of_fmap in Hx as (r & -> & Hr). by apply Hfree.
  - intros Hok. constructor; [by exists size|]. specialize (LS Hok). apply Forall2_same_length_lookup_2; [by eapply Forall2_length|].
    intros i u' sinfo' Hu Hin. destruct (Forall2_lookup_lr _ _ _ _ _ _ LS Hu Hin) as (nt & Hs). exists nt.
    apply (slot_ok_same n u' k1 k); try done. intros r Hr. by eapply Hrest, concat_targets.
  - intros kx Hc Hh. simpl rev. unfold wp. rewrite restore_states_app. fold (wp (restore_states (rev states);; restore_states [mk_saved_state sinfo (v_heads k) saved])
      (fun _ k'' => v_cells k'' = v_cells k /\ reheaded n kx k'' /\ (n_stream (k_cfg k) = 1 -> v_heads kx = v_heads k' -> v_heads k'' = v_heads k)) kx).
    assert (length (v_heads k1) = length (v_heads k)) as Hl1 by (by destruct Hm as (h1 & ? & (c1 & a1 & ->) & -> & ?)).
    apply wp_bind. eapply wp_mono; [apply L7; [done|congruence]|]. intros [] k2 (Hc2 & Hr2 & _).
    simpl restore_states. apply wp_bind. eapply wp_mono.
    + apply (wp_restore n u k k1 k2 sinfo size saved); try done; [apply L1 || apply (pe_wf _ _ _ _ _ _ Hpl)|apply (pe_same _ _ _ _ _ _ Hpl)| |].
      * by rewrite (kw_streams n k1 (pe_wf _ _ _ _ _ _ Hpl)), E1, (kw_streams n k Hwf).
      * destruct Hr2 as (c2 & h2 & -> & Hl2 & _). simpl. congruence.
    + intros [] k3 (Hc3 & Hr3 & Hv3). apply wp_ret. split; [done|]. split; [by eapply reheaded_trans|]. intros Hn _. by apply Hv3.
Qed.

Lemma live_preparing k : tail_preparing (k_tail k) = true -> live_tail k = false.
Proof. unfold live_tail. intros ->. apply andb_false_r. Qed.

Lemma wp_place_ubatches n ubatches : forall k res states, plain n k -> tail_preparing (k_tail k) = true -> Forall (prepared_ok k) ubatches ->
  wp (place_ubatches ubatches res states) (fun r k' => exists ok res1 states1, r = (ok, res ++ res1, states ++ states1) /\
    loop_done n k ubatches ok res1 states1 k') k.
Proof.
  induction ubatches as [|u ubatches IH]; intros k res states Hk Hprep Hu.
  - apply wp_ret. exists true, [], []. rewrite !app_nil_r. split; [done|]. apply loop_done_nil; [apply Hk|done].
  - apply Forall_cons in Hu as [Hu Hus]. pose proof Hu as [(nt & streams & Hub) Hp]. cbn [place_ubatches].
    pose proof Hk as [K1 K2 K3 K4 K5].
    destruct (find_slot_ok n u k nt streams K1 K4 K5 Hub) as (sinfo & E & Hr). apply wp_bind. unfold wp at 1. rewrite E.
    destruct Hr as [Hr|[-> _]].
    2:{ apply wp_ret. exists false, [], []. rewrite !app_nil_r. split; [done|]. by apply loop_done_nil. }
    assert (slot_empty sinfo = false) as ->.
    { unfold slot_empty. apply Nat.eqb_neq. rewrite (ps_len _ _ _ _ _ _ Hr). destruct (uo_pos _ _ _ _ Hub). lia. }
    destruct (partial_slot_ok n u k nt streams sinfo K1 Hub Hr) as (Hslot & _ & Hfree). specialize (Hfree K3).
    destruct (save_streams_ok n u k sinfo nt K1 Hslot Hfree) as (saved & Es & Hsaved).
    apply wp_bind, (wp_gets _ saved); [done|]. apply wp_bind, wp_get. apply wp_bind.
    eapply wp_mono; [apply (wp_apply_empty n u k sinfo nt); try done; by apply live_preparing|]. intros [] k1 Hpl.
    assert (moved k k1) as Hm.
    { destruct Hpl as [P1 (heads & k2 & P2 & ->) _ _]. exists heads, k2. split; [done|]. split; [done|].
      destruct (kw_heads n _ P1) as [L1 _]. destruct (kw_heads n k K1) as [L2 _]. destruct P2 as (? & ? & ->). simpl in *. congruence. }
    destruct (moved_cfg _ _ Hm) as (E1 & E2 & E3 & E4).
    eapply wp_mono.
    + apply (IH k1 (res ++ [sinfo]) (states ++ [mk_saved_state sinfo (v_heads k) saved])); [by eapply plain_placed|by rewrite E3|].
      eapply Forall_impl; [exact Hus|]. intros u' Hu'. by eapply prepared_same.
    + intros r k' (ok & res1 & states1 & -> & Hd). exists ok, (sinfo :: res1), (mk_saved_state sinfo (v_heads k) saved :: states1).
      split; [by rewrite <- !app_assoc|]. by apply (loop_done_cons n k u sinfo nt saved k1).
Qed.

(** ** The dry run *)

Lemma set_preparing_wf n k b : kv_wf n k -> kv_wf n (set_tail (set_preparing b (k_tail k)) k).
Proof. intros Hk. apply set_tail_wf; [done| |]; simpl; apply Hk. Qed.

Lemma plain_preparing n k : plain n k -> plain n (set_tail (set_preparing true (k_tail k)) k).
Proof. intros []. split; try done. by apply set_preparing_wf. Qed.

Lemma prepared_preparing k u : prepared_ok k u -> prepared_ok (set_tail (set_preparing true (k_tail k)) k) u.
Proof. intros [(nt & streams & H) Hp]. split; [|done]. exists nt, streams. by apply (ubatch_ok_same k). Qed.

(** What [prepare] ends with. *)
Record prepared (n : nat) (k : kv_cache) (ubatches : list llama_ubatch) (res : list slot_info) (k' : kv_cache) : Prop := {
  pr_wf : kv_wf n k';
  pr_cells : v_cells k' = v_cells k;
  pr_moved : moved k (set_tail (k_tail k) k');
  pr_tail : k_tail k' = set_preparing false (k_tail k);
  pr_heads : n_stream (k_cfg k) = 1 -> v_heads k' = v_heads k;
  pr_slots : res = [] \/ Forall2 (fun u sinfo => exists nt, slot_ok n u k sinfo nt) ubatches res;
  pr_disjoint : NoDup (concat (slot_targets <$> res));
  pr_free : forall x, x ∈ concat (slot_targets <$> res) -> content_at (abs k) x = None
}.

Lemma wp_prepare n k ubatches : plain n k -> Forall (prepared_ok k) ubatches -> ubatches <> [] -> wp (prepare ubatches) (prepared n k ubatches) k.
Proof.
  intros Hk Hu Hne. set (k0 := set_tail (set_preparing true (k_tail k)) k).
  unfold prepare. apply wp_bind, wp_modify. fold k0. apply wp_bind. eapply wp_mono.
  { apply (wp_place_ubatches n ubatches k0 [] []); [by apply plain_preparing|done|]. eapply Forall_impl; [exact Hu|]. intros u. apply prepared_preparing. }
  intros r k1 (ok & res & states & -> & [L1 L2 [L3 L4] L5 L6 LS L7]). rewrite !app_nil_l.
  apply wp_bind, wp_modify. apply wp_bind, (wp_lift _ tt).
  { apply assert_true. destruct ok; [|by rewrite orb_true_r]. rewrite orb_false_r. apply negb_true_iff, Nat.eqb_neq.
    destruct ubatches; [done|]. simpl in L4. lia. }
  set (kx := set_tail (set_preparing false (k_tail k1)) k1).
  assert (length (v_heads kx) = length (v_heads k0)) as Hlx by (destruct L2 as (h & ? & (c1 & a1 & ->) & -> & Hl); exact Hl).
  apply wp_bind. eapply wp_mono; [by apply L7|]. intros [] k2 (Hc & Hr & Hv). apply wp_ret.
  assert (k_tail kx = set_preparing false (k_tail k)) as Htx.
  { simpl. destruct (moved_cfg _ _ L2) as (_ & _ & -> & _). done. }
  assert (kv_wf n kx) as Hkx by (by apply set_preparing_wf).
  assert (kv_wf n k2) as Hk2.
  { destruct Hr as (c2 & h2 & -> & Hl2 & Hf2). simpl in Hc. subst c2. pose proof (pn_wf _ _ Hk) as Hwf. destruct Hkx as [Q1 Q2 Q3 Q4 Q5 Q6 Q7 Q8 Q9 Q10].
    destruct (moved_cfg _ _ L2) as (E1 & E2 & _). destruct Hwf as [W1 W2 W3 W4 W5 W6 W7 W8 W9 W10].
    split; simpl in *; try done.
    - by rewrite E1.
    - rewrite Hl2. split; [apply Q3|apply Hf2, Q3].
    - intros st m i p S s H1 H2 H3. rewrite E2. eapply W6; done. }
  split; [done|done| | | | | |].
  - destruct L2 as (h & ? & (c1 & a1 & ->) & Hk1 & Hl). destruct Hr as (c2 & h2 & -> & Hl2 & _). exists h2. eexists. split; [by exists c2, a1|].
    split; [|by rewrite Hl2, Hlx]. subst kx k1. by destruct k.
  - destruct Hr as (c2 & h2 & -> & _). exact Htx.
  - intros Hn. apply Hv; [done|]. done.
  - destruct ok; [right|by left]. specialize (LS eq_refl). apply Forall2_same_length_lookup_2; [by eapply Forall2_length|].
    intros i u s Hi Hs. destruct (Forall2_lookup_lr _ _ _ _ _ _ LS Hi Hs) as (nt & Hslot). exists nt.
    apply (slot_ok_same n u k0 k); try done; [apply Hk|]. intros r Hin. by eapply L6, concat_targets.
  - destruct ok; [done|constructor].
  - intros x Hx. destruct ok; [by apply L6|by apply not_elem_of_nil in Hx].
Qed.

(** C20: for a cache with its own cells and without sliding window and record groups,
    preparing a batch always returns and is a dry run: the cells come back record for record, the tail and the pending copies are untouched
    and, with one stream, so is the head.  It returns one slot per ubatch, or none;
    the slots lie in cells that are free in the cache and no two of them share one,
    whatever the ubatches. *)
Theorem prepare_dry_run n k ubatches : plain n k -> Forall (prepared_ok k) ubatches -> ubatches <> [] ->
  exists res k', prepare ubatches k = (Ok res, k') /\ kv_wf n k' /\ v_cells k' = v_cells k /\ k_cfg k' = k_cfg k /\
    seq_to_stream k' = seq_to_stream k /\ k_tail k' = set_preparing false (k_tail k) /\ sc_info k' = sc_info k /\
    (n_stream (k_cfg k) = 1 -> v_heads k' = v_heads k) /\
    (res = [] \/ length res = length ubatches) /\ NoDup (concat (slot_targets <$> res)) /\
    (forall x, x ∈ concat (slot_targets <$> res) -> content_at (abs k) x = None).
Proof.
  intros Hk Hu Hne. destruct (wp_run _ _ _ (wp_prepare n k ubatches Hk Hu Hne)) as (res & k' & E & [H1 H2 (h & k1 & (c1 & a1 & ->) & H3 & _) H4 H5 H6 H7 H8]).
  exists res, k'. assert (res = [] \/ length res = length ubatches) as Hl by (destruct H6 as [?|H6]; [by left|right; symmetry; by eapply Forall2_length]).
  destruct k'. simpl in *. injection H3 as -> -> -> -> -> -> -> ->. by split_and!.
Qed.

(** ** Instances *)

(** One token at [p] for sequence [q]. *)
Definition demo_token (q : nat) (p : Z) : llama_ubatch :=
  mk_ubatch false 1 1 1 1 1 None None [p] [1%Z] [[Z.of_nat q]] [q] [] [].

Lemma demo_token_ok ns st p : ns = 1 /\ st = 0 \/ ns = 4 /\ st = 3 -> (0 <= p < INT32_MAX)%Z -> prepared_ok (demo_cache ns st) (demo_token 3 p).
Proof.
  intros Hc Hp. assert (seq_to_stream (demo_cache ns st) !! 3 = Some st) as Hm by (by destruct Hc as [[-> ->]|[-> ->]]).
  split.
  - exists 1, [st]. split; simpl; try done.
    + lia.
    + by destruct Hc as [[-> ->]|[-> ->]].
    + by apply NoDup_singleton.
    + intros [|s] st' H; [injection H as <-|done]. exists 3. split; [done|]. split; [done|]. intros _. split; [done|]. by exists [].
    + intros [|s] st' [|ii] H Hlt; [injection H as <-|lia|done|lia]. exists p, [3%Z]. split; try done.
      * by apply NoDup_singleton.
      * constructor; [|done]. split; [simpl; lia|done].
      * lia.
  - intros [|i] q H; [injection H as <-; lia|done].
Qed.

Lemma demo_plain : plain 4 (demo_cache 1 0).
Proof. split; [apply demo_cache_wf; by left|done|done|apply demo_swa_ok; by left|simpl; lia]. Qed.

(** Two ubatches fit in the two free cells; a third would not. *)
Lemma prepare_dry_run_witness : exists k',
  prepare [demo_token 3 10; demo_token 3 11] (demo_cache 1 0) = (Ok [mk_slot 0 0 [0] [[0]]; mk_slot 0 0 [0] [[3]]], k') /\
  v_cells k' = v_cells (demo_cache 1 0) /\ v_heads k' = [0] /\ kv_wf 4 k'.
Proof.
  destruct (prepare_dry_run 4 (demo_cache 1 0) [demo_token 3 10; demo_token 3 11] demo_plain) as (res & k' & E & Hk' & Hc & _ & _ & _ & _ & Hh & _).
  - repeat constructor; apply (demo_token_ok 1 0); try (by left); unfold INT32_MAX; lia.
  - done.
  - exists k'. split; [|split; [exact Hc|split; [exact (Hh eq_refl)|exact Hk']]].
    assert ((prepare [demo_token 3 10; demo_token 3 11] (demo_cache 1 0)).1 = Ok [mk_slot 0 0 [0] [[0]]; mk_slot 0 0 [0] [[3]]]) as E1 by (vm_compute; reflexivity).
    rewrite E in E1. simpl in E1. rewrite E. rewrite E1. reflexivity.
Defined.

(** Head of stream 3 behind its cells: the search of a ubatch on stream 3 alone leaves
    the head of stream 0 there. *)
Definition demo_heads : kv_cache := set_heads [1; 0; 0; 3] (demo_cache 4 3).

Lemma prepare_restores_wrong_head :
  v_heads demo_heads !! 3 = Some 3 /\ v_heads (prepare [demo_token 3 10] demo_heads).2 !! 3 = Some 1.
Proof. split; vm_compute; reflexivity. Qed.
