(* ===== verification/KvWindow.v ===== *)
(** * The number of cells attention looks at

    [get_n_kv] pads the last used cell so that graphs can be reused; it must reach
    every used cell of every stream of the slot and stay inside the buffer. *)

From S2P Require Import KvCells TailStore Batch.
From S2P Require Export KvFind.
Open Scope nat_scope.

(** ** [GGML_PAD] *)

(** Clearing the low bits. *)
Lemma land_clear_low a j : (0 <= j <= 32)%Z -> (0 <= a < 4294967296)%Z ->
  Z.land a (u32 (Z.lnot (2 ^ j - 1))) = (a / 2 ^ j * 2 ^ j)%Z.
Proof.
  intros Hj Ha. apply Z.bits_inj'. intros i Hi. rewrite Z.land_spec. unfold u32. change 4294967296%Z with (2 ^ 32)%Z in *.
  rewrite <- Z.shiftr_div_pow2, <- Z.shiftl_mul_pow2 by lia.
  destruct (Z.lt_ge_cases i j) as [Hlt|Hge].
  - rewrite Z.mod_pow2_bits_low by lia. rewrite Z.lnot_spec by lia.
    replace (2 ^ j - 1)%Z with (Z.ones j) by (rewrite Z.ones_equiv; lia). rewrite Z.ones_spec_low by lia.
    rewrite Z.shiftl_spec_low by lia. by rewrite andb_false_r.
  - rewrite Z.shiftl_spec_high, Z.shiftr_spec by lia. replace (i - j + j)%Z with i by lia.
    destruct (Z.lt_ge_cases i 32) as [H32|H32].
    + rewrite Z.mod_pow2_bits_low by lia. rewrite Z.lnot_spec by lia.
      replace (2 ^ j - 1)%Z with (Z.ones j) by (rewrite Z.ones_equiv; lia). rewrite Z.ones_spec_high by lia. by rewrite andb_true_r.
    + rewrite Z.mod_pow2_bits_high by lia. rewrite andb_false_r. destruct (decide (a = 0)%Z) as [->|Hne]; [by rewrite Z.testbit_0_l|].
      rewrite Z.bits_above_log2; [done|lia|]. assert (Z.log2 a < 32)%Z; [|lia]. apply Z.log2_lt_pow2; lia.
Qed.

Lemma ggml_pad_spec x j : (0 <= j <= 32)%Z -> (0 <= x)%Z -> (x + 2 ^ j - 1 < 4294967296)%Z ->
  (x <= ggml_pad x (2 ^ j) < x + 2 ^ j)%Z /\ (ggml_pad x (2 ^ j) mod 2 ^ j = 0)%Z.
Proof.
  intros Hj Hx Hmax. pose proof (Z.pow_pos_nonneg 2 j ltac:(lia) ltac:(lia)) as Hpos. 
  assert (ggml_pad x (2 ^ j) = ((x + 2 ^ j - 1) / 2 ^ j * 2 ^ j)%Z) as ->.
  { unfold ggml_pad. unfold u32 at 1. rewrite Z.mod_small by lia. apply land_clear_low; lia. }
  split; [|apply Z.mod_mul; lia].
  pose proof (Z.div_mod (x + 2 ^ j - 1) (2 ^ j) ltac:(lia)). pose proof (Z.mod_pos_bound (x + 2 ^ j - 1) (2 ^ j) Hpos).
  rewrite (Z.mul_comm (_ / _)). lia.
Qed.

(** ** Used cells end before [used_max_p1] *)

Lemma used_max_bounds n c : stream_wf n c -> used_max_p1 c <= n /\ forall i x, abs_cells c !! i = Some x -> i < used_max_p1 c.
Proof.
  intros Hc. pose proof (sm_wf n c Hc) as Hw. pose proof (set_list_sorted (c_used c)) as Hsort. pose proof (elem_of_set_list (c_used c)) as Hel.
  assert (forall i, i ∈ c_used c -> i < n) as Hlt.
  { intros i Hi. apply (wf_used c Hw) in Hi as (p & Hp & _). rewrite <- (sm_size n c Hc). by eapply lookup_lt_Some. }
  unfold used_max_p1. destruct (last (set_list (c_used c))) as [b|] eqn:El.
  - assert (b ∈ c_used c) as Hb by (apply Hel; apply last_Some in El as [l ->]; set_solver). split; [specialize (Hlt b Hb); lia|].
    intros i [p S] Hi. apply abs_view in Hi as [Hv Hne]. apply view_lookup in Hv as [Hp _].
    assert (i ∈ set_list (c_used c)) as Hin by (apply Hel, (wf_used c Hw); eauto).
    pose proof (StronglySorted_last Nat.le _ _ Hsort El i Hin). lia.
  - apply last_None in El. split; [lia|]. intros i [p S] Hi. exfalso. apply abs_view in Hi as [Hv Hne]. apply view_lookup in Hv as [Hp _].
    assert (i ∈ set_list (c_used c)) as Hin by (apply Hel, (wf_used c Hw); eauto). rewrite El in Hin. by apply not_elem_of_nil in Hin.
Qed.

(** C39: the window of a slot reaches every used cell of every stream of the slot, never
    passes the buffer, and is the whole buffer or a multiple of the padding: nothing
    cached is out of attention's sight and no row past the buffer is read.  (The
    padding is a power of two, as the callers choose it, and sizes fit 32 bits.) *)
Theorem get_n_kv_covers n k sinfo j : kv_wf n k -> Forall (fun st => st < n_stream (k_cfg k)) (strm sinfo) ->
  (0 <= j <= 31)%Z -> Z.max (n_pad (k_cfg k)) 256 = (2 ^ j)%Z -> (Z.of_nat n + 2 ^ j <= 4294967296)%Z ->
  exists w, get_n_kv sinfo k = Ok w /\ (0 <= w <= Z.of_nat n)%Z /\ (w = Z.of_nat n \/ w mod 2 ^ j = 0)%Z /\
    forall st c i x, st ∈ strm sinfo -> v_cells k !! st = Some c -> abs_cells c !! i = Some x -> (Z.of_nat i < w)%Z.
Proof.
  intros Hk Hf Hj Hpad Hn. unfold get_n_kv. rewrite Hpad. pose proof (Z.pow_pos_nonneg 2 j ltac:(lia) ltac:(lia)) as Hpos.
  destruct (foldM_seq (fun result s => st ← vec_get (strm sinfo) s; c ← cells_of st k;
      Ok (Z.max (Z.min (Z.of_nat (cells_size c)) (Z.max (2 ^ j) (ggml_pad (Z.of_nat (used_max_p1 c)) (2 ^ j)))) result))
    (fun m w => (0 <= w <= Z.of_nat n)%Z /\ (w = Z.of_nat n \/ w mod 2 ^ j = 0)%Z /\
      forall s st c i x, s < m -> strm sinfo !! s = Some st -> v_cells k !! st = Some c -> abs_cells c !! i = Some x -> (Z.of_nat i < w)%Z)
    0 (slot_n_stream sinfo) 0%Z) as (w & E & Hw1 & Hw2 & Hw3).
  - split; [lia|]. split; [right; by rewrite Z.mod_0_l by lia|]. intros; lia.
  - intros m w Hm (H1 & H2 & H3). unfold slot_n_stream in Hm. destruct (lookup_lt_is_Some_2 (strm sinfo) m) as [st Hst]; [lia|].
    pose proof (proj1 (Forall_lookup _ _) Hf _ _ Hst) as Hlt. simpl in Hlt.
    destruct (lookup_lt_is_Some_2 (v_cells k) st) as [c Hc]; [by rewrite (kw_streams n k Hk)|].
    pose proof (kw_cells n k Hk st c Hc) as Hcw. unfold cells_of. rewrite (vec_get_Some _ _ _ Hst). cbn [mbind outcome_bind].
    rewrite (vec_get_Some _ _ _ Hc). cbn [mbind outcome_bind]. rewrite (sm_size n c Hcw).
    destruct (used_max_bounds n c Hcw) as [Hmax Hin].
    destruct (ggml_pad_spec (Z.of_nat (used_max_p1 c)) j) as [Hp1 Hp2]; [lia|lia|lia|].
    set (q := ggml_pad _ _) in *. set (v := Z.min (Z.of_nat n) (Z.max (2 ^ j) q)).
    assert (v = Z.of_nat n \/ v mod 2 ^ j = 0)%Z as Hv.
    { subst v. destruct (Z.min_spec (Z.of_nat n) (Z.max (2 ^ j) q)) as [[_ ->]|[_ ->]]; [by left|right].
      destruct (Z.max_spec (2 ^ j) q) as [[_ ->]|[_ ->]]; [done|]. apply Z.mod_same. lia. }
    eexists. split; [done|]. split; [lia|]. split.
    + destruct (Z.max_spec v w) as [[_ ->]|[_ ->]]; done.
    + intros s st' c' i x Hs H4 H5 H6. destruct (decide (s = m)) as [->|Hne].
      * rewrite Hst in H4. injection H4 as <-. rewrite Hc in H5. injection H5 as <-. pose proof (Hin i x H6). lia.
      * pose proof (H3 s st' c' i x ltac:(lia) H4 H5 H6). lia.
  - exists w. split; [exact E|]. split; [done|]. split; [done|]. intros st c i x Hst Hc Hi. apply list_elem_of_lookup in Hst as [s Hst].
    eapply Hw3; try done. unfold slot_n_stream. simpl. by eapply lookup_lt_Some.
Qed.

Lemma get_n_kv_covers_witness : exists w, get_n_kv (mk_slot 0 0 [0] [[0]]) (demo_cache 1 0) = Ok w /\ (2 < w <= 4)%Z.
Proof.
  assert (kv_wf 4 (demo_cache 1 0)) as Hk by (apply demo_cache_wf; by left).
  destruct (get_n_kv_covers 4 (demo_cache 1 0) (mk_slot 0 0 [0] [[0]]) 8 Hk) as (w & E & Hw & _ & Hc).
  - repeat constructor.
  - lia.
  - reflexivity.
  - simpl. lia.
  - exists w. split; [exact E|]. split; [|lia].
    apply (Hc 0 demo_cells 2 (9%Z, {[3]})); [by left|reflexivity|]. apply (bool_decide_unpack _). vm_compute. exact I.
Defined.
