(* ===== verification/KvMask.v ===== *)
(** * The attention inputs of a batch (src/src/llama-kv-cache.cpp)

    The mask of the attention scores: [set_input_kq_mask_mapped] fills one row of
    [n_kv] entries per token, copying the row of an earlier token of the same sequence
    and recomputing only the cells near the positions of the batch.  The rows of the
    buffers the new keys and values are written to: [set_input_k_idxs],
    [set_input_v_idxs].  The shifts of the cells: [set_input_k_shift].

    A mask entry is [None] for minus infinity and [Some b] for the bias [b]; the
    conversion of the bias to the type of the mask is left out.  The data of a tensor
    is a list, written by index. *)

From S2P Require Import KvCells Batch.
From S2P Require Export KvInv KvApply.
Open Scope nat_scope.

(** ** The mask *)

(** [args_set_input_kq_mask], with [hparams.use_alibi]. *)
Record args_set_input_kq_mask := mk_mask_args {
  am_use_alibi : bool;
  am_ubatch : llama_ubatch;
  am_v_cells : list kv_cells;
  am_seq_to_stream : list nat;
  am_n_swa : Z;
  am_swa_type : llama_swa_type;
  am_n_kv : nat;
  am_n_stream : nat;
  am_n_tps : nat;
  am_read_cells : option (list Z)
}.

Definition mask_entry := option Z.
Definition mask_keep : mask_entry := Some 0%Z.
Definition mask_drop : mask_entry := None.

(** [v.at(i)] *)
Definition vec_at {A} (v : list A) (i : nat) : outcome A :=
  match v !! i with Some a => Ok a | None => Err OutOfRange end.

(** [ubatch->seq_id[i][0]] *)
Definition first_id (u : llama_ubatch) (i : nat) : outcome Z := ids ← vec_get (u_seq_id u) i; vec_get ids 0.

(** [seq_pos_min], an array over all sequences. *)
Definition batch_pos_min (u : llama_ubatch) : outcome (list Z) :=
  foldM (fun m i =>
    seq_id ← first_id u i;
    v ← arr_get m seq_id;
    p ← vec_get (u_pos u) i;
    arr_set m seq_id (Z.min v p)) (seq 0 (u_n_tokens u)) (replicate LLAMA_MAX_SEQ INT32_MAX).

Section mask.
Variables (causal swa is_2d alibi : bool) (a : args_set_input_kq_mask).

(** The cell entry [j] reads and its position, when it is a cell of the sequence. *)
Definition read_cell (cells : kv_cells) (seq_id : Z) (j : nat) : outcome (option (nat * Z)) :=
  mapped ← match am_read_cells a with Some l => vec_at l j | None => Ok (Z.of_nat j) end;
  if (mapped <? 0)%Z then Ok None else
  let cell := Z.to_nat (u32 mapped) in
  if cells_size cells <=? cell then Ok None else
  e ← is_empty cell cells;
  if (e : bool) then Ok None else
  h ← seq_has cell (Z.to_nat seq_id) cells;
  if negb h then Ok None else
  p0 ← pos_get cell cells;
  Ok (Some (cell, p0)).

(** [p0 >= seq_pos_min[seq_id] - n_swa - 32] *)
Definition is_near (pos_min p0 : Z) : outcome bool :=
  q ← i32 (p0 + to_i32 (u32 (am_n_swa a + 32)));
  Ok (pos_min <=? q)%Z.

(** Future tokens, then the window. *)
Definition is_masked (cells : kv_cells) (cell : nat) (p0 p1 p1_x p1_y : Z) : outcome bool :=
  future ← (if causal then
              if (p1 <? p0)%Z then Ok true
              else if is_2d && (p0 =? p1)%Z then e ← ext_get cell cells; Ok (is_2d_gt e p1_x p1_y)
              else Ok false
            else Ok false);
  if (future : bool) then Ok true
  else if swa then is_masked_swa (am_n_swa a) (am_swa_type a) p0 p1 else Ok false.

Definition mask_value (p0 p1 : Z) : outcome mask_entry :=
  if alibi then d ← i32 (p0 - p1); Ok (Some (- Z.abs d)%Z) else Ok mask_keep.

(** One entry; [idxs] collects the near cells while the first row of a sequence is
    computed. *)
Definition mask_step (cells : kv_cells) (seq_id pos_min p1 p1_x p1_y : Z) (idst : nat) (prev : bool) (j : nat)
    (st : list mask_entry * list nat) : outcome (list mask_entry * list nat) :=
  let '(data, idxs) := st in
  r ← read_cell cells seq_id j;
  match r with
  | None => data ← vec_set data (idst + j) mask_drop; Ok (data, idxs)
  | Some (cell, p0) =>
      near ← (if negb alibi && negb prev then is_near pos_min p0 else Ok false);
      let idxs := if (near : bool) then idxs ++ [j] else idxs in
      m ← is_masked cells cell p0 p1 p1_x p1_y;
      v ← (if (m : bool) then Ok mask_drop else mask_value p0 p1);
      data ← vec_set data (idst + j) v;
      Ok (data, idxs)
  end.

(** The loop over [jj]; a reused row goes through [idxs] and breaks at its end. *)
Fixpoint mask_loop (step : nat -> list mask_entry * list nat -> outcome (list mask_entry * list nat)) (reuse : bool)
    (n jj : nat) (st : list mask_entry * list nat) : outcome (list mask_entry * list nat) :=
  match n with
  | 0 => Ok st
  | S n =>
      if reuse then
        match st.2 !! jj with
        | None => Ok st
        | Some j => st ← step j st; mask_loop step reuse n (jj + 1) st
        end
      else st ← step jj st; mask_loop step reuse n (jj + 1) st
  end.

(** [std::copy(data + src, data + src + n, data + dst)] *)
Definition copy_entries (data : list mask_entry) (src dst n : nat) : outcome (list mask_entry) :=
  if (src + n <=? length data) && (dst + n <=? length data)
  then Ok (take dst data ++ take n (drop src data) ++ drop (dst + n) data) else Err OutOfBounds.

(** The data and, for the stream, [seq_srct] and [seq_idxs]. *)
Record mask_state := mk_mask_state { ms_data : list mask_entry; ms_srct : gmap Z nat; ms_idxs : gmap Z (list nat) }.

(** Token [i]; every row of a sequence but the first starts as a copy of the first. *)
Definition mask_token (pos_mins : list Z) (i : nat) (st : mask_state) : outcome mask_state :=
  let u := am_ubatch a in
  seq_id ← first_id u i;
  stream ← arr_get (am_seq_to_stream a) seq_id;
  cells ← vec_at (am_v_cells a) stream;
  p1 ← vec_get (u_pos u) i;
  p1_x ← (if is_2d then vec_get (u_pos u) (i + u_n_tokens u * 2) else Ok 0%Z);
  p1_y ← (if is_2d then vec_get (u_pos u) (i + u_n_tokens u) else Ok 0%Z);
  pos_min ← arr_get pos_mins seq_id;
  let n_kv := am_n_kv a in
  let idst := n_kv * i in
  let idxs := default [] (ms_idxs st !! seq_id) in
  r ← (if alibi then Ok (ms_data st, ms_srct st, idxs, false)
       else match ms_srct st !! seq_id with
            | Some srct => data ← copy_entries (ms_data st) (n_kv * srct) idst n_kv; Ok (data, ms_srct st, idxs, true)
            | None => Ok (ms_data st, <[seq_id := i]> (ms_srct st), [], false)
            end);
  let '(data, srcts, idxs, prev) := r in
  res ← mask_loop (mask_step cells seq_id pos_min p1 p1_x p1_y idst prev) (negb alibi && prev) n_kv 0 (data, idxs);
  let '(data, idxs) := res in
  Ok (mk_mask_state data srcts (<[seq_id := idxs]> (ms_idxs st))).

(** Both maps start empty in every stream. *)
Definition set_input_kq_mask_rows (data : list mask_entry) : outcome (list mask_entry) :=
  pos_mins ← batch_pos_min (am_ubatch a);
  foldM (fun data s =>
    st ← foldM (fun st ii => mask_token pos_mins (s * am_n_tps a + ii) st) (seq 0 (am_n_tps a)) (mk_mask_state data ∅ ∅);
    Ok (ms_data st)) (seq 0 (am_n_stream a)) data.
End mask.

(** The dispatch on the template parameters. *)
Definition set_input_kq_mask_impl (a : args_set_input_kq_mask) (causal_attn : bool) (data : list mask_entry) : outcome (list mask_entry) :=
  set_input_kq_mask_rows causal_attn (negb (bool_decide (am_swa_type a = SWA_TYPE_NONE))) (is_pos_2d (am_ubatch a))
    (am_use_alibi a) a data.

Definition mask_args_of (use_alibi : bool) (n_kv n_stream : nat) (u : llama_ubatch) (read_cells : list Z) (k : kv_cache)
    : args_set_input_kq_mask :=
  mk_mask_args use_alibi u (v_cells k) (seq_to_stream k) (n_swa (k_cfg k)) (swa_type (k_cfg k)) n_kv n_stream
    (u_n_tokens u / n_stream) (if length read_cells =? 0 then None else Some read_cells).

(** [n_kv] and [n_stream] are dimensions of the tensor. *)
Definition set_input_kq_mask_mapped (use_alibi : bool) (n_kv n_stream : nat) (u : llama_ubatch) (causal_attn : bool)
    (read_cells : list Z) (k : kv_cache) (data : list mask_entry) : outcome (list mask_entry) :=
  _ ← assert_ ((length read_cells =? 0) || ((n_stream =? 1) && (length read_cells =? n_kv)));
  _ ← (if n_stream =? 0 then Err DivByZero else Ok tt);
  _ ← assert_ (u_n_tokens u mod n_stream =? 0);
  set_input_kq_mask_impl (mask_args_of use_alibi n_kv n_stream u read_cells k) causal_attn data.

Definition set_input_kq_mask (use_alibi : bool) (n_kv n_stream : nat) (u : llama_ubatch) (causal_attn : bool) (k : kv_cache)
    (data : list mask_entry) : outcome (list mask_entry) :=
  set_input_kq_mask_mapped use_alibi n_kv n_stream u causal_attn [] k data.

(** ** The rows to write *)

(** [data] has room for every token. *)
Definition set_input_k_idxs (u : llama_ubatch) (sinfo : slot_info) (k : kv_cache) (data : list Z) : outcome (list Z) :=
  size ← slot_size sinfo;
  _ ← assert_ (u_n_tokens u =? size * slot_n_stream sinfo);
  kv_size ← get_size k;
  foldM (fun data s =>
    st ← vec_get (strm sinfo) s;
    let offs := u32 (Z.of_nat st * Z.of_nat kv_size) in
    foldM (fun data i =>
      l ← vec_get (idxs sinfo) s;
      idx ← vec_get l i;
      vec_set data (s * size + i) (offs + Z.of_nat idx)%Z) (seq 0 size) data) (seq 0 (slot_n_stream sinfo)) data.

(** A transposed value cache has a row per channel. *)
Definition set_input_v_idxs (v_trans : bool) (n_embd_v_gqa : nat) (u : llama_ubatch) (sinfo : slot_info) (k : kv_cache)
    (data : list Z) : outcome (list Z) :=
  if negb v_trans then set_input_k_idxs u sinfo k data else
  size ← slot_size sinfo;
  _ ← assert_ (u_n_tokens u =? size * slot_n_stream sinfo);
  kv_size ← get_size k;
  foldM (fun data s =>
    st ← vec_get (strm sinfo) s;
    let offs := (Z.of_nat st * Z.of_nat kv_size * Z.of_nat n_embd_v_gqa)%Z in
    foldM (fun data i =>
      foldM (fun data j =>
        l ← vec_get (idxs sinfo) s;
        idx ← vec_get l i;
        vec_set data (s * size * n_embd_v_gqa + i * n_embd_v_gqa + j) (offs + Z.of_nat j * Z.of_nat kv_size + Z.of_nat idx)%Z)
        (seq 0 n_embd_v_gqa) data) (seq 0 size) data) (seq 0 (slot_n_stream sinfo)) data.

(** ** The shifts of the cells *)

Definition set_input_k_shift (k : kv_cache) (data : list Z) : outcome (list Z) :=
  foldM (fun data s =>
    c ← cells_of s k;
    foldM (fun data i =>
      e ← is_empty i c;
      sh ← (if (e : bool) then Ok 0%Z else get_shift i c);
      vec_set data (s * cells_size c + i) sh) (seq 0 (cells_size c)) data) (seq 0 (n_stream (k_cfg k))) data.
