(* ===== verification/KvMaskProps.v ===== *)
(** * The attention mask is its definition

    The rows [set_input_kq_mask_impl] copies and patches are those a computation of
    every entry on its own gives: an entry is kept exactly when the cell it reads
    belongs to the sequence of the token, is not in its future and is not hidden by the
    window. *)

From S2P Require Import KvCells Batch BatchInit.
From S2P Require Export KvMask KvFind KvDemo.
Open Scope nat_scope.

(** ** The definition *)

(** Whether a token at [p1] cannot see position [p0]. *)
Definition window_hides (t : llama_swa_type) (w p0 p1 : Z) : bool :=
  match t with
  | SWA_TYPE_NONE => false
  | SWA_TYPE_STANDARD => (w <=? p1 - p0)%Z
  | SWA_TYPE_CHUNKED => (p0 <? p1 / w * w)%Z
  | SWA_TYPE_SYMMETRIC => (w / 2 <? Z.abs (p1 - p0))%Z
  end.

(** The cell entry [j] of a row reads. *)
Definition entry_cell (a : args_set_input_kq_mask) (j : nat) : option nat :=
  match am_read_cells a with
  | None => Some j
  | Some l => m ← l !! j; if (m <? 0)%Z then None else Some (Z.to_nat m)
  end.

(** The cell and position of entry [j], for a sequence. *)
Definition seen (a : args_set_input_kq_mask) (c : kv_cells) (q : nat) (j : nat) : option (nat * Z) :=
  cell ← entry_cell a j;
  x ← (abs_cells c !! cell : option (Z * gset nat));
  if decide (q ∈ x.2) then Some (cell, x.1) else None.

(** A later position, or at the same one a later place in the image. *)
Definition in_future (u : llama_ubatch) (c : kv_cells) (i cell : nat) (p0 p1 : Z) : bool :=
  (p1 <? p0)%Z ||
  (is_pos_2d u && (p0 =? p1)%Z &&
   match c_ext c !! cell, u_pos u !! (i + u_n_tokens u * 2), u_pos u !! (i + u_n_tokens u) with
   | Some e, Some x, Some y => is_2d_gt e x y
   | _, _, _ => false
   end).

Definition hides (a : args_set_input_kq_mask) (causal : bool) (c : kv_cells) (i cell : nat) (p0 p1 : Z) : bool :=
  (causal && in_future (am_ubatch a) c i cell p0 p1) || window_hides (am_swa_type a) (am_n_swa a) p0 p1.

(** Entry [j] of the row of token [i]. *)
Definition mask_spec (a : args_set_input_kq_mask) (causal : bool) (i j : nat) : mask_entry :=
  ids ← u_seq_id (am_ubatch a) !! i;
  q ← head ids;
  st ← am_seq_to_stream a !! Z.to_nat q;
  c ← am_v_cells a !! st;
  p1 ← u_pos (am_ubatch a) !! i;
  x ← seen a c (Z.to_nat q) j;
  if hides a causal c i x.1 x.2 p1 then None
  else Some (if am_use_alibi a then - Z.abs (x.2 - p1) else 0)%Z.

(** Token [i]: its first sequence, the stream and cells of it and its position. *)
Record row_at (n : nat) (a : args_set_input_kq_mask) (i q st : nat) (c : kv_cells) (p1 : Z) : Prop := {
  ra_ids : exists ids, u_seq_id (am_ubatch a) !! i = Some (Z.of_nat q :: ids);
  ra_seq : q < LLAMA_MAX_SEQ;
  ra_stream : am_seq_to_stream a !! q = Some st;
  ra_cells : am_v_cells a !! st = Some c;
  ra_wf : stream_wf n c;
  ra_pos : u_pos (am_ubatch a) !! i = Some p1;
  ra_range : (0 <= p1 <= INT32_MAX)%Z;
  ra_2d : is_pos_2d (am_ubatch a) = true -> exists x y,
    u_pos (am_ubatch a) !! (i + u_n_tokens (am_ubatch a) * 2) = Some x /\ u_pos (am_ubatch a) !! (i + u_n_tokens (am_ubatch a)) = Some y
}.

(** The arguments: positions stay clear of the top of their type by the window. *)
Record mask_args_ok (n : nat) (a : args_set_input_kq_mask) : Prop := {
  ma_rows : forall i, i < u_n_tokens (am_ubatch a) -> exists q st c p1, row_at n a i q st c p1;
  ma_tokens : am_n_stream a * am_n_tps a = u_n_tokens (am_ubatch a);
  ma_swa : (0 <= am_n_swa a)%Z /\ (am_n_swa a + 32 <= INT32_MAX)%Z /\ (am_swa_type a = SWA_TYPE_CHUNKED -> am_n_swa a <> 0%Z);
  ma_clear : forall st c i p S, am_v_cells a !! st = Some c -> abs_cells c !! i = Some (p, S) -> (p + am_n_swa a + 32 <= INT32_MAX)%Z;
  ma_kv : (Z.of_nat (am_n_kv a) <= UINT32_MAX)%Z;
  ma_read : forall l, am_read_cells a = Some l -> length l = am_n_kv a /\ Forall (fun m => (m <= UINT32_MAX)%Z) l
}.

(** ** One entry *)
Section rows.
Context (n : nat) (a : args_set_input_kq_mask) (causal : bool).
Hypothesis Ha : mask_args_ok n a.

Let u := am_ubatch a.
Let swa := negb (bool_decide (am_swa_type a = SWA_TYPE_NONE)).
Let alibi := am_use_alibi a.

Section one_row.
Context (i q st : nat) (c : kv_cells) (p1 : Z).
Hypothesis Hr : row_at n a i q st c p1.

Lemma mask_spec_row j : mask_spec a causal i j =
  x ← seen a c q j; if hides a causal c i x.1 x.2 p1 then None else Some (if alibi then - Z.abs (x.2 - p1) else 0)%Z.
Proof.
  destruct Hr as [[ids Hi] _ Hs Hc _ Hp _ _]. unfold mask_spec. rewrite Hi. cbn [mbind option_bind head]. rewrite Nat2Z.id, Hs. cbn [mbind option_bind].
  rewrite Hc. cbn [mbind option_bind]. by rewrite Hp.
Qed.

Lemma seen_pos j cell p0 : seen a c q j = Some (cell, p0) -> (0 <= p0)%Z /\ (p0 + am_n_swa a + 32 <= INT32_MAX)%Z /\
  exists e, c_ext c !! cell = Some e /\ c_pos c !! cell = Some p0.
Proof.
  unfold seen. destruct (entry_cell a j) as [cell'|]; [|done]. cbn [mbind option_bind].
  destruct (abs_cells c !! cell') as [[p S]|] eqn:E; [|done]. cbn [mbind option_bind fst snd]. destruct (decide (q ∈ S)); [|done].
  intros [= -> ->]. pose proof (abs_pos_range n c cell p0 S (ra_wf _ _ _ _ _ _ _ Hr) E). split; [lia|]. split; [by eapply (ma_clear n a Ha); [apply Hr|]|].
  apply abs_view in E as [E _]. pose proof (sm_wf n c (ra_wf _ _ _ _ _ _ _ Hr)) as Hw. assert (cell < cells_size c) as Hlt.
  { apply view_lookup in E as [E _]. by apply lookup_lt_Some in E. }
  destruct (wf_cell c cell Hw Hlt) as (p' & S' & sh & e' & Hcell). rewrite (cell_is_view _ _ _ _ _ _ Hcell) in E. injection E as -> ->.
  destruct Hcell as (Hp & _ & _ & He). by exists e'.
Qed.

Lemma read_cell_ok j : j < am_n_kv a -> read_cell a c (Z.of_nat q) j = Ok (seen a c q j).
Proof.
  intros Hj. unfold read_cell, seen, entry_cell. pose proof (ra_wf _ _ _ _ _ _ _ Hr) as Hw.
  assert (exists m, match am_read_cells a with Some l => vec_at l j | None => Ok (Z.of_nat j) end = Ok m /\
    match am_read_cells a with None => Some j | Some l => m ← l !! j; if (m <? 0)%Z then None else Some (Z.to_nat m) end =
      (if (m <? 0)%Z then None else Some (Z.to_nat m)) /\ (m <= UINT32_MAX)%Z) as (m & -> & -> & Hm).
  { destruct (am_read_cells a) as [l|] eqn:E.
    - destruct (ma_read n a Ha l E) as [Hl Hf]. destruct (lookup_lt_is_Some_2 l j) as [m Hm]; [lia|]. exists m. unfold vec_at. rewrite Hm.
      split; [done|]. split; [done|]. rewrite Forall_lookup in Hf. by eapply Hf.
    - exists (Z.of_nat j). split; [done|]. rewrite (proj2 (Z.ltb_ge _ _)) by lia. rewrite Nat2Z.id. split; [done|].
      pose proof (ma_kv n a Ha). lia. }
  cbn [mbind outcome_bind]. destruct (m <? 0)%Z eqn:Em; [done|]. apply Z.ltb_ge in Em. rewrite u32_id by lia. set (cell := Z.to_nat m). clearbody cell.
  cbn [mbind option_bind]. destruct (cells_size c <=? cell) eqn:El.
  { apply Nat.leb_le in El. by rewrite abs_None. }
  apply Nat.leb_gt in El. destruct (wf_cell c cell (sm_wf n c Hw) El) as (p & S & sh & e & Hcell).
  rewrite (abs_cell _ _ _ _ _ _ Hcell). assert (seq_has cell q c = Ok (bool_decide (q ∈ S))) as Eh.
  { apply (seq_has_at n c cell Hw ltac:(by rewrite <- (sm_size n c Hw)) p S sh e); [done|apply Hr]. }
  assert (is_empty cell c = Ok (p =? -1)%Z) as Ee.
  { unfold is_empty. destruct Hcell as (Hp & _). rewrite Hp. cbn [mbind outcome_bind]. pose proof (wf_pos c (sm_wf n c Hw) cell p Hp).
    rewrite assert_true; [done|]. destruct (Z.leb_spec 0 p); [by rewrite orb_true_r|]. by replace p with (-1)%Z by lia. }
  rewrite Ee. cbn [mbind outcome_bind]. destruct (p =? -1)%Z eqn:Ep; [done|]. rewrite Nat2Z.id, Eh. cbn [mbind outcome_bind option_bind fst snd].
  apply Z.eqb_neq in Ep. case_bool_decide as Hq; simpl.
  - unfold pos_get. rewrite (used_cell_Some c cell p) by (done || apply Hcell). cbn [mbind outcome_bind]. by rewrite decide_True.
  - by rewrite decide_False.
Qed.

Lemma is_masked_swa_ok p0 : (0 <= p0 <= INT32_MAX)%Z ->
  is_masked_swa (am_n_swa a) (am_swa_type a) p0 p1 = Ok (window_hides (am_swa_type a) (am_n_swa a) p0 p1).
Proof.
  intros Hp0. pose proof (ra_range _ _ _ _ _ _ _ Hr) as Hp1. destruct (ma_swa n a Ha) as (H1 & H2 & H3).
  unfold is_masked_swa, window_hides. rewrite (proj2 (Z.leb_le 0 p0)), (proj2 (Z.leb_le 0 p1)) by lia. cbn [andb assert_ mbind outcome_bind].
  assert (to_i32 (am_n_swa a) = am_n_swa a) as -> by (unfold to_i32; by rewrite (proj2 (Z.leb_le _ _)) by lia).
  destruct (am_swa_type a) eqn:Et; try done.
  - rewrite (proj2 (Z.eqb_neq _ 0)) by (by apply H3). specialize (H3 eq_refl). set (w := am_n_swa a) in *.
    pose proof (Z.mul_div_le p1 w ltac:(lia)). pose proof (Z.div_pos p1 w ltac:(lia) ltac:(lia)). assert (0 <= p1 / w * w <= p1)%Z by nia.
    rewrite u32_id by (unfold UINT32_MAX, INT32_MAX in *; lia). unfold to_i32. by rewrite (proj2 (Z.leb_le _ _)) by lia.
  - rewrite Z.quot_div_nonneg by lia. pose proof (Z.div_pos (am_n_swa a) 2 ltac:(lia) ltac:(lia)). f_equal. set (h := (am_n_swa a / 2)%Z) in *.
    apply eq_true_iff_eq. rewrite orb_true_iff, !Z.ltb_lt. lia.
Qed.

Lemma is_masked_full j cell p0 x y : seen a c q j = Some (cell, p0) ->
  (is_pos_2d u = true -> u_pos u !! (i + u_n_tokens u * 2) = Some x /\ u_pos u !! (i + u_n_tokens u) = Some y) ->
  is_masked causal swa (is_pos_2d u) a c cell p0 p1 x y = Ok (hides a causal c i cell p0 p1).
Proof.
  intros Hs Hxy. destruct (seen_pos j cell p0 Hs) as (H0 & Hmax & e & He & Hp). destruct (ma_swa n a Ha) as (H1 & H2 & H3).
  unfold is_masked, hides. assert ((if causal then
      if (p1 <? p0)%Z then Ok true
      else if is_pos_2d u && (p0 =? p1)%Z then e ← ext_get cell c; Ok (is_2d_gt e x y) else Ok false
    else Ok false) = Ok (causal && in_future u c i cell p0 p1)) as ->.
  { destruct causal; [|done]. unfold in_future. destruct (p1 <? p0)%Z; [done|]. simpl. destruct (is_pos_2d u && (p0 =? p1)%Z) eqn:E; [|done].
    apply andb_true_iff in E as [E _]. destruct (Hxy E) as [-> ->]. rewrite He. unfold ext_get.
    rewrite (used_cell_Some c cell p0) by (done || lia). cbn [mbind outcome_bind]. by rewrite (vec_get_Some _ _ _ He). }
  cbn [mbind outcome_bind]. fold u. destruct (causal && in_future u c i cell p0 p1); [done|]. simpl.
  unfold swa. case_bool_decide as Ht; simpl; [by rewrite Ht|]. apply is_masked_swa_ok. lia.
Qed.

(** Whether entry [j] is computed anew in every row of the sequence. *)
Definition near (pm : Z) (j : nat) : bool :=
  match seen a c q j with Some (_, p0) => (pm <=? p0 + (am_n_swa a + 32))%Z | None => false end.

Lemma is_near_ok pm j cell p0 : seen a c q j = Some (cell, p0) -> is_near a pm p0 = Ok (near pm j).
Proof.
  intros Hs. destruct (seen_pos j cell p0 Hs) as (H0 & Hmax & _). destruct (ma_swa n a Ha) as (H1 & H2 & H3). unfold is_near, near. rewrite Hs.
  rewrite u32_id by (unfold UINT32_MAX, INT32_MAX in *; lia). unfold to_i32. rewrite (proj2 (Z.leb_le _ _)) by lia.
  rewrite i32_in by (unfold INT32_MIN; lia). done.
Qed.

Lemma mask_step_ok x y pm idst prev j data idxs : j < am_n_kv a -> idst + j < length data ->
  (is_pos_2d u = true -> u_pos u !! (i + u_n_tokens u * 2) = Some x /\ u_pos u !! (i + u_n_tokens u) = Some y) ->
  mask_step causal swa (is_pos_2d u) alibi a c (Z.of_nat q) pm p1 x y idst prev j (data, idxs) =
    Ok (<[idst + j := mask_spec a causal i j]> data, if negb alibi && negb prev && near pm j then idxs ++ [j] else idxs).
Proof.
  intros Hj Hlt Hxy. destruct (lookup_lt_is_Some_2 data (idst + j) Hlt) as [old Hold].
  unfold mask_step. rewrite read_cell_ok by done. rewrite mask_spec_row. cbn [mbind outcome_bind].
  destruct (seen a c q j) as [[cell p0]|] eqn:Es; cbn [mbind option_bind fst snd].
  2:{ rewrite (vec_set_Some _ _ _ _ Hold). unfold near. rewrite Es, andb_false_r. done. }
  destruct (seen_pos j cell p0 Es) as (H0 & Hmax & _). pose proof (ra_range _ _ _ _ _ _ _ Hr) as Hp1. destruct (ma_swa n a Ha) as (H1 & H2 & H3).
  assert ((if negb alibi && negb prev then is_near a pm p0 else Ok false) = Ok (negb alibi && negb prev && near pm j)) as ->.
  { destruct (negb alibi && negb prev); [|done]. by rewrite (is_near_ok pm j cell). }
  cbn [mbind outcome_bind]. rewrite (is_masked_full j) by done. cbn [mbind outcome_bind].
  destruct (hides a causal c i cell p0 p1).
  - cbn [mbind outcome_bind]. by rewrite (vec_set_Some _ _ _ _ Hold).
  - unfold mask_value. destruct alibi.
    + rewrite i32_in by (unfold INT32_MIN, INT32_MAX in *; lia). cbn [mbind outcome_bind]. by rewrite (vec_set_Some _ _ _ _ Hold).
    + cbn [mbind outcome_bind]. by rewrite (vec_set_Some _ _ _ _ Hold).
Qed.
End one_row.

(** A far cell looks the same to every token of the sequence. *)
Lemma far_hides c q st i p1 pm j cell p0 : row_at n a i q st c p1 -> (pm <= p1)%Z -> near q c pm j = false -> seen a c q j = Some (cell, p0) ->
  hides a causal c i cell p0 p1 = negb (bool_decide (am_swa_type a = SWA_TYPE_NONE)).
Proof.
  intros Hr Hpm Hn Hs. unfold near in Hn. rewrite Hs in Hn. apply Z.leb_gt in Hn. destruct (ma_swa n a Ha) as (H1 & H2 & H3).
  destruct (seen_pos i q st c p1 Hr j cell p0 Hs) as (H0 & _).
  unfold hides, in_future. rewrite (proj2 (Z.ltb_ge p1 p0)), (proj2 (Z.eqb_neq p0 p1)), andb_false_r, andb_false_r by lia. simpl.
  unfold window_hides. set (w := am_n_swa a) in *. clearbody w. destruct (am_swa_type a); rewrite ?bool_decide_eq_true_2, ?bool_decide_eq_false_2 by done; simpl; try done.
  - apply Z.leb_le. lia.
  - specialize (H3 eq_refl). apply Z.ltb_lt. pose proof (Z.div_mod p1 w H3). pose proof (Z.mod_pos_bound p1 w ltac:(lia)). nia.
  - apply Z.ltb_lt. pose proof (Z.div_le_upper_bound w 2 w ltac:(lia) ltac:(lia)). lia.
Qed.

Lemma far_same c q st i i' p1 p1' pm j : alibi = false -> row_at n a i q st c p1 -> row_at n a i' q st c p1' -> (pm <= p1)%Z -> (pm <= p1')%Z ->
  near q c pm j = false -> mask_spec a causal i j = mask_spec a causal i' j.
Proof.
  intros Hal Hr Hr' Hp Hp' Hn. rewrite (mask_spec_row _ _ _ _ _ Hr), (mask_spec_row _ _ _ _ _ Hr').
  destruct (seen a c q j) as [[cell p0]|] eqn:Es; [|done]. cbn [mbind option_bind fst snd].
  rewrite (far_hides c q st i p1 pm j), (far_hides c q st i' p1' pm j) by done. by rewrite Hal.
Qed.

(** The smallest position of every sequence in the batch. *)
Lemma batch_pos_min_ok : exists m, batch_pos_min u = Ok m /\ length m = LLAMA_MAX_SEQ /\
  forall i q st c p1, i < u_n_tokens u -> row_at n a i q st c p1 -> exists v, m !! q = Some v /\ (v <= p1)%Z.
Proof.
  unfold batch_pos_min. destruct (foldM_seq (fun m i => seq_id ← first_id u i; v ← arr_get m seq_id; p ← vec_get (u_pos u) i; arr_set m seq_id (Z.min v p))
    (fun k m => length m = LLAMA_MAX_SEQ /\ forall i q st c p1, i < k -> row_at n a i q st c p1 -> exists v, m !! q = Some v /\ (v <= p1)%Z)
    0 (u_n_tokens u) (replicate LLAMA_MAX_SEQ INT32_MAX)) as (m & E & Hl & Hm).
  - split; [apply length_replicate|]. intros; lia.
  - intros k m Hk [Hl Hm]. destruct (ma_rows n a Ha k ltac:(fold u; lia)) as (q & st & c & p1 & Hr). destruct Hr as [[ids Hi] Hq Hs Hc Hw Hp Hrg H2d] eqn:Er.
    destruct (lookup_lt_is_Some_2 m q ltac:(lia)) as [v Hv].
    assert (first_id u k = Ok (Z.of_nat q)) as -> by (unfold first_id, u; rewrite (vec_get_Some _ _ _ Hi); done). cbn [mbind outcome_bind].
    unfold arr_get, arr_set. rewrite (proj2 (Z.ltb_ge _ _)), Nat2Z.id by lia. rewrite (vec_get_Some _ _ _ Hv). cbn [mbind outcome_bind].
    unfold u. rewrite (vec_get_Some _ _ _ Hp). cbn [mbind outcome_bind]. rewrite (vec_set_Some _ _ _ _ Hv).
    eexists. split; [done|]. split; [by rewrite length_insert|]. intros i q' st' c' p' Hik Hr'. clear Er. destruct (decide (i = k)) as [->|Hne].
    + destruct Hr' as [[ids' Hi'] _ _ _ _ Hp' _ _]. rewrite Hi in Hi'. injection Hi' as Hq' _. apply Nat2Z.inj in Hq' as <-. rewrite Hp in Hp'. injection Hp' as <-.
      exists (Z.min v p1). rewrite list_lookup_insert_eq by lia. split; [done|lia].
    + destruct (Hm i q' st' c' p' ltac:(lia) Hr') as (v' & Hv' & Hle). destruct (decide (q' = q)) as [->|Hnq].
      * rewrite Hv in Hv'. injection Hv' as <-. exists (Z.min v p1). rewrite list_lookup_insert_eq by lia. split; [done|lia].
      * exists v'. by rewrite list_lookup_insert_ne.
  - exists m. split; [done|]. split; [done|]. done.
Qed.

(** ** One row *)
Section row_loops.
Context (i q st : nat) (c : kv_cells) (p1 x y pm : Z).
Hypothesis Hr : row_at n a i q st c p1.
Hypothesis Hxy : is_pos_2d u = true -> u_pos u !! (i + u_n_tokens u * 2) = Some x /\ u_pos u !! (i + u_n_tokens u) = Some y.

Let step prev := mask_step causal swa (is_pos_2d u) alibi a c (Z.of_nat q) pm p1 x y (am_n_kv a * i) prev.

Lemma step_ok prev j data idxs : j < am_n_kv a -> am_n_kv a * i + j < length data ->
  step prev j (data, idxs) = Ok (<[am_n_kv a * i + j := mask_spec a causal i j]> data, if negb alibi && negb prev && near q c pm j then idxs ++ [j] else idxs).
Proof. intros. by apply (mask_step_ok i q st c p1 Hr). Qed.

Lemma mask_loop_first len : forall jj data idxs, jj + len <= am_n_kv a -> am_n_kv a * i + am_n_kv a <= length data ->
  exists data', mask_loop (step false) false len jj (data, idxs) =
      Ok (data', if alibi then idxs else idxs ++ List.filter (near q c pm) (seq jj len)) /\ length data' = length data /\
    forall k, data' !! k = if decide (am_n_kv a * i + jj <= k < am_n_kv a * i + jj + len) then Some (mask_spec a causal i (k - am_n_kv a * i)) else data !! k.
Proof.
  induction len as [|len IH]; intros jj data idxs Hj Hl.
  - exists data. cbn [mask_loop seq List.filter]. rewrite app_nil_r. split; [by destruct alibi|]. split; [done|]. intros k. by rewrite decide_False by lia.
  - cbn [mask_loop]. rewrite step_ok by (done || lia). cbn [mbind outcome_bind].
    set (idxs' := if _ : bool then _ else _). destruct (IH (jj + 1) (<[am_n_kv a * i + jj := mask_spec a causal i jj]> data) idxs') as (data' & E & Hl' & Hd); [lia|by rewrite length_insert|].
    rewrite length_insert in Hl'. exists data'. rewrite E. split; [|split; [done|]].
    + do 2 f_equal. subst idxs'. destruct alibi; [done|]. cbn [seq List.filter]. rewrite Nat.add_1_r. simpl. destruct (near q c pm jj); [by rewrite <- app_assoc|done].
    + intros k. rewrite Hd. destruct (decide (k = am_n_kv a * i + jj)) as [->|Hne].
      * rewrite decide_False, decide_True by lia. rewrite list_lookup_insert_eq by lia. do 2 f_equal. lia.
      * rewrite list_lookup_insert_ne by done. destruct (decide (_ <= k < _)) as [H1|H1].
        -- by rewrite decide_True by lia.
        -- by rewrite decide_False by lia.
Qed.

Lemma mask_loop_again len : forall jj data idxs, Forall (fun j => j < am_n_kv a) idxs -> length idxs <= jj + len -> am_n_kv a * i + am_n_kv a <= length data ->
  exists data', mask_loop (step true) true len jj (data, idxs) = Ok (data', idxs) /\ length data' = length data /\
    forall k, data' !! k = if decide (k ∈ Nat.add (am_n_kv a * i) <$> drop jj idxs) then Some (mask_spec a causal i (k - am_n_kv a * i)) else data !! k.
Proof.
  induction len as [|len IH]; intros jj data idxs Hf Hj Hl.
  - exists data. cbn [mask_loop]. split; [done|]. split; [done|]. intros k. rewrite drop_ge, fmap_nil by lia. by rewrite decide_False by (apply not_elem_of_nil).
  - cbn [mask_loop snd]. destruct (idxs !! jj) as [j|] eqn:Ej.
    2:{ exists data. split; [done|]. split; [done|]. intros k. apply lookup_ge_None in Ej. rewrite drop_ge, fmap_nil by lia.
        by rewrite decide_False by (apply not_elem_of_nil). }
    assert (j < am_n_kv a) as Hlt by (rewrite Forall_lookup in Hf; by eapply Hf).
    rewrite step_ok by (done || lia). cbn [mbind outcome_bind negb]. rewrite andb_false_r. cbn [andb].
    destruct (IH (jj + 1) (<[am_n_kv a * i + j := mask_spec a causal i j]> data) idxs Hf) as (data' & E & Hl' & Hd); [lia|by rewrite length_insert|].
    rewrite length_insert in Hl'. exists data'. rewrite E. split; [done|]. split; [done|].
    intros k. rewrite Hd. rewrite (drop_S idxs j jj Ej), fmap_cons, Nat.add_1_r. destruct (decide (k ∈ _ <$> drop (Datatypes.S jj) idxs)) as [H1|H1].
    + by rewrite decide_True by (by right).
    + destruct (decide (k = am_n_kv a * i + j)) as [->|Hne].
      * rewrite decide_True by (by left). rewrite list_lookup_insert_eq by lia. do 2 f_equal. lia.
      * rewrite list_lookup_insert_ne by done. rewrite decide_False; [done|]. by intros [?|?]%elem_of_cons.
Qed.
End row_loops.

Lemma copy_entries_ok data src dst len : src + len <= length data -> dst + len <= length data ->
  exists data', copy_entries data src dst len = Ok data' /\ length data' = length data /\
    forall k, data' !! k = if decide (dst <= k < dst + len) then data !! (src + (k - dst)) else data !! k.
Proof.
  intros H1 H2. unfold copy_entries. rewrite (proj2 (Nat.leb_le _ _) H1), (proj2 (Nat.leb_le _ _) H2). simpl. eexists. split; [done|].
  assert (length (take dst data) = dst) as Lt by (rewrite length_take; lia).
  assert (length (take len (drop src data)) = len) as Ll by (rewrite length_take, length_drop; lia).
  split; [rewrite !length_app, Lt, Ll, length_drop; lia|]. intros k. destruct (Nat.lt_ge_cases k dst) as [Hk|Hk].
  - rewrite decide_False by lia. rewrite lookup_app_l by lia. by rewrite lookup_take_lt.
  - rewrite lookup_app_r, Lt by lia. destruct (Nat.lt_ge_cases k (dst + len)) as [Hk2|Hk2].
    + rewrite decide_True by lia. rewrite lookup_app_l by lia. rewrite lookup_take_lt by lia. by rewrite lookup_drop.
    + rewrite decide_False by lia. rewrite lookup_app_r by lia. rewrite Ll, lookup_drop. f_equal. lia.
Qed.

(** ** One stream after another *)

(** The rows before token [i] are done, the others untouched. *)
Definition rows_done (data0 data : list mask_entry) (i : nat) : Prop :=
  length data = length data0 /\
  (forall i' j, i' < i -> j < am_n_kv a -> data !! (am_n_kv a * i' + j) = Some (mask_spec a causal i' j)) /\
  (forall k, am_n_kv a * i <= k -> data !! k = data0 !! k).

Definition idxs_ok (pos_mins : list Z) (i : nat) (srct : gmap Z nat) (idxs : gmap Z (list nat)) : Prop :=
  forall z i0, srct !! z = Some i0 -> i0 < i /\ exists q st c p pm, z = Z.of_nat q /\ row_at n a i0 q st c p /\ pos_mins !! q = Some pm /\
    idxs !! z = Some (List.filter (near q c pm) (seq 0 (am_n_kv a))).

Lemma rows_done_next data0 data i data' : rows_done data0 data i -> length data' = length data ->
  (forall j, j < am_n_kv a -> data' !! (am_n_kv a * i + j) = Some (mask_spec a causal i j)) ->
  (forall k, k < am_n_kv a * i \/ am_n_kv a * (i + 1) <= k -> data' !! k = data !! k) -> rows_done data0 data' (i + 1).
Proof.
  intros (H1 & H2 & H3) Hl Hrow Hrest. split; [congruence|]. split.
  - intros i' j Hi Hj. destruct (decide (i' = i)) as [->|Hne]; [by apply Hrow|]. rewrite Hrest by (left; nia). apply H2; lia.
  - intros k Hk. rewrite Hrest by (right; lia). apply H3. nia.
Qed.

Lemma row_at_unique i i' q st st' c c' p p' : row_at n a i q st c p -> row_at n a i' q st' c' p' -> st' = st /\ c' = c.
Proof. intros [_ _ H1 H2 _ _ _ _] [_ _ H1' H2' _ _ _ _]. rewrite H1 in H1'. injection H1' as <-. rewrite H2 in H2'. by injection H2' as <-. Qed.

Lemma idxs_next pos_mins i srct idxs q st c p pm : idxs_ok pos_mins i srct idxs -> row_at n a i q st c p -> pos_mins !! q = Some pm ->
  forall i0, (i0 = i \/ srct !! Z.of_nat q = Some i0) ->
  idxs_ok pos_mins (i + 1) (<[Z.of_nat q := i0]> srct) (<[Z.of_nat q := List.filter (near q c pm) (seq 0 (am_n_kv a))]> idxs).
Proof.
  intros Hok Hr Hpm i0 Hi0 z i1 Hz. apply lookup_insert_Some in Hz as [[<- <-]|[Hne Hz]].
  - destruct Hi0 as [->|Hi0].
    + split; [lia|]. exists q, st, c, p, pm. rewrite lookup_insert_eq. done.
    + destruct (Hok _ _ Hi0) as [Hlt (q' & st' & c' & p' & pm' & Hq & Hr' & Hpm' & _)]. apply Nat2Z.inj in Hq as <-. split; [lia|].
      destruct (row_at_unique i i0 q st st' c c' p p' Hr Hr') as [-> ->]. exists q, st, c, p', pm. rewrite lookup_insert_eq. done.
  - destruct (Hok z i1 Hz) as [Hlt (q' & st' & c' & p' & pm' & Hq & Hr' & Hpm' & Hidx)]. split; [lia|]. exists q', st', c', p', pm'.
    by rewrite lookup_insert_ne.
Qed.

(** Reading the token; the rest of the body is the choice of the row to start from and
    the loop. *)
Lemma mask_token_head pos_mins i q stream c p1 pm : row_at n a i q stream c p1 -> pos_mins !! q = Some pm ->
  exists x y, (is_pos_2d u = true -> u_pos u !! (i + u_n_tokens u * 2) = Some x /\ u_pos u !! (i + u_n_tokens u) = Some y) /\
  forall st, mask_token causal swa (is_pos_2d u) alibi a pos_mins i st =
    (r ← (if alibi then Ok (ms_data st, ms_srct st, default [] (ms_idxs st !! Z.of_nat q), false)
          else match ms_srct st !! Z.of_nat q with
               | Some srct => data ← copy_entries (ms_data st) (am_n_kv a * srct) (am_n_kv a * i) (am_n_kv a);
                   Ok (data, ms_srct st, default [] (ms_idxs st !! Z.of_nat q), true)
               | None => Ok (ms_data st, <[Z.of_nat q := i]> (ms_srct st), [], false)
               end);
     let '(data, srcts, idxs, prev) := r in
     res ← mask_loop (mask_step causal swa (is_pos_2d u) alibi a c (Z.of_nat q) pm p1 x y (am_n_kv a * i) prev) (negb alibi && prev) (am_n_kv a) 0 (data, idxs);
     let '(data, idxs) := res in
     Ok (mk_mask_state data srcts (<[Z.of_nat q := idxs]> (ms_idxs st)))).
Proof.
  intros Hr Hpm.
  assert (exists x y, (if is_pos_2d u then vec_get (u_pos u) (i + u_n_tokens u * 2) else Ok 0%Z) = Ok x /\
    (if is_pos_2d u then vec_get (u_pos u) (i + u_n_tokens u) else Ok 0%Z) = Ok y /\
    (is_pos_2d u = true -> u_pos u !! (i + u_n_tokens u * 2) = Some x /\ u_pos u !! (i + u_n_tokens u) = Some y)) as (x & y & Ex & Ey & Hxy).
  { pose proof (ra_2d _ _ _ _ _ _ _ Hr) as H2d. fold u in H2d. destruct (is_pos_2d u); [|by exists 0%Z, 0%Z].
    destruct (H2d eq_refl) as (x & y & Hx & Hy). exists x, y. by rewrite (vec_get_Some _ _ _ Hx), (vec_get_Some _ _ _ Hy). }
  exists x, y. split; [done|]. intros st. destruct Hr as [[ids Hid] Hq Hs Hc Hw Hp _ _].
  unfold mask_token. cbv zeta. fold u. assert (first_id u i = Ok (Z.of_nat q)) as -> by (unfold first_id, u; rewrite (vec_get_Some _ _ _ Hid); done).
  cbn [mbind outcome_bind]. rewrite (arr_get_Z _ _ _ Hs). cbn [mbind outcome_bind].
  unfold vec_at at 1. rewrite Hc. cbn [mbind outcome_bind]. fold u in Hp. rewrite (vec_get_Some _ _ _ Hp). cbn [mbind outcome_bind].
  rewrite Ex. cbn [mbind outcome_bind]. rewrite Ey. cbn [mbind outcome_bind]. by rewrite (arr_get_Z _ _ _ Hpm).
Qed.

(** The row of a sequence already seen. *)
Lemma reused_row data0 i q stream c p1 x y pm data i0 p0 : alibi = false -> row_at n a i q stream c p1 -> row_at n a i0 q stream c p0 ->
  (is_pos_2d u = true -> u_pos u !! (i + u_n_tokens u * 2) = Some x /\ u_pos u !! (i + u_n_tokens u) = Some y) ->
  (pm <= p1)%Z -> (pm <= p0)%Z -> i0 < i -> am_n_kv a * i + am_n_kv a <= length data0 -> rows_done data0 data i ->
  exists d1 data', copy_entries data (am_n_kv a * i0) (am_n_kv a * i) (am_n_kv a) = Ok d1 /\
    mask_loop (mask_step causal swa (is_pos_2d u) alibi a c (Z.of_nat q) pm p1 x y (am_n_kv a * i) true) true (am_n_kv a) 0
      (d1, List.filter (near q c pm) (seq 0 (am_n_kv a))) = Ok (data', List.filter (near q c pm) (seq 0 (am_n_kv a))) /\ rows_done data0 data' (i + 1).
Proof.
  intros Eal Hr Hr0 Hxy Hle Hle0 Hlt Hrow Hdone. pose proof Hdone as (L1 & D1 & D2).
  assert (Forall (fun j => j < am_n_kv a) (List.filter (near q c pm) (seq 0 (am_n_kv a)))) as Hf.
  { apply Forall_forall. intros j Hj. apply list_elem_of_In, List.filter_In in Hj as [Hj _]. apply list_elem_of_In, elem_of_seq in Hj. lia. }
  assert (length (List.filter (near q c pm) (seq 0 (am_n_kv a))) <= 0 + am_n_kv a) as Hlf.
  { etransitivity; [apply List.filter_length_le|]. by rewrite length_seq. }
  destruct (copy_entries_ok data (am_n_kv a * i0) (am_n_kv a * i) (am_n_kv a)) as (d1 & E1 & Hl1 & Hd1); [nia|lia|].
  destruct (mask_loop_again i q stream c p1 x y pm Hr Hxy (am_n_kv a) 0 d1 (List.filter (near q c pm) (seq 0 (am_n_kv a)))) as (data' & E & Hl' & Hd); [done|done|lia|].
  exists d1, data'. split; [done|]. split; [done|]. apply (rows_done_next _ data); [done|congruence| |].
  - intros j Hj. rewrite Hd, drop_0. destruct (decide _) as [Hin|Hin]; [do 2 f_equal; lia|]. rewrite Hd1, decide_True by lia.
    replace (am_n_kv a * i + j - am_n_kv a * i) with j by lia. rewrite D1 by done. f_equal.
    apply (far_same c q stream i0 i p0 p1 pm); try done.
    apply not_true_iff_false. intros Hn. apply Hin, list_elem_of_fmap. exists j. split; [done|].
    apply list_elem_of_In, List.filter_In. split; [|done]. apply list_elem_of_In, elem_of_seq. lia.
  - intros k Hk. rewrite Hd, drop_0. rewrite decide_False; [rewrite Hd1, decide_False by lia; done|].
    intros (j & -> & Hj)%list_elem_of_fmap. rewrite Forall_forall in Hf. specialize (Hf j Hj). lia.
Qed.

(** A row of its own. *)
Lemma own_row data0 i q stream c p1 x y pm data idxs : row_at n a i q stream c p1 ->
  (is_pos_2d u = true -> u_pos u !! (i + u_n_tokens u * 2) = Some x /\ u_pos u !! (i + u_n_tokens u) = Some y) ->
  am_n_kv a * i + am_n_kv a <= length data0 -> rows_done data0 data i ->
  exists data', mask_loop (mask_step causal swa (is_pos_2d u) alibi a c (Z.of_nat q) pm p1 x y (am_n_kv a * i) false) false (am_n_kv a) 0 (data, idxs) =
    Ok (data', if alibi then idxs else idxs ++ List.filter (near q c pm) (seq 0 (am_n_kv a))) /\ rows_done data0 data' (i + 1).
Proof.
  intros Hr Hxy Hrow Hdone. pose proof Hdone as (L1 & D1 & D2).
  destruct (mask_loop_first i q stream c p1 x y pm Hr Hxy (am_n_kv a) 0 data idxs) as (data' & E & Hl' & Hd); [lia|lia|].
  exists data'. split; [done|]. apply (rows_done_next _ data); [done|done| |].
  - intros j Hj. rewrite Hd, decide_True by lia. do 2 f_equal. lia.
  - intros k Hk. rewrite Hd, decide_False by lia. done.
Qed.

Lemma mask_token_ok data0 pos_mins i st :
  (forall i q st c p1, i < u_n_tokens u -> row_at n a i q st c p1 -> exists v, pos_mins !! q = Some v /\ (v <= p1)%Z) ->
  i < u_n_tokens u -> am_n_kv a * u_n_tokens u <= length data0 -> rows_done data0 (ms_data st) i -> (alibi = false -> idxs_ok pos_mins i (ms_srct st) (ms_idxs st)) ->
  exists st', mask_token causal swa (is_pos_2d u) alibi a pos_mins i st = Ok st' /\ rows_done data0 (ms_data st') (i + 1) /\
    (alibi = false -> idxs_ok pos_mins (i + 1) (ms_srct st') (ms_idxs st')).
Proof.
  intros Hmins Hi Hlen Hdone Hidx. destruct (ma_rows n a Ha i Hi) as (q & stream & c & p1 & Hr).
  destruct (Hmins i q stream c p1 Hi Hr) as (pm & Hpm & Hle). assert (am_n_kv a * i + am_n_kv a <= length data0) as Hrow by nia.
  destruct (mask_token_head pos_mins i q stream c p1 pm Hr Hpm) as (x & y & Hxy & ->). destruct alibi eqn:Eal.
  - cbn [mbind outcome_bind negb andb].
    destruct (own_row data0 i q stream c p1 x y pm (ms_data st) (default [] (ms_idxs st !! Z.of_nat q)) Hr Hxy Hrow Hdone) as (data' & E & Hd).
    rewrite Eal in E. rewrite E. eexists. by split.
  - specialize (Hidx eq_refl). destruct (ms_srct st !! Z.of_nat q) as [i0|] eqn:Esrc.
    + destruct (Hidx _ _ Esrc) as [Hlt (q' & st' & c' & p' & pm' & Hq' & Hr0 & Hpm' & Hidxs)]. apply Nat2Z.inj in Hq' as <-.
      destruct (row_at_unique i i0 q stream st' c c' p1 p' Hr Hr0) as [-> ->]. rewrite Hpm in Hpm'. injection Hpm' as <-.
      destruct (Hmins i0 q stream c p' ltac:(lia) Hr0) as (pm' & Hpm' & Hle'). rewrite Hpm in Hpm'. injection Hpm' as <-.
      destruct (reused_row data0 i q stream c p1 x y pm (ms_data st) i0 p' Eal Hr Hr0 Hxy) as (d1 & data' & E1 & E & Hd); try done.
      rewrite E1. cbn [mbind outcome_bind negb andb]. rewrite Hidxs. cbn [default from_option id].
      rewrite Eal in E. rewrite E. eexists. split; [done|]. split; [done|]. intros _. cbn [ms_srct ms_idxs].
      rewrite <- (insert_id (ms_srct st) (Z.of_nat q) i0) by done. apply (idxs_next _ _ _ _ _ stream c p1); [done|done|done|by right].
    + cbn [mbind outcome_bind negb andb].
      destruct (own_row data0 i q stream c p1 x y pm (ms_data st) [] Hr Hxy Hrow Hdone) as (data' & E & Hd).
      rewrite Eal in E. rewrite E. eexists. split; [done|]. split; [done|]. intros _. cbn [ms_srct ms_idxs app].
      apply (idxs_next _ _ _ _ _ stream c p1); [done|done|done|by left].
Qed.

Lemma mask_rows_ok data : am_n_kv a * u_n_tokens u <= length data ->
  exists data', set_input_kq_mask_impl a causal data = Ok data' /\ rows_done data data' (u_n_tokens u).
Proof.
  intros Hlen. unfold set_input_kq_mask_impl, set_input_kq_mask_rows. destruct batch_pos_min_ok as (m & E & _ & Hm). fold u. rewrite E. cbn [mbind outcome_bind].
  pose proof (ma_tokens n a Ha) as Ht. fold u in Ht.
  destruct (foldM_seq (fun data s =>
    st ← foldM (fun st ii => mask_token causal swa (is_pos_2d u) alibi a m (s * am_n_tps a + ii) st) (seq 0 (am_n_tps a)) (mk_mask_state data ∅ ∅);
    Ok (ms_data st)) (fun s d => rows_done data d (s * am_n_tps a)) 0 (am_n_stream a) data) as (data' & E' & Hd).
  - split; [done|]. split; [intros; lia|done].
  - intros s d Hs Hd. destruct (foldM_seq (fun st ii => mask_token causal swa (is_pos_2d u) alibi a m (s * am_n_tps a + ii) st)
      (fun ii st => rows_done data (ms_data st) (s * am_n_tps a + ii) /\ (alibi = false -> idxs_ok m (s * am_n_tps a + ii) (ms_srct st) (ms_idxs st)))
      0 (am_n_tps a) (mk_mask_state d ∅ ∅)) as (st & Est & Hst & _).
    + rewrite Nat.add_0_r. split; [done|]. intros _ z i0 Hz. cbn [ms_srct] in Hz. by rewrite lookup_empty in Hz.
    + intros ii st Hii [H1 H2]. assert (s * am_n_tps a + ii < u_n_tokens u) as Hlt by nia.
      destruct (mask_token_ok data m (s * am_n_tps a + ii) st Hm Hlt Hlen H1 H2) as (st' & E1 & H3 & H4). exists st'. split; [done|].
      by rewrite Nat.add_assoc.
    + rewrite Est. cbn [mbind outcome_bind]. eexists. split; [done|]. replace ((s + 1) * am_n_tps a) with (s * am_n_tps a + (0 + am_n_tps a)) by lia. done.
  - exists data'. split; [exact E'|]. cbn [Nat.add] in Hd. by rewrite Ht in Hd.
Qed.
End rows.

(** ** The mask of a cache *)

(** What the callers give: a batch whose tokens name sequences and have valid
    positions, cut evenly into streams; [read_cells] is empty or lists the cells to read. *)
Record mask_input_ok (k : kv_cache) (u : llama_ubatch) (n_kv n_stream : nat) (read_cells : list Z) : Prop := {
  mi_tokens : forall i, i < u_n_tokens u -> exists q ids st p1, u_seq_id u !! i = Some (Z.of_nat q :: ids) /\ seq_to_stream k !! q = Some st /\
    u_pos u !! i = Some p1 /\ (0 <= p1 <= INT32_MAX)%Z /\
    (is_pos_2d u = true -> exists x y, u_pos u !! (i + u_n_tokens u * 2) = Some x /\ u_pos u !! (i + u_n_tokens u) = Some y);
  mi_streams : 0 < n_stream /\ u_n_tokens u mod n_stream = 0;
  mi_swa : (0 <= n_swa (k_cfg k))%Z /\ (n_swa (k_cfg k) + 32 <= INT32_MAX)%Z /\ (swa_type (k_cfg k) = SWA_TYPE_CHUNKED -> n_swa (k_cfg k) <> 0%Z);
  mi_clear : forall st c i p S, v_cells k !! st = Some c -> abs_cells c !! i = Some (p, S) -> (p + n_swa (k_cfg k) + 32 <= INT32_MAX)%Z;
  mi_kv : (Z.of_nat n_kv <= UINT32_MAX)%Z;
  mi_read : read_cells = [] \/ n_stream = 1 /\ length read_cells = n_kv /\ Forall (fun m => (m <= UINT32_MAX)%Z) read_cells
}.

Lemma mask_input_args alibi n k u n_kv n_stream read_cells : kv_wf n k -> mask_input_ok k u n_kv n_stream read_cells ->
  mask_args_ok n (mask_args_of alibi n_kv n_stream u read_cells k).
Proof.
  intros Hk [Ht [Hs Hmod] Hw Hc Hkv Hrd]. split; cbn [mask_args_of am_ubatch am_v_cells am_seq_to_stream am_n_swa am_swa_type am_n_kv am_n_stream am_n_tps am_read_cells]; try done.
  - intros i Hi. destruct (Ht i Hi) as (q & ids & st & p1 & H1 & H2 & H3 & H4 & H5).
    assert (st < KvCache.n_stream (k_cfg k)) as Hst by (pose proof (proj1 (Forall_lookup _ _) (kw_map n k Hk) _ _ H2) as H; exact H).
    destruct (lookup_lt_is_Some_2 (v_cells k) st) as [c Hcs]; [by rewrite (kw_streams n k Hk)|]. exists q, st, c, p1. split; try done.
    + by exists ids.
    + destruct (kw_seqs n k Hk) as [_ Hmax]. apply lookup_lt_Some in H2. lia.
    + by apply (kw_cells n k Hk st).
  - pose proof (Nat.div_mod_eq (u_n_tokens u) n_stream). lia.
  - intros l. destruct (length read_cells =? 0) eqn:E; [done|]. intros [= <-]. apply Nat.eqb_neq in E.
    destruct Hrd as [->|(_ & H1 & H2)]; [by destruct E|]. done.
Qed.

(** C5: the attention mask.  Entry [j] of the row of token [i] is minus infinity unless the
    cell it reads (cell [j], or the one [read_cells] lists) holds a position of the token's
    first sequence, that position is not in the token's future (for causal attention; at
    equal positions the place in the image decides) and the window does not hide it; then
    it is 0, or minus the distance with linear biases.  The optimised code, which copies
    the row of the first token of a sequence and recomputes only the cells near the
    positions of the batch, computes exactly this, writes nothing else and never faults,
    as long as positions stay below the end of their type by the window plus 32. *)
Theorem kq_mask_correct alibi n k u causal n_kv n_stream read_cells data :
  kv_wf n k -> mask_input_ok k u n_kv n_stream read_cells -> n_kv * u_n_tokens u <= length data ->
  exists data', set_input_kq_mask_mapped alibi n_kv n_stream u causal read_cells k data = Ok data' /\ length data' = length data /\
    (forall i j, i < u_n_tokens u -> j < n_kv ->
       data' !! (n_kv * i + j) = Some (mask_spec (mask_args_of alibi n_kv n_stream u read_cells k) causal i j)) /\
    (forall x, n_kv * u_n_tokens u <= x -> data' !! x = data !! x).
Proof.
  intros Hk Hin Hlen. pose proof (mask_input_args alibi n k u n_kv n_stream read_cells Hk Hin) as Ha. destruct Hin as [_ [Hs Hmod] _ _ _ Hrd].
  destruct (mask_rows_ok n _ causal Ha data Hlen) as (data' & E & H1 & H2 & H3). exists data'. split; [|by split].
  unfold set_input_kq_mask_mapped.
  assert ((length read_cells =? 0) || ((n_stream =? 1) && (length read_cells =? n_kv)) = true) as Hb.
  { destruct Hrd as [->|(-> & <- & _)]; [done|]. rewrite !Nat.eqb_refl. by rewrite orb_true_r. }
  rewrite (assert_true _ Hb). cbn [mbind outcome_bind]. rewrite (proj2 (Nat.eqb_neq n_stream 0)) by lia. cbn [mbind outcome_bind].
  rewrite assert_true by (by apply Nat.eqb_eq). exact E.
Qed.

(** Two tokens of one sequence: the second row is patched. *)
Definition demo_two : llama_ubatch := mk_ubatch true 2 2 1 1 1 None None [8%Z; 9%Z] [1%Z; 1%Z] [[3%Z]; [3%Z]] [3] [] [].

Lemma kq_mask_correct_witness :
  set_input_kq_mask_mapped false 4 1 demo_two true [] (demo_cache 1 0) (replicate 8 None) =
    Ok [None; Some 0%Z; None; None; None; Some 0%Z; Some 0%Z; None] /\
  Some (mask_spec (mask_args_of false 4 1 demo_two [] (demo_cache 1 0)) true 0 2) = Some mask_drop.
Proof.
  assert (set_input_kq_mask_mapped false 4 1 demo_two true [] (demo_cache 1 0) (replicate 8 None) =
    Ok [None; Some 0%Z; None; None; None; Some 0%Z; Some 0%Z; None]) as E0 by (vm_compute; reflexivity).
  split; [exact E0|]. assert (kv_wf 4 (demo_cache 1 0)) as Hk by (apply demo_cache_wf; by left).
  assert (mask_input_ok (demo_cache 1 0) demo_two 4 1 []) as Hin.
  { split.
    - intros [|[|i]] Hi; [| |simpl in Hi; lia]; (eexists 3, [], 0, _; split; [reflexivity|]; split; [reflexivity|]; split; [reflexivity|]; split;
        [vm_compute; split; discriminate|intros H; discriminate H]).
    - split; [lia|reflexivity].
    - split; [vm_compute; discriminate|]. split; [vm_compute; discriminate|intros H; discriminate H].
    - intros [|st] c i p T Hst Hi; [|by destruct st]. injection Hst as <-.
      assert (map_Forall (fun _ x => (x.1 <= 9)%Z) (abs_cells demo_cells)) as H by (apply (bool_decide_unpack _); vm_compute; exact I).
      specialize (H i _ Hi). simpl in *. unfold INT32_MAX. lia.
    - vm_compute. discriminate.
    - by left. }
  destruct (kq_mask_correct false 4 (demo_cache 1 0) demo_two true 4 1 [] (replicate 8 None) Hk Hin) as (d & E & _ & Hd & _); [simpl; lia|].
  specialize (Hd 0 2 ltac:(simpl; lia) ltac:(lia)). rewrite E0 in E. injection E as <-. rewrite <- Hd. reflexivity.
Defined.
