(* ===== verification/KvRows.v ===== *)
(** * The rows a batch writes

    [set_input_k_idxs] and [set_input_v_idxs] give every token of a slot rows of the key
    and value buffers, which hold all streams one after the other; a transposed value
    buffer has one row of cells per channel.  The rows are exactly those of the cells of
    the slot, all different and inside the buffer. *)

From S2P Require Import KvCells Batch BatchInit.
From S2P Require Export KvMask KvPrepare.
Open Scope nat_scope.

(** ** Filling a vector block by block *)
Section fill.
Context {A : Type}.

(** [l] with the block from [base] on replaced. *)
Definition put_block (base : nat) (b l : list A) : list A := take base l ++ b ++ drop (base + length b) l.

Lemma put_block_length base b l : base + length b <= length l -> length (put_block base b l) = length l.
Proof. intros H. unfold put_block. rewrite !length_app, length_take, length_drop. lia. Qed.

Lemma put_block_app base b1 b2 l : base + length (b1 ++ b2) <= length l ->
  put_block (base + length b1) b2 (put_block base b1 l) = put_block base (b1 ++ b2) l.
Proof.
  intros H. rewrite length_app in H. unfold put_block.
  assert (length (take base l ++ b1) = base + length b1) as Hl by (rewrite length_app, length_take; lia).
  rewrite (app_assoc (take base l)). rewrite take_app_le by lia. rewrite take_ge by lia.
  rewrite drop_app_ge by lia. rewrite Hl, drop_drop, length_app. rewrite <- !app_assoc. do 4 f_equal. lia.
Qed.

Lemma put_block_nil base l : put_block base [] l = l.
Proof. unfold put_block. simpl. rewrite Nat.add_0_r. apply take_drop. Qed.

Lemma put_block_one base x l : base < length l -> <[base := x]> l = put_block base [x] l.
Proof. intros H. unfold put_block. rewrite (insert_take_drop l base x H). simpl. by rewrite Nat.add_1_r. Qed.

(** A loop that fills blocks of [m] elements, one after the other. *)
Lemma fill_blocks (body : list A -> nat -> outcome (list A)) (B : nat -> list A) base m N l :
  (forall s, s < N -> length (B s) = m) -> base + N * m <= length l ->
  (forall s d, s < N -> length d = length l -> body d s = Ok (put_block (base + s * m) (B s) d)) ->
  foldM body (seq 0 N) l = Ok (put_block base (concat (B <$> seq 0 N)) l) /\ length (concat (B <$> seq 0 N)) = N * m.
Proof.
  intros HB Hl Hbody. induction N as [|N IH].
  - simpl. by rewrite put_block_nil.
  - destruct IH as [IH Hc]; [auto with lia|lia|auto with lia|]. rewrite seq_S, foldM_app, IH. cbn [mbind outcome_bind foldM Nat.add].
    rewrite Hbody; [|lia|by rewrite put_block_length by lia]. rewrite fmap_app, concat_app. cbn [fmap list_fmap concat]. rewrite app_nil_r.
    assert (length (concat (B <$> seq 0 N) ++ B N) = Datatypes.S N * m) as Hlen by (rewrite length_app, Hc, HB by lia; lia).
    split; [|done]. cbn [mbind outcome_bind]. f_equal. rewrite <- Hc. apply put_block_app. lia.
Qed.

(** The same for single elements. *)
Lemma fill_ones (body : list A -> nat -> outcome (list A)) (f : nat -> A) base N l :
  base + N <= length l ->
  (forall s d, s < N -> length d = length l -> body d s = vec_set d (base + s) (f s)) ->
  foldM body (seq 0 N) l = Ok (put_block base (f <$> seq 0 N) l).
Proof.
  intros Hl Hbody. assert (concat ((fun s => [f s]) <$> seq 0 N) = f <$> seq 0 N) as E by (induction (seq 0 N) as [|x y IH]; [done|simpl; f_equal; exact IH]).
  rewrite <- E. apply (fill_blocks body (fun s => [f s]) base 1 N l); [done|lia|]. intros s d Hs Hd. rewrite Hbody by done. rewrite Nat.mul_1_r.
  rewrite <- put_block_one by lia. destruct (lookup_lt_is_Some_2 d (base + s) ltac:(lia)) as [y Hy]. by apply (vec_set_Some _ _ y).
Qed.
End fill.

(** ** The rows *)

(** Row of a cell, in a buffer of [n] cells per stream, and its [e] entries when
    transposed. *)
Definition key_row (n : nat) (x : nat * nat) : Z := (Z.of_nat x.1 * Z.of_nat n + Z.of_nat x.2)%Z.
Definition channel_entry (n e : nat) (x : nat * nat) (j : nat) : Z :=
  (Z.of_nat x.1 * Z.of_nat n * Z.of_nat e + Z.of_nat j * Z.of_nat n + Z.of_nat x.2)%Z.

Definition key_rows (n : nat) (sinfo : slot_info) : list Z := key_row n <$> slot_targets sinfo.
Definition value_entries (n e : nat) (sinfo : slot_info) : list Z :=
  concat ((fun x => channel_entry n e x <$> seq 0 e) <$> slot_targets sinfo).

(** Place [i] of stream [s] of a slot. *)
Definition place_of (sinfo : slot_info) (s i : nat) : nat * nat :=
  (default 0 (strm sinfo !! s), default 0 (default [] (idxs sinfo !! s) !! i)).

Lemma fmap_seq_lookup {A B} (d : A) (f : A -> B) l : f <$> l = (fun i => f (default d (l !! i))) <$> seq 0 (length l).
Proof.
  apply list_eq. intros i. rewrite !list_lookup_fmap. destruct (Nat.lt_ge_cases i (length l)) as [Hi|Hi].
  - rewrite lookup_seq_lt by done. destruct (lookup_lt_is_Some_2 l i Hi) as [x Hx]. simpl. by rewrite Hx.
  - rewrite lookup_seq_ge by done. by rewrite lookup_ge_None_2.
Qed.

Lemma fmap_concat {A B} (f : A -> B) (l : list (list A)) : f <$> concat l = concat ((fmap f : list A -> list B) <$> l).
Proof. apply List.concat_map. Qed.

Lemma concat_concat {A} (l : list (list (list A))) : concat (concat l) = concat (concat (A:=A) <$> l).
Proof. induction l as [|x l IH]; [done|]. simpl. rewrite concat_app. f_equal. exact IH. Qed.

Section slot.
Context (n : nat) (u : llama_ubatch) (k : kv_cache) (sinfo : slot_info) (size : nat).
Hypothesis Hk : kv_wf n k.
Hypothesis Hslot : slot_ok n u k sinfo size.
Hypothesis Hfits : (Z.of_nat (n_stream (k_cfg k)) * Z.of_nat n <= UINT32_MAX)%Z.

Lemma slot_stream s : s < length (strm sinfo) -> exists st cells, strm sinfo !! s = Some st /\ idxs sinfo !! s = Some cells /\ length cells = size /\
  st < n_stream (k_cfg k) /\ Forall (fun i => i < n) cells.
Proof.
  intros Hs. destruct Hslot as [L S0 F T N Hc R]. destruct (lookup_lt_is_Some_2 (strm sinfo) s Hs) as [st Hst].
  destruct (lookup_lt_is_Some_2 (idxs sinfo) s) as [cells Hcs]; [lia|]. exists st, cells. split; [done|]. split; [done|].
  assert (length cells = size) as Hlen by (rewrite Forall_lookup in F; by eapply F). split; [done|]. rewrite Forall_forall in R.
  assert (forall ii idx, cells !! ii = Some idx -> st < n_stream (k_cfg k) /\ idx < n) as H.
  { intros ii idx Hi. destruct (R _ (slot_rows_row size sinfo s st cells ii idx L Hst Hcs Hi)) as [H2 _ H1 _]. by split. }
  split.
  - destruct cells as [|x cells]; [simpl in Hlen; lia|]. by destruct (H 0 x eq_refl).
  - apply Forall_lookup. intros ii idx Hi. by destruct (H ii idx Hi).
Qed.

Lemma targets_grid : slot_targets sinfo = concat ((fun s => place_of sinfo s <$> seq 0 size) <$> seq 0 (length (strm sinfo))).
Proof.
  pose proof (so_len _ _ _ _ _ Hslot) as L. unfold slot_targets. f_equal. apply list_eq. intros s. rewrite lookup_zip_with, list_lookup_fmap.
  destruct (Nat.lt_ge_cases s (length (strm sinfo))) as [Hs|Hs].
  - rewrite lookup_seq_lt by done. destruct (slot_stream s Hs) as (st & cells & H1 & H2 & H3 & _). rewrite H1, H2. simpl. f_equal.
    rewrite (fmap_seq_lookup 0 (pair st) cells), H3. unfold place_of. by rewrite H1, H2.
  - rewrite lookup_seq_ge by lia. by rewrite (lookup_ge_None_2 (strm sinfo)) by lia.
Qed.

Lemma place_lookup s i : s < length (strm sinfo) -> i < size -> exists cells, strm sinfo !! s = Some (place_of sinfo s i).1 /\
  idxs sinfo !! s = Some cells /\ cells !! i = Some (place_of sinfo s i).2 /\ (place_of sinfo s i).1 < n_stream (k_cfg k).
Proof.
  intros Hs Hi. destruct (slot_stream s Hs) as (st & cells & H1 & H2 & H3 & H4 & _). destruct (lookup_lt_is_Some_2 cells i) as [x Hx]; [lia|].
  exists cells. unfold place_of. rewrite H1, H2. simpl. rewrite Hx. done.
Qed.

Lemma key_rows_fill data : u_n_tokens u <= length data ->
  set_input_k_idxs u sinfo k data = Ok (put_block 0 (key_rows n sinfo) data) /\ length (key_rows n sinfo) = u_n_tokens u.
Proof.
  intros Hl. pose proof Hslot as [L S0 F T N Hc R]. unfold set_input_k_idxs. rewrite (slot_size_ok n u k sinfo size Hslot). cbn [mbind outcome_bind].
  rewrite assert_true by (apply Nat.eqb_eq; unfold slot_n_stream; lia). cbn [mbind outcome_bind]. rewrite (get_size_ok n k Hk). cbn [mbind outcome_bind].
  unfold key_rows. rewrite targets_grid, fmap_concat, <- list_fmap_compose. set (B := _ ∘ _). rewrite T.
  apply (fill_blocks _ B 0 size (length (strm sinfo)) data); [intros s Hs; unfold B; simpl; by rewrite !length_fmap, length_seq|lia|].
  intros s d Hs Hd. destruct (slot_stream s Hs) as (st & cells & H1 & H2 & H3 & H4 & _). rewrite (vec_get_Some _ _ _ H1). cbn [mbind outcome_bind].
  rewrite u32_id by nia. unfold B. cbn [compose]. rewrite <- list_fmap_compose.
  apply (fill_ones _ (key_row n ∘ place_of sinfo s)); [nia|]. intros i d' Hi Hd'. destruct (place_lookup s i Hs Hi) as (cells' & P1 & P2 & P3 & _).
  rewrite (vec_get_Some _ _ _ P2). cbn [mbind outcome_bind]. rewrite (vec_get_Some _ _ _ P3). cbn [mbind outcome_bind].
  assert ((place_of sinfo s i).1 = st) as P4 by congruence. cbn [compose]. unfold key_row. by rewrite P4.
Qed.

Lemma value_entries_fill e data : u_n_tokens u * e <= length data ->
  set_input_v_idxs true e u sinfo k data = Ok (put_block 0 (value_entries n e sinfo) data) /\ length (value_entries n e sinfo) = u_n_tokens u * e.
Proof.
  intros Hl. pose proof Hslot as [L S0 F T N Hc R]. unfold set_input_v_idxs. cbn [negb]. rewrite (slot_size_ok n u k sinfo size Hslot). cbn [mbind outcome_bind].
  rewrite assert_true by (apply Nat.eqb_eq; unfold slot_n_stream; lia). cbn [mbind outcome_bind]. rewrite (get_size_ok n k Hk). cbn [mbind outcome_bind].
  set (E := fun s i => channel_entry n e (place_of sinfo s i) <$> seq 0 e). set (B := fun s => concat (E s <$> seq 0 size)).
  assert (value_entries n e sinfo = concat (B <$> seq 0 (length (strm sinfo)))) as ->.
  { unfold value_entries. rewrite targets_grid, fmap_concat, concat_concat, <- !list_fmap_compose. f_equal. apply list_fmap_ext.
    intros s0 s _. unfold B, E. simpl. by rewrite <- list_fmap_compose. }
  assert (forall s i, length (E s i) = e) as HE by (intros; unfold E; by rewrite length_fmap, length_seq).
  assert (forall s, length (B s) = size * e) as HB.
  { intros s. unfold B. generalize size; intros m. induction m as [|m IH]; [done|]. rewrite seq_S, fmap_app, concat_app, length_app, IH. simpl. rewrite app_nil_r, HE. lia. }
  rewrite T, <- Nat.mul_assoc. rewrite T, <- Nat.mul_assoc in Hl. apply (fill_blocks _ B 0 (size * e) (length (strm sinfo)) data); [done|lia|].
  intros s d Hs Hd. destruct (slot_stream s Hs) as (st & cells & H1 & H2 & H3 & H4 & _). rewrite (vec_get_Some _ _ _ H1). cbn [mbind outcome_bind].
  assert (Datatypes.S s * (size * e) <= length (strm sinfo) * (size * e)) as Hsb by (apply Nat.mul_le_mono_r; lia).
  apply (fill_blocks _ (E s) (0 + s * (size * e)) e size d); [done|lia|].
  intros i d' Hi Hd'. destruct (place_lookup s i Hs Hi) as (cells' & P1 & P2 & P3 & _). assert ((place_of sinfo s i).1 = st) as P4 by congruence.
  assert (Datatypes.S i * e <= size * e) as Hib by (apply Nat.mul_le_mono_r; lia).
  apply (fill_ones _ (channel_entry n e (place_of sinfo s i))); [lia|]. intros j d2 Hj Hd2.
  rewrite (vec_get_Some _ _ _ P2). cbn [mbind outcome_bind]. rewrite (vec_get_Some _ _ _ P3). cbn [mbind outcome_bind].
  unfold channel_entry. rewrite P4. f_equal; lia.
Qed.

Lemma target_range x : x ∈ slot_targets sinfo -> x.1 < n_stream (k_cfg k) /\ x.2 < n.
Proof.
  rewrite <- (slot_targets_rows size). intros (r & -> & Hr)%list_elem_of_fmap. pose proof (so_rows _ _ _ _ _ Hslot) as R. rewrite Forall_forall in R.
  by destruct (R r Hr).
Qed.

Lemma targets_nodup : NoDup (slot_targets sinfo).
Proof. rewrite <- (slot_targets_rows size). apply Hslot. Qed.

(** Position and digit determine a number. *)
Lemma digit_inj (m a b i j : Z) : (0 <= i < m)%Z -> (0 <= j < m)%Z -> (a * m + i = b * m + j)%Z -> a = b /\ i = j.
Proof. intros Hi Hj H. assert (a = b) by nia. split; [done|nia]. Qed.

Lemma digit_range (m N a i : Z) : (0 <= i < m)%Z -> (0 <= a < N)%Z -> (0 <= a * m + i < N * m)%Z.
Proof. nia. Qed.

Lemma key_rows_distinct : NoDup (key_rows n sinfo) /\ Forall (fun r => 0 <= r < Z.of_nat (n_stream (k_cfg k)) * Z.of_nat n)%Z (key_rows n sinfo).
Proof.
  split.
  - apply NoDup_fmap_2_strong; [|apply targets_nodup]. intros x y Hx Hy E. apply target_range in Hx as [_ Hx], Hy as [_ Hy].
    apply digit_inj in E as [E1 E2]; [|lia|lia]. destruct x, y. simpl in *. f_equal; lia.
  - apply Forall_forall. intros r (x & -> & Hx)%list_elem_of_fmap. apply target_range in Hx as [H1 H2]. apply digit_range; lia.
Qed.

Lemma NoDup_concat_fmap {X B} (f : X -> nat -> B) e l : NoDup l ->
  (forall x y i j, x ∈ l -> y ∈ l -> i < e -> j < e -> f x i = f y j -> x = y /\ i = j) -> NoDup (concat ((fun x => f x <$> seq 0 e) <$> l)).
Proof.
  induction l as [|x l IH]; intros Hnd Hinj; [constructor|]. apply NoDup_cons in Hnd as [Hx Hnd]. simpl. apply NoDup_app. split; [|split].
  - apply NoDup_fmap_2_strong; [|apply NoDup_seq]. intros i j Hi Hj E. apply elem_of_seq in Hi, Hj.
    apply (Hinj x x i j); [by left|by left|lia|lia|done].
  - intros r (i & -> & Hi)%list_elem_of_fmap Hr. apply list_elem_of_In, List.in_concat in Hr as (b & Hb & Hr).
    apply list_elem_of_In, list_elem_of_fmap in Hb as (y & -> & Hy). apply list_elem_of_In, list_elem_of_fmap in Hr as (j & E & Hj).
    apply elem_of_seq in Hi, Hj. destruct (Hinj x y i j) as [-> _]; [by left|by right|lia|lia|done|done].
  - apply IH; [done|]. intros y z i j Hy Hz. apply Hinj; by right.
Qed.

Lemma value_entries_distinct e : NoDup (value_entries n e sinfo) /\
  Forall (fun r => 0 <= r < Z.of_nat (n_stream (k_cfg k)) * Z.of_nat e * Z.of_nat n)%Z (value_entries n e sinfo).
Proof.
  assert (forall x j, channel_entry n e x j = ((Z.of_nat x.1 * Z.of_nat e + Z.of_nat j) * Z.of_nat n + Z.of_nat x.2)%Z) as E by (intros; unfold channel_entry; lia).
  split.
  - apply NoDup_concat_fmap; [apply targets_nodup|]. intros x y i j Hx Hy Hi Hj. rewrite !E. apply target_range in Hx as [_ Hx], Hy as [_ Hy].
    intros [H1 H2]%digit_inj; [|lia|lia]. apply digit_inj in H1 as [H1 H3]; [|lia|lia]. destruct x, y. simpl in *. split; [f_equal; lia|lia].
  - apply Forall_forall. intros r Hr. apply list_elem_of_In, List.in_concat in Hr as (b & Hb & Hr).
    apply list_elem_of_In, list_elem_of_fmap in Hb as (y & -> & Hy). apply list_elem_of_In, list_elem_of_fmap in Hr as (j & -> & Hj).
    apply elem_of_seq in Hj. apply target_range in Hy as [H1 H2]. rewrite E. apply digit_range; [lia|]. apply digit_range; lia.
Qed.
End slot.

Lemma put_block_0 {A} (b l : list A) : length b <= length l -> take (length b) (put_block 0 b l) = b /\ drop (length b) (put_block 0 b l) = drop (length b) l.
Proof. intros H. unfold put_block. simpl. split; [by rewrite take_app_le, take_ge|by rewrite drop_app_ge, Nat.sub_diag by done]. Qed.

(** C21: the rows of the new keys and values.  For a slot of the batch, the row indices the
    graph writes are those of the slot's cells (stream, then cell; for a transposed value
    buffer one entry per channel), all different and inside the buffer of [n_stream]
    streams of [n] cells: no token overwrites another's data or leaves the buffer.
    (The buffer has fewer than 2^32 rows; the offset of a stream is computed in 32 bits.) *)
Theorem write_rows_distinct n u k sinfo size e kdata vdata : kv_wf n k -> slot_ok n u k sinfo size ->
  (Z.of_nat (n_stream (k_cfg k)) * Z.of_nat n <= UINT32_MAX)%Z -> u_n_tokens u <= length kdata -> u_n_tokens u * e <= length vdata ->
  exists kdata' vdata', set_input_k_idxs u sinfo k kdata = Ok kdata' /\ set_input_v_idxs false e u sinfo k kdata = Ok kdata' /\
    set_input_v_idxs true e u sinfo k vdata = Ok vdata' /\
    (take (u_n_tokens u) kdata' = key_rows n sinfo /\ drop (u_n_tokens u) kdata' = drop (u_n_tokens u) kdata) /\
    (take (u_n_tokens u * e) vdata' = value_entries n e sinfo /\ drop (u_n_tokens u * e) vdata' = drop (u_n_tokens u * e) vdata) /\
    (NoDup (key_rows n sinfo) /\ Forall (fun r => 0 <= r < Z.of_nat (n_stream (k_cfg k)) * Z.of_nat n)%Z (key_rows n sinfo)) /\
    (NoDup (value_entries n e sinfo) /\
     Forall (fun r => 0 <= r < Z.of_nat (n_stream (k_cfg k)) * Z.of_nat e * Z.of_nat n)%Z (value_entries n e sinfo)).
Proof.
  intros Hk Hs Hf Hkd Hvd. destruct (key_rows_fill n u k sinfo size Hk Hs Hf kdata Hkd) as [E1 L1].
  destruct (value_entries_fill n u k sinfo size Hk Hs e vdata Hvd) as [E2 L2]. do 2 eexists. split; [exact E1|]. split; [exact E1|]. split; [exact E2|].
  split; [rewrite <- L1; apply put_block_0; lia|]. split; [rewrite <- L2; apply put_block_0; lia|].
  split; [by apply (key_rows_distinct n u k sinfo size)|by apply (value_entries_distinct n u k sinfo size)].
Qed.

(** Two tokens of the demo slot, two channels. *)
Lemma write_rows_distinct_witness :
  set_input_k_idxs demo_ubatch demo_slot (demo_cache 1 0) [0%Z; 0%Z; 5%Z] = Ok [1%Z; 0%Z; 5%Z] /\
  set_input_v_idxs true 2 demo_ubatch demo_slot (demo_cache 1 0) [0%Z; 0%Z; 0%Z; 0%Z] = Ok [1%Z; 5%Z; 0%Z; 4%Z] /\
  NoDup (value_entries 4 2 demo_slot).
Proof.
  split; [vm_compute; reflexivity|]. split; [vm_compute; reflexivity|].
  assert (kv_wf 4 (demo_cache 1 0)) as Hk by (apply demo_cache_wf; by left).
  destruct (write_rows_distinct 4 demo_ubatch (demo_cache 1 0) demo_slot 2 2 [0%Z; 0%Z; 5%Z] [0%Z; 0%Z; 0%Z; 0%Z] Hk demo_slot_ok)
    as (_ & _ & _ & _ & _ & _ & _ & _ & H & _); [vm_compute; discriminate|simpl; lia|simpl; lia|exact H].
Defined.
