(* ===== verification/KvContext.v ===== *)
(** * Memory contexts and the decoding loop (src/src/llama-kv-cache.cpp, llama-memory.cpp,
    llama-kv-cache-update.h, the loop of llama_context::decode)

    A context is what [init_batch], [init_update] and [init_full] return: it holds the
    slots and ubatches and steps through them, placing one ubatch at a time; a context
    without ubatches runs the pending copies and the shift.  What the backend answers
    (graph allocation and computation) is an argument; the payload it moves is not
    modelled. *)

From S2P Require Import KvCells TailStore Batch.
From S2P Require Export KvSlots KvMask.
Open Scope nat_scope.

(** ** Statuses *)

Inductive llama_memory_status := STATUS_SUCCESS | STATUS_NO_UPDATE | STATUS_FAILED_PREPARE | STATUS_FAILED_COMPUTE.

#[global] Instance llama_memory_status_eq_dec : EqDecision llama_memory_status.
Proof. solve_decision. Defined.

Definition llama_memory_status_is_fail (status : llama_memory_status) : bool :=
  match status with
  | STATUS_SUCCESS | STATUS_NO_UPDATE => false
  | STATUS_FAILED_PREPARE | STATUS_FAILED_COMPUTE => true
  end.

Definition llama_memory_status_combine (s0 s1 : llama_memory_status) : llama_memory_status :=
  match s0 with
  | STATUS_FAILED_PREPARE | STATUS_FAILED_COMPUTE => s0
  | _ => match s1 with
         | STATUS_FAILED_PREPARE | STATUS_FAILED_COMPUTE => s1
         | _ => if bool_decide (s0 = STATUS_SUCCESS) || bool_decide (s1 = STATUS_SUCCESS) then STATUS_SUCCESS else STATUS_NO_UPDATE
         end
  end.

(** ** Updates *)

(** What the backend answers while an update runs. *)
Record update_env := mk_update_env {
  ue_copy_allocate : bool;
  ue_copy_compute : bool;
  ue_can_shift : bool;
  ue_rope : bool;
  ue_shift_allocate : bool;
  ue_shift_compute : bool
}.

Definition llama_kv_tail_copy_transaction (allocate transfer compute : bool) (rollback : stx kv_cache unit)
    : stx kv_cache llama_memory_status :=
  if negb allocate then rollback;; mret STATUS_FAILED_PREPARE else
  if negb transfer then rollback;; mret STATUS_FAILED_PREPARE else
  if negb compute then rollback;; mret STATUS_FAILED_COMPUTE else
  mret STATUS_SUCCESS.

(** The destination of a copy that did not happen is emptied. *)
Definition fail_pending_tail_copy (i : stream_copy_info) : stx kv_cache unit :=
  if tail_transaction i then
    if_tail
      (dst ← on_tail (s ← stx_get; mret (pending_seq_cp_destination s));
       on_tail cancel_seq_cp;;
       if (0 <=? dst)%Z then _ ← KvCache.seq_rm dst (-1) (-1); mret tt else mret tt)
  else mret tt.

(** The copies of whole streams; their buffers are copied one pair at a time. *)
Definition copy_streams (i : stream_copy_info) : stx kv_cache unit :=
  k ← stx_get;
  _ ← stx_lift (assert_ ((length (ssrc i) =? 0) || (1 <? n_stream (k_cfg k))));
  forX (fun j =>
    a ← stx_lift (vec_get (ssrc i) j);
    b ← stx_lift (vec_get (sdst i) j);
    stx_lift (assert_ ((a <? n_stream (k_cfg k)) && (b <? n_stream (k_cfg k)) && negb (a =? b)))) (seq 0 (length (ssrc i))).

Definition update_copies (e : update_env) (i : stream_copy_info) : stx kv_cache llama_memory_status :=
  empty ← stx_lift (sc_empty i);
  if (empty : bool) then mret STATUS_NO_UPDATE else
  copy_streams i;;
  let result := if length (ssrc i) =? 0 then STATUS_NO_UPDATE else STATUS_SUCCESS in
  copy_status ← (if length (tail_src_slots i) =? 0 then mret result else
                 llama_kv_tail_copy_transaction (ue_copy_allocate e) true (ue_copy_compute e) (fail_pending_tail_copy i));
  if llama_memory_status_is_fail copy_status then mret copy_status else
  k ← stx_get;
  if bool_decide (tail (k_tail k) <> None) && tail_transaction i
  then on_tail commit_seq_cp;; mret STATUS_SUCCESS
  else mret copy_status.

Definition update_shift (e : update_env) (result : llama_memory_status) : stx kv_cache llama_memory_status :=
  _ ← stx_lift (assert_ (ue_can_shift e));
  if ue_rope e && negb (ue_shift_allocate e) then mret STATUS_FAILED_PREPARE else
  if ue_rope e && negb (ue_shift_compute e) then mret STATUS_FAILED_COMPUTE else
  k ← stx_get;
  forX (fun s => on_cells s (fun c => Ok (tt, reset_shift c))) (seq 0 (n_stream (k_cfg k)));;
  mret STATUS_SUCCESS.

Definition update (e : update_env) (do_shift : bool) (i : stream_copy_info) : stx kv_cache llama_memory_status :=
  k ← stx_get;
  match other (k_cfg k) with
  | Some _ => mret STATUS_NO_UPDATE
  | None =>
      result ← update_copies e i;
      if llama_memory_status_is_fail result then mret result else
      if do_shift then update_shift e result else mret result
  end.

(** ** Contexts *)

Record kv_cache_context := mk_context {
  cx_status : llama_memory_status;
  cx_do_shift : bool;
  cx_sc_info : stream_copy_info;
  cx_i_cur : nat;
  cx_sinfos : list slot_info;
  cx_ubatches : list llama_ubatch;
  cx_graph_started : bool;
  cx_n_kv : Z
}.

Definition set_status v c := mk_context v (cx_do_shift c) (cx_sc_info c) (cx_i_cur c) (cx_sinfos c) (cx_ubatches c) (cx_graph_started c) (cx_n_kv c).
Definition set_cur v c := mk_context (cx_status c) (cx_do_shift c) (cx_sc_info c) v (cx_sinfos c) (cx_ubatches c) (cx_graph_started c) (cx_n_kv c).
Definition set_started v c := mk_context (cx_status c) (cx_do_shift c) (cx_sc_info c) (cx_i_cur c) (cx_sinfos c) (cx_ubatches c) v (cx_n_kv c).
Definition set_n_kv v c := mk_context (cx_status c) (cx_do_shift c) (cx_sc_info c) (cx_i_cur c) (cx_sinfos c) (cx_ubatches c) (cx_graph_started c) v.

(** The constructors; [n_kv] is not set before the first [apply]. *)
Definition context_failed (status : llama_memory_status) : kv_cache_context := mk_context status false no_copies 0 [] [] false 0.

Definition context_full (k : kv_cache) : outcome kv_cache_context :=
  n ← get_size k;
  let ns := n_stream (k_cfg k) in
  Ok (mk_context STATUS_SUCCESS false no_copies 0 [mk_slot 0 (ns - 1) (seq 0 ns) (replicate ns [0])] [] false (Z.of_nat n)).

Definition context_update (do_shift : bool) (i : stream_copy_info) : outcome kv_cache_context :=
  empty ← (if do_shift then Ok false else sc_empty i);
  Ok (mk_context (if (empty : bool) then STATUS_NO_UPDATE else STATUS_SUCCESS) do_shift i 0 [] [] false 0).

Definition context_batch (sinfos : list slot_info) (ubatches : list llama_ubatch) : kv_cache_context :=
  mk_context STATUS_SUCCESS false no_copies 0 sinfos ubatches false 0.

Definition next (c : kv_cache_context) : outcome (bool * kv_cache_context) :=
  _ ← assert_ (bool_decide (cx_status c = STATUS_SUCCESS));
  Ok (negb (length (cx_ubatches c) <=? cx_i_cur c + 1), set_cur (cx_i_cur c + 1) c).

(** [kv->get_n_kv] *)
Definition apply (e : update_env) (c : kv_cache_context) : stx kv_cache (bool * kv_cache_context) :=
  _ ← stx_lift (assert_ (negb (llama_memory_status_is_fail (cx_status c))));
  if length (cx_ubatches c) =? 0 then
    status ← update e (cx_do_shift c) (cx_sc_info c);
    mret (negb (llama_memory_status_is_fail status), set_status status c)
  else
    sinfo ← stx_lift (vec_get (cx_sinfos c) (cx_i_cur c));
    u ← stx_lift (vec_get (cx_ubatches c) (cx_i_cur c));
    apply_ubatch sinfo u;;
    n_kv ← gets (get_n_kv sinfo);
    mret (true, set_n_kv n_kv c).

Definition graph_compute_start (c : kv_cache_context) : kv_cache_context := set_started true c.

Definition graph_compute_finish (success : bool) (c : kv_cache_context) : stx kv_cache kv_cache_context :=
  (if length (cx_ubatches c) =? 0 then mret tt else finish_tail_batch success (cx_graph_started c && negb success));;
  mret (set_started false c).

Definition get_ubatch (c : kv_cache_context) : outcome llama_ubatch :=
  _ ← assert_ (bool_decide (cx_status c = STATUS_SUCCESS));
  vec_get (cx_ubatches c) (cx_i_cur c).

Definition current_sinfo (c : kv_cache_context) : outcome slot_info :=
  _ ← assert_ (bool_decide (cx_status c = STATUS_SUCCESS));
  _ ← assert_ (cx_i_cur c <? length (cx_sinfos c));
  vec_get (cx_sinfos c) (cx_i_cur c).

(** [init_update] takes the pending copies out of the cache. *)
Definition init_update : stx kv_cache kv_cache_context :=
  do_shift ← gets KvCache.get_has_shift;
  k ← stx_get;
  stx_modify (set_sc no_copies);;
  stx_lift (context_update do_shift (sc_info k)).

Definition init_kv_batch (ubatches : list llama_ubatch) : stx kv_cache kv_cache_context :=
  sinfos ← prepare ubatches;
  mret (if length sinfos =? 0 then context_failed STATUS_FAILED_PREPARE else context_batch sinfos ubatches).

(** ** Decoding *)

Inductive ggml_status := GGML_ALLOC_FAILED | GGML_FAILED | GGML_SUCCESS | GGML_ABORTED.

#[global] Instance ggml_status_eq_dec : EqDecision ggml_status.
Proof. solve_decision. Defined.

(** How the graph of a ubatch fares: not built, not allocated, or run. *)
Inductive graph_run := NotBuilt | NotAllocated | Ran (status : ggml_status).

(** [process_ubatch] with a memory context: the status and whether there is a result. *)
Definition process_ubatch (e : update_env) (run : graph_run) (c : kv_cache_context) : stx kv_cache (ggml_status * kv_cache_context) :=
  r ← apply e c;
  let '(applied, c) := r in
  if negb applied then mret (GGML_FAILED, c) else
  match run with
  | NotBuilt => c ← graph_compute_finish false c; mret (GGML_FAILED, c)
  | NotAllocated => c ← graph_compute_finish false c; mret (GGML_ALLOC_FAILED, c)
  | Ran status =>
      let c := graph_compute_start c in
      c ← graph_compute_finish (bool_decide (status = GGML_SUCCESS)) c;
      mret (status, c)
  end.

(** The positions of a failed ubatch are removed, from the first sequence of each token. *)
Definition remove_failed (u : llama_ubatch) : stx kv_cache unit :=
  pos_min ← stx_lift (batch_pos_min u);
  forX (fun s =>
    p ← stx_lift (vec_get pos_min s);
    if (p =? INT32_MAX)%Z then mret tt else _ ← KvCache.seq_rm (Z.of_nat s) p (-1); mret tt) (seq 0 LLAMA_MAX_SEQ).

(** The [do] loop: [Some status] when a ubatch failed. *)
Fixpoint decode_loop (fuel : nat) (e : update_env) (runs : nat -> graph_run) (c : kv_cache_context)
    : stx kv_cache (option ggml_status * kv_cache_context) :=
  match fuel with
  | 0 => stx_throw OutOfFuel
  | S fuel =>
      u ← stx_lift (get_ubatch c);
      r ← process_ubatch e (runs (cx_i_cur c)) c;
      let '(status, c) := r in
      if negb (bool_decide (status = GGML_SUCCESS)) then remove_failed u;; mret (Some status, c) else
      r ← stx_lift (next c);
      let '(more, c) := r in
      if (more : bool) then decode_loop fuel e runs c else mret (None, c)
  end.

(** One round per ubatch. *)
Definition decode_ubatches (e : update_env) (runs : nat -> graph_run) (c : kv_cache_context)
    : stx kv_cache (option ggml_status * kv_cache_context) :=
  decode_loop (length (cx_ubatches c)) e runs c.
