(* ===== verification/KvDecode.v ===== *)
(** * Decoding a prepared batch

    What [prepare] promises holds when the batch is decoded: every ubatch finds its slot
    still free, so placing them one after the other never fails, and the cache ends with
    the tokens of all of them.  When the graph of a ubatch fails, its positions are
    removed again and the cache is what the ubatches before it left. *)

From S2P Require Import KvCells TailStore Batch BatchInit.
From S2P Require Export KvContext KvPrepare KvSeqProps.
Open Scope nat_scope.

(** The content of the streams after ubatches have been placed in their slots. *)
Definition place_all (us : list llama_ubatch) (ss : list slot_info) (A : list amap) : list amap :=
  foldl (fun A x => match slot_size x.2 with Ok size => spec_place x.1 (slot_rows size x.2) A | Err _ => A end) A (zip us ss).

(** Slots for the ubatches, in free cells, no cell twice, in a cache without exact tail. *)
Record decodable (n : nat) (k : kv_cache) (us : list llama_ubatch) (ss : list slot_info) : Prop := {
  dc_wf : kv_wf n k;
  dc_own : other (k_cfg k) = None;
  dc_tail : tail (k_tail k) = None;
  dc_slots : Forall2 (fun u sinfo => exists nt, slot_ok n u k sinfo nt) us ss;
  dc_disjoint : NoDup (concat (slot_targets <$> ss));
  dc_free : forall x, x ∈ concat (slot_targets <$> ss) -> content_at (abs k) x = None
}.

(** After the first [i] ubatches. *)
Record decoded (n : nat) (k : kv_cache) (us : list llama_ubatch) (ss : list slot_info) (i : nat) (k' : kv_cache) : Prop := {
  dd_wf : kv_wf n k';
  dd_cfg : k_cfg k' = k_cfg k;
  dd_map : seq_to_stream k' = seq_to_stream k;
  dd_tail : k_tail k' = k_tail k;
  dd_abs : abs k' = place_all (take i us) (take i ss) (abs k)
}.

Lemma length_place_all us ss A : length (place_all us ss A) = length A.
Proof.
  unfold place_all. revert A. induction (zip us ss) as [|x l IH]; intros A; [done|]. simpl. rewrite IH.
  destruct (slot_size x.2); [apply length_spec_place|done].
Qed.

Lemma place_all_snoc us ss u sinfo A : length us = length ss ->
  place_all (us ++ [u]) (ss ++ [sinfo]) A =
    match slot_size sinfo with Ok size => spec_place u (slot_rows size sinfo) (place_all us ss A) | Err _ => place_all us ss A end.
Proof. intros H. unfold place_all. rewrite zip_with_app by done. by rewrite foldl_app. Qed.

(** Cells of no slot keep their content. *)
Lemma place_all_at n k us ss : Forall2 (fun u sinfo => exists nt, slot_ok n u k sinfo nt) us ss -> length (abs k) = n_stream (k_cfg k) ->
  forall A x, length A = length (abs k) -> x ∉ concat (slot_targets <$> ss) -> content_at (place_all us ss A) x = content_at A x.
Proof.
  intros Hf Hlen. induction Hf as [|u sinfo us ss (nt & Hs) _ IH]; intros A x HA Hx; [done|].
  unfold place_all. simpl. rewrite (slot_size_ok n u k sinfo nt Hs). fold (place_all us ss (spec_place u (slot_rows nt sinfo) A)).
  simpl in Hx. rewrite elem_of_app in Hx. rewrite IH; [|by rewrite length_spec_place|tauto].
  pose proof (spec_place_at u (slot_rows nt sinfo) A x) as Hat. rewrite decide_False in Hat; [apply Hat|].
  - intros r Hr. pose proof (so_rows _ _ _ _ _ Hs) as R. rewrite Forall_forall in R. rewrite HA, Hlen. apply (R r Hr).
  - rewrite (slot_targets_rows nt). tauto.
Qed.

Lemma get_n_kv_ok n k sinfo : kv_wf n k -> Forall (fun st => st < n_stream (k_cfg k)) (strm sinfo) -> exists w, get_n_kv sinfo k = Ok w.
Proof.
  intros Hk Hf. unfold get_n_kv. cbv zeta. match goal with |- exists w, foldM ?f _ _ = _ => destruct (foldM_seq f (fun _ _ => True) 0 (slot_n_stream sinfo) 0%Z I) as (w & E & _) end;
    [|by exists w].
  intros s v Hs _. unfold slot_n_stream in Hs. destruct (lookup_lt_is_Some_2 (strm sinfo) s) as [st Hst]; [lia|].
  pose proof (proj1 (Forall_lookup _ _) Hf _ _ Hst) as Hlt. simpl in Hlt. destruct (lookup_lt_is_Some_2 (v_cells k) st) as [c Hc]; [by rewrite (kw_streams n k Hk)|].
  unfold cells_of. rewrite (vec_get_Some _ _ _ Hst). cbn [mbind outcome_bind]. rewrite (vec_get_Some _ _ _ Hc). cbn [mbind outcome_bind]. by eexists.
Qed.

Lemma slot_strm_lt n u k sinfo nt : slot_ok n u k sinfo nt -> Forall (fun st => st < n_stream (k_cfg k)) (strm sinfo).
Proof.
  intros [L [S1 S2] F T N Hc R]. apply Forall_lookup. intros s st Hst. destruct (lookup_lt_is_Some_2 (idxs sinfo) s) as [cells Hcs]; [rewrite L; by eapply lookup_lt_Some|].
  assert (length cells = nt) as Hl by (rewrite Forall_lookup in F; by eapply F). destruct cells as [|x cells]; [simpl in Hl; lia|].
  rewrite Forall_forall in R. destruct (R _ (slot_rows_row nt sinfo s st (x :: cells) 0 x L Hst Hcs eq_refl)). done.
Qed.

Section decode.
Context (n : nat) (k : kv_cache) (us : list llama_ubatch) (ss : list slot_info).
Hypothesis Hd : decodable n k us ss.

Lemma abs_length : length (abs k) = n_stream (k_cfg k).
Proof. unfold abs. rewrite length_fmap. apply (kw_streams n k), Hd. Qed.

Lemma slots_length : length us = length ss.
Proof. eapply Forall2_length, Hd. Qed.

(** The slots left are still free. *)
Lemma later_free i j sinfo x k' : decoded n k us ss i k' -> i <= j -> ss !! j = Some sinfo -> x ∈ slot_targets sinfo -> content_at (abs k') x = None.
Proof.
  intros Hdd Hij Hj Hx. pose proof (dc_disjoint _ _ _ _ Hd) as Hnd. rewrite <- (take_drop i ss), fmap_app, concat_app in Hnd. apply NoDup_app in Hnd as (_ & Hnd & _).
  assert (ss !! (i + (j - i)) = Some sinfo) as Hj' by (by replace (i + (j - i)) with j by lia).
  assert (x ∈ concat (slot_targets <$> drop i ss)) as Hin.
  { apply list_elem_of_In, List.in_concat. exists (slot_targets sinfo). split; [|by apply list_elem_of_In].
    apply list_elem_of_In, list_elem_of_fmap_2, (list_elem_of_lookup_2 _ (j - i)). by rewrite lookup_drop. }
  rewrite (dd_abs _ _ _ _ _ _ Hdd). rewrite (place_all_at n k).
  - apply (dc_free _ _ _ _ Hd). rewrite <- (take_drop i ss), fmap_app, concat_app. apply elem_of_app. by right.
  - by apply Forall2_take, Hd.
  - apply abs_length.
  - done.
  - intros H. by eapply Hnd.
Qed.

Lemma slot_later i u sinfo k' : decoded n k us ss i k' -> us !! i = Some u -> ss !! i = Some sinfo ->
  exists nt, slot_ok n u k' sinfo nt /\ forall r, r ∈ slot_rows nt sinfo -> content_at (abs k') (target r) = None.
Proof.
  intros Hdd Hu Hs. destruct (Forall2_lookup_lr _ _ _ _ _ _ (dc_slots _ _ _ _ Hd) Hu Hs) as (nt & Hslot). exists nt.
  assert (forall r, r ∈ slot_rows nt sinfo -> content_at (abs k') (target r) = None) as Hfree.
  { intros r Hr. apply (later_free i i sinfo _ k' Hdd); [done|done|]. rewrite <- (slot_targets_rows nt). by apply list_elem_of_fmap_2. }
  split; [|done]. destruct Hdd. by apply (slot_ok_same n u k k').
Qed.

(** The next ubatch. *)
Lemma wp_decode_step i u sinfo k' : decoded n k us ss i k' -> us !! i = Some u -> ss !! i = Some sinfo ->
  wp (apply_ubatch sinfo u) (fun _ => decoded n k us ss (i + 1)) k'.
Proof.
  intros Hdd Hu Hs. destruct (slot_later i u sinfo k' Hdd Hu Hs) as (nt & Hslot & Hfree). pose proof Hdd as [D1 D2 D3 D4 D5].
  eapply wp_mono.
  - apply (wp_apply_empty n u k' sinfo nt); [done|rewrite D2; apply Hd| |done|done]. unfold live_tail. rewrite D4, (dc_tail _ _ _ _ Hd). done.
  - intros [] k2 [P1 (heads & k1 & (c1 & a1 & ->) & ->) P3 _]. split; [done|done|done|done|].
    rewrite P3, D5, Nat.add_1_r, (take_S_r us i u), (take_S_r ss i sinfo) by done.
    rewrite place_all_snoc by (rewrite !length_take, slots_length; done). by rewrite (slot_size_ok n u k' sinfo nt).
Qed.

Lemma decoded_0 : decoded n k us ss 0 k.
Proof. split; try done. apply Hd. Qed.

Lemma no_tail_finish i k' success modified : decoded n k us ss i k' -> finish_tail_batch success modified k' = (Ok tt, k').
Proof. intros Hdd. unfold finish_tail_batch, if_live, live_tail. by rewrite (dd_tail _ _ _ _ _ _ Hdd), (dc_tail _ _ _ _ Hd). Qed.

(** The context at ubatch [i]. *)
Definition at_ubatch (i : nat) (w : Z) : kv_cache_context := mk_context STATUS_SUCCESS false no_copies i ss us false w.

(** How a graph run ends. *)
Definition run_status (run : graph_run) : ggml_status :=
  match run with NotBuilt => GGML_FAILED | NotAllocated => GGML_ALLOC_FAILED | Ran status => status end.

Lemma wp_process e run i w k' : i < length us -> decoded n k us ss i k' ->
  wp (process_ubatch e run (at_ubatch i w)) (fun r k2 => decoded n k us ss (i + 1) k2 /\ exists w2, r = (run_status run, at_ubatch i w2)) k'.
Proof.
  intros Hi Hdd. destruct (lookup_lt_is_Some_2 us i Hi) as [u Hu]. destruct (lookup_lt_is_Some_2 ss i) as [sinfo Hs]; [by rewrite <- slots_length|].
  unfold process_ubatch. apply wp_bind. unfold apply. apply wp_bind, (wp_lift _ tt); [done|]. cbn [at_ubatch cx_ubatches cx_sinfos cx_i_cur].
  rewrite (proj2 (Nat.eqb_neq (length us) 0)) by lia. apply wp_bind, (wp_lift _ sinfo); [by apply vec_get_Some|].
  apply wp_bind, (wp_lift _ u); [by apply vec_get_Some|]. apply wp_bind. eapply wp_mono; [by apply (wp_decode_step i u sinfo)|]. intros [] k2 Hdd2.
  destruct (slot_later i u sinfo k' Hdd Hu Hs) as (nt & Hslot & _).
  destruct (get_n_kv_ok n k2 sinfo) as [w2 Ew]; [apply Hdd2| |].
  { rewrite (dd_cfg _ _ _ _ _ _ Hdd2), <- (dd_cfg _ _ _ _ _ _ Hdd). by eapply slot_strm_lt. }
  apply wp_bind, (wp_gets _ w2); [done|]. apply wp_ret. cbn [negb set_n_kv].
  assert (forall c success, cx_ubatches c = us -> wp (graph_compute_finish success c) (fun c2 k3 => decoded n k us ss (i + 1) k3 /\ c2 = set_started false c) k2) as Hfin.
  { intros c success Hc. unfold graph_compute_finish. rewrite Hc, (proj2 (Nat.eqb_neq (length us) 0)) by lia. apply wp_bind. unfold wp at 1.
    rewrite (no_tail_finish (i + 1)) by done. by apply wp_ret. }
  destruct run; apply wp_bind; (eapply wp_mono; [by apply Hfin|]); intros c2 k3 [H3 ->]; apply wp_ret; (split; [done|by exists w2]).
Qed.
End decode.

(** ** Removing a failed ubatch *)

(** Token [i] belongs to [q] first and has position [p]. *)
Definition tok (u : llama_ubatch) (i q : nat) (p : Z) : Prop := first_id u i = Ok (Z.of_nat q) /\ u_pos u !! i = Some p.

Lemma tok_fun u i q q' p p' : tok u i q p -> tok u i q' p' -> q' = q /\ p' = p.
Proof. intros [H1 H2] [H3 H4]. rewrite H1 in H3. rewrite H2 in H4. injection H3 as H3. injection H4 as ->. split; [lia|done]. Qed.

(** The smallest positions, exactly. *)
Lemma batch_pos_min_exact u : (forall i, i < u_n_tokens u -> exists q p, tok u i q p /\ q < LLAMA_MAX_SEQ /\ (p < INT32_MAX)%Z) ->
  exists m, batch_pos_min u = Ok m /\ forall s, s < LLAMA_MAX_SEQ -> exists v, m !! s = Some v /\
    (v = INT32_MAX /\ (forall i p, i < u_n_tokens u -> ~ tok u i s p) \/ (v < INT32_MAX)%Z /\ exists i, i < u_n_tokens u /\ tok u i s v) /\
    (forall i p, i < u_n_tokens u -> tok u i s p -> (v <= p)%Z).
Proof.
  intros Ht. unfold batch_pos_min. match goal with |- exists m, foldM ?f _ ?m0 = _ /\ _ => destruct (foldM_seq f (fun k m => forall s, s < LLAMA_MAX_SEQ -> exists v, m !! s = Some v /\
    (v = INT32_MAX /\ (forall i p, i < k -> ~ tok u i s p) \/ (v < INT32_MAX)%Z /\ exists i, i < k /\ tok u i s v) /\
    (forall i p, i < k -> tok u i s p -> (v <= p)%Z)) 0 (u_n_tokens u) m0) as (m & E & Hm) end.
  - intros s Hs. exists INT32_MAX. split; [by apply lookup_replicate|]. split; [left; split; [done|intros; lia]|intros; lia].
  - intros k m Hk Hm. destruct (Ht k ltac:(lia)) as (q & p & Htok & Hq & Hp). pose proof Htok as [H1 H2]. destruct (Hm q Hq) as (v & Hv & Hv1 & Hv2).
    rewrite H1. cbn [mbind outcome_bind]. rewrite (arr_get_Z _ _ _ Hv). cbn [mbind outcome_bind]. rewrite (vec_get_Some _ _ _ H2). cbn [mbind outcome_bind].
    unfold arr_set. rewrite (proj2 (Z.ltb_ge _ _)), Nat2Z.id by lia. rewrite (vec_set_Some _ _ _ _ Hv). eexists. split; [done|]. intros s Hs.
    destruct (decide (s = q)) as [->|Hne].
    + exists (Z.min v p). rewrite list_lookup_insert_eq by (by eapply lookup_lt_Some). split; [done|]. split.
      * right. split; [lia|]. destruct (Z.le_gt_cases p v) as [Hle|Hgt]; [exists k; rewrite Z.min_r by lia; split; [lia|done]|].
        destruct Hv1 as [[-> _]|[_ (i & Hi & Hti)]]; [lia|]. exists i. rewrite Z.min_l by lia. split; [lia|done].
      * intros i p' Hi Hti. destruct (decide (i = k)) as [->|Hik]; [destruct (tok_fun _ _ _ _ _ _ Htok Hti) as [_ ->]; lia|].
        pose proof (Hv2 i p' ltac:(lia) Hti). lia.
    + destruct (Hm s Hs) as (v' & Hv' & Hv1' & Hv2'). exists v'. rewrite list_lookup_insert_ne by done. split; [done|].
      assert (forall p', ~ tok u k s p') as Hk' by (intros p' Htk; destruct (tok_fun _ _ _ _ _ _ Htok Htk); congruence). split.
      * destruct Hv1' as [[-> H]|[Hlt (i & Hi & Hti)]]; [left; split; [done|]|right; split; [done|]; exists i; split; [lia|done]].
        intros i p' Hi Hti. destruct (decide (i = k)) as [->|Hik]; [by eapply Hk'|]. by eapply (H i p' ltac:(lia)).
      * intros i p' Hi Hti. destruct (decide (i = k)) as [->|Hik]; [by destruct (Hk' p')|]. by apply (Hv2' i p' ltac:(lia)).
  - exists m. split; [exact E|exact Hm].
Qed.

Lemma content_on_stream st g A x : content_at (on_stream st g A) x = if decide (x.1 = st) then content_at A x ≫= g else content_at A x.
Proof.
  unfold content_at, on_stream. destruct (decide (x.1 = st)) as [<-|Hne].
  - rewrite list_lookup_alter. rewrite decide_True by done. destruct (A !! x.1) as [m|]; [|done]. simpl. by rewrite lookup_omap.
  - rewrite list_lookup_alter_ne by done. done.
Qed.

Lemma content_ext (A B : list amap) : length A = length B -> (forall x, content_at A x = content_at B x) -> A = B.
Proof.
  intros Hl H. apply list_eq_same_length with (length A); [done|done|]. intros i m m' Hi HA HB. apply map_eq. intros j. specialize (H (i, j)).
  unfold content_at in H. simpl in H. by rewrite HA, HB in H.
Qed.

(** A ubatch that can be taken back: one sequence per token, at positions past every
    cached one of it. *)
Record removable (u : llama_ubatch) (A : list amap) : Prop := {
  rb_single : forall i ids, i < u_n_tokens u -> u_ids u i = Ok ids -> length ids = 1;
  rb_below : forall i p, u_pos u !! i = Some p -> (p < INT32_MAX)%Z;
  rb_fresh : forall i q p x p' T, i < u_n_tokens u -> tok u i q p -> content_at A x = Some (p', T) -> q ∈ T -> (p' < p)%Z
}.

Lemma wp_forX_seq {S} (J : nat -> S -> Prop) (f : nat -> stx S unit) a len Q s :
  J a s -> (forall i s, a <= i < a + len -> J i s -> wp (f i) (fun _ => J (i + 1)) s) -> (forall s, J (a + len) s -> Q tt s) -> wp (forX f (seq a len)) Q s.
Proof.
  revert a s. induction len as [|len IH]; intros a s HJ Hf HQ; simpl; [apply HQ; by rewrite Nat.add_0_r|].
  apply wp_bind. eapply wp_mono; [apply Hf; [lia|done]|]. intros [] s' HJ'. rewrite Nat.add_1_r in HJ'. apply IH; [done| |].
  - intros i s1 Hi. apply Hf. lia.
  - intros s1 H1. apply HQ. by replace (a + Datatypes.S len) with (Datatypes.S a + len) by lia.
Qed.

Section removal.
Context (n : nat) (kb k' : kv_cache) (u : llama_ubatch) (sinfo : slot_info) (nt : nat).
Hypothesis Hwb : kv_wf n kb.
Hypothesis Hw : kv_wf n k'.
Hypothesis Hcfg : k_cfg k' = k_cfg kb.
Hypothesis Hmap : seq_to_stream k' = seq_to_stream kb.
Hypothesis Hown : other (k_cfg kb) = None.
Hypothesis Hflat : has_compact_tail (k_cfg kb) = false.
Hypothesis Hslot : slot_ok n u kb sinfo nt.
Hypothesis Hfree : forall r, r ∈ slot_rows nt sinfo -> content_at (abs kb) (target r) = None.
Hypothesis Habs : abs k' = spec_place u (slot_rows nt sinfo) (abs kb).
Hypothesis Hrm : removable u (abs kb).

Lemma row_exists i : i < u_n_tokens u -> exists r, r ∈ slot_rows nt sinfo /\ r.1.1 = i.
Proof.
  intros Hi. pose proof Hslot as [L [S1 S2] F T _ _ _]. assert (i / nt < length (strm sinfo)) as Hs by (apply Nat.Div0.div_lt_upper_bound; lia).
  destruct (lookup_lt_is_Some_2 (strm sinfo) _ Hs) as [st Hst]. destruct (lookup_lt_is_Some_2 (idxs sinfo) (i / nt)) as [cells Hc]; [lia|].
  assert (length cells = nt) as Hl by (rewrite Forall_lookup in F; by eapply F). pose proof (Nat.mod_upper_bound i nt ltac:(lia)) as Hm.
  destruct (lookup_lt_is_Some_2 cells (i mod nt)) as [idx Hx]; [lia|]. exists (i / nt * nt + i mod nt, st, idx).
  split; [by eapply slot_rows_row|]. simpl. pose proof (Nat.div_mod_eq i nt). lia.
Qed.

Lemma row_lt r : r ∈ slot_rows nt sinfo -> r.1.1 < u_n_tokens u.
Proof.
  intros Hr. pose proof Hslot as [L _ F T _ _ _]. destruct r as [[i st] idx]. apply elem_of_rows_from in Hr as (s' & cells & ii & Hz & Hi & ->).
  apply lookup_zip_with_Some in Hz as (st2 & c2 & [= <- <-] & H3 & H4). apply lookup_lt_Some in H3, Hi. rewrite Forall_lookup in F.
  specialize (F _ _ H4). simpl in *. rewrite T. nia.
Qed.

(** The token of a row. *)
Lemma row_tok r : r ∈ slot_rows nt sinfo -> exists q p, tok u r.1.1 q p /\ q < LLAMA_MAX_SEQ /\ (p < INT32_MAX)%Z /\ seq_to_stream kb !! q = Some r.1.2 /\
  token_content u r.1.1 = (p, {[q]}) /\ (0 <= p)%Z.
Proof.
  intros Hr. pose proof (so_rows _ _ _ _ _ Hslot) as R. rewrite Forall_forall in R. destruct (R r Hr) as [_ _ _ (p & ids & [T1 T2 T3 T4 T5 T6 _])].
  pose proof (row_lt r Hr) as Hlt.
  pose proof (rb_single _ _ Hrm _ ids Hlt T1) as Hl. destruct ids as [|q [|]]; try done. apply Forall_singleton in T4 as [Hq Hhome].
  exists (Z.to_nat q), p. pose proof T1 as Hids. unfold u_ids in T1. destruct (vec_get (u_n_seq_id u) r.1.1) as [m|] eqn:E1; [|done]. cbn [mbind outcome_bind] in T1.
  destruct (vec_get (u_seq_id u) r.1.1) as [l|] eqn:E2; [|done]. cbn [mbind outcome_bind] in T1. destruct (Z.to_nat m <=? length l); [|done]. injection T1 as T1.
  destruct l as [|q' l]; [by destruct (Z.to_nat m)|]. destruct (Z.to_nat m) as [|m']; [done|]. simpl in T1. injection T1 as -> _.
  split; [|split; [|split; [|split; [|split]]]].
  - split; [|done]. unfold first_id. rewrite E2. cbn [mbind outcome_bind]. unfold vec_get. simpl. f_equal. lia.
  - destruct (kw_seqs n kb Hwb) as [_ Hmax]. apply lookup_lt_Some in Hhome. lia.
  - by apply (rb_below _ _ Hrm r.1.1).
  - done.
  - unfold token_content, row_ids. rewrite T5, Hids. simpl. f_equal. unfold ids_set. simpl. set_solver.
  - lia.
Qed.

Lemma target_row r r' : r ∈ slot_rows nt sinfo -> r' ∈ slot_rows nt sinfo -> target r = target r' -> r = r'.
Proof.
  intros [i Hi]%list_elem_of_lookup [j Hj]%list_elem_of_lookup E. pose proof (so_cells _ _ _ _ _ Hslot) as Hnd.
  assert (i = j) as ->; [|congruence]. eapply (NoDup_lookup _ _ _ (target r)); [exact Hnd|by rewrite list_lookup_fmap, Hi|by rewrite list_lookup_fmap, Hj, E].
Qed.

(** What is left when the sequences before [s] have been removed. *)
Record cleaned (s : nat) (ks : kv_cache) : Prop := {
  cl_wf : kv_wf n ks;
  cl_cfg : k_cfg ks = k_cfg kb;
  cl_map : seq_to_stream ks = seq_to_stream kb;
  cl_rest : forall x, x ∉ target <$> slot_rows nt sinfo -> content_at (abs ks) x = content_at (abs kb) x;
  cl_rows : forall r q p, r ∈ slot_rows nt sinfo -> tok u r.1.1 q p -> content_at (abs ks) (target r) = if q <? s then None else Some (p, {[q]})
}.

Lemma rows_in_range r : r ∈ slot_rows nt sinfo -> r.1.2 < length (abs kb).
Proof.
  intros Hr. pose proof (so_rows _ _ _ _ _ Hslot) as R. rewrite Forall_forall in R. unfold abs. rewrite length_fmap, (kw_streams n kb Hwb). apply (R r Hr).
Qed.

Lemma cleaned_0 : cleaned 0 k'.
Proof.
  split; [done|done|done| |].
  - intros x Hx. rewrite Habs. pose proof (spec_place_at u _ (abs kb) x rows_in_range) as H. by rewrite decide_False in H.
  - intros r q p Hr Ht. rewrite Habs. pose proof (spec_place_at u _ (abs kb) (target r) rows_in_range) as H.
    rewrite decide_True in H by (by apply list_elem_of_fmap_2). destruct H as (r' & Hr' & Et & ->).
    apply (target_row r' r Hr' Hr) in Et as ->. destruct (row_tok r Hr) as (q' & p' & Ht' & _ & _ & _ & -> & _).
    destruct (tok_fun _ _ _ _ _ _ Ht Ht') as [-> ->]. done.
Qed.

Lemma on_stream_rm ks s v x : content_at (on_stream (home (seq_to_stream kb) (Z.of_nat s)) (sp_rm s (clip_lo v) (clip_hi (-1))) (abs ks)) x =
  if decide (x.1 = home (seq_to_stream kb) (Z.of_nat s)) then content_at (abs ks) x ≫= sp_rm s (clip_lo v) INT32_MAX else content_at (abs ks) x.
Proof. apply content_on_stream. Qed.

Lemma cleaned_next s ks v : s < LLAMA_MAX_SEQ -> cleaned s ks ->
  (forall i p, i < u_n_tokens u -> tok u i s p -> (v <= p)%Z) -> (exists i, i < u_n_tokens u /\ tok u i s v) ->
  wp (KvCache.seq_rm (Z.of_nat s) v (-1)) (fun _ => cleaned (s + 1)) ks.
Proof.
  intros Hs Hc Hv (i0 & Hi0 & Ht0). pose proof Hc as [C1 C2 C3 C4 C5].
  destruct (row_exists i0 Hi0) as (r0 & Hr0 & Ei0). destruct (row_tok r0 Hr0) as (q0 & p0 & Ht0' & Hq0 & _ & Hhome0 & _ & Hp0). rewrite Ei0 in Ht0'.
  destruct (tok_fun _ _ _ _ _ _ Ht0 Ht0') as [-> ->].
  assert (valid_id (Z.of_nat s) ks) as Hid.
  { unfold valid_id. rewrite C3. apply lookup_lt_Some in Hhome0. lia. }
  eapply wp_mono; [apply (wp_seq_rm n ks); [done|split; [by rewrite C2|by right]]|]. intros b k2 [[R1 R2 R3 R4] Hb].
  destruct b; [|destruct (Hb eq_refl) as [_ Hb']; rewrite C2, Hflat in Hb'; done]. clear Hb.
  cbn [clip_seq_op] in R2. rewrite (proj2 (Z.ltb_ge _ _)), Nat2Z.id, C3 in R2 by lia.
  assert (clip_lo v = v) as Hlo by (unfold clip_lo; by rewrite (proj2 (Z.ltb_ge _ _)) by lia).
  split; [done|congruence|congruence| |].
  - intros x Hx. rewrite R2, on_stream_rm, (C4 x Hx), Hlo. case_decide; [|done]. destruct (content_at (abs kb) x) as [[p' T]|] eqn:E; [|done]. simpl. unfold sp_rm. simpl.
    case_bool_decide as Hin; [|by rewrite andb_false_r]. pose proof (rb_fresh _ _ Hrm i0 s v x p' T Hi0 Ht0 E Hin) as Hlt.
    unfold in_rng. by rewrite (proj2 (Z.leb_gt v p')) by lia.
  - intros r q p Hr Ht. rewrite R2, on_stream_rm, (C5 r q p Hr Ht), Hlo.
    destruct (row_tok r Hr) as (q' & p' & Ht' & Hq & Hp & Hhome & _ & _). destruct (tok_fun _ _ _ _ _ _ Ht Ht') as [-> ->].
    destruct (decide (q = s)) as [->|Hne].
    + rewrite (proj2 (Nat.ltb_ge s s)), (proj2 (Nat.ltb_lt s (s + 1))) by lia. rewrite decide_True.
      2:{ unfold home. rewrite Nat2Z.id, Hhome. done. }
      simpl. unfold sp_rm. simpl. rewrite bool_decide_eq_true_2 by set_solver. assert (r.1.1 < u_n_tokens u) as Hlt by (by apply row_lt).
      unfold in_rng. rewrite (proj2 (Z.leb_le v p)) by (by eapply Hv). rewrite (proj2 (Z.ltb_lt p _)) by done. simpl.
      rewrite decide_True; [done|]. apply leibniz_equiv. set_solver.
    + replace (q <? s + 1) with (q <? s) by (destruct (Nat.ltb_spec q s), (Nat.ltb_spec q (s + 1)); lia || done).
      destruct (q <? s); [by case_decide|]. case_decide; [|done]. simpl. unfold sp_rm. simpl.
      by rewrite bool_decide_eq_false_2, andb_false_r by set_solver.
Qed.

Lemma wp_remove_failed : wp (remove_failed u) (fun _ k2 => kv_wf n k2 /\ k_cfg k2 = k_cfg kb /\ seq_to_stream k2 = seq_to_stream kb /\ abs k2 = abs kb) k'.
Proof.
  destruct (batch_pos_min_exact u) as (m & E & Hm).
  { intros i Hi. destruct (row_exists i Hi) as (r & Hr & <-). destruct (row_tok r Hr) as (q & p & ? & ? & ? & _). by exists q, p. }
  unfold remove_failed. apply wp_bind, (wp_lift _ m); [done|]. apply (wp_forX_seq cleaned); [apply cleaned_0| |].
  - intros s ks Hs Hc. destruct (Hm s ltac:(lia)) as (v & Hv & Hcase & Hmin). apply wp_bind, (wp_lift _ v); [by apply vec_get_Some|].
    destruct Hcase as [[-> Hnone]|[Hlt Hsome]].
    + rewrite Z.eqb_refl. apply wp_ret. destruct Hc as [C1 C2 C3 C4 C5]. split; [done|done|done|done|]. intros r q p Hr Ht. rewrite (C5 r q p Hr Ht).
      assert (q <> s) by (intros ->; by eapply (Hnone r.1.1 p (row_lt r Hr))).
      replace (q <? s + 1) with (q <? s) by (destruct (Nat.ltb_spec q s), (Nat.ltb_spec q (s + 1)); lia || done). done.
    + rewrite (proj2 (Z.eqb_neq v INT32_MAX)) by lia. apply wp_bind. eapply wp_mono; [apply (cleaned_next s ks v); [lia|done|done|done]|].
      intros b k2 H2. by apply wp_ret.
  - intros k2 [C1 C2 C3 C4 C5]. split; [done|]. split; [done|]. split; [done|]. apply content_ext.
    { unfold abs. by rewrite !length_fmap, (kw_streams n k2 C1), (kw_streams n kb Hwb), C2. }
    intros x. destruct (decide (x ∈ target <$> slot_rows nt sinfo)) as [Hx|Hx]; [|by apply C4].
    apply list_elem_of_fmap in Hx as (r & -> & Hr). destruct (row_tok r Hr) as (q & p & Ht & Hq & _). rewrite (C5 r q p Hr Ht).
    rewrite (proj2 (Nat.ltb_lt q _)) by (simpl; lia). symmetry. by apply Hfree.
Qed.
End removal.
