(* ===== verification/KvDecodeProps.v ===== *)
(** * The decoding loop: completion and undoing *)

From S2P Require Import KvCells TailStore Batch BatchInit.
From S2P Require Export KvDecode.
Open Scope nat_scope.

Section loop.
Context (n : nat) (k : kv_cache) (us : list llama_ubatch) (ss : list slot_info) (e : update_env) (runs : nat -> graph_run).
Hypothesis Hd : decodable n k us ss.

Notation at_ubatch := (at_ubatch us ss).

(** One round up to the choice between going on and giving up. *)
Lemma wp_round fuel i w k' (Q : option ggml_status * kv_cache_context -> kv_cache -> Prop) u : decoded n k us ss i k' -> us !! i = Some u ->
  (forall w2 k2, decoded n k us ss (i + 1) k2 ->
     wp (if negb (bool_decide (run_status (runs i) = GGML_SUCCESS)) then remove_failed u;; mret (Some (run_status (runs i)), at_ubatch i w2)
         else if i + 1 <? length us then decode_loop fuel e runs (at_ubatch (i + 1) w2) else mret (None, at_ubatch (i + 1) w2)) Q k2) ->
  wp (decode_loop (Datatypes.S fuel) e runs (at_ubatch i w)) Q k'.
Proof.
  intros Hdd Hu HQ. pose proof (lookup_lt_Some _ _ _ Hu) as Hi. cbn [decode_loop]. apply wp_bind, (wp_lift _ u).
  { unfold get_ubatch. simpl. by apply vec_get_Some. }
  apply wp_bind. cbn [cx_i_cur KvDecode.at_ubatch]. eapply wp_mono; [by apply (wp_process n k us ss Hd)|]. intros r k2 [H2 (w2 & ->)].
  specialize (HQ w2 k2 H2). cbn [negb] in *. destruct (bool_decide (run_status (runs i) = GGML_SUCCESS)); cbn [negb] in *; [|exact HQ].
  apply wp_bind, (wp_lift _ (i + 1 <? length us, at_ubatch (i + 1) w2)).
  - unfold next. simpl. do 2 f_equal. destruct (Nat.leb_spec (length us) (i + 1)), (Nat.ltb_spec (i + 1) (length us)); try done; lia.
  - destruct (i + 1 <? length us); exact HQ.
Qed.

Lemma wp_decode_all fuel : forall i w k', decoded n k us ss i k' -> i < length us -> length us <= i + fuel ->
  (forall j, i <= j < length us -> run_status (runs j) = GGML_SUCCESS) ->
  wp (decode_loop fuel e runs (at_ubatch i w)) (fun r k2 => r.1 = None /\ decoded n k us ss (length us) k2) k'.
Proof.
  induction fuel as [|fuel IH]; intros i w k' Hdd Hi Hf Hok; [lia|]. destruct (lookup_lt_is_Some_2 us i Hi) as [u Hu].
  apply (wp_round fuel i w k' _ u Hdd Hu). intros w2 k2 H2. rewrite bool_decide_eq_true_2 by (apply Hok; lia). cbn [negb].
  destruct (i + 1 <? length us) eqn:E; bprop.
  - apply IH; [done|done|lia|]. intros j Hj. apply Hok. lia.
  - apply wp_ret. split; [done|]. by replace (length us) with (i + 1) by lia.
Qed.

Lemma wp_decode_fails fuel m u : us !! m = Some u -> has_compact_tail (k_cfg k) = false ->
  run_status (runs m) <> GGML_SUCCESS -> removable u (place_all (take m us) (take m ss) (abs k)) ->
  forall i w k', decoded n k us ss i k' -> i <= m -> length us <= i + fuel -> (forall j, i <= j < m -> run_status (runs j) = GGML_SUCCESS) ->
  wp (decode_loop fuel e runs (at_ubatch i w)) (fun r k2 => r.1 = Some (run_status (runs m)) /\ kv_wf n k2 /\ k_cfg k2 = k_cfg k /\
    seq_to_stream k2 = seq_to_stream k /\ abs k2 = place_all (take m us) (take m ss) (abs k)) k'.
Proof.
  intros Hm Hflat Hfail Hrm. induction fuel as [|fuel IH]; intros i w k' Hdd Him Hf Hok; [apply lookup_lt_Some in Hm; lia|].
  pose proof (lookup_lt_Some _ _ _ Hm) as Hlt. destruct (lookup_lt_is_Some_2 us i ltac:(lia)) as [ui Hu].
  apply (wp_round fuel i w k' _ ui Hdd Hu). intros w2 k2 H2. destruct (decide (i = m)) as [->|Hne].
  - rewrite Hm in Hu. injection Hu as <-. rewrite bool_decide_eq_false_2 by done. cbn [negb].
    destruct (lookup_lt_is_Some_2 ss m) as [sinfo Hs]; [by rewrite <- (slots_length n k us ss Hd)|].
    destruct (slot_later n k us ss Hd m u sinfo k' Hdd Hm Hs) as (nt & Hslot & Hfree). pose proof Hdd as [D1 D2 D3 D4 D5]. pose proof H2 as [G1 G2 G3 G4 G5].
    apply wp_bind. eapply wp_mono.
    + apply (wp_remove_failed n k' k2 u sinfo nt); try done; [congruence|congruence|rewrite D2; apply Hd|by rewrite D2| |by rewrite D5].
      rewrite G5, D5, Nat.add_1_r, (take_S_r us m u), (take_S_r ss m sinfo) by done.
      rewrite place_all_snoc by (rewrite !length_take, (slots_length n k us ss Hd); done). by rewrite (slot_size_ok n u k' sinfo nt).
    + intros [] k3 (R1 & R2 & R3 & R4). apply wp_ret. split; [done|]. split; [done|]. split; [congruence|]. split; [congruence|]. by rewrite R4, D5.
  - rewrite bool_decide_eq_true_2 by (apply Hok; lia). cbn [negb]. rewrite (proj2 (Nat.ltb_lt (i + 1) _)) by lia.
    apply IH; [done|lia|lia|]. intros j Hj. apply Hok. lia.
Qed.
End loop.

(** A context that [init_kv_batch] returned. *)
Lemma wp_init_kv_batch n k us : plain n k -> tail (k_tail k) = None -> Forall (prepared_ok k) us -> us <> [] ->
  wp (init_kv_batch us) (fun c k1 => abs k1 = abs k /\ k_cfg k1 = k_cfg k /\ seq_to_stream k1 = seq_to_stream k /\
    (c = context_failed STATUS_FAILED_PREPARE \/ exists ss, c = context_batch ss us /\ decodable n k1 us ss)) k.
Proof.
  intros Hk Ht Hu Hne. unfold init_kv_batch. apply wp_bind. eapply wp_mono; [by apply wp_prepare|]. intros res k1 [P1 P2 P3 P4 P5 P6 P7 P8]. apply wp_ret.
  assert (abs k1 = abs k) as Ha by (unfold abs; by rewrite P2). destruct P3 as (h & k0 & (c1 & a1 & ->) & Hk1 & _).
  assert (k_cfg k1 = k_cfg k /\ seq_to_stream k1 = seq_to_stream k) as [E1 E2] by (destruct k1; simpl in *; by injection Hk1).
  split; [done|]. split; [done|]. split; [done|]. destruct P6 as [->|P6]; [by left|]. right. exists res.
  assert (length res =? 0 = false) as -> by (apply Nat.eqb_neq; rewrite <- (Forall2_length _ _ _ P6); by destruct us).
  split; [done|]. split; [done|rewrite E1; apply Hk|by rewrite P4| |done|by rewrite Ha].
  apply Forall2_same_length_lookup_2; [by eapply Forall2_length|]. intros i u s Hi Hs. destruct (Forall2_lookup_lr _ _ _ _ _ _ P6 Hi Hs) as (nt & Hslot). exists nt.
  apply (slot_ok_same n u k k1); try done. intros r Hr. rewrite Ha. apply P8. by eapply concat_targets.
Qed.

(** C2: decoding a batch.  For a cache with its own cells and without sliding window, exact
    tail and record groups, preparing the
    ubatches of a batch gives a failed context, or a context with which the decoding loop
    succeeds whatever the ubatches: if every graph runs, each ubatch in turn finds its slot
    still free, no assertion fires, the loop ends after the last one and the cache holds
    exactly its old content and every token of the batch in its slot (cells that were
    free, no two the same). *)
Theorem decode_completes n k us e runs : plain n k -> tail (k_tail k) = None -> Forall (prepared_ok k) us -> us <> [] ->
  (forall i, i < length us -> run_status (runs i) = GGML_SUCCESS) ->
  exists c k1, init_kv_batch us k = (Ok c, k1) /\ abs k1 = abs k /\
    (c = context_failed STATUS_FAILED_PREPARE \/
     exists ss c' k2, c = context_batch ss us /\ decode_ubatches e runs c k1 = (Ok (None, c'), k2) /\ kv_wf n k2 /\
       NoDup (concat (slot_targets <$> ss)) /\ (forall x, x ∈ concat (slot_targets <$> ss) -> content_at (abs k) x = None) /\
       abs k2 = place_all us ss (abs k)).
Proof.
  intros Hk Ht Hu Hne Hruns. destruct (wp_run _ _ _ (wp_init_kv_batch n k us Hk Ht Hu Hne)) as (c & k1 & E & Ha & _ & _ & Hc). exists c, k1.
  split; [done|]. split; [done|]. destruct Hc as [->|(ss & -> & Hd)]; [by left|]. right.
  assert (0 < length us) as Hlen by (destruct us; [done|simpl; lia]).
  destruct (wp_run _ _ _ (wp_decode_all n k1 us ss e runs Hd (length us) 0 0%Z k1 (decoded_0 n k1 us ss Hd) Hlen ltac:(lia) ltac:(intros; apply Hruns; lia)))
    as ([r c'] & k2 & E2 & Hr & [D1 _ _ _ D5]). simpl in Hr. subst r. exists ss, c', k2. split; [done|]. split; [exact E2|]. split; [done|]. split; [apply Hd|].
  split; [rewrite <- Ha; apply Hd|]. rewrite D5, Ha. f_equal; [by rewrite take_ge|]. rewrite take_ge; [done|]. by rewrite (slots_length n k1 us ss Hd).
Qed.

(** C6: a failed ubatch is undone, in a cache with its own cells and without sliding window,
    record groups, exact tail and compact tail.  If the graph of ubatch [m] is not built,
    not allocated or fails, after those before it ran, the loop stops with that status and
    the cache holds exactly what the ubatches before left: the positions of ubatch [m] are
    removed and nothing else is, provided each of its tokens belongs to one sequence and
    lies past the cached positions of it (as [init] makes sure); a token of several
    sequences would keep its cell for all but the first.  With a sliding window placing the
    ubatch may have purged cells that do not come back. *)
Theorem decode_failure_undone n k us e runs m u : plain n k -> tail (k_tail k) = None -> has_compact_tail (k_cfg k) = false ->
  Forall (prepared_ok k) us -> us !! m = Some u -> (forall i, i < m -> run_status (runs i) = GGML_SUCCESS) -> run_status (runs m) <> GGML_SUCCESS ->
  exists c k1, init_kv_batch us k = (Ok c, k1) /\ abs k1 = abs k /\
    (c = context_failed STATUS_FAILED_PREPARE \/
     exists ss, c = context_batch ss us /\ (removable u (place_all (take m us) (take m ss) (abs k)) ->
       exists c' k2, decode_ubatches e runs c k1 = (Ok (Some (run_status (runs m)), c'), k2) /\ kv_wf n k2 /\
         abs k2 = place_all (take m us) (take m ss) (abs k))).
Proof.
  intros Hk Ht Hflat Hu Hm Hruns Hfail. assert (us <> []) as Hne by (by intros ->).
  destruct (wp_run _ _ _ (wp_init_kv_batch n k us Hk Ht Hu Hne)) as (c & k1 & E & Ha & E1 & E2 & Hc). exists c, k1.
  split; [done|]. split; [done|]. destruct Hc as [->|(ss & -> & Hd)]; [by left|]. right. exists ss. split; [done|]. intros Hrm.
  assert (forall j, 0 <= j < m -> run_status (runs j) = GGML_SUCCESS) as Hok by (intros; apply Hruns; lia). rewrite <- Ha in *.
  destruct (wp_run _ _ _ (wp_decode_fails n k1 us ss e runs Hd (length us) m u Hm ltac:(by rewrite E1) Hfail Hrm 0 0%Z k1 (decoded_0 n k1 us ss Hd)
    ltac:(lia) ltac:(lia) Hok)) as ([r c'] & k2 & E3 & Hr & R1 & _ & _ & R4). simpl in Hr. subst r. by exists c', k2.
Qed.

(** Two tokens of sequence 3, one per ubatch. *)
Definition demo_batch : list llama_ubatch := [demo_token 3 10; demo_token 3 11].
Definition demo_env : update_env := mk_update_env true true true true true true.

Lemma demo_batch_ok : Forall (prepared_ok (demo_cache 1 0)) demo_batch.
Proof. repeat constructor; apply (demo_token_ok 1 0); try (by left); unfold INT32_MAX; lia. Qed.

Lemma demo_batch_accepted : match (init_kv_batch demo_batch (demo_cache 1 0)).1 with Ok c => cx_status c | Err _ => STATUS_FAILED_PREPARE end = STATUS_SUCCESS.
Proof. vm_compute. reflexivity. Qed.

Lemma decode_completes_witness : exists c k1 ss c' k2,
  init_kv_batch demo_batch (demo_cache 1 0) = (Ok c, k1) /\ decode_ubatches demo_env (fun _ => Ran GGML_SUCCESS) c k1 = (Ok (None, c'), k2) /\
  kv_wf 4 k2 /\ abs k2 = place_all demo_batch ss (abs (demo_cache 1 0)).
Proof.
  destruct (decode_completes 4 (demo_cache 1 0) demo_batch demo_env (fun _ => Ran GGML_SUCCESS) demo_plain eq_refl demo_batch_ok) as (c & k1 & E & _ & Hc).
  - discriminate.
  - intros i _. reflexivity.
  - pose proof demo_batch_accepted as Hacc. rewrite E in Hacc. destruct Hc as [->|(ss & c' & k2 & _ & E2 & Hk2 & _ & _ & Ha)]; [discriminate Hacc|].
    exists c, k1, ss, c', k2. split; [exact E|]. split; [exact E2|]. split; [exact Hk2|exact Ha].
Defined.

(** The second graph is not allocated. *)
Definition demo_runs (i : nat) : graph_run := if i =? 1 then NotAllocated else Ran GGML_SUCCESS.

Lemma decode_failure_undone_witness : exists c k1 ss c' k2,
  init_kv_batch demo_batch (demo_cache 1 0) = (Ok c, k1) /\ decode_ubatches demo_env demo_runs c k1 = (Ok (Some GGML_ALLOC_FAILED, c'), k2) /\
  kv_wf 4 k2 /\ abs k2 = place_all [demo_token 3 10] ss (abs (demo_cache 1 0)).
Proof.
  destruct (decode_failure_undone 4 (demo_cache 1 0) demo_batch demo_env demo_runs 1 (demo_token 3 11) demo_plain eq_refl eq_refl demo_batch_ok eq_refl) as (c & k1 & E & _ & Hc).
  - intros [|i] Hi; [reflexivity|lia].
  - discriminate.
  - pose proof demo_batch_accepted as Hacc. assert ((init_kv_batch demo_batch (demo_cache 1 0)).1 =
      Ok (context_batch [mk_slot 0 0 [0] [[0]]; mk_slot 0 0 [0] [[3]]] demo_batch)) as Ec by (vm_compute; reflexivity).
    rewrite E in Hacc, Ec. injection Ec as ->. destruct Hc as [Hc|(ss & Hc & Hfin)]; [rewrite Hc in Hacc; discriminate Hacc|].
    injection Hc as <-. destruct Hfin as (c' & k2 & E2 & Hk2 & Ha).
    + split.
      * intros i ids Hi. assert (i = 0) as -> by (simpl in Hi; lia). intros H. injection H as <-. reflexivity.
      * intros [|i] p H; [injection H as <-; unfold INT32_MAX; lia|discriminate H].
      * intros i q p [st idx] p' T Hi [H1 H2] Hx Hq. assert (i = 0) as -> by (simpl in Hi; lia). injection H2 as <-.
        assert (place_all (take 1 demo_batch) (take 1 [mk_slot 0 0 [0] [[0]]; mk_slot 0 0 [0] [[3]]]) (abs (demo_cache 1 0)) =
          [<[0 := (10%Z, {[3]})]> (<[1 := (7%Z, {[3]})]> (<[2 := (9%Z, {[3]})]> ∅))]) as Ep by (apply (bool_decide_unpack _); vm_compute; exact I).
        rewrite Ep in Hx. assert (map_Forall (fun _ x => (x.1 < 11)%Z) (<[0 := (10%Z, {[3]})]> (<[1 := (7%Z, {[3]})]> (<[2 := (9%Z, {[3]})]> ∅)) : amap)) as Hall
          by (apply (bool_decide_unpack _); vm_compute; exact I).
        destruct st as [|st]; [|destruct st; discriminate Hx]. exact (Hall idx (p', T) Hx).
    + exists (context_batch [mk_slot 0 0 [0] [[0]]; mk_slot 0 0 [0] [[3]]] demo_batch), k1, [mk_slot 0 0 [0] [[0]]], c', k2.
      split; [exact E|]. split; [exact E2|]. split; [exact Hk2|exact Ha].
Defined.

(** A token of sequences 3 and 1 whose graph fails keeps its cell for sequence 1. *)
Definition demo_shared : llama_ubatch := mk_ubatch false 1 1 1 2 1 None None [10%Z] [2%Z] [[3%Z; 1%Z]] [3; 1] [] [].

Lemma failed_ubatch_keeps_second_owner :
  match init_kv_batch [demo_shared] (demo_cache 1 0) with
  | (Ok c, k1) =>
      match decode_ubatches demo_env (fun _ => NotAllocated) c k1 with
      | (Ok (Some GGML_ALLOC_FAILED, _), k2) => content_at (abs k2) (0, 0) = Some (10%Z, {[1]})
      | _ => False
      end
  | _ => False
  end.
Proof. vm_compute. reflexivity. Qed.
