(* ===== verification/TailRequest.v ===== *)
(** * KV tail requests (src/src/llama-kv-tail-request.{h,cpp})

    The textual request for exact tails ("", "auto", "1536", "128,512",
    "full=128,swa=512") is parsed, then bound to the cache groups of a model.
    Strings are lists of characters; token counts are [Z] in the range of
    [uint32_t]; the KVarN policy is llama_kvarn_tail_policy_for of
    src/src/llama-kv-cache-kvarn.h. *)

From Stdlib Require Import Ascii String.
From S2P Require Export Prelude TailPlan.
Open Scope nat_scope.

Abbreviation str := (list ascii).

Definition lit (s : string) : str := list_ascii_of_string s.

(** ** Characters and numbers *)

Definition is_digit (ch : ascii) : bool := (48 <=? nat_of_ascii ch) && (nat_of_ascii ch <=? 57).

Definition dec_value (value : str) : Z := foldl (fun v ch => (10 * v + Z.of_nat (nat_of_ascii ch - 48))%Z) 0%Z value.

(** [std::strtoull] on digits: [None] when it sets [errno]. *)
Definition strtoull (value : str) : option Z := if (dec_value value <=? UINT64_MAX)%Z then Some (dec_value value) else None.

Definition parse_count (value : str) : option Z :=
  if bool_decide (value = []) || negb (forallb is_digit value) then None else
  match strtoull value with
  | None => None
  | Some parsed => if (UINT32_MAX <? parsed)%Z then None else Some parsed
  end.

(** [std::to_string] *)
Fixpoint digits (fuel : nat) (n : Z) (acc : str) : str :=
  match fuel with
  | 0 => acc
  | S fuel =>
      let acc := ascii_of_nat (48 + Z.to_nat (n mod 10)) :: acc in
      if (n <? 10)%Z then acc else digits fuel (n / 10) acc
  end.

Definition to_string (n : Z) : str := digits (S (Z.to_nat (Z.log2 n))) n [].

(** ** Searching *)

(** [s.find(ch, begin)] and [s.rfind(ch)]. *)
Fixpoint find_char (ch : ascii) (s : str) : option nat :=
  match s with
  | [] => None
  | x :: s' => if bool_decide (x = ch) then Some 0 else S <$> find_char ch s'
  end.

Definition find_from (ch : ascii) (begin : nat) (s : str) : option nat := Nat.add begin <$> find_char ch (drop begin s).

Definition rfind_char (ch : ascii) (s : str) : option nat :=
  (fun i => length s - 1 - i) <$> find_char ch (rev s).

Fixpoint split_entries_loop (fuel : nat) (specification : str) (begin : nat) : list str :=
  match fuel with
  | 0 => []
  | S fuel =>
      if begin <=? length specification then
        match find_from "," begin specification with
        | None => [drop begin specification]
        | Some end_ => take (end_ - begin) (drop begin specification) :: split_entries_loop fuel specification (end_ + 1)
        end
      else []
  end.

(** Every round moves past a comma. *)
Definition split_entries (specification : str) : list str := split_entries_loop (length specification + 2) specification 0.

(** ** Requests *)

Inductive llama_kv_tail_request_mode :=
  | REQUEST_DISABLED | REQUEST_NUMERIC | REQUEST_AUTOMATIC | REQUEST_POSITIONAL | REQUEST_NAMED.

Record llama_kv_tail_request_entry := mk_entry { e_group : str; e_tokens : Z }.

Record llama_kv_tail_request := mk_request {
  rq_mode : llama_kv_tail_request_mode;
  rq_exact_type : ggml_type;
  rq_entries : list llama_kv_tail_request_entry;
  rq_error : str
}.

Definition valid (r : llama_kv_tail_request) : bool := bool_decide (rq_error r = []).

Definition set_error (e : str) (r : llama_kv_tail_request) : llama_kv_tail_request :=
  mk_request (rq_mode r) (rq_exact_type r) (rq_entries r) e.
Definition set_mode (m : llama_kv_tail_request_mode) (r : llama_kv_tail_request) : llama_kv_tail_request :=
  mk_request m (rq_exact_type r) (rq_entries r) (rq_error r).
Definition push_entry (e : llama_kv_tail_request_entry) (r : llama_kv_tail_request) : llama_kv_tail_request :=
  mk_request (rq_mode r) (rq_exact_type r) (rq_entries r ++ [e]) (rq_error r).

(** [entry.substr(0, equal)] and [entry.substr(equal + 1)]; only named entries have an
    equal sign. *)
Definition entry_name (any_named : bool) (entry : str) : str :=
  if any_named then match find_char "=" entry with Some equal => take equal entry | None => entry end else [].
Definition entry_value (any_named : bool) (entry : str) : str :=
  if any_named then match find_char "=" entry with Some equal => drop (equal + 1) entry | None => entry end else entry.

(** The loop over the entries; [names] are the names seen. *)
Fixpoint parse_loop (any_named : bool) (entries names : list str) (result : llama_kv_tail_request) : llama_kv_tail_request :=
  match entries with
  | [] => result
  | entry :: entries' =>
      let name := entry_name any_named entry in
      let value := entry_value any_named entry in
      match parse_count value with
      | None => set_error (lit "invalid KV tail token count: " ++ value) result
      | Some tokens =>
          if any_named && bool_decide (name = []) then set_error (lit "empty KV tail group name") result else
          if any_named && bool_decide (name ∈ names) then set_error (lit "duplicate KV tail group assignment: " ++ name) result else
          parse_loop any_named entries' (name :: names) (push_entry (mk_entry name tokens) result)
      end
  end.

Definition has_equal (entry : str) : bool := bool_decide (find_char "=" entry <> None).
Definition one_equal (entry : str) : bool :=
  has_equal entry && bool_decide (find_char "=" entry = rfind_char "=" entry).

Definition llama_kv_tail_request_parse (specification : str) (exact_type : ggml_type) : llama_kv_tail_request :=
  let result := mk_request REQUEST_DISABLED exact_type [] [] in
  if negb (exact_type =? GGML_TYPE_COUNT)%Z && negb (exact_type =? GGML_TYPE_F16)%Z && negb (exact_type =? GGML_TYPE_BF16)%Z
  then set_error (lit "KV tail type must be F16, BF16, or the cache-family default") result else
  if bool_decide (specification = []) then result else
  if bool_decide (specification = lit "auto") then set_mode REQUEST_AUTOMATIC result else
  let entries := split_entries specification in
  let any_named := existsb has_equal entries in
  let all_named := forallb one_equal entries in
  if any_named && negb all_named then set_error (lit "KV tail request cannot mix named and positional groups") result else
  let mode := if any_named then REQUEST_NAMED else if 1 <? length entries then REQUEST_POSITIONAL else REQUEST_NUMERIC in
  parse_loop any_named entries [] (set_mode mode result).

(** ** The KVarN policy *)

Record llama_kvarn_tail_policy := mk_kvarn_policy {
  kp_raw_requested_tokens : Z;
  kp_requested_tokens : Z;
  kp_effective_tokens : Z;
  kp_exact_groups : Z;
  kp_native_exact : bool
}.

Definition llama_kvarn_tail_policy_for (raw_requested_tokens effective_window : Z) : llama_kvarn_tail_policy :=
  let group_size := 128%Z in
  if (effective_window =? 0)%Z then mk_kvarn_policy raw_requested_tokens 0 0 0 true else
  let intrinsic := Z.min group_size effective_window in
  let rounded := if (raw_requested_tokens =? 0)%Z then 0%Z else ((raw_requested_tokens + group_size - 1) / group_size * group_size)%Z in
  let explicit_tokens := u32 (Z.min rounded effective_window) in
  let effective_tokens := Z.max intrinsic explicit_tokens in
  mk_kvarn_policy raw_requested_tokens effective_tokens effective_tokens
    (u32 (effective_tokens + group_size - 1) / group_size)%Z (effective_tokens =? effective_window)%Z.

(** ** Binding a request to groups *)

Record llama_kv_tail_request_group := mk_group {
  g_id : str; g_role : str; g_effective_window : Z; g_applicable_standard_kv : bool
}.

Record llama_kv_tail_request_group_resolution := mk_group_resolution {
  gr_id : str; gr_role : str; gr_raw_requested_tokens : Z; gr_requested_tokens : Z;
  gr_effective_tokens : Z; gr_exact_type : ggml_type; gr_native_exact : bool
}.

Record llama_kv_tail_request_resolution := mk_resolution {
  rs_valid : bool; rs_groups : list llama_kv_tail_request_group_resolution; rs_error : str
}.

Definition no_resolution (error : str) : llama_kv_tail_request_resolution := mk_resolution false [] error.

Definition matches (groups : list llama_kv_tail_request_group) (name : str) : list nat :=
  List.filter (fun i => match groups !! i with
    | Some g => bool_decide (g_id g = name) || bool_decide (g_role g = name)
    | None => false
    end) (seq 0 (length groups)).

(** [raw] and [assigned] after the entries, or the error. *)
Fixpoint assign_named (groups : list llama_kv_tail_request_group) (entries : list llama_kv_tail_request_entry)
    (raw : list Z) (assigned : list bool) : str + list Z * list bool :=
  match entries with
  | [] => inr (raw, assigned)
  | entry :: entries' =>
      match matches groups (e_group entry) with
      | [] => inl (lit "unknown KV tail group: " ++ e_group entry)
      | [i] =>
          if default false (assigned !! i)
          then inl (lit "duplicate KV tail group assignment: " ++ default [] (g_id <$> groups !! i))
          else assign_named groups entries' (<[i := e_tokens entry]> raw) (<[i := true]> assigned)
      | _ => inl (lit "ambiguous KV tail group alias: " ++ e_group entry)
      end
  end.

(** The requested counts of the groups. *)
Definition bind_request (request : llama_kv_tail_request) (groups : list llama_kv_tail_request_group) : str + list Z :=
  let n := length groups in
  match rq_mode request with
  | REQUEST_DISABLED => inr (replicate n 0%Z)
  | REQUEST_NUMERIC =>
      match rq_entries request with
      | [e] => inr (replicate n (e_tokens e))
      | _ => inl (lit "numeric KV tail request has no value")
      end
  | REQUEST_AUTOMATIC => inr (replicate n 1024%Z)
  | REQUEST_POSITIONAL =>
      if length (rq_entries request) =? n then inr (e_tokens <$> rq_entries request)
      else inl (lit "KV tail positional group count mismatch: expected " ++ to_string (Z.of_nat n) ++ lit ", got "
                ++ to_string (Z.of_nat (length (rq_entries request))))
  | REQUEST_NAMED =>
      match assign_named groups (rq_entries request) (replicate n 0%Z) (replicate n false) with
      | inl e => inl e
      | inr (raw, assigned) =>
          if existsb negb assigned then inl (lit "incomplete KV tail group configuration") else inr raw
      end
  end.

Definition resolve_group (kvarn : bool) (resolved_type : ggml_type) (group : llama_kv_tail_request_group) (raw : Z)
    : llama_kv_tail_request_group_resolution :=
  if kvarn then
    let policy := llama_kvarn_tail_policy_for raw (g_effective_window group) in
    mk_group_resolution (g_id group) (g_role group) raw (kp_requested_tokens policy) (kp_effective_tokens policy)
      resolved_type (kp_native_exact policy)
  else
    mk_group_resolution (g_id group) (g_role group) raw raw
      (if g_applicable_standard_kv group then Z.min raw (g_effective_window group) else 0%Z) resolved_type false.

Definition llama_kv_tail_request_resolve (request : llama_kv_tail_request) (groups : list llama_kv_tail_request_group)
    (kvarn : bool) : llama_kv_tail_request_resolution :=
  if negb (valid request) then no_resolution (rq_error request) else
  match bind_request request groups with
  | inl error => no_resolution error
  | inr raw =>
      let resolved_type := if negb (rq_exact_type request =? GGML_TYPE_COUNT)%Z then rq_exact_type request
                           else if kvarn then GGML_TYPE_F16 else GGML_TYPE_BF16 in
      mk_resolution true (zip_with (resolve_group kvarn resolved_type) groups raw) []
  end.

(** ** Printing *)

Definition print_entry (named : bool) (e : llama_kv_tail_request_entry) : str :=
  if named then e_group e ++ "="%char :: to_string (e_tokens e) else to_string (e_tokens e).

Fixpoint join (l : list str) : str :=
  match l with
  | [] => []
  | [x] => x
  | x :: l' => x ++ ","%char :: join l'
  end.

Definition print_request (r : llama_kv_tail_request) : str :=
  match rq_mode r with
  | REQUEST_DISABLED => []
  | REQUEST_AUTOMATIC => lit "auto"
  | REQUEST_NUMERIC | REQUEST_POSITIONAL => join (print_entry false <$> rq_entries r)
  | REQUEST_NAMED => join (print_entry true <$> rq_entries r)
  end.

Definition entry_count_ok (e : llama_kv_tail_request_entry) : Prop := (0 <= e_tokens e <= UINT32_MAX)%Z.
Definition name_ok (name : str) : Prop := name <> [] /\ ","%char ∉ name /\ "="%char ∉ name.
Definition type_ok (t : ggml_type) : Prop := t = GGML_TYPE_COUNT \/ t = GGML_TYPE_F16 \/ t = GGML_TYPE_BF16.

(** The requests the parser can produce without an error. *)
Record request_normal (r : llama_kv_tail_request) : Prop := {
  ro_error : rq_error r = [];
  ro_type : type_ok (rq_exact_type r);
  ro_counts : Forall entry_count_ok (rq_entries r);
  ro_mode : match rq_mode r with
    | REQUEST_DISABLED | REQUEST_AUTOMATIC => rq_entries r = []
    | REQUEST_NUMERIC => length (rq_entries r) = 1 /\ Forall (fun e => e_group e = []) (rq_entries r)
    | REQUEST_POSITIONAL => 1 < length (rq_entries r) /\ Forall (fun e => e_group e = []) (rq_entries r)
    | REQUEST_NAMED => rq_entries r <> [] /\ Forall (fun e => name_ok (e_group e)) (rq_entries r) /\ NoDup (e_group <$> rq_entries r)
    end
}.

(** ** Numbers *)

Lemma dec_value_app v l ch : foldl (fun v ch => (10 * v + Z.of_nat (nat_of_ascii ch - 48))%Z) v (ch :: l) =
  foldl (fun v ch => (10 * v + Z.of_nat (nat_of_ascii ch - 48))%Z) (10 * v + Z.of_nat (nat_of_ascii ch - 48))%Z l.
Proof. done. Qed.

Lemma digit_char d : (0 <= d < 10)%Z -> nat_of_ascii (ascii_of_nat (48 + Z.to_nat d)) = 48 + Z.to_nat d.
Proof. intros. apply nat_ascii_embedding. lia. Qed.

Lemma digits_spec fuel : forall n acc, (0 <= n < 2 ^ Z.of_nat fuel)%Z -> forallb is_digit acc = true -> 0 < fuel ->
  forallb is_digit (digits fuel n acc) = true /\ digits fuel n acc <> [] /\
  dec_value (digits fuel n acc) = foldl (fun v ch => (10 * v + Z.of_nat (nat_of_ascii ch - 48))%Z) n acc.
Proof.
  induction fuel as [|fuel IH]; intros n acc Hn Hacc Hf; [lia|]. cbn [digits].
  pose proof (Z.mod_pos_bound n 10 ltac:(lia)) as Hd. pose proof (digit_char (n mod 10) Hd) as Hc.
  set (ch := ascii_of_nat (48 + Z.to_nat (n mod 10))) in *. clearbody ch.
  assert (forallb is_digit (ch :: acc) = true) as Hacc'.
  { cbn [forallb]. rewrite Hacc, andb_true_r. unfold is_digit. rewrite Hc. apply andb_true_iff. split; apply Nat.leb_le; lia. }
  destruct (n <? 10)%Z eqn:E; bprop.
  - split; [done|]. split; [done|]. unfold dec_value. rewrite dec_value_app, Hc. f_equal. rewrite Z.mod_small in * by lia. lia.
  - assert (0 < fuel) as Hf'. { destruct fuel; [simpl in Hn; lia|lia]. }
    destruct (IH (n / 10)%Z (ch :: acc)) as (H1 & H2 & H3); [|done|done|].
    + rewrite Nat2Z.inj_succ, Z.pow_succ_r in Hn by lia. pose proof (Z.div_mod n 10 ltac:(lia)). lia.
    + split; [done|]. split; [done|]. rewrite H3, dec_value_app, Hc. f_equal. pose proof (Z.div_mod n 10 ltac:(lia)). lia.
Qed.

Lemma to_string_spec n : (0 <= n)%Z -> forallb is_digit (to_string n) = true /\ to_string n <> [] /\ dec_value (to_string n) = n.
Proof.
  intros Hn. apply (digits_spec _ n []); [|done|lia]. split; [done|]. rewrite Nat2Z.inj_succ, Z2Nat.id by apply Z.log2_nonneg.
  destruct (decide (n = 0)%Z) as [->|]; [done|]. apply Z.log2_spec. lia.
Qed.

Lemma dec_value_nonneg l v : (0 <= v)%Z -> (0 <= foldl (fun v ch => (10 * v + Z.of_nat (nat_of_ascii ch - 48))%Z) v l)%Z.
Proof. revert v. induction l as [|ch l IH]; intros v Hv; simpl; [done|]. apply IH. lia. Qed.

Lemma parse_count_Some value n : parse_count value = Some n <->
  value <> [] /\ forallb is_digit value = true /\ dec_value value = n /\ (0 <= n <= UINT32_MAX)%Z.
Proof.
  unfold parse_count, strtoull. pose proof (dec_value_nonneg value 0 ltac:(lia)) as Hge. fold (dec_value value) in Hge.
  destruct (bool_decide (value = [])) eqn:E1; bprop; simpl; [split; [done|by intros (? & _)]|].
  destruct (forallb is_digit value); simpl; [|split; [done|by intros (_ & ? & _)]].
  destruct (dec_value value <=? UINT64_MAX)%Z eqn:E2; bprop.
  - destruct (UINT32_MAX <? dec_value value)%Z eqn:E3; bprop.
    + split; [done|]. intros (_ & _ & <- & ?). lia.
    + split; [intros [= <-]; done|]. intros (_ & _ & <- & _). done.
  - split; [done|]. intros (_ & _ & <- & H). unfold UINT32_MAX, UINT64_MAX in *. lia.
Qed.

Lemma parse_to_string n : (0 <= n <= UINT32_MAX)%Z -> parse_count (to_string n) = Some n.
Proof. intros Hn. destruct (to_string_spec n) as (H1 & H2 & H3); [lia|]. by apply parse_count_Some. Qed.

Lemma digits_no ch s : forallb is_digit s = true -> is_digit ch = false -> ch ∉ s.
Proof. intros Hs Hc Hin. rewrite forallb_forall in Hs. apply list_elem_of_In, Hs in Hin. congruence. Qed.

(** ** Searching *)

Lemma find_None ch s : find_char ch s = None <-> ch ∉ s.
Proof.
  induction s as [|x s IH]; simpl; [split; [by intros _ H%not_elem_of_nil|done]|]. case_bool_decide as E.
  - split; [done|]. intros H. exfalso. apply H. subst. by left.
  - rewrite not_elem_of_cons, <- IH. destruct (find_char ch s); simpl; split; intros H; [done|by destruct H|by split|done].
Qed.

Lemma find_app ch a b : ch ∉ a -> find_char ch (a ++ ch :: b) = Some (length a).
Proof.
  induction a as [|x a IH]; intros H; simpl; [by rewrite bool_decide_eq_true_2|]. apply not_elem_of_cons in H as [H1 H2].
  rewrite bool_decide_eq_false_2 by done. by rewrite IH.
Qed.

Lemma find_Some ch s i : find_char ch s = Some i -> exists b, s = take i s ++ ch :: b /\ ch ∉ take i s /\ b = drop (i + 1) s /\ i < length s.
Proof.
  revert i. induction s as [|x s IH]; intros i; simpl; [done|]. case_bool_decide as E.
  - intros [= <-]. exists s. simpl. subst. split; [done|]. split; [apply not_elem_of_nil|]. split; [by rewrite drop_0|lia].
  - destruct (find_char ch s) as [j|]; simpl; [|done]. intros [= <-]. destruct (IH j eq_refl) as (b & H1 & H2 & H3 & H4).
    exists b. simpl. split; [by rewrite <- H1|]. split; [by apply not_elem_of_cons|]. split; [done|lia].
Qed.

Lemma rfind_app ch a b : ch ∉ b -> rfind_char ch (a ++ ch :: b) = Some (length a).
Proof.
  intros H. unfold rfind_char. rewrite rev_app_distr. simpl. rewrite <- app_assoc. simpl.
  rewrite find_app by (by rewrite list_elem_of_In, <- in_rev, <- list_elem_of_In).
  simpl. f_equal. rewrite length_app, length_rev. simpl. lia.
Qed.

(** ** Splitting *)

Lemma find_from_Some ch begin s e : find_from ch begin s = Some e -> exists i, e = begin + i /\ find_char ch (drop begin s) = Some i.
Proof. unfold find_from. destruct (find_char ch (drop begin s)) as [i|]; [|done]. intros [= <-]. by exists i. Qed.

Lemma split_loop_pieces fuel s : forall begin, Forall (fun e => ","%char ∉ e) (split_entries_loop fuel s begin).
Proof.
  induction fuel as [|fuel IH]; intros begin; simpl; [constructor|]. destruct (begin <=? length s); [|constructor].
  destruct (find_from "," begin s) as [e|] eqn:E.
  - apply find_from_Some in E as (i & -> & Hi). constructor; [|done]. replace (begin + i - begin) with i by lia.
    by apply find_Some in Hi as (b & _ & H & _).
  - constructor; [|constructor]. apply find_None. unfold find_from in E. by destruct (find_char _ _).
Qed.

Lemma split_loop_join fuel s : forall l begin, l <> [] -> drop begin s = join l -> begin <= length s -> Forall (fun e => ","%char ∉ e) l -> length l <= fuel ->
  split_entries_loop fuel s begin = l.
Proof.
  induction fuel as [|fuel IH]; intros [|x l] begin Hl Hd Hb Hf Hfuel; try done; [simpl in Hfuel; lia|].
  apply Forall_cons in Hf as [Hx Hf]. simpl. rewrite (proj2 (Nat.leb_le _ _)) by done. unfold find_from. rewrite Hd. destruct l as [|y l].
  - simpl. by rewrite (proj2 (find_None _ _)).
  - assert (join (x :: y :: l) = x ++ ","%char :: join (y :: l)) as -> by done. rewrite find_app by done. cbn [fmap option_fmap option_map].
    replace (begin + length x - begin) with (length x) by lia. rewrite take_app_length. f_equal.
    assert (length (drop begin s) = length x + 1 + length (join (y :: l))) as Hlen by (rewrite Hd; simpl; rewrite length_app; simpl; lia).
    rewrite length_drop in Hlen. apply IH; [done| |lia|done|simpl in *; lia].
    replace (begin + length x + 1) with (begin + (length x + 1)) by lia. rewrite <- drop_drop, Hd. simpl.
    rewrite drop_app_ge by lia. by replace (length x + 1 - length x) with 1 by lia.
Qed.

Lemma join_length l : length l <= length (join l) + 1.
Proof. induction l as [|x [|y l] IH]; simpl in *; [lia|lia|]. rewrite length_app. simpl. lia. Qed.

Lemma split_join l : l <> [] -> Forall (fun e => ","%char ∉ e) l -> split_entries (join l) = l.
Proof.
  intros Hl Hf. unfold split_entries. apply split_loop_join; try done; [lia|]. pose proof (join_length l). lia.
Qed.

Lemma split_nonempty s : split_entries s <> [].
Proof. unfold split_entries. rewrite Nat.add_comm. simpl. by destruct (find_from "," 0 s). Qed.

(** ** Printing, then parsing *)

Lemma print_no_comma named e : entry_count_ok e -> (named = true -> name_ok (e_group e)) -> ","%char ∉ print_entry named e.
Proof.
  intros [Hc _] Hn. destruct (to_string_spec (e_tokens e) Hc) as (Hd & _). pose proof (digits_no "," _ Hd eq_refl) as H.
  unfold print_entry. destruct named; [|done]. destruct (Hn eq_refl) as (_ & H1 & _).
  intros [?|[?|?]%elem_of_cons]%elem_of_app; done.
Qed.

Lemma print_named e : entry_count_ok e -> name_ok (e_group e) ->
  find_char "=" (print_entry true e) = Some (length (e_group e)) /\ one_equal (print_entry true e) = true /\ has_equal (print_entry true e) = true /\
  entry_name true (print_entry true e) = e_group e /\ entry_value true (print_entry true e) = to_string (e_tokens e).
Proof.
  intros [Hc _] (_ & _ & Hn). destruct (to_string_spec (e_tokens e) Hc) as (Hd & _). pose proof (digits_no "=" _ Hd eq_refl) as H.
  assert (find_char "=" (print_entry true e) = Some (length (e_group e))) as Hf by (by apply find_app).
  assert (has_equal (print_entry true e) = true) as Hh by (unfold has_equal; rewrite Hf; by apply bool_decide_eq_true).
  split; [done|]. split; [unfold one_equal; rewrite Hh, Hf; simpl; apply bool_decide_eq_true; symmetry; by apply rfind_app|].
  split; [done|]. unfold entry_name, entry_value. rewrite Hf. unfold print_entry. split; [by rewrite take_app_length|].
  rewrite drop_app_ge by lia. by replace (length (e_group e) + 1 - length (e_group e)) with 1 by lia.
Qed.

Lemma print_unnamed e : entry_count_ok e -> has_equal (print_entry false e) = false.
Proof.
  intros [Hc _]. destruct (to_string_spec (e_tokens e) Hc) as (Hd & _). pose proof (digits_no "=" _ Hd eq_refl) as H.
  unfold has_equal. simpl. by rewrite (proj2 (find_None _ _)).
Qed.

Definition push_entries (es : list llama_kv_tail_request_entry) (r : llama_kv_tail_request) : llama_kv_tail_request :=
  mk_request (rq_mode r) (rq_exact_type r) (rq_entries r ++ es) (rq_error r).

Lemma parse_loop_print named es : forall names r, Forall entry_count_ok es ->
  (if named : bool then Forall (fun e => name_ok (e_group e)) es /\ NoDup (e_group <$> es) /\ (forall e, e ∈ es -> e_group e ∉ names)
   else Forall (fun e => e_group e = []) es) ->
  parse_loop named (print_entry named <$> es) names r = push_entries es r.
Proof.
  induction es as [|e es IH]; intros names r Hc Hn; simpl fmap; cbn [parse_loop].
  - unfold push_entries. rewrite app_nil_r. by destruct r.
  - apply Forall_cons in Hc as [Hc Hcs]. destruct named.
    + destruct Hn as (Hn & Hnd & Hni). apply Forall_cons in Hn as [Hn Hns]. simpl in Hnd. apply NoDup_cons in Hnd as [Hni' Hnd].
      destruct (print_named e Hc Hn) as (_ & _ & _ & -> & ->). rewrite parse_to_string by apply Hc.
      rewrite bool_decide_eq_false_2 by apply Hn. rewrite bool_decide_eq_false_2 by (apply Hni; by left). cbn [andb].
      rewrite IH; [|done|].
      * unfold push_entries, push_entry. simpl. rewrite <- app_assoc. simpl. by destruct e.
      * split; [done|]. split; [done|]. intros e' He' [?|?]%elem_of_cons; [|by eapply Hni; [right|]].
        apply Hni'. apply list_elem_of_fmap. by exists e'.
    + apply Forall_cons in Hn as [Hn Hns]. unfold entry_name, entry_value. unfold print_entry at 1. rewrite parse_to_string by apply Hc. cbn [andb].
      rewrite IH by done. unfold push_entries, push_entry. simpl. rewrite <- app_assoc. simpl. rewrite <- Hn. by destruct e.
Qed.

Lemma elem_of_join c l : c ∈ join l -> c = ","%char \/ exists x, x ∈ l /\ c ∈ x.
Proof.
  induction l as [|x [|y l] IH]; intros H; [by apply not_elem_of_nil in H|right; exists x; split; [by left|done]|].
  change (join (x :: y :: l)) with (x ++ ","%char :: join (y :: l)) in H.
  apply elem_of_app in H as [H|H]; [right; exists x; split; [by left|done]|].
  apply elem_of_cons in H as [->|H]; [by left|]. destruct (IH H) as [?|(z & Hz & ?)]; [by left|right]. exists z. split; [by right|done].
Qed.

Lemma join_elem c x l : x ∈ l -> c ∈ x -> c ∈ join l.
Proof.
  induction l as [|y [|z l] IH]; intros Hx Hc; [by apply not_elem_of_nil in Hx|by apply list_elem_of_singleton in Hx as ->|].
  change (join (y :: z :: l)) with (y ++ ","%char :: join (z :: l)). apply elem_of_app.
  apply elem_of_cons in Hx as [->|Hx]; [by left|right]. right. by apply IH.
Qed.

(** What follows the tests on the whole specification. *)
Lemma parse_entries t l : type_ok t -> l <> [] -> Forall (fun e => ","%char ∉ e) l -> join l <> [] -> join l <> lit "auto" ->
  llama_kv_tail_request_parse (join l) t =
    let any_named := existsb has_equal l in
    if any_named && negb (forallb one_equal l) then
      mk_request REQUEST_DISABLED t [] (lit "KV tail request cannot mix named and positional groups")
    else parse_loop any_named l []
           (mk_request (if any_named then REQUEST_NAMED else if 1 <? length l then REQUEST_POSITIONAL else REQUEST_NUMERIC) t [] []).
Proof.
  intros Ht Hl Hf H1 H2. unfold llama_kv_tail_request_parse.
  assert (negb (t =? GGML_TYPE_COUNT)%Z && negb (t =? GGML_TYPE_F16)%Z && negb (t =? GGML_TYPE_BF16)%Z = false) as ->.
  { by destruct Ht as [->|[->| ->]]. }
  rewrite (bool_decide_eq_false_2 _ H1), (bool_decide_eq_false_2 _ H2). rewrite split_join by done. done.
Qed.

Lemma existsb_all {A} (f : A -> bool) l : l <> [] -> (forall x, x ∈ l -> f x = true) -> existsb f l = true /\ forallb f l = true.
Proof.
  intros Hl H. split.
  - destruct l as [|x l]; [done|]. simpl. by rewrite (H x) by (by left).
  - apply forallb_forall. intros x Hx. apply H. by apply list_elem_of_In.
Qed.

Lemma existsb_none {A} (f : A -> bool) l : (forall x, x ∈ l -> f x = false) -> existsb f l = false.
Proof. induction l as [|x l IH]; intros H; [done|]. simpl. rewrite (H x) by (by left). apply IH. intros. apply H. by right. Qed.

Lemma parse_print r : request_normal r -> llama_kv_tail_request_parse (print_request r) (rq_exact_type r) = r.
Proof.
  intros [H1 H2 H3 H4]. destruct r as [m t es err]. simpl in *. subst err.
  assert (forall named, Forall (fun e => ","%char ∉ e) (print_entry named <$> es) ->
    es <> [] -> join (print_entry named <$> es) <> [] -> join (print_entry named <$> es) <> lit "auto" ->
    (if named : bool then Forall (fun e => name_ok (e_group e)) es /\ NoDup (e_group <$> es) else Forall (fun e => e_group e = []) es) ->
    llama_kv_tail_request_parse (join (print_entry named <$> es)) t =
      mk_request (if named then REQUEST_NAMED else if 1 <? length es then REQUEST_POSITIONAL else REQUEST_NUMERIC) t es []) as Hrun.
  { intros named Hf Hne Hj1 Hj2 Hn. rewrite parse_entries; [|done|by destruct es|done..].
    assert (print_entry named <$> es <> []) as Hne' by (by destruct es). destruct named; cbv zeta.
    - destruct Hn as [Hn Hnd]. rewrite Forall_forall in Hn. pose proof H3 as H3'. rewrite Forall_forall in H3'.
      destruct (existsb_all has_equal (print_entry true <$> es) Hne') as [-> _].
      { intros x (e & -> & He)%list_elem_of_fmap. apply print_named; [by apply H3'|by apply Hn]. }
      destruct (existsb_all one_equal (print_entry true <$> es) Hne') as [_ ->].
      { intros x (e & -> & He)%list_elem_of_fmap. apply print_named; [by apply H3'|by apply Hn]. }
      simpl negb. simpl andb. cbv iota. rewrite parse_loop_print; [done|done|]. split; [by apply Forall_forall|]. split; [done|]. intros e _. apply not_elem_of_nil.
    - rewrite existsb_none.
      { simpl andb. cbv iota. rewrite length_fmap. by rewrite parse_loop_print. }
      intros x (e & -> & He)%list_elem_of_fmap. apply print_unnamed. rewrite Forall_forall in H3. by apply H3. }
  assert (forall e, e ∈ es -> entry_count_ok e) as Hcnt by (by apply Forall_forall).
  assert (es <> [] -> Forall (fun e => e_group e = []) es -> llama_kv_tail_request_parse (join (print_entry false <$> es)) t =
      mk_request (if 1 <? length es then REQUEST_POSITIONAL else REQUEST_NUMERIC) t es []) as Hpos.
  { intros Hne Hg. destruct es as [|e es']; [done|]. destruct (to_string_spec (e_tokens e)) as (Hd & Hnn & _); [apply (Hcnt e); by left|].
    assert (to_string (e_tokens e) ⊆ join (print_entry false <$> e :: es')) as Hsub by (intros c Hc; eapply join_elem; [by left|done]).
    apply (Hrun false); [|done| | |done].
    - apply Forall_forall. intros x (e' & -> & He')%list_elem_of_fmap. by apply print_no_comma; [apply Hcnt|].
    - destruct (to_string (e_tokens e)) as [|c l]; [done|]. intros E. rewrite E in Hsub. apply (not_elem_of_nil c), Hsub. by left.
    - intros E. assert ("a"%char ∈ join (print_entry false <$> e :: es')) as Ha by (rewrite E; by left).
      apply elem_of_join in Ha as [Ha|(x & (e' & -> & He')%list_elem_of_fmap & Ha)]; [done|].
      destruct (to_string_spec (e_tokens e')) as (Hd' & _); [by apply Hcnt|]. by apply (digits_no "a" _ Hd'). }
  destruct m; unfold print_request; cbn [rq_mode rq_entries].
  - subst es. by destruct H2 as [->|[->| ->]].
  - destruct H4 as [Hl Hg]. rewrite Hpos; [|by destruct es|done]. by rewrite Hl.
  - subst es. by destruct H2 as [->|[->| ->]].
  - destruct H4 as [Hl Hg]. rewrite Hpos; [|intros ->; simpl in Hl; lia|done]. by rewrite (proj2 (Nat.ltb_lt _ _)).
  - destruct H4 as (Hne & Hn & Hnd). rewrite Forall_forall in Hn. apply (Hrun true); [|done| | |by split; [apply Forall_forall|]].
    + apply Forall_forall. intros x (e & -> & He)%list_elem_of_fmap. apply print_no_comma; auto.
    + destruct es as [|e es']; [done|]. intros E. assert ("="%char ∈ join (print_entry true <$> e :: es')) as Ha; [|by rewrite E in Ha; apply not_elem_of_nil in Ha].
      eapply join_elem; [by left|]. apply elem_of_app. right. by left.
    + destruct es as [|e es']; [done|]. intros E. assert ("="%char ∈ join (print_entry true <$> e :: es')) as Ha.
      { eapply join_elem; [by left|]. apply elem_of_app. right. by left. }
      rewrite E in Ha. revert Ha. apply (bool_decide_unpack _). vm_compute. exact I.
Qed.

(** ** What the parser returns *)

Lemma entry_parts entry : ","%char ∉ entry -> one_equal entry = true -> entry_name true entry <> [] -> name_ok (entry_name true entry).
Proof.
  intros Hc He Hne. unfold one_equal, has_equal in He. apply andb_true_iff in He as [He _]. bprop. unfold entry_name in *.
  destruct (find_char "=" entry) as [i|] eqn:E; [|done]. apply find_Some in E as (b & E & H & _). split; [done|]. split; [|done].
  intros Hin. apply Hc. rewrite E. apply elem_of_app. by left.
Qed.

Lemma error_nonempty s (v : str) : lit s <> [] -> lit s ++ v <> [].
Proof. by destruct (lit s). Qed.

Lemma parse_loop_ok named l : forall names r, Forall (fun e => ","%char ∉ e) l -> (named = true -> forallb one_equal l = true) ->
  rq_error r = [] -> rq_error (parse_loop named l names r) = [] ->
  exists es, parse_loop named l names r = push_entries es r /\ length es = length l /\ Forall entry_count_ok es /\
    if named then Forall (fun e => name_ok (e_group e)) es /\ NoDup (e_group <$> es) /\ (forall e, e ∈ es -> e_group e ∉ names)
    else Forall (fun e => e_group e = []) es.
Proof.
  induction l as [|entry l IH]; intros names r Hf Hone Hr; cbn [parse_loop].
  - intros _. exists []. unfold push_entries. rewrite app_nil_r. split; [by destruct r|]. split; [done|]. split; [done|]. destruct named; [|done].
    split; [done|]. split; [apply NoDup_nil_2|]. intros e He. by apply not_elem_of_nil in He.
  - apply Forall_cons in Hf as [Hf Hfs]. destruct (parse_count (entry_value named entry)) as [tokens|] eqn:Ep.
    2:{ intros H. exfalso. revert H. by apply error_nonempty. }
    apply parse_count_Some in Ep as (_ & _ & _ & Hcnt).
    destruct (named && bool_decide (entry_name named entry = [])) eqn:E1; [by intros H|].
    destruct (named && bool_decide (entry_name named entry ∈ names)) eqn:E2; [intros H; exfalso; revert H; by apply error_nonempty|].
    intros H. destruct (IH (entry_name named entry :: names) (push_entry (mk_entry (entry_name named entry) tokens) r)) as (es & E & Hl & Hc & Hn); [done| |done|done|].
    { intros Hn. specialize (Hone Hn). simpl in Hone. by apply andb_true_iff in Hone as [_ ?]. }
    exists (mk_entry (entry_name named entry) tokens :: es). rewrite E. split; [unfold push_entries, push_entry; simpl; by rewrite <- app_assoc|].
    split; [simpl; by rewrite Hl|]. split; [by constructor|]. destruct named; [|by constructor].
    destruct Hn as (Hn & Hnd & Hni). simpl in E1, E2. bprop. specialize (Hone eq_refl). simpl in Hone. apply andb_true_iff in Hone as [Ho _].
    split; [constructor; [by apply entry_parts|done]|]. split.
    + simpl. apply NoDup_cons. split; [|done]. intros (e & Ee & He)%list_elem_of_fmap. apply (Hni e He). rewrite <- Ee. by left.
    + intros e [->|He]%elem_of_cons; [done|]. intros Hin. apply (Hni e He). by right.
Qed.

Lemma parse_valid_ok s t : valid (llama_kv_tail_request_parse s t) = true -> request_normal (llama_kv_tail_request_parse s t).
Proof.
  unfold valid. intros H. bprop. revert H. unfold llama_kv_tail_request_parse.
  destruct (negb (t =? GGML_TYPE_COUNT)%Z && negb (t =? GGML_TYPE_F16)%Z && negb (t =? GGML_TYPE_BF16)%Z) eqn:Et; [done|].
  assert (type_ok t) as Ht.
  { unfold type_ok. destruct (decide (t = GGML_TYPE_COUNT)) as [?|E1]; [by left|]. destruct (decide (t = GGML_TYPE_F16)) as [?|E2]; [by right; left|].
    destruct (decide (t = GGML_TYPE_BF16)) as [?|E3]; [by right; right|]. exfalso. apply Z.eqb_neq in E1, E2, E3. by rewrite E1, E2, E3 in Et. }
  do 2 (case_bool_decide; [intros _; split; [done|done|constructor|done]|]). cbv zeta.
  destruct (existsb has_equal (split_entries s) && negb (forallb one_equal (split_entries s))) eqn:E; [done|]. intros Hv.
  set (named := existsb has_equal (split_entries s)) in *.
  set (r0 := set_mode _ _) in *.
  destruct (parse_loop_ok named (split_entries s) [] r0) as (es & -> & Hl & Hc & Hn); [apply split_loop_pieces| |done|done|].
  { intros ->. simpl in E. by destruct (forallb one_equal (split_entries s)). }
  pose proof (split_nonempty s) as Hne. assert (es <> []) as Hes by (intros ->; by destruct (split_entries s)).
  split; cbn; [done|done|done|]. destruct named; [by destruct Hn as (? & ? & _)|]. rewrite <- Hl.
  destruct es as [|e [|e' es]]; [done|by split|split; [simpl; lia|done]].
Qed.

(** C37: the parser and the printed form of requests are inverse: every request without
    error that the parser returns is in normal form (counts in range, distinct non-empty
    names without separators, a mode that fits the entries, a known type), and printing
    a request in normal form and parsing it again gives it back. *)
Theorem tail_request_roundtrip :
  (forall s t, valid (llama_kv_tail_request_parse s t) = true -> request_normal (llama_kv_tail_request_parse s t)) /\
  (forall r, request_normal r -> valid r = true /\ llama_kv_tail_request_parse (print_request r) (rq_exact_type r) = r).
Proof.
  split; [apply parse_valid_ok|]. intros r Hr. split; [|by apply parse_print]. unfold valid. apply bool_decide_eq_true, Hr.
Qed.

Lemma tail_request_roundtrip_witness :
  let r := mk_request REQUEST_NAMED GGML_TYPE_F16 [mk_entry (lit "swa") 512; mk_entry (lit "full") 4294967295] [] in
  print_request r = lit "swa=512,full=4294967295" /\ llama_kv_tail_request_parse (lit "swa=512,full=4294967295") GGML_TYPE_F16 = r.
Proof.
  intros r. assert (print_request r = lit "swa=512,full=4294967295") as E by (vm_compute; reflexivity). split; [exact E|].
  assert (request_normal r) as Hr.
  { split; [reflexivity|right; left; reflexivity|repeat constructor; vm_compute; discriminate|]. split; [discriminate|].
    split; [|apply (bool_decide_unpack _); vm_compute; exact I].
    repeat constructor; try discriminate; apply (bool_decide_unpack _); vm_compute; exact I. }
  destruct (proj2 tail_request_roundtrip r Hr) as [_ Hp]. rewrite E in Hp. exact Hp.
Defined.

(** ** Resolution *)

Definition targets (groups : list llama_kv_tail_request_group) (es : list llama_kv_tail_request_entry) : list nat :=
  concat ((fun e => matches groups (e_group e)) <$> es).

Definition single (groups : list llama_kv_tail_request_group) (e : llama_kv_tail_request_entry) : Prop :=
  exists i, matches groups (e_group e) = [i].

(** When a request can be bound: the counts agree, or the names are a one-to-one
    assignment of the groups. *)
Definition fits (r : llama_kv_tail_request) (groups : list llama_kv_tail_request_group) : Prop :=
  match rq_mode r with
  | REQUEST_POSITIONAL => length (rq_entries r) = length groups
  | REQUEST_NAMED => Forall (single groups) (rq_entries r) /\ NoDup (targets groups (rq_entries r)) /\
      forall i, i < length groups -> i ∈ targets groups (rq_entries r)
  | _ => True
  end.

(** The count a request asks for group [i]. *)
Definition asks (r : llama_kv_tail_request) (groups : list llama_kv_tail_request_group) (i : nat) (tokens : Z) : Prop :=
  match rq_mode r with
  | REQUEST_DISABLED => tokens = 0%Z
  | REQUEST_AUTOMATIC => tokens = 1024%Z
  | REQUEST_NUMERIC => exists e, rq_entries r = [e] /\ tokens = e_tokens e
  | REQUEST_POSITIONAL => exists e, rq_entries r !! i = Some e /\ tokens = e_tokens e
  | REQUEST_NAMED => exists e, e ∈ rq_entries r /\ matches groups (e_group e) = [i] /\ tokens = e_tokens e
  end.

Lemma matches_lt groups name i : i ∈ matches groups name -> i < length groups.
Proof. unfold matches. rewrite list_elem_of_In, List.filter_In, <- list_elem_of_In, elem_of_seq. lia. Qed.

Lemma assign_named_ok groups es : forall raw assigned raw' assigned', length raw = length groups -> length assigned = length groups ->
  assign_named groups es raw assigned = inr (raw', assigned') ->
  Forall (single groups) es /\ NoDup (targets groups es) /\ (forall i, i ∈ targets groups es -> assigned !! i = Some false) /\
  length raw' = length groups /\ length assigned' = length groups /\
  (forall i, i < length groups -> if decide (i ∈ targets groups es)
     then assigned' !! i = Some true /\ exists e, e ∈ es /\ matches groups (e_group e) = [i] /\ raw' !! i = Some (e_tokens e)
     else assigned' !! i = assigned !! i /\ raw' !! i = raw !! i).
Proof.
  induction es as [|e es IH]; intros raw assigned raw' assigned' Hr Ha H; cbn [assign_named] in H.
  - injection H as <- <-. split; [constructor|]. split; [apply NoDup_nil_2|]. split; [intros i Hi; by apply not_elem_of_nil in Hi|]. split; [done|]. by split.
  - destruct (matches groups (e_group e)) as [|i [|]] eqn:Em; [done| |done].
    assert (i < length groups) as Hi by (apply (matches_lt groups (e_group e)); rewrite Em; by left).
    destruct (lookup_lt_is_Some_2 assigned i) as [b Hb]; [lia|]. rewrite Hb in H. simpl in H. destruct b; [done|].
    apply IH in H as (H1 & H2 & H3 & H4 & H5 & H6); [|by rewrite length_insert|by rewrite length_insert].
    assert (targets groups (e :: es) = i :: targets groups es) as -> by (unfold targets; simpl; by rewrite Em).
    assert (i ∉ targets groups es) as Hni.
    { intros Hin. specialize (H3 i Hin). rewrite list_lookup_insert_eq in H3 by lia. done. }
    split; [constructor; [by exists i|done]|]. split; [by apply NoDup_cons|]. split.
    { intros j [->|Hj]%elem_of_cons; [done|]. specialize (H3 j Hj). rewrite list_lookup_insert_ne in H3; [done|]. intros ->. done. }
    split; [done|]. split; [done|]. intros j Hj. specialize (H6 j Hj). destruct (decide (j = i)) as [->|Hne].
    + rewrite decide_True by (by left). rewrite decide_False in H6 by done. rewrite !list_lookup_insert_eq in H6 by lia. destruct H6 as [-> ->].
      split; [done|]. exists e. split; [by left|done].
    + rewrite !list_lookup_insert_ne in H6 by done. destruct (decide (j ∈ targets groups es)) as [Hd|Hd].
      * rewrite decide_True by (by right). destruct H6 as [H6 (e' & He' & ?)]. split; [done|]. exists e'. split; [by right|done].
      * rewrite decide_False; [done|]. by intros [?|?]%elem_of_cons.
Qed.

Lemma assign_named_fits groups es : forall raw assigned, length assigned = length groups ->
  Forall (single groups) es -> NoDup (targets groups es) -> (forall i, i ∈ targets groups es -> assigned !! i = Some false) ->
  exists raw' assigned', assign_named groups es raw assigned = inr (raw', assigned').
Proof.
  induction es as [|e es IH]; intros raw assigned Ha H1 H2 H3; cbn [assign_named]; [by eexists _, _|].
  apply Forall_cons in H1 as [[i Hi] H1]. rewrite Hi.
  assert (targets groups (e :: es) = i :: targets groups es) as Et by (unfold targets; simpl; by rewrite Hi). rewrite Et in H2, H3.
  rewrite (H3 i) by (by left). simpl. apply NoDup_cons in H2 as [Hni H2]. apply IH; [by rewrite length_insert|done|done|].
  intros j Hj. rewrite list_lookup_insert_ne by (intros ->; done). apply H3. by right.
Qed.

Lemma bind_request_spec r groups : request_normal r ->
  match bind_request r groups with
  | inr raw => fits r groups /\ length raw = length groups /\ forall i t, raw !! i = Some t -> asks r groups i t
  | inl e => ~ fits r groups
  end.
Proof.
  intros [_ _ _ H]. unfold bind_request, fits, asks. destruct (rq_mode r).
  - split; [done|]. split; [apply length_replicate|]. by intros i t [-> _]%lookup_replicate.
  - destruct H as [H _]. destruct (rq_entries r) as [|e [|]]; try done. split; [done|]. split; [apply length_replicate|].
    intros i t [-> _]%lookup_replicate. by exists e.
  - split; [done|]. split; [apply length_replicate|]. by intros i t [-> _]%lookup_replicate.
  - destruct (_ =? _) eqn:E; bprop; [|done]. split; [done|]. split; [by rewrite length_fmap|].
    intros i t Ht. rewrite list_lookup_fmap in Ht. destruct (rq_entries r !! i) as [e|]; [|done]. injection Ht as <-. by exists e.
  - set (n := length groups). destruct (assign_named groups (rq_entries r) (replicate n 0%Z) (replicate n false)) as [e|[raw assigned]] eqn:E.
    + intros (H1 & H2 & _). destruct (assign_named_fits groups (rq_entries r) (replicate n 0%Z) (replicate n false)) as (? & ? & E'); try done.
      * apply length_replicate.
      * intros i Hi. apply lookup_replicate. split; [done|]. unfold targets in Hi. apply list_elem_of_In, in_concat in Hi as (l & Hl & Hi).
        apply list_elem_of_In, list_elem_of_fmap in Hl as (e' & -> & _). apply list_elem_of_In in Hi. by apply matches_lt in Hi.
      * congruence.
    + apply assign_named_ok in E as (H1 & H2 & _ & H4 & H5 & H6); [|apply length_replicate|apply length_replicate].
      destruct (existsb negb assigned) eqn:Ex.
      * intros (_ & _ & H7). apply existsb_exists in Ex as (b & Hb & Hf). apply list_elem_of_In, list_elem_of_lookup in Hb as [i Hi].
        assert (i < length groups) as Hlt by (rewrite <- H5; by eapply lookup_lt_Some). specialize (H6 i Hlt).
        rewrite decide_True in H6 by (by apply H7). destruct H6 as [H6 _]. rewrite Hi in H6. by injection H6 as ->.
      * assert (forall i, i < length groups -> i ∈ targets groups (rq_entries r)) as Hall.
        { intros i Hi. specialize (H6 i Hi). destruct (decide (i ∈ targets groups (rq_entries r))) as [|Hd]; [done|]. destruct H6 as [H6 _].
          assert (replicate n false !! i = Some false) as Hr by (by apply lookup_replicate). rewrite Hr in H6. exfalso.
          assert (existsb negb assigned = true) as He; [|congruence]. apply existsb_exists. exists false. split; [|done].
          apply list_elem_of_In. by eapply list_elem_of_lookup_2. }
        split; [done|]. split; [done|]. intros i t Ht. assert (i < length groups) as Hlt by (rewrite <- H4; by eapply lookup_lt_Some).
        specialize (H6 i Hlt). rewrite decide_True in H6 by (by apply Hall). destruct H6 as [_ (e & He & Hm & Hraw)]. exists e. split; [done|].
        split; [done|]. congruence.
Qed.

Lemma assign_named_error groups es : forall raw assigned e, assign_named groups es raw assigned = inl e -> e <> [].
Proof.
  induction es as [|x es IH]; intros raw assigned e; cbn [assign_named]; [done|].
  destruct (matches groups (e_group x)) as [|i [|]]; [by intros [= <-]| |by intros [= <-]].
  destruct (default false (assigned !! i)); [by intros [= <-]|apply IH].
Qed.

Lemma bind_request_error r groups : match bind_request r groups with inl e => e <> [] | inr _ => True end.
Proof.
  unfold bind_request. destruct (rq_mode r); [done| |done| |].
  - by destruct (rq_entries r) as [|e [|]].
  - destruct (_ =? _); [done|]. by apply error_nonempty.
  - destruct (assign_named _ _ _ _) as [e|[raw assigned]] eqn:E; [by eapply assign_named_error|]. by destruct (existsb negb assigned).
Qed.

(** The KVarN policy: at least one group of the window, at most the window. *)
Lemma kvarn_policy_range raw window : (0 <= raw <= UINT32_MAX)%Z -> (0 <= window <= UINT32_MAX)%Z ->
  let p := llama_kvarn_tail_policy_for raw window in
  kp_requested_tokens p = kp_effective_tokens p /\ (Z.min 128 window <= kp_effective_tokens p <= window)%Z /\
  (Z.min raw window <= kp_effective_tokens p)%Z /\ (kp_effective_tokens p = window \/ kp_effective_tokens p mod 128 = 0)%Z /\
  kp_native_exact p = bool_decide (kp_effective_tokens p = window).
Proof.
  intros Hr Hw. unfold llama_kvarn_tail_policy_for. destruct (window =? 0)%Z eqn:E; bprop.
  { subst window. cbn. split; [done|]. split; [lia|]. split; [lia|]. split; [by left|done]. }
  cbn [kp_requested_tokens kp_effective_tokens kp_native_exact]. set (rounded := if (raw =? 0)%Z then _ else _).
  assert (raw <= rounded /\ rounded mod 128 = 0)%Z as [H1 H2].
  { subst rounded. destruct (raw =? 0)%Z eqn:E1; bprop; [by subst raw|]. pose proof (Z.div_mod (raw + 128 - 1) 128 ltac:(lia)).
    pose proof (Z.mod_pos_bound (raw + 128 - 1) 128 ltac:(lia)). split; [lia|]. apply Z.mod_mul. lia. }
  unfold u32. rewrite Z.mod_small by (unfold UINT32_MAX in *; lia). split; [done|]. split; [lia|]. split; [lia|]. split.
  - destruct (Z.le_gt_cases window rounded) as [Hle|Hgt]; [left; lia|]. destruct (Z.le_gt_cases window 128) as [Hw2|Hw2]; [left; lia|].
    right. rewrite (Z.min_l 128 window), (Z.min_l rounded window) by lia. destruct (Z.max_spec 128 rounded) as [[_ ->]|[_ ->]]; [done|done].
  - apply eq_true_iff_eq. by rewrite Z.eqb_eq, bool_decide_eq_true.
Qed.

(** What a resolution gives group [i]. *)
Definition resolves (r : llama_kv_tail_request) (groups : list llama_kv_tail_request_group) (kvarn : bool) (i : nat)
    (g : llama_kv_tail_request_group) (o : llama_kv_tail_request_group_resolution) : Prop :=
  (gr_id o = g_id g /\ gr_role o = g_role g) /\
  (asks r groups i (gr_raw_requested_tokens o) /\ 0 <= gr_raw_requested_tokens o <= UINT32_MAX)%Z /\
  (rq_exact_type r = GGML_TYPE_COUNT /\ gr_exact_type o = (if kvarn then GGML_TYPE_F16 else GGML_TYPE_BF16) \/
   rq_exact_type r <> GGML_TYPE_COUNT /\ gr_exact_type o = rq_exact_type r) /\
  (0 <= gr_effective_tokens o <= g_effective_window g)%Z /\
  (if kvarn then
     gr_requested_tokens o = gr_effective_tokens o /\
     (Z.min 128 (g_effective_window g) <= gr_effective_tokens o)%Z /\
     (Z.min (gr_raw_requested_tokens o) (g_effective_window g) <= gr_effective_tokens o)%Z /\
     (gr_effective_tokens o = g_effective_window g \/ gr_effective_tokens o mod 128 = 0)%Z /\
     (gr_native_exact o = true <-> gr_effective_tokens o = g_effective_window g)
   else
     gr_requested_tokens o = gr_raw_requested_tokens o /\ gr_native_exact o = false /\
     gr_effective_tokens o = (if g_applicable_standard_kv g then Z.min (gr_raw_requested_tokens o) (g_effective_window g) else 0%Z)).

Lemma asks_range r groups i t : request_normal r -> asks r groups i t -> (0 <= t <= UINT32_MAX)%Z.
Proof.
  intros [_ _ Hc _]. rewrite Forall_forall in Hc. unfold asks, entry_count_ok in *. destruct (rq_mode r).
  - intros ->. unfold UINT32_MAX. lia.
  - intros (e & E & ->). apply Hc. rewrite E. by left.
  - intros ->. unfold UINT32_MAX. lia.
  - intros (e & E & ->). apply Hc. by eapply list_elem_of_lookup_2.
  - intros (e & E & _ & ->). by apply Hc.
Qed.

Lemma resolve_group_ok r groups kvarn i g raw : request_normal r -> (0 <= g_effective_window g <= UINT32_MAX)%Z -> asks r groups i raw ->
  resolves r groups kvarn i g (resolve_group kvarn
    (if negb (rq_exact_type r =? GGML_TYPE_COUNT)%Z then rq_exact_type r else if kvarn then GGML_TYPE_F16 else GGML_TYPE_BF16) g raw).
Proof.
  intros Hr Hw Ha. pose proof (asks_range r groups i raw Hr Ha) as Hraw. unfold resolve_group, resolves.
  assert (forall a b : ggml_type, rq_exact_type r = GGML_TYPE_COUNT /\ (if negb (rq_exact_type r =? GGML_TYPE_COUNT)%Z then a else b) = b \/
    rq_exact_type r <> GGML_TYPE_COUNT /\ (if negb (rq_exact_type r =? GGML_TYPE_COUNT)%Z then a else b) = a) as Ht.
  { intros a b. destruct (rq_exact_type r =? GGML_TYPE_COUNT)%Z eqn:E; bprop; [by left|by right]. }
  destruct kvarn; simpl.
  - destruct (kvarn_policy_range raw (g_effective_window g) Hraw Hw) as (H1 & H2 & H3 & H4 & H5). cbv zeta in *.
    split; [done|]. split; [done|]. split; [apply Ht|]. split; [unfold UINT32_MAX in *; lia|]. split; [done|]. split; [lia|]. split; [done|]. split; [done|].
    rewrite H5. apply bool_decide_eq_true.
  - split; [done|]. split; [done|]. split; [apply Ht|]. split; [destruct (g_applicable_standard_kv g); lia|]. done.
Qed.

(** resolution.  For a request in normal form and groups with 32-bit windows, the
    resolution is valid exactly when the request fits the groups (as many positional counts
    as groups, or names that assign every group once).  A valid resolution has one entry per
    group, in order, with the group's id and role, the count the request asks for it, the
    requested or the family's default type, and an effective count within the window: the
    clipped request for standard caches, and for KVarN at least the intrinsic 128, a whole
    number of groups or the window.  An invalid one has no groups and an error text. *)
Theorem tail_request_resolves r groups kvarn :
  request_normal r -> Forall (fun g => (0 <= g_effective_window g <= UINT32_MAX)%Z) groups ->
  let o := llama_kv_tail_request_resolve r groups kvarn in
  (rs_valid o = true <-> fits r groups) /\
  (if rs_valid o then rs_error o = [] /\ length (rs_groups o) = length groups /\
     forall i g x, groups !! i = Some g -> rs_groups o !! i = Some x -> resolves r groups kvarn i g x
   else rs_groups o = [] /\ rs_error o <> []).
Proof.
  intros Hr Hw. pose proof (bind_request_spec r groups Hr) as Hb. pose proof (bind_request_error r groups) as He.
  unfold llama_kv_tail_request_resolve, valid.
  rewrite bool_decide_eq_true_2 by apply Hr. cbn [negb]. destruct (bind_request r groups) as [e|raw]; cbv zeta; cbn [rs_valid rs_groups rs_error].
  - split; [done|]. by split.
  - destruct Hb as (Hf & Hl & Hasks). split; [done|]. split; [done|]. split; [rewrite length_zip_with; lia|].
    intros i g x Hg Hx. apply lookup_zip_with_Some in Hx as (g' & t & -> & Hg' & Ht). rewrite Hg in Hg'. injection Hg' as <-.
    apply resolve_group_ok; [done| |by apply Hasks]. rewrite Forall_lookup in Hw. by eapply Hw.
Qed.

Lemma tail_request_resolves_witness :
  let r := llama_kv_tail_request_parse (lit "swa=200,full=64") GGML_TYPE_COUNT in
  let groups := [mk_group (lit "0") (lit "full") 4096 true; mk_group (lit "1") (lit "swa") 1024 true] in
  rs_groups (llama_kv_tail_request_resolve r groups true) =
    [mk_group_resolution (lit "0") (lit "full") 64 128 128 GGML_TYPE_F16 false;
     mk_group_resolution (lit "1") (lit "swa") 200 256 256 GGML_TYPE_F16 false] /\
  fits r groups.
Proof.
  intros r groups. split; [vm_compute; reflexivity|].
  assert (request_normal r) as Hr by (apply parse_valid_ok; vm_compute; reflexivity).
  assert (Forall (fun g => (0 <= g_effective_window g <= UINT32_MAX)%Z) groups) as Hw by (repeat constructor; vm_compute; discriminate).
  destruct (tail_request_resolves r groups true Hr Hw) as [H _]. apply (proj1 H). vm_compute. reflexivity.
Defined.
