(* ===== verification/Recurrent.v ===== *)
(** * Recurrent memory (src/src/llama-memory-recurrent.{h,cpp}, [build_rs] of llama-graph.cpp)

    The memory of a recurrent model keeps one state per sequence.  A cell holds the state
    of the sequences in its set, and the field [tail] of cell [s] names the cell of
    sequence [s].  [find_slot] gives every sequence of a ubatch a cell of its own, moves
    these cells next to each other and says, with [src0] and [rs_z], from which row the
    graph has to copy the state of each of them.  The rows themselves are values of an
    arbitrary type. *)

From S2P Require KvContext.
From S2P Require Import KvCells.
From S2P Require Export Batch.
Open Scope nat_scope.

(** ** Data *)

Record mem_cell := mk_mem_cell { c_pos : Z; c_src : Z; c_src0 : Z; c_tail : Z; c_seq_id : gset Z }.

Definition new_mem_cell : mem_cell := mk_mem_cell (-1) (-1) (-1) (-1) ∅.

Definition cell_pos v c := mk_mem_cell v (c_src c) (c_src0 c) (c_tail c) (c_seq_id c).
Definition cell_src v c := mk_mem_cell (c_pos c) v (c_src0 c) (c_tail c) (c_seq_id c).
Definition cell_src0 v c := mk_mem_cell (c_pos c) (c_src c) v (c_tail c) (c_seq_id c).
Definition cell_tail v c := mk_mem_cell (c_pos c) (c_src c) (c_src0 c) v (c_seq_id c).
Definition cell_seqs v c := mk_mem_cell (c_pos c) (c_src c) (c_src0 c) (c_tail c) v.

Definition has_seq_id (id : Z) (c : mem_cell) : bool := bool_decide (id ∈ c_seq_id c).
Definition is_empty (c : mem_cell) : bool := bool_decide (c_seq_id c = ∅).
Definition is_same_seq (c d : mem_cell) : bool := bool_decide (c_seq_id c = c_seq_id d).

(** [size] is the length of [cells]: the constructor resizes the vector once. *)
Record llama_memory_recurrent := mk_recurrent {
  r_head : Z;
  r_used : Z;
  n_rs_seq : Z;
  rs_idx : list Z;
  r_n : Z;
  rs_z : Z;
  r_cells : list mem_cell
}.

Definition r_size (m : llama_memory_recurrent) : nat := length (r_cells m).
Definition sizeZ (m : llama_memory_recurrent) : Z := Z.of_nat (r_size m).

Definition set_head v m := mk_recurrent v (r_used m) (n_rs_seq m) (rs_idx m) (r_n m) (rs_z m) (r_cells m).
Definition set_used v m := mk_recurrent (r_head m) v (n_rs_seq m) (rs_idx m) (r_n m) (rs_z m) (r_cells m).
Definition set_rs v m := mk_recurrent (r_head m) (r_used m) (n_rs_seq m) v (r_n m) (rs_z m) (r_cells m).
Definition set_n v m := mk_recurrent (r_head m) (r_used m) (n_rs_seq m) (rs_idx m) v (rs_z m) (r_cells m).
Definition set_rs_z v m := mk_recurrent (r_head m) (r_used m) (n_rs_seq m) (rs_idx m) (r_n m) v (r_cells m).
Definition set_cells v m := mk_recurrent (r_head m) (r_used m) (n_rs_seq m) (rs_idx m) (r_n m) (rs_z m) v.

Definition new_recurrent (mem_size n_seq_max : nat) (n_rs : Z) : llama_memory_recurrent :=
  mk_recurrent 0 0 n_rs (replicate n_seq_max 0%Z) 0 (-1) (replicate mem_size new_mem_cell).

(** [auto & cell = cells[z]; ...] *)
Definition cell_at (m : llama_memory_recurrent) (z : Z) : outcome mem_cell := arr_get (r_cells m) z.

Definition on_cell (z : Z) (f : mem_cell -> mem_cell) (m : llama_memory_recurrent) : outcome llama_memory_recurrent :=
  c ← arr_get (r_cells m) z;
  v ← arr_set (r_cells m) z (f c);
  Ok (set_cells v m).

(** ** Sequence operations *)

Definition clear (m : llama_memory_recurrent) : llama_memory_recurrent :=
  let cells := (fun c => cell_tail (-1) (cell_src (-1) (cell_seqs ∅ (cell_pos (-1) c)))) <$> r_cells m in
  set_rs ((fun _ => 0%Z) <$> rs_idx m) (set_used 0 (set_head 0 (set_cells cells m))).

Definition range_lo (p0 : Z) : Z := if (p0 <? 0)%Z then 0%Z else p0.
Definition range_hi (p1 : Z) : Z := if (p1 <? 0)%Z then INT32_MAX else p1.

Definition set_rs_idx (seq_id idx : Z) (m : llama_memory_recurrent) : llama_memory_recurrent :=
  if (seq_id <? 0)%Z || (Z.of_nat (length (rs_idx m)) <=? seq_id)%Z then m
  else set_rs (<[Z.to_nat seq_id := if (n_rs_seq m <? idx)%Z then n_rs_seq m else idx]> (rs_idx m)) m.

Definition can_seq_rm (seq_id p0 p1 : Z) (m : llama_memory_recurrent) : outcome bool :=
  let p0 := range_lo p0 in
  let p1 := range_hi p1 in
  if (sizeZ m <=? seq_id)%Z then Ok false else
  if (seq_id <? 0)%Z then Ok ((p0 =? p1)%Z || ((p0 =? 0)%Z && (p1 =? INT32_MAX)%Z)) else
  owner ← cell_at m seq_id;
  if (c_tail owner <? 0)%Z then Ok true else
  cell ← cell_at m (c_tail owner);
  if (0 <? p0)%Z && (p0 <=? c_pos cell)%Z && (c_pos cell <? p1)%Z then
    let rollback := (c_pos cell - (p0 - 1))%Z in
    Ok ((1 <=? rollback)%Z && (rollback <=? to_i32 (n_rs_seq m))%Z)
  else Ok true.

(** The part on the sequence's own tail; [Some b] when the function returns there. *)
Definition rm_tail (seq_id p0 p1 : Z) (m : llama_memory_recurrent) : outcome (option bool * llama_memory_recurrent) :=
  owner ← cell_at m seq_id;
  let tail_id := c_tail owner in
  if (0 <=? tail_id)%Z then
    cell ← cell_at m tail_id;
    if (0 <? p0)%Z && (p0 <=? c_pos cell)%Z && (c_pos cell <? p1)%Z then
      let rollback := (c_pos cell - (p0 - 1))%Z in
      if (1 <=? rollback)%Z && (rollback <=? to_i32 (n_rs_seq m))%Z then
        m ← on_cell tail_id (cell_pos (p0 - 1)) (set_rs_idx seq_id rollback m);
        Ok (Some true, m)
      else Ok (Some false, m)
    else if (p0 <=? c_pos cell)%Z && (c_pos cell <? p1)%Z then
      m ← on_cell seq_id (cell_tail (-1)) m;
      Ok (None, m)
    else Ok (None, m)
  else Ok (None, m).

(** An emptied cell is given back. *)
Definition release_cell (i : nat) (x : llama_memory_recurrent * Z) : outcome (llama_memory_recurrent * Z) :=
  let '(m, new_head) := x in
  c ← cell_at m (Z.of_nat i);
  if is_empty c then
    let m := if (0 <=? c_pos c)%Z then set_used (u32 (r_used m - 1)) m else m in
    m ← on_cell (Z.of_nat i) (fun c => cell_src (-1) (cell_pos (-1) c)) m;
    Ok (m, if (new_head =? sizeZ m)%Z then Z.of_nat i else new_head)
  else Ok (m, new_head).

Definition rm_step (seq_id p0 p1 : Z) (x : llama_memory_recurrent * Z) (i : nat) : outcome (llama_memory_recurrent * Z) :=
  let '(m, new_head) := x in
  c ← cell_at m (Z.of_nat i);
  if (p0 <=? c_pos c)%Z && (c_pos c <? p1)%Z then
    if (seq_id <? 0)%Z then m ← on_cell (Z.of_nat i) (cell_seqs ∅) m; release_cell i (m, new_head)
    else if has_seq_id seq_id c then
      m ← on_cell (Z.of_nat i) (fun c => cell_seqs (c_seq_id c ∖ {[seq_id]}) c) m; release_cell i (m, new_head)
    else Ok (m, new_head)
  else Ok (m, new_head).

(** [if (new_head != size && new_head < head) head = new_head;] *)
Definition move_head (x : llama_memory_recurrent * Z) : llama_memory_recurrent :=
  let '(m, new_head) := x in
  if negb (new_head =? sizeZ m)%Z && (new_head <? r_head m)%Z then set_head new_head m else m.

Definition seq_rm (seq_id p0 p1 : Z) (m : llama_memory_recurrent) : outcome (bool * llama_memory_recurrent) :=
  can ← can_seq_rm seq_id p0 p1 m;
  if negb can then Ok (false, m) else
  let p0 := range_lo p0 in
  let p1 := range_hi p1 in
  let rm_all := (p0 =? 0)%Z && (p1 =? INT32_MAX)%Z in
  let m := if rm_all then if (0 <=? seq_id)%Z then set_rs_idx seq_id 0 m else set_rs ((fun _ => 0%Z) <$> rs_idx m) m else m in
  if (sizeZ m <=? seq_id)%Z then Ok (false, m) else
  r ← (if (0 <=? seq_id)%Z then rm_tail seq_id p0 p1 m
       else if negb (p0 =? p1)%Z && (negb (p0 =? 0)%Z || negb (p1 =? INT32_MAX)%Z) then Ok (Some false, m)
       else Ok (None, m));
  let '(early, m) := r in
  match early with
  | Some b => Ok (b, m)
  | None => x ← foldM (rm_step seq_id p0 p1) (seq 0 (r_size m)) (m, sizeZ m); Ok (true, move_head x)
  end.

Definition seq_rm_cell (seq_id : Z) (cell_idx : nat) (m : llama_memory_recurrent) : outcome (bool * llama_memory_recurrent) :=
  if (seq_id <? 0)%Z || (r_size m <=? cell_idx) then Ok (false, m) else
  let z := Z.of_nat cell_idx in
  cell ← cell_at m z;
  if negb (has_seq_id seq_id cell) then Ok (false, m) else
  m ← on_cell z (fun c => cell_seqs (c_seq_id c ∖ {[seq_id]}) c) m;
  cell ← cell_at m z;
  m ← (if is_empty cell then
         let m := if (0 <=? c_pos cell)%Z then set_used (u32 (r_used m - 1)) m else m in
         m ← on_cell z (fun c => cell_src (-1) (cell_pos (-1) c)) m;
         Ok (if (z <? r_head m)%Z then set_head z m else m)
       else Ok m);
  if (seq_id <? sizeZ m)%Z then
    owner ← cell_at m seq_id;
    m ← (if (c_tail owner =? z)%Z then on_cell seq_id (cell_tail (-1)) m else Ok m);
    Ok (true, m)
  else Ok (true, m).

(** The indices written and the number of cells found. *)
Definition cells_at_pos (seq_id p : Z) (room : option nat) (m : llama_memory_recurrent) : list nat * nat :=
  let found := List.filter (fun i => match r_cells m !! i with
                                     | Some c => (c_pos c =? p)%Z && has_seq_id seq_id c
                                     | None => false end) (seq 0 (r_size m)) in
  (match room with Some n_max => take n_max found | None => [] end, length found).

(** A sequence gives up the cell it had: the destination of a copy, and in [find_slot] a
    sequence that becomes shared. *)
Definition drop_shared (seq_id : Z) (m : llama_memory_recurrent) : outcome llama_memory_recurrent :=
  seq ← cell_at m seq_id;
  if (0 <=? c_tail seq)%Z then
    let t := c_tail seq in
    m ← on_cell t (fun c => cell_seqs (c_seq_id c ∖ {[seq_id]}) c) m;
    m ← on_cell seq_id (cell_tail (-1)) m;
    cell ← cell_at m t;
    if is_empty cell then
      m ← on_cell t (fun c => cell_src (-1) (cell_pos (-1) c)) m;
      Ok (set_used (u32 (r_used m - 1)) m)
    else Ok m
  else Ok m.

Definition seq_cp (seq_id_src seq_id_dst p0 p1 : Z) (m : llama_memory_recurrent) : outcome llama_memory_recurrent :=
  if (seq_id_src =? seq_id_dst)%Z then Ok m else
  if (u32 seq_id_dst <? sizeZ m)%Z && (u32 seq_id_src <? sizeZ m)%Z then
    m ← drop_shared seq_id_dst m;
    src ← cell_at m seq_id_src;
    if (0 <=? c_tail src)%Z then
      m ← on_cell (c_tail src) (fun c => cell_seqs ({[seq_id_dst]} ∪ c_seq_id c) c) m;
      on_cell seq_id_dst (cell_tail (c_tail src)) m
    else Ok m
  else Ok m.

Definition keep_step (seq_id : Z) (x : llama_memory_recurrent * Z) (i : nat) : outcome (llama_memory_recurrent * Z) :=
  let '(m, new_head) := x in
  let z := Z.of_nat i in
  m ← (if negb (z =? seq_id)%Z then on_cell z (cell_tail (-1)) m else Ok m);
  c ← cell_at m z;
  if negb (has_seq_id seq_id c) then
    let m := if (0 <=? c_pos c)%Z then set_used (u32 (r_used m - 1)) m else m in
    m ← on_cell z (fun c => cell_seqs ∅ (cell_src (-1) (cell_pos (-1) c))) m;
    Ok (m, if (new_head =? sizeZ m)%Z then z else new_head)
  else m ← on_cell z (cell_seqs {[seq_id]}) m; Ok (m, new_head).

Definition seq_keep (seq_id : Z) (m : llama_memory_recurrent) : outcome llama_memory_recurrent :=
  x ← foldM (keep_step seq_id) (seq 0 (r_size m)) (m, sizeZ m);
  Ok (move_head x).

(** Change the position of the cell of a sequence when it lies in the range. *)
Definition on_tail_pos (seq_id p0 p1 : Z) (f : Z -> outcome Z) (m : llama_memory_recurrent) : outcome llama_memory_recurrent :=
  let p0 := range_lo p0 in
  let p1 := range_hi p1 in
  if (p0 =? p1)%Z then Ok m else
  if (0 <=? seq_id)%Z && (seq_id <? sizeZ m)%Z then
    owner ← cell_at m seq_id;
    if (0 <=? c_tail owner)%Z then
      cell ← cell_at m (c_tail owner);
      if has_seq_id seq_id cell && (p0 <=? c_pos cell)%Z && (c_pos cell <? p1)%Z then
        p ← f (c_pos cell);
        on_cell (c_tail owner) (cell_pos p) m
      else Ok m
    else Ok m
  else Ok m.

Definition seq_add (seq_id p0 p1 shift : Z) (m : llama_memory_recurrent) : outcome llama_memory_recurrent :=
  if (shift =? 0)%Z then Ok m else on_tail_pos seq_id p0 p1 (fun p => i32 (p + shift)) m.

Definition seq_div (seq_id p0 p1 d : Z) (m : llama_memory_recurrent) : outcome llama_memory_recurrent :=
  if (d =? 1)%Z then Ok m else on_tail_pos seq_id p0 p1 (fun p => i32_div p d) m.

Definition seq_pos_min (seq_id : Z) (m : llama_memory_recurrent) : Z :=
  let result := foldl (fun r c => if has_seq_id seq_id c then Z.min r (c_pos c) else r) INT32_MAX (r_cells m) in
  if (result =? INT32_MAX)%Z then (-1)%Z else result.

Definition seq_pos_max (seq_id : Z) (m : llama_memory_recurrent) : Z :=
  foldl (fun r c => if has_seq_id seq_id c then Z.max r (c_pos c) else r) (-1)%Z (r_cells m).

(** ** Finding a slot *)

(** [ubatch.seq_id[i][j]] *)
Definition u_seq (u : llama_ubatch) (i j : nat) : outcome Z := row ← vec_get (u_seq_id u) i; vec_get row j.

(** The flag is [false] once the function has returned [false]. *)
Definition check_id (u : llama_ubatch) (i : nat) (x : bool * llama_memory_recurrent) (j : nat) : outcome (bool * llama_memory_recurrent) :=
  let '(go, m) := x in
  if negb go then Ok x else
  seq_id ← u_seq u i j;
  if (seq_id <? 0)%Z || (sizeZ m <=? seq_id)%Z then Ok (false, m) else
  if 0 <? j then m ← drop_shared seq_id m; Ok (true, m) else Ok (true, m).

Definition check_set (u : llama_ubatch) (x : bool * llama_memory_recurrent) (s : nat) : outcome (bool * llama_memory_recurrent) :=
  if negb x.1 then Ok x else
  let i := s * u_n_seq_tokens u in
  n_seq_id ← vec_get (u_n_seq_id u) i;
  foldM (check_id u i) (seq 0 (Z.to_nat n_seq_id)) x.

Definition check_sets (u : llama_ubatch) (m : llama_memory_recurrent) : outcome (bool * llama_memory_recurrent) :=
  foldM (check_set u) (seq 0 (u_n_seqs u)) (true, m).

(** The first empty cell from [next_empty_cell] on, round the end. *)
Fixpoint first_empty (steps : nat) (cells : list mem_cell) (next_empty_cell : Z) : outcome Z :=
  match steps with
  | 0 => Ok next_empty_cell
  | S steps =>
      let e := if (Z.of_nat (length cells) <=? next_empty_cell)%Z then u32 (next_empty_cell - Z.of_nat (length cells)) else next_empty_cell in
      c ← arr_get cells e;
      if is_empty c then Ok e else first_empty steps cells (u32 (e + 1))
  end.

(** The same starting after [next_empty_cell]. *)
Fixpoint next_empty (steps : nat) (cells : list mem_cell) (next_empty_cell : Z) : outcome Z :=
  match steps with
  | 0 => Ok next_empty_cell
  | S steps =>
      let e := u32 (next_empty_cell + 1) in
      let e := if (Z.of_nat (length cells) <=? e)%Z then u32 (e - Z.of_nat (length cells)) else e in
      c ← arr_get cells e;
      if is_empty c then Ok e else next_empty steps cells e
  end.

Record cell_search := mk_search { f_next : Z; f_min : Z; f_max : Z; f_mem : llama_memory_recurrent }.

(** [seq_meta] takes the empty cell; [more]: another sequence follows. *)
Definition take_empty (seq_id e : Z) (m : llama_memory_recurrent) : outcome llama_memory_recurrent :=
  empty_cell ← cell_at m e;
  _ ← assert_ (is_empty empty_cell);
  seq_meta ← cell_at m seq_id;
  m ← (if (0 <=? c_tail seq_meta)%Z then
         orig_cell ← cell_at m (c_tail seq_meta);
         m ← on_cell e (fun c => cell_src (c_src orig_cell) (cell_pos (c_pos orig_cell) c)) m;
         m ← on_cell (c_tail seq_meta) (fun c => cell_seqs (c_seq_id c ∖ {[seq_id]}) c) m;
         m ← on_cell e (fun c => cell_seqs ({[seq_id]} ∪ c_seq_id c) c) m;
         orig_cell ← cell_at m (c_tail seq_meta);
         _ ← assert_ (negb (is_empty orig_cell));
         Ok m
       else Ok m);
  on_cell seq_id (cell_tail e) m.

(** Does the sequence own its cell? *)
Definition has_own_cell (seq_id : Z) (m : llama_memory_recurrent) : outcome bool :=
  seq_meta ← cell_at m seq_id;
  if (0 <=? c_tail seq_meta)%Z then
    cell ← cell_at m (c_tail seq_meta);
    _ ← assert_ (has_seq_id seq_id cell);
    Ok (size (c_seq_id cell) =? 1)
  else Ok false.

Definition find_cell (u : llama_ubatch) (x : cell_search) (s : nat) : outcome cell_search :=
  seq_id ← u_seq u (s * u_n_seq_tokens u) 0;
  has_cell ← has_own_cell seq_id (f_mem x);
  r ← (if negb has_cell then
         m ← take_empty seq_id (f_next x) (f_mem x);
         e ← (if s + 1 <? u_n_seqs u then next_empty (r_size m) (r_cells m) (f_next x) else Ok (f_next x));
         Ok (m, e)
       else Ok (f_mem x, f_next x));
  let '(m, e) := r in
  seq_meta ← cell_at m seq_id;
  let t := c_tail seq_meta in
  Ok (mk_search e (if (t <? f_min x)%Z then t else f_min x) (if (f_max x <? t)%Z then t else f_max x) m).

Definition find_cells (u : llama_ubatch) (m : llama_memory_recurrent) : outcome cell_search :=
  e ← first_empty (r_size m) (r_cells m) (r_head m);
  foldM (find_cell u) (seq 0 (u_n_seqs u)) (mk_search e (sizeZ m - 1) 0 m).

(** [std::swap] of position, source and sequences, then of the tails that name the cells. *)
Definition swap_cells (dst_id src_id : Z) (m : llama_memory_recurrent) : outcome llama_memory_recurrent :=
  d ← cell_at m dst_id;
  s ← cell_at m src_id;
  m ← on_cell dst_id (fun c => cell_seqs (c_seq_id s) (cell_src (c_src s) (cell_pos (c_pos s) c))) m;
  m ← on_cell src_id (fun c => cell_seqs (c_seq_id d) (cell_src (c_src d) (cell_pos (c_pos d) c))) m;
  Ok (set_cells ((fun c => if (c_tail c =? src_id)%Z then cell_tail dst_id c
                           else if (c_tail c =? dst_id)%Z then cell_tail src_id c else c) <$> r_cells m) m).

Definition gather_step (u : llama_ubatch) (min : Z) (m : llama_memory_recurrent) (s : nat) : outcome llama_memory_recurrent :=
  let dst_id := (Z.of_nat s + min)%Z in
  seq_id ← u_seq u (s * u_n_seq_tokens u) 0;
  seq_meta ← cell_at m seq_id;
  let src_id := c_tail seq_meta in
  if negb (dst_id =? src_id)%Z then swap_cells dst_id src_id m else Ok m.

Definition gather (u : llama_ubatch) (min : Z) (m : llama_memory_recurrent) : outcome llama_memory_recurrent :=
  foldM (gather_step u min) (seq 0 (u_n_seqs u)) m.

Definition write_id (u : llama_ubatch) (i : nat) (cell_id : Z) (m : llama_memory_recurrent) (j : nat) : outcome llama_memory_recurrent :=
  seq_id ← u_seq u i j;
  m ← on_cell cell_id (fun c => cell_seqs ({[seq_id]} ∪ c_seq_id c) c) m;
  on_cell seq_id (cell_tail cell_id) m.

(** A position that does not continue the sequence is only reported. *)
Definition write_set (u : llama_ubatch) (min : Z) (m : llama_memory_recurrent) (s : nat) : outcome llama_memory_recurrent :=
  let i := s * u_n_seq_tokens u in
  last_pos ← arr_get (u_pos u) (Z.of_nat (i + u_n_seq_tokens u) - 1);
  let cell_id := (Z.of_nat s + min)%Z in
  cell ← cell_at m cell_id;
  _ ← (if (0 <=? c_pos cell)%Z then i32 (c_pos cell + Z.of_nat (u_n_seq_tokens u)) else Ok 0%Z);
  m ← on_cell cell_id (fun c => cell_seqs ∅ (cell_pos last_pos c)) m;
  n_seq_id ← vec_get (u_n_seq_id u) i;
  foldM (write_id u i cell_id) (seq 0 (Z.to_nat n_seq_id)) m.

Definition write_sets (u : llama_ubatch) (min : Z) (m : llama_memory_recurrent) : outcome llama_memory_recurrent :=
  foldM (write_set u min) (seq 0 (u_n_seqs u)) m.

(** [for (int i = min; i <= max; ++i)] *)
Definition int_range (min max : Z) : list Z := (fun j => (min + Z.of_nat j)%Z) <$> seq 0 (Z.to_nat (max - min + 1)).

Definition refcounts (cells : list mem_cell) : outcome (list nat) :=
  foldM (fun r c => if (0 <=? c_src c)%Z then n ← arr_get r (c_src c); arr_set r (c_src c) (n + 1) else Ok r)
        cells (replicate (length cells) 0).

(** The first cell of the range that no cell copies from; -1 when there is none. *)
Fixpoint first_free (refs : list nat) (l : list Z) : outcome Z :=
  match l with
  | [] => Ok (-1)%Z
  | i :: l => n ← arr_get refs i; if n =? 0 then Ok i else first_free refs l
  end.

Definition stage_source (m : llama_memory_recurrent) (i : Z) : outcome llama_memory_recurrent :=
  c ← cell_at m i;
  m ← (if (c_src c <? 0)%Z then
         _ ← assert_ (0 <=? rs_z m)%Z;
         on_cell i (cell_src0 (rs_z m)) m
       else on_cell i (fun c => cell_src0 (c_src c) c) m);
  on_cell i (cell_src i) m.

Definition stage_sources (min max : Z) (m : llama_memory_recurrent) : outcome llama_memory_recurrent :=
  refs ← refcounts (r_cells m);
  z ← first_free refs (int_range min max);
  foldM stage_source (int_range min max) (set_rs_z z m).

Definition find_slot (u : llama_ubatch) (m : llama_memory_recurrent) : outcome (bool * llama_memory_recurrent) :=
  let m := if (u32 (r_used m + u32 (2 * Z.of_nat (u_n_seqs u))) <? r_head m)%Z then set_head 0 m else m in
  _ ← assert_ (u_equal_seqs u);
  r ← check_sets u m;
  let '(go, m) := r in
  if negb go then Ok (false, m) else
  x ← find_cells u m;
  m ← gather u (f_min x) (f_mem x);
  m ← write_sets u (f_min x) m;
  m ← stage_sources (f_min x) (f_max x) m;
  let m := set_used (Z.of_nat (cnt (fun c => negb (is_empty c)) (r_cells m)))
             (set_n (u32 (f_max x - f_min x + 1)) (set_head (u32 (f_min x)) m)) in
  Ok ((Z.of_nat (u_n_seqs u) <=? r_n m)%Z, m).

(** The cells, [used] and [head] are restored; [n] and [rs_z] keep the last values. *)
Definition prepare (ubatches : list llama_ubatch) (m : llama_memory_recurrent) : outcome (bool * llama_memory_recurrent) :=
  r ← foldM (fun x u => if negb x.1 then Ok x else find_slot u x.2) ubatches (true, m);
  let '(success, m') := r in
  Ok (success, set_head (r_head m) (set_used (r_used m) (set_cells (r_cells m) m'))).

(** ** Batches and contexts *)

Record recurrent_context := mk_recurrent_context {
  rx_status : KvContext.llama_memory_status;
  rx_i_next : nat;
  rx_ubatches : list llama_ubatch;
  rx_full : bool
}.

Definition context_failed (status : KvContext.llama_memory_status) : recurrent_context := mk_recurrent_context status 0 [] false.
Definition context_full : recurrent_context := mk_recurrent_context KvContext.STATUS_SUCCESS 0 [] true.
Definition context_batch (ubatches : list llama_ubatch) : recurrent_context :=
  mk_recurrent_context KvContext.STATUS_SUCCESS 0 ubatches false.

(** The trailing tokens of a sequence stay in one ubatch so that its snapshots remain valid. *)
Definition split_recurrent (n_ubatch : nat) (embd_all : bool) (m : llama_memory_recurrent)
    : llama_batch_allocr -> outcome (llama_ubatch * llama_batch_allocr) :=
  if embd_all then split_seq n_ubatch
  else split_equal n_ubatch true (if (0 <? n_rs_seq m)%Z then Z.to_nat (u32 (n_rs_seq m + 1)) else 0).

Definition init_batch (balloc : llama_batch_allocr) (n_ubatch : nat) (embd_all : bool) (m : llama_memory_recurrent)
    : outcome (recurrent_context * llama_batch_allocr * llama_memory_recurrent) :=
  let balloc := split_reset balloc in
  r ← split_loop (S (get_n_tokens balloc)) (split_recurrent n_ubatch embd_all m) [] balloc;
  let '(ubatches, balloc) := r in
  if a_n_used balloc <? get_n_tokens balloc then Ok (context_failed KvContext.STATUS_FAILED_PREPARE, balloc, m) else
  p ← prepare ubatches m;
  let '(prepared, m) := p in
  if negb prepared then Ok (context_failed KvContext.STATUS_FAILED_PREPARE, balloc, m)
  else Ok (context_batch ubatches, balloc, m).

Definition next (x : recurrent_context) : outcome (bool * recurrent_context) :=
  _ ← assert_ (bool_decide (rx_status x = KvContext.STATUS_SUCCESS));
  let i := rx_i_next x + 1 in
  Ok (negb (length (rx_ubatches x) <=? i), mk_recurrent_context (rx_status x) i (rx_ubatches x) (rx_full x)).

(** What [find_slot] returns is not looked at. *)
Definition apply (x : recurrent_context) (m : llama_memory_recurrent) : outcome (bool * llama_memory_recurrent) :=
  _ ← assert_ (negb (KvContext.llama_memory_status_is_fail (rx_status x)));
  if length (rx_ubatches x) =? 0 then
    _ ← assert_ (bool_decide (rx_status x = KvContext.STATUS_NO_UPDATE));
    Ok (true, m)
  else
    u ← vec_get (rx_ubatches x) (rx_i_next x);
    r ← find_slot u m;
    Ok (true, r.2).

Definition get_n_rs (x : recurrent_context) (m : llama_memory_recurrent) : Z := if rx_full x then sizeZ m else r_n m.
Definition get_head (x : recurrent_context) (m : llama_memory_recurrent) : Z := if rx_full x then 0%Z else r_head m.
Definition get_rs_z (x : recurrent_context) (m : llama_memory_recurrent) : Z := if rx_full x then 0%Z else rs_z m.

(** [llama_memory_recurrent_context::s_copy]; a cell not in the range is out of bounds. *)
Definition s_copy (i : nat) (m : llama_memory_recurrent) : outcome (Z * llama_memory_recurrent) :=
  let cell_idx := u32 (Z.of_nat i + r_head m) in
  c ← cell_at m cell_idx;
  let src0 := c_src0 c in
  if (n_rs_seq m =? 0)%Z then Ok (src0, m) else
  match setZ_list (c_seq_id c) with
  | [] => Ok (src0, m)
  | seq :: _ =>
      if (0 <=? seq)%Z && (seq <? Z.of_nat (length (rs_idx m)))%Z then
        idx ← arr_get (rs_idx m) seq;
        row ← i32 (to_i32 (u32 (idx * sizeZ m)) + src0);
        Ok (row, set_rs (<[Z.to_nat seq := 0%Z]> (rs_idx m)) m)
      else Ok (src0, m)
  end.

(** [llm_graph_input_rs::set_input] *)
Definition set_input_rs (x : recurrent_context) (m : llama_memory_recurrent) : outcome (list Z * llama_memory_recurrent) :=
  foldM (fun y i => r ← s_copy i y.2; Ok (y.1 ++ [r.1], r.2)) (seq 0 (Z.to_nat (get_n_rs x m))) ([], m).

(** [build_rs]: the row [rs_zero] is cleared, the rows of the ubatch are read into the graph
    and the others of the range are put in their place.  What the graph computes from the
    rows it read is written to the first [n_seqs] rows of the range afterwards. *)
Section build_rs.
Context {state : Type} (zero : state).

Definition build_rs (rows : list state) (copy : list Z) (n_seqs : nat) (rs_head rs_zero : Z) : outcome (list state * list state) :=
  rows ← (if (0 <=? rs_zero)%Z then arr_set rows rs_zero zero else Ok rows);
  output_states ← mapM (fun z => arr_get rows z) (take n_seqs copy);
  states_extra ← mapM (fun z => arr_get rows z) (drop n_seqs copy);
  rows ← foldM (fun rows x => arr_set rows (rs_head + Z.of_nat (n_seqs + x.1)) x.2) (imap pair states_extra) rows;
  Ok (output_states, rows).
End build_rs.
