(* ===== verification/RecurrentWf.v ===== *)
(** * Well-formed recurrent memories

    The fields of a memory as functions of the index, the invariant that ties the tails to
    the sets of the cells, what a sequence holds ([view]), and the lemmas on the steps the
    operations share: taking a sequence out of its cell, changing a position, marking a
    cell empty. *)

From S2P Require Import KvCells BatchInit.
From S2P Require Export Recurrent.
Open Scope nat_scope.

(** ** Fields of the cells *)

Definition fld {A} (p : mem_cell -> A) (d : A) (l : list mem_cell) (j : nat) : A :=
  match l !! j with Some c => p c | None => d end.

Notation tl := (fld c_tail (-1)%Z).
Notation ids := (fld c_seq_id ∅).
Notation ps := (fld c_pos (-1)%Z).
Notation sr := (fld c_src (-1)%Z).

Lemma fld_Some {A} (p : mem_cell -> A) d l j c : l !! j = Some c -> fld p d l j = p c.
Proof. unfold fld. by intros ->. Qed.

Lemma fld_ge {A} (p : mem_cell -> A) d l j : length l <= j -> fld p d l j = d.
Proof. unfold fld. intros H. by rewrite lookup_ge_None_2. Qed.

Lemma fld_alter {A} (p : mem_cell -> A) d f g i l j : (forall c, p (f c) = g (p c)) -> i < length l ->
  fld p d (alter f i l) j = if decide (j = i) then g (fld p d l j) else fld p d l j.
Proof.
  intros Hg Hi. unfold fld. destruct (decide (j = i)) as [->|Hn].
  - apply lookup_lt_is_Some in Hi as [c Hc]. rewrite list_lookup_alter_eq, Hc. apply Hg.
  - by rewrite list_lookup_alter_ne.
Qed.

Lemma fld_same {A} (p : mem_cell -> A) d f i l j : (forall c, p (f c) = p c) -> fld p d (alter f i l) j = fld p d l j.
Proof.
  intros Hg. unfold fld. destruct (decide (j = i)) as [->|Hn].
  - rewrite list_lookup_alter_eq. destruct (l !! i); cbn; [apply Hg|done].
  - by rewrite list_lookup_alter_ne.
Qed.

Lemma fld_const {A} (p : mem_cell -> A) d f i l j v : (forall c, p (f c) = v) -> i < length l ->
  fld p d (alter f i l) j = if decide (j = i) then v else fld p d l j.
Proof. intros Hg. by apply (fld_alter p d f (fun _ => v)). Qed.

Lemma fld_minus x i l j : i < length l ->
  ids (alter (fun c => cell_seqs (c_seq_id c ∖ {[x]}) c) i l) j = if decide (j = i) then ids l j ∖ {[x]} else ids l j.
Proof. by apply (fld_alter c_seq_id ∅ _ (fun X => X ∖ {[x]})). Qed.

Lemma fld_plus x i l j : i < length l ->
  ids (alter (fun c => cell_seqs ({[x]} ∪ c_seq_id c) c) i l) j = if decide (j = i) then {[x]} ∪ ids l j else ids l j.
Proof. by apply (fld_alter c_seq_id ∅ _ (fun X => {[x]} ∪ X)). Qed.

Ltac len := rewrite ?length_alter; unfold r_size in *; try done; try lia.

(** Read the fields of altered lists. *)
Ltac fields :=
  repeat first
    [ rewrite fld_minus by len
    | rewrite fld_plus by len
    | rewrite fld_same by (intros []; reflexivity)
    | erewrite fld_const; [|intros ?; cbn; reflexivity|len] ].

Lemma is_empty_fld l j c : l !! j = Some c -> is_empty c = bool_decide (ids l j = ∅).
Proof. intros H. by rewrite (fld_Some _ _ _ _ _ H). Qed.

(** ** Access *)

Lemma cell_at_ok m i c : r_cells m !! i = Some c -> cell_at m (Z.of_nat i) = Ok c.
Proof. intros H. by apply arr_get_Z. Qed.

Lemma cell_at_lt m i : i < r_size m -> exists c, r_cells m !! i = Some c /\ cell_at m (Z.of_nat i) = Ok c.
Proof. intros H. apply lookup_lt_is_Some in H as [c H]. exists c. split; [done|]. by apply cell_at_ok. Qed.

Lemma on_cell_ok m i f : i < r_size m -> on_cell (Z.of_nat i) f m = Ok (set_cells (alter f i (r_cells m)) m).
Proof.
  intros H. pose proof H as [c Hc]%lookup_lt_is_Some_2. unfold on_cell. rewrite (arr_get_Z _ _ _ Hc). cbn [mbind outcome_bind].
  rewrite arr_set_Z by done. cbn [mbind outcome_bind].
  do 2 f_equal. apply list_eq. intros j. destruct (decide (j = i)) as [->|Hn].
  - by rewrite list_lookup_alter_eq, Hc, list_lookup_insert_eq.
  - by rewrite list_lookup_alter_ne, list_lookup_insert_ne.
Qed.

Lemma r_size_set v m : r_size (set_cells v m) = length v.
Proof. done. Qed.

(** ** The invariant *)

(** The tail of a sequence is the cell whose set has it. *)
Record linked (l : list mem_cell) : Prop := {
  lk_iff : forall s j : nat, tl l s = Z.of_nat j <-> Z.of_nat s ∈ ids l j;
  lk_tl : forall s, (-1 <= tl l s)%Z;
  lk_id : forall j x, x ∈ ids l j -> (0 <= x)%Z
}.

(** An empty cell has no position; a source is the cell itself or nothing. *)
Definition cell_ok (l : list mem_cell) (j : nat) : Prop :=
  (ids l j = ∅ -> ps l j = (-1)%Z) /\ (ids l j <> ∅ -> (0 <= ps l j <= INT32_MAX)%Z) /\
  (sr l j = (-1)%Z \/ sr l j = Z.of_nat j).

Definition used_cells (l : list mem_cell) : nat := cnt (fun c => negb (is_empty c)) l.

Record rec_wf (m : llama_memory_recurrent) : Prop := {
  rw_links : linked (r_cells m);
  rw_cells : forall j, cell_ok (r_cells m) j;
  rw_used : r_used m = Z.of_nat (used_cells (r_cells m));
  rw_head : (0 <= r_head m < sizeZ m)%Z;
  rw_size : (sizeZ m <= INT32_MAX)%Z;
  rw_rs : (0 <= n_rs_seq m <= INT32_MAX)%Z /\ Forall (fun r => (0 <= r <= n_rs_seq m)%Z) (rs_idx m)
}.

(** What a sequence holds: its cell, its last position, the row its state is copied from. *)
Definition view (m : llama_memory_recurrent) (x : nat) : option (nat * Z * Z) :=
  let t := tl (r_cells m) x in
  if (t <? 0)%Z then None else Some (Z.to_nat t, ps (r_cells m) (Z.to_nat t), sr (r_cells m) (Z.to_nat t)).

Lemma ids_lt l j x : x ∈ ids l j -> j < length l.
Proof. intros H. destruct (decide (j < length l)); [done|]. rewrite fld_ge in H by lia. set_solver. Qed.

Lemma tl_lt l s j : tl l s = Z.of_nat j -> s < length l.
Proof. intros H. destruct (decide (s < length l)); [done|]. rewrite fld_ge in H by lia. lia. Qed.

Lemma linked_cases l s : linked l -> tl l s = (-1)%Z \/ exists j, tl l s = Z.of_nat j /\ Z.of_nat s ∈ ids l j /\ j < length l /\ s < length l.
Proof.
  intros H. pose proof (lk_tl l H s). destruct (decide (tl l s = (-1)%Z)) as [|Hn]; [by left|]. right. exists (Z.to_nat (tl l s)).
  assert (tl l s = Z.of_nat (Z.to_nat (tl l s))) as E by lia. split; [done|]. apply (lk_iff l H) in E as E'. split; [done|]. split; [by eapply ids_lt|by eapply tl_lt].
Qed.

Lemma linked_id l j x : linked l -> x ∈ ids l j -> exists s, x = Z.of_nat s /\ tl l s = Z.of_nat j /\ s < length l /\ j < length l.
Proof.
  intros H Hx. pose proof (lk_id l H j x Hx). exists (Z.to_nat x). assert (x = Z.of_nat (Z.to_nat x)) as E by lia. split; [done|].
  rewrite E in Hx. apply (lk_iff l H) in Hx as Ht. split; [done|]. split; [by eapply tl_lt|by eapply ids_lt].
Qed.

Lemma cells_lt m s : tl (r_cells m) s <> (-1)%Z -> s < r_size m.
Proof. intros H. destruct (decide (s < r_size m)); [done|]. exfalso. apply H, fld_ge. unfold r_size in *. lia. Qed.

(** ** Counting the cells in use *)

Definition in_use (l : list mem_cell) (j : nat) : bool := negb (bool_decide (ids l j = ∅)).

Lemma used_cells_fld l : used_cells l = cnt (in_use l) (seq 0 (length l)).
Proof.
  unfold used_cells. rewrite <- cnt_indices. unfold cnt. f_equal. apply List.filter_ext_in. intros j Hj.
  apply list_elem_of_In, elem_of_seq in Hj. destruct (lookup_lt_is_Some_2 l j ltac:(lia)) as [c Hc]. rewrite Hc. unfold in_use. by rewrite (is_empty_fld _ _ _ Hc).
Qed.

Lemma cnt_change P Q n j : j < n -> (forall i, i <> j -> P i = Q i) ->
  cnt P (seq 0 n) + Nat.b2n (Q j) = cnt Q (seq 0 n) + Nat.b2n (P j).
Proof.
  intros Hj H. replace n with (j + S (n - j - 1)) by lia. rewrite seq_app, !cnt_app. simpl. rewrite !cnt_cons.
  assert (forall l, j ∉ l -> cnt P l = cnt Q l) as Hc.
  { intros l Hl. unfold cnt. f_equal. apply List.filter_ext_in. intros i Hi. apply H. intros ->. by apply Hl, list_elem_of_In. }
  rewrite (Hc (seq 0 j)), (Hc (seq (S j) _)); [lia|rewrite elem_of_seq; lia|rewrite elem_of_seq; lia].
Qed.

Lemma used_change l l' j : length l' = length l -> (forall i, i <> j -> ids l' i = ids l i) ->
  used_cells l' + Nat.b2n (in_use l j) = used_cells l + Nat.b2n (in_use l' j).
Proof.
  intros Hl Hi. rewrite !used_cells_fld, Hl. destruct (decide (j < length l)).
  - apply cnt_change; [done|]. intros i Hn. unfold in_use. by rewrite Hi.
  - unfold cnt. rewrite (List.filter_ext_in (in_use l') (in_use l)).
    + unfold in_use. by rewrite !fld_ge by lia.
    + intros i Hin%list_elem_of_In%elem_of_seq. unfold in_use. rewrite Hi; [done|lia].
Qed.

(** ** Taking a sequence out of its cell *)

Record detached (x j : nat) (l l' : list mem_cell) : Prop := {
  dt_len : length l' = length l;
  dt_tl : forall s, tl l' s = if decide (s = x) then (-1)%Z else tl l s;
  dt_ids : forall i, ids l' i = if decide (i = j) then ids l i ∖ {[Z.of_nat x]} else ids l i;
  dt_ps : forall i, ps l' i = if decide (i = j /\ ids l j ∖ {[Z.of_nat x]} = ∅) then (-1)%Z else ps l i;
  dt_sr : forall i, sr l' i = if decide (i = j /\ ids l j ∖ {[Z.of_nat x]} = ∅) then (-1)%Z else sr l i
}.

Section detached.
Context (x j : nat) (l l' : list mem_cell) (Hd : detached x j l l') (Hl : linked l) (Hx : tl l x = Z.of_nat j).

Lemma detached_linked : linked l'.
Proof.
  split.
  - intros s i. rewrite (dt_tl _ _ _ _ Hd), (dt_ids _ _ _ _ Hd).
    destruct (decide (s = x)) as [->|Hs]; destruct (decide (i = j)) as [->|Hi].
    + split; [lia|set_solver].
    + split; [lia|]. intros H. apply (lk_iff l Hl) in H. lia.
    + rewrite (lk_iff l Hl). rewrite elem_of_difference, elem_of_singleton. split; [intros H; split; [done|lia]|tauto].
    + apply (lk_iff l Hl).
  - intros s. rewrite (dt_tl _ _ _ _ Hd). destruct (decide _); [lia|apply (lk_tl l Hl)].
  - intros i y. rewrite (dt_ids _ _ _ _ Hd). destruct (decide _); [|apply (lk_id l Hl)]. intros [H _]%elem_of_difference. by apply (lk_id l Hl i).
Qed.

Lemma detached_cell i : cell_ok l i -> cell_ok l' i.
Proof.
  intros (H1 & H2 & H3). unfold cell_ok. rewrite (dt_ids _ _ _ _ Hd), (dt_ps _ _ _ _ Hd), (dt_sr _ _ _ _ Hd).
  destruct (decide (i = j)) as [->|Hi].
  - destruct (decide (j = j /\ ids l j ∖ {[Z.of_nat x]} = ∅)) as [[_ E]|E].
    + split; [done|]. split; [done|]. by left.
    + split; [tauto|]. split; [|done]. intros _. apply H2. intros E2. apply E. split; [done|]. rewrite E2. set_solver.
  - destruct (decide (i = j /\ _)) as [[E _]|E]; [done|]. done.
Qed.

Lemma detached_used : used_cells l = used_cells l' + Nat.b2n (bool_decide (ids l j ∖ {[Z.of_nat x]} = ∅)).
Proof.
  assert (used_cells l' + Nat.b2n (in_use l j) = used_cells l + Nat.b2n (in_use l' j)) as H.
  { apply used_change; [apply (dt_len _ _ _ _ Hd)|]. intros i Hi. by rewrite (dt_ids _ _ _ _ Hd), decide_False. }
  apply (lk_iff l Hl) in Hx. assert (in_use l j = true) as E1.
  { apply negb_true_iff, bool_decide_eq_false_2. intros E. rewrite E in Hx. set_solver. }
  unfold in_use at 2 in H. rewrite (dt_ids _ _ _ _ Hd), decide_True, E1 in H by done. destruct (bool_decide _); simpl in *; lia.
Qed.
End detached.

(** The fields an operation on the cells leaves alone. *)
Record same_meta (m m' : llama_memory_recurrent) : Prop := {
  sm_head : r_head m' = r_head m;
  sm_n_rs : n_rs_seq m' = n_rs_seq m;
  sm_rs : rs_idx m' = rs_idx m;
  sm_size : r_size m' = r_size m
}.

#[export] Instance same_meta_trans : Transitive same_meta.
Proof. intros a b c [] []. split; congruence. Qed.

#[export] Instance same_meta_refl : Reflexive same_meta.
Proof. done. Qed.

Lemma rec_wf_meta m m' : rec_wf m -> same_meta m m' -> linked (r_cells m') -> (forall j, cell_ok (r_cells m') j) ->
  r_used m' = Z.of_nat (used_cells (r_cells m')) -> rec_wf m'.
Proof.
  intros [] [E1 E2 E3 E4] ? ? ?. split; unfold sizeZ in *; rewrite ?E1, ?E2, ?E3, ?E4; done.
Qed.

Lemma used_le l : used_cells l <= length l.
Proof. apply cnt_le_length. Qed.

Lemma u32_pred a : (0 < a)%Z -> (a <= INT32_MAX)%Z -> u32 (a - 1) = (a - 1)%Z.
Proof. intros. apply u32_id. unfold UINT32_MAX, INT32_MAX in *. lia. Qed.

Lemma used_pos l j : ids l j <> ∅ -> 0 < used_cells l.
Proof.
  intros H. rewrite used_cells_fld. apply cnt_pos. exists j, j. split.
  - apply lookup_seq. split; [|]; [done|]. destruct (decide (j < length l)); [done|]. by rewrite fld_ge in H by lia.
  - apply negb_true_iff. by apply bool_decide_eq_false_2.
Qed.

Record dropped (x : nat) (l l' : list mem_cell) : Prop := {
  dr_len : length l' = length l;
  dr_tl : forall s, tl l' s = if decide (s = x) then (-1)%Z else tl l s;
  dr_ids : forall i, ids l' i = ids l i ∖ {[Z.of_nat x]};
  dr_live : forall i, ids l' i <> ∅ -> ps l' i = ps l i /\ sr l' i = sr l i;
  dr_src : forall i, sr l' i = (-1)%Z \/ sr l' i = sr l i;
  dr_emptied : forall i, ids l' i = ∅ -> sr l' i = (-1)%Z \/ (ids l i = ∅ /\ sr l' i = sr l i)
}.

Lemma detached_dropped x j l l' : linked l -> tl l x = Z.of_nat j -> detached x j l l' -> dropped x l l'.
Proof.
  intros Hl Hx [H1 H2 H3 H4 H5]. split; [done|done| | | |].
  - intros i. rewrite H3. destruct (decide (i = j)) as [|Hn]; [done|]. apply set_eq. intros y. split; [|set_solver].
    intros Hy. apply elem_of_difference. split; [done|]. intros ->%elem_of_singleton. apply (lk_iff l Hl) in Hy. lia.
  - intros i. rewrite H3, H4, H5. destruct (decide (i = j)) as [->|Hn].
    + intros Hne. by rewrite !decide_False by tauto.
    + intros _. by rewrite !decide_False by tauto.
  - intros i. rewrite H5. destruct (decide _); tauto.
  - intros i. rewrite H3, H5. destruct (decide (i = j)) as [->|Hn].
    + intros E. left. by rewrite decide_True.
    + intros E. right. by rewrite decide_False by tauto.
Qed.

Lemma dropped_none x l : linked l -> tl l x = (-1)%Z -> dropped x l l.
Proof.
  intros Hl Hx. split; [done| | |done|by right|by right].
  - intros s. destruct (decide (s = x)) as [->|]; done.
  - intros i. apply set_eq. intros y. split; [|set_solver].
    intros Hy. apply elem_of_difference. split; [done|]. intros ->%elem_of_singleton. apply (lk_iff l Hl) in Hy. lia.
Qed.

(** The body of [drop_shared], also the first part of [seq_cp]. *)
Lemma drop_shared_ok m x : rec_wf m -> x < r_size m ->
  exists m', drop_shared (Z.of_nat x) m = Ok m' /\ rec_wf m' /\ same_meta m m' /\ dropped x (r_cells m) (r_cells m').
Proof.
  intros Hm Hx. pose proof (rw_links _ Hm) as Hl. destruct (cell_at_lt m x Hx) as (c & Hc & Ec). unfold drop_shared. rewrite Ec. cbn [mbind outcome_bind].
  rewrite <- (fld_Some c_tail (-1)%Z _ _ _ Hc). destruct (linked_cases _ x Hl) as [E|(j & E & Hin & Hj & _)]; rewrite E.
  { exists m. split; [done|]. split; [done|]. split; [done|]. by apply dropped_none. }
  rewrite (proj2 (Z.leb_le 0 (Z.of_nat j))) by lia. rewrite on_cell_ok by done. cbn [mbind outcome_bind].
  rewrite on_cell_ok by (rewrite r_size_set, length_alter; done). cbn [mbind outcome_bind r_cells set_cells].
  match goal with |- context [cell_at ?m1 (Z.of_nat j)] => set (m1' := m1) end.
  assert (r_size m1' = r_size m) as Hs by (unfold m1', r_size; simpl; by rewrite !length_alter).
  destruct (cell_at_lt m1' j ltac:(rewrite Hs; done)) as (d & Hdj & Ed). rewrite Ed. cbn [mbind outcome_bind].
  assert (ids (r_cells m1') j = ids (r_cells m) j ∖ {[Z.of_nat x]}) as Ei.
  { unfold m1'. cbn [r_cells set_cells]. fields. by rewrite decide_True. }
  rewrite (is_empty_fld _ _ _ Hdj), Ei.
  pose proof (rw_used _ Hm) as Hu. pose proof (rw_size _ Hm) as Hz. pose proof (used_pos (r_cells m) j ltac:(set_solver)) as Hpos.
  pose proof (used_le (r_cells m)) as Hle. unfold sizeZ, r_size in Hz.
  assert (forall m2, detached x j (r_cells m) (r_cells m2) -> same_meta m m2 ->
    r_used m2 = (r_used m - Z.of_nat (Nat.b2n (bool_decide (ids (r_cells m) j ∖ {[Z.of_nat x]} = ∅))))%Z ->
    rec_wf m2 /\ same_meta m m2 /\ dropped x (r_cells m) (r_cells m2)) as Hfin.
  { intros m2 Hd Hsame Hu2. split; [|split; [done|by eapply detached_dropped]].
    eapply rec_wf_meta; [done|done|by eapply detached_linked|intros i; eapply detached_cell; [done..|apply Hm]|].
    rewrite Hu2, Hu. pose proof (detached_used _ _ _ _ Hd Hl E). lia. }
  destruct (bool_decide_reflect (ids (r_cells m) j ∖ {[Z.of_nat x]} = ∅)) as [Hemp|Hemp].
  - rewrite on_cell_ok by (rewrite Hs; done). cbn [mbind outcome_bind]. eexists. split; [done|]. apply Hfin.
    + unfold m1'. split; cbn [r_cells set_cells set_used].
      * by rewrite !length_alter.
      * intros s. fields. destruct (decide (s = x)); done.
      * intros i. fields. destruct (decide (i = j)); done.
      * intros i. fields. destruct (decide (i = j)) as [->|]; [by rewrite decide_True|by rewrite decide_False by tauto].
      * intros i. fields. destruct (decide (i = j)) as [->|]; [by rewrite decide_True|by rewrite decide_False by tauto].
    + unfold m1'. split; try done. unfold r_size; simpl. by rewrite !length_alter.
    + simpl. rewrite u32_pred by lia. done.
  - exists m1'. split; [done|]. apply Hfin.
    + unfold m1'. split; cbn [r_cells set_cells set_used].
      * by rewrite !length_alter.
      * intros s. fields. destruct (decide (s = x)); done.
      * intros i. fields. destruct (decide (i = j)); done.
      * intros i. fields. by rewrite decide_False by tauto.
      * intros i. fields. by rewrite decide_False by tauto.
    + unfold m1'. split; try done.
    + simpl. lia.
Qed.
