(* ===== verification/RecurrentOps.v ===== *)
(** * Sequence operations of the recurrent memory

    Every operation on a well-formed memory returns, keeps the memory well-formed and
    changes what the sequences hold as its specification says. *)

From S2P Require Import KvCells BatchInit.
From S2P Require Export RecurrentWf.
Open Scope nat_scope.

(** ** Specification *)

Inductive rec_op :=
  | OpClear
  | OpRm (seq_id p0 p1 : Z)
  | OpRmCell (seq_id : Z) (cell_idx : nat)
  | OpCp (seq_id_src seq_id_dst p0 p1 : Z)
  | OpKeep (seq_id : Z)
  | OpAdd (seq_id p0 p1 shift : Z)
  | OpDiv (seq_id p0 p1 d : Z).

Definition run_rec_op (op : rec_op) (m : llama_memory_recurrent) : outcome (bool * llama_memory_recurrent) :=
  match op with
  | OpClear => Ok (true, clear m)
  | OpRm x p0 p1 => seq_rm x p0 p1 m
  | OpRmCell x i => seq_rm_cell x i m
  | OpCp a b p0 p1 => m ← seq_cp a b p0 p1 m; Ok (true, m)
  | OpKeep x => m ← seq_keep x m; Ok (true, m)
  | OpAdd x p0 p1 d => m ← seq_add x p0 p1 d m; Ok (true, m)
  | OpDiv x p0 p1 d => m ← seq_div x p0 p1 d m; Ok (true, m)
  end.

(** What the sequences hold: cell, position, source row. *)
Definition views : Type := nat -> option (nat * Z * Z).

Definition at_seq (V : views) (x : Z) : option (nat * Z * Z) := if (x <? 0)%Z then None else V (Z.to_nat x).

Definition in_range (p0 p1 p : Z) : bool := (range_lo p0 <=? p)%Z && (p <? range_hi p1)%Z.

Definition forget (x : Z) (V : views) : views := fun y => if (Z.of_nat y =? x)%Z then None else V y.

(** The sequences of one cell share its position. *)
Definition move_cell (j : nat) (p : Z) (V : views) : views := fun y =>
  match V y with Some (j', p', r) => if j' =? j then Some (j', p, r) else Some (j', p', r) | None => None end.

(** [seq_rm] removes the state, goes back at most [n_rs] tokens, or refuses. *)
Definition spec_rm (n_rs x p0 p1 : Z) (V : views) : bool * views :=
  match at_seq V x with
  | Some (j, p, _) =>
      if in_range p0 p1 p then
        if (range_lo p0 =? 0)%Z then (true, forget x V)
        else if (p - range_lo p0 + 1 <=? n_rs)%Z then (true, move_cell j (range_lo p0 - 1) V) else (false, V)
      else (true, V)
  | None => (true, V)
  end.

Definition spec_move (x p0 p1 : Z) (f : Z -> Z) (V : views) : views :=
  match at_seq V x with
  | Some (j, p, _) => if in_range p0 p1 p then move_cell j (f p) V else V
  | None => V
  end.

Definition spec_rec_op (n_rs : Z) (size : nat) (op : rec_op) (V : views) : bool * views :=
  match op with
  | OpClear => (true, fun _ => None)
  | OpRm x p0 p1 => if (Z.of_nat size <=? x)%Z then (false, V) else spec_rm n_rs x p0 p1 V
  | OpRmCell x i =>
      match at_seq V x with
      | Some (j, _, _) => if j =? i then (true, forget x V) else (false, V)
      | None => (false, V)
      end
  | OpCp a b _ _ =>
      (true, if (0 <=? a)%Z && (a <? Z.of_nat size)%Z && (0 <=? b)%Z && (b <? Z.of_nat size)%Z
             then fun y => if (Z.of_nat y =? b)%Z then at_seq V a else V y else V)
  | OpKeep x => (true, fun y => if (Z.of_nat y =? x)%Z then V y else None)
  | OpAdd x p0 p1 d => (true, spec_move x p0 p1 (fun p => (p + d)%Z) V)
  | OpDiv x p0 p1 d => (true, spec_move x p0 p1 (fun p => (p ÷ d)%Z) V)
  end.

(** A negative sequence is not removed, positions stay positions, divisors are positive. *)
Definition rec_op_pre (op : rec_op) (V : views) : Prop :=
  match op with
  | OpRm x p0 p1 => (0 <= x)%Z \/ range_lo p0 = range_hi p1
  | OpCp a b _ _ => in_i32 a = true /\ in_i32 b = true
  | OpAdd x p0 p1 d => forall j p r, at_seq V x = Some (j, p, r) -> in_range p0 p1 p = true -> (0 <= p + d <= INT32_MAX)%Z
  | OpDiv _ _ _ d => (0 < d)%Z
  | _ => True
  end.

(** ** Views *)

Lemma view_None m y : linked (r_cells m) -> view m y = None <-> tl (r_cells m) y = (-1)%Z.
Proof.
  intros Hl. unfold view. pose proof (lk_tl _ Hl y). destruct (Z.ltb_spec (tl (r_cells m) y) 0); split; try done; lia.
Qed.

Lemma view_Some m y j p r : view m y = Some (j, p, r) <-> tl (r_cells m) y = Z.of_nat j /\ ps (r_cells m) j = p /\ sr (r_cells m) j = r.
Proof.
  unfold view. destruct (Z.ltb_spec (tl (r_cells m) y) 0).
  - split; [done|]. intros [E _]. lia.
  - split; [intros [= <- <- <-]; rewrite Z2Nat.id by done; done|]. intros (E & <- & <-). rewrite E, Nat2Z.id. done.
Qed.

Lemma view_ge m y : r_size m <= y -> view m y = None.
Proof. intros H. unfold view. by rewrite fld_ge. Qed.

(** Two memories with the same tails whose cells in use agree have the same views. *)
Lemma view_ext m m' y : linked (r_cells m) -> tl (r_cells m') y = tl (r_cells m) y ->
  (forall j, Z.of_nat y ∈ ids (r_cells m) j -> ps (r_cells m') j = ps (r_cells m) j /\ sr (r_cells m') j = sr (r_cells m) j) ->
  view m' y = view m y.
Proof.
  intros Hl Ht H. unfold view. rewrite Ht. destruct (linked_cases _ y Hl) as [E|(j & E & Hin & _)]; rewrite E; [done|].
  destruct (H j Hin) as [E1 E2]. rewrite (proj2 (Z.ltb_ge _ _)), Nat2Z.id, E1, E2 by lia. done.
Qed.

Lemma dropped_view m m' x y : linked (r_cells m) -> dropped x (r_cells m) (r_cells m') ->
  view m' y = if decide (y = x) then None else view m y.
Proof.
  intros Hl Hd. destruct (decide (y = x)) as [->|Hn].
  - unfold view. rewrite (dr_tl _ _ _ Hd), decide_True; done.
  - apply view_ext; [done| |].
    + rewrite (dr_tl _ _ _ Hd), decide_False; done.
    + intros j Hj. apply (dr_live _ _ _ Hd). rewrite (dr_ids _ _ _ Hd). intros E.
      assert (Z.of_nat y ∈ ids (r_cells m) j ∖ {[Z.of_nat x]}) as Hin; [|rewrite E in Hin; set_solver].
      apply elem_of_difference. split; [done|]. intros H%elem_of_singleton. lia.
Qed.

Lemma at_seq_nat V x : at_seq V (Z.of_nat x) = V x.
Proof. unfold at_seq. rewrite (proj2 (Z.ltb_ge _ _)), Nat2Z.id by lia. done. Qed.

(** ** Steps *)

Lemma foldM_id {S A} (f : S -> A -> outcome S) l s : (forall a, a ∈ l -> f s a = Ok s) -> foldM f l s = Ok s.
Proof.
  induction l as [|a l IH]; intros H; [done|]. simpl. rewrite H by (by left). cbn [mbind outcome_bind]. apply IH. intros; apply H; by right.
Qed.

(** Everything but the head and the rollback indices comes from the cells. *)
Lemma rec_wf_intro m m' : rec_wf m -> n_rs_seq m' = n_rs_seq m -> Forall (fun r => (0 <= r <= n_rs_seq m)%Z) (rs_idx m') ->
  length (r_cells m') = length (r_cells m) -> (0 <= r_head m' < sizeZ m)%Z -> linked (r_cells m') ->
  (forall j, cell_ok (r_cells m') j) -> r_used m' = Z.of_nat (used_cells (r_cells m')) -> rec_wf m'.
Proof.
  intros [] E1 H1 E2 H2 H3 H4 H5. unfold sizeZ, r_size in *. split; unfold sizeZ, r_size in *; rewrite ?E1, ?E2; try done.
  split; [tauto|done].
Qed.

Lemma rs_ok m idx x : rec_wf m -> (0 <= idx)%Z -> Forall (fun r => (0 <= r <= n_rs_seq m)%Z) (rs_idx (set_rs_idx x idx m)).
Proof.
  intros Hm Hi. pose proof (rw_rs _ Hm) as [Hn Hf]. unfold set_rs_idx. destruct (_ || _); [done|]. cbn [rs_idx set_rs].
  apply Forall_insert; [done|]. destruct (Z.ltb_spec (n_rs_seq m) idx); lia.
Qed.

Lemma rs_wf m idx x : rec_wf m -> (0 <= idx)%Z -> rec_wf (set_rs_idx x idx m) /\ view (set_rs_idx x idx m) = view m.
Proof.
  intros Hm Hi. pose proof (rs_ok m idx x Hm Hi). unfold set_rs_idx in *. destruct (_ || _); [done|]. split; [|done].
  destruct Hm. by apply (rec_wf_intro m).
Qed.

(** ** Clearing and copying *)

Lemma clear_ok m : rec_wf m -> rec_wf (clear m) /\ forall y, view (clear m) y = None.
Proof.
  intros Hm. set (l := (fun c => cell_tail (-1) (cell_src (-1) (cell_seqs ∅ (cell_pos (-1) c)))) <$> r_cells m).
  assert (forall A (p : mem_cell -> A) d j, (forall c, p (cell_tail (-1) (cell_src (-1) (cell_seqs ∅ (cell_pos (-1) c)))) = d) -> fld p d l j = d) as Hf.
  { intros A p d j Hp. unfold fld, l. rewrite list_lookup_fmap. destruct (r_cells m !! j); simpl; [apply Hp|done]. }
  assert (forall j, ids l j = ∅ /\ tl l j = (-1)%Z /\ ps l j = (-1)%Z /\ sr l j = (-1)%Z) as H.
  { intros j. split; [|split; [|split]]; by apply Hf. }
  split.
  - apply (rec_wf_intro m); try done; cbn [rs_idx clear set_rs r_cells set_cells set_used set_head r_head r_used].
    + apply Forall_fmap, Forall_true. intros x. simpl. pose proof (rw_rs _ Hm). lia.
    + by rewrite length_fmap.
    + pose proof (rw_head _ Hm). lia.
    + split; intros; fold l.
      * destruct (H s) as (_ & E & _). destruct (H j) as (E2 & _). rewrite E, E2. split; [lia|set_solver].
      * destruct (H s) as (_ & E & _). lia.
      * destruct (H j) as (E2 & _). set_solver.
    + intros j. destruct (H j) as (E1 & E2 & E3 & E4). unfold cell_ok. fold l. rewrite E1, E3, E4. split; [done|]. split; [done|]. by left.
    + unfold used_cells. rewrite cnt_zero; [done|]. intros c Hc. apply list_elem_of_fmap in Hc as (d & -> & _). done.
  - intros y. unfold view, clear; cbn [r_cells set_rs set_used set_head set_cells]. fold l. by rewrite (proj1 (proj2 (H y))).
Qed.

(** A sequence without cell joins the others of a cell. *)
Lemma attach_ok m m' x j : rec_wf m -> x < r_size m -> tl (r_cells m) x = (-1)%Z -> ids (r_cells m) j <> ∅ ->
  same_meta m m' -> r_used m' = r_used m ->
  r_cells m' = alter (cell_tail (Z.of_nat j)) x (alter (fun c => cell_seqs ({[Z.of_nat x]} ∪ c_seq_id c) c) j (r_cells m)) ->
  rec_wf m' /\ forall y, view m' y = if decide (y = x) then Some (j, ps (r_cells m) j, sr (r_cells m) j) else view m y.
Proof.
  intros Hm Hx Ht Hj Hsame Hu Hc. pose proof (rw_links _ Hm) as Hl.
  assert (j < r_size m) as Hjl. { destruct (decide (j < r_size m)); [done|]. rewrite fld_ge in Hj; [done|unfold r_size in *; lia]. }
  assert (forall s, tl (r_cells m') s = if decide (s = x) then Z.of_nat j else tl (r_cells m) s) as Htl by (intros s; rewrite Hc; fields; done).
  assert (forall i, ids (r_cells m') i = if decide (i = j) then {[Z.of_nat x]} ∪ ids (r_cells m) i else ids (r_cells m) i) as Hids by (intros i; rewrite Hc; fields; destruct (decide (i = j)) as [->|]; done).
  assert (forall i, ps (r_cells m') i = ps (r_cells m) i) as Hps by (intros i; rewrite Hc; fields; done).
  assert (forall i, sr (r_cells m') i = sr (r_cells m) i) as Hsr by (intros i; rewrite Hc; fields; done).
  split.
  - eapply rec_wf_meta; [done|done| | |].
    + split.
      * intros s i. rewrite Htl, Hids. destruct (decide (s = x)) as [->|Hs]; destruct (decide (i = j)) as [->|Hi].
        -- split; [set_solver|done].
        -- split; [lia|]. intros H. apply (lk_iff _ Hl) in H. lia.
        -- rewrite (lk_iff _ Hl). rewrite elem_of_union, elem_of_singleton. split; [tauto|]. intros [?|?]; [lia|done].
        -- apply (lk_iff _ Hl).
      * intros s. rewrite Htl. destruct (decide _); [lia|apply (lk_tl _ Hl)].
      * intros i y. rewrite Hids. destruct (decide _); [|apply (lk_id _ Hl)]. intros [->%elem_of_singleton|H]%elem_of_union; [lia|by apply (lk_id _ Hl i)].
    + intros i. destruct (rw_cells _ Hm i) as (H1 & H2 & H3). unfold cell_ok. rewrite Hids, Hps, Hsr. destruct (decide (i = j)) as [->|Hi]; [|done].
      split; [set_solver|]. split; [|done]. intros _. by apply H2.
    + assert (used_cells (r_cells m') + Nat.b2n (in_use (r_cells m) j) = used_cells (r_cells m) + Nat.b2n (in_use (r_cells m') j)) as H.
      { apply used_change; [by apply sm_size|]. intros i Hi. by rewrite Hids, decide_False. }
      unfold in_use in H. rewrite Hids, decide_True, !bool_decide_eq_false_2 in H by set_solver. rewrite Hu, (rw_used _ Hm). simpl in H. lia.
  - intros y. destruct (decide (y = x)) as [->|Hn].
    + apply view_Some. by rewrite Htl, decide_True, Hps, Hsr.
    + apply view_ext; [done|by rewrite Htl, decide_False|]. done.
Qed.

Lemma u32_lt a n : in_i32 a = true -> (n <= INT32_MAX)%Z -> (u32 a <? n)%Z = (0 <=? a)%Z && (a <? n)%Z.
Proof.
  unfold in_i32, INT32_MAX, INT32_MIN, u32. intros [? ?]%andb_true_iff Hn. bprop. destruct (Z.leb_spec 0 a); simpl.
  - by rewrite Z.mod_small by lia.
  - replace (a mod 4294967296)%Z with (a + 4294967296)%Z; [apply Z.ltb_ge; lia|].
    rewrite <- (Z.mod_small (a + 4294967296) 4294967296) by lia. rewrite <- Zplus_mod_idemp_r, Z_mod_same_full, Z.add_0_r. done.
Qed.

Lemma seq_cp_ok m a b p0 p1 : rec_wf m -> in_i32 a = true -> in_i32 b = true ->
  exists m', seq_cp a b p0 p1 m = Ok m' /\ rec_wf m' /\ forall y, view m' y = (spec_rec_op (n_rs_seq m) (r_size m) (OpCp a b p0 p1) (view m)).2 y.
Proof.
  intros Hm Ha Hb. pose proof (rw_links _ Hm) as Hl. unfold seq_cp. cbn [spec_rec_op snd].
  destruct (Z.eqb_spec a b) as [->|Hn].
  { exists m. split; [done|]. split; [done|]. intros y. destruct (_ && _) eqn:E; [|done]. destruct (Z.eqb_spec (Z.of_nat y) b) as [<-|]; [|done]. by rewrite at_seq_nat. }
  rewrite !u32_lt by (try done; apply Hm). rewrite (andb_comm ((0 <=? b)%Z && _)), andb_assoc. change (Z.of_nat (r_size m)) with (sizeZ m).
  destruct (_ && _) eqn:E; [|exists m; done]. bprop.
  destruct (drop_shared_ok m (Z.to_nat b) Hm ltac:(unfold sizeZ in *; lia)) as (m1 & E1 & Hm1 & Hs1 & Hd). rewrite Z2Nat.id in E1 by done.
  rewrite E1. cbn [mbind outcome_bind]. pose proof (rw_links _ Hm1) as Hl1. pose proof (sm_size _ _ Hs1) as Hsz. unfold sizeZ in *.
  destruct (cell_at_lt m1 (Z.to_nat a) ltac:(lia)) as (c & Hc & Ec). rewrite Z2Nat.id in Ec by done. rewrite Ec. cbn [mbind outcome_bind].
  rewrite <- (fld_Some c_tail (-1)%Z _ _ _ Hc). assert (forall y, (Z.of_nat y =? b)%Z = bool_decide (y = Z.to_nat b)) as Hyb.
  { intros y. apply eq_true_iff_eq. rewrite Z.eqb_eq, bool_decide_eq_true. lia. }
  assert (tl (r_cells m1) (Z.to_nat a) = tl (r_cells m) (Z.to_nat a)) as Hta by (rewrite (dr_tl _ _ _ Hd), decide_False; [done|lia]).
  assert (view m1 (Z.to_nat a) = at_seq (view m) a) as Hva.
  { rewrite (dropped_view m m1 _ _ Hl Hd), decide_False by lia. unfold at_seq. by rewrite (proj2 (Z.ltb_ge _ _)). }
  destruct (linked_cases _ (Z.to_nat a) Hl1) as [E|(j & E & Hin & Hj & _)]; rewrite E; cbn [mbind outcome_bind].
  - exists m1. split; [done|]. split; [done|]. intros y. rewrite Hyb, (dropped_view m m1 _ _ Hl Hd). case_bool_decide; case_decide; try done.
    rewrite <- Hva. symmetry. by apply view_None.
  - rewrite (proj2 (Z.leb_le 0 (Z.of_nat j))) by lia. rewrite on_cell_ok by done. cbn [mbind outcome_bind].
    rewrite <- (Z2Nat.id b) by done. rewrite on_cell_ok by (rewrite r_size_set, length_alter; fold (r_size m1); lia). cbn [r_cells set_cells].
    match goal with |- context [Ok ?x] => set (m2 := x) end. destruct (attach_ok m1 m2 (Z.to_nat b) j) as [Hw Hv]; try done.
    + lia.
    + by rewrite (dr_tl _ _ _ Hd), decide_True.
    + set_solver.
    + split; try done. unfold m2, r_size; simpl. by rewrite !length_alter.
    + exists m2. split; [done|]. split; [done|]. intros y. rewrite Hv. rewrite Z2Nat.id by done. rewrite Hyb. case_bool_decide; case_decide; try done.
      * rewrite <- Hva. symmetry. by apply view_Some.
      * rewrite (dropped_view m m1 _ _ Hl Hd). by rewrite decide_False.
Qed.

(** ** Positions *)

Lemma move_ok m j p : rec_wf m -> j < r_size m -> ids (r_cells m) j <> ∅ -> (0 <= p <= INT32_MAX)%Z ->
  exists m', on_cell (Z.of_nat j) (cell_pos p) m = Ok m' /\ rec_wf m' /\ forall y, view m' y = move_cell j p (view m) y.
Proof.
  intros Hm Hj Hne Hp. pose proof (rw_links _ Hm) as Hl. rewrite on_cell_ok by done. eexists. split; [done|].
  set (l' := alter (cell_pos p) j (r_cells m)).
  assert (forall s, tl l' s = tl (r_cells m) s) as Htl by (intros s; unfold l'; fields; done).
  assert (forall i, ids l' i = ids (r_cells m) i) as Hids by (intros i; unfold l'; fields; done).
  assert (forall i, ps l' i = if decide (i = j) then p else ps (r_cells m) i) as Hps by (intros i; unfold l'; fields; done).
  assert (forall i, sr l' i = sr (r_cells m) i) as Hsr by (intros i; unfold l'; fields; done).
  split.
  - eapply rec_wf_meta; [done| | | |]; cbn [r_cells set_cells r_used]; fold l'.
    + split; try done. unfold r_size, l'; simpl. by rewrite length_alter.
    + split; [intros s i; rewrite Htl, Hids; apply (lk_iff _ Hl)|intros s; rewrite Htl; apply (lk_tl _ Hl)|intros i y; rewrite Hids; apply (lk_id _ Hl)].
    + intros i. destruct (rw_cells _ Hm i) as (H1 & H2 & H3). unfold cell_ok. rewrite Hids, Hps, Hsr. destruct (decide (i = j)) as [->|]; [|done]. tauto.
    + rewrite (rw_used _ Hm). pose proof (used_change (r_cells m) l' j) as H. unfold in_use in H. rewrite Hids in H. f_equal.
      apply (Nat.add_cancel_r _ _ (Nat.b2n (negb (bool_decide (ids (r_cells m) j = ∅))))). symmetry. apply H; [unfold l'; by rewrite length_alter|]. intros i _. apply Hids.
  - intros y. unfold move_cell. unfold view at 1. cbn [r_cells set_cells]. fold l'. rewrite Htl. destruct (linked_cases _ y Hl) as [E|(i & E & _)].
    + rewrite E. simpl. by rewrite (proj2 (view_None m y Hl) E).
    + rewrite (proj2 (view_Some m y i _ _) (conj E (conj eq_refl eq_refl))). rewrite E, (proj2 (Z.ltb_ge _ _)), Nat2Z.id, Hps, Hsr by lia.
      destruct (decide (i = j)) as [->|Hn]; [by rewrite Nat.eqb_refl|]. by rewrite (proj2 (Nat.eqb_neq _ _)).
Qed.

(** What a sequence that holds a cell looks like. *)
Lemma held m x : rec_wf m -> x < r_size m -> exists c, r_cells m !! x = Some c /\ cell_at m (Z.of_nat x) = Ok c /\
  ((view m x = None /\ c_tail c = (-1)%Z) \/
   exists j d, view m x = Some (j, c_pos d, c_src d) /\ c_tail c = Z.of_nat j /\ r_cells m !! j = Some d /\ cell_at m (Z.of_nat j) = Ok d /\
     Z.of_nat x ∈ c_seq_id d /\ j < r_size m /\ (0 <= c_pos d <= INT32_MAX)%Z /\ tl (r_cells m) x = Z.of_nat j).
Proof.
  intros Hm Hx. pose proof (rw_links _ Hm) as Hl. destruct (cell_at_lt m x Hx) as (c & Hc & Ec). exists c. split; [done|]. split; [done|].
  pose proof (fld_Some c_tail (-1)%Z _ _ _ Hc) as Ht. destruct (linked_cases _ x Hl) as [E|(j & E & Hin & Hj & _)].
  - left. split; [by apply view_None|congruence].
  - right. destruct (cell_at_lt m j Hj) as (d & Hdj & Ed). exists j, d. pose proof (fld_Some c_seq_id ∅ _ _ _ Hdj) as Hi. rewrite Hi in Hin.
    pose proof (fld_Some c_pos (-1)%Z _ _ _ Hdj) as Hp. pose proof (fld_Some c_src (-1)%Z _ _ _ Hdj) as Hr.
    assert (ids (r_cells m) j <> ∅) as Hne by (rewrite Hi; set_solver). pose proof (proj1 (proj2 (rw_cells _ Hm j)) Hne) as Hpos. rewrite Hp in Hpos.
    split; [|split; [congruence|done]]. by apply view_Some.
Qed.

Lemma on_tail_pos_ok m x p0 p1 f g : rec_wf m ->
  (forall j p r, at_seq (view m) x = Some (j, p, r) -> in_range p0 p1 p = true -> (0 <= p)%Z -> f p = Ok (g p) /\ (0 <= g p <= INT32_MAX)%Z) ->
  exists m', on_tail_pos x p0 p1 f m = Ok m' /\ rec_wf m' /\ forall y, view m' y = spec_move x p0 p1 g (view m) y.
Proof.
  intros Hm Hf. unfold on_tail_pos. cbv zeta. unfold spec_move. unfold at_seq in *.
  destruct (Z.eqb_spec (range_lo p0) (range_hi p1)) as [E|_].
  { exists m. split; [done|]. split; [done|]. intros y. destruct (if (x <? 0)%Z then _ else _) as [[[j p] r]|]; [|done].
    unfold in_range. rewrite E. destruct (Z.leb_spec (range_hi p1) p), (Z.ltb_spec p (range_hi p1)); simpl; try done; lia. }
  destruct (Z.ltb_spec x 0) as [|Hx]; [exists m; rewrite (proj2 (Z.leb_gt _ _)) by lia; done|]. rewrite (proj2 (Z.leb_le 0 x) Hx). cbn [andb].
  destruct (Z.ltb_spec x (sizeZ m)) as [Hxs|Hxs].
  2: { exists m. rewrite view_ge by (unfold sizeZ in *; lia). done. }
  destruct (held m (Z.to_nat x) Hm ltac:(unfold sizeZ in *; lia)) as (c & Hc & Ec & H). rewrite Z2Nat.id in Ec by done. rewrite Ec. cbn [mbind outcome_bind].
  destruct H as [(Hv & Ht)|(j & d & Hv & Ht & Hd & Ed & Hin & Hj & Hp & Htl)]; rewrite Ht.
  { exists m. rewrite Hv. done. }
  rewrite (proj2 (Z.leb_le 0 (Z.of_nat j))) by lia. rewrite Ed. cbn [mbind outcome_bind]. unfold has_seq_id. rewrite Z2Nat.id in Hin by done.
  rewrite bool_decide_eq_true_2 by done. cbn [andb]. rewrite Hv. fold (in_range p0 p1 (c_pos d)). destruct (in_range p0 p1 (c_pos d)) eqn:Er; [|exists m; done].
  destruct (Hf _ _ _ Hv Er ltac:(lia)) as [E1 E2]. rewrite E1. cbn [mbind outcome_bind]. apply move_ok; try done.
  rewrite (fld_Some _ _ _ _ _ Hd). set_solver.
Qed.

(** ** Removal *)

Lemma rm_step_skip x lo hi m nh i : i < r_size m ->
  ((lo <= ps (r_cells m) i < hi)%Z -> (0 <= x)%Z /\ x ∉ ids (r_cells m) i) -> rm_step x lo hi (m, nh) i = Ok (m, nh).
Proof.
  intros Hi H. unfold rm_step. destruct (cell_at_lt m i Hi) as (c & Hc & Ec). rewrite Ec. cbn [mbind outcome_bind].
  rewrite <- (fld_Some c_pos (-1)%Z _ _ _ Hc). destruct (_ && _) eqn:E; [|done]. bprop. destruct (H ltac:(lia)) as [Hx Hn].
  rewrite (proj2 (Z.ltb_ge _ _)) by lia. unfold has_seq_id. rewrite <- (fld_Some c_seq_id ∅ _ _ _ Hc). by rewrite bool_decide_eq_false_2.
Qed.

Lemma rm_step_hit x lo hi m nh i : i < r_size m -> (lo <= ps (r_cells m) i < hi)%Z -> Z.of_nat x ∈ ids (r_cells m) i ->
  rm_step (Z.of_nat x) lo hi (m, nh) i =
    release_cell i (set_cells (alter (fun c => cell_seqs (c_seq_id c ∖ {[Z.of_nat x]}) c) i (r_cells m)) m, nh).
Proof.
  intros Hi Hp Hx. unfold rm_step. destruct (cell_at_lt m i Hi) as (c & Hc & Ec). rewrite Ec. cbn [mbind outcome_bind].
  rewrite (fld_Some _ _ _ _ _ Hc) in Hp. rewrite (fld_Some _ _ _ _ _ Hc) in Hx. rewrite (proj2 (Z.leb_le _ _)), (proj2 (Z.ltb_lt _ _)) by lia. cbn [andb].
  rewrite (proj2 (Z.ltb_ge _ _)) by lia. unfold has_seq_id. rewrite bool_decide_eq_true_2 by done. by rewrite on_cell_ok.
Qed.

Lemma rm_loop_skip x lo hi m nh l : Forall (fun i => i < r_size m /\ ((lo <= ps (r_cells m) i < hi)%Z -> (0 <= x)%Z /\ x ∉ ids (r_cells m) i)) l ->
  foldM (rm_step x lo hi) l (m, nh) = Ok (m, nh).
Proof. intros H. apply foldM_id. intros i Hi. rewrite Forall_forall in H. destruct (H i Hi). by apply rm_step_skip. Qed.

(** Taking a sequence out of its cell in the steps of [seq_rm] and [seq_rm_cell]. *)
Lemma leave_steps m l x j (order : bool) : linked (r_cells m) -> tl (r_cells m) x = Z.of_nat j -> length l = r_size m ->
  (l = (fun l => if order then l else alter (cell_tail (-1)) x l) (alter (fun c => cell_seqs (c_seq_id c ∖ {[Z.of_nat x]}) c) j
         ((fun l => if order then alter (cell_tail (-1)) x l else l) (r_cells m)))) ->
  (ids (r_cells m) j ∖ {[Z.of_nat x]} = ∅ -> detached x j (r_cells m) (alter (fun c => cell_src (-1) (cell_pos (-1) c)) j l)) /\
  (ids (r_cells m) j ∖ {[Z.of_nat x]} <> ∅ -> detached x j (r_cells m) l).
Proof.
  intros Hl Ht Hlen ->. apply (lk_iff _ Hl) in Ht as Hin. pose proof (ids_lt _ _ _ Hin). pose proof (tl_lt _ _ _ Ht).
  split; intros E; split; [destruct order; by rewrite !length_alter|..|destruct order; by rewrite !length_alter| | | |]; intros i; destruct order; fields;
    repeat case_decide; try done; try tauto; subst; try done; tauto.
Qed.

Lemma rec_release_ok m i x nh l : r_cells m = l -> i < r_size m -> ids l i = x -> (x = ∅ -> (0 <= ps l i)%Z) ->
  (r_used m <= INT32_MAX)%Z -> (x = ∅ -> (0 < r_used m)%Z) ->
  exists m' nh', release_cell i (m, nh) = Ok (m', nh') /\ same_meta m m' /\ (nh' = nh \/ nh' = Z.of_nat i) /\
    r_cells m' = (if bool_decide (x = ∅) then alter (fun c => cell_src (-1) (cell_pos (-1) c)) i l else l) /\
    r_used m' = (r_used m - Z.of_nat (Nat.b2n (bool_decide (x = ∅))))%Z.
Proof.
  intros <- Hi <- Hp Hu Hu0. unfold release_cell. destruct (cell_at_lt m i Hi) as (c & Hc & Ec). rewrite Ec. cbn [mbind outcome_bind].
  rewrite (is_empty_fld _ _ _ Hc). case_bool_decide as E.
  - rewrite (fld_Some c_pos (-1)%Z _ _ _ Hc) in Hp. rewrite (proj2 (Z.leb_le _ _)) by auto. rewrite on_cell_ok by done. cbn [mbind outcome_bind].
    eexists _, _. split; [done|]. split; [|split; [|split; [done|]]].
    + split; try done. unfold r_size; simpl. by rewrite length_alter.
    + destruct (_ =? _)%Z; tauto.
    + simpl. rewrite u32_pred; [lia|auto|lia].
  - eexists m, nh. split; [done|]. split; [done|]. split; [by left|]. split; [done|]. simpl. lia.
Qed.

Lemma detached_wf m m' x j : rec_wf m -> tl (r_cells m) x = Z.of_nat j -> same_meta m m' -> detached x j (r_cells m) (r_cells m') ->
  r_used m' = Z.of_nat (used_cells (r_cells m')) -> rec_wf m'.
Proof.
  intros Hm Ht Hs Hd Hu. pose proof (rw_links _ Hm) as Hl. apply (rec_wf_meta m); try done.
  - by apply (detached_linked x j (r_cells m)).
  - intros i. apply (detached_cell x j (r_cells m)); try done. apply Hm.
Qed.

(** The loop of [seq_rm] after the tail has been invalidated. *)
Lemma rm_loop_hit m m1 x lo hi j : rec_wf m -> tl (r_cells m) x = Z.of_nat j -> (lo <= ps (r_cells m) j < hi)%Z ->
  r_cells m1 = alter (cell_tail (-1)) x (r_cells m) -> r_used m1 = r_used m -> same_meta m m1 ->
  exists m2 nh, foldM (rm_step (Z.of_nat x) lo hi) (seq 0 (r_size m1)) (m1, sizeZ m1) = Ok (m2, nh) /\ same_meta m1 m2 /\
    detached x j (r_cells m) (r_cells m2) /\ r_used m2 = Z.of_nat (used_cells (r_cells m2)) /\ (nh = sizeZ m \/ nh = Z.of_nat j).
Proof.
  intros Hm Ht Hp Hc1 Hu1 Hs1. pose proof (rw_links _ Hm) as Hl. apply (lk_iff _ Hl) in Ht as Hin. pose proof (ids_lt _ _ _ Hin) as Hj. fold (r_size m) in Hj.
  pose proof (sm_size _ _ Hs1) as Hsz. pose proof (rw_used _ Hm) as Hu. pose proof (used_le (r_cells m)). pose proof (rw_size _ Hm) as Hz.
  pose proof (used_pos (r_cells m) j ltac:(set_solver)) as Hpos. unfold sizeZ in *. rewrite Hsz.
  assert (forall i, i <> j -> Z.of_nat x ∉ ids (r_cells m) i) as Hno by (intros i Hn Hi; apply (lk_iff _ Hl) in Hi; lia).
  assert (seq 0 (r_size m) = seq 0 j ++ j :: seq (S j) (r_size m - j - 1)) as ->.
  { replace (r_size m) with (j + S (r_size m - j - 1)) at 1 by lia. by rewrite seq_app. }
  rewrite foldM_app.
  rewrite rm_loop_skip.
  2: { apply Forall_forall. intros i Hi%elem_of_seq. split; [lia|]. intros _. split; [lia|]. rewrite Hc1. fields. apply Hno. lia. }
  cbn [mbind outcome_bind foldM]. rewrite rm_step_hit.
  2: lia. 2: rewrite Hc1; fields; done. 2: rewrite Hc1; fields; done.
  rewrite Hc1.
  match goal with |- context [release_cell j (?a, _)] => set (m1' := a) end. pose proof (tl_lt _ _ _ Ht) as Hxl.
  destruct (rec_release_ok m1' j (ids (r_cells m) j ∖ {[Z.of_nat x]}) (Z.of_nat (r_size m)) (r_cells m1') eq_refl) as (m2 & nh & E2 & Hs2 & Hnh & Hc2 & Hu2).
  { unfold m1', r_size; simpl. rewrite !length_alter. done. }
  { unfold m1'; cbn [r_cells set_cells]. fields. by rewrite decide_True. }
  { intros _. unfold m1'; cbn [r_cells set_cells]. fields. pose proof (proj1 (proj2 (rw_cells _ Hm j)) ltac:(set_solver)). lia. }
  { unfold m1'; simpl. unfold r_size in *. lia. }
  { intros _. unfold m1'; simpl. lia. }
  rewrite E2. cbn [mbind outcome_bind]. destruct (leave_steps m (r_cells m1') x j true Hl Ht) as [L1 L2].
  { unfold m1'; simpl. by rewrite !length_alter. } { done. }
  assert (detached x j (r_cells m) (r_cells m2)) as Hd by (rewrite Hc2; case_bool_decide; auto).
  assert (same_meta m1 m1') as Hs1' by (split; try done; unfold m1', r_size; simpl; rewrite Hc1; by rewrite !length_alter).
  exists m2, nh. split; [|split; [by etrans|split; [done|split; [|done]]]].
  - apply rm_loop_skip. apply Forall_forall. intros i Hi%elem_of_seq. pose proof (sm_size _ _ Hs2). pose proof (sm_size _ _ Hs1'). split; [lia|].
    intros _. split; [lia|]. rewrite (dt_ids _ _ _ _ Hd), decide_False by lia. apply Hno. lia.
  - rewrite Hu2. unfold m1'; cbn [r_used set_cells]. rewrite Hu1, Hu. pose proof (detached_used _ _ _ _ Hd Hl Ht). lia.
Qed.

Lemma range_lo_nonneg p : (0 <= range_lo p)%Z.
Proof. unfold range_lo. destruct (Z.ltb_spec p 0); lia. Qed.

Lemma to_i32_id n : (0 <= n <= INT32_MAX)%Z -> to_i32 n = n.
Proof. intros H. unfold to_i32. by rewrite (proj2 (Z.leb_le _ _)) by lia. Qed.

Lemma rec_can_seq_rm_ok m x p0 p1 : rec_wf m -> x < r_size m ->
  can_seq_rm (Z.of_nat x) p0 p1 m = Ok (spec_rm (n_rs_seq m) (Z.of_nat x) p0 p1 (view m)).1.
Proof.
  intros Hm Hx. unfold can_seq_rm, spec_rm. cbv zeta. rewrite at_seq_nat. unfold sizeZ. rewrite (proj2 (Z.leb_gt _ _)), (proj2 (Z.ltb_ge _ 0)) by lia.
  destruct (held m x Hm Hx) as (c & Hc & Ec & H). rewrite Ec. cbn [mbind outcome_bind]. pose proof (range_lo_nonneg p0). pose proof (rw_rs _ Hm) as [Hn _].
  destruct H as [(Hv & Ht)|(j & d & Hv & Ht & Hd & Ed & Hin & Hj & Hp & Htl)]; rewrite Ht, Hv; [done|].
  rewrite (proj2 (Z.ltb_ge _ 0)) by lia. rewrite Ed. cbn [mbind outcome_bind]. unfold in_range. rewrite to_i32_id by done.
  destruct (Z.ltb_spec 0 (range_lo p0)), (Z.eqb_spec (range_lo p0) 0), (Z.leb_spec (range_lo p0) (c_pos d)), (Z.ltb_spec (c_pos d) (range_hi p1)); simpl; try done; try lia.
  replace (c_pos d - (range_lo p0 - 1))%Z with (c_pos d - range_lo p0 + 1)%Z by lia. rewrite (proj2 (Z.leb_le 1 _)) by lia. simpl. by destruct (_ <=? _)%Z.
Qed.

Lemma move_head_ok m nh : rec_wf m -> (nh = sizeZ m \/ (0 <= nh < sizeZ m)%Z) ->
  rec_wf (move_head (m, nh)) /\ forall y, view (move_head (m, nh)) y = view m y.
Proof.
  intros Hm Hn. unfold move_head. destruct (_ && _) eqn:E; [|done]. bprop. split; [|done]. pose proof (rw_rs _ Hm) as [_ ?]. apply (rec_wf_intro m); try done; try apply Hm. simpl. lia.
Qed.

Lemma rm_nothing m x lo hi : rec_wf m -> (x < 0)%Z /\ lo = hi \/ (0 <= x)%Z /\ (view m (Z.to_nat x) = None \/ exists j p r, view m (Z.to_nat x) = Some (j, p, r) /\ ~ (lo <= p < hi)%Z) ->
  foldM (rm_step x lo hi) (seq 0 (r_size m)) (m, sizeZ m) = Ok (m, sizeZ m).
Proof.
  intros Hm H. apply rm_loop_skip. apply Forall_forall. intros i Hi%elem_of_seq. split; [lia|]. intros Hr. pose proof (rw_links _ Hm) as Hl.
  destruct H as [[_ E]|[Hx H]]; [lia|]. split; [done|]. intros Hin. rewrite <- (Z2Nat.id x Hx) in Hin. apply (lk_iff _ Hl) in Hin as Ht.
  destruct H as [H|(j & p & r & H & Hp)].
  - apply view_None in H; [|done]. lia.
  - apply view_Some in H as (E & Ep & _). assert (j = i) as -> by lia. lia.
Qed.

(** The reset of the rollback indices at the start of [seq_rm]. *)
Definition rm_reset (x lo hi : Z) (m : llama_memory_recurrent) : llama_memory_recurrent :=
  if (lo =? 0)%Z && (hi =? INT32_MAX)%Z then if (0 <=? x)%Z then set_rs_idx x 0 m else set_rs ((fun _ => 0%Z) <$> rs_idx m) m else m.

Lemma rm_reset_ok m x lo hi : rec_wf m -> rec_wf (rm_reset x lo hi m) /\ view (rm_reset x lo hi m) = view m /\ r_cells (rm_reset x lo hi m) = r_cells m.
Proof.
  intros Hm. unfold rm_reset. destruct (_ && _); [|done]. destruct (0 <=? x)%Z.
  - destruct (rs_wf m 0 x Hm ltac:(lia)) as [H1 H2]. split; [done|]. split; [done|]. unfold set_rs_idx. by destruct (_ || _).
  - split; [|done]. destruct Hm. apply (rec_wf_intro m); try done. cbn [rs_idx set_rs]. apply Forall_fmap, Forall_true. intros z. simpl. lia.
Qed.

Lemma seq_rm_ok m x p0 p1 : rec_wf m -> (0 <= x)%Z \/ range_lo p0 = range_hi p1 ->
  let r := spec_rec_op (n_rs_seq m) (r_size m) (OpRm x p0 p1) (view m) in
  exists m', seq_rm x p0 p1 m = Ok (r.1, m') /\ rec_wf m' /\ forall y, view m' y = r.2 y.
Proof.
  intros Hm Hpre. cbv zeta. cbn [spec_rec_op]. fold (sizeZ m). unfold seq_rm.
  destruct (Z.leb_spec (sizeZ m) x) as [Hxs|Hxs].
  { exists m. unfold can_seq_rm. cbv zeta. rewrite (proj2 (Z.leb_le _ _) Hxs). done. }
  destruct (decide (0 <= x)%Z) as [Hx|Hx].
  2: { destruct Hpre as [|Hr]; [lia|]. exists (rm_reset x (range_lo p0) (range_hi p1) m). destruct (rm_reset_ok m x (range_lo p0) (range_hi p1) Hm) as (H1 & H2 & H3).
    assert (can_seq_rm x p0 p1 m = Ok true) as ->.
    { unfold can_seq_rm. rewrite (proj2 (Z.leb_gt (sizeZ m) x)), (proj2 (Z.ltb_lt x 0)) by lia. by rewrite Hr, Z.eqb_refl. }
    cbn [mbind outcome_bind negb]. cbv zeta. fold (rm_reset x (range_lo p0) (range_hi p1) m). rewrite Hr, Z.eqb_refl in *. set (m0 := rm_reset _ _ _ m) in *.
    assert (sizeZ m0 = sizeZ m) as Es by (unfold sizeZ, r_size; by rewrite H3). rewrite Es.
    rewrite (proj2 (Z.leb_gt (sizeZ m) x)), (proj2 (Z.leb_gt 0 x)) by lia. cbn [andb negb mbind outcome_bind]. rewrite rm_nothing; [|done|left; lia]. cbn [mbind outcome_bind]. unfold move_head. rewrite Z.eqb_refl.
    unfold spec_rm, at_seq. rewrite (proj2 (Z.ltb_lt x 0)) by lia. cbn [fst snd negb andb]. rewrite H2. done. }
  rewrite <- (Z2Nat.id x Hx) in *. set (n := Z.to_nat x) in *. clearbody n. clear Hpre Hx x. rewrite rec_can_seq_rm_ok by (unfold sizeZ in *; try done; lia).
  cbn [mbind outcome_bind]. set (r := spec_rm _ _ _ _ _). destruct (r.1) eqn:Er.
  2: { exists m. split; [done|]. split; [done|]. intros y. revert Er. unfold r, spec_rm. destruct (at_seq _ _) as [[[j p] q]|]; [|done].
    destruct (in_range _ _ _); [|done]. destruct (_ =? 0)%Z; [done|]. by destruct (_ <=? _)%Z. }
  cbn [negb]. cbv zeta. fold (rm_reset (Z.of_nat n) (range_lo p0) (range_hi p1) m).
  destruct (rm_reset_ok m (Z.of_nat n) (range_lo p0) (range_hi p1) Hm) as (Hm0 & Hv0 & Hc0).
  set (m0 := rm_reset _ _ _ m) in *. assert (r_size m0 = r_size m) as Es by (unfold r_size; by rewrite Hc0).
  assert (sizeZ m0 = sizeZ m) as Ez by (unfold sizeZ; by rewrite Es). assert (n_rs_seq m0 = n_rs_seq m) as En.
  { unfold m0, rm_reset, set_rs_idx. destruct (_ && _); [|done]. destruct (0 <=? _)%Z; [|done]. by destruct (_ || _). }
  rewrite Ez. rewrite (proj2 (Z.leb_gt _ _) Hxs), (proj2 (Z.leb_le 0 (Z.of_nat n))) by lia. unfold rm_tail.
  destruct (held m0 n Hm0 ltac:(unfold sizeZ in *; lia)) as (c & Hc & Ec & H). rewrite Ec. cbn [mbind outcome_bind]. cbv zeta. pose proof (range_lo_nonneg p0).
  destruct H as [(Hv & Ht)|(j & d & Hv & Ht & Hd & Ed & Hin & Hj & Hp & Htl)]; rewrite Ht; rewrite Hv0 in Hv.
  { cbn [Z.leb Z.compare mbind outcome_bind]. rewrite rm_nothing; [|done|right; split; [lia|left; by rewrite Nat2Z.id, Hv0]]. cbn [mbind outcome_bind]. unfold move_head.
    rewrite Z.eqb_refl. exists m0. split; [done|]. split; [done|]. intros y. unfold r, spec_rm. rewrite at_seq_nat, Hv, Hv0. done. }
  rewrite (proj2 (Z.leb_le 0 (Z.of_nat j))) by lia. rewrite Ed. cbn [mbind outcome_bind]. pose proof (rw_rs _ Hm0) as [Hn _]. rewrite to_i32_id by done.
  unfold r, spec_rm in *. rewrite at_seq_nat, Hv in *. unfold in_range in *.
  destruct ((range_lo p0 <=? c_pos d)%Z && (c_pos d <? range_hi p1)%Z) eqn:Ein.
  - rewrite <- andb_assoc, Ein, andb_true_r. bprop. destruct (Z.eqb_spec (range_lo p0) 0) as [E0|E0].
    + rewrite E0. cbn [Z.ltb Z.compare]. rewrite on_cell_ok by (rewrite Es; unfold sizeZ in *; lia). cbn [mbind outcome_bind].
      match goal with |- context [foldM _ _ (?a, _)] => set (m1 := a) end.
      assert (same_meta m0 m1) as Hs1 by (split; try done; unfold m1, r_size; simpl; by rewrite length_alter).
      destruct (rm_loop_hit m0 m1 n 0 (range_hi p1) j Hm0 Htl) as (m2 & nh & E2 & Hs2 & Hd2 & Hu2 & Hnh); try done.
      { rewrite (fld_Some _ _ _ _ _ Hd). lia. }
      rewrite E2. cbn [mbind outcome_bind]. assert (rec_wf m2) as Hm2.
      { eapply (detached_wf m0); try done. by etrans. }
      assert (sizeZ m2 = sizeZ m0) as Ez2. { unfold sizeZ. f_equal. rewrite (sm_size _ _ Hs2). by apply sm_size. }
      destruct (move_head_ok m2 nh Hm2) as [Hw Hvw]. { rewrite Ez2. destruct Hnh as [|Hnh]; [by left|right]. rewrite Hnh. unfold sizeZ. lia. }
      eexists. split; [done|]. split; [done|]. intros y. rewrite Hvw, (dropped_view m0 m2 n y); [|apply Hm0|by eapply detached_dropped; [apply Hm0|..]].
      rewrite Hv0. unfold forget; simpl. destruct (Z.eqb_spec (Z.of_nat y) (Z.of_nat n)); case_decide; try done; lia.
    + assert ((c_pos d - range_lo p0 + 1 <=? n_rs_seq m)%Z = true) as Hle by (destruct (_ <=? n_rs_seq m)%Z; done). rewrite Hle in *. bprop.
      rewrite (proj2 (Z.ltb_lt 0 _)), (proj2 (Z.leb_le 1 _)), (proj2 (Z.leb_le _ (n_rs_seq m0))) by lia. cbn [andb].
      destruct (rs_wf m0 (c_pos d - (range_lo p0 - 1)) (Z.of_nat n) Hm0 ltac:(lia)) as [Hm1 Hv1]. set (m1 := set_rs_idx _ _ m0) in *.
      assert (r_cells m1 = r_cells m0) as Hc1 by (unfold m1, set_rs_idx; by destruct (_ || _)).
      destruct (move_ok m1 j (range_lo p0 - 1) Hm1) as (m2 & E2 & Hm2 & Hv2).
      { unfold r_size. by rewrite Hc1. } { rewrite Hc1, (fld_Some _ _ _ _ _ Hd). set_solver. } { unfold INT32_MAX in *. lia. }
      rewrite E2. cbn [mbind outcome_bind]. exists m2. split; [done|]. split; [done|]. intros y. rewrite Hv2, Hv1, Hv0. done.
  - rewrite <- andb_assoc, Ein, andb_false_r. cbn [mbind outcome_bind]. rewrite rm_nothing.
    2: done. 2: { right. split; [lia|]. right. rewrite Nat2Z.id, Hv0. exists j, (c_pos d), (c_src d). split; [done|]. apply andb_false_iff in Ein as [?|?]; bprop; lia. }
    cbn [mbind outcome_bind]. unfold move_head. rewrite Z.eqb_refl. exists m0. split; [done|]. split; [done|]. intros y. by rewrite Hv0.
Qed.

Lemma seq_rm_cell_ok m x i : rec_wf m ->
  let r := spec_rec_op (n_rs_seq m) (r_size m) (OpRmCell x i) (view m) in
  exists m', seq_rm_cell x i m = Ok (r.1, m') /\ rec_wf m' /\ forall y, view m' y = r.2 y.
Proof.
  intros Hm. cbv zeta. cbn [spec_rec_op]. unfold seq_rm_cell, at_seq. pose proof (rw_links _ Hm) as Hl.
  destruct (Z.ltb_spec x 0) as [|Hx]; [exists m; done|]. rewrite <- (Z2Nat.id x Hx) in *. set (n := Z.to_nat x) in *. clearbody n. clear Hx x. cbn [orb]. rewrite ?Nat2Z.id.
  destruct (Nat.leb_spec (r_size m) i) as [Hi|Hi].
  { exists m. destruct (view m n) as [[[j p] q]|] eqn:Hv; [|done]. apply view_Some in Hv as (E & _). apply (lk_iff _ Hl), ids_lt in E. fold (r_size m) in E.
    by rewrite (proj2 (Nat.eqb_neq _ _)) by lia. }
  cbv zeta. destruct (cell_at_lt m i Hi) as (c & Hc & Ec). rewrite Ec. cbn [mbind outcome_bind]. unfold has_seq_id at 1. rewrite <- (fld_Some c_seq_id ∅ _ _ _ Hc).
  case_bool_decide as Hin.
  2: { exists m. destruct (view m n) as [[[j p] q]|] eqn:Hv; [|done]. apply view_Some in Hv as (E & _). destruct (Nat.eqb_spec j i) as [->|]; [|done].
    apply (lk_iff _ Hl) in E. done. }
  apply (lk_iff _ Hl) in Hin as Ht. pose proof (tl_lt _ _ _ Ht) as Hn. fold (r_size m) in Hn. cbn [negb]. rewrite on_cell_ok by done. cbn [mbind outcome_bind].
  match goal with |- context [cell_at ?a _] => set (m1 := a) end. assert (r_size m1 = r_size m) as Hs1 by (unfold m1, r_size; simpl; by rewrite length_alter).
  destruct (cell_at_lt m1 i ltac:(lia)) as (c1 & Hc1 & Ec1). rewrite Ec1. cbn [mbind outcome_bind]. rewrite (is_empty_fld _ _ _ Hc1), <- (fld_Some c_pos (-1)%Z _ _ _ Hc1).
  assert (ids (r_cells m1) i = ids (r_cells m) i ∖ {[Z.of_nat n]}) as -> by (unfold m1; cbn [r_cells set_cells]; fields; by rewrite decide_True).
  assert (ps (r_cells m1) i = ps (r_cells m) i) as -> by (unfold m1; cbn [r_cells set_cells]; fields; done).
  pose proof (proj1 (proj2 (rw_cells _ Hm i)) ltac:(set_solver)) as Hp. rewrite (proj2 (Z.leb_le 0 _)) by lia.
  set (emp := bool_decide (ids (r_cells m) i ∖ {[Z.of_nat n]} = ∅)).
  match goal with |- context [?a ≫= _] => assert (exists m2, a = Ok m2 /\ n_rs_seq m2 = n_rs_seq m /\ rs_idx m2 = rs_idx m /\
    r_used m2 = (r_used m - Z.of_nat (Nat.b2n emp))%Z /\ (0 <= r_head m2 < sizeZ m)%Z /\
    r_cells m2 = if emp then alter (fun c => cell_src (-1) (cell_pos (-1) c)) i (r_cells m1) else r_cells m1) as (m2 & -> & E1 & E2 & E3 & E4 & E5) end.
  { pose proof (rw_head _ Hm). pose proof (rw_used _ Hm). pose proof (rw_size _ Hm). pose proof (used_pos (r_cells m) i ltac:(set_solver)). pose proof (used_le (r_cells m)).
    unfold sizeZ, r_size in *. destruct emp.
    - rewrite on_cell_ok by (change (i < length (r_cells m1)); lia). cbn [mbind outcome_bind]. eexists. split; [done|]. cbn [r_head set_cells set_used r_used].
      destruct (Z.ltb_spec (Z.of_nat i) (r_head m1)); cbn [n_rs_seq rs_idx r_used r_head r_cells set_head set_cells set_used]; (split; [done|]; split; [done|]; split; [unfold m1; cbn [r_used set_cells]; rewrite u32_pred by lia; simpl; lia|split; [unfold m1 in *; simpl in *; lia|done]]).
    - exists m1. split; [done|]. split; [done|]. split; [done|]. split; [simpl; lia|]. done. }
  cbn [mbind outcome_bind]. assert (r_size m2 = r_size m) as Hs2 by (unfold r_size; rewrite E5; destruct emp; rewrite ?length_alter; apply Hs1).
  unfold sizeZ. rewrite (proj2 (Z.ltb_lt _ _)) by lia. destruct (cell_at_lt m2 n ltac:(lia)) as (o & Ho & Eo). rewrite Eo. cbn [mbind outcome_bind].
  rewrite <- (fld_Some c_tail (-1)%Z _ _ _ Ho). assert (tl (r_cells m2) n = Z.of_nat i) as ->.
  { rewrite E5. unfold m1. cbn [r_cells set_cells]. destruct emp; fields; done. }
  rewrite Z.eqb_refl, on_cell_ok by lia. cbn [mbind outcome_bind]. set (m3 := set_cells _ m2).
  assert (detached n i (r_cells m) (r_cells m3)) as Hd.
  { unfold m3. cbn [r_cells set_cells]. rewrite E5. unfold m1. cbn [r_cells set_cells]. unfold emp. split; case_bool_decide; try (rewrite !length_alter; done); intros k; fields; repeat case_decide; try done; try tauto; subst; tauto. }
  exists m3. assert (rec_wf m3) as Hm3.
  { apply (rec_wf_intro m); try done.
    - unfold m3; cbn [rs_idx set_cells]. rewrite E2. apply Hm.
    - apply (dt_len _ _ _ _ Hd).
    - by apply (detached_linked n i (r_cells m)).
    - intros k. apply (detached_cell n i (r_cells m)); try done. apply Hm.
    - unfold m3 at 1; cbn [r_used set_cells]. rewrite E3, (rw_used _ Hm). pose proof (detached_used _ _ _ _ Hd Hl Ht) as Hu. fold emp in Hu. lia. }
  rewrite (proj2 (view_Some m n i _ _) (conj Ht (conj eq_refl eq_refl))), Nat.eqb_refl. split; [done|]. split; [done|]. intros y. cbn [snd].
  rewrite (dropped_view m m3 n y); [|done|by apply (detached_dropped n i)]. unfold forget. destruct (Z.eqb_spec (Z.of_nat y) (Z.of_nat n)); case_decide; try done; lia.
Qed.

(** ** Keeping one sequence *)

Section keep.
Context (m : llama_memory_recurrent) (Hm : rec_wf m) (x : Z).

(** After the first [k] cells. *)
Record kept (k : nat) (y : llama_memory_recurrent * Z) : Prop := {
  kp_meta : same_meta m y.1;
  kp_tl : forall i, tl (r_cells y.1) i = if decide (i < k /\ Z.of_nat i <> x) then (-1)%Z else tl (r_cells m) i;
  kp_ids : forall i, ids (r_cells y.1) i = if decide (i < k) then (if decide (x ∈ ids (r_cells m) i) then {[x]} else ∅) else ids (r_cells m) i;
  kp_ps : forall i, ps (r_cells y.1) i = if decide (i < k /\ x ∉ ids (r_cells m) i) then (-1)%Z else ps (r_cells m) i;
  kp_sr : forall i, sr (r_cells y.1) i = if decide (i < k /\ x ∉ ids (r_cells m) i) then (-1)%Z else sr (r_cells m) i;
  kp_used : r_used y.1 = Z.of_nat (used_cells (r_cells y.1));
  kp_head : y.2 = sizeZ m \/ (0 <= y.2 < sizeZ m)%Z
}.

Lemma keep_step_ok k y : k < r_size m -> kept k y -> exists y', keep_step x y k = Ok y' /\ kept (k + 1) y'.
Proof.
  intros Hk [Hs Htl Hids Hps Hsr Hu Hh]. destruct y as [m1 nh]. simpl in *. pose proof (sm_size _ _ Hs) as Hsz. unfold keep_step.
  assert (exists m2, (if negb (Z.of_nat k =? x)%Z then on_cell (Z.of_nat k) (cell_tail (-1)) m1 else Ok m1) = Ok m2 /\ same_meta m1 m2 /\ r_used m2 = r_used m1 /\
    r_cells m2 = if negb (Z.of_nat k =? x)%Z then alter (cell_tail (-1)) k (r_cells m1) else r_cells m1) as (m2 & -> & Hs2 & Hu2 & Hc2).
  { destruct (negb _); [|exists m1; done]. rewrite on_cell_ok by lia. eexists. split; [done|]. split; [|done]. split; try done. unfold r_size; simpl. by rewrite length_alter. }
  cbn [mbind outcome_bind]. pose proof (sm_size _ _ Hs2) as Hsz2. destruct (cell_at_lt m2 k ltac:(lia)) as (c & Hc & Ec). rewrite Ec. cbn [mbind outcome_bind].
  unfold has_seq_id. rewrite <- (fld_Some c_seq_id ∅ _ _ _ Hc), <- (fld_Some c_pos (-1)%Z _ _ _ Hc).
  assert (k < length (r_cells m1)) as Hk1 by (unfold r_size in *; lia).
  assert (forall i, tl (r_cells m2) i = if decide (i < k + 1 /\ Z.of_nat i <> x) then (-1)%Z else tl (r_cells m) i) as Ht2.
  { intros i. rewrite Hc2. destruct (Z.eqb_spec (Z.of_nat k) x) as [E|E]; simpl; [|fields]; rewrite Htl; repeat case_decide; try done; try (assert (i = k) as -> by lia; done); lia. }
  assert (forall i, ids (r_cells m2) i = ids (r_cells m1) i /\ ps (r_cells m2) i = ps (r_cells m1) i /\ sr (r_cells m2) i = sr (r_cells m1) i) as Hsame.
  { intros i. rewrite Hc2. destruct (negb _); [|done]. split; [by fields|]. split; by fields. }
  destruct (Hsame k) as (E1 & E2 & _). rewrite E1, E2, Hids, Hps. rewrite decide_False, decide_False by lia.
  pose proof (rw_cells _ Hm k) as (P1 & P2 & _). pose proof (used_le (r_cells m1)). pose proof (rw_size _ Hm) as Hz. unfold sizeZ in Hz.
  assert (used_cells (r_cells m2) = used_cells (r_cells m1)) as Hu12.
  { rewrite !used_cells_fld. change (length (r_cells m2)) with (r_size m2). rewrite Hsz2. unfold cnt. f_equal. apply List.filter_ext. intros i. unfold in_use. by rewrite (proj1 (Hsame i)). }
  case_bool_decide as Hin; cbn [negb].
  - rewrite on_cell_ok by lia. cbn [mbind outcome_bind]. eexists. split; [done|]. cbn [fst snd]. assert (k < length (r_cells m2)) by (unfold r_size in *; lia).
    assert (forall i, ids (alter (cell_seqs {[x]}) k (r_cells m2)) i = if decide (i < k + 1) then (if decide (x ∈ ids (r_cells m) i) then {[x]} else ∅) else ids (r_cells m) i) as Hids'.
    { intros i. fields. rewrite (proj1 (Hsame i)), Hids. destruct (decide (i = k)) as [->|]; [by rewrite !decide_True by (try done; lia)|]. repeat case_decide; try done; lia. }
    split; cbn [fst snd r_cells set_cells r_used].
    + etrans; [done|]. etrans; [done|]. split; try done. unfold r_size; simpl. by rewrite length_alter.
    + intros i. fields. apply Ht2.
    + done.
    + intros i. fields. rewrite (proj1 (proj2 (Hsame i))), Hps. destruct (decide (i = k)) as [->|]; [by rewrite !decide_False by tauto|]. assert (i < k + 1 <-> i < k) by lia. repeat case_decide; try done; tauto.
    + intros i. fields. rewrite (proj2 (proj2 (Hsame i))), Hsr. destruct (decide (i = k)) as [->|]; [by rewrite !decide_False by tauto|]. assert (i < k + 1 <-> i < k) by lia. repeat case_decide; try done; tauto.
    + rewrite Hu2, Hu, <- Hu12. f_equal.
      assert (used_cells (alter (cell_seqs {[x]}) k (r_cells m2)) + Nat.b2n (in_use (r_cells m2) k) = used_cells (r_cells m2) + Nat.b2n (in_use (alter (cell_seqs {[x]}) k (r_cells m2)) k)) as H'.
      { apply used_change; [by rewrite length_alter|]. intros i Hi. fields. by rewrite decide_False. }
      unfold in_use in H'. rewrite Hids', decide_True, decide_True, E1, Hids, decide_False, !bool_decide_eq_false_2 in H' by (try done; try lia; set_solver). simpl in H'. lia.
    + done.
  - set (m3 := if (0 <=? _)%Z then _ else m2). assert (r_cells m3 = r_cells m2 /\ same_meta m2 m3) as [Hc3 Hs3] by (unfold m3; destruct (0 <=? _)%Z; done).
    pose proof (sm_size _ _ Hs3). rewrite on_cell_ok by lia. cbn [mbind outcome_bind]. eexists. split; [done|]. cbn [fst snd].
    assert (k < length (r_cells m2)) by (unfold r_size in *; lia). rewrite Hc3. set (l := alter _ k (r_cells m2)).
    assert (forall i, ids l i = if decide (i < k + 1) then (if decide (x ∈ ids (r_cells m) i) then {[x]} else ∅) else ids (r_cells m) i) as Hids'.
    { intros i. unfold l. fields. rewrite (proj1 (Hsame i)), Hids. destruct (decide (i = k)) as [->|]; [by rewrite decide_True, decide_False by (try done; lia)|]. repeat case_decide; try done; lia. }
    split; cbn [fst snd r_cells set_cells r_used].
    + etrans; [done|]. etrans; [done|]. etrans; [done|]. split; try done. unfold r_size, l; simpl. by rewrite length_alter, Hc3.
    + intros i. unfold l. fields. apply Ht2.
    + done.
    + intros i. unfold l. fields. rewrite (proj1 (proj2 (Hsame i))), Hps. destruct (decide (i = k)) as [->|]; [by rewrite decide_True by (split; [lia|done])|]. assert (i < k + 1 <-> i < k) by lia. repeat case_decide; try done; tauto.
    + intros i. unfold l. fields. rewrite (proj2 (proj2 (Hsame i))), Hsr. destruct (decide (i = k)) as [->|]; [by rewrite decide_True by (split; [lia|done])|]. assert (i < k + 1 <-> i < k) by lia. repeat case_decide; try done; tauto.
    + assert (used_cells l + Nat.b2n (in_use (r_cells m2) k) = used_cells (r_cells m2) + Nat.b2n (in_use l k)) as H'.
      { apply used_change; [unfold l; by rewrite length_alter|]. intros i Hi. unfold l. fields. by rewrite decide_False. }
      unfold in_use in H'. rewrite Hids', decide_True, decide_False, E1, Hids, decide_False, (bool_decide_eq_true_2 (∅ = ∅)) in H' by (try done; lia). simpl in H'.
      unfold m3. case_bool_decide as Hemp; simpl in H'.
      * rewrite (P1 Hemp). simpl. lia.
      * destruct (P2 Hemp). rewrite (proj2 (Z.leb_le 0 _)) by lia. simpl. rewrite Hu2, Hu. rewrite u32_pred; unfold r_size in *; lia.
    + unfold sizeZ in *. destruct (Z.eqb_spec nh (Z.of_nat (r_size (set_cells l m3)))); simpl; [right; lia|tauto].
Qed.

Lemma seq_keep_ok : exists m', seq_keep x m = Ok m' /\ rec_wf m' /\ forall y, view m' y = if (Z.of_nat y =? x)%Z then view m y else None.
Proof.
  pose proof (rw_links _ Hm) as Hl. unfold seq_keep. destruct (foldM_seq (keep_step x) kept 0 (r_size m) (m, sizeZ m)) as ([m2 nh] & -> & [Hs Htl Hids Hps Hsr Hu Hh]).
  - split; simpl; try done; [apply Hm|by left].
  - intros k s Hk. apply keep_step_ok. lia.
  - simpl in *. cbn [mbind outcome_bind].
    assert (forall i, tl (r_cells m2) i = if decide (Z.of_nat i = x) then tl (r_cells m) i else (-1)%Z) as Ht.
    { intros i. rewrite Htl. destruct (decide (i < r_size m)); repeat case_decide; try done; try tauto. rewrite fld_ge by (unfold r_size in *; lia). done. }
    assert (forall i, ids (r_cells m2) i = if decide (x ∈ ids (r_cells m) i) then {[x]} else ∅) as Hi.
    { intros i. rewrite Hids. case_decide; [done|]. rewrite fld_ge by (unfold r_size in *; lia). case_decide; set_solver. }
    assert (rec_wf m2) as Hm2.
    { apply (rec_wf_meta m); try done.
      - split.
        + intros s j. rewrite Ht, Hi. case_decide as E1; case_decide as E2.
          * subst. apply (lk_iff _ Hl) in E2 as E3. rewrite E3. set_solver.
          * split; [|set_solver]. intros E3%(lk_iff _ Hl). subst. done.
          * split; [lia|]. set_solver.
          * split; [lia|set_solver].
        + intros s. rewrite Ht. case_decide; [apply (lk_tl _ Hl)|lia].
        + intros j z. rewrite Hi. case_decide as E; [|set_solver]. intros ->%elem_of_singleton. by apply (lk_id _ Hl j).
      - intros j. destruct (rw_cells _ Hm j) as (P1 & P2 & P3). unfold cell_ok. rewrite Hi, Hps, Hsr. case_decide as E.
        + rewrite !decide_False by tauto. split; [set_solver|]. split; [|done]. intros _. apply P2. set_solver.
        + assert (j < r_size m \/ ps (r_cells m) j = (-1)%Z /\ sr (r_cells m) j = (-1)%Z) as [Hj|[Hj1 Hj2]].
          { destruct (decide (j < r_size m)); [by left|right]. rewrite !fld_ge by (unfold r_size in *; lia). done. }
          * rewrite !decide_True by done. split; [done|]. split; [done|by left].
          * rewrite Hj1, Hj2. destruct (decide _); (split; [done|]; split; [done|by left]). }
    destruct (move_head_ok m2 nh Hm2) as [Hw Hv].
    { unfold sizeZ in *. rewrite (sm_size _ _ Hs). done. }
    exists (move_head (m2, nh)). split; [done|]. split; [done|]. intros y. rewrite Hv. destruct (Z.eqb_spec (Z.of_nat y) x) as [E|E].
    + apply view_ext; [done|by rewrite Ht, decide_True|]. intros j Hj. rewrite E in Hj. by rewrite Hps, Hsr, !decide_False by tauto.
    + apply view_None; [apply Hm2|]. by rewrite Ht, decide_False.
Qed.
End keep.
