(* ===== verification/RecurrentFind.v ===== *)
(** * Finding a slot in the recurrent memory: checking and taking cells

    The first two phases of [find_slot]: sequences that become shared leave their cells,
    then every sequence of the ubatch gets a cell of its own.  There is always an empty
    cell when one is needed: with as many cells as sequences, a sequence without a cell of
    its own leaves a cell that is nobody's tail. *)

From S2P Require Import KvCells BatchInit.
From S2P Require Export RecurrentOps.
Open Scope nat_scope.

(** ** The ubatch *)

(** Sequence sets (as natural numbers) with the last position of each. *)
Record rec_ubatch (u : llama_ubatch) (size : nat) (rows : list (list nat * Z)) : Prop := {
  ru_equal : u_equal_seqs u = true;
  ru_tokens : 0 < u_n_seq_tokens u;
  ru_n : u_n_seqs u = length rows /\ 0 < length rows;
  ru_row : forall s ws p, rows !! s = Some (ws, p) ->
    let i := s * u_n_seq_tokens u in
    u_n_seq_id u !! i = Some (Z.of_nat (length ws)) /\ u_seq_id u !! i = Some (Z.of_nat <$> ws) /\ ws <> [] /\
    u_pos u !! (i + u_n_seq_tokens u - 1) = Some p /\ (0 <= p <= INT32_MAX)%Z;
  ru_nodup : NoDup (concat rows.*1);
  ru_lt : Forall (fun x => x < size) (concat rows.*1)
}.

Definition firsts (rows : list (list nat * Z)) : list nat := (fun x => default 0 (head x.1)) <$> rows.
Definition shared (rows : list (list nat * Z)) : list nat := concat ((fun x => tail x.1) <$> rows).

Lemma u_seq_ok u size rows s ws p j x : rec_ubatch u size rows -> rows !! s = Some (ws, p) -> ws !! j = Some x ->
  u_seq u (s * u_n_seq_tokens u) j = Ok (Z.of_nat x).
Proof.
  intros Hu Hs Hj. destruct (ru_row _ _ _ Hu s ws p Hs) as (_ & E & _). unfold u_seq. rewrite (vec_get_Some _ _ _ E). cbn [mbind outcome_bind].
  apply vec_get_Some. by rewrite list_lookup_fmap, Hj.
Qed.

Lemma row_elem (rows : list (list nat * Z)) s ws p x : rows !! s = Some (ws, p) -> x ∈ ws -> x ∈ concat rows.*1.
Proof.
  intros Hs Hx. apply list_elem_of_In, in_concat. exists ws. split; apply list_elem_of_In; [|done]. apply list_elem_of_fmap. exists (ws, p). split; [done|].
  by eapply list_elem_of_lookup_2.
Qed.

Lemma u_id_lt u size rows s ws p x : rec_ubatch u size rows -> rows !! s = Some (ws, p) -> x ∈ ws -> x < size.
Proof. intros Hu Hs Hx. pose proof (ru_lt _ _ _ Hu) as H. rewrite Forall_forall in H. apply H. by eapply row_elem. Qed.

(** ** Sequences that become shared *)

(** The sequences [xs] have left their cells. *)
Record trimmed (xs : list nat) (m m' : llama_memory_recurrent) : Prop := {
  tm_wf : rec_wf m';
  tm_meta : same_meta m m';
  tm_view : forall y, view m' y = if decide (y ∈ xs) then None else view m y;
  tm_empty : forall i, ids (r_cells m') i = ∅ -> sr (r_cells m') i = (-1)%Z \/ (ids (r_cells m) i = ∅ /\ sr (r_cells m') i = sr (r_cells m) i)
}.

Lemma trimmed_nil m : rec_wf m -> trimmed [] m m.
Proof. intros Hm. split; try done. intros i Hi. by right. Qed.

Lemma trimmed_snoc xs m m1 x : trimmed xs m m1 -> x < r_size m ->
  exists m2, drop_shared (Z.of_nat x) m1 = Ok m2 /\ trimmed (xs ++ [x]) m m2.
Proof.
  intros [Hw Hs Hv He] Hx. destruct (drop_shared_ok m1 x Hw) as (m2 & E & Hw2 & Hs2 & Hd); [by rewrite (sm_size _ _ Hs)|].
  exists m2. split; [done|]. split; [done|by etrans| |].
  - intros y. rewrite (dropped_view m1 m2 x y); [|apply Hw|done]. rewrite Hv. destruct (decide (y = x)) as [->|Hn].
    + rewrite decide_True; [done|]. apply elem_of_app. right. by apply list_elem_of_singleton.
    + destruct (decide (y ∈ xs)); [rewrite decide_True; [done|apply elem_of_app; by left]|]. rewrite decide_False; [done|].
      rewrite elem_of_app, list_elem_of_singleton. tauto.
  - intros i Hi. destruct (dr_emptied _ _ _ Hd i Hi) as [|[H1 H2]]; [by left|]. destruct (He i H1) as [|[H3 H4]]; [left; congruence|right]. split; [done|congruence].
Qed.

Section check.
Context (u : llama_ubatch) (m : llama_memory_recurrent) (rows : list (list nat * Z)).
Context (Hm : rec_wf m) (Hu : rec_ubatch u (r_size m) rows).

Lemma check_ids_ok xs s ws p m1 : rows !! s = Some (ws, p) -> trimmed xs m m1 ->
  exists m2, foldM (check_id u (s * u_n_seq_tokens u)) (seq 0 (length ws)) (true, m1) = Ok (true, m2) /\ trimmed (xs ++ tail ws) m m2.
Proof.
  intros Hs Ht. destruct ws as [|x0 ws']; [by destruct (ru_row _ _ _ Hu s _ p Hs) as (_ & _ & ? & _)|]. cbn [length tail].
  assert (forall j x y, (x0 :: ws') !! j = Some x -> r_size y.2 = r_size m -> y.1 = true -> check_id u (s * u_n_seq_tokens u) y j =
    if 0 <? j then m ← drop_shared (Z.of_nat x) y.2; Ok (true, m) else Ok (true, y.2)) as Hstep.
  { intros j x [b y] Hj Hy Hb. simpl in *. subst b. unfold check_id. cbn [negb]. rewrite (u_seq_ok u _ rows s _ p j x Hu Hs Hj). cbn [mbind outcome_bind].
    pose proof (u_id_lt u _ rows s _ p x Hu Hs ltac:(by eapply list_elem_of_lookup_2)). unfold sizeZ. rewrite Hy.
    by rewrite (proj2 (Z.ltb_ge _ _)), (proj2 (Z.leb_gt _ _)) by lia. }
  cbn [seq foldM]. rewrite (Hstep 0 x0); [|done|by apply Ht|done]. cbn [Nat.ltb Nat.leb mbind outcome_bind snd].
  destruct (foldM_seq (check_id u (s * u_n_seq_tokens u)) (fun k y => y.1 = true /\ trimmed (xs ++ take (k - 1) ws') m y.2) 1 (length ws') (true, m1)) as ([b m2] & E & H1 & H2).
  - simpl. by rewrite app_nil_r.
  - intros k [b y] Hk [H1 H2]. simpl in H1, H2. subst b. destruct (lookup_lt_is_Some_2 ws' (k - 1) ltac:(lia)) as [x Hx].
    rewrite (Hstep k x); [|by destruct k; [lia|simpl; rewrite <- Hx; f_equal; lia]|by apply H2|done]. rewrite (proj2 (Nat.ltb_lt 0 k)) by lia. simpl.
    destruct (trimmed_snoc _ _ _ x H2) as (y' & E & Ht').
    { eapply (u_id_lt u _ rows s _ p); [done|done|]. right. by eapply list_elem_of_lookup_2. }
    rewrite E. cbn [mbind outcome_bind]. eexists. split; [done|]. split; [done|]. simpl. replace (k + 1 - 1) with (S (k - 1)) by lia.
    rewrite (take_S_r _ _ _ Hx), app_assoc. done.
  - simpl in *. subst b. exists m2. split; [done|]. by rewrite Nat.sub_0_r, take_ge in H2 by lia.
Qed.

Lemma check_sets_ok : exists m1, check_sets u m = Ok (true, m1) /\ trimmed (shared rows) m m1.
Proof.
  unfold check_sets. rewrite (proj1 (ru_n _ _ _ Hu)).
  destruct (foldM_seq (check_set u) (fun k y => y.1 = true /\ trimmed (shared (take k rows)) m y.2) 0 (length rows) (true, m)) as ([b m1] & E & H1 & H2).
  - split; [done|]. by apply trimmed_nil.
  - intros k [b y] Hk [H1 H2]. simpl in H1, H2. subst b. destruct (lookup_lt_is_Some_2 rows k ltac:(lia)) as [[ws p] Hx].
    unfold check_set. cbn [fst negb]. destruct (ru_row _ _ _ Hu k ws p Hx) as (E & _). cbv zeta. rewrite (vec_get_Some _ _ _ E). cbn [mbind outcome_bind].
    rewrite Nat2Z.id. destruct (check_ids_ok _ _ _ _ _ Hx H2) as (m2 & E2 & Ht2). exists (true, m2). split; [done|]. split; [done|]. simpl.
    rewrite Nat.add_1_r, (take_S_r _ _ _ Hx). unfold shared in *. rewrite fmap_app, concat_app. simpl. by rewrite app_nil_r.
  - simpl in *. subst b. exists m1. split; [done|]. by rewrite take_ge in H2 by lia.
Qed.
End check.

(** ** Searching an empty cell *)

Definition wrap (n j : nat) : nat := if n <=? j then j - n else j.

Lemma u32_nat a : (0 <= a <= INT32_MAX + INT32_MAX)%Z -> u32 a = a.
Proof. intros H. apply u32_id. unfold UINT32_MAX, INT32_MAX in *. lia. Qed.

Section scan.
Context (l : list mem_cell) (Hn : (Z.of_nat (length l) <= INT32_MAX)%Z).

Lemma wrap_Z e : e < 2 * length l ->
  (if (Z.of_nat (length l) <=? Z.of_nat e)%Z then u32 (Z.of_nat e - Z.of_nat (length l)) else Z.of_nat e) = Z.of_nat (wrap (length l) e).
Proof.
  intros He. unfold wrap. destruct (Z.leb_spec (Z.of_nat (length l)) (Z.of_nat e)), (Nat.leb_spec (length l) e); try lia. rewrite u32_nat; [lia|]. unfold INT32_MAX in *. lia.
Qed.

Lemma empty_at e : e < length l -> exists c, arr_get l (Z.of_nat e) = Ok c /\ is_empty c = bool_decide (ids l e = ∅).
Proof. intros [c Hc]%lookup_lt_is_Some_2. exists c. split; [by apply arr_get_Z|by apply is_empty_fld]. Qed.

(** The first search: an empty cell when there is one. *)
Lemma first_empty_ok t : forall e, e <= length l -> t <= length l ->
  exists z, first_empty t l (Z.of_nat e) = Ok z /\
    ((exists e', z = Z.of_nat e' /\ e' < length l /\ ids l e' = ∅) \/ forall i, i < t -> ids l (wrap (length l) (e + i)) <> ∅).
Proof.
  induction t as [|t IH]; intros e He Ht; simpl.
  - exists (Z.of_nat e). split; [done|]. right. lia.
  - rewrite wrap_Z by lia. set (e1 := wrap (length l) e). assert (e1 < length l) as He1 by (unfold e1, wrap; destruct (Nat.leb_spec (length l) e); lia).
    destruct (empty_at e1 He1) as (c & -> & Hc). cbn [mbind outcome_bind]. rewrite Hc. case_bool_decide as E.
    + eexists. split; [done|]. left. by exists e1.
    + rewrite u32_nat by (unfold INT32_MAX in *; lia). replace (Z.of_nat e1 + 1)%Z with (Z.of_nat (e1 + 1)) by lia.
      destruct (IH (e1 + 1) ltac:(lia) ltac:(lia)) as (z & -> & H). exists z. split; [done|]. destruct H as [|H]; [by left|]. right. intros i Hi.
      destruct i as [|i]; [by rewrite Nat.add_0_r|]. specialize (H i ltac:(lia)). replace (wrap (length l) (e + S i)) with (wrap (length l) (e1 + 1 + i)); [done|].
      unfold e1, wrap. destruct (Nat.leb_spec (length l) e), (Nat.leb_spec (length l) (e + S i)); try (destruct (Nat.leb_spec (length l) (e - length l + 1 + i)); lia); destruct (Nat.leb_spec (length l) (e + 1 + i)); lia.
Qed.

Lemma first_empty_full e : e <= length l -> exists z, first_empty (length l) l (Z.of_nat e) = Ok z /\
  ((exists e', z = Z.of_nat e' /\ e' < length l /\ ids l e' = ∅) \/ forall j, j < length l -> ids l j <> ∅).
Proof.
  intros He. destruct (first_empty_ok (length l) e He ltac:(lia)) as (z & E & H). exists z. split; [done|]. destruct H as [|H]; [by left|]. right. intros j Hj.
  destruct (decide (e <= j)).
  - specialize (H (j - e) ltac:(lia)). unfold wrap in H. replace (e + (j - e)) with j in H by lia. by rewrite (proj2 (Nat.leb_gt _ _)) in H by lia.
  - specialize (H (j + length l - e) ltac:(lia)). unfold wrap in H. replace (e + (j + length l - e)) with (j + length l) in H by lia.
    rewrite (proj2 (Nat.leb_le _ _)) in H by lia. by replace (j + length l - length l) with j in H by lia.
Qed.

(** The later searches: the next empty cell on the ring, or none on the whole ring. *)
Lemma next_empty_ok t : forall e, e < length l -> t <= length l ->
  exists e', next_empty t l (Z.of_nat e) = Ok (Z.of_nat e') /\ e' < length l /\
    ((exists k, 1 <= k <= t /\ e' = wrap (length l) (e + k) /\ ids l e' = ∅ /\ forall i, 1 <= i < k -> ids l (wrap (length l) (e + i)) <> ∅) \/
     (forall i, 1 <= i <= t -> ids l (wrap (length l) (e + i)) <> ∅)).
Proof.
  induction t as [|t IH]; intros e He Ht; simpl.
  - exists e. split; [done|]. split; [done|]. right. lia.
  - rewrite u32_nat by (unfold INT32_MAX in *; lia). replace (Z.of_nat e + 1)%Z with (Z.of_nat (e + 1)) by lia. rewrite wrap_Z by lia.
    set (e1 := wrap (length l) (e + 1)). assert (e1 < length l) as He1 by (unfold e1, wrap; destruct (Nat.leb_spec (length l) (e + 1)); lia).
    destruct (empty_at e1 He1) as (c & -> & Hc). cbn [mbind outcome_bind]. rewrite Hc. case_bool_decide as E.
    + exists e1. split; [done|]. split; [done|]. left. exists 1. split; [lia|]. split; [done|]. split; [done|]. lia.
    + destruct (IH e1 He1 ltac:(lia)) as (e' & -> & He' & H). exists e'. split; [done|]. split; [done|].
      assert (forall i, i <= t -> wrap (length l) (e1 + i) = wrap (length l) (e + S i)) as Hw.
      { intros i Hi. unfold e1, wrap. destruct (Nat.leb_spec (length l) (e + 1)), (Nat.leb_spec (length l) (e + S i)); try lia;
          [destruct (Nat.leb_spec (length l) (e + 1 - length l + i)); lia|destruct (Nat.leb_spec (length l) (e + 1 + i)); lia..]. }
      destruct H as [(k & Hk & E' & Hemp & H)|H]; [left; exists (S k)|right].
      * rewrite Hw in E' by lia. split; [lia|]. split; [done|]. split; [done|]. intros i Hi. destruct i as [|[|i]]; [lia|done|].
        rewrite <- Hw by lia. apply H. lia.
      * intros i Hi. destruct i as [|[|i]]; [lia|done|]. rewrite <- Hw by lia. apply H. lia.
Qed.
End scan.

(** ** Counting cells *)

(** As many values as arguments: onto means one-to-one, and every argument has a value. *)
Lemma pigeon (t : nat -> Z) n : (forall j, j < n -> exists y, y < n /\ t y = Z.of_nat j) ->
  (forall y, y < n -> (0 <= t y)%Z) /\ (forall y z, y < n -> z < n -> t y = t z -> y = z).
Proof.
  intros H. set (l := Z.of_nat <$> seq 0 n). set (l' := t <$> seq 0 n).
  assert (NoDup l) as Hl by (apply NoDup_fmap_2; [intros a b; lia|apply NoDup_seq]).
  assert (List.incl l l') as Hin.
  { intros z Hz. apply list_elem_of_In, list_elem_of_fmap in Hz as (j & -> & Hj). apply elem_of_seq in Hj. destruct (H j ltac:(lia)) as (y & Hy & E).
    apply list_elem_of_In, list_elem_of_fmap. exists y. split; [done|]. apply elem_of_seq. lia. }
  assert (length l' <= length l) as Hlen by (unfold l, l'; rewrite !length_fmap; done).
  assert (List.NoDup l') as Hnd by (apply (NoDup_incl_NoDup (l := l)); [by apply NoDup_ListNoDup|done|done]).
  assert (List.incl l' l) as Hin' by (apply NoDup_length_incl; [by apply NoDup_ListNoDup|done|done]).
  split.
  - intros y Hy. assert (In (t y) l) as Hz. { apply Hin', list_elem_of_In, list_elem_of_fmap_2, elem_of_seq. lia. }
    apply list_elem_of_In, list_elem_of_fmap in Hz as (j & -> & _). lia.
  - intros y z Hy Hz E. apply NoDup_ListNoDup in Hnd. apply (NoDup_lookup l' y z (t y) Hnd); unfold l'; rewrite list_lookup_fmap, lookup_seq_lt by done; simpl; by rewrite ?E.
Qed.
