(* ===== verification/RecurrentTake.v ===== *)
(** * Finding a slot in the recurrent memory: a cell for every sequence

    The loop of [find_slot] that gives every sequence of the ubatch a cell of its own. *)

From S2P Require Import KvCells BatchInit.
From S2P Require Export RecurrentFind.
Open Scope nat_scope.

(** Sequence [q] takes the empty cell [e], with the state of its old cell [o] if it had one. *)
Record taken (q e : nat) (o : option nat) (l l' : list mem_cell) : Prop := {
  tk_len : length l' = length l;
  tk_tl : forall y, tl l' y = if decide (y = q) then Z.of_nat e else tl l y;
  tk_ids : forall i, ids l' i = match o with
    | Some o => if decide (i = e) then {[Z.of_nat q]} else if decide (i = o) then ids l i ∖ {[Z.of_nat q]} else ids l i
    | None => ids l i end;
  tk_ps : forall i, ps l' i = match o with Some o => if decide (i = e) then ps l o else ps l i | None => ps l i end;
  tk_sr : forall i, sr l' i = match o with Some o => if decide (i = e) then sr l o else sr l i | None => sr l i end
}.

Lemma take_empty_ok m q e : q < r_size m -> e < r_size m -> ids (r_cells m) e = ∅ ->
  tl (r_cells m) q = (-1)%Z \/ (exists o, tl (r_cells m) q = Z.of_nat o /\ o < r_size m /\ ids (r_cells m) o ∖ {[Z.of_nat q]} <> ∅) ->
  exists m' o, take_empty (Z.of_nat q) (Z.of_nat e) m = Ok m' /\ same_meta m m' /\
    (o = None /\ tl (r_cells m) q = (-1)%Z \/ exists j, o = Some j /\ tl (r_cells m) q = Z.of_nat j) /\
    taken q e o (r_cells m) (r_cells m').
Proof.
  intros Hq He Hemp Ht. unfold take_empty. destruct (cell_at_lt m e He) as (ce & Hce & Ece). rewrite Ece. cbn [mbind outcome_bind].
  rewrite (is_empty_fld _ _ _ Hce), bool_decide_eq_true_2 by done. cbn [assert_ mbind outcome_bind].
  destruct (cell_at_lt m q Hq) as (cq & Hcq & Ecq). rewrite Ecq. cbn [mbind outcome_bind]. rewrite <- (fld_Some c_tail (-1)%Z _ _ _ Hcq).
  destruct Ht as [Ht|(o & Ht & Ho & Hne)]; rewrite Ht.
  - cbn [Z.leb Z.compare mbind outcome_bind]. rewrite on_cell_ok by done. eexists _, None. split; [done|]. split; [|split; [by left|]].
    + split; try done. unfold r_size; simpl. by rewrite length_alter.
    + cbn [r_cells set_cells]. split; [by rewrite length_alter|intros y; fields; done..].
  - rewrite (proj2 (Z.leb_le 0 (Z.of_nat o))) by lia. destruct (cell_at_lt m o Ho) as (co & Hco & Eco). rewrite Eco. cbn [mbind outcome_bind].
    assert (e <> o) as Heo by (intros ->; apply Hne; rewrite Hemp; set_solver).
    rewrite on_cell_ok by done. cbn [mbind outcome_bind]. rewrite on_cell_ok by (rewrite r_size_set, length_alter; done). cbn [mbind outcome_bind r_cells set_cells].
    rewrite on_cell_ok by (rewrite r_size_set, !length_alter; done). cbn [mbind outcome_bind r_cells set_cells].
    match goal with |- context [cell_at ?a _] => set (m1 := a) end.
    assert (r_size m1 = r_size m) as Hs by (unfold m1, r_size; simpl; by rewrite !length_alter).
    destruct (cell_at_lt m1 o ltac:(lia)) as (c1 & Hc1 & Ec1). rewrite Ec1. cbn [mbind outcome_bind]. rewrite (is_empty_fld _ _ _ Hc1).
    assert (ids (r_cells m1) o = ids (r_cells m) o ∖ {[Z.of_nat q]}) as ->.
    { unfold m1. cbn [r_cells set_cells]. fields. rewrite decide_False, decide_True by done. done. }
    rewrite bool_decide_eq_false_2 by done. cbn [negb assert_ mbind outcome_bind]. rewrite on_cell_ok by lia. eexists _, (Some o). split; [done|].
    split; [|split; [right; by exists o|]].
    + split; try done. unfold r_size; simpl. by rewrite !length_alter.
    + cbn [r_cells set_cells]. unfold m1. cbn [r_cells set_cells]. split; [by rewrite !length_alter|intros y; fields; try done..].
      * destruct (decide (y = e)) as [->|]; [|done]. rewrite decide_False by done. rewrite Hemp. set_solver.
      * case_decide; [|done]. by rewrite (fld_Some c_pos (-1)%Z _ _ _ Hco).
      * case_decide; [|done]. by rewrite (fld_Some c_src (-1)%Z _ _ _ Hco).
Qed.

Definition occupied (l : list mem_cell) (j : nat) : Prop := exists y, tl l y = Z.of_nat j.

#[export] Instance occupied_dec l j : Decision (occupied l j).
Proof.
  destruct (decide (Exists (fun c => c_tail c = Z.of_nat j) l)) as [H|H]; [left|right].
  - apply Exists_exists in H as (c & Hc & E). apply list_elem_of_lookup in Hc as [y Hy]. exists y. by rewrite (fld_Some _ _ _ _ _ Hy).
  - intros [y Hy]. pose proof (tl_lt _ _ _ Hy) as [c Hc]%lookup_lt_is_Some_2. apply H, Exists_exists. exists c. split; [by eapply list_elem_of_lookup_2|].
    by rewrite (fld_Some _ _ _ _ _ Hc) in Hy.
Qed.

(** Distance on the ring of cells. *)
Definition dist (n h j : nat) : nat := if h <=? j then j - h else j + n - h.

Section find.
Context (m0 : llama_memory_recurrent) (Hm0 : rec_wf m0).
Let l0 := r_cells m0.
Let n := length l0.
Context (fs : list nat) (Hfs : NoDup fs) (Hlt : Forall (fun q => q < n) fs).

(** The tails and sets while cells are being taken: a taken cell is the tail of its
    sequence only, and empty when the sequence had no state. *)
Record cells_inv (s : nat) (l : list mem_cell) : Prop := {
  ci_len : length l = n;
  ci_in : forall y j, Z.of_nat y ∈ ids l j -> tl l y = Z.of_nat j;
  ci_id : forall j z, z ∈ ids l j -> (0 <= z)%Z;
  ci_out : forall y j, tl l y = Z.of_nat j -> Z.of_nat y ∈ ids l j \/ (ids l j = ∅ /\ tl l0 y = (-1)%Z /\ y ∈ take s fs);
  ci_range : forall y, (-1 <= tl l y < Z.of_nat n)%Z;
  ci_done : forall y, y ∈ take s fs -> (0 <= tl l y)%Z /\ forall z, tl l z = tl l y -> z = y;
  ci_rest : forall y, y ∉ take s fs -> tl l y = tl l0 y;
  ci_flow : forall y j0, tl l0 y = Z.of_nat j0 -> exists j, tl l y = Z.of_nat j /\ ps l j = ps l0 j0 /\ sr l j = sr l0 j0;
  ci_new : forall y j, tl l0 y = (-1)%Z -> tl l y = Z.of_nat j -> ids l0 j = ∅ /\ ps l j = (-1)%Z /\ sr l j = sr l0 j;
  ci_same : forall j, (forall y, y ∈ take s fs -> tl l y <> Z.of_nat j) -> (ids l j = ∅ <-> ids l0 j = ∅) /\ ps l j = ps l0 j /\ sr l j = sr l0 j;
  ci_src : forall j, sr l j = (-1)%Z \/ sr l j = Z.of_nat j \/ exists o, sr l j = Z.of_nat o /\ ids l o <> ∅;
  ci_free : (forall j, sr l j = sr l0 j) \/ exists y, y ∈ take s fs /\ forall j, sr l j <> tl l y
}.

(** Where the search stands: the next cell is free and every free cell is at or after it,
    every taken empty cell before it; or no cell is free. *)
Definition next_inv (h : nat) (l : list mem_cell) (z : Z) : Prop :=
  (exists e, z = Z.of_nat e /\ e < n /\ ids l e = ∅ /\ ~ occupied l e /\
     (forall j, j < n -> ~ occupied l j -> dist n h e <= dist n h j) /\
     (forall j, j < n -> ids l j = ∅ -> occupied l j -> dist n h j < dist n h e)) \/
  (forall j, j < n -> occupied l j).

Lemma n_size : (Z.of_nat n <= INT32_MAX)%Z.
Proof. apply (rw_size _ Hm0). Qed.

Lemma occupied_nonempty s l j : cells_inv s l -> ids l j <> ∅ -> occupied l j.
Proof.
  intros Hi Hne. destruct (set_choose_L _ Hne) as [z Hz]. pose proof (ci_id _ _ Hi j z Hz). exists (Z.to_nat z). apply (ci_in _ _ Hi). by rewrite Z2Nat.id.
Qed.

Lemma cells_inv_0 : cells_inv 0 l0.
Proof.
  pose proof (rw_links _ Hm0) as Hl. split; try done.
  - intros y j H. by apply (lk_iff _ Hl).
  - apply (lk_id _ Hl).
  - intros y j H. left. by apply (lk_iff _ Hl).
  - intros y. split; [apply (lk_tl _ Hl)|]. unfold n, l0. destruct (linked_cases _ y Hl) as [E|(j & E & _ & Hj & _)]; rewrite E; lia.
  - simpl. intros y Hy. by apply not_elem_of_nil in Hy.
  - intros y j0 E. by exists j0.
  - intros y j E E'. lia.
  - intros j. destruct (rw_cells _ Hm0 j) as (_ & _ & [?|?]); tauto.
  - by left.
Qed.

Section step.
Context (s q : nat) (Hq : fs !! s = Some q).
Context (l : list mem_cell) (Hi : cells_inv s l).

Lemma q_fresh : q ∉ take s fs.
Proof. intros H. apply elem_of_take in H as (i & H & Hs). pose proof (NoDup_lookup _ _ _ _ Hfs H Hq). lia. Qed.

Lemma q_lt : q < n.
Proof. rewrite Forall_forall in Hlt. apply Hlt. by eapply list_elem_of_lookup_2. Qed.

Lemma take_next y : y ∈ take (s + 1) fs <-> y ∈ take s fs \/ y = q.
Proof. rewrite Nat.add_1_r, (take_S_r _ _ _ Hq), elem_of_app, list_elem_of_singleton. done. Qed.

Lemma tl_q : tl l q = tl l0 q.
Proof. apply (ci_rest _ _ Hi), q_fresh. Qed.

(** The tail of [q] has [q]. *)
Lemma q_in o : tl l q = Z.of_nat o -> Z.of_nat q ∈ ids l o.
Proof. intros E. destruct (ci_out _ _ Hi q o E) as [|(_ & _ & H)]; [done|]. by apply q_fresh in H. Qed.

(** A sequence without a cell of its own leaves a cell free. *)
Lemma some_free : tl l q = (-1)%Z \/ (exists o, tl l q = Z.of_nat o /\ ids l o <> {[Z.of_nat q]}) -> ~ forall j, j < n -> occupied l j.
Proof.
  intros H Hall. destruct (pigeon (tl l) n) as [H1 H2].
  { intros j Hj. destruct (Hall j Hj) as [y Hy]. exists y. split; [|done]. apply tl_lt in Hy. by rewrite (ci_len _ _ Hi) in Hy. }
  destruct H as [H|(o & H & Hne)]; [specialize (H1 q q_lt); lia|]. apply Hne. apply set_eq. intros z. rewrite elem_of_singleton. split.
  - intros Hz. pose proof (ci_id _ _ Hi o z Hz). rewrite <- (Z2Nat.id z) in Hz by done. apply (ci_in _ _ Hi) in Hz as Hz'. pose proof (tl_lt _ _ _ Hz') as Hzl. rewrite (ci_len _ _ Hi) in Hzl.
    rewrite (H2 q (Z.to_nat z) q_lt Hzl); [lia|congruence].
  - intros ->. by apply q_in.
Qed.

(** The sequence owns its cell: nothing changes. *)
Lemma own_step o : tl l q = Z.of_nat o -> ids l o = {[Z.of_nat q]} -> cells_inv (s + 1) l.
Proof.
  intros Ht Ho. destruct Hi as [H1 H2 H3 H4 H5 H6 H7 H8 H9 H10 H11 H12]. split; try done.
  - intros y j E. destruct (H4 y j E) as [|(E1 & E2 & E3)]; [by left|]. right. split; [done|]. split; [done|]. apply take_next. by left.
  - intros y [Hy| ->]%take_next; [by apply H6|]. split; [lia|]. intros z Hz. rewrite Ht in Hz. destruct (H4 z o Hz) as [Hin|(E & _)].
    + rewrite Ho in Hin. apply elem_of_singleton in Hin. lia.
    + rewrite Ho in E. exfalso. set_solver.
  - intros y Hy. apply H7. rewrite take_next in Hy. tauto.
  - intros j Hj. apply H10. intros y Hy. apply Hj, take_next. by left.
  - destruct H12 as [|(y & Hy & E)]; [by left|right]. exists y. split; [|done]. apply take_next. by left.
Qed.

(** The sequence takes a free cell. *)
Section take_step.
Context (e : nat) (o : option nat) (l' : list mem_cell) (He : e < n) (Hfree : ~ occupied l e).
Context (Ho : o = None /\ tl l q = (-1)%Z \/ exists j, o = Some j /\ tl l q = Z.of_nat j /\ ids l j ∖ {[Z.of_nat q]} <> ∅).
Context (Hk : taken q e o l l').

Lemma e_empty : ids l e = ∅.
Proof. destruct (decide (ids l e = ∅)) as [|Hne]; [done|]. exfalso. apply Hfree. by eapply occupied_nonempty. Qed.

Lemma e_tl y : tl l y <> Z.of_nat e.
Proof. intros E. apply Hfree. by exists y. Qed.

Lemma e_same : ids l0 e = ∅ /\ ps l e = ps l0 e /\ sr l e = sr l0 e.
Proof. destruct (ci_same _ _ Hi e) as (E1 & E2 & E3); [intros y _; apply e_tl|]. split; [apply E1, e_empty|done]. Qed.

Lemma e_new : ps l e = (-1)%Z.
Proof. destruct e_same as (E1 & -> & _). by apply (rw_cells _ Hm0 e). Qed.

(** Cells other than the new one keep what they hold. *)
Lemma tk_other i : i <> e -> ps l' i = ps l i /\ sr l' i = sr l i /\ (ids l' i = ∅ <-> ids l i = ∅).
Proof.
  intros Hn. rewrite (tk_ps _ _ _ _ _ Hk), (tk_sr _ _ _ _ _ Hk), (tk_ids _ _ _ _ _ Hk). destruct Ho as [[-> _]|(j & -> & _ & Hne)]; [done|].
  rewrite !decide_False by done. split; [done|]. split; [done|]. case_decide as E; [|done]. subst. split; [done|]. intros E. exfalso. apply Hne. rewrite E. set_solver.
Qed.

Lemma ids_sub y j : Z.of_nat y ∈ ids l' j -> (j = e /\ y = q /\ o <> None) \/ (j <> e /\ y <> q /\ Z.of_nat y ∈ ids l j).
Proof.
  rewrite (tk_ids _ _ _ _ _ Hk). destruct Ho as [[-> Hq1]|(k & -> & Hq1 & Hne)].
  - intros Hy. apply (ci_in _ _ Hi) in Hy as Hy'. right. split; [intros ->; by apply e_tl in Hy'|]. split; [intros ->; lia|done].
  - case_decide as E1; [subst; intros E%elem_of_singleton; left; split; [done|]; split; [lia|done]|].
    case_decide as E2; [subst; intros [Hy Hn]%elem_of_difference; right; split; [done|]; split; [intros ->; apply Hn; by apply elem_of_singleton|done]|].
    intros Hy. right. split; [done|]. split; [|done]. intros ->. apply (ci_in _ _ Hi) in Hy. lia.
Qed.

Lemma ids_keep y j : y <> q -> Z.of_nat y ∈ ids l j -> Z.of_nat y ∈ ids l' j.
Proof.
  intros Hn Hy. rewrite (tk_ids _ _ _ _ _ Hk). destruct o as [k|]; [|done]. case_decide as E1.
  - subst. exfalso. rewrite e_empty in Hy. set_solver.
  - case_decide; [|done]. apply elem_of_difference. split; [done|]. intros E%elem_of_singleton. lia.
Qed.

Lemma take_src : (forall j, sr l' j = (-1)%Z \/ sr l' j = Z.of_nat j \/ exists o, sr l' j = Z.of_nat o /\ ids l' o <> ∅).
Proof.
  assert (forall k, ids l k <> ∅ -> ids l' k <> ∅) as Hkeep.
  { intros k Hne E. destruct (decide (k = e)) as [->|Hn]; [by rewrite e_empty in Hne|]. apply Hne. by apply (tk_other k Hn). }
  assert (forall j, sr l j = (-1)%Z \/ sr l j = Z.of_nat j \/ exists o, sr l j = Z.of_nat o /\ ids l' o <> ∅) as Hold.
  { intros j. destruct (ci_src _ _ Hi j) as [|[|(k & E & Hne)]]; [tauto|tauto|]. right. right. exists k. split; [done|by apply Hkeep]. }
  intros j. destruct (decide (j = e)) as [->|Hn]; [|destruct (tk_other j Hn) as (_ & -> & _); apply Hold].
  rewrite (tk_sr _ _ _ _ _ Hk). destruct Ho as [[-> Hq1]|(k & -> & Hq1 & Hne)]; [apply Hold|]. rewrite decide_True by done.
  destruct (Hold k) as [E|[E|E]]; [by left| |by right; right]. right. right. exists k. split; [done|]. apply Hkeep. apply q_in in Hq1. set_solver.
Qed.

Lemma take_free : (forall j, sr l' j = sr l0 j) \/ exists y, y ∈ take (s + 1) fs /\ forall j, sr l' j <> tl l' y.
Proof.
  destruct Ho as [[E Hq1]|(k & E & Hq1 & Hne)].
  - assert (forall j, sr l' j = sr l j) as Hs by (intros j; rewrite (tk_sr _ _ _ _ _ Hk), E; done).
    destruct (ci_free _ _ Hi) as [H|(y & Hy & H)]; [left; intros j; by rewrite Hs|right].
    exists y. split; [apply take_next; by left|]. intros j. rewrite Hs, (tk_tl _ _ _ _ _ Hk), decide_False; [done|]. intros ->. by apply q_fresh in Hy.
  - right. exists q. split; [apply take_next; by right|]. intros j. rewrite (tk_tl _ _ _ _ _ Hk), decide_True by done.
    assert (forall j, j <> e -> sr l j <> Z.of_nat e) as H.
    { intros i Hn Es. destruct (ci_src _ _ Hi i) as [E1|[E1|(x & E1 & E2)]]; [lia|lia|]. assert (x = e) as -> by lia. by rewrite e_empty in E2. }
    destruct (decide (j = e)) as [->|Hn]; [|destruct (tk_other j Hn) as (_ & -> & _); by apply H].
    rewrite (tk_sr _ _ _ _ _ Hk), E, decide_True by done. apply H. intros ->. by apply e_tl in Hq1.
Qed.

Lemma take_step : cells_inv (s + 1) l'.
Proof.
  assert (forall y, y <> q -> tl l' y = tl l y) as Hty by (intros y Hn; by rewrite (tk_tl _ _ _ _ _ Hk), decide_False).
  assert (tl l' q = Z.of_nat e) as Htq by (by rewrite (tk_tl _ _ _ _ _ Hk), decide_True).
  split.
  - rewrite (tk_len _ _ _ _ _ Hk). apply Hi.
  - intros y j [(-> & -> & _)|(H1 & H2 & H3)]%ids_sub; [done|]. rewrite Hty by done. by apply (ci_in _ _ Hi).
  - intros j z Hz. rewrite (tk_ids _ _ _ _ _ Hk) in Hz. destruct o as [k|]; [|by apply (ci_id _ _ Hi j)].
    case_decide; [apply elem_of_singleton in Hz; lia|]. case_decide; [apply elem_of_difference in Hz as [Hz _]|]; by apply (ci_id _ _ Hi j).
  - intros y j E. destruct (decide (y = q)) as [->|Hn].
    + assert (j = e) as -> by lia. rewrite (tk_ids _ _ _ _ _ Hk). destruct Ho as [[-> Hq1]|(k & -> & Hq1 & Hne)].
      * right. split; [apply e_empty|]. split; [by rewrite <- tl_q|]. apply take_next. by right.
      * left. rewrite decide_True by done. by apply elem_of_singleton.
    + rewrite Hty in E by done. destruct (ci_out _ _ Hi y j E) as [Hy|(E1 & E2 & E3)]; [left; by apply ids_keep|right].
      assert (j <> e) as Hje by (intros ->; by apply e_tl in E). split; [by apply (tk_other j Hje)|]. split; [done|]. apply take_next. by left.
  - intros y. destruct (decide (y = q)) as [->|Hn]; [rewrite Htq; lia|]. rewrite Hty by done. apply Hi.
  - intros y [Hy| ->]%take_next.
    + assert (y <> q) as Hn by (intros ->; by apply q_fresh in Hy). rewrite Hty by done. destruct (ci_done _ _ Hi y Hy) as [H1 H2]. split; [done|]. intros z Hz.
      destruct (decide (z = q)) as [->|Hz']; [|rewrite Hty in Hz by done; by apply H2]. rewrite Htq in Hz. symmetry in Hz. by apply e_tl in Hz.
    + rewrite Htq. split; [lia|]. intros z Hz. destruct (decide (z = q)) as [->|Hn]; [done|]. rewrite Hty in Hz by done. by apply e_tl in Hz.
  - intros y Hy. rewrite take_next in Hy. rewrite Hty by tauto. apply (ci_rest _ _ Hi). tauto.
  - intros y j0 E. destruct (decide (y = q)) as [->|Hn].
    + exists e. split; [done|]. destruct Ho as [[_ Hq1]|(k & Ek & Hq1 & Hne)]; [rewrite tl_q in Hq1; lia|].
      rewrite (tk_ps _ _ _ _ _ Hk), (tk_sr _ _ _ _ _ Hk), Ek, !decide_True by done. destruct (ci_flow _ _ Hi q j0 E) as (j & E1 & E2 & E3).
      assert (k = j) as -> by lia. done.
    + destruct (ci_flow _ _ Hi y j0 E) as (j & E1 & E2 & E3). exists j. rewrite Hty by done. split; [done|].
      assert (j <> e) as Hje by (intros ->; by apply e_tl in E1). destruct (tk_other j Hje) as (-> & -> & _). done.
  - intros y j E E'. destruct (decide (y = q)) as [->|Hn].
    + assert (j = e) as -> by lia. destruct Ho as [[Eo _]|(k & _ & Hq1 & _)]; [|rewrite tl_q in Hq1; lia].
      rewrite (tk_ps _ _ _ _ _ Hk), (tk_sr _ _ _ _ _ Hk), Eo. destruct e_same as (E1 & E2 & E3). split; [done|]. split; [apply e_new|done].
    + rewrite Hty in E' by done. assert (j <> e) as Hje by (intros ->; by apply e_tl in E'). destruct (tk_other j Hje) as (-> & -> & _). by apply (ci_new _ _ Hi y).
  - intros j Hj. assert (j <> e) as Hje by (intros ->; apply (Hj q); [apply take_next; by right|done]). destruct (tk_other j Hje) as (-> & -> & ->).
    apply (ci_same _ _ Hi). intros y Hy E. assert (y <> q) as Hn by (intros ->; by apply q_fresh in Hy). apply (Hj y); [apply take_next; by left|]. by rewrite Hty.
  - apply take_src.
  - apply take_free.
Qed.

(** After the step the search goes on from [e]. *)
Lemma take_occupied j : occupied l' j <-> occupied l j \/ j = e.
Proof.
  split.
  - intros [y Hy]. rewrite (tk_tl _ _ _ _ _ Hk) in Hy. case_decide; [right; lia|left; by exists y].
  - intros [[y Hy]| ->]; [|exists q; by rewrite (tk_tl _ _ _ _ _ Hk), decide_True].
    destruct (decide (y = q)) as [->|Hn]; [|exists y; by rewrite (tk_tl _ _ _ _ _ Hk), decide_False].
    destruct Ho as [[_ E]|(k & Ek & Hq1 & Hne)]; [lia|]. assert (k = j) as -> by lia. apply (occupied_nonempty (s + 1)); [apply take_step|].
    rewrite (tk_ids _ _ _ _ _ Hk), Ek. rewrite decide_False, decide_True by (try done; intros ->; by apply e_tl in Hq1). done.
Qed.

Lemma take_next_inv h : h < n -> (forall j, j < n -> ~ occupied l j -> dist n h e <= dist n h j) ->
  (forall j, j < n -> ids l j = ∅ -> occupied l j -> dist n h j < dist n h e) ->
  exists e', next_empty n l' (Z.of_nat e) = Ok e' /\ next_inv h l' e'.
Proof.
  intros Hh Hmin Hmax. pose proof (ci_len _ _ take_step) as Hlen. pose proof n_size as Hn. rewrite <- Hlen in Hn.
  destruct (next_empty_ok l' Hn n e ltac:(lia) ltac:(lia)) as (e' & E & He' & H). rewrite Hlen in *. exists (Z.of_nat e'). split; [done|].
  assert (forall j, j < n -> ~ occupied l' j -> ids l' j = ∅ /\ exists i, 1 <= i /\ dist n h j = dist n h e + i /\ j = wrap n (e + i)) as Hfar.
  { intros j Hj Hf. split; [destruct (decide (ids l' j = ∅)) as [|Hne]; [done|]; exfalso; apply Hf; apply (occupied_nonempty (s + 1)); [apply take_step|done]|].
    rewrite take_occupied in Hf. assert (j <> e) as Hje by tauto. pose proof (Hmin j Hj ltac:(tauto)) as Hd. exists (dist n h j - dist n h e).
    unfold dist, wrap in *. destruct (Nat.leb_spec h j), (Nat.leb_spec h e); try lia;
    match goal with |- context [n <=? ?a] => destruct (Nat.leb_spec n a) end; lia. }
  assert (forall j, j < n -> ids l' j = ∅ -> occupied l' j -> dist n h j <= dist n h e) as Hnear.
  { intros j Hj Hemp Hocc. destruct (decide (j = e)) as [->|Hje]; [done|]. apply Nat.lt_le_incl, Hmax; [done| |].
    - by apply (tk_other j Hje).
    - apply take_occupied in Hocc. tauto. }
  destruct H as [(k & Hk1 & Ek & Hemp & Hbet)|Hbet].
  - assert (forall j, j < n -> ~ occupied l' j -> dist n h e + k <= dist n h j) as Hle.
    { intros j Hj Hf. destruct (Hfar j Hj Hf) as (Hje & i & Hi1 & Hd & ->). destruct (decide (k <= i)); [lia|]. exfalso. by apply (Hbet i ltac:(lia)). }
    destruct (decide (occupied l' e')) as [Hocc|Hfr].
    + right. intros j Hj. destruct (decide (occupied l' j)) as [|Hf]; [done|]. exfalso. pose proof (Hnear e' He' Hemp Hocc). pose proof (Hle j Hj Hf).
      destruct (Hfar j Hj Hf) as (_ & i & Hi1 & Hd & Ej). subst e' j. unfold dist, wrap in *.
      repeat match goal with H : context [?a <=? ?b] |- _ => destruct (Nat.leb_spec a b) end; lia.
    + left. exists e'. split; [done|]. split; [done|]. split; [done|]. split; [done|].
      assert (dist n h e' = dist n h e + k) as Hd'.
      { pose proof (Hle e' He' Hfr). destruct (Hfar e' He' Hfr) as (_ & i & Hi1 & Hd & Ej). rewrite Ek in Ej at 1. unfold dist, wrap in *.
        repeat match goal with H : context [?a <=? ?b] |- _ => destruct (Nat.leb_spec a b) end; lia. }
      rewrite Hd'. split; [done|]. intros j Hj Hemp' Hocc. pose proof (Hnear j Hj Hemp' Hocc). lia.
  - right. intros j Hj. destruct (decide (occupied l' j)) as [|Hf]; [done|]. exfalso. destruct (Hfar j Hj Hf) as (Hje & i & Hi1 & Hd & ->).
    apply (Hbet i); [|done]. unfold dist, wrap in *. repeat match goal with H : context [?a <=? ?b] |- _ => destruct (Nat.leb_spec a b) end; lia.
Qed.
End take_step.
End step.
End find.

(** ** The loop *)

Section find_cells.
Context (m : llama_memory_recurrent) (Hm : rec_wf m) (u : llama_ubatch) (rows : list (list nat * Z)) (Hu : rec_ubatch u (r_size m) rows).

Record cells_found (h s : nat) (x : cell_search) : Prop := {
  cf_cells : cells_inv m (firsts rows) s (r_cells (f_mem x));
  cf_meta : same_meta m (f_mem x);
  cf_span : forall y, y ∈ take s (firsts rows) -> (f_min x <= tl (r_cells (f_mem x)) y <= f_max x)%Z;
  cf_bounds : (0 <= f_min x < sizeZ m)%Z /\ (0 <= f_max x < sizeZ m)%Z;
  cf_next : s < length rows -> next_inv m h (r_cells (f_mem x)) (f_next x)
}.

Lemma firsts_lookup s ws p : rows !! s = Some (ws, p) -> firsts rows !! s = head ws.
Proof.
  intros H. unfold firsts. rewrite list_lookup_fmap, H. simpl. destruct ws; [|done]. by destruct (ru_row _ _ _ Hu s [] p H) as (_ & _ & ? & _).
Qed.

Lemma firsts_sub : forall x, x ∈ firsts rows -> x ∈ concat rows.*1.
Proof.
  intros x Hx. apply list_elem_of_lookup in Hx as [s Hs]. destruct (lookup_lt_is_Some_2 rows s) as [[ws p] Hr].
  { apply lookup_lt_Some in Hs. unfold firsts in Hs. by rewrite length_fmap in Hs. }
  rewrite (firsts_lookup s ws p Hr) in Hs. apply (row_elem _ _ _ _ _ Hr). destruct ws; [done|]. injection Hs as ->. by left.
Qed.

Lemma NoDup_heads (l : list (list nat * Z)) : (forall x, x ∈ l -> x.1 <> []) -> NoDup (concat l.*1) -> NoDup (firsts l).
Proof.
  induction l as [|[ws p] l IH]; intros Hne Hn; [constructor|]. destruct ws as [|x ws]; [exfalso; by apply (Hne ([], p)); [left|]|].
  simpl in *. apply NoDup_cons in Hn as [Hx Hn]. apply NoDup_app in Hn as (_ & _ & Hn). constructor; [|apply IH; [|done]; intros y Hy; apply Hne; by right].
  intros H. apply Hx, elem_of_app. right. apply list_elem_of_fmap in H as ([ws' p'] & -> & Hy). apply list_elem_of_In, in_concat.
  exists ws'. split; apply list_elem_of_In; [apply list_elem_of_fmap; by exists (ws', p')|]. pose proof (Hne (ws', p') ltac:(by right)). destruct ws'; [done|by left].
Qed.

Lemma firsts_ok : NoDup (firsts rows) /\ Forall (fun q => q < r_size m) (firsts rows) /\ length (firsts rows) = length rows.
Proof.
  split; [|split].
  - apply NoDup_heads; [|apply Hu]. intros [ws p] Hx. apply list_elem_of_lookup in Hx as [s Hs]. by destruct (ru_row _ _ _ Hu s ws p Hs) as (_ & _ & ? & _).
  - apply Forall_forall. intros x Hx%firsts_sub. pose proof (ru_lt _ _ _ Hu) as H. rewrite Forall_forall in H. by apply H.
  - unfold firsts. by rewrite length_fmap.
Qed.

Lemma u_seq_first s q : firsts rows !! s = Some q -> u_seq u (s * u_n_seq_tokens u) 0 = Ok (Z.of_nat q).
Proof.
  intros Hq. destruct (lookup_lt_is_Some_2 rows s) as [[ws p] Hr].
  { apply lookup_lt_Some in Hq. by rewrite (proj2 (proj2 firsts_ok)) in Hq. }
  apply (u_seq_ok u (r_size m) rows s ws p); [done|done|]. rewrite (firsts_lookup s ws p Hr) in Hq. by destruct ws.
Qed.

Lemma has_own_cell_ok l s q m1 : cells_inv m (firsts rows) s l -> r_cells m1 = l -> firsts rows !! s = Some q ->
  exists b, has_own_cell (Z.of_nat q) m1 = Ok b /\
    (b = true -> exists o, tl l q = Z.of_nat o /\ ids l o = {[Z.of_nat q]}) /\
    (b = false -> tl l q = (-1)%Z \/ (exists o, tl l q = Z.of_nat o /\ o < length l /\ Z.of_nat q ∈ ids l o /\ ids l o <> {[Z.of_nat q]})).
Proof.
  intros Hi <- Hq. destruct firsts_ok as (Hnd & Hlt & _). pose proof (q_lt m _ Hlt s q Hq) as Hql. unfold has_own_cell.
  destruct (cell_at_lt m1 q) as (c & Hc & Ec); [unfold r_size; rewrite (ci_len _ _ _ _ Hi); done|]. rewrite Ec. cbn [mbind outcome_bind].
  rewrite <- (fld_Some c_tail (-1)%Z _ _ _ Hc). destruct (Z.leb_spec 0 (tl (r_cells m1) q)) as [H0|H0].
  2: { exists false. split; [done|]. split; [done|]. intros _. left. pose proof (ci_range _ _ _ _ Hi q). lia. }
  assert (tl (r_cells m1) q = Z.of_nat (Z.to_nat (tl (r_cells m1) q))) as Et by lia. set (o := Z.to_nat _) in Et. clearbody o. rewrite Et.
  pose proof (q_in m _ Hnd s q Hq _ Hi o Et) as Hin. pose proof (ids_lt _ _ _ Hin) as Ho. destruct (cell_at_lt m1 o Ho) as (d & Hd & Ed). rewrite Ed. cbn [mbind outcome_bind].
  unfold has_seq_id. rewrite <- (fld_Some c_seq_id ∅ _ _ _ Hd), bool_decide_eq_true_2 by done. cbn [assert_ mbind outcome_bind]. eexists. split; [done|]. split.
  - intros E%Nat.eqb_eq. exists o. split; [done|]. apply size_1_elem_of in E as [z E]. unfold_leibniz. rewrite E in Hin |- *. apply elem_of_singleton in Hin. by rewrite Hin.
  - intros E%Nat.eqb_neq. right. exists o. split; [done|]. split; [done|]. split; [done|]. intros E2. apply E. rewrite E2. apply size_singleton.
Qed.

Lemma find_cell_ok h s x : h < r_size m -> s < length rows -> cells_found h s x ->
  exists x', find_cell u x s = Ok x' /\ cells_found h (s + 1) x'.
Proof.
  intros Hh Hs [Hc Hmeta Hspan Hb Hnext]. destruct firsts_ok as (Hnd & Hlt & Hlen). destruct (lookup_lt_is_Some_2 (firsts rows) s ltac:(lia)) as [q Hq].
  pose proof (q_lt m _ Hlt s q Hq) as Hql. change (length (r_cells m)) with (r_size m) in Hql. pose proof (sm_size _ _ Hmeta) as Hsz.
  unfold find_cell. rewrite (u_seq_first s q Hq). cbn [mbind outcome_bind].
  destruct (has_own_cell_ok _ s q (f_mem x) Hc eq_refl Hq) as (b & -> & Hown & Hno). cbn [mbind outcome_bind].
  assert (forall e' m2, (s + 1 < length rows -> next_inv m h (r_cells m2) e') -> cells_inv m (firsts rows) (s + 1) (r_cells m2) -> same_meta m m2 ->
    (forall y, y ∈ take s (firsts rows) -> tl (r_cells m2) y = tl (r_cells (f_mem x)) y) ->
    exists x', (seq_meta ← cell_at m2 (Z.of_nat q);
      Ok (mk_search e' (if (c_tail seq_meta <? f_min x)%Z then c_tail seq_meta else f_min x) (if (f_max x <? c_tail seq_meta)%Z then c_tail seq_meta else f_max x) m2)) = Ok x' /\ cells_found h (s + 1) x') as Hfin.
  { intros e' m2 Hn2 Hc2 Hm2 Hold. destruct (cell_at_lt m2 q) as (c & Hcq & Ecq); [rewrite (sm_size _ _ Hm2); done|]. rewrite Ecq. cbn [mbind outcome_bind].
    rewrite <- (fld_Some c_tail (-1)%Z _ _ _ Hcq). eexists. split; [done|].
    assert (q ∈ take (s + 1) (firsts rows)) as Hqin by (apply (take_next _ s q Hq); by right).
    destruct (ci_done _ _ _ _ Hc2 q Hqin) as [H0 _]. pose proof (ci_range _ _ _ _ Hc2 q) as [_ H1]. change (length (r_cells m)) with (r_size m) in H1. fold (sizeZ m) in H1.
    split; cbn [f_mem f_min f_max f_next]; try done.
    - intros y [Hy| ->]%(take_next _ s q Hq).
      + pose proof (Hspan y Hy). rewrite (Hold y Hy). repeat match goal with |- context [(?a <? ?b)%Z] => destruct (Z.ltb_spec a b) end; lia.
      + repeat match goal with |- context [(?a <? ?b)%Z] => destruct (Z.ltb_spec a b) end; lia.
    - repeat match goal with |- context [(?a <? ?b)%Z] => destruct (Z.ltb_spec a b) end; lia. }
  destruct b; cbn [negb].
  - destruct (Hown eq_refl) as (o & Ht & Ho). cbn [mbind outcome_bind]. apply Hfin; try done; [intros _; by apply Hnext|]. by apply (own_step m _ s q Hq _ Hc o).
  - assert (~ forall j, j < r_size m -> occupied (r_cells (f_mem x)) j) as Hsome.
    { apply (some_free m _ Hnd Hlt s q Hq _ Hc). destruct (Hno eq_refl) as [|(o & H1 & _ & _ & H2)]; [by left|right; by exists o]. }
    destruct (Hnext Hs) as [(e & -> & He & Hemp & Hfree & Hmin & Hmax)|Hall]; [|done]. change (length (r_cells m)) with (r_size m) in *.
    destruct (take_empty_ok (f_mem x) q e) as (m2 & o & -> & Hs2 & Ho & Hk); [lia|lia|done| |].
    { destruct (Hno eq_refl) as [|(o & H1 & H2 & H3 & H4)]; [by left|right]. exists o. split; [done|]. split; [done|]. intros E. apply H4. apply set_eq. intros z.
      rewrite elem_of_singleton. split; [|by intros ->]. intros Hz. destruct (decide (z = Z.of_nat q)); [done|]. assert (z ∈ ids (r_cells (f_mem x)) o ∖ {[Z.of_nat q]}) as Hz' by set_solver.
      rewrite E in Hz'. set_solver. }
    cbn [mbind outcome_bind]. assert (o = None /\ tl (r_cells (f_mem x)) q = (-1)%Z \/ exists j, o = Some j /\ tl (r_cells (f_mem x)) q = Z.of_nat j /\ ids (r_cells (f_mem x)) j ∖ {[Z.of_nat q]} <> ∅) as Ho'.
    { destruct Ho as [|(j & -> & Hj)]; [by left|right]. exists j. split; [done|]. split; [done|]. destruct (Hno eq_refl) as [|(o & H1 & H2 & H3 & H4)]; [lia|]. assert (o = j) as -> by lia.
      intros E. apply H4. apply set_eq. intros z. rewrite elem_of_singleton. split; [|by intros ->]. intros Hz. destruct (decide (z = Z.of_nat q)); [done|].
      assert (z ∈ ids (r_cells (f_mem x)) j ∖ {[Z.of_nat q]}) as Hz' by set_solver. rewrite E in Hz'. set_solver. }
    pose proof (take_step m Hm _ Hnd Hlt s q Hq _ Hc e o _ He Hfree Ho' Hk) as Hc2. rewrite (proj1 (ru_n _ _ _ Hu)).
    assert (forall y, y ∈ take s (firsts rows) -> tl (r_cells m2) y = tl (r_cells (f_mem x)) y) as Hold.
    { intros y Hy. rewrite (tk_tl _ _ _ _ _ Hk), decide_False; [done|]. intros ->. by apply (q_fresh m _ Hnd s q Hq) in Hy. }
    assert (r_size m2 = r_size m) as Hs2z by (by rewrite (sm_size _ _ Hs2)).
    destruct (Nat.ltb_spec (s + 1) (length rows)).
    + destruct (take_next_inv m Hm _ Hnd Hlt s q Hq _ Hc e o _ He Hfree Ho' Hk h Hh Hmin Hmax) as (e' & E' & Hn'). rewrite Hs2z. change (r_size m) with (length (r_cells m)). rewrite E'. cbn [mbind outcome_bind].
      apply Hfin; try done. by etrans.
    + cbn [mbind outcome_bind]. apply Hfin; try done; [lia|by etrans].
Qed.

Lemma find_cells_ok : exists h x, find_cells u m = Ok x /\ cells_found h (length rows) x.
Proof.
  pose proof (rw_head _ Hm) as Hh. pose proof (rw_size _ Hm) as Hz. pose proof (rw_links _ Hm) as Hl. unfold find_cells.
  destruct (first_empty_full (r_cells m) Hz (Z.to_nat (r_head m))) as (z & E & H); [unfold sizeZ, r_size in *; lia|]. rewrite Z2Nat.id in E by lia.
  change (r_size m) with (length (r_cells m)) at 1. rewrite E. cbn [mbind outcome_bind]. rewrite (proj1 (ru_n _ _ _ Hu)).
  assert (exists h, h < r_size m /\ next_inv m h (r_cells m) z) as (h & Hhl & Hn).
  { destruct H as [(e & -> & He & Hemp)|Hall].
    - exists e. split; [done|]. left. exists e. assert (~ occupied (r_cells m) e) as Hf. { intros [y Hy]. apply (lk_iff _ Hl) in Hy. rewrite Hemp in Hy. set_solver. }
      split; [done|]. split; [done|]. split; [done|]. split; [done|]. split.
      + intros j _ _. unfold dist. rewrite Nat.leb_refl. lia.
      + intros j _ Hej [y Hy]. apply (lk_iff _ Hl) in Hy. rewrite Hej in Hy. set_solver.
    - exists 0. split; [unfold sizeZ in *; lia|]. right. intros j Hj. apply (occupied_nonempty m (firsts rows) 0); [by apply cells_inv_0|by apply Hall]. }
  exists h. destruct (foldM_seq (find_cell u) (cells_found h) 0 (length rows) (mk_search z (sizeZ m - 1) 0 m)) as (x & Ex & Hx).
  - split; simpl; try done; [by apply cells_inv_0| |lia]. intros y Hy. by apply not_elem_of_nil in Hy.
  - intros k s Hk. apply find_cell_ok; [done|lia].
  - exists x. done.
Qed.
End find_cells.
