(* ===== verification/RecurrentSlot.v ===== *)
(** * Finding a slot in the recurrent memory: moving cells, writing sets, staging sources

    The later phases of [find_slot]: the cells of the ubatch are swapped next to each
    other, get the positions and sequences of the ubatch, and the sources of all cells of
    the range are staged for the graph. *)

From S2P Require Import KvCells BatchInit.
From S2P Require Export RecurrentTake.
Open Scope nat_scope.

Notation s0 := (fld c_src0 (-1)%Z).

(** ** Swapping cells *)

(** The cells of [l] at new places, inside the range [a..b]. *)
Record moved (a b : nat) (l l' : list mem_cell) (f : nat -> nat) : Prop := {
  mv_len : length l' = length l;
  mv_inj : forall i j, f i = f j -> i = j;
  mv_onto : forall j, exists i, f i = j;
  mv_fix : forall j, j < a \/ b < j -> f j = j;
  mv_tl : forall y j, tl l y = Z.of_nat j -> tl l' y = Z.of_nat (f j);
  mv_none : forall y, tl l y = (-1)%Z -> tl l' y = (-1)%Z;
  mv_ids : forall j, ids l' (f j) = ids l j;
  mv_ps : forall j, ps l' (f j) = ps l j;
  mv_sr : forall j, sr l' (f j) = sr l j
}.

Lemma cells_moved_refl a b l : moved a b l l id.
Proof. split; try done. intros j. by exists j. Qed.

Lemma cells_moved_trans a b l1 l2 l3 f g : moved a b l1 l2 f -> moved a b l2 l3 g -> moved a b l1 l3 (g ∘ f).
Proof.
  intros [] []. split; unfold compose; try congruence; auto.
  - intros j. destruct (mv_onto1 j) as [i <-]. destruct (mv_onto0 i) as [k <-]. by exists k.
  - intros j Hj. by rewrite mv_fix0, mv_fix1.
Qed.

(** The range is mapped to itself. *)
Lemma moved_range a b l l' f j : moved a b l l' f -> a <= j <= b <-> a <= f j <= b.
Proof.
  intros H. assert (forall i, ~ a <= i <= b -> f i = i) as Hf by (intros i Hi; apply (mv_fix _ _ _ _ _ H); lia).
  destruct (decide (a <= j <= b)) as [Hj|Hj].
  - split; [intros _|done]. destruct (decide (a <= f j <= b)) as [|Hn]; [done|]. apply Hf in Hn as E. apply (mv_inj _ _ _ _ _ H) in E. by rewrite E in Hn.
  - by rewrite Hf.
Qed.

Lemma fld_fmap {A} (p : mem_cell -> A) d g l j : (forall c, p (g c) = p c) -> fld p d (g <$> l) j = fld p d l j.
Proof. intros H. unfold fld. rewrite list_lookup_fmap. by destruct (l !! j); simpl. Qed.

Definition swap (d s j : nat) : nat := if decide (j = s) then d else if decide (j = d) then s else j.

Lemma swap_cells_ok m d s a b : d < r_size m -> s < r_size m -> d <> s -> a <= d <= b -> a <= s <= b ->
  exists m', swap_cells (Z.of_nat d) (Z.of_nat s) m = Ok m' /\ same_meta m m' /\ moved a b (r_cells m) (r_cells m') (swap d s).
Proof.
  intros Hd Hs Hn Had Has. unfold swap_cells. destruct (cell_at_lt m d Hd) as (cd & Hcd & Ed). destruct (cell_at_lt m s Hs) as (cs & Hcs & Es).
  rewrite Ed, Es. cbn [mbind outcome_bind]. rewrite on_cell_ok by done. cbn [mbind outcome_bind]. rewrite on_cell_ok by (rewrite r_size_set, length_alter; done).
  cbn [mbind outcome_bind r_cells set_cells]. eexists. split; [done|]. cbn [r_cells set_cells].
  match goal with |- context [?g <$> ?l] => set (tr := g); set (l1 := l) end.
  assert (length l1 = r_size m) as Hl1 by (unfold l1; by rewrite !length_alter).
  assert (forall c, c_seq_id (tr c) = c_seq_id c /\ c_pos (tr c) = c_pos c /\ c_src (tr c) = c_src c) as Htr.
  { intros c. unfold tr. destruct (_ =? _)%Z; [done|]. by destruct (_ =? _)%Z. }
  split; [split; try done; unfold r_size; simpl; by rewrite length_fmap|].
  assert (forall y, tl (tr <$> l1) y = if (tl (r_cells m) y =? Z.of_nat s)%Z then Z.of_nat d else if (tl (r_cells m) y =? Z.of_nat d)%Z then Z.of_nat s else tl (r_cells m) y) as Htl.
  { intros y. assert (tl l1 y = tl (r_cells m) y) as <- by (unfold l1; fields; done). unfold fld. rewrite list_lookup_fmap. destruct (l1 !! y) as [c|]; cbn [fmap option_fmap option_map].
    - unfold tr. destruct (_ =? _)%Z; [done|]. by destruct (_ =? _)%Z.
    - by rewrite !(proj2 (Z.eqb_neq _ _)) by lia. }
  assert (forall A (p : mem_cell -> A) dflt, (forall c, p (tr c) = p c) -> (forall c v, p (cell_seqs (c_seq_id v) (cell_src (c_src v) (cell_pos (c_pos v) c))) = p v) ->
    forall j, fld p dflt (tr <$> l1) (swap d s j) = fld p dflt (r_cells m) j) as Hp.
  { intros A p dflt H1 H2 j. rewrite fld_fmap by done. unfold l1, swap. destruct (decide (j = s)) as [->|Hjs]; [|destruct (decide (j = d)) as [->|Hjd]].
    - rewrite (fld_const _ _ _ _ _ _ (p cd)), decide_False by (try done; rewrite length_alter; done). rewrite (fld_const _ _ _ _ _ _ (p cs)), decide_True by done.
      by rewrite (fld_Some _ _ _ _ _ Hcs).
    - rewrite (fld_const _ _ _ _ _ _ (p cd)), decide_True by (try done; rewrite length_alter; done). by rewrite (fld_Some _ _ _ _ _ Hcd).
    - rewrite (fld_const _ _ _ _ _ _ (p cd)), decide_False by (try done; rewrite length_alter; done). by rewrite (fld_const _ _ _ _ _ _ (p cs)), decide_False by done. }
  split.
  - rewrite length_fmap. done.
  - intros i j. unfold swap. repeat case_decide; congruence.
  - intros j. exists (swap d s j). unfold swap. repeat case_decide; congruence.
  - intros j Hj. unfold swap. rewrite !decide_False by lia. done.
  - intros y j E. rewrite Htl, E. unfold swap. destruct (Z.eqb_spec (Z.of_nat j) (Z.of_nat s)), (Z.eqb_spec (Z.of_nat j) (Z.of_nat d)); repeat case_decide; try done; lia.
  - intros y E. rewrite Htl, E. by rewrite !(proj2 (Z.eqb_neq _ _)) by lia.
  - apply Hp; [apply Htr|done].
  - apply Hp; [apply Htr|done].
  - apply Hp; [apply Htr|done].
Qed.

(** At most as many different numbers as the range is long. *)
Lemma range_count (l : list nat) (t : nat -> Z) (lo hi : Z) : NoDup l -> (forall x y, x ∈ l -> y ∈ l -> t x = t y -> x = y) ->
  (forall x, x ∈ l -> (lo <= t x <= hi)%Z) -> l <> [] -> (Z.of_nat (length l) <= hi - lo + 1)%Z.
Proof.
  intros Hl Hinj Hin Hne. assert (lo <= hi)%Z as Hlh. { destruct l as [|x l]; [done|]. pose proof (Hin x ltac:(by left)). lia. }
  assert (NoDup (t <$> l)) as Hnd.
  { clear Hne Hin. induction Hl as [|x l Hx Hl IH]; [constructor|]. simpl. constructor.
    - intros H. apply list_elem_of_fmap in H as (y & E & Hy). apply Hinj in E; [by subst|by left|by right].
    - apply IH. intros y z Hy Hz. apply Hinj; by right. }
  apply NoDup_ListNoDup in Hnd. assert (length (t <$> l) <= length (int_range lo hi)) as H.
  { apply NoDup_incl_length; [done|]. intros z Hz. apply list_elem_of_In, list_elem_of_fmap in Hz as (x & -> & Hx). pose proof (Hin x Hx).
    apply list_elem_of_In, list_elem_of_fmap. exists (Z.to_nat (t x - lo)). split; [lia|]. apply elem_of_seq. lia. }
  unfold int_range in H. rewrite !length_fmap, length_seq in H. lia.
Qed.

Section gather.
Context (m : llama_memory_recurrent) (Hm : rec_wf m) (u : llama_ubatch) (rows : list (list nat * Z)) (Hu : rec_ubatch u (r_size m) rows).
Context (h : nat) (x : cell_search) (Hx : cells_found m rows h (length rows) x).
Let fs := firsts rows.
Let a := Z.to_nat (f_min x).
Let b := Z.to_nat (f_max x).
Let l2 := r_cells (f_mem x).

Lemma fs_all : take (length rows) fs = fs.
Proof. apply take_ge. unfold fs, firsts. by rewrite length_fmap. Qed.

Lemma fs_tail y : y ∈ fs -> exists j, tl l2 y = Z.of_nat j /\ a <= j <= b /\ forall z, tl l2 z = Z.of_nat j -> z = y.
Proof.
  intros Hy. pose proof (cf_cells _ _ _ _ _ Hx) as Hc. pose proof (cf_span _ _ _ _ _ Hx) as Hspan. pose proof (cf_bounds _ _ _ _ _ Hx). fold fs in Hspan. rewrite fs_all in Hspan.
  destruct (ci_done _ _ _ _ Hc y) as [H0 H1]; [fold fs; by rewrite fs_all|]. exists (Z.to_nat (tl l2 y)). specialize (Hspan y Hy). fold l2 in Hspan, H0, H1.
  split; [lia|]. split; [unfold a, b; lia|]. intros z Hz. apply H1. lia.
Qed.

Lemma slot_fits : a + length rows <= b + 1 /\ b < r_size m.
Proof.
  pose proof (cf_bounds _ _ _ _ _ Hx) as [B1 B2]. unfold sizeZ in *. split; [|unfold b; lia].
  destruct (firsts_ok m u rows Hu) as (Hnd & _ & Hlen). fold fs in Hnd, Hlen.
  pose proof (range_count fs (tl l2) (f_min x) (f_max x) Hnd) as H. rewrite Hlen in H. unfold a, b.
  assert (Z.of_nat (length rows) <= f_max x - f_min x + 1)%Z; [apply H|pose proof (proj2 (ru_n _ _ _ Hu)); lia].
  - intros y z Hy Hz E. destruct (fs_tail y Hy) as (j & Ej & _ & Hun). symmetry. apply Hun. congruence.
  - intros y Hy. destruct (fs_tail y Hy) as (j & Ej & Hr & _). unfold a, b in Hr. lia.
  - intros E. rewrite E in Hlen. pose proof (proj2 (ru_n _ _ _ Hu)). simpl in Hlen. lia.
Qed.

Record gathered (k : nat) (m3 : llama_memory_recurrent) : Prop := {
  gt_meta : same_meta m m3;
  gt_moved : exists f, moved a b l2 (r_cells m3) f;
  gt_tl : forall s q, s < k -> fs !! s = Some q -> tl (r_cells m3) q = Z.of_nat (a + s)
}.

Lemma gather_step_ok k m3 : k < length rows -> gathered k m3 -> exists m4, gather_step u (f_min x) m3 k = Ok m4 /\ gathered (k + 1) m4.
Proof.
  intros Hk [Hmeta [f Hf] Ht]. destruct slot_fits as [Hfit Hb]. destruct (firsts_ok m u rows Hu) as (Hnd & Hlt & Hlen). fold fs in Hnd, Hlt, Hlen.
  destruct (lookup_lt_is_Some_2 fs k ltac:(lia)) as [q Hq]. unfold gather_step. rewrite (u_seq_first m u rows Hu k q Hq). cbn [mbind outcome_bind].
  assert (q < r_size m3) as Hq3. { rewrite (sm_size _ _ Hmeta). rewrite Forall_forall in Hlt. apply Hlt. by eapply list_elem_of_lookup_2. }
  destruct (cell_at_lt m3 q Hq3) as (c & Hc & Ec). rewrite Ec. cbn [mbind outcome_bind]. rewrite <- (fld_Some c_tail (-1)%Z _ _ _ Hc).
  destruct (fs_tail q ltac:(by eapply list_elem_of_lookup_2)) as (j & Ej & Hjr & Hun). pose proof (mv_tl _ _ _ _ _ Hf q j Ej) as Etq. rewrite Etq.
  pose proof (proj1 (moved_range _ _ _ _ _ j Hf) Hjr) as Hfj. replace (Z.of_nat k + f_min x)%Z with (Z.of_nat (a + k)).
  2: { unfold a. pose proof (cf_bounds _ _ _ _ _ Hx). lia. }
  destruct (Z.eqb_spec (Z.of_nat (a + k)) (Z.of_nat (f j))) as [E|E]; cbn [negb].
  - exists m3. split; [done|]. split; [done|by exists f|]. intros s q' Hs Hq'. destruct (decide (s = k)) as [->|]; [|apply Ht; [lia|done]].
    assert (q' = q) as -> by congruence. rewrite Etq. lia.
  - destruct (swap_cells_ok m3 (a + k) (f j) a b) as (m4 & E4 & Hs4 & Hmv); [rewrite (sm_size _ _ Hmeta); lia|rewrite (sm_size _ _ Hmeta); lia|lia|lia|lia|].
    exists m4. split; [done|]. split; [by etrans|exists (swap (a + k) (f j) ∘ f); by eapply cells_moved_trans|]. intros s q' Hs Hq'.
    destruct (decide (s = k)) as [->|Hsk].
    + assert (q' = q) as -> by congruence. rewrite (mv_tl _ _ _ _ _ Hmv q (f j) Etq). unfold swap. by rewrite decide_True.
    + pose proof (Ht s q' ltac:(lia) Hq') as Et'. rewrite (mv_tl _ _ _ _ _ Hmv q' (a + s) Et'). unfold swap. rewrite decide_False, decide_False; [done|lia|].
      intros Ea. destruct (fs_tail q' ltac:(by eapply list_elem_of_lookup_2)) as (j' & Ej' & _ & _). pose proof (mv_tl _ _ _ _ _ Hf q' j' Ej') as Et2.
      assert (j' = j) as -> by (apply (mv_inj _ _ _ _ _ Hf); lia). apply Hun in Ej'. subst q'. pose proof (NoDup_lookup _ _ _ _ Hnd Hq' Hq). lia.
Qed.

Lemma gather_ok : exists m3, gather u (f_min x) (f_mem x) = Ok m3 /\ gathered (length rows) m3.
Proof.
  unfold gather. rewrite (proj1 (ru_n _ _ _ Hu)). destruct (foldM_seq (gather_step u (f_min x)) gathered 0 (length rows) (f_mem x)) as (m3 & E & H).
  - split; [apply Hx|exists id; apply cells_moved_refl|]. intros s q Hs. lia.
  - intros k s Hk. apply gather_step_ok. lia.
  - by exists m3.
Qed.
End gather.

(** ** Writing the sets *)

Definition id_set (ws : list nat) : gset Z := list_to_set (Z.of_nat <$> ws).

Lemma elem_of_id_set ws y : Z.of_nat y ∈ id_set ws <-> y ∈ ws.
Proof.
  unfold id_set. rewrite elem_of_list_to_set, list_elem_of_fmap. split; [|intros H; by exists y]. intros (z & E & H). by assert (y = z) as -> by lia.
Qed.

Section write.
Context (u : llama_ubatch) (n : nat) (rows : list (list nat * Z)) (Hu : rec_ubatch u n rows).
Context (m3 : llama_memory_recurrent) (Hn : r_size m3 = n) (a : nat) (Ha : a + length rows <= n).
Context (Hfit : forall s, s < length rows -> (ps (r_cells m3) (a + s) < 0)%Z \/ (0 <= ps (r_cells m3) (a + s) + Z.of_nat (u_n_seq_tokens u) <= INT32_MAX)%Z).
Let l3 := r_cells m3.

(** After [k] sets. *)
Record written (k : nat) (m4 : llama_memory_recurrent) : Prop := {
  wr_meta : same_meta m3 m4;
  wr_set : forall s ws p, s < k -> rows !! s = Some (ws, p) ->
    (forall y, y ∈ ws -> tl (r_cells m4) y = Z.of_nat (a + s)) /\ ids (r_cells m4) (a + s) = id_set ws /\ ps (r_cells m4) (a + s) = p;
  wr_tl : forall y, y ∉ concat (take k rows).*1 -> tl (r_cells m4) y = tl l3 y;
  wr_rest : forall j, ~ a <= j < a + k -> ids (r_cells m4) j = ids l3 j /\ ps (r_cells m4) j = ps l3 j;
  wr_sr : forall j, sr (r_cells m4) j = sr l3 j
}.

Lemma write_ids_ok s ws p m4 : rows !! s = Some (ws, p) -> r_size m4 = n -> a + s < n -> ids (r_cells m4) (a + s) = ∅ ->
  exists m5, foldM (write_id u (s * u_n_seq_tokens u) (Z.of_nat (a + s))) (seq 0 (length ws)) m4 = Ok m5 /\ same_meta m4 m5 /\
    (forall y, tl (r_cells m5) y = if decide (y ∈ ws) then Z.of_nat (a + s) else tl (r_cells m4) y) /\
    (forall j, ids (r_cells m5) j = if decide (j = a + s) then id_set ws else ids (r_cells m4) j) /\
    (forall j, ps (r_cells m5) j = ps (r_cells m4) j /\ sr (r_cells m5) j = sr (r_cells m4) j).
Proof.
  intros Hs Hn4 Has Hemp.
  destruct (foldM_seq (write_id u (s * u_n_seq_tokens u) (Z.of_nat (a + s))) (fun k m5 => same_meta m4 m5 /\
    (forall y, tl (r_cells m5) y = if decide (y ∈ take k ws) then Z.of_nat (a + s) else tl (r_cells m4) y) /\
    (forall j, ids (r_cells m5) j = if decide (j = a + s) then id_set (take k ws) else ids (r_cells m4) j) /\
    (forall j, ps (r_cells m5) j = ps (r_cells m4) j /\ sr (r_cells m5) j = sr (r_cells m4) j)) 0 (length ws) m4) as (m5 & E & H).
  - split; [done|]. split; [intros y; rewrite decide_False; [done|simpl; apply not_elem_of_nil]|]. split; [|done].
    intros j. case_decide; [|done]. subst. by rewrite Hemp.
  - intros k m5 Hk (H1 & H2 & H3 & H4). destruct (lookup_lt_is_Some_2 ws k ltac:(lia)) as [y Hy]. unfold write_id.
    rewrite (u_seq_ok u n rows s ws p k y Hu Hs Hy). cbn [mbind outcome_bind]. pose proof (sm_size _ _ H1) as Hs5.
    pose proof (u_id_lt u n rows s ws p y Hu Hs ltac:(by eapply list_elem_of_lookup_2)) as Hyl.
    rewrite on_cell_ok by lia. cbn [mbind outcome_bind]. rewrite on_cell_ok by (rewrite r_size_set, length_alter; fold (r_size m5); lia). cbn [r_cells set_cells].
    eexists. split; [done|]. cbn [r_cells set_cells]. assert (a + s < length (r_cells m5)) by (unfold r_size in *; lia). assert (y < length (r_cells m5)) by (unfold r_size in *; lia).
    assert (forall z, z ∈ take (k + 1) ws <-> z ∈ take k ws \/ z = y) as Htk by (intros z; rewrite Nat.add_1_r, (take_S_r _ _ _ Hy), elem_of_app, list_elem_of_singleton; done).
    split; [etrans; [done|]; split; try done; unfold r_size; simpl; by rewrite !length_alter|]. split; [|split].
    + intros z. fields. rewrite H2. destruct (decide (z = y)) as [->|Hzy]; [by rewrite decide_True by (apply Htk; by right)|].
      destruct (decide (z ∈ take k ws)) as [Hz|Hz]; [by rewrite decide_True by (apply Htk; by left)|]. rewrite decide_False; [done|]. rewrite Htk. tauto.
    + intros j. fields. rewrite H3. case_decide; [|done]. unfold id_set. rewrite Nat.add_1_r, (take_S_r _ _ _ Hy), fmap_app, list_to_set_app_L. set_solver.
    + intros j. split; fields; apply H4.
  - exists m5. rewrite Nat.add_0_l, take_ge in H by lia. done.
Qed.

Lemma write_set_ok k m4 : k < length rows -> written k m4 -> exists m5, write_set u (Z.of_nat a) m4 k = Ok m5 /\ written (k + 1) m5.
Proof.
  intros Hk [H1 H2 H3 H4 H5]. destruct (lookup_lt_is_Some_2 rows k Hk) as [[ws p] Hr]. destruct (ru_row _ _ _ Hu k ws p Hr) as (E1 & E2 & E3 & E4 & E5).
  cbv zeta in *. pose proof (ru_tokens _ _ _ Hu). unfold write_set.
  replace (Z.of_nat (k * u_n_seq_tokens u + u_n_seq_tokens u) - 1)%Z with (Z.of_nat (k * u_n_seq_tokens u + u_n_seq_tokens u - 1)) by lia.
  rewrite (arr_get_Z _ _ _ E4). cbn [mbind outcome_bind]. replace (Z.of_nat k + Z.of_nat a)%Z with (Z.of_nat (a + k)) by lia. pose proof (sm_size _ _ H1) as Hs4.
  destruct (cell_at_lt m4 (a + k) ltac:(lia)) as (c & Hc & Ec). rewrite Ec. cbn [mbind outcome_bind]. rewrite <- (fld_Some c_pos (-1)%Z _ _ _ Hc).
  destruct (H4 (a + k) ltac:(lia)) as [_ Ep]. rewrite Ep.
  match goal with |- context [?t ≫= _] => assert (exists z, t = Ok z) as [z ->] end.
  { destruct (Z.leb_spec 0 (ps l3 (a + k))); [|by eexists]. destruct (Hfit k Hk) as [|Hf]; [unfold l3 in *; lia|]. fold l3 in Hf. eexists. apply i32_in. unfold INT32_MIN. lia. }
  cbn [mbind outcome_bind]. rewrite on_cell_ok by lia. cbn [mbind outcome_bind]. rewrite (vec_get_Some _ _ _ E1). cbn [mbind outcome_bind]. rewrite Nat2Z.id.
  set (m4' := set_cells _ m4). assert (a + k < length (r_cells m4)) as Hakl by (unfold r_size in *; lia).
  assert (r_size m4' = n) as Hs4' by (unfold m4', r_size; simpl; rewrite length_alter; unfold r_size in *; lia).
  destruct (write_ids_ok k ws p m4' Hr Hs4' ltac:(lia)) as (m5 & -> & Hs5 & Ht5 & Hi5 & Hp5).
  { unfold m4'; cbn [r_cells set_cells]. fields. by rewrite decide_True. }
  assert (forall j, tl (r_cells m4') j = tl (r_cells m4) j) as Ht4 by (intros j; unfold m4'; cbn [r_cells set_cells]; fields; done).
  assert (forall j, j <> a + k -> ids (r_cells m4') j = ids (r_cells m4) j) as Hi4 by (intros j Hj; unfold m4'; cbn [r_cells set_cells]; fields; by rewrite decide_False).
  assert (forall j, ps (r_cells m4') j = if decide (j = a + k) then p else ps (r_cells m4) j) as Hp4 by (intros j; unfold m4'; cbn [r_cells set_cells]; fields; done).
  assert (forall j, sr (r_cells m4') j = sr (r_cells m4) j) as Hsr4 by (intros j; unfold m4'; cbn [r_cells set_cells]; fields; done).
  assert (forall s ws' p', rows !! s = Some (ws', p') -> s <> k -> forall y, y ∈ ws' -> y ∉ ws) as Hdis.
  { intros s ws' p' Hs' Hne y Hy Hy'. pose proof (ru_nodup _ _ _ Hu) as Hnd.
    assert (rows.*1 !! s = Some ws') as R1 by (by rewrite list_lookup_fmap, Hs'). assert (rows.*1 !! k = Some ws) as R2 by (by rewrite list_lookup_fmap, Hr).
    apply Hne. clear -Hnd R1 R2 Hy Hy'. revert s k R1 R2. induction (rows.*1) as [|w l IH]; intros s k R1 R2; [done|]. simpl in Hnd. apply NoDup_app in Hnd as (_ & Hd & Hn).
    assert (forall w' i, l !! i = Some w' -> forall z, z ∈ w' -> z ∈ concat l) as Hin.
    { intros w' i Hw z Hz. apply list_elem_of_In, in_concat. exists w'. split; apply list_elem_of_In; [by eapply list_elem_of_lookup_2|done]. }
    destruct s as [|s], k as [|k]; simpl in *; simplify_eq; try done.
    - exfalso. by apply (Hd y Hy), (Hin ws k).
    - exfalso. by apply (Hd y Hy'), (Hin ws' s).
    - f_equal. by apply IH. }
  exists m5. split; [done|]. split.
  - etrans; [done|]. etrans; [|done]. split; try done. unfold r_size, m4'; simpl. by rewrite length_alter.
  - intros s ws' p' Hs Hr'. destruct (decide (s = k)) as [->|Hsk].
    + assert (ws' = ws /\ p' = p) as [-> ->] by (split; congruence). split; [intros y Hy; by rewrite Ht5, decide_True|]. split; [by rewrite Hi5, decide_True|].
      rewrite (proj1 (Hp5 _)), Hp4. by rewrite decide_True.
    + destruct (H2 s ws' p' ltac:(lia) Hr') as (W1 & W2 & W3). split; [|split].
      * intros y Hy. rewrite Ht5, decide_False by (by apply (Hdis s ws' p' Hr' Hsk)). rewrite Ht4. by apply W1.
      * rewrite Hi5, decide_False, Hi4 by lia. done.
      * rewrite (proj1 (Hp5 _)), Hp4, decide_False by lia. done.
  - intros y Hy. rewrite Nat.add_1_r, (take_S_r _ _ _ Hr), fmap_app, concat_app in Hy. simpl in Hy. rewrite app_nil_r, elem_of_app in Hy.
    rewrite Ht5, decide_False, Ht4 by tauto. apply H3. tauto.
  - intros j Hj. rewrite Hi5, (proj1 (Hp5 _)), Hp4, !decide_False by lia. rewrite Hi4 by lia. apply H4. lia.
  - intros j. rewrite (proj2 (Hp5 _)), Hsr4. apply H5.
Qed.

Lemma write_sets_ok : exists m4, write_sets u (Z.of_nat a) m3 = Ok m4 /\ written (length rows) m4.
Proof.
  unfold write_sets. rewrite (proj1 (ru_n _ _ _ Hu)). destruct (foldM_seq (write_set u (Z.of_nat a)) written 0 (length rows) m3) as (m4 & E & H).
  - split; try done. intros s ws p Hs. lia.
  - intros k s Hk. apply write_set_ok. lia.
  - by exists m4.
Qed.
End write.

(** ** Staging the sources *)

Lemma refcounts_ok l : (forall j, (-1 <= sr l j < Z.of_nat (length l))%Z) ->
  exists refs, refcounts l = Ok refs /\ length refs = length l /\ forall i, i < length l -> exists k, refs !! i = Some k /\ (k = 0 <-> forall j, sr l j <> Z.of_nat i).
Proof.
  intros Hsr. unfold refcounts.
  destruct (foldM_prefix (fun r c => if (0 <=? c_src c)%Z then n ← arr_get r (c_src c); arr_set r (c_src c) (n + 1) else Ok r)
    (fun pre r => length r = length l /\ forall i, i < length l -> exists k, r !! i = Some k /\ (k = 0 <-> forall c, c ∈ pre -> c_src c <> Z.of_nat i)) l (replicate (length l) 0)) as (refs & E & Hlen & H).
  - rewrite length_replicate. split; [done|]. intros i Hi. exists 0. split; [by apply lookup_replicate_2|]. split; [|done]. intros _ c Hc. by apply not_elem_of_nil in Hc.
  - intros pre c post r Hl (Hlen & H). assert (sr l (length pre) = c_src c) as Ec by (apply fld_Some; rewrite Hl; by apply list_lookup_middle). pose proof (Hsr (length pre)) as Hr. rewrite Ec in Hr.
    destruct (Z.leb_spec 0 (c_src c)) as [H0|H0].
    + destruct (H (Z.to_nat (c_src c)) ltac:(lia)) as (k & Hk & Hk0). rewrite <- (Z2Nat.id (c_src c)) by done. rewrite (arr_get_Z _ _ _ Hk). cbn [mbind outcome_bind].
      rewrite arr_set_Z by lia. eexists. split; [done|]. rewrite length_insert. split; [done|]. intros i Hi.
      destruct (decide (i = Z.to_nat (c_src c))) as [->|Hn].
      * exists (k + 1). rewrite list_lookup_insert_eq by lia. split; [done|]. split; [lia|]. intros Hall. exfalso. apply (Hall c); [|lia]. apply elem_of_app. right. by left.
      * rewrite list_lookup_insert_ne by done. destruct (H i Hi) as (k' & Hk' & Hk0'). exists k'. split; [done|]. rewrite Hk0'. split; intros Hall d Hd.
        -- apply elem_of_app in Hd as [Hd|Hd]; [by apply Hall|]. apply list_elem_of_singleton in Hd as ->. lia.
        -- apply Hall, elem_of_app. by left.
    + eexists. split; [done|]. split; [done|]. intros i Hi. destruct (H i Hi) as (k' & Hk' & Hk0'). exists k'. split; [done|]. rewrite Hk0'. split; intros Hall d Hd.
      * apply elem_of_app in Hd as [Hd|Hd]; [by apply Hall|]. apply list_elem_of_singleton in Hd as ->. lia.
      * apply Hall, elem_of_app. by left.
  - exists refs. split; [done|]. split; [done|]. intros i Hi. destruct (H i Hi) as (k & Hk & Hk0). exists k. split; [done|]. rewrite Hk0. split; intros Hall.
    + intros j E'. destruct (lookup_lt_is_Some_2 l j) as [c Hc]. { destruct (decide (j < length l)); [done|]. rewrite fld_ge in E' by lia. lia. }
      rewrite (fld_Some _ _ _ _ _ Hc) in E'. apply (Hall c); [|done]. by eapply list_elem_of_lookup_2.
    + intros c Hc E'. apply list_elem_of_lookup in Hc as [j Hc]. apply (Hall j). by rewrite (fld_Some _ _ _ _ _ Hc).
Qed.

Lemma first_free_ok refs l : Forall (fun z => (0 <= z < Z.of_nat (length refs))%Z) l ->
  exists z, first_free refs l = Ok z /\ ((exists i, z = Z.of_nat i /\ z ∈ l /\ refs !! i = Some 0) \/ (z = (-1)%Z /\ forall i, Z.of_nat i ∈ l -> refs !! i <> Some 0)).
Proof.
  induction 1 as [|z l Hz Hl IH]; simpl.
  - exists (-1)%Z. split; [done|]. right. split; [done|]. intros i Hi. by apply not_elem_of_nil in Hi.
  - destruct (lookup_lt_is_Some_2 refs (Z.to_nat z) ltac:(lia)) as [k Hk]. rewrite <- (Z2Nat.id z) by lia. rewrite (arr_get_Z _ _ _ Hk). cbn [mbind outcome_bind].
    rewrite Z2Nat.id by lia. destruct (Nat.eqb_spec k 0) as [->|Hk0].
    + exists z. split; [done|]. left. exists (Z.to_nat z). split; [lia|]. split; [by left|done].
    + destruct IH as (z' & -> & H). exists z'. split; [done|]. destruct H as [(i & E & Hi & Hr)|[E H]]; [left; exists i; split; [done|]; split; [by right|done]|right].
      split; [done|]. intros i Hi. apply elem_of_cons in Hi as [Hi|Hi]; [|by apply H]. assert (i = Z.to_nat z) as -> by lia. congruence.
Qed.

Lemma int_range_seq a b : a <= b -> int_range (Z.of_nat a) (Z.of_nat b) = Z.of_nat <$> seq a (b + 1 - a).
Proof.
  intros H. unfold int_range. replace (Z.to_nat (Z.of_nat b - Z.of_nat a + 1)) with (b + 1 - a) by lia.
  apply list_eq. intros i. rewrite !list_lookup_fmap. destruct (decide (i < b + 1 - a)).
  - rewrite !lookup_seq_lt by done. cbn [fmap option_fmap option_map]. f_equal. lia.
  - by rewrite !lookup_seq_ge by lia.
Qed.

Section stage.
Context (m4 : llama_memory_recurrent) (a b : nat) (Hab : a <= b) (Hb : b < r_size m4).
Context (Hsr : forall j, (-1 <= sr (r_cells m4) j < sizeZ m4)%Z).
Context (Hfree : (exists j, a <= j <= b /\ (sr (r_cells m4) j < 0)%Z) -> exists i, a <= i <= b /\ forall j, sr (r_cells m4) j <> Z.of_nat i).
Let l4 := r_cells m4.

Record staged (k : nat) (m5 : llama_memory_recurrent) : Prop := {
  sg_meta : same_meta m4 m5;
  sg_same : forall j, tl (r_cells m5) j = tl l4 j /\ ids (r_cells m5) j = ids l4 j /\ ps (r_cells m5) j = ps l4 j;
  sg_sr : forall j, sr (r_cells m5) j = if decide (a <= j < k) then Z.of_nat j else sr l4 j;
  sg_src0 : forall j, a <= j < k -> s0 (r_cells m5) j = if (sr l4 j <? 0)%Z then rs_z m5 else sr l4 j;
  sg_zero : rs_z m5 = (-1)%Z \/ exists i, a <= i <= b /\ rs_z m5 = Z.of_nat i /\ forall j, sr l4 j <> Z.of_nat i;
  sg_needed : forall j, a <= j <= b -> (sr l4 j < 0)%Z -> (0 <= rs_z m5)%Z
}.

Lemma stage_source_ok k m5 : a <= k <= b -> staged k m5 -> exists m6, stage_source m5 (Z.of_nat k) = Ok m6 /\ staged (k + 1) m6.
Proof.
  intros Hk [H1 H2 H3 H4 H5 H6]. pose proof (sm_size _ _ H1) as Hs. unfold stage_source. destruct (cell_at_lt m5 k ltac:(lia)) as (c & Hc & Ec). rewrite Ec. cbn [mbind outcome_bind].
  rewrite <- (fld_Some c_src (-1)%Z _ _ _ Hc). pose proof (H3 k) as E3. rewrite decide_False in E3 by lia. rewrite E3.
  assert (exists m6, (if (sr l4 k <? 0)%Z then _ ← assert_ (0 <=? rs_z m5)%Z; on_cell (Z.of_nat k) (cell_src0 (rs_z m5)) m5
      else on_cell (Z.of_nat k) (fun c => cell_src0 (c_src c) c) m5) = Ok m6 /\ same_meta m5 m6 /\ rs_z m6 = rs_z m5 /\
    (forall j, tl (r_cells m6) j = tl (r_cells m5) j /\ ids (r_cells m6) j = ids (r_cells m5) j /\ ps (r_cells m6) j = ps (r_cells m5) j /\ sr (r_cells m6) j = sr (r_cells m5) j) /\
    (forall j, s0 (r_cells m6) j = if decide (j = k) then (if (sr l4 k <? 0)%Z then rs_z m5 else sr l4 k) else s0 (r_cells m5) j)) as (m6 & -> & Hs6 & Hz6 & Hf6 & H06).
  { assert (k < length (r_cells m5)) by (unfold r_size in *; lia). destruct (Z.ltb_spec (sr l4 k) 0) as [Hneg|Hpos].
    - rewrite (proj2 (Z.leb_le _ _)) by (by apply (H6 k)). cbn [assert_ mbind outcome_bind]. rewrite on_cell_ok by lia. eexists. split; [done|].
      split; [split; try done; unfold r_size; simpl; by rewrite length_alter|]. split; [done|]. split; [|intros j; cbn [r_cells set_cells]; fields; done].
      intros j. cbn [r_cells set_cells]. split; [by fields|]. split; [by fields|]. split; by fields.
    - rewrite on_cell_ok by lia. eexists. split; [done|].
      split; [split; try done; unfold r_size; simpl; by rewrite length_alter|]. split; [done|]. split.
      + intros j. cbn [r_cells set_cells]. split; [by fields|]. split; [by fields|]. split; by fields.
      + intros j. cbn [r_cells set_cells]. unfold fld at 1 3. destruct (decide (j = k)) as [->|Hn]; [|by rewrite list_lookup_alter_ne].
        rewrite list_lookup_alter_eq, Hc. simpl. by rewrite <- (fld_Some c_src (-1)%Z _ _ _ Hc), E3. }
  cbn [mbind outcome_bind]. pose proof (sm_size _ _ Hs6) as Hs6z. rewrite on_cell_ok by lia. eexists. split; [done|]. assert (k < length (r_cells m6)) by (unfold r_size in *; lia).
  split; cbn [r_cells set_cells rs_z]; rewrite ?Hz6; try done.
  - etrans; [done|]. etrans; [done|]. split; try done. unfold r_size; simpl. by rewrite length_alter.
  - intros j. destruct (Hf6 j) as (F1 & F2 & F3 & _). destruct (H2 j) as (G1 & G2 & G3). split; [fields; congruence|]. split; fields; congruence.
  - intros j. fields. destruct (Hf6 j) as (_ & _ & _ & ->). rewrite H3. destruct (decide (j = k)) as [->|]; [by rewrite decide_True by lia|]. repeat case_decide; try done; lia.
  - intros j Hj. fields. rewrite H06. destruct (decide (j = k)) as [->|Hn]; [done|]. apply H4. lia.
Qed.

Lemma stage_sources_ok : exists m5, stage_sources (Z.of_nat a) (Z.of_nat b) m4 = Ok m5 /\ staged (b + 1) m5.
Proof.
  unfold stage_sources. destruct (refcounts_ok (r_cells m4) Hsr) as (refs & -> & Hlen & Hrefs). cbn [mbind outcome_bind]. unfold sizeZ, r_size in *.
  destruct (first_free_ok refs (int_range (Z.of_nat a) (Z.of_nat b))) as (z & -> & Hz).
  { apply Forall_forall. intros y Hy. rewrite int_range_seq in Hy by done. apply list_elem_of_fmap in Hy as (i & -> & Hi%elem_of_seq). lia. }
  cbn [mbind outcome_bind]. rewrite int_range_seq in * by done. rewrite foldM_fmap.
  assert (staged a (set_rs_z z m4)) as H0.
  { split; try done; cbn [rs_z set_rs_z r_cells].
    - intros j. rewrite decide_False by lia. done.
    - lia.
    - destruct Hz as [(i & -> & Hi & Hr)|[-> _]]; [right|by left]. apply list_elem_of_fmap in Hi as (i' & E & Hi%elem_of_seq). assert (i' = i) as -> by lia.
      exists i. split; [lia|]. split; [done|]. destruct (Hrefs i ltac:(lia)) as (k & Hk & Hk0). apply Hk0. congruence.
    - intros j Hj Hneg. destruct Hz as [(i & -> & _)|[_ Hall]]; [lia|]. exfalso. destruct Hfree as (i & Hi & Hi'); [by exists j|].
      destruct (Hrefs i ltac:(lia)) as (k & Hk & Hk0). apply (Hall i); [apply list_elem_of_fmap_2, elem_of_seq; lia|]. rewrite Hk. f_equal. by apply Hk0. }
  destruct (foldM_seq (fun s x => stage_source s (Z.of_nat x)) staged a (b + 1 - a) (set_rs_z z m4) H0) as (m5 & E & H).
  - intros k s Hk. apply stage_source_ok. lia.
  - exists m5. split; [done|]. by replace (a + (b + 1 - a)) with (b + 1) in H by lia.
Qed.
End stage.
