(* ===== verification/RecurrentDone.v ===== *)
(** * Finding a slot in the recurrent memory: the whole of [find_slot]

    Putting the phases together: a well-formed memory and a ubatch of distinct sequences
    that fit give [true], a well-formed memory with the ubatch in consecutive cells and
    everything else held as before, and sources for the graph that make every state follow
    its sequence. *)

From S2P Require Import KvCells BatchInit.
From S2P Require Export RecurrentSlot.
Open Scope nat_scope.

(** The graph fills cell [j] from row [r], or from the cleared row when there is none. *)
Definition source_of (m : llama_memory_recurrent) (j : nat) (r : Z) : Prop :=
  ((r < 0)%Z /\ (0 <= rs_z m)%Z /\ s0 (r_cells m) j = rs_z m) \/ ((0 <= r)%Z /\ s0 (r_cells m) j = r /\ r <> rs_z m).

(** No row, or the row of an empty cell. *)
Definition blank_row (m : llama_memory_recurrent) (r : Z) : Prop :=
  (r < 0)%Z \/ exists e, r = Z.of_nat e /\ ids (r_cells m) e = ∅ /\ sr (r_cells m) e = Z.of_nat e.

(** A cell the graph writes. *)
Definition in_slot (m : llama_memory_recurrent) (j : nat) : Prop := (r_head m <= Z.of_nat j < r_head m + r_n m)%Z.

Record slot_found (rows : list (list nat * Z)) (m m' : llama_memory_recurrent) : Prop := {
  sf_wf : rec_wf m';
  sf_rs : n_rs_seq m' = n_rs_seq m /\ rs_idx m' = rs_idx m /\ r_size m' = r_size m;
  sf_range : (0 <= r_head m')%Z /\ (r_head m' + r_n m' <= sizeZ m)%Z /\ (Z.of_nat (length rows) <= r_n m')%Z;
  sf_set : forall s ws p, rows !! s = Some (ws, p) -> let j := Z.to_nat (r_head m') + s in
    (forall y, y ∈ ws -> view m' y = Some (j, p, Z.of_nat j)) /\ ids (r_cells m') j = id_set ws;
  sf_rest : forall y, y ∉ concat rows.*1 -> match view m y with
    | None => view m' y = None
    | Some (j, p, r) => exists j' r', view m' y = Some (j', p, r') /\
        (in_slot m' j' /\ r' = Z.of_nat j' /\ source_of m' j' r \/ ~ in_slot m' j' /\ j' = j /\ r' = r) end;
  sf_source : forall s ws p q, rows !! s = Some (ws, p) -> head ws = Some q -> let j := Z.to_nat (r_head m') + s in
    match view m q with
    | Some (_, _, r) => source_of m' j r
    | None => exists r, blank_row m r /\ source_of m' j r end;
  sf_blank : forall j, ids (r_cells m') j = ∅ -> sr (r_cells m') j = Z.of_nat j ->
    (in_slot m' j /\ exists r, blank_row m r /\ source_of m' j r) \/ (~ in_slot m' j /\ ids (r_cells m) j = ∅ /\ sr (r_cells m) j = Z.of_nat j);
  sf_slot : forall j, in_slot m' j -> exists r, source_of m' j r /\ (-1 <= r < sizeZ m)%Z;
  sf_zero : rs_z m' = (-1)%Z \/ exists i, rs_z m' = Z.of_nat i /\ in_slot m' i
}.

(** The shared sequences and the first ones are different. *)
Lemma rows_split (rows : list (list nat * Z)) : (forall x, x ∈ rows -> x.1 <> []) ->
  (forall y, y ∈ concat rows.*1 <-> y ∈ firsts rows \/ y ∈ shared rows) /\ (NoDup (concat rows.*1) -> forall y, y ∈ firsts rows -> y ∉ shared rows).
Proof.
  induction rows as [|[ws p] rows IH]; intros Hne.
  - split; [|intros _ y Hy; by apply not_elem_of_nil in Hy]. intros y. unfold firsts, shared. simpl. set_solver.
  - destruct IH as [IH1 IH2]; [intros x Hx; apply Hne; by right|]. destruct ws as [|w ws]; [exfalso; by apply (Hne ([], p)); [left|]|].
    unfold firsts, shared in *. simpl. split.
    + intros y. rewrite !elem_of_cons, !elem_of_app, IH1. tauto.
    + intros Hn y Hy. apply NoDup_cons in Hn as [Hw Hn]. apply NoDup_app in Hn as (_ & Hd & Hn). rewrite elem_of_app. apply elem_of_cons in Hy as [->|Hy].
      * intros [H|H]; apply Hw, elem_of_app; [by left|right]. apply IH1. by right.
      * intros [H|H]; [|by apply (IH2 Hn y Hy)]. apply (Hd y H). apply IH1. by left.
Qed.

Section assemble.
Context (m m1 : llama_memory_recurrent) (u : llama_ubatch) (rows : list (list nat * Z)).
Context (Hu : rec_ubatch u (r_size m1) rows) (Htrim : trimmed (shared rows) m m1).
Context (Hfit : forall q j p r, q ∈ firsts rows -> view m q = Some (j, p, r) -> (p + Z.of_nat (u_n_seq_tokens u) <= INT32_MAX)%Z).
Context (h : nat) (x : cell_search) (Hx : cells_found m1 rows h (length rows) x).
Let fs := firsts rows.
Let N := length rows.
Let a := Z.to_nat (f_min x).
Let b := Z.to_nat (f_max x).
Let l1 := r_cells m1.
Let l2 := r_cells (f_mem x).
Let Hm1 := tm_wf _ _ _ Htrim.

Lemma ab_Z : f_min x = Z.of_nat a /\ f_max x = Z.of_nat b /\ a + N <= b + 1 /\ b < r_size m1 /\ 0 < N.
Proof.
  pose proof (cf_bounds _ _ _ _ _ Hx). destruct (slot_fits m1 u rows Hu h x Hx) as [H1 H2]. pose proof (proj2 (ru_n _ _ _ Hu)).
  unfold a, b, N in *. repeat split; lia.
Qed.

Lemma rows_ne y : y ∈ rows -> y.1 <> [].
Proof. intros Hy. apply list_elem_of_lookup in Hy as [s Hs]. destruct y as [ws p]. by destruct (ru_row _ _ _ Hu s ws p Hs) as (_ & _ & ? & _). Qed.

Lemma first_view q : q ∈ fs -> view m1 q = view m q.
Proof. intros Hq. rewrite (tm_view _ _ _ Htrim), decide_False; [done|]. by apply (proj2 (rows_split rows rows_ne)); [apply Hu|]. Qed.

Lemma rest_view y : y ∉ concat rows.*1 -> view m1 y = view m y /\ y ∉ fs.
Proof.
  intros Hy. rewrite (proj1 (rows_split rows rows_ne)) in Hy. split; [|unfold fs; tauto]. rewrite (tm_view _ _ _ Htrim), decide_False; [done|tauto].
Qed.

Lemma blank_m1 e : ids l1 e = ∅ -> blank_row m (sr l1 e).
Proof.
  intros He. destruct (tm_empty _ _ _ Htrim e He) as [E|[E1 E2]]; unfold l1; [left; rewrite E; lia|].
  destruct (rw_cells _ Hm1 e) as (_ & _ & [E|E]); [left; rewrite E; lia|]. right. exists e. split; [done|]. split; [done|]. congruence.
Qed.

Section gathered_cells.
Context (m3 : llama_memory_recurrent) (f : nat -> nat) (Hf : moved a b l2 (r_cells m3) f).
Context (Hmeta3 : same_meta m1 m3).
Context (Htl3 : forall s q, s < N -> fs !! s = Some q -> tl (r_cells m3) q = Z.of_nat (a + s)).
Let l3 := r_cells m3.

Lemma cells2 : cells_inv m1 fs N l2.
Proof. apply Hx. Qed.

Lemma take_fs : take N fs = fs.
Proof. apply take_ge. unfold fs, firsts, N. by rewrite length_fmap. Qed.

Lemma fs_index q : q ∈ fs -> exists s, s < N /\ fs !! s = Some q.
Proof.
  intros Hq. apply list_elem_of_lookup in Hq as [s Hs]. exists s. split; [|done]. apply lookup_lt_Some in Hs. unfold fs, firsts in Hs. by rewrite length_fmap in Hs.
Qed.

(** The cells outside the slot are nobody's of the ubatch. *)
Lemma rest_cell j : ~ a <= f j < a + N -> (ids l2 j = ∅ <-> ids l1 j = ∅) /\ ps l2 j = ps l1 j /\ sr l2 j = sr l1 j.
Proof.
  intros Hj. apply (ci_same _ _ _ _ cells2). intros y Hy E. rewrite take_fs in Hy. destruct (fs_index y Hy) as (s & Hs & Hys).
  pose proof (Htl3 s y Hs Hys) as E3. pose proof (mv_tl _ _ _ _ _ Hf y j E) as E4. lia.
Qed.

(** A sequence that is not of the ubatch is outside the slot. *)
Lemma rest_tail y j : y ∉ fs -> tl l2 y = Z.of_nat j -> tl l3 y = Z.of_nat (f j) /\ ~ a <= f j < a + N.
Proof.
  intros Hy E. split; [by apply (mv_tl _ _ _ _ _ Hf)|]. intros Hr. destruct (lookup_lt_is_Some_2 fs (f j - a)) as [q Hq].
  { unfold fs, firsts. rewrite length_fmap. fold N. lia. }
  pose proof (Htl3 (f j - a) q ltac:(lia) Hq) as E3. destruct (fs_tail m1 rows h x Hx q ltac:(by eapply list_elem_of_lookup_2)) as (k & Ek & _ & Hun).
  pose proof (mv_tl _ _ _ _ _ Hf q k Ek) as E4. assert (k = j) as -> by (apply (mv_inj _ _ _ _ _ Hf); lia). apply Hun in E. subst y. apply Hy. by eapply list_elem_of_lookup_2.
Qed.

Lemma tl2_cases y : tl l2 y = (-1)%Z \/ exists j, tl l2 y = Z.of_nat j.
Proof. pose proof (ci_range _ _ _ _ cells2 y) as [H _]. destruct (decide (tl l2 y = (-1)%Z)); [by left|]. right. exists (Z.to_nat (tl l2 y)). fold l2 in H. lia. Qed.

(** What the first sequences hold before their positions are written. *)
Lemma first_cell s q : s < N -> fs !! s = Some q ->
  match view m q with
  | Some (_, p, r) => ps l3 (a + s) = p /\ sr l3 (a + s) = r
  | None => ps l3 (a + s) = (-1)%Z /\ blank_row m (sr l3 (a + s)) end.
Proof.
  intros Hs Hq. assert (q ∈ fs) as Hin by (by eapply list_elem_of_lookup_2). rewrite <- (first_view q Hin).
  destruct (fs_tail m1 rows h x Hx q Hin) as (j & Ej & _). pose proof (mv_tl _ _ _ _ _ Hf q j Ej) as E3. rewrite (Htl3 s q Hs Hq) in E3.
  assert (a + s = f j) as -> by lia. unfold l3. rewrite (mv_ps _ _ _ _ _ Hf), (mv_sr _ _ _ _ _ Hf).
  destruct (view m1 q) as [[[j0 p] r]|] eqn:Ev.
  - apply view_Some in Ev as (E1 & <- & <-). destruct (ci_flow _ _ _ _ cells2 q j0 E1) as (k & Ek & Ep & Er). fold l2 in Ek, Ej. assert (k = j) as -> by lia. done.
  - apply view_None in Ev; [|apply Hm1]. destruct (ci_new _ _ _ _ cells2 q j Ev Ej) as (E1 & E2 & E4). fold l2 in E2, E4. rewrite E2, E4. split; [done|]. by apply blank_m1.
Qed.

Lemma fit3 s : s < N -> (ps l3 (a + s) < 0)%Z \/ (0 <= ps l3 (a + s) + Z.of_nat (u_n_seq_tokens u) <= INT32_MAX)%Z.
Proof.
  intros Hs. destruct (lookup_lt_is_Some_2 fs s) as [q Hq]; [unfold fs, firsts; by rewrite length_fmap|]. pose proof (first_cell s q Hs Hq) as H.
  assert (q ∈ fs) as Hin by (by eapply list_elem_of_lookup_2). destruct (view m q) as [[[j p] r]|] eqn:Ev.
  - right. destruct H as [-> _]. pose proof (Hfit q j p r Hin Ev). rewrite <- (first_view q Hin) in Ev. apply view_Some in Ev as (E1 & <- & _).
    apply (lk_iff _ (rw_links _ Hm1)) in E1. destruct (rw_cells _ Hm1 j) as (_ & H2 & _). specialize (H2 ltac:(set_solver)). lia.
  - left. destruct H as [-> _]. lia.
Qed.

(** No source is a cell outside the memory, and a cell nobody copies from is at hand. *)
Lemma sr3_range j : (-1 <= sr l3 j < sizeZ m1)%Z.
Proof.
  destruct (mv_onto _ _ _ _ _ Hf j) as [i <-]. unfold l3. rewrite (mv_sr _ _ _ _ _ Hf). pose proof (rw_head _ Hm1) as Hh. pose proof (ci_len _ _ _ _ cells2) as Hl2.
  assert (forall k, ids l2 k <> ∅ -> (Z.of_nat k < sizeZ m1)%Z) as Hk.
  { intros k Hne. destruct (decide (k < length l2)); [unfold sizeZ, r_size; lia|]. exfalso. apply Hne, fld_ge. lia. }
  destruct (ci_src _ _ _ _ cells2 i) as [E|[E|(o & E & Hne)]]; fold l2 in E; rewrite E; [lia| |].
  - destruct (decide (i < length l2)); [unfold sizeZ, r_size; lia|]. rewrite fld_ge in E by lia. lia.
  - specialize (Hk o Hne). lia.
Qed.

Lemma free3 : (exists j, a <= j <= b /\ (sr l3 j < 0)%Z) -> exists i, a <= i <= b /\ forall j, sr l3 j <> Z.of_nat i.
Proof.
  intros (j & Hj & Hneg). destruct (mv_onto _ _ _ _ _ Hf j) as [i <-]. unfold l3 in *. rewrite (mv_sr _ _ _ _ _ Hf) in Hneg. apply (moved_range _ _ _ _ _ _ Hf) in Hj.
  destruct (ci_free _ _ _ _ cells2) as [Hall|(y & Hy & Hall)].
  - exists i. split; [done|]. intros k. destruct (mv_onto _ _ _ _ _ Hf k) as [k' <-]. rewrite (mv_sr _ _ _ _ _ Hf). fold l2 in Hall. rewrite Hall in *. intros E.
    destruct (rw_cells _ Hm1 k') as (_ & _ & [E'|E']); [lia|]. assert (k' = i) as -> by lia. lia.
  - rewrite take_fs in Hy. destruct (fs_tail m1 rows h x Hx y Hy) as (e & Ee & He & _). exists e. split; [done|]. intros k. destruct (mv_onto _ _ _ _ _ Hf k) as [k' <-].
    rewrite (mv_sr _ _ _ _ _ Hf). rewrite <- Ee. apply Hall.
Qed.

Section finished.
Context (m4 : llama_memory_recurrent) (Hw : written rows m3 a N m4).
Context (m5 : llama_memory_recurrent) (Hg : staged m4 a b (b + 1) m5).
Let l5 := r_cells m5.

(** The fields at the end. *)
Lemma tl5 y : tl l5 y = tl (r_cells m4) y.
Proof. apply (sg_same _ _ _ _ _ Hg). Qed.

Lemma row5 s ws p : rows !! s = Some (ws, p) ->
  (forall y, y ∈ ws -> tl l5 y = Z.of_nat (a + s)) /\ ids l5 (a + s) = id_set ws /\ ps l5 (a + s) = p /\ sr l5 (a + s) = Z.of_nat (a + s).
Proof.
  intros Hr. pose proof (lookup_lt_Some _ _ _ Hr) as Hs. fold N in Hs. destruct ab_Z as (_ & _ & Hab & _ & _). destruct (wr_set _ _ _ _ _ Hw s ws p Hs Hr) as (H1 & H2 & H3).
  destruct (sg_same _ _ _ _ _ Hg (a + s)) as (_ & G2 & G3). split; [intros y Hy; rewrite tl5; by apply H1|]. unfold l5. rewrite G2, G3, H2, H3. split; [done|]. split; [done|].
  rewrite (sg_sr _ _ _ _ _ Hg), decide_True by lia. done.
Qed.

Lemma rest5 j : ~ a <= f j < a + N -> ids l5 (f j) = ids l2 j /\ ps l5 (f j) = ps l2 j /\ sr (r_cells m4) (f j) = sr l2 j /\ (f j < a \/ b < f j -> sr l5 (f j) = sr l2 j /\ f j = j).
Proof.
  intros Hj. destruct (sg_same _ _ _ _ _ Hg (f j)) as (_ & G2 & G3). destruct (wr_rest _ _ _ _ _ Hw (f j) Hj) as [W1 W2]. pose proof (wr_sr _ _ _ _ _ Hw (f j)) as W3.
  unfold l5. rewrite G2, G3, W1, W2, (mv_ids _ _ _ _ _ Hf), (mv_ps _ _ _ _ _ Hf). rewrite (mv_sr _ _ _ _ _ Hf) in W3. split; [done|]. split; [done|]. split; [done|].
  intros Ho. rewrite (sg_sr _ _ _ _ _ Hg), decide_False by lia. split; [done|]. destruct (decide (a <= j <= b)) as [Hr|Hr]; [apply (moved_range _ _ _ _ _ _ Hf) in Hr; lia|].
  apply (mv_fix _ _ _ _ _ Hf). lia.
Qed.

Lemma tl5_rest y : y ∉ concat rows.*1 -> (tl l2 y = (-1)%Z -> tl l5 y = (-1)%Z) /\ (forall j, tl l2 y = Z.of_nat j -> tl l5 y = Z.of_nat (f j) /\ ~ a <= f j < a + N).
Proof.
  intros Hy. rewrite tl5. rewrite (wr_tl _ _ _ _ _ Hw) by (by rewrite take_ge by (unfold N; lia)). split; [apply (mv_none _ _ _ _ _ Hf)|].
  intros j E. apply rest_tail; [by apply rest_view|done].
Qed.

Lemma source5 j : a <= j <= b -> source_of m5 j (sr (r_cells m4) j).
Proof.
  intros Hj. pose proof (sg_src0 _ _ _ _ _ Hg j ltac:(lia)) as E. unfold source_of. rewrite E. destruct (Z.ltb_spec (sr (r_cells m4) j) 0) as [Hneg|Hpos]; [left|right].
  - split; [done|]. split; [|done]. by apply (sg_needed _ _ _ _ _ Hg j).
  - split; [done|]. split; [done|]. destruct (sg_zero _ _ _ _ _ Hg) as [E'|(i & _ & E' & Hall)]; rewrite E'; [lia|]. apply Hall.
Qed.

Lemma links5 : linked l5.
Proof.
  split.
  - intros y k. destruct (decide (y ∈ concat rows.*1)) as [Hy|Hy].
    + apply list_elem_of_In, in_concat in Hy as (ws & Hws & Hy). apply list_elem_of_In in Hy. apply list_elem_of_In, list_elem_of_fmap in Hws as ([ws' p] & -> & Hws).
      apply list_elem_of_lookup in Hws as [s Hs]. destruct (row5 s ws' p Hs) as (R1 & R2 & _). rewrite (R1 y Hy). split.
      * intros E. assert (k = a + s) as -> by lia. rewrite R2. by apply elem_of_id_set.
      * intros Hk. f_equal. destruct (decide (a <= k < a + N)) as [Hr|Hr].
        -- destruct (lookup_lt_is_Some_2 rows (k - a)) as [[ws p2] Hs2]; [fold N; lia|]. destruct (row5 _ _ _ Hs2) as (Q1 & Q2 & _).
           replace (a + (k - a)) with k in * by lia. rewrite Q2 in Hk. apply (proj1 (elem_of_id_set _ _)), Q1 in Hk. rewrite (R1 y Hy) in Hk. lia.
        -- exfalso. destruct (mv_onto _ _ _ _ _ Hf k) as [i <-]. destruct (rest5 i Hr) as (E1 & _). rewrite E1 in Hk. apply (ci_in _ _ _ _ cells2) in Hk as Ht. fold l2 in Ht.
           assert (y ∈ concat rows.*1) as Hyc by (by eapply row_elem). apply (proj1 (rows_split rows rows_ne)) in Hyc as [Hyf|Hys].
           ++ destruct (fs_index y Hyf) as (s' & Hs' & Hq'). pose proof (Htl3 s' y Hs' Hq') as E3. pose proof (mv_tl _ _ _ _ _ Hf y i Ht) as E4. lia.
           ++ pose proof (tm_view _ _ _ Htrim y) as Hv. rewrite decide_True in Hv by done. apply view_None in Hv; [|apply Hm1]. fold l1 in Hv.
              destruct (decide (y ∈ fs)) as [Hyf|Hyf]; [by apply (proj2 (rows_split rows rows_ne) (ru_nodup _ _ _ Hu) y Hyf)|].
              pose proof (ci_rest _ _ _ _ cells2 y) as E3. rewrite take_fs in E3. specialize (E3 Hyf). fold l2 l1 in E3. lia.
    + destruct (tl5_rest y Hy) as [T1 T2]. destruct (rest_view y Hy) as [_ Hyf]. destruct (tl2_cases y) as [E|(j & E)].
      * rewrite (T1 E). split; [lia|]. intros Hk. exfalso. destruct (decide (a <= k < a + N)) as [Hr|Hr].
        -- destruct (lookup_lt_is_Some_2 rows (k - a)) as [[ws p2] Hs2]; [fold N; lia|]. destruct (row5 _ _ _ Hs2) as (Q1 & Q2 & _).
           replace (a + (k - a)) with k in * by lia. rewrite Q2 in Hk. apply (proj1 (elem_of_id_set _ _)) in Hk. apply Hy. by eapply row_elem.
        -- destruct (mv_onto _ _ _ _ _ Hf k) as [i <-]. destruct (rest5 i Hr) as (E1 & _). rewrite E1 in Hk. apply (ci_in _ _ _ _ cells2) in Hk as Ht. fold l2 in Ht. lia.
      * destruct (T2 j E) as [E5 Hr]. rewrite E5. destruct (rest5 j Hr) as (E1 & _). split.
        -- intros Ek. assert (k = f j) as -> by lia. rewrite E1. destruct (ci_out _ _ _ _ cells2 y j E) as [|(_ & _ & H)]; [done|]. by rewrite take_fs in H.
        -- intros Hk. f_equal. destruct (decide (a <= k < a + N)) as [Hrk|Hrk].
           ++ exfalso. destruct (lookup_lt_is_Some_2 rows (k - a)) as [[ws p2] Hs2]; [fold N; lia|]. destruct (row5 _ _ _ Hs2) as (Q1 & Q2 & _).
              replace (a + (k - a)) with k in * by lia. rewrite Q2 in Hk. apply (proj1 (elem_of_id_set _ _)) in Hk. apply Hy. by eapply row_elem.
           ++ destruct (mv_onto _ _ _ _ _ Hf k) as [i <-]. destruct (rest5 i Hrk) as (E1' & _). rewrite E1' in Hk. apply (ci_in _ _ _ _ cells2) in Hk as Ht. fold l2 in Ht.
              assert (i = j) as -> by lia. done.
  - intros y. destruct (decide (y ∈ concat rows.*1)) as [Hy|Hy].
    + apply list_elem_of_In, in_concat in Hy as (ws & Hws & Hy). apply list_elem_of_In in Hy. apply list_elem_of_In, list_elem_of_fmap in Hws as ([ws' p] & -> & Hws).
      apply list_elem_of_lookup in Hws as [s Hs]. rewrite (proj1 (row5 s ws' p Hs) y Hy). lia.
    + destruct (tl5_rest y Hy) as [T1 T2]. destruct (tl2_cases y) as [E|(j & E)]; [rewrite (T1 E); lia|]. rewrite (proj1 (T2 j E)). lia.
  - intros k z Hz. destruct (decide (a <= k < a + N)) as [Hrk|Hrk].
    + destruct (lookup_lt_is_Some_2 rows (k - a)) as [[ws p2] Hs2]; [fold N; lia|]. destruct (row5 _ _ _ Hs2) as (Q1 & Q2 & _).
      replace (a + (k - a)) with k in * by lia. rewrite Q2 in Hz. unfold id_set in Hz. apply elem_of_list_to_set, list_elem_of_fmap in Hz as (i & -> & _). lia.
    + destruct (mv_onto _ _ _ _ _ Hf k) as [i <-]. destruct (rest5 i Hrk) as (E1' & _). rewrite E1' in Hz. by apply (ci_id _ _ _ _ cells2 i).
Qed.

Lemma cells5 k : cell_ok l5 k.
Proof.
  destruct ab_Z as (_ & _ & Hab & Hb & _). destruct (decide (a <= k < a + N)) as [Hrk|Hrk].
  - destruct (lookup_lt_is_Some_2 rows (k - a)) as [[ws p] Hs]; [fold N; lia|]. destruct (row5 _ _ _ Hs) as (_ & Q2 & Q3 & Q4). replace (a + (k - a)) with k in * by lia.
    destruct (ru_row _ _ _ Hu _ ws p Hs) as (_ & _ & Hne & _ & Hp). unfold cell_ok. rewrite Q2, Q3, Q4. split; [|split; [done|by right]].
    intros E. destruct ws as [|w ws]; [done|]. assert (Z.of_nat w ∈ id_set (w :: ws)) as Hin by (apply elem_of_id_set; by left). rewrite E in Hin. set_solver.
  - destruct (mv_onto _ _ _ _ _ Hf k) as [i <-]. destruct (rest5 i Hrk) as (E1 & E2 & E3 & E4). destruct (rest_cell i Hrk) as (F1 & F2 & F3).
    destruct (rw_cells _ Hm1 i) as (C1 & C2 & C3). fold l1 in C1, C2, C3. unfold cell_ok. rewrite E1, E2, F1, F2. split; [done|]. split; [done|].
    destruct (decide (f i < a \/ b < f i)) as [Ho|Ho].
    + destruct (E4 Ho) as [-> ->]. by rewrite F3.
    + right. unfold l5. rewrite (sg_sr _ _ _ _ _ Hg), decide_True by lia. done.
Qed.

Definition finish (m5 : llama_memory_recurrent) : llama_memory_recurrent :=
  set_used (Z.of_nat (cnt (fun c => negb (is_empty c)) (r_cells m5)))
    (set_n (u32 (f_max x - f_min x + 1)) (set_head (u32 (f_min x)) m5)).

Lemma finish_range : r_head (finish m5) = Z.of_nat a /\ r_n (finish m5) = (Z.of_nat b - Z.of_nat a + 1)%Z.
Proof.
  destruct ab_Z as (Ea & Eb & Hab & Hb & Hn). pose proof (rw_size _ Hm1) as Hz. unfold sizeZ in Hz. unfold finish; simpl. rewrite Ea, Eb, !u32_nat by lia. done.
Qed.

Lemma in_slot5 j : in_slot (finish m5) j <-> a <= j <= b.
Proof. unfold in_slot. destruct finish_range as [-> ->]. lia. Qed.

Lemma rest_found y : y ∉ concat rows.*1 -> match view m y with
    | None => view (finish m5) y = None
    | Some (j, p, r) => exists j' r', view (finish m5) y = Some (j', p, r') /\
        (in_slot (finish m5) j' /\ r' = Z.of_nat j' /\ source_of (finish m5) j' r \/ ~ in_slot (finish m5) j' /\ j' = j /\ r' = r) end.
Proof.
  intros Hy. destruct (tl5_rest y Hy) as [T1 T2]. destruct (rest_view y Hy) as [<- Hyf].
  assert (tl l2 y = tl l1 y) as E2. { apply (ci_rest _ _ _ _ cells2). by rewrite take_fs. }
  destruct (view m1 y) as [[[j p] r]|] eqn:Ev.
  - apply view_Some in Ev as (E1 & Ep & Er). fold l1 in E1, Ep, Er. rewrite <- E2 in E1. destruct (T2 j E1) as [E5 Hr]. destruct (rest5 j Hr) as (_ & R2 & R3 & R4).
    destruct (rest_cell j Hr) as (_ & F2 & F3). exists (f j). setoid_rewrite in_slot5. destruct (decide (a <= f j <= b)) as [Hin|Hout].
    + exists (Z.of_nat (f j)). split; [apply view_Some; change (r_cells (finish m5)) with l5; rewrite E5, R2; split; [done|]; split; [congruence|]; unfold l5; rewrite (sg_sr _ _ _ _ _ Hg), decide_True by lia; done|].
      left. split; [done|]. split; [done|]. pose proof (source5 (f j) Hin) as Hs. rewrite R3, F3, Er in Hs. exact Hs.
    + destruct (R4 ltac:(lia)) as [R5 R6]. exists r. split; [apply view_Some; change (r_cells (finish m5)) with l5; rewrite E5, R2, R5; split; [done|]; split; congruence|]. right. split; [lia|]. split; [done|]. done.
  - apply view_None in Ev; [|apply Hm1]. fold l1 in Ev. apply view_None; [apply links5|]. apply T1. congruence.
Qed.

Lemma slot_found_done : slot_found rows m (finish m5).
Proof.
  destruct ab_Z as (Ea & Eb & Hab & Hb & HN). destruct finish_range as [Eh En]. pose proof (tm_meta _ _ _ Htrim) as Hs1. pose proof (sg_meta _ _ _ _ _ Hg) as Hs5. pose proof (wr_meta _ _ _ _ _ Hw) as Hs4.
  assert (same_meta m m5) as Hsame by (etrans; [done|]; etrans; [done|]; by etrans).
  assert (r_size (finish m5) = r_size m1) as Hsz. { change (r_size (finish m5)) with (r_size m5). rewrite (sm_size _ _ Hsame). symmetry. apply Hs1. }
  split.
  - pose proof Hm1 as Hm1'. apply (rec_wf_intro m1); try done.
    + change (n_rs_seq (finish m5)) with (n_rs_seq m5). rewrite (sm_n_rs _ _ Hsame). symmetry. apply Hs1.
    + change (rs_idx (finish m5)) with (rs_idx m5). rewrite (sm_rs _ _ Hsame), <- (sm_rs _ _ Hs1). apply (proj2 (rw_rs _ Hm1)).
    + rewrite Eh. unfold sizeZ. lia.
    + apply links5.
    + apply cells5.
  - split; [apply (sm_n_rs _ _ Hsame)|]. split; [apply (sm_rs _ _ Hsame)|]. apply (sm_size _ _ Hsame).
  - rewrite Eh, En. unfold sizeZ. rewrite <- (sm_size _ _ Hs1). fold N. lia.
  - intros s ws p Hr. rewrite Eh, Nat2Z.id. cbv zeta. destruct (row5 s ws p Hr) as (R1 & R2 & R3 & R4). split; [|done].
    intros y Hy. apply view_Some. split; [by apply R1|]. done.
  - apply rest_found.
  - intros s ws p q Hr Hq. rewrite Eh, Nat2Z.id. cbv zeta. pose proof (lookup_lt_Some _ _ _ Hr) as Hs. fold N in Hs.
    pose proof (first_cell s q Hs) as Hc. unfold fs in Hc. rewrite (firsts_lookup m1 u rows Hu s ws p Hr) in Hc. specialize (Hc Hq).
    pose proof (source5 (a + s) ltac:(lia)) as Hsrc. pose proof (wr_sr _ _ _ _ _ Hw (a + s)) as E4. rewrite E4 in Hsrc.
    destruct (view m q) as [[[j p'] r]|]; destruct Hc as [_ Hc]; [|by exists (sr l3 (a + s))]. fold l3 in Hsrc. rewrite Hc in Hsrc. exact Hsrc.
  - intros j He Hsr. rewrite in_slot5. change (r_cells (finish m5)) with l5 in He, Hsr. assert (~ a <= j < a + N) as Hj.
    { intros Hj. destruct (lookup_lt_is_Some_2 rows (j - a)) as [[ws p] Hr]; [fold N; lia|]. destruct (row5 _ _ _ Hr) as (_ & R2 & _). replace (a + (j - a)) with j in R2 by lia.
      destruct (ru_row _ _ _ Hu _ ws p Hr) as (_ & _ & Hne & _). destruct ws as [|w ws]; [done|]. rewrite R2 in He.
      assert (Z.of_nat w ∈ id_set (w :: ws)) as Hin by (apply elem_of_id_set; by left). rewrite He in Hin. set_solver. }
    destruct (mv_onto _ _ _ _ _ Hf j) as [i <-]. destruct (rest5 i Hj) as (E1 & _ & E3 & E4). destruct (rest_cell i Hj) as (F1 & _ & F3). rewrite E1 in He. apply F1 in He as He1.
    destruct (decide (a <= f i <= b)) as [Hin|Hout].
    + left. split; [done|]. exists (sr (r_cells m4) (f i)). split; [|by apply source5]. rewrite E3, F3. by apply blank_m1.
    + right. split; [done|]. destruct (E4 ltac:(lia)) as [E5 E6]. rewrite E5, E6, F3 in Hsr. rewrite E6.
      destruct (tm_empty _ _ _ Htrim i He1) as [E|[G1 G2]]; [unfold l1 in *; lia|]. split; [done|]. unfold l1 in Hsr. congruence.
  - intros j Hj%in_slot5. exists (sr (r_cells m4) j). split; [by apply source5|]. rewrite (wr_sr _ _ _ _ _ Hw). unfold sizeZ. rewrite <- (sm_size _ _ Hs1). apply sr3_range.
  - change (rs_z (finish m5)) with (rs_z m5). destruct (sg_zero _ _ _ _ _ Hg) as [|(i & Hi & E & _)]; [by left|right]. exists i. split; [done|]. by apply in_slot5.
Qed.
End finished.
End gathered_cells.
End assemble.

(** ** [find_slot] *)

Lemma rec_find_slot_ok m u rows : rec_wf m -> rec_ubatch u (r_size m) rows ->
  (forall q j p r, q ∈ firsts rows -> view m q = Some (j, p, r) -> (p + Z.of_nat (u_n_seq_tokens u) <= INT32_MAX)%Z) ->
  exists m', find_slot u m = Ok (true, m') /\ slot_found rows m m'.
Proof.
  intros Hm Hu Hfit. unfold find_slot. cbv zeta.
  set (m0 := if (_ <? _)%Z then set_head 0 m else m).
  assert (rec_wf m0 /\ r_cells m0 = r_cells m /\ n_rs_seq m0 = n_rs_seq m /\ rs_idx m0 = rs_idx m) as (Hm0 & Hc0 & Hn0 & Hr0).
  { unfold m0. destruct (_ <? _)%Z; [|done]. split; [|done]. pose proof (rw_rs _ Hm) as [_ ?]. apply (rec_wf_intro m); try done; try apply Hm. simpl. pose proof (rw_head _ Hm). lia. }
  clearbody m0. assert (r_size m0 = r_size m) as Hs0 by (unfold r_size; by rewrite Hc0). assert (forall y, view m0 y = view m y) as Hv0 by (intros y; unfold view; by rewrite Hc0).
  rewrite (assert_true _ (ru_equal _ _ _ Hu)). cbn [mbind outcome_bind]. rewrite <- Hs0 in Hu.
  destruct (check_sets_ok u m0 rows Hm0 Hu) as (m1 & -> & Ht). cbn [mbind outcome_bind negb]. pose proof (tm_wf _ _ _ Ht) as Hm1.
  rewrite <- (sm_size _ _ (tm_meta _ _ _ Ht)) in Hu. destruct (find_cells_ok m1 Hm1 u rows Hu) as (h & x & -> & Hx). cbn [mbind outcome_bind].
  destruct (gather_ok m1 u rows Hu h x Hx) as (m3 & -> & [Hs3 [f Hf] Ht3]). cbn [mbind outcome_bind].
  assert (forall q j p r, q ∈ firsts rows -> view m0 q = Some (j, p, r) -> (p + Z.of_nat (u_n_seq_tokens u) <= INT32_MAX)%Z) as Hfit0 by (intros q j p r; rewrite Hv0; apply Hfit).
  destruct (ab_Z m1 u rows Hu h x Hx) as (Ea & Eb & Hab & Hb & HN). set (a := Z.to_nat (f_min x)) in *. set (b := Z.to_nat (f_max x)) in *. rewrite Ea, Eb.
  pose proof (sm_size _ _ Hs3) as Hs3z. pose proof Hu as Hu3. rewrite <- Hs3z in Hu3.
  destruct (write_sets_ok u (r_size m3) rows Hu3 m3 eq_refl a) as (m4 & -> & Hw); [lia| |].
  { intros s Hs. by apply (fit3 m0 m1 u rows Hu Ht Hfit0 h x Hx m3 f Hf Hs3 Ht3). }
  cbn [mbind outcome_bind]. pose proof (wr_meta _ _ _ _ _ Hw) as Hs4. pose proof (sm_size _ _ Hs4) as Hs4z.
  assert (forall j, sr (r_cells m4) j = sr (r_cells m3) j) as Hsr4 by apply Hw.
  destruct (stage_sources_ok m4 a b) as (m5 & -> & Hg); [lia|lia| | |].
  { intros j. rewrite Hsr4. unfold sizeZ. rewrite Hs4z, Hs3z. apply (sr3_range m0 m1 rows Ht h x Hx m3 f Hf). }
  { intros (j & Hj & Hneg). rewrite Hsr4 in Hneg. destruct (free3 m0 m1 rows Ht h x Hx m3 f Hf) as (i & Hi & Hall); [by exists j|]. exists i. split; [done|]. intros k. rewrite Hsr4. apply Hall. }
  cbn [mbind outcome_bind]. pose proof (slot_found_done m0 m1 u rows Hu Ht h x Hx m3 f Hf Hs3 Ht3 m4 Hw m5 Hg) as Hdone. unfold finish in Hdone. rewrite Ea, Eb in Hdone.
  set (m' := set_used _ _) in *. exists m'. destruct (sf_range _ _ _ Hdone) as (_ & _ & Hn). rewrite (proj2 (Z.leb_le _ _)) by (rewrite (proj1 (ru_n _ _ _ Hu)); exact Hn). split; [done|].
  destruct Hdone as [D1 D2 D3 D4 D5 D6 D7 D8 D9]. split; try done.
  - rewrite <- Hn0, <- Hr0, <- Hs0. done.
  - unfold sizeZ in *. rewrite <- Hs0. done.
  - intros y Hy. rewrite <- Hv0. by apply D5.
  - intros s ws p q H1 H2. rewrite <- Hv0. specialize (D6 s ws p q H1 H2). cbv zeta in *. destruct (view m0 q) as [[[? ?] ?]|]; [done|]. unfold blank_row in *. rewrite <- Hc0. done.
  - intros j H1 H2. unfold blank_row in *. rewrite <- Hc0. by apply D7.
  - intros j Hj. destruct (D8 j Hj) as (r & H1 & H2). exists r. split; [done|]. unfold sizeZ in *. by rewrite <- Hs0.
Qed.
