(* ===== verification/RecurrentDemo.v ===== *)
(** * Recurrent memory: a small memory used in witnesses, and observations

    A memory of four cells with a ubatch of two sequence sets placed in it.  The lemmas
    at the end compute what the code does on inputs outside the preconditions of the
    theorems. *)

From S2P Require Import KvCells BatchInit.
From S2P Require Export RecurrentDone.
Open Scope nat_scope.

Definition per_token {A} (nt : nat) (rows : list (list nat * Z)) (f : nat -> list nat * Z -> A) : list A :=
  concat ((fun x => (fun i => f i x) <$> seq 0 nt) <$> rows).

Definition rec_demo_ubatch (nt : nat) (rows : list (list nat * Z)) : llama_ubatch :=
  let N := length rows in
  mk_ubatch true (N * nt) nt N N 1 (Some (replicate (N * nt) 0%Z)) None
    (per_token nt rows (fun i x => (x.2 - Z.of_nat nt + 1 + Z.of_nat i)%Z)) (per_token nt rows (fun _ x => Z.of_nat (length x.1)))
    (per_token nt rows (fun _ x => Z.of_nat <$> x.1)) [] [] (replicate (N * nt) 0%Z).

Definition rec_demo_rows : list (list nat * Z) := [([0], 4%Z); ([2; 3], 4%Z)].
Definition rec_demo_rows2 : list (list nat * Z) := [([3], 5%Z); ([1], 0%Z)].

Definition rec_demo_rows3 : list (list nat * Z) := [([0], 6%Z)].
Definition rec_demo_batch : list llama_ubatch := [rec_demo_ubatch 1 rec_demo_rows2; rec_demo_ubatch 2 rec_demo_rows3].

Definition rec_demo_new : llama_memory_recurrent := new_recurrent 4 4 2.
Definition rec_demo : llama_memory_recurrent :=
  match find_slot (rec_demo_ubatch 5 rec_demo_rows) rec_demo_new with Ok (_, m) => m | Err _ => rec_demo_new end.

Lemma rec_demo_ubatch_ok : rec_ubatch (rec_demo_ubatch 5 rec_demo_rows) 4 rec_demo_rows.
Proof.
  split; [reflexivity|simpl; lia|simpl; lia| | |].
  - intros s ws p H. cbv zeta. destruct s as [|[|s]]; [..|done]; injection H as <- <-; (split; [reflexivity|split; [reflexivity|split; [done|split; [reflexivity|unfold INT32_MAX; lia]]]]).
  - apply (bool_decide_unpack _). vm_compute. exact I.
  - apply (bool_decide_unpack _). vm_compute. exact I.
Qed.

Lemma rec_demo_ubatch2_ok : rec_ubatch (rec_demo_ubatch 1 rec_demo_rows2) 4 rec_demo_rows2.
Proof.
  split; [reflexivity|simpl; lia|simpl; lia| | |].
  - intros s ws p H. cbv zeta. destruct s as [|[|s]]; [..|done]; injection H as <- <-; (split; [reflexivity|split; [reflexivity|split; [done|split; [reflexivity|unfold INT32_MAX; lia]]]]).
  - apply (bool_decide_unpack _). vm_compute. exact I.
  - apply (bool_decide_unpack _). vm_compute. exact I.
Qed.

Lemma rec_demo_ubatch3_ok : rec_ubatch (rec_demo_ubatch 2 rec_demo_rows3) 4 rec_demo_rows3.
Proof.
  split; [reflexivity|simpl; lia|simpl; lia| | |].
  - intros s ws p H. cbv zeta. destruct s as [|s]; [|done]; injection H as <- <-. split; [reflexivity|split; [reflexivity|split; [done|split; [reflexivity|unfold INT32_MAX; lia]]]].
  - apply (bool_decide_unpack _). vm_compute. exact I.
  - apply (bool_decide_unpack _). vm_compute. exact I.
Qed.

Lemma new_recurrent_wf mem_size n_seq_max n_rs : 0 < mem_size -> (Z.of_nat mem_size <= INT32_MAX)%Z -> (0 <= n_rs <= INT32_MAX)%Z ->
  rec_wf (new_recurrent mem_size n_seq_max n_rs) /\ forall y, view (new_recurrent mem_size n_seq_max n_rs) y = None.
Proof.
  intros H0 H1 H2. set (m := new_recurrent mem_size n_seq_max n_rs). assert (forall {A} (p : mem_cell -> A) d j, p new_mem_cell = d -> fld p d (r_cells m) j = d) as Hf.
  { intros A p d j <-. unfold fld, m; simpl. destruct (replicate mem_size new_mem_cell !! j) eqn:E; [|done]. by apply lookup_replicate in E as [-> _]. }
  assert (forall j, tl (r_cells m) j = (-1)%Z /\ ids (r_cells m) j = ∅) as H by (intros j; split; by apply Hf).
  assert (sizeZ m = Z.of_nat mem_size) as Hs by (unfold sizeZ, r_size, m; simpl; by rewrite length_replicate).
  split; [|intros y; unfold view; by rewrite (proj1 (H y))].
  split.
  - split.
    + intros s j. destruct (H s) as [-> _]. destruct (H j) as [_ ->]. split; [lia|set_solver].
    + intros s. destruct (H s) as [-> _]. lia.
    + intros j z. destruct (H j) as [_ ->]. set_solver.
  - intros j. unfold cell_ok. rewrite (proj2 (H j)), !Hf by done. split; [done|]. split; [done|by left].
  - unfold used_cells. rewrite cnt_zero; [done|]. intros c Hc. unfold m in Hc; simpl in Hc. apply elem_of_replicate in Hc as [-> _]. done.
  - rewrite Hs. simpl. lia.
  - by rewrite Hs.
  - split; [done|]. unfold m; simpl. apply Forall_forall. intros z Hz. apply elem_of_replicate in Hz as [-> _]. lia.
Qed.

Lemma rec_demo_wf : rec_wf rec_demo.
Proof.
  destruct (new_recurrent_wf 4 4 2) as [Hm Hv]; [lia|unfold INT32_MAX; lia|unfold INT32_MAX; lia|].
  destruct (rec_find_slot_ok rec_demo_new (rec_demo_ubatch 5 rec_demo_rows) rec_demo_rows Hm rec_demo_ubatch_ok) as (m' & E & Hf).
  - intros q j p r _. by rewrite Hv.
  - unfold rec_demo. rewrite E. apply Hf.
Qed.

Lemma rec_demo_fits q j p r : q ∈ firsts rec_demo_rows2 -> view rec_demo q = Some (j, p, r) ->
  (p + Z.of_nat (u_n_seq_tokens (rec_demo_ubatch 1 rec_demo_rows2)) <= INT32_MAX)%Z.
Proof.
  assert (view rec_demo 3 = Some (1, 4%Z, 1%Z) /\ view rec_demo 1 = None) as [E3 E1] by (split; vm_compute; reflexivity).
  intros Hq Ev. change (q ∈ [3; 1]) in Hq. apply elem_of_cons in Hq as [->|Hq%list_elem_of_singleton]; [|subst; rewrite E1 in Ev; discriminate].
  rewrite E3 in Ev. injection Ev as <- <- <-. unfold INT32_MAX. simpl. lia.
Qed.

(** ** Observations *)

(** Removing everything with a negative sequence id empties the cells but leaves the tails;
    the next ubatch of such a sequence fails an assertion of [find_slot]. *)
Lemma rm_all_leaves_tails : exists m', seq_rm (-1) (-1) (-1) rec_demo = Ok (true, m') /\ r_used m' = 0%Z /\
  tl (r_cells m') 0 = 0%Z /\ ids (r_cells m') 0 = ∅ /\ find_slot (rec_demo_ubatch 1 [([0], 0%Z)]) m' = Err AssertFailed.
Proof. eexists. split; [vm_compute; reflexivity|]. split; [reflexivity|]. split; [reflexivity|]. split; [reflexivity|]. vm_compute. reflexivity. Qed.

(** A pending rollback survives [seq_keep] of another sequence: when sequence 0 starts
    again, its state is read from a snapshot row (1 * 4 + [rs_z]) and not from the cleared row. *)
Lemma keep_leaves_rollback : exists m1 m2 m3 m4 row, seq_rm 0 4 (-1) rec_demo = Ok (true, m1) /\ seq_keep 2 m1 = Ok m2 /\ view m2 0 = None /\
  find_slot (rec_demo_ubatch 1 [([0], 0%Z)]) m2 = Ok (true, m3) /\ rs_z m3 = 0%Z /\ s_copy 0 m3 = Ok (row, m4) /\ row = (1 * 4 + rs_z m3)%Z.
Proof. do 5 eexists. split; [vm_compute; reflexivity|]. split; [vm_compute; reflexivity|]. split; [reflexivity|]. split; [vm_compute; reflexivity|]. split; [reflexivity|]. split; [vm_compute; reflexivity|]. reflexivity. Qed.

(** Rolling back one sequence of a shared cell moves the position of the others, whose own
    rollback index stays 0. *)
Lemma rollback_moves_sharers : exists m1, seq_rm 2 4 (-1) rec_demo = Ok (true, m1) /\ view rec_demo 3 = Some (1, 4%Z, 1%Z) /\ view m1 3 = Some (1, 3%Z, 1%Z) /\
  rs_idx m1 = [0; 0; 1; 0]%Z.
Proof. eexists. split; [vm_compute; reflexivity|]. split; [reflexivity|]. split; reflexivity. Qed.

(** Two rollbacks by one token end at the same position as one rollback by two tokens, but
    with the rollback index 1 instead of 2. *)
Lemma rollbacks_do_not_add_up : exists m1 m2 m, seq_rm 0 4 (-1) rec_demo = Ok (true, m1) /\ seq_rm 0 3 (-1) m1 = Ok (true, m2) /\
  seq_rm 0 3 (-1) rec_demo = Ok (true, m) /\ r_cells m2 = r_cells m /\ rs_idx m2 = [1; 0; 0; 0]%Z /\ rs_idx m = [2; 0; 0; 0]%Z.
Proof.
  do 3 eexists. split; [vm_compute; reflexivity|]. split; [vm_compute; reflexivity|]. split; [vm_compute; reflexivity|]. split; [reflexivity|]. split; reflexivity.
Qed.
