(* ===== verification/RecurrentProps.v ===== *)
(** * Recurrent memory: theorems

    Sequence operations refine their specification, [find_slot] puts a ubatch in
    consecutive cells, the states follow their sequences through the graph, a prepared
    batch is placed, and every memory that is ever reached is well-formed. *)

From stdpp Require Import relations.
From S2P Require Import KvCells BatchInit.
From S2P Require Export RecurrentDone RecurrentDemo.
Open Scope nat_scope.

(** ** Sequence operations *)

Lemma spec_move_id m x p0 p1 f y : (forall p, f p = p) -> spec_move x p0 p1 f (view m) y = view m y.
Proof.
  intros Hf. unfold spec_move. destruct (at_seq (view m) x) as [[[j p] r]|] eqn:E; [|done]. destruct (in_range p0 p1 p); [|done]. rewrite Hf.
  unfold move_cell, at_seq in *. destruct (_ <? 0)%Z; [done|]. apply view_Some in E as (_ & E2 & _).
  destruct (view m y) as [[[j' p'] r']|] eqn:E'; [|done]. destruct (Nat.eqb_spec j' j) as [->|]; [|done]. apply view_Some in E' as (_ & <- & _). by rewrite E2.
Qed.

Lemma seq_add_ok m x p0 p1 d : rec_wf m -> rec_op_pre (OpAdd x p0 p1 d) (view m) ->
  exists m', seq_add x p0 p1 d m = Ok m' /\ rec_wf m' /\ forall y, view m' y = spec_move x p0 p1 (fun p => (p + d)%Z) (view m) y.
Proof.
  intros Hm Hpre. unfold seq_add. destruct (Z.eqb_spec d 0) as [->|Hd].
  - exists m. split; [done|]. split; [done|]. intros y. symmetry. apply spec_move_id. intros p. apply Z.add_0_r.
  - apply on_tail_pos_ok; [done|]. intros j p r E1 E2 _. specialize (Hpre j p r E1 E2). split; [|done]. apply i32_in. unfold INT32_MIN. lia.
Qed.

Lemma seq_div_ok m x p0 p1 d : rec_wf m -> (0 < d)%Z ->
  exists m', seq_div x p0 p1 d m = Ok m' /\ rec_wf m' /\ forall y, view m' y = spec_move x p0 p1 (fun p => (p ÷ d)%Z) (view m) y.
Proof.
  intros Hm Hpre. unfold seq_div. destruct (Z.eqb_spec d 1) as [->|Hd].
  - exists m. split; [done|]. split; [done|]. intros y. symmetry. apply spec_move_id. apply Z.quot_1_r.
  - apply on_tail_pos_ok; [done|]. intros j p r E1 _ Hp. assert (p <= INT32_MAX)%Z.
    { unfold at_seq in E1. destruct (_ <? 0)%Z; [done|]. apply view_Some in E1 as (E1 & <- & _). apply (lk_iff _ (rw_links _ Hm)) in E1.
      destruct (rw_cells _ Hm j) as (_ & H2 & _). apply H2. set_solver. }
    assert (0 <= p ÷ d <= p)%Z by (split; [apply Z.quot_pos; lia|apply Z.quot_le_upper_bound; nia]).
    split; [|lia]. unfold i32_div. rewrite (proj2 (Z.eqb_neq _ _)) by lia. apply i32_in. unfold INT32_MIN, INT32_MAX in *. lia.
Qed.

Lemma rec_op_ok op m : rec_wf m -> rec_op_pre op (view m) ->
  exists m', run_rec_op op m = Ok ((spec_rec_op (n_rs_seq m) (r_size m) op (view m)).1, m') /\ rec_wf m' /\
    forall y, view m' y = (spec_rec_op (n_rs_seq m) (r_size m) op (view m)).2 y.
Proof.
  intros Hm Hpre. destruct op as [|x p0 p1|x i|a b p0 p1|x|x p0 p1 d|x p0 p1 d]; cbn [run_rec_op].
  - destruct (clear_ok m Hm). by exists (clear m).
  - by apply seq_rm_ok.
  - by apply seq_rm_cell_ok.
  - destruct Hpre. destruct (seq_cp_ok m a b p0 p1) as (m' & -> & Hr); [done..|]. by exists m'.
  - destruct (seq_keep_ok m Hm x) as (m' & -> & H). by exists m'.
  - destruct (seq_add_ok m x p0 p1 d Hm Hpre) as (m' & -> & H). by exists m'.
  - destruct (seq_div_ok m x p0 p1 d Hm Hpre) as (m' & -> & H). by exists m'.
Qed.



(** ** Finding a slot *)

(** C22: [find_slot] cannot fail on a well-formed memory: a ubatch of equal, distinct
    sequence sets within the memory finds an empty cell whenever one is needed, no
    assertion fails, and it answers [true] with a well-formed memory in which the set
    number [s] lives in cell [head + s] with its last position, while every other sequence
    keeps its position. *)
Theorem find_slot_places m u rows : rec_wf m -> rec_ubatch u (r_size m) rows ->
  (forall q j p r, q ∈ firsts rows -> view m q = Some (j, p, r) -> (p + Z.of_nat (u_n_seq_tokens u) <= INT32_MAX)%Z) ->
  exists m', find_slot u m = Ok (true, m') /\ rec_wf m' /\
    (0 <= r_head m' /\ r_head m' + r_n m' <= sizeZ m /\ Z.of_nat (u_n_seqs u) <= r_n m')%Z /\
    (forall s ws p y, rows !! s = Some (ws, p) -> y ∈ ws ->
       let j := Z.to_nat (r_head m') + s in view m' y = Some (j, p, Z.of_nat j) /\ ids (r_cells m') j = id_set ws) /\
    (forall y, y ∉ concat rows.*1 -> (fun v => v.1.2) <$> view m' y = (fun v => v.1.2) <$> view m y).
Proof.
  intros Hm Hu Hfit. destruct (rec_find_slot_ok m u rows Hm Hu Hfit) as (m' & E & [D1 D2 D3 D4 D5 D6 D7 D8 D9]). exists m'. split; [done|]. split; [done|].
  split; [by rewrite (proj1 (ru_n _ _ _ Hu))|]. split.
  - intros s ws p y Hr Hy. cbv zeta. destruct (D4 s ws p Hr) as [H1 H2]. split; [by apply H1|done].
  - intros y Hy. specialize (D5 y Hy). destruct (view m y) as [[[j p] r]|]; [|by rewrite D5]. destruct D5 as (j' & r' & -> & _). done.
Qed.

Lemma find_slot_places_witness : rec_wf rec_demo /\ rec_ubatch (rec_demo_ubatch 1 rec_demo_rows2) (r_size rec_demo) rec_demo_rows2 /\
  exists m', find_slot (rec_demo_ubatch 1 rec_demo_rows2) rec_demo = Ok (true, m') /\
    let h := Z.to_nat (r_head m') in view m' 3 = Some (h, 5%Z, Z.of_nat h) /\ ids (r_cells m') h = id_set [3] /\
    (fun v => v.1.2) <$> view m' 2 = Some 4%Z.
Proof.
  split; [exact rec_demo_wf|]. split; [exact rec_demo_ubatch2_ok|].
  destruct (find_slot_places rec_demo (rec_demo_ubatch 1 rec_demo_rows2) rec_demo_rows2 rec_demo_wf rec_demo_ubatch2_ok rec_demo_fits) as (m' & E & _ & _ & Hset & Hrest).
  exists m'. split; [exact E|]. cbv zeta. assert (3 ∈ [3]) as H3 by (by left). destruct (Hset 0 [3] 5%Z 3 eq_refl H3) as [H1 H2]. rewrite Nat.add_0_r in H1, H2.
  split; [exact H1|]. split; [exact H2|]. rewrite Hrest; [vm_compute; reflexivity|]. apply (bool_decide_unpack _). vm_compute. exact I.
Defined.

(** The first cells of a slot are the sets of the ubatch. *)
Lemma slot_head_cell m m' u rows j : rec_ubatch u (r_size m) rows -> slot_found rows m m' -> (r_head m' <= Z.of_nat j < r_head m' + Z.of_nat (length rows))%Z ->
  ids (r_cells m') j <> ∅ /\ forall y, Z.of_nat y ∈ ids (r_cells m') j -> y ∈ concat rows.*1.
Proof.
  intros Hu Hf Hj. pose proof (sf_range _ _ _ Hf) as (H0 & _). destruct (lookup_lt_is_Some_2 rows (j - Z.to_nat (r_head m'))) as [[ws p] Hr]; [lia|].
  destruct (sf_set _ _ _ Hf _ _ _ Hr) as [_ E]. replace (Z.to_nat (r_head m') + (j - Z.to_nat (r_head m'))) with j in E by lia. rewrite E.
  destruct (ru_row _ _ _ Hu _ ws p Hr) as (_ & _ & Hne & _). split.
  - destruct ws as [|w ws]; [done|]. intros E2. assert (Z.of_nat w ∈ id_set (w :: ws)) as Hw by (apply elem_of_id_set; by left). rewrite E2 in Hw. set_solver.
  - intros y Hy%elem_of_id_set. by eapply row_elem.
Qed.

(** ** States *)
Section states.
Context {state : Type} (zero : state).

(** The content of a source. *)
Definition row_state (states : list state) (r : Z) : option state := if (r <? 0)%Z then Some zero else states !! Z.to_nat r.

(** The state of a sequence: the row its cell is copied from. *)
Definition state_of (m : llama_memory_recurrent) (states : list state) (y : nat) : option state :=
  match view m y with Some (_, _, r) => row_state states r | None => None end.

(** Rows of empty cells that are not cleared again have been cleared. *)
Definition blank_ok (m : llama_memory_recurrent) (states : list state) : Prop :=
  forall j, ids (r_cells m) j = ∅ -> sr (r_cells m) j = Z.of_nat j -> states !! j = Some zero.

Definition cleared (m : llama_memory_recurrent) (states : list state) : list state :=
  if (rs_z m <? 0)%Z then states else <[Z.to_nat (rs_z m) := zero]> states.

Lemma cleared_source m states j r : source_of m j r -> (-1 <= r < Z.of_nat (length states))%Z -> (-1 <= rs_z m < Z.of_nat (length states))%Z ->
  exists v, arr_get (cleared m states) (s0 (r_cells m) j) = Ok v /\ row_state states r = Some v.
Proof.
  intros H Hr Hz. unfold row_state, cleared. destruct H as [(H1 & H2 & ->)|(H1 & -> & H3)].
  - rewrite (proj2 (Z.ltb_lt r 0)), (proj2 (Z.ltb_ge (rs_z m) 0)) by lia. exists zero. split; [|done]. rewrite <- (Z2Nat.id (rs_z m)) at 2 by lia.
    apply arr_get_Z. apply list_lookup_insert_eq. lia.
  - rewrite (proj2 (Z.ltb_ge r 0)) by lia. destruct (lookup_lt_is_Some_2 states (Z.to_nat r) ltac:(lia)) as [v Hv]. exists v. split; [|done].
    rewrite <- (Z2Nat.id r) by lia. apply arr_get_Z. destruct (Z.ltb_spec (rs_z m) 0); [done|]. rewrite list_lookup_insert_ne by lia. done.
Qed.

(** Without pending rollback the sources are read as they were staged. *)
Lemma set_input_rs_ok m x : Forall (fun r => r = 0%Z) (rs_idx m) -> rx_full x = false -> (0 <= r_head m)%Z -> (r_head m + r_n m <= sizeZ m)%Z -> (sizeZ m <= INT32_MAX)%Z ->
  (forall j, in_slot m j -> (-1 <= s0 (r_cells m) j < sizeZ m)%Z) ->
  set_input_rs x m = Ok ((fun i => s0 (r_cells m) (Z.to_nat (r_head m) + i)) <$> seq 0 (Z.to_nat (r_n m)), m).
Proof.
  intros Hrs Hx Hh Hn Hs Hsrc. unfold set_input_rs, get_n_rs. rewrite Hx.
  assert (forall i, i < Z.to_nat (r_n m) -> s_copy i m = Ok (s0 (r_cells m) (Z.to_nat (r_head m) + i), m)) as Hc.
  { intros i Hi. unfold s_copy. rewrite u32_nat by (unfold INT32_MAX in *; lia). replace (Z.of_nat i + r_head m)%Z with (Z.of_nat (Z.to_nat (r_head m) + i)) by lia.
    destruct (cell_at_lt m (Z.to_nat (r_head m) + i)) as (c & Hc & Ec); [unfold sizeZ in *; lia|]. rewrite Ec. cbn [mbind outcome_bind].
    rewrite (fld_Some c_src0 (-1)%Z _ _ _ Hc). destruct (_ =? 0)%Z; [done|]. destruct (setZ_list (c_seq_id c)) as [|q ?]; [done|].
    destruct (Z.leb_spec 0 q); [|done]. destruct (Z.ltb_spec q (Z.of_nat (length (rs_idx m)))); [|done]. cbn [andb].
    destruct (lookup_lt_is_Some_2 (rs_idx m) (Z.to_nat q) ltac:(lia)) as [v Hv]. rewrite Forall_forall in Hrs. assert (v = 0%Z) as -> by (apply Hrs; by eapply list_elem_of_lookup_2).
    rewrite <- (Z2Nat.id q) by done. rewrite (arr_get_Z _ _ _ Hv). cbn [mbind outcome_bind]. rewrite Nat2Z.id, Z.mul_0_l. change (to_i32 (u32 0)) with 0%Z.
    pose proof (Hsrc (Z.to_nat (r_head m) + i)) as H1. rewrite (fld_Some c_src0 (-1)%Z _ _ _ Hc) in H1. specialize (H1 ltac:(unfold in_slot; lia)).
    rewrite Z.add_0_l, i32_in by (unfold INT32_MIN; lia). cbn [mbind outcome_bind]. rewrite list_insert_id by done. by destruct m. }
  destruct (foldM_seq (fun y i => r ← s_copy i y.2; Ok (y.1 ++ [r.1], r.2)) (fun k y => y = ((fun i => s0 (r_cells m) (Z.to_nat (r_head m) + i)) <$> seq 0 k, m)) 0 (Z.to_nat (r_n m)) ([], m)) as (y & E & ->); [done| |done].
  intros k y Hk ->. cbn [snd fst]. rewrite Hc by lia. cbn [mbind outcome_bind fst snd]. eexists. split; [done|]. f_equal. rewrite Nat.add_1_r, seq_S, fmap_app. done.
Qed.

(** What the graph reads for cell [j]. *)
Definition read_state (m : llama_memory_recurrent) (states : list state) (j : nat) : state :=
  match arr_get (cleared m states) (s0 (r_cells m) j) with Ok v => v | Err _ => zero end.

Lemma build_rs_ok m states N : (0 <= r_head m)%Z -> (r_head m + r_n m <= sizeZ m)%Z -> (Z.of_nat N <= r_n m)%Z -> (sizeZ m <= Z.of_nat (length states))%Z ->
  (-1 <= rs_z m < sizeZ m)%Z -> (forall j, in_slot m j -> exists r, source_of m j r /\ (-1 <= r < sizeZ m)%Z) ->
  let h := Z.to_nat (r_head m) in
  exists rows', build_rs zero states ((fun i => s0 (r_cells m) (h + i)) <$> seq 0 (Z.to_nat (r_n m))) N (r_head m) (rs_z m) =
      Ok ((fun i => read_state m states (h + i)) <$> seq 0 N, rows') /\
    length rows' = length states /\
    forall j, rows' !! j = if decide (h + N <= j < h + Z.to_nat (r_n m)) then Some (read_state m states j) else cleared m states !! j.
Proof.
  intros Hh Hn HN Hlen Hz Hslot h. unfold build_rs.
  assert ((if (0 <=? rs_z m)%Z then arr_set states (rs_z m) zero else Ok states) = Ok (cleared m states)) as ->.
  { unfold cleared. destruct (Z.leb_spec 0 (rs_z m)), (Z.ltb_spec (rs_z m) 0); try lia; [|done]. rewrite <- (Z2Nat.id (rs_z m)) at 1 by done. apply arr_set_Z. lia. }
  cbn [mbind outcome_bind]. assert (length (cleared m states) = length states) as Hcl by (unfold cleared; destruct (_ <? 0)%Z; [done|apply length_insert]).
  replace (Z.to_nat (r_n m)) with (N + (Z.to_nat (r_n m) - N)) by lia. rewrite seq_app, fmap_app. rewrite take_app_length', drop_app_length' by (by rewrite length_fmap, length_seq).
  assert (forall i, i < Z.to_nat (r_n m) -> arr_get (cleared m states) (s0 (r_cells m) (h + i)) = Ok (read_state m states (h + i))) as Hread.
  { intros i Hi. destruct (Hslot (h + i)) as (r & Hs & Hr); [unfold in_slot; lia|]. destruct (cleared_source m states (h + i) r Hs) as (v & Ev & _); [lia|lia|]. unfold read_state. by rewrite Ev. }
  assert (forall a k, a + k <= Z.to_nat (r_n m) -> mapM (fun z => arr_get (cleared m states) z) ((fun i => s0 (r_cells m) (h + i)) <$> seq a k) =
    Ok ((fun i => read_state m states (h + i)) <$> seq a k)) as Hmap.
  { intros a k Hak. assert (forall l, Forall (fun i => i < Z.to_nat (r_n m)) l -> mapM (fun z => arr_get (cleared m states) z) ((fun i => s0 (r_cells m) (h + i)) <$> l) = Ok ((fun i => read_state m states (h + i)) <$> l)) as H.
    { induction 1 as [|i l Hi Hl IH]; [done|]. cbn [fmap list_fmap mapM]. rewrite Hread by done. cbn [mbind outcome_bind]. rewrite IH. done. }
    apply H, Forall_forall. intros i Hi%elem_of_seq. lia. }
  rewrite (Hmap 0 N) by lia. cbn [mbind outcome_bind]. rewrite (Hmap (0 + N) (Z.to_nat (r_n m) - N)) by lia. cbn [mbind outcome_bind]. rewrite Nat.add_0_l.
  set (ex := (fun i => read_state m states (h + i)) <$> seq N (Z.to_nat (r_n m) - N)). assert (length ex = Z.to_nat (r_n m) - N) as Hex by (unfold ex; by rewrite length_fmap, length_seq).
  assert (forall k, k < length ex -> ex !! k = Some (read_state m states (h + N + k))) as Hexk.
  { intros k Hk. unfold ex. rewrite list_lookup_fmap, lookup_seq_lt by lia. simpl. do 2 f_equal. lia. }
  destruct (foldM_indexed (fun rows (x : nat * state) => arr_set rows (r_head m + Z.of_nat (N + x.1)) x.2)
    (fun k rows => length rows = length states /\ forall j, rows !! j = if decide (h + N <= j < h + N + k) then Some (read_state m states j) else cleared m states !! j) ex (cleared m states)) as (rows' & -> & Hl & Hr).
  - split; [done|]. intros j. by rewrite decide_False by lia.
  - intros k v rows Hk [Hl Hr]. pose proof (lookup_lt_Some _ _ _ Hk) as Hkl. rewrite (Hexk k Hkl) in Hk. injection Hk as <-. cbn [fst snd].
    replace (r_head m + Z.of_nat (N + k))%Z with (Z.of_nat (h + N + k)) by lia. rewrite arr_set_Z by (unfold sizeZ in *; lia). eexists. split; [done|]. rewrite length_insert. split; [done|].
    intros j. destruct (decide (j = h + N + k)) as [->|Hj].
    + rewrite list_lookup_insert_eq by (unfold sizeZ in *; lia). by rewrite decide_True by lia.
    + rewrite list_lookup_insert_ne by done. rewrite Hr. repeat case_decide; try done; lia.
  - cbn [mbind outcome_bind]. exists rows'. split; [done|]. split; [done|]. intros j. rewrite Hr, Hex. repeat case_decide; try done; lia.
Qed.


(** The rows before and after a slot has been filled. *)
Section filled.
Context (m m' : llama_memory_recurrent) (u : llama_ubatch) (rows : list (list nat * Z)) (states : list state).
Context (Hm : rec_wf m) (Hu : rec_ubatch u (r_size m) rows) (Hfound : slot_found rows m m').
Context (Hlen : (sizeZ m <= Z.of_nat (length states))%Z) (Hblank : blank_ok m states).
Let h := Z.to_nat (r_head m').
Lemma filled_size : sizeZ m' = sizeZ m /\ (0 <= r_head m')%Z /\ (r_head m' + r_n m' <= sizeZ m)%Z /\ (Z.of_nat (length rows) <= r_n m')%Z /\ (-1 <= rs_z m' < sizeZ m)%Z.
Proof.
  destruct (sf_range _ _ _ Hfound) as (H1 & H2 & H3). split; [unfold sizeZ; by rewrite (proj2 (proj2 (sf_rs _ _ _ Hfound)))|]. do 3 (split; [done|]).
  destruct (sf_zero _ _ _ Hfound) as [->|(i & -> & Hi)]; [pose proof (rw_head _ Hm); lia|]. unfold in_slot in Hi. lia.
Qed.

Lemma row_read j r : source_of m' j r -> (r < sizeZ m)%Z -> row_state states r = Some (read_state m' states j).
Proof.
  intros Hsrc Hr. destruct filled_size as (_ & _ & _ & _ & Hz). destruct (Z.ltb_spec r (-1)).
  - unfold read_state, row_state. destruct Hsrc as [(_ & H2 & ->)|?]; [|lia]. rewrite (proj2 (Z.ltb_lt r 0)) by lia. unfold cleared. rewrite (proj2 (Z.ltb_ge _ _)) by lia.
    rewrite <- (Z2Nat.id (rs_z m')) at 2 by lia. rewrite (arr_get_Z _ _ zero); [done|]. apply list_lookup_insert_eq. lia.
  - destruct (cleared_source m' states j r Hsrc) as (v & Ev & ->); [lia|lia|]. unfold read_state. by rewrite Ev.
Qed.

Lemma src_lt j : (sr (r_cells m) j < sizeZ m)%Z.
Proof.
  destruct (rw_cells _ Hm j) as (_ & _ & [->|Ej]); [pose proof (rw_head _ Hm); lia|]. destruct (decide (j < r_size m)); [unfold sizeZ; lia|].
  rewrite fld_ge in Ej by (unfold r_size in *; lia). lia.
Qed.

Lemma view_src y v : view m y = Some v -> (v.2 < sizeZ m)%Z.
Proof. destruct v as [[j p] r]. intros Ev. apply view_Some in Ev as (_ & _ & <-). apply src_lt. Qed.

Lemma blank_zero r : blank_row m r -> (r < sizeZ m)%Z /\ row_state states r = Some zero.
Proof.
  intros [Hr|(e & -> & H1 & H2)]; [split; [pose proof (rw_head _ Hm); lia|unfold row_state; by rewrite (proj2 (Z.ltb_lt r 0))]|]. split; [rewrite <- H2; apply src_lt|].
  unfold row_state. rewrite (proj2 (Z.ltb_ge _ _)), Nat2Z.id by lia. by apply Hblank.
Qed.

Lemma first_state s ws p q : rows !! s = Some (ws, p) -> head ws = Some q -> read_state m' states (h + s) = default zero (state_of m states q).
Proof.
  intros Hr Hq. pose proof (sf_source _ _ _ Hfound s ws p q Hr Hq) as H. cbv zeta in H. fold h in H. unfold state_of. pose proof (view_src q) as Hv.
  destruct (view m q) as [[[j p'] r]|].
  - by rewrite (row_read (h + s) r H) by (apply (Hv _ eq_refl)).
  - destruct H as (r & Hb & Hsrc). destruct (blank_zero r Hb) as [H1 H2]. rewrite (row_read (h + s) r Hsrc H1) in H2. by injection H2 as ->.
Qed.

Context (news states' : list state) (Hnews : length news = length rows).
Context (Hl' : length states' = length states).
Context (Hst : forall j, states' !! j = if decide (h + length rows <= j < h + Z.to_nat (r_n m')) then Some (read_state m' states j) else cleared m' states !! j).
Let after := list_inserts h news states'.

Lemma after_new s : s < length rows -> after !! (h + s) = news !! s.
Proof.
  intros Hs. destruct filled_size as (_ & H1 & H2 & H3 & _). unfold after. rewrite list_lookup_inserts; [by replace (h + s - h) with s by lia|lia|]. unfold sizeZ in *. lia.
Qed.

Lemma after_kept j : ~ h <= j < h + length rows -> after !! j = states' !! j.
Proof. intros Hj. unfold after. destruct (decide (j < h)); [by rewrite list_lookup_inserts_lt|]. by rewrite list_lookup_inserts_ge by lia. Qed.

Lemma after_outside j : ~ in_slot m' j -> after !! j = states !! j.
Proof.
  destruct filled_size as (_ & H1 & H2 & H3 & _). unfold in_slot. intros Hj. rewrite after_kept, Hst, decide_False by lia. unfold cleared.
  destruct (Z.ltb_spec (rs_z m') 0); [done|]. rewrite list_lookup_insert_ne; [done|]. intros Ez.
  destruct (sf_zero _ _ _ Hfound) as [|(i & Ei & Hi)]; [lia|]. unfold in_slot in Hi. lia.
Qed.

(** A cell of the slot that is not of the ubatch. *)
Lemma after_slot j : in_slot m' j -> (ids (r_cells m') j = ∅ \/ exists y, Z.of_nat y ∈ ids (r_cells m') j /\ y ∉ concat rows.*1) ->
  after !! j = Some (read_state m' states j).
Proof.
  destruct filled_size as (_ & H1 & H2 & H3 & _). intros Hin Hj. destruct (decide (h + length rows <= j)) as [Hge|Hlt].
  - unfold in_slot in Hin. rewrite after_kept, Hst, decide_True by lia. done.
  - exfalso. unfold in_slot in Hin. destruct (slot_head_cell m m' u rows j Hu Hfound) as [E1 E2]; [lia|]. destruct Hj as [|(y & Hy & Hn)]; [done|by apply Hn, E2].
Qed.

Lemma rest_state y : y ∉ concat rows.*1 -> state_of m' after y = state_of m states y.
Proof.
  intros Hy. pose proof (sf_rest _ _ _ Hfound y Hy) as H. unfold state_of. pose proof (view_src y) as Hv. destruct (view m y) as [[[j p] r]|]; [|by rewrite H].
  destruct H as (j' & r' & Ev & H). rewrite Ev. specialize (Hv _ eq_refl). simpl in Hv. apply view_Some in Ev as (Et & _ & Er).
  pose proof (sf_wf _ _ _ Hfound) as Hm'. destruct H as [(Hin & -> & Hsrc)|(Hin & -> & ->)].
  - rewrite (row_read j' r Hsrc Hv). unfold row_state. rewrite (proj2 (Z.ltb_ge _ _)), Nat2Z.id by lia. apply after_slot; [done|]. right. exists y. split; [|done].
    by apply (lk_iff _ (rw_links _ Hm')).
  - unfold row_state. destruct (Z.ltb_spec r 0); [done|]. destruct (rw_cells _ Hm' j) as (_ & _ & [E1|E1]); [lia|].
    assert (r = Z.of_nat j) as -> by congruence. rewrite Nat2Z.id. by apply after_outside.
Qed.

Lemma blank_after : blank_ok m' after.
Proof.
  intros j He Esr. destruct (sf_blank _ _ _ Hfound j He Esr) as [(Hin & r & Hb & Hsrc)|(Hin & H1 & H2)].
  - destruct (blank_zero r Hb) as [Hr Hzero]. rewrite (row_read j r Hsrc Hr) in Hzero. injection Hzero as <-. apply after_slot; [done|by left].
  - rewrite after_outside by done. by apply Hblank.
Qed.

End filled.

(** C7: the states follow their sequences.  Without pending rollback (every [rs_idx] is 0)
    and while the rows of blank cells hold the zero state, after [find_slot] the graph is
    given for every set of the ubatch the state its first sequence had before (the zero
    state when it had no cell); every other sequence has the state it had, wherever its
    cell was moved; once the graph has written the new states in the first cells of the
    slot, all sequences of a set have the new state of that set, and the rows of blank
    cells hold the zero state again. *)
Theorem states_follow_sequences m u rows states news : rec_wf m -> rec_ubatch u (r_size m) rows ->
  (forall q j p r, q ∈ firsts rows -> view m q = Some (j, p, r) -> (p + Z.of_nat (u_n_seq_tokens u) <= INT32_MAX)%Z) ->
  Forall (fun r => r = 0%Z) (rs_idx m) -> (sizeZ m <= Z.of_nat (length states))%Z -> blank_ok m states -> length news = length rows ->
  exists m' copy out states', find_slot u m = Ok (true, m') /\
    set_input_rs (context_batch [u]) m' = Ok (copy, m') /\
    build_rs zero states copy (u_n_seqs u) (get_head (context_batch [u]) m') (get_rs_z (context_batch [u]) m') = Ok (out, states') /\
    (forall s ws p q, rows !! s = Some (ws, p) -> head ws = Some q -> out !! s = Some (default zero (state_of m states q))) /\
    let after := list_inserts (Z.to_nat (r_head m')) news states' in
    (forall y, y ∉ concat rows.*1 -> state_of m' after y = state_of m states y) /\
    (forall s ws p y, rows !! s = Some (ws, p) -> y ∈ ws -> state_of m' after y = news !! s) /\
    blank_ok m' after.
Proof.
  intros Hm Hu Hfit Hrs Hlen Hblank Hnews. destruct (rec_find_slot_ok m u rows Hm Hu Hfit) as (m' & E & Hf).
  destruct (filled_size m m' rows states Hm Hf) as (Hs & Dh & Dr & DN & Hz). destruct (sf_rs _ _ _ Hf) as (_ & Drs & _). pose proof (sf_slot _ _ _ Hf) as Hslot. rewrite <- Hs in Dr, Hz, Hslot.
  destruct (build_rs_ok m' states (length rows)) as (states' & Eb & Hl' & Hst); [done..|by rewrite Hs|done|done|]. set (h := Z.to_nat (r_head m')) in *.
  exists m', ((fun i => s0 (r_cells m') (h + i)) <$> seq 0 (Z.to_nat (r_n m'))), ((fun i => read_state m' states (h + i)) <$> seq 0 (length rows)), states'.
  split; [done|]. split; [|split; [rewrite (proj1 (ru_n _ _ _ Hu)); exact Eb|split; [|split; [|split]]]].
  - apply set_input_rs_ok; try done; [by rewrite Drs|apply Hf|]. intros j Hj. destruct (Hslot j Hj) as (r & [(_ & _ & ->)|(_ & -> & _)] & Hr); lia.
  - intros s ws p q Hr Hq. pose proof (lookup_lt_Some _ _ _ Hr). rewrite list_lookup_fmap, lookup_seq_lt by done. simpl. f_equal.
    by apply (first_state m m' rows states Hm Hf Hlen Hblank s ws p q).
  - by apply (rest_state m m' u rows states Hm Hu Hf Hlen news states').
  - intros s ws p y Hr Hy. destruct (sf_set _ _ _ Hf s ws p Hr) as [H1 _]. unfold state_of. rewrite (H1 y Hy). unfold row_state. fold h.
    rewrite (proj2 (Z.ltb_ge _ _)), Nat2Z.id by lia. apply (after_new m m' rows states Hm Hf Hlen news states'); try done. by eapply lookup_lt_Some.
  - by apply (blank_after m m' u rows states Hm Hu Hf Hlen Hblank news states').
Qed.
End states.

Definition rec_demo_states : list Z := [10; 20; 0; 0]%Z.

Lemma rec_demo_blank : blank_ok 0%Z rec_demo rec_demo_states.
Proof.
  intros j H1 H2. destruct j as [|[|[|[|j]]]]; [..|]; try reflexivity.
  - exfalso. assert (ids (r_cells rec_demo) 0 <> ∅) as H; [|by apply H]. apply (bool_decide_unpack _). vm_compute. exact I.
  - exfalso. assert (ids (r_cells rec_demo) 1 <> ∅) as H; [|by apply H]. apply (bool_decide_unpack _). vm_compute. exact I.
  - exfalso. rewrite fld_ge in H2 by (assert (length (r_cells rec_demo) = 4) as E by (vm_compute; reflexivity); rewrite E; lia). lia.
Qed.

Lemma states_follow_sequences_witness : rec_wf rec_demo /\ blank_ok 0%Z rec_demo rec_demo_states /\
  (fun y => state_of 0%Z rec_demo rec_demo_states y) <$> [0; 2; 3] = [Some 10; Some 20; Some 20]%Z /\
  exists m' copy out states', find_slot (rec_demo_ubatch 1 rec_demo_rows2) rec_demo = Ok (true, m') /\
    set_input_rs (context_batch [rec_demo_ubatch 1 rec_demo_rows2]) m' = Ok (copy, m') /\
    build_rs 0%Z rec_demo_states copy 2 (r_head m') (rs_z m') = Ok (out, states') /\
    out !! 0 = Some 20%Z /\ out !! 1 = Some 0%Z /\
    let after := list_inserts (Z.to_nat (r_head m')) [31; 32]%Z states' in
    state_of 0%Z m' after 0 = Some 10%Z /\ state_of 0%Z m' after 2 = Some 20%Z /\ state_of 0%Z m' after 3 = Some 31%Z /\ state_of 0%Z m' after 1 = Some 32%Z.
Proof.
  assert (Forall (fun r => r = 0%Z) (rs_idx rec_demo)) as Hrs by (apply (bool_decide_unpack _); vm_compute; exact I).
  assert (sizeZ rec_demo <= Z.of_nat (length rec_demo_states))%Z as Hlen by (vm_compute; discriminate).
  split; [exact rec_demo_wf|]. split; [exact rec_demo_blank|]. split; [vm_compute; reflexivity|].
  destruct (states_follow_sequences 0%Z rec_demo (rec_demo_ubatch 1 rec_demo_rows2) rec_demo_rows2 rec_demo_states [31; 32]%Z
    rec_demo_wf rec_demo_ubatch2_ok rec_demo_fits Hrs Hlen rec_demo_blank eq_refl) as (m' & copy & out & states' & E1 & E2 & E3 & Ho & Hrest & Hset & _).
  exists m', copy, out, states'. split; [exact E1|]. split; [exact E2|]. split; [exact E3|].
  split; [rewrite (Ho 0 [3] 5%Z 3 eq_refl eq_refl); vm_compute; reflexivity|]. split; [rewrite (Ho 1 [1] 0%Z 1 eq_refl eq_refl); vm_compute; reflexivity|].
  cbv zeta. split; [rewrite Hrest by (apply (bool_decide_unpack _); vm_compute; exact I); vm_compute; reflexivity|].
  split; [rewrite Hrest by (apply (bool_decide_unpack _); vm_compute; exact I); vm_compute; reflexivity|].
  split; [rewrite (Hset 0 [3] 5%Z 3 eq_refl ltac:(by left)); reflexivity|]. rewrite (Hset 1 [1] 0%Z 1 eq_refl ltac:(by left)). reflexivity.
Defined.

(** ** Preparing and placing a batch *)

Definition positions (m : llama_memory_recurrent) (y : nat) : option Z := (fun v => v.1.2) <$> view m y.

(** The positions after a ubatch. *)
Definition spec_slot (rows : list (list nat * Z)) (P : nat -> option Z) (y : nat) : option Z :=
  match List.find (fun x => bool_decide (y ∈ x.1)) rows with Some (_, p) => Some p | None => P y end.

(** No position of the memory or the ubatches comes within [K] of the largest one, and no
    ubatch has more than [K] tokens per sequence. *)
Record batch_ok (m : llama_memory_recurrent) (K : Z) (us : list llama_ubatch) (rowss : list (list (list nat * Z))) : Prop := {
  bo_ubatch : Forall2 (fun u rows => rec_ubatch u (r_size m) rows /\ (Z.of_nat (u_n_seq_tokens u) <= K)%Z /\ Forall (fun x => (x.2 <= INT32_MAX - K)%Z) rows) us rowss;
  bo_pos : forall y p, positions m y = Some p -> (p <= INT32_MAX - K)%Z
}.

Lemma place_one m K u rows : rec_wf m -> rec_ubatch u (r_size m) rows -> (Z.of_nat (u_n_seq_tokens u) <= K)%Z -> Forall (fun x => (x.2 <= INT32_MAX - K)%Z) rows ->
  (forall y p, positions m y = Some p -> (p <= INT32_MAX - K)%Z) ->
  exists m', find_slot u m = Ok (true, m') /\ rec_wf m' /\ r_size m' = r_size m /\ rs_idx m' = rs_idx m /\ n_rs_seq m' = n_rs_seq m /\
    (forall y, positions m' y = spec_slot rows (positions m) y) /\ (forall y p, positions m' y = Some p -> (p <= INT32_MAX - K)%Z).
Proof.
  intros Hm Hu HK Hrows Hpos. destruct (rec_find_slot_ok m u rows Hm Hu) as (m' & E & Hf).
  { intros q j p r _ Ev. specialize (Hpos q p). unfold positions in Hpos. rewrite Ev in Hpos. specialize (Hpos eq_refl). lia. }
  destruct (sf_rs _ _ _ Hf) as (E1 & E2 & E3).
  assert (forall y, positions m' y = spec_slot rows (positions m) y) as Hspec.
  { intros y. unfold spec_slot. destruct (List.find _ rows) as [[ws p]|] eqn:Ef.
    - apply find_some in Ef as [Hin Hy]. bprop. apply list_elem_of_In, list_elem_of_lookup in Hin as [s Hs]. unfold positions. by rewrite (proj1 (sf_set _ _ _ Hf s ws p Hs) y Hy).
    - pose proof (sf_rest _ _ _ Hf y) as H. unfold positions. destruct (view m y) as [[[j p] r]|]; [destruct H as (j' & r' & -> & _)|rewrite H]; try done;
        intros Hy; apply list_elem_of_In, in_concat in Hy as (ws & Hws & Hy); apply list_elem_of_In, list_elem_of_fmap in Hws as (x & -> & Hx); apply list_elem_of_In in Hx;
        apply (find_none _ _ Ef) in Hx; apply bool_decide_eq_false in Hx; by apply Hx, list_elem_of_In. }
  exists m'. do 5 (split; [done||apply Hf|]). split; [done|]. intros y p. rewrite Hspec. unfold spec_slot. destruct (List.find _ rows) as [[ws p']|] eqn:Ef; [|apply Hpos].
  apply find_some in Ef as [Hin _]. intros [= ->]. rewrite Forall_forall in Hrows. by apply (Hrows (ws, p)), list_elem_of_In.
Qed.

Lemma spec_slots_ext rowss (P Q : nat -> option Z) y : (forall y, P y = Q y) ->
  foldl (fun P rows => spec_slot rows P) P rowss y = foldl (fun P rows => spec_slot rows P) Q rowss y.
Proof.
  revert P Q. induction rowss as [|rows rowss IH]; intros P Q HPQ; [apply HPQ|]. cbn [foldl]. apply IH. intros z. unfold spec_slot. by rewrite HPQ.
Qed.

Lemma place_all_ok K us rowss : forall m, rec_wf m -> batch_ok m K us rowss ->
  exists m', foldM (fun x u => if negb x.1 then Ok x else find_slot u x.2) us (true, m) = Ok (true, m') /\
    foldM (fun m u => r ← find_slot u m; Ok r.2) us m = Ok m' /\ rec_wf m' /\ rs_idx m' = rs_idx m /\ n_rs_seq m' = n_rs_seq m /\
    forall y, positions m' y = foldl (fun P rows => spec_slot rows P) (positions m) rowss y.
Proof.
  intros m Hm [Hf Hp]. remember (r_size m) as sz. revert m Hm Heqsz Hp. induction Hf as [|u rows us rowss (Hu & HK & Hr) _ IH]; intros m Hm -> Hp; [by exists m|].
  destruct (place_one m K u rows Hm Hu HK Hr Hp) as (m1 & E & Hm1 & Hs1 & Hrs1 & Hn1 & Hspec & Hp1). destruct (IH m1 Hm1 (eq_sym Hs1) Hp1) as (m2 & E1 & E2 & Hm2 & Hrs2 & Hn2 & Hpos).
  exists m2. cbn [foldM fst snd negb]. rewrite E. cbn [mbind outcome_bind snd]. split; [done|]. split; [done|]. split; [done|]. split; [congruence|]. split; [congruence|].
  intros y. rewrite Hpos. cbn [foldl]. by apply spec_slots_ext.
Qed.

Lemma rec_demo_batch_ok : batch_ok rec_demo 5 rec_demo_batch [rec_demo_rows2; rec_demo_rows3].
Proof.
  split.
  - apply Forall2_cons; split; [|apply Forall2_cons; split; [|apply Forall2_nil_2]].
    + split; [exact rec_demo_ubatch2_ok|]. split; [vm_compute; discriminate|]. apply (bool_decide_unpack _). vm_compute. exact I.
    + split; [exact rec_demo_ubatch3_ok|]. split; [vm_compute; discriminate|]. apply (bool_decide_unpack _). vm_compute. exact I.
  - intros y p H. destruct (decide (y < 4)) as [Hy|Hy].
    + assert (Forall (from_option (fun p => (p <= INT32_MAX - 5)%Z) True) (positions rec_demo <$> seq 0 4)) as Hall.
      { assert (positions rec_demo <$> seq 0 4 = [Some 4; None; Some 4; Some 4]%Z) as -> by (vm_compute; reflexivity). repeat constructor; simpl; unfold INT32_MAX; lia. }
      rewrite Forall_forall in Hall. apply (Hall (Some p)). rewrite <- H. apply list_elem_of_fmap_2, elem_of_seq. lia.
    + unfold positions, view in H. rewrite fld_ge in H by (assert (length (r_cells rec_demo) = 4) as E by (vm_compute; reflexivity); rewrite E; lia). done.
Qed.

(** [apply] for every ubatch of a context, in order. *)
Definition apply_all (us : list llama_ubatch) (m : llama_memory_recurrent) : outcome llama_memory_recurrent :=
  foldM (fun m i => r ← apply (mk_recurrent_context KvContext.STATUS_SUCCESS i us false) m; Ok r.2) (seq 0 (length us)) m.

Lemma apply_at us i u m : us !! i = Some u ->
  apply (mk_recurrent_context KvContext.STATUS_SUCCESS i us false) m = r ← find_slot u m; Ok (true, r.2).
Proof.
  intros Hi. unfold apply. cbn [rx_status rx_ubatches rx_i_next]. change (assert_ (negb _)) with (Ok tt). cbn [mbind outcome_bind].
  pose proof (lookup_lt_Some _ _ _ Hi). rewrite (proj2 (Nat.eqb_neq (length us) 0)) by lia. by rewrite (vec_get_Some us i u Hi).
Qed.

Lemma apply_all_find us m : apply_all us m = foldM (fun m u => r ← find_slot u m; Ok r.2) us m.
Proof.
  unfold apply_all. assert (forall pre post m, us = pre ++ post ->
    foldM (fun m i => r ← apply (mk_recurrent_context KvContext.STATUS_SUCCESS i us false) m; Ok r.2) (seq (length pre) (length post)) m =
    foldM (fun m u => r ← find_slot u m; Ok r.2) post m) as H; [|by apply (H [] us)].
  intros pre post. revert pre. induction post as [|u post IH]; intros pre m' Hus; [done|]. cbn [length seq foldM].
  rewrite (apply_at us (length pre) u) by (rewrite Hus; by apply list_lookup_middle).
  cbn [mbind outcome_bind]. destruct (find_slot u m') as [[b m1]|]; cbn [mbind outcome_bind snd]; [|done].
  rewrite <- (IH (pre ++ [u])) by (rewrite <- app_assoc; done). rewrite length_app, Nat.add_1_r. done.
Qed.

(** What a dry run leaves: only [n] and the zero row may differ. *)
Lemma rec_prepare_ok m K us rowss : rec_wf m -> batch_ok m K us rowss ->
  exists mp, prepare us m = Ok (true, mp) /\ (r_cells mp = r_cells m /\ r_head mp = r_head m /\ r_used mp = r_used m /\ rs_idx mp = rs_idx m /\ n_rs_seq mp = n_rs_seq m) /\
    rec_wf mp /\ batch_ok mp K us rowss /\ forall y, positions mp y = positions m y.
Proof.
  intros Hm Hb. destruct (place_all_ok K us rowss m Hm Hb) as (m1 & E1 & _ & _ & Hrs1 & Hn1 & _). unfold prepare. rewrite E1. cbn [mbind outcome_bind].
  eexists. split; [done|]. split; [done|]. split; [|split; [by destruct Hb|done]].
  pose proof (rw_rs _ Hm) as [_ ?]. apply (rec_wf_intro m); try done; try apply Hm. cbn [rs_idx set_head set_used set_cells]. by rewrite Hrs1.
Qed.

(** C23: preparing a batch on a well-formed memory succeeds and leaves cells, head, count
    of used cells and rollback indices as they were, so that placing the ubatches one after
    the other afterwards succeeds as well; it ends in a well-formed memory where every
    sequence has the last position the ubatches gave it. *)
Theorem prepare_then_apply m K us rowss : rec_wf m -> batch_ok m K us rowss ->
  exists mp m', prepare us m = Ok (true, mp) /\
    r_cells mp = r_cells m /\ r_head mp = r_head m /\ r_used mp = r_used m /\ rs_idx mp = rs_idx m /\
    apply_all us mp = Ok m' /\ rec_wf m' /\ rs_idx m' = rs_idx m /\
    forall y, positions m' y = foldl (fun P rows => spec_slot rows P) (positions m) rowss y.
Proof.
  intros Hm Hb. destruct (rec_prepare_ok m K us rowss Hm Hb) as (mp & E & (H1 & H2 & H3 & H4 & _) & Hmp & Hbp & Hp).
  destruct (place_all_ok K us rowss mp Hmp Hbp) as (m2 & _ & E2 & Hm2 & Hrs2 & _ & Hpos).
  exists mp, m2. rewrite apply_all_find. do 7 (split; [done|]). split; [congruence|]. intros y. rewrite Hpos. apply spec_slots_ext, Hp.
Qed.

Lemma prepare_then_apply_witness : rec_wf rec_demo /\ batch_ok rec_demo 5 rec_demo_batch [rec_demo_rows2; rec_demo_rows3] /\
  exists mp m', prepare rec_demo_batch rec_demo = Ok (true, mp) /\ r_cells mp = r_cells rec_demo /\ apply_all rec_demo_batch mp = Ok m' /\
    positions m' <$> [0; 1; 2; 3] = [Some 6; Some 0; Some 4; Some 5]%Z.
Proof.
  split; [exact rec_demo_wf|]. split; [exact rec_demo_batch_ok|].
  destruct (prepare_then_apply rec_demo 5 rec_demo_batch [rec_demo_rows2; rec_demo_rows3] rec_demo_wf rec_demo_batch_ok) as (mp & m' & E1 & E2 & _ & _ & _ & E3 & _ & _ & Hp).
  exists mp, m'. split; [exact E1|]. split; [exact E2|]. split; [exact E3|]. cbn [fmap list_fmap]. rewrite !Hp. vm_compute. reflexivity.
Defined.

(** ** Reachable memories *)

(** A step of a program that uses the memory as the library means it to. *)
Inductive rec_step (m : llama_memory_recurrent) : llama_memory_recurrent -> Prop :=
  | step_op op b m' : rec_op_pre op (view m) -> run_rec_op op m = Ok (b, m') -> rec_step m m'
  | step_prepare K us rowss b m' : batch_ok m K us rowss -> prepare us m = Ok (b, m') -> rec_step m m'
  | step_apply K u rows x m' b : batch_ok m K [u] [rows] -> rx_ubatches x !! rx_i_next x = Some u -> rx_status x = KvContext.STATUS_SUCCESS ->
      apply x m = Ok (b, m') -> rec_step m m'
  | step_inputs x copy m' : set_input_rs x m = Ok (copy, m') -> rec_step m m'.

Lemma s_copy_wf i m z m' : rec_wf m -> s_copy i m = Ok (z, m') -> rec_wf m'.
Proof.
  intros Hm. unfold s_copy. cbv zeta. intros H. apply bind_Ok in H as (c & _ & H). destruct (_ =? 0)%Z; [by injection H as _ <-|].
  destruct (setZ_list _) as [|q ?]; [by injection H as _ <-|]. destruct (_ && _); [|by injection H as _ <-].
  apply bind_Ok in H as (idx & _ & H). apply bind_Ok in H as (row & _ & H). injection H as _ <-.
  pose proof (rw_rs _ Hm) as [? ?]. apply (rec_wf_intro m); try done; try apply Hm. cbn [rs_idx set_rs]. apply Forall_insert; [done|lia].
Qed.

Lemma set_input_rs_wf x m copy m' : rec_wf m -> set_input_rs x m = Ok (copy, m') -> rec_wf m'.
Proof.
  intros Hm H. unfold set_input_rs in H. apply (foldM_inv_Ok _ (fun _ y => rec_wf y.2) _ ([], m) (copy, m') Hm H).
  intros i l [c1 m1] [c2 m2] H1 H2. cbn [fst snd] in *. apply bind_Ok in H2 as ([z m3] & E & H2). injection H2 as _ <-. by eapply s_copy_wf.
Qed.

Lemma batch_one m K u rows : batch_ok m K [u] [rows] -> rec_ubatch u (r_size m) rows /\ (Z.of_nat (u_n_seq_tokens u) <= K)%Z /\ Forall (fun x => (x.2 <= INT32_MAX - K)%Z) rows.
Proof. intros [Hf _]. by apply Forall2_cons_1 in Hf as [H _]. Qed.

Lemma rec_step_wf m m' : rec_wf m -> rec_step m m' -> rec_wf m'.
Proof.
  intros Hm H. destruct H as [op b m' Hpre E|K us rowss b m' Hb E|K u rows x m' b Hb Hi Hs E|x copy m' E].
  - destruct (rec_op_ok op m Hm Hpre) as (m1 & E1 & Hm1 & _). rewrite E1 in E. by injection E as _ <-.
  - destruct (rec_prepare_ok m K us rowss Hm Hb) as (mp & E1 & _ & Hmp & _). rewrite E1 in E. by injection E as _ <-.
  - destruct x as [st i us full]. cbn [rx_status rx_ubatches rx_i_next] in *. subst st. destruct (batch_one _ _ _ _ Hb) as (H1 & H2 & H3).
    destruct (place_one m K u rows Hm H1 H2 H3 (bo_pos _ _ _ _ Hb)) as (m1 & E1 & Hm1 & _). 
    unfold apply in E. cbn [rx_status rx_ubatches rx_i_next] in E. change (assert_ (negb _)) with (Ok tt) in E. cbn [mbind outcome_bind] in E.
    pose proof (lookup_lt_Some _ _ _ Hi). rewrite (proj2 (Nat.eqb_neq (length us) 0)) in E by lia. rewrite (vec_get_Some us i u Hi) in E. cbn [mbind outcome_bind] in E.
    rewrite E1 in E. cbn [mbind outcome_bind snd] in E. by injection E as _ <-.
  - by eapply set_input_rs_wf.
Qed.

Lemma rec_demo_step : rec_step rec_demo_new rec_demo.
Proof.
  apply (step_apply rec_demo_new 5 (rec_demo_ubatch 5 rec_demo_rows) rec_demo_rows (context_batch [rec_demo_ubatch 5 rec_demo_rows]) rec_demo true); [|reflexivity|reflexivity|vm_compute; reflexivity].
  split.
  - apply Forall2_cons. split; [|apply Forall2_nil_2]. split; [exact rec_demo_ubatch_ok|]. split; [vm_compute; discriminate|]. apply (bool_decide_unpack _). vm_compute. exact I.
  - intros y p. unfold positions. destruct (new_recurrent_wf 4 4 2 ltac:(lia) ltac:(unfold INT32_MAX; lia) ltac:(unfold INT32_MAX; lia)) as [_ Hv]. by rewrite Hv.
Qed.

(** Every memory a program can reach from a new one is well-formed, and in every such
    memory no permitted operation is stuck: sequence operations return, and a prepared
    batch is accepted. *)
Theorem reachable_recurrent_wf mem_size n_seq_max n_rs m : 0 < mem_size -> (Z.of_nat mem_size <= INT32_MAX)%Z -> (0 <= n_rs <= INT32_MAX)%Z ->
  rtc rec_step (new_recurrent mem_size n_seq_max n_rs) m ->
  rec_wf m /\ (forall op, rec_op_pre op (view m) -> exists b m', run_rec_op op m = Ok (b, m') /\ rec_step m m') /\
    (forall K us rowss, batch_ok m K us rowss -> exists m', prepare us m = Ok (true, m') /\ rec_step m m').
Proof.
  intros H0 H1 H2 Hr. assert (rec_wf m) as Hm.
  { destruct (new_recurrent_wf mem_size n_seq_max n_rs H0 H1 H2) as [Hn _]. induction Hr as [m|m1 m2 m3 Hs _ IH]; [done|]. apply IH. by eapply rec_step_wf. }
  split; [done|]. split.
  - intros op Hpre. destruct (rec_op_ok op m Hm Hpre) as (m' & E & _). eexists _, m'. split; [done|]. by eapply step_op.
  - intros K us rowss Hb. destruct (rec_prepare_ok m K us rowss Hm Hb) as (m' & E & _). exists m'. split; [done|]. by eapply step_prepare.
Qed.

Lemma reachable_recurrent_wf_witness : rtc rec_step rec_demo_new rec_demo /\ rec_wf rec_demo /\ exists m', prepare rec_demo_batch rec_demo = Ok (true, m') /\ rec_step rec_demo m'.
Proof.
  assert (rtc rec_step (new_recurrent 4 4 2) rec_demo) as Hr by (apply rtc_once; exact rec_demo_step).
  destruct (reachable_recurrent_wf 4 4 2 rec_demo ltac:(lia) ltac:(unfold INT32_MAX; lia) ltac:(unfold INT32_MAX; lia) Hr) as (H1 & _ & H2).
  split; [exact Hr|]. split; [exact H1|]. exact (H2 5%Z rec_demo_batch [rec_demo_rows2; rec_demo_rows3] rec_demo_batch_ok).
Defined.
