(* ===== verification/StateIo.v ===== *)
(** * State input and output (src/src/llama-io.h, the host readers and writers of llama-context.cpp)

    A state is written through [llama_io_write_i] and read through [llama_io_read_i].  The
    dummy writer only counts; the host writer fills a buffer and copies the tensor slices
    when it is destroyed, grouped into runs; the host reader keeps what it read until it is
    committed.  Bytes are numbers, a tensor is the list of its bytes. *)

From S2P Require Export Batch.
Open Scope nat_scope.

(** ** Bytes *)

(** Little-endian representation, as [memcpy] of an integer gives it. *)
Fixpoint le_bytes (n : nat) (v : Z) : list Z :=
  match n with 0 => [] | S n => (v mod 256)%Z :: le_bytes n (v / 256) end.

Fixpoint le_value (l : list Z) : Z :=
  match l with [] => 0%Z | b :: l => (b + 256 * le_value l)%Z end.

(** ** Tensors and host memory *)

Notation tensors := (list (list Z)).

Definition slice_bytes (l : list Z) (offset size : nat) : list Z := take size (drop offset l).

Definition mem_write (mem : list Z) (p : nat) (bytes : list Z) : outcome (list Z) :=
  if p + length bytes <=? length mem then Ok (list_inserts p bytes mem) else Err OutOfBounds.

(** [ggml_backend_tensor_get], into host memory at [p]. *)
Definition tensor_get (T : tensors) (t : nat) (mem : list Z) (p offset size : nat) : outcome (list Z) :=
  data ← vec_get T t;
  if size =? 0 then Ok mem else
  _ ← assert_ (offset + size <=? length data);
  mem_write mem p (slice_bytes data offset size).

(** [ggml_backend_tensor_set] *)
Definition tensor_set (T : tensors) (t : nat) (bytes : list Z) (offset : nat) : outcome tensors :=
  data ← vec_get T t;
  if length bytes =? 0 then Ok T else
  _ ← assert_ (offset + length bytes <=? length data);
  Ok (<[t := list_inserts offset bytes data]> T).

(** [ggml_backend_tensor_memset] with the value 0. *)
Definition tensor_clear (T : tensors) (t offset size : nat) : outcome tensors :=
  tensor_set T t (replicate size 0%Z) offset.

(** ** Writers *)

Class IoWrite (W : Type) := {
  io_write : list Z -> W -> outcome W;
  io_write_tensor : nat -> nat -> nat -> W -> outcome W;
  io_n_bytes : W -> nat
}.

(** The operations themselves, in order. *)
Inductive io_op :=
  | WriteBytes (bytes : list Z)
  | WriteTensor (tensor offset size : nat).

#[export] Instance trace_write : IoWrite (list io_op) := {
  io_write bytes w := Ok (w ++ [WriteBytes bytes]);
  io_write_tensor t offset size w := Ok (w ++ [WriteTensor t offset size]);
  io_n_bytes w := sum_list ((fun op => match op with WriteBytes l => length l | WriteTensor _ _ size => size end) <$> w)
}.

Record llama_io_write_dummy := mk_dummy { d_skip_tensors : bool; d_written : nat }.

#[export] Instance dummy_write : IoWrite llama_io_write_dummy := {
  io_write bytes w := Ok (mk_dummy (d_skip_tensors w) (d_written w + length bytes));
  io_write_tensor t offset size w := Ok (if d_skip_tensors w then w else mk_dummy (d_skip_tensors w) (d_written w + size));
  io_n_bytes := d_written
}.

(** Positions in the buffer stand for the pointers into it. *)
Record write_info := mk_winfo { wi_tensor : nat; wi_ptr : nat; wi_size : nat; wi_offset : nat }.

Record llama_io_write_host := mk_host {
  h_mem : list Z;
  h_ptr : nat;
  h_left : nat;
  h_written : nat;
  h_infos : list write_info
}.

Definition write_host (mem : list Z) (len : nat) : llama_io_write_host := mk_host mem 0 len 0 [].

#[export] Instance host_write : IoWrite llama_io_write_host := {
  io_write bytes w :=
    _ ← require_ RuntimeError (length bytes <=? h_left w);
    mem ← mem_write (h_mem w) (h_ptr w) bytes;
    Ok (mk_host mem (h_ptr w + length bytes) (h_left w - length bytes) (h_written w + length bytes) (h_infos w));
  io_write_tensor t offset size w :=
    _ ← require_ RuntimeError (size <=? h_left w);
    Ok (mk_host (h_mem w) (h_ptr w + size) (h_left w - size) (h_written w + size) (h_infos w ++ [mk_winfo t (h_ptr w) size offset]));
  io_n_bytes := h_written
}.

(** The order of the destructor: tensor, size, offset, position. *)
Definition winfo_lt (a b : write_info) : bool :=
  if negb (wi_tensor a =? wi_tensor b) then wi_tensor a <? wi_tensor b else
  if negb (wi_size a =? wi_size b) then wi_size a <? wi_size b else
  if negb (wi_offset a =? wi_offset b) then wi_offset a <? wi_offset b else
  wi_ptr a <? wi_ptr b.

(** The length of the group at the head of the list. *)
Fixpoint group_len (first : write_info) (l : list write_info) : nat :=
  match l with
  | x :: l => if (wi_tensor x =? wi_tensor first) && (wi_size x =? wi_size first) then S (group_len first l) else 0
  | [] => 0
  end.

(** How many more entries continue a run of [run] entries. *)
Fixpoint run_more (first : write_info) (source_stride destination_stride run : nat) (l : list write_info) : nat :=
  match l with
  | x :: l => if (wi_offset x =? wi_offset first + run * source_stride) && (wi_ptr x =? wi_ptr first + run * destination_stride)
              then S (run_more first source_stride destination_stride (run + 1) l) else 0
  | [] => 0
  end.

(** Length of the run and its strides. *)
Definition run_of (first : write_info) (l : list write_info) : nat * nat * nat :=
  match l with
  | x :: l =>
      if (wi_offset first <? wi_offset x) && (wi_ptr first <? wi_ptr x) then
        let source_stride := wi_offset x - wi_offset first in
        let destination_stride := wi_ptr x - wi_ptr first in
        if (wi_size first <=? source_stride) && (wi_size first <=? destination_stride)
        then (2 + run_more first source_stride destination_stride 2 l, source_stride, destination_stride)
        else (1, source_stride, destination_stride)
      else (1, 0, 0)
  | [] => (1, 0, 0)
  end.

Section flush.
(** The backend's own transfer of [n] slices, when it has one. *)
Context (get_tensor_2d : option (list Z -> list Z -> nat -> nat -> nat -> nat -> nat -> nat -> outcome (list Z))).

(** [ggml_backend_tensor_get_2d] *)
Definition tensor_get_2d (T : tensors) (t : nat) (mem : list Z) (p offset size n_copies stride_tensor stride_data : nat) : outcome (list Z) :=
  let copies := foldM (fun mem i => tensor_get T t mem (p + i * stride_data) (offset + i * stride_tensor) size) (seq 0 n_copies) mem in
  if n_copies <=? 1 then copies else
  match get_tensor_2d with
  | None => copies
  | Some get =>
      data ← vec_get T t;
      if size =? 0 then Ok mem else
      _ ← assert_ (offset + (n_copies - 1) * stride_tensor + size <=? length data);
      get data mem p offset size n_copies stride_tensor stride_data
  end.

(** [while (i < group_end)] *)
Fixpoint flush_group (fuel : nat) (T : tensors) (l : list write_info) (mem : list Z) : outcome (list Z) :=
  match l with
  | [] => Ok mem
  | first :: rest =>
      match fuel with
      | 0 => Err OutOfFuel
      | S fuel =>
          let '(run, source_stride, destination_stride) := run_of first rest in
          mem ← (if 1 <? run
                 then tensor_get_2d T (wi_tensor first) mem (wi_ptr first) (wi_offset first) (wi_size first) run source_stride destination_stride
                 else tensor_get T (wi_tensor first) mem (wi_ptr first) (wi_offset first) (wi_size first));
          flush_group fuel T (drop (run - 1) rest) mem
      end
  end.

(** [while (i < sorted.size())] *)
Fixpoint flush_groups (fuel : nat) (T : tensors) (l : list write_info) (mem : list Z) : outcome (list Z) :=
  match l with
  | [] => Ok mem
  | first :: rest =>
      match fuel with
      | 0 => Err OutOfFuel
      | S fuel =>
          let n := group_len first rest in
          mem ← flush_group (S n) T (first :: take n rest) mem;
          flush_groups fuel T (drop n rest) mem
      end
  end.

(** The destructor. *)
Definition flush (T : tensors) (w : llama_io_write_host) : outcome (list Z) :=
  let sorted := stable_sort winfo_lt (h_infos w) in
  flush_groups (length sorted) T sorted (h_mem w).
End flush.

(** ** The host reader *)

(** [ri_owned] is empty when the data are still in the buffer. *)
Record read_info := mk_rinfo { ri_tensor : nat; ri_ptr : nat; ri_owned : list Z; ri_size : nat; ri_offset : nat; ri_clear : bool }.

(** [Obj] is what the callbacks change; one may fail an assertion. *)
Record llama_io_read_host (Obj : Type) := mk_read {
  rd_buf : list Z;
  rd_ptr : nat;
  rd_left : nat;
  rd_read : nat;
  rd_infos : list read_info;
  rd_callbacks : list (Obj -> outcome Obj)
}.
Arguments mk_read {Obj} _ _ _ _ _ _.
Arguments rd_buf {Obj} _.
Arguments rd_ptr {Obj} _.
Arguments rd_left {Obj} _.
Arguments rd_read {Obj} _.
Arguments rd_infos {Obj} _.
Arguments rd_callbacks {Obj} _.

Definition read_host {Obj} (buf : list Z) (len : nat) : llama_io_read_host Obj := mk_read buf 0 len 0 [] [].

Section reader.
Context {Obj : Type}.
Notation reader := (llama_io_read_host Obj).

Definition rd_step (n : nat) (r : reader) : reader :=
  mk_read (rd_buf r) (rd_ptr r + n) (rd_left r - n) (rd_read r + n) (rd_infos r) (rd_callbacks r).

Definition rd_stage (i : read_info) (r : reader) : reader :=
  mk_read (rd_buf r) (rd_ptr r) (rd_left r) (rd_read r) (rd_infos r ++ [i]) (rd_callbacks r).

(** Reading past the end of the buffer itself is out of bounds. *)
Definition read (size : nat) (r : reader) : outcome (list Z * reader) :=
  _ ← require_ RuntimeError (size <=? rd_left r);
  if length (rd_buf r) <? rd_ptr r + size then Err OutOfBounds else
  Ok (slice_bytes (rd_buf r) (rd_ptr r) size, rd_step size r).

Definition read_tensor (t offset size : nat) (r : reader) : outcome reader :=
  _ ← require_ RuntimeError (size <=? rd_left r);
  Ok (rd_step size (rd_stage (mk_rinfo t (rd_ptr r) [] size offset false) r)).

Definition stage_tensor_set (t : nat) (src : list Z) (offset : nat) (r : reader) : reader :=
  rd_stage (mk_rinfo t 0 src (length src) offset false) r.

Definition stage_tensor_clear (t offset size : nat) (r : reader) : reader :=
  rd_stage (mk_rinfo t 0 [] size offset true) r.

Definition on_commit (callback : Obj -> outcome Obj) (r : reader) : reader :=
  mk_read (rd_buf r) (rd_ptr r) (rd_left r) (rd_read r) (rd_infos r) (rd_callbacks r ++ [callback]).

Definition cancel (r : reader) : reader := mk_read (rd_buf r) (rd_ptr r) (rd_left r) (rd_read r) [] [].

Definition commit_info (buf : list Z) (T : tensors) (i : read_info) : outcome tensors :=
  if ri_clear i then tensor_clear T (ri_tensor i) (ri_offset i) (ri_size i)
  else if bool_decide (ri_owned i = []) then
    if length buf <? ri_ptr i + ri_size i then Err OutOfBounds
    else tensor_set T (ri_tensor i) (slice_bytes buf (ri_ptr i) (ri_size i)) (ri_offset i)
  else tensor_set T (ri_tensor i) (ri_owned i) (ri_offset i).

Definition commit (r : reader) (T : tensors) (x : Obj) : outcome (reader * tensors * Obj) :=
  T ← foldM (commit_info (rd_buf r)) (rd_infos r) T;
  x ← foldM (fun x f => f x) (rd_callbacks r) x;
  Ok (cancel r, T, x).

Definition read_u32 (r : reader) : outcome (Z * reader) := x ← read 4 r; Ok (le_value x.1, x.2).
Definition read_i32 (r : reader) : outcome (Z * reader) := x ← read 4 r; Ok (to_i32 (le_value x.1), x.2).
Definition read_u64 (r : reader) : outcome (Z * reader) := x ← read 8 r; Ok (le_value x.1, x.2).
End reader.

(** Reading from the stream. *)
Definition on_io {Obj A} (f : llama_io_read_host Obj -> outcome (A * llama_io_read_host Obj)) : stx (llama_io_read_host Obj * Obj) A := fun s =>
  match f s.1 with Ok (a, r) => (Ok a, (r, s.2)) | Err e => (Err e, s) end.

(** As long as the answers are [true]. *)
Fixpoint forM_ {S A} (f : A -> stx S bool) (l : list A) : stx S bool :=
  match l with
  | [] => mret true
  | a :: l => ok ← f a; if ok : bool then forM_ f l else mret false
  end.

Definition write_u32 {W} `{IoWrite W} (v : Z) : W -> outcome W := io_write (le_bytes 4 v).
Definition write_u64 {W} `{IoWrite W} (v : Z) : W -> outcome W := io_write (le_bytes 8 v).

(** ** Sequence states of a context (without [LLAMA_STATE_SEQ_FLAGS_ON_DEVICE])

    What [llama_context] does around the memory: a magic number and the sequence id come
    first; saving needs a pending update to succeed, reading commits at the end or not at
    all. *)
Class MemoryState (M : Type) := {
  state_write : forall {W} {_ : IoWrite W}, Z -> Z -> M -> W -> outcome W;
  state_read : Z -> Z -> stx (llama_io_read_host M * M) unit;
  state_seq_can_save : Z -> Z -> M -> bool;
  state_seq_can_restore : Z -> Z -> M -> bool
}.

Definition io_magic : Z := 2937339096.
(** [LLAMA_STATE_SEQ_FLAGS_ON_DEVICE] is the value 2. *)
Definition on_device (flags : Z) : bool := Z.testbit flags 1.

Section context.
Context {M : Type} `{MemoryState M}.
Context (get_tensor_2d : option (list Z -> list Z -> nat -> nat -> nat -> nat -> nat -> nat -> outcome (list Z))).

Definition seq_write_data {W} `{IoWrite W} (seq_id flags : Z) (m : M) (io : W) : outcome W :=
  io ← write_u32 io_magic io;
  io ← write_u32 seq_id io;
  state_write seq_id flags m io.

Definition seq_ok (n_seq_max seq_id : Z) (allowed : bool) : bool :=
  negb ((seq_id <? 0)%Z || (n_seq_max <=? seq_id)%Z || negb allowed).

Definition state_seq_get_size (n_seq_max seq_id flags : Z) (m : M) : outcome nat :=
  if negb (seq_ok n_seq_max seq_id (state_seq_can_save seq_id flags m)) then Ok 0 else
  match seq_write_data seq_id flags m (mk_dummy (on_device flags) 0) with
  | Ok io => Ok (io_n_bytes io)
  | Err RuntimeError => Ok 0
  | Err e => Err e
  end.

(** With the host writer; [updated] says that a pending update succeeded.  The result is
    the count and the buffer; [None]: the buffer is partly written. *)
Definition state_seq_get_data (n_seq_max seq_id flags : Z) (updated : bool) (T : tensors) (m : M) (dst : list Z) (size : nat)
    : outcome (nat * option (list Z)) :=
  if negb (seq_ok n_seq_max seq_id (state_seq_can_save seq_id flags m)) then Ok (0, Some dst) else
  if negb updated then Ok (0, Some dst) else
  match seq_write_data seq_id flags m (write_host dst size) with
  | Ok io => mem ← flush get_tensor_2d T io; Ok (io_n_bytes io, Some mem)
  | Err RuntimeError => Ok (0, None)
  | Err e => Err e
  end.

(** Up to the commit; the id in the state is not looked at. *)
Definition seq_read_data (seq_id flags : Z) : stx (llama_io_read_host M * M) nat := fun s =>
  let step {A} (f : llama_io_read_host M -> outcome (A * llama_io_read_host M)) : stx (llama_io_read_host M * M) A := fun s =>
    match f s.1 with Ok (a, r) => (Ok a, (r, s.2)) | Err e => (Err e, s) end in
  (magic_read ← step read_u32;
   _ ← stx_lift (require_ RuntimeError (magic_read =? io_magic)%Z);
   _ ← step read_i32;
   _ ← state_read seq_id flags;
   s ← stx_get;
   mret (rd_read s.1)) s.

(** The number of bytes read, the tensors and the memory afterwards. *)
Definition state_seq_set_data (n_seq_max seq_id flags : Z) (src : list Z) (size : nat) (T : tensors) (m : M) : outcome (nat * tensors * M) :=
  if negb (seq_ok n_seq_max seq_id (state_seq_can_restore seq_id flags m)) then Ok (0, T, m) else
  match seq_read_data seq_id flags (read_host src size, m) with
  | (Ok nread, (r, m)) => x ← commit r T m; Ok (nread, x.1.2, x.2)
  | (Err RuntimeError, (_, m)) => Ok (0, T, m)
  | (Err e, _) => Err e
  end.

(** A read that is committed later: [prepare] gives a plan only when all bytes were used. *)
Record state_seq_restore_plan := mk_plan { rp_io : option (llama_io_read_host M); rp_bytes : nat }.

Definition state_seq_prepare_data (n_seq_max seq_id flags : Z) (src : list Z) (size : nat) (m : M) : outcome (option state_seq_restore_plan * M) :=
  if (size =? 0) || on_device flags || negb (seq_ok n_seq_max seq_id (state_seq_can_restore seq_id flags m)) then Ok (None, m) else
  match seq_read_data seq_id flags (read_host src size, m) with
  | (Ok bytes, (r, m)) => Ok (if negb (bytes =? size) then None else Some (mk_plan (Some r) bytes), m)
  | (Err RuntimeError, (_, m)) => Ok (None, m)
  | (Err e, _) => Err e
  end.

(** [llama_state_seq_restore_plan_commit]: a plan is committed once. *)
Definition restore_plan_commit (plan : state_seq_restore_plan) (T : tensors) (m : M) : outcome (nat * state_seq_restore_plan * tensors * M) :=
  match rp_io plan with
  | None => Ok (0, plan, T, m)
  | Some io =>
      x ← commit io T m;
      Ok (rp_bytes plan, mk_plan None (rp_bytes plan), x.1.2, x.2)
  end.
End context.
