(* ===== verification/StateIoProps.v ===== *)
(** * State input and output: the host writer and reader

    The destructor of the host writer, which sorts the tensor slices and copies them in
    runs, leaves the same buffer as copying them one after the other; the buffer then holds
    what was written, in order, and the host reader gives it back.  All writers count the
    same number of bytes. *)

From S2P Require Import BatchInit.
From S2P Require Export StateIo.
Open Scope nat_scope.

(** ** Patches of a buffer *)

Definition patch (p : nat * list Z) (mem : list Z) : list Z := list_inserts p.1 p.2 mem.

Definition apart (p q : nat * list Z) : Prop := p.1 + length p.2 <= q.1 \/ q.1 + length q.2 <= p.1.

Lemma lookup_patch p mem j : patch p mem !! j = if decide (p.1 <= j < p.1 + length p.2 /\ j < length mem) then p.2 !! (j - p.1) else mem !! j.
Proof.
  unfold patch. destruct (decide _) as [[H1 H2]|Hn]; [by apply list_lookup_inserts|].
  destruct (decide (j < p.1)); [by apply list_lookup_inserts_lt|]. destruct (decide (p.1 + length p.2 <= j)); [by apply list_lookup_inserts_ge|].
  assert (length mem <= j) by lia. rewrite !lookup_ge_None_2; [done|done|]. by rewrite length_inserts.
Qed.

Lemma length_patch p mem : length (patch p mem) = length mem.
Proof. apply length_inserts. Qed.

Lemma patch_comm p q mem : apart p q -> patch p (patch q mem) = patch q (patch p mem).
Proof. intros H. apply list_eq. intros j. rewrite !lookup_patch, !length_patch. unfold apart in H. repeat case_decide; try done; lia. Qed.

Lemma patch_nil n mem : patch (n, []) mem = mem.
Proof. done. Qed.

Definition all_apart (l : list (nat * list Z)) : Prop := forall i j p q, i <> j -> l !! i = Some p -> l !! j = Some q -> apart p q.

Lemma patches_perm l l' mem : all_apart l -> l ≡ₚ l' -> foldr patch mem l = foldr patch mem l'.
Proof.
  intros Ha Hp. apply (foldr_permutation eq patch mem l l'); [|done]. intros i p j q b Hn Hi Hj. apply patch_comm. by apply (Ha i j).
Qed.

Lemma foldl_patches l mem : foldl (fun mem p => patch p mem) mem l = foldr patch mem (rev l).
Proof. revert mem. induction l as [|p l IH]; intros mem; [done|]. simpl. by rewrite IH, foldr_app. Qed.

Lemma patches_order l l' mem : all_apart l -> l ≡ₚ l' -> foldl (fun mem p => patch p mem) mem l = foldl (fun mem p => patch p mem) mem l'.
Proof.
  intros Ha Hp. rewrite !foldl_patches. rewrite <- (patches_perm l (rev l)); [|done|apply Permutation_rev]. apply patches_perm; [done|]. by rewrite Hp, <- (Permutation_rev l').
Qed.

(** Patches laid out one after the other overwrite a whole range. *)
Fixpoint laid_out (p : nat) (l : list (nat * list Z)) : Prop :=
  match l with [] => True | x :: l => x.1 = p /\ laid_out (p + length x.2) l end.

Lemma laid_out_ge p l x : laid_out p l -> x ∈ l -> p <= x.1.
Proof.
  revert p. induction l as [|y l IH]; intros p H Hx; [by apply not_elem_of_nil in Hx|]. destruct H as [H1 H2].
  apply elem_of_cons in Hx as [->|Hx]; [lia|]. specialize (IH _ H2 Hx). lia.
Qed.

Lemma laid_out_apart p l : laid_out p l -> all_apart l.
Proof.
  revert p. induction l as [|y l IH]; intros p H i j a b Hn Hi Hj; [done|]. destruct H as [H1 H2].
  destruct i as [|i], j as [|j]; [done| | |apply (IH _ H2 i j); [lia|done|done]].
  - injection Hi as <-. left. rewrite H1. by apply (laid_out_ge _ l), (list_elem_of_lookup_2 _ j).
  - injection Hj as <-. right. rewrite H1. by apply (laid_out_ge _ l), (list_elem_of_lookup_2 _ i).
Qed.

Lemma patches_laid_out p l mem : laid_out p l -> foldl (fun mem q => patch q mem) mem l = patch (p, concat l.*2) mem.
Proof.
  revert p mem. induction l as [|[q bs] l IH]; intros p mem H; [done|]. destruct H as [H1 H2]. simpl in H1, H2. subst q.
  simpl. rewrite (IH _ _ H2). unfold patch. simpl. rewrite list_inserts_app_l. by rewrite (Nat.add_comm p).
Qed.

Lemma patch_fits p bs mem : p + length bs <= length mem -> patch (p, bs) mem = take p mem ++ bs ++ drop (p + length bs) mem.
Proof.
  intros H. unfold patch. simpl. rewrite <- (take_drop p mem) at 1. rewrite <- (take_drop (length bs) (drop p mem)), drop_drop.
  replace p with (length (take p mem) + 0) at 1 by (rewrite length_take; lia). rewrite list_inserts_app_r. f_equal. apply list_inserts_0_r.
  rewrite length_take, length_drop. lia.
Qed.

(** ** The destructor of the host writer *)

(** The slice of an entry. *)
Definition winfo_data (T : tensors) (i : write_info) : list Z := slice_bytes (default [] (T !! wi_tensor i)) (wi_offset i) (wi_size i).

Definition winfo_patch (T : tensors) (i : write_info) : nat * list Z := (wi_ptr i, winfo_data T i).

(** The slice lies in its tensor, and its place in the buffer. *)
Definition winfo_fits (T : tensors) (len : nat) (i : write_info) : Prop :=
  exists data, T !! wi_tensor i = Some data /\ wi_offset i + wi_size i <= length data /\ wi_ptr i + wi_size i <= len.

Definition copy_winfo (T : tensors) (mem : list Z) (i : write_info) : outcome (list Z) :=
  tensor_get T (wi_tensor i) mem (wi_ptr i) (wi_offset i) (wi_size i).

(** What a backend's own transfer of several slices is documented to do. *)
Definition transfers (get : list Z -> list Z -> nat -> nat -> nat -> nat -> nat -> nat -> outcome (list Z)) : Prop :=
  forall data mem p offset size n st sd, offset + (n - 1) * st + size <= length data -> p + (n - 1) * sd + size <= length mem ->
    get data mem p offset size n st sd = Ok (foldl (fun mem i => patch (p + i * sd, slice_bytes data (offset + i * st) size) mem) mem (seq 0 n)).

Lemma length_slice l a n : a + n <= length l -> length (slice_bytes l a n) = n.
Proof. intros H. unfold slice_bytes. rewrite length_take, length_drop. lia. Qed.

Lemma length_winfo T len i : winfo_fits T len i -> length (winfo_data T i) = wi_size i.
Proof. intros (data & E & H & _). unfold winfo_data. rewrite E. by apply length_slice. Qed.

Lemma copy_winfo_ok T mem i : winfo_fits T (length mem) i -> copy_winfo T mem i = Ok (patch (winfo_patch T i) mem).
Proof.
  intros Hf. pose proof (length_winfo _ _ _ Hf) as Hl. destruct Hf as (data & E & H1 & H2). unfold copy_winfo, tensor_get, winfo_patch.
  assert (slice_bytes data (wi_offset i) (wi_size i) = winfo_data T i) as Ed by (unfold winfo_data; by rewrite E).
  rewrite (vec_get_Some _ _ _ E). cbn [mbind outcome_bind]. rewrite Ed.
  destruct (Nat.eqb_spec (wi_size i) 0) as [E0|]; [rewrite <- Hl in E0; apply length_zero_iff_nil in E0; by rewrite E0, patch_nil|].
  rewrite assert_true by (by apply Nat.leb_le). cbn [mbind outcome_bind]. unfold mem_write. rewrite Hl. by rewrite (proj2 (Nat.leb_le _ _) H2).
Qed.

Lemma length_patches l mem : length (foldl (fun mem q => patch q mem) mem l) = length mem.
Proof. revert mem. induction l as [|x l IH]; intros mem; simpl; [done|]. by rewrite IH, length_patch. Qed.

Lemma foldM_copy T l mem : Forall (winfo_fits T (length mem)) l ->
  foldM (copy_winfo T) l mem = Ok (foldl (fun mem q => patch q mem) mem (winfo_patch T <$> l)).
Proof.
  revert mem. induction l as [|i l IH]; intros mem H; [done|]. apply Forall_cons in H as [Hi Hl]. cbn [foldM]. rewrite copy_winfo_ok by done.
  cbn [mbind outcome_bind]. rewrite IH by (by rewrite length_patch). done.
Qed.

(** Entries that continue a run from its [k]-th one. *)
Definition in_run (first : write_info) (ss ds k : nat) (l : list write_info) : Prop :=
  forall j x, l !! j = Some x -> wi_offset x = wi_offset first + (k + j) * ss /\ wi_ptr x = wi_ptr first + (k + j) * ds.

Lemma run_more_ok first ss ds k l : run_more first ss ds k l <= length l /\ in_run first ss ds k (take (run_more first ss ds k l) l).
Proof.
  revert k. induction l as [|x l IH]; intros k; simpl; [by split; [lia|intros j y Hy]|]. destruct (_ && _) eqn:E; [|split; [lia|by intros j y Hy]].
  apply andb_true_iff in E as [E1%Nat.eqb_eq E2%Nat.eqb_eq]. destruct (IH (k + 1)) as [H1 H2]. split; [lia|].
  intros [|j] y Hy; simpl in Hy; [injection Hy as <-; by rewrite Nat.add_0_r|]. destruct (H2 j y Hy). replace (k + S j) with (k + 1 + j) by lia. done.
Qed.

Lemma run_of_ok first l run ss ds : run_of first l = (run, ss, ds) ->
  1 <= run <= S (length l) /\ (1 < run -> in_run first ss ds 0 (take run (first :: l))).
Proof.
  unfold run_of. destruct l as [|x l]; [intros [= <- <- <-]; simpl; lia|]. destruct (_ && _) eqn:E; [|intros [= <- <- <-]; simpl; lia].
  apply andb_true_iff in E as [E1%Nat.ltb_lt E2%Nat.ltb_lt]. destruct (_ && _); intros [= <- <- <-]; [|simpl; lia].
  destruct (run_more_ok first (wi_offset x - wi_offset first) (wi_ptr x - wi_ptr first) 2 l) as [H1 H2]. split; [simpl; lia|].
  intros _ [|[|j]] y Hy; simpl in Hy.
  - injection Hy as <-. lia.
  - injection Hy as <-. lia.
  - by apply (H2 j y).
Qed.

Section flush_ok.
Context (get_tensor_2d : option (list Z -> list Z -> nat -> nat -> nat -> nat -> nat -> nat -> outcome (list Z))).
Context (Hget : forall get, get_tensor_2d = Some get -> transfers get).
Context (T : tensors).

(** A run is copied as its entries are. *)
Lemma run_copy first l ss ds mem : 1 < length l -> in_run first ss ds 0 l -> Forall (winfo_fits T (length mem)) l ->
  Forall (fun x => wi_tensor x = wi_tensor first /\ wi_size x = wi_size first) l ->
  tensor_get_2d get_tensor_2d T (wi_tensor first) mem (wi_ptr first) (wi_offset first) (wi_size first) (length l) ss ds = foldM (copy_winfo T) l mem.
Proof.
  intros Hn Hrun Hfit Hsame. set (n := length l) in *.
  assert (forall k x, l !! k = Some x -> x = mk_winfo (wi_tensor first) (wi_ptr first + k * ds) (wi_size first) (wi_offset first + k * ss)) as Hx.
  { intros k x Hk. destruct (Hrun k x Hk) as [E1 E2]. rewrite Forall_forall in Hsame. destruct (Hsame x) as [E3 E4]; [by eapply list_elem_of_lookup_2|].
    destruct x as [t p s o]. simpl in *. by subst. }
  assert (l = (fun k => mk_winfo (wi_tensor first) (wi_ptr first + k * ds) (wi_size first) (wi_offset first + k * ss)) <$> seq 0 n) as El.
  { apply list_eq. intros k. destruct (l !! k) as [x|] eqn:E.
    - rewrite list_lookup_fmap, lookup_seq_lt by (by eapply lookup_lt_Some). simpl. f_equal. by apply Hx.
    - apply lookup_ge_None in E. rewrite list_lookup_fmap, lookup_seq_ge by done. done. }
  assert (foldM (fun mem i => tensor_get T (wi_tensor first) mem (wi_ptr first + i * ds) (wi_offset first + i * ss) (wi_size first)) (seq 0 n) mem = foldM (copy_winfo T) l mem) as Hloop.
  { rewrite El. generalize (seq 0 n). intros idx. clear. revert mem. induction idx as [|i idx IH]; intros mem; [done|]. cbn [fmap list_fmap foldM].
    match goal with |- ?x ≫= _ = ?y ≫= _ => change y with x; destruct x end; cbn [mbind outcome_bind]; [apply IH|done]. }
  unfold tensor_get_2d. rewrite (proj2 (Nat.leb_gt n 1)) by done. destruct get_tensor_2d as [get|] eqn:Eg; [|done].
  assert (exists x, l !! (n - 1) = Some x) as [x Hlast] by (apply lookup_lt_is_Some_2; lia). pose proof (Hx _ _ Hlast) as ->.
  rewrite Forall_forall in Hfit. pose proof (Hfit _ (list_elem_of_lookup_2 _ _ _ Hlast)) as (data & Ed & H1 & H2). cbn [wi_tensor wi_ptr wi_offset wi_size] in Ed, H1, H2.
  rewrite (vec_get_Some _ _ _ Ed). cbn [mbind outcome_bind]. rewrite foldM_copy by (by apply Forall_forall).
  assert (forall k, winfo_patch T (mk_winfo (wi_tensor first) (wi_ptr first + k * ds) (wi_size first) (wi_offset first + k * ss)) = (wi_ptr first + k * ds, slice_bytes data (wi_offset first + k * ss) (wi_size first))) as Hp.
  { intros k. unfold winfo_patch, winfo_data. cbn [wi_tensor wi_ptr wi_offset wi_size]. by rewrite Ed. }
  assert (forall idx mem, foldl (fun mem q => patch q mem) mem (winfo_patch T <$> ((fun k => mk_winfo (wi_tensor first) (wi_ptr first + k * ds) (wi_size first) (wi_offset first + k * ss)) <$> idx)) =
    foldl (fun mem i => patch (wi_ptr first + i * ds, slice_bytes data (wi_offset first + i * ss) (wi_size first)) mem) mem idx) as Hfold.
  { induction idx as [|i idx IH]; intros mem'; [done|]. cbn [fmap list_fmap foldl]. rewrite Hp. apply IH. }
  rewrite El, Hfold. destruct (Nat.eqb_spec (wi_size first) 0) as [E0|].
  - f_equal. rewrite E0. generalize (seq 0 n) as idx. intros idx. induction idx as [|i idx IH]; [done|]. cbn [foldl]. unfold slice_bytes at 2. cbn [take]. rewrite patch_nil. exact IH.
  - rewrite assert_true by (apply Nat.leb_le; lia). cbn [mbind outcome_bind]. apply (Hget get eq_refl); lia.
Qed.

Lemma flush_group_ok fuel l mem : length l <= fuel -> Forall (winfo_fits T (length mem)) l ->
  (forall first, head l = Some first -> Forall (fun x => wi_tensor x = wi_tensor first /\ wi_size x = wi_size first) l) ->
  flush_group get_tensor_2d fuel T l mem = foldM (copy_winfo T) l mem.
Proof.
  revert l mem. induction fuel as [|fuel IH]; intros l mem Hl Hfit Hsame; [by destruct l; [|simpl in Hl; lia]|]. destruct l as [|first rest]; [done|].
  specialize (Hsame first eq_refl) as Hs. cbn [flush_group]. destruct (run_of first rest) as [[run ss] ds] eqn:Er. apply run_of_ok in Er as [[H1 H2] Hrun].
  replace (foldM (copy_winfo T) (first :: rest) mem) with (foldM (copy_winfo T) (take run (first :: rest) ++ drop run (first :: rest)) mem) by (by rewrite take_drop). rewrite foldM_app.
  assert (length (take run (first :: rest)) = run) as Ht by (rewrite length_take; simpl; lia).
  assert ((if 1 <? run then tensor_get_2d get_tensor_2d T (wi_tensor first) mem (wi_ptr first) (wi_offset first) (wi_size first) run ss ds
           else tensor_get T (wi_tensor first) mem (wi_ptr first) (wi_offset first) (wi_size first)) = foldM (copy_winfo T) (take run (first :: rest)) mem) as ->.
  { destruct (Nat.ltb_spec 1 run) as [Hlt|Hge].
    - rewrite <- Ht at 1. apply run_copy; [lia|by apply Hrun|by apply Forall_take|by apply Forall_take].
    - replace run with 1 by lia. simpl. unfold copy_winfo. by destruct (tensor_get _ _ _ _ _ _). }
  assert (drop (run - 1) rest = drop run (first :: rest)) as -> by (replace run with (S (run - 1)) at 2 by lia; done).
  rewrite foldM_copy by (by apply Forall_take). cbn [mbind outcome_bind]. apply IH.
  - rewrite length_drop. simpl in *. lia.
  - rewrite length_patches. by apply Forall_drop.
  - intros f Hf. assert (f ∈ first :: rest) as Hin.
    { rewrite head_lookup in Hf. apply list_elem_of_lookup_2 in Hf. apply list_elem_of_lookup in Hf as [k Hk]. rewrite lookup_drop in Hk. by eapply list_elem_of_lookup_2. }
    rewrite Forall_forall in Hs. destruct (Hs f Hin) as [-> ->]. apply Forall_drop. by apply Forall_forall.
Qed.

Lemma group_len_ok first l : group_len first l <= length l /\ Forall (fun x => wi_tensor x = wi_tensor first /\ wi_size x = wi_size first) (take (group_len first l) l).
Proof.
  induction l as [|x l IH]; simpl; [split; [lia|constructor]|]. destruct (_ && _) eqn:E; [|split; [lia|constructor]].
  apply andb_true_iff in E as [E1%Nat.eqb_eq E2%Nat.eqb_eq]. destruct IH. split; [lia|]. simpl. by constructor.
Qed.

Lemma flush_groups_ok fuel l mem : length l <= fuel -> Forall (winfo_fits T (length mem)) l -> flush_groups get_tensor_2d fuel T l mem = foldM (copy_winfo T) l mem.
Proof.
  revert l mem. induction fuel as [|fuel IH]; intros l mem Hl Hfit; [by destruct l; [|simpl in Hl; lia]|]. destruct l as [|first rest]; [done|].
  cbn [flush_groups]. destruct (group_len_ok first rest) as [H1 H2]. set (n := group_len first rest) in *.
  assert (Forall (winfo_fits T (length mem)) (first :: take n rest)) as Hg by (apply Forall_cons in Hfit as [? ?]; constructor; [done|by apply Forall_take]).
  rewrite flush_group_ok; [|simpl; rewrite length_take; lia|done|intros f [= <-]; by constructor].
  replace (foldM (copy_winfo T) (first :: rest) mem) with (foldM (copy_winfo T) ((first :: take n rest) ++ drop n rest) mem) by (rewrite <- app_comm_cons; by rewrite take_drop). rewrite foldM_app, foldM_copy by done. cbn [mbind outcome_bind]. apply IH.
  - rewrite length_drop. simpl in *. lia.
  - rewrite length_patches. apply Forall_cons in Hfit as [_ ?]. by apply Forall_drop.
Qed.

Lemma flush_sorted w : Forall (winfo_fits T (length (h_mem w))) (h_infos w) ->
  flush get_tensor_2d T w = foldM (copy_winfo T) (stable_sort winfo_lt (h_infos w)) (h_mem w).
Proof. intros H. apply flush_groups_ok; [done|]. by rewrite stable_sort_perm. Qed.
End flush_ok.

(** ** Writing a list of operations *)

Definition run_op {W} `{IoWrite W} (io : W) (op : io_op) : outcome W :=
  match op with WriteBytes bytes => io_write bytes io | WriteTensor t offset size => io_write_tensor t offset size io end.

Definition op_size (op : io_op) : nat := match op with WriteBytes bytes => length bytes | WriteTensor _ _ size => size end.
Definition ops_size (ops : list io_op) : nat := sum_list (op_size <$> ops).

(** The bytes an operation stands for. *)
Definition op_data (T : tensors) (op : io_op) : list Z :=
  match op with WriteBytes bytes => bytes | WriteTensor t offset size => slice_bytes (default [] (T !! t)) offset size end.
Definition ops_data (T : tensors) (ops : list io_op) : list Z := concat (op_data T <$> ops).

Definition op_fits (T : tensors) (op : io_op) : Prop :=
  match op with WriteBytes _ => True | WriteTensor t offset size => exists data, T !! t = Some data /\ offset + size <= length data end.

Lemma ops_size_app l1 l2 : ops_size (l1 ++ l2) = ops_size l1 + ops_size l2.
Proof. unfold ops_size. by rewrite fmap_app, sum_list_with_app. Qed.

Lemma ops_data_app T l1 l2 : ops_data T (l1 ++ l2) = ops_data T l1 ++ ops_data T l2.
Proof. unfold ops_data. by rewrite fmap_app, concat_app. Qed.

Lemma ops_data_cons T op l : ops_data T (op :: l) = op_data T op ++ ops_data T l.
Proof. done. Qed.

Lemma op_data_length T op : op_fits T op -> length (op_data T op) = op_size op.
Proof. destruct op as [|t o n]; [done|]. intros (data & E & H). simpl. rewrite E. by apply length_slice. Qed.

Lemma ops_data_length T ops : Forall (op_fits T) ops -> length (ops_data T ops) = ops_size ops.
Proof.
  induction 1 as [|op ops H _ IH]; [done|]. change (ops_data T (op :: ops)) with (op_data T op ++ ops_data T ops). rewrite length_app, IH, op_data_length by done. done.
Qed.

(** A procedure that writes [ops] whatever the writer. *)
Definition emits (f : forall W, IoWrite W -> W -> outcome W) (ops : list io_op) : Prop :=
  forall W (HW : IoWrite W) (io : W), f W HW io = foldM run_op ops io.

Lemma run_trace ops w : foldM run_op ops w = Ok (w ++ ops).
Proof.
  revert w. induction ops as [|op ops IH]; intros w; [by rewrite app_nil_r|]. cbn [foldM]. destruct op; cbn; rewrite IH; by rewrite <- app_assoc.
Qed.

Lemma run_dummy ops d : foldM run_op ops d =
  Ok (mk_dummy (d_skip_tensors d) (d_written d + if d_skip_tensors d then sum_list ((fun op => match op with WriteBytes l => length l | _ => 0 end) <$> ops) else ops_size ops)).
Proof.
  revert d. induction ops as [|op ops IH]; intros [[] n]; cbn [foldM d_skip_tensors d_written]; [simpl; by rewrite Nat.add_0_r..| |];
    destruct op; cbn [run_op io_write io_write_tensor dummy_write mbind outcome_bind d_skip_tensors d_written]; rewrite IH; cbn [d_skip_tensors d_written]; unfold ops_size; cbn; do 2 f_equal; lia.
Qed.

(** Where the operations land in the buffer. *)
Fixpoint byte_patches (p : nat) (ops : list io_op) : list (nat * list Z) :=
  match ops with
  | [] => []
  | WriteBytes l :: ops => (p, l) :: byte_patches (p + length l) ops
  | WriteTensor _ _ size :: ops => byte_patches (p + size) ops
  end.

Fixpoint winfos (p : nat) (ops : list io_op) : list write_info :=
  match ops with
  | [] => []
  | WriteBytes l :: ops => winfos (p + length l) ops
  | WriteTensor t offset size :: ops => mk_winfo t p size offset :: winfos (p + size) ops
  end.

Fixpoint op_patches (T : tensors) (p : nat) (ops : list io_op) : list (nat * list Z) :=
  match ops with [] => [] | op :: ops => (p, op_data T op) :: op_patches T (p + op_size op) ops end.

Lemma op_patches_laid_out T p ops : Forall (op_fits T) ops -> laid_out p (op_patches T p ops).
Proof. intros H. revert p. induction H as [|op ops H _ IH]; intros p; [done|]. simpl. by rewrite op_data_length. Qed.

Lemma op_patches_data T p ops : concat (op_patches T p ops).*2 = ops_data T ops.
Proof. revert p. induction ops as [|op ops IH]; intros p; [done|]. simpl. by rewrite IH. Qed.

Lemma op_patches_split T p ops : op_patches T p ops ≡ₚ byte_patches p ops ++ (winfo_patch T <$> winfos p ops).
Proof.
  revert p. induction ops as [|[l|t o n] ops IH]; intros p; [done| |]; simpl; rewrite IH; [done|]. by rewrite <- Permutation_middle.
Qed.

Lemma winfos_fit T p ops len : Forall (op_fits T) ops -> p + ops_size ops <= len -> Forall (winfo_fits T len) (winfos p ops).
Proof.
  intros H. revert p. induction H as [|[l|t o n] ops H _ IH]; intros p Hl; [constructor| |]; unfold ops_size in Hl; cbn in Hl; simpl.
  - apply IH. unfold ops_size. lia.
  - constructor; [|apply IH; unfold ops_size; lia]. destruct H as (data & E & H). exists data. simpl. split; [done|]. lia.
Qed.

Lemma run_host ops w : h_ptr w + h_left w <= length (h_mem w) -> ops_size ops <= h_left w ->
  foldM run_op ops w = Ok (mk_host (foldl (fun mem q => patch q mem) (h_mem w) (byte_patches (h_ptr w) ops)) (h_ptr w + ops_size ops) (h_left w - ops_size ops)
    (h_written w + ops_size ops) (h_infos w ++ winfos (h_ptr w) ops)).
Proof.
  revert w. induction ops as [|op ops IH]; intros [mem p left n infos] H1 H2; cbn [h_mem h_ptr h_left h_written h_infos] in *.
  { simpl. rewrite app_nil_r. unfold ops_size. simpl. by rewrite !Nat.add_0_r, Nat.sub_0_r. }
  assert (ops_size (op :: ops) = op_size op + ops_size ops) as Hs by done. rewrite Hs in *.
  destruct op as [l|t o size]; cbn [foldM run_op io_write io_write_tensor host_write h_mem h_ptr h_left h_written h_infos op_size byte_patches winfos foldl] in *.
  - unfold require_. rewrite (proj2 (Nat.leb_le (length l) left)) by lia. cbn [mbind outcome_bind]. unfold mem_write. rewrite (proj2 (Nat.leb_le _ (length mem))) by lia. cbn [mbind outcome_bind].
    rewrite IH; cbn [h_mem h_ptr h_left h_written h_infos]; [|rewrite length_inserts; lia|lia]. change (list_inserts p l mem) with (patch (p, l) mem). do 2 f_equal; lia.
  - unfold require_. rewrite (proj2 (Nat.leb_le size left)) by lia. cbn [mbind outcome_bind]. rewrite IH; cbn [h_mem h_ptr h_left h_written h_infos]; [|lia|lia]. rewrite <- app_assoc. do 2 f_equal; lia.
Qed.

(** Without room the host writer throws. *)
Lemma run_host_full ops w : h_ptr w + h_left w <= length (h_mem w) -> h_left w < ops_size ops -> foldM run_op ops w = Err RuntimeError.
Proof.
  revert w. induction ops as [|op ops IH]; intros [mem p left n infos] H1 H2; cbn [h_mem h_ptr h_left h_written h_infos] in *.
  { unfold ops_size in H2. simpl in H2. lia. }
  assert (ops_size (op :: ops) = op_size op + ops_size ops) as Hs by done. rewrite Hs in *.
  destruct op as [l|t o size]; cbn [foldM run_op io_write io_write_tensor host_write h_mem h_ptr h_left h_written h_infos op_size] in *; unfold require_.
  - destruct (Nat.leb_spec (length l) left); [|done]. cbn [mbind outcome_bind]. unfold mem_write. rewrite (proj2 (Nat.leb_le _ (length mem))) by lia. cbn [mbind outcome_bind].
    apply IH; cbn [h_mem h_ptr h_left]; [rewrite length_inserts; lia|lia].
  - destruct (Nat.leb_spec size left); [|done]. cbn [mbind outcome_bind]. apply IH; cbn [h_mem h_ptr h_left]; lia.
Qed.

Section host_result.
Context (get_tensor_2d : option (list Z -> list Z -> nat -> nat -> nat -> nat -> nat -> nat -> outcome (list Z))).
Context (Hget : forall get, get_tensor_2d = Some get -> transfers get).

(** The buffer when the writer is gone. *)
Lemma host_result T ops mem len : Forall (op_fits T) ops -> ops_size ops <= len -> len <= length mem ->
  exists w, foldM run_op ops (write_host mem len) = Ok w /\ h_written w = ops_size ops /\
    flush get_tensor_2d T w = Ok (ops_data T ops ++ drop (ops_size ops) mem).
Proof.
  intros Hf H1 H2. rewrite run_host by (simpl; lia). eexists. split; [done|]. cbn [write_host h_mem h_ptr h_left h_written h_infos]. split; [done|].
  set (mem1 := foldl _ mem (byte_patches 0 ops)). assert (length mem1 = length mem) as Hlen by apply length_patches.
  assert (Forall (winfo_fits T (length mem1)) (winfos 0 ops)) as Hfit by (rewrite Hlen; apply winfos_fit; [done|lia]).
  rewrite (flush_sorted _ Hget) by done. cbn [h_mem h_infos app]. rewrite foldM_copy by (by rewrite stable_sort_perm).
  unfold mem1. rewrite <- foldl_app. f_equal. pose proof (op_patches_laid_out T 0 ops Hf) as Hlay.
  rewrite <- (patches_order (op_patches T 0 ops)).
  - rewrite (patches_laid_out 0) by done. rewrite op_patches_data. rewrite patch_fits by (rewrite ops_data_length by done; lia). by rewrite ops_data_length.
  - by eapply laid_out_apart.
  - rewrite op_patches_split. apply Permutation_app_head. apply fmap_Permutation. symmetry. apply stable_sort_perm.
Qed.
End host_result.

(** ** Integers *)

Lemma le_bytes_length n v : length (le_bytes n v) = n.
Proof. revert v. induction n as [|n IH]; intros v; simpl; [done|]. by rewrite IH. Qed.

Lemma le_value_bytes n v : le_value (le_bytes n v) = (v mod 256 ^ Z.of_nat n)%Z.
Proof.
  revert v. induction n as [|n IH]; intros v; [by rewrite Z.mod_1_r|]. cbn [le_bytes le_value]. rewrite IH, Nat2Z.inj_succ, Z.pow_succ_r by lia.
  rewrite Z.rem_mul_r by (try apply Z.pow_nonzero; lia). done.
Qed.

Lemma le_u32 v : (0 <= v <= UINT32_MAX)%Z -> le_value (le_bytes 4 v) = v.
Proof. intros H. rewrite le_value_bytes. apply Z.mod_small. unfold UINT32_MAX in H. change (256 ^ Z.of_nat 4)%Z with 4294967296%Z. lia. Qed.

Lemma le_u64 v : (0 <= v <= UINT64_MAX)%Z -> le_value (le_bytes 8 v) = v.
Proof. intros H. rewrite le_value_bytes. apply Z.mod_small. unfold UINT64_MAX in H. change (256 ^ Z.of_nat 8)%Z with 18446744073709551616%Z. lia. Qed.

Lemma le_i32 v : (INT32_MIN <= v <= INT32_MAX)%Z -> to_i32 (le_value (le_bytes 4 v)) = v.
Proof.
  intros H. rewrite le_value_bytes. change (256 ^ Z.of_nat 4)%Z with 4294967296%Z. unfold INT32_MIN, INT32_MAX, to_i32 in *. unfold INT32_MAX.
  destruct (Z.leb_spec 0 v).
  - rewrite Z.mod_small by lia. by rewrite (proj2 (Z.leb_le _ _)) by lia.
  - rewrite <- (Z_mod_plus_full v 1), Z.mod_small by lia. rewrite (proj2 (Z.leb_gt _ _)) by lia. lia.
Qed.

(** ** The reader *)

Definition rinfo_data (buf : list Z) (i : read_info) : list Z :=
  if ri_clear i then replicate (ri_size i) 0%Z else if bool_decide (ri_owned i = []) then slice_bytes buf (ri_ptr i) (ri_size i) else ri_owned i.

(** A staged change: tensor, offset, bytes. *)
Definition staged_set : Type := nat * nat * list Z.

Definition set_tensor (T : tensors) (x : staged_set) : tensors := alter (list_inserts x.1.2 x.2) x.1.1 T.

Definition staged_fits (T : tensors) (x : staged_set) : Prop := exists data, T !! x.1.1 = Some data /\ x.1.2 + length x.2 <= length data.

(** What is left to read, what is staged, and what is called at the commit. *)
Record reader_is {Obj} (r : llama_io_read_host Obj) (input : list Z) (sets : list staged_set) (calls : list (Obj -> outcome Obj)) : Prop := {
  rs_bounds : rd_ptr r + rd_left r <= length (rd_buf r);
  rs_input : slice_bytes (rd_buf r) (rd_ptr r) (rd_left r) = input;
  rs_sets : (fun i => (ri_tensor i, ri_offset i, rinfo_data (rd_buf r) i)) <$> rd_infos r = sets;
  rs_infos : Forall (fun i => ri_clear i = false /\ ri_owned i = [] /\ ri_ptr i + ri_size i <= length (rd_buf r)) (rd_infos r);
  rs_calls : rd_callbacks r = calls
}.

Section reader_ok.
Context {Obj : Type}.
Implicit Types r : llama_io_read_host Obj.

Lemma reader_start buf len : len <= length buf -> reader_is (Obj := Obj) (read_host buf len) (take len buf) [] [].
Proof. intros H. split; simpl; [lia|unfold slice_bytes; by rewrite drop_0|done|constructor|done]. Qed.

Lemma reader_left r input sets calls : reader_is r input sets calls -> length input = rd_left r.
Proof. intros [H1 <- _ _ _]. by apply length_slice. Qed.

Lemma slice_split buf p n l rest : p + n <= length buf -> slice_bytes buf p n = l ++ rest ->
  slice_bytes buf p (length l) = l /\ slice_bytes buf (p + length l) (n - length l) = rest /\ length l <= n.
Proof.
  unfold slice_bytes. intros Hn H. assert (length (l ++ rest) = n) as Hl by (rewrite <- H, length_take, length_drop; lia). rewrite length_app in Hl.
  assert (take (length l) (take n (drop p buf)) = l) as H1 by (rewrite H; apply take_app_length).
  assert (drop (length l) (take n (drop p buf)) = rest) as H2 by (rewrite H; apply drop_app_length).
  rewrite take_take in H1. rewrite Nat.min_l in H1 by lia. split; [done|]. split; [|lia].
  rewrite <- H2, skipn_firstn_comm, drop_drop. do 2 f_equal; lia.
Qed.

Lemma reader_step r l rest sets calls : reader_is r (l ++ rest) sets calls -> reader_is (rd_step (length l) r) rest sets calls.
Proof.
  intros [H1 H2 H3 H4 H5]. destruct (slice_split _ _ _ _ _ H1 H2) as (_ & E & Hl). split; [simpl; lia|exact E|done|done|done].
Qed.

Lemma reader_read r n l rest sets calls : reader_is r (l ++ rest) sets calls -> length l = n ->
  exists r', read n r = Ok (l, r') /\ reader_is r' rest sets calls.
Proof.
  intros H <-. pose proof H as [H1 H2 _ _ _]. destruct (slice_split _ _ _ _ _ H1 H2) as (E & _ & Hl). exists (rd_step (length l) r).
  split; [|by eapply reader_step]. unfold read, require_. rewrite (proj2 (Nat.leb_le _ _) Hl). cbn [mbind outcome_bind].
  rewrite (proj2 (Nat.ltb_ge (length (rd_buf r)) (rd_ptr r + length l))) by lia. by rewrite E.
Qed.

Lemma reader_short r n input sets calls : reader_is r input sets calls -> length input < n -> read n r = Err RuntimeError.
Proof. intros H Hn. rewrite (reader_left _ _ _ _ H) in Hn. unfold read, require_. by rewrite (proj2 (Nat.leb_gt _ _) Hn). Qed.

Lemma reader_read_tensor r t offset n l rest sets calls : reader_is r (l ++ rest) sets calls -> length l = n ->
  exists r', read_tensor t offset n r = Ok r' /\ reader_is r' rest (sets ++ [(t, offset, l)]) calls.
Proof.
  intros H <-. pose proof H as [H1 H2 H3 H4 H5]. destruct (slice_split _ _ _ _ _ H1 H2) as (E & _ & Hl). eexists. split.
  - unfold read_tensor, require_. by rewrite (proj2 (Nat.leb_le _ _) Hl).
  - apply (reader_step _ l). split; [done|done| | |done]; cbn [rd_stage rd_infos rd_buf].
    + rewrite fmap_app, H3. f_equal. cbn [fmap list_fmap ri_tensor ri_offset]. do 2 f_equal. exact E.
    + apply Forall_app. split; [done|]. constructor; [|constructor]. cbn. split; [done|]. split; [done|]. lia.
Qed.

Lemma reader_on_commit r input sets calls f : reader_is r input sets calls -> reader_is (on_commit f r) input sets (calls ++ [f]).
Proof. intros [H1 H2 H3 H4 H5]. split; try done. simpl. by rewrite H5. Qed.

Lemma tensor_set_ok T t bytes offset : staged_fits T (t, offset, bytes) -> tensor_set T t bytes offset = Ok (set_tensor T (t, offset, bytes)).
Proof.
  intros (data & E & H). simpl in E, H. unfold tensor_set, set_tensor. cbn [fst snd]. rewrite (vec_get_Some _ _ _ E). cbn [mbind outcome_bind].
  destruct (Nat.eqb_spec (length bytes) 0) as [E0|].
  - apply length_zero_iff_nil in E0 as ->. f_equal. symmetry. by apply (list_alter_id (list_inserts offset [])).
  - rewrite assert_true by (by apply Nat.leb_le). cbn [mbind outcome_bind]. f_equal. apply list_eq. intros j. destruct (decide (j = t)) as [->|Hn].
    + rewrite list_lookup_alter_eq, E, list_lookup_insert_eq; [done|by eapply lookup_lt_Some].
    + by rewrite list_lookup_alter_ne, list_lookup_insert_ne.
Qed.

Lemma staged_fits_set T x y : staged_fits T x -> staged_fits (set_tensor T y) x.
Proof.
  intros (data & E & H). unfold staged_fits, set_tensor. destruct (decide (x.1.1 = y.1.1)) as [Ht|Hn].
  - rewrite Ht in *. rewrite list_lookup_alter_eq, E. eexists. split; [done|]. by rewrite length_inserts.
  - rewrite list_lookup_alter_ne by done. by exists data.
Qed.

Lemma commit_info_ok buf T i : ri_clear i = false -> ri_owned i = [] -> ri_ptr i + ri_size i <= length buf -> staged_fits T (ri_tensor i, ri_offset i, rinfo_data buf i) ->
  commit_info buf T i = Ok (set_tensor T (ri_tensor i, ri_offset i, rinfo_data buf i)).
Proof.
  intros Hc Ho Hi Hf. unfold commit_info, rinfo_data in *. rewrite Hc, Ho in *. rewrite bool_decide_true in * by done. rewrite (proj2 (Nat.ltb_ge _ _)) by lia. by apply tensor_set_ok.
Qed.

Lemma reader_commit r input sets calls T x : reader_is r input sets calls -> Forall (staged_fits T) sets ->
  commit r T x = (y ← foldM (fun x f => f x) calls x; Ok (cancel r, foldl set_tensor T sets, y)).
Proof.
  intros [H1 _ <- H4 <-] Hf. unfold commit. assert (foldM (commit_info (rd_buf r)) (rd_infos r) T =
    Ok (foldl set_tensor T ((fun i => (ri_tensor i, ri_offset i, rinfo_data (rd_buf r) i)) <$> rd_infos r))) as ->; [|done].
  revert T Hf. induction H4 as [|i l (Hc & Ho & Hi) _ IH]; intros T Hf; [done|]. cbn [fmap list_fmap foldM foldl] in *. apply Forall_cons in Hf as [Hfi Hf].
  rewrite commit_info_ok by done. cbn [mbind outcome_bind]. apply IH. eapply Forall_impl; [exact Hf|]. intros y. apply staged_fits_set.
Qed.
End reader_ok.

(** ** Runs of operations *)
Section emit.
Context {W : Type} `{IoWrite W}.
Implicit Types io : W.

Lemma run_concat {A} (f : W -> A -> outcome W) (ops : A -> list io_op) l io : (forall a io, a ∈ l -> f io a = foldM run_op (ops a) io) ->
  foldM f l io = foldM run_op (concat (ops <$> l)) io.
Proof.
  revert io. induction l as [|a l IH]; intros io Hf; [done|]. cbn [fmap list_fmap concat foldM]. rewrite foldM_app, Hf by (by left).
  destruct (foldM run_op (ops a) io); [|done]. cbn [mbind outcome_bind]. apply IH. intros; apply Hf. by right.
Qed.

Lemma foldM_bytes (l : list Z) io : foldM (fun io q => write_u32 q io) l io = foldM run_op ((fun q => WriteBytes (le_bytes 4 q)) <$> l) io.
Proof.
  revert io. induction l as [|q l IH]; intros io; [done|]. cbn [fmap list_fmap foldM]. change (write_u32 q io) with (run_op io (WriteBytes (le_bytes 4 q))).
  destruct (run_op _ _); [apply IH|done].
Qed.
End emit.

Lemma ranges_sum l cells : concat ((fun r => seq r.1 (r.2 - r.1)) <$> l) = cells -> sum_list ((fun r => r.2 - r.1) <$> l) = length cells.
Proof. intros <-. induction l as [|r l IH]; [done|]. cbn. rewrite length_app, length_seq. by rewrite <- IH. Qed.

Lemma filter_no (f : nat -> bool) l : (forall i, i ∈ l -> f i = false) -> List.filter f l = [].
Proof. intros H. induction l as [|i l IH]; [done|]. simpl. rewrite H by (by left). apply IH. intros; apply H. by right. Qed.

(** ** Slices and staged changes *)

Lemma slice_app l a n k : slice_bytes l a (n + k) = slice_bytes l a n ++ slice_bytes l (a + n) k.
Proof. unfold slice_bytes. rewrite <- take_take_drop, drop_drop. done. Qed.

Lemma slice_concat (rows : list (list Z)) n i row : Forall (fun l => length l = n) rows -> rows !! i = Some row -> slice_bytes (concat rows) (i * n) n = row.
Proof.
  intros Hf. revert i. induction Hf as [|l rows Hl _ IH]; intros i Hi; [done|]. destruct i as [|i]; simpl in Hi |- *.
  - injection Hi as ->. unfold slice_bytes. rewrite drop_0. rewrite <- Hl. apply take_app_length.
  - rewrite <- (IH i Hi). unfold slice_bytes. replace (n + i * n) with (length l + i * n) by lia. by rewrite <- drop_drop, drop_app_length.
Qed.

Lemma slice_inserts l a bs p n : a + length bs <= length l -> a <= p -> p + n <= a + length bs -> slice_bytes (list_inserts a bs l) p n = slice_bytes bs (p - a) n.
Proof.
  intros H1 H2 H3. unfold slice_bytes. apply list_eq. intros k. destruct (decide (k < n)) as [Hk|Hk]; [|by rewrite !lookup_take_ge by lia].
  rewrite !lookup_take_lt, !lookup_drop by done. rewrite list_lookup_inserts by lia. f_equal. lia.
Qed.

Lemma slice_inserts_apart l a bs p n : p + n <= a \/ a + length bs <= p -> slice_bytes (list_inserts a bs l) p n = slice_bytes l p n.
Proof.
  intros H. unfold slice_bytes. apply list_eq. intros k. destruct (decide (k < n)) as [Hk|Hk]; [|by rewrite !lookup_take_ge by lia].
  rewrite !lookup_take_lt, !lookup_drop by done. destruct H; [by rewrite list_lookup_inserts_lt by lia|by rewrite list_lookup_inserts_ge by lia].
Qed.

Lemma set_tensors_other T l i : (forall x, x ∈ l -> x.1.1 <> i) -> foldl set_tensor T l !! i = T !! i.
Proof.
  revert T. induction l as [|x l IH]; intros T H; [done|]. cbn [foldl]. rewrite IH by (intros; apply H; by right). unfold set_tensor.
  apply list_lookup_alter_ne. apply H. by left.
Qed.

Lemma length_concat_rows {A} (l : list (list A)) n : Forall (fun x => length x = n) l -> length (concat l) = length l * n.
Proof. induction 1 as [|x l Hx _ IH]; [done|]. simpl. rewrite length_app, Hx, IH. done. Qed.

(** ** Reading from the stream *)
Section stream.
Context {Obj : Type}.
Implicit Types r : llama_io_read_host Obj.

Lemma io_read_u32 r (m : Obj) v rest sets calls : reader_is r (le_bytes 4 v ++ rest) sets calls -> (0 <= v <= UINT32_MAX)%Z ->
  exists r', on_io read_u32 (r, m) = (Ok v, (r', m)) /\ reader_is r' rest sets calls.
Proof.
  intros Hr Hv. destruct (reader_read _ 4 _ _ _ _ Hr) as (r' & E & Hr'); [apply le_bytes_length|]. exists r'. split; [|done].
  unfold on_io, read_u32. cbn [fst snd]. rewrite E. cbn [mbind outcome_bind fst snd]. by rewrite le_u32.
Qed.

Lemma io_read_u64 r (m : Obj) v rest sets calls : reader_is r (le_bytes 8 v ++ rest) sets calls -> (0 <= v <= UINT64_MAX)%Z ->
  exists r', on_io read_u64 (r, m) = (Ok v, (r', m)) /\ reader_is r' rest sets calls.
Proof.
  intros Hr Hv. destruct (reader_read _ 8 _ _ _ _ Hr) as (r' & E & Hr'); [apply le_bytes_length|]. exists r'. split; [|done].
  unfold on_io, read_u64. cbn [fst snd]. rewrite E. cbn [mbind outcome_bind fst snd]. by rewrite le_u64.
Qed.

Lemma io_read_i32 r (m : Obj) v rest sets calls : reader_is r (le_bytes 4 v ++ rest) sets calls -> (INT32_MIN <= v <= INT32_MAX)%Z ->
  exists r', on_io read_i32 (r, m) = (Ok v, (r', m)) /\ reader_is r' rest sets calls.
Proof.
  intros Hr Hv. destruct (reader_read _ 4 _ _ _ _ Hr) as (r' & E & Hr'); [apply le_bytes_length|]. exists r'. split; [|done].
  unfold on_io, read_i32. cbn [fst snd]. rewrite E. cbn [mbind outcome_bind fst snd]. by rewrite le_i32.
Qed.
End stream.

Lemma forM_seq {S} (f : nat -> stx S bool) (I : nat -> S -> Prop) i n s : I i s ->
  (forall k s, i <= k < i + n -> I k s -> exists s', f k s = (Ok true, s') /\ I (k + 1) s') -> exists s', forM_ f (seq i n) s = (Ok true, s') /\ I (i + n) s'.
Proof.
  revert i s. induction n as [|n IH]; intros i s HI Hf; cbn [seq forM_].
  - exists s. rewrite Nat.add_0_r. done.
  - destruct (Hf i s ltac:(lia) HI) as (s1 & E1 & H1). rewrite (stx_bind_Ok _ _ _ _ _ E1). destruct (IH (Datatypes.S i) s1) as (s2 & -> & H2).
    + by rewrite <- Nat.add_1_r.
    + intros k s' Hk. apply Hf. lia.
    + exists s2. split; [done|]. by replace (i + Datatypes.S n) with (Datatypes.S i + n) by lia.
Qed.

(** Setting and reading back: the last change that covers a slice decides it. *)
Definition covers_not (t p n : nat) (x : staged_set) : Prop := x.1.1 <> t \/ p + n <= x.1.2 \/ x.1.2 + length x.2 <= p.

Definition tensor_slice (T : tensors) (t p n : nat) : list Z := slice_bytes (default [] (T !! t)) p n.

Lemma set_tensor_apart T x t p n : covers_not t p n x -> tensor_slice (set_tensor T x) t p n = tensor_slice T t p n.
Proof.
  intros H. unfold tensor_slice, set_tensor. destruct (decide (x.1.1 = t)) as [E|Hn]; [|by rewrite list_lookup_alter_ne].
  rewrite E, list_lookup_alter_eq. destruct (T !! t) as [l|]; [|done]. cbn. destruct H as [?|H]; [done|]. apply slice_inserts_apart. lia.
Qed.

Lemma set_tensors_apart T l t p n : (forall x, x ∈ l -> covers_not t p n x) -> tensor_slice (foldl set_tensor T l) t p n = tensor_slice T t p n.
Proof.
  revert T. induction l as [|x l IH]; intros T H; [done|]. cbn [foldl]. rewrite IH by (intros; apply H; by right). apply set_tensor_apart, H. by left.
Qed.

Lemma set_tensors_at T l1 x l2 : staged_fits T x -> (forall y, y ∈ l2 -> covers_not x.1.1 x.1.2 (length x.2) y) ->
  tensor_slice (foldl set_tensor T (l1 ++ x :: l2)) x.1.1 x.1.2 (length x.2) = x.2.
Proof.
  intros Hf H2. rewrite foldl_app. cbn [foldl]. rewrite set_tensors_apart by done.
  assert (staged_fits (foldl set_tensor T l1) x) as (data & E & Hl).
  { clear H2. revert T Hf. induction l1 as [|y l1 IH]; intros T Hf; [done|]. cbn [foldl]. by apply IH, staged_fits_set. }
  generalize dependent (foldl set_tensor T l1). intros T1 E. unfold tensor_slice, set_tensor. rewrite list_lookup_alter_eq, E. cbn. rewrite slice_inserts by lia. rewrite Nat.sub_diag. unfold slice_bytes. by rewrite drop_0, firstn_all.
Qed.

(** Changes of one tensor in one place after the other are one change. *)
Lemma set_tensors_run T t p (l : list (list Z)) (w : nat) : Forall (fun x => length x = w) l ->
  foldl set_tensor T (imap (fun i x => (t, p + i * w, x)) l) = set_tensor T (t, p, concat l).
Proof.
  intros Hl. revert p T. induction Hl as [|x l Hx _ IH]; intros p T.
  - change (T = set_tensor T (t, p, concat [])). unfold set_tensor. cbn [fst snd concat]. symmetry. apply list_eq. intros i. destruct (decide (i = t)) as [->|]; [|by rewrite list_lookup_alter_ne]. rewrite list_lookup_alter_eq. by destruct (T !! t).
  - rewrite imap_cons. cbn [foldl concat]. rewrite Nat.mul_0_l, Nat.add_0_r.
    rewrite (imap_ext _ (fun i x => (t, (p + w) + i * w, x))) by (intros i y _; cbn; do 2 f_equal; lia). rewrite IH. unfold set_tensor. cbn [fst snd].
    apply list_eq. intros i. destruct (decide (i = t)) as [->|]; [|by rewrite !list_lookup_alter_ne]. rewrite !list_lookup_alter_eq. destruct (T !! t); [|done]. cbn. f_equal.
    rewrite list_inserts_app_l. f_equal. lia.
Qed.

(** ** Computations and the states they pass through *)
Section tracks.
Context {S : Type} (R : relation S) `{!PreOrder R}.

Definition tracks {A} (c : stx S A) : Prop := forall s res s', c s = (res, s') -> R s s'.

Lemma tracks_ret {A} (a : A) : tracks (mret a).
Proof. intros s res s' [= <- <-]. reflexivity. Qed.

Lemma tracks_bind {A B} (c : stx S A) (k : A -> stx S B) : tracks c -> (forall a, tracks (k a)) -> tracks (c ≫= k).
Proof.
  intros Hc Hk s res s' H. unfold mbind, stx_bind in H. destruct (c s) as [[a|e] s1] eqn:E; [|injection H as <- <-; by eapply Hc].
  transitivity s1; [by eapply Hc|by eapply Hk].
Qed.

Lemma tracks_lift {A} (x : outcome A) : tracks (stx_lift x).
Proof. intros s res s' H. unfold stx_lift in H. destruct x; injection H as <- <-; reflexivity. Qed.

Lemma tracks_forM {A} (f : A -> stx S bool) l : (forall a, tracks (f a)) -> tracks (forM_ f l).
Proof.
  intros Hf. induction l as [|a l IH]; [apply tracks_ret|]. apply tracks_bind; [done|]. intros []; [done|apply tracks_ret].
Qed.

Lemma tracks_if {A} (b : bool) (c d : stx S A) : tracks c -> tracks d -> tracks (if b then c else d).
Proof. by destruct b. Qed.
End tracks.

(** ** The reader *)

(** Reading moves on and leaves the callbacks. *)
Record rd_moved {Obj} (r r' : llama_io_read_host Obj) : Prop := {
  mv_calls : rd_callbacks r' = rd_callbacks r;
  mv_sum : rd_read r' + rd_left r' = rd_read r + rd_left r;
  mv_read : rd_read r <= rd_read r'
}.

#[export] Instance rd_moved_preorder {Obj} : PreOrder (@rd_moved Obj).
Proof. split; [done|]. intros a b c [] []. split; [congruence|congruence|lia]. Qed.

Definition reads_on {Obj} (s s' : llama_io_read_host Obj * Obj) : Prop := rd_moved s.1 s'.1.
Definition reads_only {Obj} (s s' : llama_io_read_host Obj * Obj) : Prop := rd_moved s.1 s'.1 /\ s'.2 = s.2.

#[export] Instance reads_on_preorder {Obj} : PreOrder (@reads_on Obj).
Proof. split; [intros s; unfold reads_on; reflexivity|]. intros a b c H1 H2. unfold reads_on in *. by etransitivity. Qed.
#[export] Instance reads_only_preorder {Obj} : PreOrder (@reads_only Obj).
Proof. split; [intros s; split; [reflexivity|done]|]. intros a b c [H1 E1] [H2 E2]. split; [by etransitivity|congruence]. Qed.

Section reads.
Context {Obj : Type}.
Implicit Types r : llama_io_read_host Obj.

Lemma read_moved n r l r' : read n r = Ok (l, r') -> rd_moved r r'.
Proof.
  unfold read, require_. destruct (Nat.leb_spec n (rd_left r)); [|done]. cbn [mbind outcome_bind]. destruct (_ <? _); [done|]. intros [= <- <-]. split; simpl; [done|lia|lia].
Qed.

Lemma read_u32_moved r z r' : read_u32 r = Ok (z, r') -> rd_moved r r'.
Proof. unfold read_u32. intros H. apply bind_Ok in H as ([l r1] & E & [= <- <-]). by eapply read_moved. Qed.
Lemma read_i32_moved r z r' : read_i32 r = Ok (z, r') -> rd_moved r r'.
Proof. unfold read_i32. intros H. apply bind_Ok in H as ([l r1] & E & [= <- <-]). by eapply read_moved. Qed.
Lemma read_u64_moved r z r' : read_u64 r = Ok (z, r') -> rd_moved r r'.
Proof. unfold read_u64. intros H. apply bind_Ok in H as ([l r1] & E & [= <- <-]). by eapply read_moved. Qed.

Lemma read_tensor_moved t o n r (b : bool) r' : (r1 ← read_tensor t o n r; Ok (true, r1)) = Ok (b, r') -> rd_moved r r'.
Proof.
  unfold read_tensor, require_. destruct (Nat.leb_spec n (rd_left r)); [|done]. cbn [mbind outcome_bind]. intros [= <- <-]. split; simpl; [done|lia|lia].
Qed.
Lemma tracks_io {A} (f : llama_io_read_host Obj -> outcome (A * llama_io_read_host Obj)) :
  (forall r a r', f r = Ok (a, r') -> rd_moved r r') -> tracks reads_only (on_io f).
Proof.
  intros Hf [r m] res s' H. unfold on_io in H. cbn [fst snd] in H. destruct (f r) as [[a r']|e] eqn:E; injection H as <- <-; [split; [by eapply Hf|done]|reflexivity].
Qed.

Lemma tracks_weaken {A} (c : stx (llama_io_read_host Obj * Obj) A) : tracks reads_only c -> tracks reads_on c.
Proof. intros H s res s' E. by destruct (H s res s' E). Qed.
End reads.

Create HintDb tracks.

(** Follows the structure of a computation. *)
Ltac track_step := match goal with
  | |- tracks _ (match ?x with _ => _ end) => destruct x
  | |- tracks _ (mret _) => apply (tracks_ret _)
  | |- tracks _ (stx_lift _) => apply (tracks_lift _)
  | |- tracks _ (_ ≫= _) => apply (tracks_bind _); [|intros]
  | |- tracks _ (forM_ _ _) => apply (tracks_forM _); intros
  | |- tracks reads_on (on_io _) => apply tracks_weaken
  | |- tracks reads_only (on_io _) => apply tracks_io; intros ? ? ?; eauto using read_u32_moved, read_i32_moved, read_u64_moved, read_tensor_moved
  | |- tracks _ _ => solve [auto with tracks]
  end.
Ltac track := repeat track_step; auto with tracks.

(** ** Sequence states of a context *)

(** What a state begins with. *)
Definition seq_file (seq_id : Z) (data : list Z) : list Z := le_bytes 4 io_magic ++ le_bytes 4 seq_id ++ data.

Section write.
Context (get_tensor_2d : option (list Z -> list Z -> nat -> nat -> nat -> nat -> nat -> nat -> outcome (list Z))).
Context (Hget : forall get, get_tensor_2d = Some get -> transfers get).

(** What a writer that runs the operations gives: the dummy writer counts, the host writer
    fills a buffer that is large enough, and is refused otherwise. *)
Definition writes_data (T : tensors) (count : llama_io_write_dummy -> outcome llama_io_write_dummy) (run : llama_io_write_host -> outcome llama_io_write_host)
    (bytes : list Z) : Prop :=
  count (mk_dummy false 0) = Ok (mk_dummy false (length bytes)) /\
  (forall mem len, len <= length mem -> length bytes <= len -> exists w, run (write_host mem len) = Ok w /\ io_n_bytes w = length bytes /\
    flush get_tensor_2d T w = Ok (bytes ++ drop (length bytes) mem)) /\
  (forall mem len, len <= length mem -> len < length bytes -> run (write_host mem len) = Err RuntimeError).

Lemma writes_ops T count run ops : (forall io, count io = foldM run_op ops io) -> (forall io, run io = foldM run_op ops io) -> Forall (op_fits T) ops -> writes_data T count run (ops_data T ops).
Proof.
  intros Hc Hr Hfit. unfold writes_data. rewrite (ops_data_length T ops Hfit). setoid_rewrite Hr. rewrite Hc. split; [by rewrite run_dummy|]. split.
  - intros mem len H1 H2. by apply host_result.
  - intros mem len H1 H2. by apply run_host_full.
Qed.

Section saved.
Context {M : Type} `{MemoryState M} (seq_id flags : Z) (m : M) (T : tensors) (ops : list io_op).
Context (Hw : forall W (HW : IoWrite W) (io : W), state_write seq_id flags m io = foldM run_op ops io) (Hfit : Forall (op_fits T) ops) (Hf : on_device flags = false).

Lemma writes_file : writes_data T (seq_write_data seq_id flags m) (seq_write_data seq_id flags m) (seq_file seq_id (ops_data T ops)).
Proof.
  change (seq_file seq_id (ops_data T ops)) with (ops_data T (WriteBytes (le_bytes 4 io_magic) :: WriteBytes (le_bytes 4 seq_id) :: ops)).
  apply writes_ops; [intros io|intros io|constructor; [done|constructor; done]].
  all: unfold seq_write_data, write_u32; cbn [foldM run_op]; destruct (io_write _ io) as [io1|]; [|done]; cbn [mbind outcome_bind];
    destruct (io_write _ io1) as [io2|]; [|done]; cbn [mbind outcome_bind]; apply Hw.
Qed.

Lemma file_size_ok n_seq_max : seq_ok n_seq_max seq_id (state_seq_can_save seq_id flags m) = true -> state_seq_get_size n_seq_max seq_id flags m = Ok (length (seq_file seq_id (ops_data T ops))).
Proof. intros Hok. destruct writes_file as (Hc & _). unfold state_seq_get_size. rewrite Hok. cbn [negb]. by rewrite Hf, Hc. Qed.

Lemma file_data_ok n_seq_max mem len : let bytes := seq_file seq_id (ops_data T ops) in seq_ok n_seq_max seq_id (state_seq_can_save seq_id flags m) = true -> len <= length mem ->
  state_seq_get_data get_tensor_2d n_seq_max seq_id flags true T m mem len = Ok (if len <? length bytes then (0, None) else (length bytes, Some (bytes ++ drop (length bytes) mem))).
Proof.
  intros bytes Hok Hl. destruct writes_file as (_ & Hh & Hn). unfold state_seq_get_data. rewrite Hok. cbn [negb]. destruct (Nat.ltb_spec len (length bytes)).
  - by rewrite (Hn mem len).
  - destruct (Hh mem len) as (w & -> & E & Ef); [done..|]. by rewrite Ef, E.
Qed.
End saved.
End write.

Lemma reader_moved_read {Obj} n (r : llama_io_read_host Obj) l rest sets calls : reader_is r (l ++ rest) sets calls -> length l = n ->
  exists r', read n r = Ok (l, r') /\ reader_is r' rest sets calls /\ rd_moved r r'.
Proof. intros Hr Hl. destruct (reader_read r n l rest sets calls Hr Hl) as (r' & E & H). exists r'. split; [done|]. split; [done|]. by eapply read_moved. Qed.

Lemma read_u32_moved4 {Obj} (r : llama_io_read_host Obj) z r' : read_u32 r = Ok (z, r') -> rd_moved r r' /\ rd_read r' = rd_read r + 4.
Proof.
  intros H. split; [by eapply read_u32_moved|]. unfold read_u32 in H. apply bind_Ok in H as ([l r1] & E & [= _ <-]). unfold read, require_ in E.
  destruct (4 <=? rd_left r); [|done]. cbn [mbind outcome_bind] in E. destruct (_ <? _); [done|]. by injection E as _ <-.
Qed.

(** Behind the magic number and the id is the state of the memory. *)
Lemma load_file {M} `{MemoryState M} seq_id flags x (m : M) rest (r : llama_io_read_host M) sets calls :
  reader_is r (seq_file x rest) sets calls -> exists r0, reader_is r0 rest sets calls /\ rd_moved r r0 /\
    seq_read_data seq_id flags (r, m) = match state_read seq_id flags (r0, m) with (Ok _, s) => (Ok (rd_read s.1), s) | (Err e, s) => (Err e, s) end.
Proof.
  intros Hr. destruct (reader_moved_read 4 r _ _ _ _ Hr) as (r1 & E1 & Hr1 & Hm1); [apply le_bytes_length|].
  destruct (reader_moved_read 4 r1 _ _ _ _ Hr1) as (r2 & E2 & Hr2 & Hm2); [apply le_bytes_length|].
  exists r2. split; [done|]. split; [by etransitivity|]. unfold seq_read_data. cbv zeta.
  rewrite (stx_bind_Ok _ _ _ io_magic (r1, m)); [|unfold read_u32; cbn [fst snd]; rewrite E1; cbn [mbind outcome_bind fst snd]; rewrite le_u32; [done|unfold io_magic, UINT32_MAX; lia]].
  rewrite (stx_bind_Ok _ _ _ tt (r1, m)) by done. rewrite (stx_bind_Ok _ _ _ (to_i32 (le_value (le_bytes 4 x))) (r2, m)) by (unfold read_i32; cbn [fst snd]; by rewrite E2).
  unfold mbind, stx_bind. by destruct (state_read seq_id flags (r2, m)) as [[[]|] [? ?]].
Qed.
