(* ===== verification/RecurrentState.v ===== *)
(** * State files of the recurrent memory ([state_write] and [state_read] of
    src/src/llama-memory-recurrent.cpp)

    What is written: the number of cells in use (or of the cells of one sequence), position
    and sequences of each, and the row of every layer its state is in, taken from the
    rollback snapshot when a rollback is pending.  Reading builds the new cells on the live
    memory, puts the old ones back, and leaves installing the new ones to the commit. *)

From S2P Require Import KvCells.
From S2P Require Export StateIo Recurrent.
Open Scope nat_scope.

(** A state tensor of a layer: its id, its type and [ggml_row_size]. *)
Record rs_tensor := mk_rs_tensor { rt_id : nat; rt_type : Z; rt_row : Z }.

(** What the memory knows of the model. *)
Record rs_layers := mk_layers {
  l_n_layer : nat;
  l_r : list (option rs_tensor);
  l_s : list (option rs_tensor);
  l_n_pos_per_embd : nat
}.

(** ** Writing *)

(** [begin] is the size when no range is open. *)
Record cell_scan := mk_scan { sc_ranges : list (nat * nat); sc_data : list (Z * Z); sc_count : Z; sc_begin : nat }.

(** The common rollback index of the sequences of a cell. *)
Definition shared_idx (rs : list Z) (x : option Z) (q : Z) : outcome (option Z) :=
  idx ← (if (0 <=? q)%Z && (q <? Z.of_nat (length rs))%Z then arr_get rs q else Err AssertFailed);
  match x with
  | None => Ok (Some idx)
  | Some cur => if (cur =? idx)%Z then Ok x else Err AssertFailed
  end.

Definition rs_idx_of (seq_id : Z) (m : llama_memory_recurrent) (cell : mem_cell) : outcome Z :=
  if (n_rs_seq m =? 0)%Z then Ok 0%Z else
  if negb (seq_id =? -1)%Z then
    if (0 <=? seq_id)%Z && (seq_id <? Z.of_nat (length (rs_idx m)))%Z then arr_get (rs_idx m) seq_id else Err AssertFailed
  else
    x ← foldM (shared_idx (rs_idx m)) (setZ_list (c_seq_id cell)) None;
    Ok (default 0%Z x).

(** Append a row to the ranges of rows. *)
Definition add_row (l : list (Z * Z)) (cell_id : Z) : list (Z * Z) :=
  match last l with
  | Some (a, b) => if (b =? cell_id)%Z then <[length l - 1 := (a, u32 (b + 1))]> l else l ++ [(cell_id, u32 (cell_id + 1))]
  | None => [(cell_id, u32 (cell_id + 1))]
  end.

Definition scan_cell (seq_id : Z) (m : llama_memory_recurrent) (x : cell_scan) (i : nat) : outcome cell_scan :=
  cell ← cell_at m (Z.of_nat i);
  if ((seq_id =? -1)%Z && negb (is_empty cell)) || has_seq_id seq_id cell then
    rs_idx_cur ← rs_idx_of seq_id m cell;
    let cell_id := u32 (u32 (rs_idx_cur * sizeZ m) + (if (0 <=? c_src cell)%Z then c_src cell else Z.of_nat i)) in
    Ok (mk_scan (sc_ranges x) (add_row (sc_data x) cell_id) (u32 (sc_count x + 1)) (if sc_begin x =? r_size m then i else sc_begin x))
  else if negb (sc_begin x =? r_size m)
  then Ok (mk_scan (sc_ranges x ++ [(sc_begin x, i)]) (sc_data x) (sc_count x) (r_size m))
  else Ok x.

Definition scan_cells (seq_id : Z) (m : llama_memory_recurrent) : outcome cell_scan :=
  x ← foldM (scan_cell seq_id m) (seq 0 (r_size m)) (mk_scan [] [] 0 (r_size m));
  Ok (if negb (sc_begin x =? r_size m) then mk_scan (sc_ranges x ++ [(sc_begin x, r_size m)]) (sc_data x) (sc_count x) (sc_begin x) else x).

Definition write_meta_cell {W} `{IoWrite W} (seq_id : Z) (m : llama_memory_recurrent) (io : W) (i : nat) : outcome W :=
  cell ← cell_at m (Z.of_nat i);
  let n_seq_id := if (seq_id =? -1)%Z then size (c_seq_id cell) else 0 in
  io ← write_u32 (c_pos cell) io;
  io ← write_u32 (Z.of_nat n_seq_id) io;
  if n_seq_id =? 0 then Ok io else foldM (fun io q => write_u32 q io) (setZ_list (c_seq_id cell)) io.

Definition state_write_meta {W} `{IoWrite W} (ranges : list (nat * nat)) (seq_id : Z) (m : llama_memory_recurrent) (io : W) : outcome W :=
  foldM (fun io r => foldM (write_meta_cell seq_id m) (seq r.1 (r.2 - r.1)) io) ranges io.

(** The tensor of one layer; a layer without one is skipped. *)
Definition write_layer {W} `{IoWrite W} (l : list (option rs_tensor)) (ranges : list (Z * Z)) (io : W) (il : nat) : outcome W :=
  t ← vec_get l il;
  match t with
  | None => Ok io
  | Some t =>
      io ← write_u32 (rt_type t) io;
      io ← write_u64 (rt_row t) io;
      foldM (fun io r => let range_size := u32 (r.2 - r.1) in
               io_write_tensor (rt_id t) (Z.to_nat (u64 (r.1 * rt_row t))) (Z.to_nat (u64 (range_size * rt_row t))) io) ranges io
  end.

(** [s_trans] is 0: the rows of the states are contiguous. *)
Definition state_write_data {W} `{IoWrite W} (ly : rs_layers) (ranges : list (Z * Z)) (io : W) : outcome W :=
  io ← write_u32 0 io;
  io ← write_u32 (Z.of_nat (l_n_layer ly)) io;
  io ← foldM (write_layer (l_r ly) ranges) (seq 0 (l_n_layer ly)) io;
  foldM (write_layer (l_s ly) ranges) (seq 0 (l_n_layer ly)) io.

Definition rec_state_write {W} `{IoWrite W} (ly : rs_layers) (seq_id flags : Z) (m : llama_memory_recurrent) (io : W) : outcome W :=
  x ← scan_cells seq_id m;
  _ ← assert_ (negb (on_device flags && (1 <? length (sc_ranges x))));
  let cell_count_check := sum_list ((fun r => r.2 - r.1) <$> sc_ranges x) in
  _ ← assert_ (sc_count x =? u32 (Z.of_nat cell_count_check))%Z;
  _ ← assert_ (sc_count x =? foldl (fun n r => u32 (n + u32 (r.2 - r.1)))%Z 0%Z (sc_data x))%Z;
  io ← write_u32 (sc_count x) io;
  io ← state_write_meta (sc_ranges x) seq_id m io;
  state_write_data ly (sc_data x) io.

(** ** Reading *)

Notation rd_state := (llama_io_read_host llama_memory_recurrent * llama_memory_recurrent)%type.

(** Changing the memory. *)
Definition on_mem {A} (f : llama_memory_recurrent -> outcome (A * llama_memory_recurrent)) : stx rd_state A := fun s =>
  match f s.2 with Ok (a, m) => (Ok a, (s.1, m)) | Err e => (Err e, s) end.

Definition get_mem : stx rd_state llama_memory_recurrent := fun s => (Ok s.2, s).

(** One position for each cell, none with a set of sequences; [None]: return [false]. *)
Fixpoint read_positions (n : nat) (pos : list Z) : stx rd_state (option (list Z)) :=
  match n with
  | 0 => mret (Some pos)
  | Datatypes.S n =>
      p ← on_io read_i32;
      n_seq_id ← on_io read_u32;
      if negb (n_seq_id =? 0)%Z then mret None else read_positions n (pos ++ [p])
  end.

(** The cells get their own rows as sources. *)
Definition own_sources (cell_count : Z) (m : llama_memory_recurrent) : outcome llama_memory_recurrent :=
  foldM (fun m i => let cell_id := u32 (r_head m + Z.of_nat i) in on_cell cell_id (cell_src (to_i32 cell_id)) m) (seq 0 (Z.to_nat cell_count)) m.

(** The ubatch of [ubatch_reserve(cell_count, 1)] with the positions and the one sequence. *)
Definition restore_ubatch (u : llama_ubatch) (pos : list Z) (dest_seq_id : Z) : outcome llama_ubatch :=
  n_seq_id ← vec_set (u_n_seq_id u) 0 1%Z;
  seq_id ← vec_set (u_seq_id u) 0 [dest_seq_id];
  _ ← (if length pos <=? length (u_pos u) then Ok tt else Err OutOfBounds);
  Ok (mk_ubatch (u_equal_seqs u) (u_n_tokens u) (u_n_seq_tokens u) (u_n_seqs u) (u_n_seqs_unq u) (u_n_pos u) (u_token u) (u_embd u)
        (pos ++ drop (length pos) (u_pos u)) n_seq_id seq_id (u_seq_id_unq u) (u_seq_idx u) (u_output u)).

(** The checks after a sequence has been placed. *)
Definition check_restored (cell_count : Z) (u : llama_ubatch) (dest_seq_id : Z) (m : llama_memory_recurrent) : outcome unit :=
  let last := u32 (u32 (r_head m + cell_count) - 1) in
  _ ← assert_ (u32 (r_head m + cell_count) <=? sizeZ m)%Z;
  a ← cell_at m (r_head m);
  p ← vec_get (u_pos u) 0;
  _ ← assert_ (c_pos a =? p)%Z;
  b ← cell_at m last;
  p ← arr_get (u_pos u) (cell_count - 1);
  _ ← assert_ (c_pos b =? p)%Z;
  _ ← assert_ (has_seq_id dest_seq_id a);
  assert_ (has_seq_id dest_seq_id b).

Definition read_seq_meta (ly : rs_layers) (cell_count dest_seq_id : Z) : stx rd_state bool :=
  _ ← on_mem (seq_rm dest_seq_id (-1) (-1));
  if (cell_count =? 0)%Z then mret true else
  r ← stx_lift (ubatch_reserve (Z.to_nat cell_count) 1 (new_allocr (l_n_pos_per_embd ly)));
  pos ← read_positions (Z.to_nat cell_count) [];
  match pos with
  | None => mret false
  | Some pos =>
      u ← stx_lift (restore_ubatch r.1 pos dest_seq_id);
      found ← on_mem (find_slot u);
      if negb found then mret false else
      m ← get_mem;
      _ ← stx_lift (check_restored cell_count u dest_seq_id m);
      on_mem (fun m => m ← own_sources cell_count m; Ok (true, m))
  end.

(** A sequence id of a cell. *)
Definition read_id (i : nat) (_ : nat) : stx rd_state bool :=
  seq_id ← on_io read_i32;
  m ← get_mem;
  if (seq_id <? 0)%Z || (Z.of_nat (length (rs_idx m)) <=? seq_id)%Z then mret false else
  tail ← on_mem (fun m =>
    m ← on_cell (Z.of_nat i) (fun c => cell_seqs ({[seq_id]} ∪ c_seq_id c) c) m;
    owner ← cell_at m seq_id;
    Ok (c_tail owner, m));
  if negb (tail =? -1)%Z then mret false else
  on_mem (fun m => m ← on_cell seq_id (cell_tail (Z.of_nat i)) m; Ok (true, m)).

Definition read_cell (i : nat) : stx rd_state bool :=
  pos ← on_io read_i32;
  n_seq_id ← on_io read_u32;
  _ ← on_mem (fun m => m ← on_cell (Z.of_nat i) (cell_pos pos) m; Ok (tt, m));
  forM_ (read_id i) (seq 0 (Z.to_nat n_seq_id)).

Definition read_all_meta (cell_count : Z) : stx rd_state bool :=
  m ← get_mem;
  if (sizeZ m <? cell_count)%Z then mret false else
  _ ← on_mem (fun m => Ok (tt, clear m));
  ok ← forM_ read_cell (seq 0 (Z.to_nat cell_count));
  if negb ok then mret false else
  on_mem (fun m => m ← own_sources cell_count (set_used cell_count (set_head 0 m)); Ok (true, m)).

Definition state_read_meta (ly : rs_layers) (cell_count dest_seq_id : Z) : stx rd_state bool :=
  if negb (dest_seq_id =? -1)%Z then read_seq_meta ly cell_count dest_seq_id else read_all_meta cell_count.

Definition read_layer (l : list (option rs_tensor)) (cell_count restore_head : Z) (il : nat) : stx rd_state bool :=
  t ← stx_lift (vec_get l il);
  match t with
  | None => mret true
  | Some t =>
      type_ref ← on_io read_i32;
      if negb (rt_type t =? type_ref)%Z then mret false else
      row_ref ← on_io read_u64;
      if negb (rt_row t =? row_ref)%Z then mret false else
      if (cell_count =? 0)%Z then mret true else
      on_io (fun r => r ← read_tensor (rt_id t) (Z.to_nat (u64 (restore_head * rt_row t))) (Z.to_nat (u64 (cell_count * rt_row t))) r; Ok (true, r))
  end.

(** Transposed states are refused. *)
Definition state_read_data (ly : rs_layers) (cell_count restore_head : Z) : stx rd_state bool :=
  s_trans ← on_io read_u32;
  n_layer ← on_io read_u32;
  m ← get_mem;
  if negb (n_layer =? Z.of_nat (l_n_layer ly))%Z then mret false else
  if (sizeZ m <? cell_count)%Z then mret false else
  if negb (s_trans =? 0)%Z then mret false else
  ok ← forM_ (read_layer (l_r ly) cell_count restore_head) (seq 0 (l_n_layer ly));
  if negb ok then mret false else
  forM_ (read_layer (l_s ly) cell_count restore_head) (seq 0 (l_n_layer ly)).

(** The members a failed or staged read puts back: all but [n]. *)
Definition put_back (old m : llama_memory_recurrent) : llama_memory_recurrent :=
  mk_recurrent (r_head old) (r_used old) (n_rs_seq m) (rs_idx old) (r_n m) (rs_z old) (r_cells old).

(** The commit. *)
Definition install_new (new m : llama_memory_recurrent) : outcome llama_memory_recurrent := Ok (put_back new m).

Definition rec_state_read (ly : rs_layers) (seq_id flags : Z) : stx rd_state unit :=
  cell_count ← on_io read_u32;
  old ← get_mem;
  let restore : stx rd_state unit := on_mem (fun m => Ok (tt, put_back old m)) in
  res ← (fun s => match state_read_meta ly cell_count seq_id s with
                  | (Err RuntimeError, s) => (Err RuntimeError, (s.1, put_back old s.2))
                  | x => x end);
  _ ← on_mem (fun m => Ok (tt,
        if (res : bool) && negb (n_rs_seq m =? 0)%Z
        then if (seq_id =? -1)%Z then set_rs ((fun _ => 0%Z) <$> rs_idx m) m else set_rs_idx seq_id 0 m
        else m));
  new ← get_mem;
  _ ← restore;
  res ← (fun s => if (res : bool)
                  then match state_read_data ly cell_count (r_head new) s with
                       | (Err RuntimeError, s) => (Ok false, s)
                       | x => x end
                  else (Ok false, s));
  _ ← stx_lift (require_ RuntimeError res);
  on_io (fun r => Ok (tt, on_commit (install_new new) r)).

(** The recurrent memory as seen by a context; a negative id is not a sequence. *)
#[export] Instance recurrent_state (ly : rs_layers) : MemoryState llama_memory_recurrent := {
  state_write W _ seq_id flags m io := rec_state_write ly seq_id flags m io;
  state_read seq_id flags := rec_state_read ly seq_id flags;
  state_seq_can_save seq_id _ _ := (0 <=? seq_id)%Z;
  state_seq_can_restore seq_id _ _ := (0 <=? seq_id)%Z
}.
