(* ===== verification/RecurrentSave.v ===== *)
(** * State files of the recurrent memory: writing

    Which cells are written, from which rows, and the bytes this gives: count, position and
    sequences of each cell, and for every layer type, row size and the rows. *)

From S2P Require Import KvCells BatchInit.
From S2P Require Export StateIoProps RecurrentWf RecurrentState.
Open Scope nat_scope.

(** The rollback index that counts for a sequence. *)
Definition rs_of (m : llama_memory_recurrent) (y : nat) : Z := if (n_rs_seq m =? 0)%Z then 0%Z else default 0%Z (rs_idx m !! y).

(** A memory that can be written: a rollback index for every cell, the same for the
    sequences of a cell, and row numbers that fit. *)
Record saveable (m : llama_memory_recurrent) : Prop := {
  sv_seqs : r_size m <= length (rs_idx m);
  sv_same : forall j y z, Z.of_nat y ∈ ids (r_cells m) j -> Z.of_nat z ∈ ids (r_cells m) j -> rs_of m y = rs_of m z;
  sv_rows : ((1 + n_rs_seq m) * sizeZ m < UINT32_MAX)%Z
}.

(** The cells of one sequence, or all in use. *)
Definition chosen (seq_id : Z) (m : llama_memory_recurrent) (j : nat) : bool :=
  ((seq_id =? -1)%Z && negb (bool_decide (ids (r_cells m) j = ∅))) || bool_decide (seq_id ∈ ids (r_cells m) j).

Definition chosen_cells (seq_id : Z) (m : llama_memory_recurrent) : list nat := List.filter (chosen seq_id m) (seq 0 (r_size m)).

Definition cell_row (seq_id : Z) (m : llama_memory_recurrent) (j : nat) : Z :=
  (match r_cells m !! j with Some c => match rs_idx_of seq_id m c with Ok i => i | Err _ => 0 end | None => 0 end * sizeZ m + Z.of_nat j)%Z.

Section scan.
Context (m : llama_memory_recurrent) (Hm : rec_wf m) (Hs : saveable m) (seq_id : Z).

Lemma chosen_id j : chosen seq_id m j = true -> exists y, Z.of_nat y ∈ ids (r_cells m) j /\ (seq_id = -1 \/ seq_id = Z.of_nat y)%Z.
Proof.
  unfold chosen. intros [[E1%Z.eqb_eq E2%negb_true_iff%bool_decide_eq_false]%andb_true_iff|E%bool_decide_eq_true]%orb_true_iff.
  - apply set_choose_L in E2 as [x Hx]. destruct (linked_id _ _ _ (rw_links _ Hm) Hx) as (y & -> & _). exists y. split; [done|by left].
  - destruct (linked_id _ _ _ (rw_links _ Hm) E) as (y & -> & _). exists y. split; [done|by right].
Qed.

Lemma rs_lookup y j : Z.of_nat y ∈ ids (r_cells m) j -> n_rs_seq m <> 0%Z ->
  (Z.of_nat y < Z.of_nat (length (rs_idx m)))%Z /\ arr_get (rs_idx m) (Z.of_nat y) = Ok (rs_of m y) /\ (0 <= rs_of m y <= n_rs_seq m)%Z.
Proof.
  intros Hy Hn. destruct (linked_id _ _ _ (rw_links _ Hm) Hy) as (y' & E & _ & Hlt & _). apply Nat2Z.inj in E as <-. pose proof (sv_seqs _ Hs) as Hl. unfold r_size in Hl.
  destruct (lookup_lt_is_Some_2 (rs_idx m) y ltac:(lia)) as [v Hv]. unfold rs_of. rewrite (proj2 (Z.eqb_neq _ _)), Hv by done. split; [lia|]. split; [by apply arr_get_Z|].
  pose proof (rw_rs _ Hm) as [_ H]. rewrite Forall_forall in H. apply H. by eapply list_elem_of_lookup_2.
Qed.

Lemma rs_of_range y j : Z.of_nat y ∈ ids (r_cells m) j -> (0 <= rs_of m y <= n_rs_seq m)%Z.
Proof.
  intros Hy. destruct (decide (n_rs_seq m = 0)%Z) as [E|E]; [|by apply (rs_lookup y j)]. unfold rs_of. rewrite E. simpl. lia.
Qed.

(** The index of a cell is the one of its sequences. *)
Lemma rs_idx_of_ok j c : r_cells m !! j = Some c -> chosen seq_id m j = true ->
  exists idx, rs_idx_of seq_id m c = Ok idx /\ forall y, Z.of_nat y ∈ ids (r_cells m) j -> (seq_id = -1 \/ seq_id = Z.of_nat y)%Z -> idx = rs_of m y.
Proof.
  intros Hc Hch. pose proof (fld_Some c_seq_id ∅ _ _ _ Hc) as Ei. unfold rs_idx_of. destruct (Z.eqb_spec (n_rs_seq m) 0) as [E0|E0].
  { exists 0%Z. split; [done|]. intros y _ _. unfold rs_of. by rewrite E0. }
  destruct (Z.eqb_spec seq_id (-1)) as [->|E1]; cbn [negb].
  - assert (forall l x, (forall q, q ∈ l -> q ∈ ids (r_cells m) j) -> (forall v, x = Some v -> forall y, Z.of_nat y ∈ ids (r_cells m) j -> v = rs_of m y) ->
      exists x', foldM (shared_idx (rs_idx m)) l x = Ok x' /\ (x' = None -> l = [] /\ x = None) /\ forall v, x' = Some v -> forall y, Z.of_nat y ∈ ids (r_cells m) j -> v = rs_of m y) as Hfold.
    { induction l as [|q l IH]; intros x Hl Hx; [exists x; split; [done|]; split; done|]. destruct (linked_id _ _ _ (rw_links _ Hm) (Hl q ltac:(by left))) as (y & -> & _).
      pose proof (Hl (Z.of_nat y) ltac:(by left)) as Hy. destruct (rs_lookup y j Hy E0) as (H1 & H2 & _).
      assert (shared_idx (rs_idx m) x (Z.of_nat y) = Ok (Some (rs_of m y))) as E.
      { unfold shared_idx. rewrite (proj2 (Z.leb_le 0 (Z.of_nat y))), (proj2 (Z.ltb_lt _ _) H1) by lia. cbn [andb]. rewrite H2. cbn [mbind outcome_bind].
        destruct x as [v|]; [|done]. rewrite (Hx v eq_refl y Hy). by rewrite Z.eqb_refl. }
      cbn [foldM]. rewrite E. cbn [mbind outcome_bind]. destruct (IH (Some (rs_of m y))) as (x' & -> & H3 & H4); [intros q Hq; apply Hl; by right|intros v [= <-] z Hz; by apply (sv_same _ Hs j)|].
      exists x'. split; [done|]. split; [|done]. intros ->. by destruct (H3 eq_refl). }
    destruct (Hfold (setZ_list (c_seq_id c)) None) as (x' & -> & H1 & H2); [intros q Hq; rewrite Ei; by apply elem_of_setZ_list|done|].
    eexists. split; [done|]. intros y Hy _. destruct x' as [v|]; [by apply H2|]. destruct (H1 eq_refl) as [H1' _]. rewrite Ei in Hy. apply elem_of_setZ_list in Hy. rewrite H1' in Hy. by apply not_elem_of_nil in Hy.
  - destruct (chosen_id j Hch) as (y & Hy & [? | ->]); [done|]. destruct (rs_lookup y j Hy E0) as (H1 & H2 & _). rewrite (proj2 (Z.leb_le 0 (Z.of_nat y))), (proj2 (Z.ltb_lt _ _) H1) by lia. cbn [andb].
    exists (rs_of m y). split; [done|]. intros z _ [?|E]; [lia|]. by apply Nat2Z.inj in E as ->.
Qed.

Lemma cell_row_ok j : chosen seq_id m j = true -> exists idx, (0 <= idx <= n_rs_seq m)%Z /\ cell_row seq_id m j = (idx * sizeZ m + Z.of_nat j)%Z /\ j < r_size m /\
  (forall c, r_cells m !! j = Some c -> rs_idx_of seq_id m c = Ok idx) /\
  forall y, Z.of_nat y ∈ ids (r_cells m) j -> (seq_id = -1 \/ seq_id = Z.of_nat y)%Z -> idx = rs_of m y.
Proof.
  intros Hch. destruct (chosen_id j Hch) as (y & Hy & Hq). pose proof (ids_lt _ _ _ Hy) as Hj. destruct (lookup_lt_is_Some_2 _ _ Hj) as [c Hc].
  destruct (rs_idx_of_ok j c Hc Hch) as (idx & E & H). exists idx. split; [rewrite (H y Hy Hq); by apply (rs_of_range y j)|]. unfold cell_row. rewrite Hc, E.
  split; [done|]. split; [done|]. split; [|done]. by intros c' [= <-].
Qed.

Lemma cell_row_range j : chosen seq_id m j = true -> (0 <= cell_row seq_id m j < (1 + n_rs_seq m) * sizeZ m)%Z.
Proof. intros H. destruct (cell_row_ok j H) as (idx & H1 & -> & H2 & _). unfold sizeZ in *. nia. Qed.

(** Ranges of rows, written out. *)
Definition row_range (r : Z * Z) : list Z := (fun i => (r.1 + Z.of_nat i)%Z) <$> seq 0 (Z.to_nat (r.2 - r.1)).
Definition rows_are (l : list (Z * Z)) (rows : list Z) : Prop :=
  concat (row_range <$> l) = rows /\ Forall (fun r => (0 <= r.1 < r.2 /\ r.2 <= UINT32_MAX)%Z) l.

Lemma row_range_snoc a b : (a <= b)%Z -> row_range (a, (b + 1)%Z) = row_range (a, b) ++ [b].
Proof.
  intros H. unfold row_range. simpl. replace (Z.to_nat (b + 1 - a)) with (Z.to_nat (b - a) + 1) by lia. rewrite seq_app, fmap_app. simpl. do 2 f_equal. lia.
Qed.

Lemma row_range_one a : row_range (a, (a + 1)%Z) = [a].
Proof. unfold row_range. simpl. replace (Z.to_nat (a + 1 - a)) with 1 by lia. simpl. f_equal. lia. Qed.

Lemma add_row_ok l rows c : rows_are l rows -> (0 <= c < UINT32_MAX)%Z -> rows_are (add_row l c) (rows ++ [c]).
Proof.
  intros [H1 H2] Hc. unfold add_row. assert (u32 (c + 1) = c + 1)%Z as Eu by (apply u32_id; lia).
  assert (rows_are (l ++ [(c, u32 (c + 1))]) (rows ++ [c])) as Hnew.
  { split; [rewrite fmap_app, concat_app, H1, Eu; cbn; by rewrite row_range_one|]. apply Forall_app. split; [done|]. constructor; [|constructor]. cbn. lia. }
  destruct (last l) as [[a b]|] eqn:El; [|apply last_None in El as ->; exact Hnew]. destruct (Z.eqb_spec b c) as [->|]; [|exact Hnew]. apply last_Some in El as [l' ->].
  apply Forall_app in H2 as [H2 H3]. apply Forall_cons in H3 as [H3 _]. cbn in H3. rewrite length_app. cbn [length]. replace (length l' + 1 - 1) with (length l' + 0) by lia.
  rewrite insert_app_r. cbn. split.
  - rewrite <- H1, !fmap_app, !concat_app. cbn. rewrite !app_nil_r, Eu, row_range_snoc by lia. by rewrite app_assoc.
  - apply Forall_app. split; [done|]. constructor; [|constructor]. cbn. lia.
Qed.

Definition chosen_upto (i : nat) : list nat := List.filter (chosen seq_id m) (seq 0 i).

Lemma chosen_upto_S i : chosen_upto (i + 1) = chosen_upto i ++ if chosen seq_id m i then [i] else [].
Proof. unfold chosen_upto. rewrite seq_app, List.filter_app. simpl. by destruct (chosen seq_id m i). Qed.

Definition open_range (i b : nat) : list nat := if b =? r_size m then [] else seq b (i - b).

Record scanned (i : nat) (x : cell_scan) : Prop := {
  sn_cells : concat ((fun r => seq r.1 (r.2 - r.1)) <$> sc_ranges x) ++ open_range i (sc_begin x) = chosen_upto i;
  sn_begin : sc_begin x <= r_size m /\ (sc_begin x <> r_size m -> sc_begin x <= i);
  sn_rows : rows_are (sc_data x) (cell_row seq_id m <$> chosen_upto i);
  sn_count : sc_count x = Z.of_nat (length (chosen_upto i))
}.

Lemma length_chosen_upto i : length (chosen_upto i) <= i.
Proof. unfold chosen_upto. rewrite <- (length_seq i 0) at 2. apply List.filter_length_le. Qed.

Lemma scan_cell_ok i x : i < r_size m -> scanned i x -> exists x', scan_cell seq_id m x i = Ok x' /\ scanned (i + 1) x'.
Proof.
  intros Hi [H1 H2 H3 H4]. unfold scan_cell. destruct (cell_at_lt m i Hi) as (c & Hc & ->). cbn [mbind outcome_bind].
  assert (((seq_id =? -1)%Z && negb (is_empty c)) || has_seq_id seq_id c = chosen seq_id m i) as ->.
  { unfold chosen, has_seq_id. rewrite (is_empty_fld _ _ _ Hc), (fld_Some c_seq_id ∅ _ _ _ Hc). done. }
  destruct (chosen seq_id m i) eqn:Ech.
  - destruct (cell_row_ok i Ech) as (idx & Hidx & Erow & _ & Eidx & _). rewrite (Eidx _ Hc). cbn [mbind outcome_bind].
    pose proof (sv_rows _ Hs) as Hb. assert ((if (0 <=? c_src c)%Z then c_src c else Z.of_nat i) = Z.of_nat i) as ->.
    { destruct (rw_cells _ Hm i) as (_ & _ & H). rewrite (fld_Some c_src (-1)%Z _ _ _ Hc) in H. destruct H as [->| ->]; [done|]. by destruct (0 <=? Z.of_nat i)%Z. }
    pose proof (cell_row_range i Ech) as Hr. assert (0 <= idx * sizeZ m)%Z by (unfold sizeZ; nia).
    rewrite (u32_id (idx * sizeZ m)) by (unfold UINT32_MAX in *; lia). rewrite <- Erow, u32_id by (unfold UINT32_MAX in *; lia).
    eexists. split; [done|]. split; cbn [sc_ranges sc_begin sc_data sc_count].
    + rewrite chosen_upto_S, Ech, <- H1. rewrite <- app_assoc. f_equal. unfold open_range. destruct (Nat.eqb_spec (sc_begin x) (r_size m)) as [E|E].
      * rewrite (proj2 (Nat.eqb_neq i (r_size m))) by lia. replace (i + 1 - i) with 1 by lia. done.
      * rewrite (proj2 (Nat.eqb_neq _ _)) by done. replace (i + 1 - sc_begin x) with ((i - sc_begin x) + 1) by lia. rewrite seq_app. simpl. do 2 f_equal. destruct H2. lia.
    + destruct (Nat.eqb_spec (sc_begin x) (r_size m)); lia.
    + rewrite chosen_upto_S, Ech, fmap_app. apply add_row_ok; [done|]. unfold UINT32_MAX in *. lia.
    + rewrite chosen_upto_S, Ech, length_app, H4. simpl. pose proof (length_chosen_upto i). pose proof (rw_size _ Hm). unfold sizeZ, INT32_MAX in *. rewrite u32_id by (unfold UINT32_MAX; lia). lia.
  - assert (chosen_upto (i + 1) = chosen_upto i) as E by (rewrite chosen_upto_S, Ech; apply app_nil_r).
    destruct (Nat.eqb_spec (sc_begin x) (r_size m)) as [Eb|Eb]; cbn [negb].
    + exists x. split; [done|]. split; rewrite ?E; try done; try lia. rewrite <- H1. unfold open_range. rewrite (proj2 (Nat.eqb_eq _ _) Eb). done.
    + eexists. split; [done|]. split; cbn [sc_ranges sc_begin sc_data sc_count]; rewrite ?E; try done; try lia.
      rewrite fmap_app, concat_app, <- H1. cbn. unfold open_range. rewrite Nat.eqb_refl, (proj2 (Nat.eqb_neq _ _) Eb). by rewrite !app_nil_r.
Qed.

Lemma scan_cells_ok : exists x, scan_cells seq_id m = Ok x /\
  concat ((fun r => seq r.1 (r.2 - r.1)) <$> sc_ranges x) = chosen_cells seq_id m /\
  rows_are (sc_data x) (cell_row seq_id m <$> chosen_cells seq_id m) /\ sc_count x = Z.of_nat (length (chosen_cells seq_id m)).
Proof.
  destruct (foldM_seq (scan_cell seq_id m) (fun i x => scanned i x) 0 (r_size m) (mk_scan [] [] 0 (r_size m))) as (x & E & [H1 H2 H3 H4]).
  - split; cbn [sc_ranges sc_begin sc_data sc_count]; [unfold open_range; by rewrite Nat.eqb_refl|lia|split; [done|constructor]|done].
  - intros i x Hi Hx. apply scan_cell_ok; [lia|done].
  - unfold scan_cells. rewrite E. cbn [mbind outcome_bind]. eexists. split; [done|]. rewrite Nat.add_0_l in *. unfold open_range in H1.
    destruct (Nat.eqb_spec (sc_begin x) (r_size m)) as [Eb|Eb]; cbn [negb sc_ranges sc_data sc_count].
    + rewrite app_nil_r in H1. done.
    + split; [|done]. rewrite fmap_app, concat_app. cbn. by rewrite app_nil_r.
Qed.
End scan.

(** ** What is written *)

Definition layer_tensors (ly : rs_layers) : list rs_tensor := omap id (l_r ly ++ l_s ly).

(** The layers of a model whose tensors have a row for every cell and snapshot. *)
Record layers_ok (ly : rs_layers) (m : llama_memory_recurrent) (T : list (list Z)) : Prop := {
  lo_len : length (l_r ly) = l_n_layer ly /\ length (l_s ly) = l_n_layer ly /\ (Z.of_nat (l_n_layer ly) <= UINT32_MAX)%Z;
  lo_tensor : forall t, t ∈ layer_tensors ly -> (INT32_MIN <= rt_type t <= INT32_MAX)%Z /\ (0 <= rt_row t)%Z /\
    ((1 + n_rs_seq m) * sizeZ m * rt_row t <= UINT64_MAX)%Z /\ (rt_row t <= UINT64_MAX)%Z /\
    exists data, T !! rt_id t = Some data /\ ((1 + n_rs_seq m) * sizeZ m * rt_row t <= Z.of_nat (length data))%Z;
  lo_ids : NoDup (rt_id <$> layer_tensors ly)
}.

Definition meta_ops (seq_id : Z) (m : llama_memory_recurrent) (j : nat) : list io_op :=
  let ids_of := if (seq_id =? -1)%Z then setZ_list (ids (r_cells m) j) else [] in
  WriteBytes (le_bytes 4 (ps (r_cells m) j)) :: WriteBytes (le_bytes 4 (Z.of_nat (length ids_of))) :: ((fun q => WriteBytes (le_bytes 4 q)) <$> ids_of).

Definition layer_ops (ranges : list (Z * Z)) (t : rs_tensor) : list io_op :=
  WriteBytes (le_bytes 4 (rt_type t)) :: WriteBytes (le_bytes 8 (rt_row t)) ::
  ((fun r => WriteTensor (rt_id t) (Z.to_nat (u64 (r.1 * rt_row t))) (Z.to_nat (u64 (u32 (r.2 - r.1) * rt_row t)))) <$> ranges).

Definition state_ops (ly : rs_layers) (seq_id : Z) (m : llama_memory_recurrent) (ranges : list (Z * Z)) : list io_op :=
  WriteBytes (le_bytes 4 (Z.of_nat (length (chosen_cells seq_id m)))) :: concat (meta_ops seq_id m <$> chosen_cells seq_id m) ++
  WriteBytes (le_bytes 4 0) :: WriteBytes (le_bytes 4 (Z.of_nat (l_n_layer ly))) :: concat (layer_ops ranges <$> layer_tensors ly).

Section emit.
Context {W : Type} `{IoWrite W}.
Implicit Types io : W.

Lemma setZ_list_size X : length (setZ_list X) = size X.
Proof. unfold size, set_size; simpl. apply Permutation_length, setZ_list_perm. Qed.

Lemma write_meta_cell_ok seq_id m j io : j < r_size m -> write_meta_cell seq_id m io j = foldM run_op (meta_ops seq_id m j) io.
Proof.
  intros Hj. destruct (cell_at_lt m j Hj) as (c & Hc & Ec). unfold write_meta_cell, meta_ops. rewrite Ec. cbn [mbind outcome_bind].
  rewrite (fld_Some c_pos (-1)%Z _ _ _ Hc), (fld_Some c_seq_id ∅ _ _ _ Hc). cbn [foldM run_op]. unfold write_u32. destruct (io_write _ io) as [io1|]; [|done]. cbn [mbind outcome_bind].
  destruct (Z.eqb_spec seq_id (-1)) as [->|].
  - rewrite setZ_list_size. destruct (io_write _ io1) as [io2|]; [|done]. cbn [mbind outcome_bind]. destruct (Nat.eqb_spec (size (c_seq_id c)) 0) as [E|_]; [|apply foldM_bytes].
    rewrite <- setZ_list_size in E. apply length_zero_iff_nil in E as ->. done.
  - cbn [length]. change (Z.of_nat 0) with 0%Z. destruct (io_write _ io1) as [io2|]; done.
Qed.

Lemma foldM_vec {A} (g : option A -> W -> outcome W) (l : list (option A)) io : (forall io, g None io = Ok io) ->
  foldM (fun io il => t ← vec_get l il; g t io) (seq 0 (length l)) io = foldM (fun io t => g (Some t) io) (omap id l) io.
Proof.
  intros Hg. assert (forall pre post io, l = pre ++ post -> foldM (fun io il => t ← vec_get l il; g t io) (seq (length pre) (length post)) io = foldM (fun io t => g (Some t) io) (omap id post) io) as Haux; [|by apply (Haux [] l)].
  intros pre post. revert pre. induction post as [|t post IH]; intros pre io' El; [done|]. cbn [length seq foldM].
  rewrite (vec_get_Some l (length pre) t) by (rewrite El; by apply list_lookup_middle). cbn [mbind outcome_bind].
  assert (forall io, foldM (fun io il => t ← vec_get l il; g t io) (seq (S (length pre)) (length post)) io = foldM (fun io t => g (Some t) io) (omap id post) io) as IH'.
  { intros io2. rewrite <- (IH (pre ++ [t])) by (rewrite <- app_assoc; done). rewrite length_app, Nat.add_1_r. done. }
  destruct t as [t|]; cbn.
  - destruct (g (Some t) io'); [apply IH'|done].
  - rewrite Hg. cbn. apply IH'.
Qed.

Lemma write_layers_ok l ranges io : foldM (write_layer l ranges) (seq 0 (length l)) io = foldM run_op (concat (layer_ops ranges <$> omap id l)) io.
Proof.
  set (g := fun (t : option rs_tensor) io => match t with
    | None => Ok io
    | Some t => foldM run_op (layer_ops ranges t) io end).
  rewrite <- (run_concat (fun io t => g (Some t) io) (layer_ops ranges)) by done. rewrite <- (foldM_vec g) by done. apply foldM_ext. intros il io' _. unfold write_layer.
  destruct (vec_get l il) as [[t|]|]; [|done..]. cbn [mbind outcome_bind g]. unfold layer_ops. cbn [foldM run_op]. unfold write_u32, write_u64. destruct (io_write _ io') as [io1|]; [|done]. cbn [mbind outcome_bind].
  destruct (io_write _ io1) as [io2|]; [|done]. cbn [mbind outcome_bind]. clear. revert io2. induction ranges as [|r ranges IH]; intros io2; [done|]. cbn [fmap list_fmap foldM run_op].
  destruct (io_write_tensor _ _ _ io2); [apply IH|done].
Qed.
End emit.

(** ** The whole of [state_write] *)

Lemma rows_sum l rows : rows_are l rows -> (Z.of_nat (length rows) <= UINT32_MAX)%Z ->
  foldl (fun n r => u32 (n + u32 (r.2 - r.1)))%Z 0%Z l = Z.of_nat (length rows).
Proof.
  intros [<- Hf]. assert (forall n, (0 <= n)%Z -> (n + Z.of_nat (length (concat (row_range <$> l))) <= UINT32_MAX)%Z ->
    foldl (fun n r => u32 (n + u32 (r.2 - r.1)))%Z n l = (n + Z.of_nat (length (concat (row_range <$> l))))%Z) as H; [|intros Hl; by apply (H 0%Z)].
  induction Hf as [|[a b] l [H1 H2] _ IH]; intros n Hn Hl.
  - simpl. lia.
  - cbn [fst snd fmap list_fmap concat foldl] in *. rewrite length_app in *. unfold row_range in Hl at 1. unfold row_range at 1. cbn [fst snd] in *. rewrite length_fmap, length_seq in *.
    rewrite (u32_id (b - a)) by lia. rewrite u32_id by lia. rewrite IH by lia. lia.
Qed.

Lemma chosen_lt seq_id m j : j ∈ chosen_cells seq_id m -> j < r_size m /\ chosen seq_id m j = true.
Proof. intros [H1 H2]%list_elem_of_In%filter_In. apply list_elem_of_In, elem_of_seq in H1. split; [lia|done]. Qed.

Lemma rec_state_write_ok ly seq_id flags m : rec_wf m -> saveable m -> length (l_r ly) = l_n_layer ly -> length (l_s ly) = l_n_layer ly -> on_device flags = false ->
  exists ranges, rows_are ranges (cell_row seq_id m <$> chosen_cells seq_id m) /\
    forall W (HW : IoWrite W) (io : W), rec_state_write ly seq_id flags m io = foldM run_op (state_ops ly seq_id m ranges) io.
Proof.
  intros Hm Hs Hr Hl Hd. destruct (scan_cells_ok m Hm Hs seq_id) as (x & Ex & H1 & H2 & H3). exists (sc_data x). split; [done|]. intros W HW io.
  assert (Z.of_nat (length (chosen_cells seq_id m)) <= UINT32_MAX)%Z as Hcount.
  { pose proof (length_chosen_upto m seq_id (r_size m)) as H. unfold chosen_upto in H. unfold chosen_cells. pose proof (rw_size _ Hm). unfold sizeZ, INT32_MAX, UINT32_MAX in *. lia. }
  unfold rec_state_write. rewrite Ex. cbn [mbind outcome_bind]. rewrite Hd. change (assert_ (negb (false && _))) with (Ok tt). cbn [mbind outcome_bind].
  rewrite (ranges_sum _ _ H1), H3, u32_id, Z.eqb_refl by lia. cbn [assert_ mbind outcome_bind].
  rewrite (rows_sum _ _ H2), length_fmap, Z.eqb_refl by (rewrite length_fmap; lia). cbn [assert_ mbind outcome_bind].
  unfold state_ops. cbn [foldM run_op]. unfold write_u32 at 1. destruct (io_write _ io) as [io1|]; [|done]. cbn [mbind outcome_bind].
  rewrite foldM_app. assert (state_write_meta (sc_ranges x) seq_id m io1 = foldM run_op (concat (meta_ops seq_id m <$> chosen_cells seq_id m)) io1) as ->.
  { rewrite <- (run_concat (write_meta_cell seq_id m)) by (intros j io' Hj; apply write_meta_cell_ok; by apply chosen_lt in Hj as [? _]).
    rewrite <- H1. unfold state_write_meta. clear. revert io1. induction (sc_ranges x) as [|r l IH]; intros io1; [done|]. cbn [fmap list_fmap concat foldM].
    rewrite foldM_app. destruct (foldM _ (seq _ _) io1); [apply IH|done]. }
  destruct (foldM run_op _ io1) as [io2|]; [|done]. cbn [mbind outcome_bind]. unfold state_write_data. cbn [foldM run_op]. unfold write_u32.
  destruct (io_write _ io2) as [io3|]; [|done]. cbn [mbind outcome_bind]. destruct (io_write _ io3) as [io4|]; [|done]. cbn [mbind outcome_bind].
  unfold layer_tensors. rewrite omap_app, fmap_app, concat_app, foldM_app. rewrite <- Hr at 1. rewrite write_layers_ok. destruct (foldM run_op _ io4); [|done]. cbn [mbind outcome_bind].
  rewrite <- Hl. apply write_layers_ok.
Qed.

(** The bytes of the state. *)
Definition meta_bytes (seq_id : Z) (m : llama_memory_recurrent) (j : nat) : list Z :=
  let ids_of := if (seq_id =? -1)%Z then setZ_list (ids (r_cells m) j) else [] in
  le_bytes 4 (ps (r_cells m) j) ++ le_bytes 4 (Z.of_nat (length ids_of)) ++ concat (le_bytes 4 <$> ids_of).

Definition tensor_row (T : list (list Z)) (t : rs_tensor) (r : Z) : list Z :=
  slice_bytes (default [] (T !! rt_id t)) (Z.to_nat (r * rt_row t)) (Z.to_nat (rt_row t)).

Definition layer_bytes (T : list (list Z)) (rows : list Z) (t : rs_tensor) : list Z :=
  le_bytes 4 (rt_type t) ++ le_bytes 8 (rt_row t) ++ concat (tensor_row T t <$> rows).

Definition state_bytes (ly : rs_layers) (seq_id : Z) (m : llama_memory_recurrent) (T : list (list Z)) : list Z :=
  le_bytes 4 (Z.of_nat (length (chosen_cells seq_id m))) ++ concat (meta_bytes seq_id m <$> chosen_cells seq_id m) ++
  le_bytes 4 0 ++ le_bytes 4 (Z.of_nat (l_n_layer ly)) ++ concat (layer_bytes T (cell_row seq_id m <$> chosen_cells seq_id m) <$> layer_tensors ly).

(** A range of rows is the rows one after the other. *)
Lemma slice_rows T t a n : (0 <= a)%Z -> (0 <= rt_row t)%Z ->
  slice_bytes (default [] (T !! rt_id t)) (Z.to_nat (a * rt_row t)) (Z.to_nat (Z.of_nat n * rt_row t)) = concat (tensor_row T t <$> ((fun i => (a + Z.of_nat i)%Z) <$> seq 0 n)).
Proof.
  intros Ha Hr. induction n as [|n IH]; [done|]. replace (Z.to_nat (Z.of_nat (S n) * rt_row t)) with (Z.to_nat (Z.of_nat n * rt_row t) + Z.to_nat (rt_row t)) by lia.
  rewrite slice_app, IH, seq_S, !fmap_app, concat_app. f_equal. cbn. rewrite app_nil_r. unfold tensor_row. f_equal. rewrite Z.mul_add_distr_r, Z2Nat.inj_add by nia. done.
Qed.

Section data.
Context (ly : rs_layers) (m : llama_memory_recurrent) (T : list (list Z)) (Hm : rec_wf m) (Hs : saveable m) (Hly : layers_ok ly m T) (seq_id : Z).
Context (ranges : list (Z * Z)) (Hrows : rows_are ranges (cell_row seq_id m <$> chosen_cells seq_id m)).

(** Every range lies in the rows of the memory. *)
Lemma range_bounds r : r ∈ ranges -> (0 <= r.1 < r.2)%Z /\ (r.2 <= (1 + n_rs_seq m) * sizeZ m)%Z.
Proof.
  intros Hr. destruct Hrows as [H1 H2]. rewrite Forall_forall in H2. destruct (H2 r Hr) as [H3 H4]. split; [done|].
  assert ((r.2 - 1)%Z ∈ cell_row seq_id m <$> chosen_cells seq_id m) as Hin.
  { rewrite <- H1. apply list_elem_of_In, in_concat. exists (row_range r). split; [by apply in_map, list_elem_of_In|]. apply list_elem_of_In. unfold row_range.
    apply list_elem_of_fmap. exists (Z.to_nat (r.2 - 1 - r.1)). split; [lia|]. apply elem_of_seq. lia. }
  apply list_elem_of_fmap in Hin as (j & Ej & Hj). apply chosen_lt in Hj as [_ Hch]. pose proof (cell_row_range m Hm Hs seq_id j Hch). lia.
Qed.

Lemma range_sizes t r : t ∈ layer_tensors ly -> r ∈ ranges ->
  u64 (r.1 * rt_row t) = (r.1 * rt_row t)%Z /\ u64 (u32 (r.2 - r.1) * rt_row t) = ((r.2 - r.1) * rt_row t)%Z.
Proof.
  intros Ht Hr. destruct (range_bounds r Hr) as [H1 H2]. destruct (lo_tensor _ _ _ Hly t Ht) as (_ & H3 & H4 & _). pose proof (sv_rows _ Hs).
  rewrite (u32_id (r.2 - r.1)) by (unfold UINT32_MAX in *; lia). split; apply u64_id; nia.
Qed.

Lemma layer_fits t : t ∈ layer_tensors ly -> Forall (op_fits T) (layer_ops ranges t).
Proof.
  intros Ht. unfold layer_ops. constructor; [done|]. constructor; [done|]. apply Forall_fmap, Forall_forall. intros r Hr. cbn.
  destruct (range_sizes t r Ht Hr) as [-> ->]. destruct (range_bounds r Hr) as [H1 H2]. destruct (lo_tensor _ _ _ Hly t Ht) as (_ & H3 & _ & _ & data & E & H4).
  exists data. split; [done|]. assert (r.2 * rt_row t <= Z.of_nat (length data))%Z by nia. nia.
Qed.

Lemma layer_data t : t ∈ layer_tensors ly -> ops_data T (layer_ops ranges t) = layer_bytes T (cell_row seq_id m <$> chosen_cells seq_id m) t.
Proof.
  intros Ht. destruct (lo_tensor _ _ _ Hly t Ht) as (_ & H3 & _). unfold layer_bytes, layer_ops. rewrite !ops_data_cons. cbn [op_data]. do 2 f_equal. destruct Hrows as [<- Hf]. unfold ops_data.
  assert (forall l, (forall r, r ∈ l -> r ∈ ranges) -> concat (op_data T <$> ((fun r => WriteTensor (rt_id t) (Z.to_nat (u64 (r.1 * rt_row t))) (Z.to_nat (u64 (u32 (r.2 - r.1) * rt_row t)))) <$> l)) =
    concat (tensor_row T t <$> concat (row_range <$> l))) as H; [|by apply H].
  induction l as [|r l IH]; intros Hl; [done|]. cbn [fmap list_fmap concat]. rewrite fmap_app, concat_app, IH by (intros; apply Hl; by right). f_equal. cbn [op_data].
  destruct (range_sizes t r Ht ltac:(apply Hl; by left)) as [-> ->]. destruct (range_bounds r ltac:(apply Hl; by left)) as [H1 _].
  replace ((r.2 - r.1) * rt_row t)%Z with (Z.of_nat (Z.to_nat (r.2 - r.1)) * rt_row t)%Z by (f_equal; lia). by apply slice_rows; lia.
Qed.

Lemma concat_data {A} (f : A -> list io_op) (g : A -> list Z) l : (forall a, a ∈ l -> ops_data T (f a) = g a) -> ops_data T (concat (f <$> l)) = concat (g <$> l).
Proof. induction l as [|a l IH]; intros H; [done|]. cbn [fmap list_fmap concat]. rewrite ops_data_app, H by (by left). f_equal. apply IH. intros; apply H. by right. Qed.

Lemma meta_data j : ops_data T (meta_ops seq_id m j) = meta_bytes seq_id m j.
Proof.
  unfold meta_ops, meta_bytes. rewrite !ops_data_cons. cbn [op_data]. do 2 f_equal. generalize (if (seq_id =? -1)%Z then setZ_list (ids (r_cells m) j) else []). intros l.
  induction l as [|q l IH]; [done|]. cbn [fmap list_fmap concat]. rewrite ops_data_cons. by rewrite IH.
Qed.

Lemma state_data : ops_data T (state_ops ly seq_id m ranges) = state_bytes ly seq_id m T.
Proof.
  unfold state_ops, state_bytes. rewrite ops_data_cons, ops_data_app, !ops_data_cons. cbn [op_data].
  rewrite (concat_data _ (meta_bytes seq_id m)) by (intros; apply meta_data).
  by rewrite (concat_data _ (layer_bytes T (cell_row seq_id m <$> chosen_cells seq_id m))) by (intros; by apply layer_data).
Qed.

Lemma state_fits : Forall (op_fits T) (state_ops ly seq_id m ranges).
Proof.
  unfold state_ops. constructor; [done|]. apply Forall_app. split; [|constructor; [done|constructor; [done|]]].
  - apply Forall_concat, Forall_fmap, Forall_forall. intros j _. unfold meta_ops. cbn. constructor; [done|]. constructor; [done|]. by apply Forall_fmap, Forall_true.
  - apply Forall_concat, Forall_fmap, Forall_forall. intros t Ht. by apply layer_fits.
Qed.
End data.
