(* ===== verification/RecurrentLoad.v ===== *)
(** * State files of the recurrent memory: reading all cells

    Reading back a list of cells with disjoint sets of sequences gives a well-formed memory
    with these cells at its beginning, and the rows of each layer staged for them. *)

From S2P Require Import KvCells BatchInit.
From S2P Require Export RecurrentSave RecurrentOps.
Open Scope nat_scope.

Notation reader_at r := (@reader_is llama_memory_recurrent r).

Lemma on_mem_ok {A} (f : llama_memory_recurrent -> outcome (A * llama_memory_recurrent)) r m a m' : f m = Ok (a, m') -> on_mem f (r, m) = (Ok a, (r, m')).
Proof. unfold on_mem. cbn [fst snd]. by intros ->. Qed.

(** ** Cells to restore *)

(** Position and sequences of each. *)
Notation saved_cells := (list (Z * gset Z)).

Definition cell_bytes (c : Z * gset Z) : list Z :=
  le_bytes 4 c.1 ++ le_bytes 4 (Z.of_nat (length (setZ_list c.2))) ++ concat (le_bytes 4 <$> setZ_list c.2).

Definition sets_at (cs : saved_cells) (j : nat) : gset Z := default ∅ (snd <$> cs !! j).
Definition pos_at (cs : saved_cells) (j : nat) : Z := default (-1)%Z (fst <$> cs !! j).

Record savable_cells (cs : saved_cells) (n_seq : nat) : Prop := {
  sc_pos : forall c, c ∈ cs -> (0 <= c.1 <= INT32_MAX)%Z /\ c.2 <> ∅;
  sc_ids : forall c q, c ∈ cs -> q ∈ c.2 -> (0 <= q < Z.of_nat n_seq)%Z;
  sc_apart : forall i j q, q ∈ sets_at cs i -> q ∈ sets_at cs j -> i = j
}.

Section load.
Context (cs : saved_cells) (m0 : llama_memory_recurrent).
Let sz := r_size m0.
Context (Hcs : savable_cells cs sz) (Hlen : length cs <= sz) (Hrs : sz <= length (rs_idx m0)) (Hsz : (sizeZ m0 <= INT32_MAX)%Z).

(** The memory when [k] cells have been read, and the sequences [done] of the next one. *)
Record loaded (k : nat) (started : bool) (X : gset Z) (m : llama_memory_recurrent) : Prop := {
  ld_len : r_size m = sz;
  ld_rest : rs_idx m = (fun _ => 0%Z) <$> rs_idx m0 /\ n_rs_seq m = n_rs_seq m0 /\ r_n m = r_n m0 /\ rs_z m = rs_z m0;
  ld_linked : linked (r_cells m);
  ld_ids : forall j, ids (r_cells m) j = if decide (j < k) then sets_at cs j else if decide (j = k) then X else ∅;
  ld_ps : forall j, ps (r_cells m) j = if decide (j < k \/ started = true /\ j = k) then pos_at cs j else (-1)%Z;
  ld_sr : forall j, sr (r_cells m) j = (-1)%Z
}.

Lemma loaded_clear : loaded 0 false ∅ (clear m0).
Proof.
  set (l := (fun c => cell_tail (-1) (cell_src (-1) (cell_seqs ∅ (cell_pos (-1) c)))) <$> r_cells m0).
  assert (forall A (p : mem_cell -> A) d j, (forall c, p (cell_tail (-1) (cell_src (-1) (cell_seqs ∅ (cell_pos (-1) c)))) = d) -> fld p d l j = d) as Hf.
  { intros A p d j Hp. unfold fld, l. rewrite list_lookup_fmap. destruct (r_cells m0 !! j); simpl; [apply Hp|done]. }
  assert (forall j, ids l j = ∅ /\ tl l j = (-1)%Z /\ ps l j = (-1)%Z /\ sr l j = (-1)%Z) as H by (intros j; split; [|split; [|split]]; by apply Hf).
  split; [unfold r_size; simpl; by rewrite length_fmap|done| | | |]; cbn [clear r_cells set_rs set_used set_head set_cells]; fold l.
  - split.
    + intros s j. destruct (H s) as (_ & -> & _). destruct (H j) as (-> & _). split; [lia|set_solver].
    + intros s. destruct (H s) as (_ & -> & _). lia.
    + intros j q. destruct (H j) as (-> & _). set_solver.
  - intros j. destruct (H j) as (-> & _). repeat case_decide; first [done|lia].
  - intros j. destruct (H j) as (_ & _ & -> & _). rewrite decide_False; [done|]. intros [?|[? _]]; [lia|done].
  - intros j. apply H.
Qed.

Lemma sets_at_Some k c : cs !! k = Some c -> sets_at cs k = c.2 /\ pos_at cs k = c.1.
Proof. unfold sets_at, pos_at. by intros ->. Qed.

(** One more sequence joins cell [k]. *)
Lemma read_id_ok k X q r m rest sets calls (i : nat) : k < length cs -> loaded k true X m -> q ∈ sets_at cs k -> q ∉ X -> X ⊆ sets_at cs k ->
  reader_at r (le_bytes 4 q ++ rest) sets calls ->
  exists r' m', read_id k i (r, m) = (Ok true, (r', m')) /\ loaded k true ({[q]} ∪ X) m' /\ reader_at r' rest sets calls.
Proof.
  intros Hk [L1 L2 L3 L4 L5 L6] Hq HX Hsub Hr. destruct (lookup_lt_is_Some_2 cs k Hk) as [c Hc]. pose proof (sets_at_Some _ _ Hc) as [Ec _].
  pose proof (sc_ids _ _ Hcs c q ltac:(by eapply list_elem_of_lookup_2) ltac:(by rewrite <- Ec)) as Hqr. assert (exists y, q = Z.of_nat y) as [y Eq] by (exists (Z.to_nat q); lia).
  destruct (io_read_i32 r m q rest sets calls Hr) as (r' & E & Hr'); [unfold INT32_MIN, INT32_MAX in *; unfold sizeZ in Hsz; fold sz in Hsz; lia|].
  assert (y < sz) as Hy by lia. assert (k < sz) as Hks by lia.
  assert (tl (r_cells m) y = (-1)%Z) as Ht.
  { destruct (linked_cases _ y L3) as [|(j & _ & Hin & _)]; [done|]. exfalso. rewrite <- Eq in Hin. rewrite L4 in Hin. destruct (decide (j < k)); [assert (j = k) by (by eapply (sc_apart _ _ Hcs)); lia|].
    destruct (decide (j = k)); [done|set_solver]. }
  exists r', (set_cells (alter (cell_tail (Z.of_nat k)) y (alter (fun c => cell_seqs ({[q]} ∪ c_seq_id c) c) k (r_cells m))) m).
  split; [|split; [|done]].
  - unfold read_id. rewrite (stx_bind_Ok _ _ _ _ _ E). rewrite (stx_bind_Ok get_mem _ _ m (r', m)) by done.
    destruct L2 as (-> & _). rewrite length_fmap. rewrite (proj2 (Z.ltb_ge q 0)), (proj2 (Z.leb_gt _ _)) by lia. cbn [orb].
    set (m1 := set_cells (alter (fun c => cell_seqs ({[q]} ∪ c_seq_id c) c) k (r_cells m)) m).
    assert (r_size m1 = sz) as Hs1 by (unfold m1; rewrite r_size_set, length_alter; done).
    rewrite (stx_bind_Ok _ _ _ (-1)%Z (r', m1)).
    + cbn [negb Z.eqb Pos.eqb]. apply on_mem_ok. rewrite Eq at 1. rewrite on_cell_ok by (by rewrite Hs1). done.
    + apply on_mem_ok. rewrite on_cell_ok by (by rewrite L1). fold m1. cbn [mbind outcome_bind]. rewrite Eq.
      destruct (cell_at_lt m1 y) as (d & Hd & ->); [by rewrite Hs1|]. cbn [mbind outcome_bind]. rewrite <- (fld_Some c_tail (-1)%Z _ _ _ Hd). unfold m1. cbn [r_cells set_cells].
      rewrite fld_same by (by intros []). by rewrite Ht.
  - split; cbn [r_cells set_cells rs_idx n_rs_seq r_n rs_z]; [unfold r_size in *; cbn; by rewrite !length_alter|done| | | |].
    + assert (length (r_cells m) = sz) as Hl by done. split.
      * intros s j. fields. destruct (decide (s = y)) as [->|Hs], (decide (j = k)) as [->|Hj].
        -- split; [|done]. intros _. set_solver.
        -- split; [lia|]. intros Hin. rewrite <- Eq in Hin. assert (Z.of_nat j = tl (r_cells m) y) by (symmetry; apply (lk_iff _ L3); by rewrite <- Eq). lia.
        -- rewrite (lk_iff _ L3). rewrite elem_of_union, elem_of_singleton. split; [by right|]. intros [?|?]; [lia|done].
        -- apply (lk_iff _ L3).
      * intros s. fields. destruct (decide _); [lia|apply (lk_tl _ L3)].
      * intros j z. fields. destruct (decide _); [|apply (lk_id _ L3)]. intros [->%elem_of_singleton|H]%elem_of_union; [lia|by apply (lk_id _ L3 j)].
    + assert (length (r_cells m) = sz) as Hl by done. intros j. fields. rewrite L4. repeat case_decide; subst; try done; lia.
    + intros j. fields. apply L5.
    + intros j. fields. apply L6.
Qed.

(** All sequences of a cell. *)
Lemma read_ids_ok k r m rest sets calls : k < length cs -> loaded k true ∅ m -> reader_at r (concat (le_bytes 4 <$> setZ_list (sets_at cs k)) ++ rest) sets calls ->
  exists r' m', forM_ (read_id k) (seq 0 (length (setZ_list (sets_at cs k)))) (r, m) = (Ok true, (r', m')) /\ loaded k true (sets_at cs k) m' /\ reader_at r' rest sets calls.
Proof.
  intros Hk Hm Hr. set (l := setZ_list (sets_at cs k)) in *. pose proof (setZ_list_strict (sets_at cs k)) as Hsorted. fold l in Hsorted.
  assert (forall q, q ∈ l <-> q ∈ sets_at cs k) as Hl by (intros q; apply elem_of_setZ_list).
  destruct (forM_seq (read_id k) (fun i s => loaded k true (list_to_set (take i l)) s.2 /\ reader_at s.1 (concat (le_bytes 4 <$> drop i l) ++ rest) sets calls) 0 (length l) (r, m)) as ([r' m'] & E & [H1 H2]).
  - split; [done|]. by rewrite drop_0.
  - intros i [r1 m1] Hi [H1 H2]. cbn [fst snd] in *. destruct (lookup_lt_is_Some_2 l i ltac:(lia)) as [q Hq]. rewrite (drop_S _ _ _ Hq) in H2. cbn [fmap list_fmap concat] in H2. rewrite <- app_assoc in H2.
    assert (q ∈ sets_at cs k) as Hin by (apply Hl; by eapply list_elem_of_lookup_2).
    destruct (read_id_ok k (list_to_set (take i l)) q r1 m1 (concat (le_bytes 4 <$> drop (S i) l) ++ rest) sets calls i Hk H1 Hin) as (r2 & m2 & -> & H3 & H4); [| |exact H2|].
    + rewrite elem_of_list_to_set. intros (j & Hj & Hlt)%elem_of_take. assert (NoDup l) as Hn by (unfold l; rewrite setZ_list_perm; apply NoDup_elements).
      pose proof (NoDup_lookup _ _ _ _ Hn Hj Hq). lia.
    + intros z (j & Hj & _)%elem_of_list_to_set%elem_of_take. apply Hl. by eapply list_elem_of_lookup_2.
    + eexists. split; [done|]. cbn [fst snd]. rewrite Nat.add_1_r. split; [|done]. assert (list_to_set (take (Datatypes.S i) l) = {[q]} ∪ list_to_set (take i l) :> gset Z) as ->; [|done].
      rewrite (take_S_r _ _ _ Hq), list_to_set_app_L. cbn. set_solver.
  - exists r', m'. cbn [fst snd] in *. rewrite Nat.add_0_l in *. rewrite take_ge in H1 by lia. rewrite drop_ge in H2 by lia. split; [done|]. split; [|done].
    assert (list_to_set l = sets_at cs k) as <-; [|done]. apply set_eq. intros z. by rewrite elem_of_list_to_set.
Qed.

Lemma loaded_next k m : loaded k true (sets_at cs k) m -> loaded (k + 1) false ∅ m.
Proof.
  intros [L1 L2 L3 L4 L5 L6]. split; try done.
  - intros j. rewrite L4. destruct (decide (j < k)), (decide (j = k)), (decide (j < k + 1)), (decide (j = k + 1)); subst; try done; lia.
  - intros j. rewrite L5. assert (j < k \/ true = true /\ j = k <-> j < k + 1 \/ false = true /\ j = k + 1) as H; [|by rewrite (decide_ext _ _ _ _ H)].
    split; [intros [?|[_ ->]]; left; lia|]. intros [?|[? _]]; [|done]. destruct (decide (j < k)); [by left|right; split; [done|lia]].
Qed.

Lemma loaded_pos k m : k < length cs -> loaded k false ∅ m -> loaded k true ∅ (set_cells (alter (cell_pos (pos_at cs k)) k (r_cells m)) m).
Proof.
  intros Hk [L1 L2 L3 L4 L5 L6]. assert (k < length (r_cells m)) as Hkm by (unfold r_size in L1; rewrite L1; lia).
  split; cbn [r_cells set_cells rs_idx n_rs_seq r_n rs_z]; [rewrite r_size_set, length_alter; done|done| | | |].
  - destruct L3 as [H1 H2 H3]. split; intros; rewrite ?fld_same in * by (by intros []); eauto.
  - intros j. rewrite fld_same by (by intros []). apply L4.
  - intros j. rewrite (fld_const c_pos (-1)%Z _ _ _ _ (pos_at cs k)) by (done || len). rewrite L5. destruct (decide (j = k)) as [->|]; [by rewrite decide_True by tauto|].
    destruct (decide (j < k \/ false = true /\ j = k)) as [[?|[? _]]|?]; [by rewrite decide_True by tauto|done|rewrite decide_False by tauto; done].
  - intros j. rewrite fld_same by (by intros []). apply L6.
Qed.

Lemma load_cell_ok k c r m rest sets calls : cs !! k = Some c -> loaded k false ∅ m -> reader_at r (cell_bytes c ++ rest) sets calls ->
  exists r' m', read_cell k (r, m) = (Ok true, (r', m')) /\ loaded (k + 1) false ∅ m' /\ reader_at r' rest sets calls.
Proof.
  intros Hc Hm Hr. pose proof (lookup_lt_Some _ _ _ Hc) as Hk. destruct (sets_at_Some k c Hc) as [E1 E2]. destruct (sc_pos _ _ Hcs c ltac:(by eapply list_elem_of_lookup_2)) as [Hp _].
  unfold cell_bytes in Hr. rewrite <- !app_assoc in Hr. destruct (io_read_i32 r m _ _ _ _ Hr) as (r1 & Er1 & Hr1); [unfold INT32_MIN; lia|].
  destruct (io_read_u32 r1 m _ _ _ _ Hr1) as (r2 & Er2 & Hr2).
  { split; [lia|]. assert (length (setZ_list c.2) <= sz) as Hle; [|unfold sizeZ, UINT32_MAX, INT32_MAX in *; fold sz in Hsz; lia].
    transitivity (length (Z.of_nat <$> seq 0 sz)); [|by rewrite length_fmap, length_seq]. apply submseteq_length, NoDup_submseteq; [rewrite setZ_list_perm; apply NoDup_elements|].
    intros q Hq%elem_of_setZ_list. pose proof (sc_ids _ _ Hcs c q ltac:(by eapply list_elem_of_lookup_2) Hq). apply list_elem_of_fmap. exists (Z.to_nat q). split; [lia|]. apply elem_of_seq. lia. }
  unfold read_cell. rewrite (stx_bind_Ok _ _ _ _ _ Er1), (stx_bind_Ok _ _ _ _ _ Er2).
  rewrite (stx_bind_Ok _ _ _ tt (r2, set_cells (alter (cell_pos (pos_at cs k)) k (r_cells m)) m)); [|apply on_mem_ok; rewrite <- E2, on_cell_ok by (rewrite (ld_len _ _ _ _ Hm); lia); done].
  rewrite Nat2Z.id, <- E1. destruct (read_ids_ok k r2 (set_cells (alter (cell_pos (pos_at cs k)) k (r_cells m)) m) rest sets calls Hk) as (r3 & m3 & E & H1 & H2);
    [by apply loaded_pos|by rewrite E1|]. exists r3, m3. split; [exact E|]. split; [by apply loaded_next|done].
Qed.

Lemma read_cells_ok r rest sets calls : reader_at r (concat (cell_bytes <$> cs) ++ rest) sets calls ->
  exists r' m', forM_ read_cell (seq 0 (length cs)) (r, clear m0) = (Ok true, (r', m')) /\ loaded (length cs) false ∅ m' /\ reader_at r' rest sets calls.
Proof.
  intros Hr. destruct (forM_seq read_cell (fun i s => loaded i false ∅ s.2 /\ reader_at s.1 (concat (cell_bytes <$> drop i cs) ++ rest) sets calls) 0 (length cs) (r, clear m0)) as ([r' m'] & E & [H1 H2]).
  - split; [apply loaded_clear|done].
  - intros i [r1 m1] Hi [H1 H2]. cbn [fst snd] in *. destruct (lookup_lt_is_Some_2 cs i ltac:(lia)) as [c Hc]. rewrite (drop_S _ _ _ Hc) in H2. cbn [fmap list_fmap concat] in H2. rewrite <- app_assoc in H2.
    destruct (load_cell_ok i c r1 m1 (concat (cell_bytes <$> drop (S i) cs) ++ rest) sets calls Hc H1 H2) as (r2 & m2 & -> & H3 & H4). eexists. split; [done|]. cbn [fst snd]. split; [done|]. by rewrite Nat.add_1_r.
  - exists r', m'. cbn [fst snd] in *. rewrite Nat.add_0_l in *. rewrite drop_ge in H2 by lia. done.
Qed.
End load.

(** ** The cells get their own rows *)

Record same_but_src (m m' : llama_memory_recurrent) : Prop := {
  ss_meta : same_meta m m' /\ r_used m' = r_used m /\ r_n m' = r_n m /\ rs_z m' = rs_z m;
  ss_fld : forall {A} (p : mem_cell -> A) d j, (forall v c, p (cell_src v c) = p c) -> fld p d (r_cells m') j = fld p d (r_cells m) j
}.

Lemma linked_same m m' : same_but_src m m' -> linked (r_cells m) -> linked (r_cells m').
Proof. intros [_ H] [H1 H2 H3]. split; intros; rewrite ?H in * by done; eauto. Qed.

Lemma own_sources_ok m h n : r_head m = Z.of_nat h -> h + n <= r_size m -> (sizeZ m <= INT32_MAX)%Z ->
  exists m', own_sources (Z.of_nat n) m = Ok m' /\ same_but_src m m' /\
    forall j, sr (r_cells m') j = if decide (h <= j < h + n) then Z.of_nat j else sr (r_cells m) j.
Proof.
  intros Hh Hn Hsz. unfold own_sources. rewrite Nat2Z.id.
  match goal with |- context [foldM ?f (seq 0 n) m] => destruct (foldM_seq f
    (fun k m1 => same_but_src m m1 /\ forall j, sr (r_cells m1) j = if decide (h <= j < h + k) then Z.of_nat j else sr (r_cells m) j) 0 n m) as (m' & -> & H) end.
  - split; [split; done|]. intros j. by rewrite decide_False by lia.
  - intros k m1 Hk [[(E1 & E2 & E3 & E4) Hf] Hsr]. cbv zeta. rewrite (sm_head _ _ E1), Hh. unfold sizeZ in Hsz. rewrite <- Nat2Z.inj_add, u32_id by (unfold UINT32_MAX, INT32_MAX in *; lia).
    assert (h + k < r_size m1) as Hlt by (rewrite (sm_size _ _ E1); lia). rewrite on_cell_ok by done. unfold to_i32. rewrite (proj2 (Z.leb_le _ INT32_MAX)) by (unfold INT32_MAX in *; lia).
    eexists. split; [done|]. split.
    + split; [split; [|done]; destruct E1; split; try done; rewrite r_size_set, length_alter; done|]. intros A p d j Hp. cbn [r_cells set_cells]. rewrite fld_same by (intros c; apply Hp). by apply Hf.
    + intros j. cbn [r_cells set_cells]. rewrite (fld_const c_src (-1)%Z _ _ _ _ (Z.of_nat (h + k))) by (done || len). rewrite Hsr.
      destruct (decide (j = h + k)) as [->|]; [by rewrite decide_True by lia|]. repeat case_decide; try done; lia.
  - exists m'. by rewrite Nat.add_0_l in H.
Qed.

(** ** The whole memory *)

Record restored (cs : saved_cells) (m0 m : llama_memory_recurrent) : Prop := {
  rt_len : r_size m = r_size m0;
  rt_rest : rs_idx m = (fun _ => 0%Z) <$> rs_idx m0 /\ n_rs_seq m = n_rs_seq m0 /\ r_n m = r_n m0;
  rt_head : r_head m = 0%Z /\ r_used m = Z.of_nat (length cs);
  rt_linked : linked (r_cells m);
  rt_ids : forall j, ids (r_cells m) j = sets_at cs j;
  rt_ps : forall j, ps (r_cells m) j = pos_at cs j;
  rt_sr : forall j, sr (r_cells m) j = if decide (j < length cs) then Z.of_nat j else (-1)%Z
}.

Lemma sets_at_ge cs j : length cs <= j -> sets_at cs j = ∅ /\ pos_at cs j = (-1)%Z.
Proof. intros H. unfold sets_at, pos_at. rewrite lookup_ge_None_2 by done. done. Qed.

Lemma read_all_ok cs m0 r rest sets calls : rec_wf m0 -> savable_cells cs (r_size m0) -> length cs <= r_size m0 -> r_size m0 <= length (rs_idx m0) ->
  reader_at r (concat (cell_bytes <$> cs) ++ rest) sets calls ->
  exists r' m', read_all_meta (Z.of_nat (length cs)) (r, m0) = (Ok true, (r', m')) /\ restored cs m0 m' /\ reader_at r' rest sets calls.
Proof.
  intros Hm Hcs Hlen Hrs Hr. pose proof (rw_size _ Hm) as Hsz. destruct (read_cells_ok cs m0 Hcs Hlen Hrs Hsz r rest sets calls Hr) as (r1 & m1 & E & [L1 L2 L3 L4 L5 L6] & Hr1).
  unfold read_all_meta. rewrite (stx_bind_Ok get_mem _ _ m0 (r, m0)) by done. rewrite (proj2 (Z.ltb_ge (sizeZ m0) _)) by (unfold sizeZ; lia).
  rewrite (stx_bind_Ok _ _ _ tt (r, clear m0)) by (by apply on_mem_ok). rewrite Nat2Z.id, (stx_bind_Ok _ _ _ _ _ E). cbn [negb].
  destruct (own_sources_ok (set_used (Z.of_nat (length cs)) (set_head 0 m1)) 0 (length cs)) as (m2 & E2 & Hs & Hsr); [done|change (length cs <= r_size m1); lia|change (Z.of_nat (r_size m1) <= INT32_MAX)%Z; by rewrite L1|].
  exists r1, m2. split; [|split; [|done]].
  - apply on_mem_ok. rewrite E2. done.
  - pose proof (linked_same _ _ Hs L3) as Hl. destruct Hs as [([S1 S2 S3 S4] & E3 & E4 & _) Hf]. destruct L2 as (L2 & L2' & L2n & _). split.
    + rewrite S4. done.
    + rewrite S3, S2, E4. done.
    + rewrite S1, E3. done.
    + done.
    + intros j. rewrite Hf by done. cbn [r_cells set_used set_head]. rewrite L4. destruct (decide (j < length cs)); [done|]. rewrite (proj1 (sets_at_ge cs j ltac:(lia))). by destruct (decide (j = length cs)).
    + intros j. rewrite Hf by done. cbn [r_cells set_used set_head]. rewrite L5. destruct (decide (j < length cs)) as [Hj|Hj].
      * by rewrite decide_True by (by left).
      * rewrite decide_False by (intros [?|[? _]]; done). symmetry. apply sets_at_ge. lia.
    + intros j. rewrite Hsr. cbn [r_cells set_used set_head]. rewrite L6. repeat case_decide; try done; lia.
Qed.

Lemma restored_wf cs m0 m : rec_wf m0 -> savable_cells cs (r_size m0) -> length cs <= r_size m0 -> restored cs m0 m -> rec_wf m.
Proof.
  intros Hm Hcs Hlen [H1 (H2 & H2' & _) [H3 H3'] H4 H5 H6 H7]. split; unfold sizeZ; rewrite ?H1; try apply Hm; try done.
  - intros j. unfold cell_ok. rewrite H5, H6, H7. destruct (decide (j < length cs)) as [Hj|Hj].
    + destruct (lookup_lt_is_Some_2 cs j Hj) as [c Hc]. destruct (sets_at_Some cs j c Hc) as [-> ->]. destruct (sc_pos _ _ Hcs c) as [? ?]; [by eapply list_elem_of_lookup_2|]. split; [done|]. split; [done|by right].
    + destruct (sets_at_ge cs j) as [-> ->]; [lia|]. split; [done|]. split; [done|by left].
  - rewrite H3', used_cells_fld. f_equal. change (length (r_cells m)) with (r_size m). rewrite H1. replace (r_size m0) with (length cs + (r_size m0 - length cs)) by lia. rewrite seq_app, cnt_app.
    rewrite (cnt_zero (in_use (r_cells m)) (seq (0 + length cs) (r_size m0 - length cs))); [|intros j Hj%elem_of_seq; unfold in_use; rewrite H5, (proj1 (sets_at_ge cs j ltac:(lia))); done].
    rewrite Nat.add_0_r. unfold cnt. rewrite (List.forallb_filter_id (in_use (r_cells m))); [by rewrite length_seq|]. apply List.forallb_forall. intros j Hj%list_elem_of_In%elem_of_seq.
    unfold in_use. rewrite H5. destruct (lookup_lt_is_Some_2 cs j ltac:(lia)) as [c Hc]. rewrite (proj1 (sets_at_Some cs j c Hc)). apply negb_true_iff, bool_decide_eq_false_2. by apply (sc_pos _ _ Hcs c), (list_elem_of_lookup_2 _ j).
  - rewrite H3. pose proof (rw_head _ Hm). unfold sizeZ in *. lia.
  - rewrite H2, H2'. split; [apply Hm|]. apply Forall_fmap, Forall_true. intros x. simpl. pose proof (rw_rs _ Hm). lia.
Qed.

(** What the sequences hold. *)
Lemma restored_view cs m0 m y j : restored cs m0 m -> Z.of_nat y ∈ sets_at cs j -> view m y = Some (j, pos_at cs j, Z.of_nat j).
Proof.
  intros [H1 H2 H3 H4 H5 H6 H7] Hy. apply view_Some. rewrite H6, H7. split; [apply (lk_iff _ H4); by rewrite H5|]. split; [done|]. rewrite decide_True; [done|].
  destruct (decide (j < length cs)); [done|]. rewrite (proj1 (sets_at_ge cs j ltac:(lia))) in Hy. set_solver.
Qed.

Lemma restored_none cs m0 m y : restored cs m0 m -> (forall j, Z.of_nat y ∉ sets_at cs j) -> view m y = None.
Proof.
  intros [H1 H2 H3 H4 H5 H6 H7] Hy. apply view_None; [done|]. destruct (linked_cases _ y H4) as [|(j & _ & Hin & _)]; [done|]. rewrite H5 in Hin. by apply Hy in Hin.
Qed.

(** ** The rows *)

Definition staged_rows (count head : Z) (data : rs_tensor -> list Z) (l : list rs_tensor) : list staged_set :=
  if (count =? 0)%Z then [] else (fun t => (rt_id t, Z.to_nat (head * rt_row t), data t)) <$> l.

Lemma staged_rows_app count head data l1 l2 : staged_rows count head data (l1 ++ l2) = staged_rows count head data l1 ++ staged_rows count head data l2.
Proof. unfold staged_rows. destruct (count =? 0)%Z; [done|]. apply fmap_app. Qed.

(** A tensor as a state says it is. *)
Definition saved_layer (data : rs_tensor -> list Z) (t : rs_tensor) : list Z := le_bytes 4 (rt_type t) ++ le_bytes 8 (rt_row t) ++ data t.

Definition layer_readable (count head : Z) (data : rs_tensor -> list Z) (t : rs_tensor) : Prop :=
  (INT32_MIN <= rt_type t <= INT32_MAX)%Z /\ (0 <= rt_row t <= UINT64_MAX)%Z /\ (0 <= head * rt_row t <= UINT64_MAX)%Z /\
  (0 <= count * rt_row t <= UINT64_MAX)%Z /\ length (data t) = Z.to_nat (count * rt_row t).

Lemma read_layer_ok l il t count head data r m rest sets calls : l !! il = Some (Some t) -> layer_readable count head data t ->
  reader_at r (saved_layer data t ++ rest) sets calls ->
  exists r', read_layer l count head il (r, m) = (Ok true, (r', m)) /\ reader_at r' rest (sets ++ staged_rows count head data [t]) calls.
Proof.
  intros Hl (H1 & H2 & H3 & H4 & H5) Hr. unfold saved_layer in Hr. rewrite <- !app_assoc in Hr.
  destruct (io_read_i32 r m _ _ _ _ Hr H1) as (r1 & E1 & Hr1). destruct (io_read_u64 r1 m _ _ _ _ Hr1 H2) as (r2 & E2 & Hr2).
  unfold read_layer. rewrite (stx_bind_Ok _ _ _ (Some t) (r, m)) by (unfold stx_lift; by rewrite (vec_get_Some _ _ _ Hl)).
  rewrite (stx_bind_Ok _ _ _ _ _ E1), Z.eqb_refl. cbn [negb]. rewrite (stx_bind_Ok _ _ _ _ _ E2), Z.eqb_refl. cbn [negb]. unfold staged_rows.
  destruct (Z.eqb_spec count 0) as [E|E].
  - exists r2. split; [done|]. rewrite app_nil_r. rewrite E, Z.mul_0_l in H5. apply length_zero_iff_nil in H5. by rewrite H5 in Hr2.
  - destruct (reader_read_tensor r2 (rt_id t) (Z.to_nat (head * rt_row t)) _ _ _ _ _ Hr2 H5) as (r3 & E3 & Hr3). exists r3. split; [|done].
    unfold on_io. cbn [fst snd]. rewrite !u64_id by lia. by rewrite E3.
Qed.

Lemma read_layers_ok l count head data r m rest sets calls : (forall t, t ∈ omap id l -> layer_readable count head data t) ->
  reader_at r (concat (saved_layer data <$> omap id l) ++ rest) sets calls ->
  exists r', forM_ (read_layer l count head) (seq 0 (length l)) (r, m) = (Ok true, (r', m)) /\ reader_at r' rest (sets ++ staged_rows count head data (omap id l)) calls.
Proof.
  intros Hok Hr. assert (forall pre post r sets, l = pre ++ post -> reader_at r (concat (saved_layer data <$> omap id post) ++ rest) sets calls ->
    exists r', forM_ (read_layer l count head) (seq (length pre) (length post)) (r, m) = (Ok true, (r', m)) /\ reader_at r' rest (sets ++ staged_rows count head data (omap id post)) calls) as H; [|by apply (H [] l)].
  clear Hr. intros pre post. revert pre. induction post as [|t post IH]; intros pre r1 sets1 El Hr.
  { exists r1. split; [done|]. unfold staged_rows. destruct (_ =? _)%Z; by rewrite app_nil_r. }
  assert (l !! length pre = Some t) as Hl by (rewrite El; by apply list_lookup_middle). cbn [length seq forM_].
  assert (forall r2 sets2, reader_at r2 (concat (saved_layer data <$> omap id post) ++ rest) sets2 calls ->
    exists r', forM_ (read_layer l count head) (seq (Datatypes.S (length pre)) (length post)) (r2, m) = (Ok true, (r', m)) /\ reader_at r' rest (sets2 ++ staged_rows count head data (omap id post)) calls) as IH'.
  { intros r2 sets2 H2. destruct (IH (pre ++ [t]) r2 sets2) as (r' & E & H); [rewrite <- app_assoc; done|done|]. rewrite length_app, Nat.add_1_r in E. by exists r'. }
  destruct t as [t|].
  - change (omap id (Some t :: post)) with (t :: omap id post) in *. cbn [fmap list_fmap concat] in Hr. rewrite <- app_assoc in Hr.
    assert (layer_readable count head data t) as Ht by (apply Hok, list_elem_of_omap; exists (Some t); split; [by eapply list_elem_of_lookup_2|done]).
    destruct (read_layer_ok l (length pre) t count head data r1 m _ _ _ Hl Ht Hr) as (r2 & E2 & Hr2).
    rewrite (stx_bind_Ok _ _ _ _ _ E2). destruct (IH' r2 _ Hr2) as (r3 & E3 & Hr3). exists r3. split; [done|].
    change (t :: omap id post) with ([t] ++ omap id post). rewrite staged_rows_app, app_assoc. done.
  - change (omap id (None :: post)) with (omap id post) in *. rewrite (stx_bind_Ok _ _ _ true (r1, m)); [by apply IH'|].
    unfold read_layer. by rewrite (stx_bind_Ok _ _ _ None (r1, m)) by (unfold stx_lift; by rewrite (vec_get_Some _ _ _ Hl)).
Qed.

Lemma state_read_data_ok ly count head data r m rest sets calls : length (l_r ly) = l_n_layer ly -> length (l_s ly) = l_n_layer ly -> (Z.of_nat (l_n_layer ly) <= UINT32_MAX)%Z ->
  (count <= sizeZ m)%Z -> (forall t, t ∈ layer_tensors ly -> layer_readable count head data t) ->
  reader_at r (le_bytes 4 0 ++ le_bytes 4 (Z.of_nat (l_n_layer ly)) ++ concat (saved_layer data <$> layer_tensors ly) ++ rest) sets calls ->
  exists r', state_read_data ly count head (r, m) = (Ok true, (r', m)) /\ reader_at r' rest (sets ++ staged_rows count head data (layer_tensors ly)) calls.
Proof.
  intros Hr0 Hs0 Hn Hc Hok Hr. destruct (io_read_u32 r m _ _ _ _ Hr) as (r1 & E1 & Hr1); [unfold UINT32_MAX; lia|].
  destruct (io_read_u32 r1 m _ _ _ _ Hr1) as (r2 & E2 & Hr2); [lia|].
  unfold state_read_data. rewrite (stx_bind_Ok _ _ _ _ _ E1), (stx_bind_Ok _ _ _ _ _ E2), (stx_bind_Ok get_mem _ _ m (r2, m)) by done.
  rewrite Z.eqb_refl. cbn [negb]. rewrite (proj2 (Z.ltb_ge _ _) Hc). change (negb (0 =? 0)%Z) with false. cbv iota.
  unfold layer_tensors in *. rewrite omap_app in *. rewrite fmap_app, concat_app, <- app_assoc in Hr2.
  assert (forall t, t ∈ omap id (l_r ly) -> layer_readable count head data t) as Hok1 by (intros t Ht; apply Hok, elem_of_app; by left).
  assert (forall t, t ∈ omap id (l_s ly) -> layer_readable count head data t) as Hok2 by (intros t Ht; apply Hok, elem_of_app; by right).
  destruct (read_layers_ok (l_r ly) count head data r2 m _ _ _ Hok1 Hr2) as (r3 & E3 & Hr3).
  destruct (read_layers_ok (l_s ly) count head data r3 m _ _ _ Hok2 Hr3) as (r4 & E4 & Hr4).
  rewrite Hr0 in E3. rewrite Hs0 in E4. rewrite (stx_bind_Ok _ _ _ _ _ E3). cbn [negb]. exists r4. split; [done|]. rewrite staged_rows_app, app_assoc. done.
Qed.
