(* ===== verification/RecurrentRestore.v ===== *)
(** * State files of the recurrent memory: saving and restoring

    What a sequence is worth: its position and its row in the tensor of every layer.  A
    memory that is written and read back into another one gives every sequence the same
    worth; a sequence alone can be moved to another id or another memory. *)

From S2P Require Import KvCells BatchInit.
From S2P Require Export RecurrentDone RecurrentLoad.
Open Scope nat_scope.

(** The row of a sequence: its cell, in the snapshot of its rollback index. *)
Definition seq_row (m : llama_memory_recurrent) (y j : nat) : Z := (rs_of m y * sizeZ m + Z.of_nat j)%Z.

(** Position and rows of a sequence. *)
Definition seq_state (ly : rs_layers) (m : llama_memory_recurrent) (T : tensors) (y : nat) : option (Z * list (list Z)) :=
  match view m y with
  | Some (j, p, _) => Some (p, (fun t => tensor_row T t (seq_row m y j)) <$> layer_tensors ly)
  | None => None
  end.

(** ** Rows of a tensor *)

Lemma set_tensors_lookup T (l : list rs_tensor) off data t : NoDup (rt_id <$> l) -> t ∈ l ->
  foldl set_tensor T ((fun t => (rt_id t, off t, data t)) <$> l) !! rt_id t = list_inserts (off t) (data t) <$> T !! rt_id t.
Proof.
  revert T. induction l as [|x l IH]; intros T Hn Ht; [by apply not_elem_of_nil in Ht|]. cbn [fmap list_fmap foldl] in *. apply NoDup_cons in Hn as [Hx Hn].
  apply elem_of_cons in Ht as [->|Ht].
  - rewrite set_tensors_other; [unfold set_tensor; cbn [fst snd]; apply list_lookup_alter_eq|]. intros y (z & -> & Hz)%list_elem_of_fmap. cbn. intros E. apply Hx. rewrite <- E. by apply list_elem_of_fmap_2.
  - rewrite IH by done. unfold set_tensor. cbn [fst snd]. rewrite list_lookup_alter_ne; [done|]. intros E. apply Hx. rewrite E. by apply list_elem_of_fmap_2.
Qed.

Section rows.
Context (ly : rs_layers) (m0 : llama_memory_recurrent) (T0 : tensors) (Hly : layers_ok ly m0 T0) (Hrs : (0 <= n_rs_seq m0)%Z).
Context (count head : nat) (Hfit : head + count <= r_size m0).

(** The staged rows fit, and the layers can be read. *)
Lemma layers_readable data : (forall t, t ∈ layer_tensors ly -> length (data t) = count * Z.to_nat (rt_row t)) ->
  forall t, t ∈ layer_tensors ly -> layer_readable (Z.of_nat count) (Z.of_nat head) data t.
Proof.
  intros Hd t Ht. destruct (lo_tensor _ _ _ Hly t Ht) as (H1 & H2 & H3 & H4 & _). unfold sizeZ in *. split; [done|]. split; [done|].
  assert (forall k : nat, k <= r_size m0 -> (0 <= Z.of_nat k * rt_row t <= UINT64_MAX)%Z) as Hk by (intros k Hk; nia).
  split; [apply Hk; lia|]. split; [apply Hk; lia|]. rewrite Hd by done. nia.
Qed.

Lemma staged_fit data : (forall t, t ∈ layer_tensors ly -> length (data t) = count * Z.to_nat (rt_row t)) ->
  Forall (staged_fits T0) (staged_rows (Z.of_nat count) (Z.of_nat head) data (layer_tensors ly)).
Proof.
  intros Hd. unfold staged_rows. destruct (_ =? 0)%Z; [constructor|]. apply Forall_fmap, Forall_forall. intros t Ht. destruct (lo_tensor _ _ _ Hly t Ht) as (_ & H2 & _ & _ & l & E & H).
  exists l. cbn. split; [done|]. rewrite Hd by done. unfold sizeZ in *. assert (Z.of_nat (head + count) * rt_row t <= Z.of_nat (length l))%Z by nia. nia.
Qed.

(** The rows of a tensor when the staged ones are in place. *)
Lemma staged_row data rows t i row : (forall t, t ∈ layer_tensors ly -> length (data t) = count * Z.to_nat (rt_row t)) -> t ∈ layer_tensors ly ->
  data t = concat rows -> Forall (fun l => length l = Z.to_nat (rt_row t)) rows -> rows !! i = Some row -> i < count ->
  tensor_row (foldl set_tensor T0 (staged_rows (Z.of_nat count) (Z.of_nat head) data (layer_tensors ly))) t (Z.of_nat (head + i)) = row.
Proof.
  intros Hd Ht Ed Hl Hi Hc. unfold staged_rows. rewrite (proj2 (Z.eqb_neq _ _)) by lia. unfold tensor_row. rewrite (set_tensors_lookup T0 _ (fun t => Z.to_nat (Z.of_nat head * rt_row t)) data) by (done || apply Hly).
  destruct (lo_tensor _ _ _ Hly t Ht) as (_ & H2 & _ & _ & l & E & H). rewrite E. cbn [fmap option_fmap option_map default from_option id].
  set (R := Z.to_nat (rt_row t)) in *. assert (rt_row t = Z.of_nat R) as ER by lia. rewrite ER in *. rewrite <- !Nat2Z.inj_mul, !Nat2Z.id. unfold sizeZ in H.
  assert ((head + count) * R <= length l) by nia. rewrite slice_inserts; rewrite ?Hd by done; try (fold R; nia).
  replace ((head + i) * R - head * R) with (i * R) by nia. rewrite Ed. by apply slice_concat.
Qed.

Lemma staged_row_other data t r : (forall t, t ∈ layer_tensors ly -> length (data t) = count * Z.to_nat (rt_row t)) -> t ∈ layer_tensors ly ->
  (0 <= r)%Z -> ~ (Z.of_nat head <= r < Z.of_nat (head + count))%Z ->
  tensor_row (foldl set_tensor T0 (staged_rows (Z.of_nat count) (Z.of_nat head) data (layer_tensors ly))) t r = tensor_row T0 t r.
Proof.
  intros Hd Ht Hr Hn. unfold staged_rows. destruct (Z.eqb_spec (Z.of_nat count) 0) as [|Hc]; [done|]. unfold tensor_row.
  rewrite (set_tensors_lookup T0 _ (fun t => Z.to_nat (Z.of_nat head * rt_row t)) data) by (done || apply Hly).
  destruct (lo_tensor _ _ _ Hly t Ht) as (_ & H2 & _ & _ & l & E & H). rewrite E. cbn [fmap option_fmap option_map default from_option id].
  apply slice_inserts_apart. rewrite Hd by done. set (R := Z.to_nat (rt_row t)) in *. assert (rt_row t = Z.of_nat R) as -> by lia. rewrite <- (Z2Nat.id r) in * by done. set (k := Z.to_nat r) in *. rewrite <- !Nat2Z.inj_mul, !Nat2Z.id. nia.
Qed.
End rows.

(** ** All sequences *)

Lemma put_back_same m m' : r_n m' = r_n m -> n_rs_seq m' = n_rs_seq m -> put_back m m' = m.
Proof. intros E1 E2. unfold put_back. rewrite E1, E2. by destruct m. Qed.

Lemma on_mem_tt f r m : on_mem (fun m => Ok (tt, f m)) (r, m) = (Ok tt, (r, f m)).
Proof. done. Qed.

(** The memory a read stages; nothing is changed before the commit but [n]. *)
Lemma rec_state_read_ok ly seq_id flags count r m r0 r1 m1 r2 sets :
  on_io read_u32 (r, m) = (Ok count, (r0, m)) -> state_read_meta ly count seq_id (r0, m) = (Ok true, (r1, m1)) ->
  let new := if negb (n_rs_seq m1 =? 0)%Z then if (seq_id =? -1)%Z then set_rs ((fun _ => 0%Z) <$> rs_idx m1) m1 else set_rs_idx seq_id 0 m1 else m1 in
  state_read_data ly count (r_head new) (r1, put_back m new) = (Ok true, (r2, put_back m new)) -> reader_at r2 [] sets [] ->
  exists r', rec_state_read ly seq_id flags (r, m) = (Ok tt, (r', put_back m new)) /\ reader_at r' [] sets [install_new new].
Proof.
  intros E0 Hmeta new Hdata H2. exists (on_commit (install_new new) r2). split; [|by apply (reader_on_commit _ _ _ [])].
  unfold rec_state_read. rewrite (stx_bind_Ok _ _ _ _ _ E0), (stx_bind_Ok get_mem _ _ m (r0, m)) by done.
  rewrite (stx_bind_Ok _ _ _ true (r1, m1)) by (by rewrite Hmeta). rewrite (stx_bind_Ok _ _ _ tt (r1, new)) by done.
  rewrite (stx_bind_Ok get_mem _ _ new (r1, new)) by done. rewrite (stx_bind_Ok _ _ _ tt (r1, put_back m new)) by done.
  rewrite (stx_bind_Ok _ _ _ true (r2, put_back m new)) by (by rewrite Hdata). done.
Qed.

Definition saved_of (seq_id : Z) (m : llama_memory_recurrent) : list (Z * gset Z) := (fun j => (ps (r_cells m) j, ids (r_cells m) j)) <$> chosen_cells seq_id m.

Definition data_of (T : tensors) (rows : list Z) (t : rs_tensor) : list Z := concat (tensor_row T t <$> rows).

Lemma state_bytes_all ly m T : state_bytes ly (-1) m T = le_bytes 4 (Z.of_nat (length (saved_of (-1) m))) ++ concat (cell_bytes <$> saved_of (-1) m) ++
  le_bytes 4 0 ++ le_bytes 4 (Z.of_nat (l_n_layer ly)) ++ concat (saved_layer (data_of T (cell_row (-1) m <$> chosen_cells (-1) m)) <$> layer_tensors ly) ++ [].
Proof. unfold state_bytes, saved_of. rewrite length_fmap, <- list_fmap_compose, app_nil_r. done. Qed.

Section source.
Context (ly : rs_layers) (m : llama_memory_recurrent) (T : tensors) (Hm : rec_wf m) (Hs : saveable m) (Hly : layers_ok ly m T).

(** Every row that is written lies in its tensor. *)
Lemma tensor_row_length t seq_id j : t ∈ layer_tensors ly -> j ∈ chosen_cells seq_id m -> length (tensor_row T t (cell_row seq_id m j)) = Z.to_nat (rt_row t).
Proof.
  intros Ht [_ Hch]%chosen_lt. pose proof (cell_row_range m Hm Hs seq_id j Hch) as Hr. destruct (lo_tensor _ _ _ Hly t Ht) as (_ & H2 & _ & _ & l & E & H).
  unfold tensor_row. rewrite E. simpl. apply length_slice. assert ((cell_row seq_id m j + 1) * rt_row t <= Z.of_nat (length l))%Z by nia. nia.
Qed.

Lemma rows_lengths t seq_id : t ∈ layer_tensors ly -> Forall (fun l => length l = Z.to_nat (rt_row t)) (tensor_row T t <$> (cell_row seq_id m <$> chosen_cells seq_id m)).
Proof. intros Ht. apply Forall_fmap, Forall_fmap, Forall_forall. intros j Hj. by apply tensor_row_length. Qed.

Lemma data_length t seq_id : t ∈ layer_tensors ly -> length (data_of T (cell_row seq_id m <$> chosen_cells seq_id m) t) = length (chosen_cells seq_id m) * Z.to_nat (rt_row t).
Proof. intros Ht. unfold data_of. rewrite (length_concat_rows _ _ (rows_lengths t seq_id Ht)). by rewrite !length_fmap. Qed.

Lemma chosen_NoDup seq_id : NoDup (chosen_cells seq_id m).
Proof. apply NoDup_ListNoDup, List.NoDup_filter, NoDup_ListNoDup, NoDup_seq. Qed.

Lemma saved_at i c : saved_of (-1) m !! i = Some c -> exists j, chosen_cells (-1) m !! i = Some j /\ c = (ps (r_cells m) j, ids (r_cells m) j) /\ ids (r_cells m) j <> ∅.
Proof.
  intros H. unfold saved_of in H. rewrite list_lookup_fmap in H. destruct (chosen_cells (-1) m !! i) as [j|] eqn:E; [|done]. injection H as <-. exists j. split; [done|]. split; [done|].
  apply list_elem_of_lookup_2, chosen_lt in E as [_ Hch]. destruct (chosen_id m Hm (-1) j Hch) as (y & Hy & _). intros E. rewrite E in Hy. set_solver.
Qed.

Lemma saved_sets i q : q ∈ sets_at (saved_of (-1) m) i -> exists j, chosen_cells (-1) m !! i = Some j /\ q ∈ ids (r_cells m) j.
Proof.
  unfold sets_at. destruct (saved_of (-1) m !! i) as [c|] eqn:E; [|simpl; set_solver]. destruct (saved_at i c E) as (j & Hj & -> & _). simpl. intros Hq. by exists j.
Qed.

Lemma saved_savable n : r_size m <= n -> savable_cells (saved_of (-1) m) n.
Proof.
  intros Hn. split.
  - intros c Hc. apply list_elem_of_lookup in Hc as [i Hi]. destruct (saved_at i c Hi) as (j & _ & -> & Hne). destruct (rw_cells _ Hm j) as (_ & H & _). split; [by apply H|done].
  - intros c q Hc Hq. apply list_elem_of_lookup in Hc as [i Hi]. destruct (saved_at i c Hi) as (j & _ & -> & _). destruct (linked_id _ _ _ (rw_links _ Hm) Hq) as (y & -> & _ & Hy & _). unfold r_size in Hn. lia.
  - intros i j q (a & Ha & Hqa)%saved_sets (b & Hb & Hqb)%saved_sets. destruct (linked_id _ _ _ (rw_links _ Hm) Hqa) as (y & -> & Hy & _). apply (lk_iff _ (rw_links _ Hm)) in Hqb.
    assert (a = b) as <- by lia. exact (NoDup_lookup _ _ _ _ (chosen_NoDup (-1)) Ha Hb).
Qed.

(** The cell of a sequence is written, from the row of the sequence. *)
Lemma chosen_view y j p r : view m y = Some (j, p, r) -> exists i, chosen_cells (-1) m !! i = Some j /\ Z.of_nat y ∈ ids (r_cells m) j /\ ps (r_cells m) j = p /\ cell_row (-1) m j = seq_row m y j.
Proof.
  intros (Ht & Hp & _)%view_Some. apply (lk_iff _ (rw_links _ Hm)) in Ht as Hy. assert (chosen (-1) m j = true) as Hch.
  { unfold chosen. apply orb_true_iff. left. simpl. apply negb_true_iff, bool_decide_eq_false_2. set_solver. }
  destruct (cell_row_ok m Hm Hs (-1) j Hch) as (idx & _ & Erow & Hj & _ & Hidx).
  assert (j ∈ chosen_cells (-1) m) as Hin by (apply list_elem_of_In, filter_In; split; [apply list_elem_of_In, elem_of_seq; lia|done]).
  apply list_elem_of_lookup in Hin as [i Hi]. exists i. do 3 (split; [done|]). rewrite Erow, (Hidx y Hy ltac:(by left)). done.
Qed.
End source.

Lemma rs_of_zero m y : Forall (fun z => z = 0%Z) (rs_idx m) -> rs_of m y = 0%Z.
Proof.
  intros H. unfold rs_of. destruct (_ =? 0)%Z; [done|]. destruct (rs_idx m !! y) as [z|] eqn:E; [|done]. rewrite Forall_forall in H. apply H. by eapply list_elem_of_lookup_2.
Qed.

(** Reading the state of a memory into another one, and committing. *)
Section read_all.
Context (ly : rs_layers) (flags : Z) (m m0 : llama_memory_recurrent) (T T0 : tensors).
Context (Hm : rec_wf m) (Hs : saveable m) (Hly : layers_ok ly m T).
Context (Hm0 : rec_wf m0) (Hsz : r_size m <= r_size m0) (Hrs : r_size m0 <= length (rs_idx m0)) (Hly0 : layers_ok ly m0 T0).
Let cs := saved_of (-1) m.
Let rows := cell_row (-1) m <$> chosen_cells (-1) m.
Let staged := foldl set_tensor T0 (staged_rows (Z.of_nat (length cs)) 0 (data_of T rows) (layer_tensors ly)).

Lemma saved_length : length cs = length (chosen_cells (-1) m) /\ length cs <= r_size m0.
Proof.
  assert (length cs = length (chosen_cells (-1) m)) as Hcl by apply length_fmap. split; [done|]. rewrite Hcl.
  pose proof (length_chosen_upto m (-1) (r_size m)) as H. unfold chosen_upto in H. unfold chosen_cells. lia.
Qed.

Lemma saved_data t : t ∈ layer_tensors ly -> length (data_of T rows t) = length cs * Z.to_nat (rt_row t).
Proof. intros Ht. rewrite (proj1 saved_length). by apply (data_length ly). Qed.

Lemma restored_state m' y : restored cs m0 m' -> seq_state ly m' staged y = seq_state ly m T y.
Proof.
  intros Hr. unfold seq_state. destruct (view m y) as [[[j p] r]|] eqn:Ev.
  - destruct (chosen_view ly m T Hm Hs Hly y j p r Ev) as (i & Hi & Hy & <- & Erow).
    assert (cs !! i = Some (ps (r_cells m) j, ids (r_cells m) j)) as Hci by (unfold cs, saved_of; by rewrite list_lookup_fmap, Hi).
    destruct (sets_at_Some cs i _ Hci) as [Ei Ep]. rewrite (restored_view cs m0 m' y i Hr) by (by rewrite Ei). rewrite Ep. cbn [fst snd]. do 2 f_equal.
    apply list_fmap_ext. intros k t Ht. apply list_elem_of_lookup_2 in Ht. unfold seq_row at 1. rewrite rs_of_zero by (rewrite (proj1 (rt_rest _ _ _ Hr)); by apply Forall_fmap, Forall_true). rewrite Z.mul_0_l, Z.add_0_l.
    pose proof (proj1 saved_length) as Hcl. apply (staged_row ly m0 T0 Hly0 (proj1 (proj1 (rw_rs _ Hm0))) (length cs) 0 ltac:(pose proof (proj2 saved_length); lia) (data_of T rows) (tensor_row T t <$> rows) t i); try done.
    + intros u Hu. by apply saved_data.
    + by apply (rows_lengths ly).
    + unfold rows. rewrite !list_lookup_fmap, Hi. simpl. by rewrite Erow.
    + rewrite Hcl. by eapply lookup_lt_Some.
  - rewrite (restored_none cs m0 m' y Hr); [done|]. intros i Hi. destruct (saved_sets ly m T Hm Hs Hly i _ Hi) as (j & _ & Hy).
    apply (lk_iff _ (rw_links _ Hm)) in Hy. apply view_None in Ev; [|apply Hm]. lia.
Qed.

Lemma read_all_state r : reader_at r (state_bytes ly (-1) m T) [] [] ->
  exists r1 r2 T' m', rec_state_read ly (-1) flags (r, m0) = (Ok tt, (r1, m0)) /\ commit r1 T0 m0 = Ok (r2, T', m') /\ rec_wf m' /\
    forall y, seq_state ly m' T' y = seq_state ly m T y.
Proof.
  intros Hr. rewrite state_bytes_all in Hr. fold cs rows in Hr. destruct saved_length as [Hcl Hle]. pose proof (saved_savable ly m T Hm Hs Hly (r_size m0) Hsz) as Hcs. fold cs in Hcs.
  assert (0 <= Z.of_nat (length cs) <= UINT32_MAX)%Z as Hc32. { pose proof (rw_size _ Hm0). unfold sizeZ, INT32_MAX, UINT32_MAX in *. lia. }
  destruct (io_read_u32 r m0 _ _ _ _ Hr Hc32) as (r0 & E0 & Hr0). destruct (read_all_ok cs m0 r0 _ [] [] Hm0 Hcs Hle Hrs Hr0) as (r1 & m1 & Emeta & Hm1 & Hr1).
  set (new := if negb (n_rs_seq m1 =? 0)%Z then if (-1 =? -1)%Z then set_rs ((fun _ => 0%Z) <$> rs_idx m1) m1 else set_rs_idx (-1) 0 m1 else m1).
  assert (r_head new = 0%Z) as Hhead by (unfold new; destruct (negb _); apply (rt_head _ _ _ Hm1)).
  assert (restored cs m0 (put_back new m0)) as Hnew.
  { destruct Hm1 as [H1 (H2 & H2' & H2n) [H3 H3'] H4 H5 H6 H7]. unfold new. destruct (negb _); split; cbn; try done. split; [|done]. rewrite H2. by rewrite <- list_fmap_compose. }
  assert (put_back m0 new = m0) as Eback.
  { apply put_back_same; unfold new; destruct (negb _); cbn; apply (rt_rest _ _ _ Hm1). }
  destruct (state_read_data_ok ly (Z.of_nat (length cs)) 0 (data_of T rows) r1 (put_back m0 new) [] [] []) as (r2 & Edata & Hr2); [apply (lo_len _ _ _ Hly)..| | |exact Hr1|].
  { unfold sizeZ. change (r_size (put_back m0 new)) with (r_size m0). lia. }
  { apply (layers_readable ly m0 T0 Hly0 (proj1 (proj1 (rw_rs _ Hm0))) (length cs) 0 ltac:(lia)). intros t Ht. by apply saved_data. }
  destruct (rec_state_read_ok ly (-1) flags (Z.of_nat (length cs)) r m0 r0 r1 m1 r2 (staged_rows (Z.of_nat (length cs)) 0 (data_of T rows) (layer_tensors ly)) E0 Emeta) as (r3 & E & Hr3); [fold new; by rewrite Hhead|done|].
  fold new in E, Hr3. rewrite Eback in E. eexists r3, _, staged, (put_back new m0). split; [done|]. split; [|split].
  - rewrite (reader_commit r3 _ _ _ T0 m0 Hr3); [done|]. apply (staged_fit ly m0 T0 Hly0 (proj1 (proj1 (rw_rs _ Hm0))) (length cs) 0 ltac:(lia)). intros t Ht. by apply saved_data.
  - by apply (restored_wf cs m0).
  - intros y. by apply restored_state.
Qed.
End read_all.
