(* ===== verification/RecurrentSeqState.v ===== *)
(** * State files of the recurrent memory: one sequence

    Reading the state of a sequence removes the destination, finds it a cell and stages its
    row; the other sequences keep their cells, rollback indices and rows.  The state of one
    sequence, written from one memory and read into a sequence of another one, gives that
    sequence the same worth. *)

From S2P Require Import KvCells BatchInit.
From S2P Require Export RecurrentRestore.
Open Scope nat_scope.

(** ** Removal of the destination *)

Record rs_kept (m m' : llama_memory_recurrent) : Prop := {
  rk_rs : rs_idx m' = rs_idx m;
  rk_n_rs : n_rs_seq m' = n_rs_seq m;
  rk_size : r_size m' = r_size m;
  rk_n : r_n m' = r_n m
}.

#[export] Instance rs_kept_refl : Reflexive rs_kept.
Proof. done. Qed.
#[export] Instance rs_kept_trans : Transitive rs_kept.
Proof. intros a b c [] []. split; congruence. Qed.

Lemma on_cell_kept z f m m' : on_cell z f m = Ok m' -> rs_kept m m'.
Proof.
  unfold on_cell. intros H. apply bind_Ok in H as (c & _ & H). apply bind_Ok in H as (v & E & H). injection H as <-. split; try done.
  unfold arr_set in E. destruct (_ <? 0)%Z; [done|]. apply vec_set_Ok in E as [_ ->]. unfold r_size. simpl. apply length_insert.
Qed.

Lemma release_kept i m nh x : release_cell i (m, nh) = Ok x -> rs_kept m x.1.
Proof.
  unfold release_cell. intros H. apply bind_Ok in H as (c & _ & H). destruct (is_empty c); [|injection H as <-; done].
  apply bind_Ok in H as (m1 & E & H). injection H as <-. apply on_cell_kept in E. cbn [fst]. etrans; [|exact E]. by destruct (_ <=? _)%Z.
Qed.

Lemma rm_step_kept x lo hi y i y' : rm_step x lo hi y i = Ok y' -> rs_kept y.1 y'.1.
Proof.
  destruct y as [m nh]. unfold rm_step. intros H. apply bind_Ok in H as (c & _ & H). destruct (_ && _); [|injection H as <-; done]. destruct (x <? 0)%Z.
  - apply bind_Ok in H as (m1 & E & H). etrans; [by eapply on_cell_kept|]. by eapply (release_kept i m1).
  - destruct (has_seq_id x c); [|injection H as <-; done]. apply bind_Ok in H as (m1 & E & H). etrans; [by eapply on_cell_kept|]. by eapply (release_kept i m1).
Qed.

(** A full removal resets the rollback index of the sequence and no other. *)
Lemma seq_rm_all_kept x m b m' : (0 <= x < sizeZ m)%Z -> seq_rm x (-1) (-1) m = Ok (b, m') -> rs_kept (set_rs_idx x 0 m) m' \/ b = false.
Proof.
  intros Hx H. unfold seq_rm in H. apply bind_Ok in H as (can & _ & H). destruct can; cbn [negb] in H; [|injection H as <- <-; by right].
  change (range_lo (-1)) with 0%Z in H. change (range_hi (-1)) with INT32_MAX in H. cbn [Z.eqb andb] in H. rewrite Z.eqb_refl, (proj2 (Z.leb_le 0 x)) in H by lia.
  set (m1 := set_rs_idx x 0 m) in *. assert (sizeZ m1 = sizeZ m) as Es by (unfold m1, set_rs_idx; by destruct (_ || _)). rewrite Es, (proj2 (Z.leb_gt _ _)) in H by lia.
  apply bind_Ok in H as ([early m2] & Et & H). assert (early = None /\ rs_kept m1 m2) as [-> Hk].
  { unfold rm_tail in Et. apply bind_Ok in Et as (o & _ & Et). destruct (0 <=? c_tail o)%Z; [|injection Et as <- <-; done]. apply bind_Ok in Et as (c & _ & Et). cbn [Z.ltb Z.compare andb] in Et.
    destruct (_ && _); [|injection Et as <- <-; done]. apply bind_Ok in Et as (m3 & E3 & Et). injection Et as <- <-. split; [done|]. by eapply on_cell_kept. }
  apply bind_Ok in H as ([m3 nh] & E & H). injection H as <- <-. left. etrans; [exact Hk|].
  assert (rs_kept m2 m3) as H3.
  { apply (foldM_inv_Ok (rm_step x 0 INT32_MAX) (fun _ y => rs_kept m2 y.1) (seq 0 (r_size m2)) (m2, sizeZ m2) (m3, nh)); [done|exact E|]. intros a l y y' Hy Hs. etrans; [exact Hy|]. by eapply rm_step_kept. }
  etrans; [exact H3|]. unfold move_head. by destruct (_ && _).
Qed.

(** ** One cell *)

Lemma find_slot_one m u rows b m' : rec_wf m -> rec_ubatch u (r_size m) rows -> u_n_seqs u = 1 -> find_slot u m = Ok (b, m') -> r_n m' = 1%Z.
Proof.
  intros Hm Hu Hn H. unfold find_slot in H. cbv zeta in H. set (m0 := if (_ <? _)%Z then set_head 0 m else m) in H.
  assert (rec_wf m0 /\ r_size m0 = r_size m) as [Hm0 Hs0].
  { unfold m0. destruct (_ <? _)%Z; [|done]. split; [|done]. pose proof (rw_rs _ Hm) as [_ ?]. apply (rec_wf_intro m); try done; try apply Hm. simpl. pose proof (rw_head _ Hm). lia. }
  rewrite (assert_true _ (ru_equal _ _ _ Hu)) in H. cbn [mbind outcome_bind] in H. rewrite <- Hs0 in Hu.
  destruct (check_sets_ok u m0 rows Hm0 Hu) as (m1 & E1 & Ht). rewrite E1 in H. cbn [mbind outcome_bind negb] in H. pose proof (tm_wf _ _ _ Ht) as Hm1.
  rewrite <- (sm_size _ _ (tm_meta _ _ _ Ht)) in Hu. destruct (find_cells_ok m1 Hm1 u rows Hu) as (h & x & Ex & Hx). rewrite Ex in H. cbn [mbind outcome_bind] in H.
  assert (f_max x = f_min x) as Ef.
  { destruct (cf_bounds _ _ _ _ _ Hx) as [B1 B2]. unfold find_cells in Ex. apply bind_Ok in Ex as (e & _ & Ex). rewrite Hn in Ex. cbn [seq foldM] in Ex. apply bind_Ok in Ex as (x1 & Ex & E). injection E as <-.
    unfold find_cell in Ex. apply bind_Ok in Ex as (? & _ & Ex). apply bind_Ok in Ex as (? & _ & Ex). apply bind_Ok in Ex as ([m2 e2] & _ & Ex). apply bind_Ok in Ex as (c & _ & Ex). injection Ex as <-. cbn [f_min f_max] in *.
    destruct (Z.ltb_spec (c_tail c) (sizeZ m1 - 1)), (Z.ltb_spec 0 (c_tail c)); lia. }
  apply bind_Ok in H as (m2 & _ & H). apply bind_Ok in H as (m3 & _ & H). apply bind_Ok in H as (m4 & _ & H). injection H as <- <-. cbn. rewrite Ef, Z.sub_diag. done.
Qed.

Lemma restore_ubatch_ok ly p d size : 0 < l_n_pos_per_embd ly -> d < size -> (0 <= p <= INT32_MAX)%Z ->
  exists v u, ubatch_reserve 1 1 (new_allocr (l_n_pos_per_embd ly)) = Ok v /\ restore_ubatch v.1 [p] (Z.of_nat d) = Ok u /\ rec_ubatch u size [([d], p)] /\ u_n_seqs u = 1 /\ u_n_seq_tokens u = 1 /\ u_pos u !! 0 = Some p.
Proof.
  intros Hn Hd Hp. destruct (l_n_pos_per_embd ly) as [|n] eqn:En; [lia|]. unfold restore_ubatch, ubatch_reserve. cbn.
  eexists _, _. split; [reflexivity|]. split; [reflexivity|]. split; [|done]. split; cbn; try done; try lia.
  - intros s ws q Hs. destruct s as [|s]; [|by destruct s]. injection Hs as <- <-. done.
  - apply NoDup_singleton.
  - by constructor.
Qed.

(** The position of the sequence in the stream: the one cell of the state. *)
Lemma read_positions_ok p r (m : llama_memory_recurrent) rest sets calls : reader_at r (le_bytes 4 p ++ le_bytes 4 0 ++ rest) sets calls -> (INT32_MIN <= p <= INT32_MAX)%Z ->
  exists r', read_positions 1 [] (r, m) = (Ok (Some [p]), (r', m)) /\ reader_at r' rest sets calls.
Proof.
  intros Hr Hp. destruct (io_read_i32 r m _ _ _ _ Hr Hp) as (r1 & E1 & Hr1). destruct (io_read_u32 r1 m _ _ _ _ Hr1) as (r2 & E2 & Hr2); [unfold UINT32_MAX; lia|].
  exists r2. split; [|done]. cbn [read_positions]. by rewrite (stx_bind_Ok _ _ _ _ _ E1), (stx_bind_Ok _ _ _ _ _ E2).
Qed.

(** What reading the cells of one sequence does to a memory. *)
Record seq_restored (d : nat) (c : option Z) (m m' : llama_memory_recurrent) : Prop := {
  sr_wf : rec_wf m';
  sr_kept : rs_idx m' = rs_idx (set_rs_idx (Z.of_nat d) 0 m) /\ n_rs_seq m' = n_rs_seq m /\ r_size m' = r_size m;
  sr_seq : match c with
    | Some p => exists h, r_head m' = Z.of_nat h /\ h < r_size m /\ view m' d = Some (h, p, Z.of_nat h) /\ ids (r_cells m') h = {[Z.of_nat d]}
    | None => view m' d = None end;
  sr_others : forall y, y <> d -> view m' y = view m y
}.

Section seq_meta.
Context (ly : rs_layers) (m : llama_memory_recurrent) (d : nat) (Hm : rec_wf m) (Hd : d < r_size m).
Context (Hpos : 0 < l_n_pos_per_embd ly) (Hfree : forall j p r, view m d = Some (j, p, r) -> (p < INT32_MAX)%Z).

Lemma rm_dest : exists m1, seq_rm (Z.of_nat d) (-1) (-1) m = Ok (true, m1) /\ seq_restored d None m m1.
Proof.
  destruct (seq_rm_ok m (Z.of_nat d) (-1) (-1) Hm ltac:(left; lia)) as (m1 & E & Hm1 & Hv). cbn [spec_rec_op] in E, Hv. rewrite (proj2 (Z.leb_gt _ _)) in E, Hv by lia.
  assert (spec_rm (n_rs_seq m) (Z.of_nat d) (-1) (-1) (view m) = (true, match view m d with Some _ => forget (Z.of_nat d) (view m) | None => view m end)) as Es.
  { unfold spec_rm. rewrite at_seq_nat. destruct (view m d) as [[[j p] r]|] eqn:Ev; [|done]. specialize (Hfree j p r eq_refl). apply view_Some in Ev as (Ht & Hp & _). apply (lk_iff _ (rw_links _ Hm)) in Ht.
    assert (0 <= p)%Z. { destruct (rw_cells _ Hm j) as (_ & H & _). subst p. apply H. intros E0. rewrite E0 in Ht. set_solver. }
    unfold in_range. change (range_lo (-1)) with 0%Z. change (range_hi (-1)) with INT32_MAX. by rewrite (proj2 (Z.leb_le 0 p)), (proj2 (Z.ltb_lt p INT32_MAX)) by lia. }
  rewrite Es in E, Hv. cbn [fst snd] in E, Hv. exists m1. split; [done|].
  destruct (seq_rm_all_kept (Z.of_nat d) m true m1) as [Hk|]; [unfold sizeZ; lia|done| |done]. destruct Hk as [K1 K2 K3 K4].
  split; [done| | |].
  - split; [done|]. split; [rewrite K2|rewrite K3]; unfold set_rs_idx; by destruct (_ || _).
  - rewrite Hv. destruct (view m d) eqn:Ev; [|done]. unfold forget. by rewrite Z.eqb_refl.
  - intros y Hy. rewrite Hv. destruct (view m d); [|done]. unfold forget. by rewrite (proj2 (Z.eqb_neq _ _)) by lia.
Qed.

Lemma read_seq_none r : exists m1, state_read_meta ly 0 (Z.of_nat d) (r, m) = (Ok true, (r, m1)) /\ seq_restored d None m m1.
Proof.
  destruct rm_dest as (m1 & E & H). exists m1. split; [|done]. unfold state_read_meta. rewrite (proj2 (Z.eqb_neq (Z.of_nat d) (-1))) by lia. cbn [negb].
  unfold read_seq_meta. by rewrite (stx_bind_Ok _ _ _ true (r, m1)) by (by apply on_mem_ok).
Qed.

Lemma read_seq_one p r rest sets calls : (0 <= p <= INT32_MAX)%Z -> reader_at r (le_bytes 4 p ++ le_bytes 4 0 ++ rest) sets calls ->
  exists r' m', state_read_meta ly 1 (Z.of_nat d) (r, m) = (Ok true, (r', m')) /\ seq_restored d (Some p) m m' /\ reader_at r' rest sets calls.
Proof.
  intros Hp Hr. destruct rm_dest as (m1 & E1 & [Hm1 (K1 & K2 & K3) Hd1 Ho1]). destruct (read_positions_ok p r m1 rest sets calls Hr) as (r1 & Er & Hr1); [unfold INT32_MIN; lia|].
  destruct (restore_ubatch_ok ly p d (r_size m1) Hpos ltac:(lia) Hp) as (v & u & Ev0 & Eu & Hu & Hn1 & Hn2 & Hup).
  destruct (rec_find_slot_ok m1 u [([d], p)] Hm1 Hu) as (m2 & E2 & Hf).
  { intros q j p' r' Hq Ev. apply list_elem_of_singleton in Hq as ->. cbn in Ev. congruence. }
  pose proof (find_slot_one m1 u _ true m2 Hm1 Hu Hn1 E2) as Hn. destruct Hf as [F1 (F2 & F3 & F4) (F5 & F6 & F7) Fset Frest _ _ _ _].
  set (h := Z.to_nat (r_head m2)). assert (r_head m2 = Z.of_nat h) as Eh by lia. destruct (Fset 0 [d] p eq_refl) as [Fv Fi]. rewrite Nat.add_0_r in Fv, Fi. fold h in Fv, Fi. specialize (Fv d ltac:(by left)).
  assert (ids (r_cells m2) h = {[Z.of_nat d]}) as Ei by (rewrite Fi; apply set_eq; intros z; rewrite elem_of_singleton; split; [intros Hz; pose proof (lk_id _ (rw_links _ F1) h z ltac:(by rewrite Fi)); replace z with (Z.of_nat (Z.to_nat z)) in * by lia; apply elem_of_id_set, list_elem_of_singleton in Hz; by rewrite Hz|intros ->; apply elem_of_id_set; by left]).
  assert (h < r_size m2) as Hh by (unfold sizeZ in *; lia). pose proof (rw_size _ F1) as Hsz. unfold sizeZ in Hsz.
  apply view_Some in Fv as Fv'. destruct Fv' as (Ft & Fp & Fs).
  destruct (own_sources_ok m2 h 1 Eh) as (m3 & E3 & Hsame & Hsrc); [lia|done|]. pose proof (linked_same _ _ Hsame (rw_links _ F1)) as Hl3. destruct Hsame as [(M1 & M2 & M3 & M4) Mf].
  assert (forall j, sr (r_cells m3) j = sr (r_cells m2) j) as Hsr3 by (intros j; rewrite Hsrc; case_decide; [replace j with h by lia; by rewrite Fs|done]).
  assert (forall y, view m3 y = view m2 y) as Hv3 by (intros y; unfold view; rewrite !Mf, Hsr3 by done; done).
  exists r1, m3. split; [|split; [|done]].
  - unfold state_read_meta. rewrite (proj2 (Z.eqb_neq (Z.of_nat d) (-1))) by lia. cbn [negb]. unfold read_seq_meta. rewrite (stx_bind_Ok _ _ _ true (r, m1)) by (by apply on_mem_ok).
    change (1 =? 0)%Z with false. cbv iota. change (Z.to_nat 1) with 1. rewrite (stx_bind_Ok _ _ _ v (r, m1)) by (unfold stx_lift; by rewrite Ev0). rewrite (stx_bind_Ok _ _ _ _ _ Er). rewrite (stx_bind_Ok _ _ _ u (r1, m1)) by (unfold stx_lift; by rewrite Eu).
    rewrite (stx_bind_Ok _ _ _ true (r1, m2)) by (by apply on_mem_ok). cbn [negb]. rewrite (stx_bind_Ok get_mem _ _ m2 (r1, m2)) by done.
    rewrite (stx_bind_Ok _ _ _ tt (r1, m2)); [apply on_mem_ok; by change 1%Z with (Z.of_nat 1); rewrite E3|]. unfold stx_lift. f_equal. unfold check_restored. rewrite Eh.
    rewrite !(u32_id (Z.of_nat h + 1)), u32_id by (unfold UINT32_MAX, INT32_MAX in *; lia). replace (Z.of_nat h + 1 - 1)%Z with (Z.of_nat h) by lia.
    rewrite (proj2 (Z.leb_le (Z.of_nat h + 1) (sizeZ m2))) by (unfold sizeZ; lia). destruct (cell_at_lt m2 h Hh) as (c & Hc & ->). rewrite (fld_Some _ _ _ _ _ Hc) in Fp. rewrite (fld_Some _ _ _ _ _ Hc) in Ei.
    cbn [assert_ mbind outcome_bind]. rewrite (vec_get_Some _ _ _ Hup). cbn [mbind outcome_bind]. change (1 - 1)%Z with (Z.of_nat 0). rewrite (arr_get_Z _ _ _ Hup), Fp, Z.eqb_refl. cbn [assert_ mbind outcome_bind].
    unfold has_seq_id. rewrite Ei, bool_decide_true by set_solver. by rewrite ?Z.eqb_refl.
  - split.
    + eapply rec_wf_meta; [exact F1|done|done| |].
      * intros j. unfold cell_ok. rewrite !Mf, Hsr3 by done. apply (rw_cells _ F1).
      * rewrite M2, (rw_used _ F1). f_equal. rewrite !used_cells_fld. change (length (r_cells m2)) with (r_size m2). change (length (r_cells m3)) with (r_size m3). rewrite (sm_size _ _ M1).
        unfold cnt. f_equal. apply List.filter_ext_in. intros j _. unfold in_use. by rewrite Mf.
    + rewrite (sm_rs _ _ M1), (sm_n_rs _ _ M1), (sm_size _ _ M1). split; [congruence|]. split; congruence.
    + exists h. rewrite (sm_head _ _ M1), Hv3, Mf by done. split; [done|]. split; [lia|]. done.
    + intros y Hy. rewrite Hv3, <- (Ho1 y Hy). specialize (Frest y ltac:(simpl; rewrite list_elem_of_singleton; done)). destruct (view m1 y) as [[[j q] s]|]; [|done].
      destruct Frest as (j' & r' & Ev & [(Hin & _)|(_ & -> & ->)]); [|done]. exfalso. unfold in_slot in Hin. assert (j' = h) as -> by lia.
      apply view_Some in Ev as (Et & _ & _). apply (lk_iff _ (rw_links _ F1)) in Et. rewrite Ei in Et. apply elem_of_singleton in Et. lia.
Qed.
End seq_meta.

(** ** Moving a sequence *)

(** A sequence has at most one cell. *)
Lemma chosen_one m x : rec_wf m -> chosen_cells (Z.of_nat x) m = match view m x with Some (j, _, _) => [j] | None => [] end.
Proof.
  intros Hm. assert (forall j, chosen (Z.of_nat x) m j = bool_decide (tl (r_cells m) x = Z.of_nat j)) as Hch.
  { intros j. unfold chosen. rewrite (proj2 (Z.eqb_neq (Z.of_nat x) (-1))) by lia. cbn [andb orb]. apply bool_decide_ext. symmetry. apply (lk_iff _ (rw_links _ Hm)). }
  unfold chosen_cells. rewrite (filter_ext _ _ Hch). destruct (view m x) as [[[j p] r]|] eqn:Ev.
  - apply view_Some in Ev as (Et & _). assert (j < r_size m) as Hj by (apply (ids_lt _ _ (Z.of_nat x)), (lk_iff _ (rw_links _ Hm)); done). rewrite Et.
    rewrite (filter_ext _ (fun i => i =? j)) by (intros i; destruct (Nat.eqb_spec i j) as [->|]; [by rewrite bool_decide_true|rewrite bool_decide_false by lia; done]).
    replace (r_size m) with (j + (1 + (r_size m - j - 1))) by lia. rewrite seq_app, List.filter_app. cbn [seq Nat.add List.filter]. rewrite Nat.eqb_refl.
    rewrite (filter_no _ (seq 0 j)), (filter_no _ (seq (Datatypes.S j) _)); [done|..]; intros i [? ?]%elem_of_seq; apply Nat.eqb_neq; lia.
  - apply view_None in Ev; [|apply Hm]. rewrite Ev. apply filter_no. intros i _. apply bool_decide_false. lia.
Qed.

Lemma state_bytes_none ly m x T : rec_wf m -> view m x = None ->
  state_bytes ly (Z.of_nat x) m T = le_bytes 4 0 ++ le_bytes 4 0 ++ le_bytes 4 (Z.of_nat (l_n_layer ly)) ++ concat (saved_layer (fun _ => []) <$> layer_tensors ly) ++ [].
Proof. intros Hm Ev. unfold state_bytes. rewrite (chosen_one m x Hm), Ev, app_nil_r. done. Qed.

Lemma state_bytes_one ly m x T j p r : rec_wf m -> saveable m -> view m x = Some (j, p, r) ->
  state_bytes ly (Z.of_nat x) m T = le_bytes 4 1 ++ (le_bytes 4 p ++ le_bytes 4 0 ++
    le_bytes 4 0 ++ le_bytes 4 (Z.of_nat (l_n_layer ly)) ++ concat (saved_layer (fun t => tensor_row T t (seq_row m x j)) <$> layer_tensors ly) ++ []).
Proof.
  intros Hm Hs Ev. unfold state_bytes. rewrite (chosen_one m x Hm), Ev. apply view_Some in Ev as (Et & Ep & _). apply (lk_iff _ (rw_links _ Hm)) in Et.
  assert (chosen (Z.of_nat x) m j = true) as Hch by (apply orb_true_iff; right; by apply bool_decide_eq_true).
  destruct (cell_row_ok m Hm Hs (Z.of_nat x) j Hch) as (idx & _ & Er & _ & _ & Hi). rewrite (Hi x Et ltac:(by right)) in Er.
  cbn [fmap list_fmap concat length]. unfold meta_bytes. rewrite (proj2 (Z.eqb_neq (Z.of_nat x) (-1))), Ep, Er by lia.
  cbn [length fmap list_fmap concat]. rewrite !app_nil_r, <- !app_assoc. unfold layer_bytes, saved_layer. cbn [fmap list_fmap concat].
  do 5 f_equal. f_equal. apply list_fmap_ext. intros k t _. by rewrite app_nil_r.
Qed.

(** The rollback index of the destination is already reset. *)
Lemma reset_again m m1 d : rs_idx m1 = rs_idx (set_rs_idx d 0 m) -> n_rs_seq m1 = n_rs_seq m -> (0 <= n_rs_seq m)%Z -> set_rs_idx d 0 m1 = m1.
Proof.
  intros E En Hn. unfold set_rs_idx in *. rewrite E, En in *. destruct (_ || _) eqn:Eb; [by rewrite Eb|]. cbn [rs_idx set_rs] in *. rewrite length_insert, Eb.
  rewrite (proj2 (Z.ltb_ge _ _) Hn), list_insert_insert, decide_True in * by done. rewrite <- E. by destruct m1.
Qed.

Lemma put_back_new a b : put_back a (put_back b a) = a.
Proof. by destruct a. Qed.

Section move.
Context (ly : rs_layers) (flags : Z) (m m0 : llama_memory_recurrent) (T T0 : tensors) (x d : nat).
Context (Hm : rec_wf m) (Hs : saveable m) (Hly : layers_ok ly m T).
Context (Hm0 : rec_wf m0) (Hd : d < r_size m0) (Hly0 : layers_ok ly m0 T0).
Context (Hpos : 0 < l_n_pos_per_embd ly) (Hfree : forall j p r, view m0 d = Some (j, p, r) -> (p < INT32_MAX)%Z).

(** From the cells of the sequence on. *)
Lemma move_data count head data r r0 r1 m1 c : on_io read_u32 (r, m0) = (Ok (Z.of_nat count), (r0, m0)) ->
  state_read_meta ly (Z.of_nat count) (Z.of_nat d) (r0, m0) = (Ok true, (r1, m1)) -> seq_restored d c m0 m1 -> r_head m1 = Z.of_nat head -> head + count <= r_size m0 ->
  (forall t, t ∈ layer_tensors ly -> length (data t) = count * Z.to_nat (rt_row t)) ->
  reader_at r1 (le_bytes 4 0 ++ le_bytes 4 (Z.of_nat (l_n_layer ly)) ++ concat (saved_layer data <$> layer_tensors ly) ++ []) [] [] ->
  exists r2 r3 n, rec_state_read ly (Z.of_nat d) flags (r, m0) = (Ok tt, (r2, set_n n m0)) /\ rd_left r2 = 0 /\
    commit r2 T0 (set_n n m0) = Ok (r3, foldl set_tensor T0 (staged_rows (Z.of_nat count) (Z.of_nat head) data (layer_tensors ly)), m1).
Proof.
  intros E0 Em Hr Hh Hfit Hdata Hr1. destruct (sr_kept _ _ _ _ Hr) as (K1 & K2 & K3). pose proof (proj1 (proj1 (rw_rs _ Hm0))) as Hn.
  pose proof (reset_again m0 m1 (Z.of_nat d) K1 K2 Hn) as Eidem.
  destruct (state_read_data_ok ly (Z.of_nat count) (Z.of_nat head) data r1 (put_back m0 m1) [] [] []) as (r2 & E2 & Hr2); [apply (lo_len _ _ _ Hly0)..| | |done|].
  { unfold sizeZ. change (r_size (put_back m0 m1)) with (r_size m0). lia. }
  { apply (layers_readable ly m0 T0 Hly0 Hn count head Hfit). done. }
  assert ((if negb (n_rs_seq m1 =? 0)%Z then if (Z.of_nat d =? -1)%Z then set_rs ((fun _ => 0%Z) <$> rs_idx m1) m1 else set_rs_idx (Z.of_nat d) 0 m1 else m1) = m1) as Enew.
  { rewrite (proj2 (Z.eqb_neq (Z.of_nat d) (-1))), Eidem by lia. by destruct (negb _). }
  destruct (rec_state_read_ok ly (Z.of_nat d) flags (Z.of_nat count) r m0 r0 r1 m1 r2 (staged_rows (Z.of_nat count) (Z.of_nat head) data (layer_tensors ly)) E0 Em) as (r3 & E & Hr3); [rewrite Enew, Hh; done|done|].
  rewrite Enew in E, Hr3. assert (put_back m0 m1 = set_n (r_n m1) m0) as Eb by (unfold put_back; rewrite K2; by destruct m0). rewrite Eb in E.
  eexists r3, _, (r_n m1). split; [done|]. split; [by rewrite <- (reader_left _ _ _ _ Hr3)|]. rewrite (reader_commit r3 _ _ _ T0 _ Hr3); [|by apply (staged_fit ly m0 T0 Hly0 Hn count head Hfit)].
  cbn [foldM]. unfold install_new. rewrite <- Eb, put_back_new. done.
Qed.

Lemma rs_of_reset m1 c : seq_restored d c m0 m1 -> rs_of m1 d = 0%Z /\ forall y, y <> d -> rs_of m1 y = rs_of m0 y.
Proof.
  intros Hr. destruct (sr_kept _ _ _ _ Hr) as (K1 & K2 & _). unfold rs_of. rewrite K1, K2. unfold set_rs_idx. pose proof (proj1 (proj1 (rw_rs _ Hm0))) as Hn.
  rewrite (proj2 (Z.ltb_ge (n_rs_seq m0) 0)) by lia. destruct (_ || _) eqn:Eb; cbn [rs_idx set_rs].
  - apply orb_true_iff in Eb as [?%Z.ltb_lt|?%Z.leb_le]; [lia|]. rewrite (lookup_ge_None_2 (rs_idx m0) d) by lia. split; [by destruct (_ =? _)%Z|done].
  - rewrite Nat2Z.id. apply orb_false_iff in Eb as [_ ?%Z.leb_gt]. rewrite list_lookup_insert_eq by lia. split; [by destruct (_ =? _)%Z|]. intros y Hy. by rewrite list_lookup_insert_ne.
Qed.

(** The other sequences, when the rows staged are those of a cell that is none of theirs. *)
Lemma move_others m1 c T1 y : seq_restored d c m0 m1 -> y <> d ->
  (forall t j p r, t ∈ layer_tensors ly -> view m1 y = Some (j, p, r) -> tensor_row T1 t (seq_row m0 y j) = tensor_row T0 t (seq_row m0 y j)) -> seq_state ly m1 T1 y = seq_state ly m0 T0 y.
Proof.
  intros Hr Hy HT. unfold seq_state. rewrite <- (sr_others _ _ _ _ Hr y Hy). destruct (view m1 y) as [[[j p] r]|] eqn:Ev; [|done]. do 2 f_equal.
  apply list_fmap_ext. intros k t Ht%list_elem_of_lookup_2. unfold seq_row at 1. rewrite (proj2 (rs_of_reset m1 c Hr) y Hy). unfold sizeZ. rewrite (proj2 (proj2 (sr_kept _ _ _ _ Hr))). by apply (HT t j p r).
Qed.

Lemma rs_of_nonneg m1 y : rec_wf m1 -> (0 <= rs_of m1 y)%Z.
Proof.
  intros H1. unfold rs_of. destruct (_ =? _)%Z; [lia|]. pose proof (rw_rs _ H1) as [_ H]. rewrite Forall_forall in H. destruct (rs_idx m1 !! y) as [v|] eqn:E; [|simpl; lia].
  apply (H v). by eapply list_elem_of_lookup_2.
Qed.

Lemma read_move r : reader_at r (state_bytes ly (Z.of_nat x) m T) [] [] ->
  exists r1 r2 T' m' n, rec_state_read ly (Z.of_nat d) flags (r, m0) = (Ok tt, (r1, set_n n m0)) /\ rd_left r1 = 0 /\ commit r1 T0 (set_n n m0) = Ok (r2, T', m') /\ rec_wf m' /\
    seq_state ly m' T' d = seq_state ly m T x /\ forall y, y <> d -> seq_state ly m' T' y = seq_state ly m0 T0 y.
Proof.
  intros Hr. destruct (view m x) as [[[j p] q]|] eqn:Ev.
  - rewrite (state_bytes_one ly m x T j p q Hm Hs Ev) in Hr. destruct (io_read_u32 r m0 _ _ _ _ Hr) as (r0 & E0 & Hr0); [unfold UINT32_MAX; lia|].
    pose proof Ev as (Et & Ep & _)%view_Some. apply (lk_iff _ (rw_links _ Hm)) in Et as Hin.
    assert (0 <= p <= INT32_MAX)%Z as Hp by (destruct (rw_cells _ Hm j) as (_ & H & _); subst p; apply H; intros E; rewrite E in Hin; set_solver).
    destruct (read_seq_one ly m0 d Hm0 Hd Hpos Hfree p r0 _ [] [] Hp Hr0) as (r1 & m1 & E1 & Hres & Hr1). destruct (sr_seq _ _ _ _ Hres) as (h & Eh & Hh & Evd & Ei).
    assert (forall t, t ∈ layer_tensors ly -> length (tensor_row T t (seq_row m x j)) = Z.to_nat (rt_row t)) as Hlen.
    { intros t Ht. destruct (chosen_view ly m T Hm Hs Hly x j p q Ev) as (i & Hi & _ & _ & <-). apply (tensor_row_length ly m T Hm Hs Hly); [done|by eapply list_elem_of_lookup_2]. }
    destruct (move_data 1 h (fun t => tensor_row T t (seq_row m x j)) r r0 r1 m1 _ E0 E1 Hres Eh) as (r2 & r3 & n & E2 & El & E3); [lia|intros t Ht; rewrite Hlen by done; lia|done|].
    assert (forall t, t ∈ layer_tensors ly -> length (tensor_row T t (seq_row m x j)) = 1 * Z.to_nat (rt_row t)) as Hlen1 by (intros t Ht; rewrite Hlen by done; lia).
    eexists r2, r3, _, m1, n. split; [done|]. split; [done|]. split; [done|]. split; [apply Hres|]. pose proof (proj1 (proj1 (rw_rs _ Hm0))) as Hn. split.
    + unfold seq_state. rewrite Evd, Ev. do 2 f_equal. apply list_fmap_ext. intros k t Ht%list_elem_of_lookup_2. assert (seq_row m1 d h = Z.of_nat (h + 0)) as -> by (unfold seq_row; rewrite (proj1 (rs_of_reset m1 _ Hres)); lia). apply (staged_row ly m0 T0 Hly0 Hn 1 h ltac:(lia) _ [tensor_row T t (seq_row m x j)] t 0); [done|done|cbn [concat]; by rewrite app_nil_r|by constructor; [apply Hlen|]|done|lia].
    + intros y Hy. apply (move_others m1 _ _ y Hres Hy). intros t k p' q' Ht Evy. apply (staged_row_other ly m0 T0 Hly0 1 h ltac:(lia)); [done|done| |].
      * pose proof (rs_of_nonneg m0 y Hm0). unfold seq_row, sizeZ. lia.
      * pose proof (rs_of_nonneg m0 y Hm0) as H0. pose proof Evy as (Etk & _)%view_Some. apply (lk_iff _ (rw_links _ (sr_wf _ _ _ _ Hres))) in Etk. pose proof (ids_lt _ _ _ Etk) as Hk.
        assert (k <> h) by (intros ->; rewrite Ei in Etk; apply elem_of_singleton in Etk; lia). change (length (r_cells m1)) with (r_size m1) in Hk. rewrite (proj2 (proj2 (sr_kept _ _ _ _ Hres))) in Hk.
        unfold seq_row, sizeZ. destruct (decide (rs_of m0 y = 0)%Z) as [->|]; [lia|]. nia.
  - rewrite (state_bytes_none ly m x T Hm Ev) in Hr. destruct (io_read_u32 r m0 _ _ _ _ Hr) as (r0 & E0 & Hr0); [unfold UINT32_MAX; lia|].
    destruct (read_seq_none ly m0 d Hm0 Hd Hpos Hfree r0) as (m1 & E1 & Hres). pose proof (rw_head _ (sr_wf _ _ _ _ Hres)) as Hh. destruct (sr_kept _ _ _ _ Hres) as (K1 & K2 & K3). unfold sizeZ in Hh.
    destruct (move_data 0 (Z.to_nat (r_head m1)) (fun _ => []) r r0 r0 m1 _ E0 E1 Hres) as (r2 & r3 & n & E2 & El & E3); [lia|lia|done|done|].
    eexists r2, r3, _, m1, n. split; [done|]. split; [done|]. split; [done|]. split; [apply Hres|]. split.
    + unfold seq_state. rewrite Ev. by rewrite (sr_seq _ _ _ _ Hres).
    + intros y Hy. by apply (move_others m1 _ _ y Hres Hy).
Qed.
End move.
