(* ===== verification/RecurrentRefuse.v ===== *)
(** * State files of the recurrent memory: what a read leaves alone

    Whatever the bytes are: a read that is refused leaves the memory as it was, and nothing
    is staged that a commit would carry out. *)

From S2P Require Import KvCells BatchInit.
From S2P Require Export RecurrentSeqState.
Open Scope nat_scope.

Lemma tracks_mem {A} (f : llama_memory_recurrent -> outcome (A * llama_memory_recurrent)) : tracks reads_on (on_mem f).
Proof. intros [r m] res s' H. unfold on_mem in H. cbn [fst snd] in H. destruct (f m) as [[a m']|e]; injection H as <- <-; unfold reads_on; reflexivity. Qed.

Lemma tracks_get : tracks reads_only get_mem.
Proof. intros s res s' [= <- <-]. reflexivity. Qed.

Lemma tracks_get_on : tracks reads_on get_mem.
Proof. apply tracks_weaken, tracks_get. Qed.

#[export] Hint Resolve tracks_mem tracks_get tracks_get_on : tracks.

Lemma read_positions_on n pos : tracks reads_on (read_positions n pos).
Proof. revert pos. induction n as [|n IH]; intros pos; cbn [read_positions]; track. Qed.

Lemma state_read_meta_on ly count seq_id : tracks reads_on (state_read_meta ly count seq_id).
Proof.
  unfold state_read_meta, read_seq_meta, read_all_meta, read_cell, read_id. track. apply read_positions_on.
Qed.

Lemma state_read_data_only ly count head : tracks reads_only (state_read_data ly count head).
Proof. unfold state_read_data, read_layer. track. Qed.

(** ** A whole read *)

(** All members but the number of cells of the last ubatch, which a read does not put back. *)
Definition metadata (m : llama_memory_recurrent) : Z * Z * list Z * Z * list mem_cell := (r_head m, r_used m, rs_idx m, rs_z m, r_cells m).

Lemma metadata_put_back old m : metadata (put_back old m) = metadata old.
Proof. done. Qed.

Lemma rec_state_read_keeps ly seq_id flags r m res r' m' : rec_state_read ly seq_id flags (r, m) = (res, (r', m')) -> (forall e, res = Err e -> e = RuntimeError) ->
  metadata m' = metadata m /\ rd_read r' + rd_left r' = rd_read r + rd_left r /\ rd_read r <= rd_read r' /\
  (res = Ok tt -> exists new, rd_callbacks r' = rd_callbacks r ++ [install_new new]).
Proof.
  intros H He. unfold rec_state_read in H. unfold mbind, stx_bind in H.
  pose proof (tracks_io read_u32 (fun (r : llama_io_read_host llama_memory_recurrent) a r' => read_u32_moved r a r')) as Tio. destruct (on_io read_u32 (r, m)) as [[count|e] [r0 m0]] eqn:E0; destruct (Tio _ _ _ E0) as [[V1 V2 V3] Em]; cbn [fst snd] in *; subst m0.
  2: { injection H as <- <- <-. done. }
  cbn [get_mem fst snd] in H. pose proof (state_read_meta_on ly count seq_id (r0, m)) as Tm.
  destruct (state_read_meta ly count seq_id (r0, m)) as [[b|e] [r1 m1]] eqn:E1; destruct (Tm _ _ eq_refl) as [W1 W2 W3]; cbn [fst snd] in *.
  2: { assert (e = RuntimeError) as -> by (apply He; destruct e; by injection H). injection H as <- <- <-. split; [done|]. split; [lia|]. split; [lia|done]. }
  unfold on_mem at 1 in H. cbn [fst snd] in H. set (new := if _ && _ then _ else m1) in H. cbn [get_mem on_mem fst snd] in H.
  assert (forall b' s, (if (b : bool) then match state_read_data ly count (r_head new) (r1, put_back m new) with (Err RuntimeError, s) => (Ok false, s) | x => x end else (Ok false, (r1, put_back m new))) = (b', s) -> 
    reads_only (r1, put_back m new) s) as Hd.
  { intros b' s E. destruct b; [|injection E as <- <-; reflexivity]. destruct (state_read_data ly count (r_head new) (r1, put_back m new)) as [rb sb] eqn:Ed.
    apply (state_read_data_only ly count (r_head new)) in Ed. destruct rb as [?|[]]; injection E as <- <-; exact Ed. }
  destruct (if (b : bool) then _ else _) as [[b'|e] [r2 m2]] eqn:E2; destruct (Hd _ _ eq_refl) as [[X1 X2 X3] Em2]; cbn [fst snd] in *; subst m2.
  2: { injection H as <- <- <-. split; [done|]. split; [lia|]. split; [lia|done]. }
  destruct b'; cbn in H; injection H as <- <- <-; (split; [done|]; cbn; split; [lia|]; split; [lia|]); [|done].
  intros _. exists new. congruence.
Qed.
