(* ===== verification/RecurrentStateProps.v ===== *)
(** * State files of the recurrent memory: properties

    Writers agree on what is written, states survive a round trip, sequences can be moved,
    and a refused state changes nothing.  Observations at the end compute what the code does
    on states it did not write itself. *)

From S2P Require Import KvCells BatchInit.
From S2P Require Export RecurrentRefuse RecurrentDemo.
Open Scope nat_scope.

Notation seq_get_size ly := (@state_seq_get_size llama_memory_recurrent (recurrent_state ly)).
Notation seq_get_data ly := (@state_seq_get_data llama_memory_recurrent (recurrent_state ly)).
Notation seq_set_data ly := (@state_seq_set_data llama_memory_recurrent (recurrent_state ly)).
Notation seq_prepare_data ly := (@state_seq_prepare_data llama_memory_recurrent (recurrent_state ly)).

(** ** Writing a state *)

Section write.
Context (get_tensor_2d : option (list Z -> list Z -> nat -> nat -> nat -> nat -> nat -> nat -> outcome (list Z))).
Context (Hget : forall get, get_tensor_2d = Some get -> transfers get).

Section state.
Context (ly : rs_layers) (seq_id flags : Z) (m : llama_memory_recurrent) (T : tensors).
Context (Hm : rec_wf m) (Hs : saveable m) (Hly : layers_ok ly m T) (Hf : on_device flags = false).

Lemma writes_state : writes_data get_tensor_2d T (rec_state_write ly seq_id flags m) (rec_state_write ly seq_id flags m) (state_bytes ly seq_id m T).
Proof.
  destruct (rec_state_write_ok ly seq_id flags m Hm Hs) as (ranges & Hr & Hw); [apply (lo_len _ _ _ Hly)..|done|].
  rewrite <- (state_data ly m T Hm Hs Hly seq_id ranges Hr). apply (writes_ops get_tensor_2d Hget); [intros io; apply Hw..|]. by apply (state_fits ly m T Hm Hs Hly seq_id ranges Hr).
Qed.

Definition seq_bytes : list Z := seq_file seq_id (state_bytes ly seq_id m T).

Lemma seq_ops : exists ops, (forall W (HW : IoWrite W) (io : W), rec_state_write ly seq_id flags m io = foldM run_op ops io) /\ Forall (op_fits T) ops /\ seq_bytes = seq_file seq_id (ops_data T ops).
Proof.
  destruct (rec_state_write_ok ly seq_id flags m Hm Hs) as (ranges & Hr & Hw); [apply (lo_len _ _ _ Hly)..|done|].
  exists (state_ops ly seq_id m ranges). split; [intros W HW io; apply Hw|]. split; [by apply (state_fits ly m T Hm Hs Hly seq_id ranges Hr)|]. unfold seq_bytes. by rewrite (state_data ly m T Hm Hs Hly seq_id ranges Hr).
Qed.

(** The functions of the context. *)
Lemma can_save n_seq_max : seq_ok n_seq_max seq_id true = true -> seq_ok n_seq_max seq_id (0 <=? seq_id)%Z = true.
Proof. unfold seq_ok. destruct (Z.leb_spec 0 seq_id) as [|Hlt]; [done|]. by rewrite (proj2 (Z.ltb_lt _ _) Hlt). Qed.

Lemma seq_size_ok n_seq_max : seq_ok n_seq_max seq_id true = true -> seq_get_size ly n_seq_max seq_id flags m = Ok (length seq_bytes).
Proof. intros Hok. destruct seq_ops as (ops & Hw & Hfit & ->). exact (file_size_ok get_tensor_2d Hget (H := recurrent_state ly) seq_id flags m T ops Hw Hfit Hf n_seq_max (can_save _ Hok)). Qed.

Lemma seq_data_ok n_seq_max mem len : seq_ok n_seq_max seq_id true = true -> len <= length mem ->
  seq_get_data ly get_tensor_2d n_seq_max seq_id flags true T m mem len = Ok (if len <? length seq_bytes then (0, None) else (length seq_bytes, Some (seq_bytes ++ drop (length seq_bytes) mem))).
Proof. intros Hok Hl. destruct seq_ops as (ops & Hw & Hfit & ->). exact (file_data_ok get_tensor_2d Hget (H := recurrent_state ly) seq_id flags m T ops Hw Hfit n_seq_max mem len (can_save _ Hok) Hl). Qed.
End state.
End write.

(** ** Reading the state of a sequence *)

(** Whatever the input is. *)
Lemma seq_read_data_keeps ly seq_id flags r m res r' m' : @seq_read_data _ (recurrent_state ly) seq_id flags (r, m) = (res, (r', m')) -> (forall e, res = Err e -> e = RuntimeError) ->
  metadata m' = metadata m /\ forall n, res = Ok n -> rd_read r + 4 <= n.
Proof.
  unfold seq_read_data. cbv zeta. intros H He. unfold mbind at 1, stx_bind at 1 in H. cbn [fst snd] in H.
  destruct (read_u32 r) as [[magic r1]|e] eqn:E1; [|by injection H as <- <- <-]. destruct (read_u32_moved4 _ _ _ E1) as [_ Er1].
  unfold mbind at 1, stx_bind at 1 in H. destruct (magic =? io_magic)%Z; [|by injection H as <- <- <-]. cbn [require_ stx_lift] in H.
  unfold mbind at 1, stx_bind at 1 in H. cbn [fst snd] in H. destruct (read_i32 r1) as [[x r2]|e] eqn:E2; [|by injection H as <- <- <-].
  pose proof (mv_read _ _ (read_i32_moved _ _ _ E2)) as Hr2. unfold mbind at 1, stx_bind at 1 in H. change (state_read seq_id flags) with (rec_state_read ly seq_id flags) in H.
  destruct (rec_state_read ly seq_id flags (r2, m)) as [a [r3 m3]] eqn:E3. destruct a as [[]|e].
  - injection H as <- <- <-. destruct (rec_state_read_keeps _ _ _ _ _ _ _ _ E3) as (Hm & _ & Hr3 & _); [done|]. split; [done|]. intros n [= <-]. cbn [fst]. lia.
  - injection H as <- <- <-. destruct (rec_state_read_keeps _ _ _ _ _ _ _ _ E3) as (Hm & _); [intros e' [= <-]; by apply He|]. done.
Qed.

(** ** A state used in witnesses

    Sequence 0 has a rollback by one token pending, sequences 2 and 3 share a cell; the
    second layer has no state. *)

Definition copy_2d (data mem : list Z) (p offset size n st sd : nat) : outcome (list Z) :=
  Ok (foldl (fun mem i => patch (p + i * sd, slice_bytes data (offset + i * st) size) mem) mem (seq 0 n)).

Lemma copy_2d_transfers get : Some copy_2d = Some get -> transfers get.
Proof. intros [= <-] data mem p o n k st sd _ _. done. Qed.

Definition st_mem : llama_memory_recurrent := match seq_rm 0 4 (-1) rec_demo with Ok (_, m) => m | Err _ => rec_demo end.
Definition st_layers : rs_layers := mk_layers 2 [Some (mk_rs_tensor 0 0 2); None] [Some (mk_rs_tensor 1 1 3); None] 1.
Definition st_T : tensors := [Z.of_nat <$> seq 0 24; Z.of_nat <$> seq 100 36].
Definition st_T0 : tensors := [replicate 24 0%Z; replicate 36 0%Z].

Lemma st_mem_wf : rec_wf st_mem.
Proof. destruct (seq_rm_ok rec_demo 0 4 (-1) rec_demo_wf) as (m & E & H & _); [left; lia|]. unfold st_mem. by rewrite E. Qed.

Lemma st_mem_saveable : saveable st_mem.
Proof.
  assert (r_size st_mem = 4) as Es by (vm_compute; reflexivity). split; [rewrite Es; vm_compute; lia| |vm_compute; reflexivity].
  intros j y z Hy Hz. assert (forall q, Z.of_nat q ∈ ids (r_cells st_mem) j -> q < 4) as Hlt.
  { intros q Hq. destruct (linked_id _ _ _ (rw_links _ st_mem_wf) Hq) as (q' & E & _ & H & _). unfold r_size in Es. lia. }
  pose proof (Hlt y Hy). pose proof (Hlt z Hz). apply (lk_iff _ (rw_links _ st_mem_wf)) in Hy, Hz. rewrite <- Hz in Hy. clear Hlt Hz j.
  destruct y as [|[|[|[|y]]]]; [..|lia]; destruct z as [|[|[|[|z]]]]; try lia; vm_compute in Hy; try discriminate Hy; vm_compute; reflexivity.
Qed.

Lemma st_layers_ok m l0 l1 : ((1 + n_rs_seq m) * sizeZ m)%Z = 12%Z -> length l0 = 24 -> length l1 = 36 -> layers_ok st_layers m [l0; l1].
Proof.
  intros Hn H0 H1. assert (layer_tensors st_layers = [mk_rs_tensor 0 0 2; mk_rs_tensor 1 1 3]) as E by done. split; rewrite ?E, ?Hn.
  - split; [done|]. split; [done|]. simpl. unfold UINT32_MAX. lia.
  - intros t Ht. apply elem_of_cons in Ht as [->|Ht%list_elem_of_singleton]; [|subst t]; cbn; unfold INT32_MIN, INT32_MAX, UINT64_MAX; (split; [lia|]; split; [lia|]; split; [lia|]; split; [lia|]).
    + exists l0. split; [done|]. lia.
    + exists l1. split; [done|]. lia.
  - apply (bool_decide_unpack _). vm_compute. exact I.
Qed.

(** ** Properties *)

(** C28: Whatever is written, in whatever order: the dummy writer counts the bytes the host
    writer produces; a buffer that is large enough holds, when the host writer is gone (the
    tensor slices sorted, grouped and copied in runs by the backend), the data in the order
    in which they were written, followed by what was there; a smaller one is refused. *)
Theorem host_writer_writes get_tensor_2d T ops mem len : (forall get, get_tensor_2d = Some get -> transfers get) -> Forall (op_fits T) ops -> len <= length mem ->
  let bytes := ops_data T ops in
  foldM run_op ops (mk_dummy false 0) = Ok (mk_dummy false (length bytes)) /\
  (length bytes <= len -> exists w, foldM run_op ops (write_host mem len) = Ok w /\ io_n_bytes w = length bytes /\ flush get_tensor_2d T w = Ok (bytes ++ drop (length bytes) mem)) /\
  (len < length bytes -> foldM run_op ops (write_host mem len) = Err RuntimeError).
Proof.
  intros Hget Hfit Hl. destruct (writes_ops get_tensor_2d Hget T (foldM run_op ops) (foldM run_op ops) ops) as (H1 & H2 & H3); [done..|].
  split; [done|]. split; [by apply H2|by apply H3].
Qed.

(** Three slices of one tensor in a run, written out of order with other data between. *)
Definition st_ops : list io_op := [WriteTensor 0 8 2; WriteBytes [7]%Z; WriteTensor 1 0 3; WriteTensor 0 0 2; WriteBytes [8; 9]%Z; WriteTensor 0 4 2; WriteBytes [1; 2]%Z; WriteTensor 0 8 2].

Lemma host_writer_writes_witness : exists w, foldM run_op st_ops (write_host (replicate 20 0%Z) 18) = Ok w /\
  flush (Some copy_2d) st_T w = Ok ([8; 9; 7; 100; 101; 102; 0; 1; 8; 9; 4; 5; 1; 2; 8; 9]%Z ++ replicate 4 0%Z).
Proof.
  destruct (host_writer_writes (Some copy_2d) st_T st_ops (replicate 20 0%Z) 18) as (_ & H & _).
  - intros get. apply copy_2d_transfers.
  - repeat constructor; simpl; eexists; (split; [reflexivity|vm_compute; lia]).
  - simpl. lia.
  - destruct H as (w & E1 & _ & E2); [vm_compute; lia|]. exists w. split; [exact E1|]. rewrite E2. vm_compute. reflexivity.
Defined.

(** C26: A memory written as a whole and read into another one (at least as large, of the
    same model, whatever it holds) is restored: the buffer is as large as the dummy writer
    says, the read leaves the memory alone until the commit, and then every sequence has
    the position and, in every layer, the state row it had, pending rollbacks included. *)
Theorem state_restores ly get_tensor_2d m m0 T T0 : (forall get, get_tensor_2d = Some get -> transfers get) ->
  rec_wf m -> saveable m -> layers_ok ly m T -> rec_wf m0 -> layers_ok ly m0 T0 -> r_size m <= r_size m0 <= length (rs_idx m0) ->
  exists n buf, rec_state_write ly (-1) 0 m (mk_dummy false 0) = Ok (mk_dummy false n) /\ length buf = n /\
    (forall mem len, n <= len <= length mem -> exists w, rec_state_write ly (-1) 0 m (write_host mem len) = Ok w /\ flush get_tensor_2d T w = Ok (buf ++ drop n mem)) /\
    forall rest, exists r1 r2 T' m', rec_state_read ly (-1) 0 (read_host (buf ++ rest) n, m0) = (Ok tt, (r1, m0)) /\ commit r1 T0 m0 = Ok (r2, T', m') /\
      rec_wf m' /\ forall y, seq_state ly m' T' y = seq_state ly m T y.
Proof.
  intros Hget Hm Hs Hly Hm0 Hly0 [Hsz Hrs]. destruct (writes_state get_tensor_2d Hget ly (-1) 0 m T Hm Hs Hly eq_refl) as (H1 & H2 & _).
  eexists _, (state_bytes ly (-1) m T). split; [exact H1|]. split; [done|]. split.
  - intros mem len [Hl1 Hl2]. destruct (H2 mem len Hl2 Hl1) as (w & E1 & _ & E2). by exists w.
  - intros rest. apply (read_all_state ly 0 m m0 T T0 Hm Hs Hly Hm0 Hsz Hrs Hly0).
    rewrite <- (take_app_length (state_bytes ly (-1) m T) rest) at 3. apply reader_start. rewrite length_app. lia.
Qed.

Lemma state_restores_witness : exists n buf, n = 74 /\ rec_state_write st_layers (-1) 0 st_mem (mk_dummy false 0) = Ok (mk_dummy false n) /\
  exists r1 r2 T' m', rec_state_read st_layers (-1) 0 (read_host (buf ++ [5]%Z) n, rec_demo_new) = (Ok tt, (r1, rec_demo_new)) /\ commit r1 st_T0 rec_demo_new = Ok (r2, T', m') /\
    seq_state st_layers m' T' 0 = Some (3%Z, [[8; 9]; [112; 113; 114]]%Z) /\ seq_state st_layers m' T' 3 = Some (4%Z, [[2; 3]; [103; 104; 105]]%Z).
Proof.
  destruct (state_restores st_layers (Some copy_2d) st_mem rec_demo_new st_T st_T0) as (n & buf & H1 & _ & _ & H2).
  - intros get. apply copy_2d_transfers.
  - exact st_mem_wf.
  - exact st_mem_saveable.
  - apply st_layers_ok; vm_compute; reflexivity.
  - apply new_recurrent_wf; unfold INT32_MAX; lia.
  - apply st_layers_ok; vm_compute; reflexivity.
  - vm_compute. lia.
  - exists n, buf. split; [|split; [exact H1|]].
    + assert (rec_state_write st_layers (-1) 0 st_mem (mk_dummy false 0) = Ok (mk_dummy false 74)) as E by (vm_compute; reflexivity). rewrite E in H1. injection H1 as <-. reflexivity.
    + destruct (H2 [5]%Z) as (r1 & r2 & T' & m' & E1 & E2 & _ & H). exists r1, r2, T', m'. split; [exact E1|]. split; [exact E2|]. rewrite !H. split; vm_compute; reflexivity.
Defined.

(** C25: A sequence can be moved through the sequence-state functions of a context: the size
    reported is the size written; a buffer of that size read into sequence [d] of any
    memory of the same model consumes all of it, and gives [d] the position and the state
    rows the sequence had (or nothing, when it was empty), and every other sequence keeps
    what it had; preparing the read and committing the plan does the same in two steps. *)
Theorem sequence_state_moves ly get_tensor_2d n_seq_max n_seq_max0 m m0 T T0 x d :
  (forall get, get_tensor_2d = Some get -> transfers get) -> rec_wf m -> saveable m -> layers_ok ly m T -> rec_wf m0 -> layers_ok ly m0 T0 ->
  (Z.of_nat x < n_seq_max)%Z -> (Z.of_nat d < n_seq_max0)%Z -> d < r_size m0 -> 0 < l_n_pos_per_embd ly ->
  (forall j p r, view m0 d = Some (j, p, r) -> (p < INT32_MAX)%Z) ->
  exists n buf, seq_get_size ly n_seq_max (Z.of_nat x) 0 m = Ok n /\ length buf = n /\
    (forall mem len, n <= len <= length mem -> seq_get_data ly get_tensor_2d n_seq_max (Z.of_nat x) 0 true T m mem len = Ok (n, Some (buf ++ drop n mem))) /\
    forall rest, exists T' m', seq_set_data ly n_seq_max0 (Z.of_nat d) 0 (buf ++ rest) n T0 m0 = Ok (n, T', m') /\
      (exists plan m1, seq_prepare_data ly n_seq_max0 (Z.of_nat d) 0 (buf ++ rest) n m0 = Ok (Some plan, m1) /\ metadata m1 = metadata m0 /\
        restore_plan_commit plan T0 m1 = Ok (n, mk_plan None n, T', m')) /\ rec_wf m' /\
      seq_state ly m' T' d = seq_state ly m T x /\ forall y, y <> d -> seq_state ly m' T' y = seq_state ly m0 T0 y.
Proof.
  intros Hget Hm Hs Hly Hm0 Hly0 Hx Hd Hd0 Hpos Hfree. assert (forall z k, (Z.of_nat z < k)%Z -> seq_ok k (Z.of_nat z) true = true) as Hok.
  { intros z k Hz. unfold seq_ok. rewrite (proj2 (Z.ltb_ge _ _)), (proj2 (Z.leb_gt _ _)) by lia. done. }
  pose proof (seq_size_ok get_tensor_2d Hget ly (Z.of_nat x) 0 m T Hm Hs Hly eq_refl n_seq_max (Hok x _ Hx)) as Hsize.
  eexists _, (seq_bytes ly (Z.of_nat x) m T). split; [exact Hsize|]. split; [done|]. split.
  - intros mem len [Hl1 Hl2]. rewrite (seq_data_ok get_tensor_2d Hget ly (Z.of_nat x) 0 m T Hm Hs Hly eq_refl) by (done || lia || by apply Hok).
    by rewrite (proj2 (Nat.ltb_ge _ _) Hl1).
  - intros rest. set (buf := seq_bytes _ _ _ _). assert (reader_at (read_host (buf ++ rest) (length buf)) buf [] []) as Hr.
    { rewrite <- (take_app_length buf rest) at 3. apply reader_start. rewrite length_app. lia. }
    destruct (@load_file _ (recurrent_state ly) (Z.of_nat d) 0 _ m0 _ _ _ _ Hr) as (r0 & Hr0 & Hmv & E0). change (state_read (Z.of_nat d) 0) with (rec_state_read ly (Z.of_nat d) 0) in E0.
    destruct (read_move ly 0 m m0 T T0 x d Hm Hs Hly Hm0 Hd0 Hly0 Hpos Hfree r0 Hr0) as (r1 & r2 & T' & m' & n & E1 & El & E2 & Hm' & Hsd & Hso).
    destruct (rec_state_read_keeps _ _ _ _ _ _ _ _ E1) as (_ & Esum & _); [done|]. pose proof (mv_sum _ _ Hmv) as Es. cbn [rd_read rd_left read_host] in Es.
    assert (rd_read r1 = length buf) as En by lia. rewrite E1 in E0. cbn [fst] in E0. rewrite En in E0.
    exists T', m'. split; [|split; [|done]]; unfold state_seq_set_data, state_seq_prepare_data; change (state_seq_can_restore (Z.of_nat d) 0 m0) with (0 <=? Z.of_nat d)%Z;
      rewrite (proj2 (Z.leb_le 0 (Z.of_nat d))), (Hok d _ Hd) by lia; cbn [negb orb].
    + rewrite E0. by rewrite E2.
    + eexists (mk_plan (Some r1) (length buf)), (set_n n m0). split; [|split; [done|]].
      * assert (length buf =? 0 = false) as -> by (apply Nat.eqb_neq; unfold buf, seq_bytes, seq_file; rewrite length_app, le_bytes_length; lia). cbn [orb on_device]. rewrite E0, Nat.eqb_refl. done.
      * unfold restore_plan_commit. cbn [rp_io rp_bytes]. by rewrite E2.
Qed.

Lemma sequence_state_moves_witness : exists n buf T' m', n = 57 /\ seq_get_size st_layers 4 0 0 st_mem = Ok n /\
  seq_set_data st_layers 4 3 0 (buf ++ []) n st_T0 rec_demo = Ok (n, T', m') /\
  seq_state st_layers m' T' 3 = Some (3%Z, [[8; 9]; [112; 113; 114]]%Z) /\ seq_state st_layers m' T' 2 = Some (4%Z, [[0; 0]; [0; 0; 0]]%Z).
Proof.
  destruct (sequence_state_moves st_layers (Some copy_2d) 4 4 st_mem rec_demo st_T st_T0 0 3) as (n & buf & H1 & _ & _ & H2).
  - intros get. apply copy_2d_transfers.
  - exact st_mem_wf.
  - exact st_mem_saveable.
  - apply st_layers_ok; vm_compute; reflexivity.
  - exact rec_demo_wf.
  - apply st_layers_ok; vm_compute; reflexivity.
  - lia.
  - lia.
  - vm_compute. lia.
  - simpl. lia.
  - assert (view rec_demo 3 = Some (1, 4%Z, 1%Z)) as E by (vm_compute; reflexivity). rewrite E. intros j p r [= <- <- <-]. unfold INT32_MAX. lia.
  - destruct (H2 []) as (T' & m' & E1 & _ & _ & E2 & E3). exists n, buf, T', m'. split; [|split; [exact H1|split; [exact E1|]]].
    + assert (seq_get_size st_layers 4 0 0 st_mem = Ok 57) as E by (vm_compute; reflexivity). change (Z.of_nat 0) with 0%Z in H1. rewrite E in H1. injection H1 as <-. reflexivity.
    + rewrite E2, (E3 2) by lia. split; vm_compute; reflexivity.
Defined.

(** C29: A state that is refused (a wrong magic number, another model, cells that do not fit,
    a truncated buffer, whatever the bytes are) is reported as 0 bytes read, no tensor is
    changed, and the memory keeps its cells, head, count, rollback indices and zero row. *)
Theorem refused_state_changes_nothing ly n_seq_max seq_id flags src size T m T' m' :
  seq_set_data ly n_seq_max seq_id flags src size T m = Ok (0, T', m') -> T' = T /\ metadata m' = metadata m.
Proof.
  unfold state_seq_set_data. destruct (negb _); [by intros [= <- <-]|].
  destruct (@seq_read_data _ (recurrent_state ly) seq_id flags (read_host src size, m)) as [res [r1 m1]] eqn:E. intros H. destruct res as [n|e].
  - destruct (seq_read_data_keeps _ _ _ _ _ _ _ _ E) as [_ Hn]; [done|]. specialize (Hn n eq_refl). apply bind_Ok in H as (x & _ & H). injection H as -> _ _. simpl in Hn. lia.
  - destruct e; try done. injection H as <- <-. by destruct (seq_read_data_keeps _ _ _ _ _ _ _ _ E) as [Hm _]; [intros e [= <-]|].
Qed.

(** The last row of the second layer is missing: everything before it had been read. *)
Lemma refused_state_changes_nothing_witness : exists T' m', seq_set_data st_layers 4 3 0 (seq_bytes st_layers 0 st_mem st_T) 54 st_T0 rec_demo = Ok (0, T', m') /\
  T' = st_T0 /\ metadata m' = metadata rec_demo.
Proof.
  assert (exists m', seq_set_data st_layers 4 3 0 (seq_bytes st_layers 0 st_mem st_T) 54 st_T0 rec_demo = Ok (0, st_T0, m')) as [m' E] by (eexists; vm_compute; reflexivity).
  exists st_T0, m'. split; [exact E|]. exact (refused_state_changes_nothing st_layers 4 3 0 _ 54 st_T0 rec_demo st_T0 m' E).
Defined.

(** ** Observations *)

(** The count of cells of a single sequence is not bounded before a ubatch of that many
    tokens is placed: a state of one sequence with two cells fails an assertion. *)
Lemma two_cells_abort : exists s, rec_state_read st_layers 1 0 (read_host (le_bytes 4 2 ++ le_bytes 4 5 ++ le_bytes 4 0 ++ le_bytes 4 6 ++ le_bytes 4 0) 20, rec_demo_new) = (Err AssertFailed, s).
Proof. eexists. vm_compute. reflexivity. Qed.

(** A refused read of a sequence keeps the number of cells of the ubatch it had placed. *)
Lemma refused_read_changes_n : exists m', seq_set_data st_layers 4 3 0 (seq_bytes st_layers 0 st_mem st_T) 54 st_T0 rec_demo = Ok (0, st_T0, m') /\ r_n rec_demo = 2%Z /\ r_n m' = 1%Z.
Proof. eexists. split; [vm_compute; reflexivity|]. split; vm_compute; reflexivity. Qed.

(** A cell without sequences is accepted, and counted as used. *)
Lemma idle_cell_accepted : exists s m', rec_state_read (mk_layers 0 [] [] 1) (-1) 0 (read_host (le_bytes 4 1 ++ le_bytes 4 5 ++ le_bytes 4 0 ++ le_bytes 4 0 ++ le_bytes 4 0) 20, rec_demo_new) = (Ok tt, s) /\
  commit s.1 [] s.2 = Ok (StateIo.cancel s.1, [], m') /\ r_used m' = 1%Z /\ used_cells (r_cells m') = 0.
Proof. do 2 eexists. split; [vm_compute; reflexivity|]. split; [vm_compute; reflexivity|]. split; vm_compute; reflexivity. Qed.
