(* ===== verification/KvState.v ===== *)
(** * llama_kv_cache: state files ([state_write] and [state_read] of src/src/llama-kv-cache.cpp)

    What a cache without an exact tail writes: for every stream the number of the cells
    chosen, position and sequences of each, and their rows of every layer's tensors.
    Reading one sequence places its cells like a batch; reading everything fills the cells
    from the first on.  The cells are built on the live cache, the old ones put back, and
    the new ones installed at the commit.

    States with a frame of their own (caches with an exact tail, or asked for without one)
    are read and written by code that is an argument here. *)

From S2P Require Import KvCells Batch TailStore.
From S2P Require Export StateIo KvSlots.
Open Scope nat_scope.

(** ** Tensors of the layers *)

(** The tensors per stream, their types, [ggml_row_size] and [ggml_type_size]; a layer may
    be without values. *)
Record kv_layer := mk_kv_layer {
  k_stream : list nat;
  k_type : Z;
  k_size_row : Z;
  v_stream : list (option nat);
  v_type : Z;
  v_size_row : Z;
  v_size_el : Z;
  n_embd_v_gqa : Z
}.

Definition LLAMA_KV_TAIL_STATE_MAGIC : Z := 1280595531.

(** The cache, and whether its buffers have been filled with 0. *)
Record kv_io := mk_kv_io { io_cache : kv_cache; io_cleared : bool }.

(** ** Writing *)

(** The ranges closed so far, the number of cells, and where the open range begins. *)
Record kv_scan := mk_kv_scan { ks_ranges : list (nat * nat); ks_count : nat; ks_begin : nat }.

(** Whether a cell belongs to the state of [seq_id]. *)
Definition adds_cell (g : cache_cfg) (seq_id : Z) (c : kv_cells) (i : nat) : outcome bool :=
  e ← is_empty i c;
  if (e : bool) then Ok false else
  if (seq_id =? -1)%Z then Ok true else
  has ← seq_has i (Z.to_nat seq_id) c;
  if negb has then Ok false else
  p ← pos_get i c;
  hi ← KvCells.seq_pos_max (Z.to_nat seq_id) c;
  masked ← is_masked_swa (n_swa g) (swa_type g) p hi;
  Ok (negb masked).

Definition scan_kv_cell (g : cache_cfg) (seq_id : Z) (c : kv_cells) (x : kv_scan) (i : nat) : outcome kv_scan :=
  add ← adds_cell g seq_id c i;
  if (add : bool) then Ok (mk_kv_scan (ks_ranges x) (ks_count x + 1) (if ks_begin x =? cells_size c then i else ks_begin x))
  else if negb (ks_begin x =? cells_size c)
  then Ok (mk_kv_scan (ks_ranges x ++ [(ks_begin x, i)]) (ks_count x) (cells_size c))
  else Ok x.

Definition scan_kv_cells (g : cache_cfg) (seq_id : Z) (c : kv_cells) : outcome kv_scan :=
  x ← foldM (scan_kv_cell g seq_id c) (seq 0 (cells_size c)) (mk_kv_scan [] 0 (cells_size c));
  Ok (if negb (ks_begin x =? cells_size c) then mk_kv_scan (ks_ranges x ++ [(ks_begin x, cells_size c)]) (ks_count x) (ks_begin x) else x).

(** The sequences written for a cell. *)
Definition state_seq_ids (g : cache_cfg) (seq_id : Z) (c : kv_cells) (i : nat) : outcome (list Z) :=
  foldM (fun ids cur => let cur := Z.of_nat cur in
    if (cur =? seq_id)%Z || (seq_id =? -1)%Z then
      has ← seq_has i (Z.to_nat cur) c; Ok (if (has : bool) then ids ++ [cur] else ids)
    else Ok ids) (seq 0 (n_seq_max g)) [].

Definition write_kv_cell {W} `{IoWrite W} (g : cache_cfg) (seq_id : Z) (c : kv_cells) (io : W) (i : nat) : outcome W :=
  seq_ids ← state_seq_ids g seq_id c i;
  pos ← pos_get i c;
  io ← write_u32 pos io;
  io ← write_u32 (Z.of_nat (length seq_ids)) io;
  io ← (if 1 <? n_pos_per_embd g
        then ext ← ext_get i c; io_write (le_bytes 4 (ext_x ext) ++ le_bytes 4 (ext_y ext)) io
        else Ok io);
  foldM (fun io q => write_u32 q io) seq_ids io.

Definition state_write_meta {W} `{IoWrite W} (g : cache_cfg) (ranges : list (nat * nat)) (seq_id : Z) (c : kv_cells) (io : W) : outcome W :=
  foldM (fun io r => foldM (write_kv_cell g seq_id c) (seq r.1 (r.2 - r.1)) io) ranges io.

(** Slices of a width for ranges of cells, from a base on. *)
Definition write_rows {W} `{IoWrite W} (t : nat) (row : Z) (ranges : list (nat * nat)) (io : W) : outcome W :=
  foldM (fun io r =>
    let range_size := Z.of_nat (r.2 - r.1) in
    io_write_tensor t (Z.to_nat (u64 (Z.of_nat r.1 * row))) (Z.to_nat (u64 (range_size * row))) io) ranges io.

Definition write_keys {W} `{IoWrite W} (st : nat) (ranges : list (nat * nat)) (io : W) (layer : kv_layer) : outcome W :=
  k ← vec_get (k_stream layer) st;
  io ← write_u32 (k_type layer) io;
  io ← write_u64 (k_size_row layer) io;
  write_rows k (k_size_row layer) ranges io.

Definition write_values {W} `{IoWrite W} (st : nat) (ranges : list (nat * nat)) (io : W) (layer : kv_layer) : outcome W :=
  v ← vec_get (v_stream layer) st;
  match v with
  | None => Ok io
  | Some v =>
      io ← write_u32 (v_type layer) io;
      io ← write_u64 (v_size_row layer) io;
      write_rows v (v_size_row layer) ranges io
  end.

(** The offsets are products of 32-bit integers. *)
Definition write_values_trans {W} `{IoWrite W} (kv_size st : nat) (ranges : list (nat * nat)) (io : W) (layer : kv_layer) : outcome W :=
  v ← vec_get (v_stream layer) st;
  match v with
  | None => Ok io
  | Some v =>
      io ← write_u32 (v_type layer) io;
      io ← write_u32 (v_size_el layer) io;
      io ← write_u32 (n_embd_v_gqa layer) io;
      foldM (fun io j =>
        foldM (fun io r =>
          let range_size := Z.of_nat (r.2 - r.1) in
          let src_offset := u32 (u32 (Z.of_nat r.1 + u32 (Z.of_nat j * Z.of_nat kv_size)) * v_size_el layer) in
          io_write_tensor v (Z.to_nat src_offset) (Z.to_nat (u64 (range_size * v_size_el layer))) io) ranges io)
        (seq 0 (Z.to_nat (n_embd_v_gqa layer))) io
  end.

Section layers.
Context (layers : list kv_layer) (v_trans : bool).

Definition state_write_data {W} `{IoWrite W} (ranges : list (nat * nat)) (st : nat) (c : kv_cells) (io : W) : outcome W :=
  io ← write_u32 (Z.b2z v_trans) io;
  io ← write_u32 (Z.of_nat (length layers)) io;
  io ← foldM (write_keys st ranges) layers io;
  if negb v_trans then foldM (write_values st ranges) layers io
  else foldM (write_values_trans (cells_size c) st ranges) layers io.

Definition write_stream {W} `{IoWrite W} (seq_id : Z) (k : kv_cache) (io : W) (st : nat) : outcome W :=
  c ← cells_of st k;
  x ← scan_kv_cells (k_cfg k) seq_id c;
  _ ← assert_ (ks_count x =? sum_list ((fun r => r.2 - r.1) <$> ks_ranges x));
  io ← write_u32 (Z.of_nat (ks_count x)) io;
  if ks_count x =? 0 then Ok io else
  io ← state_write_meta (k_cfg k) (ks_ranges x) seq_id c io;
  state_write_data (ks_ranges x) st c io.

Definition state_write_body {W} `{IoWrite W} (seq_id : Z) (k : kv_cache) (io : W) : outcome W :=
  io ← write_u32 (Z.of_nat (n_stream (k_cfg k))) io;
  foldM (write_stream seq_id k) (seq 0 (n_stream (k_cfg k))) io.

(** ** Reading *)

Notation rd_kv := (llama_io_read_host kv_io * kv_io)%type.

(** What is done to the cache survives an exception. *)
Definition on_cache {A} (m : stx kv_cache A) : stx rd_kv A := fun s =>
  let '(r, k) := m (io_cache s.2) in (r, (s.1, mk_kv_io k (io_cleared s.2))).

Definition get_cache : stx rd_kv kv_cache := fun s => (Ok (io_cache s.2), s).

(** [clear(true)] *)
Definition clear_data : stx rd_kv unit := fun s =>
  let '(r, k) := KvCache.clear (io_cache s.2) in (r, (s.1, mk_kv_io k (io_cleared s.2 || is_ok r))).

(** Cell [i] of the state becomes token [i] of the ubatch; [None]: return [false]. *)
Definition read_seq_cell (two_d : bool) (dest_seq_id : Z) (u : llama_ubatch) (i : nat) : stx rd_kv (option llama_ubatch) :=
  pos ← on_io read_i32;
  n_seq_id ← on_io read_u32;
  if negb (n_seq_id =? 1)%Z then mret None else
  u_pos' ← (if two_d then
              x ← on_io read_i32;
              y ← on_io read_i32;
              stx_lift (l ← vec_set (u_pos u) (i + u_n_tokens u) y; vec_set l (i + u_n_tokens u * 2) x)
            else mret (u_pos u));
  _ ← on_io read_i32;
  stx_lift (
    p ← vec_set u_pos' i pos;
    n ← vec_set (u_n_seq_id u) i n_seq_id;
    q ← vec_set (u_seq_id u) i [dest_seq_id];
    Ok (Some (mk_ubatch (u_equal_seqs u) (u_n_tokens u) (u_n_seq_tokens u) (u_n_seqs u) (u_n_seqs_unq u) (u_n_pos u) (u_token u) (u_embd u)
                p n q (u_seq_id_unq u) (u_seq_idx u) (u_output u)))).

Fixpoint read_seq_cells (two_d : bool) (dest_seq_id : Z) (l : list nat) (u : llama_ubatch) : stx rd_kv (option llama_ubatch) :=
  match l with
  | [] => mret (Some u)
  | i :: l =>
      u ← read_seq_cell two_d dest_seq_id u i;
      match u with None => mret None | Some u => read_seq_cells two_d dest_seq_id l u end
  end.

(** [ubatch.seq_id_unq[0] = dest_seq_id] *)
Definition for_seq (dest_seq_id : Z) (u : llama_ubatch) : outcome llama_ubatch :=
  unq ← vec_set (u_seq_id_unq u) 0 (Z.to_nat dest_seq_id);
  Ok (mk_ubatch (u_equal_seqs u) (u_n_tokens u) (u_n_seq_tokens u) (u_n_seqs u) (u_n_seqs_unq u) (u_n_pos u) (u_token u) (u_embd u)
        (u_pos u) (u_n_seq_id u) (u_seq_id u) unq (u_seq_idx u) (u_output u)).

(** The exact tail is not touched while the cells are placed. *)
Definition apply_prepared (sinfo : slot_info) (u : llama_ubatch) : stx kv_cache unit := fun k =>
  let old := tail_preparing (k_tail k) in
  let '(r, k) := apply_ubatch sinfo u (set_tail (set_preparing true (k_tail k)) k) in
  (r, set_tail (set_preparing old (k_tail k)) k).

(** The checks after a sequence has been placed. *)
Definition check_placed (st cell_count : nat) (dest_seq_id : Z) (sinfo : slot_info) (u : llama_ubatch) (k : kv_cache) : outcome unit :=
  _ ← assert_ (slot_n_stream sinfo =? 1);
  cells ← vec_get (idxs sinfo) 0;
  _ ← assert_ (length cells =? cell_count);
  c ← cells_of st k;
  foldM (fun (_ : unit) i =>
    idx ← vec_get cells i;
    p ← pos_get idx c;
    q ← vec_get (u_pos u) i;
    _ ← assert_ (p =? q)%Z;
    has ← seq_has idx (Z.to_nat dest_seq_id) c;
    assert_ has) (seq 0 cell_count) tt.

(** [None]: return [false]. *)
Definition read_seq_meta (st cell_count : nat) (dest_seq_id : Z) : stx rd_kv (option slot_info) :=
  _ ← on_cache (seq_rm dest_seq_id (-1) (-1));
  k ← get_cache;
  r ← stx_lift (ubatch_reserve cell_count 1 (new_allocr (n_pos_per_embd (k_cfg k))));
  u ← stx_lift (for_seq dest_seq_id r.1);
  u ← read_seq_cells (1 <? n_pos_per_embd (k_cfg k)) dest_seq_id (seq 0 cell_count) u;
  match u with
  | None => mret None
  | Some u =>
      sinfo ← on_cache (find_slot u false);
      if slot_empty sinfo then mret None else
      _ ← on_cache (apply_prepared sinfo u);
      k ← get_cache;
      _ ← stx_lift (check_placed st cell_count dest_seq_id sinfo u k);
      mret (Some sinfo)
  end.

(** A sequence id of a cell. *)
Definition read_cell_id (st i : nat) (_ : nat) : stx rd_kv bool :=
  seq_id ← on_io read_i32;
  k ← get_cache;
  if (seq_id <? 0)%Z || (Z.of_nat (n_seq_max (k_cfg k)) <=? seq_id)%Z then mret false else
  on_cache (on_cells st (fun c => c ← KvCells.seq_add i (Z.to_nat seq_id) c; Ok (true, c))).

Definition read_kv_cell (st i : nat) : stx rd_kv bool :=
  pos ← on_io read_i32;
  n_seq_id ← on_io read_u32;
  _ ← on_cache (on_cells st (fun c => c ← pos_set i pos c; Ok (tt, c)));
  k ← get_cache;
  _ ← (if 1 <? n_pos_per_embd (k_cfg k) then
         x ← on_io read_i32;
         y ← on_io read_i32;
         on_cache (on_cells st (fun c => c ← ext_set i (mk_ext x y) c; Ok (tt, c)))
       else mret tt);
  forM_ (read_cell_id st i) (seq 0 (Z.to_nat n_seq_id)).

Definition read_all_meta (st cell_count : nat) : stx rd_kv (option slot_info) :=
  k ← get_cache;
  c ← stx_lift (cells_of st k);
  if cells_size c <? cell_count then mret None else
  ok ← forM_ (read_kv_cell st) (seq 0 cell_count);
  if negb ok then mret None else
  _ ← on_cache (on_head st (fun _ => 0));
  mret (Some (mk_slot st st [st] [seq 0 cell_count])).

Definition state_read_meta (st cell_count : nat) (dest_seq_id : Z) : stx rd_kv (option slot_info) :=
  if negb (dest_seq_id =? -1)%Z then read_seq_meta st cell_count dest_seq_id else read_all_meta st cell_count.

(** One row per cell, in one piece when the cells are contiguous. *)
Definition read_rows (t : nat) (row : Z) (cell_count : nat) (sinfo : slot_info) : stx rd_kv unit :=
  if cell_count =? 0 then mret tt else
  if is_contiguous sinfo then
    h ← stx_lift (slot_head sinfo);
    on_io (fun r => r ← read_tensor t (Z.to_nat (u64 (Z.of_nat h * row))) (Z.to_nat (u64 (Z.of_nat cell_count * row))) r; Ok (tt, r))
  else
    cells ← stx_lift (vec_get (idxs sinfo) 0);
    on_io (fun r =>
      r ← foldM (fun r i => idx ← vec_get cells i; read_tensor t (Z.to_nat (u64 (Z.of_nat idx * row))) (Z.to_nat row) r) (seq 0 cell_count) r;
      Ok (tt, r)).

Definition read_keys (st cell_count : nat) (sinfo : slot_info) (layer : kv_layer) : stx rd_kv bool :=
  k ← stx_lift (vec_get (k_stream layer) st);
  k_type_i_ref ← on_io read_i32;
  if negb (k_type layer =? k_type_i_ref)%Z then mret false else
  k_size_row_ref ← on_io read_u64;
  if negb (k_size_row layer =? k_size_row_ref)%Z then mret false else
  read_rows k (k_size_row layer) cell_count sinfo;;
  mret true.

Definition read_values (st cell_count : nat) (sinfo : slot_info) (layer : kv_layer) : stx rd_kv bool :=
  v ← stx_lift (vec_get (v_stream layer) st);
  match v with
  | None => mret true
  | Some v =>
      v_type_i_ref ← on_io read_i32;
      if negb (v_type layer =? v_type_i_ref)%Z then mret false else
      v_size_row_ref ← on_io read_u64;
      if negb (v_size_row layer =? v_size_row_ref)%Z then mret false else
      read_rows v (v_size_row layer) cell_count sinfo;;
      mret true
  end.

(** The values of one channel; the indices are 32-bit integers, the offsets are not. *)
Definition read_channel (v : nat) (el : Z) (kv_size cell_count : nat) (sinfo : slot_info) (j : nat) : stx rd_kv unit :=
  let offset idx := Z.to_nat (u64 (u32 (Z.of_nat idx + u32 (Z.of_nat j * Z.of_nat kv_size)) * el)) in
  if is_contiguous sinfo then
    h ← stx_lift (slot_head sinfo);
    on_io (fun r => r ← read_tensor v (offset h) (Z.to_nat (u64 (Z.of_nat cell_count * el))) r; Ok (tt, r))
  else
    cells ← stx_lift (vec_get (idxs sinfo) 0);
    on_io (fun r => r ← foldM (fun r i => idx ← vec_get cells i; read_tensor v (offset idx) (Z.to_nat el) r) (seq 0 cell_count) r; Ok (tt, r)).

Definition read_values_trans (kv_size st cell_count : nat) (sinfo : slot_info) (layer : kv_layer) : stx rd_kv bool :=
  v ← stx_lift (vec_get (v_stream layer) st);
  match v with
  | None => mret true
  | Some v =>
      v_type_i_ref ← on_io read_i32;
      if negb (v_type layer =? v_type_i_ref)%Z then mret false else
      v_size_el_ref ← on_io read_u32;
      if negb (v_size_el layer =? v_size_el_ref)%Z then mret false else
      n_embd_v_gqa_ref ← on_io read_u32;
      if negb (n_embd_v_gqa layer =? n_embd_v_gqa_ref)%Z then mret false else
      if cell_count =? 0 then mret true else
      forM_ (fun j => read_channel v (v_size_el layer) kv_size cell_count sinfo j;; mret true) (seq 0 (Z.to_nat (n_embd_v_gqa layer)))
  end.

Definition state_read_data (st cell_count : nat) (sinfo : slot_info) : stx rd_kv bool :=
  v_trans_ref ← on_io read_u32;
  n_layer ← on_io read_u32;
  k ← get_cache;
  c ← stx_lift (cells_of st k);
  if negb (n_layer =? Z.of_nat (length layers))%Z then mret false else
  if cells_size c <? cell_count then mret false else
  if negb (eqb v_trans (negb (v_trans_ref =? 0)%Z)) then mret false else
  ok ← forM_ (read_keys st cell_count sinfo) layers;
  if negb ok then mret false else
  if negb v_trans then forM_ (read_values st cell_count sinfo) layers
  else forM_ (read_values_trans (cells_size c) st cell_count sinfo) layers.

(** Any exception counts as [false]. *)
Definition or_false (m : stx rd_kv bool) : stx rd_kv bool := fun s =>
  match m s with
  | (Err e, s) => if is_exception e then (Ok false, s) else (Err e, s)
  | x => x
  end.

(** The cells of one stream, empty when there are none. *)
Definition read_stream (seq_id : Z) (s : nat) : stx rd_kv (list nat) :=
  cell_count ← on_io read_u32;
  if (cell_count =? 0)%Z then mret [] else
  let cell_count := Z.to_nat cell_count in
  k ← get_cache;
  st ← stx_lift (if (seq_id =? -1)%Z then Ok s else vec_get (seq_to_stream k) (Z.to_nat seq_id));
  sinfo ← state_read_meta st cell_count seq_id;
  res ← match sinfo with
        | None => mret false
        | Some sinfo => or_false (state_read_data st cell_count sinfo)
        end;
  match (if (res : bool) then sinfo else None) with
  | Some sinfo => stx_lift (vec_get (idxs sinfo) 0)
  | None =>
      _ ← (if (seq_id =? -1)%Z then clear_data else (_ ← on_cache (seq_rm seq_id (-1) (-1)); mret tt));
      stx_throw RuntimeError
  end.

Fixpoint read_streams (seq_id : Z) (l : list nat) : stx rd_kv (list (list nat)) :=
  match l with
  | [] => mret []
  | s :: l => x ← read_stream seq_id s; xs ← read_streams seq_id l; mret (x :: xs)
  end.

Definition state_read_body (seq_id n_stream_cur : Z) : stx rd_kv (list (list nat)) :=
  k ← get_cache;
  stx_lift (assert_ ((seq_id =? -1)%Z || ((0 <=? seq_id)%Z && (seq_id <? Z.of_nat (length (seq_to_stream k)))%Z)));;
  stx_lift (require_ RuntimeError (n_stream_cur =? Z.of_nat (n_stream (k_cfg k)))%Z);;
  _ ← (if (seq_id =? -1)%Z then clear_data else mret tt);
  restored_cells ← read_streams seq_id (seq 0 (n_stream (k_cfg k)));
  _ ← on_cache (if (seq_id =? -1)%Z then for_all_seqs rebuild_allocation_head else rebuild_allocation_head seq_id);
  mret restored_cells.

Definition has_kv_body (g : cache_cfg) : bool :=
  match sp_kind (tail_plan g) with STORAGE_COMPACT_NATIVE_EXACT => false | _ => true end.

(** [LLAMA_STATE_SEQ_FLAGS_BODY_ONLY] is the value 4. *)
Definition flag_body_only (flags : Z) : bool := Z.testbit flags 2.

Section framed.
(** Writing and reading of framed states. *)
Context (framed_write : forall {W} {_ : IoWrite W}, Z -> Z -> kv_cache -> W -> outcome W).
Context (framed_read : Z -> Z -> stx rd_kv unit).

Definition kv_state_write {W} `{IoWrite W} (seq_id flags : Z) (k : kv_cache) (io : W) : outcome W :=
  match other (k_cfg k) with
  | Some _ => Ok io
  | None =>
      if negb (has_tail_overlay (k_cfg k)) && negb (flag_body_only flags && has_kv_body (k_cfg k))
      then state_write_body seq_id k io
      else framed_write W _ seq_id flags k io
  end.

Definition state_read_impl (seq_id flags : Z) : stx rd_kv unit :=
  k ← get_cache;
  match other (k_cfg k) with
  | Some _ => mret tt
  | None =>
      marker ← on_io read_u32;
      if (marker =? LLAMA_KV_TAIL_STATE_MAGIC)%Z then framed_read seq_id flags else
      stx_lift (require_ RuntimeError (negb (has_compact_tail (k_cfg k))));;
      _ ← state_read_body seq_id marker;
      if has_tail_overlay (k_cfg k) then
        on_cache ((if (seq_id =? -1)%Z then on_tail TailStore.clear else on_tail (TailStore.seq_rm seq_id (-1) (-1)));;
                  on_tail (mark_degraded seq_id DEGRADED_BODY_ONLY_STATE))
      else mret tt
  end.

(** The members of the logical state, put into a cache; the store rebuilds its indices. *)
Definition install (state : kv_cache) : stx kv_cache unit := fun k =>
  match (_ ← assert_ (length (v_cells k) =? length (v_cells state));
         foldM (fun cells st => c ← vec_get cells st; o ← vec_get (v_cells state) st; c ← set_range 0 o c; vec_set cells st c) (seq 0 (length (v_cells k))) (v_cells k)) with
  | Err e => (Err e, k)
  | Ok cells =>
      let t := k_tail state in
      let k := mk_cache (k_cfg k) cells (v_heads state) (seq_to_stream state)
        (set_al_heads (allocation_seq_heads (k_alloc state)) (k_alloc k))
        (mk_tail (tail (k_tail k)) (tail_generations t) (tail_generations_before_batch t) (tail_ordinal t) (tail_write_slots t)
           (tail_write_levels (k_tail k)) (tail_preparing (k_tail k)) (tail_graph_started (k_tail k)))
        (sc_info state) (restored_tail_payload_slots state) (state_cell_remap state) in
      if_tail (match tail t with
               | Some s => s ← stx_lift (clone_logical_state s); on_tail (TailStore.clone_logical_state_from s)
               | None => stx_throw AssertFailed
               end) k
  end.

Definition install_io (state : kv_cache) (x : kv_io) : outcome kv_io :=
  match install state (io_cache x) with
  | (Ok _, k) => Ok (mk_kv_io k (io_cleared x))
  | (Err e, _) => Err e
  end.

(** The copy of the tail can throw before anything is read. *)
Definition capture : stx rd_kv kv_cache :=
  k ← get_cache;
  _ ← stx_lift (match tail (k_tail k) with Some s => _ ← clone_logical_state s; Ok tt | None => Ok tt end);
  mret k.

Definition kv_state_read (seq_id flags : Z) : stx rd_kv unit :=
  k ← get_cache;
  if tail_metadata_only (k_cfg k) then state_read_impl seq_id flags else
  original ← capture;
  _ ← (fun s => match state_read_impl seq_id flags s with
                | (Err e, s) => if is_exception e then (on_cache (install original);; stx_throw e) s else (Err e, s)
                | x => x end);
  prepared ← capture;
  _ ← on_cache (install original);
  on_io (fun r => Ok (tt, on_commit (install_io prepared) r)).

(** As a context sees it; a negative id is not a sequence. *)
Definition kv_state : MemoryState kv_io := {|
  state_write := fun W _ seq_id flags m io => kv_state_write seq_id flags (io_cache m) io;
  state_read := kv_state_read;
  state_seq_can_save := fun seq_id _ _ => (0 <=? seq_id)%Z;
  state_seq_can_restore := fun seq_id _ _ => (0 <=? seq_id)%Z
|}.

End framed.
End layers.
