(* ===== verification/KvStateRows.v ===== *)
(** * State files of the KV cache: the rows of the layers

    The tensors of a stream fall into lanes, rows of one width for the cells one after the
    other: a key or value tensor is one lane, a transposed value tensor one per channel.
    Writing the layers emits a header and the lanes of each; reading them stages, for every
    lane, the rows of the cells placed, in one piece when the cells are contiguous, else one
    by one.  Lanes do not overlap, so that a restored cell has the rows of its cell in the
    state and every other cell keeps its rows. *)

From S2P Require Import KvCells BatchSplit TailStore.
From S2P Require Export StateIoProps KvState.
Open Scope nat_scope.

(** ** Lanes *)

Record lane := mk_lane { la_tensor : nat; la_base : nat; la_width : nat }.

Definition la_offset (a : lane) (i : nat) : nat := la_base a + i * la_width a.

(** The row of a cell. *)
Definition lane_bytes (T : tensors) (a : lane) (i : nat) : list Z := tensor_slice T (la_tensor a) (la_offset a i) (la_width a).

(** What a state has for a layer: integers of some size, and lanes. *)
Inductive item :=
  | Head (n : nat) (v : Z)
  | Lane (a : lane).

Definition key_items (st : nat) (l : kv_layer) : list item :=
  [Head 4 (k_type l); Head 8 (k_size_row l); Lane (mk_lane (default 0 (k_stream l !! st)) 0 (Z.to_nat (k_size_row l)))].

(** Channel [j] of [n] transposed values. *)
Definition channel_lane (v n : nat) (el : Z) (j : nat) : lane := mk_lane v (j * n * Z.to_nat el) (Z.to_nat el).

Definition value_items (v_trans : bool) (n st : nat) (l : kv_layer) : list item :=
  match v_stream l !! st with
  | Some (Some v) =>
      if v_trans then [Head 4 (v_type l); Head 4 (v_size_el l); Head 4 (n_embd_v_gqa l)] ++
                      ((fun j => Lane (channel_lane v n (v_size_el l) j)) <$> seq 0 (Z.to_nat (n_embd_v_gqa l)))
      else [Head 4 (v_type l); Head 8 (v_size_row l); Lane (mk_lane v 0 (Z.to_nat (v_size_row l)))]
  | _ => []
  end.

Definition items (v_trans : bool) (n st : nat) (ly : list kv_layer) : list item :=
  [Head 4 (Z.b2z v_trans); Head 4 (Z.of_nat (length ly))] ++ concat (key_items st <$> ly) ++ concat (value_items v_trans n st <$> ly).

Definition item_lane (x : item) : option lane := match x with Head _ _ => None | Lane a => Some a end.

Definition lanes (v_trans : bool) (n st : nat) (ly : list kv_layer) : list lane := omap item_lane (items v_trans n st ly).

(** What a cell is worth. *)
Definition cell_rows (v_trans : bool) (n st : nat) (ly : list kv_layer) (T : tensors) (i : nat) : list (list Z) :=
  (fun a => lane_bytes T a i) <$> lanes v_trans n st ly.

(** ** Layers of a cache with [ns] streams of [n] cells *)

Definition type_ok (t : Z) : Prop := (INT32_MIN <= t <= INT32_MAX)%Z.

Record layer_fits (v_trans : bool) (ns n : nat) (l : kv_layer) : Prop := {
  lf_streams : length (k_stream l) = ns /\ length (v_stream l) = ns;
  lf_types : type_ok (k_type l) /\ type_ok (v_type l);
  lf_k : (0 <= k_size_row l <= UINT64_MAX)%Z /\ (Z.of_nat n * k_size_row l <= UINT64_MAX)%Z;
  lf_v : if v_trans
    then (0 <= v_size_el l <= UINT32_MAX)%Z /\ (0 <= n_embd_v_gqa l <= UINT32_MAX)%Z /\ (Z.of_nat n <= UINT32_MAX)%Z /\
         (n_embd_v_gqa l * Z.of_nat n <= UINT32_MAX)%Z /\ (n_embd_v_gqa l * Z.of_nat n * v_size_el l <= UINT32_MAX)%Z
    else (0 <= v_size_row l <= UINT64_MAX)%Z /\ (Z.of_nat n * v_size_row l <= UINT64_MAX)%Z;
  lf_values : (forall x, x ∈ v_stream l -> x = None) \/ (forall x, x ∈ v_stream l -> x <> None)
}.

(** Layers of the same model. *)
Record same_layer (l l0 : kv_layer) : Prop := {
  sl_k : k_type l = k_type l0 /\ k_size_row l = k_size_row l0;
  sl_v : v_type l = v_type l0 /\ v_size_row l = v_size_row l0 /\ v_size_el l = v_size_el l0 /\ n_embd_v_gqa l = n_embd_v_gqa l0;
  sl_values : (exists v, Some v ∈ v_stream l) <-> (exists v, Some v ∈ v_stream l0)
}.

(** The rows of [n] cells lie in the tensor. *)
Definition lane_fits (n : nat) (T : tensors) (a : lane) : Prop := exists data, T !! la_tensor a = Some data /\ la_offset a n <= length data.

(** The tensors of a layer. *)
Definition layer_tensors (l : kv_layer) : list nat := k_stream l ++ omap id (v_stream l).

Record kv_layers_ok (v_trans : bool) (ns n : nat) (ly : list kv_layer) (T : tensors) : Prop := {
  kl_count : (Z.of_nat (length ly) <= UINT32_MAX)%Z;
  kl_layer : Forall (layer_fits v_trans ns n) ly;
  kl_ids : NoDup (concat (layer_tensors <$> ly));
  kl_fits : forall st a, st < ns -> a ∈ lanes v_trans n st ly -> lane_fits n T a
}.

(** ** Writing *)

Definition lane_ops (ranges : list (nat * nat)) (a : lane) : list io_op :=
  (fun r => WriteTensor (la_tensor a) (la_offset a r.1) ((r.2 - r.1) * la_width a)) <$> ranges.

Definition item_ops (ranges : list (nat * nat)) (x : item) : list io_op :=
  match x with Head n v => [WriteBytes (le_bytes n v)] | Lane a => lane_ops ranges a end.

(** The rows an item stands for. *)
Definition item_rows (T : tensors) (cells : list nat) (x : item) : list (list Z) :=
  match x with Head n v => [le_bytes n v] | Lane a => lane_bytes T a <$> cells end.

Definition ranges_in (n : nat) (ranges : list (nat * nat)) : Prop := Forall (fun r => r.1 <= r.2 <= n) ranges.

Definition range_cells (ranges : list (nat * nat)) : list nat := concat ((fun r => seq r.1 (r.2 - r.1)) <$> ranges).

Section emit.
Context {W : Type} `{IoWrite W}.
Context (ns n st : nat) (ranges : list (nat * nat)) (Hst : st < ns) (Hin : ranges_in n ranges).
Implicit Types io : W.

Lemma range_in r : r ∈ ranges -> r.1 <= r.2 <= n.
Proof. unfold ranges_in in Hin. rewrite Forall_forall in Hin. apply Hin. Qed.

Lemma write_rows_ok t row io : (0 <= row)%Z -> (Z.of_nat n * row <= UINT64_MAX)%Z ->
  write_rows t row ranges io = foldM run_op (lane_ops ranges (mk_lane t 0 (Z.to_nat row))) io.
Proof.
  intros Hr Hn. unfold write_rows, lane_ops. rewrite foldM_fmap. apply foldM_ext. intros r io' Hr'%range_in.
  cbn [run_op la_tensor la_width]. unfold la_offset. cbn [la_base la_width]. rewrite !u64_id by nia. f_equal; nia.
Qed.

Notation ops_of its := (concat (item_ops ranges <$> its)).

Lemma write_keys_ok v_trans l io : layer_fits v_trans ns n l -> write_keys st ranges io l = foldM run_op (ops_of (key_items st l)) io.
Proof.
  intros [[Hk _] _ [Hr Hn] _ _]. unfold write_keys, key_items. destruct (lookup_lt_is_Some_2 (k_stream l) st) as [t Ht]; [lia|].
  rewrite (vec_get_Some _ _ _ Ht), Ht. cbn [mbind outcome_bind default fmap list_fmap app foldM run_op concat item_ops]. unfold write_u32, write_u64.
  destruct (io_write _ io) as [io1|]; [|done]. cbn [mbind outcome_bind]. destruct (io_write _ io1) as [io2|]; [|done]. cbn [mbind outcome_bind].
  rewrite app_nil_r. apply write_rows_ok; lia.
Qed.

Lemma write_values_ok l io : layer_fits false ns n l -> write_values st ranges io l = foldM run_op (ops_of (value_items false n st l)) io.
Proof.
  intros [[_ Hv] _ _ [Hr Hn] _]. unfold write_values, value_items. destruct (lookup_lt_is_Some_2 (v_stream l) st) as [t Ht]; [lia|].
  rewrite (vec_get_Some _ _ _ Ht), Ht. cbn [mbind outcome_bind]. destruct t as [t|]; [|done].
  cbn [fmap list_fmap app foldM run_op concat item_ops]. unfold write_u32, write_u64.
  destruct (io_write _ io) as [io1|]; [|done]. cbn [mbind outcome_bind]. destruct (io_write _ io1) as [io2|]; [|done]. cbn [mbind outcome_bind].
  rewrite app_nil_r. apply write_rows_ok; lia.
Qed.

Lemma write_channel_ok v el E j io : (0 <= el <= UINT32_MAX)%Z -> (E * Z.of_nat n <= UINT32_MAX)%Z -> (E * Z.of_nat n * el <= UINT32_MAX)%Z -> (Z.of_nat j < E)%Z ->
  foldM (fun io r => io_write_tensor v (Z.to_nat (u32 (u32 (Z.of_nat r.1 + u32 (Z.of_nat j * Z.of_nat n)) * el))) (Z.to_nat (u64 (Z.of_nat (r.2 - r.1) * el))) io) ranges io =
  foldM run_op (lane_ops ranges (channel_lane v n el j)) io.
Proof.
  intros Hel Hn Hall Hj. unfold lane_ops. rewrite foldM_fmap. apply foldM_ext. intros r io' Hr%range_in.
  cbn [run_op]. unfold la_offset, channel_lane. cbn [la_tensor la_base la_width].
  assert ((Z.of_nat j + 1) * Z.of_nat n <= E * Z.of_nat n)%Z as Hjn by nia.
  rewrite (u32_id (Z.of_nat j * Z.of_nat n)) by nia. rewrite (u32_id (Z.of_nat r.1 + _)) by nia.
  assert ((Z.of_nat r.1 + Z.of_nat j * Z.of_nat n) * el <= E * Z.of_nat n * el)%Z by (apply Z.mul_le_mono_nonneg_r; nia).
  rewrite u32_id by nia. rewrite u64_id by (unfold UINT32_MAX, UINT64_MAX in *; nia). f_equal; nia.
Qed.

Lemma write_values_trans_ok l io : layer_fits true ns n l -> write_values_trans n st ranges io l = foldM run_op (ops_of (value_items true n st l)) io.
Proof.
  intros [[_ Hv] _ _ (Hel & He & Hn & Hen & Hall) _]. unfold write_values_trans, value_items. destruct (lookup_lt_is_Some_2 (v_stream l) st) as [t Ht]; [lia|].
  rewrite (vec_get_Some _ _ _ Ht), Ht. cbn [mbind outcome_bind]. destruct t as [t|]; [|done].
  cbn [fmap list_fmap app foldM run_op concat item_ops]. unfold write_u32.
  destruct (io_write _ io) as [io1|]; [|done]. cbn [mbind outcome_bind]. destruct (io_write _ io1) as [io2|]; [|done]. cbn [mbind outcome_bind].
  destruct (io_write _ io2) as [io3|]; [|done]. cbn [mbind outcome_bind]. fold (fmap (M := list) (item_ops ranges)). rewrite <- list_fmap_compose. apply run_concat. intros j io' Hj%elem_of_seq. cbn [compose item_ops].
  eapply write_channel_ok; [done|exact Hen|done|lia].
Qed.

Lemma concat_items (g : kv_layer -> list item) ly : concat ((fun l => ops_of (g l)) <$> ly) = ops_of (concat (g <$> ly)).
Proof. induction ly as [|l ly IH]; [done|]. cbn [fmap list_fmap concat]. by rewrite IH, fmap_app, concat_app. Qed.

Lemma state_write_data_ok v_trans ly c io : cells_size c = n -> Forall (layer_fits v_trans ns n) ly ->
  state_write_data ly v_trans ranges st c io = foldM run_op (ops_of (items v_trans n st ly)) io.
Proof.
  intros Hc Hf. rewrite Forall_forall in Hf. unfold state_write_data, items. rewrite !fmap_app, !concat_app, !foldM_app. cbn [fmap list_fmap concat item_ops app foldM run_op]. unfold write_u32.
  destruct (io_write _ io) as [io1|]; [|done]. cbn [mbind outcome_bind]. destruct (io_write _ io1) as [io2|]; [|done]. cbn [mbind outcome_bind].
  rewrite (run_concat (write_keys st ranges) (fun l => ops_of (key_items st l))) by (intros l io' Hl; by eapply write_keys_ok, Hf). rewrite concat_items, foldM_app.
  destruct (foldM run_op _ io2) as [io3|]; [|done]. cbn [mbind outcome_bind]. rewrite <- concat_items.
  destruct v_trans; cbn [negb]; rewrite ?Hc; apply run_concat; intros l io' Hl; [by apply write_values_trans_ok, Hf|by apply write_values_ok, Hf].
Qed.
End emit.

(** A range of rows is the rows one after the other. *)
Lemma lane_range T a i k : tensor_slice T (la_tensor a) (la_offset a i) (k * la_width a) = concat (lane_bytes T a <$> seq i k).
Proof.
  revert i. induction k as [|k IH]; intros i; [done|]. cbn [seq fmap list_fmap concat]. rewrite <- IH. unfold lane_bytes, tensor_slice, la_offset.
  change (S k * la_width a) with (la_width a + k * la_width a). rewrite slice_app. do 2 f_equal. lia.
Qed.

Lemma lane_data T ranges a : ops_data T (lane_ops ranges a) = concat (lane_bytes T a <$> range_cells ranges).
Proof.
  unfold ops_data, lane_ops, range_cells. rewrite <- list_fmap_compose. induction ranges as [|r l IH]; [done|]. cbn [fmap list_fmap concat]. rewrite fmap_app, concat_app, IH. f_equal. apply lane_range.
Qed.

Lemma items_data T ranges its : ops_data T (concat (item_ops ranges <$> its)) = concat (concat (A:=Z) <$> (item_rows T (range_cells ranges) <$> its)).
Proof.
  induction its as [|x its IH]; [done|]. cbn [fmap list_fmap concat]. rewrite ops_data_app, IH. f_equal. destruct x as [k v|a]; [by unfold ops_data|apply lane_data].
Qed.

Lemma lane_bytes_length n T a i : lane_fits n T a -> i < n -> length (lane_bytes T a i) = la_width a.
Proof. intros (data & E & H) Hi. unfold lane_bytes, tensor_slice. rewrite E. cbn. apply length_slice. unfold la_offset in *. nia. Qed.

Lemma lane_ops_fit n T ranges a : lane_fits n T a -> ranges_in n ranges -> Forall (op_fits T) (lane_ops ranges a).
Proof.
  intros (data & E & H) Hr. unfold lane_ops. apply Forall_fmap. eapply Forall_impl; [exact Hr|]. intros r Hr1. cbn. exists data. split; [done|]. unfold la_offset in *. nia.
Qed.

Lemma items_fit n T ranges its : (forall a, a ∈ omap item_lane its -> lane_fits n T a) -> ranges_in n ranges -> Forall (op_fits T) (concat (item_ops ranges <$> its)).
Proof.
  intros Hf Hr. apply Forall_concat, Forall_fmap, Forall_forall. intros [k v|a] Hx; cbn; [by repeat constructor|]. apply (lane_ops_fit n); [|done]. apply Hf, list_elem_of_omap. by exists (Lane a).
Qed.

(** * Staging *)

Notation reader_kv r := (@reader_is kv_io r).

(** The changes for one lane. *)
Definition lane_each (a : lane) (cells : list nat) (rows : list (list Z)) : list staged_set :=
  zip_with (fun i x => (la_tensor a, la_offset a i, x)) cells rows.

Definition lane_staged (contiguous : bool) (a : lane) (cells : list nat) (rows : list (list Z)) : list staged_set :=
  if contiguous then [(la_tensor a, la_offset a (default 0 (cells !! 0)), concat rows)] else lane_each a cells rows.

(** Rows for a lane. *)
Definition rows_ok (cells : list nat) (a : lane) (rows : list (list Z)) : Prop := length rows = length cells /\ Forall (fun x => length x = la_width a) rows.

Lemma contiguous_cells sinfo cells : idxs sinfo = [cells] -> is_contiguous sinfo = true -> cells = seq (default 0 (cells !! 0)) (length cells).
Proof.
  unfold is_contiguous. intros ->. destruct cells as [|h l]; [done|]. intros H. cbn [lookup list_lookup default from_option id]. rewrite forallb_forall in H.
  apply list_eq. intros i. destruct (decide (i < length (h :: l))) as [Hi|Hi]; [|rewrite !lookup_ge_None_2; rewrite ?length_seq; lia || done].
  rewrite lookup_seq_lt by done. destruct (lookup_lt_is_Some_2 _ _ Hi) as [x Hx]. rewrite Hx. f_equal. specialize (H (i, x)).
  rewrite <- list_elem_of_In in H. apply Nat.eqb_eq, H. apply list_elem_of_lookup. exists i. by rewrite imap_pair_lookup, Hx.
Qed.

Lemma lane_each_seq a h k rows : length rows = k -> lane_each a (seq h k) rows = imap (fun i x => (la_tensor a, la_offset a h + i * la_width a, x)) rows.
Proof.
  intros <-. unfold lane_each. apply list_eq. intros i. rewrite lookup_zip_with, list_lookup_imap. destruct (rows !! i) as [x|] eqn:E.
  - rewrite lookup_seq_lt by (by eapply lookup_lt_Some). cbn. do 3 f_equal. unfold la_offset. lia.
  - by destruct (seq _ _ !! i).
Qed.

Lemma lane_staged_each sinfo T a cells rows : idxs sinfo = [cells] -> rows_ok cells a rows ->
  foldl set_tensor T (lane_staged (is_contiguous sinfo) a cells rows) = foldl set_tensor T (lane_each a cells rows).
Proof.
  intros Hi [Hl Hw]. unfold lane_staged. destruct (is_contiguous sinfo) eqn:Ec; [|done]. pose proof (contiguous_cells _ _ Hi Ec) as Es. set (h := default 0 (cells !! 0)) in *.
  rewrite Es, lane_each_seq by done. rewrite (set_tensors_run T (la_tensor a) (la_offset a h) rows (la_width a)) by done. done.
Qed.

Lemma lane_each_fit n T a cells rows : lane_fits n T a -> Forall (fun i => i < n) cells -> rows_ok cells a rows -> Forall (staged_fits T) (lane_each a cells rows).
Proof.
  intros (data & E & H) Hc [Hl Hw]. unfold lane_each. apply Forall_forall. intros x (k & i & y & -> & Hi & Hy)%elem_of_lookup_zip_with.
  rewrite Forall_lookup in Hc. rewrite Forall_lookup in Hw. exists data. split; [done|]. cbn. specialize (Hc _ _ Hi). specialize (Hw _ _ Hy). cbn in Hc, Hw. unfold la_offset in *. nia.
Qed.

(** ** Reading *)

Section reading.
Context (n : nat) (sinfo : slot_info) (cells : list nat).
Context (Hslot : idxs sinfo = [cells]) (Hsome : 0 < length cells) (Hcells : Forall (fun i => i < n) cells).
Implicit Types (r : llama_io_read_host kv_io) (m : kv_io).

Lemma slot_head_ok : exists h, cells !! 0 = Some h /\ slot_head sinfo = Ok h.
Proof.
  destruct (lookup_lt_is_Some_2 cells 0 Hsome) as [h Hh]. exists h. split; [done|]. unfold slot_head. rewrite Hslot. cbn.
  rewrite (proj2 (Nat.eqb_neq _ _)) by lia. cbn. by rewrite (vec_get_Some _ _ _ Hh).
Qed.

Lemma cell_lt i idx : cells !! i = Some idx -> idx < n.
Proof. rewrite Forall_lookup in Hcells. apply Hcells. Qed.

(** The transfers of a lane, as both kinds of values do them. *)
Definition read_lane (t : nat) (offset : nat -> nat) (width all : nat) : stx (llama_io_read_host kv_io * kv_io) unit :=
  if is_contiguous sinfo then
    h ← stx_lift (slot_head sinfo);
    on_io (fun r => r ← read_tensor t (offset h) all r; Ok (tt, r))
  else
    l ← stx_lift (vec_get (idxs sinfo) 0);
    on_io (fun r => r ← foldM (fun r i => idx ← vec_get l i; read_tensor t (offset idx) width r) (seq 0 (length cells)) r; Ok (tt, r)).

Lemma read_each_ok a offset r rows rest sets calls : (forall i, i < n -> offset i = la_offset a i) -> rows_ok cells a rows ->
  reader_kv r (concat rows ++ rest) sets calls ->
  exists r', foldM (fun r i => idx ← vec_get cells i; read_tensor (la_tensor a) (offset idx) (la_width a) r) (seq 0 (length cells)) r = Ok r' /\
    reader_kv r' rest (sets ++ lane_each a cells rows) calls.
Proof.
  intros Hoff [Hl Hw] Hr. destruct (foldM_seq (fun r i => idx ← vec_get cells i; read_tensor (la_tensor a) (offset idx) (la_width a) r)
    (fun i r => reader_kv r (concat (drop i rows) ++ rest) (sets ++ lane_each a (take i cells) (take i rows)) calls) 0 (length cells) r) as (r' & E & Hr').
  - by rewrite app_nil_r.
  - intros i r1 Hi Hr1. destruct (lookup_lt_is_Some_2 cells i ltac:(lia)) as [idx Hidx]. destruct (lookup_lt_is_Some_2 rows i ltac:(lia)) as [x Hx].
    rewrite (vec_get_Some _ _ _ Hidx). cbn [mbind outcome_bind]. rewrite (drop_S _ _ _ Hx) in Hr1. cbn [concat] in Hr1. rewrite <- app_assoc in Hr1.
    rewrite Forall_lookup in Hw. destruct (reader_read_tensor _ (la_tensor a) (offset idx) _ _ _ _ _ Hr1 (Hw _ _ Hx)) as (r2 & E2 & Hr2). exists r2. split; [done|].
    rewrite Nat.add_1_r. unfold lane_each in *. rewrite (take_S_r _ _ _ Hidx), (take_S_r _ _ _ Hx), zip_with_app by (rewrite !length_take; lia). cbn [zip_with].
    rewrite Hoff in Hr2 by (by eapply cell_lt). by rewrite app_assoc.
  - exists r'. split; [done|]. rewrite Nat.add_0_l, drop_ge, !take_ge in Hr' by lia. done.
Qed.

Lemma read_lane_ok a offset r m rows rest sets calls : (forall i, i < n -> offset i = la_offset a i) -> rows_ok cells a rows ->
  reader_kv r (concat rows ++ rest) sets calls ->
  exists r', read_lane (la_tensor a) offset (la_width a) (length cells * la_width a) (r, m) = (Ok tt, (r', m)) /\
    reader_kv r' rest (sets ++ lane_staged (is_contiguous sinfo) a cells rows) calls.
Proof.
  intros Hoff Hrows Hr. pose proof Hrows as [Hl Hw]. unfold read_lane, lane_staged. destruct (is_contiguous sinfo) eqn:Ec.
  - destruct slot_head_ok as (h & Hh & E). rewrite (stx_bind_Ok _ _ _ h (r, m)) by (unfold stx_lift; by rewrite E).
    destruct (reader_read_tensor _ (la_tensor a) (offset h) (length cells * la_width a) _ _ _ _ Hr) as (r' & E' & Hr'); [rewrite (length_concat_rows _ _ Hw); lia|].
    exists r'. split; [unfold on_io; cbn [fst snd]; by rewrite E'|]. rewrite Hh. rewrite Hoff in Hr' by (by eapply cell_lt). done.
  - rewrite (stx_bind_Ok _ _ _ cells (r, m)) by (unfold stx_lift; by rewrite Hslot). destruct (read_each_ok a offset r rows rest sets calls Hoff Hrows Hr) as (r' & E & Hr').
    exists r'. split; [unfold on_io; cbn [fst snd]; by rewrite E|done].
Qed.

(** Too few bytes. *)
Lemma read_tensor_short t off k r input sets calls : reader_kv r input sets calls -> length input < k -> read_tensor t off k r = Err RuntimeError.
Proof. intros H Hn. rewrite (reader_left _ _ _ _ H) in Hn. unfold read_tensor, require_. by rewrite (proj2 (Nat.leb_gt _ _) Hn). Qed.

Lemma read_each_short t offset width r input sets calls k i : reader_kv r input sets calls -> i + k = length cells -> length input < k * width ->
  foldM (fun r i => idx ← vec_get cells i; read_tensor t (offset idx) width r) (seq i k) r = Err RuntimeError.
Proof.
  revert r i input sets. induction k as [|k IH]; intros r i input sets Hr Hi Hs; [lia|]. cbn [seq foldM].
  destruct (lookup_lt_is_Some_2 cells i ltac:(lia)) as [idx Hidx]. rewrite (vec_get_Some _ _ _ Hidx). cbn [mbind outcome_bind].
  destruct (Nat.lt_ge_cases (length input) width) as [Hlt|Hge]; [by rewrite (read_tensor_short _ _ _ _ _ _ _ Hr Hlt)|].
  rewrite <- (take_drop width input) in Hr. destruct (reader_read_tensor _ t (offset idx) width _ _ _ _ Hr) as (r1 & -> & Hr1); [rewrite length_take; lia|]. cbn [mbind outcome_bind].
  eapply IH; [exact Hr1|lia|]. rewrite length_drop. lia.
Qed.

Lemma read_lane_short t offset width r m input sets calls : reader_kv r input sets calls -> length input < length cells * width ->
  read_lane t offset width (length cells * width) (r, m) = (Err RuntimeError, (r, m)).
Proof.
  intros Hr Hs. unfold read_lane. destruct (is_contiguous sinfo).
  - destruct slot_head_ok as (h & Hh & E). rewrite (stx_bind_Ok _ _ _ h (r, m)) by (unfold stx_lift; by rewrite E). unfold on_io. cbn [fst snd]. by rewrite (read_tensor_short _ _ _ _ _ _ _ Hr Hs).
  - rewrite (stx_bind_Ok _ _ _ cells (r, m)) by (unfold stx_lift; by rewrite Hslot). unfold on_io. cbn [fst snd]. by rewrite (read_each_short _ _ _ _ _ _ _ _ _ Hr).
Qed.

(** Enough bytes are rows. *)
Lemma rows_of_bytes a (l : list Z) : length l = length cells * la_width a -> exists rows, rows_ok cells a rows /\ concat rows = l.
Proof.
  unfold rows_ok. generalize (length cells). intros k. revert l. induction k as [|k IH]; intros l Hl; [exists []; split; [done|]; by destruct l|].
  destruct (IH (drop (la_width a) l)) as (rows & [H1 H2] & H3); [rewrite length_drop; lia|]. exists (take (la_width a) l :: rows). split; [split|].
  - cbn. by rewrite H1.
  - constructor; [rewrite length_take; lia|done].
  - cbn. by rewrite H3, take_drop.
Qed.
(** ** Items

    Rows of the sizes the items ask for, and those with the integers expected. *)
Definition sized (x : item) (rows : list (list Z)) : Prop :=
  match x with Head k _ => length (concat rows) = k | Lane a => rows_ok cells a rows end.

Definition matching (x : item) (rows : list (list Z)) : Prop :=
  match x with Head k v => rows = [le_bytes k v] | Lane a => rows_ok cells a rows end.

Definition filled_bytes (fill : list (list (list Z))) : list Z := concat (concat (A:=Z) <$> fill).

(** What is staged for the lanes. *)
Definition item_staged (x : item) (rows : list (list Z)) : list staged_set :=
  match x with Head _ _ => [] | Lane a => lane_staged (is_contiguous sinfo) a cells rows end.

Definition all_staged (its : list item) (fill : list (list (list Z))) : list staged_set := concat (zip_with item_staged its fill).

Context (m : kv_io).

(** [f] reads the items, or gives up because the input does not begin with them. *)
Definition reads (f : stx (llama_io_read_host kv_io * kv_io) bool) (its : list item) : Prop := forall r input sets calls, reader_kv r input sets calls ->
  (exists fill rest r', Forall2 sized its fill /\ input = filled_bytes fill ++ rest /\ f (r, m) = (Ok true, (r', m)) /\ reader_kv r' rest (sets ++ all_staged its fill) calls) \/
  (exists res r', f (r, m) = (res, (r', m)) /\ (res = Ok false \/ res = Err RuntimeError) /\ forall fill rest, Forall2 matching its fill -> input <> filled_bytes fill ++ rest).

Lemma reads_ext f g its : (forall r, f (r, m) = g (r, m)) -> reads g its -> reads f its.
Proof. intros E H r input sets calls Hr. rewrite E. by apply H. Qed.

Lemma reads_nil : reads (mret true) [].
Proof.
  intros r input sets calls Hr. left. exists [], input, r. split; [constructor|]. split; [done|]. split; [done|]. by rewrite app_nil_r.
Qed.

Lemma matching_sized x rows : matching x rows -> sized x rows.
Proof. destruct x as [k v|a]; [|done]. intros ->. cbn. by rewrite app_nil_r, le_bytes_length. Qed.

Lemma sized_length x rows rows' : sized x rows -> sized x rows' -> length (concat rows) = length (concat rows').
Proof.
  destruct x as [k v|a]; cbn; [congruence|]. intros [H1 H2] [H3 H4]. rewrite (length_concat_rows _ _ H2), (length_concat_rows _ _ H4). congruence.
Qed.

Lemma filled_length its fill fill' : Forall2 sized its fill -> Forall2 sized its fill' -> length (filled_bytes fill) = length (filled_bytes fill').
Proof.
  intros H. revert fill'. induction H as [|x rows its fill Hx _ IH]; intros fill' H'; [by apply Forall2_nil_inv_l in H' as ->|].
  apply Forall2_cons_inv_l in H' as (rows' & fill1 & Hx' & H' & ->). unfold filled_bytes in *. cbn [fmap list_fmap concat]. rewrite !length_app. f_equal; [by eapply sized_length|by apply IH].
Qed.

Lemma matching_all its fill : Forall2 matching its fill -> Forall2 sized its fill.
Proof. intros H. eapply Forall2_impl; [exact H|]. apply matching_sized. Qed.

(** One after the other. *)
Lemma reads_app f g its1 its2 : reads f its1 -> reads g its2 -> reads (ok ← f; if ok : bool then g else mret false) (its1 ++ its2).
Proof.
  intros Hf Hg r input sets calls Hr. destruct (Hf r input sets calls Hr) as [(fill & rest & r1 & H1 & -> & E & Hr1)|(res & r1 & E & Hres & Hno)].
  - rewrite (stx_bind_Ok _ _ _ _ _ E). destruct (Hg r1 rest _ calls Hr1) as [(fill2 & rest2 & r2 & H2 & -> & E2 & Hr2)|(res & r2 & E2 & Hres & Hno)].
    + left. exists (fill ++ fill2), rest2, r2. split; [by apply Forall2_app|]. split; [unfold filled_bytes; by rewrite fmap_app, concat_app, app_assoc|]. split; [done|].
      unfold all_staged in *. rewrite zip_with_app by (by eapply Forall2_length). by rewrite concat_app, app_assoc.
    + right. exists res, r2. split; [done|]. split; [done|]. intros fill' rest' H' Heq. apply Forall2_app_inv_l in H' as (f1 & f2 & H1' & H2' & ->).
      unfold filled_bytes in *. rewrite fmap_app, concat_app, <- app_assoc in Heq. apply app_inj_1 in Heq as [_ Heq]; [by apply (Hno f2 rest')|].
      apply (filled_length its1); [done|by apply matching_all].
  - right. exists res, r1. split; [|split; [done|]].
    + unfold mbind, stx_bind. rewrite E. by destruct Hres as [-> | ->].
    + intros fill' rest' H' ->. apply Forall2_app_inv_l in H' as (f1 & f2 & H1' & H2' & ->). apply (Hno f1 (filled_bytes f2 ++ rest') H1'). unfold filled_bytes. by rewrite fmap_app, concat_app, app_assoc.
Qed.

(** An integer that is compared. *)
Lemma reads_head (test : Z -> bool) (rd : llama_io_read_host kv_io -> outcome (Z * llama_io_read_host kv_io)) k v f its :
  (forall r input sets calls, reader_kv r input sets calls -> length input < k -> rd r = Err RuntimeError) ->
  (forall r l rest sets calls, reader_kv r (l ++ rest) sets calls -> length l = k -> exists x r', rd r = Ok (x, r') /\ reader_kv r' rest sets calls /\ (l = le_bytes k v -> test x = true)) ->
  reads f its -> reads (x ← on_io rd; if negb (test x) then mret false else f) (Head k v :: its).
Proof.
  intros Hshort Hread Hf r input sets calls Hr. destruct (Nat.lt_ge_cases (length input) k) as [Hlt|Hge].
  { right. exists (Err RuntimeError), r. split; [unfold mbind, stx_bind, on_io; cbn [fst snd]; by rewrite (Hshort _ _ _ _ Hr Hlt)|]. split; [by right|].
    intros fill rest H ->. apply Forall2_cons_inv_l in H as (rows & fill' & -> & _ & ->). unfold filled_bytes in Hlt. cbn in Hlt. rewrite app_nil_r, !length_app, le_bytes_length in Hlt. lia. }
  rewrite <- (take_drop k input) in Hr. destruct (Hread r _ _ sets calls Hr) as (x & r1 & E & Hr1 & Hx); [rewrite length_take; lia|].
  rewrite (stx_bind_Ok _ _ _ x (r1, m)) by (unfold on_io; cbn [fst snd]; by rewrite E).
  assert (forall fill rest, Forall2 matching (Head k v :: its) fill -> input = filled_bytes fill ++ rest -> test x = true /\ exists fill', Forall2 matching its fill' /\ drop k input = filled_bytes fill' ++ rest) as Hinv.
  { intros fill rest H ->. apply Forall2_cons_inv_l in H as (rows & fill' & -> & H & ->). unfold filled_bytes in *. cbn [fmap list_fmap concat] in *. rewrite app_nil_r, <- app_assoc in *.
    assert (take k (le_bytes k v ++ concat (concat (A:=Z) <$> fill') ++ rest) = le_bytes k v) as Et by (rewrite take_app_length' by (by rewrite le_bytes_length); done).
    split; [by apply Hx|]. exists fill'. split; [done|]. by rewrite drop_app_length' by (by rewrite le_bytes_length). }
  destruct (test x) eqn:Et; cbn [negb].
  - destruct (Hf r1 _ sets calls Hr1) as [(fill & rest & r2 & H2 & Hin & E2 & Hr2)|(res & r2 & E2 & Hres & Hno)].
    + left. exists ([take k input] :: fill), rest, r2. split; [constructor; [|done]; cbn; rewrite app_nil_r, length_take; lia|]. split; [|done].
      unfold filled_bytes. cbn [fmap list_fmap concat]. rewrite app_nil_r, <- app_assoc. fold (filled_bytes fill). by rewrite <- Hin, take_drop.
    + right. exists res, r2. split; [done|]. split; [done|]. intros fill rest H Heq. destruct (Hinv _ _ H Heq) as (_ & fill' & H' & Heq'). by apply (Hno fill' rest).
  - right. exists (Ok false), r1. split; [done|]. split; [by left|]. intros fill rest H Heq. destruct (Hinv _ _ H Heq) as (E' & _). congruence.
Qed.

(** The transfers of a lane. *)
Lemma reads_lane a offset all : (forall i, i < n -> offset i = la_offset a i) -> all = length cells * la_width a ->
  reads (read_lane (la_tensor a) offset (la_width a) all;; mret true) [Lane a].
Proof.
  intros Hoff -> r input sets calls Hr. destruct (Nat.lt_ge_cases (length input) (length cells * la_width a)) as [Hlt|Hge].
  - right. exists (Err RuntimeError), r. split; [unfold mbind, stx_bind; by rewrite (read_lane_short _ _ _ _ _ _ _ _ Hr Hlt)|]. split; [by right|].
    intros fill rest H ->. apply Forall2_cons_inv_l in H as (rows & fill' & [H1 H2] & _ & ->). unfold filled_bytes in Hlt. cbn in Hlt. rewrite !length_app, (length_concat_rows _ _ H2) in Hlt. nia.
  - destruct (rows_of_bytes a (take (length cells * la_width a) input)) as (rows & Hrows & Er); [rewrite length_take; lia|].
    rewrite <- (take_drop (length cells * la_width a) input), <- Er in Hr. destruct (read_lane_ok a offset r m rows _ sets calls Hoff Hrows Hr) as (r' & E & Hr').
    left. exists [rows], (drop (length cells * la_width a) input), r'. split; [constructor; [done|constructor]|]. split; [unfold filled_bytes; cbn; by rewrite app_nil_r, Er, take_drop|].
    split; [by rewrite (stx_bind_Ok _ _ _ _ _ E)|]. unfold all_staged. cbn. by rewrite app_nil_r.
Qed.
(** The integers. *)
Lemma read_u32_short r input sets calls : reader_kv r input sets calls -> length input < 4 -> read_u32 r = Err RuntimeError.
Proof. intros H Hs. unfold read_u32. by rewrite (reader_short _ _ _ _ _ H Hs). Qed.

Lemma reads_i32 v f its : type_ok v -> reads f its -> reads (x ← on_io read_i32; if negb (v =? x)%Z then mret false else f) (Head 4 v :: its).
Proof.
  intros Hv Hf. apply (reads_head (Z.eqb v)); [| |done].
  - intros r input sets calls H Hs. unfold read_i32. by rewrite (reader_short _ _ _ _ _ H Hs).
  - intros r l rest sets calls H Hl. destruct (reader_read _ 4 _ _ _ _ H Hl) as (r' & E & Hr'). eexists _, r'. split; [unfold read_i32; by rewrite E|]. split; [done|]. intros ->. cbn [fst]. rewrite le_i32 by done. apply Z.eqb_refl.
Qed.

Lemma reads_u32_test test v f its : (0 <= v <= UINT32_MAX)%Z -> test v = true -> reads f its -> reads (x ← on_io read_u32; if negb (test x) then mret false else f) (Head 4 v :: its).
Proof.
  intros Hv Ht Hf. apply reads_head; [| |done].
  - intros r input sets calls H Hs. by eapply read_u32_short.
  - intros r l rest sets calls H Hl. destruct (reader_read _ 4 _ _ _ _ H Hl) as (r' & E & Hr'). eexists _, r'. split; [unfold read_u32; by rewrite E|]. split; [done|]. intros ->. cbn [fst]. by rewrite le_u32.
Qed.

Lemma reads_u32 v f its : (0 <= v <= UINT32_MAX)%Z -> reads f its -> reads (x ← on_io read_u32; if negb (v =? x)%Z then mret false else f) (Head 4 v :: its).
Proof. intros Hv. apply (reads_u32_test (Z.eqb v)); [done|apply Z.eqb_refl]. Qed.

Lemma reads_u64 v f its : (0 <= v <= UINT64_MAX)%Z -> reads f its -> reads (x ← on_io read_u64; if negb (v =? x)%Z then mret false else f) (Head 8 v :: its).
Proof.
  intros Hv Hf. apply (reads_head (Z.eqb v)); [| |done].
  - intros r input sets calls H Hs. unfold read_u64. by rewrite (reader_short _ _ _ _ _ H Hs).
  - intros r l rest sets calls H Hl. destruct (reader_read _ 8 _ _ _ _ H Hl) as (r' & E & Hr'). eexists _, r'. split; [unfold read_u64; by rewrite E|]. split; [done|]. intros ->. cbn [fst]. rewrite le_u64 by done. apply Z.eqb_refl.
Qed.

(** ** Layers *)

Context (ns st : nat) (Hst : st < ns) (Hcount : length cells <= n).

Lemma reads_forM {A} (f : A -> stx (llama_io_read_host kv_io * kv_io) bool) (g : A -> list item) l : (forall a, a ∈ l -> reads (f a) (g a)) -> reads (forM_ f l) (concat (g <$> l)).
Proof.
  induction l as [|a l IH]; intros Hf; [apply reads_nil|]. cbn [forM_ fmap list_fmap concat]. apply reads_app; [apply Hf; by left|]. apply IH. intros; apply Hf. by right.
Qed.

Lemma reads_rows t row : (0 <= row)%Z -> (Z.of_nat n * row <= UINT64_MAX)%Z ->
  reads (read_rows t row (length cells) sinfo;; mret true) [Lane (mk_lane t 0 (Z.to_nat row))].
Proof.
  intros Hr Hn. eapply (reads_ext _ (read_lane t (fun i => Z.to_nat (u64 (Z.of_nat i * row))) (Z.to_nat row) (Z.to_nat (u64 (Z.of_nat (length cells) * row)));; mret true)).
  - intros r. unfold read_rows, read_lane. by rewrite (proj2 (Nat.eqb_neq _ _)) by lia.
  - apply (reads_lane (mk_lane t 0 (Z.to_nat row))); cbn [la_width]; [intros i Hi; unfold la_offset; cbn [la_base la_width]|]; rewrite u64_id by nia; nia.
Qed.

Lemma reads_keys v_trans l : layer_fits v_trans ns n l -> reads (read_keys st (length cells) sinfo l) (key_items st l).
Proof.
  intros [[Hk _] [Ht _] [Hr Hn] _ _]. destruct (lookup_lt_is_Some_2 (k_stream l) st) as [t Hkt]; [lia|]. unfold key_items. rewrite Hkt. cbn [default from_option id].
  eapply reads_ext; [intros r; unfold read_keys; by rewrite (stx_bind_Ok _ _ _ t (r, m)) by (unfold stx_lift; by rewrite (vec_get_Some _ _ _ Hkt))|].
  apply reads_i32; [done|]. apply reads_u64; [done|]. apply reads_rows; lia.
Qed.

Lemma reads_values l : layer_fits false ns n l -> reads (read_values st (length cells) sinfo l) (value_items false n st l).
Proof.
  intros [[_ Hv] [_ Ht] _ [Hr Hn] _]. destruct (lookup_lt_is_Some_2 (v_stream l) st) as [t Hvt]; [lia|]. unfold value_items. rewrite Hvt.
  eapply reads_ext; [intros r; unfold read_values; by rewrite (stx_bind_Ok _ _ _ t (r, m)) by (unfold stx_lift; by rewrite (vec_get_Some _ _ _ Hvt))|].
  destruct t as [t|]; [|apply reads_nil]. apply reads_i32; [done|]. apply reads_u64; [done|]. apply reads_rows; lia.
Qed.

Lemma reads_channel v el E j : (0 <= el <= UINT32_MAX)%Z -> (Z.of_nat n <= UINT32_MAX)%Z -> (E * Z.of_nat n <= UINT32_MAX)%Z -> (E * Z.of_nat n * el <= UINT32_MAX)%Z -> (Z.of_nat j < E)%Z ->
  reads (read_channel v el n (length cells) sinfo j;; mret true) [Lane (channel_lane v n el j)].
Proof.
  intros Hel Hn HE Hall Hj. apply (reads_lane (channel_lane v n el j) (fun idx => Z.to_nat (u64 (u32 (Z.of_nat idx + u32 (Z.of_nat j * Z.of_nat n)) * el)))).
  - intros i Hi. assert ((Z.of_nat j + 1) * Z.of_nat n <= E * Z.of_nat n)%Z as Hjn by nia. rewrite (u32_id (Z.of_nat j * Z.of_nat n)) by nia. rewrite u32_id by nia.
    assert ((Z.of_nat i + Z.of_nat j * Z.of_nat n) * el <= E * Z.of_nat n * el)%Z by (apply Z.mul_le_mono_nonneg_r; nia).
    rewrite u64_id by (unfold UINT32_MAX, UINT64_MAX in *; nia). unfold la_offset, channel_lane. cbn [la_base la_width]. nia.
  - cbn [channel_lane la_width]. rewrite u64_id by (unfold UINT32_MAX, UINT64_MAX in *; nia). nia.
Qed.

Lemma reads_values_trans l : layer_fits true ns n l -> reads (read_values_trans n st (length cells) sinfo l) (value_items true n st l).
Proof.
  intros [[_ Hv] [_ Ht] _ (Hel & He & Hn & Hen & Hall) _]. destruct (lookup_lt_is_Some_2 (v_stream l) st) as [t Hvt]; [lia|]. unfold value_items. rewrite Hvt.
  eapply reads_ext; [intros r; unfold read_values_trans; by rewrite (stx_bind_Ok _ _ _ t (r, m)) by (unfold stx_lift; by rewrite (vec_get_Some _ _ _ Hvt))|].
  destruct t as [t|]; [|apply reads_nil]. cbn [app]. apply reads_i32; [done|]. apply reads_u32; [done|]. apply reads_u32; [done|]. rewrite (proj2 (Nat.eqb_neq _ _)) by lia.
  replace ((fun j => Lane (channel_lane t n (v_size_el l) j)) <$> seq 0 (Z.to_nat (n_embd_v_gqa l))) with (concat ((fun j => [Lane (channel_lane t n (v_size_el l) j)]) <$> seq 0 (Z.to_nat (n_embd_v_gqa l)))).
  - apply reads_forM. intros j Hj%elem_of_seq. by eapply reads_channel; [..|exact Hen|exact Hall|lia].
  - generalize (seq 0 (Z.to_nat (n_embd_v_gqa l))). intros js. induction js as [|j js IH]; [done|]. cbn. by rewrite <- IH.
Qed.

(** A failure either way. *)
Definition fails (x : outcome bool * (llama_io_read_host kv_io * kv_io)) : Prop := (x.1 = Ok false \/ x.1 = Err RuntimeError) /\ x.2.2 = m.

Lemma reads_weak f g its : (forall r input sets calls, reader_kv r input sets calls -> f (r, m) = g (r, m) \/ fails (f (r, m)) /\ fails (g (r, m))) -> reads g its -> reads f its.
Proof.
  intros H Hg r input sets calls Hr. destruct (H r _ _ _ Hr) as [E|[[H1 H2] [H3 H4]]]; [rewrite E; by apply Hg|]. right.
  destruct (f (r, m)) as [res [r1 m1]]. cbn in H1, H2. subst m1. exists res, r1. split; [done|]. split; [done|].
  destruct (Hg r input sets calls Hr) as [(fill & rest & r' & _ & _ & E & _)|(res' & r' & E & _ & Hno)]; [|done]. rewrite E in H3. by destruct H3.
Qed.

Lemma u32_cases r input sets calls : reader_kv r input sets calls ->
  (exists v r', on_io read_u32 (r, m) = (Ok v, (r', m)) /\ reader_kv r' (drop 4 input) sets calls /\ v = le_value (take 4 input) /\ 4 <= length input) \/
  (on_io read_u32 (r, m) = (Err RuntimeError, (r, m)) /\ length input < 4).
Proof.
  intros Hr. destruct (Nat.lt_ge_cases (length input) 4) as [Hlt|Hge].
  - right. split; [|done]. unfold on_io. cbn [fst snd]. by rewrite (read_u32_short _ _ _ _ Hr Hlt).
  - left. pose proof Hr as Hr0. rewrite <- (take_drop 4 input) in Hr0. destruct (reader_read _ 4 _ _ _ _ Hr0) as (r' & E & Hr'); [rewrite length_take; lia|].
    exists (le_value (take 4 input)), r'. split; [|done]. unfold on_io, read_u32. cbn [fst snd]. by rewrite E.
Qed.

Lemma reads_data ly v_trans c : cells_of st (io_cache m) = Ok c -> cells_size c = n -> Forall (layer_fits v_trans ns n) ly -> (Z.of_nat (length ly) <= UINT32_MAX)%Z ->
  reads (state_read_data ly v_trans st (length cells) sinfo) (items v_trans n st ly).
Proof.
  intros Hc Hn Hf Hl. rewrite Forall_forall in Hf. unfold items. cbn [app].
  eapply (reads_weak _ (v ← on_io read_u32; if negb (eqb v_trans (negb (v =? 0)%Z)) then mret false else
    l ← on_io read_u32; if negb (l =? Z.of_nat (length ly))%Z then mret false else
    ok ← forM_ (read_keys st (length cells) sinfo) ly;
    if ok : bool then if v_trans then forM_ (read_values_trans n st (length cells) sinfo) ly else forM_ (read_values st (length cells) sinfo) ly else mret false)).
  - intros r input sets calls Hr. unfold state_read_data. destruct (u32_cases _ _ _ _ Hr) as [(v & r1 & E1 & Hr1 & _)|[E1 _]]; [|left; unfold mbind, stx_bind; by rewrite E1].
    rewrite !(stx_bind_Ok _ _ _ _ _ E1). destruct (u32_cases _ _ _ _ Hr1) as [(l & r2 & E2 & Hr2 & _)|[E2 _]].
    + rewrite (stx_bind_Ok _ _ _ _ _ E2), (stx_bind_Ok get_cache _ _ (io_cache m) (r2, m)) by done. rewrite (stx_bind_Ok _ _ _ c (r2, m)) by (unfold stx_lift; by rewrite Hc).
      rewrite Hn, (proj2 (Nat.ltb_ge _ _) Hcount). destruct (eqb v_trans _) eqn:Ev; cbn [negb].
      * left. rewrite (stx_bind_Ok _ _ _ _ _ E2). destruct (l =? _)%Z; [|done]. cbn [negb]. unfold mbind, stx_bind. destruct (forM_ _ ly (r2, m)) as [[[]|] ?]; [|done..]. by destruct v_trans.
      * right. split; [|by split; [left|]]. by destruct (l =? _)%Z; split; [left| |left|].
    + destruct (eqb v_trans _) eqn:Ev; cbn [negb]; [left; unfold mbind, stx_bind; by rewrite E2|]. right. split; [|by split; [left|]]. unfold mbind, stx_bind. rewrite E2. by split; [right|].
  - apply (reads_u32_test (fun v => eqb v_trans (negb (v =? 0)%Z))); [destruct v_trans; unfold UINT32_MAX; cbn; lia|by destruct v_trans|].
    apply (reads_u32_test (fun l => (l =? Z.of_nat (length ly))%Z)); [lia|apply Z.eqb_refl|]. apply reads_app; [apply reads_forM; intros l Hin; by eapply reads_keys, Hf|].
    destruct v_trans; apply reads_forM; intros l Hin; [by apply reads_values_trans, Hf|by apply reads_values, Hf].
Qed.
End reading.

(** * After the commit *)

(** Lanes of [n] cells that share no byte. *)
Definition lanes_apart (n : nat) (a b : lane) : Prop := la_tensor a <> la_tensor b \/ la_offset a n <= la_base b \/ la_offset b n <= la_base a.

Lemma lanes_apart_sym n a b : lanes_apart n a b -> lanes_apart n b a.
Proof. unfold lanes_apart. intros [?|[?|?]]; auto. Qed.

(** The tensors a layer has for stream [st]. *)
Definition layer_tensor (l : kv_layer) (st t : nat) : Prop := k_stream l !! st = Some t \/ v_stream l !! st = Some (Some t).

Lemma layer_tensor_in l st t : layer_tensor l st t -> t ∈ layer_tensors l.
Proof.
  unfold layer_tensors. intros [H|H]; apply elem_of_app; [left; by eapply list_elem_of_lookup_2|right]. apply list_elem_of_omap. exists (Some t). split; [by eapply list_elem_of_lookup_2|done].
Qed.

Lemma omap_id_inj (l : list (option nat)) i j t : NoDup (omap id l) -> l !! i = Some (Some t) -> l !! j = Some (Some t) -> i = j.
Proof.
  revert i j. induction l as [|x l IH]; intros i j Hn Hi Hj; [done|]. destruct x as [x|]; cbn in Hn.
  - apply NoDup_cons in Hn as [Hx Hn]. assert (forall k, l !! k = Some (Some x) -> False) as Hno.
    { intros k Hk. apply Hx, list_elem_of_omap. exists (Some x). split; [by eapply list_elem_of_lookup_2|done]. }
    destruct i as [|i], j as [|j]; cbn in Hi, Hj; [done|injection Hi as ->; by destruct (Hno j)|injection Hj as ->; by destruct (Hno i)|]. f_equal. by apply IH.
  - destruct i as [|i], j as [|j]; cbn in Hi, Hj; try done. f_equal. by apply IH.
Qed.

Lemma layer_tensor_inj l st st' t : NoDup (layer_tensors l) -> layer_tensor l st t -> layer_tensor l st' t -> st = st'.
Proof.
  unfold layer_tensors. intros (H1 & H2 & H3)%NoDup_app H H'.
  assert (forall a b, k_stream l !! a = Some t -> v_stream l !! b = Some (Some t) -> False) as Hkv.
  { intros a b Ha Hb. apply (H2 t); [by eapply list_elem_of_lookup_2|]. apply list_elem_of_omap. exists (Some t). split; [by eapply list_elem_of_lookup_2|done]. }
  destruct H as [H|H], H' as [H'|H']; [exact (NoDup_lookup _ _ _ _ H1 H H')|by destruct (Hkv _ _ H H')|by destruct (Hkv _ _ H' H)|exact (omap_id_inj _ _ _ _ H3 H H')].
Qed.

Lemma layers_tensor_inj ly l l' st st' t : NoDup (concat (layer_tensors <$> ly)) -> l ∈ ly -> l' ∈ ly -> layer_tensor l st t -> layer_tensor l' st' t -> st = st'.
Proof.
  induction ly as [|x ly IH]; intros Hn Hl Hl' Ht Ht'; [by apply not_elem_of_nil in Hl|]. cbn [fmap list_fmap concat] in Hn. apply NoDup_app in Hn as (H1 & H2 & H3).
  assert (forall y k, y ∈ ly -> layer_tensor y k t -> t ∈ concat (layer_tensors <$> ly)) as Hin.
  { intros y k Hy Hk. apply elem_of_concat. exists (layer_tensors y). split; [exact (layer_tensor_in _ _ _ Hk)|by apply list_elem_of_fmap_2]. }
  apply elem_of_cons in Hl as [->|Hl], Hl' as [->|Hl']; [exact (layer_tensor_inj _ _ _ _ H1 Ht Ht')|exfalso..|by apply IH].
  - exact (H2 t (layer_tensor_in _ _ _ Ht) (Hin _ _ Hl' Ht')).
  - exact (H2 t (layer_tensor_in _ _ _ Ht') (Hin _ _ Hl Ht)).
Qed.

Lemma key_not_value ly l l' st t : NoDup (concat (layer_tensors <$> ly)) -> l ∈ ly -> l' ∈ ly -> k_stream l !! st = Some t -> v_stream l' !! st = Some (Some t) -> False.
Proof.
  induction ly as [|x ly IH]; intros Hn Hl Hl' Ht Ht'; [by apply not_elem_of_nil in Hl|]. cbn [fmap list_fmap concat] in Hn. apply NoDup_app in Hn as (H1 & H2 & H3).
  assert (forall y, y ∈ ly -> t ∈ layer_tensors y -> t ∈ concat (layer_tensors <$> ly)) as Hin by (intros y Hy Hyt; apply elem_of_concat; exists (layer_tensors y); split; [done|by apply list_elem_of_fmap_2]).
  pose proof (layer_tensor_in l st _ (or_introl Ht)) as Ia. pose proof (layer_tensor_in l' st _ (or_intror Ht')) as Ib.
  apply elem_of_cons in Hl as [->|Hl], Hl' as [->|Hl']; [|exact (H2 _ Ia (Hin _ Hl' Ib))|exact (H2 _ Ib (Hin _ Hl Ia))|by apply IH].
  unfold layer_tensors in H1. apply NoDup_app in H1 as (_ & H1 & _). apply (H1 t); [by eapply list_elem_of_lookup_2|].
  apply list_elem_of_omap. exists (Some t). split; [by eapply list_elem_of_lookup_2|done].
Qed.

(** ** Lanes do not overlap *)

Lemma elem_of_lanes v_trans n st ly a : a ∈ lanes v_trans n st ly <-> exists l, l ∈ ly /\ (a ∈ omap item_lane (key_items st l) \/ a ∈ omap item_lane (value_items v_trans n st l)).
Proof.
  assert (forall (g : kv_layer -> list item), a ∈ omap item_lane (concat (g <$> ly)) <-> exists l, l ∈ ly /\ a ∈ omap item_lane (g l)) as Hg.
  { intros g. rewrite list_elem_of_omap. split.
    - intros (x & (its & Hx & (l & -> & Hl)%list_elem_of_fmap)%elem_of_concat & Ha). exists l. split; [done|]. apply list_elem_of_omap. by exists x.
    - intros (l & Hl & (x & Hx & Ha)%list_elem_of_omap). exists x. split; [|done]. apply elem_of_concat. exists (g l). split; [done|by apply list_elem_of_fmap_2]. }
  unfold lanes, items. rewrite !omap_app. cbn [omap list_omap item_lane app]. rewrite elem_of_app, !Hg. naive_solver.
Qed.

Lemma key_lane_tensor ns st l a : st < ns -> length (k_stream l) = ns -> a ∈ omap item_lane (key_items st l) -> k_stream l !! st = Some (la_tensor a).
Proof.
  intros Hst Hl. unfold key_items. cbn. intros ->%list_elem_of_singleton. cbn. destruct (lookup_lt_is_Some_2 (k_stream l) st) as [t ->]; [lia|done].
Qed.

Lemma value_lane_tensor v_trans n st l a : a ∈ omap item_lane (value_items v_trans n st l) -> v_stream l !! st = Some (Some (la_tensor a)).
Proof.
  unfold value_items. destruct (v_stream l !! st) as [[v|]|]; [|by intros H%not_elem_of_nil..]. destruct v_trans; cbn.
  - intros (x & (j & -> & _)%list_elem_of_fmap & [= <-])%list_elem_of_omap. done.
  - by intros ->%list_elem_of_singleton.
Qed.

Notation all_apart n := (StronglySorted (lanes_apart n)).

Lemma value_lanes_apart v_trans ns n st l : layer_fits v_trans ns n l -> all_apart n (omap item_lane (value_items v_trans n st l)).
Proof.
  intros _. unfold value_items. destruct (v_stream l !! st) as [[v|]|]; [|constructor..]. destruct v_trans; cbn; [|by repeat constructor].
  set (el := v_size_el l). generalize (Z.to_nat (n_embd_v_gqa l)). intros k. generalize 0. induction k as [|k IH]; intros j; [constructor|]. cbn. constructor; [apply IH|].
  apply Forall_forall. intros b (x & (i & -> & Hi%elem_of_seq)%list_elem_of_fmap & [= <-])%list_elem_of_omap. right. left. unfold la_offset, channel_lane. cbn [la_base la_width].
  assert (S j * (n * Z.to_nat el) <= i * (n * Z.to_nat el)) by (apply Nat.mul_le_mono_r; lia). lia.
Qed.

Lemma apart_concat n (g : kv_layer -> list lane) ly : (forall l, l ∈ ly -> all_apart n (g l)) -> (forall l a, l ∈ ly -> a ∈ g l -> la_tensor a ∈ layer_tensors l) ->
  NoDup (concat (layer_tensors <$> ly)) -> all_apart n (concat (g <$> ly)).
Proof.
  induction ly as [|l ly IH]; intros Hs Hg Hn; [constructor|]. cbn [fmap list_fmap concat] in *. apply NoDup_app in Hn as (_ & H2 & H3). apply StronglySorted_app_2.
  - intros a b Ha (x & Hb & (l' & -> & Hl')%list_elem_of_fmap)%elem_of_concat. left. intros E. apply (H2 (la_tensor a)); [apply Hg; [by left|done]|].
    apply elem_of_concat. exists (layer_tensors l'). rewrite E. split; [apply Hg; [by right|done]|by apply list_elem_of_fmap_2].
  - apply Hs. by left.
  - apply IH; [intros; apply Hs; by right|intros; apply Hg; [by right|done]|done].
Qed.

Lemma omap_concat {A B C} (f : A -> option B) (g : C -> list A) l : omap f (concat (g <$> l)) = concat ((fun x => omap f (g x)) <$> l).
Proof. induction l as [|x l IH]; [done|]. cbn [fmap list_fmap concat]. by rewrite omap_app, IH. Qed.

Section apart.
Context (v_trans : bool) (ns n : nat) (ly : list kv_layer) (Hly : Forall (layer_fits v_trans ns n) ly) (Hids : NoDup (concat (layer_tensors <$> ly))).

Lemma lane_tensor st a : st < ns -> a ∈ lanes v_trans n st ly -> exists l, l ∈ ly /\ layer_tensor l st (la_tensor a).
Proof.
  intros Hst (l & Hl & Ha)%elem_of_lanes. exists l. split; [done|]. rewrite Forall_forall in Hly. destruct (lf_streams _ _ _ _ (Hly l Hl)) as [Hk _].
  destruct Ha as [Ha|Ha]; [left; by eapply key_lane_tensor|right; by eapply value_lane_tensor].
Qed.

Lemma lanes_all_apart st : st < ns -> all_apart n (lanes v_trans n st ly).
Proof.
  intros Hst. unfold lanes, items. rewrite !omap_app. cbn [omap list_omap item_lane app]. rewrite !omap_concat. rewrite Forall_forall in Hly. apply StronglySorted_app_2.
  - intros a b (x & Ha & (l & -> & Hl)%list_elem_of_fmap)%elem_of_concat (y & Hb & (l' & -> & Hl')%list_elem_of_fmap)%elem_of_concat. left. intros E.
    destruct (lf_streams _ _ _ _ (Hly l Hl)) as [Hk _]. apply (key_lane_tensor ns) in Ha; [|done..]. apply value_lane_tensor in Hb. rewrite <- E in Hb.
    exact (key_not_value _ _ _ _ _ Hids Hl Hl' Ha Hb).
  - apply apart_concat; [|intros l a Hl Ha|done].
    + intros l _. cbn. by repeat constructor.
    + destruct (lf_streams _ _ _ _ (Hly l Hl)) as [Hk _]. apply (layer_tensor_in l st). left. by eapply key_lane_tensor.
  - apply apart_concat; [|intros l a Hl Ha|done].
    + intros l Hl. eapply value_lanes_apart. by apply Hly.
    + apply (layer_tensor_in l st). right. by eapply value_lane_tensor.
Qed.

Lemma streams_apart st st' a b : st < ns -> st' < ns -> st <> st' -> a ∈ lanes v_trans n st ly -> b ∈ lanes v_trans n st' ly -> la_tensor a <> la_tensor b.
Proof.
  intros H1 H2 Hne (l & Hl & Ht)%lane_tensor (l' & Hl' & Ht')%lane_tensor E; [|done..]. apply Hne. rewrite <- E in Ht'. exact (layers_tensor_inj _ _ _ _ _ _ Hids Hl Hl' Ht Ht').
Qed.
End apart.

(** ** Staged rows *)

(** The lanes of items with their rows. *)
Definition filled_lane (x : item * list (list Z)) : option (lane * list (list Z)) := match x.1 with Head _ _ => None | Lane a => Some (a, x.2) end.

Definition lane_rows (its : list item) (fill : list (list (list Z))) : list (lane * list (list Z)) := omap filled_lane (zip its fill).

Lemma lane_rows_lanes its fill : length its = length fill -> (lane_rows its fill).*1 = omap item_lane its.
Proof.
  revert fill. induction its as [|x its IH]; intros [|rows fill] H; try done. cbn in H. injection H as H. unfold lane_rows in *. cbn. destruct x as [k v|a]; cbn; by rewrite IH.
Qed.

Lemma lane_rows_ok cells its fill : Forall2 (sized cells) its fill -> Forall (fun ar => rows_ok cells ar.1 ar.2) (lane_rows its fill).
Proof. induction 1 as [|x rows its fill Hx _ IH]; [constructor|]. unfold lane_rows in *. cbn. destruct x as [k v|a]; cbn; [done|]. by constructor. Qed.

(** Row by row. *)
Definition each_staged (cells : list nat) (lr : list (lane * list (list Z))) : list staged_set := concat ((fun ar => lane_each ar.1 cells ar.2) <$> lr).

Section staged.
Context (n : nat) (sinfo : slot_info) (cells : list nat) (Hslot : idxs sinfo = [cells]) (Hcells : Forall (fun i => i < n) cells) (Hnodup : NoDup cells).

Lemma staged_each T its fill : Forall2 (sized cells) its fill -> foldl set_tensor T (all_staged sinfo cells its fill) = foldl set_tensor T (each_staged cells (lane_rows its fill)).
Proof.
  intros H. revert T. induction H as [|x rows its fill Hx _ IH]; intros T; [done|]. unfold all_staged, each_staged, lane_rows in *. cbn [zip_with concat zip]. rewrite foldl_app.
  destruct x as [k v|a]; cbn; [apply IH|]. rewrite (lane_staged_each _ _ _ _ _ Hslot Hx), foldl_app. apply IH.
Qed.

Lemma staged_all_fit T its fill : (forall a, a ∈ omap item_lane its -> lane_fits n T a) -> Forall2 (sized cells) its fill -> 0 < length cells ->
  Forall (staged_fits T) (all_staged sinfo cells its fill).
Proof.
  intros Hf H Hsome. induction H as [|x rows its fill Hx _ IH]; [constructor|]. unfold all_staged in *. cbn [zip_with concat]. apply Forall_app.
  split; [|apply IH; intros a Ha; apply Hf; destruct x; cbn; [done|by right]]. destruct x as [k v|a]; cbn; [constructor|]. pose proof (Hf a ltac:(by left)) as Hfa. unfold lane_staged. destruct (is_contiguous sinfo) eqn:Ec; [|by apply (lane_each_fit n)].
  constructor; [|constructor]. destruct Hfa as (data & E & Hl). exists data. split; [done|]. cbn [fst snd]. destruct Hx as [H1 H2]. rewrite (length_concat_rows _ _ H2), H1.
  pose proof (contiguous_cells _ _ Hslot Ec) as Es. set (h := default 0 (cells !! 0)) in *. rewrite Forall_lookup in Hcells.
  assert (forall k h, cells = seq h k -> 0 < k -> cells !! (k - 1) = Some (h + (k - 1))) as Hlast by (intros k h' -> Hk; rewrite lookup_seq_lt by lia; done).
  pose proof (Hcells _ _ (Hlast _ _ Es Hsome)) as Hlt. cbn in Hlt. unfold la_offset in *. nia.
Qed.

Lemma each_apart T cells' lr t p k : (forall ar i, ar ∈ lr -> i ∈ cells' -> covers_not t p k (la_tensor ar.1, la_offset ar.1 i, replicate (la_width ar.1) 0%Z)) ->
  Forall (fun ar => rows_ok cells' ar.1 ar.2) lr -> tensor_slice (foldl set_tensor T (each_staged cells' lr)) t p k = tensor_slice T t p k.
Proof.
  intros H Hok. apply set_tensors_apart. intros x (l & Hx & (ar & -> & Har)%list_elem_of_fmap)%elem_of_concat. unfold lane_each in Hx. apply elem_of_lookup_zip_with in Hx as (i & idx & row & -> & Hi & Hrow).
  specialize (H ar idx Har ltac:(by eapply list_elem_of_lookup_2)). rewrite Forall_forall in Hok. destruct (Hok ar Har) as [_ Hw]. rewrite Forall_lookup in Hw. specialize (Hw _ _ Hrow). cbn in Hw.
  unfold covers_not in *. cbn [fst snd] in *. by rewrite length_replicate, <- Hw in H.
Qed.

(** A row of a cell is apart from every other cell's rows. *)
Lemma row_apart a b i j : i < n -> j < n -> lanes_apart n a b \/ a = b /\ i <> j ->
  covers_not (la_tensor a) (la_offset a i) (la_width a) (la_tensor b, la_offset b j, replicate (la_width b) 0%Z).
Proof.
  intros Hi Hj H. unfold covers_not, lanes_apart, la_offset in *. cbn [fst snd]. rewrite length_replicate.
  destruct H as [[H|[H|H]]|[-> H]]; [left; congruence|right; left; nia|right; right; nia|]. right. destruct (decide (i < j)); [left|right]; nia.
Qed.

Section lanes.
Context (T : tensors) (lr : list (lane * list (list Z))) (Hfit : forall ar, ar ∈ lr -> lane_fits n T ar.1).
Context (Hok : Forall (fun ar => rows_ok cells ar.1 ar.2) lr) (Hap : all_apart n lr.*1).

(** A placed cell has its row. *)
Lemma row_placed a rows i idx row : (a, rows) ∈ lr -> cells !! i = Some idx -> rows !! i = Some row -> lane_bytes (foldl set_tensor T (each_staged cells lr)) a idx = row.
Proof.
  intros Hin Hi Hrow. apply list_elem_of_split in Hin as (l1 & l2 & El). rewrite El in *. rewrite fmap_app in Hap. apply StronglySorted_app in Hap as (_ & _ & Hs).
  cbn [fmap list_fmap fst] in Hs. apply StronglySorted_cons in Hs as [Ha _]. apply Forall_app in Hok as [_ Hok2]. apply Forall_cons in Hok2 as [[Hl Hw] Hok2]. cbn [fst snd] in *.
  assert (length row = la_width a) as Hlr by (rewrite Forall_lookup in Hw; by apply (Hw i)). rewrite Forall_lookup in Hcells.
  destruct (Hfit (a, rows)) as (data & Ed & Hd); [apply elem_of_app; right; by left|]. cbn in Ed, Hd.
  assert (exists s1 s2, lane_each a cells rows = s1 ++ (la_tensor a, la_offset a idx, row) :: s2 /\ forall y, y ∈ s2 -> exists j x, j ∈ cells /\ j <> idx /\ y = (la_tensor a, la_offset a j, x) /\ length x = la_width a) as (s1 & s2 & Es & Hs2).
  { assert (lane_each a cells rows = zip_with (fun i x => (la_tensor a, la_offset a i, x)) (take i cells ++ idx :: drop (S i) cells) (take i rows ++ row :: drop (S i) rows)) as -> by (by rewrite !take_drop_middle).
    rewrite zip_with_app by (rewrite !length_take; lia). cbn [zip_with].
    eexists _, _. split; [reflexivity|]. intros y (j & c & x & -> & Hc & Hx)%elem_of_lookup_zip_with. rewrite lookup_drop in Hc. rewrite lookup_drop in Hx. exists c, x. split; [by eapply list_elem_of_lookup_2|].
    split; [|split; [done|rewrite Forall_lookup in Hw; by eapply Hw]]. intros ->. pose proof (NoDup_lookup _ _ _ _ Hnodup Hi Hc). lia. }
  unfold each_staged. rewrite fmap_app, concat_app. cbn [fmap list_fmap concat fst snd]. rewrite Es. rewrite <- app_assoc. cbn [app]. rewrite app_assoc.
  pose proof (set_tensors_at T (concat ((fun ar => lane_each ar.1 cells ar.2) <$> l1) ++ s1) (la_tensor a, la_offset a idx, row) (s2 ++ concat ((fun ar => lane_each ar.1 cells ar.2) <$> l2))) as H.
  cbn [fst snd] in H. rewrite Hlr in H. apply H.
  - exists data. split; [done|]. cbn. pose proof (Hcells _ _ Hi). cbn in *. unfold la_offset in *. nia.
  - intros y [Hy|(l & Hy & (br & -> & Hbr)%list_elem_of_fmap)%elem_of_concat]%elem_of_app.
    + destruct (Hs2 y Hy) as (j & x & (j' & Hj)%list_elem_of_lookup & Hne & -> & Hx). pose proof (row_apart a a idx j (Hcells _ _ Hi) (Hcells _ _ Hj) ltac:(right; split; [done|congruence])) as Hr.
      unfold covers_not in *. cbn [fst snd] in *. rewrite Hx. by rewrite length_replicate in Hr.
    + unfold lane_each in Hy. apply elem_of_lookup_zip_with in Hy as (k & j & x & -> & Hj & Hx). rewrite Forall_forall in Ha. rewrite Forall_forall in Hok2. destruct (Hok2 br Hbr) as [_ Hbw]. rewrite Forall_lookup in Hbw. specialize (Hbw _ _ Hx). cbn in Hbw.
      pose proof (row_apart a br.1 idx j (Hcells _ _ Hi) (Hcells _ _ Hj) ltac:(left; apply Ha; by apply list_elem_of_fmap_2)) as Hr. unfold covers_not in *. cbn [fst snd] in *. rewrite Hbw. by rewrite length_replicate in Hr.
Qed.

(** Every other cell keeps its rows. *)
Lemma row_kept b j : j < n -> (forall ar, ar ∈ lr -> lanes_apart n b ar.1 \/ b = ar.1 /\ j ∉ cells) -> lane_bytes (foldl set_tensor T (each_staged cells lr)) b j = lane_bytes T b j.
Proof.
  intros Hj Hb. apply each_apart; [|done]. intros ar i Har Hi. rewrite Forall_forall in Hcells. apply row_apart; [done|by apply Hcells|].
  destruct (Hb ar Har) as [?|[-> Hn]]; [by left|right]. split; [done|]. by intros ->.
Qed.
End lanes.
End staged.

(** ** From one cache to another *)

(** The same integer, or lanes of one width. *)
Definition same_item (x y : item) : Prop :=
  match x, y with Head k v, Head k' v' => k = k' /\ v = v' | Lane a, Lane b => la_width a = la_width b | _, _ => False end.

Lemma same_value_items v_trans ns n ns0 n0 st st0 l l0 : layer_fits v_trans ns n l -> layer_fits v_trans ns0 n0 l0 -> same_layer l l0 -> st < ns -> st0 < ns0 ->
  Forall2 same_item (value_items v_trans n st l) (value_items v_trans n0 st0 l0).
Proof.
  intros Hl Hl0 [_ (E1 & E2 & E3 & E4) Hv] Hst Hst0. pose proof (lf_streams _ _ _ _ Hl) as [_ Hs]. pose proof (lf_streams _ _ _ _ Hl0) as [_ Hs0].
  destruct (lookup_lt_is_Some_2 (v_stream l) st ltac:(lia)) as [x Hx]. destruct (lookup_lt_is_Some_2 (v_stream l0) st0 ltac:(lia)) as [y Hy].
  pose proof (list_elem_of_lookup_2 _ _ _ Hx) as Ix. pose proof (list_elem_of_lookup_2 _ _ _ Hy) as Iy. unfold value_items. rewrite Hx, Hy. destruct x as [v|], y as [w|].
  - rewrite E1, E2, E3, E4. destruct v_trans; [|by repeat constructor]. cbn. repeat (constructor; [done|]). generalize (seq 0 (Z.to_nat (n_embd_v_gqa l0))). intros js. induction js; by constructor.
  - destruct (proj1 Hv ltac:(by exists v)) as [w Hw]. destruct (lf_values _ _ _ _ Hl0) as [H|H]; [by specialize (H _ Hw)|by destruct (H _ Iy)].
  - destruct (proj2 Hv ltac:(by exists w)) as [v Hw]. destruct (lf_values _ _ _ _ Hl) as [H|H]; [by specialize (H _ Hw)|by destruct (H _ Ix)].
  - constructor.
Qed.

Lemma same_items v_trans ns n ns0 n0 st st0 ly ly0 : Forall (layer_fits v_trans ns n) ly -> Forall (layer_fits v_trans ns0 n0) ly0 -> Forall2 same_layer ly ly0 -> st < ns -> st0 < ns0 ->
  Forall2 same_item (items v_trans n st ly) (items v_trans n0 st0 ly0).
Proof.
  intros Hl Hl0 Hs Hst Hst0. unfold items. apply Forall2_app; [|apply Forall2_app].
  - rewrite (Forall2_length _ _ _ Hs). by repeat constructor.
  - clear Hl Hl0. induction Hs as [|l l0 ly ly0 [[E1 E2] _ _] _ IH]; [constructor|]. cbn. rewrite E1, E2. by repeat (constructor; [done|]).
  - revert Hl Hl0. induction Hs as [|l l0 ly ly0 H _ IH]; intros Hl Hl0; [constructor|]. apply Forall_cons in Hl as [Hl1 Hl]. apply Forall_cons in Hl0 as [Hl2 Hl0]. cbn [fmap list_fmap concat]. apply Forall2_app; [by eapply same_value_items|by apply IH].
Qed.

Section restored.
Context (v_trans : bool) (ns n : nat) (ly : list kv_layer) (T : tensors) (Hly : kv_layers_ok v_trans ns n ly T).
Context (ns0 n0 : nat) (ly0 : list kv_layer) (T0 : tensors) (Hly0 : kv_layers_ok v_trans ns0 n0 ly0 T0) (Hsame : Forall2 same_layer ly ly0).
Context (st st0 : nat) (cells cells0 : list nat) (Hst : st < ns) (Hst0 : st0 < ns0) (Hlen : length cells = length cells0).
Context (Hcells : Forall (fun i => i < n) cells) (Hcells0 : Forall (fun i => i < n0) cells0) (Hnodup : NoDup cells0).
Context (sinfo : slot_info) (Hslot : idxs sinfo = [cells0]) (Hsome : 0 < length cells0).

Let its := items v_trans n st ly.
Let its0 := items v_trans n0 st0 ly0.

Lemma same_its : Forall2 same_item its its0.
Proof. eapply same_items; [apply (kl_layer _ _ _ _ _ Hly)|apply (kl_layer _ _ _ _ _ Hly0)|done..]. Qed.

(** What the source wrote is what the destination looks for. *)
Lemma written_matches : Forall2 (matching cells0) its0 (item_rows T cells <$> its).
Proof.
  assert (forall a, a ∈ omap item_lane its -> lane_fits n T a) as Hf by (intros a Ha; by apply (kl_fits _ _ _ _ _ Hly st)).
  pose proof same_its as Hs. revert Hf. clearbody its its0. induction Hs as [|x y l l0 Hxy _ IH]; intros Hf; [constructor|]. cbn [fmap list_fmap]. constructor; [|apply IH; intros a Ha; apply Hf; destruct x; cbn; [done|by right]].
  destruct x as [k v|a], y as [k' v'|b]; try done; cbn in Hxy |- *; [by destruct Hxy as [-> ->]|]. split; [by rewrite length_fmap|]. rewrite <- Hxy. apply Forall_fmap. eapply Forall_impl; [exact Hcells|]. intros i Hi. apply (lane_bytes_length n); [apply Hf; by left|done].
Qed.

(** The lanes of the destination with the rows of the source. *)
Lemma written_lanes fill i c : fill = item_rows T cells <$> its -> cells !! i = Some c ->
  Forall2 (fun ar r => ar.2 !! i = Some r) (lane_rows its0 fill) (cell_rows v_trans n st ly T c).
Proof.
  intros -> Hc. unfold cell_rows, lanes. fold its. pose proof same_its as Hs. clearbody its its0. induction Hs as [|x y l l0 Hxy _ IH]; [constructor|]. unfold lane_rows in *. cbn. destruct x as [k v|a], y as [k' v'|b]; try done. cbn. constructor; [|done]. cbn. by rewrite list_lookup_fmap, Hc.
Qed.

Section fill.
Context (fill : list (list (list Z))) (Hfill : Forall2 (sized cells0) its0 fill).
Notation staged := (all_staged sinfo cells0 its0 fill).

Lemma fill_lanes : (lane_rows its0 fill).*1 = lanes v_trans n0 st0 ly0.
Proof. apply lane_rows_lanes. by eapply Forall2_length. Qed.

Lemma fill_fits ar : ar ∈ lane_rows its0 fill -> lane_fits n0 T0 ar.1.
Proof. intros H. apply (kl_fits _ _ _ _ _ Hly0 st0); [done|]. rewrite <- fill_lanes. by apply list_elem_of_fmap_2. Qed.

Lemma fill_apart : all_apart n0 (lane_rows its0 fill).*1.
Proof. rewrite fill_lanes. apply (lanes_all_apart v_trans ns0); [apply (kl_layer _ _ _ _ _ Hly0)|apply (kl_ids _ _ _ _ _ Hly0)|done]. Qed.

Lemma fill_staged_fit : Forall (staged_fits T0) staged.
Proof. apply (staged_all_fit n0 sinfo cells0 Hslot Hcells0 Hnodup); [intros a Ha; by apply (kl_fits _ _ _ _ _ Hly0 st0)|done|done]. Qed.

(** Other cells keep their rows. *)
Lemma rows_kept st1 j : st1 < ns0 -> j < n0 -> st1 <> st0 \/ j ∉ cells0 ->
  cell_rows v_trans n0 st1 ly0 (foldl set_tensor T0 staged) j = cell_rows v_trans n0 st1 ly0 T0 j.
Proof.
  intros Hst1 Hj Hne. unfold cell_rows. apply list_fmap_ext. intros p b Hb. rewrite (staged_each _ _ Hslot) by done. apply (row_kept n0); [done|by apply (lane_rows_ok _ its0)|done|]. intros ar Har.
  assert (ar.1 ∈ lanes v_trans n0 st0 ly0) as Hin by (rewrite <- fill_lanes; by apply list_elem_of_fmap_2). pose proof (list_elem_of_lookup_2 _ _ _ Hb) as Ib.
  destruct (decide (st1 = st0)) as [->|Hs].
  - destruct Hne as [?|Hne]; [done|]. apply list_elem_of_lookup in Hin as [q Hq]. destruct (decide (p = q)) as [->|Hpq]; [right; split; [congruence|done]|left].
    pose proof fill_apart as Hap. rewrite fill_lanes in Hap. assert (forall p q a b, p < q -> lanes v_trans n0 st0 ly0 !! p = Some a -> lanes v_trans n0 st0 ly0 !! q = Some b -> lanes_apart n0 a b) as Hpair.
    { clear -Hap. intros p q a b Hlt Ha Hb. rewrite <- (take_drop_middle _ _ _ Ha) in Hap. apply StronglySorted_app in Hap as (_ & _ & Hap). apply StronglySorted_cons in Hap as [Hap _]. rewrite Forall_forall in Hap. apply Hap.
      apply list_elem_of_lookup. exists (q - S p). rewrite lookup_drop. by replace (S p + (q - S p)) with q by lia. }
    destruct (decide (p < q)); [by eapply Hpair|]. apply lanes_apart_sym. eapply Hpair; [|done..]. lia.
  - left. left. eapply (streams_apart v_trans ns0 n0 ly0 (kl_layer _ _ _ _ _ Hly0) (kl_ids _ _ _ _ _ Hly0) st1 st0); done.
Qed.
End fill.

(** Placed cells have the rows of their cells. *)
Lemma rows_restored i c c0 : cells !! i = Some c -> cells0 !! i = Some c0 ->
  cell_rows v_trans n0 st0 ly0 (foldl set_tensor T0 (all_staged sinfo cells0 its0 (item_rows T cells <$> its))) c0 = cell_rows v_trans n st ly T c.
Proof.
  intros Hc Hc0. pose proof (matching_all _ _ _ written_matches) as Hfill. pose proof (written_lanes _ i c eq_refl Hc) as Hw. rewrite (staged_each _ _ Hslot) by done.
  unfold cell_rows at 1. rewrite <- (fill_lanes _ Hfill). apply list_eq. intros p. rewrite <- list_fmap_compose, list_lookup_fmap.
  destruct (lane_rows its0 _ !! p) as [ar|] eqn:E.
  - destruct (Forall2_lookup_l _ _ _ _ _ Hw E) as (r & Hr & Hrow). rewrite Hr. cbn. f_equal. destruct ar as [a rows].
    exact (row_placed n0 cells0 Hcells0 Hnodup T0 _ (fill_fits _ Hfill) (lane_rows_ok _ _ _ Hfill) (fill_apart _ Hfill) a rows i c0 r (list_elem_of_lookup_2 _ _ _ E) Hc0 Hrow).
  - apply lookup_ge_None in E. symmetry. apply lookup_ge_None. by rewrite <- (Forall2_length _ _ _ Hw).
Qed.
End restored.
