(* ===== verification/KvStateSeq.v ===== *)
(** * State files of the KV cache: the cells of one sequence

    A cache at rest (no exact tail, no pending copy or shift); what removing a sequence and
    placing cells leave of it, and that installing the old logical state gives the old cache
    back, exactly.  The cells of a sequence as they are written, stream after stream, and
    as they are read: one token each of a ubatch for which a slot is found. *)

From S2P Require Import KvCells BatchSplit TailStore.
From S2P Require Export KvPrepare KvRows KvStateRows.
Open Scope nat_scope.

(** * Caches at rest *)

Definition unshifted (c : kv_cells) : Prop := forall i sh, c_shift c !! i = Some sh -> sh = 0%Z.

Record resting (n : nat) (k : kv_cache) : Prop := {
  re_plain : plain n k;
  re_overlay : has_tail_overlay (k_cfg k) = false;
  re_meta : tail_metadata_only (k_cfg k) = false;
  re_tail : tail (k_tail k) = None;
  re_copies : sc_info k = no_copies;
  re_shift : forall st c, v_cells k !! st = Some c -> unshifted c
}.

(** What stays of a stream. *)
Definition kept_shift (c c' : kv_cells) : Prop := c_has_shift c' = c_has_shift c /\ (unshifted c -> unshifted c').

Lemma kept_refl c : kept_shift c c.
Proof. by split. Qed.

Lemma kept_trans c1 c2 c3 : kept_shift c1 c2 -> kept_shift c2 c3 -> kept_shift c1 c3.
Proof. intros [E1 H1] [E2 H2]. split; [congruence|auto]. Qed.

#[export] Instance kept_transitive : Transitive kept_shift.
Proof. intros c1 c2 c3. apply kept_trans. Qed.

(** What stays of a cache. *)
Record drifted (k k' : kv_cache) : Prop := {
  dr_moved : moved k k';
  dr_cells : Forall2 kept_shift (v_cells k) (v_cells k')
}.

Lemma drifted_refl k : drifted k k.
Proof. split; [apply moved_refl|]. apply Forall2_same_length_lookup_2; [done|]. intros i x y Hx Hy. assert (x = y) as -> by congruence. apply kept_refl. Qed.

Lemma drifted_trans k1 k2 k3 : drifted k1 k2 -> drifted k2 k3 -> drifted k1 k3.
Proof. intros [M1 F1] [M2 F2]. split; [by eapply moved_trans|]. by etrans. Qed.

Lemma drifted_cell k k' st c : drifted k k' -> v_cells k !! st = Some c -> exists c', v_cells k' !! st = Some c' /\ kept_shift c c'.
Proof. intros [_ F] Hc. destruct (Forall2_lookup_l _ _ _ _ _ F Hc) as (c' & H1 & H2). by exists c'. Qed.

Lemma drifted_back k k' st c : drifted k k' -> v_cells k' !! st = Some c -> exists c0, v_cells k !! st = Some c0 /\ kept_shift c0 c.
Proof. intros [_ F] Hc. destruct (Forall2_lookup_r _ _ _ _ _ F Hc) as (c' & H1 & H2). by exists c'. Qed.

(** ** Removing a sequence *)

Lemma seq_pos_dec_shift s p c c' : seq_pos_dec s p c = Ok c' -> c_has_shift c' = c_has_shift c /\ c_shift c' = c_shift c.
Proof. unfold seq_pos_dec. intros H. inv_ok. destruct (_ !! p); [|done]. by inv_ok. Qed.

Lemma seq_rm_kept i s c b c' : KvCells.seq_rm i s c = Ok (b, c') -> kept_shift c c'.
Proof.
  unfold KvCells.seq_rm. intros H. inv_ok. apply seq_pos_dec_shift in E4 as [E5 E6]. cbn in E5, E6.
  case_decide; inv_ok; unfold kept_shift, unshifted, empty_cell; cbn; rewrite E5, E6; [|by split]. split; [done|]. intros Hu j sh Hj.
  destruct (decide (j = i)) as [->|Hne]; [|rewrite list_lookup_insert_ne in Hj by done; by eapply Hu]. destruct (decide (i < length (c_shift c))) as [Hlt|Hge]; [rewrite list_lookup_insert_eq in Hj by done; congruence|].
  rewrite list_insert_ge in Hj by lia. by eapply Hu.
Qed.

Lemma sweep_kept P f c h c' : (forall i c b c', f i c = Ok (b, c') -> kept_shift c c') -> sweep P f c = Ok (h, c') -> kept_shift c c'.
Proof.
  intros Hf H. unfold sweep in H. apply (foldM_inv_Ok _ (fun _ (x : nat * kv_cells) => kept_shift c x.2)) in H; [done|apply kept_refl|]. intros i l [h1 c1] [h2 c2] Hk Hstep. cbn [snd] in *. inv_ok.
  destruct x; inv_ok; [|done]. destruct x as [b c3]. cbn [snd]. eapply kept_trans; [exact Hk|]. by eapply Hf.
Qed.

Lemma set_stream_drifted k st c c' : v_cells k !! st = Some c -> kept_shift c c' -> drifted k (set_cells (<[st := c']> (v_cells k)) k).
Proof.
  intros Hc Hk. split.
  - exists (v_heads k), (set_cells (<[st := c']> (v_cells k)) k). split; [|by split]. exists (<[st := c']> (v_cells k)), (allocation_seq_heads (k_alloc k)). by destruct k as [? ? ? ? [] ? ? ? ?].
  - cbn [v_cells set_cells]. apply Forall2_same_length_lookup_2; [by rewrite length_insert|]. intros i x y Hx Hy. destruct (decide (i = st)) as [->|Hne].
    + rewrite list_lookup_insert_eq in Hy by (by eapply lookup_lt_Some). injection Hy as <-. by assert (x = c) as -> by congruence.
    + rewrite list_lookup_insert_ne in Hy by done. assert (x = y) as -> by congruence. apply kept_refl.
Qed.

Lemma set_head_drifted k st f : st < length (v_heads k) -> exists k', on_head st f k = (Ok tt, k') /\ drifted k k'.
Proof.
  intros Hst. destruct (lookup_lt_is_Some_2 (v_heads k) st Hst) as [h Hh]. unfold on_head. rewrite Hh. eexists. split; [done|]. split; [|apply (dr_cells k k), drifted_refl].
  exists (<[st := f h]> (v_heads k)), k. split; [apply framed_refl|]. split; [done|]. by rewrite length_insert.
Qed.

Lemma no_rebuild k i : allocation_group_size (k_alloc k) <= 1 -> rebuild_allocation_head i k = (Ok tt, k).
Proof. intros H. unfold rebuild_allocation_head, mbind, stx_bind, stx_get. rewrite (proj2 (Nat.leb_le _ _) H), orb_true_r. done. Qed.

Lemma no_compact g : has_tail_overlay g = false -> has_compact_tail g = false.
Proof. unfold has_tail_overlay, has_compact_tail. by destruct (sp_kind _). Qed.

Lemma if_tail_skip m k : tail (k_tail k) = None -> if_tail m k = (Ok tt, k).
Proof. unfold if_tail. by intros ->. Qed.

Lemma remove_drifts n k d st c p0 p1 k' : kv_wf n k -> v_cells k !! st = Some c -> remove_from_stream st d p0 p1 k = (Ok tt, k') -> drifted k k'.
Proof.
  intros Hk Hc. unfold remove_from_stream, sweep_stream. rewrite (stx_bind_Ok _ _ _ c k) by (unfold gets, cells_of; by rewrite (vec_get_Some _ _ _ Hc)).
  destruct (sweep (in_seq (Z.to_nat d) p0 p1) (fun i => KvCells.seq_rm i (Z.to_nat d)) c) as [[h c']|e] eqn:Esw; [|unfold mbind, stx_bind, on_cells; by rewrite Hc, Esw].
  assert (drifted k (set_cells (<[st := c']> (v_cells k)) k)) as Hd1.
  { apply (set_stream_drifted _ _ c); [done|]. refine (sweep_kept _ _ _ _ _ _ Esw). intros i c0 b c0' H. by eapply seq_rm_kept. }
  rewrite (stx_bind_Ok _ _ _ h (set_cells (<[st := c']> (v_cells k)) k)) by (unfold on_cells; by rewrite Hc, Esw).
  destruct (set_head_drifted (set_cells (<[st := c']> (v_cells k)) k) st (lower_head (cells_size c) h)) as (k2 & E2 & Hd2).
  { cbn. pose proof (kw_heads n k Hk) as [-> _]. rewrite <- (kw_streams n k Hk). by eapply lookup_lt_Some. }
  rewrite E2. intros [= <-]. by eapply drifted_trans.
Qed.

(** The whole sequence. *)
Lemma seq_rm_drifts n k d : resting n k -> valid_id d k -> exists k', seq_rm d (-1) (-1) k = (Ok true, k') /\ drifted k k' /\ refined n k (clip_seq_op (seq_to_stream k) (SeqRm d (-1) (-1)) (abs k)) k'.
Proof.
  intros [Hp Hov Hme Ht Hsc Hsh] Hd. pose proof Hp as [Hk Ho _ _ Hfl]. pose proof (no_compact _ Hov) as Hco.
  destruct (wp_run _ _ _ (wp_seq_rm n k d (-1) (-1) Hk (conj Ho (or_intror Hd)))) as (b & k' & E & Hr & Hb).
  destruct b; [|destruct (Hb eq_refl) as [_ ?]; congruence]. exists k'. split; [done|]. split; [|done].
  revert E. unfold seq_rm. rewrite (stx_bind_Ok stx_get _ _ k k) by done. rewrite Ho. rewrite (stx_bind_Ok _ _ _ true k) by (unfold gets, can_seq_rm; by rewrite Hco).
  unfold seq_rm_unchecked. rewrite (stx_bind_Ok stx_get _ _ k k) by done. rewrite Ho.
  rewrite (stx_bind_Ok materialize_pending_copies _ _ tt k) by (unfold materialize_pending_copies, mbind, stx_bind, stx_get; by rewrite Hsc).
  pose proof Hd as [Hd1 Hd2]. rewrite (stx_bind_Ok _ _ _ tt k) by (unfold stx_lift; rewrite assert_true; [done|]; rewrite (proj2 (Z.leb_le 0 d)), (proj2 (Z.ltb_lt d _)) by done; by rewrite orb_true_r).
  rewrite (stx_bind_Ok (if_tail _) _ _ tt k) by (by apply if_tail_skip). rewrite (proj2 (Z.leb_le 0 d)) by lia.
  destruct (stream_of_ok n k d Hk Hd) as (st & c & Es & Em & _ & Hst & _).
  unfold mbind at 1, stx_bind at 1. rewrite (stx_bind_Ok (gets _) _ _ st k) by (unfold gets; by rewrite Es).
  destruct (remove_from_stream _ _ _ _ k) as [[[]|e] k1] eqn:E1; [|done]. pose proof (remove_drifts _ _ _ _ _ _ _ _ Hk Hst E1) as Hd12.
  destruct (moved_cfg _ _ (dr_moved _ _ Hd12)) as (_ & _ & M3 & M4).
  rewrite (stx_bind_Ok (if_tail _) _ _ tt k1) by (apply if_tail_skip; by rewrite M3).
  rewrite (stx_bind_Ok _ _ _ tt k1); [by intros [= <-]|]. unfold one_or_all. rewrite (proj2 (Z.leb_le 0 d)) by lia. apply no_rebuild. by rewrite M4.
Qed.

Lemma resting_drifted n k k' : resting n k -> drifted k k' -> kv_wf n k' ->
  (forall st c i p S, v_cells k' !! st = Some c -> abs_cells c !! i = Some (p, S) -> (p < INT32_MAX)%Z) -> resting n k'.
Proof.
  intros [[Hk Ho Hsw [Hch _] Hfl] Hov Hme Ht Hsc Hsh] Hd Hw Hpos. destruct (moved_cfg _ _ (dr_moved _ _ Hd)) as (M1 & M2 & M3 & M4).
  split; rewrite ?M1, ?M3; try done.
  - split; rewrite ?M1, ?M4; try done. split; [by rewrite M1|done].
  - destruct (dr_moved _ _ Hd) as (? & ? & (? & ? & ->) & -> & _). done.
  - intros st c Hc. destruct (drifted_back k k' st c Hd Hc) as (c0 & Hc0 & _ & Hs). apply Hs. by eapply Hsh.
Qed.

(** ** Installing a logical state *)

Lemma set_all_back n o c : stream_wf n o -> stream_wf n c -> unshifted o -> unshifted c -> c_has_shift c = c_has_shift o -> set_range 0 o c = Ok o.
Proof.
  intros [Ho Hno _ _ _] [Hc Hnc _ _ _] Uo Uc Eh. unfold unshifted in *.
  assert (forall c i, cells_wf c -> i < cells_size c -> (forall i sh, c_shift c !! i = Some sh -> sh = 0%Z) -> c_shift c !! i = Some 0%Z) as Hz.
  { intros x i Hx Hi Hu. destruct (wf_cell x i Hx Hi) as (p & S & sh & e & _ & _ & Hsh & _). by rewrite Hsh, (Hu _ _ Hsh). }
  rewrite set_range_idxs by lia. destruct (set_idxs_spec (seq 0 (cells_size o)) o c) as (c' & E & H1 & H2 & H3 & H4 & H5 & H6); try done.
  - apply NoDup_seq.
  - by rewrite length_seq.
  - apply (wf_seq _ Ho).
  - apply (wf_ext _ Ho).
  - intros i Hi%elem_of_seq. split; [lia|]. apply Hz; [done|lia|done].
  - intros j q S Hq HS. split; [by eapply (wf_pos _ Ho)|]. split; [|intros s Hs; by eapply (wf_ids _ Ho)]. intros ->. destruct (wf_free _ Ho j Hq). congruence.
  - rewrite E. f_equal. assert (forall i, c_pos c' !! i = c_pos o !! i /\ c_seq c' !! i = c_seq o !! i /\ c_ext c' !! i = c_ext o !! i) as Hall.
    { intros i. destruct (decide (i < cells_size o)) as [Hi|Hi]; [apply (H5 i i), lookup_seq_lt; lia|]. unfold cells_size in *.
      rewrite !lookup_ge_None_2; rewrite ?(wf_seq _ Ho), ?(wf_ext _ Ho), ?(wf_seq _ H1), ?(wf_ext _ H1); lia || done. }
    apply cells_canonical; try done; [by rewrite H3|apply list_eq; intros i; apply Hall..| |apply list_eq; intros i; apply Hall].
    apply list_eq. intros i. rewrite H4. destruct (decide (i < n)) as [Hi|Hi]; [rewrite !Hz by (done || lia); done|].
    unfold cells_size in *. rewrite !lookup_ge_None_2; rewrite ?(wf_shift _ Ho), ?(wf_shift _ Hc); lia || done.
Qed.

Lemma install_same n k k' : resting n k -> resting n k' -> drifted k k' -> install k k' = (Ok tt, k).
Proof.
  intros Hr Hr' Hd. pose proof (pn_wf _ _ (re_plain _ _ Hr)) as Hk. pose proof (pn_wf _ _ (re_plain _ _ Hr')) as Hk'. pose proof (dr_cells _ _ Hd) as Hf. pose proof (Forall2_length _ _ _ Hf) as Hl.
  unfold install. rewrite <- Hl, Nat.eqb_refl. cbn [assert_ mbind outcome_bind].
  match goal with |- context [foldM ?f ?l ?s] => assert (foldM f l s = Ok (v_cells k)) as -> end.
  { destruct (foldM_seq (fun cells st => c ← vec_get cells st; o ← vec_get (v_cells k) st; c ← set_range 0 o c; vec_set cells st c)
      (fun i cells => cells = take i (v_cells k) ++ drop i (v_cells k')) 0 (length (v_cells k)) (v_cells k')) as (cells & E & ->).
    - done.
    - intros st cells Hst ->. destruct (lookup_lt_is_Some_2 (v_cells k) st ltac:(lia)) as [o Ho]. destruct (Forall2_lookup_l _ _ _ _ _ Hf Ho) as (c & Hc & Eh & _).
      assert ((take st (v_cells k) ++ drop st (v_cells k')) !! st = Some c) as Hst'.
      { rewrite lookup_app_r by (rewrite length_take; lia). rewrite length_take, lookup_drop. by replace (st + (st - st `min` length (v_cells k))) with st by lia. }
      rewrite (vec_get_Some _ _ _ Hst'), (vec_get_Some _ _ _ Ho). cbn [mbind outcome_bind]. rewrite (set_all_back n o c); [|by eapply (kw_cells _ _ Hk)|by eapply (kw_cells _ _ Hk')|by eapply (re_shift _ _ Hr)|by eapply (re_shift _ _ Hr')|done].
      cbn [mbind outcome_bind]. eexists. split; [by eapply vec_set_Some|]. rewrite Nat.add_1_r, (take_S_r _ _ _ Ho), (drop_S _ _ _ Hc).
      rewrite insert_app_r_alt by (rewrite length_take; lia). rewrite length_take. replace (st - st `min` length (v_cells k)) with 0 by lia. by rewrite <- app_assoc.
    - rewrite E, Nat.add_0_l, take_ge, drop_ge by lia. by rewrite app_nil_r. }
  pose proof (re_tail _ _ Hr) as Ht. pose proof (dr_moved _ _ Hd) as (hs & k1 & (cs & al & ->) & -> & _). rewrite if_tail_skip by done. f_equal. by destruct k as [? ? ? ? [] [] ? ? ?].
Qed.

Lemma drifted_sym n k k' : resting n k -> drifted k k' -> drifted k' k.
Proof.
  intros Hr [(hs & k1 & (cs & al & ->) & -> & Hl) Hf]. split.
  - exists (v_heads k), (set_alloc (set_al_heads (allocation_seq_heads (k_alloc k)) (k_alloc k)) (set_cells (v_cells k) (set_heads hs (set_alloc (set_al_heads al (k_alloc k)) (set_cells cs k))))).
    split; [|split; [by destruct k as [? ? ? ? [] ? ? ? ?]|done]]. by exists (v_cells k), (allocation_seq_heads (k_alloc k)).
  - apply Forall2_flip. apply Forall2_same_length_lookup_2; [by eapply Forall2_length|]. intros i c c' Hc Hc'. destruct (Forall2_lookup_lr _ _ _ _ _ _ Hf Hc Hc') as [E _].
    split; [done|]. intros _. by eapply (re_shift _ _ Hr).
Qed.

(** * Writing *)

(** ** The cells of a sequence *)

Definition chosen (x : nat) (c : kv_cells) (i : nat) : bool :=
  match abs_cells c !! i with Some (_, ids) => bool_decide (x ∈ ids) | None => false end.

Definition chosen_cells (x : nat) (c : kv_cells) : list nat := List.filter (chosen x c) (seq 0 (cells_size c)).

Definition cell_pos (c : kv_cells) (i : nat) : Z := match abs_cells c !! i with Some (p, _) => p | None => (-1)%Z end.

Lemma chosen_Some x c i : chosen x c i = true <-> exists p S, abs_cells c !! i = Some (p, S) /\ x ∈ S.
Proof.
  unfold chosen. destruct (abs_cells c !! i) as [[p S]|]; [rewrite bool_decide_eq_true|].
  - split; [intros H; by exists p, S|]. by intros (? & ? & [= <- <-] & H).
  - split; [done|]. by intros (? & ? & ? & _).
Qed.

Lemma elem_of_chosen x c i : i ∈ chosen_cells x c <-> i < cells_size c /\ chosen x c i = true.
Proof. unfold chosen_cells. rewrite list_elem_of_In, filter_In, <- list_elem_of_In, elem_of_seq. split; intros [H1 H2]; (split; [lia|done]). Qed.

Section scan.
Context (n : nat) (c : kv_cells) (Hc : stream_wf n c) (g : cache_cfg) (x : nat) (Hx : x < LLAMA_MAX_SEQ).
Context (Hswa : swa_type g = SWA_TYPE_NONE).

Lemma cell_cases i : i < n -> exists p S sh e, cell_is c i p S sh e /\ is_empty i c = Ok (p =? -1)%Z /\ seq_has i x c = Ok (bool_decide (x ∈ S)) /\
  abs_cells c !! i = if (p =? -1)%Z then None else Some (p, S).
Proof.
  intros Hi. destruct (stream_cell n c i Hc Hi) as (p & S & sh & e & H). exists p, S, sh, e. split; [done|]. split; [by eapply is_empty_at; [apply Hc|]|].
  split; [by eapply seq_has_at|by eapply abs_cell].
Qed.

Lemma adds_chosen i : i < n -> adds_cell g (Z.of_nat x) c i = Ok (chosen x c i).
Proof.
  intros Hi. destruct (cell_cases i Hi) as (p & S & sh & e & Hcell & He & Hs & Ha). unfold adds_cell, chosen. rewrite He, Ha. cbn [mbind outcome_bind].
  destruct (Z.eqb_spec p (-1)) as [->|Hp]; [done|]. rewrite (proj2 (Z.eqb_neq _ _)) by lia. rewrite Nat2Z.id, Hs. cbn [mbind outcome_bind]. destruct (bool_decide (x ∈ S)) eqn:Ex; [|done].
  cbn [negb]. assert (abs_cells c !! i = Some (p, S)) as Hi'. { by rewrite Ha. }
  pose proof (abs_pos_range n c i p S Hc Hi') as Hr. destruct Hcell as (Hcp & _). unfold pos_get, used_cell. rewrite Hcp. rewrite (proj2 (Z.eqb_neq _ _) Hp). cbn [negb assert_ mbind outcome_bind].
  destruct (seq_pos_max_ok n c x Hc Hx) as (hi & -> & Hhi & Hmax & _). cbn [mbind outcome_bind]. apply bool_decide_eq_true in Ex. specialize (Hmax i p S Hi' Ex).
  destruct (is_masked_ok (n_swa g) (swa_type g) p hi) as (b & -> & Hb); [by rewrite Hswa|lia|lia|]. by rewrite (Hb Hswa).
Qed.

Definition chosen_upto (i : nat) : list nat := List.filter (chosen x c) (seq 0 i).

Lemma kv_chosen_upto_S i : chosen_upto (i + 1) = chosen_upto i ++ if chosen x c i then [i] else [].
Proof. unfold chosen_upto. rewrite seq_app, List.filter_app. simpl. by destruct (chosen x c i). Qed.

Definition open_range (i b : nat) : list nat := if b =? n then [] else seq b (i - b).

Record scanned (i : nat) (s : kv_scan) : Prop := {
  sn_cells : range_cells (ks_ranges s) ++ open_range i (ks_begin s) = chosen_upto i;
  sn_begin : ks_begin s <= n /\ (ks_begin s <> n -> ks_begin s <= i);
  sn_count : ks_count s = length (chosen_upto i);
  sn_ranges : ranges_in n (ks_ranges s)
}.

Lemma kv_scan_cell_ok i s : i < n -> scanned i s -> exists s', scan_kv_cell g (Z.of_nat x) c s i = Ok s' /\ scanned (i + 1) s'.
Proof.
  intros Hi [H1 H2 H3 H4]. unfold scan_kv_cell. rewrite adds_chosen by done. cbn [mbind outcome_bind]. pose proof (sm_size n c Hc) as Hsz. rewrite Hsz. destruct (chosen x c i) eqn:Ech.
  - eexists. split; [done|]. split; cbn [ks_ranges ks_begin ks_count]; [|destruct (Nat.eqb_spec (ks_begin s) n); lia| |done].
    + rewrite kv_chosen_upto_S, Ech, <- H1, <- app_assoc. f_equal. unfold open_range. destruct (Nat.eqb_spec (ks_begin s) n) as [E|E].
      * rewrite (proj2 (Nat.eqb_neq i n)) by lia. by replace (i + 1 - i) with 1 by lia.
      * rewrite (proj2 (Nat.eqb_neq _ _)) by done. replace (i + 1 - ks_begin s) with ((i - ks_begin s) + 1) by lia. rewrite seq_app. simpl. do 2 f_equal. lia.
    + rewrite kv_chosen_upto_S, Ech, length_app, H3. done.
  - assert (chosen_upto (i + 1) = chosen_upto i) as E by (rewrite kv_chosen_upto_S, Ech; apply app_nil_r). destruct (Nat.eqb_spec (ks_begin s) n) as [Eb|Eb]; cbn [negb].
    + exists s. split; [done|]. split; rewrite ?E; [|lia|done|done]. rewrite <- H1. unfold open_range. by rewrite (proj2 (Nat.eqb_eq _ _) Eb).
    + eexists. split; [done|]. split; cbn [ks_ranges ks_begin ks_count]; rewrite ?E; [|lia|done|].
      * unfold range_cells. rewrite fmap_app, concat_app, <- H1. cbn. unfold open_range. rewrite Nat.eqb_refl, (proj2 (Nat.eqb_neq _ _) Eb). by rewrite !app_nil_r.
      * apply Forall_app. split; [done|]. constructor; [|constructor]. cbn. lia.
Qed.

Lemma scan_ok : exists s, scan_kv_cells g (Z.of_nat x) c = Ok s /\ range_cells (ks_ranges s) = chosen_cells x c /\ ks_count s = length (chosen_cells x c) /\ ranges_in n (ks_ranges s).
Proof.
  pose proof (sm_size n c Hc) as Hsz. unfold scan_kv_cells, chosen_cells. rewrite Hsz.
  destruct (foldM_seq (scan_kv_cell g (Z.of_nat x) c) scanned 0 n (mk_kv_scan [] 0 n)) as (s & E & [H1 H2 H3 H4]).
  - split; cbn [ks_ranges ks_begin ks_count]; [unfold open_range; by rewrite Nat.eqb_refl|lia|done|constructor].
  - intros i s Hi Hs. apply kv_scan_cell_ok; [lia|done].
  - rewrite E. cbn [mbind outcome_bind]. eexists. split; [done|]. rewrite Nat.add_0_l in *. change (List.filter (chosen x c) (seq 0 n)) with (chosen_upto n). unfold open_range in H1.
    destruct (Nat.eqb_spec (ks_begin s) n) as [Eb|Eb]; cbn [negb ks_ranges ks_count].
    + rewrite app_nil_r in H1. done.
    + split; [|split; [done|]].
      * unfold range_cells in *. rewrite fmap_app, concat_app. cbn. by rewrite app_nil_r.
      * apply Forall_app. split; [done|]. constructor; [|constructor]. cbn. lia.
Qed.
End scan.

(** ** What is written *)

Definition cell_ops (x : nat) (p : Z) : list io_op := [WriteBytes (le_bytes 4 p); WriteBytes (le_bytes 4 1); WriteBytes (le_bytes 4 (Z.of_nat x))].
Definition cell_bytes (x : nat) (p : Z) : list Z := le_bytes 4 p ++ le_bytes 4 1 ++ le_bytes 4 (Z.of_nat x).

(** The ranges the scan finds. *)
Definition stream_ranges (g : cache_cfg) (x : nat) (c : kv_cells) : list (nat * nat) :=
  match scan_kv_cells g (Z.of_nat x) c with Ok s => ks_ranges s | Err _ => [] end.

Section write.
Context (n : nat) (k : kv_cache) (Hr : resting n k) (x : nat) (Hx : x < n_seq_max (k_cfg k)) (Hpos : n_pos_per_embd (k_cfg k) = 1).
Context (v_trans : bool) (ly : list kv_layer) (T : tensors) (Hly : kv_layers_ok v_trans (n_stream (k_cfg k)) n ly T).

Let Hk : kv_wf n k := pn_wf _ _ (re_plain _ _ Hr).

Lemma x_max : x < LLAMA_MAX_SEQ.
Proof. pose proof (kw_seqs n k Hk). lia. Qed.

Lemma stream_cells_ok st : st < n_stream (k_cfg k) -> exists c, v_cells k !! st = Some c /\ stream_wf n c.
Proof.
  intros Hst. destruct (lookup_lt_is_Some_2 (v_cells k) st) as [c Hc]; [by rewrite (kw_streams n k Hk)|]. exists c. split; [done|by eapply kw_cells].
Qed.

Lemma state_ids_ok c i : stream_wf n c -> i < n -> chosen x c i = true -> state_seq_ids (k_cfg k) (Z.of_nat x) c i = Ok [Z.of_nat x].
Proof.
  intros Hc Hi Hch. destruct (cell_cases n c Hc x x_max i Hi) as (p & S & sh & e & _ & _ & Hhas & Ha).
  destruct (foldM_seq (fun ids cur => let cur := Z.of_nat cur in if (cur =? Z.of_nat x)%Z || (Z.of_nat x =? -1)%Z then
    has ← seq_has i (Z.to_nat cur) c; Ok (if (has : bool) then ids ++ [cur] else ids) else Ok ids)
    (fun j ids => ids = if x <? j then [Z.of_nat x] else []) 0 (n_seq_max (k_cfg k)) []) as (ids & E & H).
  - done.
  - intros j ids Hj ->. cbv zeta. rewrite (proj2 (Z.eqb_neq (Z.of_nat x) (-1))), orb_false_r by lia. destruct (Z.eqb_spec (Z.of_nat j) (Z.of_nat x)) as [E|E].
    + apply Nat2Z.inj in E as ->. rewrite Nat2Z.id, Hhas. cbn [mbind outcome_bind]. eexists. split; [done|]. apply chosen_Some in Hch as (q & S' & Hq & HS).
      rewrite Ha in Hq. destruct (p =? -1)%Z; [done|]. injection Hq as -> ->. rewrite bool_decide_true by done. rewrite (proj2 (Nat.ltb_ge _ _)), (proj2 (Nat.ltb_lt _ _)) by lia. done.
    + eexists. split; [done|]. destruct (Nat.ltb_spec x j), (Nat.ltb_spec x (j + 1)); try done; lia.
  - transitivity (Ok ids); [exact E|]. rewrite H, Nat.add_0_l. by rewrite (proj2 (Nat.ltb_lt _ _)).
Qed.

Section emit.
Context {W : Type} `{IoWrite W}.
Implicit Types io : W.

Lemma kv_write_cell_ok c i io : stream_wf n c -> i < n -> chosen x c i = true -> write_kv_cell (k_cfg k) (Z.of_nat x) c io i = foldM run_op (cell_ops x (cell_pos c i)) io.
Proof.
  intros Hc Hi Hch. unfold write_kv_cell. rewrite state_ids_ok by done. cbn [mbind outcome_bind]. apply chosen_Some in Hch as (p & S & Ha & _). unfold cell_pos. rewrite Ha.
  apply abs_view in Ha as [Hv Hp]. apply view_lookup in Hv as [Hcp _]. unfold pos_get, used_cell. rewrite Hcp, (proj2 (Z.eqb_neq _ _) Hp). cbn [negb assert_ mbind outcome_bind].
  rewrite Hpos. cbn [length Nat.ltb Nat.leb cell_ops foldM run_op]. unfold write_u32. change (Z.of_nat 1) with 1%Z. destruct (io_write _ io) as [io1|]; [|done]. cbn [mbind outcome_bind]. destruct (io_write _ io1) as [io2|]; [|done]. cbn [mbind outcome_bind].
  by destruct (io_write _ io2).
Qed.

Lemma write_meta_ok c ranges io : stream_wf n c -> range_cells ranges = chosen_cells x c ->
  state_write_meta (k_cfg k) ranges (Z.of_nat x) c io = foldM run_op (concat (cell_ops x <$> (cell_pos c <$> chosen_cells x c))) io.
Proof.
  intros Hc Hrc. rewrite <- list_fmap_compose. rewrite <- (run_concat (write_kv_cell (k_cfg k) (Z.of_nat x) c)).
  2: { intros i io' [Hi Hch]%elem_of_chosen. rewrite (sm_size n c Hc) in Hi. by apply kv_write_cell_ok. }
  rewrite <- Hrc. unfold state_write_meta, range_cells. clear Hrc. revert io. induction ranges as [|r l IH]; intros io; [done|]. cbn [fmap list_fmap concat foldM]. rewrite foldM_app.
  destruct (foldM _ (seq _ _) io); [apply IH|done].
Qed.

(** One stream. *)
Definition stream_ops (st : nat) (c : kv_cells) : list io_op :=
  match chosen_cells x c with
  | [] => [WriteBytes (le_bytes 4 0)]
  | l => WriteBytes (le_bytes 4 (Z.of_nat (length l))) :: concat (cell_ops x <$> (cell_pos c <$> l)) ++
         concat (item_ops (stream_ranges (k_cfg k) x c) <$> items v_trans n st ly)
  end.

Lemma write_stream_ok st c io : st < n_stream (k_cfg k) -> v_cells k !! st = Some c -> write_stream ly v_trans (Z.of_nat x) k io st = foldM run_op (stream_ops st c) io.
Proof.
  intros Hst Hcs. pose proof (kw_cells n k Hk _ _ Hcs) as Hc. unfold write_stream, cells_of. rewrite (vec_get_Some _ _ _ Hcs). cbn [mbind outcome_bind].
  destruct (scan_ok n c Hc (k_cfg k) x x_max (pn_swa _ _ (re_plain _ _ Hr))) as (s & Es & Hrc & Hn & Hin). rewrite Es. cbn [mbind outcome_bind].
  rewrite (ranges_sum (ks_ranges s) (chosen_cells x c)) by done. rewrite Hn, Nat.eqb_refl. cbn [assert_ mbind outcome_bind]. unfold stream_ops.
  assert (stream_ranges (k_cfg k) x c = ks_ranges s) as -> by (unfold stream_ranges; by rewrite Es).
  destruct (chosen_cells x c) as [|i l] eqn:El.
  - cbn [length Nat.eqb foldM run_op]. unfold write_u32. change (Z.of_nat 0) with 0%Z. by destruct (io_write _ io).
  - rewrite (proj2 (Nat.eqb_neq _ _)) by done. cbn [foldM run_op]. unfold write_u32. destruct (io_write _ io) as [io1|]; [|done]. cbn [mbind outcome_bind].
    rewrite foldM_app, (write_meta_ok c _ _ Hc) by (by rewrite El). rewrite El. destruct (foldM run_op _ io1) as [io2|]; [|done]. cbn [mbind outcome_bind].
    apply (state_write_data_ok (n_stream (k_cfg k)) n st (ks_ranges s) Hst Hin); [apply (sm_size n c Hc)|apply (kl_layer _ _ _ _ _ Hly)].
Qed.

Definition stream_at (st : nat) : list io_op := match v_cells k !! st with Some c => stream_ops st c | None => [] end.

Definition body_ops : list io_op := WriteBytes (le_bytes 4 (Z.of_nat (n_stream (k_cfg k)))) :: concat (stream_at <$> seq 0 (n_stream (k_cfg k))).

Lemma write_body_ok io : state_write_body ly v_trans (Z.of_nat x) k io = foldM run_op body_ops io.
Proof.
  unfold state_write_body, body_ops. cbn [foldM run_op]. unfold write_u32. destruct (io_write _ io) as [io1|]; [|done]. cbn [mbind outcome_bind].
  apply run_concat. intros st io' Hst%elem_of_seq. unfold stream_at. destruct (stream_cells_ok st) as (c & Hc & _); [lia|]. rewrite Hc. apply write_stream_ok; [lia|done].
Qed.
End emit.

(** ** The bytes *)

Definition stream_bytes (st : nat) (c : kv_cells) : list Z :=
  match chosen_cells x c with
  | [] => le_bytes 4 0
  | l => le_bytes 4 (Z.of_nat (length l)) ++ concat (cell_bytes x <$> (cell_pos c <$> l)) ++ concat (concat (A:=Z) <$> (item_rows T l <$> items v_trans n st ly))
  end.

Definition stream_bytes_at (st : nat) : list Z := match v_cells k !! st with Some c => stream_bytes st c | None => [] end.

Definition body_bytes : list Z := le_bytes 4 (Z.of_nat (n_stream (k_cfg k))) ++ concat (stream_bytes_at <$> seq 0 (n_stream (k_cfg k))).

Lemma cell_ops_data l : ops_data T (concat (cell_ops x <$> l)) = concat (cell_bytes x <$> l).
Proof. induction l as [|p l IH]; [done|]. cbn [fmap list_fmap concat]. rewrite ops_data_app, IH. done. Qed.

Lemma stream_range_cells c : stream_wf n c -> range_cells (stream_ranges (k_cfg k) x c) = chosen_cells x c /\ ranges_in n (stream_ranges (k_cfg k) x c).
Proof.
  intros Hc. destruct (scan_ok n c Hc (k_cfg k) x x_max (pn_swa _ _ (re_plain _ _ Hr))) as (s & Es & Hrc & _ & Hin). unfold stream_ranges. by rewrite Es.
Qed.

Lemma stream_data st c : stream_wf n c -> ops_data T (stream_ops st c) = stream_bytes st c.
Proof.
  intros Hc. destruct (stream_range_cells c Hc) as [Hrc _]. unfold stream_ops, stream_bytes. destruct (chosen_cells x c) as [|i l]; [done|].
  rewrite ops_data_cons, ops_data_app, cell_ops_data, items_data. by rewrite Hrc.
Qed.

Lemma body_data : ops_data T body_ops = body_bytes.
Proof.
  unfold body_ops, body_bytes. rewrite ops_data_cons. f_equal. assert (forall st, st ∈ seq 0 (n_stream (k_cfg k)) -> ops_data T (stream_at st) = stream_bytes_at st) as H.
  { intros st Hst%elem_of_seq. unfold stream_at, stream_bytes_at. destruct (stream_cells_ok st) as (c & -> & Hc); [lia|by apply stream_data]. }
  revert H. generalize (seq 0 (n_stream (k_cfg k))). intros l. induction l as [|st l IH]; intros H; [done|]. cbn [fmap list_fmap concat]. rewrite ops_data_app, H by (by left). rewrite IH; [done|]. intros; apply H. by right.
Qed.

Lemma cell_ops_fit l : Forall (op_fits T) (concat (cell_ops x <$> l)).
Proof. apply Forall_concat, Forall_fmap, Forall_forall. intros p _. by repeat constructor. Qed.

Lemma body_fits : Forall (op_fits T) body_ops.
Proof.
  constructor; [done|]. apply Forall_concat, Forall_fmap, Forall_forall. intros st Hst%elem_of_seq. cbn. unfold stream_at. destruct (stream_cells_ok st) as (c & -> & Hc); [lia|].
  unfold stream_ops. destruct (stream_range_cells c Hc) as [_ Hin]. destruct (chosen_cells x c) as [|i l]; [by repeat constructor|]. constructor; [done|]. apply Forall_app. split; [apply cell_ops_fit|].
  apply (items_fit n); [|done]. intros a Ha. apply (kl_fits _ _ _ _ _ Hly st); [lia|done].
Qed.
End write.

(** * Reading *)

(** ** The ubatch *)

(** With the first [i] of the positions. *)
Definition part_ubatch (i : nat) (ps : list Z) (d : nat) : llama_ubatch :=
  let n := length ps in
  mk_ubatch true n n 1 1 1 (Some (replicate n 0%Z)) None (take i ps ++ replicate (n - i) 0%Z)
    (replicate i 1%Z ++ replicate (n - i) 0%Z) (replicate i [Z.of_nat d] ++ replicate (n - i) []) [d] (<[0 := 0%Z]> (replicate LLAMA_MAX_SEQ (-1)%Z)) (replicate n 0%Z).

Definition cell_record (q p : Z) : list Z := le_bytes 4 p ++ le_bytes 4 1 ++ le_bytes 4 q.

Definition i32s (ps : list Z) : Prop := Forall (fun p => INT32_MIN <= p <= INT32_MAX)%Z ps.

Lemma reserve_ok ps d : exists a, ubatch_reserve (length ps) 1 (new_allocr 1) = Ok a /\ for_seq (Z.of_nat d) a.1 = Ok (part_ubatch 0 ps d).
Proof.
  unfold ubatch_reserve. cbn [seq foldM]. eexists. split; [reflexivity|]. unfold for_seq. cbn -[replicate LLAMA_MAX_SEQ]. unfold part_ubatch. rewrite Nat2Z.id, !Nat.mul_1_r, Nat.sub_0_r. done.
Qed.

Lemma insert_fill {A} (i : nat) (l : list A) (a b : A) n : length l = i -> i < n -> <[i := a]> (l ++ replicate (n - i) b) = (l ++ [a]) ++ replicate (n - (i + 1)) b.
Proof.
  intros <- Hn. rewrite insert_app_r_alt by done. rewrite Nat.sub_diag. replace (n - length l) with (Datatypes.S (n - (length l + 1))) by lia. cbn. by rewrite <- app_assoc.
Qed.

Section cells.
Context {m : kv_io}.
Implicit Types r : llama_io_read_host kv_io.

Lemma kv_read_cell_ok ps d i p q r rest sets calls : i32s ps -> (INT32_MIN <= q <= INT32_MAX)%Z -> ps !! i = Some p -> reader_kv r (cell_record q p ++ rest) sets calls ->
  exists r', read_seq_cell false (Z.of_nat d) (part_ubatch i ps d) i (r, m) = (Ok (Some (part_ubatch (i + 1) ps d)), (r', m)) /\ reader_kv r' rest sets calls.
Proof.
  intros Hps Hq Hp Hr. unfold cell_record in Hr. rewrite <- !app_assoc in Hr. pose proof (lookup_lt_Some _ _ _ Hp) as Hi. unfold i32s in Hps. rewrite Forall_lookup in Hps. pose proof (Hps _ _ Hp) as Hpr. cbn in Hpr.
  destruct (io_read_i32 r m _ _ _ _ Hr Hpr) as (r1 & E1 & Hr1). destruct (io_read_u32 r1 m _ _ _ _ Hr1) as (r2 & E2 & Hr2); [unfold UINT32_MAX; lia|].
  destruct (io_read_i32 r2 m _ _ _ _ Hr2 Hq) as (r3 & E3 & Hr3). exists r3. split; [|done]. unfold read_seq_cell.
  rewrite (stx_bind_Ok _ _ _ _ _ E1), (stx_bind_Ok _ _ _ _ _ E2). cbn [negb Z.eqb Pos.eqb]. rewrite (stx_bind_Ok (mret _) _ _ _ (r2, m) eq_refl), (stx_bind_Ok _ _ _ _ _ E3).
  unfold stx_lift. f_equal. unfold part_ubatch. cbn [u_pos u_n_seq_id u_seq_id u_equal_seqs u_n_tokens u_n_seq_tokens u_n_seqs u_n_seqs_unq u_n_pos u_token u_embd u_seq_id_unq u_seq_idx u_output].
  assert (forall {A} (l : list A) b, length l = i -> exists y, (l ++ replicate (length ps - i) b) !! i = Some y) as Hlk.
  { intros A l b Hl. apply lookup_lt_is_Some_2. rewrite length_app, length_replicate. lia. }
  destruct (Hlk _ (take i ps) 0%Z) as [y1 Hy1]; [rewrite length_take; lia|]. destruct (Hlk _ (replicate i 1%Z) 0%Z) as [y2 Hy2]; [by rewrite length_replicate|].
  destruct (Hlk _ (replicate i [Z.of_nat d]) []) as [y3 Hy3]; [by rewrite length_replicate|].
  rewrite (vec_set_Some _ _ _ _ Hy1). cbn [mbind outcome_bind]. rewrite (vec_set_Some _ _ _ _ Hy2). cbn [mbind outcome_bind]. rewrite (vec_set_Some _ _ _ _ Hy3). cbn [mbind outcome_bind]. do 2 f_equal.
  rewrite !insert_fill by (rewrite ?length_take, ?length_replicate; lia). rewrite Nat.add_1_r. rewrite (take_S_r _ _ _ Hp), !replicate_S_end. done.
Qed.

Lemma kv_read_cells_ok ps d q r rest sets calls : i32s ps -> (INT32_MIN <= q <= INT32_MAX)%Z -> reader_kv r (concat (cell_record q <$> ps) ++ rest) sets calls ->
  exists r', read_seq_cells false (Z.of_nat d) (seq 0 (length ps)) (part_ubatch 0 ps d) (r, m) = (Ok (Some (part_ubatch (length ps) ps d)), (r', m)) /\ reader_kv r' rest sets calls.
Proof.
  intros Hps Hq Hr. assert (forall k i r, i + k = length ps -> reader_kv r (concat (cell_record q <$> drop i ps) ++ rest) sets calls ->
    exists r', read_seq_cells false (Z.of_nat d) (seq i k) (part_ubatch i ps d) (r, m) = (Ok (Some (part_ubatch (length ps) ps d)), (r', m)) /\ reader_kv r' rest sets calls) as H; [|apply (H _ 0); [done|by rewrite drop_0]].
  clear r Hr. intros k. induction k as [|k IH]; intros i r Hi Hr.
  - exists r. replace i with (length ps) in * by lia. split; [done|]. by rewrite drop_all in Hr.
  - destruct (lookup_lt_is_Some_2 ps i ltac:(lia)) as [p Hp]. rewrite (drop_S _ _ _ Hp) in Hr. cbn [fmap list_fmap concat] in Hr. rewrite <- app_assoc in Hr.
    destruct (kv_read_cell_ok ps d i p q r _ _ _ Hps Hq Hp Hr) as (r1 & E1 & Hr1). cbn [seq read_seq_cells]. rewrite (stx_bind_Ok _ _ _ _ _ E1). rewrite <- Nat.add_1_r. apply IH; [lia|]. by rewrite Nat.add_1_r.
Qed.

(** Less than the cells: reading gives up, the cache is not touched. *)
Definition gives_up {A} (none : A) (x : outcome A * (llama_io_read_host kv_io * kv_io)) : Prop := (x.1 = Ok none \/ x.1 = Err RuntimeError) /\ x.2.2 = m.

Lemma four_cases (rd : llama_io_read_host kv_io -> outcome (Z * llama_io_read_host kv_io)) r input sets calls :
  (rd = read_i32 \/ rd = read_u32) -> reader_kv r input sets calls ->
  length input < 4 /\ on_io rd (r, m) = (Err RuntimeError, (r, m)) \/ 4 <= length input /\ exists v r', on_io rd (r, m) = (Ok v, (r', m)) /\ reader_kv r' (drop 4 input) sets calls.
Proof.
  intros Hrd Hr. unfold on_io. cbn [fst snd]. destruct (Nat.lt_ge_cases (length input) 4) as [Hlt|Hge].
  - left. split; [done|]. destruct Hrd as [-> | ->]; [unfold read_i32|unfold read_u32]; by rewrite (reader_short _ _ _ _ _ Hr Hlt).
  - right. split; [done|]. rewrite <- (take_drop 4 input) in Hr. destruct (reader_read _ 4 _ _ _ _ Hr) as (r' & E & Hr'); [rewrite length_take; lia|].
    destruct Hrd as [-> | ->]; [unfold read_i32|unfold read_u32]; rewrite E; cbn [mbind outcome_bind fst snd]; eauto.
Qed.

Lemma read_cell_short u d i r input sets calls : reader_kv r input sets calls -> length input < 12 -> gives_up None (read_seq_cell false d u i (r, m)).
Proof.
  intros Hr Hs. unfold read_seq_cell. destruct (four_cases read_i32 _ _ _ _ (or_introl eq_refl) Hr) as [[_ E1]|(L1 & v1 & r1 & E1 & Hr1)]; [unfold mbind, stx_bind; rewrite E1; by split; [right|]|]. rewrite (stx_bind_Ok _ _ _ _ _ E1).
  destruct (four_cases read_u32 _ _ _ _ (or_intror eq_refl) Hr1) as [[_ E2]|(L2 & v2 & r2 & E2 & Hr2)]; [unfold mbind, stx_bind; rewrite E2; by split; [right|]|]. rewrite (stx_bind_Ok _ _ _ _ _ E2).
  destruct (v2 =? 1)%Z; cbn [negb]; [|by split; [left|]]. rewrite (stx_bind_Ok (mret _) _ _ _ (r2, m) eq_refl).
  destruct (four_cases read_i32 _ _ _ _ (or_introl eq_refl) Hr2) as [[_ E3]|(L3 & v3 & r3 & E3 & Hr3)]; [unfold mbind, stx_bind; rewrite E3; by split; [right|]|].
  rewrite !length_drop in L3. lia.
Qed.

Lemma cell_record_length q p : length (cell_record q p) = 12.
Proof. unfold cell_record. by rewrite !length_app, !le_bytes_length. Qed.

Lemma read_cells_short ps d q r input rest sets calls more : i32s ps -> (INT32_MIN <= q <= INT32_MAX)%Z -> input ++ more = concat (cell_record q <$> ps) ++ rest -> length input < 12 * length ps ->
  reader_kv r input sets calls -> gives_up None (read_seq_cells false (Z.of_nat d) (seq 0 (length ps)) (part_ubatch 0 ps d) (r, m)).
Proof.
  intros Hps Hq He Hs Hr. assert (forall k i r input, i + k = length ps -> input ++ more = concat (cell_record q <$> drop i ps) ++ rest -> length input < 12 * k -> reader_kv r input sets calls ->
    gives_up None (read_seq_cells false (Z.of_nat d) (seq i k) (part_ubatch i ps d) (r, m))) as H; [|by apply (H _ 0 r input); [..|rewrite drop_0| |]].
  clear r input Hr He Hs. intros k. induction k as [|k IH]; intros i r input Hi He Hs Hr; [lia|].
  destruct (lookup_lt_is_Some_2 ps i ltac:(lia)) as [p Hp]. rewrite (drop_S _ _ _ Hp) in He. cbn [fmap list_fmap concat] in He. rewrite <- app_assoc in He. cbn [seq read_seq_cells].
  destruct (Nat.lt_ge_cases (length input) 12) as [Hlt|Hge].
  - destruct (read_cell_short (part_ubatch i ps d) (Z.of_nat d) i r input sets calls Hr Hlt) as [H1 H2]. unfold mbind, stx_bind. destruct (read_seq_cell _ _ _ _ (r, m)) as [res s]. cbn in H1, H2. destruct H1 as [-> | ->]; [by split; [left|]|by split; [right|]].
  - assert (input = cell_record q p ++ drop 12 input) as Ei.
    { rewrite <- (take_drop 12 input) in He at 1. rewrite <- app_assoc in He. apply app_inj_1 in He as [<- _]; [by rewrite take_drop|]. rewrite length_take, cell_record_length. lia. }
    rewrite Ei in Hr. destruct (kv_read_cell_ok ps d i p q r _ _ _ Hps Hq Hp Hr) as (r1 & E1 & Hr1). rewrite (stx_bind_Ok _ _ _ _ _ E1). rewrite <- Nat.add_1_r. apply (IH _ _ (drop 12 input)); [lia| |rewrite length_drop; lia|done].
    rewrite Ei in He. rewrite <- app_assoc in He. apply app_inv_head in He. by rewrite Nat.add_1_r.
Qed.
End cells.

(** ** Placing the cells *)

(** The content without a sequence. *)
Definition forget (d : nat) (y : option (Z * gset nat)) : option (Z * gset nat) :=
  match y with
  | Some (p, ids) => if decide (d ∈ ids) then if decide (ids ∖ {[d]} = ∅) then None else Some (p, ids ∖ {[d]}) else Some (p, ids)
  | None => None
  end.

(** Positions of a state: in range, with room for a next one. *)
Definition positions_ok (ps : list Z) : Prop := Forall (fun p => 0 <= p < INT32_MAX)%Z ps.

Lemma positions_i32 ps : positions_ok ps -> i32s ps.
Proof. intros H. eapply Forall_impl; [exact H|]. cbn. unfold INT32_MIN. lia. Qed.

Section place.
Context (n : nat) (ps : list Z) (d st : nat) (Hps : positions_ok ps) (Hsome : 0 < length ps).

Notation u := (part_ubatch (length ps) ps d).

Lemma full_ubatch : u_pos u = ps /\ u_n_seq_id u = replicate (length ps) 1%Z /\ u_seq_id u = replicate (length ps) [Z.of_nat d].
Proof. unfold part_ubatch. cbn [u_pos u_n_seq_id u_seq_id]. rewrite Nat.sub_diag. cbn. by rewrite !app_nil_r, firstn_all. Qed.

Lemma full_ubatch_ok k : kv_wf n k -> d < n_seq_max (k_cfg k) -> seq_to_stream k !! d = Some st -> ubatch_ok u k (length ps) [st].
Proof.
  intros Hk Hd Hst. destruct full_ubatch as (E1 & E2 & E3). split.
  - cbn. lia.
  - cbn. by destruct (n_stream (k_cfg k)) as [|[|?]].
  - cbn. lia.
  - apply NoDup_singleton.
  - intros s st' Hs. destruct s as [|s]; [|by destruct s]. injection Hs as <-. exists d. split; [done|]. split; [done|]. intros _. rewrite E2, E3. cbn [Nat.mul].
    rewrite !lookup_replicate_2 by lia. split; [done|]. by exists [].
  - intros s st' ii Hs Hii. destruct s as [|s]; [|by destruct s]. injection Hs as <-. cbn [Nat.mul Nat.add]. destruct (lookup_lt_is_Some_2 ps ii Hii) as [p Hp]. exists p, [Z.of_nat d].
    unfold positions_ok in Hps. rewrite Forall_lookup in Hps. pose proof (Hps _ _ Hp) as Hr. cbn in Hr. split.
    + unfold u_ids. rewrite E2, E3. rewrite (vec_get_Some _ ii 1%Z) by (by apply lookup_replicate_2). cbn [mbind outcome_bind]. by rewrite (vec_get_Some _ ii [Z.of_nat d]) by (by apply lookup_replicate_2).
    + done.
    + apply NoDup_singleton.
    + constructor; [|constructor]. rewrite Nat2Z.id. split; [lia|done].
    + by rewrite E1.
    + lia.
    + done.
Qed.

(** The slot of one stream. *)
Lemma one_slot k sinfo : kv_wf n k -> slot_ok n u k sinfo (length ps) -> strm sinfo = [st] -> exists cells, idxs sinfo = [cells] /\ length cells = length ps /\ NoDup cells /\ Forall (fun i => i < n) cells /\
  slot_targets sinfo = pair st <$> cells /\ slot_rows (length ps) sinfo = imap (fun i idx => (i, st, idx)) cells.
Proof.
  intros Hk [L _ F _ _ Hnd Hrows] Es. rewrite Es in *. destruct (idxs sinfo) as [|cells [|]] eqn:Ei; try done. exists cells. apply Forall_cons in F as [F _].
  assert (slot_rows (length ps) sinfo = imap (fun i idx => (i, st, idx)) cells) as Er.
  { unfold slot_rows. rewrite Es, Ei. cbn. by rewrite app_nil_r. }
  assert (slot_targets sinfo = pair st <$> cells) as Et by (unfold slot_targets; rewrite Es, Ei; cbn; by rewrite app_nil_r).
  rewrite <- (slot_targets_rows (length ps)) in Et. split; [done|]. split; [done|]. split; [|split; [|by rewrite <- (slot_targets_rows (length ps))]].
  - rewrite Et in Hnd. by apply NoDup_fmap_1 in Hnd.
  - rewrite Er in Hrows. apply Forall_lookup. intros i idx Hi. rewrite Forall_lookup in Hrows. specialize (Hrows i (i, st, idx)). rewrite list_lookup_imap, Hi in Hrows. apply (Hrows eq_refl).
Qed.
(** Free cells of a stream. *)
Definition free_cells (k : kv_cache) : nat := length (List.filter (fun i => bool_decide (content_at (abs k) (st, i) = None)) (seq 0 n)).

Lemma free_usable k c q f : swa_type (k_cfg k) = SWA_TYPE_NONE -> v_cells k !! st = Some c -> test_ok k c u q n f -> n_usable f n = free_cells k.
Proof.
  intros Hs Hc [_ He _ Hn]. unfold n_usable, free_cells. f_equal. apply List.filter_ext_in. intros i Hi%list_elem_of_In%elem_of_seq. rewrite (content_abs k st i c Hc).
  destruct (f i) eqn:Ef; symmetry; [apply bool_decide_eq_true; apply Hn; [done|lia|done]|]. apply bool_decide_eq_false. intros E. rewrite He in Ef by (done || lia). done.
Qed.

(** What placing does to a cache. *)
Record cells_placed (cells : list nat) (k k' : kv_cache) : Prop := {
  cp_drifted : drifted k k';
  cp_resting : resting n k';
  cp_cells : length cells = length ps /\ NoDup cells /\ Forall (fun i => i < n) cells;
  cp_free : forall i, i ∈ cells -> content_at (abs k) (st, i) = None;
  cp_new : forall j i p, cells !! j = Some i -> ps !! j = Some p -> content_at (abs k') (st, i) = Some (p, {[d]});
  cp_old : forall y, y ∉ pair st <$> cells -> content_at (abs k') y = content_at (abs k) y
}.

Lemma new_content : forall j p, ps !! j = Some p -> token_content u j = (p, {[d]}).
Proof.
  intros j p Hp. destruct full_ubatch as (E1 & E2 & E3). pose proof (lookup_lt_Some _ _ _ Hp) as Hj. unfold token_content, row_ids, u_ids. rewrite E1, E2, E3, Hp.
  rewrite (vec_get_Some _ j 1%Z) by (by apply lookup_replicate_2). cbn [mbind outcome_bind]. rewrite (vec_get_Some _ j [Z.of_nat d]) by (by apply lookup_replicate_2). cbn [mbind outcome_bind].
  f_equal. change (Z.to_nat 1) with 1. cbn [length Nat.leb take default from_option id]. unfold ids_set. rewrite list_fmap_singleton, Nat2Z.id. set_solver.
Qed.
Lemma apply_prepared_ok k sinfo cells : resting n k -> slot_ok n u k sinfo (length ps) -> strm sinfo = [st] -> idxs sinfo = [cells] ->
  (forall r, r ∈ slot_rows (length ps) sinfo -> content_at (abs k) (target r) = None) ->
  exists k', apply_prepared sinfo u k = (Ok tt, k') /\ drifted k k' /\ kv_wf n k' /\ abs k' = spec_place u (slot_rows (length ps) sinfo) (abs k).
Proof.
  intros Hr Hslot Es Ei He. pose proof (pn_wf _ _ (re_plain _ _ Hr)) as Hk. set (k0 := set_tail (set_preparing true (k_tail k)) k). assert (kv_wf n k0) as Hk0 by (by apply set_preparing_wf).
  assert (slot_ok n u k0 sinfo (length ps)) as Hslot0 by (by apply (slot_ok_same n u k)).
  destruct (wp_run _ _ _ (wp_apply_empty n u k0 sinfo (length ps) Hk0 (pn_own _ _ (re_plain _ _ Hr)) (live_preparing k0 eq_refl) Hslot0 He)) as ([] & k2 & E & [P1 (heads & k1 & (cs & al & ->) & ->) P3 P4]).
  set (old := tail_preparing (k_tail k)). exists (set_tail (set_preparing old (k_tail k)) (set_heads heads (set_alloc (set_al_heads al (k_alloc k)) (set_cells cs k)))).
  split; [|split; [|split]].
  - unfold apply_prepared. fold k0. rewrite E. by destruct k as [? ? ? ? [] [] ? ? ?].
  - split.
    + exists heads, (set_alloc (set_al_heads al (k_alloc k)) (set_cells cs k)). split; [by exists cs, al|]. split; [unfold old; by destruct k as [? ? ? ? [] [] ? ? ?]|].
      destruct (kw_heads _ _ P1) as [Hl _]. cbn in Hl. by destruct (kw_heads _ _ Hk) as [-> _].
    + cbn. apply Forall2_same_length_lookup_2.
      * rewrite (kw_streams _ _ Hk). symmetry. apply (kw_streams _ _ P1).
      * intros i c c' Hc Hc'. destruct (P4 i c Hc) as (c2 & Hc2 & _ & Hsh & _). cbn in Hc2. assert (c2 = c') as -> by congruence. destruct Hsh as [E1 E2]; [|split; [done|unfold unshifted; by rewrite E1]].
        intros j (r & Er & Hin)%list_elem_of_fmap. specialize (He r Hin). rewrite <- Er in He. by rewrite (content_abs k i j c Hc) in He.
  - by apply (set_preparing_wf n _ old) in P1.
  - exact P3.
Qed.
Lemma spec_content k sinfo cells y : length (abs k) = n_stream (k_cfg k) -> st < n_stream (k_cfg k) -> length cells = length ps -> NoDup cells -> slot_rows (length ps) sinfo = imap (fun i idx => (i, st, idx)) cells ->
  let A := spec_place u (slot_rows (length ps) sinfo) (abs k) in
  (forall j i p, cells !! j = Some i -> ps !! j = Some p -> y = (st, i) -> content_at A y = Some (p, {[d]})) /\ (y ∉ pair st <$> cells -> content_at A y = content_at (abs k) y).
Proof.
  intros Hl Hst Hlen Hnd Er A. assert (forall r, r ∈ slot_rows (length ps) sinfo -> r.1.2 < length (abs k)) as Hlt.
  { rewrite Er. intros r (j & i & -> & _)%elem_of_lookup_imap. cbn. lia. }
  assert (target <$> slot_rows (length ps) sinfo = pair st <$> cells) as Et.
  { rewrite Er. apply list_eq. intros j. rewrite !list_lookup_fmap, list_lookup_imap. by destruct (cells !! j). }
  pose proof (spec_place_at u (slot_rows (length ps) sinfo) (abs k) y Hlt) as Hat. rewrite Et in Hat. fold A in Hat. split.
  - intros j i p Hi Hp ->. destruct (decide _) as [Hd|Hd]; [|destruct Hd; by eapply list_elem_of_fmap_2, list_elem_of_lookup_2]. destruct Hat as (r & Hr & Etr & ->). rewrite Er in Hr. apply elem_of_lookup_imap in Hr as (j' & i' & -> & Hj').
    cbn in Etr |- *. injection Etr as <-. rewrite (NoDup_lookup _ _ _ _ Hnd Hj' Hi) in *. f_equal. by apply new_content.
  - intros Hn. by destruct (decide _).
Qed.

Lemma check_placed_ok k sinfo cells : kv_wf n k -> d < LLAMA_MAX_SEQ -> strm sinfo = [st] -> idxs sinfo = [cells] -> length cells = length ps ->
  st < n_stream (k_cfg k) -> Forall (fun i => i < n) cells -> (forall j i p, cells !! j = Some i -> ps !! j = Some p -> content_at (abs k) (st, i) = Some (p, {[d]})) ->
  check_placed st (length ps) (Z.of_nat d) sinfo u k = Ok tt.
Proof.
  intros Hk Hd Es Ei Hl Hst Hin Hc. unfold check_placed, slot_n_stream. rewrite Es, Ei. cbn [length Nat.eqb assert_ mbind outcome_bind vec_get lookup list_lookup]. rewrite Hl, Nat.eqb_refl. cbn [assert_ mbind outcome_bind].
  destruct (lookup_lt_is_Some_2 (v_cells k) st) as [c Hcs]; [by rewrite (kw_streams n k Hk)|]. unfold cells_of. rewrite (vec_get_Some _ _ _ Hcs). cbn [mbind outcome_bind].
  match goal with |- foldM ?f ?l tt = _ => destruct (foldM_seq f (fun _ _ => True) 0 (length ps) tt I) as ([] & E & _); [|exact E] end.
  intros j [] Hj _. destruct (lookup_lt_is_Some_2 cells j ltac:(lia)) as [i Hi]. destruct (lookup_lt_is_Some_2 ps j ltac:(lia)) as [p Hp]. rewrite (vec_get_Some _ _ _ Hi). cbn [mbind outcome_bind].
  specialize (Hc j i p Hi Hp). rewrite (content_abs k st i c Hcs) in Hc. apply abs_view in Hc as [Hv Hne]. apply view_lookup in Hv as [Hcp Hcq]. unfold pos_get, used_cell. rewrite Hcp, (proj2 (Z.eqb_neq _ _) Hne). cbn [negb assert_ mbind outcome_bind].
  destruct full_ubatch as (-> & _). rewrite (vec_get_Some _ _ _ Hp). cbn [mbind outcome_bind]. rewrite Z.eqb_refl. cbn [assert_ mbind outcome_bind]. rewrite Nat2Z.id.
  rewrite Forall_lookup in Hin. pose proof (Hin _ _ Hi) as Hlt. cbn in Hlt. destruct (stream_cell n c i (kw_cells n k Hk st c Hcs) Hlt) as (p' & S & sh & e & Hcell).
  rewrite (seq_has_at n c i (kw_cells n k Hk st c Hcs) Hlt _ _ _ _ d Hcell Hd). cbn [mbind outcome_bind]. destruct Hcell as (_ & HS & _). assert (S = {[d]}) as -> by congruence. rewrite bool_decide_true by set_solver. by exists tt.
Qed.

(** The search and the placement, or no room. *)
Lemma kv_place_ok k : resting n k -> d < n_seq_max (k_cfg k) -> seq_to_stream k !! d = Some st ->
  exists sinfo, find_slot u false k = (Ok sinfo, k) /\
    ((exists cells k', length ps <= free_cells k /\ slot_empty sinfo = false /\ idxs sinfo = [cells] /\ apply_prepared sinfo u k = (Ok tt, k') /\
        check_placed st (length ps) (Z.of_nat d) sinfo u k' = Ok tt /\ cells_placed cells k k') \/
     (slot_empty sinfo = true /\ free_cells k < length ps)).
Proof.
  intros Hr Hd Hst. pose proof (re_plain _ _ Hr) as [Hk Ho Hsw Hswa Hfl]. pose proof (full_ubatch_ok k Hk Hd Hst) as Hu. pose proof (kw_seqs n k Hk) as [Hseq Hmax].
  pose proof (proj1 (Forall_lookup _ _) (kw_map n k Hk) _ _ Hst) as Hstn. cbn in Hstn. destruct (lookup_lt_is_Some_2 (v_cells k) st) as [c Hc]; [by rewrite (kw_streams n k Hk)|].
  destruct (find_slot_ok n u k (length ps) [st] Hk Hswa Hfl Hu) as (sinfo & E & Hcase). exists sinfo. split; [done|]. destruct Hcase as [Hp|[-> Hshort]].
  - left. destruct (partial_slot_ok n u k (length ps) [st] sinfo Hk Hu Hp) as (Hslot & Es & Hnone). specialize (Hnone Hsw).
    destruct (one_slot k sinfo Hk Hslot Es) as (cells & Ei & Hl & Hnd & Hin & Et & Er). destruct (apply_prepared_ok k sinfo cells Hr Hslot Es Ei Hnone) as (k' & E' & Hdr & Hk' & Ha).
    assert (length (abs k) = n_stream (k_cfg k)) as Hla by (unfold abs; by rewrite length_fmap, (kw_streams n k Hk)).
    destruct (moved_cfg _ _ (dr_moved _ _ Hdr)) as (M1 & M2 & M3 & M4).
    assert (forall j i p, cells !! j = Some i -> ps !! j = Some p -> content_at (abs k') (st, i) = Some (p, {[d]})) as Hnew.
    { intros j i p Hi Hp'. rewrite Ha. destruct (spec_content k sinfo cells (st, i) Hla Hstn Hl Hnd Er) as [H _]. by apply (H j i p). }
    assert (forall y, y ∉ pair st <$> cells -> content_at (abs k') y = content_at (abs k) y) as Hold.
    { intros y Hy. rewrite Ha. destruct (spec_content k sinfo cells y Hla Hstn Hl Hnd Er) as [_ H]. by apply H. }
    assert (forall i, i ∈ cells -> content_at (abs k) (st, i) = None) as Hfree.
    { intros i (j & Hj)%list_elem_of_lookup. apply (Hnone (j, st, i)). rewrite Er. apply elem_of_lookup_imap. by exists j, i. }
    exists cells, k'. split; [|split; [|split; [done|split; [done|split]]]].
    + rewrite <- Hl. unfold free_cells. apply NoDup_incl_length; [by apply NoDup_ListNoDup|]. intros i Hi. apply filter_In. rewrite <- list_elem_of_In in *. rewrite Forall_forall in Hin.
      split; [apply elem_of_seq; split; [lia|by apply Hin]|]. by apply bool_decide_eq_true, Hfree.
    + unfold slot_empty. by rewrite Ei.
    + apply (check_placed_ok k' sinfo cells); try done; [lia|by rewrite M1].
    + split; try done. apply (resting_drifted n k); [done..|]. intros st' c' i p S Hc' Hi. rewrite <- (content_abs k' st' i c' Hc') in Hi.
      destruct (decide ((st', i) ∈ pair st <$> cells)) as [(i' & [= -> ->] & Hi')%list_elem_of_fmap|Hn].
      * apply list_elem_of_lookup in Hi' as [j Hj]. destruct (lookup_lt_is_Some_2 ps j) as [q Hq]; [rewrite <- Hl; by eapply lookup_lt_Some|]. rewrite (Hnew j i' q Hj Hq) in Hi. injection Hi as <- <-.
        unfold positions_ok in Hps. rewrite Forall_lookup in Hps. pose proof (Hps _ _ Hq) as Hr'. cbn in Hr'. lia.
      * rewrite Hold in Hi by done. apply content_cells in Hi as (c0 & Hc0 & Hi). by eapply (proj2 Hswa).
  - right. split; [done|]. destruct Hshort as (s & st' & q & c' & Hs & Hq & Hc' & Hf). destruct s as [|s]; [|by destruct s]. injection Hs as <-.
    destruct (test_ok_ex n k st c' u q Hk Hswa Hfl Hc') as [f Hf']. rewrite <- (free_usable k c' q f Hsw Hc' Hf'). by apply Hf.
Qed.
End place.
