(* ===== verification/KvStateProps.v ===== *)
(** * State files of the KV cache: reading one sequence, and properties

    The whole of [state_read] for one sequence: removal, placement, the rows of the layers,
    the old cells back in the live cache, and the new ones staged for the commit.  A sequence
    can be moved between caches, and a state that is cut short changes nothing.
    Observations at the end compute what the code does on other states. *)

From S2P Require Import KvCells BatchSplit TailStore.
From S2P Require Export KvStateSeq.
Open Scope nat_scope.

(** ** Removal *)

Lemma forget_absent d y : (forall p S, y = Some (p, S) -> d ∉ S) -> forget d y = y.
Proof. destruct y as [[p S]|]; [|done]. intros H. cbn. rewrite decide_False; [done|]. by eapply H. Qed.

Lemma rm_content n k d y : plain n k -> valid_id (Z.of_nat d) k -> content_at (clip_seq_op (seq_to_stream k) (SeqRm (Z.of_nat d) (-1) (-1)) (abs k)) y = forget d (content_at (abs k) y).
Proof.
  intros [Hk _ _ [_ Hpos] _] Hd. cbn [clip_seq_op]. rewrite (proj2 (Z.ltb_ge _ _)) by lia. rewrite Nat2Z.id.
  destruct (stream_of_ok n k _ Hk Hd) as (st & c & _ & Em & _ & Hst & _). rewrite (home_ok _ _ _ Em). rewrite Nat2Z.id in Em. unfold on_stream, content_at. destruct y as [st' i]. cbn [fst snd].
  destruct (decide (st = st')) as [<-|Hne].
  - rewrite list_lookup_alter_eq. rewrite (abs_stream k st c Hst). change (omap (sp_rm d (clip_lo (-1)) (clip_hi (-1))) (abs_cells c) !! i = forget d (abs_cells c !! i)). rewrite lookup_omap. destruct (abs_cells c !! i) as [[p S]|] eqn:Ei; [|done].
    change (sp_rm d (clip_lo (-1)) (clip_hi (-1)) (p, S) = forget d (Some (p, S))). unfold sp_rm, forget. cbn [fst snd].
    pose proof (abs_nonneg n c i p S (kw_cells n k Hk st c Hst) Ei). pose proof (Hpos st c i p S Hst Ei).
    assert (in_rng (clip_lo (-1)) (clip_hi (-1)) p = true) as -> by (unfold in_rng; change (clip_lo (-1)) with 0%Z; change (clip_hi (-1)) with INT32_MAX; rewrite (proj2 (Z.leb_le _ _)), (proj2 (Z.ltb_lt _ _)) by lia; done).
    cbn [andb]. destruct (decide (d ∈ S)); [rewrite bool_decide_true by done|rewrite bool_decide_false by done]; done.
  - rewrite list_lookup_alter_ne by done. symmetry. apply forget_absent. intros p S E Hin. destruct (abs k !! st') as [m|] eqn:Em'; [|done]. cbn in E.
    pose proof (kw_home n k Hk st' m i p S d Em' E Hin). congruence.
Qed.

Lemma rm_resting n k d : resting n k -> valid_id (Z.of_nat d) k -> exists k', seq_rm (Z.of_nat d) (-1) (-1) k = (Ok true, k') /\ drifted k k' /\ resting n k' /\
  forall y, content_at (abs k') y = forget d (content_at (abs k) y).
Proof.
  intros Hr Hd. destruct (seq_rm_drifts n k _ Hr Hd) as (k' & E & Hdr & [F1 F2 F3 F4]). pose proof (re_plain _ _ Hr) as Hp.
  assert (forall y, content_at (abs k') y = forget d (content_at (abs k) y)) as Hc by (intros y; rewrite F2; by apply (rm_content n)).
  exists k'. split; [done|]. split; [done|]. split; [|done]. apply (resting_drifted n k); [done..|]. intros st c i p S Hst Hi.
  rewrite <- (content_abs k' st i c Hst), Hc in Hi. destruct (content_at (abs k) (st, i)) as [[q S']|] eqn:Eq; [|done]. apply content_cells in Eq as (c0 & Hc0 & Hi0).
  pose proof (proj2 (pn_below _ _ Hp) st c0 i q S' Hc0 Hi0). cbn in Hi. destruct (decide (d ∈ S')); [destruct (decide _); [done|]|]; injection Hi as <- <-; done.
Qed.

(** A valid sequence. *)
Lemma seq_valid n k d st : kv_wf n k -> d < n_seq_max (k_cfg k) -> seq_to_stream k !! d = Some st -> valid_id (Z.of_nat d) k /\ st < n_stream (k_cfg k) /\ d < LLAMA_MAX_SEQ.
Proof.
  intros Hk Hd Hst. pose proof (kw_seqs n k Hk). pose proof (proj1 (Forall_lookup _ _) (kw_map n k Hk) _ _ Hst) as H1. cbn in H1. split; [unfold valid_id; lia|]. split; [done|lia].
Qed.

Lemma on_cache_ok {A} (f : stx kv_cache A) r k b a k' : f k = (Ok a, k') -> on_cache f (r, mk_kv_io k b) = (Ok a, (r, mk_kv_io k' b)).
Proof. unfold on_cache. cbn. by intros ->. Qed.

(** What reading the cells of a sequence does. *)
Record seq_placed (n d st : nat) (ps : list Z) (cells : list nat) (k k' : kv_cache) : Prop := {
  sp_drifted : drifted k k';
  sp_resting : resting n k';
  sp_cells : length cells = length ps /\ NoDup cells /\ Forall (fun i => i < n) cells;
  sp_free : forall i, i ∈ cells -> forget d (content_at (abs k) (st, i)) = None;
  sp_new : forall j i p, cells !! j = Some i -> ps !! j = Some p -> content_at (abs k') (st, i) = Some (p, {[d]});
  sp_old : forall y, y ∉ pair st <$> cells -> content_at (abs k') y = forget d (content_at (abs k) y)
}.

(** Cells that are free once the sequence is gone. *)
Definition room (n d st : nat) (k : kv_cache) : nat := length (List.filter (fun i => bool_decide (forget d (content_at (abs k) (st, i)) = None)) (seq 0 n)).

Section meta.
Context (n : nat) (ps : list Z) (d st : nat) (Hps : positions_ok ps) (Hsome : 0 < length ps).
Context (k : kv_cache) (b : bool) (Hr : resting n k) (Hd : d < n_seq_max (k_cfg k)) (Hst : seq_to_stream k !! d = Some st) (Hpos : n_pos_per_embd (k_cfg k) = 1).

(** The beginning, up to the cells. *)
Lemma read_meta_start r (Q : outcome (option slot_info) * (llama_io_read_host kv_io * kv_io) -> Prop) :
  (forall k1, drifted k k1 -> resting n k1 -> (forall y, content_at (abs k1) y = forget d (content_at (abs k) y)) ->
    Q ((u ← read_seq_cells false (Z.of_nat d) (seq 0 (length ps)) (part_ubatch 0 ps d);
        match u with
        | None => mret None
        | Some u =>
            sinfo ← on_cache (find_slot u false);
            if slot_empty sinfo then mret None else
            _ ← on_cache (apply_prepared sinfo u);
            k ← get_cache;
            _ ← stx_lift (check_placed st (length ps) (Z.of_nat d) sinfo u k);
            mret (Some sinfo)
        end) (r, mk_kv_io k1 b))) ->
  Q (read_seq_meta st (length ps) (Z.of_nat d) (r, mk_kv_io k b)).
Proof.
  intros H. pose proof (pn_wf _ _ (re_plain _ _ Hr)) as Hk. destruct (seq_valid n k d st Hk Hd Hst) as (Hv & _ & _). destruct (rm_resting n k d Hr Hv) as (k1 & E1 & Hdr & Hr1 & Hc).
  destruct (moved_cfg _ _ (dr_moved _ _ Hdr)) as (M1 & _ & _ & _). destruct (reserve_ok ps d) as (a & Ea & Ef).
  unfold read_seq_meta. rewrite (stx_bind_Ok _ _ _ true (r, mk_kv_io k1 b)) by (by apply on_cache_ok). rewrite (stx_bind_Ok get_cache _ _ k1 (r, mk_kv_io k1 b)) by done.
  rewrite M1, Hpos. rewrite (stx_bind_Ok _ _ _ a (r, mk_kv_io k1 b)) by (unfold stx_lift; by rewrite Ea). rewrite (stx_bind_Ok _ _ _ (part_ubatch 0 ps d) (r, mk_kv_io k1 b)) by (unfold stx_lift; by rewrite Ef).
  by apply H.
Qed.

Lemma read_meta_ok q r rest sets calls : (INT32_MIN <= q <= INT32_MAX)%Z -> reader_kv r (concat (cell_record q <$> ps) ++ rest) sets calls ->
  exists r' k', reader_kv r' rest sets calls /\
    ((exists sinfo cells, length ps <= room n d st k /\ read_seq_meta st (length ps) (Z.of_nat d) (r, mk_kv_io k b) = (Ok (Some sinfo), (r', mk_kv_io k' b)) /\ idxs sinfo = [cells] /\ seq_placed n d st ps cells k k') \/
     (read_seq_meta st (length ps) (Z.of_nat d) (r, mk_kv_io k b) = (Ok None, (r', mk_kv_io k' b)) /\ room n d st k < length ps /\ drifted k k' /\ resting n k')).
Proof.
  intros Hq Hin. apply read_meta_start. intros k1 Hdr Hr1 Hc. destruct (moved_cfg _ _ (dr_moved _ _ Hdr)) as (M1 & M2 & _ & _).
  destruct (kv_read_cells_ok (m := mk_kv_io k1 b) ps d q r rest sets calls (positions_i32 _ Hps) Hq Hin) as (r1 & E1 & Hr'). exists r1.
  destruct (kv_place_ok n ps d st Hps Hsome k1 Hr1) as (sinfo & Ef & Hcase); [by rewrite M1|by rewrite M2|].
  assert (free_cells n st k1 = room n d st k) as Eroom.
  { unfold free_cells, room. f_equal. apply List.filter_ext. intros i. by rewrite Hc. }
  rewrite (stx_bind_Ok _ _ _ _ _ E1). rewrite (stx_bind_Ok _ _ _ sinfo (r1, mk_kv_io k1 b)) by (by apply on_cache_ok).
  destruct Hcase as [(cells & k2 & Hle & Hne & Ei & Ea & Ech & [C1 C2 C3 C4 C5 C6])|[He Hlt]].
  - exists k2. split; [done|]. left. exists sinfo, cells. split; [by rewrite <- Eroom|]. split; [|split; [done|]].
    + rewrite Hne. rewrite (stx_bind_Ok _ _ _ tt (r1, mk_kv_io k2 b)) by (by apply on_cache_ok). rewrite (stx_bind_Ok get_cache _ _ k2 (r1, mk_kv_io k2 b)) by done.
      by rewrite (stx_bind_Ok _ _ _ tt (r1, mk_kv_io k2 b)) by (unfold stx_lift; by rewrite Ech).
    + split; [by eapply drifted_trans|done|done| |done|].
      * intros i Hi. rewrite <- Hc. by apply C4.
      * intros y Hy. rewrite C6 by done. apply Hc.
  - exists k1. split; [done|]. right. rewrite He. split; [done|]. rewrite <- Eroom. done.
Qed.

Lemma read_meta_short q r input more rest sets calls : (INT32_MIN <= q <= INT32_MAX)%Z -> reader_kv r input sets calls ->
  input ++ more = concat (cell_record q <$> ps) ++ rest -> length input < 12 * length ps ->
  exists res r' k', read_seq_meta st (length ps) (Z.of_nat d) (r, mk_kv_io k b) = (res, (r', mk_kv_io k' b)) /\ (res = Ok None \/ res = Err RuntimeError) /\ drifted k k' /\ resting n k'.
Proof.
  intros Hq Hin He Hs. apply read_meta_start. intros k1 Hdr Hr1 Hc.
  destruct (read_cells_short (m := mk_kv_io k1 b) ps d q r input rest sets calls more (positions_i32 _ Hps) Hq He Hs Hin) as [H1 H2]. unfold mbind, stx_bind.
  destruct (read_seq_cells _ _ _ _ (r, mk_kv_io k1 b)) as [res [r1 m1]]. cbn in H1, H2. subst m1. destruct H1 as [-> | ->]; [exists (Ok None)|exists (Err RuntimeError)]; exists r1, k1; split; auto.
Qed.
End meta.

(** ** One stream *)

Lemma matching_length cells cells' its fill : length cells = length cells' -> Forall2 (matching cells) its fill -> Forall2 (matching cells') its fill.
Proof. intros E H. eapply Forall2_impl; [exact H|]. intros [k v|a] rows; cbn; [done|]. unfold rows_ok. by rewrite E. Qed.

Section stream.
Context (n : nat) (d st : nat) (ly : list kv_layer) (v_trans : bool) (k : kv_cache) (b : bool).
Context (Hr : resting n k) (Hd : d < n_seq_max (k_cfg k)) (Hst : seq_to_stream k !! d = Some st) (Hpos : n_pos_per_embd (k_cfg k) = 1).
Context (Hly : Forall (layer_fits v_trans (n_stream (k_cfg k)) n) ly) (Hnl : (Z.of_nat (length ly) <= UINT32_MAX)%Z).

Let its := items v_trans n st ly.

Lemma id_not_all : (Z.of_nat d =? -1)%Z = false.
Proof. apply Z.eqb_neq. clear; lia. Qed.

Lemma read_stream_none s r rest sets calls : reader_kv r (le_bytes 4 0 ++ rest) sets calls ->
  exists r', read_stream ly v_trans (Z.of_nat d) s (r, mk_kv_io k b) = (Ok [], (r', mk_kv_io k b)) /\ reader_kv r' rest sets calls.
Proof.
  intros Hin. destruct (io_read_u32 r (mk_kv_io k b) 0 _ _ _ Hin) as (r1 & E & Hr1); [clear; unfold UINT32_MAX; lia|]. exists r1. split; [|done]. unfold read_stream. by rewrite (stx_bind_Ok _ _ _ _ _ E).
Qed.

(** The end of a stream that is refused. *)
Lemma refuse_ok k1 r : drifted k k1 -> resting n k1 -> exists k2,
  (_ ← (_ ← on_cache (seq_rm (Z.of_nat d) (-1) (-1)); mret tt); stx_throw RuntimeError : stx (llama_io_read_host kv_io * kv_io) (list nat)) (r, mk_kv_io k1 b) = (Err RuntimeError, (r, mk_kv_io k2 b)) /\ drifted k k2 /\ resting n k2.
Proof.
  intros Hdr Hr1. destruct (moved_cfg _ _ (dr_moved _ _ Hdr)) as (M1 & M2 & _ & _). assert (valid_id (Z.of_nat d) k1) as Hv.
  { apply (seq_valid n k1 d st (pn_wf _ _ (re_plain _ _ Hr1))); [by rewrite M1|by rewrite M2]. }
  destruct (rm_resting n k1 d Hr1 Hv) as (k2 & E & Hdr2 & Hr2 & _). exists k2. split; [|split; [by eapply drifted_trans|done]].
  rewrite (stx_bind_Ok _ _ _ tt (r, mk_kv_io k2 b)); [done|]. by rewrite (stx_bind_Ok _ _ _ true (r, mk_kv_io k2 b)) by (by apply on_cache_ok).
Qed.

(** The cells are placed and the rows staged, or all is refused. *)
Definition stream_read (ps : list Z) (rest : list Z) (sets : list staged_set) calls (x : outcome (list nat) * (llama_io_read_host kv_io * kv_io)) : Prop :=
  (exists cells sinfo fill rest' r' k', x = (Ok cells, (r', mk_kv_io k' b)) /\ idxs sinfo = [cells] /\ seq_placed n d st ps cells k k' /\ length ps <= room n d st k /\
     Forall2 (sized cells) its fill /\ rest = filled_bytes fill ++ rest' /\ reader_kv r' rest' (sets ++ all_staged sinfo cells its fill) calls) \/
  (exists r' k', x = (Err RuntimeError, (r', mk_kv_io k' b)) /\ drifted k k' /\ resting n k' /\
     (room n d st k < length ps \/ forall cells fill rest', length cells = length ps -> Forall2 (matching cells) its fill -> rest <> filled_bytes fill ++ rest')).

Lemma read_stream_start s (ps : list Z) r rest sets calls : 0 < length ps -> (Z.of_nat (length ps) <= UINT32_MAX)%Z -> reader_kv r (le_bytes 4 (Z.of_nat (length ps)) ++ rest) sets calls ->
  exists r1, reader_kv r1 rest sets calls /\ read_stream ly v_trans (Z.of_nat d) s (r, mk_kv_io k b) =
    (sinfo ← read_seq_meta st (length ps) (Z.of_nat d);
     res ← match sinfo with None => mret false | Some sinfo => or_false (state_read_data ly v_trans st (length ps) sinfo) end;
     match (if (res : bool) then sinfo else None) with
     | Some sinfo => stx_lift (vec_get (idxs sinfo) 0)
     | None => _ ← (_ ← on_cache (seq_rm (Z.of_nat d) (-1) (-1)); mret tt); stx_throw RuntimeError
     end) (r1, mk_kv_io k b).
Proof.
  intros Hsome Hmax Hin. destruct (io_read_u32 r (mk_kv_io k b) _ _ _ _ Hin) as (r1 & E & Hr1); [lia|]. exists r1. split; [done|]. unfold read_stream. rewrite (stx_bind_Ok _ _ _ _ _ E).
  rewrite (proj2 (Z.eqb_neq _ _)) by lia. rewrite Nat2Z.id. rewrite (stx_bind_Ok get_cache _ _ k (r1, mk_kv_io k b)) by done. rewrite id_not_all.
  rewrite (stx_bind_Ok _ _ _ st (r1, mk_kv_io k b)) by (unfold stx_lift; by rewrite Nat2Z.id, (vec_get_Some _ _ _ Hst)). unfold state_read_meta. by rewrite id_not_all.
Qed.

Lemma read_stream_ok s ps q r rest sets calls : positions_ok ps -> 0 < length ps -> (Z.of_nat (length ps) <= UINT32_MAX)%Z -> (INT32_MIN <= q <= INT32_MAX)%Z ->
  reader_kv r (le_bytes 4 (Z.of_nat (length ps)) ++ concat (cell_record q <$> ps) ++ rest) sets calls ->
  stream_read ps rest sets calls (read_stream ly v_trans (Z.of_nat d) s (r, mk_kv_io k b)).
Proof.
  intros Hps Hsome Hmax Hq Hin. destruct (read_stream_start s ps r _ _ _ Hsome Hmax Hin) as (r1 & Hr1 & ->).
  destruct (read_meta_ok n ps d st Hps Hsome k b Hr Hd Hst Hpos q r1 rest sets calls Hq Hr1) as (r2 & k2 & Hr2 & [(sinfo & cells & Hroom & E & Ei & Hpl)|(E & Hroom & Hdr & Hrs)]).
  - rewrite (stx_bind_Ok _ _ _ _ _ E). destruct Hpl as [Q1 Q2 (Q3 & Q4 & Q5) Q6 Q7 Q8]. pose proof (pn_wf _ _ (re_plain _ _ Q2)) as Hk2. destruct (moved_cfg _ _ (dr_moved _ _ Q1)) as (M1 & M2 & _ & _).
    destruct (seq_valid n k2 d st Hk2) as (_ & Hst2 & _); [by rewrite M1|by rewrite M2|]. destruct (lookup_lt_is_Some_2 (v_cells k2) st) as [c Hc]; [by rewrite (kw_streams n k2 Hk2)|].
    assert (length cells <= n) as Hcn.
    { rewrite <- (length_seq n 0). apply NoDup_incl_length; [by apply NoDup_ListNoDup|]. intros i Hi. rewrite <- list_elem_of_In in *. apply elem_of_seq. rewrite Forall_forall in Q5. specialize (Q5 i Hi). lia. }
    pose proof (reads_data n sinfo cells Ei ltac:(lia) Q5 (mk_kv_io k2 b) (n_stream (k_cfg k)) st ltac:(by rewrite <- M1) Hcn ly v_trans c (vec_get_Some _ _ _ Hc) (sm_size n c (kw_cells n k2 Hk2 st c Hc)) Hly Hnl r2 _ _ _ Hr2) as Hdata.
    rewrite Q3 in Hdata. destruct Hdata as [(fill & rest' & r3 & F1 & F2 & F3 & F4)|(res & r3 & F1 & F2 & F3)].
    + left. rewrite (stx_bind_Ok _ _ _ true (r3, mk_kv_io k2 b)) by (unfold or_false; by rewrite F3). cbv iota. exists cells, sinfo, fill, rest', r3, k2. unfold stx_lift. rewrite Ei. done.
    + right. rewrite (stx_bind_Ok _ _ _ false (r3, mk_kv_io k2 b)) by (unfold or_false; rewrite F1; by destruct F2 as [-> | ->]). cbv iota.
      destruct (refuse_ok k2 r3 Q1 Q2) as (k3 & E3 & H1 & H2). exists r3, k3. split; [exact E3|]. split; [done|]. split; [done|]. right. intros cells' fill rest' Hl Hm. apply F3. eapply matching_length; [|exact Hm]. by rewrite Q3.
  - rewrite (stx_bind_Ok _ _ _ _ _ E). rewrite (stx_bind_Ok (mret false) _ _ false (r2, mk_kv_io k2 b)) by done. cbv iota. right. destruct (refuse_ok k2 r2 Hdr Hrs) as (k3 & E3 & H1 & H2). exists r2, k3. split; [exact E3|]. split; [done|]. split; [done|]. by left.
Qed.

(** The state ends within the cells. *)
Lemma read_stream_short s ps q r input more rest sets calls : positions_ok ps -> 0 < length ps -> (Z.of_nat (length ps) <= UINT32_MAX)%Z -> (INT32_MIN <= q <= INT32_MAX)%Z ->
  input ++ more = concat (cell_record q <$> ps) ++ rest -> length input < 12 * length ps -> reader_kv r (le_bytes 4 (Z.of_nat (length ps)) ++ input) sets calls ->
  exists r' k', read_stream ly v_trans (Z.of_nat d) s (r, mk_kv_io k b) = (Err RuntimeError, (r', mk_kv_io k' b)) /\ drifted k k' /\ resting n k'.
Proof.
  intros Hps Hsome Hmax Hq He Hs Hin. destruct (read_stream_start s ps r _ _ _ Hsome Hmax Hin) as (r1 & Hr1 & ->).
  destruct (read_meta_short n ps d st Hps k b Hr Hd Hst Hpos q r1 input more rest sets calls Hq Hr1 He Hs) as (res & r2 & k2 & E & Hres & Hdr & Hrs).
  destruct Hres as [-> | ->]; [|exists r2, k2; split; [unfold mbind, stx_bind; by rewrite E|done]].
  rewrite (stx_bind_Ok _ _ _ _ _ E). rewrite (stx_bind_Ok (mret false) _ _ false (r2, mk_kv_io k2 b)) by done. cbv iota. destruct (refuse_ok k2 r2 Hdr Hrs) as (k3 & E3 & H1 & H2). by exists r2, k3.
Qed.
End stream.

(** ** All streams *)

Lemma rows_unique (w : nat) (l l' : list (list Z)) : length l = length l' -> Forall (fun x => length x = w) l -> Forall (fun x => length x = w) l' -> concat l = concat l' -> l = l'.
Proof.
  intros Hlen Hl. revert l' Hlen. induction Hl as [|x l Hx _ IH]; intros [|x' l'] Hlen Hl' E; try done. apply Forall_cons in Hl' as [Hx' Hl']. cbn in E. apply app_inj_1 in E as [-> E]; [|by rewrite Hx, Hx'].
  f_equal. apply IH; [by injection Hlen|done|done].
Qed.

(** Rows of the same bytes stage the same. *)
Lemma staged_unique sinfo cells its fill fill' rest rest' : Forall2 (sized cells) its fill -> Forall2 (sized cells) its fill' -> filled_bytes fill ++ rest = filled_bytes fill' ++ rest' ->
  all_staged sinfo cells its fill = all_staged sinfo cells its fill' /\ rest = rest'.
Proof.
  intros H. revert fill'. induction H as [|x rows its fill Hx _ IH]; intros fill' H' E; [by apply Forall2_nil_inv_l in H' as ->|].
  apply Forall2_cons_inv_l in H' as (rows' & fill1 & Hx' & H' & ->). unfold filled_bytes, all_staged in *. cbn [fmap list_fmap concat zip_with] in *. rewrite <- !app_assoc in E.
  apply app_inj_1 in E as [Ex E]; [|by eapply sized_length]. destruct (IH _ H' E) as [-> ->]. split; [|done]. f_equal. destruct x as [k v|a]; [done|].
  destruct Hx as [H1 H2], Hx' as [H3 H4]. by rewrite (rows_unique _ rows rows' (eq_trans H1 (eq_sym H3)) H2 H4 Ex).
Qed.

Definition empty_streams (l : list nat) : list Z := concat ((fun _ => le_bytes 4 0) <$> l).

Section streams.
Context (n : nat) (d st : nat) (ly : list kv_layer) (v_trans : bool) (k : kv_cache) (b : bool).
Context (Hr : resting n k) (Hd : d < n_seq_max (k_cfg k)) (Hst : seq_to_stream k !! d = Some st) (Hpos : n_pos_per_embd (k_cfg k) = 1).
Context (Hly : Forall (layer_fits v_trans (n_stream (k_cfg k)) n) ly) (Hnl : (Z.of_nat (length ly) <= UINT32_MAX)%Z).

Let its := items v_trans n st ly.

Lemma read_streams_none l r k1 rest sets calls : reader_kv r (empty_streams l ++ rest) sets calls ->
  exists r', read_streams ly v_trans (Z.of_nat d) l (r, mk_kv_io k1 b) = (Ok ((fun _ => []) <$> l), (r', mk_kv_io k1 b)) /\ reader_kv r' rest sets calls.
Proof.
  revert r. induction l as [|s l IH]; intros r Hin; [by exists r|]. unfold empty_streams in Hin. cbn [fmap list_fmap concat] in Hin. rewrite <- app_assoc in Hin.
  destruct (read_stream_none d ly v_trans k1 b s r _ _ _ Hin) as (r1 & E1 & Hr1). destruct (IH r1 Hr1) as (r2 & E2 & Hr2). exists r2. split; [|done].
  cbn [read_streams fmap list_fmap]. by rewrite (stx_bind_Ok _ _ _ _ _ E1), (stx_bind_Ok _ _ _ _ _ E2).
Qed.

(** Some empty streams before. *)
Lemma read_streams_skip l1 l r k1 rest sets calls : reader_kv r (empty_streams l1 ++ rest) sets calls ->
  exists r1, reader_kv r1 rest sets calls /\
    (forall xs s', read_streams ly v_trans (Z.of_nat d) l (r1, mk_kv_io k1 b) = (Ok xs, s') -> exists xs', read_streams ly v_trans (Z.of_nat d) (l1 ++ l) (r, mk_kv_io k1 b) = (Ok xs', s')) /\
    (forall s', read_streams ly v_trans (Z.of_nat d) l (r1, mk_kv_io k1 b) = (Err RuntimeError, s') -> read_streams ly v_trans (Z.of_nat d) (l1 ++ l) (r, mk_kv_io k1 b) = (Err RuntimeError, s')).
Proof.
  revert r. induction l1 as [|s l1 IH]; intros r Hin; [exists r; split; [done|]; split; [intros xs s' E; by exists xs|done]|].
  unfold empty_streams in Hin. cbn [fmap list_fmap concat] in Hin. rewrite <- app_assoc in Hin. destruct (read_stream_none d ly v_trans k1 b s r _ _ _ Hin) as (r1 & E1 & Hr1).
  destruct (IH r1 Hr1) as (r2 & Hr2 & H1 & H2). exists r2. split; [done|]. cbn [app read_streams]. rewrite (stx_bind_Ok _ _ _ _ _ E1). split.
  - intros xs s' E. destruct (H1 xs s' E) as (xs' & E'). rewrite (stx_bind_Ok _ _ _ xs' s' E'). by eexists.
  - intros s' E. unfold mbind, stx_bind. by rewrite (H2 s' E).
Qed.

(** A state whose sequence is in its stream [length l1]. *)
Definition body_input (l1 l2 : list nat) (q : Z) (ps : list Z) (data : list Z) : list Z :=
  empty_streams l1 ++ le_bytes 4 (Z.of_nat (length ps)) ++ concat (cell_record q <$> ps) ++ data ++ empty_streams l2.

Lemma read_streams_ok l1 s l2 q ps fill r calls : positions_ok ps -> 0 < length ps -> (Z.of_nat (length ps) <= UINT32_MAX)%Z -> (INT32_MIN <= q <= INT32_MAX)%Z ->
  (forall cells, length cells = length ps -> Forall2 (matching cells) its fill) -> reader_kv r (body_input l1 l2 q ps (filled_bytes fill)) [] calls ->
  (exists xs r' k' cells sinfo, read_streams ly v_trans (Z.of_nat d) (l1 ++ s :: l2) (r, mk_kv_io k b) = (Ok xs, (r', mk_kv_io k' b)) /\ idxs sinfo = [cells] /\ seq_placed n d st ps cells k k' /\
     length ps <= room n d st k /\ reader_kv r' [] (all_staged sinfo cells its fill) calls) \/
  (exists r' k', read_streams ly v_trans (Z.of_nat d) (l1 ++ s :: l2) (r, mk_kv_io k b) = (Err RuntimeError, (r', mk_kv_io k' b)) /\ drifted k k' /\ resting n k' /\ room n d st k < length ps).
Proof.
  intros Hps Hsome Hmax Hq Hfill Hin. unfold body_input in Hin. destruct (read_streams_skip l1 (s :: l2) r k _ _ _ Hin) as (r1 & Hr1 & Hok & Herr).
  destruct (read_stream_ok n d st ly v_trans k b Hr Hd Hst Hpos Hly Hnl s ps q r1 _ _ _ Hps Hsome Hmax Hq Hr1) as [(cells & sinfo & fill' & rest' & r2 & k2 & E & Ei & Hpl & Hroom & Hs & Erest & Hr2)|(r2 & k2 & E & Hdr & Hrs & Hno)].
  - left. destruct (staged_unique sinfo cells its fill fill' (empty_streams l2) rest') as [Es <-]; [apply matching_all, Hfill; apply Hpl|done|exact Erest|]. fold its in Hr2. rewrite <- Es in Hr2. cbn [app] in Hr2.
    rewrite <- (app_nil_r (empty_streams l2)) in Hr2. destruct (read_streams_none l2 r2 k2 [] _ _ Hr2) as (r3 & E3 & Hr3).
    destruct (Hok (cells :: ((fun _ => []) <$> l2)) (r3, mk_kv_io k2 b)) as (xs & Exs).
    { cbn [read_streams]. by rewrite (stx_bind_Ok _ _ _ _ _ E), (stx_bind_Ok _ _ _ _ _ E3). }
    exists xs, r3, k2, cells, sinfo. done.
  - right. exists r2, k2. split; [|split; [done|split; [done|]]].
    + apply Herr. cbn [read_streams]. unfold mbind, stx_bind. by rewrite E.
    + destruct Hno as [?|Hno]; [done|]. exfalso. apply (Hno (seq 0 (length ps)) fill (empty_streams l2)); [by rewrite length_seq|apply Hfill; by rewrite length_seq|done].
Qed.
End streams.

(** ** How much is read *)

Lemma tracks_cache {A} (f : stx kv_cache A) : tracks reads_on (on_cache f).
Proof. intros [r m] res s' H. unfold on_cache in H. cbn [fst snd] in H. destruct (f (io_cache m)) as [res' k']. injection H as _ <-. unfold reads_on. reflexivity. Qed.

Lemma tracks_get_cache : tracks reads_only get_cache.
Proof. intros s res s' [= _ <-]. reflexivity. Qed.

Lemma tracks_get_cache_on : tracks reads_on get_cache.
Proof. apply tracks_weaken, tracks_get_cache. Qed.

Lemma tracks_clear : tracks reads_on clear_data.
Proof. intros [r m] res s' H. unfold clear_data in H. cbn [fst snd] in H. destruct (KvCache.clear (io_cache m)) as [res' k']. injection H as _ <-. unfold reads_on. reflexivity. Qed.

Lemma tracks_throw {A} e : tracks reads_on (stx_throw e : stx (llama_io_read_host kv_io * kv_io) A).
Proof. intros s res s' [= _ <-]. unfold reads_on. reflexivity. Qed.

Lemma tracks_or_false (f : stx (llama_io_read_host kv_io * kv_io) bool) : tracks reads_on f -> tracks reads_on (or_false f).
Proof.
  intros Hf s res s' H. unfold or_false in H. destruct (f s) as [[a|e] s1] eqn:E; apply Hf in E; [by injection H as _ <-|]. destruct (is_exception e); by injection H as _ <-.
Qed.

Lemma fold_tensors_moved cells t (offset : nat -> nat) w l (r r' : llama_io_read_host kv_io) :
  foldM (fun r i => idx ← vec_get cells i; read_tensor t (offset idx) w r) l r = Ok r' -> rd_moved r r'.
Proof.
  revert r. induction l as [|i l IH]; intros r H; [by injection H as <-|]. cbn [foldM] in H. apply bind_Ok in H as (r1 & H1 & H). apply bind_Ok in H1 as (idx & _ & H1).
  transitivity r1; [|by apply IH]. apply (read_tensor_moved t (offset idx) w r true). by rewrite H1.
Qed.

Lemma tracks_tensor t o w : tracks reads_on (on_io (Obj := kv_io) (fun r => r ← read_tensor t o w r; Ok (tt, r))).
Proof.
  apply tracks_weaken, tracks_io. intros r [] r' H. apply bind_Ok in H as (r1 & H & [= <-]). apply (read_tensor_moved t o w r true). by rewrite H.
Qed.

Lemma tracks_tensors cells t (offset : nat -> nat) w l :
  tracks reads_on (on_io (Obj := kv_io) (fun r => r ← foldM (fun r i => idx ← vec_get cells i; read_tensor t (offset idx) w r) l r; Ok (tt, r))).
Proof. apply tracks_weaken, tracks_io. intros r [] r' H. apply bind_Ok in H as (r1 & H & [= <-]). by eapply fold_tensors_moved. Qed.

#[export] Hint Resolve tracks_cache tracks_get_cache tracks_get_cache_on tracks_clear tracks_throw tracks_tensor tracks_tensors : tracks.

Lemma read_rows_on t row count sinfo : tracks reads_on (read_rows t row count sinfo).
Proof. unfold read_rows. repeat first [apply tracks_tensor | apply (tracks_tensors _ _ (fun idx => Z.to_nat (u64 (Z.of_nat idx * row)))) | track_step]. Qed.

Lemma read_channel_on v el size count sinfo j : tracks reads_on (read_channel v el size count sinfo j).
Proof.
  unfold read_channel. cbv zeta. repeat first [apply tracks_tensor | apply (tracks_tensors _ _ (fun idx => Z.to_nat (u64 (u32 (Z.of_nat idx + u32 (Z.of_nat j * Z.of_nat size)) * el)))) | track_step].
Qed.

#[export] Hint Resolve read_rows_on read_channel_on : tracks.

Lemma read_seq_cells_on two_d d l u : tracks reads_on (read_seq_cells two_d d l u).
Proof. revert u. induction l as [|i l IH]; intros u; cbn [read_seq_cells]; unfold read_seq_cell; track. Qed.

#[export] Hint Resolve read_seq_cells_on : tracks.

Lemma read_streams_on ly v_trans d l : tracks reads_on (read_streams ly v_trans d l).
Proof.
  assert (forall st count sinfo, tracks reads_on (state_read_data ly v_trans st count sinfo)) as Hd by (intros; unfold state_read_data, read_keys, read_values, read_values_trans; track).
  induction l as [|s l IH]; cbn [read_streams]; [track|]. unfold read_stream, state_read_meta, read_seq_meta, read_all_meta, read_kv_cell, read_cell_id. track; by apply tracks_or_false.
Qed.

(** ** The whole of a read *)

Section whole.
Context (n d st : nat) (ly : list kv_layer) (v_trans : bool) (framed_read : Z -> Z -> stx (llama_io_read_host kv_io * kv_io) unit) (flags : Z) (k : kv_cache) (b : bool).
Context (Hr : resting n k) (Hd : d < n_seq_max (k_cfg k)) (Hst : seq_to_stream k !! d = Some st) (Hns : n_stream (k_cfg k) <= LLAMA_MAX_SEQ).

Notation impl := (state_read_impl ly v_trans framed_read (Z.of_nat d) flags).
Notation streams := (read_streams ly v_trans (Z.of_nat d) (seq 0 (n_stream (k_cfg k)))).

Lemma body_start r : state_read_body ly v_trans (Z.of_nat d) (Z.of_nat (n_stream (k_cfg k))) (r, mk_kv_io k b) =
  (restored_cells ← streams; _ ← on_cache (rebuild_allocation_head (Z.of_nat d)); mret restored_cells) (r, mk_kv_io k b).
Proof.
  pose proof (kw_seqs n k (pn_wf _ _ (re_plain _ _ Hr))). unfold state_read_body. rewrite id_not_all. rewrite (stx_bind_Ok get_cache _ _ k (r, mk_kv_io k b)) by done.
  rewrite (proj2 (Z.leb_le 0 _)), (proj2 (Z.ltb_lt _ _)) by lia. cbn [orb andb assert_]. rewrite (stx_bind_Ok (stx_lift _) _ _ tt (r, mk_kv_io k b)) by done.
  rewrite Z.eqb_refl. cbn [require_]. rewrite (stx_bind_Ok (stx_lift _) _ _ tt (r, mk_kv_io k b)) by done. by rewrite (stx_bind_Ok (mret tt) _ _ tt (r, mk_kv_io k b)).
Qed.

(** Up to the streams. *)
Lemma impl_start r rest sets calls : reader_kv r (le_bytes 4 (Z.of_nat (n_stream (k_cfg k))) ++ rest) sets calls ->
  exists r1, reader_kv r1 rest sets calls /\ rd_moved r r1 /\
    (forall xs r' k', streams (r1, mk_kv_io k b) = (Ok xs, (r', mk_kv_io k' b)) -> drifted k k' -> impl (r, mk_kv_io k b) = (Ok tt, (r', mk_kv_io k' b))) /\
    (forall r' k', streams (r1, mk_kv_io k b) = (Err RuntimeError, (r', mk_kv_io k' b)) -> impl (r, mk_kv_io k b) = (Err RuntimeError, (r', mk_kv_io k' b))).
Proof.
  intros Hin. pose proof Hr as [Hp Hov _ _ _ _]. pose proof Hp as [Hk Ho _ _ Hfl]. pose proof max_seq_256 as Hmax. destruct (io_read_u32 r (mk_kv_io k b) _ _ _ _ Hin) as (r1 & E & Hr1); [unfold UINT32_MAX; lia|].
  exists r1. split; [done|]. split.
  { pose proof (tracks_io read_u32 (fun (r : llama_io_read_host kv_io) a r' => read_u32_moved r a r') _ _ _ E) as [H _]. exact H. }
  assert (impl (r, mk_kv_io k b) = (_ ← (restored_cells ← streams; _ ← on_cache (rebuild_allocation_head (Z.of_nat d)); mret restored_cells);
    if has_tail_overlay (k_cfg k) then on_cache ((on_tail (TailStore.seq_rm (Z.of_nat d) (-1) (-1)));; on_tail (mark_degraded (Z.of_nat d) DEGRADED_BODY_ONLY_STATE)) else mret tt) (r1, mk_kv_io k b)) as ->.
  { unfold state_read_impl. rewrite (stx_bind_Ok get_cache _ _ k (r, mk_kv_io k b)) by done. rewrite Ho. rewrite (stx_bind_Ok _ _ _ _ _ E).
    rewrite (proj2 (Z.eqb_neq _ _)) by (unfold LLAMA_KV_TAIL_STATE_MAGIC; lia). rewrite (no_compact _ Hov). cbn [negb require_]. rewrite (stx_bind_Ok (stx_lift _) _ _ tt (r1, mk_kv_io k b)) by done.
    unfold mbind at 1, stx_bind at 1. by rewrite body_start, id_not_all. }
  rewrite Hov. split.
  - intros xs r' k' Es Hdr. destruct (moved_cfg _ _ (dr_moved _ _ Hdr)) as (_ & _ & _ & M4). rewrite (stx_bind_Ok _ _ _ xs (r', mk_kv_io k' b)); [done|]. rewrite (stx_bind_Ok _ _ _ _ _ Es).
    rewrite (stx_bind_Ok _ _ _ tt (r', mk_kv_io k' b)); [done|]. apply on_cache_ok, no_rebuild. by rewrite M4.
  - intros r' k' Es. unfold mbind, stx_bind. by rewrite Es.
Qed.

Lemma capture_ok r k1 : tail (k_tail k1) = None -> capture (r, mk_kv_io k1 b) = (Ok k1, (r, mk_kv_io k1 b)).
Proof. intros H. unfold capture. rewrite (stx_bind_Ok get_cache _ _ k1 (r, mk_kv_io k1 b)) by done. by rewrite H. Qed.

Notation kv_read := (kv_state_read ly v_trans framed_read (Z.of_nat d) flags).

Lemma kv_read_done r r' k' : impl (r, mk_kv_io k b) = (Ok tt, (r', mk_kv_io k' b)) -> drifted k k' -> resting n k' -> kv_read (r, mk_kv_io k b) = (Ok tt, (on_commit (install_io k') r', mk_kv_io k b)).
Proof.
  intros E Hdr Hr'. pose proof Hr as [_ _ Hme Ht _ _]. unfold kv_state_read. rewrite (stx_bind_Ok get_cache _ _ k (r, mk_kv_io k b)) by done. rewrite Hme, (stx_bind_Ok _ _ _ _ _ (capture_ok r k Ht)).
  rewrite (stx_bind_Ok _ _ _ tt (r', mk_kv_io k' b)) by (by rewrite E). rewrite (stx_bind_Ok _ _ _ _ _ (capture_ok r' k' (re_tail _ _ Hr'))).
  rewrite (stx_bind_Ok _ _ _ tt (r', mk_kv_io k b)); [done|]. apply on_cache_ok. by apply (install_same n).
Qed.

Lemma kv_read_refused r r' k' : impl (r, mk_kv_io k b) = (Err RuntimeError, (r', mk_kv_io k' b)) -> drifted k k' -> resting n k' -> kv_read (r, mk_kv_io k b) = (Err RuntimeError, (r', mk_kv_io k b)).
Proof.
  intros E Hdr Hr'. pose proof Hr as [_ _ Hme Ht _ _]. unfold kv_state_read. rewrite (stx_bind_Ok get_cache _ _ k (r, mk_kv_io k b)) by done. rewrite Hme, (stx_bind_Ok _ _ _ _ _ (capture_ok r k Ht)).
  unfold mbind at 1, stx_bind at 1. rewrite E. cbn [is_exception]. by rewrite (stx_bind_Ok _ _ _ tt (r', mk_kv_io k b)) by (apply on_cache_ok; by apply (install_same n)).
Qed.
End whole.

(** ** What is written *)

Lemma chosen_elsewhere n k x st st' c : kv_wf n k -> seq_to_stream k !! x = Some st -> v_cells k !! st' = Some c -> st' <> st -> chosen_cells x c = [].
Proof.
  intros Hk Hx Hc Hne. apply filter_no. intros i _. destruct (chosen x c i) eqn:E; [|done]. apply chosen_Some in E as (p & S & Hi & HS).
  pose proof (kw_home n k Hk st' _ i p S x (abs_stream k st' c Hc) Hi HS). congruence.
Qed.

Lemma streams_split ns st : st < ns -> seq 0 ns = seq 0 st ++ st :: seq (st + 1) (ns - st - 1).
Proof. intros H. replace ns with (st + (1 + (ns - st - 1))) at 1 by lia. rewrite seq_app. cbn [seq Nat.add app]. by rewrite Nat.add_1_r. Qed.

Section file.
Context (n : nat) (k : kv_cache) (Hr : resting n k) (x : nat) (Hx : x < n_seq_max (k_cfg k)) (Hpos : n_pos_per_embd (k_cfg k) = 1).
Context (v_trans : bool) (ly : list kv_layer) (T : tensors) (Hly : kv_layers_ok v_trans (n_stream (k_cfg k)) n ly T).
Context (st : nat) (c : kv_cells) (Hst : seq_to_stream k !! x = Some st) (Hc : v_cells k !! st = Some c).

Notation ps := (cell_pos c <$> chosen_cells x c).

Lemma file_positions : positions_ok ps.
Proof.
  unfold positions_ok. apply Forall_fmap, Forall_forall. intros i [_ (p & S & Hi & _)%chosen_Some]%elem_of_chosen. cbn. unfold cell_pos. rewrite Hi.
  pose proof (re_plain _ _ Hr) as [Hk _ _ [_ Hlt] _]. split; [exact (abs_nonneg n c i p S (kw_cells n k Hk st c Hc) Hi)|by eapply Hlt].
Qed.

Lemma file_cells : Forall (fun i => i < n) (chosen_cells x c) /\ length (chosen_cells x c) <= n.
Proof.
  pose proof (sm_size n c (kw_cells n k (pn_wf _ _ (re_plain _ _ Hr)) st c Hc)) as Hs. split; [apply Forall_forall; intros i [Hi _]%elem_of_chosen; lia|].
  unfold chosen_cells. etransitivity; [apply List.filter_length_le|]. rewrite length_seq. lia.
Qed.

Definition moved_rows : list (list (list Z)) := item_rows T (chosen_cells x c) <$> items v_trans n st ly.

Lemma other_streams l : (forall s, s ∈ l -> s <> st /\ s < n_stream (k_cfg k)) -> concat (stream_bytes_at n k x v_trans ly T <$> l) = empty_streams l.
Proof.
  intros H. unfold empty_streams. f_equal. apply list_fmap_ext. intros i s Hs%list_elem_of_lookup_2. destruct (H s Hs) as [H1 H2]. unfold stream_bytes_at.
  destruct (stream_cells_ok n k Hr s H2) as (c' & Hc' & _). rewrite Hc'. unfold stream_bytes. by rewrite (chosen_elsewhere n k x st s c' (pn_wf _ _ (re_plain _ _ Hr)) Hst Hc' H1).
Qed.

Lemma file_bytes : chosen_cells x c <> [] -> body_bytes n k x v_trans ly T =
  le_bytes 4 (Z.of_nat (n_stream (k_cfg k))) ++ body_input (seq 0 st) (seq (st + 1) (n_stream (k_cfg k) - st - 1)) (Z.of_nat x) ps (filled_bytes moved_rows).
Proof.
  intros Hne. pose proof (kw_map n k (pn_wf _ _ (re_plain _ _ Hr))) as Hm. rewrite Forall_lookup in Hm. pose proof (Hm _ _ Hst) as Hlt. cbn in Hlt.
  unfold body_bytes, body_input. f_equal. rewrite (streams_split _ st Hlt), fmap_app, concat_app. cbn [fmap list_fmap concat].
  fold (fmap (M := list) (stream_bytes_at n k x v_trans ly T)). rewrite !other_streams by (intros s Hs%elem_of_seq; lia). f_equal.
  unfold stream_bytes_at at 1. rewrite Hc. unfold stream_bytes. destruct (chosen_cells x c) as [|i l] eqn:El; [done|]. rewrite <- El in *. rewrite length_fmap, <- !app_assoc.
  unfold filled_bytes, moved_rows. done.
Qed.
End file.

(** ** Moving a sequence *)

(** A cache with cells of sequence [x], in stream [st]. *)
Record seq_source (v_trans : bool) (n : nat) (k : kv_cache) (ly : list kv_layer) (T : tensors) (x st : nat) (c : kv_cells) : Prop := {
  ss_resting : resting n k;
  ss_size : (Z.of_nat n <= UINT32_MAX)%Z;
  ss_pos : n_pos_per_embd (k_cfg k) = 1;
  ss_layers : kv_layers_ok v_trans (n_stream (k_cfg k)) n ly T;
  ss_seq : x < n_seq_max (k_cfg k);
  ss_home : seq_to_stream k !! x = Some st;
  ss_stream : v_cells k !! st = Some c;
  ss_cells : chosen_cells x c <> []
}.

(** A cache of the same model with a sequence [d], in stream [st0]. *)
Record seq_target (v_trans : bool) (n0 : nat) (k0 : kv_cache) (ly0 : list kv_layer) (T0 : tensors) (d st0 : nat) : Prop := {
  sd_resting : resting n0 k0;
  sd_streams : n_stream (k_cfg k0) <= LLAMA_MAX_SEQ;
  sd_pos : n_pos_per_embd (k_cfg k0) = 1;
  sd_layers : kv_layers_ok v_trans (n_stream (k_cfg k0)) n0 ly0 T0;
  sd_seq : d < n_seq_max (k_cfg k0);
  sd_home : seq_to_stream k0 !! d = Some st0
}.

(** The cells of the sequence have come to [cells]; the others are what they were without
    the old cells of the destination. *)
Record seq_moved (v_trans : bool) (n n0 : nat) (k0 k' : kv_cache) (ly ly0 : list kv_layer) (T T0 T' : tensors) (x st : nat) (c : kv_cells) (d st0 : nat) (cells : list nat) : Prop := {
  sv_resting : resting n0 k';
  sv_cells : length cells = length (chosen_cells x c) /\ NoDup cells /\ Forall (fun i => i < n0) cells;
  sv_free : forall i, i ∈ cells -> forget d (content_at (abs k0) (st0, i)) = None;
  sv_new : forall j i i0, chosen_cells x c !! j = Some i -> cells !! j = Some i0 ->
    content_at (abs k') (st0, i0) = Some (cell_pos c i, {[d]}) /\ cell_rows v_trans n0 st0 ly0 T' i0 = cell_rows v_trans n st ly T i;
  sv_old : forall s i, s < n_stream (k_cfg k0) -> i < n0 -> (s, i) ∉ pair st0 <$> cells ->
    content_at (abs k') (s, i) = forget d (content_at (abs k0) (s, i)) /\ cell_rows v_trans n0 s ly0 T' i = cell_rows v_trans n0 s ly0 T0 i
}.

Section moves.
Context (v_trans : bool) (n n0 : nat) (k k0 : kv_cache) (ly ly0 : list kv_layer) (T T0 : tensors) (x st : nat) (c : kv_cells) (d st0 : nat) (b0 : bool).
Context (Hsrc : seq_source v_trans n k ly T x st c) (Hdst : seq_target v_trans n0 k0 ly0 T0 d st0).
Context (Hns : n_stream (k_cfg k) = n_stream (k_cfg k0)) (Hsame : Forall2 same_layer ly ly0).
Context (framed_read : Z -> Z -> stx (llama_io_read_host kv_io * kv_io) unit) (flags : Z).

Notation ps := (cell_pos c <$> chosen_cells x c).
Notation count := (length (chosen_cells x c)).
Notation rows := (moved_rows n x v_trans ly T st c).
Notation its0 := (items v_trans n0 st0 ly0).

Lemma source_stream : st < n_stream (k_cfg k).
Proof. destruct Hsrc as [Hr _ _ _ _ Hh _ _]. pose proof (kw_map n k (pn_wf _ _ (re_plain _ _ Hr))) as Hm. rewrite Forall_lookup in Hm. by apply (Hm x). Qed.

Lemma target_stream : st0 < n_stream (k_cfg k0).
Proof. destruct Hdst as [Hr _ _ _ _ Hh]. pose proof (kw_map n0 k0 (pn_wf _ _ (re_plain _ _ Hr))) as Hm. rewrite Forall_lookup in Hm. by apply (Hm d). Qed.

Lemma rows_match cells : length cells = count -> Forall2 (matching cells) its0 rows.
Proof.
  intros Hl. pose proof Hsrc as [Hr _ Hpos Hly Hx Hh Hc _]. eapply written_matches; [exact Hly|apply Hdst|exact Hsame|apply source_stream|apply target_stream|done|].
  exact (proj1 (file_cells n k Hr x Hx Hpos st c Hc)).
Qed.

(** The state of the source read into the destination. *)
Lemma read_file r : reader_kv r (body_bytes n k x v_trans ly T) [] [] ->
  (exists r' k' cells sinfo, kv_state_read ly0 v_trans framed_read (Z.of_nat d) flags (r, mk_kv_io k0 b0) = (Ok tt, (r', mk_kv_io k0 b0)) /\ rd_read r' = rd_read r + rd_left r /\
     idxs sinfo = [cells] /\ seq_placed n0 d st0 ps cells k0 k' /\ count <= room n0 d st0 k0 /\ reader_kv r' [] (all_staged sinfo cells its0 rows) [install_io k']) \/
  (exists r', kv_state_read ly0 v_trans framed_read (Z.of_nat d) flags (r, mk_kv_io k0 b0) = (Err RuntimeError, (r', mk_kv_io k0 b0)) /\ room n0 d st0 k0 < count).
Proof.
  intros Hin. pose proof Hsrc as [Hr Hn Hpos Hly Hx Hh Hc Hne]. pose proof Hdst as [Hr0 Hns0 Hpos0 Hly0 Hd Hh0]. pose proof source_stream as Hst.
  rewrite (file_bytes n k Hr x Hx Hpos v_trans ly T st c Hh Hc Hne), Hns in Hin.
  destruct (impl_start n0 d ly0 v_trans framed_read flags k0 b0 Hr0 Hd Hns0 r _ _ _ Hin) as (r1 & Hr1 & Hmv & Hok & Herr).
  pose proof (streams_split _ _ Hst) as Hsplit. rewrite Hns in Hsplit. rewrite Hsplit in Hok, Herr.
  assert (length ps = count) as Hlen by apply length_fmap. assert (0 < count) as Hsome by (destruct (chosen_cells x c); [done|cbn; lia]).
  pose proof (file_cells n k Hr x Hx Hpos st c Hc) as [Hin_n Hcount]. pose proof max_seq_256 as Hmax.
  pose proof (kw_seqs n k (pn_wf _ _ (re_plain _ _ Hr))) as Hseqs.
  destruct (read_streams_ok n0 d st0 ly0 v_trans k0 b0 Hr0 Hd Hh0 Hpos0 (kl_layer _ _ _ _ _ Hly0) (kl_count _ _ _ _ _ Hly0) (seq 0 st) st (seq (st + 1) (n_stream (k_cfg k0) - st - 1)) (Z.of_nat x) ps rows r1 [])
    as [(xs & r2 & k' & cells & sinfo & E & Ei & Hpl & Hroom & Hr2)|(r2 & k' & E & Hdr & Hrs & Hroom)].
  - exact (file_positions n k Hr x st c Hc).
  - by rewrite Hlen.
  - rewrite Hlen. lia.
  - unfold INT32_MIN, INT32_MAX. lia.
  - intros cells Hl. apply rows_match. by rewrite <- Hlen.
  - exact Hr1.
  - left. exists (on_commit (install_io k') r2), k', cells, sinfo. split; [|split; [|split; [done|split; [done|split; [by rewrite <- Hlen|]]]]].
    + eapply kv_read_done; [done|eapply Hok; [exact E|apply Hpl]|apply Hpl|apply Hpl].
    + pose proof (read_streams_on _ _ _ _ _ _ _ E) as [_ H1 _]. destruct Hmv as [_ H2 _]. pose proof (reader_left _ _ _ _ Hr2) as Hl2. cbn [fst length on_commit rd_read] in *. lia.
    + apply (reader_on_commit _ _ _ _ _ Hr2).
  - right. exists r2. split; [|by rewrite <- Hlen]. eapply kv_read_refused; [done|by apply Herr|done|done].
Qed.

(** The commit. *)
Lemma commit_file r k' cells sinfo : idxs sinfo = [cells] -> seq_placed n0 d st0 ps cells k0 k' -> reader_kv r [] (all_staged sinfo cells its0 rows) [install_io k'] ->
  exists T', commit r T0 (mk_kv_io k0 b0) = Ok (StateIo.cancel r, T', mk_kv_io k' b0) /\ seq_moved v_trans n n0 k0 k' ly ly0 T T0 T' x st c d st0 cells.
Proof.
  intros Ei [Q1 Q2 (Q3 & Q4 & Q5) Q6 Q7 Q8] Hr. pose proof Hsrc as [Hrk Hn Hpos Hly Hx Hh Hc Hne]. pose proof Hdst as [Hr0 Hns0 Hpos0 Hly0 Hd Hh0].
  rewrite length_fmap in Q3. assert (0 < length cells) as Hsome by (rewrite Q3; destruct (chosen_cells x c); [done|cbn; lia]).
  pose proof (rows_match cells Q3) as Hm. pose proof (matching_all _ _ _ Hm) as Hs. pose proof source_stream as Hst. pose proof target_stream as Hst0.
  pose proof (file_cells n k Hrk x Hx Hpos st c Hc) as [Hin_n _].
  exists (foldl set_tensor T0 (all_staged sinfo cells its0 rows)). split.
  - rewrite (reader_commit r _ _ _ T0 _ Hr) by (eapply fill_staged_fit; [exact Hly0|exact Hst0|exact Q5|exact Q4|exact Ei|exact Hsome|exact Hs]).
    cbn [foldM]. unfold install_io at 1. cbn [io_cache io_cleared]. rewrite (install_same n0 k' k0 Q2 Hr0) by (by apply (drifted_sym n0)). done.
  - split; [done|done|done| |].
    + intros j i i0 Hi Hi0. split; [apply (Q7 j); [done|]; by rewrite list_lookup_fmap, Hi|].
      by eapply (rows_restored v_trans _ n ly T Hly _ n0 ly0 T0 Hly0 Hsame st st0 (chosen_cells x c) cells Hst Hst0 (eq_sym Q3) Hin_n Q5 Q4 sinfo Ei j).
    + intros s i Hs0 Hi Hnot. split; [by apply Q8|]. eapply (rows_kept v_trans _ _ n0 ly0 T0 Hly0 st st0 (chosen_cells x c) cells Hst Hst0 (eq_sym Q3) Q5 sinfo Ei Hsome _ Hs); [done|done|].
      destruct (decide (s = st0)) as [->|]; [right|by left]. intros Hi'. apply Hnot. by apply list_elem_of_fmap_2.
Qed.
End moves.

(** The operations of a write. *)
Lemma write_file_ok fw fr v_trans n k ly T x st c b flags : seq_source v_trans n k ly T x st c -> flag_body_only flags = false ->
  let ops := body_ops n k x v_trans ly in
  (forall W (HW : IoWrite W) (io : W), @state_write _ (kv_state ly v_trans fw fr) W HW (Z.of_nat x) flags (mk_kv_io k b) io = foldM run_op ops io) /\
  Forall (op_fits T) ops /\ ops_data T ops = body_bytes n k x v_trans ly T.
Proof.
  intros [Hr _ Hpos Hly Hx _ _ _] Hf ops. split; [|split; [by apply body_fits|by apply body_data]]. intros W HW io. change (kv_state_write ly v_trans fw (Z.of_nat x) flags k io = foldM run_op ops io).
  unfold kv_state_write. rewrite (pn_own _ _ (re_plain _ _ Hr)), (re_overlay _ _ Hr), Hf. cbn [negb andb]. by apply (write_body_ok n k Hr x Hx Hpos v_trans ly T Hly).
Qed.

Lemma seq_allowed n x : (Z.of_nat x < n)%Z -> seq_ok n (Z.of_nat x) (0 <=? Z.of_nat x)%Z = true.
Proof. intros H. unfold seq_ok. rewrite (proj2 (Z.ltb_ge _ _)), (proj2 (Z.leb_gt _ _)), (proj2 (Z.leb_le 0 _)) by lia. done. Qed.

(** ** Truncated states *)

Lemma cut_app (l l1 l2 more : list Z) : l ++ more = l1 ++ l2 -> more <> [] -> length l < length l1 \/ exists l', l = l1 ++ l' /\ l' ++ more = l2.
Proof.
  intros E Hm. destruct (Nat.lt_ge_cases (length l) (length l1)) as [?|Hge]; [by left|right]. exists (drop (length l1) l).
  assert (take (length l1) l = l1) as Et.
  { transitivity (take (length l1) (l ++ more)); [by rewrite take_app_le|]. rewrite E. apply take_app_length. }
  split; [rewrite <- Et at 1; by rewrite take_drop|]. rewrite <- (drop_app_length l1 l2), <- E. by rewrite drop_app_le.
Qed.

Lemma short_u32 r (m : kv_io) input sets calls : reader_kv r input sets calls -> length input < 4 -> on_io read_u32 (r, m) = (Err RuntimeError, (r, m)).
Proof. intros Hr Hl. unfold on_io, read_u32. cbn [fst snd]. by rewrite (reader_short _ _ _ _ _ Hr Hl). Qed.

Section cut.
Context (n d st : nat) (ly : list kv_layer) (v_trans : bool) (k : kv_cache) (b : bool).
Context (Hr : resting n k) (Hd : d < n_seq_max (k_cfg k)) (Hst : seq_to_stream k !! d = Some st) (Hpos : n_pos_per_embd (k_cfg k) = 1).
Context (Hly : Forall (layer_fits v_trans (n_stream (k_cfg k)) n) ly) (Hnl : (Z.of_nat (length ly) <= UINT32_MAX)%Z).

(** A refused read of the streams. *)
Definition streams_refused (x : outcome (list (list nat)) * (llama_io_read_host kv_io * kv_io)) : Prop :=
  exists r' k', x = (Err RuntimeError, (r', mk_kv_io k' b)) /\ drifted k k' /\ resting n k'.

Lemma read_streams_cut l1 l r k1 input more rest sets calls : drifted k k1 -> resting n k1 -> reader_kv r input sets calls -> input ++ more = empty_streams l1 ++ rest -> length input < length (empty_streams l1) ->
  streams_refused (read_streams ly v_trans (Z.of_nat d) (l1 ++ l) (r, mk_kv_io k1 b)).
Proof.
  intros Hdr Hr1. revert r input. induction l1 as [|s l1 IH]; intros r input Hin E Hl; [cbn in Hl; lia|]. unfold empty_streams in E, Hl. cbn [fmap list_fmap concat] in E, Hl. rewrite <- app_assoc in E.
  cbn [app read_streams]. destruct (Nat.lt_ge_cases (length input) 4) as [Hlt|Hge].
  - exists r, k1. split; [|done]. unfold mbind at 1, stx_bind at 1. unfold read_stream. unfold mbind at 1, stx_bind at 1. by rewrite (short_u32 _ _ _ _ _ Hin Hlt).
  - assert (input = le_bytes 4 0 ++ drop 4 input) as Ei.
    { rewrite <- (take_drop 4 input) in E at 1. rewrite <- app_assoc in E. apply app_inj_1 in E as [<- _]; [by rewrite take_drop|]. rewrite length_take, le_bytes_length. lia. }
    rewrite Ei in Hin. destruct (read_stream_none d ly v_trans k1 b s r _ _ _ Hin) as (r1 & E1 & Hr2). rewrite Ei, <- app_assoc in E. apply app_inv_head in E.
    rewrite length_app, le_bytes_length in Hl. destruct (IH r1 (drop 4 input) Hr2 E) as (r2 & k2 & E2 & H2); [rewrite length_drop; unfold empty_streams; lia|]. exists r2, k2. split; [|done].
    rewrite (stx_bind_Ok _ _ _ _ _ E1). unfold mbind, stx_bind. by rewrite E2.
Qed.

Lemma stream_refused s l r r' k' : read_stream ly v_trans (Z.of_nat d) s (r, mk_kv_io k b) = (Err RuntimeError, (r', mk_kv_io k' b)) -> drifted k k' -> resting n k' ->
  streams_refused (read_streams ly v_trans (Z.of_nat d) (s :: l) (r, mk_kv_io k b)).
Proof. intros E H1 H2. exists r', k'. split; [|done]. cbn [read_streams]. unfold mbind, stx_bind. by rewrite E. Qed.

(** From the stream of the sequence on. *)
Lemma read_stream_cut s l2 q ps fill r input more calls : positions_ok ps -> 0 < length ps -> (Z.of_nat (length ps) <= UINT32_MAX)%Z -> (INT32_MIN <= q <= INT32_MAX)%Z ->
  (forall cells, length cells = length ps -> Forall2 (matching cells) (items v_trans n st ly) fill) -> reader_kv r input [] calls -> more <> [] ->
  input ++ more = le_bytes 4 (Z.of_nat (length ps)) ++ concat (cell_record q <$> ps) ++ filled_bytes fill ++ empty_streams l2 ->
  streams_refused (read_streams ly v_trans (Z.of_nat d) (s :: l2) (r, mk_kv_io k b)).
Proof.
  intros Hps Hsome Hmax Hq Hfill Hin Hm E. destruct (cut_app _ _ _ _ E Hm) as [Hlt|(i1 & -> & E1)].
  { rewrite le_bytes_length in Hlt. apply (stream_refused s l2 r r k); [|apply drifted_refl|done]. unfold read_stream. unfold mbind at 1, stx_bind at 1. by rewrite (short_u32 _ _ _ _ _ Hin Hlt). }
  destruct (Nat.lt_ge_cases (length i1) (12 * length ps)) as [Hlt|Hge].
  { destruct (read_stream_short n d st ly v_trans k b Hr Hd Hst Hpos s ps q r i1 more _ [] calls Hps Hsome Hmax Hq E1 Hlt Hin) as (r' & k' & E2 & H1 & H2). by eapply stream_refused. }
  destruct (cut_app _ _ _ _ E1 Hm) as [Hlt|(i2 & -> & E2)].
  { exfalso. rewrite (length_concat_rows _ 12) in Hlt; [rewrite length_fmap in Hlt; lia|]. apply Forall_fmap, Forall_true. intros p. apply cell_record_length. }
  destruct (read_stream_ok n d st ly v_trans k b Hr Hd Hst Hpos Hly Hnl s ps q r i2 [] calls Hps Hsome Hmax Hq Hin) as [(cells & sinfo & fill' & rest' & r2 & k2 & Es & Ei & Hpl & Hroom & Hs & Erest & Hr2)|(r2 & k2 & Es & H1 & H2 & _)]; [|by eapply stream_refused].
  assert (Forall2 (sized cells) (items v_trans n st ly) fill) as Hs0 by (apply matching_all, Hfill; apply Hpl).
  subst i2. rewrite <- app_assoc in E2. destruct (staged_unique sinfo cells _ fill' fill (rest' ++ more) (empty_streams l2) Hs Hs0 E2) as [_ E3].
  assert (rest' ++ more = empty_streams l2 ++ []) as E3' by (by rewrite app_nil_r).
  destruct (read_streams_cut l2 [] r2 k2 rest' more [] _ _ (sp_drifted _ _ _ _ _ _ _ Hpl) (sp_resting _ _ _ _ _ _ _ Hpl) Hr2 E3') as (r3 & k3 & E4 & H3).
  { rewrite <- E3, length_app. destruct more; [done|]. cbn. lia. }
  rewrite app_nil_r in E4. exists r3, k3. split; [|done]. cbn [read_streams]. rewrite (stx_bind_Ok _ _ _ _ _ Es). unfold mbind, stx_bind. by rewrite E4.
Qed.

Lemma read_body_cut l1 s l2 q ps fill r input more calls : positions_ok ps -> 0 < length ps -> (Z.of_nat (length ps) <= UINT32_MAX)%Z -> (INT32_MIN <= q <= INT32_MAX)%Z ->
  (forall cells, length cells = length ps -> Forall2 (matching cells) (items v_trans n st ly) fill) -> reader_kv r input [] calls -> more <> [] ->
  input ++ more = body_input l1 l2 q ps (filled_bytes fill) -> streams_refused (read_streams ly v_trans (Z.of_nat d) (l1 ++ s :: l2) (r, mk_kv_io k b)).
Proof.
  intros Hps Hsome Hmax Hq Hfill Hin Hm E. unfold body_input in E. destruct (cut_app _ _ _ _ E Hm) as [Hlt|(i1 & -> & E1)].
  { eapply read_streams_cut; [apply drifted_refl|done|exact Hin|exact E|done]. }
  destruct (read_streams_skip d ly v_trans b l1 (s :: l2) r k _ _ _ Hin) as (r1 & Hr1 & _ & Herr).
  destruct (read_stream_cut s l2 q ps fill r1 i1 more calls Hps Hsome Hmax Hq Hfill Hr1 Hm E1) as (r2 & k2 & E2 & H2). exists r2, k2. split; [by apply Herr|done].
Qed.
End cut.

(** A state cut short is refused by the cache. *)
Lemma read_file_cut v_trans n n0 k k0 ly ly0 T T0 x st c d st0 b0 fr flags r input more :
  seq_source v_trans n k ly T x st c -> seq_target v_trans n0 k0 ly0 T0 d st0 -> n_stream (k_cfg k) = n_stream (k_cfg k0) -> Forall2 same_layer ly ly0 ->
  reader_kv r input [] [] -> more <> [] -> input ++ more = body_bytes n k x v_trans ly T ->
  exists r', kv_state_read ly0 v_trans fr (Z.of_nat d) flags (r, mk_kv_io k0 b0) = (Err RuntimeError, (r', mk_kv_io k0 b0)).
Proof.
  intros Hsrc Hdst Hns Hsame Hin Hm E. pose proof Hsrc as [Hr Hn Hpos Hly Hx Hh Hc Hne]. pose proof Hdst as [Hr0 Hns0 Hpos0 Hly0 Hd Hh0].
  pose proof (source_stream v_trans n k ly T x st c Hsrc) as Hst. rewrite (file_bytes n k Hr x Hx Hpos v_trans ly T st c Hh Hc Hne), Hns in E.
  destruct (cut_app _ _ _ _ E Hm) as [Hlt|(i1 & -> & E1)].
  { rewrite le_bytes_length in Hlt. exists r. eapply (kv_read_refused n0); [done| |apply drifted_refl|done]. unfold state_read_impl.
    rewrite (stx_bind_Ok get_cache _ _ k0 (r, mk_kv_io k0 b0)) by done. rewrite (pn_own _ _ (re_plain _ _ Hr0)). unfold mbind, stx_bind. by rewrite (short_u32 _ _ _ _ _ Hin Hlt). }
  destruct (impl_start n0 d ly0 v_trans fr flags k0 b0 Hr0 Hd Hns0 r _ _ _ Hin) as (r1 & Hr1 & _ & _ & Herr).
  pose proof (streams_split _ _ Hst) as Hsplit. rewrite Hns in Hsplit. rewrite Hsplit in Herr. assert (length (cell_pos c <$> chosen_cells x c) = length (chosen_cells x c)) as Hlen by apply length_fmap.
  pose proof (file_cells n k Hr x Hx Hpos st c Hc) as [_ Hcount]. pose proof max_seq_256 as Hmax. pose proof (kw_seqs n k (pn_wf _ _ (re_plain _ _ Hr))) as Hseqs.
  destruct (read_body_cut n0 d st0 ly0 v_trans k0 b0 Hr0 Hd Hh0 Hpos0 (kl_layer _ _ _ _ _ Hly0) (kl_count _ _ _ _ _ Hly0) (seq 0 st) st (seq (st + 1) (n_stream (k_cfg k0) - st - 1)) (Z.of_nat x) (cell_pos c <$> chosen_cells x c) (moved_rows n x v_trans ly T st c) r1 i1 more [])
    as (r2 & k2 & E2 & Hdr & Hrs); [| | | | |exact Hr1|exact Hm|exact E1|].
  - exact (file_positions n k Hr x st c Hc).
  - rewrite Hlen. destruct (chosen_cells x c); [done|cbn; lia].
  - rewrite Hlen. lia.
  - unfold INT32_MIN, INT32_MAX. lia.
  - intros cells Hl. rewrite Hlen in Hl. exact (rows_match v_trans n n0 k k0 ly ly0 T T0 x st c d st0 Hsrc Hdst Hsame cells Hl).
  - exists r2. eapply (kv_read_refused n0); [done|by apply Herr|done|done].
Qed.

(** ** Properties *)

(** C24: A sequence that has cells can be moved between two caches of the same model, with
    the same number of streams, whatever their sizes, through the sequence-state functions
    of a context, when both are at rest: cells of their own, no exact tail or overlay, no
    sliding window, no record groups, one position per embedding, no pending copy or shift.
    The size reported is the size written.  When the destination has as many free cells as
    the sequence has cells (its own old cells counted as free), reading the buffer places
    the cells with their positions and, in every layer and channel, their key and value
    rows; every other cell of every stream keeps what it had, but for the old cells of the
    destination.  Preparing the read and committing the plan does the same in two steps.
    Without room the read is refused, and neither tensors nor the cache are changed. *)
Theorem kv_sequence_moves ly ly0 v_trans get_tensor_2d fw fr n_seq_max n_seq_max0 n n0 k k0 b b0 T T0 x d st st0 c :
  (forall get, get_tensor_2d = Some get -> transfers get) -> seq_source v_trans n k ly T x st c -> seq_target v_trans n0 k0 ly0 T0 d st0 ->
  n_stream (k_cfg k) = n_stream (k_cfg k0) -> Forall2 same_layer ly ly0 -> (Z.of_nat x < n_seq_max)%Z -> (Z.of_nat d < n_seq_max0)%Z ->
  let from := kv_state ly v_trans fw fr in let into := kv_state ly0 v_trans fw fr in
  exists size buf, @state_seq_get_size _ from n_seq_max (Z.of_nat x) 0 (mk_kv_io k b) = Ok size /\ length buf = size /\
    (forall mem len, size <= len <= length mem -> @state_seq_get_data _ from get_tensor_2d n_seq_max (Z.of_nat x) 0 true T (mk_kv_io k b) mem len = Ok (size, Some (buf ++ drop size mem))) /\
    forall rest,
      (length (chosen_cells x c) <= room n0 d st0 k0 /\ exists cells T' k',
         @state_seq_set_data _ into n_seq_max0 (Z.of_nat d) 0 (buf ++ rest) size T0 (mk_kv_io k0 b0) = Ok (size, T', mk_kv_io k' b0) /\
         (exists plan, @state_seq_prepare_data _ into n_seq_max0 (Z.of_nat d) 0 (buf ++ rest) size (mk_kv_io k0 b0) = Ok (Some plan, mk_kv_io k0 b0) /\
            restore_plan_commit plan T0 (mk_kv_io k0 b0) = Ok (size, mk_plan None size, T', mk_kv_io k' b0)) /\
         seq_moved v_trans n n0 k0 k' ly ly0 T T0 T' x st c d st0 cells) \/
      (room n0 d st0 k0 < length (chosen_cells x c) /\
         @state_seq_set_data _ into n_seq_max0 (Z.of_nat d) 0 (buf ++ rest) size T0 (mk_kv_io k0 b0) = Ok (0, T0, mk_kv_io k0 b0) /\
         @state_seq_prepare_data _ into n_seq_max0 (Z.of_nat d) 0 (buf ++ rest) size (mk_kv_io k0 b0) = Ok (None, mk_kv_io k0 b0)).
Proof.
  intros Hget Hsrc Hdst Hns Hsame Hx Hd from into. destruct (write_file_ok fw fr v_trans n k ly T x st c b 0 Hsrc eq_refl) as (Hw & Hfit & Edata).
  pose proof (file_size_ok get_tensor_2d Hget (H := from) (Z.of_nat x) 0 (mk_kv_io k b) T _ Hw Hfit eq_refl n_seq_max (seq_allowed _ _ Hx)) as Hsize. rewrite Edata in Hsize.
  eexists _, (seq_file (Z.of_nat x) (body_bytes n k x v_trans ly T)). split; [exact Hsize|]. split; [done|]. split.
  - intros mem len [Hl1 Hl2]. pose proof (file_data_ok get_tensor_2d Hget (H := from) (Z.of_nat x) 0 (mk_kv_io k b) T _ Hw Hfit n_seq_max mem len (seq_allowed _ _ Hx) Hl2) as E.
    rewrite Edata in E. by rewrite (proj2 (Nat.ltb_ge _ _) Hl1) in E.
  - intros rest. set (buf := seq_file _ _). assert (reader_kv (read_host (buf ++ rest) (length buf)) buf [] []) as Hr.
    { rewrite <- (take_app_length buf rest) at 3. apply reader_start. rewrite length_app. lia. }
    destruct (load_file (H := into) (Z.of_nat d) 0 _ (mk_kv_io k0 b0) _ _ _ _ Hr) as (r0 & Hr0 & [_ Hmv _] & E0). cbn [rd_read rd_left read_host] in Hmv.
    change (state_read (Z.of_nat d) 0) with (kv_state_read ly0 v_trans fr (Z.of_nat d) 0) in E0. unfold state_seq_set_data, state_seq_prepare_data.
    change (state_seq_can_restore (Z.of_nat d) 0 (mk_kv_io k0 b0)) with (0 <=? Z.of_nat d)%Z. rewrite (seq_allowed _ _ Hd). cbn [negb orb]. rewrite E0.
    destruct (read_file v_trans n n0 k k0 ly ly0 T T0 x st c d st0 b0 Hsrc Hdst Hns Hsame fr 0 r0 Hr0) as [(r1 & k' & cells & sinfo & E1 & En & Ei & Hpl & Hroom & Hr1)|(r1 & E1 & Hroom)]; rewrite E1; cbn [fst].
    + left. split; [done|]. destruct (commit_file v_trans n n0 k k0 ly ly0 T T0 x st c d st0 b0 Hsrc Hdst Hns Hsame r1 k' cells sinfo Ei Hpl Hr1) as (T' & Ec & Hmoved).
      rewrite En, Hmv, Nat.eqb_refl, Nat.add_0_l. exists cells, T', k'. split; [by rewrite Ec|]. split; [|done]. exists (mk_plan (Some r1) (length buf)).
      assert (length buf =? 0 = false) as -> by (apply Nat.eqb_neq; unfold buf, seq_file; rewrite length_app, le_bytes_length; lia). split; [done|]. unfold restore_plan_commit. cbn [rp_io rp_bytes]. by rewrite Ec.
    + right. split; [done|]. split; [done|]. by destruct (length buf =? 0).
Qed.

(** C30: Between the caches of the theorem before (of the same model and number of streams,
    at rest: no exact tail or overlay, no sliding window, no record groups, cells of their
    own, one position per embedding, no pending copy or shift), the state of a sequence that
    has cells, cut short anywhere (in the header, in the counts, among the cells or among
    the rows), is refused: no bytes are reported as read, and neither the tensors nor the
    cache are changed, although the cells are placed in the live cache while they are read. *)
Theorem truncated_state_refused ly ly0 v_trans fw fr n_seq_max0 n n0 k k0 b0 T T0 x d st st0 c size :
  seq_source v_trans n k ly T x st c -> seq_target v_trans n0 k0 ly0 T0 d st0 -> n_stream (k_cfg k) = n_stream (k_cfg k0) -> Forall2 same_layer ly ly0 -> (Z.of_nat d < n_seq_max0)%Z ->
  let buf := seq_file (Z.of_nat x) (body_bytes n k x v_trans ly T) in let into := kv_state ly0 v_trans fw fr in
  size < length buf -> @state_seq_set_data _ into n_seq_max0 (Z.of_nat d) 0 buf size T0 (mk_kv_io k0 b0) = Ok (0, T0, mk_kv_io k0 b0).
Proof.
  intros Hsrc Hdst Hns Hsame Hd buf into Hsize. assert (reader_kv (read_host buf size) (take size buf) [] []) as Hr by (apply reader_start; lia).
  assert (drop size buf <> []) as Hm by (intros E; assert (length (drop size buf) = 0) as El by (by rewrite E); rewrite length_drop in El; lia).
  assert (take size buf ++ drop size buf = le_bytes 4 io_magic ++ le_bytes 4 (Z.of_nat x) ++ body_bytes n k x v_trans ly T) as E by apply take_drop. unfold state_seq_set_data.
  change (state_seq_can_restore (Z.of_nat d) 0 (mk_kv_io k0 b0)) with (0 <=? Z.of_nat d)%Z. rewrite (seq_allowed _ _ Hd). cbn [negb].
  assert (exists r', @seq_read_data _ into (Z.of_nat d) 0 (read_host buf size, mk_kv_io k0 b0) = (Err RuntimeError, (r', mk_kv_io k0 b0))) as [r' ->]; [|done].
  destruct (cut_app _ _ _ _ E Hm) as [Hlt|(i1 & Ei & E1)].
  { rewrite le_bytes_length in Hlt. exists (read_host buf size). unfold seq_read_data, read_u32. cbv zeta. unfold mbind at 1, stx_bind at 1. cbn [fst snd]. by rewrite (reader_short _ _ _ _ _ Hr Hlt). }
  destruct (cut_app _ _ _ _ E1 Hm) as [Hlt|(i2 & Ei2 & E2)].
  - rewrite le_bytes_length in Hlt. rewrite Ei in Hr. destruct (reader_read _ 4 _ _ _ _ Hr) as (r1 & Er & Hr1); [apply le_bytes_length|]. exists r1. unfold seq_read_data. cbv zeta.
    rewrite (stx_bind_Ok _ _ _ io_magic (r1, mk_kv_io k0 b0)); [|unfold read_u32; cbn [fst snd]; rewrite Er; cbn [mbind outcome_bind fst snd]; rewrite le_u32; [done|unfold io_magic, UINT32_MAX; lia]].
    rewrite (stx_bind_Ok _ _ _ tt (r1, mk_kv_io k0 b0)) by done. unfold mbind at 1, stx_bind at 1. unfold read_i32. cbn [fst snd]. by rewrite (reader_short _ _ _ _ _ Hr1 Hlt).
  - rewrite Ei, Ei2 in Hr. destruct (load_file (H := into) (Z.of_nat d) 0 (Z.of_nat x) (mk_kv_io k0 b0) _ _ _ _ Hr) as (r0 & Hr0 & _ & ->).
    change (state_read (Z.of_nat d) 0) with (kv_state_read ly0 v_trans fr (Z.of_nat d) 0).
    destruct (read_file_cut v_trans n n0 k k0 ly ly0 T T0 x st c d st0 b0 fr 0 r0 i2 (drop size buf) Hsrc Hdst Hns Hsame Hr0 Hm E2) as (r' & ->). by exists r'.
Qed.

(** Two layers: transposed values with three channels, and keys alone. *)
Definition kv_demo_layers : list kv_layer :=
  [mk_kv_layer [0] 1 2 [Some 1] 1 3 1 3; mk_kv_layer [2] 8 1 [None] 8 0 0 0].
Definition kv_demo_T : tensors := [Z.of_nat <$> seq 0 8; Z.of_nat <$> seq 20 12; Z.of_nat <$> seq 40 4].
Definition kv_demo_T0 : tensors := [replicate 8 0%Z; replicate 12 0%Z; replicate 4 0%Z].

Lemma kv_demo_layers_ok l0 l1 l2 : length l0 = 8 -> length l1 = 12 -> length l2 = 4 -> kv_layers_ok true 1 4 kv_demo_layers [l0; l1; l2].
Proof.
  intros H0 H1 H2. split.
  - unfold UINT32_MAX. cbn. lia.
  - constructor; [|constructor; [|constructor]].
    + split; unfold type_ok, INT32_MIN, INT32_MAX, UINT32_MAX, UINT64_MAX; simpl; [done|lia|lia|lia|]. right. by intros x ->%list_elem_of_singleton.
    + split; unfold type_ok, INT32_MIN, INT32_MAX, UINT32_MAX, UINT64_MAX; simpl; [done|lia|lia|lia|]. left. by intros x ->%list_elem_of_singleton.
  - apply (bool_decide_unpack _). vm_compute. exact I.
  - intros st a Hst Ha. assert (st = 0) as -> by lia.
    assert (lanes true 4 0 kv_demo_layers = [mk_lane 0 0 2; mk_lane 2 0 1; mk_lane 1 0 1; mk_lane 1 4 1; mk_lane 1 8 1]) as E by (vm_compute; reflexivity).
    rewrite E in Ha. repeat (apply elem_of_cons in Ha as [->|Ha]; [eexists; split; [reflexivity|]; unfold la_offset; cbn; lia|]). by apply not_elem_of_nil in Ha.
Qed.

Lemma kv_demo_resting : resting 4 (demo_cache 1 0).
Proof.
  split; [exact demo_plain|reflexivity|reflexivity|reflexivity|reflexivity|]. intros st c Hc i sh Hsh. destruct st as [|st]; [|done]. injection Hc as <-.
  assert (Forall (fun sh => sh = 0%Z) (c_shift demo_cells)) as H by (apply (bool_decide_unpack _); vm_compute; exact I). rewrite Forall_lookup in H. by apply (H i).
Qed.

Lemma kv_demo_source : seq_source true 4 (demo_cache 1 0) kv_demo_layers kv_demo_T 3 0 demo_cells.
Proof. split; [exact kv_demo_resting|unfold UINT32_MAX; lia|reflexivity|by apply kv_demo_layers_ok|cbn; lia|reflexivity|reflexivity|by vm_compute]. Qed.

Lemma kv_demo_target : seq_target true 4 (demo_cache 1 0) kv_demo_layers kv_demo_T0 0 0.
Proof. split; [exact kv_demo_resting|rewrite max_seq_256; cbn; lia|reflexivity|by apply kv_demo_layers_ok|cbn; lia|reflexivity]. Qed.

Lemma kv_demo_same : Forall2 same_layer kv_demo_layers kv_demo_layers.
Proof. repeat constructor; done. Qed.

Definition no_write : forall W, IoWrite W -> Z -> Z -> kv_cache -> W -> outcome W := fun _ _ _ _ _ io => Ok io.
Definition no_read : Z -> Z -> stx (llama_io_read_host kv_io * kv_io) unit := fun _ _ => mret tt.

(** Sequence 3 is copied to sequence 0, whose cells are not neighbours. *)
Lemma kv_sequence_moves_witness : exists size buf T' k' cells, size = 96 /\
  @state_seq_set_data _ (kv_state kv_demo_layers true no_write no_read) 4 0 0 (buf ++ [5]%Z) size kv_demo_T0 (mk_kv_io (demo_cache 1 0) false) = Ok (size, T', mk_kv_io k' false) /\
  seq_moved true 4 4 (demo_cache 1 0) k' kv_demo_layers kv_demo_layers kv_demo_T kv_demo_T0 T' 3 0 demo_cells 0 0 cells.
Proof.
  destruct (kv_sequence_moves kv_demo_layers kv_demo_layers true None no_write no_read 4 4 4 4 (demo_cache 1 0) (demo_cache 1 0) false false kv_demo_T kv_demo_T0 3 0 0 0 demo_cells)
    as (size & buf & Hsize & _ & _ & H).
  - discriminate.
  - exact kv_demo_source.
  - exact kv_demo_target.
  - reflexivity.
  - exact kv_demo_same.
  - lia.
  - lia.
  - destruct (H [5]%Z) as [(_ & cells & T' & k' & E & _ & Hm)|[Hroom _]].
    + exists size, buf, T', k', cells. split; [|split; [exact E|exact Hm]].
      assert (@state_seq_get_size _ (kv_state kv_demo_layers true no_write no_read) 4 3 0 (mk_kv_io (demo_cache 1 0) false) = Ok 96) as E0 by (vm_compute; reflexivity).
      change (Z.of_nat 3) with 3%Z in Hsize. rewrite E0 in Hsize. injection Hsize as <-. reflexivity.
    + exfalso. revert Hroom. vm_compute. lia.
Defined.

(** The last byte is missing. *)
Lemma truncated_state_refused_witness : exists buf, length buf = 96 /\
  @state_seq_set_data _ (kv_state kv_demo_layers true no_write no_read) 4 0 0 buf 95 kv_demo_T0 (mk_kv_io (demo_cache 1 0) false) = Ok (0, kv_demo_T0, mk_kv_io (demo_cache 1 0) false).
Proof.
  exists (seq_file 3 (body_bytes 4 (demo_cache 1 0) 3 true kv_demo_layers kv_demo_T)). split; [vm_compute; reflexivity|].
  apply (truncated_state_refused kv_demo_layers kv_demo_layers true no_write no_read 4 4 4 (demo_cache 1 0) (demo_cache 1 0) false kv_demo_T kv_demo_T0 3 0 0 0 demo_cells 95
    kv_demo_source kv_demo_target eq_refl kv_demo_same ltac:(lia)). vm_compute. lia.
Defined.

(** ** Observations *)

Notation demo_restore ly v_trans := (@state_seq_set_data _ (kv_state ly v_trans no_write no_read) 4).

(** The state of an empty sequence is accepted, but the sequence it is read into keeps its
    cells. *)
Lemma empty_state_keeps_cells : exists buf k',
  @state_seq_get_data _ (kv_state kv_demo_layers true no_write no_read) None 4 1 0 true kv_demo_T (mk_kv_io (demo_cache 1 0) false) (replicate 16 0%Z) 16 = Ok (16, Some buf) /\
  demo_restore kv_demo_layers true 3 0 buf 16 kv_demo_T0 (mk_kv_io (demo_cache 1 0) false) = Ok (16, kv_demo_T0, k') /\ v_cells (io_cache k') = v_cells (demo_cache 1 0).
Proof. do 2 eexists. split; [vm_compute; reflexivity|]. split; vm_compute; reflexivity. Qed.

(** Positions are not looked at: a cell at position -5 is placed. *)
Lemma negative_position_restored : exists k',
  demo_restore [] false 0 0 (seq_file 3 (le_bytes 4 1 ++ le_bytes 4 1 ++ le_bytes 4 (-5) ++ le_bytes 4 1 ++ le_bytes 4 3 ++ le_bytes 4 0 ++ le_bytes 4 0)) 36 [] (mk_kv_io (demo_cache 1 0) false) =
    Ok (36, [], mk_kv_io k' false) /\ (c_pos <$> v_cells k') = [[-5; 7; 9; -1]%Z].
Proof. eexists. split; vm_compute; reflexivity. Qed.

(** A refused state of the whole cache gives the cells back, but the buffers with their keys
    and values have been filled with 0. *)
Lemma refused_whole_state_zeroes : exists r,
  kv_state_read kv_demo_layers true no_read (-1) 0 (read_host (le_bytes 4 1 ++ le_bytes 4 9) 8, mk_kv_io (demo_cache 1 0) false) = (Err RuntimeError, (r, mk_kv_io (demo_cache 1 0) true)).
Proof. eexists. vm_compute. reflexivity. Qed.
