(* ===== verification/Memory.v ===== *)
(** * The interface of memories (struct llama_memory_i and llama_memory_context_i of
    src/src/llama-memory.h) and the decoding loop over it

    What a context asks of its memory, as a class: the key-value cache and the recurrent
    memory are instances, and so are the composite memories of Composite.v.  The planning
    of removals over several memories and the decoding loop are written against it. *)

From S2P Require Import KvCells TailStore Batch.
From S2P Require Export KvContext.
From S2P Require Recurrent.
Open Scope nat_scope.

(** [M] is the memory, [C] its contexts. *)
Class Memory (M C : Type) := {
  mem_clear : stx M unit;
  mem_can_seq_rm : Z -> Z -> Z -> M -> outcome bool;
  mem_seq_rm_plan : Z -> Z -> Z -> M -> outcome (option (Z * Z));
  mem_seq_rm_capability : M -> seq_rm_capability;
  mem_seq_rm : Z -> Z -> Z -> stx M bool;
  mem_seq_rm_cell : Z -> nat -> stx M bool;
  mem_cells_at_pos : Z -> Z -> nat -> M -> outcome (list nat * nat);
  mem_seq_cp : Z -> Z -> Z -> Z -> stx M unit;
  mem_seq_keep : Z -> stx M unit;
  mem_seq_add : Z -> Z -> Z -> Z -> stx M unit;
  mem_seq_div : Z -> Z -> Z -> Z -> stx M unit;
  mem_seq_pos_min : Z -> M -> outcome Z;
  mem_seq_pos_max : Z -> M -> outcome Z;
  mem_can_shift : M -> outcome bool;
  mem_kv_n_stream : M -> nat;
  mem_kv_size : M -> outcome nat;
  mem_partial_state : M -> bool;
  mem_init_full : M -> outcome C;
  mem_init_update : stx M C;
  mem_init_kv_batch : list llama_ubatch -> stx M (option C);
  ctx_status : C -> llama_memory_status;
  ctx_next : C -> outcome (bool * C);
  ctx_apply : update_env -> C -> stx M (bool * C);
  ctx_get_ubatch : C -> outcome llama_ubatch;
  ctx_compute_start : C -> C;
  ctx_compute_finish : bool -> C -> stx M C
}.

(** [!ctx || llama_memory_status_is_fail(ctx->get_status())] *)
Definition no_context {M C} `{Memory M C} (c : option C) : bool :=
  match c with Some c => llama_memory_status_is_fail (ctx_status c) | None => true end.

(** ** The two memories *)

(** [llama_kv_cache::get_can_shift] depends on the model only. *)
#[export] Instance kv_memory (can_shift : bool) : Memory kv_cache kv_cache_context := {
  mem_clear := KvCache.clear;
  mem_can_seq_rm := KvCache.can_seq_rm;
  mem_seq_rm_plan := KvCache.seq_rm_plan;
  mem_seq_rm_capability := KvCache.get_seq_rm_capability;
  mem_seq_rm := KvCache.seq_rm;
  mem_seq_rm_cell := KvCache.seq_rm_cell;
  mem_cells_at_pos x p n_max := KvCache.cells_at_pos x p (Z.of_nat n_max);
  mem_seq_cp := KvCache.seq_cp;
  mem_seq_keep := KvCache.seq_keep;
  mem_seq_add := KvCache.seq_add;
  mem_seq_div := KvCache.seq_div;
  mem_seq_pos_min := KvCache.seq_pos_min;
  mem_seq_pos_max := KvCache.seq_pos_max;
  mem_can_shift _ := Ok can_shift;
  mem_kv_n_stream k := n_stream (k_cfg k);
  mem_kv_size := KvCache.get_size;
  mem_partial_state k := has_tail_overlay (k_cfg k);
  mem_init_full := KvContext.context_full;
  mem_init_update := KvContext.init_update;
  mem_init_kv_batch us := c ← KvContext.init_kv_batch us; mret (Some c);
  ctx_status := cx_status;
  ctx_next := KvContext.next;
  ctx_apply := KvContext.apply;
  ctx_get_ubatch := KvContext.get_ubatch;
  ctx_compute_start := KvContext.graph_compute_start;
  ctx_compute_finish := KvContext.graph_compute_finish
}.

Section recurrent.
Notation memory := Recurrent.llama_memory_recurrent.

(** An operation that fails has aborted the program. *)
Definition rec_do {A} (f : memory -> outcome (A * memory)) : stx memory A := fun m =>
  match f m with Ok (a, m) => (Ok a, m) | Err e => (Err e, m) end.

Definition rec_run (f : memory -> outcome memory) : stx memory unit := rec_do (fun m => m ← f m; Ok (tt, m)).

Definition rec_seq_rm_plan (seq_id p0 p1 : Z) (m : memory) : outcome (option (Z * Z)) :=
  ok ← Recurrent.can_seq_rm seq_id p0 p1 m;
  Ok (if (ok : bool) then Some (p0, p1) else None).

Definition rec_get_ubatch (c : Recurrent.recurrent_context) : outcome llama_ubatch :=
  _ ← assert_ (bool_decide (Recurrent.rx_status c = STATUS_SUCCESS));
  vec_get (Recurrent.rx_ubatches c) (Recurrent.rx_i_next c).

(** The hooks of key-value caches keep their defaults. *)
#[export] Instance rec_memory : Memory memory Recurrent.recurrent_context := {
  mem_clear := rec_run (fun m => Ok (Recurrent.clear m));
  mem_can_seq_rm := Recurrent.can_seq_rm;
  mem_seq_rm_plan := rec_seq_rm_plan;
  mem_seq_rm_capability m := mk_rm_capability true false (Recurrent.n_rs_seq m);
  mem_seq_rm x p0 p1 := rec_do (Recurrent.seq_rm x p0 p1);
  mem_seq_rm_cell x i := rec_do (Recurrent.seq_rm_cell x i);
  mem_cells_at_pos x p n_max m := Ok (Recurrent.cells_at_pos x p (Some n_max) m);
  mem_seq_cp a b p0 p1 := rec_run (Recurrent.seq_cp a b p0 p1);
  mem_seq_keep x := rec_run (Recurrent.seq_keep x);
  mem_seq_add x p0 p1 d := rec_run (Recurrent.seq_add x p0 p1 d);
  mem_seq_div x p0 p1 d := rec_run (Recurrent.seq_div x p0 p1 d);
  mem_seq_pos_min x m := Ok (Recurrent.seq_pos_min x m);
  mem_seq_pos_max x m := Ok (Recurrent.seq_pos_max x m);
  mem_can_shift _ := Ok true;
  mem_kv_n_stream _ := 0;
  mem_kv_size _ := Ok 0;
  mem_partial_state _ := false;
  mem_init_full _ := Ok Recurrent.context_full;
  mem_init_update := mret (Recurrent.context_failed STATUS_NO_UPDATE);
  mem_init_kv_batch _ := mret None;
  ctx_status := Recurrent.rx_status;
  ctx_next := Recurrent.next;
  ctx_apply _ c := b ← rec_do (Recurrent.apply c); mret (b, c);
  ctx_get_ubatch := rec_get_ubatch;
  ctx_compute_start c := c;
  ctx_compute_finish _ c := mret c
}.
End recurrent.

(** ** Removal over several memories

    A child is given by what it answers: its plan, [can_seq_rm] and its capability. *)
Record rm_child := mk_rm_child {
  ch_plan : Z -> Z -> Z -> outcome (option (Z * Z));
  ch_can : Z -> Z -> Z -> outcome bool;
  ch_capability : seq_rm_capability
}.

Definition child_of {M C} `{Memory M C} (m : M) : rm_child :=
  mk_rm_child (fun x p0 p1 => mem_seq_rm_plan x p0 p1 m) (fun x p0 p1 => mem_can_seq_rm x p0 p1 m) (mem_seq_rm_capability m).

(** One child narrows the common start; [None]: the removal is refused. *)
Definition plan_child (seq_id p0 p1 : Z) (common : option Z) (child : rm_child) : outcome (option Z) :=
  match common with
  | None => Ok None
  | Some common_p0 =>
      plan ← ch_plan child seq_id p0 p1;
      Ok match plan with
         | None => None
         | Some (child_p0, child_p1) =>
             if (p1 <? 0)%Z then
               if (0 <=? child_p1)%Z then None else Some (if (child_p0 <? common_p0)%Z then child_p0 else common_p0)
             else if negb (child_p0 =? p0)%Z || negb (child_p1 =? p1)%Z then None else Some common_p0
         end
  end.

Definition can_child (seq_id p0 p1 : Z) (ok : bool) (child : rm_child) : outcome bool :=
  if ok then ch_can child seq_id p0 p1 else Ok false.

Definition llama_memory_seq_rm_plan_all (seq_id p0 p1 : Z) (children : list rm_child) : outcome (option (Z * Z)) :=
  if length children =? 0 then Ok None else
  common ← foldM (plan_child seq_id p0 p1) children (Some p0);
  match common with
  | None => Ok None
  | Some common_p0 =>
      ok ← foldM (can_child seq_id common_p0 p1) children true;
      Ok (if (ok : bool) then Some (common_p0, p1) else None)
  end.

Definition llama_memory_seq_rm_capability_all (children : list rm_child) : seq_rm_capability :=
  foldl (fun result child => let c := ch_capability child in
    mk_rm_capability (full_clear result && full_clear c) (arbitrary_ranges result && arbitrary_ranges c)
      (Z.min (suffix_rollback_tokens result) (suffix_rollback_tokens c))) any_seq_rm children.

(** ** Decoding with any memory *)
Section decode.
Context {M C : Type} `{Memory M C}.

Definition mem_process_ubatch (e : update_env) (run : graph_run) (c : C) : stx M (ggml_status * C) :=
  r ← ctx_apply e c;
  let '(applied, c) := r in
  if negb applied then mret (GGML_FAILED, c) else
  match run with
  | NotBuilt => c ← ctx_compute_finish false c; mret (GGML_FAILED, c)
  | NotAllocated => c ← ctx_compute_finish false c; mret (GGML_ALLOC_FAILED, c)
  | Ran status =>
      let c := ctx_compute_start c in
      c ← ctx_compute_finish (bool_decide (status = GGML_SUCCESS)) c;
      mret (status, c)
  end.

(** What [seq_rm] answers is not looked at. *)
Definition mem_remove_failed (u : llama_ubatch) : stx M unit :=
  pos_min ← stx_lift (batch_pos_min u);
  forX (fun s =>
    p ← stx_lift (vec_get pos_min s);
    if (p =? INT32_MAX)%Z then mret tt else _ ← mem_seq_rm (Z.of_nat s) p (-1); mret tt) (seq 0 LLAMA_MAX_SEQ).

(** [i] counts the ubatches. *)
Fixpoint mem_decode_loop (fuel : nat) (e : update_env) (runs : nat -> graph_run) (i : nat) (c : C) : stx M (option ggml_status * C) :=
  match fuel with
  | 0 => stx_throw OutOfFuel
  | S fuel =>
      u ← stx_lift (ctx_get_ubatch c);
      r ← mem_process_ubatch e (runs i) c;
      let '(status, c) := r in
      if negb (bool_decide (status = GGML_SUCCESS)) then mem_remove_failed u;; mret (Some status, c) else
      r ← stx_lift (ctx_next c);
      let '(more, c) := r in
      if (more : bool) then mem_decode_loop fuel e runs (i + 1) c else mret (None, c)
  end.
End decode.
