(* ===== verification/Composite.v ===== *)
(** * Composite memories (src/src/llama-kv-cache-iswa.cpp, llama-memory-hybrid.cpp,
    llama-memory-hybrid-iswa.cpp)

    Models that mix layers keep several memories behind one interface: a cache for the
    layers with full attention and one for those with a sliding window, or attention and
    recurrent states.  Every operation goes to the parts; a batch is prepared by all of
    them or by none.  The parts are any memories of the interface. *)

From S2P Require Import KvCells TailStore Batch.
From S2P Require Export Memory.
From S2P Require Recurrent StateIo.
Open Scope nat_scope.

(** Working on a part of the state. *)
Definition on_part {S T A} (get : S -> T) (set : T -> S -> S) (c : stx T A) : stx S A := fun s =>
  let '(a, t) := c (get s) in (a, set t s).

(** ** Two attention caches *)

Record kv_cache_iswa (B W : Type) := mk_iswa { unified : bool; kv_base : B; kv_swa : W }.
Arguments mk_iswa {B W} _ _ _.
Arguments unified {B W} _.
Arguments kv_base {B W} _.
Arguments kv_swa {B W} _.

Record kv_cache_iswa_context (CB CW : Type) := mk_iswa_context {
  ix_i_next : nat;
  ix_ubatches : list llama_ubatch;
  ix_parts : option (CB * CW);
  ix_status : llama_memory_status
}.
Arguments mk_iswa_context {CB CW} _ _ _ _.
Arguments ix_i_next {CB CW} _.
Arguments ix_ubatches {CB CW} _.
Arguments ix_parts {CB CW} _.
Arguments ix_status {CB CW} _.

(** The size of the cache of the sliding-window layers. *)
Definition iswa_size_swa (swa_full unified : bool) (size_base n_swa n_seq_max n_ubatch : Z) : Z :=
  if swa_full then size_base
  else ggml_pad (Z.min size_base (u32 (u32 (n_swa * (if unified then n_seq_max else 1)) + n_ubatch))) 256.

Section iswa.
Context {MB CB MW CW : Type} `{Memory MB CB} `{Memory MW CW}.
Notation memory := (kv_cache_iswa MB MW).
Notation context := (kv_cache_iswa_context CB CW).

Definition on_base {A} (c : stx MB A) : stx memory A := on_part kv_base (fun b m => mk_iswa (unified m) b (kv_swa m)) c.
Definition on_swa {A} (c : stx MW A) : stx memory A := on_part kv_swa (fun w m => mk_iswa (unified m) (kv_base m) w) c.

Definition iswa_children (m : memory) : list rm_child := [child_of (kv_base m); child_of (kv_swa m)].

Definition iswa_clear : stx memory unit := on_base mem_clear;; on_swa mem_clear.

Definition iswa_can_seq_rm (seq_id p0 p1 : Z) (m : memory) : outcome bool :=
  ok ← mem_can_seq_rm seq_id p0 p1 (kv_base m);
  if (ok : bool) then mem_can_seq_rm seq_id p0 p1 (kv_swa m) else Ok false.

Definition iswa_seq_rm (seq_id p0 p1 : Z) : stx memory bool :=
  m ← stx_get;
  can ← stx_lift (iswa_can_seq_rm seq_id p0 p1 m);
  if negb can then mret false else
  ok ← on_base (mem_seq_rm seq_id p0 p1);
  if negb ok then mret false else
  on_swa (mem_seq_rm seq_id p0 p1).

Definition iswa_seq_rm_cell (seq_id : Z) (cell_idx : nat) : stx memory bool :=
  ok ← on_base (mem_seq_rm_cell seq_id cell_idx);
  if negb ok then mret false else on_swa (mem_seq_rm_cell seq_id cell_idx).

(** The parts of a context that was not refused. *)
Definition iswa_parts (c : context) : outcome (CB * CW) := match ix_parts c with Some x => Ok x | None => Err OutOfBounds end.

Definition iswa_failed : context := mk_iswa_context 0 [] None STATUS_FAILED_PREPARE.

Definition iswa_context_of (ubatches : list llama_ubatch) (b : CB) (w : CW) : context :=
  mk_iswa_context 0 ubatches (Some (b, w)) (llama_memory_status_combine (ctx_status b) (ctx_status w)).

(** Both caches prepare the ubatches; [None] when one cannot. *)
Definition iswa_prepare (ubatches : list llama_ubatch) : stx memory (option context) :=
  ctx_base ← on_base (mem_init_kv_batch ubatches);
  if no_context ctx_base then mret None else
  ctx_swa ← on_swa (mem_init_kv_batch ubatches);
  if no_context ctx_swa then mret None else
  mret (match ctx_base, ctx_swa with Some b, Some w => Some (iswa_context_of ubatches b w) | _, _ => None end).

(** One attempt with one way to split. *)
Definition iswa_attempt (split : llama_batch_allocr -> outcome (llama_ubatch * llama_batch_allocr)) (balloc : llama_batch_allocr)
    : stx memory (option context * llama_batch_allocr) :=
  let balloc := split_reset balloc in
  r ← stx_lift (split_loop (S (get_n_tokens balloc)) split [] balloc);
  let '(ubatches, balloc) := r in
  if a_n_used balloc <? get_n_tokens balloc then mret (None, balloc) else
  c ← iswa_prepare ubatches;
  mret (c, balloc).

Definition iswa_init_batch (n_ubatch : nat) (balloc : llama_batch_allocr) : stx memory (context * llama_batch_allocr) :=
  m ← stx_get;
  r ← (if unified m then iswa_attempt (split_simple n_ubatch) balloc else mret (None, balloc));
  match r.1 with
  | Some c => mret (c, r.2)
  | None =>
      m ← stx_get;
      r ← iswa_attempt (split_equal n_ubatch (negb (unified m)) 0) r.2;
      mret (default iswa_failed r.1, r.2)
  end.

Definition iswa_init_kv_batch (ubatches : list llama_ubatch) : stx memory (option context) :=
  c ← iswa_prepare ubatches;
  mret (Some (default iswa_failed c)).

Definition iswa_init_update : stx memory context :=
  b ← on_base mem_init_update;
  w ← on_swa mem_init_update;
  mret (iswa_context_of [] b w).

Definition iswa_init_full (m : memory) : outcome context :=
  b ← mem_init_full (kv_base m);
  w ← mem_init_full (kv_swa m);
  Ok (iswa_context_of [] b w).

Definition iswa_can_shift (m : memory) : outcome bool :=
  b ← mem_can_shift (kv_base m);
  if negb b then Ok false else
  w ← mem_can_shift (kv_swa m);
  if negb w then Ok false else
  nb ← mem_kv_size (kv_base m);
  nw ← mem_kv_size (kv_swa m);
  Ok (nb =? nw).

Definition iswa_next (c : context) : outcome (bool * context) :=
  _ ← assert_ (bool_decide (ix_status c = STATUS_SUCCESS));
  x ← iswa_parts c;
  b ← ctx_next x.1;
  w ← ctx_next x.2;
  Ok (negb (length (ix_ubatches c) <=? ix_i_next c + 1), mk_iswa_context (ix_i_next c + 1) (ix_ubatches c) (Some (b.2, w.2)) (ix_status c)).

Definition iswa_set_parts (b : CB) (w : CW) (c : context) : context := mk_iswa_context (ix_i_next c) (ix_ubatches c) (Some (b, w)) (ix_status c).

(** Both are applied, whatever the first answers. *)
Definition iswa_apply (e : update_env) (c : context) : stx memory (bool * context) :=
  _ ← stx_lift (assert_ (negb (llama_memory_status_is_fail (ix_status c))));
  x ← stx_lift (iswa_parts c);
  b ← on_base (ctx_apply e x.1);
  w ← on_swa (ctx_apply e x.2);
  mret (b.1 && w.1, iswa_set_parts b.2 w.2 c).

Definition iswa_compute_start (c : context) : context :=
  match ix_parts c with Some (b, w) => iswa_set_parts (ctx_compute_start b) (ctx_compute_start w) c | None => c end.

Definition iswa_compute_finish (success : bool) (c : context) : stx memory context :=
  x ← stx_lift (iswa_parts c);
  b ← on_base (ctx_compute_finish success x.1);
  w ← on_swa (ctx_compute_finish success x.2);
  mret (iswa_set_parts b w c).

Definition iswa_get_ubatch (c : context) : outcome llama_ubatch :=
  _ ← assert_ (bool_decide (ix_status c = STATUS_SUCCESS));
  vec_get (ix_ubatches c) (ix_i_next c).

(** [get_kv_size] keeps its default. *)
#[export] Instance iswa_memory : Memory memory context := {
  mem_clear := iswa_clear;
  mem_can_seq_rm := iswa_can_seq_rm;
  mem_seq_rm_plan x p0 p1 m := llama_memory_seq_rm_plan_all x p0 p1 (iswa_children m);
  mem_seq_rm_capability m := llama_memory_seq_rm_capability_all (iswa_children m);
  mem_seq_rm := iswa_seq_rm;
  mem_seq_rm_cell := iswa_seq_rm_cell;
  mem_cells_at_pos x p n_max m := mem_cells_at_pos x p n_max (kv_base m);
  mem_seq_cp a b p0 p1 := on_base (mem_seq_cp a b p0 p1);; on_swa (mem_seq_cp a b p0 p1);
  mem_seq_keep x := on_base (mem_seq_keep x);; on_swa (mem_seq_keep x);
  mem_seq_add x p0 p1 d := on_base (mem_seq_add x p0 p1 d);; on_swa (mem_seq_add x p0 p1 d);
  mem_seq_div x p0 p1 d := on_base (mem_seq_div x p0 p1 d);; on_swa (mem_seq_div x p0 p1 d);
  mem_seq_pos_min x m := mem_seq_pos_min x (kv_swa m);
  mem_seq_pos_max x m := mem_seq_pos_max x (kv_swa m);
  mem_can_shift := iswa_can_shift;
  mem_kv_n_stream m := mem_kv_n_stream (kv_base m);
  mem_kv_size _ := Ok 0;
  mem_partial_state m := mem_partial_state (kv_base m) || mem_partial_state (kv_swa m);
  mem_init_full := iswa_init_full;
  mem_init_update := iswa_init_update;
  mem_init_kv_batch := iswa_init_kv_batch;
  ctx_status := ix_status;
  ctx_next := iswa_next;
  ctx_apply := iswa_apply;
  ctx_get_ubatch := iswa_get_ubatch;
  ctx_compute_start := iswa_compute_start;
  ctx_compute_finish := iswa_compute_finish
}.
End iswa.

(** ** Attention and recurrent states

    llama_memory_hybrid and llama_memory_hybrid_iswa differ in the attention memory only. *)

Notation rec_mem := Recurrent.llama_memory_recurrent.
Notation rec_ctx := Recurrent.recurrent_context.

Record llama_memory_hybrid (A : Type) := mk_hybrid { mem_attn : A; mem_recr : rec_mem }.
Arguments mk_hybrid {A} _ _.
Arguments mem_attn {A} _.
Arguments mem_recr {A} _.

Record llama_memory_hybrid_context (CA : Type) := mk_hybrid_context {
  hx_i_next : nat;
  hx_ubatches : list llama_ubatch;
  hx_parts : option (CA * rec_ctx);
  hx_status : llama_memory_status
}.
Arguments mk_hybrid_context {CA} _ _ _ _.
Arguments hx_i_next {CA} _.
Arguments hx_ubatches {CA} _.
Arguments hx_parts {CA} _.
Arguments hx_status {CA} _.

Section hybrid.
Context {MA CA : Type} `{Memory MA CA}.
Notation memory := (llama_memory_hybrid MA).
Notation context := (llama_memory_hybrid_context CA).

Definition on_attn {A} (c : stx MA A) : stx memory A := on_part mem_attn (fun a m => mk_hybrid a (mem_recr m)) c.
Definition on_recr {A} (c : stx rec_mem A) : stx memory A := on_part mem_recr (fun r m => mk_hybrid (mem_attn m) r) c.

Definition hybrid_children (m : memory) : list rm_child := [child_of (mem_attn m); child_of (mem_recr m)].

Definition hybrid_can_seq_rm (seq_id p0 p1 : Z) (m : memory) : outcome bool :=
  ok ← mem_can_seq_rm seq_id p0 p1 (mem_recr m);
  if (ok : bool) then mem_can_seq_rm seq_id p0 p1 (mem_attn m) else Ok false.

(** The recurrent memory first, since it may refuse. *)
Definition hybrid_seq_rm (seq_id p0 p1 : Z) : stx memory bool :=
  m ← stx_get;
  can ← stx_lift (hybrid_can_seq_rm seq_id p0 p1 m);
  if negb can then mret false else
  ok ← on_recr (mem_seq_rm seq_id p0 p1);
  if negb ok then mret false else
  on_attn (mem_seq_rm seq_id p0 p1).

Definition hybrid_seq_pos_min (seq_id : Z) (m : memory) : outcome Z :=
  a ← mem_seq_pos_min seq_id (mem_attn m);
  r ← mem_seq_pos_min seq_id (mem_recr m);
  Ok (Z.max a r).

Definition hybrid_seq_pos_max (seq_id : Z) (m : memory) : outcome Z :=
  a ← mem_seq_pos_max seq_id (mem_attn m);
  r ← mem_seq_pos_max seq_id (mem_recr m);
  Ok (Z.min a r).

Definition hybrid_failed : context := mk_hybrid_context 0 [] None STATUS_FAILED_PREPARE.

Definition hybrid_context_of (ubatches : list llama_ubatch) (a : CA) (r : rec_ctx) : context :=
  mk_hybrid_context 0 ubatches (Some (a, r)) (llama_memory_status_combine (ctx_status a) (ctx_status r)).

(** The recurrent memory prepares the ubatches first. *)
Definition hybrid_prepare (ubatches : list llama_ubatch) : stx memory context :=
  ok ← on_recr (rec_do (Recurrent.prepare ubatches));
  if negb ok then mret hybrid_failed else
  ctx_attn ← on_attn (mem_init_kv_batch ubatches);
  match ctx_attn with
  | Some a => if llama_memory_status_is_fail (ctx_status a) then mret hybrid_failed
              else mret (hybrid_context_of ubatches a (Recurrent.context_batch ubatches))
  | None => mret hybrid_failed
  end.

(** How the next ubatch is cut: the trailing tokens of a sequence, whose snapshots a
    rollback needs, stay in one ubatch. *)
Definition hybrid_split (n_ubatch : nat) (embd_all : bool) (m : memory) : llama_batch_allocr -> outcome (llama_ubatch * llama_batch_allocr) :=
  if embd_all then split_seq n_ubatch
  else
    let unified := mem_kv_n_stream (mem_attn m) =? 1 in
    let n_rs_seq := Recurrent.n_rs_seq (mem_recr m) in
    split_equal n_ubatch (negb unified) (if (0 <? n_rs_seq)%Z then Z.to_nat (u32 (n_rs_seq + 1)) else 0).

Definition hybrid_init_batch (n_ubatch : nat) (embd_all : bool) (balloc : llama_batch_allocr) : stx memory (context * llama_batch_allocr) :=
  m ← stx_get;
  let balloc := split_reset balloc in
  r ← stx_lift (split_loop (S (get_n_tokens balloc)) (hybrid_split n_ubatch embd_all m) [] balloc);
  let '(ubatches, balloc) := r in
  if a_n_used balloc <? get_n_tokens balloc then mret (hybrid_failed, balloc) else
  c ← hybrid_prepare ubatches;
  mret (c, balloc).

Definition hybrid_init_full (m : memory) : outcome context :=
  a ← mem_init_full (mem_attn m);
  Ok (hybrid_context_of [] a Recurrent.context_full).

Definition hybrid_init_update : stx memory context :=
  a ← on_attn mem_init_update;
  r ← on_recr mem_init_update;
  mret (hybrid_context_of [] a r).

Definition hybrid_parts (c : context) : outcome (CA * rec_ctx) := match hx_parts c with Some x => Ok x | None => Err OutOfBounds end.

Definition hybrid_set_parts (a : CA) (r : rec_ctx) (c : context) : context := mk_hybrid_context (hx_i_next c) (hx_ubatches c) (Some (a, r)) (hx_status c).

Definition hybrid_next (c : context) : outcome (bool * context) :=
  _ ← assert_ (bool_decide (hx_status c = STATUS_SUCCESS));
  x ← hybrid_parts c;
  a ← ctx_next x.1;
  r ← ctx_next x.2;
  Ok (negb (length (hx_ubatches c) <=? hx_i_next c + 1), mk_hybrid_context (hx_i_next c + 1) (hx_ubatches c) (Some (a.2, r.2)) (hx_status c)).

Definition hybrid_apply (e : update_env) (c : context) : stx memory (bool * context) :=
  _ ← stx_lift (assert_ (negb (llama_memory_status_is_fail (hx_status c))));
  x ← stx_lift (hybrid_parts c);
  a ← on_attn (ctx_apply e x.1);
  r ← on_recr (ctx_apply e x.2);
  mret (a.1 && r.1, hybrid_set_parts a.2 r.2 c).

Definition hybrid_compute_start (c : context) : context :=
  match hx_parts c with Some (a, r) => hybrid_set_parts (ctx_compute_start a) (ctx_compute_start r) c | None => c end.

Definition hybrid_compute_finish (success : bool) (c : context) : stx memory context :=
  x ← stx_lift (hybrid_parts c);
  a ← on_attn (ctx_compute_finish success x.1);
  r ← on_recr (ctx_compute_finish success x.2);
  mret (hybrid_set_parts a r c).

Definition hybrid_get_ubatch (c : context) : outcome llama_ubatch :=
  _ ← assert_ (bool_decide (hx_status c = STATUS_SUCCESS));
  vec_get (hx_ubatches c) (hx_i_next c).

(** The hooks of key-value caches keep their defaults. *)
#[export] Instance hybrid_memory : Memory memory context := {
  mem_clear := on_attn mem_clear;; on_recr mem_clear;
  mem_can_seq_rm := hybrid_can_seq_rm;
  mem_seq_rm_plan x p0 p1 m := llama_memory_seq_rm_plan_all x p0 p1 (hybrid_children m);
  mem_seq_rm_capability m := llama_memory_seq_rm_capability_all (hybrid_children m);
  mem_seq_rm := hybrid_seq_rm;
  mem_seq_rm_cell x i := on_attn (mem_seq_rm_cell x i);
  mem_cells_at_pos x p n_max m := mem_cells_at_pos x p n_max (mem_attn m);
  mem_seq_cp a b p0 p1 := on_attn (mem_seq_cp a b p0 p1);; on_recr (mem_seq_cp a b p0 p1);
  mem_seq_keep x := on_attn (mem_seq_keep x);; on_recr (mem_seq_keep x);
  mem_seq_add x p0 p1 d := on_attn (mem_seq_add x p0 p1 d);; on_recr (mem_seq_add x p0 p1 d);
  mem_seq_div x p0 p1 d := on_attn (mem_seq_div x p0 p1 d);; on_recr (mem_seq_div x p0 p1 d);
  mem_seq_pos_min := hybrid_seq_pos_min;
  mem_seq_pos_max := hybrid_seq_pos_max;
  mem_can_shift m := mem_can_shift (mem_attn m);
  mem_kv_n_stream _ := 0;
  mem_kv_size _ := Ok 0;
  mem_partial_state m := mem_partial_state (mem_attn m) || mem_partial_state (mem_recr m);
  mem_init_full := hybrid_init_full;
  mem_init_update := hybrid_init_update;
  mem_init_kv_batch _ := mret None;
  ctx_status := hx_status;
  ctx_next := hybrid_next;
  ctx_apply := hybrid_apply;
  ctx_get_ubatch := hybrid_get_ubatch;
  ctx_compute_start := hybrid_compute_start;
  ctx_compute_finish := hybrid_compute_finish
}.
End hybrid.
