(* ===== verification/CompositeDecode.v ===== *)
(** * Composite memories: preparing and decoding

    A context is ready for the ubatches it was made from when it can apply, finish and
    step through them one after the other.  Parts that are ready make a composite that is
    ready, and the decoding loop runs through a ready context whatever the memory is. *)

From S2P Require Import KvCells TailStore Batch BatchInit.
From S2P Require Export Composite KvDecodeProps.
From S2P Require RecurrentProps.
Open Scope nat_scope.

Section ready.
Context {M C : Type} `{Memory M C}.

(** [I i] holds before ubatch [i]. *)
Record steps (us : list llama_ubatch) (I : nat -> C -> M -> Prop) : Prop := {
  st_status : forall i c m, I i c m -> ctx_status c = STATUS_SUCCESS;
  st_ubatch : forall i u c m, I i c m -> us !! i = Some u -> ctx_get_ubatch c = Ok u;
  st_round : forall e i c m, I i c m -> i < length us -> exists c1 m1 c2 m2 c3, ctx_apply e c m = (Ok (true, c1), m1) /\
    ctx_compute_finish true (ctx_compute_start c1) m1 = (Ok c2, m2) /\ ctx_next c2 = Ok (i + 1 <? length us, c3) /\ I (i + 1) c3 m2
}.

(** Ready for the ubatches, with [final] after the last one. *)
Definition ready (us : list llama_ubatch) (c : C) (m : M) (final : M -> Prop) : Prop :=
  exists I, steps us I /\ I 0 c m /\ forall c' m', I (length us) c' m' -> final m'.

Lemma decode_from us I e runs : steps us I -> (forall i, i < length us -> run_status (runs i) = GGML_SUCCESS) ->
  forall fuel i c m, I i c m -> i < length us -> length us <= i + fuel ->
  exists c' m', mem_decode_loop fuel e runs i c m = (Ok (None, c'), m') /\ I (length us) c' m'.
Proof.
  intros Hs Hruns. induction fuel as [|fuel IH]; intros i c m Hi Hlt Hf; [lia|]. destruct (lookup_lt_is_Some_2 us i Hlt) as [u Hu].
  destruct (st_round us I Hs e i c m Hi Hlt) as (c1 & m1 & c2 & m2 & c3 & E1 & E2 & E3 & H3). pose proof (Hruns i Hlt) as Hr. destruct (runs i) eqn:Er; try done. simpl in Hr. subst status.
  cbn [mem_decode_loop]. unfold mbind, stx_bind, stx_lift. rewrite (st_ubatch us I Hs i u c m Hi Hu). unfold mem_process_ubatch, mbind, stx_bind. rewrite E1. cbn [negb]. rewrite Er.
  rewrite bool_decide_true by done. rewrite E2. cbn [mret stx_ret]. rewrite bool_decide_true by done. cbn [negb]. rewrite E3.
  destruct (Nat.ltb_spec (i + 1) (length us)) as [Hl|Hl]; [apply IH; [done|done|lia]|].
  exists c3, m2. split; [done|]. by replace (length us) with (i + 1) by lia.
Qed.

Lemma decode_ready us c m final e runs : ready us c m final -> us <> [] -> (forall i, i < length us -> run_status (runs i) = GGML_SUCCESS) ->
  exists c' m', mem_decode_loop (length us) e runs 0 c m = (Ok (None, c'), m') /\ final m'.
Proof.
  intros (I & Hs & H0 & Hf) Hne Hruns. destruct (decode_from us I e runs Hs Hruns (length us) 0 c m H0) as (c' & m' & E & Hl); [by destruct us; [|simpl; lia]|lia|].
  exists c', m'. split; [done|]. by eapply Hf.
Qed.
End ready.

(** ** The parts *)

Lemma ready_kv b n k us ss : decodable n k us ss ->
  @ready _ _ (kv_memory b) us (context_batch ss us) k (fun k2 => kv_wf n k2 /\ k_cfg k2 = k_cfg k /\ seq_to_stream k2 = seq_to_stream k /\ abs k2 = place_all us ss (abs k)).
Proof.
  intros Hd. exists (fun i c k' => decoded n k us ss i k' /\ exists w, c = at_ubatch us ss i w). split; [split|split].
  - intros i c k' [_ (w & ->)]. done.
  - intros i u c k' [_ (w & ->)] Hu. cbn. by apply vec_get_Some.
  - intros e i c k' [Hdd (w & ->)] Hi. destruct (lookup_lt_is_Some_2 us i Hi) as [u Hu]. destruct (lookup_lt_is_Some_2 ss i) as [sinfo Hsi]; [by rewrite <- (slots_length n k us ss Hd)|].
    destruct (wp_run _ _ _ (wp_decode_step n k us ss Hd i u sinfo k' Hdd Hu Hsi)) as ([] & k2 & E & Hdd2). destruct (slot_later n k us ss Hd i u sinfo k' Hdd Hu Hsi) as (nt & Hslot & _).
    destruct (get_n_kv_ok n k2 sinfo) as [w2 Ew]; [apply Hdd2|rewrite (dd_cfg _ _ _ _ _ _ Hdd2), <- (dd_cfg _ _ _ _ _ _ Hdd); by eapply slot_strm_lt|].
    exists (at_ubatch us ss i w2), k2, (at_ubatch us ss i w2), k2, (at_ubatch us ss (i + 1) w2). split; [|split; [|split]].
    + cbn. unfold KvContext.apply, mbind, stx_bind. cbn [stx_lift at_ubatch cx_status cx_ubatches cx_sinfos cx_i_cur llama_memory_status_is_fail negb assert_].
      rewrite (proj2 (Nat.eqb_neq (length us) 0)), (vec_get_Some ss i sinfo Hsi), (vec_get_Some us i u Hu), E by lia. unfold gets. by rewrite Ew.
    + cbn. unfold KvContext.graph_compute_finish, mbind, stx_bind. cbn [KvContext.graph_compute_start set_started at_ubatch cx_ubatches cx_graph_started negb andb].
      rewrite (proj2 (Nat.eqb_neq (length us) 0)) by lia. by rewrite (no_tail_finish n k us ss Hd (i + 1)).
    + cbn [ctx_next kv_memory]. unfold KvContext.next. cbn [at_ubatch cx_status cx_i_cur cx_ubatches]. rewrite bool_decide_true by done. cbn [assert_ mbind outcome_bind].
      do 2 f_equal. destruct (Nat.leb_spec (length us) (i + 1)), (Nat.ltb_spec (i + 1) (length us)); try done; lia.
    + split; [done|by exists w2].
  - split; [by apply (decoded_0 n k us ss)|by exists 0%Z].
  - intros c' k' [[H1 H2 H3 H4 H5] _]. split; [done|]. split; [done|]. split; [done|]. rewrite H5, take_ge by done. by rewrite take_ge by (by rewrite (slots_length n k us ss Hd)).
Qed.

Lemma ready_rec K us rowss r : RecurrentWf.rec_wf r -> RecurrentProps.batch_ok r K us rowss ->
  ready us (Recurrent.context_batch us) r (fun r2 => RecurrentWf.rec_wf r2 /\ Recurrent.rs_idx r2 = Recurrent.rs_idx r /\
    forall y, RecurrentProps.positions r2 y = foldl (fun P rows => RecurrentProps.spec_slot rows P) (RecurrentProps.positions r) rowss y).
Proof.
  intros Hr [Hf Hp].
  exists (fun i c r' => c = Recurrent.mk_recurrent_context STATUS_SUCCESS i us false /\ RecurrentWf.rec_wf r' /\ Recurrent.rs_idx r' = Recurrent.rs_idx r /\ Recurrent.r_size r' = Recurrent.r_size r /\
    (forall y p, RecurrentProps.positions r' y = Some p -> (p <= INT32_MAX - K)%Z) /\
    forall y, RecurrentProps.positions r' y = foldl (fun P rows => RecurrentProps.spec_slot rows P) (RecurrentProps.positions r) (take i rowss) y).
  pose proof (Forall2_length _ _ _ Hf) as Hl. split; [split|split].
  - by intros i c r' (-> & _).
  - intros i u c r' (-> & _) Hu. cbn. by apply vec_get_Some.
  - intros e i c r' (-> & H1 & H2 & H3 & H4 & H5) Hi. destruct (lookup_lt_is_Some_2 us i Hi) as [u Hu]. destruct (lookup_lt_is_Some_2 rowss i) as [rows Hrows]; [lia|].
    destruct (Forall2_lookup_lr _ _ _ _ _ _ Hf Hu Hrows) as (B1 & B2 & B3). rewrite <- H3 in B1.
    destruct (RecurrentProps.place_one r' K u rows H1 B1 B2 B3 H4) as (r2 & E & W & S & R & _ & P1 & P2).
    eexists _, r2, _, r2, _. split; [|split; [done|split]].
    + cbn [ctx_apply rec_memory]. unfold mbind, stx_bind, rec_do. rewrite (RecurrentProps.apply_at us i u r' Hu), E. done.
    + cbn [ctx_next rec_memory]. unfold Recurrent.next. cbn [Recurrent.rx_status Recurrent.rx_i_next Recurrent.rx_ubatches Recurrent.rx_full]. rewrite bool_decide_true by done. cbn [assert_ mbind outcome_bind].
      do 2 f_equal. apply Bool.eq_true_iff_eq; rewrite negb_true_iff, Nat.leb_gt; symmetry; apply Nat.ltb_lt.
    + split; [done|]. split; [done|]. split; [congruence|]. split; [congruence|]. split; [done|]. intros y.
      rewrite P1, Nat.add_1_r, (take_S_r rowss i rows Hrows), foldl_app. cbn [foldl]. unfold RecurrentProps.spec_slot at 1 2. destruct (List.find _ rows) as [[ws p]|]; [done|]. apply H5.
  - by split_and!.
  - intros c' r' (_ & H1 & H2 & _ & _ & H5). split; [done|]. split; [done|]. intros y. rewrite H5, take_ge by lia. done.
Qed.

(** ** The composites *)

Section iswa.
Context {MB CB MW CW : Type} `{Memory MB CB} `{Memory MW CW}.

Lemma ready_iswa us u (cb : CB) (cw : CW) (b : MB) (w : MW) Fb Fw : ready us cb b Fb -> ready us cw w Fw ->
  ready us (iswa_context_of us cb cw) (mk_iswa u b w) (fun m => unified m = u /\ Fb (kv_base m) /\ Fw (kv_swa m)).
Proof.
  intros (Ib & Hb & Hb0 & HFb) (Iw & Hw & Hw0 & HFw).
  exists (fun i c m => unified m = u /\ exists cb cw, c = mk_iswa_context i us (Some (cb, cw)) STATUS_SUCCESS /\ Ib i cb (kv_base m) /\ Iw i cw (kv_swa m)). split; [split|split].
  - by intros i c m (_ & cb' & cw' & -> & _).
  - intros i v c m (_ & cb' & cw' & -> & _) Hv. cbn. by apply vec_get_Some.
  - intros e i c [u' b' w'] (Hu & cb' & cw' & -> & H1 & H2) Hi. cbn [unified kv_base kv_swa] in *.
    destruct (st_round us Ib Hb e i cb' b' H1 Hi) as (cb1 & b1 & cb2 & b2 & cb3 & B1 & B2 & B3 & B4). destruct (st_round us Iw Hw e i cw' w' H2 Hi) as (cw1 & w1 & cw2 & w2 & cw3 & W1 & W2 & W3 & W4).
    eexists (mk_iswa_context i us (Some (cb1, cw1)) STATUS_SUCCESS), (mk_iswa u' b1 w1), (mk_iswa_context i us (Some (cb2, cw2)) STATUS_SUCCESS), (mk_iswa u' b2 w2), (mk_iswa_context (i + 1) us (Some (cb3, cw3)) STATUS_SUCCESS).
    split; [|split; [|split]].
    + cbn [ctx_apply iswa_memory]. unfold iswa_apply, mbind, stx_bind, on_base, on_swa, on_part. cbn [stx_lift ix_status ix_parts iswa_parts llama_memory_status_is_fail negb assert_ kv_base kv_swa unified fst snd].
      rewrite B1. cbn [kv_base kv_swa unified]. by rewrite W1.
    + cbn [ctx_compute_start ctx_compute_finish iswa_memory]. unfold iswa_compute_start, iswa_compute_finish, mbind, stx_bind, on_base, on_swa, on_part.
      cbn [ix_parts iswa_set_parts stx_lift iswa_parts ix_i_next ix_ubatches ix_status kv_base kv_swa unified fst snd]. rewrite B2. cbn [kv_base kv_swa unified]. by rewrite W2.
    + cbn [ctx_next iswa_memory]. unfold iswa_next. cbn [ix_status ix_parts iswa_parts ix_ubatches ix_i_next]. rewrite bool_decide_true by done. cbn [assert_ mbind outcome_bind fst snd].
      rewrite B3. cbn [mbind outcome_bind]. rewrite W3. cbn [mbind outcome_bind fst snd]. do 2 f_equal. apply Bool.eq_true_iff_eq; rewrite negb_true_iff, Nat.leb_gt; symmetry; apply Nat.ltb_lt.
    + split; [done|]. by exists cb3, cw3.
  - split; [done|]. exists cb, cw. split; [|done]. unfold iswa_context_of. by rewrite (st_status us Ib Hb 0 cb b Hb0), (st_status us Iw Hw 0 cw w Hw0).
  - intros c' m' (Hu & cb' & cw' & -> & H1 & H2). split; [done|]. split; [by eapply HFb|by eapply HFw].
Qed.
End iswa.

Section hybrid.
Context {MA CA : Type} `{Memory MA CA}.

Lemma ready_hybrid us (ca : CA) cr (a : MA) r Fa Fr : ready us ca a Fa -> ready us cr r Fr ->
  ready us (hybrid_context_of us ca cr) (mk_hybrid a r) (fun m => Fa (mem_attn m) /\ Fr (mem_recr m)).
Proof.
  intros (Ia & Ha & Ha0 & HFa) (Ir & Hr & Hr0 & HFr).
  exists (fun i c m => exists ca cr, c = mk_hybrid_context i us (Some (ca, cr)) STATUS_SUCCESS /\ Ia i ca (mem_attn m) /\ Ir i cr (mem_recr m)). split; [split|split].
  - by intros i c m (ca' & cr' & -> & _).
  - intros i v c m (ca' & cr' & -> & _) Hv. cbn. by apply vec_get_Some.
  - intros e i c [a' r'] (ca' & cr' & -> & H1 & H2) Hi. cbn [mem_attn mem_recr] in *.
    destruct (st_round us Ia Ha e i ca' a' H1 Hi) as (ca1 & a1 & ca2 & a2 & ca3 & A1 & A2 & A3 & A4). destruct (st_round us Ir Hr e i cr' r' H2 Hi) as (cr1 & r1 & cr2 & r2 & cr3 & R1 & R2 & R3 & R4).
    eexists (mk_hybrid_context i us (Some (ca1, cr1)) STATUS_SUCCESS), (mk_hybrid a1 r1), (mk_hybrid_context i us (Some (ca2, cr2)) STATUS_SUCCESS), (mk_hybrid a2 r2), (mk_hybrid_context (i + 1) us (Some (ca3, cr3)) STATUS_SUCCESS).
    split; [|split; [|split]].
    + cbn [ctx_apply hybrid_memory]. unfold hybrid_apply, mbind at 1, stx_bind at 1. cbn [stx_lift hx_status llama_memory_status_is_fail negb assert_].
      unfold mbind at 1, stx_bind at 1. cbn [stx_lift hybrid_parts hx_parts]. unfold mbind at 1, stx_bind at 1, on_attn at 1, on_part at 1. cbn [fst snd mem_attn mem_recr]. rewrite A1. cbn [mem_attn mem_recr].
      unfold mbind at 1, stx_bind at 1, on_recr at 1, on_part at 1. cbn [fst snd mem_attn mem_recr]. by rewrite R1.
    + cbn [ctx_compute_start ctx_compute_finish hybrid_memory]. unfold hybrid_compute_start, hybrid_compute_finish. unfold mbind at 1, stx_bind at 1. cbn [stx_lift hybrid_parts hybrid_set_parts hx_parts hx_i_next hx_ubatches hx_status]. unfold mbind at 1, stx_bind at 1, on_attn at 1, on_part at 1. cbn [fst snd mem_attn mem_recr]. rewrite A2. cbn [mem_attn mem_recr].
      unfold mbind at 1, stx_bind at 1, on_recr at 1, on_part at 1. cbn [fst snd mem_attn mem_recr]. by rewrite R2.
    + cbn [ctx_next hybrid_memory]. unfold hybrid_next. cbn [hx_status hx_parts hybrid_parts hx_ubatches hx_i_next]. rewrite bool_decide_true by done. cbn [assert_ mbind outcome_bind fst snd].
      rewrite A3. cbn [mbind outcome_bind]. rewrite R3. cbn [mbind outcome_bind fst snd]. do 2 f_equal. apply Bool.eq_true_iff_eq; rewrite negb_true_iff, Nat.leb_gt; symmetry; apply Nat.ltb_lt.
    + by exists ca3, cr3.
  - exists ca, cr. split; [|done]. unfold hybrid_context_of. by rewrite (st_status us Ia Ha 0 ca a Ha0), (st_status us Ir Hr 0 cr r Hr0).
  - intros c' m' (ca' & cr' & -> & H1 & H2). split; [by eapply HFa|by eapply HFr].
Qed.
End hybrid.

(** ** The loop of the key-value cache is the loop of the interface *)

Lemma stx_bind_inv {S A B} (c : stx S A) (f : A -> stx S B) s b s' : (c ≫= f) s = (Ok b, s') -> exists a s1, c s = (Ok a, s1) /\ f a s1 = (Ok b, s').
Proof. unfold mbind, stx_bind. destruct (c s) as [[a|?] s1]; [|done]. by exists a, s1. Qed.

Lemma process_cursor (e : update_env) run c k st c' k' : process_ubatch e run c k = (Ok (st, c'), k') -> cx_i_cur c' = cx_i_cur c.
Proof.
  assert (forall b c c' (k k' : kv_cache), graph_compute_finish b c k = (Ok c', k') -> cx_i_cur c' = cx_i_cur c) as Hf.
  { intros b c1 c2 k1 k2. unfold graph_compute_finish. intros (? & ? & _ & H)%stx_bind_inv. by injection H as <- _. }
  assert (forall (b : bool) (c1 : kv_cache_context) (k1 : kv_cache), KvContext.apply e c k = (Ok (b, c1), k1) -> cx_i_cur c1 = cx_i_cur c) as Ha.
  { intros b c1 k1. unfold KvContext.apply. intros (? & ? & _ & H)%stx_bind_inv. destruct (_ =? 0).
    - apply stx_bind_inv in H as (? & ? & _ & H). by injection H as _ <- _.
    - apply stx_bind_inv in H as (? & ? & _ & H). apply stx_bind_inv in H as (? & ? & _ & H). apply stx_bind_inv in H as (? & ? & _ & H). apply stx_bind_inv in H as (? & ? & _ & H). by injection H as _ <- _. }
  unfold process_ubatch. intros ([b c1] & k1 & E & H)%stx_bind_inv. apply Ha in E. destruct b; cbn [negb] in H; [|by injection H as <- <- <-].
  destruct run; apply stx_bind_inv in H as (c2 & k2 & E2 & H); injection H as <- <- <-; by rewrite (Hf _ _ _ _ _ E2).
Qed.

Lemma stx_bind_eq {S A B} (c : stx S A) (f g : A -> stx S B) s : (forall a s1, c s = (Ok a, s1) -> f a s1 = g a s1) -> (c ≫= f) s = (c ≫= g) s.
Proof. intros H. unfold mbind, stx_bind. destruct (c s) as [[a|?] s1]; [by apply H|done]. Qed.

Lemma kv_decode_loop b fuel e runs : forall c k,
  @mem_decode_loop _ _ (kv_memory b) fuel e runs (cx_i_cur c) c k = decode_loop fuel e runs c k.
Proof.
  induction fuel as [|fuel IH]; intros c k; [done|]. cbn [mem_decode_loop decode_loop]. apply stx_bind_eq. intros u k1 _. apply stx_bind_eq. intros [st c1] k2 Ep. destruct (negb _); [done|].
  apply stx_bind_eq. intros [more c2] k3. cbn [ctx_next kv_memory]. unfold stx_lift, KvContext.next. destruct (assert_ _); [|done]. cbn [mbind outcome_bind]. intros [= <- <- <-].
  destruct (negb _); [|done]. rewrite <- (process_cursor _ _ _ _ _ _ _ Ep). apply (IH (set_cur (cx_i_cur c1 + 1) c1)).
Qed.
