(* ===== verification/CompositeLaws.v ===== *)
(** * Composite memories: removing tokens

    The contract of removal: [can_seq_rm] says beforehand what [seq_rm] will answer, a
    refused removal changes nothing, and a plan can be carried out.  The key-value cache
    and the recurrent memory keep it, and composites of memories that keep it do. *)

From S2P Require Import KvCells TailStore Batch BatchInit.
From S2P Require Export Composite KvSeqProps.
From S2P Require RecurrentOps.
Open Scope nat_scope.

(** A planned removal covers the requested one. *)
Definition covers (p0 p1 q0 q1 : Z) : Prop := if (p1 <? 0)%Z then (q1 < 0 /\ q0 <= p0)%Z else q0 = p0 /\ q1 = p1.

(** [ok x] is what an operation on sequence [x] needs; [removed] what a removal does. *)
Class Removable (M C : Type) `{Memory M C} (ok : Z -> M -> Prop) (removed : Z -> Z -> Z -> M -> M -> Prop) : Prop := {
  rmv_rm : forall x p0 p1 m, ok x m -> exists b m', mem_can_seq_rm x p0 p1 m = Ok b /\ mem_seq_rm x p0 p1 m = (Ok b, m') /\ ok x m' /\
    if b then removed x p0 p1 m m' else m' = m;
  rmv_plan : forall x p0 p1 m, ok x m -> exists plan, mem_seq_rm_plan x p0 p1 m = Ok plan /\
    forall q0 q1, plan = Some (q0, q1) -> covers p0 p1 q0 q1 /\ mem_can_seq_rm x q0 q1 m = Ok true
}.

Lemma covers_refl p0 p1 : covers p0 p1 p0 p1.
Proof. unfold covers. destruct (Z.ltb_spec p1 0); [lia|done]. Qed.

(** ** The two memories *)

Definition kv_ok (n : nat) (x : Z) (k : kv_cache) : Prop := kv_wf n k /\ other (k_cfg k) = None /\ valid_id x k.
Definition kv_removed (x p0 p1 : Z) (k k' : kv_cache) : Prop :=
  abs k' = clip_seq_op (seq_to_stream k) (SeqRm x p0 p1) (abs k) /\ k_cfg k' = k_cfg k /\ seq_to_stream k' = seq_to_stream k.

#[export] Instance kv_removable b n : @Removable _ _ (kv_memory b) (kv_ok n) kv_removed.
Proof.
  split.
  - intros x p0 p1 k (Hk & Ho & Hx). destruct (can_seq_rm_ok n k x p0 p1 Hk Ho ltac:(by right)) as (can & E & _). cbn [mem_can_seq_rm mem_seq_rm kv_memory].
    destruct (wp_run _ _ _ (wp_seq_rm_unchecked n k x p0 p1 Hk Ho ltac:(by right))) as (b' & k' & Er & -> & [R1 R2 R3 R4]). exists can, (if can then k' else k). split; [done|].
    unfold KvCache.seq_rm, mbind, stx_bind, stx_get. rewrite Ho. unfold gets. rewrite E. destruct can; [|done]. split; [done|]. split; [|done].
    split; [done|]. split; [congruence|]. unfold valid_id. by rewrite R4.
  - intros x p0 p1 k (Hk & Ho & Hx). destruct (can_seq_rm_ok n k x p0 p1 Hk Ho ltac:(by right)) as (can & E & _). cbn [mem_seq_rm_plan mem_can_seq_rm kv_memory]. unfold KvCache.seq_rm_plan. rewrite E.
    eexists. split; [done|]. intros q0 q1 Hq. destruct can; [|done]. injection Hq as <- <-. split; [apply covers_refl|done].
Qed.

Definition rec_ok (x : Z) (r : rec_mem) : Prop := RecurrentWf.rec_wf r /\ (0 <= x)%Z.
Definition rec_removed (x p0 p1 : Z) (r r' : rec_mem) : Prop :=
  forall y, RecurrentWf.view r' y = (RecurrentOps.spec_rec_op (Recurrent.n_rs_seq r) (Recurrent.r_size r) (RecurrentOps.OpRm x p0 p1) (RecurrentWf.view r)).2 y.

Section recurrent.
Import Recurrent.

Lemma rm_tail_allowed x p0 p1 m m1 o m2 : (0 <= x)%Z -> r_cells m1 = r_cells m -> n_rs_seq m1 = n_rs_seq m ->
  Recurrent.can_seq_rm x p0 p1 m = Ok true -> rm_tail x (range_lo p0) (range_hi p1) m1 = Ok (o, m2) -> o <> Some false.
Proof.
  intros Hx Ec En. unfold Recurrent.can_seq_rm, rm_tail, cell_at, sizeZ, r_size. rewrite Ec, En. destruct (_ <=? x)%Z; [done|]. rewrite (proj2 (Z.ltb_ge x 0)) by done.
  destruct (arr_get (r_cells m) x) as [owner|]; [|done]. cbn [mbind outcome_bind]. destruct (Z.ltb_spec (c_tail owner) 0), (Z.leb_spec 0 (c_tail owner)); try lia.
  - by intros _ [= <- <-].
  - destruct (arr_get (r_cells m) (c_tail owner)) as [cell|]; [|done]. cbn [mbind outcome_bind]. destruct (_ && _ && _).
    + intros [= E] H1. rewrite E in H1. apply bind_Ok in H1 as (m3 & _ & H1). by injection H1 as <- <-.
    + intros _. destruct (_ && _); [intros H1; apply bind_Ok in H1 as (m3 & _ & H1); by injection H1 as <- <-|by intros [= <- <-]].
Qed.

Lemma rec_rm_answer x p0 p1 m b m' : (0 <= x)%Z -> Recurrent.seq_rm x p0 p1 m = Ok (b, m') -> Recurrent.can_seq_rm x p0 p1 m = Ok b /\ (b = false -> m' = m).
Proof.
  intros Hx. unfold Recurrent.seq_rm. intros H. apply bind_Ok in H as (can & Ecan & H). destruct can; cbn [negb] in H; [|by injection H as <- <-].
  rewrite (proj2 (Z.leb_le 0 x) Hx) in H. cbv zeta in H.
  set (m1 := if _ && _ then set_rs_idx x 0 m else m) in H. assert (r_cells m1 = r_cells m /\ n_rs_seq m1 = n_rs_seq m) as [Ec En].
  { unfold m1, set_rs_idx. destruct (_ && _); [|done]. by destruct (_ || _). }
  assert (sizeZ m1 = sizeZ m) as Es by (unfold sizeZ, r_size; by rewrite Ec). destruct (sizeZ m1 <=? x)%Z eqn:El.
  { exfalso. unfold Recurrent.can_seq_rm in Ecan. rewrite <- Es, El in Ecan. done. }
  apply bind_Ok in H as ([o m2] & Et & H). pose proof (rm_tail_allowed x p0 p1 m m1 o m2 Hx Ec En Ecan Et) as Ho. destruct o as [[]|]; [by injection H as <- <-|done|].
  apply bind_Ok in H as (y & _ & H). by injection H as <- <-.
Qed.
End recurrent.

#[export] Instance rec_removable : Removable rec_mem rec_ctx rec_ok rec_removed.
Proof.
  split.
  - intros x p0 p1 r [Hr Hx]. destruct (RecurrentOps.seq_rm_ok r x p0 p1 Hr ltac:(by left)) as (r' & E & Hr' & Hv). destruct (rec_rm_answer _ _ _ _ _ _ Hx E) as [Ec Hf].
    eexists _, r'. split; [exact Ec|]. split; [cbn [mem_seq_rm rec_memory]; unfold rec_do; by rewrite E|]. split; [done|].
    destruct (RecurrentOps.spec_rec_op _ _ _ _).1; [exact Hv|by apply Hf].
  - intros x p0 p1 r [Hr Hx]. destruct (RecurrentOps.seq_rm_ok r x p0 p1 Hr ltac:(by left)) as (r' & E & _). destruct (rec_rm_answer _ _ _ _ _ _ Hx E) as [Ec _].
    cbn [mem_seq_rm_plan mem_can_seq_rm rec_memory]. unfold rec_seq_rm_plan. rewrite Ec. eexists. split; [done|]. intros q0 q1 Hq.
    destruct (RecurrentOps.spec_rec_op _ _ _ _).1; [|done]. injection Hq as <- <-. split; [apply covers_refl|done].
Qed.

(** ** Planning *)

(** What a child that keeps the contract answers. *)
Definition child_ok (x : Z) (c : rm_child) : Prop :=
  (forall p0 p1, exists plan, ch_plan c x p0 p1 = Ok plan /\ forall q0 q1, plan = Some (q0, q1) -> covers p0 p1 q0 q1) /\
  forall p0 p1, exists b, ch_can c x p0 p1 = Ok b.

Lemma child_of_ok {M C} `{HM : Memory M C} ok removed `{!Removable M C ok removed} x (m : M) : ok x m -> child_ok x (child_of m).
Proof.
  intros Hok. split.
  - intros p0 p1. destruct (rmv_plan x p0 p1 m Hok) as (plan & E & Hp). exists plan. split; [done|]. intros q0 q1 Hq. by apply Hp.
  - intros p0 p1. destruct (rmv_rm x p0 p1 m Hok) as (b & m' & E & _). by exists b.
Qed.

Lemma plan_children x p0 p1 l common : Forall (child_ok x) l -> (forall q0, common = Some q0 -> covers p0 p1 q0 p1) ->
  exists common', foldM (plan_child x p0 p1) l common = Ok common' /\ forall q0, common' = Some q0 -> covers p0 p1 q0 p1.
Proof.
  intros Hl. revert common. induction Hl as [|c l [Hc _] _ IH]; intros common Hcm; [by exists common|]. cbn [foldM].
  assert (exists c1, plan_child x p0 p1 common c = Ok c1 /\ forall q0, c1 = Some q0 -> covers p0 p1 q0 p1) as (c1 & E & H1).
  { unfold plan_child. destruct common as [q|]; [|by eexists]. destruct (Hc p0 p1) as (plan & -> & Hp). cbn [mbind outcome_bind]. eexists. split; [done|]. intros q0. destruct plan as [[a b]|]; [|done].
    specialize (Hp a b eq_refl). specialize (Hcm q eq_refl). unfold covers in *. destruct (Z.ltb_spec p1 0).
    - destruct (0 <=? b)%Z; [done|]. intros [= <-]. split; [done|]. destruct (Z.ltb_spec a q); lia.
    - destruct Hp as [-> ->]. rewrite !Z.eqb_refl. cbn [negb orb]. intros [= <-]. done. }
  rewrite E. cbn [mbind outcome_bind]. by apply IH.
Qed.

Lemma can_children x p0 p1 l ok : Forall (child_ok x) l -> exists ok', foldM (can_child x p0 p1) l ok = Ok ok' /\ (ok' = true -> ok = true /\ Forall (fun c => ch_can c x p0 p1 = Ok true) l).
Proof.
  intros Hl. revert ok. induction Hl as [|c l [_ Hc] _ IH]; intros ok; [exists ok; split; [done|]; intros ->; split; [done|constructor]|]. cbn [foldM]. unfold can_child at 2.
  destruct (Hc p0 p1) as (b & E). destruct ok; [rewrite E|]; cbn [mbind outcome_bind].
  - destruct (IH b) as (ok' & -> & H). exists ok'. split; [done|]. intros Ht. destruct (H Ht) as [-> Hf]. split; [done|]. by constructor.
  - destruct (IH false) as (ok' & -> & H). exists ok'. split; [done|]. intros Ht. by destruct (H Ht).
Qed.

Lemma plan_all_ok x p0 p1 l : Forall (child_ok x) l -> exists plan, llama_memory_seq_rm_plan_all x p0 p1 l = Ok plan /\
  forall q0 q1, plan = Some (q0, q1) -> covers p0 p1 q0 q1 /\ Forall (fun c => ch_can c x q0 q1 = Ok true) l.
Proof.
  intros Hl. unfold llama_memory_seq_rm_plan_all. destruct (length l =? 0); [by eexists|].
  destruct (plan_children x p0 p1 l (Some p0) Hl) as (common & -> & Hc); [intros q0 [= <-]; apply covers_refl|]. cbn [mbind outcome_bind]. destruct common as [q|]; [|by eexists].
  destruct (can_children x q p1 l true Hl) as (ok & -> & Hok). cbn [mbind outcome_bind]. eexists. split; [done|]. intros q0 q1 Hq. destruct ok; [|done]. injection Hq as <- <-.
  split; [by apply Hc|]. by apply Hok.
Qed.

(** ** Composites *)

Section iswa.
Context {MB CB MW CW : Type} `{HB : Memory MB CB} `{HW : Memory MW CW} (okb : Z -> MB -> Prop) (okw : Z -> MW -> Prop) (rb : Z -> Z -> Z -> MB -> MB -> Prop) (rw : Z -> Z -> Z -> MW -> MW -> Prop).
Context `{RB : !Removable MB CB okb rb} `{RW : !Removable MW CW okw rw}.

Definition iswa_ok (x : Z) (m : kv_cache_iswa MB MW) : Prop := okb x (kv_base m) /\ okw x (kv_swa m).
Definition iswa_removed (x p0 p1 : Z) (m m' : kv_cache_iswa MB MW) : Prop :=
  unified m' = unified m /\ rb x p0 p1 (kv_base m) (kv_base m') /\ rw x p0 p1 (kv_swa m) (kv_swa m').

#[export] Instance iswa_removable : Removable (kv_cache_iswa MB MW) (kv_cache_iswa_context CB CW) iswa_ok iswa_removed.
Proof.
  split.
  - intros x p0 p1 [u b w] [Hb Hw]. cbn [kv_base kv_swa] in *. destruct (rmv_rm x p0 p1 b Hb) as (cb & b' & B1 & B2 & B3 & B4). destruct (rmv_rm x p0 p1 w Hw) as (cw & w' & W1 & W2 & W3 & W4).
    exists (cb && cw), (if cb && cw then mk_iswa u b' w' else mk_iswa u b w).
    assert (iswa_can_seq_rm x p0 p1 (mk_iswa u b w) = Ok (cb && cw)) as Ec by (unfold iswa_can_seq_rm; cbn [kv_base kv_swa]; rewrite B1; cbn [mbind outcome_bind]; by destruct cb).
    split; [exact Ec|]. cbn [mem_seq_rm iswa_memory]. unfold iswa_seq_rm. unfold mbind at 1, stx_bind at 1, stx_get. unfold mbind at 1, stx_bind at 1, stx_lift. rewrite Ec.
    destruct cb; [|done]. destruct cw; [|done]. cbn [andb negb]. unfold mbind, stx_bind, on_base, on_swa, on_part. cbn [kv_base kv_swa unified]. rewrite B2. cbn [negb kv_base kv_swa unified]. by rewrite W2.
  - intros x p0 p1 m [Hb Hw]. destruct (plan_all_ok x p0 p1 (iswa_children m)) as (plan & E & Hp).
    { constructor; [by eapply child_of_ok|]. constructor; [by eapply child_of_ok|constructor]. }
    exists plan. split; [exact E|]. intros q0 q1 Hq. destruct (Hp q0 q1 Hq) as [Hc Hf]. split; [done|]. apply Forall_cons in Hf as [H1 [H2 _]%Forall_cons].
    cbn [child_of ch_can] in H1, H2. cbn [mem_can_seq_rm iswa_memory]. unfold iswa_can_seq_rm. rewrite H1. done.
Qed.
End iswa.

Section hybrid.
Context {MA CA : Type} `{HA : Memory MA CA} (oka : Z -> MA -> Prop) (ra : Z -> Z -> Z -> MA -> MA -> Prop) `{RA : !Removable MA CA oka ra}.

Definition hybrid_ok (x : Z) (m : llama_memory_hybrid MA) : Prop := oka x (mem_attn m) /\ rec_ok x (mem_recr m).
Definition hybrid_removed (x p0 p1 : Z) (m m' : llama_memory_hybrid MA) : Prop :=
  ra x p0 p1 (mem_attn m) (mem_attn m') /\ rec_removed x p0 p1 (mem_recr m) (mem_recr m').

#[export] Instance hybrid_removable : Removable (llama_memory_hybrid MA) (llama_memory_hybrid_context CA) hybrid_ok hybrid_removed.
Proof.
  split.
  - intros x p0 p1 [a r] [Ha Hr]. cbn [mem_attn mem_recr] in *. destruct (rmv_rm x p0 p1 a Ha) as (ca & a' & A1 & A2 & A3 & A4). destruct (rmv_rm x p0 p1 r Hr) as (cr & r' & R1 & R2 & R3 & R4).
    exists (cr && ca), (if cr && ca then mk_hybrid a' r' else mk_hybrid a r).
    assert (hybrid_can_seq_rm x p0 p1 (mk_hybrid a r) = Ok (cr && ca)) as Ec by (unfold hybrid_can_seq_rm; cbn [mem_attn mem_recr]; rewrite R1; cbn [mbind outcome_bind]; by destruct cr).
    split; [exact Ec|]. cbn [mem_seq_rm hybrid_memory]. unfold hybrid_seq_rm. unfold mbind at 1, stx_bind at 1, stx_get. unfold mbind at 1, stx_bind at 1, stx_lift. rewrite Ec.
    destruct cr; [|done]. destruct ca; [|done]. cbn [andb negb]. unfold mbind, stx_bind, on_attn, on_recr, on_part. cbn [mem_attn mem_recr]. rewrite R2. cbn [negb mem_attn mem_recr]. by rewrite A2.
  - intros x p0 p1 m [Ha Hr]. destruct (plan_all_ok x p0 p1 (hybrid_children m)) as (plan & E & Hp).
    { constructor; [by apply (child_of_ok oka ra)|]. constructor; [by apply (child_of_ok rec_ok rec_removed)|constructor]. }
    exists plan. split; [exact E|]. intros q0 q1 Hq. destruct (Hp q0 q1 Hq) as [Hc Hf]. split; [done|]. apply Forall_cons in Hf as [H1 [H2 _]%Forall_cons].
    cbn [child_of ch_can] in H1, H2. cbn [mem_can_seq_rm hybrid_memory]. unfold hybrid_can_seq_rm. rewrite H2. done.
Qed.
End hybrid.
