(* ===== verification/CompositeProps.v ===== *)
(** * Composite memories: properties

    Removal from a composite is all or nothing and agrees with its plan; a batch a
    composite accepts is decoded by all its parts. *)

From S2P Require Import KvCells TailStore Batch BatchInit.
From S2P Require Export CompositeDecode CompositeLaws.
From S2P Require RecurrentProps RecurrentDemo.
Open Scope nat_scope.

(** ** Preparing a hybrid *)

(** The memory a batch was not placed in yet. *)
Definition same_content (k : kv_cache) (r : rec_mem) (m : llama_memory_hybrid kv_cache) : Prop :=
  (abs (mem_attn m) = abs k /\ k_cfg (mem_attn m) = k_cfg k /\ seq_to_stream (mem_attn m) = seq_to_stream k) /\
  (Recurrent.r_cells (mem_recr m) = Recurrent.r_cells r /\ Recurrent.r_head (mem_recr m) = Recurrent.r_head r /\
   Recurrent.r_used (mem_recr m) = Recurrent.r_used r /\ Recurrent.rs_idx (mem_recr m) = Recurrent.rs_idx r).

(** What decoding the ubatches in the slots leaves. *)
Definition decoded_content (n : nat) (us : list llama_ubatch) (rowss : list (list (list nat * Z))) (ss : list slot_info) (k : kv_cache) (r : rec_mem)
    (m : llama_memory_hybrid kv_cache) : Prop :=
  (kv_wf n (mem_attn m) /\ abs (mem_attn m) = KvDecode.place_all us ss (abs k)) /\
  (RecurrentWf.rec_wf (mem_recr m) /\ forall y, RecurrentProps.positions (mem_recr m) y = foldl (fun P rows => RecurrentProps.spec_slot rows P) (RecurrentProps.positions r) rowss y).

Lemma hybrid_prepared b n k r K us rowss : plain n k -> tail (k_tail k) = None -> Forall (prepared_ok k) us -> us <> [] ->
  RecurrentWf.rec_wf r -> RecurrentProps.batch_ok r K us rowss ->
  exists c m1, @hybrid_prepare _ _ (kv_memory b) us (mk_hybrid k r) = (Ok c, m1) /\ same_content k r m1 /\
    (c = hybrid_failed \/ exists ss, (exists ca, c = @hybrid_context_of _ _ (kv_memory b) us ca (Recurrent.context_batch us)) /\ NoDup (concat (slot_targets <$> ss)) /\
      (forall x, x ∈ concat (slot_targets <$> ss) -> content_at (abs k) x = None) /\
      @ready _ _ (@hybrid_memory _ _ (kv_memory b)) us c m1 (decoded_content n us rowss ss k r)).
Proof.
  intros Hk Ht Hu Hne Hr Hb. destruct (RecurrentProps.rec_prepare_ok r K us rowss Hr Hb) as (r1 & Er & (R1 & R2 & R3 & R4 & _) & Hr1 & Hb1 & Hp1).
  destruct (wp_run _ _ _ (wp_init_kv_batch n k us Hk Ht Hu Hne)) as (ca & k1 & Ek & Ha & Hcfg & Hmap & Hca).
  assert (@hybrid_prepare _ _ (kv_memory b) us (mk_hybrid k r) =
    (Ok (if llama_memory_status_is_fail (cx_status ca) then hybrid_failed else @hybrid_context_of _ _ (kv_memory b) us ca (Recurrent.context_batch us)), mk_hybrid k1 r1)) as E.
  { unfold hybrid_prepare, mbind, stx_bind, on_recr, on_attn, on_part, rec_do. cbn [mem_recr mem_attn]. rewrite Er. cbn [negb mem_recr mem_attn mem_init_kv_batch kv_memory]. unfold mbind, stx_bind.
    rewrite Ek. cbn [mret stx_ret ctx_status kv_memory mem_recr mem_attn]. by destruct (llama_memory_status_is_fail (cx_status ca)). }
  eexists _, _. split; [exact E|]. split; [by split; split_and!|]. destruct Hca as [->|(ss & -> & Hd)]; [by left|]. right. exists ss. cbn [cx_status context_batch llama_memory_status_is_fail].
  split; [by eexists|]. split; [apply Hd|]. split; [rewrite <- Ha; apply Hd|].
  destruct (@ready_hybrid _ _ (kv_memory b) us _ _ k1 r1 _ _ (ready_kv b n k1 us ss Hd) (ready_rec K us rowss r1 Hr1 Hb1)) as (I & Hs & H0 & Hf).
  exists I. split; [exact Hs|]. split; [exact H0|]. intros c' m' Hi. destruct (Hf c' m' Hi) as [(F1 & _ & _ & F2) (F3 & _ & F4)].
  split; [split; [done|by rewrite F2, Ha]|]. split; [done|]. intros y. rewrite F4. apply RecurrentProps.spec_slots_ext, Hp1.
Qed.

(** C4: A hybrid memory decodes what it accepts, if its attention cache is plain (its own
    cells, no sliding window, no record groups, positions below the largest one) and has no
    exact tail.  For ubatches valid for both parts, preparing changes the content of neither
    part, and gives a failed context (when the attention cache has no room) or one with
    which, when every graph runs, the decoding loop of the library runs to the end: no
    assertion fails in either part, the attention cache then holds the old content and
    every token in its slot (cells that were free, no two the same), and the recurrent
    memory has, for every sequence, the last position the ubatches gave it. *)
Theorem hybrid_decodes shiftable n k r K us rowss e runs : plain n k -> tail (k_tail k) = None -> Forall (prepared_ok k) us -> us <> [] ->
  RecurrentWf.rec_wf r -> RecurrentProps.batch_ok r K us rowss -> (forall i, i < length us -> run_status (runs i) = GGML_SUCCESS) ->
  let HM := kv_memory shiftable in
  exists c m1, hybrid_prepare us (mk_hybrid k r) = (Ok c, m1) /\ same_content k r m1 /\
    (hx_status c = STATUS_FAILED_PREPARE \/
     exists ss c' m2, NoDup (concat (slot_targets <$> ss)) /\ (forall x, x ∈ concat (slot_targets <$> ss) -> content_at (abs k) x = None) /\
       mem_decode_loop (length us) e runs 0 c m1 = (Ok (None, c'), m2) /\ decoded_content n us rowss ss k r m2).
Proof.
  intros Hk Ht Hu Hne Hr Hb Hruns HM. destruct (hybrid_prepared shiftable n k r K us rowss Hk Ht Hu Hne Hr Hb) as (c & m1 & E & Hs & Hc). exists c, m1. split; [exact E|]. split; [done|].
  destruct Hc as [->|(ss & _ & Hnd & Hfree & Hready)]; [by left|]. right. destruct (@decode_ready _ _ (@hybrid_memory _ _ HM) us c m1 _ e runs Hready Hne Hruns) as (c' & m2 & E2 & Hf).
  by exists ss, c', m2.
Qed.

(** One token for sequence 3 per ubatch; both parts take them. *)
Definition hybrid_demo_token (p : Z) : llama_ubatch := mk_ubatch true 1 1 1 1 1 None None [p] [1%Z] [[3%Z]] [3] [] [].
Definition hybrid_demo_batch : list llama_ubatch := [hybrid_demo_token 10; hybrid_demo_token 11].
Definition hybrid_demo_rows (p : Z) : list (list nat * Z) := [([3], p)].
Definition hybrid_demo : llama_memory_hybrid kv_cache := mk_hybrid (demo_cache 1 0) RecurrentDemo.rec_demo.

Lemma hybrid_demo_prepared p : (0 <= p < INT32_MAX)%Z -> prepared_ok (demo_cache 1 0) (hybrid_demo_token p).
Proof.
  intros Hp. destruct (demo_token_ok 1 0 p ltac:(by left) Hp) as [(nt & sts & [A1 A2 A3 A4 A5 A6]) Hq]. split; [|exact Hq].
  exists nt, sts. split; [exact A1|exact A2|exact A3|exact A4|exact A5|]. intros s st ii Hs Hi. destruct (A6 s st ii Hs Hi) as (q & ids & []). exists q, ids. by split.
Qed.

Lemma hybrid_demo_rec p : (0 <= p <= INT32_MAX)%Z -> RecurrentFind.rec_ubatch (hybrid_demo_token p) 4 (hybrid_demo_rows p).
Proof.
  intros Hp. split; [reflexivity|simpl; lia|simpl; lia| | |].
  - intros s ws q H. destruct s as [|s]; [|done]. injection H as <- <-. split; [reflexivity|]. split; [reflexivity|]. split; [done|]. split; [reflexivity|exact Hp].
  - apply (bool_decide_unpack _). vm_compute. exact I.
  - apply (bool_decide_unpack _). vm_compute. exact I.
Qed.

Lemma hybrid_demo_batch_ok : RecurrentProps.batch_ok RecurrentDemo.rec_demo 5 hybrid_demo_batch [hybrid_demo_rows 10; hybrid_demo_rows 11].
Proof.
  split; [|apply RecurrentProps.rec_demo_batch_ok].
  apply Forall2_cons; split; [|apply Forall2_cons; split; [|apply Forall2_nil_2]].
  all: split; [apply hybrid_demo_rec; unfold INT32_MAX; lia|]; split; [vm_compute; discriminate|]; apply (bool_decide_unpack _); vm_compute; exact I.
Qed.

Lemma hybrid_demo_accepted : match (@hybrid_prepare _ _ (kv_memory true) hybrid_demo_batch hybrid_demo).1 with Ok c => hx_status c | Err _ => STATUS_FAILED_PREPARE end = STATUS_SUCCESS.
Proof. vm_compute. reflexivity. Qed.

Lemma hybrid_decodes_witness : let HM := kv_memory true in exists c m1 ss c' m2,
  hybrid_prepare hybrid_demo_batch hybrid_demo = (Ok c, m1) /\ mem_decode_loop 2 demo_env (fun _ => Ran GGML_SUCCESS) 0 c m1 = (Ok (None, c'), m2) /\
  abs (mem_attn m2) = KvDecode.place_all hybrid_demo_batch ss (abs (demo_cache 1 0)) /\
  RecurrentProps.positions (mem_recr m2) <$> [0; 1; 2; 3] = [Some 4; None; Some 4; Some 11]%Z.
Proof.
  intros HM. destruct (hybrid_decodes true 4 (demo_cache 1 0) RecurrentDemo.rec_demo 5 hybrid_demo_batch [hybrid_demo_rows 10; hybrid_demo_rows 11] demo_env (fun _ => Ran GGML_SUCCESS)
    demo_plain eq_refl) as (c & m1 & E & _ & Hc).
  - repeat constructor; apply hybrid_demo_prepared; unfold INT32_MAX; lia.
  - discriminate.
  - exact RecurrentDemo.rec_demo_wf.
  - exact hybrid_demo_batch_ok.
  - intros i _. reflexivity.
  - pose proof hybrid_demo_accepted as Hacc. fold hybrid_demo in E. rewrite E in Hacc. cbn [fst] in Hacc. destruct Hc as [Hc|(ss & c' & m2 & _ & _ & E2 & [_ Ha] & _ & Hp)]; [rewrite Hc in Hacc; discriminate Hacc|].
    exists c, m1, ss, c', m2. split; [exact E|]. split; [exact E2|]. split; [exact Ha|]. cbn [fmap list_fmap]. rewrite !Hp. vm_compute. reflexivity.
Defined.

(** ** Removal *)

(** C13: Removal from a model with full attention, sliding-window and recurrent layers.  On
    well-formed parts [can_seq_rm] answers what [seq_rm] then answers; a refused removal
    leaves the whole memory as it was; an accepted one is done by all three parts, each
    as its own specification says, and leaves them well-formed: never by some of them
    only.  The plan for a removal always exists as an answer, and a plan that is given
    covers what was asked for and is accepted by [can_seq_rm]. *)
Theorem composite_removal nb nw bs x p0 p1 u (b w : kv_cache) r : kv_ok nb x b -> kv_ok nw x w -> rec_ok x r ->
  let HM := kv_memory bs in
  let m := mk_hybrid (mk_iswa u b w) r in
  (exists ok m', mem_can_seq_rm x p0 p1 m = Ok ok /\ mem_seq_rm x p0 p1 m = (Ok ok, m') /\
     (kv_wf nb (kv_base (mem_attn m')) /\ kv_wf nw (kv_swa (mem_attn m')) /\ RecurrentWf.rec_wf (mem_recr m')) /\
     if ok then
       abs (kv_base (mem_attn m')) = clip_seq_op (seq_to_stream b) (SeqRm x p0 p1) (abs b) /\
       abs (kv_swa (mem_attn m')) = clip_seq_op (seq_to_stream w) (SeqRm x p0 p1) (abs w) /\
       rec_removed x p0 p1 r (mem_recr m')
     else m' = m) /\
  exists plan, mem_seq_rm_plan x p0 p1 m = Ok plan /\ forall q0 q1, plan = Some (q0, q1) -> covers p0 p1 q0 q1 /\ mem_can_seq_rm x q0 q1 m = Ok true.
Proof.
  intros Hb Hw Hr HM m. pose proof (kv_removable bs nb) as RB. pose proof (kv_removable bs nw) as RW.
  pose proof (iswa_removable (kv_ok nb) (kv_ok nw) kv_removed kv_removed) as RI. pose proof (hybrid_removable _ _ (RA := RI)) as RH.
  assert (hybrid_ok (iswa_ok (kv_ok nb) (kv_ok nw)) x m) as Hm by done. split; [|exact (rmv_plan x p0 p1 m Hm)].
  destruct (rmv_rm x p0 p1 m Hm) as (ok & m' & E1 & E2 & [[(B & _) (W & _)] (R & _)] & H). exists ok, m'. split; [exact E1|]. split; [exact E2|]. split; [by split_and!|].
  destruct ok; [|exact H]. destruct H as [(_ & (HB & _) & (HW & _)) HR]. by split_and!.
Qed.

(** Both attention caches hold positions 7 and 9 of sequence 3, the recurrent memory
    position 4 with two snapshots. *)
Definition composite_demo : llama_memory_hybrid (kv_cache_iswa kv_cache kv_cache) :=
  mk_hybrid (mk_iswa true (demo_cache 1 0) (demo_cache 1 0)) RecurrentDemo.rec_demo.

Lemma demo_kv_ok : kv_ok 4 3 (demo_cache 1 0).
Proof. split; [apply demo_plain|]. split; [reflexivity|]. split; [done|]. apply (bool_decide_unpack _). vm_compute. exact I. Qed.

Lemma composite_removal_witness : let HM := kv_memory true in
  (exists m', mem_seq_rm 3 3 (-1) composite_demo = (Ok true, m') /\ abs (kv_swa (mem_attn m')) = [∅]) /\
  mem_seq_rm 3 1 (-1) composite_demo = (Ok false, composite_demo).
Proof.
  intros HM. assert (rec_ok 3 RecurrentDemo.rec_demo) as Hr by (split; [exact RecurrentDemo.rec_demo_wf|lia]). split.
  - destruct (composite_removal 4 4 true 3 3 (-1) true (demo_cache 1 0) (demo_cache 1 0) RecurrentDemo.rec_demo demo_kv_ok demo_kv_ok Hr) as [(ok & m' & E1 & E2 & _ & H) _].
    assert (mem_can_seq_rm 3 3 (-1) composite_demo = Ok true) as E by (vm_compute; reflexivity). pose proof (eq_trans (eq_sym E) E1) as E3. injection E3 as <-. exists m'. split; [exact E2|].
    destruct H as (_ & -> & _). apply (bool_decide_unpack _). vm_compute. exact I.
  - destruct (composite_removal 4 4 true 3 1 (-1) true (demo_cache 1 0) (demo_cache 1 0) RecurrentDemo.rec_demo demo_kv_ok demo_kv_ok Hr) as [(ok & m' & E1 & E2 & _ & H) _].
    assert (mem_can_seq_rm 3 1 (-1) composite_demo = Ok false) as E by (vm_compute; reflexivity). pose proof (eq_trans (eq_sym E) E1) as E3. injection E3 as <-. rewrite H in E2. exact E2.
Defined.

(** ** A failed ubatch *)

(** Without snapshots the recurrent part refuses to take a token back, so the removal that
    follows a failed graph is refused by the whole memory, and its answer is not looked
    at: the tokens of the failed ubatch stay in both parts. *)
Definition hybrid_no_snapshots : llama_memory_hybrid kv_cache := mk_hybrid (demo_cache 1 0) (Recurrent.new_recurrent 4 4 0).

Definition decode_batch {M C} `{Memory M C} (us : list llama_ubatch) (status : ggml_status) (prepare : list llama_ubatch -> stx M C) : stx M (option ggml_status) :=
  c ← prepare us;
  r ← mem_decode_loop (length us) demo_env (fun _ => Ran status) 0 c;
  mret r.1.

Lemma failed_ubatch_stays : let HM := kv_memory true in
  let first := decode_batch [hybrid_demo_token 10] GGML_SUCCESS hybrid_prepare hybrid_no_snapshots in
  let second := decode_batch [hybrid_demo_token 11] GGML_FAILED hybrid_prepare first.2 in
  first.1 = Ok None /\ mem_seq_pos_max 3 first.2 = Ok 10%Z /\
  second.1 = Ok (Some GGML_FAILED) /\ mem_seq_pos_max 3 second.2 = Ok 11%Z.
Proof. vm_compute. split; [reflexivity|]. split; [reflexivity|]. split; reflexivity. Qed.
