(* ===== verification/Unicode.v ===== *)
(** * Text as UTF-8 (src/src/unicode.cpp)

    Code points and their bytes, and the characters that stand for single bytes in the
    vocabularies of byte-level tokenizers.  A byte is a number below 256, a text the list of
    its bytes. *)

From S2P Require Export Prelude.
Open Scope Z_scope.

(** ** Code points and bytes *)

Definition unicode_len_utf8_lookup : list nat := [1; 1; 1; 1; 1; 1; 1; 1; 1; 1; 1; 1; 2; 2; 3; 4]%nat.

Definition unicode_len_utf8 (src : Z) : outcome nat := vec_get unicode_len_utf8_lookup (Z.to_nat (Z.shiftr src 4)).

Definition unicode_cpt_to_utf8 (cpt : Z) : outcome (list Z) :=
  if cpt <=? 127 then Ok [cpt]
  else if (128 <=? cpt) && (cpt <=? 2047) then
    Ok [Z.lor 192 (Z.land (Z.shiftr cpt 6) 31); Z.lor 128 (Z.land cpt 63)]
  else if (2048 <=? cpt) && (cpt <=? 65535) then
    Ok [Z.lor 224 (Z.land (Z.shiftr cpt 12) 15); Z.lor 128 (Z.land (Z.shiftr cpt 6) 63); Z.lor 128 (Z.land cpt 63)]
  else if (65536 <=? cpt) && (cpt <=? 1114111) then
    Ok [Z.lor 240 (Z.land (Z.shiftr cpt 18) 7); Z.lor 128 (Z.land (Z.shiftr cpt 12) 63); Z.lor 128 (Z.land (Z.shiftr cpt 6) 63); Z.lor 128 (Z.land cpt 63)]
  else Err InvalidArgument.

Definition unicode_cpts_to_utf8 (cps : list Z) : outcome (list Z) :=
  foldM (fun result cpt => bs ← unicode_cpt_to_utf8 cpt; Ok (result ++ bs)) cps [].

(** [offset + k < utf8.size() && (utf8[offset + k] & 0xc0) == 0x80] *)
Definition is_continuation (utf8 : list Z) (i : nat) : bool :=
  match utf8 !! i with Some b => Z.land b 192 =? 128 | None => false end.

(** The low six bits of a byte. *)
Definition low_bits (utf8 : list Z) (i : nat) : outcome Z := b ← vec_get utf8 i; Ok (Z.land b 63).

(** The code point at [offset], and the offset after it. *)
Definition unicode_cpt_from_utf8 (utf8 : list Z) (offset : nat) : outcome (Z * nat) :=
  b ← vec_get utf8 offset;
  if Z.land b 128 =? 0 then Ok (b, (offset + 1)%nat)
  else if Z.land b 64 =? 0 then Err InvalidArgument
  else if Z.land b 32 =? 0 then
    if negb (is_continuation utf8 (offset + 1)) then Err InvalidArgument else
    b1 ← low_bits utf8 (offset + 1);
    Ok (Z.lor (Z.shiftl (Z.land b 31) 6) b1, (offset + 2)%nat)
  else if Z.land b 16 =? 0 then
    if negb (is_continuation utf8 (offset + 1)) || negb (is_continuation utf8 (offset + 2)) then Err InvalidArgument else
    b1 ← low_bits utf8 (offset + 1);
    b2 ← low_bits utf8 (offset + 2);
    Ok (Z.lor (Z.lor (Z.shiftl (Z.land b 15) 12) (Z.shiftl b1 6)) b2, (offset + 3)%nat)
  else if Z.land b 8 =? 0 then
    if negb (is_continuation utf8 (offset + 1)) || negb (is_continuation utf8 (offset + 2)) || negb (is_continuation utf8 (offset + 3)) then Err InvalidArgument else
    b1 ← low_bits utf8 (offset + 1);
    b2 ← low_bits utf8 (offset + 2);
    b3 ← low_bits utf8 (offset + 3);
    Ok (Z.lor (Z.lor (Z.lor (Z.shiftl (Z.land b 7) 18) (Z.shiftl b1 12)) (Z.shiftl b2 6)) b3, (offset + 4)%nat)
  else Err InvalidArgument.

(** The loop over the text; an invalid byte becomes the replacement character. *)
Fixpoint cpts_loop (fuel : nat) (utf8 : list Z) (offset : nat) (result : list Z) : outcome (list Z) :=
  if negb (offset <? length utf8)%nat then Ok result else
  match fuel with
  | O => Err OutOfFuel
  | S fuel =>
      match unicode_cpt_from_utf8 utf8 offset with
      | Ok (cpt, offset) => cpts_loop fuel utf8 offset (result ++ [cpt])
      | Err InvalidArgument => cpts_loop fuel utf8 (offset + 1) (result ++ [65533])
      | Err f => Err f
      end
  end.

Definition unicode_cpts_from_utf8 (utf8 : list Z) : outcome (list Z) := cpts_loop (length utf8) utf8 0 [].

(** ** Bytes as characters *)

(** [for (int ch = first; ch <= last; ++ch)] *)
Definition range (first last : Z) : list Z := (fun i => first + Z.of_nat i) <$> seq 0 (Z.to_nat (last - first + 1)).

Definition printable : list Z := range 33 126 ++ range 161 172 ++ range 174 255.

(** Both maps as association lists, the latest first; what is asked is the first hit. *)
Definition find_value {A B} `{EqDecision A} (key : A) (m : list (A * B)) : option B := snd <$> List.find (fun x => bool_decide (x.1 = key)) m.

Definition unicode_byte_to_utf8_map : outcome (list (Z * list Z)) :=
  map ← foldM (fun map ch => utf8 ← unicode_cpt_to_utf8 ch; Ok ((ch, utf8) :: map)) printable [];
  r ← foldM (fun acc ch =>
    let '(map, n) := acc in
    match find_value ch map with
    | Some _ => Ok acc
    | None => utf8 ← unicode_cpt_to_utf8 (256 + n); Ok ((ch, utf8) :: map, n + 1)
    end) (range 0 255) (map, 0);
  Ok r.1.

Definition unicode_utf8_to_byte_map : outcome (list (list Z * Z)) :=
  map ← foldM (fun map ch => utf8 ← unicode_cpt_to_utf8 ch; Ok ((utf8, ch) :: map)) printable [];
  r ← foldM (fun acc ch =>
    let '(map, n) := acc in
    key ← unicode_cpt_to_utf8 ch;
    match find_value key map with
    | Some _ => Ok acc
    | None => utf8 ← unicode_cpt_to_utf8 (256 + n); Ok ((utf8, ch) :: map, n + 1)
    end) (range 0 255) (map, 0);
  Ok r.1.

(** [map.at] *)
Definition map_at {A B} `{EqDecision A} (key : A) (m : list (A * B)) : outcome B :=
  match find_value key m with Some b => Ok b | None => Err OutOfRange end.

Definition unicode_byte_to_utf8 (byte : Z) : outcome (list Z) := map ← unicode_byte_to_utf8_map; map_at byte map.
Definition unicode_utf8_to_byte (utf8 : list Z) : outcome Z := map ← unicode_utf8_to_byte_map; map_at utf8 map.

(** ** Codes of a code point *)

Inductive encoded : Z -> list Z -> Prop :=
  | encoded1 t : 0 <= t < 128 -> encoded t [t]
  | encoded2 t a : 0 <= t < 32 -> 0 <= a < 64 -> encoded (t * 64 + a) [192 + t; 128 + a]
  | encoded3 t a b : 0 <= t < 16 -> 0 <= a < 64 -> 0 <= b < 64 -> encoded ((t * 64 + a) * 64 + b) [224 + t; 128 + a; 128 + b]
  | encoded4 t a b c : 0 <= t < 8 -> 0 <= a < 64 -> 0 <= b < 64 -> 0 <= c < 64 -> encoded (((t * 64 + a) * 64 + b) * 64 + c) [240 + t; 128 + a; 128 + b; 128 + c].

(** Facts about bytes, by going through them. *)
Definition below (n : Z) (P : Z -> bool) : bool := forallb P (range 0 (n - 1)).

Lemma below_spec n P : below n P = true -> forall x, 0 <= x < n -> P x = true.
Proof.
  intros H x Hx. unfold below, range in H. rewrite forallb_forall in H. apply H, list_elem_of_In, list_elem_of_fmap. exists (Z.to_nat x). split; [lia|]. apply elem_of_seq. lia.
Qed.

Lemma lor_lead k n : below n (fun x => Z.lor k x =? k + x) = true -> forall x, 0 <= x < n -> Z.lor k x = k + x.
Proof. intros H x Hx. apply Z.eqb_eq. by apply (below_spec n (fun x => Z.lor k x =? k + x)). Qed.

Lemma land_mask x n : 0 <= n -> Z.land x (2 ^ n - 1) = x mod 2 ^ n.
Proof. intros Hn. rewrite <- Z.land_ones by done. by rewrite Z.ones_equiv, Z.sub_1_r. Qed.

Lemma lor_shift a b n : 0 <= n -> 0 <= b < 2 ^ n -> Z.lor (Z.shiftl a n) b = a * 2 ^ n + b.
Proof.
  intros Hn Hb. rewrite <- Z.shiftl_mul_pow2 by done. assert (Z.land (Z.shiftl a n) b = 0) as H.
  { apply Z.bits_inj'. intros i Hi. rewrite Z.land_spec, Z.bits_0, Z.shiftl_spec by done. destruct (Z.lt_ge_cases i n) as [Hlt|Hge]; [by rewrite (Z.testbit_neg_r a) by lia|].
    rewrite <- (Z.mod_small b (2 ^ n)) by done. by rewrite Z.mod_pow2_bits_high, andb_false_r by lia. }
  by rewrite Z.add_nocarry_lxor, Z.lxor_lor.
Qed.

Lemma cpt_to_utf8_encoded c : 0 <= c <= 1114111 -> exists bs, unicode_cpt_to_utf8 c = Ok bs /\ encoded c bs.
Proof.
  intros Hc. unfold unicode_cpt_to_utf8. rewrite !Z.shiftr_div_pow2 by lia. change 31 with (2 ^ 5 - 1). change 63 with (2 ^ 6 - 1). change 15 with (2 ^ 4 - 1). change 7 with (2 ^ 3 - 1). rewrite !land_mask by lia.
  assert (forall k n x, 0 <= n -> below (2 ^ n) (fun x => Z.lor k x =? k + x) = true -> Z.lor k (x mod 2 ^ n) = k + x mod 2 ^ n) as Hl.
  { intros k n x Hn H. apply (lor_lead k (2 ^ n)); [done|]. apply Z.mod_pos_bound. lia. }
  rewrite !Hl by first [lia | vm_compute; reflexivity]. change (2 ^ 5) with 32. change (2 ^ 6) with 64. change (2 ^ 4) with 16. change (2 ^ 3) with 8. change (2 ^ 12) with 4096. change (2 ^ 18) with 262144.
  destruct (c <=? 127) eqn:E1; [eexists; split; [done|]; apply encoded1; lia|]. destruct ((128 <=? c) && (c <=? 2047)) eqn:E2.
  { eexists; split; [done|]. replace c with ((c / 64) mod 32 * 64 + c mod 64) at 1 by (Z.to_euclidean_division_equations; lia). apply encoded2; Z.to_euclidean_division_equations; lia. }
  destruct ((2048 <=? c) && (c <=? 65535)) eqn:E3.
  { eexists; split; [done|]. replace c with (((c / 4096) mod 16 * 64 + (c / 64) mod 64) * 64 + c mod 64) at 1 by (Z.to_euclidean_division_equations; lia). apply encoded3; Z.to_euclidean_division_equations; lia. }
  destruct ((65536 <=? c) && (c <=? 1114111)) eqn:E4; [|lia].
  eexists; split; [done|]. replace c with ((((c / 262144) mod 8 * 64 + (c / 4096) mod 64) * 64 + (c / 64) mod 64) * 64 + c mod 64) at 1 by (Z.to_euclidean_division_equations; lia). apply encoded4; Z.to_euclidean_division_equations; lia.
Qed.

(** ** Decoding at an offset *)

Lemma byte_fact n (f g : Z -> Z) : below n (fun x => f x =? g x) = true -> forall x, 0 <= x < n -> f x = g x.
Proof. intros H x Hx. apply Z.eqb_eq. by apply (below_spec n (fun x => f x =? g x)). Qed.

(** The masked bits of a byte: the same for all its values, or the value itself. *)
Ltac byte_bits :=
  repeat match goal with
  | H : 0 <= ?x < ?n |- context [Z.land (?k + ?x) ?m] =>
      let v := eval vm_compute in (Z.land k m) in
      first [ replace (Z.land (k + x) m) with v by (symmetry; apply (byte_fact n (fun y => Z.land (k + y) m) (fun _ => v)); [vm_compute; reflexivity|exact H])
            | replace (Z.land (k + x) m) with x by (symmetry; apply (byte_fact n (fun y => Z.land (k + y) m) (fun y => y)); [vm_compute; reflexivity|exact H]) ]
  end.

Lemma vec_get_app {A} (pre : list A) l k a : l !! k = Some a -> vec_get (pre ++ l) (length pre + k) = Ok a.
Proof. intros H. apply vec_get_Some. by rewrite lookup_app_r, Nat.add_comm, Nat.add_sub by lia. Qed.

Lemma is_continuation_app pre l k a : 0 <= a < 64 -> l !! k = Some (128 + a) -> is_continuation (pre ++ l) (length pre + k) = true.
Proof. intros Ha H. unfold is_continuation. rewrite lookup_app_r, Nat.add_comm, Nat.add_sub, H by lia. byte_bits. done. Qed.

Lemma low_bits_app pre l k a : 0 <= a < 64 -> l !! k = Some (128 + a) -> low_bits (pre ++ l) (length pre + k) = Ok a.
Proof. intros Ha H. unfold low_bits. rewrite (vec_get_app _ _ _ _ H). cbn [mbind outcome_bind]. f_equal. by byte_bits. Qed.

(** Digits of six bits, put together. *)
Lemma lor_digits t a n m : 0 <= n -> m = n + 6 -> 0 <= a < 64 -> Z.lor (Z.shiftl t m) (Z.shiftl a n) = Z.shiftl (t * 64 + a) n.
Proof. intros Hn -> Ha. rewrite (Z.add_comm n 6), <- Z.shiftl_shiftl, <- Z.shiftl_lor by lia. by rewrite lor_shift by lia. Qed.

Lemma cpt_from_utf8_encoded c bs pre rest : encoded c bs -> unicode_cpt_from_utf8 (pre ++ bs ++ rest) (length pre) = Ok (c, (length pre + length bs)%nat).
Proof.
  intros H. unfold unicode_cpt_from_utf8. rewrite <- (Nat.add_0_r (length pre)) at 1. destruct H as [t Ht|t a Ht Ha|t a b Ht Ha Hb|t a b d Ht Ha Hb Hd]; cbn [app length]; erewrite vec_get_app by done; cbn [mbind outcome_bind].
  - replace t with (0 + t) at 1 by lia. byte_bits. done.
  - byte_bits. cbn [Z.eqb Pos.eqb]. rewrite (is_continuation_app _ _ 1 a) by done. cbn [negb]. rewrite (low_bits_app _ _ 1 a) by done. cbn [mbind outcome_bind]. by rewrite lor_shift by lia.
  - byte_bits. cbn [Z.eqb Pos.eqb]. rewrite (is_continuation_app _ _ 1 a), (is_continuation_app _ _ 2 b) by done. cbn [negb orb]. rewrite (low_bits_app _ _ 1 a), (low_bits_app _ _ 2 b) by done. cbn [mbind outcome_bind].
    by rewrite (lor_digits t a 6 12), lor_shift by lia.
  - byte_bits. cbn [Z.eqb Pos.eqb]. rewrite (is_continuation_app _ _ 1 a), (is_continuation_app _ _ 2 b), (is_continuation_app _ _ 3 d) by done. cbn [negb orb].
    rewrite (low_bits_app _ _ 1 a), (low_bits_app _ _ 2 b), (low_bits_app _ _ 3 d) by done. cbn [mbind outcome_bind]. by rewrite (lor_digits t a 12 18), (lor_digits _ b 6 12), lor_shift by lia.
Qed.

Lemma encoded_length c bs : encoded c bs -> (0 < length bs)%nat.
Proof. destruct 1; cbn; lia. Qed.

(** ** Whole texts *)

Inductive encodes : list Z -> list Z -> Prop :=
  | encodes_nil : encodes [] []
  | encodes_cons c bs cps rest : encoded c bs -> encodes cps rest -> encodes (c :: cps) (bs ++ rest).

Lemma cpts_to_utf8_encodes cps : Forall (fun c => 0 <= c <= 1114111) cps -> exists bs, unicode_cpts_to_utf8 cps = Ok bs /\ encodes cps bs.
Proof.
  intros H. unfold unicode_cpts_to_utf8. enough (forall acc, exists bs, foldM (fun result cpt => bs ← unicode_cpt_to_utf8 cpt; Ok (result ++ bs)) cps acc = Ok (acc ++ bs) /\ encodes cps bs) as Hall by (apply (Hall [])).
  induction H as [|c cps Hc _ IH]; intros acc; [exists []; rewrite app_nil_r; split; [done|constructor]|]. destruct (cpt_to_utf8_encoded c Hc) as (bs & E & Hbs). destruct (IH (acc ++ bs)) as (rest & E' & Hrest).
  exists (bs ++ rest). cbn [foldM]. rewrite E. cbn [mbind outcome_bind]. rewrite E', app_assoc. split; [done|by constructor].
Qed.

Lemma cpts_loop_encodes cps bs : encodes cps bs -> forall fuel pre result, (length bs <= fuel)%nat -> cpts_loop fuel (pre ++ bs) (length pre) result = Ok (result ++ cps).
Proof.
  induction 1 as [|c bs cps rest Hc _ IH]; intros fuel pre result Hf.
  - destruct fuel; cbn [cpts_loop]; rewrite !app_nil_r, Nat.ltb_irrefl; done.
  - pose proof (encoded_length _ _ Hc) as Hl. rewrite length_app in Hf. destruct fuel as [|fuel]; [lia|]. cbn [cpts_loop]. replace (length pre <? length (pre ++ bs ++ rest))%nat with true by (symmetry; apply Nat.ltb_lt; rewrite !length_app; lia).
    cbn [negb]. rewrite (cpt_from_utf8_encoded _ _ _ _ Hc). rewrite app_assoc, <- length_app, IH by lia. by rewrite <- app_assoc.
Qed.
