(* ===== verification/Grammar.v ===== *)
(** * Grammars (src/src/llama-grammar.{h,cpp})

    A grammar constrains what is generated.  Its rules are lists of elements; a set of
    pushdown stacks of pointers into the rules says what may come next.  Accepting a
    character or a token advances the stacks, and candidates no stack can take are
    rejected.

    A pointer to an element is the rule it points into and the index there.  The back of a
    stack, its top, is the head of the list, and so is the back of the stacks still to do. *)

From S2P Require Export Prelude.
Open Scope nat_scope.

(** ** Elements *)

Inductive llama_gretype :=
  | GRETYPE_END | GRETYPE_ALT | GRETYPE_RULE_REF | GRETYPE_CHAR | GRETYPE_CHAR_NOT
  | GRETYPE_CHAR_RNG_UPPER | GRETYPE_CHAR_ALT | GRETYPE_CHAR_ANY | GRETYPE_TOKEN | GRETYPE_TOKEN_NOT.

#[global] Instance llama_gretype_eq_dec : EqDecision llama_gretype.
Proof. solve_decision. Defined.

Record llama_grammar_element := mk_elem { e_type : llama_gretype; e_value : Z }.

#[global] Instance llama_grammar_element_eq_dec : EqDecision llama_grammar_element.
Proof. solve_decision. Defined.

Notation llama_grammar_rule := (list llama_grammar_element).
Notation llama_grammar_rules := (list (list llama_grammar_element)).
Notation gpos := (nat * nat)%type.
Notation llama_grammar_stack := (list (nat * nat)).
Notation llama_grammar_stacks := (list (list (nat * nat))).

Definition has_type (t : llama_gretype) (e : llama_grammar_element) : bool := bool_decide (e_type e = t).

(** [pos[1]] *)
Definition pos_next (p : gpos) : gpos := (p.1, p.2 + 1).

Definition elem_at (rules : llama_grammar_rules) (p : gpos) : outcome llama_grammar_element :=
  rule ← vec_get rules p.1;
  vec_get rule p.2.

(** The elements from a pointer to the end of its rule. *)
Definition elems_from (rules : llama_grammar_rules) (p : gpos) : outcome llama_grammar_rule :=
  rule ← vec_get rules p.1;
  Ok (drop p.2 rule).

Definition llama_grammar_is_end_of_sequence (e : llama_grammar_element) : bool :=
  match e_type e with GRETYPE_END | GRETYPE_ALT => true | _ => false end.

Definition is_end_at (rules : llama_grammar_rules) (p : gpos) : outcome bool :=
  e ← elem_at rules p;
  Ok (llama_grammar_is_end_of_sequence e).

(** ** Characters and tokens *)

(** The [do] loop over a character class: whether one of its items has the character, and
    how many elements the class has. *)
Fixpoint match_items (l : llama_grammar_rule) (chr : Z) (found : bool) (n : nat) : outcome (bool * nat) :=
  match l with
  | e :: ((e1 :: l2) as l1) =>
      if has_type GRETYPE_CHAR_RNG_UPPER e1 then
        let found := found || (e_value e <=? chr)%Z && (chr <=? e_value e1)%Z in
        match l2 with
        | e2 :: _ => if has_type GRETYPE_CHAR_ALT e2 then match_items l2 chr found (n + 2) else Ok (found, n + 2)
        | [] => Err OutOfBounds
        end
      else
        let found := if has_type GRETYPE_CHAR_ANY e then true else found || (e_value e =? chr)%Z in
        if has_type GRETYPE_CHAR_ALT e1 then match_items l1 chr found (n + 1) else Ok (found, n + 1)
  | _ => Err OutOfBounds
  end.

Definition is_positive_char (e : llama_grammar_element) : bool := has_type GRETYPE_CHAR e || has_type GRETYPE_CHAR_ANY e.

Definition llama_grammar_match_char (rules : llama_grammar_rules) (pos : gpos) (chr : Z) : outcome (bool * gpos) :=
  e ← elem_at rules pos;
  _ ← assert_ (is_positive_char e || has_type GRETYPE_CHAR_NOT e);
  l ← elems_from rules pos;
  r ← match_items l chr false 0;
  Ok (eqb r.1 (is_positive_char e), (pos.1, pos.2 + r.2)).

(** The unfinished end of a text: the bits so far, and the bytes missing; -1: invalid. *)
Record llama_partial_utf8 := mk_partial { pu_value : Z; pu_n_remain : Z }.

Fixpoint match_partial_items (l : llama_grammar_rule) (positive : bool) (low high : Z) : outcome bool :=
  match l with
  | e :: ((e1 :: l2) as l1) =>
      if has_type GRETYPE_CHAR_RNG_UPPER e1 then
        if (e_value e <=? high)%Z && (low <=? e_value e1)%Z then Ok positive else
        match l2 with
        | e2 :: _ => if has_type GRETYPE_CHAR_ALT e2 then match_partial_items l2 positive low high else Ok (negb positive)
        | [] => Err OutOfBounds
        end
      else if has_type GRETYPE_CHAR_ANY e then Ok true
      else if (low <=? e_value e)%Z && (e_value e <=? high)%Z then Ok positive
      else if has_type GRETYPE_CHAR_ALT e1 then match_partial_items l1 positive low high
      else Ok (negb positive)
  | _ => Err OutOfBounds
  end.

(** The code points a partial sequence can be completed to. *)
Definition partial_range (p : llama_partial_utf8) : Z * Z :=
  let low := u32 (Z.shiftl (pu_value p) (pu_n_remain p * 6)) in
  let high := Z.lor low (Z.shiftl 1 (pu_n_remain p * 6) - 1) in
  (if (low =? 0)%Z then
     if (pu_n_remain p =? 2)%Z then 2048%Z else if (pu_n_remain p =? 3)%Z then 65536%Z else low
   else low, high).

Definition llama_grammar_match_partial_char (rules : llama_grammar_rules) (pos : gpos) (p : llama_partial_utf8) : outcome bool :=
  e ← elem_at rules pos;
  _ ← assert_ (is_positive_char e || has_type GRETYPE_CHAR_NOT e);
  if (pu_n_remain p <? 0)%Z || (pu_n_remain p =? 1)%Z && (pu_value p <? 2)%Z then Ok false else
  l ← elems_from rules pos;
  let '(low, high) := partial_range p in
  match_partial_items l (is_positive_char e) low high.

Definition is_token_element (e : llama_grammar_element) : bool := has_type GRETYPE_TOKEN e || has_type GRETYPE_TOKEN_NOT e.

(** Tokens are signed; the elements hold them as unsigned numbers. *)
Definition llama_grammar_match_token (e : llama_grammar_element) (token : Z) : outcome bool :=
  _ ← assert_ (is_token_element e);
  Ok (if has_type GRETYPE_TOKEN e then (e_value e =? u32 token)%Z else negb (e_value e =? u32 token)%Z).

(** ** Stacks *)

(** [if (!is_end_of_sequence(pos)) stack.push_back(pos)] *)
Definition push_unless_end (rules : llama_grammar_rules) (pos : gpos) (stack : llama_grammar_stack) : outcome llama_grammar_stack :=
  e ← is_end_at rules pos;
  Ok (if (e : bool) then stack else pos :: stack).

(** Where the definitions of a rule start. *)
Fixpoint alternate_starts (start i : nat) (l : llama_grammar_rule) : outcome (list nat) :=
  match l with
  | [] => Err OutOfBounds
  | e :: l =>
      if negb (llama_grammar_is_end_of_sequence e) then alternate_starts start (i + 1) l
      else if has_type GRETYPE_ALT e then rest ← alternate_starts (i + 1) (i + 1) l; Ok (start :: rest)
      else Ok [start]
  end.

(** One stack for each definition of the rule that [pos] refers to, in their order. *)
Definition expand_rule_ref (rules : llama_grammar_rules) (rule_id : Z) (pos : gpos) (stack : llama_grammar_stack) : outcome llama_grammar_stacks :=
  let r := Z.to_nat rule_id in
  rule ← vec_get rules r;
  starts ← alternate_starts 0 0 rule;
  mapM (fun start =>
    next_stack ← push_unless_end rules (pos_next pos) stack;
    push_unless_end rules (r, start) next_stack) starts.

(** Only if it is not a duplicate. *)
Definition add_stack (s : llama_grammar_stack) (new_stacks : llama_grammar_stacks) : llama_grammar_stacks :=
  if bool_decide (s ∈ new_stacks) then new_stacks else new_stacks ++ [s].

Fixpoint advance_loop (fuel : nat) (rules : llama_grammar_rules) (todo seen new_stacks : llama_grammar_stacks) : outcome llama_grammar_stacks :=
  match todo with
  | [] => Ok new_stacks
  | curr_stack :: todo =>
      match fuel with
      | 0 => Err OutOfFuel
      | S fuel =>
          if bool_decide (curr_stack ∈ seen) then advance_loop fuel rules todo seen new_stacks else
          let seen := curr_stack :: seen in
          match curr_stack with
          | [] => advance_loop fuel rules todo seen (add_stack [] new_stacks)
          | pos :: stack =>
              e ← elem_at rules pos;
              match e_type e with
              | GRETYPE_RULE_REF =>
                  next_stacks ← expand_rule_ref rules (e_value e) pos stack;
                  advance_loop fuel rules (rev next_stacks ++ todo) seen new_stacks
              | GRETYPE_CHAR | GRETYPE_CHAR_NOT | GRETYPE_CHAR_ANY | GRETYPE_TOKEN | GRETYPE_TOKEN_NOT =>
                  advance_loop fuel rules todo seen (add_stack curr_stack new_stacks)
              | _ => Err AssertFailed
              end
          end
      end
  end.

Definition llama_grammar_advance_stack (fuel : nat) (rules : llama_grammar_rules) (stack : llama_grammar_stack) (new_stacks : llama_grammar_stacks)
    : outcome llama_grammar_stacks :=
  advance_loop fuel rules [stack] [] new_stacks.

Definition llama_grammar_accept_chr (fuel : nat) (rules : llama_grammar_rules) (chr : Z) (new_stacks : llama_grammar_stacks) (stack : llama_grammar_stack)
    : outcome llama_grammar_stacks :=
  match stack with
  | [] => Ok new_stacks
  | pos :: stack =>
      e ← elem_at rules pos;
      if is_token_element e then Ok new_stacks else
      m ← llama_grammar_match_char rules pos chr;
      if negb m.1 then Ok new_stacks else
      new_stack ← push_unless_end rules m.2 stack;
      llama_grammar_advance_stack fuel rules new_stack new_stacks
  end.

(** [llama_grammar_accept], on the stacks. *)
Definition llama_grammar_accept (fuel : nat) (rules : llama_grammar_rules) (stacks : llama_grammar_stacks) (chr : Z) : outcome llama_grammar_stacks :=
  foldM (llama_grammar_accept_chr fuel rules chr) stacks [].

(** ** Candidates *)

(** [gc_offset] is where the pointer into the code points stands. *)
Record llama_grammar_candidate := mk_candidate {
  gc_index : nat;
  gc_code_points : list Z;
  gc_offset : nat;
  gc_partial : llama_partial_utf8;
  gc_id : Z
}.

Definition gc_char (tok : llama_grammar_candidate) : outcome Z := vec_get (gc_code_points tok) (gc_offset tok).
Definition gc_move (offset : nat) (tok : llama_grammar_candidate) : llama_grammar_candidate :=
  mk_candidate (gc_index tok) (gc_code_points tok) offset (gc_partial tok) (gc_id tok).

(** [true]: the candidate is rejected. *)
Definition reject_at_end (tok : llama_grammar_candidate) : outcome bool :=
  c ← gc_char tok;
  Ok (negb (c =? 0)%Z || negb (pu_n_remain (gc_partial tok) =? 0)%Z).

Definition reject_at_token (e : llama_grammar_element) (tok : llama_grammar_candidate) : outcome bool :=
  c ← gc_char tok;
  if (c =? 0)%Z then Ok (negb (pu_n_remain (gc_partial tok) =? 0)%Z)
  else ok ← llama_grammar_match_token e (gc_id tok); Ok (negb ok).

Inductive char_verdict := Reject | Keep | Drop.

(** At a character: rejected, to be looked at further, or done. *)
Definition char_step (rules : llama_grammar_rules) (pos : gpos) (tok : llama_grammar_candidate) : outcome char_verdict :=
  c ← gc_char tok;
  if (c =? 0)%Z then
    if (pu_n_remain (gc_partial tok) =? 0)%Z then Ok Drop else
    ok ← llama_grammar_match_partial_char rules pos (gc_partial tok);
    Ok (if (ok : bool) then Drop else Reject)
  else
    m ← llama_grammar_match_char rules pos c;
    Ok (if (m.1 : bool) then Keep else Reject).

(** [rejects] and [next_candidates] of the loop. *)
Definition char_split (rules : llama_grammar_rules) (pos : gpos) (acc : list llama_grammar_candidate * list llama_grammar_candidate)
    (tok : llama_grammar_candidate) : outcome (list llama_grammar_candidate * list llama_grammar_candidate) :=
  v ← char_step rules pos tok;
  Ok match v with
     | Reject => (acc.1 ++ [tok], acc.2)
     | Keep => (acc.1, acc.2 ++ [gc_move (gc_offset tok + 1) tok])
     | Drop => acc
     end.

Definition filterM (f : llama_grammar_candidate -> outcome bool) (l : list llama_grammar_candidate) : outcome (list llama_grammar_candidate) :=
  foldM (fun acc tok => b ← f tok; Ok (if (b : bool) then acc ++ [tok] else acc)) l [].

(** The rejects of one stack are the candidates of the next. *)
Definition reject_by (f : llama_grammar_stack -> list llama_grammar_candidate -> outcome (list llama_grammar_candidate))
    (stacks : llama_grammar_stacks) (candidates : list llama_grammar_candidate) : outcome (list llama_grammar_candidate) :=
  _ ← assert_ (negb (length stacks =? 0));
  if length candidates =? 0 then Ok [] else
  foldM (fun rejects stack => f stack rejects) stacks candidates.

(** [depth] bounds how many characters are looked at. *)
Fixpoint llama_grammar_reject_candidates_for_stack (depth fuel : nat) (rules : llama_grammar_rules) (stack : llama_grammar_stack)
    (candidates : list llama_grammar_candidate) : outcome (list llama_grammar_candidate) :=
  match stack with
  | [] => filterM reject_at_end candidates
  | stack_pos :: stack =>
      e ← elem_at rules stack_pos;
      if is_token_element e then filterM (reject_at_token e) candidates else
      match depth with
      | 0 => Err OutOfFuel
      | S depth =>
          acc ← foldM (char_split rules stack_pos) candidates ([], []);
          m ← llama_grammar_match_char rules stack_pos 0;
          stack_after ← push_unless_end rules m.2 stack;
          next_stacks ← llama_grammar_advance_stack fuel rules stack_after [];
          next_rejects ← reject_by (llama_grammar_reject_candidates_for_stack depth fuel rules) next_stacks acc.2;
          Ok (acc.1 ++ ((fun tok => gc_move (gc_offset tok - 1) tok) <$> next_rejects))
      end
  end.

Definition llama_grammar_reject_candidates (depth fuel : nat) (rules : llama_grammar_rules) (stacks : llama_grammar_stacks)
    (candidates : list llama_grammar_candidate) : outcome (list llama_grammar_candidate) :=
  reject_by (llama_grammar_reject_candidates_for_stack depth fuel rules) stacks candidates.
