(* ===== verification/GrammarState.v ===== *)
(** * Grammars: construction and tokens (src/src/llama-grammar.cpp)

    Decoding of pieces of text, the check for left recursion, the construction of a grammar
    from rules, and what a sampler asks of it: which candidates to reject, and to accept a
    token, at once or when a trigger has been seen.

    The vocabulary and the regular expressions of triggers are arguments. *)

From S2P Require Export Grammar.
Open Scope nat_scope.

(** ** Decoding *)

(** The length of a sequence by the high bits of its first byte; 0: none starts there. *)
Definition utf8_lookup : list nat := [1; 1; 1; 1; 1; 1; 1; 1; 0; 0; 0; 0; 2; 2; 3; 4].

(** [value = (value << 6) + (byte & 0x3F)] in 32 bits. *)
Definition utf8_add (value byte : Z) : Z := u32 (u32 (Z.shiftl value 6) + Z.land byte 63).

(** The [while] loop that continues a sequence, with a check of the bytes or without;
    [None]: an invalid byte.  A byte 0 ends the text. *)
Fixpoint utf8_continue (check : bool) (src : list Z) (value n_remain : Z) : option (list Z * Z * Z) :=
  match src with
  | [] => Some ([], value, n_remain)
  | b :: rest =>
      if (b =? 0)%Z || (n_remain <=? 0)%Z then Some (src, value, n_remain)
      else if check && negb (Z.shiftr b 6 =? 2)%Z then None
      else utf8_continue check rest (utf8_add value b) (n_remain - 1)
  end.

(** The sequences that follow; [None]: an invalid first byte, with [n_remain] -1. *)
Fixpoint utf8_sequences (fuel : nat) (src : list Z) (code_points : list Z) (value n_remain : Z) : outcome (option (list Z * llama_partial_utf8)) :=
  match src with
  | [] => Ok (Some (code_points ++ [0%Z], mk_partial value n_remain))
  | first_byte :: rest =>
      if (first_byte =? 0)%Z then Ok (Some (code_points ++ [0%Z], mk_partial value n_remain)) else
      match fuel with
      | 0 => Err OutOfFuel
      | S fuel =>
          len ← vec_get utf8_lookup (Z.to_nat (Z.shiftr first_byte 4));
          let n_remain := (Z.of_nat len - 1)%Z in
          if (n_remain <? 0)%Z then Ok None else
          let value := Z.land first_byte (Z.shiftl 1 (7 - n_remain) - 1) in
          match utf8_continue false rest value n_remain with
          | None => Ok None
          | Some (src, value, n_remain) =>
              utf8_sequences fuel src (if (n_remain =? 0)%Z then code_points ++ [value] else code_points) value n_remain
          end
      end
  end.

(** [decode_utf8]: the code points, ended by 0, and the unfinished end. *)
Definition decode_utf8 (src : list Z) (partial_start : llama_partial_utf8) : outcome (list Z * llama_partial_utf8) :=
  match utf8_continue true src (pu_value partial_start) (pu_n_remain partial_start) with
  | None => Ok ([0%Z], mk_partial 0 (-1))
  | Some (src, value, n_remain) =>
      let code_points := if (0 <? pu_n_remain partial_start)%Z && (n_remain =? 0)%Z then [value] else [] in
      r ← utf8_sequences (length src) src code_points value n_remain;
      Ok (default ([0%Z], mk_partial 0 (-1)) r)
  end.

(** ** Left recursion *)

Record recursion_state := mk_recursion { rules_visited : list bool; rules_in_progress : list bool; rules_may_be_empty : list bool }.

(** Whether some definition of the rule is empty. *)
Fixpoint has_empty_alternate (at_rule_start : bool) (l : llama_grammar_rule) : bool :=
  match l with
  | [] => false
  | e :: l =>
      if llama_grammar_is_end_of_sequence e then at_rule_start || has_empty_alternate true l
      else has_empty_alternate false l
  end.

(** The loop over the elements; [detect] is the call for another rule. *)
Fixpoint detect_in_rule (detect : nat -> recursion_state -> outcome (bool * recursion_state)) (recurse : bool) (l : llama_grammar_rule)
    (st : recursion_state) : outcome (bool * recursion_state) :=
  match l with
  | [] => Ok (false, st)
  | e :: l =>
      if has_type GRETYPE_RULE_REF e && recurse then
        r ← detect (Z.to_nat (e_value e)) st;
        let '(found, st) := r in
        if (found : bool) then Ok (true, st) else
        empty ← vec_get (rules_may_be_empty st) (Z.to_nat (e_value e));
        detect_in_rule detect empty l st
      else detect_in_rule detect (llama_grammar_is_end_of_sequence e) l st
  end.

Fixpoint llama_grammar_detect_left_recursion (fuel : nat) (rules : llama_grammar_rules) (rule_index : nat) (st : recursion_state)
    : outcome (bool * recursion_state) :=
  in_progress ← vec_get (rules_in_progress st) rule_index;
  if (in_progress : bool) then Ok (true, st) else
  match fuel with
  | 0 => Err OutOfFuel
  | S fuel =>
      rule ← vec_get rules rule_index;
      empty ← vec_get (rules_may_be_empty st) rule_index;
      let st := mk_recursion (rules_visited st) (<[rule_index := true]> (rules_in_progress st))
                  (<[rule_index := empty || has_empty_alternate true rule]> (rules_may_be_empty st)) in
      r ← detect_in_rule (llama_grammar_detect_left_recursion fuel rules) true rule st;
      let '(found, st) := r in
      if (found : bool) then Ok (true, st) else
      visited ← vec_set (rules_visited st) rule_index true;
      Ok (false, mk_recursion visited (<[rule_index := false]> (rules_in_progress st)) (rules_may_be_empty st))
  end.

(** ** Construction *)

(** The elements up to the first END, and an END. *)
Fixpoint copy_rule (l : llama_grammar_rule) : outcome llama_grammar_rule :=
  match l with
  | [] => Err OutOfBounds
  | e :: l => if has_type GRETYPE_END e then Ok [mk_elem GRETYPE_END 0] else rest ← copy_rule l; Ok (e :: rest)
  end.

(** Every reference is to a rule; a copied rule is never empty. *)
Definition refs_defined (rules : llama_grammar_rules) : bool :=
  forallb (fun rule => forallb (fun e => negb (has_type GRETYPE_RULE_REF e) || (Z.to_nat (e_value e) <? length rules)) rule) rules.

(** No rule starts itself; rules visited from an earlier one are skipped. *)
Definition left_recursion_in (rules : llama_grammar_rules) (acc : bool * recursion_state) (i : nat) : outcome (bool * recursion_state) :=
  let '(found, st) := acc in
  if (found : bool) then Ok acc else
  visited ← vec_get (rules_visited st) i;
  if (visited : bool) then Ok acc else llama_grammar_detect_left_recursion (S (length rules)) rules i st.

Definition has_left_recursion (rules : llama_grammar_rules) : outcome bool :=
  let none := replicate (length rules) false in
  r ← foldM (left_recursion_in rules) (seq 0 (length rules)) (false, mk_recursion none none none);
  Ok r.1.

(** One stack for each definition of the start rule. *)
Definition initial_stacks (fuel : nat) (rules : llama_grammar_rules) (start_rule_index : nat) : outcome llama_grammar_stacks :=
  rule ← vec_get rules start_rule_index;
  starts ← alternate_starts 0 0 rule;
  foldM (fun stacks start =>
    stack ← push_unless_end rules (start_rule_index, start) [];
    llama_grammar_advance_stack fuel rules stack stacks) starts [].

(** A trigger pattern is given by what it finds: where the constrained text starts. *)
Record llama_grammar := mk_grammar {
  g_rules : llama_grammar_rules;
  g_stacks : llama_grammar_stacks;
  g_partial : llama_partial_utf8;
  g_lazy : bool;
  g_awaiting_trigger : bool;
  g_trigger_buffer : list Z;
  g_trigger_buffer_positions : list (Z * (nat * nat));
  g_trigger_tokens : list Z;
  g_trigger_patterns : list (list Z -> option nat)
}.

(** [nullptr] when a rule is undefined or recursive on the left. *)
Definition llama_grammar_init_impl (fuel : nat) (rules : llama_grammar_rules) (start_rule_index : nat) : outcome (option llama_grammar) :=
  vec_rules ← mapM copy_rule rules;
  if negb (refs_defined vec_rules) then Ok None else
  found ← has_left_recursion vec_rules;
  if (found : bool) then Ok None else
  stacks ← initial_stacks fuel vec_rules start_rule_index;
  Ok (Some (mk_grammar vec_rules stacks (mk_partial 0 0) false false [] [] [] [])).

Definition set_stacks (stacks : llama_grammar_stacks) (p : llama_partial_utf8) (g : llama_grammar) : llama_grammar :=
  mk_grammar (g_rules g) stacks p (g_lazy g) (g_awaiting_trigger g) (g_trigger_buffer g) (g_trigger_buffer_positions g) (g_trigger_tokens g) (g_trigger_patterns g).

Definition set_trigger (awaiting : bool) (buffer : list Z) (positions : list (Z * (nat * nat))) (g : llama_grammar) : llama_grammar :=
  mk_grammar (g_rules g) (g_stacks g) (g_partial g) (g_lazy g) awaiting buffer positions (g_trigger_tokens g) (g_trigger_patterns g).

(** ** Accepting *)

Section accept.
(** Enough for every advance of a stack. *)
Context (fuel : nat).

(** Without the terminating 0. *)
Definition llama_grammar_accept_str (piece : list Z) : stx llama_grammar unit :=
  g ← stx_get;
  decoded ← stx_lift (decode_utf8 piece (g_partial g));
  stacks ← stx_lift (foldM (llama_grammar_accept fuel (g_rules g)) (removelast decoded.1) (g_stacks g));
  stx_put (set_stacks stacks decoded.2 g);;
  stx_lift (require_ RuntimeError (negb (length stacks =? 0))).

(** The characters of a token on one stack; the loop ends when no stack is left. *)
Fixpoint accept_chars (rules : llama_grammar_rules) (current_stacks : llama_grammar_stacks) (chrs : list Z) : outcome llama_grammar_stacks :=
  match chrs with
  | [] => Ok current_stacks
  | chr :: chrs =>
      next_stacks ← llama_grammar_accept fuel rules current_stacks chr;
      if length next_stacks =? 0 then Ok [] else accept_chars rules next_stacks chrs
  end.

Definition accept_token_stack (rules : llama_grammar_rules) (token : Z) (chrs : list Z) (stacks_new : llama_grammar_stacks) (stack : llama_grammar_stack)
    : outcome llama_grammar_stacks :=
  match stack with
  | [] => Ok stacks_new
  | pos :: rest =>
      e ← elem_at rules pos;
      if is_token_element e then
        ok ← llama_grammar_match_token e token;
        if negb ok then Ok stacks_new else
        new_stack ← push_unless_end rules (pos_next pos) rest;
        llama_grammar_advance_stack fuel rules new_stack stacks_new
      else
        surviving ← accept_chars rules [stack] chrs;
        Ok (foldl (fun acc s => add_stack s acc) stacks_new surviving)
  end.

Definition llama_grammar_accept_token (token : Z) (piece : list Z) : stx llama_grammar unit :=
  g ← stx_get;
  decoded ← stx_lift (decode_utf8 piece (g_partial g));
  stacks_new ← stx_lift (foldM (accept_token_stack (g_rules g) token (removelast decoded.1)) (g_stacks g) []);
  stx_put (set_stacks stacks_new decoded.2 g);;
  stx_lift (require_ RuntimeError (negb (length stacks_new =? 0))).

(** What is asked of the vocabulary. *)
Record llama_vocab := mk_vocab { token_to_piece : Z -> list Z; is_eog : Z -> bool }.
Context (vocab : llama_vocab).

(** [for] with an exception leaving the loop. *)
Fixpoint each {A} (f : A -> stx llama_grammar unit) (l : list A) : stx llama_grammar unit :=
  match l with [] => mret tt | a :: l => f a;; each f l end.

(** The tokens that end after [start], the first one from there on. *)
Definition replay_token (start : nat) (buffer : list Z) (x : Z * (nat * nat)) : stx llama_grammar unit :=
  let '(tok, (tok_start, tok_end)) := x in
  if tok_end <=? start then mret tt else
  let piece_start := if tok_start <? start then start else tok_start in
  let piece_len := tok_end - piece_start in
  llama_grammar_accept_token tok (take piece_len (drop piece_start buffer)).

(** The first pattern that is found. *)
Fixpoint try_patterns (patterns : list (list Z -> option nat)) : stx llama_grammar unit :=
  match patterns with
  | [] => mret tt
  | find :: patterns =>
      g ← stx_get;
      match find (g_trigger_buffer g) with
      | None => try_patterns patterns
      | Some start =>
          stx_modify (set_trigger false (g_trigger_buffer g) (g_trigger_buffer_positions g));;
          each (replay_token start (g_trigger_buffer g)) (g_trigger_buffer_positions g);;
          stx_modify (set_trigger false [] [])
      end
  end.

Definition llama_grammar_accept_impl (token : Z) : stx llama_grammar unit :=
  let piece := token_to_piece vocab token in
  g ← stx_get;
  if g_awaiting_trigger g then
    if bool_decide (token ∈ g_trigger_tokens g) then
      stx_modify (set_trigger false [] (g_trigger_buffer_positions g));;
      llama_grammar_accept_token token piece
    else
      let position := (length (g_trigger_buffer g), length (g_trigger_buffer g) + length piece) in
      stx_modify (set_trigger true (g_trigger_buffer g ++ piece) (g_trigger_buffer_positions g ++ [(token, position)]));;
      try_patterns (g_trigger_patterns g)
  else if is_eog vocab token then
    stx_lift (assert_ (existsb (fun s => length s =? 0) (g_stacks g)))
  else llama_grammar_accept_token token piece.

(** ** Candidates of a sampler *)

Record llama_token_data (L : Type) := mk_data { td_id : Z; td_logit : L }.
Arguments mk_data {L} _ _.
Arguments td_id {L} _.
Arguments td_logit {L} _.

Section apply.
Context {L : Type} (minus_infinity : L).

Definition forbid (i : nat) (data : list (llama_token_data L)) : list (llama_token_data L) :=
  alter (fun d => mk_data (td_id d) minus_infinity) i data.

(** One token: forbidden, or a candidate for the grammar. *)
Definition apply_token (g : llama_grammar) (allow_eog : bool) (acc : list (llama_token_data L) * list llama_grammar_candidate) (i : nat)
    : outcome (list (llama_token_data L) * list llama_grammar_candidate) :=
  let '(data, candidates) := acc in
  d ← vec_get data i;
  let id := td_id d in
  let piece := token_to_piece vocab id in
  if is_eog vocab id then Ok (if allow_eog then data else forbid i data, candidates)
  else if bool_decide (head piece = None) || bool_decide (head piece = Some 0%Z) then Ok (forbid i data, candidates)
  else
    decoded ← decode_utf8 piece (g_partial g);
    Ok (data, candidates ++ [mk_candidate i decoded.1 0 decoded.2 id]).

(** Enough depth for the longest candidate. *)
Definition candidates_depth (candidates : list llama_grammar_candidate) : nat :=
  S (foldr (fun tok n => Nat.max (length (gc_code_points tok)) n) 0 candidates).

Definition llama_grammar_apply_impl (g : llama_grammar) (data : list (llama_token_data L)) : outcome (list (llama_token_data L)) :=
  if g_awaiting_trigger g then Ok data else
  let allow_eog := existsb (fun s => length s =? 0) (g_stacks g) in
  acc ← foldM (apply_token g allow_eog) (seq 0 (length data)) (data, []);
  rejects ← llama_grammar_reject_candidates (candidates_depth acc.2) fuel (g_rules g) (g_stacks g) acc.2;
  Ok (foldl (fun data tok => forbid (gc_index tok) data) acc.1 rejects).
End apply.
End accept.
