(* ===== verification/GrammarUtf8.v ===== *)
(** * Grammars: decoding pieces of text

    The decoder of pieces agrees with a machine that takes one byte at a time, so it does
    not matter where a text is cut. *)

From S2P Require Export GrammarState Unicode.
Open Scope Z_scope.

Notation decoder := (Z * Z)%type.

(** What a decoder puts out when [n] bytes are still missing. *)
Definition put (v n : Z) : list Z := if n =? 0 then [v] else [].

(** [feeds d bytes out d']: bytes of well-formed sequences, one after the other. *)
Inductive feeds : decoder -> list Z -> list Z -> decoder -> Prop :=
  | feeds_nil d : feeds d [] [] d
  | feeds_more v n b bytes out d : 0 < n -> 128 <= b < 192 -> feeds (utf8_add v b, n - 1) bytes out d -> feeds (v, n) (b :: bytes) (put (utf8_add v b) (n - 1) ++ out) d
  | feeds_first v b len bytes out d : 0 < b < 256 -> utf8_lookup !! Z.to_nat (Z.shiftr b 4) = Some (S len) ->
      feeds (Z.land b (Z.shiftl 1 (7 - Z.of_nat len) - 1), Z.of_nat len) bytes out d ->
      feeds (v, 0) (b :: bytes) (put (Z.land b (Z.shiftl 1 (7 - Z.of_nat len) - 1)) (Z.of_nat len) ++ out) d.

Lemma feeds_remain d bytes out d' : feeds d bytes out d' -> 0 <= d.2 -> 0 <= d'.2.
Proof. induction 1; cbn [snd] in *; auto with lia. Qed.

(** ** Cutting and joining *)

Lemma feeds_app d b1 o1 d1 b2 o2 d2 : feeds d b1 o1 d1 -> feeds d1 b2 o2 d2 -> feeds d (b1 ++ b2) (o1 ++ o2) d2.
Proof.
  induction 1 as [d|v n b bytes out d Hn Hb _ IH|v b len bytes out d Hb Hl _ IH]; intros H; [done| |]; cbn [app]; rewrite <- app_assoc; [apply feeds_more; auto|apply feeds_first; auto].
Qed.

Lemma feeds_cut b1 : forall d b2 out d2, feeds d (b1 ++ b2) out d2 -> exists o1 d1 o2, feeds d b1 o1 d1 /\ feeds d1 b2 o2 d2 /\ out = o1 ++ o2.
Proof.
  induction b1 as [|b b1 IH]; intros d b2 out d2 H; [exists [], d, out; split; [constructor|done]|]. cbn [app] in H.
  inversion H as [|v n b' bytes out' d' Hn Hb Hf|v b' len bytes out' d' Hb Hl Hf]; subst; destruct (IH _ _ _ _ Hf) as (o1 & d1 & o2 & H1 & H2 & ->);
    eexists _, d1, o2; (split; [|split; [done|by rewrite app_assoc]]); [by apply feeds_more|by apply feeds_first].
Qed.

(** ** The decoder *)

Lemma continue_feeds check d bytes out d' : feeds d bytes out d' -> 0 <= d.2 -> exists rest v1 n1 out1,
  utf8_continue check bytes d.1 d.2 = Some (rest, v1, n1) /\ (length rest <= length bytes)%nat /\ feeds (v1, n1) rest out1 d' /\ (n1 = 0 \/ rest = []) /\ out = (if 0 <? d.2 then put v1 n1 else []) ++ out1.
Proof.
  induction 1 as [[v n]|v n b bytes out d Hn Hb Hf IH|v b len bytes out d Hb Hl Hf IH]; intros H0; cbn [fst snd utf8_continue] in *.
  - exists [], v, n, []. split; [done|]. split; [done|]. split; [constructor|]. split; [by right|]. rewrite app_nil_r. destruct (0 <? n) eqn:E; [|done]. unfold put. by replace (n =? 0) with false by lia.
  - replace (b =? 0) with false by lia. replace (n <=? 0) with false by lia. cbn [orb]. replace (Z.shiftr b 6 =? 2) with true by (rewrite Z.shiftr_div_pow2 by lia; symmetry; apply Z.eqb_eq; change (2 ^ 6) with 64; Z.to_euclidean_division_equations; lia).
    rewrite andb_false_r. destruct IH as (rest & v1 & n1 & out1 & E & Hlen & Hrest & Hor & ->); [lia|]. exists rest, v1, n1, out1. split; [done|]. split; [cbn [length]; lia|]. split; [done|]. split; [done|].
    replace (0 <? n) with true by lia. destruct (Z.eq_dec n 1) as [->|Hn1]; [|unfold put at 1; replace (n - 1 =? 0) with false by lia; by replace (0 <? n - 1) with true by lia].
    change (1 - 1) with 0 in *. assert (utf8_continue check bytes (utf8_add v b) 0 = Some (bytes, utf8_add v b, 0)) as E0 by (destruct bytes; [done|]; cbn [utf8_continue]; by rewrite orb_true_r).
    rewrite E0 in E. injection E as <- <- <-. done.
  - replace (b =? 0) with false by lia. change (0 <=? 0) with true. cbn [orb]. exists (b :: bytes), v, 0, (put (Z.land b (Z.shiftl 1 (7 - Z.of_nat len) - 1)) (Z.of_nat len) ++ out). split; [done|]. split; [done|]. split; [by apply feeds_first|]. split; [by left|done].
Qed.

Lemma sequences_feeds fuel : forall bytes v n out d' cps, feeds (v, n) bytes out d' -> n = 0 \/ bytes = [] -> 0 <= n -> (length bytes <= fuel)%nat ->
  utf8_sequences fuel bytes cps v n = Ok (Some ((cps ++ out) ++ [0], mk_partial d'.1 d'.2)).
Proof.
  induction fuel as [|fuel IH]; intros bytes v n out d' cps H Hor Hn Hf.
  - destruct bytes; [|cbn in Hf; lia]. inversion H; subst. cbn [utf8_sequences fst snd]. by rewrite app_nil_r.
  - destruct bytes as [|b bytes]; [inversion H; subst; cbn [utf8_sequences fst snd]; by rewrite app_nil_r|]. destruct Hor as [->|]; [|done]. cbn [length] in Hf.
    inversion H as [|v0 n0 b' bytes' out' d0 Hn0|v0 b' len bytes' out' d0 Hb Hl Hfe]; subst; [lia|]. cbn [utf8_sequences]. replace (b =? 0) with false by lia. rewrite (vec_get_Some _ _ _ Hl). cbn [mbind outcome_bind].
    replace (Z.of_nat (S len) - 1) with (Z.of_nat len) by (rewrite Nat2Z.inj_succ; lia). replace (Z.of_nat len <? 0) with false by (symmetry; apply Z.ltb_ge; lia). cbv zeta. set (v1 := Z.land b _) in *.
    destruct (continue_feeds false _ _ _ _ Hfe) as (rest & v2 & n2 & out1 & E & Hlen & Hrest & Hor & ->); [cbn [snd]; lia|]. cbn [fst snd] in E. rewrite E.
    assert (0 <= n2) as Hn2 by (destruct Hor as [-> | ->]; [done|]; inversion Hrest; subst; pose proof (feeds_remain _ _ _ _ Hfe); cbn [snd] in *; lia).
    rewrite (IH _ _ _ _ _ _ Hrest Hor Hn2) by lia. cbn [snd].
    enough ((if n2 =? 0 then cps ++ [v2] else cps) ++ out1 = cps ++ put v1 (Z.of_nat len) ++ (if 0 <? Z.of_nat len then put v2 n2 else []) ++ out1) as -> by done.
    destruct (Z.ltb_spec 0 (Z.of_nat len)) as [Hpos|Hz].
    + unfold put. replace (Z.of_nat len =? 0) with false by (symmetry; apply Z.eqb_neq; lia). by destruct (n2 =? 0); rewrite <- ?app_assoc.
    + assert (len = 0%nat) as -> by lia. assert (utf8_continue false bytes v1 0 = Some (bytes, v1, 0)) as E0 by (destruct bytes; [done|]; cbn [utf8_continue]; by rewrite orb_true_r).
      change (Z.of_nat 0) with 0 in E. rewrite E0 in E. injection E as <- <- <-. unfold put. cbn. by rewrite <- app_assoc.
Qed.

Lemma decode_feeds p bytes out d' : feeds (pu_value p, pu_n_remain p) bytes out d' -> 0 <= pu_n_remain p -> decode_utf8 bytes p = Ok (out ++ [0], mk_partial d'.1 d'.2).
Proof.
  intros H Hn. unfold decode_utf8. destruct (continue_feeds true _ _ _ _ H Hn) as (rest & v1 & n1 & out1 & E & Hlen & Hrest & Hor & ->). cbn [fst snd] in *. rewrite E.
  assert (0 <= n1) as Hn1. { destruct Hor as [->|E1]; [done|]. rewrite E1 in Hrest. inversion Hrest; subst. pose proof (feeds_remain _ _ _ _ H Hn). done. }
  rewrite (sequences_feeds (length rest) _ _ _ _ _ _ Hrest Hor Hn1) by done. cbn [mbind outcome_bind default]. unfold put. destruct (0 <? pu_n_remain p), (n1 =? 0); done.
Qed.

(** ** Encoded texts *)

Lemma utf8_add_digit v a : 0 <= v < 2 ^ 20 -> 0 <= a < 64 -> utf8_add v (128 + a) = v * 64 + a.
Proof.
  intros Hv Ha. unfold utf8_add. byte_bits. rewrite Z.shiftl_mul_pow2 by lia. change (2 ^ 6) with 64. change (2 ^ 20) with 1048576 in Hv. rewrite !u32_id by (unfold UINT32_MAX; rewrite ?u32_id; unfold UINT32_MAX; lia). done.
Qed.

Lemma feeds_digit v n a bytes out d : 0 < n -> 0 <= v < 2 ^ 20 -> 0 <= a < 64 -> feeds (v * 64 + a, n - 1) bytes out d -> feeds (v, n) (128 + a :: bytes) (put (v * 64 + a) (n - 1) ++ out) d.
Proof. intros Hn Hv Ha H. rewrite <- (utf8_add_digit v a Hv Ha) in *. apply feeds_more; [done|lia|done]. Qed.

(** The first byte of a sequence of [S len] bytes, its value in the low bits. *)
Lemma feeds_lead v k m len t bytes out d : 0 <= t < m -> 0 <= k -> k + m <= 256 -> 0 < k + t ->
  below m (fun x => bool_decide (utf8_lookup !! Z.to_nat (Z.shiftr (k + x) 4) = Some (S len)) && (Z.land (k + x) (Z.shiftl 1 (7 - Z.of_nat len) - 1) =? x)) = true ->
  feeds (t, Z.of_nat len) bytes out d -> feeds (v, 0) (k + t :: bytes) (put t (Z.of_nat len) ++ out) d.
Proof.
  intros Ht Hk Hm Hpos Hb H. pose proof (below_spec _ _ Hb t Ht) as [E1 E2]%andb_true_iff. apply bool_decide_eq_true in E1. apply Z.eqb_eq in E2. rewrite <- E2 in H at 1. rewrite <- E2 at 2. apply feeds_first; [lia|done|done].
Qed.

Lemma encoded_feeds c bs v : encoded c bs -> 0 < c -> feeds (v, 0) bs [c] (c, 0).
Proof.
  intros H Hc. destruct H as [t Ht|t a Ht Ha|t a b Ht Ha Hb|t a b d Ht Ha Hb Hd].
  - change [t] with (put t (Z.of_nat 0) ++ []) at 2. replace t with (0 + t) at 1 by lia. apply (feeds_lead v 0 128); try lia; [vm_compute; reflexivity|constructor].
  - change [t * 64 + a] with (put t (Z.of_nat 1) ++ put (t * 64 + a) (Z.of_nat 1 - 1) ++ []). apply (feeds_lead v 192 32); try lia; [vm_compute; reflexivity|].
    apply feeds_digit; try lia. constructor.
  - set (c := (t * 64 + a) * 64 + b). change [c] with (put t (Z.of_nat 2) ++ put (t * 64 + a) (Z.of_nat 2 - 1) ++ put c (Z.of_nat 2 - 1 - 1) ++ []). apply (feeds_lead v 224 16); try lia; [vm_compute; reflexivity|].
    do 2 (apply feeds_digit; try lia). constructor.
  - set (c := ((t * 64 + a) * 64 + b) * 64 + d). change [c] with (put t (Z.of_nat 3) ++ put (t * 64 + a) (Z.of_nat 3 - 1) ++ put ((t * 64 + a) * 64 + b) (Z.of_nat 3 - 1 - 1) ++ put c (Z.of_nat 3 - 1 - 1 - 1) ++ []). apply (feeds_lead v 240 8); try lia; [vm_compute; reflexivity|].
    do 3 (apply feeds_digit; try lia). constructor.
Qed.

Lemma encodes_feeds cps bs : encodes cps bs -> Forall (fun c => 0 < c) cps -> forall v, exists v', feeds (v, 0) bs cps (v', 0).
Proof.
  induction 1 as [|c bs cps rest Hc _ IH]; intros H v; [exists v; constructor|]. apply Forall_cons in H as [Hpos H]. destruct (IH H c) as (v' & Hf). exists v'.
  change (c :: cps) with ([c] ++ cps). eapply feeds_app; [by apply encoded_feeds|done].
Qed.

(** The pieces of a text one after the other, as [llama_grammar_accept_str] decodes them:
    each with what the one before left, without its terminating 0. *)
Definition decode_pieces (pieces : list (list Z)) (p : llama_partial_utf8) : outcome (list Z * llama_partial_utf8) :=
  foldM (fun acc piece => d ← decode_utf8 piece acc.2; Ok (acc.1 ++ removelast d.1, d.2)) pieces ([], p).

Lemma pieces_feeds pieces : forall p acc out d, feeds (pu_value p, pu_n_remain p) (concat pieces) out d -> 0 <= pu_n_remain p ->
  foldM (fun acc piece => d ← decode_utf8 piece acc.2; Ok (acc.1 ++ removelast d.1, d.2)) pieces (acc, p) = Ok (acc ++ out, mk_partial d.1 d.2).
Proof.
  induction pieces as [|piece pieces IH]; intros p acc out d H Hn; cbn [concat] in H.
  - inversion H; subst. cbn [foldM fst snd]. rewrite app_nil_r. by destruct p.
  - apply feeds_cut in H as (o1 & [v1 n1] & o2 & H1 & H2 & ->). cbn [foldM snd]. rewrite (decode_feeds _ _ _ _ H1 Hn). cbn [mbind outcome_bind fst snd]. rewrite removelast_last, app_assoc.
    apply (IH (mk_partial v1 n1)); [done|]. cbn [pu_n_remain]. by apply (feeds_remain _ _ _ _ H1).
Qed.
