(* ===== verification/GrammarLang.v ===== *)
(** * Grammars: the language of rules and stacks

    What the elements mean, without stacks: a rule derives the words of its definitions, a
    definition the concatenation of what its elements derive, a character class one
    character and a token element one token.  Well-formed rules, and the functions that
    walk over their elements. *)

From S2P Require Export GrammarState.
Open Scope nat_scope.

(** A generated text, as the grammar sees it. *)
Inductive gsym := Chr (c : Z) | Tok (t : Z).
Notation gword := (list gsym).

(** ** Character classes *)

Inductive class_item := Range (lo hi : Z) | Single (c : Z) | Anything.

Definition item_has (c : Z) (i : class_item) : bool :=
  match i with Range lo hi => (lo <=? c)%Z && (c <=? hi)%Z | Single v => (v =? c)%Z | Anything => true end.

(** The first item, and the elements after it. *)
Definition first_item (e : llama_grammar_element) (l : llama_grammar_rule) : class_item * llama_grammar_rule :=
  match l with
  | e1 :: l1 => if has_type GRETYPE_CHAR_RNG_UPPER e1 then (Range (e_value e) (e_value e1), l1)
                else (if has_type GRETYPE_CHAR_ANY e then Anything else Single (e_value e), l)
  | [] => (Single (e_value e), l)
  end.

(** [char_class l items after]: a class stands at the beginning of [l]. *)
Inductive char_class : llama_grammar_rule -> list class_item -> llama_grammar_rule -> Prop :=
  | class_last e l i a after : first_item e l = (i, a :: after) -> e_type a <> GRETYPE_CHAR_ALT -> e_type a <> GRETYPE_CHAR_RNG_UPPER -> char_class (e :: l) [i] (a :: after)
  | class_more e l i a l1 items after : first_item e l = (i, a :: l1) -> e_type a = GRETYPE_CHAR_ALT -> char_class (a :: l1) items after ->
      char_class (e :: l) (i :: items) after.

Definition class_start (e : llama_grammar_element) : bool := is_positive_char e || has_type GRETYPE_CHAR_NOT e.

(** An inverse class has the characters its items do not have. *)
Definition class_has (e : llama_grammar_element) (items : list class_item) (c : Z) : bool :=
  eqb (existsb (item_has c) items) (is_positive_char e).

Definition token_has (e : llama_grammar_element) (t : Z) : bool :=
  if has_type GRETYPE_TOKEN e then (e_value e =? u32 t)%Z else negb (e_value e =? u32 t)%Z.

(** ** Derivation *)

(** The definitions after the first one: what follows an ALT. *)
Fixpoint more_alternates (l : llama_grammar_rule) : list llama_grammar_rule :=
  match l with
  | [] => []
  | e :: l => if has_type GRETYPE_ALT e then l :: more_alternates l else more_alternates l
  end.

Definition alternates (rule : llama_grammar_rule) : list llama_grammar_rule := rule :: more_alternates rule.

Section rules.
Context (rules : llama_grammar_rules).

(** What the elements up to the end of the definition derive. *)
Inductive derives : llama_grammar_rule -> gword -> Prop :=
  | derives_end e l : llama_grammar_is_end_of_sequence e = true -> derives (e :: l) []
  | derives_class e l items after c w : class_start e = true -> char_class (e :: l) items after -> class_has e items c = true ->
      derives after w -> derives (e :: l) (Chr c :: w)
  | derives_token e l t w : is_token_element e = true -> token_has e t = true -> derives l w -> derives (e :: l) (Tok t :: w)
  | derives_ref e l rule alt w1 w2 : e_type e = GRETYPE_RULE_REF -> rules !! Z.to_nat (e_value e) = Some rule -> alt ∈ alternates rule ->
      derives alt w1 -> derives l w2 -> derives (e :: l) (w1 ++ w2).

Definition rule_derives (r : nat) (w : gword) : Prop := exists rule alt, rules !! r = Some rule /\ alt ∈ alternates rule /\ derives alt w.

(** The language of a stack: its elements, from the top, one after the other. *)
Fixpoint stack_lang (s : llama_grammar_stack) (w : gword) : Prop :=
  match s with
  | [] => w = []
  | p :: s => exists rule w1 w2, rules !! p.1 = Some rule /\ w = w1 ++ w2 /\ derives (drop p.2 rule) w1 /\ stack_lang s w2
  end.

Definition stacks_lang (ss : llama_grammar_stacks) (w : gword) : Prop := exists s, s ∈ ss /\ stack_lang s w.

(** ** Well-formed rules *)

(** Definitions separated by ALT and closed by one END; references are defined; classes
    are complete. *)
Inductive seq_wf : llama_grammar_rule -> Prop :=
  | wf_end e : e_type e = GRETYPE_END -> seq_wf [e]
  | wf_alt e l : e_type e = GRETYPE_ALT -> seq_wf l -> seq_wf (e :: l)
  | wf_ref e l : e_type e = GRETYPE_RULE_REF -> Z.to_nat (e_value e) < length rules -> seq_wf l -> seq_wf (e :: l)
  | wf_token e l : is_token_element e = true -> seq_wf l -> seq_wf (e :: l)
  | wf_class e l items after : class_start e = true -> char_class (e :: l) items after -> seq_wf after -> seq_wf (e :: l).

Definition rules_wf : Prop := Forall seq_wf rules.

(** A pointer on a stack: to the start of an element, never to an end. *)
Definition pos_ok (p : gpos) : Prop := exists rule e l, rules !! p.1 = Some rule /\ drop p.2 rule = e :: l /\ seq_wf (e :: l) /\ llama_grammar_is_end_of_sequence e = false.
Definition stack_ok (s : llama_grammar_stack) : Prop := Forall pos_ok s.
Definition stacks_ok (ss : llama_grammar_stacks) : Prop := Forall stack_ok ss.
End rules.

(** ** Types of elements *)

Lemma has_type_true t e : has_type t e = true <-> e_type e = t.
Proof. apply bool_decide_eq_true. Qed.

Lemma has_type_false t e : has_type t e = false <-> e_type e <> t.
Proof. apply bool_decide_eq_false. Qed.

Lemma is_end_true e : llama_grammar_is_end_of_sequence e = true <-> e_type e = GRETYPE_END \/ e_type e = GRETYPE_ALT.
Proof. unfold llama_grammar_is_end_of_sequence. destruct (e_type e); naive_solver. Qed.

Lemma class_start_type e : class_start e = true <-> e_type e = GRETYPE_CHAR \/ e_type e = GRETYPE_CHAR_ANY \/ e_type e = GRETYPE_CHAR_NOT.
Proof. unfold class_start, is_positive_char. rewrite !orb_true_iff, !has_type_true. tauto. Qed.

Lemma token_type e : is_token_element e = true <-> e_type e = GRETYPE_TOKEN \/ e_type e = GRETYPE_TOKEN_NOT.
Proof. unfold is_token_element. by rewrite orb_true_iff, !has_type_true. Qed.

(** Decide the kind of an element from what is known of its type. *)
Ltac gtypes :=
  try match goal with |- ~ _ => intros ? end; rewrite ?has_type_true, ?has_type_false, ?is_end_true, ?class_start_type, ?token_type in *; repeat (destruct_or! || destruct_and!); simplify_eq; try congruence.

(** ** Walking over elements *)

Lemma first_item_after e l i rest : first_item e l = (i, rest) -> l = rest \/ exists e1, e_type e1 = GRETYPE_CHAR_RNG_UPPER /\ l = e1 :: rest.
Proof.
  unfold first_item. destruct l as [|e1 l1]; [intros [= _ <-]; by left|]. destruct (has_type _ e1) eqn:E; intros [= _ <-]; [|by left].
  right. exists e1. by apply has_type_true in E.
Qed.

Lemma match_items_more e l i a l1 c found n : first_item e l = (i, a :: l1) ->
  match_items (e :: l) c found n = if has_type GRETYPE_CHAR_ALT a then match_items (a :: l1) c (found || item_has c i) (n + (length l - length l1))
                                   else Ok (found || item_has c i, n + (length l - length l1)).
Proof.
  unfold first_item. destruct l as [|e1 l2]; [done|]. destruct (has_type GRETYPE_CHAR_RNG_UPPER e1) eqn:E1.
  - intros [= <- ->]. simpl match_items at 1. rewrite E1. cbn [length item_has]. by replace (S (S (length l1)) - length l1) with 2 by lia.
  - intros [= <- -> ->]. simpl match_items at 1. rewrite E1. cbn [length]. replace (S (length l1) - length l1) with 1 by lia.
    destruct (has_type GRETYPE_CHAR_ANY e); cbn [item_has]; by rewrite ?orb_true_r.
Qed.

Lemma match_items_ok l items after c found n : char_class l items after ->
  match_items l c found n = Ok (found || existsb (item_has c) items, n + (length l - length after)) /\ length after < length l /\ after = drop (length l - length after) l.
Proof.
  intros H. revert found n. induction H as [e l i a after E Ha Hr|e l i a l1 items after E Ha H IH]; intros found n; rewrite (match_items_more _ _ _ _ _ _ _ _ E); pose proof (first_item_after _ _ _ _ E) as Hf.
  - rewrite (proj2 (has_type_false _ _) Ha). cbn [existsb]. rewrite orb_false_r. destruct Hf as [->|(e1 & _ & ->)]; cbn [length drop]; (split; [do 2 f_equal; lia|]; split; [lia|]).
    + by replace (S (S (length after)) - S (length after)) with 1 by lia.
    + by replace (S (S (S (length after))) - S (length after)) with 2 by lia.
  - rewrite (proj2 (has_type_true _ _) Ha). destruct (IH (found || item_has c i) (n + (length l - length l1))) as (-> & Hlt & Hd). cbn [existsb]. rewrite <- orb_assoc. cbn [length] in *.
    destruct Hf as [->|(e1 & _ & ->)]; cbn [length]; (split; [do 2 f_equal; lia|]; split; [lia|]).
    + replace (S (S (length l1)) - length after) with (S (S (length l1) - length after)) by lia. done.
    + replace (S (S (S (length l1))) - length after) with (S (S (S (length l1) - length after))) by lia. done.
Qed.

(** A class has no ALT and no END. *)
Lemma class_prefix l items after : char_class l items after -> llama_grammar_is_end_of_sequence (default (mk_elem GRETYPE_CHAR 0) (head l)) = false ->
  exists pre, l = pre ++ after /\ Forall (fun e => llama_grammar_is_end_of_sequence e = false) pre.
Proof.
  intros H Hs. assert (forall e l i rest, llama_grammar_is_end_of_sequence e = false -> first_item e l = (i, rest) -> exists pre, e :: l = pre ++ rest /\ Forall (fun e => llama_grammar_is_end_of_sequence e = false) pre) as Hf.
  { intros e l' i rest He [->|(e1 & H1 & ->)]%first_item_after; [exists [e]; split; [done|by constructor]|]. exists [e; e1]. split; [done|]. constructor; [done|]. constructor; [|done].
    unfold llama_grammar_is_end_of_sequence. by rewrite H1. }
  induction H as [e l i a after E Ha Hr|e l i a l1 items after E Ha H IH]; cbn [head default] in Hs.
  - by apply (Hf e l i).
  - destruct (Hf e l i (a :: l1) Hs E) as (pre & -> & Hp). destruct IH as (pre' & -> & Hp'); [cbn; unfold llama_grammar_is_end_of_sequence; by rewrite Ha|].
    exists (pre ++ pre'). split; [by rewrite <- app_assoc|by apply Forall_app].
Qed.

Lemma class_start_no_end e : class_start e = true -> llama_grammar_is_end_of_sequence e = false.
Proof. intros H. apply not_true_iff_false. gtypes. Qed.

Lemma more_alternates_skip pre l : Forall (fun e => llama_grammar_is_end_of_sequence e = false) pre -> more_alternates (pre ++ l) = more_alternates l.
Proof.
  induction 1 as [|e pre He _ IH]; [done|]. cbn [app more_alternates]. rewrite (proj2 (has_type_false _ _)); [done|]. intros Ht. apply not_true_iff_false in He. apply He, is_end_true. by right.
Qed.

Lemma more_alternates_class l items after : char_class l items after -> class_start (default (mk_elem GRETYPE_CHAR 0) (head l)) = true -> more_alternates l = more_alternates after.
Proof. intros H Hs. destruct (class_prefix _ _ _ H) as (pre & -> & Hp); [by apply class_start_no_end|]. by apply more_alternates_skip. Qed.

Section wf.
Context (rules : llama_grammar_rules).

Lemma more_alternates_wf l : seq_wf rules l -> Forall (seq_wf rules) (more_alternates l).
Proof.
  induction 1 as [e He|e l He Hl IH|e l He Hr Hl IH|e l He Hl IH|e l items after He Hc Hl IH]; cbn [more_alternates].
  - by rewrite (proj2 (has_type_false GRETYPE_ALT e)) by congruence.
  - rewrite (proj2 (has_type_true GRETYPE_ALT e)) by done. by constructor.
  - by rewrite (proj2 (has_type_false GRETYPE_ALT e)) by congruence.
  - rewrite (proj2 (has_type_false GRETYPE_ALT e)); [done|]. gtypes.
  - change (Forall (seq_wf rules) (more_alternates (e :: l))). by rewrite (more_alternates_class _ _ _ Hc).
Qed.

Lemma alternates_wf rule : seq_wf rules rule -> Forall (seq_wf rules) (alternates rule).
Proof. intros H. constructor; [done|by apply more_alternates_wf]. Qed.

Lemma seq_wf_nonempty l : seq_wf rules l -> exists e l', l = e :: l'.
Proof. destruct 1; eauto. Qed.

(** After a class comes an element of its own. *)
Lemma seq_wf_after e l items after : class_start e = true -> char_class (e :: l) items after -> seq_wf rules (e :: l) -> seq_wf rules after.
Proof.
  intros He Hc Hl. inversion Hl as [e' Ht|e' l' Ht|e' l' Ht|e' l' Ht|e' l' items' after' _ Hc' Ha]; subst; try (by gtypes).
  destruct (match_items_ok _ _ _ 0 false 0 Hc) as (E1 & L1 & D1). destruct (match_items_ok _ _ _ 0 false 0 Hc') as (E2 & L2 & D2). rewrite E1 in E2. injection E2 as _ E. cbn [length] in *.
  assert (length after = length after') as El by lia. rewrite D1, El, <- D2. done.
Qed.
End wf.
