(* ===== verification/GrammarAdvance.v ===== *)
(** * Grammars: advancing stacks

    Replacing a reference on top of a stack by the definitions of its rule does not change
    the language; when the loop of llama_grammar_advance_stack ends, the stacks it found
    have the language of the stack it was given, and each of them is empty or has a
    character or token element on top. *)

From S2P Require Export GrammarLang.
Open Scope nat_scope.

Section advance.
Context (rules : llama_grammar_rules) (Hwf : rules_wf rules).

(** ** Pointers *)

(** What stands at a pointer. *)
Definition suffix_at (p : gpos) (l : llama_grammar_rule) : Prop := exists rule, rules !! p.1 = Some rule /\ drop p.2 rule = l.

Lemma suffix_elem p e l : suffix_at p (e :: l) -> elem_at rules p = Ok e.
Proof.
  intros (rule & Hr & Hd). unfold elem_at. rewrite (vec_get_Some _ _ _ Hr). cbn [mbind outcome_bind]. apply vec_get_Some.
  rewrite <- (Nat.add_0_r p.2), <- lookup_drop, Hd. done.
Qed.

Lemma suffix_from p l : suffix_at p l -> elems_from rules p = Ok l.
Proof. intros (rule & Hr & <-). unfold elems_from. by rewrite (vec_get_Some _ _ _ Hr). Qed.

Lemma suffix_next p e l : suffix_at p (e :: l) -> suffix_at (pos_next p) l.
Proof. intros (rule & Hr & Hd). exists rule. split; [done|]. cbn [pos_next fst snd]. rewrite <- drop_drop, Hd. done. Qed.

Lemma suffix_skip p l n : suffix_at p l -> suffix_at (p.1, p.2 + n) (drop n l).
Proof. intros (rule & Hr & <-). exists rule. split; [done|]. cbn [fst snd]. by rewrite drop_drop. Qed.

(** [push_unless_end] on a pointer into a rule. *)
Definition pushed (p : gpos) (l : llama_grammar_rule) (s : llama_grammar_stack) : llama_grammar_stack :=
  match l with e :: _ => if llama_grammar_is_end_of_sequence e then s else p :: s | [] => s end.

Lemma push_ok p l s : suffix_at p l -> seq_wf rules l -> push_unless_end rules p s = Ok (pushed p l s).
Proof.
  intros Hp Hl. destruct (seq_wf_nonempty _ _ Hl) as (e & l' & ->). unfold push_unless_end, is_end_at. rewrite (suffix_elem _ _ _ Hp). cbn [mbind outcome_bind pushed].
  by destruct (llama_grammar_is_end_of_sequence e).
Qed.

Lemma pushed_valid p l s : suffix_at p l -> seq_wf rules l -> stack_ok rules s -> stack_ok rules (pushed p l s).
Proof.
  intros (rule & Hr & Hd) Hl Hs. destruct (seq_wf_nonempty _ _ Hl) as (e & l' & ->). cbn [pushed]. destruct (llama_grammar_is_end_of_sequence e) eqn:Ee; [done|].
  constructor; [|done]. exists rule, e, l'. by split_and!.
Qed.

Lemma derives_at_end e l w : llama_grammar_is_end_of_sequence e = true -> derives rules (e :: l) w -> w = [].
Proof. intros He H. apply is_end_true in He. inversion H; subst; try done; gtypes. Qed.

Lemma pushed_lang p l s w : suffix_at p l -> seq_wf rules l ->
  stack_lang rules (pushed p l s) w <-> exists w1 w2, w = w1 ++ w2 /\ derives rules l w1 /\ stack_lang rules s w2.
Proof.
  intros (rule & Hr & Hd) Hl. destruct (seq_wf_nonempty _ _ Hl) as (e & l' & ->). cbn [pushed]. destruct (llama_grammar_is_end_of_sequence e) eqn:Ee.
  - split; [intros H; exists [], w; split; [done|]; split; [by constructor|done]|]. intros (w1 & w2 & -> & H1 & H2). by rewrite (derives_at_end _ _ _ Ee H1).
  - cbn [stack_lang]. split.
    + intros (rule' & w1 & w2 & Hr' & -> & H1 & H2). assert (rule' = rule) as -> by congruence. rewrite Hd in H1. by exists w1, w2.
    + intros (w1 & w2 & -> & H1 & H2). exists rule, w1, w2. rewrite Hd. done.
Qed.

(** ** Expanding a reference *)

Lemma alternate_starts_skip pre l start i : Forall (fun e => llama_grammar_is_end_of_sequence e = false) pre ->
  alternate_starts start i (pre ++ l) = alternate_starts start (i + length pre) l.
Proof.
  intros H. revert i. induction H as [|e pre He _ IH]; intros i; [by rewrite Nat.add_0_r|]. cbn [app alternate_starts]. rewrite He. cbn [negb]. rewrite IH. f_equal. simpl. lia.
Qed.

Lemma alternate_starts_ok l : seq_wf rules l -> forall pre start,
  exists js, alternate_starts start (length pre) l = Ok (start :: js) /\ (fun j => drop j (pre ++ l)) <$> js = more_alternates l.
Proof.
  assert (forall e l, llama_grammar_is_end_of_sequence e = false -> (forall pre start, exists js, alternate_starts start (length pre) l = Ok (start :: js) /\ (fun j => drop j (pre ++ l)) <$> js = more_alternates l) ->
    forall pre start, exists js, alternate_starts start (length pre) (e :: l) = Ok (start :: js) /\ (fun j => drop j (pre ++ e :: l)) <$> js = more_alternates (e :: l)) as Hskip.
  { intros e l' He IH pre start. destruct (IH (pre ++ [e]) start) as (js & E1 & E2). exists js. rewrite (alternate_starts_skip [e] l') by (by constructor).
    rewrite length_app in E1. split; [done|].
    assert (more_alternates (e :: l') = more_alternates l') as -> by (apply (more_alternates_skip [e]); by constructor). rewrite <- E2, <- app_assoc. done. }
  induction 1 as [e He|e l He Hl IH|e l He Hr Hl IH|e l He Hl IH|e l items after He Hc Hl IH]; intros pre start.
  - exists []. cbn [alternate_starts more_alternates]. assert (llama_grammar_is_end_of_sequence e = true) as -> by (apply is_end_true; by left). by rewrite !(proj2 (has_type_false GRETYPE_ALT e)) by congruence.
  - destruct (IH (pre ++ [e]) (length pre + 1)) as (js & E1 & E2). rewrite length_app in E1. cbn [length] in E1. cbn [alternate_starts more_alternates]. assert (llama_grammar_is_end_of_sequence e = true) as -> by (apply is_end_true; by right).
    rewrite (proj2 (has_type_true GRETYPE_ALT e)) by done. cbn [negb]. rewrite E1. eexists. split; [done|]. rewrite <- app_assoc in E2. cbn [app] in E2. cbn [fmap list_fmap]. f_equal; [|done].
    rewrite drop_app_ge by lia. by replace (length pre + 1 - length pre) with 1 by lia.
  - apply Hskip; [|done]. apply not_true_iff_false. gtypes.
  - apply Hskip; [|done]. apply not_true_iff_false. gtypes.
  - destruct (class_prefix _ _ _ Hc) as (cls & Ecls & Hcls); [by apply class_start_no_end|]. rewrite Ecls. destruct (IH (pre ++ cls) start) as (js & E1 & E2). exists js.
    rewrite alternate_starts_skip, more_alternates_skip by done. rewrite length_app in E1. split; [done|]. by rewrite app_assoc.
Qed.

(** The stacks a reference leads to. *)
Definition expanded (p : gpos) (e : llama_grammar_element) (l : llama_grammar_rule) (s s' : llama_grammar_stack) : Prop :=
  exists j rule, rules !! Z.to_nat (e_value e) = Some rule /\ drop j rule ∈ alternates rule /\
    s' = pushed (Z.to_nat (e_value e), j) (drop j rule) (pushed (pos_next p) l s).

Lemma expand_ok p e l s : suffix_at p (e :: l) -> seq_wf rules (e :: l) -> e_type e = GRETYPE_RULE_REF ->
  exists ss, expand_rule_ref rules (e_value e) p s = Ok ss /\ ss <> [] /\ forall s', s' ∈ ss <-> expanded p e l s s'.
Proof.
  intros Hp Hl He. inversion Hl as [e' Ht|e' l' Ht|e' l' Ht Hr Hl'|e' l' Ht|e' l' items after Ht]; subst; try (by gtypes).
  destruct (lookup_lt_is_Some_2 rules _ Hr) as [rule Hrule]. set (r := Z.to_nat (e_value e)) in *.
  assert (seq_wf rules rule) as Hrw by (unfold rules_wf in Hwf; rewrite Forall_forall in Hwf; apply Hwf; by eapply list_elem_of_lookup_2).
  destruct (alternate_starts_ok rule Hrw [] 0) as (js & E & Ejs). cbn [length app] in E, Ejs.
  assert ((fun j => drop j rule) <$> (0 :: js) = alternates rule) as Eall by (cbn [fmap list_fmap]; by rewrite Ejs).
  exists ((fun j => pushed (r, j) (drop j rule) (pushed (pos_next p) l s)) <$> (0 :: js)). split; [|split; [done|]].
  - unfold expand_rule_ref. fold r. rewrite (vec_get_Some _ _ _ Hrule). cbn [mbind outcome_bind]. rewrite E. cbn [mbind outcome_bind]. apply mapM_Ok. intros j Hj.
    rewrite (push_ok _ l) by (done || by eapply suffix_next). cbn [mbind outcome_bind]. apply push_ok; [by exists rule|].
    pose proof (alternates_wf _ _ Hrw) as Ha. rewrite Forall_forall in Ha. apply Ha. rewrite <- Eall. apply list_elem_of_fmap. by exists j.
  - intros s'. rewrite list_elem_of_fmap. split.
    + intros (j & -> & Hj). exists j, rule. split; [done|]. split; [|done]. rewrite <- Eall. apply list_elem_of_fmap. by exists j.
    + intros (j & rule' & Hr' & Ha & ->). assert (rule' = rule) as -> by (fold r in Hr'; congruence). rewrite <- Eall in Ha. apply list_elem_of_fmap in Ha as (j' & Ej & Hj'). exists j'. split; [|done].
      fold r. (* the same suffix of the rule is at the same index *)
      assert (j = j' \/ drop j rule = []) as [->|E0].
      { destruct (decide (drop j rule = [])); [by right|left]. apply (f_equal length) in Ej. rewrite !length_drop in Ej. assert (length (drop j rule) <> 0) by (destruct (drop j rule); done). rewrite length_drop in *. lia. }
      * done.
      * exfalso. pose proof (alternates_wf _ _ Hrw) as Ha'. rewrite Forall_forall in Ha'. destruct (seq_wf_nonempty rules (drop j rule)) as (? & ? & Hne); [|by rewrite E0 in Hne].
        apply Ha'. rewrite <- Eall. apply list_elem_of_fmap. exists j'. done.
Qed.

(** ** The stacks as a machine *)

(** One expansion. *)
Definition step (s s' : llama_grammar_stack) : Prop :=
  exists p e l s0, s = p :: s0 /\ suffix_at p (e :: l) /\ e_type e = GRETYPE_RULE_REF /\ expanded p e l s0 s'.

(** Where a stack goes on when its top has been read. *)
Inductive reads : llama_grammar_stack -> gsym -> llama_grammar_stack -> Prop :=
  | reads_class p e l items after s c : suffix_at p (e :: l) -> class_start e = true -> char_class (e :: l) items after -> class_has e items c = true ->
      reads (p :: s) (Chr c) (pushed (p.1, p.2 + (length (e :: l) - length after)) after s)
  | reads_token p e l s t : suffix_at p (e :: l) -> is_token_element e = true -> token_has e t = true -> reads (p :: s) (Tok t) (pushed (pos_next p) l s).

Inductive run : llama_grammar_stack -> gword -> Prop :=
  | run_nil : run [] []
  | run_reads s x s' w : reads s x s' -> run s' w -> run s (x :: w)
  | run_step s s' w : step s s' -> run s' w -> run s w.

(** Nothing to expand on top. *)
Definition ready (s : llama_grammar_stack) : Prop :=
  match s with [] => True | p :: _ => exists e l, suffix_at p (e :: l) /\ (class_start e = true \/ is_token_element e = true) end.

Lemma alternates_drop rule alt : alt ∈ alternates rule -> exists j, drop j rule = alt.
Proof.
  unfold alternates. intros [->|H]%elem_of_cons; [by exists 0|]. induction rule as [|e l IH]; cbn [more_alternates] in H; [by apply not_elem_of_nil in H|].
  assert (alt ∈ more_alternates l -> exists j, drop j (e :: l) = alt) as Hm by (intros H'; destruct (IH H') as (j & <-); by exists (S j)).
  destruct (has_type GRETYPE_ALT e); [|auto]. apply elem_of_cons in H as [->|H]; [by exists 1|auto].
Qed.

Lemma class_after p e l items after : suffix_at p (e :: l) -> char_class (e :: l) items after -> suffix_at (p.1, p.2 + (length (e :: l) - length after)) after.
Proof. intros Hp Hc. destruct (match_items_ok _ _ _ 0 false 0 Hc) as (_ & _ & Ha). rewrite Ha at 2. by apply suffix_skip. Qed.

Lemma derives_run l w1 : derives rules l w1 -> forall p s w2, suffix_at p l -> seq_wf rules l -> run s w2 -> run (pushed p l s) (w1 ++ w2).
Proof.
  induction 1 as [e l He|e l items after c w He Hc Hh _ IH|e l t w He Ht _ IH|e l rule alt w1 w2 He Hr Ha _ IH1 _ IH2]; intros p s w' Hp Hl Hs; cbn [pushed].
  - by rewrite He.
  - rewrite (class_start_no_end _ He). eapply run_reads; [by eapply reads_class|]. apply IH; [by eapply class_after|by eapply seq_wf_after|done].
  - assert (llama_grammar_is_end_of_sequence e = false) as -> by (apply not_true_iff_false; gtypes). eapply run_reads; [by eapply reads_token|].
    apply IH; [by eapply suffix_next| |done]. inversion Hl; subst; try done; gtypes.
  - assert (llama_grammar_is_end_of_sequence e = false) as -> by (apply not_true_iff_false; gtypes). destruct (alternates_drop _ _ Ha) as (j & Ej).
    assert (seq_wf rules rule) as Hrw by (unfold rules_wf in Hwf; rewrite Forall_forall in Hwf; apply Hwf; by eapply list_elem_of_lookup_2).
    assert (seq_wf rules l) as Hl' by (inversion Hl; subst; try done; gtypes). rewrite <- app_assoc.
    apply (run_step _ (pushed (Z.to_nat (e_value e), j) alt (pushed (pos_next p) l s))).
    + exists p, e, l, s. split; [done|]. split; [done|]. split; [done|]. exists j, rule. rewrite Ej. done.
    + apply IH1; [by exists rule| |apply IH2; [by eapply suffix_next|done|done]]. pose proof (alternates_wf _ _ Hrw) as H. rewrite Forall_forall in H. by apply H.
Qed.

Lemma lang_run s w : stack_ok rules s -> stack_lang rules s w -> run s w.
Proof.
  intros Hs. revert w. induction Hs as [|p s (rule & e & l & Hr & Hd & Hl & He) _ IH]; intros w H; [simpl in H; subst; constructor|].
  destruct H as (rule' & w1 & w2 & Hr' & -> & H1 & H2). assert (rule' = rule) as -> by congruence. rewrite Hd in H1.
  assert (p :: s = pushed p (e :: l) s) as -> by (cbn [pushed]; by rewrite He). apply derives_run; [done|by exists rule|done|by apply IH].
Qed.

(** Valid stacks lead to valid stacks. *)
Lemma pos_suffix p : pos_ok rules p -> exists e l, suffix_at p (e :: l) /\ seq_wf rules (e :: l) /\ llama_grammar_is_end_of_sequence e = false.
Proof. intros (rule & e & l & Hr & Hd & Hl & He). exists e, l. split; [by exists rule|done]. Qed.

Lemma suffix_unique p l l' : suffix_at p l -> suffix_at p l' -> l = l'.
Proof. intros (r & Hr & <-) (r' & Hr' & <-). congruence. Qed.

Lemma suffix_wf p e l : pos_ok rules p -> suffix_at p (e :: l) -> seq_wf rules (e :: l).
Proof. intros (e' & l' & Hp & Hl & _)%pos_suffix Hp'. by rewrite (suffix_unique _ _ _ Hp' Hp). Qed.

Lemma step_valid s s' : stack_ok rules s -> step s s' -> stack_ok rules s'.
Proof.
  intros Hs (p & e & l & s0 & -> & Hp & He & (j & rule & Hr & Ha & ->)). apply Forall_cons in Hs as [Hpos Hs]. pose proof (suffix_wf _ _ _ Hpos Hp) as Hl.
  assert (seq_wf rules l) as Hl' by (inversion Hl; subst; try done; gtypes).
  assert (seq_wf rules rule) as Hrw by (unfold rules_wf in Hwf; rewrite Forall_forall in Hwf; apply Hwf; by eapply list_elem_of_lookup_2).
  apply pushed_valid; [by exists rule| |apply pushed_valid; [by eapply suffix_next|done|done]]. pose proof (alternates_wf _ _ Hrw) as H. rewrite Forall_forall in H. by apply H.
Qed.

Lemma reads_valid s x s' : stack_ok rules s -> reads s x s' -> stack_ok rules s'.
Proof.
  intros Hs H. destruct H as [p e l items after s c Hp He Hc Hh|p e l s t Hp He Ht]; apply Forall_cons in Hs as [Hpos Hs]; pose proof (suffix_wf _ _ _ Hpos Hp) as Hl; apply pushed_valid; try done.
  - by eapply class_after.
  - by eapply seq_wf_after.
  - by eapply suffix_next.
  - inversion Hl; subst; try done; gtypes.
Qed.

Lemma run_lang s w : run s w -> stack_ok rules s -> stack_lang rules s w.
Proof.
  induction 1 as [|s x s' w Hr _ IH|s s' w Hst _ IH]; intros Hs; [done| |].
  - pose proof (reads_valid _ _ _ Hs Hr) as Hs'. specialize (IH Hs'). destruct Hr as [p e l items after s c Hp He Hc Hh|p e l s t Hp He Ht]; apply Forall_cons in Hs as [Hpos Hs]; pose proof (suffix_wf _ _ _ Hpos Hp) as Hl;
      pose proof Hp as (rule & Hr & Hd).
    + apply pushed_lang in IH as (w1 & w2 & -> & H1 & H2); [|by eapply class_after|by eapply seq_wf_after]. exists rule, (Chr c :: w1), w2. split; [done|]. split; [done|]. split; [|done]. rewrite Hd. by eapply derives_class.
    + apply pushed_lang in IH as (w1 & w2 & -> & H1 & H2); [|by eapply suffix_next|inversion Hl; subst; try done; gtypes]. exists rule, (Tok t :: w1), w2. split; [done|]. split; [done|]. split; [|done]. rewrite Hd. by apply derives_token.
  - specialize (IH (step_valid _ _ Hs Hst)). destruct Hst as (p & e & l & s0 & -> & Hp & He & (j & rule & Hr & Ha & ->)). apply Forall_cons in Hs as [Hpos Hs]. pose proof (suffix_wf _ _ _ Hpos Hp) as Hl.
    assert (seq_wf rules l) as Hl' by (inversion Hl; subst; try done; gtypes).
    assert (seq_wf rules rule) as Hrw by (unfold rules_wf in Hwf; rewrite Forall_forall in Hwf; apply Hwf; by eapply list_elem_of_lookup_2).
    assert (seq_wf rules (drop j rule)) as Haw by (pose proof (alternates_wf _ _ Hrw) as H; rewrite Forall_forall in H; by apply H).
    apply pushed_lang in IH as (w1 & w2 & -> & H1 & H2); [|by exists rule|done]. apply pushed_lang in H2 as (w2' & w3 & -> & H2 & H3); [|by eapply suffix_next|done].
    destruct Hp as (rule0 & Hr0 & Hd0). exists rule0, (w1 ++ w2'), w3. rewrite Hd0. split; [done|]. split; [by rewrite app_assoc|]. split; [by eapply derives_ref|done].
Qed.

(** The words of a stack are those of the stacks ready to read it leads to. *)
Lemma reads_ready s x s' : reads s x s' -> ready s.
Proof. destruct 1; cbn [ready]; eauto. Qed.

Lemma run_ready s w : run s w <-> exists t, rtc step s t /\ ready t /\ run t w.
Proof.
  split.
  - induction 1 as [|s x s' w Hr Hw _|s s' w Hst _ (t & H1 & H2 & H3)].
    + exists []. split; [done|]. split; [done|constructor].
    + exists s. split; [done|]. split; [by eapply reads_ready|by eapply run_reads].
    + exists t. split; [by eapply rtc_l|done].
  - intros (t & H & _ & Hw). induction H as [|s s' t Hst _ IH]; [done|]. eapply run_step; [done|by apply IH].
Qed.

Lemma ready_no_step s s' : ready s -> step s s' -> False.
Proof.
  intros Hr (p & e & l & s0 & -> & Hp & He & _). destruct Hr as (e' & l' & Hp' & Ht). pose proof (suffix_unique _ _ _ Hp Hp') as [= -> ->].
  destruct Ht as [Ht|Ht]; gtypes.
Qed.
End advance.
