(* ===== verification/GrammarLoop.v ===== *)
(** * Grammars: the loop over the stacks to do

    What llama_grammar_advance_stack adds is exactly the stacks ready to read that the given
    one leads to.  It terminates when no rule starts itself, directly or after rules that
    derive the empty word. *)

From S2P Require Export GrammarAdvance.
Open Scope nat_scope.

Section loop.
Context (rules : llama_grammar_rules) (Hwf : rules_wf rules).
Notation step := (step rules).
Notation ready := (ready rules).

Lemma add_stack_elem s new t : t ∈ add_stack s new <-> t = s \/ t ∈ new.
Proof. unfold add_stack. case_bool_decide; [naive_solver|]. rewrite elem_of_app, list_elem_of_singleton. tauto. Qed.

(** One round: what the loop does with a stack it has not seen. *)
Lemma round s : stack_ok rules s ->
  (ready s /\ forall fuel todo seen new, s ∉ seen -> advance_loop (S fuel) rules (s :: todo) seen new = advance_loop fuel rules todo (s :: seen) (add_stack s new)) \/
  (exists ss, ss <> [] /\ (forall s', s' ∈ ss <-> step s s') /\ forall fuel todo seen new, s ∉ seen ->
    advance_loop (S fuel) rules (s :: todo) seen new = advance_loop fuel rules (rev ss ++ todo) (s :: seen) new).
Proof.
  intros Hs. destruct s as [|p s]; [left; split; [done|]; intros fuel todo seen new Hn; cbn [advance_loop]; by rewrite bool_decide_eq_false_2|]. apply Forall_cons in Hs as [Hp Hs].
  destruct (pos_suffix _ _ Hp) as (e & l & He & Hl & Hend).
  assert (ready (p :: s) <-> class_start e = true \/ is_token_element e = true) as Hr.
  { split; [|by exists e, l]. intros (e' & l' & He' & Ht). pose proof (suffix_unique _ _ _ _ He He') as [= -> ->]. done. }
  assert (forall fuel todo seen new, p :: s ∉ seen -> ready (p :: s) -> advance_loop (S fuel) rules ((p :: s) :: todo) seen new = advance_loop fuel rules todo ((p :: s) :: seen) (add_stack (p :: s) new)) as Hkeep.
  { intros fuel todo seen new Hn Ht%Hr. cbn [advance_loop]. rewrite bool_decide_eq_false_2 by done. rewrite (suffix_elem _ _ _ _ He). cbn [mbind outcome_bind].
    rewrite class_start_type, token_type in Ht. destruct Ht as [[-> | [-> | ->]]|[-> | ->]]; done. }
  inversion Hl as [e' Ht|e' l' Ht|e' l' Ht Href Hl'|e' l' Ht|e' l' items after Ht]; subst; try (exfalso; apply not_true_iff_false in Hend; apply Hend, is_end_true; tauto).
  - right. destruct (expand_ok rules Hwf p e l s He Hl Ht) as (ss & E & Hne & Hss). exists ss. split; [done|]. split.
    + intros s'. rewrite Hss. split; [intros H; by exists p, e, l, s|]. intros (p' & e' & l'' & s0 & [= <- <-] & He' & _ & H). pose proof (suffix_unique _ _ _ _ He He') as [= <- <-]. done.
    + intros fuel todo seen new Hn. cbn [advance_loop]. rewrite bool_decide_eq_false_2 by done. rewrite (suffix_elem _ _ _ _ He). cbn [mbind outcome_bind]. by rewrite Ht, E.
  - left. assert (ready (p :: s)) by (apply Hr; by right). auto.
  - left. assert (ready (p :: s)) by (apply Hr; by left). auto.
Qed.

(** Every stack seen is ready and kept, or all it leads to is seen or still to do. *)
Definition closed (todo seen new : llama_grammar_stacks) : Prop :=
  forall s, s ∈ seen -> (ready s /\ s ∈ new) \/ (~ ready s /\ forall s', step s s' -> s' ∈ seen \/ s' ∈ todo).

Lemma loop_spec fuel : forall todo seen new new', stacks_ok rules todo -> closed todo seen new -> advance_loop fuel rules todo seen new = Ok new' ->
  exists seen', closed [] seen' new' /\ (forall s, s ∈ seen \/ s ∈ todo -> s ∈ seen') /\
    (forall t, t ∈ new -> t ∈ new') /\ (forall t, t ∈ new' -> t ∈ new \/ (ready t /\ exists s, s ∈ todo /\ rtc step s t)).
Proof.
  induction fuel as [|fuel IH]; intros todo seen new new' Hok Hc E.
  - destruct todo as [|s todo]; [|done]. injection E as <-. exists seen. split; [done|]. split; [|by split; [|left]]. intros s [?|H]; [done|by apply not_elem_of_nil in H].
  - destruct todo as [|s todo].
    { injection E as <-. exists seen. split; [done|]. split; [|by split; [|left]]. intros s [?|H]; [done|by apply not_elem_of_nil in H]. }
    apply Forall_cons in Hok as [Hs Hok]. destruct (decide (s ∈ seen)) as [Hin|Hn].
    + cbn [advance_loop] in E. rewrite bool_decide_eq_true_2 in E by done. destruct (IH todo seen new new' Hok) as (seen' & H1 & H2 & H3 & H4); [|done|].
      { intros t Ht. destruct (Hc t Ht) as [?|[? H]]; [by left|right]. split; [done|]. intros s' Hs'. destruct (H s' Hs') as [?|[->|?]%elem_of_cons]; auto. }
      exists seen'. split; [done|]. split; [|split; [done|]].
      * intros t [?|[->|?]%elem_of_cons]; auto.
      * intros t Ht. destruct (H4 t Ht) as [?|(? & s' & ? & ?)]; [by left|right]. split; [done|]. exists s'. split; [by right|done].
    + destruct (round s Hs) as [(Hr & E')|(ss & Hne & Hss & E')]; rewrite E' in E by done.
      * destruct (IH todo (s :: seen) (add_stack s new) new' Hok) as (seen' & H1 & H2 & H3 & H4); [|done|].
        { intros t [->|Ht]%elem_of_cons; [left; split; [done|]; apply add_stack_elem; by left|]. destruct (Hc t Ht) as [[? ?]|[? H]]; [left; split; [done|]; apply add_stack_elem; by right|right].
          split; [done|]. intros s' Hs'. destruct (H s' Hs') as [?|[->|?]%elem_of_cons]; [left; by right|left; by left|by right]. }
        exists seen'. split; [done|]. split; [|split].
        -- intros t [?|[->|?]%elem_of_cons]; apply H2; [left; by right|left; by left|by right].
        -- intros t Ht. apply H3, add_stack_elem. by right.
        -- intros t Ht. destruct (H4 t Ht) as [[->|?]%add_stack_elem|(? & s' & ? & ?)]; [right; split; [done|]; exists s; split; [by left|done]|by left|right]. split; [done|]. exists s'. split; [by right|done].
      * assert (~ ready s) as Hnr by (intros Hr; destruct ss as [|s' ss]; [done|]; apply (ready_no_step rules s s' Hr), Hss; by left).
        destruct (IH (rev ss ++ todo) (s :: seen) new new') as (seen' & H1 & H2 & H3 & H4); [| |done|].
        { apply Forall_app. split; [|done]. apply Forall_forall. intros s' Hs'. apply list_elem_of_In, in_rev, list_elem_of_In, Hss in Hs'. by eapply step_valid. }
        { intros t [->|Ht]%elem_of_cons.
          - right. split; [done|]. intros s' Hs'. right. apply elem_of_app. left. by apply list_elem_of_In, in_rev, list_elem_of_In in Hs' || (apply list_elem_of_In; rewrite <- in_rev; by apply list_elem_of_In, Hss).
          - destruct (Hc t Ht) as [?|[? H]]; [by left|right]. split; [done|]. intros s' Hs'. destruct (H s' Hs') as [?|[->|?]%elem_of_cons]; [left; by right|left; by left|right]. apply elem_of_app. by right. }
        exists seen'. split; [done|]. split; [|split; [done|]].
        -- intros t [?|[->|?]%elem_of_cons]; apply H2; [left; by right|left; by left|right; apply elem_of_app; by right].
        -- intros t Ht. destruct (H4 t Ht) as [?|(Hr & s' & [Hs'|Hs']%elem_of_app & H)]; [by left| |]; right; (split; [done|]).
           ++ exists s. split; [by left|]. eapply rtc_l; [|exact H]. apply Hss. by apply list_elem_of_In, in_rev, list_elem_of_In in Hs'.
           ++ exists s'. split; [by right|done].
Qed.

(** What advancing a stack adds. *)
Lemma advance_spec fuel s new new' : stack_ok rules s -> llama_grammar_advance_stack fuel rules s new = Ok new' ->
  forall t, t ∈ new' <-> t ∈ new \/ (ready t /\ rtc step s t).
Proof.
  intros Hs E t. destruct (loop_spec fuel [s] [] new new') as (seen' & H1 & H2 & H3 & H4); [by constructor|by intros ? ?%not_elem_of_nil|done|]. split.
  - intros Ht. destruct (H4 t Ht) as [?|(Hr & s' & ->%list_elem_of_singleton & H)]; [by left|by right].
  - intros [Ht|[Hr H]]; [by apply H3|]. assert (s ∈ seen') as Hin by (apply H2; right; by left). clear H2 H3 H4 E Hs.
    induction H as [s|s s' t Hst _ IH].
    + destruct (H1 s Hin) as [[_ ?]|[? _]]; done.
    + apply IH; [done|]. destruct (H1 s Hin) as [[Hr' _]|[_ H]]; [by destruct (ready_no_step rules s s' Hr' Hst)|]. by destruct (H s' Hst) as [?|?%not_elem_of_nil].
Qed.

Lemma steps_valid s t : stack_ok rules s -> rtc step s t -> stack_ok rules t.
Proof. intros Hs H. induction H as [|s s' t Hst _ IH]; [done|]. apply IH. by eapply step_valid. Qed.

Lemma advance_valid fuel s new new' : stack_ok rules s -> stacks_ok rules new -> llama_grammar_advance_stack fuel rules s new = Ok new' -> stacks_ok rules new'.
Proof.
  intros Hs Hn E. apply Forall_forall. intros t Ht. apply (advance_spec _ _ _ _ Hs E) in Ht as [Ht|[_ Ht]]; [|by eapply steps_valid].
  unfold stacks_ok in Hn. rewrite Forall_forall in Hn. by apply Hn.
Qed.

Lemma advance_lang fuel s new new' w : stack_ok rules s -> stacks_ok rules new -> llama_grammar_advance_stack fuel rules s new = Ok new' ->
  stacks_lang rules new' w <-> stacks_lang rules new w \/ stack_lang rules s w.
Proof.
  intros Hs Hn E. pose proof (advance_valid _ _ _ _ Hs Hn E) as Hn'. pose proof (advance_spec _ _ _ _ Hs E) as Hspec. unfold stacks_ok in Hn, Hn'. rewrite Forall_forall in Hn, Hn'. split.
  - intros (t & Ht & Hw). apply Hspec in Ht as Ht'. destruct Ht' as [Ht'|[Hr Hst]]; [left; by exists t|right]. apply (run_lang rules Hwf); [|done].
    apply run_ready. exists t. split; [done|]. split; [done|]. apply (lang_run rules Hwf); [by apply Hn'|done].
  - intros [(t & Ht & Hw)|Hw]; [exists t; split; [apply Hspec; by left|done]|]. apply (lang_run rules Hwf) in Hw; [|done]. apply run_ready in Hw as (t & Hst & Hr & Hw).
    assert (t ∈ new') as Ht by (apply Hspec; by right). exists t. split; [done|]. apply (run_lang rules Hwf); [done|by apply Hn'].
Qed.
End loop.
