(* ===== verification/GrammarTerm.v ===== *)
(** * Grammars: termination

    When no rule starts itself, where rules that derive the empty word may come before, the
    loop over the stacks ends. *)

From S2P Require Export GrammarLoop.
Open Scope nat_scope.

Section term.
Context (rules : llama_grammar_rules) (Hwf : rules_wf rules).
Notation step := (step rules).
Notation ready := (ready rules).

(** ** What starts a rule *)

(** A reference to a rule that derives the empty word. *)
Definition nullable (r : nat) : Prop := rule_derives rules r [].
Definition empty_ref (e : llama_grammar_element) : Prop := e_type e = GRETYPE_RULE_REF /\ nullable (Z.to_nat (e_value e)).

Definition starts_with (l : llama_grammar_rule) (r : nat) : Prop :=
  exists pre e l', l = pre ++ e :: l' /\ e_type e = GRETYPE_RULE_REF /\ r = Z.to_nat (e_value e) /\ Forall empty_ref pre.

Definition left_corner (r' r : nat) : Prop := exists rule alt, rules !! r = Some rule /\ alt ∈ alternates rule /\ starts_with alt r'.

(** No rule starts itself, at any distance. *)
Definition no_self_start : Prop := forall r, r < length rules -> Acc left_corner r.

(** ** No endless expansion *)

Definition ends (s : llama_grammar_stack) : Prop := Acc (fun a b => step b a) s.

Definition seq_ends (l : llama_grammar_rule) : Prop := forall p s, suffix_at rules p l -> (derives rules l [] -> ends s) -> ends (pushed p l s).
Definition rule_ends (r : nat) : Prop := forall rule alt, rules !! r = Some rule -> alt ∈ alternates rule -> seq_ends alt.

Lemma ready_ends s : ready s -> ends s.
Proof. intros H. constructor. intros s' Hs. by destruct (ready_no_step rules s s' H Hs). Qed.

Lemma starts_end l : seq_wf rules l -> (forall r, starts_with l r -> rule_ends r) -> seq_ends l.
Proof.
  induction 1 as [e He|e l He Hl IH|e l He Hr Hl IH|e l He Hl IH|e l items after He Hc Hl IH]; intros Hq p s Hp Hs.
  - cbn [pushed]. rewrite (proj2 (is_end_true e)) by auto. apply Hs. constructor. apply is_end_true. auto.
  - cbn [pushed]. rewrite (proj2 (is_end_true e)) by auto. apply Hs. constructor. apply is_end_true. auto.
  - cbn [pushed]. replace (llama_grammar_is_end_of_sequence e) with false by (symmetry; apply not_true_iff_false; gtypes). constructor. intros s' (p' & e' & l' & s0 & [= <- <-] & Hp' & _ & (j & rule & Hrule & Ha & ->)).
    pose proof (suffix_unique _ _ _ _ Hp Hp') as [= <- <-]. apply (Hq (Z.to_nat (e_value e)) ltac:(by exists [], e, l) rule); [done|done|by exists rule|]. intros Hd.
    assert (nullable (Z.to_nat (e_value e))) as Hemp by (by exists rule, (drop j rule)). apply IH; [|by eapply suffix_next|].
    + intros r (pre & e2 & l2 & -> & H1 & H2 & H3). apply Hq. exists (e :: pre), e2, l2. split; [done|]. split; [done|]. split; [done|]. by constructor.
    + intros Hl0. apply Hs. change (@nil gsym) with (@nil gsym ++ []). by eapply derives_ref.
  - cbn [pushed]. replace (llama_grammar_is_end_of_sequence e) with false by (symmetry; apply not_true_iff_false; gtypes). apply ready_ends. exists e, l. auto.
  - cbn [pushed]. rewrite (class_start_no_end _ He). apply ready_ends. exists e, l. auto.
Qed.

Lemma corner_ends r : Acc left_corner r -> rule_ends r.
Proof.
  induction 1 as [r _ IH]. intros rule alt Hr Ha. apply starts_end.
  - unfold rules_wf in Hwf. rewrite Forall_forall in Hwf. pose proof (alternates_wf rules rule (Hwf rule ltac:(by eapply list_elem_of_lookup_2))) as H. rewrite Forall_forall in H. by apply H.
  - intros r' Hs. apply IH. by exists rule, alt.
Qed.

Lemma stack_ends s : no_self_start -> stack_ok rules s -> ends s.
Proof.
  intros Hacc Hs. induction Hs as [|p s Hp Hs IH]; [by apply ready_ends|]. destruct (pos_suffix _ _ Hp) as (e & l & He & Hl & Hend).
  assert (p :: s = pushed p (e :: l) s) as -> by (cbn [pushed]; by rewrite Hend). apply starts_end; [done| |done|done].
  intros r (pre & e2 & l2 & _ & Ht & -> & _). destruct (decide (Z.to_nat (e_value e2) < length rules)) as [Hr|Hr]; [by apply corner_ends, Hacc|].
  intros rule alt Hrule. apply lookup_lt_Some in Hrule. lia.
Qed.

(** ** Enough fuel *)

(** [n] rounds deal with [s] and all it leads to, whatever has been seen. *)
Definition takes (n : nat) (ss : llama_grammar_stacks) : Prop := forall fuel todo seen new, n <= fuel ->
  exists fuel' seen' new', fuel <= fuel' + n /\ advance_loop fuel rules (ss ++ todo) seen new = advance_loop fuel' rules todo seen' new'.

Lemma takes_nil : takes 0 [].
Proof. intros fuel todo seen new _. exists fuel, seen, new. split; [lia|done]. Qed.

Lemma takes_app n m ss ts : takes n ss -> takes m ts -> takes (n + m) (ss ++ ts).
Proof.
  intros H1 H2 fuel todo seen new Hf. rewrite <- app_assoc. destruct (H1 fuel (ts ++ todo) seen new ltac:(lia)) as (f1 & se1 & n1 & Hf1 & ->).
  destruct (H2 f1 todo se1 n1 ltac:(lia)) as (f2 & se2 & n2 & Hf2 & ->). exists f2, se2, n2. split; [lia|done].
Qed.

Lemma takes_list ss : (forall s, s ∈ ss -> exists n, takes n [s]) -> exists n, takes n ss.
Proof.
  induction ss as [|s ss IH]; intros H; [exists 0; apply takes_nil|]. destruct (H s ltac:(by left)) as (n & Hn). destruct IH as (m & Hm); [intros; apply H; by right|].
  exists (n + m). by apply (takes_app n m [s] ss).
Qed.

Lemma ends_takes s : ends s -> stack_ok rules s -> exists n, takes n [s].
Proof.
  induction 1 as [s _ IH]. intros Hs. destruct (round rules Hwf s Hs) as [(_ & E)|(ss & _ & Hss & E)].
  - exists 1. intros fuel todo seen new Hf. destruct fuel as [|fuel]; [lia|]. destruct (decide (s ∈ seen)) as [Hin|Hn].
    + exists fuel, seen, new. split; [lia|]. cbn [app advance_loop]. by rewrite bool_decide_eq_true_2.
    + exists fuel, (s :: seen), (add_stack s new). split; [lia|]. by apply E.
  - destruct (takes_list (rev ss)) as (n & Hn).
    { intros s' Hs'. apply list_elem_of_In, in_rev, list_elem_of_In, Hss in Hs'. apply IH; [done|]. by eapply step_valid. }
    exists (S n). intros fuel todo seen new Hf. destruct fuel as [|fuel]; [lia|]. destruct (decide (s ∈ seen)) as [Hin|Hn'].
    + exists fuel, seen, new. split; [lia|]. cbn [app advance_loop]. by rewrite bool_decide_eq_true_2.
    + cbn [app]. rewrite E by done. destruct (Hn fuel todo (s :: seen) new ltac:(lia)) as (f1 & se1 & n1 & Hf1 & ->). exists f1, se1, n1. split; [lia|done].
Qed.

Lemma ends_advance s : ends s -> stack_ok rules s -> exists n, forall fuel new, n <= fuel -> exists new', llama_grammar_advance_stack fuel rules s new = Ok new'.
Proof.
  intros He Hs. destruct (ends_takes s He Hs) as (n & Hn). exists n. intros fuel new Hf. destruct (Hn fuel [] [] new Hf) as (f1 & se1 & n1 & _ & E). exists n1.
  unfold llama_grammar_advance_stack. cbn [app] in E. rewrite E. by destruct f1.
Qed.
End term.

(** More fuel changes nothing. *)
Lemma advance_more rules fuel : forall todo seen new new', advance_loop fuel rules todo seen new = Ok new' -> forall k, advance_loop (fuel + k) rules todo seen new = Ok new'.
Proof.
  induction fuel as [|fuel IH]; intros todo seen new new' E k; [destruct todo; [by destruct k|done]|]. destruct todo as [|s todo]; [done|]. cbn [advance_loop Nat.add] in *.
  destruct (bool_decide (s ∈ seen)); [by apply IH|]. destruct s as [|p s]; [by apply IH|]. apply bind_Ok in E as (e & E1 & E). rewrite E1. cbn [mbind outcome_bind].
  destruct (e_type e); try done; try (by apply IH). apply bind_Ok in E as (ss & E2 & E). rewrite E2. cbn [mbind outcome_bind]. by apply IH.
Qed.
