(* ===== verification/GrammarDetect.v ===== *)
(** * Grammars: the check for left recursion

    The recursive check always returns.  What it finds is a rule that starts itself; and
    when it finds nothing no rule does, provided that every rule which derives the empty
    word has an empty definition of its own. *)

From S2P Require Export GrammarTerm.
Open Scope nat_scope.

Section detect.
Context (rules : llama_grammar_rules).
Notation left_corner := (left_corner rules).
Notation nullable := (nullable rules).
Notation starts_with := (starts_with rules).

(** A rule with an empty definition. *)
Definition empty_rule (r : nat) : Prop := exists rule, rules !! r = Some rule /\ has_empty_alternate true rule = true.

(** Rules that derive the empty word say so in a definition of their own. *)
Definition empties_direct : Prop := forall r, nullable r -> empty_rule r.

(** An END is the last element. *)
Definition end_last (l : llama_grammar_rule) : Prop := forall pre e post, l = pre ++ e :: post -> e_type e = GRETYPE_END -> post = [].

Lemma end_last_tail e l : end_last (e :: l) -> end_last l.
Proof. intros H pre e' post -> Ht. by apply (H (e :: pre) e' post). Qed.

Lemma end_last_nil e l : end_last (e :: l) -> e_type e = GRETYPE_END -> l = [].
Proof. intros H Ht. by apply (H [] e l). Qed.

Context (Hlast : Forall end_last rules).

Lemma rule_end_last r rule : rules !! r = Some rule -> end_last rule.
Proof. intros H. rewrite Forall_forall in Hlast. apply Hlast. by eapply list_elem_of_lookup_2. Qed.

Lemma empty_alternate l : forall b, end_last l -> has_empty_alternate b l = true -> (b = true /\ derives rules l []) \/ exists alt, alt ∈ more_alternates l /\ derives rules alt [].
Proof.
  induction l as [|e l IH]; intros b Hl H; [done|]. cbn [has_empty_alternate] in H. pose proof (end_last_tail _ _ Hl) as Hl'.
  assert (forall alt, alt ∈ more_alternates l -> alt ∈ more_alternates (e :: l)) as Hm by (intros alt Ha; cbn [more_alternates]; destruct (has_type GRETYPE_ALT e); [by right|done]).
  destruct (llama_grammar_is_end_of_sequence e) eqn:Ee.
  - apply orb_true_iff in H as [->|H]; [left; split; [done|by constructor]|]. right. apply is_end_true in Ee as [Ee|Ee]; [by rewrite (end_last_nil _ _ Hl Ee) in H|].
    destruct (IH true Hl' H) as [[_ Hd]|(alt & Ha & Hd)]; [exists l; split; [|done]; cbn [more_alternates]; rewrite (proj2 (has_type_true _ _) Ee); by left|exists alt; auto].
  - destruct (IH false Hl' H) as [[? _]|(alt & Ha & Hd)]; [done|]. right. exists alt. auto.
Qed.

Lemma empty_nullable r : empty_rule r -> nullable r.
Proof.
  intros (rule & Hr & He). destruct (empty_alternate rule true (rule_end_last _ _ Hr) He) as [[_ Hd]|(alt & Ha & Hd)]; [exists rule, rule|exists rule, alt]; (split; [done|]); (split; [|done]); [by left|by right].
Qed.

(** ** States of the check *)

Record found_ok (st : recursion_state) : Prop := {
  fo_visited : length (rules_visited st) = length rules;
  fo_progress : length (rules_in_progress st) = length rules;
  fo_empty : length (rules_may_be_empty st) = length rules;
  fo_sound : forall r, rules_may_be_empty st !! r = Some true -> empty_rule r
}.

(** From one state to a later one: the rules in progress are the same again. *)
Record later (st st' : recursion_state) : Prop := {
  la_ok : found_ok st';
  la_progress : rules_in_progress st' = rules_in_progress st;
  la_empty : forall r, rules_may_be_empty st !! r = Some true -> rules_may_be_empty st' !! r = Some true
}.

Lemma later_refl st : found_ok st -> later st st.
Proof. by split. Qed.

Lemma later_trans st1 st2 st3 : later st1 st2 -> later st2 st3 -> later st1 st3.
Proof. intros [A1 A2 A3] [B1 B2 B3]. split; [done|congruence|auto]. Qed.

(** The state in which the elements of a rule are walked through. *)
Definition entered (r : nat) (empty : bool) (rule : llama_grammar_rule) (st : recursion_state) : recursion_state :=
  mk_recursion (rules_visited st) (<[r := true]> (rules_in_progress st)) (<[r := empty || has_empty_alternate true rule]> (rules_may_be_empty st)).

Definition leave (r : nat) (st : recursion_state) : recursion_state :=
  mk_recursion (<[r := true]> (rules_visited st)) (<[r := false]> (rules_in_progress st)) (rules_may_be_empty st).

Lemma entered_ok r empty rule st : rules !! r = Some rule -> rules_may_be_empty st !! r = Some empty -> found_ok st -> found_ok (entered r empty rule st).
Proof.
  intros Hr He [V1 V2 V3 V4]. split; cbn [entered rules_visited rules_in_progress rules_may_be_empty]; rewrite ?length_insert; [done|done|done|]. intros r' Hr'. destruct (decide (r' = r)) as [->|Hn].
  - rewrite list_lookup_insert_eq in Hr' by (by eapply lookup_lt_Some). injection Hr' as Hr'. apply orb_true_iff in Hr' as [->|Hr']; [by apply V4|by exists rule].
  - rewrite list_lookup_insert_ne in Hr' by done. by apply V4.
Qed.

Lemma leave_later r empty rule st st2 : rules_in_progress st !! r = Some false -> rules_may_be_empty st !! r = Some empty -> later (entered r empty rule st) st2 -> later st (leave r st2).
Proof.
  intros Hb He [[W1 W2 W3 W4] L2 L3]. split; [split|..]; cbn [leave entered rules_visited rules_in_progress rules_may_be_empty] in *; rewrite ?length_insert; [done|done|done|done| |].
  - rewrite L2, list_insert_insert, decide_True by done. by apply list_insert_id.
  - intros r' Hr'. apply L3. destruct (decide (r' = r)) as [->|Hn]; [|by rewrite list_lookup_insert_ne]. rewrite list_lookup_insert_eq by (by eapply lookup_lt_Some). rewrite He in Hr'. by injection Hr' as ->.
Qed.

(** One call, taken apart. *)
Lemma detect_inv fuel r st b st' : llama_grammar_detect_left_recursion fuel rules r st = Ok (b, st') ->
  (rules_in_progress st !! r = Some true /\ b = true) \/
  (exists fuel' rule empty st2, fuel = S fuel' /\ rules_in_progress st !! r = Some false /\ rules !! r = Some rule /\ rules_may_be_empty st !! r = Some empty /\
    detect_in_rule (llama_grammar_detect_left_recursion fuel' rules) true rule (entered r empty rule st) = Ok (b, st2) /\ (b = false -> st' = leave r st2)).
Proof.
  intros E. destruct fuel as [|fuel]; cbn [llama_grammar_detect_left_recursion] in E; apply bind_Ok in E as (busy & Eb & E); apply vec_get_Ok in Eb; (destruct busy; [left; injection E as <- _; by split|]); [done|].
  right. apply bind_Ok in E as (rule & Er & E). apply vec_get_Ok in Er. apply bind_Ok in E as (empty & Ee & E). apply vec_get_Ok in Ee. cbv zeta in E. fold (entered r empty rule st) in E.
  apply bind_Ok in E as ([found st2] & E2 & E). exists fuel, rule, empty, st2. split; [done|]. split; [done|]. split; [done|]. split; [done|]. destruct found.
  - injection E as <- <-. by split.
  - apply bind_Ok in E as (visited & Ev & E). apply vec_set_Ok in Ev as [_ ->]. injection E as <- <-. by split.
Qed.

(** ** Calls that find nothing leave the state as it was *)

Definition keeps (detect : nat -> recursion_state -> outcome (bool * recursion_state)) : Prop :=
  forall r st st', found_ok st -> detect r st = Ok (false, st') -> later st st'.

Lemma in_rule_keeps detect : keeps detect -> forall l b st st', found_ok st -> detect_in_rule detect b l st = Ok (false, st') -> later st st'.
Proof.
  intros Hd. induction l as [|e l IH]; intros b st st' Hst E; cbn [detect_in_rule] in E; [injection E as <-; by apply later_refl|].
  destruct (has_type GRETYPE_RULE_REF e && b); [|by eapply IH]. apply bind_Ok in E as ([found st1] & E1 & E). destruct found; [done|]. apply bind_Ok in E as (empty & _ & E).
  pose proof (Hd _ _ _ Hst E1) as L1. eapply later_trans; [exact L1|]. eapply IH; [|exact E]. apply L1.
Qed.

Lemma detect_keeps fuel : keeps (llama_grammar_detect_left_recursion fuel rules).
Proof.
  induction fuel as [|fuel IH]; intros r st st' Hst E; (apply detect_inv in E as [[_ ?]|(fuel' & rule & empty & st2 & Ef & Hb & Hr & He & E & Hl)]; [done|]); [done|]. injection Ef as <-.
  rewrite (Hl eq_refl). eapply leave_later; [done|exact He|]. eapply in_rule_keeps; [exact IH|by apply entered_ok|exact E].
Qed.

(** ** What is found is there *)

Lemma starts_with_nil r : ~ starts_with [] r.
Proof. intros (pre & e & l & H & _). by destruct pre. Qed.

Lemma starts_with_cons e l r : starts_with (e :: l) r -> e_type e = GRETYPE_RULE_REF /\ (r = Z.to_nat (e_value e) \/ (nullable (Z.to_nat (e_value e)) /\ starts_with l r)).
Proof.
  intros (pre & e' & l' & H & H1 & H2 & H3). destruct pre as [|e0 pre]; injection H as -> ->; [auto|]. apply Forall_cons in H3 as [[Ht Hemp] H3]. split; [done|]. right. split; [done|]. by exists pre, e', l'.
Qed.

(** The rules in progress all start, sooner or later, with the one looked at. *)
Definition on_path (r : nat) (st : recursion_state) : Prop := forall p, rules_in_progress st !! p = Some true -> tc left_corner r p.

Definition finds (detect : nat -> recursion_state -> outcome (bool * recursion_state)) : Prop :=
  forall r st st', found_ok st -> on_path r st -> detect r st = Ok (true, st') -> exists q, tc left_corner q q.

(** [l] is what is left of [rule], with nothing but empty rules before it when [b]. *)
Lemma in_rule_finds detect r rule : keeps detect -> finds detect -> rules !! r = Some rule -> forall l b st st', end_last l ->
  (forall alt, alt ∈ more_alternates l -> alt ∈ alternates rule) -> (b = true -> l = [] \/ exists pre, pre ++ l ∈ alternates rule /\ Forall (empty_ref rules) pre) ->
  found_ok st -> (forall p, rules_in_progress st !! p = Some true -> p = r \/ tc left_corner r p) -> detect_in_rule detect b l st = Ok (true, st') -> exists q, tc left_corner q q.
Proof.
  intros Hk Hf Hr. induction l as [|e l IH]; intros b st st' Hl Hm Hb Hst Hp E; cbn [detect_in_rule] in E; [done|]. pose proof (end_last_tail _ _ Hl) as Hl'.
  assert (forall alt, alt ∈ more_alternates l -> alt ∈ alternates rule) as Hm' by (intros alt Ha; apply Hm; cbn [more_alternates]; destruct (has_type GRETYPE_ALT e); [by right|done]).
  destruct (has_type GRETYPE_RULE_REF e && b) eqn:Eb.
  - apply andb_true_iff in Eb as [Et%has_type_true ->]. destruct (Hb eq_refl) as [?|(pre & Ha & Hpre)]; [done|].
    assert (left_corner (Z.to_nat (e_value e)) r) as Hlc. { exists rule, (pre ++ e :: l). split; [done|]. split; [done|]. exists pre, e, l. done. }
    apply bind_Ok in E as ([found st1] & E1 & E). destruct found.
    + apply (Hf (Z.to_nat (e_value e)) st st1 Hst); [|done]. intros p [->|H]%Hp; [by apply tc_once|by eapply tc_l].
    + pose proof (Hk _ _ _ Hst E1) as L. apply bind_Ok in E as (empty & Ee & E). apply vec_get_Ok in Ee. apply (IH empty st1 st' Hl' Hm'); [|apply L|by rewrite (la_progress _ _ L)|exact E].
      intros ->. right. exists (pre ++ [e]). rewrite <- app_assoc. split; [done|]. apply Forall_app. split; [done|]. constructor; [|done]. split; [done|]. by apply empty_nullable, (fo_sound _ (la_ok _ _ L)).
  - apply (IH (llama_grammar_is_end_of_sequence e) st st' Hl' Hm'); [|done|done|exact E]. intros [Ee|Ee]%is_end_true; [left; by eapply end_last_nil|]. right. exists []. split; [|done].
    apply Hm. cbn [more_alternates]. rewrite (proj2 (has_type_true _ _) Ee). by left.
Qed.

Lemma detect_finds fuel : finds (llama_grammar_detect_left_recursion fuel rules).
Proof.
  induction fuel as [|fuel IH]; intros r st st' Hst Hp E; (apply detect_inv in E as [[H _]|(fuel' & rule & empty & st2 & Ef & Hb & Hr & He & E & _)]; [exists r; by apply Hp|]); [done|]. injection Ef as <-.
  eapply (in_rule_finds _ r rule (detect_keeps fuel) IH Hr rule true); [by eapply rule_end_last|intros alt Ha; by right| |by apply entered_ok| |exact E].
  - intros _. right. exists []. split; [by left|done].
  - intros p Hpp. cbn [entered rules_in_progress] in Hpp. destruct (decide (p = r)) as [->|Hn]; [by left|right]. rewrite list_lookup_insert_ne in Hpp by done. by apply Hp.
Qed.

(** ** What is not found is not there *)

Definition cleared (st : recursion_state) : Prop := forall r, rules_visited st !! r = Some true -> Acc left_corner r.

Definition clears (detect : nat -> recursion_state -> outcome (bool * recursion_state)) : Prop :=
  forall r st st', found_ok st -> cleared st -> detect r st = Ok (false, st') -> cleared st' /\ Acc left_corner r /\ (empty_rule r -> rules_may_be_empty st' !! r = Some true).

Section direct.
Context (Hdirect : empties_direct).

Lemma in_rule_clears detect : keeps detect -> clears detect -> forall l b st st', found_ok st -> cleared st -> detect_in_rule detect b l st = Ok (false, st') ->
  cleared st' /\ (b = true -> forall r, starts_with l r -> Acc left_corner r) /\ (forall alt, alt ∈ more_alternates l -> forall r, starts_with alt r -> Acc left_corner r).
Proof.
  intros Hk Hd. induction l as [|e l IH]; intros b st st' Hst Hcl E; cbn [detect_in_rule] in E.
  - injection E as <-. split; [done|]. split; [|intros alt Ha; by apply not_elem_of_nil in Ha]. intros _ r Hr. by apply starts_with_nil in Hr.
  - destruct (has_type GRETYPE_RULE_REF e && b) eqn:Eb.
    + apply andb_true_iff in Eb as [Et ->]. apply has_type_true in Et. apply bind_Ok in E as ([found st1] & E1 & E). destruct found; [done|]. pose proof (Hk _ _ _ Hst E1) as L1. destruct (Hd _ _ _ Hst Hcl E1) as (Hcl1 & Hacc & Hemp).
      apply bind_Ok in E as (empty & E2 & E). apply vec_get_Ok in E2. destruct (IH empty st1 st' (la_ok _ _ L1) Hcl1 E) as (Hcl' & H1 & H2). split; [done|]. split.
      * intros _ r [_ [->|[He Hr]]]%starts_with_cons; [done|]. apply H1; [|done]. rewrite (Hemp (Hdirect _ He)) in E2. by injection E2.
      * intros alt Ha. cbn [more_alternates] in Ha. rewrite (proj2 (has_type_false GRETYPE_ALT e)) in Ha by congruence. by apply H2.
    + destruct (IH (llama_grammar_is_end_of_sequence e) st st' Hst Hcl E) as (Hcl' & H1 & H2). split; [done|]. split.
      * intros -> r [Ht _]%starts_with_cons. apply has_type_true in Ht. by rewrite Ht in Eb.
      * intros alt Ha r Hr. cbn [more_alternates] in Ha. destruct (has_type GRETYPE_ALT e) eqn:Ealt; [|by apply (H2 alt)].
        apply has_type_true in Ealt. apply elem_of_cons in Ha as [->|Ha]; [|by apply (H2 alt)]. apply H1; [|done]. apply is_end_true. auto.
Qed.

Lemma detect_clears fuel : clears (llama_grammar_detect_left_recursion fuel rules).
Proof.
  induction fuel as [|fuel IH]; intros r st st' Hst Hcl E; (apply detect_inv in E as [[_ ?]|(fuel' & rule & empty & st2 & Ef & Hb & Hr & He & E & Hl)]; [done|]); [done|]. injection Ef as <-. rewrite (Hl eq_refl). clear Hl.
  pose proof (entered_ok _ _ _ _ Hr He Hst) as Hst1. pose proof (in_rule_keeps _ (detect_keeps fuel) _ _ _ _ Hst1 E) as [_ _ L3]. destruct (in_rule_clears _ (detect_keeps fuel) IH rule true _ st2 Hst1 Hcl E) as (Hcl2 & H1 & H2). clear E IH.
  assert (Acc left_corner r) as Hacc.
  { constructor. intros r' (rule' & alt & Hrule & Ha & Hs). assert (rule' = rule) as -> by congruence. apply elem_of_cons in Ha as [->|Ha]; [by apply H1|by apply (H2 alt)]. }
  split; [|split; [exact Hacc|]]; cbn [leave rules_visited rules_may_be_empty].
  - intros r' Hr'. cbn [leave rules_visited] in Hr'. destruct (decide (r' = r)) as [->|Hn]; [exact Hacc|]. rewrite list_lookup_insert_ne in Hr' by done. by apply Hcl2.
  - intros (rule' & Hrule & Hem). assert (rule' = rule) as -> by congruence. apply L3. cbn [entered rules_may_be_empty]. rewrite list_lookup_insert_eq by (by eapply lookup_lt_Some). by rewrite Hem, orb_true_r.
Qed.
End direct.

(** ** The check returns *)

Definition refs_ok (l : llama_grammar_rule) : Prop := Forall (fun e => e_type e = GRETYPE_RULE_REF -> Z.to_nat (e_value e) < length rules) l.

Definition idle (st : recursion_state) : nat := cnt negb (rules_in_progress st).

Definition returns (detect : nat -> recursion_state -> outcome (bool * recursion_state)) (n : nat) : Prop :=
  forall r st, found_ok st -> r < length rules -> idle st <= n -> exists b st', detect r st = Ok (b, st').

Lemma in_rule_returns detect n : keeps detect -> returns detect n -> forall l b st, refs_ok l -> found_ok st -> idle st <= n -> exists b' st', detect_in_rule detect b l st = Ok (b', st').
Proof.
  intros Hc Hd. induction l as [|e l IH]; intros b st Hl Hst Hi; cbn [detect_in_rule]; [by eexists _, _|]. apply Forall_cons in Hl as [He Hl].
  destruct (has_type GRETYPE_RULE_REF e && b) eqn:Eb; [|by apply IH]. apply andb_true_iff in Eb as [Et%has_type_true _]. specialize (He Et).
  destruct (Hd _ _ Hst He Hi) as (found & st1 & E). rewrite E. cbn [mbind outcome_bind]. destruct found; [by eexists _, _|].
  destruct (Hc _ _ _ Hst E) as [L1 L2 _]. destruct (lookup_lt_is_Some_2 (rules_may_be_empty st1) (Z.to_nat (e_value e))) as [x Hx]; [by rewrite (fo_empty _ L1)|].
  rewrite (vec_get_Some _ _ _ Hx). cbn [mbind outcome_bind]. apply IH; [done|done|]. unfold idle. by rewrite L2.
Qed.

Lemma idle_insert l r : l !! r = Some false -> cnt negb (<[r:=true]> l) < cnt negb l.
Proof.
  intros H. unfold cnt. rewrite <- (take_drop_middle _ _ _ H) at 2. rewrite insert_take_drop by (by eapply lookup_lt_Some). rewrite !List.filter_app, !length_app. cbn [List.filter negb length]. lia.
Qed.

Lemma detect_returns fuel : Forall refs_ok rules -> returns (llama_grammar_detect_left_recursion fuel rules) fuel.
Proof.
  intros Hrefs. induction fuel as [|fuel IH]; intros r st Hst Hr Hi; cbn [llama_grammar_detect_left_recursion]; destruct (lookup_lt_is_Some_2 (rules_in_progress st) r) as [busy Hb]; try (by rewrite (fo_progress _ Hst));
    rewrite (vec_get_Some _ _ _ Hb); cbn [mbind outcome_bind]; (destruct busy; [by eexists _, _|]); [pose proof (idle_insert _ _ Hb); unfold idle in *; lia|].
  destruct (lookup_lt_is_Some_2 rules r Hr) as [rule Hrule]. rewrite (vec_get_Some _ _ _ Hrule). cbn [mbind outcome_bind].
  destruct (lookup_lt_is_Some_2 (rules_may_be_empty st) r) as [empty He]; [by rewrite (fo_empty _ Hst)|]. rewrite (vec_get_Some _ _ _ He). cbn [mbind outcome_bind]. cbv zeta. fold (entered r empty rule st).
  pose proof (entered_ok _ _ _ _ Hrule He Hst) as Hst1. rewrite Forall_forall in Hrefs.
  destruct (in_rule_returns _ fuel (detect_keeps fuel) IH rule true (entered r empty rule st)) as (found & st2 & E); [apply Hrefs; by eapply list_elem_of_lookup_2|done|pose proof (idle_insert _ _ Hb); unfold idle in *; cbn [entered rules_in_progress]; lia|].
  rewrite E. cbn [mbind outcome_bind]. destruct found; [by eexists _, _|]. pose proof (fo_visited _ (la_ok _ _ (in_rule_keeps _ (detect_keeps fuel) _ _ _ _ Hst1 E))) as Hv.
  destruct (lookup_lt_is_Some_2 (rules_visited st2) r) as [x Hx]; [by rewrite Hv|]. rewrite (vec_set_Some _ _ _ _ Hx). by eexists _, _.
Qed.

(** A rule that starts itself has an endless chain of starts. *)
Lemma tc_last x y : tc left_corner x y -> exists z, rtc left_corner x z /\ left_corner z y.
Proof. induction 1 as [x y H|x x' y H _ (z & Hz & Hy)]; [by exists x|]. exists z. split; [by eapply rtc_l|done]. Qed.

Lemma acc_tc x : Acc left_corner x -> Acc (tc left_corner) x.
Proof.
  induction 1 as [x _ IH]. constructor. intros y (z & Hyz & Hzx)%tc_last. apply rtc_tc in Hyz as [->|Hyz]; [by apply IH|]. by apply (Acc_inv (IH z Hzx)).
Qed.

Lemma cycle_not_acc q : tc left_corner q q -> Acc left_corner q -> False.
Proof. intros H Hq%acc_tc. induction Hq as [q _ IH]. by apply (IH q H). Qed.

(** The whole check returns; [true] only when a rule starts itself, and [false] only when
    none does if rules that derive the empty word say so. *)
Lemma left_recursion_ok : Forall refs_ok rules -> exists b, has_left_recursion rules = Ok b /\ (b = true -> ~ no_self_start rules) /\ (empties_direct -> b = false -> no_self_start rules).
Proof.
  intros Hrefs. unfold has_left_recursion. set (none := replicate (length rules) false). set (st0 := mk_recursion none none none).
  assert (forall r, none !! r <> Some true) as Hnone by (intros r Hr; apply lookup_replicate in Hr as [Hr _]; discriminate Hr).
  assert (found_ok st0) as H0 by (split; cbn [st0 rules_visited rules_in_progress rules_may_be_empty]; try (apply length_replicate); intros r Hr; by apply Hnone in Hr).
  destruct (foldM_seq (left_recursion_in rules) (fun i acc => (acc.1 = true /\ exists q, tc left_corner q q) \/
    (acc.1 = false /\ found_ok acc.2 /\ rules_in_progress acc.2 = none /\ (empties_direct -> cleared acc.2 /\ forall r, r < i -> Acc left_corner r))) 0 (length rules) (false, st0)) as ([b st] & E & H).
  - right. split; [reflexivity|]. split; [exact H0|]. split; [reflexivity|]. intros _. split; [intros r Hr; by apply Hnone in Hr|]. intros r Hr. lia.
  - intros i [found st] Hi [(Ht & Hq)|(Hf & Hst & Hnp & Hdir)]; cbn [fst snd] in *; subst found; unfold left_recursion_in; [exists (true, st); split; [reflexivity|by left]|].
    destruct (lookup_lt_is_Some_2 (rules_visited st) i) as [v Hv]; [rewrite (fo_visited _ Hst); lia|]. rewrite (vec_get_Some _ _ _ Hv). cbn [mbind outcome_bind]. destruct v.
    + exists (false, st). split; [reflexivity|]. right. split; [reflexivity|]. split; [exact Hst|]. split; [exact Hnp|]. intros Hd. destruct (Hdir Hd) as [Hcl Hacc]. split; [exact Hcl|].
      intros r Hr. destruct (decide (r = i)) as [->|]; [by apply Hcl|apply Hacc; lia].
    + assert (idle st <= S (length rules)) as Hid by (unfold idle; pose proof (cnt_le_length negb (rules_in_progress st)) as Hc; rewrite (fo_progress _ Hst) in Hc; lia).
      destruct (detect_returns (S (length rules)) Hrefs i st Hst) as (b & st' & E); [lia|exact Hid|]. exists (b, st'). split; [exact E|]. destruct b.
      * left. split; [reflexivity|]. eapply detect_finds; [exact Hst| |exact E]. intros p Hp. rewrite Hnp in Hp. by apply Hnone in Hp.
      * right. pose proof (detect_keeps _ _ _ _ Hst E) as [L1 L2 _]. split; [reflexivity|]. split; [exact L1|]. split; [exact (eq_trans L2 Hnp)|]. intros Hd. destruct (Hdir Hd) as [Hcl Hacc].
        destruct (detect_clears Hd _ _ _ _ Hst Hcl E) as (Hcl' & Ha & _). split; [exact Hcl'|]. intros r Hr. destruct (decide (r = i)) as [->|]; [exact Ha|apply Hacc; lia].
  - rewrite E. cbn [mbind outcome_bind fst]. exists b. split; [reflexivity|]. split.
    + intros ->. destruct H as [(_ & q & Hq)|[? _]]; [|done]. intros Hns. apply (cycle_not_acc q Hq), Hns. destruct (tc_last _ _ Hq) as (q' & _ & rule & alt & Hr & _). by eapply lookup_lt_Some.
    + intros Hd ->. destruct H as [[? _]|(_ & _ & _ & H)]; [done|]. intros r Hr. by apply (H Hd).
Qed.
End detect.

(** Well-formed rules refer to rules that are there. *)
Lemma rules_wf_refs rules : rules_wf rules -> Forall (refs_ok rules) rules.
Proof.
  intros Hr. eapply Forall_impl; [exact Hr|]. clear Hr. intros l0. induction 1 as [e He|e l He Hl IH|e l He Hr Hl IH|e l He Hl IH|e l items after He Hc Hl IH].
  - constructor; [congruence|constructor].
  - constructor; [congruence|done].
  - by constructor.
  - constructor; [intros; gtypes|done].
  - clear Hl. assert (forall l items after, char_class l items after -> (forall e, head l = Some e -> e_type e <> GRETYPE_RULE_REF) -> refs_ok rules after -> refs_ok rules l) as Hcls; [|by eapply Hcls; [exact Hc|cbn; intros ? [= <-]; gtypes|]].
    clear. induction 1 as [e l i a after E Ha Hr|e l i a l1 items after E Ha H IH]; intros Hs Hok; (constructor; [intros Ht; by destruct (Hs e eq_refl)|]).
    + destruct (first_item_after _ _ _ _ E) as [->|(e1 & H1 & ->)]; [done|]. constructor; [congruence|done].
    + assert (refs_ok rules (a :: l1)) as H1 by (apply IH; [cbn; intros ? [= <-]; congruence|done]). destruct (first_item_after _ _ _ _ E) as [->|(e1 & H2 & ->)]; [done|]. constructor; [congruence|done].
Qed.

Lemma class_no_end l items after : char_class l items after -> class_start (default (mk_elem GRETYPE_CHAR 0) (head l)) = true -> end_last after -> end_last l.
Proof.
  intros Hc Hs Ha. destruct (class_prefix _ _ _ Hc) as (cls & -> & Hcls); [by apply class_start_no_end|]. clear Hc Hs. induction Hcls as [|e cls He _ IH]; [done|].
  intros pre e' post E Ht. destruct pre as [|e0 pre]; injection E as -> E; [|by apply (IH pre e')]. exfalso. apply not_true_iff_false in He. apply He, is_end_true. by left.
Qed.

Lemma seq_wf_end_last rules l : seq_wf rules l -> end_last l.
Proof.
  assert (forall e l, e_type e <> GRETYPE_END -> end_last l -> end_last (e :: l)) as Hcons.
  { intros e l' He Hl pre e' post E Ht. destruct pre as [|e0 pre]; injection E as -> E; [done|by apply (Hl pre e')]. }
  induction 1 as [e He|e l He Hl IH|e l He Hr Hl IH|e l He Hl IH|e l items after He Hc Hl IH].
  - intros pre e' post E _. destruct pre as [|e0 pre]; injection E as _ E; [done|]. by destruct pre.
  - apply Hcons; [congruence|done].
  - apply Hcons; [congruence|done].
  - apply Hcons; [intros ?; gtypes|done].
  - by eapply class_no_end.
Qed.

Lemma rules_wf_end_last rules : rules_wf rules -> Forall end_last rules.
Proof. intros H. eapply Forall_impl; [exact H|]. apply seq_wf_end_last. Qed.
