(* ===== verification/GrammarAccept.v ===== *)
(** * Grammars: accepting characters and tokens

    On stacks that are ready to read, accepting a character leaves the stacks of the words
    that may follow it: the derivative of the language by the character.  With enough fuel
    every call returns, and more fuel does not change the result. *)

From S2P Require Export GrammarDetect.
Open Scope nat_scope.

(** ** Enough fuel *)

(** With enough fuel the call returns, always with the same value. *)
Definition settles {A} (f : nat -> outcome A) (a : A) : Prop := exists n, forall fuel, n <= fuel -> f fuel = Ok a.

Lemma settles_ret {A} (a : A) : settles (fun _ => Ok a) a.
Proof. by exists 0. Qed.

Lemma settles_bind {A B} (f : nat -> outcome A) (k : nat -> A -> outcome B) a b :
  settles f a -> settles (fun fuel => k fuel a) b -> settles (fun fuel => x ← f fuel; k fuel x) b.
Proof. intros (n & Hn) (m & Hm). exists (n + m). intros fuel Hf. rewrite Hn by lia. cbn [mbind outcome_bind]. apply Hm. lia. Qed.

Lemma settles_ext {A} (f g : nat -> outcome A) a : (forall fuel, f fuel = g fuel) -> settles g a -> settles f a.
Proof. intros H (n & Hn). exists n. intros fuel Hf. rewrite H. by apply Hn. Qed.

(** A loop, with what holds of the elements done. *)
Lemma settles_foldM {S A} (f : nat -> S -> A -> outcome S) (I : list A -> S -> Prop) l s : I [] s ->
  (forall pre a s, a ∈ l -> I pre s -> exists s', settles (fun fuel => f fuel s a) s' /\ I (pre ++ [a]) s') ->
  exists s', settles (fun fuel => foldM (f fuel) l s) s' /\ I l s'.
Proof.
  intros H0 Hf. assert (forall suf pre s, I pre s -> (forall a, a ∈ suf -> a ∈ l) -> exists s', settles (fun fuel => foldM (f fuel) suf s) s' /\ I (pre ++ suf) s') as H; [|by apply (H l [] s)].
  clear s H0. induction suf as [|a suf IH]; intros pre s Hs Hin; [exists s; rewrite app_nil_r; split; [apply settles_ret|done]|].
  destruct (Hf pre a s) as (s1 & H1 & Hs1); [apply Hin; by left|done|]. destruct (IH (pre ++ [a]) s1 Hs1) as (s2 & H2 & Hs2); [intros; apply Hin; by right|].
  exists s2. rewrite <- app_assoc in Hs2. split; [|done]. cbn [foldM]. by apply (settles_bind (fun fuel => f fuel s a) (fun fuel s => foldM (f fuel) suf s) s1).
Qed.

Lemma exists_snoc {A} (P : A -> Prop) l a : (exists x, x ∈ l ++ [a] /\ P x) <-> (exists x, x ∈ l /\ P x) \/ P a.
Proof. setoid_rewrite elem_of_app. setoid_rewrite list_elem_of_singleton. naive_solver. Qed.

Section accept.
Context (rules : llama_grammar_rules) (Hwf : rules_wf rules).
Notation step := (step rules).
Notation ready := (ready rules).
Notation reads := (reads rules).

(** ** Ready stacks *)

Definition good (s : llama_grammar_stack) : Prop := stack_ok rules s /\ ready s.

(** The languages of ready stacks, by their first symbol. *)
Lemma lang_reads s x w : good s -> stack_lang rules s (x :: w) <-> exists s', reads s x s' /\ stack_lang rules s' w.
Proof.
  intros [Hs Hr]. split.
  - intros H. apply (lang_run rules Hwf) in H; [|done]. inversion H as [|s0 x' s' w' H1 H2|s0 s' w' H1 H2]; subst; [|by destruct (ready_no_step rules s s' Hr H1)].
    exists s'. split; [done|]. apply (run_lang rules Hwf); [done|]. by eapply reads_valid.
  - intros (s' & H1 & H2). apply (run_lang rules Hwf); [|done]. eapply run_reads; [done|]. apply (lang_run rules Hwf); [|done]. by eapply reads_valid.
Qed.

Lemma lang_nil s : good s -> stack_lang rules s [] <-> s = [].
Proof.
  intros [Hs Hr]. split; [|by intros ->]. intros H. apply (lang_run rules Hwf) in H; [|done]. inversion H as [|s0 x s' w H1 H2|s0 s' w H1 H2]; subst; [done|].
  by destruct (ready_no_step rules s s' Hr H1).
Qed.

Lemma stacks_nil ss : Forall good ss -> stacks_lang rules ss [] <-> [] ∈ ss.
Proof.
  intros Hss. rewrite Forall_forall in Hss. split; [|by exists []]. intros (s & Hs & Hw). apply lang_nil in Hw; [|by apply Hss]. by subst.
Qed.

Lemma good_ok ss : Forall good ss -> stacks_ok rules ss.
Proof. intros H. eapply Forall_impl; [exact H|]. by intros ? [? _]. Qed.

Lemma class_unique l items after items' after' c : char_class l items after -> char_class l items' after' ->
  after = after' /\ existsb (item_has c) items = existsb (item_has c) items'.
Proof.
  intros H1 H2. destruct (match_items_ok _ _ _ c false 0 H1) as (E1 & L1 & D1). destruct (match_items_ok _ _ _ c false 0 H2) as (E2 & L2 & D2). rewrite E1 in E2. injection E2 as E H.
  split; [|done]. rewrite D1, D2. f_equal. lia.
Qed.

(** ** One stack *)

Lemma match_char_ok p e l items after c : suffix_at rules p (e :: l) -> class_start e = true -> char_class (e :: l) items after ->
  llama_grammar_match_char rules p c = Ok (class_has e items c, (p.1, p.2 + (length (e :: l) - length after))).
Proof.
  intros Hp He Hc. unfold llama_grammar_match_char. rewrite (suffix_elem _ _ _ _ Hp). cbn [mbind outcome_bind]. fold (class_start e). rewrite He. cbn [assert_ mbind outcome_bind].
  rewrite (suffix_from _ _ _ Hp). cbn [mbind outcome_bind]. destruct (match_items_ok _ _ _ c false 0 Hc) as (E & _). rewrite E. done.
Qed.

(** What stands on top of a good stack. *)
Lemma good_cases s : good s -> s = [] \/
  (exists p e l s0, s = p :: s0 /\ suffix_at rules p (e :: l) /\ is_token_element e = true /\ seq_wf rules l /\ stack_ok rules s0) \/
  (exists p e l s0 items after, s = p :: s0 /\ suffix_at rules p (e :: l) /\ is_token_element e = false /\ class_start e = true /\ char_class (e :: l) items after /\ seq_wf rules after /\ stack_ok rules s0).
Proof.
  intros [Hs Hr]. destruct s as [|p s]; [by left|right]. apply Forall_cons in Hs as [Hp Hs]. destruct Hr as (e & l & He & Ht). pose proof (suffix_wf _ _ _ _ Hp He) as Hl.
  inversion Hl as [e' H|e' l' H|e' l' H|e' l' H|e' l' items after H Hc Ha]; subst.
  1-3: exfalso; destruct Ht; gtypes.
  - left. exists p, e, l, s. done.
  - right. exists p, e, l, s, items, after. split; [done|]. split; [done|]. split; [|done]. apply not_true_iff_false. gtypes.
Qed.

(** Accepting a character: the stack cannot read it and nothing is added, or it goes on in
    one way, and that is advanced. *)
Lemma accept_chr_cases s c : good s ->
  ((forall s', ~ reads s (Chr c) s') /\ forall fuel new, llama_grammar_accept_chr fuel rules c new s = Ok new) \/
  (exists s', reads s (Chr c) s' /\ (forall s'', reads s (Chr c) s'' -> s'' = s') /\
     forall fuel new, llama_grammar_accept_chr fuel rules c new s = llama_grammar_advance_stack fuel rules s' new).
Proof.
  intros Hg. destruct (good_cases s Hg) as [->|[(p & e & l & s0 & -> & Hp & He & Hl & Hs)|(p & e & l & s0 & items & after & -> & Hp & Hnt & He & Hc & Ha & Hs)]].
  - left. split; [|done]. intros s' H. inversion H.
  - left. split; [|intros fuel new; cbn [llama_grammar_accept_chr]; rewrite (suffix_elem _ _ _ _ Hp); cbn [mbind outcome_bind]; by rewrite He].
    intros s' H. inversion H as [p' e' l' items after s1 c' Hp' He' Hc'|]; subst. pose proof (suffix_unique _ _ _ _ Hp Hp') as [= <- <-]. gtypes.
  - assert (forall fuel new, llama_grammar_accept_chr fuel rules c new (p :: s0) = (if class_has e items c then llama_grammar_advance_stack fuel rules (pushed (p.1, p.2 + (length (e :: l) - length after)) after s0) new else Ok new)) as E.
    { intros fuel new. cbn [llama_grammar_accept_chr]. rewrite (suffix_elem _ _ _ _ Hp). cbn [mbind outcome_bind]. rewrite Hnt, (match_char_ok _ _ _ _ _ c Hp He Hc). cbn [mbind outcome_bind fst snd].
      destruct (class_has e items c); cbn [negb]; [|done]. by rewrite (push_ok rules _ _ _ (class_after _ _ _ _ _ _ Hp Hc) Ha). }
    assert (forall s', reads (p :: s0) (Chr c) s' -> class_has e items c = true /\ s' = pushed (p.1, p.2 + (length (e :: l) - length after)) after s0) as Hu.
    { intros s' H. inversion H as [p' e' l' items' after' s1 c' Hp' He' Hc' Hh|]; subst. pose proof (suffix_unique _ _ _ _ Hp Hp') as [= <- <-]. destruct (class_unique _ _ _ _ _ c Hc Hc') as [<- Hi]. split; [|done].
      unfold class_has in *. by rewrite Hi. }
    destruct (class_has e items c) eqn:Eh.
    + right. eexists. split; [by eapply reads_class|]. split; [intros s' H; by apply Hu|done].
    + left. split; [|done]. intros s' H. by destruct (Hu s' H).
Qed.

(** A token on a stack with a token element on top. *)
Lemma token_stack_cases fuel t chrs new p e l s : suffix_at rules p (e :: l) -> is_token_element e = true -> seq_wf rules l ->
  accept_token_stack fuel rules t chrs new (p :: s) =
    (if token_has e t then llama_grammar_advance_stack fuel rules (pushed (pos_next p) l s) new else Ok new).
Proof.
  intros Hp He Hl. cbn [accept_token_stack]. rewrite (suffix_elem _ _ _ _ Hp). cbn [mbind outcome_bind]. rewrite He. unfold llama_grammar_match_token. rewrite He. cbn [assert_ mbind outcome_bind].
  fold (token_has e t). destruct (token_has e t); cbn [negb]; [|done]. by rewrite (push_ok rules _ _ _ (suffix_next _ _ _ _ Hp) Hl).
Qed.

(** ** Advancing *)

Lemma advance_good fuel s new new' : stack_ok rules s -> Forall good new -> llama_grammar_advance_stack fuel rules s new = Ok new' -> Forall good new'.
Proof.
  intros Hs Hn E. pose proof (advance_valid rules Hwf _ _ _ _ Hs (good_ok _ Hn) E) as Hok. pose proof (advance_spec rules Hwf _ _ _ _ Hs E) as Hspec.
  unfold stacks_ok in Hok. rewrite Forall_forall in Hok, Hn. apply Forall_forall. intros t Ht. split; [by apply Hok|]. apply Hspec in Ht as [Ht|[Hr _]]; [by apply Hn|done].
Qed.

Context (Hns : no_self_start rules).

Lemma advance_settles s new : stack_ok rules s -> Forall good new -> exists new', settles (fun fuel => llama_grammar_advance_stack fuel rules s new) new' /\
  Forall good new' /\ (forall t, t ∈ new' <-> t ∈ new \/ (ready t /\ rtc step s t)) /\ (forall w, stacks_lang rules new' w <-> stacks_lang rules new w \/ stack_lang rules s w).
Proof.
  intros Hs Hn. destruct (ends_advance rules Hwf s (stack_ends rules Hwf s Hns Hs) Hs) as (n & Hf). destruct (Hf n new (le_n n)) as (new' & E). exists new'. split; [|split; [|split]].
  - exists n. intros fuel Hle. replace fuel with (n + (fuel - n)) by lia. by apply advance_more.
  - by eapply advance_good.
  - by eapply advance_spec.
  - intros w. eapply advance_lang; [done|done|by apply good_ok|done].
Qed.

(** ** Accepting characters *)

Lemma accept_chr_settles c s new : good s -> Forall good new -> exists new', settles (fun fuel => llama_grammar_accept_chr fuel rules c new s) new' /\ Forall good new' /\
  (forall t, t ∈ new' <-> t ∈ new \/ (exists s', reads s (Chr c) s' /\ rtc step s' t /\ ready t)) /\ (forall w, stacks_lang rules new' w <-> stacks_lang rules new w \/ stack_lang rules s (Chr c :: w)).
Proof.
  intros Hs Hn. destruct (accept_chr_cases s c Hs) as [(Hno & E)|(s' & Hr & Hu & E)].
  - exists new. split; [exists 0; intros fuel _; apply E|]. split; [done|]. split; [intros t|intros w; rewrite (lang_reads s) by done]; naive_solver.
  - destruct (advance_settles s' new) as (new' & H1 & H2 & H3 & H4); [destruct Hs; by eapply reads_valid|done|]. exists new'. split; [by apply (settles_ext _ (fun fuel => llama_grammar_advance_stack fuel rules s' new))|]. split; [done|]. split.
    + intros t. rewrite H3. naive_solver.
    + intros w. rewrite H4, (lang_reads s) by done. naive_solver.
Qed.

Lemma accept_settles c ss : Forall good ss -> exists ss', settles (fun fuel => llama_grammar_accept fuel rules ss c) ss' /\ Forall good ss' /\
  (forall t, t ∈ ss' <-> exists s, s ∈ ss /\ exists s', reads s (Chr c) s' /\ rtc step s' t /\ ready t) /\ (forall w, stacks_lang rules ss' w <-> stacks_lang rules ss (Chr c :: w)).
Proof.
  intros Hss. rewrite Forall_forall in Hss. unfold llama_grammar_accept.
  apply (settles_foldM (fun fuel new s => llama_grammar_accept_chr fuel rules c new s) (fun pre ss' => Forall good ss' /\
    (forall t, t ∈ ss' <-> exists s, s ∈ pre /\ exists s', reads s (Chr c) s' /\ rtc step s' t /\ ready t) /\ (forall w, stacks_lang rules ss' w <-> stacks_lang rules pre (Chr c :: w)))).
  - split; [done|]. split; [intros t; split; [by intros ?%not_elem_of_nil|]|intros w; split]; by intros (s & ?%not_elem_of_nil & _).
  - intros pre s ss' Hin (Hg & Ht & Hw). destruct (accept_chr_settles c s ss' (Hss s Hin) Hg) as (ss1 & H1 & H2 & H3 & H4). exists ss1. split; [done|]. split; [done|]. split.
    + intros t. by rewrite H3, Ht, exists_snoc.
    + intros w. rewrite H4, Hw. unfold stacks_lang. by rewrite exists_snoc.
Qed.

Lemma accept_all cs ss : Forall good ss -> exists ss', settles (fun fuel => foldM (llama_grammar_accept fuel rules) cs ss) ss' /\ Forall good ss' /\
  (forall w, stacks_lang rules ss' w <-> stacks_lang rules ss (map Chr cs ++ w)).
Proof.
  intros Hss. apply (settles_foldM (fun fuel => llama_grammar_accept fuel rules) (fun pre ss' => Forall good ss' /\ forall w, stacks_lang rules ss' w <-> stacks_lang rules ss (map Chr pre ++ w))); [done|].
  intros pre c ss' _ (Hg & Hw). destruct (accept_settles c ss' Hg) as (ss1 & H1 & H2 & _ & H4). exists ss1. split; [done|]. split; [done|]. intros w. rewrite H4, Hw, map_app, <- app_assoc. done.
Qed.
(** ** Construction *)

Lemma initial_settles r : r < length rules -> exists ss, settles (fun fuel => initial_stacks fuel rules r) ss /\ Forall good ss /\ (forall w, stacks_lang rules ss w <-> rule_derives rules r w).
Proof.
  intros Hr. destruct (lookup_lt_is_Some_2 rules r Hr) as [rule Hrule]. assert (seq_wf rules rule) as Hrw by (unfold rules_wf in Hwf; rewrite Forall_forall in Hwf; apply Hwf; by eapply list_elem_of_lookup_2).
  destruct (alternate_starts_ok rules rule Hrw [] 0) as (js & E & Ejs). cbn [length app] in E, Ejs.
  assert ((fun j => drop j rule) <$> (0 :: js) = alternates rule) as Eall by (cbn [fmap list_fmap]; by rewrite Ejs).
  pose proof (alternates_wf rules rule Hrw) as Halt. rewrite Forall_forall in Halt.
  destruct (settles_foldM (fun fuel ss j => stack ← push_unless_end rules (r, j) []; llama_grammar_advance_stack fuel rules stack ss)
    (fun pre ss => Forall good ss /\ forall w, stacks_lang rules ss w <-> exists j, j ∈ pre /\ derives rules (drop j rule) w) (0 :: js) []) as (ss & H1 & Hg & Hw).
  - split; [done|]. intros w. split; by intros (j & ?%not_elem_of_nil & _).
  - intros pre j ss Hj (Hg & Hw). assert (suffix_at rules (r, j) (drop j rule)) as Hp by (by exists rule). assert (seq_wf rules (drop j rule)) as Hl by (apply Halt; rewrite <- Eall; apply list_elem_of_fmap; exists j; split; [reflexivity|exact Hj]).
    destruct (advance_settles (pushed (r, j) (drop j rule) []) ss) as (ss' & H1 & H2 & _ & H4); [apply pushed_valid; [exact Hp|exact Hl|constructor]|exact Hg|]. exists ss'. split; [|split; [done|]].
    + eapply settles_ext; [|exact H1]. intros fuel. by rewrite (push_ok rules _ _ _ Hp Hl).
    + intros w. rewrite H4, Hw, exists_snoc. rewrite (pushed_lang rules _ _ _ _ Hp Hl). cbn [stack_lang].
      enough ((exists w1 w2, w = w1 ++ w2 /\ derives rules (drop j rule) w1 /\ w2 = []) <-> derives rules (drop j rule) w) as -> by done.
      split; [intros (w1 & w2 & -> & H & ->); by rewrite app_nil_r|]. intros H. exists w, []. by rewrite app_nil_r.
  - exists ss. split; [|split; [done|]].
    + eapply settles_ext; [|exact H1]. intros fuel. unfold initial_stacks. rewrite (vec_get_Some _ _ _ Hrule). cbn [mbind outcome_bind]. by rewrite E.
    + intros w. rewrite Hw. unfold rule_derives. split.
      * intros (j & Hj & H). exists rule, (drop j rule). split; [done|]. split; [|done]. rewrite <- Eall. apply list_elem_of_fmap. by exists j.
      * intros (rule' & alt & Hr' & Ha & H). assert (rule' = rule) as -> by congruence. rewrite <- Eall in Ha. apply list_elem_of_fmap in Ha as (j & -> & Hj). by exists j.
Qed.
End accept.

Lemma refs_ok_defined rules : Forall (refs_ok rules) rules -> refs_defined rules = true.
Proof.
  intros H. apply forallb_forall. intros rule Hin. rewrite Forall_forall in H. apply list_elem_of_In in Hin. specialize (H rule Hin). apply forallb_forall. intros e He. apply list_elem_of_In in He.
  unfold refs_ok in H. rewrite Forall_forall in H. specialize (H e He). destruct (has_type GRETYPE_RULE_REF e) eqn:Et; [|done]. apply has_type_true in Et. cbn [negb orb]. by apply Nat.ltb_lt, H.
Qed.

(** The whole construction, when no rule starts itself. *)
Lemma init_settles raw rules r : mapM copy_rule raw = Ok rules -> rules_wf rules -> no_self_start rules -> r < length rules ->
  exists ss, settles (fun fuel => llama_grammar_init_impl fuel raw r) (Some (mk_grammar rules ss (mk_partial 0 0) false false [] [] [] [])) /\
    Forall (good rules) ss /\ forall w, stacks_lang rules ss w <-> rule_derives rules r w.
Proof.
  intros Hc Hwf Hns Hr. pose proof (rules_wf_refs _ Hwf) as Hrefs. destruct (left_recursion_ok rules (rules_wf_end_last _ Hwf) Hrefs) as ([|] & E & Hfound & _); [by destruct (Hfound eq_refl)|].
  destruct (initial_settles rules Hwf Hns r Hr) as (ss & (n & Hn) & Hg & Hw). exists ss. split; [|done]. exists n. intros fuel Hf. unfold llama_grammar_init_impl.
  rewrite Hc. cbn [mbind outcome_bind]. rewrite (refs_ok_defined _ Hrefs). cbn [negb]. rewrite E. cbn [mbind outcome_bind]. by rewrite Hn.
Qed.
