(* ===== verification/GrammarReject.v ===== *)
(** * Grammars: rejecting candidates

    A candidate is rejected by a set of stacks exactly when no stack survives its
    characters: the look-ahead over all candidates at once agrees with accepting them one
    by one. *)

From S2P Require Export GrammarAccept.
Open Scope nat_scope.

Section reject.
Context (rules : llama_grammar_rules) (Hwf : rules_wf rules).
Notation step := (step rules).
Notation ready := (ready rules).
Notation reads := (reads rules).
Notation good := (good rules).

(** A stack can read the characters, as far as they go. *)
Fixpoint survives (s : llama_grammar_stack) (cs : list Z) : Prop :=
  match cs with
  | [] => True
  | c :: cs => exists s', reads s (Chr c) s' /\ exists t, rtc step s' t /\ ready t /\ survives t cs
  end.

(** No token elements. *)
Definition token_free : Prop := forall r rule e, rules !! r = Some rule -> e ∈ rule -> is_token_element e = false.

(** What a candidate still has to offer. *)
Definition chars_left (tok : llama_grammar_candidate) : list Z := removelast (drop (gc_offset tok) (gc_code_points tok)).

(** A text of whole characters, ended by 0. *)
Definition complete (tok : llama_grammar_candidate) : Prop :=
  exists cs, drop (gc_offset tok) (gc_code_points tok) = cs ++ [0%Z] /\ 0%Z ∉ cs /\ pu_n_remain (gc_partial tok) = 0%Z.

Lemma complete_chars tok : complete tok -> drop (gc_offset tok) (gc_code_points tok) = chars_left tok ++ [0%Z] /\ 0%Z ∉ chars_left tok /\ pu_n_remain (gc_partial tok) = 0%Z.
Proof. intros (cs & E & H). unfold chars_left. rewrite E, removelast_last. done. Qed.

Lemma complete_char tok : complete tok -> gc_char tok = Ok (default 0%Z (head (chars_left tok))).
Proof.
  intros (E & _)%complete_chars. apply vec_get_Some. rewrite <- (Nat.add_0_r (gc_offset tok)), <- lookup_drop, E. by destruct (chars_left tok).
Qed.

Lemma complete_zero tok : complete tok -> (default 0%Z (head (chars_left tok)) =? 0)%Z = bool_decide (chars_left tok = []).
Proof.
  intros (_ & H & _)%complete_chars. destruct (chars_left tok) as [|c cs]; [done|]. rewrite bool_decide_eq_false_2 by done. apply Z.eqb_neq. cbn. intros ->. apply H. by left.
Qed.

(** One character on. *)
Definition ahead (tok : llama_grammar_candidate) : llama_grammar_candidate := gc_move (gc_offset tok + 1) tok.

Lemma ahead_complete tok : complete tok -> chars_left tok <> [] -> complete (ahead tok) /\ chars_left (ahead tok) = tail (chars_left tok).
Proof.
  intros (E & H & Hp)%complete_chars Hne. destruct (chars_left tok) as [|c cs] eqn:Ec; [done|].
  assert (drop (gc_offset tok + 1) (gc_code_points tok) = cs ++ [0%Z]) as E1 by (by rewrite <- drop_drop, E). split.
  - exists cs. split; [done|]. split; [|done]. intros Hz. apply H. by right.
  - unfold chars_left, ahead. cbn [gc_move gc_offset gc_code_points]. by rewrite E1, removelast_last.
Qed.

Lemma ahead_back tok : gc_move (gc_offset (ahead tok) - 1) (ahead tok) = tok.
Proof. destruct tok. unfold ahead, gc_move. cbn. by rewrite Nat.add_sub. Qed.

(** ** One step of the loop *)

Definition verdict (e : llama_grammar_element) (items : list class_item) (tok : llama_grammar_candidate) : char_verdict :=
  match chars_left tok with [] => Drop | c :: _ => if class_has e items c then Keep else Reject end.

Lemma char_step_ok p e l items after tok : suffix_at rules p (e :: l) -> class_start e = true -> char_class (e :: l) items after -> complete tok ->
  char_step rules p tok = Ok (verdict e items tok).
Proof.
  intros Hp He Hc Ht. unfold char_step. rewrite (complete_char _ Ht). cbn [mbind outcome_bind]. rewrite (complete_zero _ Ht). unfold verdict. pose proof (complete_chars _ Ht) as (_ & _ & ->).
  destruct (chars_left tok) as [|c cs]; [done|]. rewrite bool_decide_eq_false_2 by done. by rewrite (match_char_ok _ _ _ _ _ _ _ Hp He Hc).
Qed.

Lemma char_split_ok p e l items after toks : suffix_at rules p (e :: l) -> class_start e = true -> char_class (e :: l) items after -> Forall complete toks ->
  exists acc, foldM (char_split rules p) toks ([], []) = Ok acc /\
    (forall tok, tok ∈ acc.1 <-> tok ∈ toks /\ verdict e items tok = Reject) /\ (forall tok, tok ∈ acc.2 <-> exists tok0, tok = ahead tok0 /\ tok0 ∈ toks /\ verdict e items tok0 = Keep).
Proof.
  intros Hp He Hc Ht. assert (forall suf acc, Forall complete suf -> exists acc', foldM (char_split rules p) suf acc = Ok acc' /\
    (forall tok, tok ∈ acc'.1 <-> tok ∈ acc.1 \/ (tok ∈ suf /\ verdict e items tok = Reject)) /\
    (forall tok, tok ∈ acc'.2 <-> tok ∈ acc.2 \/ exists tok0, tok = ahead tok0 /\ tok0 ∈ suf /\ verdict e items tok0 = Keep)) as H.
  { clear toks Ht. induction suf as [|tok suf IH]; intros acc Hs.
    - exists acc. split; [done|]. setoid_rewrite elem_of_nil. naive_solver.
    - apply Forall_cons in Hs as [Ht Hs]. cbn [foldM]. replace (char_split rules p acc tok) with (Ok match verdict e items tok with Reject => (acc.1 ++ [tok], acc.2) | Keep => (acc.1, acc.2 ++ [ahead tok]) | Drop => acc end)
        by (unfold char_split; by rewrite (char_step_ok _ _ _ _ _ _ Hp He Hc Ht)). cbn [mbind outcome_bind].
      destruct (verdict e items tok) eqn:Ev; match goal with |- context [foldM _ suf ?a] => destruct (IH a Hs) as (acc' & E & H1 & H2) end; exists acc'; (split; [done|]); cbn [fst snd] in *; split; intros t; rewrite ?H1, ?H2;
        setoid_rewrite elem_of_cons; try setoid_rewrite elem_of_app; try setoid_rewrite list_elem_of_singleton; naive_solver congruence. }
  destruct (H toks ([], []) Ht) as (acc & E & H1 & H2). exists acc. split; [done|]. cbn [fst snd] in *. setoid_rewrite elem_of_nil in H1. setoid_rewrite elem_of_nil in H2. naive_solver.
Qed.

Lemma reject_at_end_one tok : complete tok -> reject_at_end tok = Ok (negb (bool_decide (chars_left tok = []))).
Proof.
  intros Ht. unfold reject_at_end. rewrite (complete_char _ Ht). cbn [mbind outcome_bind]. rewrite (complete_zero _ Ht). pose proof (complete_chars _ Ht) as (_ & _ & ->). by rewrite orb_false_r.
Qed.

Lemma reject_at_end_ok toks : Forall complete toks -> exists rejects, filterM reject_at_end toks = Ok rejects /\ forall tok, tok ∈ rejects <-> tok ∈ toks /\ chars_left tok <> [].
Proof.
  intros Ht. unfold filterM. assert (forall suf acc, Forall complete suf -> exists acc', foldM (fun acc tok => b ← reject_at_end tok; Ok (if (b : bool) then acc ++ [tok] else acc)) suf acc = Ok acc' /\
    forall tok, tok ∈ acc' <-> tok ∈ acc \/ (tok ∈ suf /\ chars_left tok <> [])) as H.
  { clear toks Ht. induction suf as [|tok suf IH]; intros acc Hs.
    - exists acc. split; [done|]. setoid_rewrite elem_of_nil. naive_solver.
    - apply Forall_cons in Hs as [Ht Hs]. cbn [foldM]. rewrite (reject_at_end_one _ Ht). cbn [mbind outcome_bind].
      destruct (decide (chars_left tok = [])) as [Hc|Hc]; [rewrite bool_decide_eq_true_2 by done|rewrite bool_decide_eq_false_2 by done]; cbn [negb]; match goal with |- context [foldM _ suf ?a] => destruct (IH a Hs) as (acc' & E & H1) end;
        exists acc'; (split; [done|]); intros t; rewrite H1; setoid_rewrite elem_of_cons; try setoid_rewrite elem_of_app; try setoid_rewrite list_elem_of_singleton; naive_solver. }
  destruct (H toks [] Ht) as (acc & E & H1). exists acc. split; [done|]. setoid_rewrite elem_of_nil in H1. naive_solver.
Qed.
(** ** Survivors *)

Lemma token_free_top p e l : token_free -> suffix_at rules p (e :: l) -> is_token_element e = false.
Proof.
  intros Hf (rule & Hr & Hd). apply (Hf _ _ _ Hr). rewrite <- (take_drop p.2 rule), Hd. apply elem_of_app. right. by left.
Qed.

Lemma survives_nil cs : survives [] cs <-> cs = [].
Proof. destruct cs as [|c cs]; [done|]. split; [|done]. intros (s' & H & _). inversion H. Qed.

Lemma survives_class p e l items after s c cs : suffix_at rules p (e :: l) -> class_start e = true -> char_class (e :: l) items after ->
  survives (p :: s) (c :: cs) <-> class_has e items c = true /\ exists t, rtc step (pushed (p.1, p.2 + (length (e :: l) - length after)) after s) t /\ ready t /\ survives t cs.
Proof.
  intros Hp He Hc. split; [|intros (Hh & H); eexists; split; [by eapply reads_class|done]]. intros (s' & H & Ht).
  inversion H as [p' e' l' items' after' s1 c' Hp' He' Hc' Hh|]; subst. pose proof (suffix_unique _ _ _ _ Hp Hp') as [= <- <-]. destruct (class_unique _ _ _ _ _ c Hc Hc') as [<- Hi].
  split; [|done]. unfold class_has in *. by rewrite Hi.
Qed.

Lemma ends_ready s : stack_ok rules s -> ends rules s -> exists t, rtc step s t /\ ready t.
Proof.
  intros Hs H. induction H as [s _ IH]. destruct (round rules Hwf s Hs) as [(Hr & _)|(ss & Hne & Hss & _)]; [by exists s|]. destruct ss as [|s' ss]; [done|].
  assert (step s s') as Hst by (apply Hss; by left). destruct (IH s' Hst) as (t & H1 & H2); [by eapply step_valid|]. exists t. split; [by eapply rtc_l|done].
Qed.

(** ** The rejects *)

(** What a function that rejects for one stack promises, on candidates with at most [n]
    characters left. *)
Definition rejects_for (n : nat) (f : nat -> llama_grammar_stack -> list llama_grammar_candidate -> outcome (list llama_grammar_candidate)) : Prop :=
  forall s toks, good s -> Forall complete toks -> (forall tok, tok ∈ toks -> length (chars_left tok) <= n) ->
    exists rejects, settles (fun fuel => f fuel s toks) rejects /\ forall tok, tok ∈ rejects <-> tok ∈ toks /\ ~ survives s (chars_left tok).

Lemma reject_by_settles n f ss toks : rejects_for n f -> ss <> [] -> Forall good ss -> Forall complete toks -> (forall tok, tok ∈ toks -> length (chars_left tok) <= n) ->
  exists rejects, settles (fun fuel => reject_by (f fuel) ss toks) rejects /\ forall tok, tok ∈ rejects <-> tok ∈ toks /\ forall s, s ∈ ss -> ~ survives s (chars_left tok).
Proof.
  intros Hf Hne Hss Ht Hn. unfold reject_by. replace (negb (length ss =? 0)) with true by (by destruct ss). cbn [assert_ mbind outcome_bind].
  destruct (length toks =? 0) eqn:E0; [exists []; split; [apply settles_ret|]; destruct toks; [|done]; setoid_rewrite elem_of_nil; naive_solver|]. clear E0.
  rewrite Forall_forall in Hss. rewrite Forall_forall in Ht.
  apply (settles_foldM (fun fuel rejects s => f fuel s rejects) (fun pre rejects => forall tok, tok ∈ rejects <-> tok ∈ toks /\ forall s, s ∈ pre -> ~ survives s (chars_left tok))).
  - setoid_rewrite elem_of_nil. naive_solver.
  - intros pre s rejects Hs Hr. destruct (Hf s rejects (Hss s Hs)) as (rejects' & H1 & H2); [apply Forall_forall; intros; by apply Ht, Hr|intros; by apply Hn, Hr|].
    exists rejects'. split; [done|]. intros tok. rewrite H2, Hr. setoid_rewrite elem_of_app. setoid_rewrite list_elem_of_singleton. naive_solver.
Qed.

Context (Hns : no_self_start rules) (Hfree : token_free).

(** One stack with a class on top, given the promise for what follows. *)
Lemma reject_class_settles depth n p e l items after s toks : suffix_at rules p (e :: l) -> class_start e = true -> char_class (e :: l) items after -> seq_wf rules after -> stack_ok rules s ->
  (0 < n -> rejects_for (n - 1) (fun fuel => llama_grammar_reject_candidates_for_stack depth fuel rules)) ->
  Forall complete toks -> (forall tok, tok ∈ toks -> length (chars_left tok) <= n) ->
  exists rejects, settles (fun fuel => llama_grammar_reject_candidates_for_stack (S depth) fuel rules (p :: s) toks) rejects /\ forall tok, tok ∈ rejects <-> tok ∈ toks /\ ~ survives (p :: s) (chars_left tok).
Proof.
  intros Hp He Hc Ha Hs Hf Ht Hn. destruct (char_split_ok _ _ _ _ _ _ Hp He Hc Ht) as (acc & E & H1 & H2). rewrite Forall_forall in Ht.
  set (s1 := pushed (p.1, p.2 + (length (e :: l) - length after)) after s). assert (stack_ok rules s1) as Hs1 by (apply pushed_valid; [by eapply class_after|done|done]).
  destruct (advance_settles rules Hwf Hns s1 [] Hs1) as (next & H3 & H4 & H5 & _); [done|].
  assert (next <> []) as Hne. { destruct (ends_ready s1 Hs1 (stack_ends rules Hwf s1 Hns Hs1)) as (t & Ht1 & Ht2). intros ->. apply (not_elem_of_nil t), H5. by right. }
  assert (forall tok, tok ∈ acc.2 -> exists tok0, tok = ahead tok0 /\ tok0 ∈ toks /\ complete tok /\ chars_left tok0 <> [] /\ chars_left tok = tail (chars_left tok0)) as H6.
  { intros tok (tok0 & -> & Hin & Hv)%H2. assert (chars_left tok0 <> []) as Hne0 by (intros E0; unfold verdict in Hv; by rewrite E0 in Hv). exists tok0. destruct (ahead_complete tok0 (Ht _ Hin) Hne0). done. }
  assert (exists rejects, settles (fun fuel => reject_by (llama_grammar_reject_candidates_for_stack depth fuel rules) next acc.2) rejects /\
    forall tok, tok ∈ rejects <-> tok ∈ acc.2 /\ forall t, t ∈ next -> ~ survives t (chars_left tok)) as (rejects & H7 & H8).
  { destruct (decide (acc.2 = [])) as [Hnil|Hnil].
    - exists []. rewrite Hnil. split; [|setoid_rewrite elem_of_nil; naive_solver]. exists 0. intros fuel _. unfold reject_by. by destruct next.
    - apply (reject_by_settles (n - 1)); [|done|done|apply Forall_forall; intros tok Hin; by destruct (H6 tok Hin) as (? & _ & _ & ? & _)|].
      + apply Hf. destruct acc.2 as [|tok l0] eqn:El; [done|]. destruct (H6 tok ltac:(by left)) as (tok0 & _ & Hin & _ & Hne0 & _). specialize (Hn _ Hin). destruct (chars_left tok0); [done|]. cbn [length] in Hn. lia.
      + intros tok Hin. destruct (H6 tok Hin) as (tok0 & _ & Hin0 & _ & Hne0 & ->). specialize (Hn _ Hin0). destruct (chars_left tok0); [done|]. cbn [tail length] in *. lia. }
  exists (acc.1 ++ ((fun tok => gc_move (gc_offset tok - 1) tok) <$> rejects)). split.
  - assert (settles (fun fuel => next_stacks ← llama_grammar_advance_stack fuel rules s1 []; next_rejects ← reject_by (llama_grammar_reject_candidates_for_stack depth fuel rules) next_stacks acc.2;
      Ok (acc.1 ++ ((fun tok => gc_move (gc_offset tok - 1) tok) <$> next_rejects))) (acc.1 ++ ((fun tok => gc_move (gc_offset tok - 1) tok) <$> rejects))) as Hset.
    { apply (settles_bind (fun fuel => llama_grammar_advance_stack fuel rules s1 []) (fun fuel next_stacks => next_rejects ← reject_by (llama_grammar_reject_candidates_for_stack depth fuel rules) next_stacks acc.2;
        Ok (acc.1 ++ ((fun tok => gc_move (gc_offset tok - 1) tok) <$> next_rejects))) next); [done|]. eapply (settles_bind _ (fun _ r => Ok _)); [exact H7|apply settles_ret]. }
    eapply settles_ext; [|exact Hset]. intros fuel. cbn [llama_grammar_reject_candidates_for_stack]. rewrite (suffix_elem _ _ _ _ Hp). cbn [mbind outcome_bind]. rewrite (token_free_top _ _ _ Hfree Hp).
    rewrite E. cbn [mbind outcome_bind]. rewrite (match_char_ok _ _ _ _ _ _ 0%Z Hp He Hc). cbn [mbind outcome_bind snd]. by rewrite (push_ok rules _ _ _ (class_after _ _ _ _ _ _ Hp Hc) Ha).
  - intros tok. rewrite elem_of_app, H1, list_elem_of_fmap. setoid_rewrite H8. split.
    + intros [[Hin Hv]|(tok1 & -> & Hin1 & Hno)].
      * split; [done|]. unfold verdict in Hv. destruct (chars_left tok) as [|c cs]; [done|]. rewrite (survives_class _ _ _ _ _ _ _ _ Hp He Hc). destruct (class_has e items c); [done|]. by intros [? _].
      * apply H2 in Hin1 as Hin2. destruct Hin2 as (tok0 & -> & Hin & Hv). rewrite ahead_back. split; [done|]. destruct (H6 _ Hin1) as (tok0' & E0 & _ & _ & _ & Ecs).
        assert (tok0' = tok0) as -> by (by rewrite <- (ahead_back tok0'), <- E0, ahead_back). rewrite Ecs in Hno. unfold verdict in Hv. destruct (chars_left tok0) as [|c cs]; [done|].
        rewrite (survives_class _ _ _ _ _ _ _ _ Hp He Hc). intros (_ & t & Hst & Hr & Hsur). apply (Hno t); [apply H5; by right|done].
    + intros [Hin Hno]. assert (chars_left tok <> []) as Hne0 by (intros E0; by rewrite E0 in Hno). destruct (verdict e items tok) eqn:Hv; [by left| |unfold verdict in Hv; destruct (chars_left tok) as [|c cs]; [done|by destruct (class_has e items c)]].
      right. exists (ahead tok). split; [by rewrite ahead_back|]. split; [apply H2; by exists tok|]. intros t Ht1 Hsur. apply Hno. destruct (ahead_complete tok (Ht _ Hin) Hne0) as [_ Ecs]. rewrite Ecs in Hsur.
      unfold verdict in Hv. destruct (chars_left tok) as [|c cs]; [done|]. rewrite (survives_class _ _ _ _ _ _ _ _ Hp He Hc). destruct (class_has e items c); [|done]. split; [done|]. exists t.
      apply H5 in Ht1 as [?%not_elem_of_nil|[? ?]]; done.
Qed.

Lemma reject_settles n : rejects_for n (fun fuel => llama_grammar_reject_candidates_for_stack (S n) fuel rules).
Proof.
  induction n as [|n IH]; intros s toks Hs Ht Hn; (destruct (good_cases rules s Hs) as [->|[(p & e & l & s0 & _ & Hp & He & _)|(p & e & l & s0 & items & after & -> & Hp & _ & He & Hc & Ha & Hs0)]]; [|by rewrite (token_free_top _ _ _ Hfree Hp) in He|]).
  1, 3: destruct (reject_at_end_ok toks Ht) as (rejects & E & H); exists rejects; split; [exists 0; intros fuel _; exact E|]; intros tok; by rewrite H, survives_nil.
  - eapply reject_class_settles; try done. lia.
  - eapply (reject_class_settles _ (S n)); try done. intros _. replace (S n - 1) with n by lia. exact IH.
Qed.
End reject.
