(* ===== verification/GrammarToken.v ===== *)
(** * Grammars: accepting tokens and applying a grammar

    What the stacks are after a token, by its id or by its characters; and that applying a
    grammar to candidates forbids exactly the tokens it would then refuse. *)

From S2P Require Export GrammarReject.
Open Scope nat_scope.

Section token.
Context (rules : llama_grammar_rules) (Hwf : rules_wf rules) (Hns : no_self_start rules).
Notation reads := (reads rules).
Notation good := (good rules).
Notation survives := (survives rules).

(** ** The characters of a token *)

Lemma accept_chars_settles cs : forall ss, Forall good ss -> exists ss', settles (fun fuel => accept_chars fuel rules ss cs) ss' /\ Forall good ss' /\
  (ss' <> [] <-> exists s, s ∈ ss /\ survives s cs) /\ (forall w, stacks_lang rules ss' w <-> stacks_lang rules ss (map Chr cs ++ w)).
Proof.
  induction cs as [|c cs IH]; intros ss Hss; cbn [accept_chars].
  - exists ss. split; [apply settles_ret|]. split; [done|]. split; [|done]. destruct ss as [|s ss]; [split; [done|]; by intros (s & ?%not_elem_of_nil & _)|]. split; [|done]. intros _. exists s. split; [by left|done].
  - destruct (accept_settles rules Hwf Hns c ss Hss) as (next & H1 & H2 & H3 & H4).
    assert ((exists s, s ∈ ss /\ survives s (c :: cs)) <-> exists t, t ∈ next /\ survives t cs) as Hsur.
    { setoid_rewrite H3. cbn [GrammarReject.survives]. split; [intros (s & Hs & s' & Hr & t & ? & ? & ?)|intros (t & (s & Hs & s' & Hr & ? & ?) & ?)]; [exists t; split; [|done]; exists s|exists s; split; [done|]; exists s'; split; [done|]; by exists t].
      split; [done|]. by exists s'. }
    setoid_rewrite Hsur. destruct (length next =? 0) eqn:E0.
    + destruct next as [|? ?]; [|done]. exists []. split; [|split; [done|split]].
      * eapply (settles_bind _ (fun fuel next_stacks => if length next_stacks =? 0 then Ok [] else accept_chars fuel rules next_stacks cs)); [exact H1|apply settles_ret].
      * split; [done|]. by intros (t & ?%not_elem_of_nil & _).
      * intros w. cbn [map app]. rewrite <- H4. split; by intros (? & ?%not_elem_of_nil & _).
    + destruct (IH next H2) as (ss' & H5 & H6 & H7 & H8). exists ss'. split; [|split; [done|split; [done|]]].
      * eapply (settles_bind _ (fun fuel next_stacks => if length next_stacks =? 0 then Ok [] else accept_chars fuel rules next_stacks cs)); [exact H1|]. by rewrite E0.
      * intros w. by rewrite H8, H4.
Qed.

Lemma add_stacks_elem ss t : forall new, t ∈ foldl (fun acc s => add_stack s acc) new ss <-> t ∈ new \/ t ∈ ss.
Proof. induction ss as [|s ss IH]; intros new; cbn [foldl]; [rewrite elem_of_nil; tauto|]. rewrite IH, add_stack_elem, elem_of_cons. tauto. Qed.

(** A stack goes on with a token: by its id, or by its characters. *)
Definition takes_token (t : Z) (cs : list Z) (s : llama_grammar_stack) : Prop := (exists s', reads s (Tok t) s') \/ survives s cs.

Lemma reads_token_top p e l s x s' : suffix_at rules p (e :: l) -> is_token_element e = true -> reads (p :: s) x s' -> exists t, x = Tok t /\ token_has e t = true /\ s' = pushed (pos_next p) l s.
Proof.
  intros Hp He H. inversion H as [p' e' l' items after s1 c' Hp' He'|p' e' l' s1 t Hp' He' Ht]; subst; pose proof (suffix_unique _ _ _ _ Hp Hp') as [= <- <-]; [gtypes|by exists t].
Qed.

Lemma reads_class_top p e l s t s' : suffix_at rules p (e :: l) -> is_token_element e = false -> ~ reads (p :: s) (Tok t) s'.
Proof. intros Hp He H. inversion H as [|p' e' l' s1 t' Hp' He' Ht]; subst. pose proof (suffix_unique _ _ _ _ Hp Hp') as [= <- <-]. congruence. Qed.

Lemma lang_other s x w : good s -> (forall s', ~ reads s x s') -> ~ stack_lang rules s (x :: w).
Proof. intros Hs H (s' & Hr & _)%(lang_reads rules Hwf); [|done]. by apply (H s'). Qed.

Lemma token_stack_settles t c cs s new : good s -> Forall good new -> exists new', settles (fun fuel => accept_token_stack fuel rules t (c :: cs) new s) new' /\ Forall good new' /\
  (new' <> [] <-> new <> [] \/ takes_token t (c :: cs) s) /\
  (forall w, stacks_lang rules new' w <-> stacks_lang rules new w \/ stack_lang rules s (Tok t :: w) \/ stack_lang rules s (map Chr (c :: cs) ++ w)).
Proof.
  intros Hs Hn. unfold takes_token. destruct (good_cases rules s Hs) as [->|[(p & e & l & s0 & -> & Hp & He & Hl & Hs0)|(p & e & l & s0 & items & after & -> & Hp & He & _)]].
  - exists new. split; [apply settles_ret|]. split; [done|]. split.
    + split; [by left|]. intros [?|[(s' & H)|H]]; [done|inversion H|by apply survives_nil in H].
    + intros w. split; [by left|]. intros [?|[H|H]]; done.
  - assert (forall w, ~ stack_lang rules (p :: s0) (map Chr (c :: cs) ++ w)) as Hc. { intros w. apply lang_other; [done|]. intros s' Hr. by destruct (reads_token_top _ _ _ _ _ _ Hp He Hr) as (? & ? & _). }
    assert (~ survives (p :: s0) (c :: cs)) as Hsv by (intros (s' & Hr & _); by destruct (reads_token_top _ _ _ _ _ _ Hp He Hr) as (? & ? & _)).
    destruct (token_has e t) eqn:Et.
    + assert (reads (p :: s0) (Tok t) (pushed (pos_next p) l s0)) as Hr by (by eapply reads_token). assert (stack_ok rules (pushed (pos_next p) l s0)) as Hok by (exact (reads_valid rules _ _ _ (proj1 Hs) Hr)).
      destruct (advance_settles rules Hwf Hns _ new Hok Hn) as (new' & H1 & H2 & H3 & H4). exists new'. split; [|split; [done|split]].
      * eapply settles_ext; [|exact H1]. intros fuel. by rewrite (token_stack_cases rules _ _ _ _ _ _ _ _ Hp He Hl), Et.
      * split; [intros _; right; left; by eexists|]. intros _ ->. destruct (ends_ready rules Hwf _ Hok (stack_ends rules Hwf _ Hns Hok)) as (t' & ? & ?). apply (not_elem_of_nil t'), H3. by right.
      * intros w. rewrite H4, (lang_reads rules Hwf) by done. specialize (Hc w). split; [intros [?|?]; [by left|right; left; by eexists]|]. intros [?|[(s' & Hr' & H)|?]]; [by left|right|done].
        destruct (reads_token_top _ _ _ _ _ _ Hp He Hr') as (t' & _ & _ & ->). done.
    + assert (forall s', ~ reads (p :: s0) (Tok t) s') as Hno. { intros s' Hr. destruct (reads_token_top _ _ _ _ _ _ Hp He Hr) as (t' & [= <-] & ? & _). congruence. }
      exists new. split; [exists 0; intros fuel _; by rewrite (token_stack_cases rules _ _ _ _ _ _ _ _ Hp He Hl), Et|]. split; [done|]. split.
      * split; [by left|]. intros [?|[(s' & H)|H]]; [done|by apply Hno in H|done].
      * intros w. split; [by left|]. intros [?|[H|H]]; [done|by apply lang_other in H|by apply Hc in H].
  - destruct (accept_chars_settles (c :: cs) [p :: s0]) as (ss' & H1 & H2 & H3 & H4); [by constructor|]. exists (foldl (fun acc s => add_stack s acc) new ss'). split; [|split; [|split]].
    + eapply settles_ext; [|eapply (settles_bind _ (fun _ surviving => Ok (foldl (fun acc s => add_stack s acc) new surviving))); [exact H1|apply settles_ret]].
      intros fuel. unfold accept_token_stack. rewrite (suffix_elem _ _ _ _ Hp). cbn [mbind outcome_bind]. by rewrite He.
    + rewrite Forall_forall in Hn, H2. apply Forall_forall. intros s [?|?]%add_stacks_elem; auto.
    + assert (survives (p :: s0) (c :: cs) <-> ss' <> []) as ->. { rewrite H3. setoid_rewrite list_elem_of_singleton. naive_solver. }
      assert (foldl (fun acc s => add_stack s acc) new ss' = [] <-> new = [] /\ ss' = []) as ->.
      { split; [intros E|by intros [-> ->]]. assert (forall s, ~ (s ∈ new \/ s ∈ ss')) as Hno by (intros s Hin; apply (add_stacks_elem ss' s new) in Hin; rewrite E in Hin; by apply not_elem_of_nil in Hin).
        split; [destruct new as [|s ?]|destruct ss' as [|s ?]]; try done; destruct (Hno s); [left|right]; by left. }
      split; [destruct new, ss'; naive_solver|]. intros [?|[(s' & Hr)|?]] [-> ->]; try done. by apply (reads_class_top _ _ _ _ _ _ Hp He) in Hr.
    + intros w. transitivity (stacks_lang rules new w \/ stacks_lang rules ss' w); [unfold stacks_lang; setoid_rewrite add_stacks_elem; naive_solver|]. rewrite H4.
      assert (~ stack_lang rules (p :: s0) (Tok t :: w)) as Hno by (apply lang_other; [done|]; intros s'; by eapply reads_class_top). unfold stacks_lang at 2. setoid_rewrite list_elem_of_singleton. naive_solver.
Qed.

(** ** Accepting a token *)

Lemma token_stacks_settle t c cs ss : Forall good ss -> exists ss', settles (fun fuel => foldM (accept_token_stack fuel rules t (c :: cs)) ss []) ss' /\ Forall good ss' /\
  (ss' <> [] <-> exists s, s ∈ ss /\ takes_token t (c :: cs) s) /\ (forall w, stacks_lang rules ss' w <-> stacks_lang rules ss (Tok t :: w) \/ stacks_lang rules ss (map Chr (c :: cs) ++ w)).
Proof.
  intros Hss. rewrite Forall_forall in Hss.
  apply (settles_foldM (fun fuel => accept_token_stack fuel rules t (c :: cs)) (fun pre ss' => Forall good ss' /\ (ss' <> [] <-> exists s, s ∈ pre /\ takes_token t (c :: cs) s) /\
    forall w, stacks_lang rules ss' w <-> stacks_lang rules pre (Tok t :: w) \/ stacks_lang rules pre (map Chr (c :: cs) ++ w))).
  - split; [done|]. split; [split; [done|by intros (? & ?%not_elem_of_nil & _)]|]. intros w. split; [by intros (? & ?%not_elem_of_nil & _)|]. by intros [(? & ?%not_elem_of_nil & _)|(? & ?%not_elem_of_nil & _)].
  - intros pre s ss' Hin (Hg & Hne & Hw). destruct (token_stack_settles t c cs s ss' (Hss s Hin) Hg) as (ss1 & H1 & H2 & H3 & H4). exists ss1. split; [done|]. split; [done|]. split.
    + by rewrite H3, Hne, exists_snoc.
    + intros w. rewrite H4, Hw. unfold stacks_lang. rewrite !exists_snoc. tauto.
Qed.

(** The whole call: the stacks after the token, and an exception when there are none. *)
Lemma accept_token_settles g t piece c cs p : g_rules g = rules -> Forall good (g_stacks g) -> decode_utf8 piece (g_partial g) = Ok ((c :: cs) ++ [0%Z], p) ->
  exists ss', (exists n, forall fuel, n <= fuel -> llama_grammar_accept_token fuel t piece g = (require_ RuntimeError (negb (length ss' =? 0)), set_stacks ss' p g)) /\ Forall good ss' /\
  (ss' <> [] <-> exists s, s ∈ g_stacks g /\ takes_token t (c :: cs) s) /\
  (forall w, stacks_lang rules ss' w <-> stacks_lang rules (g_stacks g) (Tok t :: w) \/ stacks_lang rules (g_stacks g) (map Chr (c :: cs) ++ w)).
Proof.
  intros Hr Hg E. destruct (token_stacks_settle t c cs (g_stacks g) Hg) as (ss' & (n & Hn) & H2 & H3 & H4). exists ss'. split; [|done]. exists n. intros fuel Hf.
  unfold llama_grammar_accept_token. erewrite stx_bind_Ok by done. erewrite stx_bind_Ok by (unfold stx_lift; by rewrite E).
  erewrite stx_bind_Ok by (unfold stx_lift; cbn [fst]; by rewrite removelast_last, Hr, Hn). done.
Qed.
End token.
