(* ===== verification/GrammarApply.v ===== *)
(** * Grammars: what a sampler is left with

    The candidates a grammar forbids are those it would refuse. *)

From S2P Require Export GrammarToken.
Open Scope nat_scope.

Section apply.
Context (rules : llama_grammar_rules) (Hwf : rules_wf rules) (Hns : no_self_start rules) (Hfree : token_free rules).
Context (vocab : llama_vocab) {L : Type} (minus_infinity : L).
Notation data_t := (list (llama_token_data L)).
Notation good := (good rules).
Notation survives := (survives rules).

(** Every piece is text of whole characters, and not empty. *)
Definition plain_piece (start : llama_partial_utf8) (piece : list Z) : Prop :=
  head piece <> None /\ head piece <> Some 0%Z /\ exists c cs p, decode_utf8 piece start = Ok ((c :: cs) ++ [0%Z], p) /\ 0%Z ∉ c :: cs /\ pu_n_remain p = 0%Z.

Definition plain_data (g : llama_grammar) (data : data_t) : Prop :=
  forall i d, data !! i = Some d -> is_eog vocab (td_id _ d) = false -> plain_piece (g_partial g) (token_to_piece vocab (td_id _ d)).

Lemma token_free_survives s t c cs : good s -> token_free rules -> takes_token rules t (c :: cs) s <-> survives s (c :: cs).
Proof.
  intros Hs Hf. split; [|by right]. intros [(s' & H)|?]; [|done]. exfalso. inversion H as [|p e l s1 t' Hp He Ht]; subst. by rewrite (token_free_top rules _ _ _ Hf Hp) in He.
Qed.

(** ** The candidates *)

Definition forbidden (allow_eog : bool) (d : llama_token_data L) : llama_token_data L :=
  if is_eog vocab (td_id _ d) && negb allow_eog then mk_data _ (td_id _ d) minus_infinity else d.

Record gathered (g : llama_grammar) (allow_eog : bool) (data : data_t) (n : nat) (acc : data_t * list llama_grammar_candidate) : Prop := {
  ga_length : length acc.1 = length data;
  ga_data : forall i d, data !! i = Some d -> acc.1 !! i = Some (if decide (i < n) then forbidden allow_eog d else d);
  ga_cands : forall tok, tok ∈ acc.2 -> complete tok /\ gc_index tok < n /\ exists d, data !! gc_index tok = Some d /\ is_eog vocab (td_id _ d) = false /\
    fst <$> (match decode_utf8 (token_to_piece vocab (td_id _ d)) (g_partial g) with Ok r => Some r | _ => None end) = Some (chars_left tok ++ [0%Z]);
  ga_all : forall i d, i < n -> data !! i = Some d -> is_eog vocab (td_id _ d) = false -> exists tok, tok ∈ acc.2 /\ gc_index tok = i
}.

Lemma forbid_lookup (data : data_t) i d : data !! i = Some d -> forall j, forbid minus_infinity i data !! j = if decide (j = i) then Some (mk_data _ (td_id _ d) minus_infinity) else data !! j.
Proof.
  intros H j. unfold forbid. destruct (decide (j = i)) as [->|]; [|by rewrite list_lookup_alter_ne]. by rewrite list_lookup_alter_eq, H.
Qed.

Lemma gather_one g b data n acc d : plain_data g data -> data !! n = Some d -> gathered g b data n acc -> exists acc', apply_token vocab minus_infinity g b acc n = Ok acc' /\ gathered g b data (S n) acc'.
Proof.
  intros Hp Hd [A1 A2 A3 A4]. destruct acc as [out cands]; cbn [fst snd] in *. pose proof (A2 _ _ Hd) as Ho. destruct (decide (n < n)); [lia|]. unfold apply_token. rewrite (vec_get_Some _ _ _ Ho). cbn [mbind outcome_bind].
  assert (forall i d0, data !! i = Some d0 -> i <> n -> (if decide (i < S n) then forbidden b d0 else d0) = (if decide (i < n) then forbidden b d0 else d0)) as Hi by (intros i d0 _ Hne; do 2 destruct (decide _); lia || done).
  destruct (is_eog vocab (td_id _ d)) eqn:Ee.
  - assert (forall out', out' = (if b then out else forbid minus_infinity n out) -> forall j, out' !! j = if decide (j = n) then Some (forbidden b d) else out !! j) as Hout.
    { intros out' -> j. unfold forbidden. rewrite Ee. destruct b; cbn [negb andb]; [destruct (decide (j = n)); by subst|by apply forbid_lookup]. }
    eexists. split; [done|]. split; cbn [fst snd].
    + destruct b; [done|]. unfold forbid. by rewrite length_alter.
    + intros i d0 H0. rewrite (Hout _ eq_refl). destruct (decide (i = n)) as [->|Hne]; [|rewrite Hi by done; by apply A2]. destruct (decide (n < S n)); [|lia]. congruence.
    + intros tok (H1 & H2 & H3)%A3. split; [done|]. split; [lia|done].
    + intros i d0 Hlt H0 He. destruct (decide (i = n)) as [->|]; [congruence|]. apply (A4 i d0); [lia|done|done].
  - destruct (Hp _ _ Hd Ee) as (Hh1 & Hh2 & c & cs & p & E & Hz & Hrem). rewrite !bool_decide_eq_false_2 by done. cbn [orb]. rewrite E. cbn [mbind outcome_bind fst snd]. eexists. split; [done|]. split; cbn [fst snd].
    + done.
    + intros i d0 H0. destruct (decide (i = n)) as [->|Hne]; [|rewrite Hi by done; by apply A2]. destruct (decide (n < S n)); [|lia]. assert (d0 = d) as -> by congruence. rewrite Ho. unfold forbidden. by rewrite Ee.
    + intros tok [Hin| ->%list_elem_of_singleton]%elem_of_app; [destruct (A3 _ Hin) as (H1 & H2 & H3); split; [done|]; split; [lia|done]|]. cbn [gc_index]. split; [by exists (c :: cs)|]. split; [lia|].
      exists d. split; [done|]. split; [done|]. rewrite E. cbn [fmap option_fmap option_map fst]. f_equal. unfold chars_left. cbn [gc_offset gc_code_points]. rewrite drop_0. by rewrite removelast_last.
    + intros i d0 Hlt H0 He. destruct (decide (i = n)) as [->|]; [|destruct (A4 i d0) as (tok & ? & ?); [lia|done|done|exists tok; split; [|done]; apply elem_of_app; by left]].
      eexists. split; [apply elem_of_app; right; by left|done].
Qed.

Lemma gather g b data : plain_data g data -> exists acc, foldM (apply_token vocab minus_infinity g b) (seq 0 (length data)) (data, []) = Ok acc /\ gathered g b data (length data) acc.
Proof.
  intros Hp. apply (foldM_seq _ (gathered g b data)).
  - split; cbn [fst snd]; [done|intros i d H; by destruct (decide (i < 0)); [lia|]|by intros ? ?%not_elem_of_nil|lia].
  - intros i acc Hi Hg. destruct (lookup_lt_is_Some_2 data i) as [d Hd]; [lia|]. rewrite Nat.add_1_r. by eapply gather_one.
Qed.

Lemma forbid_all (rejects : list llama_grammar_candidate) : forall (data : data_t) i d, data !! i = Some d ->
  (foldl (fun data tok => forbid minus_infinity (gc_index tok) data) data rejects !! i = Some (mk_data _ (td_id _ d) minus_infinity) /\ (exists tok, tok ∈ rejects /\ gc_index tok = i)) \/
  (foldl (fun data tok => forbid minus_infinity (gc_index tok) data) data rejects !! i = Some d /\ forall tok, tok ∈ rejects -> gc_index tok <> i).
Proof.
  induction rejects as [|tok rejects IH]; intros data i d Hd; cbn [foldl]; [right; split; [done|]; by intros ? ?%not_elem_of_nil|].
  destruct (decide (i = gc_index tok)) as [->|Hne].
  - left. destruct (IH (forbid minus_infinity (gc_index tok) data) (gc_index tok) (mk_data _ (td_id _ d) minus_infinity)) as [(E & _)|(E & _)]; [rewrite (forbid_lookup _ _ _ Hd); by destruct (decide _)| |]; (split; [by rewrite E|]; exists tok; split; [by left|done]).
  - destruct (IH (forbid minus_infinity (gc_index tok) data) i d) as [(E & tok' & Hin & Hi)|(E & Hno)]; [unfold forbid; by rewrite list_lookup_alter_ne|left|right]; (split; [done|]).
    + exists tok'. split; [by right|done].
    + intros tok' [->|?]%elem_of_cons; auto.
Qed.

Lemma depth_enough tok cands : tok ∈ cands -> length (chars_left tok) <= foldr (fun tok n => Nat.max (length (gc_code_points tok)) n) 0 cands.
Proof.
  intros H. transitivity (length (gc_code_points tok)).
  - unfold chars_left. transitivity (length (drop (gc_offset tok) (gc_code_points tok))); [|rewrite length_drop; lia]. generalize (drop (gc_offset tok) (gc_code_points tok)). induction l as [|x l IH]; [done|]. cbn [removelast length]. destruct l; cbn [length] in *; lia.
  - induction cands as [|t cands IH]; [by apply not_elem_of_nil in H|]. cbn [foldr]. apply elem_of_cons in H as [->|H]; [lia|]. specialize (IH H). lia.
Qed.

(** What becomes of each candidate of the sampler. *)
Lemma apply_settles g data : g_rules g = rules -> g_awaiting_trigger g = false -> g_stacks g <> [] -> Forall good (g_stacks g) -> plain_data g data ->
  exists data', settles (fun fuel => llama_grammar_apply_impl fuel vocab minus_infinity g data) data' /\ forall i d, data !! i = Some d ->
    let keep := data' !! i = Some d in let gone := data' !! i = Some (mk_data _ (td_id _ d) minus_infinity) in
    if is_eog vocab (td_id _ d) then (if existsb (fun s => length s =? 0) (g_stacks g) then keep else gone)
    else exists c cs p, decode_utf8 (token_to_piece vocab (td_id _ d)) (g_partial g) = Ok ((c :: cs) ++ [0%Z], p) /\
      (keep /\ (exists s, s ∈ g_stacks g /\ survives s (c :: cs)) \/ gone /\ ~ exists s, s ∈ g_stacks g /\ survives s (c :: cs)).
Proof.
  intros Hr Haw Hne Hg Hp. set (b := existsb (fun s => length s =? 0) (g_stacks g)). destruct (gather g b data Hp) as (acc & E & [A1 A2 A3 A4]).
  set (N := foldr (fun tok n => Nat.max (length (gc_code_points tok)) n) 0 acc.2).
  destruct (reject_by_settles rules N _ (g_stacks g) acc.2 (reject_settles rules Hwf Hns Hfree N) Hne Hg) as (rejects & Hset & Hrej); [apply Forall_forall; intros tok Hin; by apply A3|intros; by apply depth_enough|].
  exists (foldl (fun data tok => forbid minus_infinity (gc_index tok) data) acc.1 rejects). split.
  - destruct Hset as (n & Hn). exists n. intros fuel Hf. unfold llama_grammar_apply_impl. rewrite Haw. fold b. rewrite E. cbn [mbind outcome_bind]. unfold llama_grammar_reject_candidates. rewrite Hr.
    replace (candidates_depth acc.2) with (S N) by done. by rewrite Hn.
  - intros i d Hd. cbv zeta. pose proof (A2 i d Hd) as Ho. assert (i < length data) as Hlt by (by eapply lookup_lt_Some). destruct (decide (i < length data)); [|done].
    destruct (forbid_all rejects acc.1 i _ Ho) as [(Eo & tok & Hin & Hi)|(Eo & Hno)]; rewrite Eo.
    + apply Hrej in Hin as [Hin Hs]. destruct (A3 tok Hin) as (Hc & _ & d' & Hd' & He & Edec). assert (d' = d) as -> by congruence. rewrite He. unfold forbidden. rewrite He. cbn [andb td_id].
      destruct (Hp _ _ Hd He) as (_ & _ & c & cs & p & Ed & _). rewrite Ed in Edec. cbn in Edec. injection Edec as Ec. change (c :: cs ++ [0%Z]) with ((c :: cs) ++ [0%Z]) in Ec. apply app_inj_tail in Ec as [Ec _].
      exists c, cs, p. split; [done|]. right. split; [done|]. intros (s & Hs1 & Hs2). rewrite Ec in Hs2. by apply (Hs s).
    + unfold forbidden. destruct (is_eog vocab (td_id _ d)) eqn:He; [by destruct b|]. cbn [andb]. destruct (A4 i d Hlt Hd He) as (tok & Hin & Hi). destruct (A3 tok Hin) as (Hc & _ & d' & Hd' & _ & Edec). assert (d' = d) as -> by congruence.
      destruct (Hp _ _ Hd He) as (_ & _ & c & cs & p & Ed & _). rewrite Ed in Edec. cbn in Edec. injection Edec as Ec. change (c :: cs ++ [0%Z]) with ((c :: cs) ++ [0%Z]) in Ec. apply app_inj_tail in Ec as [Ec _].
      exists c, cs, p. split; [done|]. left. split; [done|].
      destruct (accept_chars_settles rules Hwf Hns (c :: cs) (g_stacks g) Hg) as (ss' & _ & _ & Hsur & _). apply Hsur. intros ->. apply (Hno tok); [|done]. apply Hrej. split; [done|].
      intros s Hs1 Hs2. rewrite <- Ec in Hs2. apply (proj2 Hsur); [by exists s|done].
Qed.
End apply.
