(* ===== verification/GrammarProps.v ===== *)
(** * Grammars: properties

    The language a grammar accepts, the stacks after a token, the candidates it forbids,
    the construction that returns and one that never does, and the decoding of a text cut
    anywhere. *)

From S2P Require Import GrammarApply GrammarUtf8.
Open Scope nat_scope.

(** ** Checks that evaluate *)

(** Only references to rules with an empty definition. *)
Fixpoint all_empty (rules : llama_grammar_rules) (l : llama_grammar_rule) : bool :=
  match l with
  | [] => false
  | e :: l => llama_grammar_is_end_of_sequence e ||
      has_type GRETYPE_RULE_REF e && match rules !! Z.to_nat (e_value e) with Some rule => has_empty_alternate true rule | None => false end && all_empty rules l
  end.

Definition empties_directb (rules : llama_grammar_rules) : bool :=
  forallb (fun rule => has_empty_alternate true rule || negb (existsb (all_empty rules) (alternates rule))) rules.

Lemma empties_directb_ok rules : empties_directb rules = true -> empties_direct rules.
Proof.
  intros H. unfold empties_directb in H. rewrite forallb_forall in H.
  assert (forall r rule alt, rules !! r = Some rule -> alt ∈ alternates rule -> all_empty rules alt = true -> has_empty_alternate true rule = true) as Hrule.
  { intros r rule alt Hr Ha Hall. specialize (H rule ltac:(apply list_elem_of_In; by eapply list_elem_of_lookup_2)). apply orb_true_iff in H as [H|H]; [done|]. apply negb_true_iff in H.
    rewrite (proj2 (existsb_exists _ _)) in H; [done|]. exists alt. by rewrite <- list_elem_of_In. }
  assert (forall l w, derives rules l w -> w = [] -> all_empty rules l = true) as Hd.
  { induction 1 as [e l He|e l items after c w He Hc Hh _ IH|e l t w He Ht _ IH|e l rule alt w1 w2 He Hr Ha _ IH1 _ IH2]; intros Ew; try done; cbn [all_empty]; [by rewrite He|].
    apply app_eq_nil in Ew as [-> ->]. rewrite (proj2 (has_type_true _ _) He), Hr, (Hrule _ _ _ Hr Ha (IH1 eq_refl)), (IH2 eq_refl). by rewrite orb_true_r. }
  intros r (rule & alt & Hr & Ha & Hw). exists rule. split; [done|]. by apply (Hrule r rule alt), (Hd _ _ Hw).
Qed.

(** Over-approximate the rules that derive the empty word, and number the rules so that
    what starts a rule has a smaller number. *)
Definition says (N : list bool) (e : llama_grammar_element) : bool := has_type GRETYPE_RULE_REF e && default false (N !! Z.to_nat (e_value e)).

Fixpoint all_said (N : list bool) (l : llama_grammar_rule) : bool :=
  match l with [] => false | e :: l => llama_grammar_is_end_of_sequence e || says N e && all_said N l end.

Definition rank (ranks : list nat) (r : nat) : nat := default 0 (ranks !! r).

Fixpoint starts_below (N : list bool) (ranks : list nat) (bound : nat) (l : llama_grammar_rule) : bool :=
  match l with
  | [] => true
  | e :: l => negb (has_type GRETYPE_RULE_REF e) || (rank ranks (Z.to_nat (e_value e)) <? bound) && (negb (says N e) || starts_below N ranks bound l)
  end.

Definition ranked (N : list bool) (ranks : list nat) (rules : llama_grammar_rules) : bool :=
  forallb (fun x => let '(r, rule) := x in
    (default false (N !! r) || negb (existsb (all_said N) (alternates rule))) && forallb (starts_below N ranks (rank ranks r)) (alternates rule)) (imap pair rules).

Lemma ranked_rule N ranks rules r rule alt : ranked N ranks rules = true -> rules !! r = Some rule -> alt ∈ alternates rule ->
  (all_said N alt = true -> default false (N !! r) = true) /\ starts_below N ranks (rank ranks r) alt = true.
Proof.
  intros H Hr Ha. unfold ranked in H. rewrite forallb_forall in H. assert (In (r, rule) (imap pair rules)) as Hin by (apply list_elem_of_In, elem_of_lookup_imap; eauto).
  apply H in Hin. apply andb_true_iff in Hin as [H1 H2]. rewrite forallb_forall in H2. apply list_elem_of_In in Ha. split; [|by apply H2]. intros Hs. apply orb_true_iff in H1 as [H1|H1]; [done|]. apply negb_true_iff in H1.
  assert (existsb (all_said N) (alternates rule) = true) by (apply existsb_exists; eauto). congruence.
Qed.

Lemma ranked_nullable N ranks rules r : ranked N ranks rules = true -> nullable rules r -> default false (N !! r) = true.
Proof.
  intros H. assert (forall l w, derives rules l w -> w = [] -> all_said N l = true) as Hd.
  { induction 1 as [e l He|e l items after c w He Hc Hh _ IH|e l t w He Ht _ IH|e l rule alt w1 w2 He Hr Ha _ IH1 _ IH2]; intros Ew; try done; cbn [all_said]; [by rewrite He|].
    apply app_eq_nil in Ew as [-> ->]. unfold says. rewrite (proj2 (has_type_true _ _) He), (proj1 (ranked_rule _ _ _ _ _ _ H Hr Ha) (IH1 eq_refl)), (IH2 eq_refl). by rewrite orb_true_r. }
  intros (rule & alt & Hr & Ha & Hw). by apply (proj1 (ranked_rule _ _ _ _ _ _ H Hr Ha)), (Hd _ _ Hw).
Qed.

Lemma ranked_starts N ranks rules : ranked N ranks rules = true -> no_self_start rules.
Proof.
  intros H. assert (forall r' r, left_corner rules r' r -> rank ranks r' < rank ranks r) as Hdec.
  { intros r' r (rule & alt & Hr & Ha & pre & e & l & -> & He & -> & Hpre). destruct (ranked_rule _ _ _ _ _ _ H Hr Ha) as [_ Hs]. clear Ha. induction Hpre as [|e0 pre [Ht Hn] _ IH]; cbn [app starts_below] in Hs.
    - rewrite (proj2 (has_type_true _ _) He) in Hs. cbn [negb orb] in Hs. apply andb_true_iff in Hs as [Hs _]. by apply Nat.ltb_lt.
    - rewrite (proj2 (has_type_true _ _) Ht) in Hs. cbn [negb orb] in Hs. apply andb_true_iff in Hs as [_ Hs]. unfold says in Hs at 1. rewrite (proj2 (has_type_true _ _) Ht), (ranked_nullable _ _ _ _ H Hn) in Hs. by apply IH. }
  intros r _. remember (rank ranks r) as n eqn:En. revert r En. induction n as [n IH] using lt_wf_ind. intros r ->. constructor. intros r' Hr'. by apply (IH (rank ranks r') (Hdec _ _ Hr')).
Qed.

(** Well-formedness of a concrete rule, by its elements. *)
Ltac class_steps := first [eapply class_last; [reflexivity|discriminate|discriminate] | eapply class_more; [reflexivity|reflexivity|class_steps]].
Ltac wf_steps :=
  first [ apply wf_end; reflexivity | apply wf_alt; [reflexivity|wf_steps] | apply wf_ref; [reflexivity|vm_compute; lia|wf_steps]
        | apply wf_token; [reflexivity|wf_steps] | eapply wf_class; [reflexivity|class_steps|wf_steps] ].
Ltac rules_steps := first [apply List.Forall_nil | apply List.Forall_cons; [wf_steps|rules_steps]].

(** ** Grammars in use *)

Record valid_grammar (rules : llama_grammar_rules) (g : llama_grammar) : Prop := {
  vg_rules : g_rules g = rules;
  vg_stacks : g_stacks g <> [];
  vg_good : Forall (good rules) (g_stacks g)
}.

(** The rules a grammar is used with: well-formed, and none starts itself. *)
Record sound_rules (rules : llama_grammar_rules) : Prop := {
  sr_wf : rules_wf rules;
  sr_starts : no_self_start rules
}.


(** C3: The grammar built from well-formed rules follows the language of its start rule.
    With enough iterations the construction returns a grammar, accepting any characters
    returns, and the stacks left have exactly the continuations: a word is read from them
    when the characters followed by the word are derived by the start rule.  The characters
    are a whole sentence exactly when one stack is empty. *)
Theorem grammar_recognises raw rules start cs : mapM copy_rule raw = Ok rules -> sound_rules rules -> start < length rules ->
  exists n, forall fuel, n <= fuel -> exists g stacks, llama_grammar_init_impl fuel raw start = Ok (Some g) /\
    foldM (llama_grammar_accept fuel (g_rules g)) cs (g_stacks g) = Ok stacks /\
    (forall w, stacks_lang rules stacks w <-> rule_derives rules start (map Chr cs ++ w)) /\
    ([] ∈ stacks <-> rule_derives rules start (map Chr cs)).
Proof.
  intros Hc [Hwf Hns] Hr. destruct (init_settles raw rules start Hc Hwf Hns Hr) as (ss & (n1 & H1) & Hg & Hw).
  destruct (accept_all rules Hwf Hns cs ss Hg) as (ss' & (n2 & H2) & Hg' & Hw'). exists (n1 + n2). intros fuel Hf. eexists _, ss'. split; [apply H1; lia|]. cbn [g_rules g_stacks]. split; [apply H2; lia|]. split.
  - intros w. by rewrite Hw', Hw.
  - rewrite <- (stacks_nil rules Hwf) by done. by rewrite Hw', Hw, app_nil_r.
Qed.

(** C18: The construction of a grammar returns: with enough iterations the answer no longer
    changes.  It is no grammar exactly when some rule starts itself.  This takes rules that
    say so when they derive the empty word, by an empty definition of their own. *)
Theorem construction_returns raw rules start : mapM copy_rule raw = Ok rules -> rules_wf rules -> empties_direct rules -> start < length rules ->
  exists n r, (forall fuel, n <= fuel -> llama_grammar_init_impl fuel raw start = Ok r) /\ (r = None <-> ~ no_self_start rules).
Proof.
  intros Hc Hwf Hd Hr. pose proof (rules_wf_refs _ Hwf) as Hrefs. destruct (left_recursion_ok rules (rules_wf_end_last _ Hwf) Hrefs) as (b & E & Hf & Hnf). destruct b.
  - exists 0, None. split; [|split; [intros _; by apply Hf|done]]. intros fuel _. unfold llama_grammar_init_impl. rewrite Hc. cbn [mbind outcome_bind]. rewrite (refs_ok_defined _ Hrefs). cbn [negb]. by rewrite E.
  - pose proof (Hnf Hd eq_refl) as Hns. destruct (init_settles raw rules start Hc Hwf Hns Hr) as (ss & (n & H) & _). exists n, (Some (mk_grammar rules ss (mk_partial 0 0) false false [] [] [] [])). split; [done|]. by split.
Qed.

(** C14: Accepting a token of at least one character.  The call returns; the grammar is left
    with exactly the continuations of the token, read by a token element or by its
    characters, and stays usable; it throws when no stack is left, and then no word of the
    language goes on with the token. *)
Theorem accept_token_residual rules g token piece c cs p : sound_rules rules -> valid_grammar rules g -> decode_utf8 piece (g_partial g) = Ok ((c :: cs) ++ [0%Z], p) ->
  exists n stacks, (forall fuel, n <= fuel -> llama_grammar_accept_token fuel token piece g = (require_ RuntimeError (negb (length stacks =? 0)), set_stacks stacks p g)) /\
    (stacks <> [] -> valid_grammar rules (set_stacks stacks p g)) /\
    forall w, stacks_lang rules stacks w <-> stacks_lang rules (g_stacks g) (Tok token :: w) \/ stacks_lang rules (g_stacks g) (map Chr (c :: cs) ++ w).
Proof.
  intros [Hwf Hns] [Hr Hne Hg] E. destruct (accept_token_settles rules Hwf Hns g token piece c cs p Hr Hg E) as (ss' & (n & H) & Hg' & _ & Hw).
  exists n, ss'. split; [done|]. split; [|done]. intros Hne'. by split.
Qed.


(** C27: A text may be cut anywhere.  When the pieces of the encoding of some code points are
    decoded one after the other, each from what the one before left unfinished, the code
    points come out, in order, and nothing is left unfinished. *)
Theorem pieces_decode cps bs pieces : Forall (fun c => 0 < c <= 1114111)%Z cps -> unicode_cpts_to_utf8 cps = Ok bs -> concat pieces = bs ->
  exists p, decode_pieces pieces (mk_partial 0 0) = Ok (cps, p) /\ pu_n_remain p = 0%Z.
Proof.
  intros Hc E <-. destruct (cpts_to_utf8_encodes cps) as (bs & E' & Hbs); [eapply Forall_impl; [exact Hc|]; cbn; lia|]. rewrite E in E'. injection E' as <-.
  destruct (encodes_feeds _ _ Hbs) with (v := 0%Z) as (v' & Hf); [eapply Forall_impl; [exact Hc|]; cbn; lia|]. exists (mk_partial v' 0). split; [|done].
  unfold decode_pieces. by rewrite (pieces_feeds pieces (mk_partial 0 0) [] cps (v', 0%Z) Hf).
Qed.

(** Code points encoded and decoded again are the same, for every code point up to
    U+10FFFF. *)
Theorem cpts_roundtrip cps : Forall (fun c => 0 <= c <= 1114111)%Z cps -> exists bs, unicode_cpts_to_utf8 cps = Ok bs /\ unicode_cpts_from_utf8 bs = Ok cps.
Proof.
  intros H. destruct (cpts_to_utf8_encodes cps H) as (bs & E & Hbs). exists bs. split; [done|]. unfold unicode_cpts_from_utf8. by apply (cpts_loop_encodes cps bs Hbs (length bs) [] []).
Qed.

(** All bytes, with both maps built once. *)
Lemma byte_maps : match unicode_byte_to_utf8_map, unicode_utf8_to_byte_map with
  | Ok m, Ok m' => below 256 (fun b => match find_value b m with Some utf8 => match find_value utf8 m' with Some b' => (b' =? b)%Z | None => false end | None => false end)
  | _, _ => false
  end = true.
Proof. vm_compute. reflexivity. Qed.

(** Every byte has a character of its own: the text a byte is shown as gives the byte
    back. *)
Lemma byte_characters b : (0 <= b < 256)%Z -> exists utf8, unicode_byte_to_utf8 b = Ok utf8 /\ unicode_utf8_to_byte utf8 = Ok b.
Proof.
  intros Hb. pose proof byte_maps as H. unfold unicode_byte_to_utf8, unicode_utf8_to_byte. destruct unicode_byte_to_utf8_map as [m|]; [|done]. destruct unicode_utf8_to_byte_map as [m'|]; [|done].
  pose proof (below_spec 256 _ H b Hb) as E. cbn beta in E. cbn [mbind outcome_bind]. unfold map_at at 1. destruct (find_value b m) as [utf8|]; [|done]. exists utf8. split; [done|].
  unfold map_at. destruct (find_value utf8 m') as [b'|]; [|done]. apply Z.eqb_eq in E. by subst.
Qed.

(** ** A rule that starts itself unseen *)

(** s ::= a s x | y, where a ::= b and b is empty: [b] has an empty definition, [a] only
    derives the empty word. *)
Definition hidden_rules : llama_grammar_rules :=
  [[mk_elem GRETYPE_RULE_REF 1; mk_elem GRETYPE_RULE_REF 0; mk_elem GRETYPE_CHAR 120; mk_elem GRETYPE_ALT 0; mk_elem GRETYPE_CHAR 121; mk_elem GRETYPE_END 0];
   [mk_elem GRETYPE_RULE_REF 2; mk_elem GRETYPE_END 0]; [mk_elem GRETYPE_END 0]].

(** The stacks get deeper with every round: one more [x] to come. *)
Definition deep (k : nat) : llama_grammar_stack := repeat (0, 2) k.

Definition xs (s : llama_grammar_stack) : nat := cnt (fun p => bool_decide (p = (0, 2))) s.

Lemma xs_cons p s : xs (p :: s) = Nat.b2n (bool_decide (p = (0, 2))) + xs s.
Proof. apply (cnt_cons (fun p => bool_decide (p = (0, 2)))). Qed.

Lemma xs_deep k : xs (deep k) = k.
Proof. induction k as [|k IH]; [done|]. cbn [deep repeat]. rewrite xs_cons. fold (deep k). by rewrite IH. Qed.

(** What has been seen before round [k]. *)
Definition shallow (k : nat) (s : llama_grammar_stack) : Prop := xs s < k \/ (xs s = k /\ head s = Some (0, 4)).

Lemma shallow_new k p s seen : Forall (shallow k) seen -> p <> (0, 4) -> xs (p :: s) = k -> p :: s ∉ seen.
Proof. intros H Hp Hx Hin. rewrite Forall_forall in H. destruct (H _ Hin) as [?|[_ [= ?]]]; [lia|done]. Qed.

(** A round on a reference whose stack has not been seen. *)
Lemma hidden_round fuel rule_id p s ss todo seen new : elem_at hidden_rules p = Ok (mk_elem GRETYPE_RULE_REF rule_id) -> expand_rule_ref hidden_rules rule_id p s = Ok ss -> p :: s ∉ seen ->
  advance_loop (S fuel) hidden_rules ((p :: s) :: todo) seen new = advance_loop fuel hidden_rules (rev ss ++ todo) ((p :: s) :: seen) new.
Proof. intros He Ex Hn. cbn [advance_loop]. rewrite bool_decide_eq_false_2 by done. rewrite He. cbn [mbind outcome_bind e_type e_value]. by rewrite Ex. Qed.

Lemma hidden_loop fuel : forall k todo seen new, Forall (shallow k) seen -> advance_loop fuel hidden_rules (((0, 0) :: deep k) :: todo) seen new = Err OutOfFuel.
Proof.
  induction fuel as [fuel IH] using lt_wf_ind. intros k todo seen new Hs. destruct fuel as [|fuel]; [done|].
  assert (xs ((0, 0) :: deep k) = k /\ xs ((1, 0) :: (0, 1) :: deep k) = k /\ xs ((0, 1) :: deep k) = k /\ xs ((0, 4) :: deep (S k)) = S k) as (X1 & X2 & X3 & X4) by (repeat split; rewrite !xs_cons, xs_deep; done).
  rewrite (hidden_round fuel 1 _ _ [(1, 0) :: (0, 1) :: deep k]) by (done || by eapply shallow_new). destruct fuel as [|fuel]; [done|]. cbn [rev app].
  rewrite (hidden_round fuel 2 _ _ [(0, 1) :: deep k]); [|done|done|intros [E|Hin]%elem_of_cons; [done|]; by apply (shallow_new k (1, 0) ((0, 1) :: deep k) seen)]. destruct fuel as [|fuel]; [done|]. cbn [rev app].
  rewrite (hidden_round fuel 0 _ _ [(0, 0) :: deep (S k); (0, 4) :: deep (S k)]); [|done|done|intros [E|[E|Hin]%elem_of_cons]%elem_of_cons; [done|done|]; by apply (shallow_new k (0, 1) (deep k) seen)].
  cbn [rev app]. destruct fuel as [|fuel]; [done|]. cbn [advance_loop].
  assert (Forall (shallow (S k)) (((0, 1) :: deep k) :: ((1, 0) :: (0, 1) :: deep k) :: ((0, 0) :: deep k) :: seen)) as Hseen.
  { repeat (constructor; [left; lia|]). eapply Forall_impl; [exact Hs|]. intros s [?|[? _]]; left; lia. }
  destruct (bool_decide (_ ∈ _)); [apply IH; [lia|done]|]. cbn [elem_at hidden_rules vec_get fst snd mbind outcome_bind]. cbn. apply (IH fuel ltac:(lia) (S k)). constructor; [right; split; [exact X4|reflexivity]|exact Hseen].
Qed.

(** C35: A rule that starts itself is not always found.  The rule [s ::= a s x | y] starts
    itself, since [a] derives the empty word; but [a] has no empty definition, it refers to
    an empty rule.  The check passes the grammar, and building it never ends: no number of
    iterations is enough. *)
Theorem hidden_left_recursion : has_left_recursion hidden_rules = Ok false /\ left_corner hidden_rules 0 0 /\ forall fuel, llama_grammar_init_impl fuel hidden_rules 0 = Err OutOfFuel.
Proof.
  split; [done|]. split.
  - assert (nullable hidden_rules 1) as Hn.
    { exists [mk_elem GRETYPE_RULE_REF 2; mk_elem GRETYPE_END 0], [mk_elem GRETYPE_RULE_REF 2; mk_elem GRETYPE_END 0]. split; [done|]. split; [by left|]. apply (derives_ref _ _ _ [mk_elem GRETYPE_END 0] [mk_elem GRETYPE_END 0] [] []); [done|done|by left|by constructor|by constructor]. }
    exists (hidden_rules !!! 0), (hidden_rules !!! 0). split; [done|]. split; [by left|]. exists [mk_elem GRETYPE_RULE_REF 1]. eexists _, _. split; [reflexivity|]. split; [done|]. split; [done|]. constructor; [split; [done|exact Hn]|done].
  - intros fuel. unfold llama_grammar_init_impl. replace (mapM copy_rule hidden_rules) with (@Ok llama_grammar_rules hidden_rules) by done. cbn [mbind outcome_bind].
    replace (refs_defined hidden_rules) with true by done. replace (has_left_recursion hidden_rules) with (@Ok bool false) by done. cbn [negb mbind outcome_bind].
    assert (initial_stacks fuel hidden_rules 0 = Err OutOfFuel) as ->; [|done]. unfold initial_stacks. change (vec_get hidden_rules 0) with (@Ok llama_grammar_rule (hidden_rules !!! 0)). cbn [mbind outcome_bind].
    change (alternate_starts 0 0 (hidden_rules !!! 0)) with (@Ok (list nat) [0; 4]). cbn [mbind outcome_bind foldM]. change (push_unless_end hidden_rules (0, 0) []) with (@Ok llama_grammar_stack ((0, 0) :: deep 0)). cbn [mbind outcome_bind].
    assert (llama_grammar_advance_stack fuel hidden_rules ((0, 0) :: deep 0) [] = Err OutOfFuel) as ->; [|done]. by apply (hidden_loop fuel 0 [] [] []).
Qed.

(** ** Witnesses *)

(** root ::= sign num, where sign ::= "-"? and num ::= [0-9]+, as the parser gives them. *)
Definition demo_rules : llama_grammar_rules :=
  [[mk_elem GRETYPE_RULE_REF 1; mk_elem GRETYPE_RULE_REF 2; mk_elem GRETYPE_END 0]; [mk_elem GRETYPE_RULE_REF 3; mk_elem GRETYPE_END 0];
   [mk_elem GRETYPE_CHAR 48; mk_elem GRETYPE_CHAR_RNG_UPPER 57; mk_elem GRETYPE_RULE_REF 4; mk_elem GRETYPE_END 0];
   [mk_elem GRETYPE_CHAR 45; mk_elem GRETYPE_ALT 0; mk_elem GRETYPE_END 0];
   [mk_elem GRETYPE_CHAR 48; mk_elem GRETYPE_CHAR_RNG_UPPER 57; mk_elem GRETYPE_RULE_REF 4; mk_elem GRETYPE_ALT 0; mk_elem GRETYPE_END 0]].

Definition demo_grammar : llama_grammar := mk_grammar demo_rules [[(2, 0)]; [(3, 0); (0, 1)]] (mk_partial 0 0) false false [] [] [] [].

Example demo_built : llama_grammar_init_impl 20 demo_rules 0 = Ok (Some demo_grammar).
Proof. vm_compute. reflexivity. Qed.

Lemma demo_sound : sound_rules demo_rules.
Proof. split; [unfold rules_wf; rules_steps|apply (ranked_starts [false; true; false; true; true] [2; 1; 0; 0; 0]); vm_compute; reflexivity]. Qed.

(** Stacks whose pointers are to the start of an element. *)
Ltac pos_steps := first [apply List.Forall_nil | apply List.Forall_cons; [eexists _, _, _; split; [reflexivity|split; [reflexivity|split; [wf_steps|reflexivity]]]|pos_steps]].
Ltac ready_step := eexists _, _; split; [eexists; split; reflexivity|first [left; reflexivity|right; reflexivity]].
Ltac good_steps :=
  first [ apply List.Forall_nil | apply List.Forall_cons; [split; [pos_steps|ready_step]|good_steps] ].



Lemma grammar_recognises_witness : exists n, forall fuel, n <= fuel -> exists g stacks, llama_grammar_init_impl fuel demo_rules 0 = Ok (Some g) /\
    foldM (llama_grammar_accept fuel (g_rules g)) [45%Z; 52%Z] (g_stacks g) = Ok stacks /\
    (forall w, stacks_lang demo_rules stacks w <-> rule_derives demo_rules 0 (map Chr [45%Z; 52%Z] ++ w)) /\
    ([] ∈ stacks <-> rule_derives demo_rules 0 (map Chr [45%Z; 52%Z])).
Proof. apply (grammar_recognises demo_rules demo_rules 0 [45%Z; 52%Z]); [vm_compute; reflexivity|exact demo_sound|vm_compute; lia]. Defined.

(** root ::= <[5]> [0-9]. *)
Definition token_rules : llama_grammar_rules :=
  [[mk_elem GRETYPE_TOKEN 5; mk_elem GRETYPE_RULE_REF 1; mk_elem GRETYPE_END 0]; [mk_elem GRETYPE_CHAR 48; mk_elem GRETYPE_CHAR_RNG_UPPER 57; mk_elem GRETYPE_END 0]].

Definition token_grammar : llama_grammar := mk_grammar token_rules [[(0, 0)]] (mk_partial 0 0) false false [] [] [] [].

Lemma token_sound : sound_rules token_rules.
Proof. split; [unfold rules_wf; rules_steps|apply (ranked_starts [false; false] [0; 0]); vm_compute; reflexivity]. Qed.

Lemma token_valid : valid_grammar token_rules token_grammar.
Proof. split; [reflexivity|discriminate|]. cbn [g_stacks token_grammar]. good_steps. Qed.

Lemma construction_returns_witness : exists n r, (forall fuel, n <= fuel -> llama_grammar_init_impl fuel token_rules 0 = Ok r) /\ (r = None <-> ~ no_self_start token_rules).
Proof. apply (construction_returns token_rules token_rules 0); [vm_compute; reflexivity|apply token_sound|apply empties_directb_ok; vm_compute; reflexivity|vm_compute; lia]. Defined.

Lemma accept_token_residual_witness : exists n stacks, (forall fuel, n <= fuel -> llama_grammar_accept_token fuel 5 [120%Z; 121%Z] token_grammar = (require_ RuntimeError (negb (length stacks =? 0)), set_stacks stacks (mk_partial 121 0) token_grammar)) /\
    (stacks <> [] -> valid_grammar token_rules (set_stacks stacks (mk_partial 121 0) token_grammar)) /\
    forall w, stacks_lang token_rules stacks w <-> stacks_lang token_rules (g_stacks token_grammar) (Tok 5 :: w) \/ stacks_lang token_rules (g_stacks token_grammar) (map Chr [120%Z; 121%Z] ++ w).
Proof. apply (accept_token_residual token_rules token_grammar 5 [120%Z; 121%Z] 120 [121%Z]); [exact token_sound|exact token_valid|vm_compute; reflexivity]. Defined.

(** Tokens "-", "7", "a" and the end. *)
Definition demo_vocab : llama_vocab := mk_vocab (fun t => if (t =? 0)%Z then [45%Z] else if (t =? 1)%Z then [55%Z] else if (t =? 2)%Z then [97%Z] else []) (fun t => (t =? 3)%Z).
Definition demo_data : list (llama_token_data Z) := [mk_data _ 0 10%Z; mk_data _ 1 20%Z; mk_data _ 2 30%Z; mk_data _ 3 40%Z].


Example demo_applied : (map (td_logit _)) <$> llama_grammar_apply_impl 20 demo_vocab (-1000)%Z demo_grammar demo_data = Ok [10%Z; 20%Z; (-1000)%Z; (-1000)%Z].
Proof. vm_compute. reflexivity. Qed.


(** An accented letter, the euro sign and a letter, cut inside the first two. *)
Lemma pieces_decode_witness : exists p, decode_pieces [[195%Z]; [169%Z; 226%Z]; [130%Z; 172%Z; 97%Z]] (mk_partial 0 0) = Ok ([233%Z; 8364%Z; 97%Z], p) /\ pu_n_remain p = 0%Z.
Proof. apply (pieces_decode [233%Z; 8364%Z; 97%Z] [195%Z; 169%Z; 226%Z; 130%Z; 172%Z; 97%Z]); [repeat constructor; lia|vm_compute; reflexivity|reflexivity]. Defined.

Lemma cpts_roundtrip_witness : exists bs, unicode_cpts_to_utf8 [97%Z; 233%Z; 8364%Z; 128512%Z] = Ok bs /\ unicode_cpts_from_utf8 bs = Ok [97%Z; 233%Z; 8364%Z; 128512%Z].
Proof. apply (cpts_roundtrip [97%Z; 233%Z; 8364%Z; 128512%Z]). repeat constructor; lia. Defined.

(** ** Where the two disagree *)

(** root ::= "a" <[5]> with token 5 written "ab": applying the grammar keeps token 5, whose
    second character stands where the token element is reached; accepting it throws. *)
Example kept_but_refused :
  let g := mk_grammar [[mk_elem GRETYPE_CHAR 97; mk_elem GRETYPE_TOKEN 5; mk_elem GRETYPE_END 0]] [[(0, 0)]] (mk_partial 0 0) false false [] [] [] [] in
  let vocab := mk_vocab (fun _ => [97%Z; 98%Z]) (fun _ => false) in
  llama_grammar_apply_impl 10 vocab (-1000)%Z g [mk_data _ 5 10%Z] = Ok [mk_data _ 5 10%Z] /\ (llama_grammar_accept_impl 10 vocab 5 g).1 = Err RuntimeError.
Proof. vm_compute. done. Qed.

(** The first byte of a two-byte character, where any character but e-acute is allowed: most
    of its continuations match, and it is refused. *)
Example partial_inverse_class :
  llama_grammar_match_partial_char [[mk_elem GRETYPE_CHAR_NOT 233; mk_elem GRETYPE_END 0]] (0, 0) (mk_partial 3 1) = Ok false /\
  llama_grammar_match_char [[mk_elem GRETYPE_CHAR_NOT 233; mk_elem GRETYPE_END 0]] (0, 0) (utf8_add 3 160) = Ok (true, (0, 1)).
Proof. vm_compute. done. Qed.

(** Two bytes that encode 0 the long way end a token's characters early. *)
Example overlong_zero : decode_utf8 [192%Z; 128%Z; 97%Z] (mk_partial 0 0) = Ok ([0%Z; 97%Z; 0%Z], mk_partial 97 0).
Proof. vm_compute. done. Qed.
