(* ===== verification/GrammarFragments.v ===== *)
(** * Grammars: pieces of rules

    A fragment is what the parser appends to a rule: references below a bound, tokens,
    classes and ALT, but no END.  Fragments can be joined, repeated and closed. *)

From S2P Require Export GrammarDetect.
Open Scope nat_scope.

(** An item of a class: its character, and the upper end of a range. *)
Notation class_elem := (llama_grammar_element * option llama_grammar_element)%type.

Definition elem_list (x : class_elem) : llama_grammar_rule := x.1 :: match x.2 with Some u => [u] | None => [] end.
Definition elem_lists (xs : list class_elem) : llama_grammar_rule := concat (elem_list <$> xs).

Definition upper_ok (x : class_elem) : Prop := match x.2 with Some u => e_type u = GRETYPE_CHAR_RNG_UPPER | None => True end.

(** The first starts a class, the others are alternatives. *)
Definition class_shape (xs : list class_elem) : Prop :=
  match xs with
  | [] => False
  | x :: xs => class_start x.1 = true /\ upper_ok x /\ Forall (fun y => e_type y.1 = GRETYPE_CHAR_ALT /\ upper_ok y) xs
  end.

Inductive frag (n : nat) : llama_grammar_rule -> Prop :=
  | frag_nil : frag n []
  | frag_alt e l : e_type e = GRETYPE_ALT -> frag n l -> frag n (e :: l)
  | frag_ref e l : e_type e = GRETYPE_RULE_REF -> Z.to_nat (e_value e) < n -> frag n l -> frag n (e :: l)
  | frag_token e l : is_token_element e = true -> frag n l -> frag n (e :: l)
  | frag_class xs l : class_shape xs -> frag n l -> frag n (elem_lists xs ++ l).

Lemma frag_app n l1 l2 : frag n l1 -> frag n l2 -> frag n (l1 ++ l2).
Proof.
  intros H1 H2. induction H1 as [|e l He Hl IH|e l He Hr Hl IH|e l He Hl IH|xs l Hx Hl IH]; cbn [app]; [done|by apply frag_alt|by apply frag_ref|by apply frag_token|]. rewrite <- app_assoc. by apply frag_class.
Qed.

Lemma frag_repeat n l k : frag n l -> frag n (concat (replicate k l)).
Proof. intros H. induction k as [|k IH]; cbn [replicate concat]; [constructor|by apply frag_app]. Qed.

Lemma frag_mono n m l : n <= m -> frag n l -> frag m l.
Proof. intros Hm H. induction H; [constructor|by apply frag_alt|apply frag_ref; [done|lia|done]|by apply frag_token|by apply frag_class]. Qed.

Lemma frag_one_class n e : class_start e = true -> frag n [e].
Proof. intros He. apply (frag_class n [(e, None)] []); [by repeat split|constructor]. Qed.

(** What holds of the elements of classes. *)
Lemma shape_Forall (P : llama_grammar_element -> Prop) xs : class_shape xs ->
  (forall e, class_start e = true \/ e_type e = GRETYPE_CHAR_ALT \/ e_type e = GRETYPE_CHAR_RNG_UPPER -> P e) -> Forall P (elem_lists xs).
Proof.
  intros Hx HP. assert (forall y, upper_ok y -> P y.1 -> Forall P (elem_list y)) as Hy.
  { intros [e [u|]] H1 H2; cbn in *; repeat apply List.Forall_cons; try apply List.Forall_nil; auto. }
  destruct xs as [|x xs]; [done|]. destruct Hx as (Hs & Hu & Hxs). unfold elem_lists. cbn [fmap list_fmap concat]. apply Forall_app. split; [apply Hy; auto|].
  induction Hxs as [|y ys [Ht Hy1] _ IH]; [constructor|]. cbn [fmap list_fmap concat]. apply Forall_app. split; [apply Hy; auto|done].
Qed.

Lemma frag_elements n l : frag n l -> Forall (fun e => e_type e <> GRETYPE_END /\ (e_type e = GRETYPE_RULE_REF -> Z.to_nat (e_value e) < n)) l.
Proof.
  induction 1 as [|e l He Hl IH|e l He Hr Hl IH|e l He Hl IH|xs l Hx Hl IH]; [constructor|constructor; [split; congruence|done]|constructor; [split; [congruence|done]|done]|constructor; [split; intros ?; gtypes|done]|].
  apply Forall_app. split; [|done]. apply shape_Forall; [done|]. intros e [He|[He|He]]; (split; intros Ht; [gtypes|gtypes]).
Qed.

Lemma frag_no_end n l : frag n l -> Forall (fun e => e_type e <> GRETYPE_END) l.
Proof. intros H. eapply Forall_impl; [by eapply frag_elements|]. by intros e [? _]. Qed.

(** ** Closed fragments are well-formed *)

Lemma seq_wf_head rules e l : seq_wf rules (e :: l) -> e_type e <> GRETYPE_CHAR_ALT /\ e_type e <> GRETYPE_CHAR_RNG_UPPER.
Proof. inversion 1; subst; split; gtypes. Qed.

(** The item an entry of a class stands for. *)
Definition entry_item (x : class_elem) : class_item :=
  match x.2 with Some u => Range (e_value x.1) (e_value u) | None => if has_type GRETYPE_CHAR_ANY x.1 then Anything else Single (e_value x.1) end.

Lemma shape_first e u after a : upper_ok (e, u) -> e_type a <> GRETYPE_CHAR_RNG_UPPER -> first_item e (match u with Some u => [u] | None => [] end ++ a :: after) = (entry_item (e, u), a :: after).
Proof.
  intros Hu Ha. destruct u as [u|]; cbn [app first_item]; [cbn in Hu; by rewrite (proj2 (has_type_true _ _) Hu)|]. by rewrite (proj2 (has_type_false _ _) Ha).
Qed.

Lemma shape_class xs a after : class_shape xs -> e_type a <> GRETYPE_CHAR_ALT -> e_type a <> GRETYPE_CHAR_RNG_UPPER -> char_class (elem_lists xs ++ a :: after) (entry_item <$> xs) (a :: after).
Proof.
  destruct xs as [|[e u] xs]; [done|]. intros (_ & Hu & Hxs) Ha Hr. revert e u Hu. induction Hxs as [|[e' u'] xs [Ht Hu'] _ IH]; intros e u Hu; unfold elem_lists; cbn [fmap list_fmap concat elem_list fst snd app] in *.
  - rewrite app_nil_r. by apply class_last; [apply shape_first|..].
  - specialize (IH e' u' Hu'). unfold elem_lists in IH. cbn [fmap list_fmap concat elem_list fst snd app] in IH.
    pose proof (shape_first e u ((match u' with Some u => [u] | None => [] end ++ concat (elem_list <$> xs)) ++ a :: after) e' Hu) as E. rewrite <- app_assoc. cbn [app]. eapply class_more; [apply E; congruence|done|done].
Qed.

Lemma frag_seq_wf rules l tail : frag (length rules) l -> seq_wf rules tail -> seq_wf rules (l ++ tail).
Proof.
  intros H Ht. induction H as [|e l He Hl IH|e l He Hr Hl IH|e l He Hl IH|xs l Hx Hl IH]; cbn [app]; [done|by apply wf_alt|by apply wf_ref|by apply wf_token|].
  rewrite <- app_assoc. destruct (seq_wf_nonempty _ _ IH) as (a & after & E). rewrite E in *. destruct (seq_wf_head _ _ _ IH) as [H1 H2]. pose proof (shape_class xs a after Hx H1 H2) as Hc.
  destruct xs as [|[e u] xs]; [done|]. destruct Hx as (Hs & _). change (seq_wf rules (e :: ((match u with Some u => [u] | None => [] end ++ elem_lists xs) ++ a :: after))). by eapply wf_class.
Qed.

Definition end_elem : llama_grammar_element := mk_elem GRETYPE_END 0.

(** A rule as the parser leaves it. *)
Definition closed_rule (n : nat) (rule : llama_grammar_rule) : Prop := exists l, rule = l ++ [end_elem] /\ frag n l.

Lemma closed_wf rules rule : closed_rule (length rules) rule -> seq_wf rules rule.
Proof. intros (l & -> & Hl). apply frag_seq_wf; [done|by apply wf_end]. Qed.

Lemma copy_closed n rule : closed_rule n rule -> copy_rule rule = Ok rule.
Proof.
  intros (l & -> & Hl). apply frag_no_end in Hl. induction Hl as [|e l He _ IH]; [done|]. cbn [app copy_rule]. rewrite (proj2 (has_type_false _ _) He), IH. done.
Qed.

Lemma copy_all_closed n rules : Forall (closed_rule n) rules -> mapM copy_rule rules = Ok rules.
Proof. intros H. rewrite Forall_forall in H. rewrite (mapM_Ok copy_rule id); [by rewrite list_fmap_id|]. intros rule Hin. by apply (copy_closed n), H. Qed.

(** References may be bounded anew. *)
Lemma frag_rebound n m l : frag n l -> Forall (fun e => e_type e = GRETYPE_RULE_REF -> Z.to_nat (e_value e) < m) l -> frag m l.
Proof.
  induction 1 as [|e l He Hl IH|e l He Hr Hl IH|e l He Hl IH|xs l Hx Hl IH]; intros Hm; [constructor| | | |apply Forall_app in Hm as [_ Hm]; apply frag_class; auto];
    apply Forall_cons in Hm as [Hm1 Hm2]; [apply frag_alt|apply frag_ref|apply frag_token]; auto.
Qed.
