(* ===== verification/GrammarParser.v ===== *)
(** * Grammars: the text form (src/src/llama-grammar.cpp, class llama_grammar_parser)

    The parser of the grammar notation and the construction of a grammar from a text.  A
    pointer into the text is what is left of it from there on; at its end it points to a 0.
    The tokens of the vocabulary and the regular expressions of triggers are arguments. *)

From Stdlib Require Import Ascii.
From stdpp Require Import gmap.
From S2P Require Import TailRequest.
From S2P Require Export GrammarState.
Open Scope nat_scope.

Notation text := (list Z).

Definition MAX_REPETITION_THRESHOLD : Z := 2000.

Definition ch (a : ascii) : Z := Z.of_nat (nat_of_ascii a).

(** [*pos] *)
Definition cur (pos : text) : Z := default 0%Z (head pos).
Definition looks_at (a : ascii) (pos : text) : bool := (cur pos =? ch a)%Z.

(** ** Words, numbers and characters *)

Definition is_digit_char (c : Z) : bool := (ch "0" <=? c)%Z && (c <=? ch "9")%Z.

Definition is_word_char (c : Z) : bool :=
  ((ch "a" <=? c)%Z && (c <=? ch "z")%Z) || ((ch "A" <=? c)%Z && (c <=? ch "Z")%Z) || (c =? ch "-")%Z || is_digit_char c.

Definition hex_digit (c : Z) : option Z :=
  if (ch "a" <=? c)%Z && (c <=? ch "f")%Z then Some (c - ch "a" + 10)%Z
  else if (ch "A" <=? c)%Z && (c <=? ch "F")%Z then Some (c - ch "A" + 10)%Z
  else if (ch "0" <=? c)%Z && (c <=? ch "9")%Z then Some (c - ch "0")%Z
  else None.

Fixpoint parse_hex (size : nat) (value : Z) (pos : text) : outcome (Z * text) :=
  match size with
  | 0 => Ok (value, pos)
  | S size =>
      match pos with
      | [] => Err RuntimeError
      | c :: pos => match hex_digit c with Some d => parse_hex size (u32 (u32 (Z.shiftl value 4) + d)) pos | None => Err RuntimeError end
      end
  end.

Definition is_newline (c : Z) : bool := (c =? 13)%Z || (c =? 10)%Z.

(** [comment]: after a # and before the end of its line. *)
Fixpoint skip_space (newline_ok comment : bool) (pos : text) : text :=
  match pos with
  | [] => []
  | c :: rest =>
      if comment && negb (is_newline c) then skip_space newline_ok true rest
      else if (c =? ch " ")%Z || (c =? 9)%Z then skip_space newline_ok false rest
      else if (c =? ch "#")%Z then skip_space newline_ok true rest
      else if newline_ok && is_newline c then skip_space newline_ok false rest
      else pos
  end.
Definition parse_space (pos : text) (newline_ok : bool) : text := skip_space newline_ok false pos.

Fixpoint span (f : Z -> bool) (pos : text) : text * text :=
  match pos with
  | [] => ([], [])
  | c :: rest => if f c then (c :: (span f rest).1, (span f rest).2) else ([], pos)
  end.

(** What is read, and where it ends. *)
Definition parse_name (src : text) : outcome (text * text) :=
  let r := span is_word_char src in
  _ ← require_ RuntimeError (negb (bool_decide (r.1 = [])));
  Ok r.
Definition parse_int (src : text) : outcome (text * text) :=
  let r := span is_digit_char src in
  _ ← require_ RuntimeError (negb (bool_decide (r.1 = [])));
  Ok r.

(** [std::stoull] on digits. *)
Definition stoull (s : text) : outcome Z :=
  let v := foldl (fun v c => (10 * v + (c - ch "0"))%Z) 0%Z s in
  if (v <=? UINT64_MAX)%Z then Ok v else Err OutOfRange.

(** One character; the bytes of its sequence are not checked. *)
Fixpoint utf8_bytes (n : nat) (value : Z) (pos : text) : Z * text :=
  match n, pos with
  | S n, b :: pos => utf8_bytes n (utf8_add value b) pos
  | _, _ => (value, pos)
  end.

Definition decode_char_lookup : list nat := [1; 1; 1; 1; 1; 1; 1; 1; 1; 1; 1; 1; 2; 2; 3; 4].

Definition decode_char (src : text) : outcome (Z * text) :=
  match src with
  | [] => Err OutOfBounds
  | first_byte :: pos =>
      len ← vec_get decode_char_lookup (Z.to_nat (Z.shiftr first_byte 4));
      let mask := (Z.shiftl 1 (8 - Z.of_nat len) - 1)%Z in
      Ok (utf8_bytes (len - 1) (Z.land first_byte mask) pos)
  end.

Definition parse_char (src : text) : outcome (Z * text) :=
  match src with
  | [] => Err RuntimeError
  | c :: rest =>
      if (c =? ch "\")%Z then
        match rest with
        | [] => Err RuntimeError
        | d :: pos =>
            if (d =? ch "x")%Z then parse_hex 2 0 pos
            else if (d =? ch "u")%Z then parse_hex 4 0 pos
            else if (d =? ch "U")%Z then parse_hex 8 0 pos
            else if (d =? ch "t")%Z then Ok (9%Z, pos)
            else if (d =? ch "r")%Z then Ok (13%Z, pos)
            else if (d =? ch "n")%Z then Ok (10%Z, pos)
            else if (d =? ch "\")%Z || (d =? 34)%Z || (d =? ch "[")%Z || (d =? ch "]")%Z then Ok (d, pos)
            else Err RuntimeError
        end
      else decode_char src
  end.

(** Only when the text goes on with this character. *)
Definition expect (a : ascii) (pos : text) : outcome text :=
  _ ← require_ RuntimeError (looks_at a pos);
  Ok (tail pos).

Section parser.
(** The token a text is, when the vocabulary has it as exactly one; no vocabulary. *)
Context (vocab : option (text -> option Z)).

(** <[id]> or <token> *)
Definition parse_token (src : text) : outcome (Z * text) :=
  pos ← expect "<" src;
  if looks_at "[" pos then
    r ← parse_int (tail pos);
    token_id ← stoull r.1;
    pos ← expect "]" r.2;
    pos ← expect ">" pos;
    Ok (u32 token_id, pos)
  else
    match vocab with
    | None => Err RuntimeError
    | Some tokenize =>
        let r := span (fun c => negb (c =? ch ">")%Z) pos in
        pos ← expect ">" r.2;
        match tokenize (ch "<" :: r.1 ++ [ch ">"]) with
        | Some token => Ok (u32 token, pos)
        | None => Err RuntimeError
        end
    end.

(** ** The state of the parser *)

Record llama_grammar_parser := mk_parser { symbol_ids : gmap text Z; rules : llama_grammar_rules }.

Definition next_id (p : llama_grammar_parser) : Z := u32 (Z.of_nat (size (symbol_ids p))).

Definition get_symbol_id (name : text) : stx llama_grammar_parser Z :=
  p ← stx_get;
  match symbol_ids p !! name with
  | Some id => mret id
  | None => stx_put (mk_parser (<[name := next_id p]> (symbol_ids p)) (rules p));; mret (next_id p)
  end.

(** [base_name + '_' + std::to_string(next_id)] *)
Definition generated_name (base_name : text) (id : Z) : text := base_name ++ ch "_" :: (ch <$> to_string id).

Definition generate_symbol_id (base_name : text) : stx llama_grammar_parser Z :=
  p ← stx_get;
  stx_put (mk_parser (<[generated_name base_name (next_id p) := next_id p]> (symbol_ids p)) (rules p));;
  mret (next_id p).

Definition put_rule (rule_id : nat) (rule : llama_grammar_rule) (rules : llama_grammar_rules) : llama_grammar_rules :=
  <[rule_id := rule]> (if length rules <=? rule_id then rules ++ replicate (rule_id + 1 - length rules) [] else rules).

Definition add_rule (rule_id : Z) (rule : llama_grammar_rule) : stx llama_grammar_parser unit :=
  stx_modify (fun p => mk_parser (symbol_ids p) (put_rule (Z.to_nat rule_id) rule (rules p))).

(** ** Sequences *)

(** The rule so far, where its last symbol starts, and how many rules that took. *)
Record sequence := mk_sequence { sq_rule : llama_grammar_rule; sq_start : nat; sq_prev : Z }.

(** A symbol of one element. *)
Definition push_symbol (e : llama_grammar_element) (n_prev_rules : Z) (s : sequence) : sequence :=
  mk_sequence (sq_rule s ++ [e]) (length (sq_rule s)) n_prev_rules.

(** The loop over the optional repetitions, from round [i] on: a rule each; the id of the
    last one. *)
Fixpoint rec_rules (fuel : nat) (i n_opt : Z) (no_max : bool) (rule_name : text) (prev_rule : llama_grammar_rule) (last_rec_rule_id : Z) : stx llama_grammar_parser Z :=
  if (i <? n_opt)%Z then
    match fuel with
    | 0 => stx_throw OutOfFuel
    | S fuel =>
        rec_rule_id ← generate_symbol_id rule_name;
        let ref := if (0 <? i)%Z || no_max then [mk_elem GRETYPE_RULE_REF (if no_max then rec_rule_id else last_rec_rule_id)] else [] in
        add_rule rec_rule_id (prev_rule ++ ref ++ [mk_elem GRETYPE_ALT 0; mk_elem GRETYPE_END 0]);;
        rec_rules fuel (i + 1) n_opt no_max rule_name prev_rule rec_rule_id
    end
  else mret last_rec_rule_id.

(** Rounds enough for bounds in order, which are at most the threshold apart.  Bounds in the
    wrong order make the loop run for about 2^64 rounds: it is out of fuel. *)
Definition repeat_fuel : nat := Z.to_nat MAX_REPETITION_THRESHOLD.

(** How many times the last symbol counts against the threshold. *)
Definition total_rules (min_times max_times : Z) : Z :=
  if negb (max_times =? UINT64_MAX)%Z && (0 <? max_times)%Z then max_times else if (0 <? min_times)%Z then min_times else 1%Z.

Definition n_opt (min_times max_times : Z) : Z := if (max_times =? UINT64_MAX)%Z then 1%Z else u64 (max_times - min_times).

(** UINT64_MAX: no maximum. *)
Definition handle_repetitions (rule_name : text) (min_times max_times : Z) (s : sequence) : stx llama_grammar_parser sequence :=
  let no_max := (max_times =? UINT64_MAX)%Z in
  let total := total_rules min_times max_times in
  let n := n_opt min_times max_times in
  let prev_rule := drop (sq_start s) (sq_rule s) in
  stx_lift (require_ RuntimeError (negb (sq_start s =? length (sq_rule s))));;
  stx_lift (require_ RuntimeError (u64 (sq_prev s * total) <? MAX_REPETITION_THRESHOLD)%Z);;
  let rule := if (min_times =? 0)%Z then take (sq_start s) (sq_rule s) else sq_rule s ++ concat (replicate (Z.to_nat (min_times - 1)) prev_rule) in
  last ← rec_rules repeat_fuel 0 n no_max rule_name prev_rule 0;
  let rule := if (0 <? n)%Z then rule ++ [mk_elem GRETYPE_RULE_REF last] else rule in
  stx_lift (assert_ (1 <=? u64 (sq_prev s * total))%Z);;
  mret (mk_sequence rule (sq_start s) (u64 (sq_prev s * total))).

(** The characters up to the closing quote. *)
Fixpoint literal_chars (fuel : nat) (pos : text) (rule : llama_grammar_rule) : outcome (llama_grammar_rule * text) :=
  match fuel with
  | 0 => Err OutOfFuel
  | S fuel =>
      match pos with
      | [] => Err RuntimeError
      | c :: rest =>
          if (c =? 34)%Z then Ok (rule, rest) else
          r ← parse_char pos;
          literal_chars fuel r.2 (rule ++ [mk_elem GRETYPE_CHAR r.1])
      end
  end.

(** The upper end of a range, when a - that is not the last character comes. *)
Definition range_end (pos : text) (rule : llama_grammar_rule) : outcome (llama_grammar_rule * text) :=
  if looks_at "-" pos && negb (looks_at "]" (tail pos)) then
    _ ← require_ RuntimeError (negb (bool_decide (tail pos = [])));
    r ← parse_char (tail pos);
    Ok (rule ++ [mk_elem GRETYPE_CHAR_RNG_UPPER r.1], r.2)
  else Ok (rule, pos).

(** The items of a class up to the closing bracket. *)
Fixpoint class_chars (fuel : nat) (start_type : llama_gretype) (pos : text) (rule : llama_grammar_rule) (start : nat) : outcome (llama_grammar_rule * text) :=
  match fuel with
  | 0 => Err OutOfFuel
  | S fuel =>
      match pos with
      | [] => Err RuntimeError
      | c :: rest =>
          if (c =? ch "]")%Z then Ok (rule, rest) else
          r ← parse_char pos;
          let type := if start <? length rule then GRETYPE_CHAR_ALT else start_type in
          r ← range_end r.2 (rule ++ [mk_elem type r.1]);
          class_chars fuel start_type r.2 r.1 start
      end
  end.

(** The bounds between braces; at the end the text after the closing one. *)
Definition parse_bounds (is_nested : bool) (pos : text) : outcome (Z * Z * text) :=
  _ ← require_ RuntimeError (is_digit_char (cur pos));
  r ← parse_int pos;
  min_times ← stoull r.1;
  let pos := parse_space r.2 is_nested in
  x ← (if looks_at "}" pos then Ok (min_times, parse_space (tail pos) is_nested)
       else if looks_at "," pos then
         let pos := parse_space (tail pos) is_nested in
         y ← (if is_digit_char (cur pos)
              then r ← parse_int pos; max_times ← stoull r.1; Ok (max_times, parse_space r.2 is_nested)
              else Ok (UINT64_MAX, pos));
         pos ← expect "}" y.2;
         Ok (y.1, parse_space pos is_nested)
       else Err RuntimeError);
  let '(max_times, pos) := x in
  _ ← require_ RuntimeError (min_times <=? MAX_REPETITION_THRESHOLD)%Z;
  Ok (min_times, if negb (max_times =? UINT64_MAX)%Z && (MAX_REPETITION_THRESHOLD <? max_times)%Z then UINT64_MAX else max_times, pos).

(** One round of the loop of [parse_sequence]; [None]: it ends.  [alternates] parses what
    stands between parentheses, for the rule with the given id. *)
Definition parse_item (alternates : text -> Z -> stx llama_grammar_parser text) (rule_name : text) (is_nested : bool) (pos : text) (s : sequence)
    : stx llama_grammar_parser (option (text * sequence)) :=
  let c := cur pos in
  let repeat_ min_times max_times pos := s ← handle_repetitions rule_name min_times max_times s; mret (Some (pos, s)) in
  if (c =? 34)%Z then
    r ← stx_lift (literal_chars (length pos) (tail pos) (sq_rule s));
    mret (Some (parse_space r.2 is_nested, mk_sequence r.1 (length (sq_rule s)) 1))
  else if (c =? ch "[")%Z then
    let inverse := looks_at "^" (tail pos) in
    let start := if inverse then tail (tail pos) else tail pos in
    r ← stx_lift (class_chars (length pos) (if inverse then GRETYPE_CHAR_NOT else GRETYPE_CHAR) start (sq_rule s) (length (sq_rule s)));
    mret (Some (parse_space r.2 is_nested, mk_sequence r.1 (length (sq_rule s)) 1))
  else if (c =? ch "<")%Z || (c =? ch "!")%Z then
    r ← stx_lift (parse_token (if (c =? ch "!")%Z then tail pos else pos));
    mret (Some (parse_space r.2 is_nested, push_symbol (mk_elem (if (c =? ch "!")%Z then GRETYPE_TOKEN_NOT else GRETYPE_TOKEN) r.1) 1 s))
  else if is_word_char c then
    r ← stx_lift (parse_name pos);
    ref_rule_id ← get_symbol_id r.1;
    mret (Some (parse_space r.2 is_nested, push_symbol (mk_elem GRETYPE_RULE_REF ref_rule_id) 1 s))
  else if (c =? ch "(")%Z then
    before ← stx_get;
    sub_rule_id ← generate_symbol_id rule_name;
    pos ← alternates (parse_space (tail pos) true) sub_rule_id;
    after ← stx_get;
    let n_prev_rules := Z.max 1 (u32 (u32 (Z.of_nat (size (symbol_ids after))) - u32 (Z.of_nat (size (symbol_ids before))))) in
    pos ← stx_lift (expect ")" pos);
    mret (Some (parse_space pos is_nested, push_symbol (mk_elem GRETYPE_RULE_REF sub_rule_id) n_prev_rules s))
  else if (c =? ch ".")%Z then mret (Some (parse_space (tail pos) is_nested, push_symbol (mk_elem GRETYPE_CHAR_ANY 0) 1 s))
  else if (c =? ch "*")%Z then repeat_ 0%Z UINT64_MAX (parse_space (tail pos) is_nested)
  else if (c =? ch "+")%Z then repeat_ 1%Z UINT64_MAX (parse_space (tail pos) is_nested)
  else if (c =? ch "?")%Z then repeat_ 0%Z 1%Z (parse_space (tail pos) is_nested)
  else if (c =? ch "{")%Z then
    b ← stx_lift (parse_bounds is_nested (parse_space (tail pos) is_nested));
    repeat_ b.1.1 b.1.2 b.2
  else mret None.

(** The loop of [parse_sequence], and [parse_alternates] with its loop: [rule] is what
    stands before the sequence to parse. *)
Fixpoint parse_sequence (fuel : nat) (rule_name : text) (is_nested : bool) (pos : text) (s : sequence) : stx llama_grammar_parser (text * llama_grammar_rule) :=
  match fuel with
  | 0 => stx_throw OutOfFuel
  | S fuel =>
      if bool_decide (pos = []) then mret (pos, sq_rule s) else
      r ← parse_item (fun pos id => parse_alternates fuel rule_name id true pos []) rule_name is_nested pos s;
      match r with
      | None => mret (pos, sq_rule s)
      | Some (pos, s) => parse_sequence fuel rule_name is_nested pos s
      end
  end
with parse_alternates (fuel : nat) (rule_name : text) (rule_id : Z) (is_nested : bool) (src : text) (rule : llama_grammar_rule) : stx llama_grammar_parser text :=
  match fuel with
  | 0 => stx_throw OutOfFuel
  | S fuel =>
      r ← parse_sequence fuel rule_name is_nested src (mk_sequence rule (length rule) 1);
      let '(pos, rule) := r in
      if looks_at "|" pos then parse_alternates fuel rule_name rule_id is_nested (parse_space (tail pos) true) (rule ++ [mk_elem GRETYPE_ALT 0])
      else add_rule rule_id (rule ++ [mk_elem GRETYPE_END 0]);; mret pos
  end.

(** ** Rules *)

(** Enough for every character to open and close a group. *)
Definition parse_fuel (pos : text) : nat := 2 * length pos + 2.

Definition parse_rule (src : text) : stx llama_grammar_parser text :=
  r ← stx_lift (parse_name src);
  let name := r.1 in
  let pos := parse_space r.2 false in
  rule_id ← get_symbol_id name;
  pos ← stx_lift (p ← expect ":" pos; p ← expect ":" p; expect "=" p);
  let pos := parse_space pos true in
  pos ← parse_alternates (parse_fuel pos) name rule_id false pos [];
  pos ← stx_lift (match pos with
                  | [] => Ok []
                  | c :: rest =>
                      if (c =? 13)%Z then Ok (if (cur rest =? 10)%Z then tail rest else rest)
                      else if (c =? 10)%Z then Ok rest
                      else Err RuntimeError
                  end);
  mret (parse_space pos true).

Fixpoint parse_rules (fuel : nat) (pos : text) : stx llama_grammar_parser unit :=
  match pos with
  | [] => mret tt
  | _ => match fuel with
         | 0 => stx_throw OutOfFuel
         | S fuel => pos ← parse_rule pos; parse_rules fuel pos
         end
  end.

(** A reference to a rule that is not there is named in the error. *)
Definition undefined_ref (p : llama_grammar_parser) (e : llama_grammar_element) : bool :=
  has_type GRETYPE_RULE_REF e &&
  match rules p !! Z.to_nat (e_value e) with Some (_ :: _) => false | _ => true end &&
  existsb (fun kv => (kv.2 =? e_value e)%Z) (map_to_list (symbol_ids p)).

Definition check_rules (p : llama_grammar_parser) : outcome unit :=
  require_ RuntimeError (forallb (fun rule => negb (length rule =? 0) && forallb (fun e => negb (undefined_ref p e)) rule) (rules p)).

Definition parse_all (src : text) : stx llama_grammar_parser unit :=
  let pos := parse_space src true in
  parse_rules (length pos) pos;;
  p ← stx_get;
  stx_lift (check_rules p).

(** An exception leaves no rules. *)
Definition parse (src : text) : stx llama_grammar_parser bool := fun p =>
  match parse_all src p with
  | (Ok _, p) => (Ok true, p)
  | (Err f, p) => if is_exception f then (Ok false, mk_parser (symbol_ids p) []) else (Err f, p)
  end.

(** ** Construction from a text *)

Definition llama_grammar_init_text (fuel : nat) (grammar_str grammar_root : text) (lazy : bool) (trigger_patterns : list (text -> option nat)) (trigger_tokens : list Z)
    : outcome (option llama_grammar) :=
  match parse grammar_str (mk_parser ∅ []) with
  | (Err f, _) => Err f
  | (Ok ok, p) =>
      if negb ok || (length (rules p) =? 0) then Ok None else
      match symbol_ids p !! grammar_root with
      | None => Ok None
      | Some start_rule_index =>
          vec_rules ← mapM copy_rule (rules p);
          found ← has_left_recursion vec_rules;
          if (found : bool) then Ok None else
          stacks ← initial_stacks fuel vec_rules (Z.to_nat start_rule_index);
          Ok (Some (mk_grammar vec_rules stacks (mk_partial 0 0) lazy lazy [] [] trigger_tokens trigger_patterns))
      end
  end.

End parser.
