(* ===== verification/GrammarParserRun.v ===== *)
(** * Grammars: running the parser

    Rules for what a piece of the parser does: it throws an exception, or returns with a
    result and a state of which something holds, or there is a known reason for which it
    does not end.  The pieces below the rules. *)

From Stdlib Require Import Ascii.
From S2P Require Import TailRequest.
From S2P Require Export GrammarFragments GrammarParser.
Open Scope nat_scope.

(** ** Results *)

Definition parses {A} (m : outcome A) (Q : A -> Prop) : Prop := match m with Ok a => Q a | Err f => is_exception f = true end.

Lemma parses_bind {A B} (m : outcome A) (k : A -> outcome B) Q R : parses m Q -> (forall a, Q a -> parses (k a) R) -> parses (x ← m; k x) R.
Proof. destruct m; cbn; auto. Qed.

Lemma parses_mono {A} (m : outcome A) (Q R : A -> Prop) : parses m Q -> (forall a, Q a -> R a) -> parses m R.
Proof. destruct m; cbn; auto. Qed.

Lemma parses_require f b (Q : unit -> Prop) : is_exception f = true -> (b = true -> Q tt) -> parses (require_ f b) Q.
Proof. destruct b; cbn; auto. Qed.

(** [R]: why it may be out of fuel. *)
Definition runs {A} (R : Prop) (m : stx llama_grammar_parser A) (p : llama_grammar_parser) (Q : A -> llama_grammar_parser -> Prop) : Prop :=
  match m p with (Ok a, p') => Q a p' | (Err f, _) => is_exception f = true \/ f = OutOfFuel /\ R end.

Section runs.
Context {R : Prop}.

Lemma runs_ret {A} (a : A) p Q : Q a p -> runs R (mret a) p Q.
Proof. done. Qed.

Lemma runs_bind {A B} (m : stx llama_grammar_parser A) (k : A -> stx llama_grammar_parser B) p Q Q' : runs R m p Q -> (forall a p', Q a p' -> runs R (k a) p' Q') -> runs R (x ← m; k x) p Q'.
Proof. intros H Hk. unfold runs, mbind, stx_bind in *. destruct (m p) as [[a|f] p']; [by apply Hk|exact H]. Qed.

Lemma runs_mono {A} (m : stx llama_grammar_parser A) p (Q Q' : A -> llama_grammar_parser -> Prop) : runs R m p Q -> (forall a p', Q a p' -> Q' a p') -> runs R m p Q'.
Proof. intros H Hk. unfold runs in *. destruct (m p) as [[a|f] p']; [by apply Hk|exact H]. Qed.

Lemma runs_lift {A} (m : outcome A) p (Q : A -> Prop) : parses m Q -> runs R (stx_lift m) p (fun a p' => Q a /\ p' = p).
Proof. unfold runs, stx_lift. destruct m; cbn; auto. Qed.

Lemma runs_get p : runs R stx_get p (fun a p' => a = p /\ p' = p).
Proof. done. Qed.

Lemma runs_out_of_fuel {A} p (Q : A -> llama_grammar_parser -> Prop) : R -> runs R (stx_throw OutOfFuel) p Q.
Proof. by right. Qed.
End runs.

(** ** What is left of the text *)

Definition byte_text (pos : text) : Prop := Forall (fun c => 0 < c < 256)%Z pos.

Lemma byte_suffix rest pos : rest `suffix_of` pos -> byte_text pos -> byte_text rest.
Proof. intros [k ->] H. by apply Forall_app in H as [_ H]. Qed.

Lemma suffix_le (rest pos : text) : rest `suffix_of` pos -> length rest <= length pos.
Proof. intros [k ->]. rewrite length_app. lia. Qed.

(** A proper rest. *)
Definition past (pos rest : text) : Prop := rest `suffix_of` pos /\ length rest < length pos.

Lemma past_tail pos rest : rest `suffix_of` tail pos -> pos <> [] -> past pos rest.
Proof.
  intros H Hne. destruct pos as [|c pos]; [done|]. cbn [tail] in H. split; [etrans; [exact H|by exists [c]]|]. apply suffix_le in H. cbn [length]. lia.
Qed.

Lemma past_trans pos rest rest' : past pos rest -> rest' `suffix_of` rest -> past pos rest'.
Proof. intros [H1 H2] H. split; [by etrans|]. apply suffix_le in H. lia. Qed.

Lemma past_suffix pos rest : past pos rest -> rest `suffix_of` pos.
Proof. by intros [? _]. Qed.

Lemma tail_suffix (pos : text) : tail pos `suffix_of` pos.
Proof. destruct pos as [|c pos]; [done|by exists [c]]. Qed.

Lemma cur_cons a pos : looks_at a pos = true -> a <> zero -> exists rest, pos = ch a :: rest.
Proof.
  unfold looks_at, cur. intros H%Z.eqb_eq Ha. destruct pos as [|c pos]; simpl in H; [|exists pos; by rewrite H].
  exfalso. apply Ha. unfold ch in H. assert (nat_of_ascii a = 0) as E by lia. by rewrite <- (ascii_nat_embedding a), E.
Qed.

Lemma skip_space_suffix nl pos : forall comment, skip_space nl comment pos `suffix_of` pos.
Proof.
  induction pos as [|c pos IH]; intros comment; cbn [skip_space]; [done|]. assert (forall b, skip_space nl b pos `suffix_of` c :: pos) as H by (intros b; etrans; [apply IH|by exists [c]]).
  repeat (case_match; [apply H|]). done.
Qed.

Lemma space_suffix pos nl : parse_space pos nl `suffix_of` pos.
Proof. apply skip_space_suffix. Qed.

Lemma span_ok f pos : (span f pos).1 ++ (span f pos).2 = pos /\ forallb f (span f pos).1 = true.
Proof.
  induction pos as [|c pos [IH1 IH2]]; cbn [span]; [done|]. destruct (f c) eqn:E; cbn [fst snd app forallb]; [|done]. by rewrite E, IH1, IH2.
Qed.

Lemma span_suffix f pos : (span f pos).2 `suffix_of` pos.
Proof. exists (span f pos).1. symmetry. apply span_ok. Qed.

Lemma name_ok src : parses (parse_name src) (fun r => past src r.2 /\ forallb is_word_char r.1 = true).
Proof.
  unfold parse_name. eapply parses_bind; [apply (parses_require _ _ (fun _ => (span is_word_char src).1 <> [])); [done|]; intros H%negb_true_iff; by apply bool_decide_eq_false in H|]. intros [] H. cbn.
  destruct (span_ok is_word_char src) as [E1 E2]. split; [|done]. split; [apply span_suffix|]. rewrite <- E1 at 2. rewrite length_app. destruct (span is_word_char src).1; [done|]. cbn [length]. lia.
Qed.

Lemma int_ok src : parses (parse_int src) (fun r => r.2 `suffix_of` src).
Proof. unfold parse_int. eapply parses_bind; [by apply (parses_require _ _ (fun _ => True))|]. intros [] _. cbn. apply span_suffix. Qed.

Lemma stoull_ok s : parses (stoull s) (fun _ => True).
Proof. unfold stoull. by case_match. Qed.

Lemma expect_ok a pos : a <> zero -> parses (expect a pos) (fun rest => past pos rest /\ pos = ch a :: rest).
Proof.
  intros Ha. unfold expect. eapply parses_bind; [by apply (parses_require _ _ (fun _ => looks_at a pos = true))|]. intros [] H. destruct (cur_cons _ _ H Ha) as (rest & ->). cbn. split; [|done]. by apply past_tail.
Qed.

Lemma hex_ok size : forall v pos, parses (parse_hex size v pos) (fun r => r.2 `suffix_of` pos).
Proof.
  induction size as [|size IH]; intros v pos; cbn [parse_hex]; [by cbn|]. destruct pos as [|c pos]; [done|]. destruct (hex_digit c); [|done]. eapply parses_mono; [apply IH|]. intros r H. etrans; [exact H|by exists [c]].
Qed.

Lemma utf8_bytes_suffix n : forall v pos, (utf8_bytes n v pos).2 `suffix_of` pos.
Proof. induction n as [|n IH]; intros v pos; [by destruct pos|]; cbn [utf8_bytes]. destruct pos as [|b pos]; [done|]. etrans; [apply IH|by exists [b]]. Qed.

Lemma char_ok src : byte_text src -> parses (parse_char src) (fun r => past src r.2).
Proof.
  intros Hb. unfold parse_char. destruct src as [|c rest]; [done|].
  assert (forall pos, pos `suffix_of` rest -> past (c :: rest) pos) as Hp by (intros pos H; by apply past_tail).
  destruct (c =? ch "\")%Z.
  - destruct rest as [|d pos]; [done|]. assert (pos `suffix_of` d :: pos) as Hs by (by exists [d]).
    repeat (case_match; [first [eapply parses_mono; [apply hex_ok|]; cbn beta; intros r H'; apply Hp; by etrans | by apply Hp]|]). done.
  - unfold decode_char. apply Forall_cons in Hb as [Hc _]. assert (Z.shiftr c 4 = c / 16)%Z as -> by (by rewrite Z.shiftr_div_pow2).
    destruct (lookup_lt_is_Some_2 decode_char_lookup (Z.to_nat (c / 16))) as [len Hl]; [cbn; Z.to_euclidean_division_equations; lia|]. rewrite (vec_get_Some _ _ _ Hl). cbn. apply Hp, utf8_bytes_suffix.
Qed.

Lemma token_ok vocab src : src <> [] -> parses (parse_token vocab src) (fun r => past src r.2).
Proof.
  intros Hne. unfold parse_token. eapply parses_bind; [by apply expect_ok|]. intros pos [Hp _]. destruct (looks_at "[" pos) eqn:El.
  - eapply parses_bind; [apply int_ok|]. intros r Hr. eapply parses_bind; [apply stoull_ok|]. intros id _. eapply parses_bind; [by apply expect_ok|]. intros pos1 [H1 _]. eapply parses_bind; [by apply expect_ok|]. intros pos2 [H2 _].
    cbn. eapply past_trans; [exact Hp|]. etrans; [apply (past_suffix _ _ H2)|]. etrans; [apply (past_suffix _ _ H1)|]. etrans; [exact Hr|]. apply tail_suffix.
  - destruct vocab as [tokenize|]; [|done]. eapply parses_bind; [by apply expect_ok|]. intros pos1 [H1 _]. destruct (tokenize _); [|done]. cbn. eapply past_trans; [exact Hp|]. etrans; [apply (past_suffix _ _ H1)|]. apply span_suffix.
Qed.

(** ** Literals and classes *)

Lemma literal_ok n fuel : forall pos rule, length pos < fuel -> byte_text pos ->
  parses (literal_chars fuel pos rule) (fun r => r.2 `suffix_of` pos /\ exists l, r.1 = rule ++ l /\ frag n l).
Proof.
  induction fuel as [|fuel IH]; intros pos rule Hf Hb; [lia|]. cbn [literal_chars]. destruct pos as [|c rest]; [done|]. destruct (c =? 34)%Z.
  - cbn. split; [by exists [c]|]. exists []. rewrite app_nil_r. split; [done|constructor].
  - eapply parses_bind; [by apply char_ok|]. intros [v pos] Hp. cbn [fst snd] in *. pose proof Hp as [Hs Hl]. eapply parses_mono; [apply IH; [lia|by eapply byte_suffix]|]. intros r (H1 & l & -> & Hfr). split; [by etrans|].
    exists (mk_elem GRETYPE_CHAR v :: l). rewrite <- app_assoc. split; [done|]. by apply (frag_app n [_]); [apply frag_one_class|].
Qed.

Lemma range_end_ok pos rule : byte_text pos -> parses (range_end pos rule) (fun r => r.2 `suffix_of` pos /\ exists u, r.1 = rule ++ (match u with Some u => [u] | None => [] end) /\ match u with Some u => e_type u = GRETYPE_CHAR_RNG_UPPER | None => True end).
Proof.
  intros Hb. unfold range_end. case_match; [|cbn; split; [done|]; exists None; by rewrite app_nil_r]. eapply parses_bind; [by apply (parses_require _ _ (fun _ => True))|]. intros [] _.
  eapply parses_bind; [apply char_ok; eapply byte_suffix; [apply tail_suffix|done]|]. intros r Hr. cbn. split; [etrans; [apply (past_suffix _ _ Hr)|apply tail_suffix]|]. by exists (Some (mk_elem GRETYPE_CHAR_RNG_UPPER r.1)).
Qed.

Lemma class_ok start_type rule0 fuel : class_start (mk_elem start_type 0) = true -> forall pos xs, length pos < fuel -> byte_text pos -> xs = [] \/ class_shape xs ->
  parses (class_chars fuel start_type pos (rule0 ++ elem_lists xs) (length rule0)) (fun r => r.2 `suffix_of` pos /\ exists xs', r.1 = rule0 ++ elem_lists xs' /\ (xs' = [] \/ class_shape xs')).
Proof.
  intros Hst. induction fuel as [|fuel IH]; intros pos xs Hf Hb Hxs; [lia|]. cbn [class_chars]. destruct pos as [|c rest]; [done|]. destruct (c =? ch "]")%Z; [cbn; split; [by exists [c]|by exists xs]|].
  eapply parses_bind; [by apply char_ok|]. intros [v pos] Hp. cbn [fst snd] in *. pose proof Hp as [Hs Hl].
  set (t := if length rule0 <? length (rule0 ++ elem_lists xs) then GRETYPE_CHAR_ALT else start_type).
  eapply parses_bind; [apply range_end_ok; by eapply byte_suffix|]. intros [rule1 pos1] (H1 & u & E & Hu). cbn [fst snd] in *. subst rule1.
  assert ((rule0 ++ elem_lists xs) ++ [mk_elem t v] ++ match u with Some u => [u] | None => [] end = rule0 ++ elem_lists (xs ++ [(mk_elem t v, u)])) as E.
  { unfold elem_lists. rewrite fmap_app, concat_app. cbn [fmap list_fmap concat elem_list fst snd]. rewrite app_nil_r, <- !app_assoc. done. }
  rewrite app_assoc in E. rewrite E. pose proof (suffix_le _ _ H1). eapply parses_mono; [apply IH; [lia|eapply byte_suffix; [exact H1|by eapply byte_suffix]|]|].
  - right. destruct Hxs as [->|Hxs].
    + assert (t = start_type) as -> by (unfold t; change (elem_lists []) with (@nil llama_grammar_element); by rewrite app_nil_r, Nat.ltb_irrefl). cbn. done.
    + assert (t = GRETYPE_CHAR_ALT) as ->. { unfold t. destruct xs as [|x xs]; [done|]. rewrite (proj2 (Nat.ltb_lt _ _)); [done|]. rewrite length_app. unfold elem_lists. cbn [fmap list_fmap concat elem_list app length]. lia. }
      destruct xs as [|x xs]; [done|]. destruct Hxs as (Ha & Hb' & Hc). cbn. split; [done|]. split; [done|]. apply Forall_app. split; [done|]. constructor; [|constructor]. done.
  - intros r (H2 & H3). split; [|done]. etrans; [exact H2|]. by etrans.
Qed.
