(* ===== verification/GrammarParserIds.v ===== *)
(** * Grammars: the symbols and rules of the parser

    Every id below the number of symbols belongs to a symbol, generated names are new, and
    every rule is empty or a closed fragment.  All this as long as there are not more
    symbols than an id can count. *)

From Stdlib Require Import Ascii.
From stdpp Require Import gmap.
From S2P Require Import TailRequest.
From S2P Require Export GrammarParserRun.
Open Scope nat_scope.

Definition n_ids (p : llama_grammar_parser) : nat := size (symbol_ids p).
Definition countable (n : nat) : Prop := (Z.of_nat n <= UINT32_MAX)%Z.

(** ** Names *)

Lemma ch_inj a b : ch a = ch b -> a = b.
Proof. unfold ch. intros H%Nat2Z.inj. by rewrite <- (ascii_nat_embedding a), <- (ascii_nat_embedding b), H. Qed.

#[local] Instance ch_injective : Inj (=) (=) ch.
Proof. exact ch_inj. Qed.

Lemma split_first (sep : Z) (b b' d d' : list Z) : sep ∉ b -> sep ∉ b' -> b ++ sep :: d = b' ++ sep :: d' -> d = d'.
Proof.
  revert b'. induction b as [|c b IH]; intros [|c' b'] H1 H2 E; cbn [app] in E; injection E; [done|intros; subst; by destruct H2; left|intros; subst; by destruct H1; left|].
  intros E' ->. apply (IH b'); [intros ?; apply H1; by right|intros ?; apply H2; by right|done].
Qed.

Lemma word_no_underscore b : forallb is_word_char b = true -> ch "_" ∉ b.
Proof. intros H Hin. rewrite forallb_forall in H. apply list_elem_of_In, H in Hin. by vm_compute in Hin. Qed.

Lemma generated_inj b b' i j : forallb is_word_char b = true -> forallb is_word_char b' = true -> (0 <= i)%Z -> (0 <= j)%Z -> generated_name b i = generated_name b' j -> i = j.
Proof.
  intros Hb Hb' Hi Hj E. apply split_first in E; [|by apply word_no_underscore..].
  assert (to_string i = to_string j) as Es by (eapply (inj (fmap ch)); exact E).
  destruct (to_string_spec i Hi) as (_ & _ & <-). destruct (to_string_spec j Hj) as (_ & _ & <-). by rewrite Es.
Qed.

Definition name_kind (n : nat) (k : text) : Prop :=
  forallb is_word_char k = true \/ exists b i, i < n /\ forallb is_word_char b = true /\ k = generated_name b (Z.of_nat i).

Lemma word_not_generated k b i : forallb is_word_char k = true -> k <> generated_name b i.
Proof. intros Hk ->. apply word_no_underscore in Hk. apply Hk. unfold generated_name. apply elem_of_app. right. by left. Qed.

(** ** Symbols *)

Record ids_ok (ids : gmap text Z) : Prop := {
  io_range : forall k v, ids !! k = Some v -> (0 <= v < Z.of_nat (size ids))%Z;
  io_onto : forall i, i < size ids -> exists k, ids !! k = Some (Z.of_nat i);
  io_kind : forall k v, ids !! k = Some v -> name_kind (size ids) k
}.

Lemma ids_insert ids k : ids_ok ids -> ids !! k = None -> name_kind (S (size ids)) k -> ids_ok (<[k := Z.of_nat (size ids)]> ids) /\ size (<[k := Z.of_nat (size ids)]> ids) = S (size ids).
Proof.
  intros [H1 H2 H3] Hk Hn. assert (size (<[k := Z.of_nat (size ids)]> ids) = S (size ids)) as Hs by (by apply map_size_insert_None). split; [|done]. split; rewrite Hs.
  - intros k' v [[<- <-]|[Hne H]]%lookup_insert_Some; [lia|]. apply H1 in H. lia.
  - intros i Hi. destruct (decide (i = size ids)) as [->|Hne]; [exists k; by rewrite lookup_insert_eq|]. destruct (H2 i) as (k' & H); [lia|]. exists k'. rewrite lookup_insert_ne; [done|]. intros ->. congruence.
  - intros k' v [[<- <-]|[Hne H]]%lookup_insert_Some; [done|]. destruct (H3 _ _ H) as [?|(b & i & Hi & Hb)]; [by left|right]. exists b, i. split; [lia|done].
Qed.

(** ** States *)

Record parser_ok (p : llama_grammar_parser) : Prop := {
  po_ids : ids_ok (symbol_ids p);
  po_rules : Forall (fun rule => rule = [] \/ closed_rule (n_ids p) rule) (rules p);
  po_length : length (rules p) <= n_ids p
}.

Definition pinv (p : llama_grammar_parser) : Prop := countable (n_ids p) -> parser_ok p.

(** A later state: what is asked of it holds again, and there may be more symbols. *)
Definition after (p p' : llama_grammar_parser) : Prop := pinv p' /\ n_ids p <= n_ids p'.

Lemma after_refl p : pinv p -> after p p.
Proof. done. Qed.

Lemma after_trans p1 p2 p3 : after p1 p2 -> after p2 p3 -> after p1 p3.
Proof. intros [_ H1] [H2 H3]. split; [done|lia]. Qed.

Lemma countable_le n m : n <= m -> countable m -> countable n.
Proof. unfold countable. lia. Qed.

Definition id_ok (p : llama_grammar_parser) (id : Z) : Prop := countable (n_ids p) -> (0 <= id < Z.of_nat (n_ids p))%Z.
Definition frag_ok (p : llama_grammar_parser) (l : llama_grammar_rule) : Prop := countable (n_ids p) -> frag (n_ids p) l.

Lemma id_after p p' id : n_ids p <= n_ids p' -> id_ok p id -> id_ok p' id.
Proof. intros H Hid Hc. pose proof (Hid (countable_le _ _ H Hc)). lia. Qed.

Lemma frag_after p p' l : n_ids p <= n_ids p' -> frag_ok p l -> frag_ok p' l.
Proof. intros H Hl Hc. eapply frag_mono; [exact H|]. apply Hl. by eapply countable_le. Qed.

Lemma frag_ok_app p l1 l2 : frag_ok p l1 -> frag_ok p l2 -> frag_ok p (l1 ++ l2).
Proof. intros H1 H2 Hc. apply frag_app; auto. Qed.

Lemma frag_ok_ref p id : id_ok p id -> frag_ok p [mk_elem GRETYPE_RULE_REF id].
Proof. intros H Hc. apply frag_ref; [done| |constructor]. cbn. specialize (H Hc). lia. Qed.

Lemma next_id_countable p : countable (n_ids p) -> next_id p = Z.of_nat (n_ids p).
Proof. unfold countable, next_id, n_ids. intros H. apply u32_id. unfold UINT32_MAX in *. lia. Qed.

(** A new symbol. *)
Lemma new_symbol p k : pinv p -> symbol_ids p !! k = None \/ ~ countable (n_ids p) -> (countable (S (n_ids p)) -> name_kind (S (n_ids p)) k) ->
  after p (mk_parser (<[k := next_id p]> (symbol_ids p)) (rules p)) /\ id_ok (mk_parser (<[k := next_id p]> (symbol_ids p)) (rules p)) (next_id p).
Proof.
  intros Hp Hk Hn. set (p' := mk_parser _ _).
  assert (n_ids p <= n_ids p') as Hle. { unfold n_ids, p'. cbn [symbol_ids]. rewrite map_size_insert. destruct (symbol_ids p !! k); cbn; lia. }
  assert (countable (n_ids p') -> symbol_ids p !! k = None /\ n_ids p' = S (n_ids p)) as Hnew.
  { intros Hc. destruct Hk as [Hk|Hk]; [|destruct Hk; by eapply countable_le]. split; [done|]. unfold n_ids, p'. cbn [symbol_ids]. by rewrite map_size_insert_None. }
  split; [split; [|done]|].
  - intros Hc. destruct (Hnew Hc) as [Hk' Hs]. rewrite Hs in Hc. assert (countable (n_ids p)) as Hc' by (eapply countable_le; [|exact Hc]; lia). destruct (Hp Hc') as [P1 P2 P3].
    destruct (ids_insert (symbol_ids p) k P1 Hk' (Hn Hc)) as [I1 I2]. pose proof (next_id_countable p Hc') as En. unfold p'. split; cbn [symbol_ids rules]; rewrite ?En; [exact I1| |].
    + eapply Forall_impl; [exact P2|]. intros rule [->|(l & -> & Hl)]; [by left|right]. exists l. split; [done|]. eapply frag_mono; [|exact Hl]. unfold n_ids at 2. cbn [symbol_ids]. fold (n_ids p) in I2 |- *. change (size (symbol_ids p)) with (n_ids p) in *. rewrite I2. lia.
    + unfold n_ids at 1. cbn [symbol_ids]. change (size (symbol_ids p)) with (n_ids p) in *. rewrite I2. lia.
  - intros Hc. destruct (Hnew Hc) as [_ Hs]. rewrite Hs in Hc. rewrite (next_id_countable p); [|eapply countable_le; [|exact Hc]; lia]. fold p'. rewrite Hs. lia.
Qed.

Lemma get_symbol_ok {R} name p : forallb is_word_char name = true -> pinv p -> runs R (get_symbol_id name) p (fun id p' => after p p' /\ id_ok p' id).
Proof.
  intros Hn Hp. unfold get_symbol_id. eapply runs_bind; [apply runs_get|]. intros p1 p2 [-> ->]. destruct (symbol_ids p !! name) as [id|] eqn:E.
  - apply runs_ret. split; [by apply after_refl|]. intros Hc. by apply (io_range _ (po_ids _ (Hp Hc)) name).
  - unfold runs, stx_put, mbind, stx_bind, mret, stx_ret. apply new_symbol; [done|by left|]. intros _. by left.
Qed.

Lemma generated_fresh base p : forallb is_word_char base = true -> parser_ok p -> countable (n_ids p) -> symbol_ids p !! generated_name base (next_id p) = None.
Proof.
  intros Hb Hp Hc. destruct (symbol_ids p !! generated_name base (next_id p)) as [v|] eqn:E; [exfalso|done]. destruct (io_kind _ (po_ids _ Hp) _ _ E) as [Hw|(b & i & Hi & Hw & En)].
  - by apply (word_not_generated _ base (next_id p) Hw).
  - rewrite (next_id_countable p Hc) in En. apply generated_inj in En; [|done|done|lia|lia]. unfold n_ids in En. lia.
Qed.

Lemma generate_ok {R} base p : forallb is_word_char base = true -> pinv p -> runs R (generate_symbol_id base) p (fun id p' => after p p' /\ id_ok p' id).
Proof.
  intros Hb Hp. unfold generate_symbol_id. eapply runs_bind; [apply runs_get|]. intros p1 p2 [-> ->]. unfold runs, stx_put, mbind, stx_bind, mret, stx_ret. apply new_symbol; [done| |].
  - destruct (decide (Z.of_nat (n_ids p) <= UINT32_MAX)%Z) as [Hc|Hc]; [left; by apply generated_fresh; [|apply Hp|]|by right].
  - intros Hc. right. exists base, (n_ids p). split; [lia|]. split; [done|]. rewrite (next_id_countable p); [done|]. eapply countable_le; [|exact Hc]. lia.
Qed.
