(* ===== verification/GrammarParserWf.v ===== *)
(** * Grammars: the parser keeps its rules well-formed

    Every piece of the parser throws an exception or returns, consumes text, and leaves a
    state whose rules are closed fragments over its symbols.  The one loop that may be out
    of fuel is that of a repetition with bounds in the wrong order. *)

From Stdlib Require Import Ascii.
From stdpp Require Import gmap.
From S2P Require Import TailRequest.
From S2P Require Export GrammarParserIds.
Open Scope nat_scope.

(** ** Rules *)

Lemma put_rule_length id rule rs : length (put_rule id rule rs) = Nat.max (length rs) (S id).
Proof. unfold put_rule. rewrite length_insert. case_match eqn:E; [apply Nat.leb_le in E; rewrite length_app, length_replicate; lia|apply Nat.leb_gt in E; lia]. Qed.

Lemma put_rule_Forall (P : llama_grammar_rule -> Prop) id rule rs : P [] -> P rule -> Forall P rs -> Forall P (put_rule id rule rs).
Proof.
  intros H0 Hr Hrs. unfold put_rule. apply Forall_insert; [|done]. case_match; [|done]. apply Forall_app. split; [done|]. by apply Forall_replicate.
Qed.

Lemma add_rule_ok {R} id l p : pinv p -> id_ok p id -> frag_ok p l -> runs R (add_rule id (l ++ [end_elem])) p (fun _ p' => after p p').
Proof.
  intros Hp Hid Hl. unfold runs, add_rule, stx_modify. split; [|done]. intros Hc. change (countable (n_ids p)) in Hc. destruct (Hp Hc) as [P1 P2 P3]. specialize (Hid Hc). specialize (Hl Hc). split; cbn [symbol_ids rules]; [done| |].
  - apply put_rule_Forall; [by left|right; by exists l|done].
  - rewrite put_rule_length. change (n_ids (mk_parser (symbol_ids p) _)) with (n_ids p). lia.
Qed.

Lemma rec_rules_ok {R : Prop} rule_name prev_rule no_max n fuel : forall i last p, forallb is_word_char rule_name = true -> pinv p -> frag_ok p prev_rule -> (0 <= i)%Z -> i = 0%Z \/ id_ok p last ->
  (n - i <= Z.of_nat fuel)%Z \/ R -> runs R (rec_rules fuel i n no_max rule_name prev_rule last) p (fun id p' => after p p' /\ ((i < n)%Z \/ id_ok p last -> id_ok p' id)).
Proof.
  induction fuel as [|fuel IH]; intros i last p Hw Hp Hf Hi Hl HR; cbn [rec_rules]; destruct (Z.ltb_spec i n) as [Hlt|Hge]; try (apply runs_ret; split; [by apply after_refl|]; intros [?|?]; [lia|done]).
  { destruct HR as [HR|HR]; [lia|by apply runs_out_of_fuel]. }
  eapply runs_bind; [by apply generate_ok|]. intros id p1 [[Hp1 Hn1] Hid]. assert (frag_ok p1 prev_rule) as Hf1 by by eapply frag_after.
  match goal with |- context [add_rule _ (_ ++ ?r ++ _)] => set (ref := r) end. assert (frag_ok p1 ref) as Href.
  { unfold ref. destruct (Z.ltb_spec 0 i), no_max; cbn [orb]; [by apply frag_ok_ref|apply frag_ok_ref|by apply frag_ok_ref|intros _; constructor]. destruct Hl as [?|Hl]; [lia|by eapply id_after]. }
  replace (prev_rule ++ ref ++ [mk_elem GRETYPE_ALT 0; mk_elem GRETYPE_END 0]) with ((prev_rule ++ ref ++ [mk_elem GRETYPE_ALT 0]) ++ [end_elem]) by (by rewrite <- !app_assoc).
  eapply runs_bind; [apply add_rule_ok; [done|done|]|].
  { apply frag_ok_app; [done|]. apply frag_ok_app; [done|]. intros _. apply frag_alt; [done|constructor]. }
  intros u p2 [Hp2 Hn2]. cbn beta. assert (id_ok p2 id) as Hid2 by by eapply id_after. eapply runs_mono; [apply (IH (i + 1)%Z id p2); [done|done|by eapply frag_after|lia|by right|destruct HR; [left; lia|by right]]|]. intros id3 p3 [[Hp3 Hn3] H3]. split; [split; [done|lia]|]. intros _. apply H3. by right.
Qed.

(** ** Sequences *)

Record seq_ok (p : llama_grammar_parser) (s : sequence) : Prop := {
  so_start : sq_start s <= length (sq_rule s);
  so_prev : (1 <= sq_prev s <= UINT32_MAX)%Z;
  so_before : frag_ok p (take (sq_start s) (sq_rule s));
  so_last : frag_ok p (drop (sq_start s) (sq_rule s))
}.

Lemma seq_rule_ok p s : seq_ok p s -> frag_ok p (sq_rule s).
Proof. intros [_ _ H1 H2]. rewrite <- (take_drop (sq_start s) (sq_rule s)). by apply frag_ok_app. Qed.

Lemma seq_ok_make p before last prev : frag_ok p before -> frag_ok p last -> (1 <= prev <= UINT32_MAX)%Z -> seq_ok p (mk_sequence (before ++ last) (length before) prev).
Proof. intros H1 H2 H3. split; cbn [sq_rule sq_start sq_prev]; [rewrite length_app; lia|done|by rewrite take_app_length|by rewrite drop_app_length]. Qed.

Lemma seq_ok_start p rule : frag_ok p rule -> seq_ok p (mk_sequence rule (length rule) 1).
Proof. intros H. pose proof (seq_ok_make p rule [] 1 H) as Hs. rewrite app_nil_r in Hs. apply Hs; [intros _; constructor|by unfold UINT32_MAX]. Qed.

Lemma seq_ok_push p e prev s : seq_ok p s -> frag_ok p [e] -> (1 <= prev <= UINT32_MAX)%Z -> seq_ok p (push_symbol e prev s).
Proof. intros H1 H2 H3. apply seq_ok_make; [by apply seq_rule_ok|done|done]. Qed.

Lemma seq_after p p' s : n_ids p <= n_ids p' -> seq_ok p s -> seq_ok p' s.
Proof. intros H [H1 H2 H3 H4]. split; [done|done|by eapply frag_after..]. Qed.

Definition bounds_fit (min_times max_times : Z) : Prop := (0 <= min_times <= MAX_REPETITION_THRESHOLD)%Z /\ (0 <= max_times <= MAX_REPETITION_THRESHOLD \/ max_times = UINT64_MAX)%Z.

Lemma total_fits min_times max_times : bounds_fit min_times max_times -> (1 <= total_rules min_times max_times <= MAX_REPETITION_THRESHOLD)%Z.
Proof. unfold bounds_fit, total_rules, MAX_REPETITION_THRESHOLD. intros [H1 H2]. repeat case_match; lia. Qed.

(** Bounds in order ask for few rounds. *)
Lemma n_opt_fits min_times max_times : bounds_fit min_times max_times -> (min_times <= max_times)%Z ->
  n_opt min_times max_times = (if (max_times =? UINT64_MAX)%Z then 1 else max_times - min_times)%Z /\ (0 <= n_opt min_times max_times <= Z.of_nat repeat_fuel)%Z.
Proof.
  unfold bounds_fit, n_opt, repeat_fuel. intros [H1 H2] Hle. rewrite Z2Nat.id by (by unfold MAX_REPETITION_THRESHOLD). unfold MAX_REPETITION_THRESHOLD in *. destruct (Z.eqb_spec max_times UINT64_MAX) as [E|E]; [lia|].
  destruct H2 as [H2|H2]; [|done]. rewrite u64_id by (unfold UINT64_MAX; lia). lia.
Qed.

Lemma handle_ok {R : Prop} rule_name min_times max_times s p : forallb is_word_char rule_name = true -> pinv p -> seq_ok p s -> bounds_fit min_times max_times -> ((max_times < min_times)%Z -> R) ->
  runs R (handle_repetitions rule_name min_times max_times s) p (fun s' p' => after p p' /\ seq_ok p' s').
Proof.
  intros Hw Hp Hs Hb HR. unfold handle_repetitions. pose proof (total_fits _ _ Hb) as Ht. assert ((n_opt min_times max_times - 0 <= Z.of_nat repeat_fuel)%Z \/ R) as Hfuel.
  { destruct (Z.le_gt_cases min_times max_times) as [Hle|Hgt]; [left|right; apply HR; lia]. rewrite Z.sub_0_r. by apply n_opt_fits. }
  set (total := total_rules _ _) in *. set (n := n_opt _ _). set (prev_rule := drop _ _). destruct Hs as [S1 S2 S3 S4].
  eapply runs_bind; [apply runs_lift, (parses_require _ _ (fun _ => True)); done|]. intros u0 q [_ ->]. cbn beta.
  eapply runs_bind; [apply runs_lift, (parses_require _ _ (fun _ => (u64 (sq_prev s * total) < MAX_REPETITION_THRESHOLD)%Z)); [done|]; intros H; by apply Z.ltb_lt in H|]. intros u1 q [Hlt ->]. cbn beta.
  assert (u64 (sq_prev s * total) = sq_prev s * total)%Z as E by (apply u64_id; unfold UINT64_MAX, UINT32_MAX, MAX_REPETITION_THRESHOLD in *; nia). rewrite E in *.
  eapply runs_bind; [apply (rec_rules_ok rule_name prev_rule _ n repeat_fuel 0 0 p); [done|done|done|done|by left|done]|]. intros last p1 [[Hp1 Hn1] Hl]. cbn beta.
  rewrite (proj2 (Z.leb_le 1 _)) by nia. eapply runs_bind; [by apply (runs_lift _ _ (fun _ => True))|]. intros u2 p2 [_ ->]. cbn beta. apply runs_ret. split; [done|].
  assert (frag_ok p1 (if (0 <? n)%Z then [mk_elem GRETYPE_RULE_REF last] else [])) as Href.
  { destruct (0 <? n)%Z eqn:En; [|intros _; constructor]. apply Z.ltb_lt in En. apply frag_ok_ref, Hl. by left. }
  assert (1 <= sq_prev s * total <= UINT32_MAX)%Z as Hr by (unfold MAX_REPETITION_THRESHOLD, UINT32_MAX in *; nia).
  assert (frag_ok p1 (take (sq_start s) (sq_rule s))) as Hbefore by by eapply frag_after. assert (frag_ok p1 prev_rule) as Hprev by by eapply frag_after.
  assert (length (take (sq_start s) (sq_rule s)) = sq_start s) as El by (rewrite length_take; lia).
  set (more := if (min_times =? 0)%Z then [] else prev_rule ++ concat (replicate (Z.to_nat (min_times - 1)) prev_rule)).
  assert (frag_ok p1 more) as Hmore. { unfold more. destruct (min_times =? 0)%Z; [intros _; constructor|]. apply frag_ok_app; [done|]. intros Hc. by apply frag_repeat, Hprev. }
  pose proof (seq_ok_make p1 _ (more ++ (if (0 <? n)%Z then [mk_elem GRETYPE_RULE_REF last] else [])) _ Hbefore (frag_ok_app _ _ _ Hmore Href) Hr) as Hq.
  rewrite El in Hq. match goal with |- seq_ok _ (mk_sequence ?r _ _) => match type of Hq with seq_ok _ (mk_sequence ?r' _ _) => replace r with r'; [exact Hq|] end end.
  unfold more, prev_rule. destruct (min_times =? 0)%Z, (0 <? n)%Z; rewrite ?app_nil_r; cbn [app]; try reflexivity; rewrite ?app_assoc, take_drop; reflexivity.
Qed.

(** ** Bounds *)

Lemma dec_nonneg s : forallb is_digit_char s = true -> (0 <= foldl (fun v c => (10 * v + (c - ch "0"))%Z) 0%Z s)%Z.
Proof.
  assert (forall v, (0 <= v)%Z -> forallb is_digit_char s = true -> (0 <= foldl (fun v c => (10 * v + (c - ch "0"))%Z) v s)%Z) as H; [|by apply H].
  induction s as [|c s IH]; intros v Hv Hs; cbn [foldl]; [done|]. cbn [forallb] in Hs. apply andb_prop in Hs as [Hc Hs]. apply IH; [|done]. unfold is_digit_char in Hc. apply andb_prop in Hc as [Hc _]. apply Z.leb_le in Hc. lia.
Qed.

Lemma number_ok src : parses (parse_int src) (fun r => r.2 `suffix_of` src /\ forallb is_digit_char r.1 = true).
Proof. unfold parse_int. eapply parses_bind; [by apply (parses_require _ _ (fun _ => True))|]. intros [] _. cbn. split; [apply span_suffix|apply span_ok]. Qed.

Lemma stoull_nonneg s : forallb is_digit_char s = true -> parses (stoull s) (fun v => (0 <= v)%Z).
Proof. intros Hs. unfold stoull. case_match; [|done]. by apply dec_nonneg. Qed.

Lemma bounds_ok is_nested pos : parses (parse_bounds is_nested pos) (fun r => r.2 `suffix_of` pos /\ bounds_fit r.1.1 r.1.2).
Proof.
  unfold parse_bounds. eapply parses_bind; [by apply (parses_require _ _ (fun _ => True))|]. intros [] _. eapply parses_bind; [apply number_ok|]. intros [d1 pos1] [H1 Hd1]. cbn [fst snd] in *. eapply parses_bind; [by apply stoull_nonneg|]. intros min_times Hmin.
  set (pos2 := parse_space pos1 is_nested). assert (pos2 `suffix_of` pos) as H2 by (etrans; [apply space_suffix|done]).
  eapply (parses_bind _ _ (fun x : Z * text => x.2 `suffix_of` pos /\ (0 <= x.1)%Z)).
  { destruct (looks_at "}" pos2). { cbn. split; [|done]. etrans; [apply space_suffix|]. etrans; [apply tail_suffix|done]. }
    destruct (looks_at "," pos2); [|done]. set (pos3 := parse_space (tail pos2) is_nested). assert (pos3 `suffix_of` pos) as H3 by (etrans; [apply space_suffix|etrans; [apply tail_suffix|done]]).
    eapply (parses_bind _ _ (fun y : Z * text => y.2 `suffix_of` pos /\ (0 <= y.1)%Z)).
    - destruct (is_digit_char (cur pos3)); [|cbn; by split]. eapply parses_bind; [apply number_ok|]. intros r [Hr Hd]. eapply parses_bind; [by apply stoull_nonneg|]. intros v Hv. cbn. split; [|done]. etrans; [apply space_suffix|]. by etrans.
    - intros [m pos4] [H4 Hm]. cbn [fst snd] in *. eapply parses_bind; [by apply expect_ok|]. intros pos5 [H5 _]. cbn. split; [|done]. etrans; [apply space_suffix|]. etrans; [apply (past_suffix _ _ H5)|done]. }
  intros [max_times pos6] [H6 Hmax]. cbn [fst snd] in *. eapply parses_bind; [apply (parses_require _ _ (fun _ => (min_times <= MAX_REPETITION_THRESHOLD)%Z)); [done|]; intros H; by apply Z.leb_le in H|]. intros [] Hle. cbn. split; [done|]. split; [done|].
  destruct (max_times =? UINT64_MAX)%Z eqn:E1; cbn [negb andb]; [apply Z.eqb_eq in E1; by right|]. destruct (MAX_REPETITION_THRESHOLD <? max_times)%Z eqn:E2; [by right|]. apply Z.ltb_ge in E2. by left.
Qed.
