(* ===== verification/GrammarParserLoop.v ===== *)
(** * Grammars: the loops of the parser

    Sequences, alternates, rules and whole texts: the fuel is enough but for a repetition
    with bounds in the wrong order, and what is left when the text ends without an exception
    is a set of well-formed rules. *)

From Stdlib Require Import Ascii.
From stdpp Require Import gmap.
From S2P Require Import TailRequest.
From S2P Require Export GrammarParserWf.
Open Scope nat_scope.

(** A repetition whose bounds are in the wrong order starts here. *)
Definition reversed_at (pos : text) : Prop :=
  looks_at "{" pos = true /\ exists is_nested b, parse_bounds is_nested (parse_space (tail pos) is_nested) = Ok b /\ (b.1.2 < b.1.1)%Z.

(** The text has one. *)
Definition has_reversed (src : text) : Prop := exists pos, pos `suffix_of` src /\ reversed_at pos.

(** A text of bytes where [R] holds if it has one. *)
Definition source (R : Prop) (pos : text) : Prop := byte_text pos /\ (has_reversed pos -> R).

Lemma source_suffix R rest pos : rest `suffix_of` pos -> source R pos -> source R rest.
Proof. intros H [H1 H2]. split; [by eapply byte_suffix|]. intros (q & Hq & Hr). apply H2. exists q. split; [by etrans|done]. Qed.

(** What a parser of alternates has to do for the parser of sequences around it. *)
Definition alternates_ok (R : Prop) (alternates : text -> Z -> stx llama_grammar_parser text) (bound : nat) : Prop :=
  forall pos id p, length pos < bound -> source R pos -> pinv p -> id_ok p id -> runs R (alternates pos id) p (fun rest p' => rest `suffix_of` pos /\ after p p').

Section parser.
Context {R : Prop} (vocab : option (text -> option Z)) (rule_name : text) (Hw : forallb is_word_char rule_name = true).

Definition item_ok (pos : text) (p : llama_grammar_parser) (r : option (text * sequence)) (p' : llama_grammar_parser) : Prop :=
  after p p' /\ match r with Some (pos', s') => past pos pos' /\ seq_ok p' s' | None => p' = p end.

(** A symbol that is one element. *)
Lemma item_symbol pos p p' rest is_nested e prev s : after p p' -> past pos rest -> seq_ok p s -> frag_ok p' [e] -> (1 <= prev <= UINT32_MAX)%Z ->
  runs R (mret (Some (parse_space rest is_nested, push_symbol e prev s))) p' (item_ok pos p).
Proof.
  intros [Ha Hn] Hp Hs He Hr. apply runs_ret. split; [done|]. split; [by eapply past_trans, space_suffix|]. apply seq_ok_push; [by eapply seq_after|done|done].
Qed.

Lemma item_repeat pos p rest min_times max_times s : pinv p -> past pos rest -> seq_ok p s -> bounds_fit min_times max_times -> ((max_times < min_times)%Z -> R) ->
  runs R (s ← handle_repetitions rule_name min_times max_times s; mret (Some (rest, s))) p (item_ok pos p).
Proof. intros Hp Hr Hs Hb HR. eapply runs_bind; [by apply handle_ok|]. intros s' p' [Ha Hs']. apply runs_ret. split; [done|]. by split. Qed.

Lemma item_class pos p is_nested s : source R pos -> pinv p -> seq_ok p s -> pos <> [] ->
  let inverse := looks_at "^" (tail pos) in
  runs R (r ← stx_lift (class_chars (length pos) (if inverse then GRETYPE_CHAR_NOT else GRETYPE_CHAR) (if inverse then tail (tail pos) else tail pos) (sq_rule s) (length (sq_rule s)));
        mret (Some (parse_space r.2 is_nested, mk_sequence r.1 (length (sq_rule s)) 1))) p (item_ok pos p).
Proof.
  intros Hb Hp Hs Hne inverse. set (start := if inverse then tail (tail pos) else tail pos). assert (start `suffix_of` tail pos) as Hst by (unfold start; destruct inverse; [apply tail_suffix|done]). pose proof (past_tail pos start Hst Hne) as [Hsuf Hlen].
  assert (class_start (mk_elem (if inverse then GRETYPE_CHAR_NOT else GRETYPE_CHAR) 0) = true) as Hc by by destruct inverse.
  pose proof (class_ok _ (sq_rule s) (length pos) Hc start [] Hlen (byte_suffix _ _ Hsuf (proj1 Hb)) (or_introl eq_refl)) as H. change (elem_lists []) with (@nil llama_grammar_element) in H. rewrite app_nil_r in H.
  eapply runs_bind; [apply runs_lift, H|]. intros [rule rest] q [(H1 & xs & E & Hxs) ->]. cbn [fst snd] in *. subst rule. apply runs_ret. split; [by apply after_refl|]. split.
  - eapply past_trans; [by apply past_tail|]. etrans; [apply space_suffix|done].
  - apply seq_ok_make; [by apply seq_rule_ok| |by unfold UINT32_MAX]. intros _. destruct Hxs as [->|Hxs]; [constructor|]. rewrite <- (app_nil_r (elem_lists xs)). by apply frag_class; [|constructor].
Qed.

Lemma item_literal pos p is_nested s : source R pos -> pinv p -> seq_ok p s -> pos <> [] ->
  runs R (r ← stx_lift (literal_chars (length pos) (tail pos) (sq_rule s)); mret (Some (parse_space r.2 is_nested, mk_sequence r.1 (length (sq_rule s)) 1))) p (item_ok pos p).
Proof.
  intros Hb Hp Hs Hne. pose proof (past_tail pos (tail pos) (reflexivity _) Hne) as [Hsuf Hlen].
  eapply runs_bind; [apply runs_lift, (literal_ok (n_ids p)); [done|eapply byte_suffix; [exact Hsuf|apply Hb]]|]. intros [rule rest] q [(H1 & l & E & Hl) ->]. cbn [fst snd] in *. subst rule. apply runs_ret. split; [by apply after_refl|]. split.
  - eapply past_trans; [by apply past_tail|]. etrans; [apply space_suffix|done].
  - apply seq_ok_make; [by apply seq_rule_ok|by intros _|by unfold UINT32_MAX].
Qed.

(** A group. *)
Lemma item_group alternates is_nested pos p s : alternates_ok R alternates (length pos) -> source R pos -> pinv p -> seq_ok p s -> pos <> [] ->
  runs R (before ← stx_get;
        sub_rule_id ← generate_symbol_id rule_name;
        pos ← alternates (parse_space (tail pos) true) sub_rule_id;
        after ← stx_get;
        let n_prev_rules := Z.max 1 (u32 (u32 (Z.of_nat (size (symbol_ids after))) - u32 (Z.of_nat (size (symbol_ids before))))) in
        pos ← stx_lift (expect ")" pos);
        mret (Some (parse_space pos is_nested, push_symbol (mk_elem GRETYPE_RULE_REF sub_rule_id) n_prev_rules s))) p (item_ok pos p).
Proof.
  intros Halt Hb Hp Hs Hne. assert (parse_space (tail pos) true `suffix_of` tail pos) as Hsp by apply space_suffix. pose proof (past_tail _ _ Hsp Hne) as [Hsuf Hlen].
  eapply runs_bind; [apply runs_get|]. intros ? ? [-> ->]. eapply runs_bind; [by apply generate_ok|]. intros id p1 [[Hp1 Hn1] Hid]. eapply runs_bind; [apply Halt; [done|by eapply source_suffix|done|done]|].
  intros rest p2 [Hrest [Hp2 Hn2]]. eapply runs_bind; [apply runs_get|]. intros ? ? [-> ->]. cbn zeta. eapply runs_bind; [by apply runs_lift, expect_ok|]. intros rest2 q [[Hr2 _] ->].
  apply item_symbol; [split; [done|lia]| |done|apply frag_ok_ref; by eapply id_after|].
  - eapply past_trans; [by apply past_tail|]. etrans; [apply (past_suffix _ _ Hr2)|done].
  - match goal with |- context [Z.max 1 (u32 ?x)] => pose proof (u32_range x) end. unfold UINT32_MAX in *. lia.
Qed.

Lemma item_runs alternates is_nested pos p s : alternates_ok R alternates (length pos) -> source R pos -> pinv p -> seq_ok p s -> pos <> [] ->
  runs R (parse_item vocab alternates rule_name is_nested pos s) p (item_ok pos p).
Proof.
  intros Halt Hb Hp Hs Hne. unfold parse_item. assert (past pos (tail pos)) as Ht by by apply past_tail.
  assert (past pos (parse_space (tail pos) is_nested)) as Hsp by (eapply past_trans; [exact Ht|apply space_suffix]).
  assert (1 <= 1 <= UINT32_MAX)%Z as H1 by by unfold UINT32_MAX. set (c := cur pos).
  destruct (c =? 34)%Z; [by apply item_literal|]. destruct (c =? ch "[")%Z; [by apply item_class|]. destruct ((c =? ch "<")%Z || (c =? ch "!")%Z).
  { set (src := if (c =? ch "!")%Z then tail pos else pos). destruct (decide (src = [])) as [E|Hs0]; [rewrite E; by left|]. eapply runs_bind; [by apply runs_lift, token_ok|]. intros r q [Hr ->].
    apply item_symbol; [by apply after_refl| |done| |done].
    - assert (src `suffix_of` pos) as Hsrc by (unfold src; case_match; [apply tail_suffix|done]). destruct Hr as [Hr Hl]. split; [by etrans|]. apply suffix_le in Hsrc. lia.
    - intros _. apply frag_token; [by case_match|constructor]. }
  destruct (is_word_char c).
  { eapply runs_bind; [apply runs_lift, name_ok|]. intros r q [[Hr Hn] ->]. eapply runs_bind; [by apply get_symbol_ok|]. intros id p1 [Ha Hid]. apply item_symbol; [done|done|done|by apply frag_ok_ref|done]. }
  destruct (c =? ch "(")%Z; [by apply item_group|].
  destruct (c =? ch ".")%Z; [apply item_symbol; [by apply after_refl|done|done|intros _; by apply frag_one_class|done]|].
  destruct (c =? ch "*")%Z; [apply item_repeat; [done|done|done|split; [done|by right]|by intros ?]|].
  destruct (c =? ch "+")%Z; [apply item_repeat; [done|done|done|split; [done|by right]|by intros ?]|].
  destruct (c =? ch "?")%Z; [apply item_repeat; [done|done|done|split; [done|by left]|by intros ?]|].
  destruct (c =? ch "{")%Z eqn:Eb; [|apply runs_ret; split; [by apply after_refl|done]].
  set (inner := parse_space (tail pos) is_nested) in *.
  eapply runs_bind; [apply (runs_lift _ _ (fun b => parse_bounds is_nested inner = Ok b /\ b.2 `suffix_of` inner /\ bounds_fit b.1.1 b.1.2)); pose proof (bounds_ok is_nested inner) as Hbd; destruct (parse_bounds is_nested inner); [by split|done]|].
  intros b q [(Eq & Hr & Hbd) ->]. apply item_repeat; [done|by eapply past_trans|done|done|]. intros Hlt. apply Hb. exists pos. split; [done|]. split; [exact Eb|]. by exists is_nested, b.
Qed.

(** ** Sequences and alternates *)

Lemma loops_run fuel :
  (forall is_nested pos s p, 2 * length pos + 1 <= fuel -> source R pos -> pinv p -> seq_ok p s ->
    runs R (parse_sequence vocab fuel rule_name is_nested pos s) p (fun r p' => after p p' /\ r.1 `suffix_of` pos /\ frag_ok p' r.2)) /\
  (forall id is_nested pos rule p, 2 * length pos + 2 <= fuel -> source R pos -> pinv p -> id_ok p id -> frag_ok p rule ->
    runs R (parse_alternates vocab fuel rule_name id is_nested pos rule) p (fun rest p' => rest `suffix_of` pos /\ after p p')).
Proof.
  induction fuel as [|fuel [IHs IHa]]; [split; intros; lia|]. split.
  - intros is_nested pos s p Hf Hb Hp Hs. cbn [parse_sequence]. destruct (bool_decide_reflect (pos = [])) as [->|Hne]; [apply runs_ret; split; [by apply after_refl|]; split; [done|by apply seq_rule_ok]|].
    eapply runs_bind; [apply item_runs; [|done..]|].
    + intros pos' id p' Hl Hb' Hp' Hid. apply IHa; [lia|done|done|done|]. intros _. constructor.
    + intros [[pos' s']|] p' [[Hp' Hn'] Hr]; [|subst p'; apply runs_ret; split; [by apply after_refl|]; split; [done|by apply seq_rule_ok]]. destruct Hr as [[Hsuf Hl] Hs'].
      eapply runs_mono; [apply IHs; [lia|by eapply source_suffix|done|done]|]. intros [rest rule] p2 ([H1 H2] & H3 & H4). split; [split; [done|lia]|]. split; [by etrans|done].
  - intros id is_nested pos rule p Hf Hb Hp Hid Hr. cbn [parse_alternates]. eapply runs_bind; [apply IHs; [lia|done|done|by apply seq_ok_start]|].
    intros [rest rule1] p1 ([Hp1 Hn1] & Hsuf & Hr1). cbn [fst snd] in *. destruct (looks_at "|" rest) eqn:El.
    + destruct (cur_cons _ _ El) as (rest1 & ->); [done|]. cbn [tail]. assert (parse_space rest1 true `suffix_of` rest1) as Hsp by apply space_suffix. pose proof (suffix_le _ _ Hsuf). pose proof (suffix_le _ _ Hsp). cbn [length] in *.
      assert (parse_space rest1 true `suffix_of` pos) as Hs2 by (etrans; [exact Hsp|]; etrans; [by exists [ch "|"]|exact Hsuf]).
      eapply runs_mono; [apply IHa; [lia|by eapply source_suffix|done|by eapply id_after|apply frag_ok_app; [done|intros _; apply frag_alt; [done|constructor]]]|]. intros r p2 [H1 [H2 H3]]. split; [by etrans|]. split; [done|lia].
    + eapply runs_bind; [apply add_rule_ok; [done|by eapply id_after|done]|]. intros u p2 [Hp2 Hn2]. apply runs_ret. split; [done|]. split; [done|lia].
Qed.
End parser.

(** ** Rules *)

Section rules.
Context {R : Prop} (vocab : option (text -> option Z)).

Lemma parse_rule_ok src p : source R src -> pinv p -> runs R (parse_rule vocab src) p (fun rest p' => past src rest /\ after p p').
Proof.
  intros Hb Hp. unfold parse_rule. eapply runs_bind; [apply runs_lift, name_ok|]. intros [name pos] q [[Hpos Hw] ->]. cbn [fst snd] in *. eapply runs_bind; [by apply get_symbol_ok|]. intros id p1 [[Hp1 Hn1] Hid].
  eapply runs_bind.
  { apply runs_lift. eapply parses_bind; [by apply expect_ok|]. intros q1 [[H1 _] _]. eapply parses_bind; [by apply expect_ok|]. intros q2 [[H2 _] _]. eapply parses_mono; [by apply expect_ok|]. intros q3 [[H3 _] _].
    assert (q3 `suffix_of` pos) as H by (etrans; [exact H3|]; etrans; [exact H2|]; etrans; [exact H1|apply space_suffix]). exact H. }
  cbn beta. intros pos3 q [H3 ->]. set (pos4 := parse_space pos3 true). assert (past src pos4) as H4 by (eapply past_trans; [exact Hpos|]; etrans; [apply space_suffix|done]).
  eapply runs_bind; [apply loops_run; [done|unfold parse_fuel; lia|eapply source_suffix; [apply (past_suffix _ _ H4)|done]|done|done|intros _; constructor]|]. intros pos5 p2 [H5 [Hp2 Hn2]].
  eapply runs_bind.
  { apply (runs_lift _ _ (fun rest => rest `suffix_of` pos5)). destruct pos5 as [|c rest]; [cbn; reflexivity|]. assert (rest `suffix_of` c :: rest) as Hr by by exists [c].
    destruct (c =? 13)%Z; [cbn; case_match; [etrans; [apply tail_suffix|done]|done]|]. by destruct (c =? 10)%Z. }
  intros pos6 q [H6 ->]. apply runs_ret. split; [|split; [done|lia]]. eapply past_trans; [exact H4|]. etrans; [apply space_suffix|]. by etrans.
Qed.

Lemma parse_rules_ok fuel : forall pos p, length pos <= fuel -> source R pos -> pinv p -> runs R (parse_rules vocab fuel pos) p (fun _ p' => after p p').
Proof.
  induction fuel as [|fuel IH]; intros pos p Hf Hb Hp; destruct pos as [|c pos]; cbn [parse_rules]; [by apply runs_ret, after_refl|cbn [length] in Hf; lia|by apply runs_ret, after_refl|].
  eapply runs_bind; [by apply parse_rule_ok|]. intros rest p1 [[Hs Hl] [Hp1 Hn1]]. eapply runs_mono; [apply IH; [lia|by eapply source_suffix|done]|]. intros u p2 [H1 H2]. split; [done|lia].
Qed.

Lemma parser_starts : pinv (mk_parser ∅ []).
Proof.
  intros _. split; [|constructor|cbn; lia]. cbn [symbol_ids]. split; [by intros k v H|intros i Hi; rewrite map_size_empty in Hi; lia|by intros k v H].
Qed.

(** A text that passes has rules for everything it refers to. *)
Definition rules_ok (p : llama_grammar_parser) : Prop := countable (n_ids p) -> Forall (closed_rule (length (rules p))) (rules p).

Lemma check_ok p : pinv p -> parses (check_rules p) (fun _ => rules_ok p).
Proof.
  intros Hp. unfold check_rules. apply parses_require; [done|]. intros H Hc. rewrite forallb_forall in H. destruct (Hp Hc) as [P1 P2 P3]. rewrite Forall_forall in P2 |- *. intros rule Hin. pose proof Hin as Hin0. destruct (P2 rule Hin) as [->|(l & -> & Hl)]; apply list_elem_of_In, H in Hin; [done|].
  exists l. split; [done|]. apply andb_prop in Hin as [_ Hin]. rewrite forallb_forall in Hin. eapply frag_rebound; [exact Hl|]. rewrite Forall_forall. intros e He Ht.
  assert (undefined_ref p e = false) as Hu by (apply negb_true_iff, Hin, list_elem_of_In, elem_of_app; by left).
  unfold undefined_ref in Hu. rewrite (proj2 (has_type_true _ _) Ht) in Hu. destruct (rules p !! Z.to_nat (e_value e)) as [rule|] eqn:E; [by eapply lookup_lt_Some|]. exfalso. cbn [andb] in Hu.
  pose proof (frag_elements _ _ Hl) as Hel. rewrite Forall_forall in Hel. destruct (io_onto _ P1 _ (proj2 (Hel e He) Ht)) as [k Hk].
  assert (0 < e_value e)%Z as Hpos. { apply lookup_ge_None in E. destruct (rules p); [by apply not_elem_of_nil in Hin0|]. cbn [length] in E. lia. }
  rewrite Z2Nat.id in Hk by lia. apply elem_of_map_to_list in Hk. rewrite (proj2 (existsb_exists _ _)) in Hu; [done|]. exists (k, e_value e). split; [by apply list_elem_of_In|by apply Z.eqb_refl].
Qed.

Lemma parse_all_ok src p : source R src -> pinv p -> runs R (parse_all vocab src) p (fun _ p' => rules_ok p').
Proof.
  intros Hb Hp. unfold parse_all. eapply runs_bind; [apply parse_rules_ok; [done|eapply source_suffix; [apply space_suffix|done]|done]|]. intros u p1 [Hp1 _]. eapply runs_bind; [apply runs_get|]. intros ? ? [-> ->].
  eapply runs_mono; [by apply runs_lift, check_ok|]. by intros [] ? [? ->].
Qed.

End rules.

(** The whole parser: an answer, no rules after an exception, well-formed ones otherwise; or
    it is out of fuel at a repetition with bounds in the wrong order. *)
Lemma parse_ok vocab src : byte_text src ->
  (exists ok p, parse vocab src (mk_parser ∅ []) = (Ok ok, p) /\ (ok = false -> rules p = []) /\ (ok = true -> rules_ok p)) \/
  has_reversed src /\ exists p, parse vocab src (mk_parser ∅ []) = (Err OutOfFuel, p).
Proof.
  intros Hb. pose proof (parse_all_ok (R := has_reversed src) vocab src _ (conj Hb (fun H => H)) parser_starts) as H. unfold runs in H. unfold parse. destruct (parse_all vocab src (mk_parser ∅ [])) as [[[]|f] p]; [left; by exists true, p|].
  destruct H as [H|[-> H]]; [rewrite H; left; by eexists false, _|right; split; [done|by exists p]].
Qed.

(** When it passes. *)
Lemma parse_passes vocab src p : byte_text src -> parse vocab src (mk_parser ∅ []) = (Ok true, p) -> rules_ok p.
Proof.
  intros Hb E. destruct (parse_ok vocab src Hb) as [(ok & p' & E' & _ & H)|(_ & p' & E')]; rewrite E in E'; [|done]. injection E' as <- <-. by apply H.
Qed.
