(* ===== verification/GrammarRepeat.v ===== *)
(** * Grammars: what the rules of a repetition derive

    A symbol and what follows it derive words of the one followed by words of the other.
    The rule S' ::= S S' | derives any number of words of S, a chain of n rules
    S'(x) ::= S S'(x-1) | at most n. *)

From S2P Require Export GrammarFragments.
Open Scope nat_scope.

(** No alternatives: one definition or a part of it. *)
Definition no_alt (l : llama_grammar_rule) : Prop := Forall (fun e => e_type e <> GRETYPE_ALT) l.

(** Something an element in front of it does not swallow. *)
Definition fresh_tail (l : llama_grammar_rule) : Prop := exists a after, l = a :: after /\ e_type a <> GRETYPE_CHAR_ALT /\ e_type a <> GRETYPE_CHAR_RNG_UPPER.

Lemma class_det l items after items' after' : char_class l items after -> char_class l items' after' -> items = items' /\ after = after'.
Proof.
  intros H. revert items' after'. induction H as [e l i a after E Ha Hr|e l i a l1 items after E Ha H IH]; intros items' after' H'; inversion H' as [e' l' i' a' after'' E' Ha' Hr'|e' l' i' a' l1' items'' after'' E' Ha' H'']; subst; rewrite E in E'; injection E' as -> -> ->; try done.
  destruct (IH _ _ H'') as [-> ->]. done.
Qed.

Lemma plain_no_end n l : frag n l -> no_alt l -> Forall (fun e => llama_grammar_is_end_of_sequence e = false) l.
Proof.
  intros H1%frag_no_end H2. unfold no_alt in H2. rewrite Forall_forall in H1. rewrite Forall_forall in H2. apply Forall_forall. intros e He. specialize (H1 e He). specialize (H2 e He). apply not_true_iff_false. gtypes.
Qed.

Lemma elem_lists_no_alt xs l : no_alt (elem_lists xs ++ l) -> no_alt l.
Proof. by intros [_ ?]%Forall_app. Qed.

Lemma frag_fresh n l tail : frag n l -> fresh_tail tail -> fresh_tail (l ++ tail).
Proof.
  intros Hl Ht. destruct Hl as [|e l He Hl|e l He Hr Hl|e l He Hl|xs l Hx Hl]; [done|eexists e, _; split; [reflexivity|]; split; gtypes..|].
  destruct xs as [|[e u] xs]; [done|]. destruct Hx as (Hs & _). eexists e, _. split; [reflexivity|]. cbn [fst] in Hs. split; gtypes.
Qed.

(** How a fragment and what follows it begins. *)
Inductive begins (n : nat) (tail : llama_grammar_rule) : llama_grammar_rule -> llama_grammar_rule -> Prop :=
  | begins_tail : begins n tail [] tail
  | begins_ref e l : e_type e = GRETYPE_RULE_REF -> frag n l -> no_alt l -> begins n tail (e :: l) (e :: l ++ tail)
  | begins_token e l : is_token_element e = true -> frag n l -> no_alt l -> begins n tail (e :: l) (e :: l ++ tail)
  | begins_class e u xs l : class_shape ((e, u) :: xs) -> class_start e = true -> frag n l -> no_alt l ->
      char_class (elem_lists ((e, u) :: xs) ++ l ++ tail) (entry_item <$> (e, u) :: xs) (l ++ tail) -> begins n tail (elem_lists ((e, u) :: xs) ++ l) (elem_lists ((e, u) :: xs) ++ l ++ tail).

Lemma frag_begins n l tail : frag n l -> no_alt l -> fresh_tail tail -> begins n tail l (l ++ tail).
Proof.
  intros Hl Hn Ht. destruct Hl as [|e l He Hl|e l He Hr Hl|e l He Hl|xs l Hx Hl]; [by apply begins_tail| | | |].
  - apply Forall_cons in Hn as [Hn _]. congruence.
  - apply Forall_cons in Hn as [_ Hn]. by apply begins_ref.
  - apply Forall_cons in Hn as [_ Hn]. by apply begins_token.
  - apply elem_lists_no_alt in Hn. rewrite <- app_assoc. destruct xs as [|[e u] xs]; [done|]. pose proof Hx as (Hs & _). apply begins_class; [done|done|done|done|].
    destruct (frag_fresh _ _ _ Hl Ht) as (a & after & E & H1 & H2). rewrite E. by apply shape_class.
Qed.

Section rules.
Context (rules : llama_grammar_rules).

(** ** One element *)

Lemma derives_end_iff e l w : llama_grammar_is_end_of_sequence e = true -> derives rules (e :: l) w <-> w = [].
Proof. intros He. split; [|intros ->; by apply derives_end]. inversion 1; subst; [done|gtypes..]. Qed.

Lemma derives_ref_iff e l w : e_type e = GRETYPE_RULE_REF -> derives rules (e :: l) w <-> exists w1 w2, w = w1 ++ w2 /\ rule_derives rules (Z.to_nat (e_value e)) w1 /\ derives rules l w2.
Proof.
  intros He. split.
  - inversion 1; subst; try (by gtypes). eexists _, _. split; [reflexivity|]. split; [|done]. eexists _, _. done.
  - intros (w1 & w2 & -> & (rule & alt & H1 & H2 & H3) & H4). by eapply derives_ref.
Qed.

Lemma derives_token_iff e l w : is_token_element e = true -> derives rules (e :: l) w <-> exists t w', w = Tok t :: w' /\ token_has e t = true /\ derives rules l w'.
Proof.
  intros He. split; [|intros (t & w' & -> & H1 & H2); by apply derives_token]. inversion 1; subst; try (by gtypes). eexists _, _. done.
Qed.

Lemma derives_class_iff xs tail w : class_shape xs -> fresh_tail tail ->
  derives rules (elem_lists xs ++ tail) w <-> exists e c w', head (elem_lists xs) = Some e /\ w = Chr c :: w' /\ class_has e (entry_item <$> xs) c = true /\ derives rules tail w'.
Proof.
  intros Hx (a & after & -> & H1 & H2). pose proof (shape_class xs a after Hx H1 H2) as Hc. destruct xs as [|[e u] xs]; [done|]. destruct Hx as (Hs & _). cbn [fst] in Hs.
  change (elem_lists ((e, u) :: xs)) with (e :: (match u with Some u => [u] | None => [] end ++ elem_lists xs)) in *. cbn [app] in *. split.
  - intros H. inversion H as [|e' l' items after' c w' He' Hc' Hh Hd| |]; subst; try (by gtypes). destruct (class_det _ _ _ _ _ Hc Hc') as [-> <-]. by exists e, c, w'.
  - intros (e' & c & w' & [= <-] & -> & H3 & H4). by eapply derives_class.
Qed.

(** ** A part and what follows it *)

Lemma derives_app n l tail w : frag n l -> no_alt l -> fresh_tail tail -> derives rules (l ++ tail) w <-> exists w1 w2, w = w1 ++ w2 /\ derives rules (l ++ [end_elem]) w1 /\ derives rules tail w2.
Proof.
  intros Hl. assert (fresh_tail [end_elem]) as Hend by (by exists end_elem, []). revert w. induction Hl as [|e l He Hl IH|e l He Hr Hl IH|e l He Hl IH|xs l Hx Hl IH]; intros w Hn Ht.
  - cbn [app]. split; [intros H; exists [], w; split; [done|]; split; [by apply derives_end|done]|]. intros (w1 & w2 & -> & H1 & H2). by apply derives_end_iff in H1 as ->.
  - apply Forall_cons in Hn as [Hn _]. congruence.
  - apply Forall_cons in Hn as [_ Hn]. cbn [app]. rewrite (derives_ref_iff e (l ++ tail)) by done. split.
    + intros (w1 & w2 & -> & H1 & H2). apply IH in H2 as (w3 & w4 & -> & H3 & H4); [|done|done]. exists (w1 ++ w3), w4. split; [by rewrite app_assoc|]. split; [|done]. apply derives_ref_iff; [done|]. eauto.
    + intros (w1 & w2 & -> & H1 & H2). apply derives_ref_iff in H1 as (w3 & w4 & -> & H3 & H4); [|done]. exists w3, (w4 ++ w2). split; [by rewrite app_assoc|]. split; [done|]. apply IH; eauto.
  - apply Forall_cons in Hn as [_ Hn]. cbn [app]. rewrite (derives_token_iff e (l ++ tail)) by done. split.
    + intros (t & w' & -> & H1 & H2). apply IH in H2 as (w3 & w4 & -> & H3 & H4); [|done|done]. exists (Tok t :: w3), w4. split; [done|]. split; [|done]. apply derives_token_iff; eauto.
    + intros (w1 & w2 & -> & H1 & H2). apply derives_token_iff in H1 as (t & w' & -> & H3 & H4); [|done]. exists t, (w' ++ w2). split; [done|]. split; [done|]. apply IH; eauto.
  - apply elem_lists_no_alt in Hn. rewrite <- !app_assoc. rewrite (derives_class_iff xs (l ++ tail)) by (done || by eapply frag_fresh). split.
    + intros (e & c & w' & H1 & -> & H2 & H3). apply IH in H3 as (w3 & w4 & -> & H3 & H4); [|done|done]. exists (Chr c :: w3), w4. split; [done|]. split; [|done]. apply derives_class_iff; [done|by eapply frag_fresh|]. eauto 10.
    + intros (w1 & w2 & -> & H1 & H2). apply derives_class_iff in H1 as (e & c & w' & H3 & -> & H4 & H5); [|done|by eapply frag_fresh]. exists e, c, (w' ++ w2). split; [done|]. split; [done|]. split; [done|]. apply IH; eauto.
Qed.

(** ** Repetitions of a symbol *)

Section symbol.
Context (n : nat) (prev : llama_grammar_rule) (Hprev : frag n prev) (Hplain : no_alt prev).

Definition times (k : nat) (tail : llama_grammar_rule) : llama_grammar_rule := concat (replicate k prev) ++ tail.

Lemma times_S k tail : times (S k) tail = prev ++ times k tail.
Proof. unfold times. cbn [replicate concat]. by rewrite <- app_assoc. Qed.

Lemma times_add k m tail : times (k + m) tail = times k (times m tail).
Proof. unfold times. by rewrite replicate_add, concat_app, <- app_assoc. Qed.

Lemma times_fresh k tail : fresh_tail tail -> fresh_tail (times k tail).
Proof. intros H. unfold times. eapply frag_fresh; [by apply frag_repeat|done]. Qed.

Lemma end_fresh : fresh_tail [end_elem].
Proof. by exists end_elem, []. Qed.

Lemma repeat_plain k : no_alt (concat (replicate k prev)).
Proof. induction k as [|k IH]; cbn [replicate concat]; [constructor|by apply Forall_app]. Qed.

Lemma times_app k tail w : fresh_tail tail -> derives rules (times k tail) w <-> exists w1 w2, w = w1 ++ w2 /\ derives rules (times k [end_elem]) w1 /\ derives rules tail w2.
Proof. intros Ht. apply (derives_app n); [by apply frag_repeat|apply repeat_plain|done]. Qed.

(** A rule of a repetition: the symbol, perhaps another such rule, or nothing. *)
Definition optional_rule (ref : llama_grammar_rule) : llama_grammar_rule := prev ++ ref ++ [mk_elem GRETYPE_ALT 0; end_elem].

Lemma optional_alternates ref : Forall (fun e => llama_grammar_is_end_of_sequence e = false) ref -> alternates (optional_rule ref) = [optional_rule ref; [end_elem]].
Proof. intros H. unfold alternates, optional_rule. f_equal. by rewrite more_alternates_skip, more_alternates_skip by (done || by eapply plain_no_end). Qed.

Lemma optional_derives id rule w ref : rules !! id = Some (optional_rule ref) -> Forall (fun e => llama_grammar_is_end_of_sequence e = false) ref -> rule = optional_rule ref ->
  rule_derives rules id w <-> derives rules rule w \/ w = [].
Proof.
  intros Hid Href ->. unfold rule_derives. split.
  - intros (rule & alt & H1 & H2 & H3). assert (rule = optional_rule ref) as -> by congruence. rewrite (optional_alternates _ Href) in H2. apply elem_of_cons in H2 as [->|H2]; [by left|]. apply list_elem_of_singleton in H2 as ->. right. by apply derives_end_iff in H3.
  - intros H. exists (optional_rule ref). rewrite (optional_alternates _ Href). destruct H as [H| ->]; [exists (optional_rule ref)|exists [end_elem]]; (split; [done|]); (split; [|first [exact H|by apply derives_end]]); [by left|by right; left].
Qed.

Definition alt_tail : llama_grammar_rule := [mk_elem GRETYPE_ALT 0; end_elem].

Lemma alt_fresh : fresh_tail alt_tail.
Proof. by eexists _, _. Qed.

(** The last of a chain. *)
Lemma optional_once id w : rules !! id = Some (optional_rule []) -> rule_derives rules id w <-> exists k, k <= 1 /\ derives rules (times k [end_elem]) w.
Proof.
  intros Hid. rewrite (optional_derives id _ w [] Hid) by (done || constructor). unfold optional_rule. cbn [app]. rewrite (derives_app n prev alt_tail w Hprev Hplain alt_fresh). split.
  - intros [(w1 & w2 & -> & H1 & H2)| ->]; [|exists 0; split; [lia|by apply derives_end]]. apply derives_end_iff in H2 as ->; [|done]. exists 1. split; [lia|]. rewrite app_nil_r. by rewrite times_S.
  - intros (k & Hk & H). destruct k as [|[|k]]; [|rewrite times_S in H|lia]; [right; by apply derives_end_iff in H|left]. exists w, []. rewrite app_nil_r. split; [done|]. split; [exact H|by apply derives_end].
Qed.

(** One more than the rule it refers to. *)
Lemma optional_next id e m w : rules !! id = Some (optional_rule [e]) -> e_type e = GRETYPE_RULE_REF ->
  (forall w, rule_derives rules (Z.to_nat (e_value e)) w <-> exists k, k <= m /\ derives rules (times k [end_elem]) w) ->
  rule_derives rules id w <-> exists k, k <= S m /\ derives rules (times k [end_elem]) w.
Proof.
  intros Hid He Hm. rewrite (optional_derives id _ w [e] Hid) by (done || (constructor; [apply not_true_iff_false; gtypes|constructor])). unfold optional_rule.
  assert (fresh_tail ([e] ++ alt_tail)) as Hf by (eexists _, _; split; [reflexivity|]; split; gtypes). rewrite (derives_app n prev ([e] ++ alt_tail) w Hprev Hplain Hf). split.
  - intros [(w1 & w2 & -> & H1 & H2)| ->]; [|exists 0; split; [lia|by apply derives_end]]. cbn [app] in H2. apply derives_ref_iff in H2 as (w3 & w4 & -> & H3 & H4); [|done]. apply derives_end_iff in H4 as ->; [|done].
    apply Hm in H3 as (k & Hk & H3). exists (S k). split; [lia|]. rewrite app_nil_r, times_S. apply (derives_app n); [done|done|apply times_fresh, end_fresh|]. eauto.
  - intros (k & Hk & H). destruct k as [|k]; [right; by apply derives_end_iff in H|left]. rewrite times_S in H. apply (derives_app n) in H as (w1 & w2 & -> & H1 & H2); [|done|done|apply times_fresh, end_fresh].
    exists w1, w2. split; [done|]. split; [done|]. cbn [app]. apply derives_ref_iff; [done|]. exists w2, []. rewrite app_nil_r. split; [done|]. split; [apply Hm; exists k; split; [lia|done]|by apply derives_end].
Qed.

(** A rule that refers to itself: what is left of one round, then further rounds. *)
Lemma optional_rounds e id l w : rules !! id = Some (optional_rule [e]) -> e_type e = GRETYPE_RULE_REF -> Z.to_nat (e_value e) = id ->
  derives rules l w -> forall l', frag n l' -> no_alt l' -> l = l' ++ [e] ++ alt_tail -> exists k, derives rules (l' ++ times k [end_elem]) w.
Proof.
  intros Hid He Hv. assert (fresh_tail ([e] ++ alt_tail)) as Hf by (eexists _, _; split; [reflexivity|]; split; gtypes).
  assert (forall k, fresh_tail (times k [end_elem])) as Hk by (intros; apply times_fresh, end_fresh).
  intros Hd. induction Hd as [e0 l0 He0|e0 l0 items after c w0 He0 Hc Hh Hd IH|e0 l0 t w0 He0 Ht Hd IH|e0 l0 rule alt w1 w2 He0 Hr Ha Hd1 IH1 Hd2 IH2]; intros l' Hl' Hn El;
    pose proof (frag_begins n l' _ Hl' Hn Hf) as Hb; rewrite <- El in Hb; inversion Hb as [H1 H2|e1 l1 H1 H2 H3 H4 H5|e1 l1 H1 H2 H3 H4 H5|e1 u xs l1 Hx H1 H2 H3 H4 H5 H6]; subst; try (by gtypes).
  - destruct (class_det _ _ _ _ _ Hc H4) as [-> ->]. destruct (IH l1 H2 H3 eq_refl) as (k & H). exists k. rewrite <- app_assoc. apply derives_class_iff; [done|by eapply frag_fresh|]. eexists _, _, _. done.
  - destruct (IH l1 H2 H3 eq_refl) as (k & H). exists k. by apply derives_token.
  - rewrite Hid in Hr. injection Hr as <-. apply derives_end_iff in Hd2 as ->; [|done]. rewrite app_nil_r. cbn [app].
    rewrite (optional_alternates [e0]) in Ha by (constructor; [apply not_true_iff_false; gtypes|constructor]). apply elem_of_cons in Ha as [->|Ha]; [|apply list_elem_of_singleton in Ha as ->; apply derives_end_iff in Hd1 as ->; [|done]; exists 0; by apply derives_end].
    destruct (IH1 prev Hprev Hplain eq_refl) as (k & H). exists (S k). by rewrite times_S.
  - destruct (IH2 l1 H2 H3 eq_refl) as (k & H). exists k. cbn [app]. by eapply derives_ref.
Qed.

(** Any number of times. *)
Lemma optional_star e w : rules !! Z.to_nat (e_value e) = Some (optional_rule [e]) -> e_type e = GRETYPE_RULE_REF ->
  rule_derives rules (Z.to_nat (e_value e)) w <-> exists k, derives rules (times k [end_elem]) w.
Proof.
  intros Hid He. assert (Forall (fun e => llama_grammar_is_end_of_sequence e = false) [e]) as Hr by (constructor; [apply not_true_iff_false; gtypes|constructor]).
  assert (fresh_tail ([e] ++ alt_tail)) as Hf by (eexists _, _; split; [reflexivity|]; split; gtypes). split.
  - rewrite (optional_derives _ _ w [e] Hid Hr eq_refl). intros [H| ->]; [|exists 0; by apply derives_end]. destruct (optional_rounds e _ _ w Hid He eq_refl H prev Hprev Hplain eq_refl) as (k & Hk). exists (S k). by rewrite times_S.
  - intros (k & H). revert w H. induction k as [|k IH]; intros w H; apply (optional_derives _ _ w [e] Hid Hr eq_refl); [right; by apply derives_end_iff in H|left]. rewrite times_S in H.
    apply (derives_app n) in H as (w1 & w2 & -> & H1 & H2); [|done|done|apply times_fresh, end_fresh]. unfold optional_rule. apply (derives_app n); [done|done|done|]. exists w1, w2. split; [done|]. split; [done|]. cbn [app].
    apply derives_ref_iff; [done|]. exists w2, []. rewrite app_nil_r. split; [done|]. split; [by apply IH|by apply derives_end].
Qed.

(** ** The shape a repetition leaves *)

(** m times the symbol, then a reference to a rule that derives between 0 and more. *)
Lemma times_then_ref m e (P : nat -> Prop) tail w : e_type e = GRETYPE_RULE_REF -> fresh_tail tail ->
  (forall w, rule_derives rules (Z.to_nat (e_value e)) w <-> exists k, P k /\ derives rules (times k [end_elem]) w) ->
  derives rules (times m ([e] ++ tail)) w <-> exists k, P k /\ derives rules (times (m + k) tail) w.
Proof.
  intros He Ht HP. assert (fresh_tail ([e] ++ tail)) as Hf by (eexists _, _; split; [reflexivity|]; split; gtypes). rewrite (times_app m _ w Hf). split.
  - intros (w1 & w2 & -> & H1 & H2). cbn [app] in H2. apply derives_ref_iff in H2 as (w3 & w4 & -> & H3 & H4); [|done]. apply HP in H3 as (k & Hk & H3). exists k. split; [done|]. rewrite times_add.
    apply times_app; [by apply times_fresh|]. exists w1, (w3 ++ w4). split; [done|]. split; [done|]. apply times_app; [done|]. eauto.
  - intros (k & Hk & H). rewrite times_add in H. apply times_app in H as (w1 & w2 & -> & H1 & H2); [|by apply times_fresh]. apply times_app in H2 as (w3 & w4 & -> & H3 & H4); [|done].
    exists w1, (w3 ++ w4). split; [done|]. split; [done|]. cbn [app]. apply derives_ref_iff; [done|]. exists w3, w4. split; [done|]. split; [apply HP; eauto|done].
Qed.
End symbol.
End rules.
