(* ===== verification/GrammarRepetitions.v ===== *)
(** * Grammars: what handle_repetitions adds

    The rules it generates have the next ids, in order, and derive what the comment of the
    function says. *)

From stdpp Require Import gmap.
From S2P Require Import TailRequest GrammarRepeat.
From S2P Require Export GrammarParserWf.
Open Scope nat_scope.

Lemma put_rule_lookup id rule rs : put_rule id rule rs !! id = Some rule.
Proof. unfold put_rule. apply list_lookup_insert_eq. case_match eqn:E; [apply Nat.leb_le in E; rewrite length_app, length_replicate; lia|by apply Nat.leb_gt in E]. Qed.

Lemma put_rule_other id rule rs i r : i <> id -> rs !! i = Some r -> put_rule id rule rs !! i = Some r.
Proof. intros Hne H. unfold put_rule. rewrite list_lookup_insert_ne by done. case_match; [by apply lookup_app_l_Some|done]. Qed.

(** A generated symbol has the next id. *)
Lemma generate_new base p : forallb is_word_char base = true -> parser_ok p -> countable (S (n_ids p)) ->
  exists p', generate_symbol_id base p = (Ok (Z.of_nat (n_ids p)), p') /\ n_ids p' = S (n_ids p) /\ rules p' = rules p /\ parser_ok p'.
Proof.
  intros Hb Hp Hc. assert (countable (n_ids p)) as Hc' by (eapply countable_le; [|exact Hc]; lia). pose proof (generate_ok (R := False) base p Hb (fun _ => Hp)) as Hg. unfold runs in Hg.
  assert (generate_symbol_id base p = (Ok (Z.of_nat (n_ids p)), mk_parser (<[generated_name base (next_id p) := Z.of_nat (n_ids p)]> (symbol_ids p)) (rules p))) as E by (rewrite <- (next_id_countable p Hc') at 1 2; done).
  rewrite E in Hg. destruct Hg as [[Hpi _] _]. set (p' := mk_parser _ _) in *. assert (n_ids p' = S (n_ids p)) as Hn. { unfold n_ids, p'. cbn [symbol_ids]. by apply map_size_insert_None, generated_fresh. }
  exists p'. split; [done|]. split; [done|]. split; [done|]. apply Hpi. by rewrite Hn.
Qed.

Definition ref_to (id : nat) : llama_grammar_element := mk_elem GRETYPE_RULE_REF (Z.of_nat id).

(** The rules that [rec_rules] adds: the i-th has the i-th next id. *)
Definition rec_rule (first no_max : bool) (last : Z) (base i : nat) (prev : llama_grammar_rule) : llama_grammar_rule :=
  optional_rule prev (if no_max then [ref_to (base + i)] else match i with 0 => if first then [] else [mk_elem GRETYPE_RULE_REF last] | S i => [ref_to (base + i)] end).

Lemma rec_rules_new rule_name prev no_max opt n : forall fuel j last p, forallb is_word_char rule_name = true -> parser_ok p -> frag (n_ids p) prev -> countable (n_ids p + n) -> (0 <= last)%Z -> (0 <= j)%Z -> j = 0%Z \/ Z.to_nat last < n_ids p ->
  (opt - j = Z.of_nat n)%Z -> n <= fuel -> let first := (j =? 0)%Z in
  exists p', rec_rules fuel j opt no_max rule_name prev last p = (Ok (match n with 0 => last | S n => Z.of_nat (n_ids p + n) end), p') /\ n_ids p' = n_ids p + n /\ parser_ok p' /\
    (forall i, i < n -> rules p' !! (n_ids p + i) = Some (rec_rule first no_max last (n_ids p) i prev)) /\ (forall i r, i < n_ids p -> rules p !! i = Some r -> rules p' !! i = Some r).
Proof.
  induction n as [|n IH]; intros fuel j last p Hw Hp Hf Hc Hl Hj Hfl Hn Hfuel first.
  { exists p. assert ((j <? opt)%Z = false) as E by (apply Z.ltb_ge; lia). split; [destruct fuel; cbn [rec_rules]; by rewrite E|]. split; [lia|]. split; [done|]. split; [intros; lia|done]. }
  destruct fuel as [|fuel]; [lia|]. cbn [rec_rules]. rewrite (proj2 (Z.ltb_lt j opt)) by lia. assert ((0 <? j)%Z = negb first) as -> by (unfold first; lia). assert (first = true \/ Z.to_nat last < n_ids p) as Hfl' by (destruct Hfl; [left; unfold first; lia|by right]). clear Hfl.
  destruct (generate_new rule_name p Hw Hp) as (p1 & E1 & Hn1 & Hr1 & Hp1); [eapply countable_le; [|exact Hc]; lia|]. erewrite stx_bind_Ok by exact E1.
  assert ((prev ++ (if negb first || no_max then [mk_elem GRETYPE_RULE_REF (if no_max then Z.of_nat (n_ids p) else last)] else []) ++ [mk_elem GRETYPE_ALT 0; mk_elem GRETYPE_END 0]) = rec_rule first no_max last (n_ids p) 0 prev) as Er.
  { unfold rec_rule, optional_rule, ref_to. rewrite Nat.add_0_r. by destruct first, no_max. }
  rewrite Er. remember (rec_rule first no_max last (n_ids p) 0 prev) as rule eqn:Erule.
  assert (frag (S (n_ids p)) (prev ++ (if negb first || no_max then [mk_elem GRETYPE_RULE_REF (if no_max then Z.of_nat (n_ids p) else last)] else []) ++ [mk_elem GRETYPE_ALT 0])) as Hfr.
  { apply frag_app; [by eapply frag_mono; [|exact Hf]; lia|]. apply frag_app; [|apply frag_alt; [done|constructor]]. destruct Hfl' as [Hfl|Hfl]; destruct no_max, first; cbn [negb orb]; try apply frag_nil; (apply frag_ref; [done|cbn [e_value]; lia||done|apply frag_nil]). }
  set (p2 := mk_parser (symbol_ids p1) (put_rule (n_ids p) rule (rules p1))). assert (add_rule (Z.of_nat (n_ids p)) rule p1 = (Ok tt, p2)) as E2 by (unfold add_rule, stx_modify; by rewrite Nat2Z.id).
  erewrite stx_bind_Ok by exact E2. assert (n_ids p2 = S (n_ids p)) as Hn2 by done. assert (parser_ok p2) as Hp2.
  { pose proof Hp1 as [P1 P2 P3]. split; [done| |]; change (rules p2) with (put_rule (n_ids p) rule (rules p1)).
    - apply put_rule_Forall; [by left| |done]. right. rewrite Hn2. eexists. split; [|exact Hfr]. rewrite <- Er, <- !app_assoc. done.
    - rewrite put_rule_length. rewrite Hn2. rewrite Hn1 in P3. lia. }
  destruct (IH fuel (j + 1)%Z (Z.of_nat (n_ids p)) p2 Hw Hp2) as (p3 & E3 & Hn3 & Hp3 & Hnew & Hold); [eapply frag_mono; [|exact Hf]; lia|eapply countable_le; [|exact Hc]; lia|lia|lia|right; lia|lia|lia|].
  rewrite (proj2 (Z.eqb_neq (j + 1) 0)) in Hnew by lia.
  exists p3. rewrite E3. split; [f_equal; f_equal; rewrite Hn2; destruct n; f_equal; lia|]. split; [lia|]. split; [done|]. split.
  - intros [|i] Hi; [rewrite Nat.add_0_r, <- Erule; apply Hold; [lia|]; apply put_rule_lookup|]. replace (n_ids p + S i) with (n_ids p2 + i) by lia. rewrite Hnew by lia. unfold rec_rule. rewrite Hn2. f_equal. f_equal. destruct no_max; [f_equal; f_equal; lia|]. destruct i as [|i]; [by rewrite Nat.add_0_r|]. f_equal. f_equal. lia.
  - intros i r Hi Hr. apply Hold; [lia|]. apply put_rule_other; [lia|]. by rewrite Hr1.
Qed.

Definition last_symbol (s : sequence) : llama_grammar_rule := drop (sq_start s) (sq_rule s).

(** Rules that keep what was generated from [p] on. *)
Definition keeps_new (p p' : llama_grammar_parser) (rs : llama_grammar_rules) : Prop := forall i r, n_ids p <= i -> rules p' !! i = Some r -> rs !! i = Some r.

Section languages.
Context (rs : llama_grammar_rules) (n : nat) (prev : llama_grammar_rule) (Hprev : frag n prev) (Hplain : no_alt prev).

(** A chain of rules: the i-th derives up to i + 1 symbols. *)
Lemma chain_derives base d : (forall i, i < d -> rs !! (base + i) = Some (rec_rule true false 0 base i prev)) ->
  forall i w, i < d -> rule_derives rs (base + i) w <-> exists k, k <= S i /\ derives rs (times prev k [end_elem]) w.
Proof.
  intros H i. induction i as [|i IH]; intros w Hi; specialize (H _ Hi) as Hr.
  - by apply (optional_once rs n prev).
  - apply (optional_next rs n prev Hprev Hplain _ (ref_to (base + i)) (S i) w Hr); [done|]. intros w'. cbn [ref_to e_value]. rewrite Nat2Z.id. apply IH. lia.
Qed.

(** At least m symbols, and up to d more if there is a bound. *)
Lemma repeat_means (m d base : nat) (no_max : bool) tail w : (if no_max then d = 1 else True) -> fresh_tail tail ->
  (forall i, i < d -> rs !! (base + i) = Some (rec_rule true no_max 0 base i prev)) ->
  derives rs (times prev m ((match d with 0 => [] | S d => [ref_to (base + d)] end) ++ tail)) w <-> exists k, m <= k /\ (no_max = true \/ k <= m + d) /\ derives rs (times prev k tail) w.
Proof.
  intros Hd Ht Hr. destruct no_max.
  - subst d. rewrite (times_then_ref rs n prev Hprev Hplain m (ref_to (base + 0)) (fun _ => True) tail w); [|done|done|].
    + split; [intros (k & _ & H); exists (m + k); split; [lia|]; split; [by left|done]|]. intros (k & Hk & _ & H). exists (k - m). split; [done|]. by replace (m + (k - m)) with k by lia.
    + intros w'. rewrite (optional_star rs n prev Hprev Hplain (ref_to (base + 0)) w'); [naive_solver| |done]. cbn [ref_to e_value]. rewrite Nat2Z.id. rewrite Nat.add_0_r. specialize (Hr 0 ltac:(lia)). unfold rec_rule in Hr. rewrite !Nat.add_0_r in Hr. exact Hr.
  - destruct d as [|d].
    + cbn [app]. split; [intros H; exists m; split; [lia|]; split; [right; lia|done]|]. intros (k & Hk & [[=]|Hk2] & H). by replace m with k by lia.
    + rewrite (times_then_ref rs n prev Hprev Hplain m (ref_to (base + d)) (fun k => k <= S d) tail w); [|done|done|].
      * split; [intros (k & Hk & H); exists (m + k); split; [lia|]; split; [right; lia|done]|]. intros (k & Hk & [[=]|Hk2] & H). exists (k - m). split; [lia|]. by replace (m + (k - m)) with k by lia.
      * intros w'. cbn [ref_to e_value]. rewrite Nat2Z.id. apply (chain_derives base (S d)); [done|lia].
Qed.
End languages.

(** The rule after the loop and the reference. *)
Lemma repeated_rule s min_times d last : (0 <= min_times)%Z -> sq_start s <= length (sq_rule s) ->
  let rule := if (min_times =? 0)%Z then take (sq_start s) (sq_rule s) else sq_rule s ++ concat (replicate (Z.to_nat (min_times - 1)) (last_symbol s)) in
  let rule := if (0 <? d)%Z then rule ++ [mk_elem GRETYPE_RULE_REF last] else rule in
  let symbols := times (last_symbol s) (Z.to_nat min_times) (if (0 <? d)%Z then [mk_elem GRETYPE_RULE_REF last] else []) in
  rule = take (sq_start s) (sq_rule s) ++ symbols /\ drop (sq_start s) rule = symbols.
Proof.
  intros Hm Hs rule rule' symbols. assert (rule = take (sq_start s) (sq_rule s) ++ concat (replicate (Z.to_nat min_times) (last_symbol s))) as E.
  { unfold rule. destruct (min_times =? 0)%Z eqn:E; [apply Z.eqb_eq in E as ->; cbn; by rewrite app_nil_r|]. apply Z.eqb_neq in E. replace (Z.to_nat min_times) with (S (Z.to_nat (min_times - 1))) by lia. cbn [replicate concat]. by rewrite app_assoc, <- (take_drop (sq_start s) (sq_rule s)) at 1. }
  assert (rule' = take (sq_start s) (sq_rule s) ++ symbols) as E'. { unfold rule', symbols, times. rewrite E. destruct (0 <? d)%Z; [by rewrite <- app_assoc|by rewrite app_nil_r]. }
  split; [done|]. rewrite E'. apply drop_app_length'. rewrite length_take. lia.
Qed.

Lemma handle_means rule_name min_times max_times s p : forallb is_word_char rule_name = true -> parser_ok p -> countable (n_ids p + Z.to_nat MAX_REPETITION_THRESHOLD) -> seq_ok p s -> no_alt (last_symbol s) ->
  bounds_fit min_times max_times -> (min_times <= max_times)%Z -> last_symbol s <> [] -> (sq_prev s * total_rules min_times max_times < MAX_REPETITION_THRESHOLD)%Z ->
  exists s' p', handle_repetitions rule_name min_times max_times s p = (Ok s', p') /\ parser_ok p' /\ (forall i r, i < n_ids p -> rules p !! i = Some r -> rules p' !! i = Some r) /\
    sq_rule s' = take (sq_start s) (sq_rule s) ++ last_symbol s' /\
    forall rs tail w, keeps_new p p' rs -> fresh_tail tail ->
      derives rs (last_symbol s' ++ tail) w <-> exists k, (min_times <= Z.of_nat k)%Z /\ (max_times = UINT64_MAX \/ Z.of_nat k <= max_times)%Z /\ derives rs (concat (replicate k (last_symbol s)) ++ tail) w.
Proof.
  intros Hw Hp Hc Hs Hn Hb Hmm Hne Hlt. pose proof (total_fits _ _ Hb) as Ht. destruct Hs as [S1 S2 S3 S4]. assert (countable (n_ids p)) as Hc0 by (eapply countable_le; [|exact Hc]; lia). specialize (S4 Hc0). fold (last_symbol s) in S4.
  destruct (n_opt_fits _ _ Hb Hmm) as [En Hd].
  remember (n_opt min_times max_times) as opt eqn:Eopt. remember (max_times =? UINT64_MAX)%Z as no_max eqn:Enm. set (d := Z.to_nat opt).
  destruct (rec_rules_new rule_name (last_symbol s) no_max opt d repeat_fuel 0 0 p Hw Hp S4) as (p' & Er & Hn' & Hp' & Hnew & Hold); [eapply countable_le; [|exact Hc]; unfold repeat_fuel in Hd; lia|lia|lia|by left|lia|lia|].
  assert (u64 (sq_prev s * total_rules min_times max_times) = sq_prev s * total_rules min_times max_times)%Z as E64 by (apply u64_id; unfold UINT64_MAX, MAX_REPETITION_THRESHOLD in *; nia).
  assert (sq_start s <> length (sq_rule s)) as Hstart by (intros E; apply Hne; unfold last_symbol; by rewrite E, drop_all).
  destruct (repeated_rule s min_times opt (match d with 0 => 0 | S n => Z.of_nat (n_ids p + n) end) ltac:(unfold bounds_fit in Hb; lia) S1) as [R1 R2].
  eexists _, p'. split.
  { unfold handle_repetitions. rewrite <- Eopt, <- Enm, (proj2 (Nat.eqb_neq _ _) Hstart), E64, (proj2 (Z.ltb_lt _ _) Hlt), (proj2 (Z.leb_le 1 _)) by nia. cbn [negb]. do 2 (erewrite stx_bind_Ok by reflexivity). fold d (last_symbol s). erewrite stx_bind_Ok by exact Er. reflexivity. }
  split; [done|]. split; [done|]. assert (forall r st pr, last_symbol (mk_sequence r st pr) = drop st r) as El by done. rewrite !El. cbn [sq_rule]. cbn zeta in R1, R2. rewrite R1 in R2. rewrite R1, !R2. split; [done|]. intros rs tail w Hk Hf.
  assert (forall i, i < d -> rs !! (n_ids p + i) = Some (rec_rule true no_max 0 (n_ids p) i (last_symbol s))) as Hrs by (intros i Hi; apply Hk; [lia|by apply Hnew]).
  assert (if no_max then d = 1 else True) as Hd1 by (unfold d; rewrite En; by destruct no_max).
  pose proof (repeat_means rs (n_ids p) (last_symbol s) S4 Hn (Z.to_nat min_times) d (n_ids p) no_max tail w Hd1 Hf Hrs) as H.
  assert (times (last_symbol s) (Z.to_nat min_times) (if (0 <? opt)%Z then [mk_elem GRETYPE_RULE_REF match d with 0 => 0%Z | S n => Z.of_nat (n_ids p + n) end] else []) ++ tail
    = times (last_symbol s) (Z.to_nat min_times) (match d with 0 => [] | S d => [ref_to (n_ids p + d)] end ++ tail)) as Et.
  { unfold times. rewrite <- app_assoc. do 2 f_equal. destruct (Z.ltb_spec 0 opt), d eqn:Ed; try done; lia. }
  rewrite Et, H. unfold bounds_fit in Hb. split; intros (k & K1 & K2 & K3); exists k; (split; [lia|]); (split; [|exact K3]).
  - destruct K2 as [->|K2]; [left; symmetry in Enm; by apply Z.eqb_eq in Enm|]. destruct no_max; [left; symmetry in Enm; by apply Z.eqb_eq in Enm|right; lia].
  - destruct no_max; [by left|right]. symmetry in Enm. apply Z.eqb_neq in Enm. destruct K2 as [?|K2]; [done|lia].
Qed.
