(* ===== verification/GrammarParserProps.v ===== *)
(** * Grammars: properties of the text form

    Every text of bytes whose repetitions have their bounds in order gives an answer; the
    rules of one that passes are well-formed, a grammar built from it follows their
    language, and repetitions mean what they say. *)

From Stdlib Require Import String Ascii.
From stdpp Require Import gmap.
From S2P Require Import TailRequest GrammarParserLoop GrammarRepeat GrammarRepetitions GrammarApply GrammarProps.
Open Scope nat_scope.

(** ** Texts to try *)

(** A text, with ' for the double quote. *)
Definition gbnf (s : string) : text := (fun a => if bool_decide (a = "'"%char) then 34%Z else ch a) <$> lit s.

Definition newline : text := [10%Z].

Lemma byte_text_check s : forallb (fun c => (0 <? c)%Z && (c <? 256)%Z) s = true -> byte_text s.
Proof. intros H. apply Forall_forall. intros c Hc. rewrite forallb_forall in H. apply list_elem_of_In, H in Hc. lia. Qed.

(** ** What the parser leaves *)

(** C17: What the parser does with any text of bytes.  Either it gives an answer: it throws
    nothing out, and the rounds of its loops are bounded by the length of the text, those of
    a repetition by the threshold.  After an exception there are no rules; a text
    that passes leaves well-formed rules that construct without being changed, as long as
    there are not more symbols than an id counts (2^32 - 1).  Or the text has a repetition
    whose minimum is above its maximum, which nothing refuses, and the loop that generates
    its rules is out of rounds. *)
Theorem parse_gives_rules vocab src : byte_text src ->
  (exists ok p, parse vocab src (mk_parser ∅ []) = (Ok ok, p) /\ (ok = false -> rules p = []) /\
    (ok = true -> countable (n_ids p) -> rules_wf (rules p) /\ mapM copy_rule (rules p) = Ok (rules p) /\ refs_defined (rules p) = true)) \/
  has_reversed src /\ exists p, parse vocab src (mk_parser ∅ []) = (Err OutOfFuel, p).
Proof.
  intros Hb. destruct (parse_ok vocab src Hb) as [(ok & p & E & H1 & H2)|H]; [left|by right]. exists ok, p. split; [done|]. split; [done|]. intros Hok Hc. specialize (H2 Hok Hc).
  assert (rules_wf (rules p)) as Hwf by (eapply Forall_impl; [exact H2|]; apply closed_wf). split; [done|]. split; [|by apply refs_ok_defined, rules_wf_refs].
  by apply (copy_all_closed (length (rules p))).
Qed.

(** The construction from a text that passes. *)
Lemma text_settles vocab src root lazy patterns tokens p start : byte_text src -> parse vocab src (mk_parser ∅ []) = (Ok true, p) -> countable (n_ids p) -> no_self_start (rules p) ->
  symbol_ids p !! root = Some start -> Z.to_nat start < length (rules p) ->
  exists ss, settles (fun fuel => llama_grammar_init_text vocab fuel src root lazy patterns tokens) (Some (mk_grammar (rules p) ss (mk_partial 0 0) lazy lazy [] [] tokens patterns)) /\
    Forall (good (rules p)) ss /\ forall w, stacks_lang (rules p) ss w <-> rule_derives (rules p) (Z.to_nat start) w.
Proof.
  intros Hb E Hc Hns Hroot Hstart. pose proof (parse_passes vocab src p Hb E Hc) as H.
  assert (rules_wf (rules p)) as Hwf by (eapply Forall_impl; [exact H|]; apply closed_wf). pose proof (rules_wf_refs _ Hwf) as Hrefs.
  destruct (left_recursion_ok (rules p) (rules_wf_end_last _ Hwf) Hrefs) as ([|] & El & Hfound & _); [by destruct (Hfound eq_refl)|]. destruct (initial_settles (rules p) Hwf Hns _ Hstart) as (ss & (n & Hn) & Hg & Hw).
  exists ss. split; [|done]. exists n. intros fuel Hf. unfold llama_grammar_init_text. rewrite E. cbn [negb orb]. rewrite (proj2 (Nat.eqb_neq _ _)) by lia. rewrite Hroot, (copy_all_closed _ _ H).
  cbn [mbind outcome_bind]. rewrite El. cbn [mbind outcome_bind]. rewrite (Hn fuel Hf). done.
Qed.

(** C15: From the text of a grammar to the words it accepts.  When the text passes, no rule of
    it starts itself and the start symbol is one of the rules, the construction returns a
    grammar; accepting any characters returns, and leaves exactly the continuations of these
    characters in what the start symbol derives. *)
Theorem text_recognises vocab src root lazy patterns tokens p start cs : byte_text src -> parse vocab src (mk_parser ∅ []) = (Ok true, p) -> countable (n_ids p) -> no_self_start (rules p) ->
  symbol_ids p !! root = Some start -> Z.to_nat start < length (rules p) ->
  exists n, forall fuel, n <= fuel -> exists g stacks, llama_grammar_init_text vocab fuel src root lazy patterns tokens = Ok (Some g) /\ g_rules g = rules p /\
    foldM (llama_grammar_accept fuel (g_rules g)) cs (g_stacks g) = Ok stacks /\
    (forall w, stacks_lang (rules p) stacks w <-> rule_derives (rules p) (Z.to_nat start) (map Chr cs ++ w)) /\
    ([] ∈ stacks <-> rule_derives (rules p) (Z.to_nat start) (map Chr cs)).
Proof.
  intros Hb E Hc Hns Hroot Hstart. destruct (text_settles vocab src root lazy patterns tokens p start Hb E Hc Hns Hroot Hstart) as (ss & (n1 & H1) & Hg & Hw).
  assert (rules_wf (rules p)) as Hwf by (eapply Forall_impl; [exact (parse_passes vocab src p Hb E Hc)|]; apply closed_wf).
  destruct (accept_all (rules p) Hwf Hns cs ss Hg) as (ss' & (n2 & H2) & Hg' & Hw'). exists (n1 + n2). intros fuel Hf. eexists _, ss'. split; [apply H1; lia|]. cbn [g_rules g_stacks]. split; [done|]. split; [apply H2; lia|]. split.
  - intros w. by rewrite Hw', Hw.
  - rewrite <- (stacks_nil (rules p) Hwf) by done. by rewrite Hw', Hw, app_nil_r.
Qed.

(** ** Repetitions *)

(** C16: What handle_repetitions adds.  For bounds that are in order and not too large, the
    symbol before the operator is replaced by elements that derive it any number of times
    between the bounds, and nothing else: S S ... S'(n-m) derives what m to n times S
    derives, S S ... S' what m times or more derives.  This holds in front of anything that
    may follow, and for all rules that keep the generated ones.  The rules there were stay
    as they are. *)
Theorem repetitions_mean rule_name min_times max_times s p : forallb is_word_char rule_name = true -> parser_ok p -> countable (n_ids p + Z.to_nat MAX_REPETITION_THRESHOLD) -> seq_ok p s -> no_alt (last_symbol s) ->
  bounds_fit min_times max_times -> (min_times <= max_times)%Z -> last_symbol s <> [] -> (sq_prev s * total_rules min_times max_times < MAX_REPETITION_THRESHOLD)%Z ->
  exists s' p', handle_repetitions rule_name min_times max_times s p = (Ok s', p') /\ parser_ok p' /\ (forall i r, i < n_ids p -> rules p !! i = Some r -> rules p' !! i = Some r) /\
    sq_rule s' = take (sq_start s) (sq_rule s) ++ last_symbol s' /\
    forall rs tail w, keeps_new p p' rs -> fresh_tail tail ->
      derives rs (last_symbol s' ++ tail) w <-> exists k, (min_times <= Z.of_nat k)%Z /\ (max_times = UINT64_MAX \/ Z.of_nat k <= max_times)%Z /\ derives rs (concat (replicate k (last_symbol s)) ++ tail) w.
Proof. apply handle_means. Qed.

(** Bounds in the wrong order are not refused: the number of optional repetitions wraps. *)
Example reversed_bounds : parse_bounds false (gbnf "3,1}") = Ok (3%Z, 1%Z, []) /\ total_rules 3 1 = 1%Z /\ n_opt 3 1 = 18446744073709551614%Z.
Proof. vm_compute. done. Qed.

(** No result within the rounds given to the loop. *)
Definition spins {A} (m : stx llama_grammar_parser A) (p : llama_grammar_parser) : Prop := exists p', m p = (Err OutOfFuel, p').

Lemma spins_bind {A B} (m : stx llama_grammar_parser A) (k : A -> stx llama_grammar_parser B) p : spins m p -> spins (x ← m; k x) p.
Proof. intros [p' E]. exists p'. unfold mbind, stx_bind. by rewrite E. Qed.

Lemma spins_next {A B} (m : stx llama_grammar_parser A) (k : A -> stx llama_grammar_parser B) p a p1 : m p = (Ok a, p1) -> spins (k a) p1 -> spins (x ← m; k x) p.
Proof. intros E [p' H]. exists p'. by rewrite (stx_bind_Ok _ _ _ _ _ E). Qed.

(** The loop over the optional repetitions makes all its rounds: with fewer it has no result. *)
Lemma rec_rules_rounds rule_name prev no_max opt fuel : forall i last p, (Z.of_nat fuel < opt - i)%Z -> spins (rec_rules fuel i opt no_max rule_name prev last) p.
Proof.
  induction fuel as [|fuel IH]; intros i last p Hf; cbn [rec_rules]; rewrite (proj2 (Z.ltb_lt i opt)) by lia; [by exists p|].
  eapply spins_next; [reflexivity|]. eapply spins_next; [reflexivity|]. apply IH. lia.
Qed.

(** With bounds in the wrong order these are nearly 2^64. *)
Lemma reversed_rounds min_times max_times : (0 <= max_times < min_times)%Z -> (min_times <= MAX_REPETITION_THRESHOLD)%Z -> (UINT64_MAX - MAX_REPETITION_THRESHOLD < n_opt min_times max_times)%Z.
Proof.
  intros H1 H2. unfold n_opt, UINT64_MAX, MAX_REPETITION_THRESHOLD, u64 in *. destruct (Z.eqb_spec max_times 18446744073709551615); [lia|]. Z.to_euclidean_division_equations. lia.
Qed.

(** Whatever symbol they follow. *)
Lemma reversed_repetition rule_name min_times max_times s p : (0 <= max_times < min_times)%Z -> (min_times <= MAX_REPETITION_THRESHOLD)%Z -> sq_start s <> length (sq_rule s) ->
  (u64 (sq_prev s * total_rules min_times max_times) < MAX_REPETITION_THRESHOLD)%Z -> spins (handle_repetitions rule_name min_times max_times s) p.
Proof.
  intros H1 H2 Hs Hlt. pose proof (reversed_rounds _ _ H1 H2) as Hn. unfold handle_repetitions. rewrite (proj2 (Nat.eqb_neq _ _) Hs), (proj2 (Z.ltb_lt _ _) Hlt). do 2 (eapply spins_next; [reflexivity|]).
  apply spins_bind, rec_rules_rounds. unfold repeat_fuel, UINT64_MAX, MAX_REPETITION_THRESHOLD in *. lia.
Qed.

(** In a sequence, at the next symbol or after it. *)
Lemma sequence_spins vocab fuel name nested pos s p : pos <> [] -> (forall alternates, spins (parse_item vocab alternates name nested pos s) p) -> spins (parse_sequence vocab (S fuel) name nested pos s) p.
Proof. intros Hne H. cbn [parse_sequence]. rewrite bool_decide_eq_false_2 by done. by apply spins_bind. Qed.

Lemma sequence_passes vocab fuel name nested pos s p pos' s' p' : pos <> [] -> (forall alternates, parse_item vocab alternates name nested pos s p = (Ok (Some (pos', s')), p')) ->
  spins (parse_sequence vocab fuel name nested pos' s') p' -> spins (parse_sequence vocab (S fuel) name nested pos s) p.
Proof. intros Hne H Hs. cbn [parse_sequence]. rewrite bool_decide_eq_false_2 by done. by eapply spins_next. Qed.

Lemma alternates_spins vocab fuel name id nested pos rule p : spins (parse_sequence vocab fuel name nested pos (mk_sequence rule (length rule) 1)) p -> spins (parse_alternates vocab (S fuel) name id nested pos rule) p.
Proof. intros H. cbn [parse_alternates]. by apply spins_bind. Qed.

(** This text is not parsed. *)
Example reversed_text : spins (parse None (gbnf "root ::= 'a'{3,1}")) (mk_parser ∅ []).
Proof.
  assert (spins (parse_all None (gbnf "root ::= 'a'{3,1}")) (mk_parser ∅ [])) as [p E]; [|exists p; unfold parse; by rewrite E]. unfold parse_all. eassert (parse_space _ true = _) as -> by (vm_compute; reflexivity). cbn [length parse_rules]. apply spins_bind, spins_bind.
  unfold parse_rule. do 3 (eapply spins_next; [vm_compute; reflexivity|]). apply spins_bind. eassert (parse_fuel _ = _) as -> by (vm_compute; reflexivity). eassert (parse_space _ true = _) as -> by (vm_compute; reflexivity).
  apply alternates_spins. eapply sequence_passes; [done|intros alternates; vm_compute; reflexivity|].
  apply sequence_spins; [done|]. intros alternates. eapply (spins_next (stx_lift _)); [vm_compute; reflexivity|]. apply spins_bind, reversed_repetition; [done..|vm_compute; reflexivity].
Qed.

(** A maximum above the threshold is no maximum. *)
Example large_bound : parse_bounds false (gbnf "1,2001}") = Ok (1%Z, UINT64_MAX, []).
Proof. vm_compute. done. Qed.

(** ** Texts that pass and do not construct *)

(** A start symbol that is only mentioned in a rule that is defined again: there is no rule
    with its number. *)
Example start_out_of_range : llama_grammar_init_text None 50 (gbnf "x ::= root" ++ newline ++ gbnf "x ::= 'a'") (ch <$> lit "root") false [] [] = Err OutOfBounds.
Proof. vm_compute. done. Qed.

(** The rules of the hidden left recursion, as a text. *)
Example hidden_text : rules (parse None (gbnf "s ::= ws s 'x' | 'y'" ++ newline ++ gbnf "ws ::= ()") (mk_parser ∅ [])).2 = hidden_rules.
Proof. vm_compute. done. Qed.

(** A token id that does not fit keeps its low 32 bits. *)
Example token_id_truncated : parse_token None (gbnf "<[4294967301]>") = Ok (5%Z, []).
Proof. vm_compute. done. Qed.

(** ** Witnesses *)

Definition demo_text : text := gbnf "root ::= sign num" ++ newline ++ gbnf "sign ::= '-'?" ++ newline ++ gbnf "num ::= [0-9]+ # digits" ++ newline.
Definition demo_parsed : llama_grammar_parser := (parse None demo_text (mk_parser ∅ [])).2.

Example demo_parses : rules demo_parsed = demo_rules.
Proof. vm_compute. done. Qed.

Lemma demo_bytes : byte_text demo_text.
Proof. apply byte_text_check. vm_compute. reflexivity. Qed.

Lemma demo_passes : parse None demo_text (mk_parser ∅ []) = (Ok true, demo_parsed).
Proof.
  assert (forall r : outcome bool * llama_grammar_parser, r.1 = Ok true -> r = (Ok true, r.2)) as H by (by intros [r1 r2] [= ->]). apply H. vm_compute. reflexivity.
Qed.

Lemma demo_countable : countable (n_ids demo_parsed).
Proof. vm_compute. discriminate. Qed.

Lemma parse_gives_rules_witness :
  (exists ok p, parse None demo_text (mk_parser ∅ []) = (Ok ok, p) /\ (ok = false -> rules p = []) /\
    (ok = true -> countable (n_ids p) -> rules_wf (rules p) /\ mapM copy_rule (rules p) = Ok (rules p) /\ refs_defined (rules p) = true)) \/
  has_reversed demo_text /\ exists p, parse None demo_text (mk_parser ∅ []) = (Err OutOfFuel, p).
Proof. apply (parse_gives_rules None demo_text). exact demo_bytes. Defined.

Lemma text_recognises_witness : exists n, forall fuel, n <= fuel -> exists g stacks, llama_grammar_init_text None fuel demo_text (ch <$> lit "root") true [] [7%Z] = Ok (Some g) /\ g_rules g = rules demo_parsed /\
    foldM (llama_grammar_accept fuel (g_rules g)) [45%Z; 52%Z] (g_stacks g) = Ok stacks /\
    (forall w, stacks_lang (rules demo_parsed) stacks w <-> rule_derives (rules demo_parsed) (Z.to_nat 0) (map Chr [45%Z; 52%Z] ++ w)) /\
    ([] ∈ stacks <-> rule_derives (rules demo_parsed) (Z.to_nat 0) (map Chr [45%Z; 52%Z])).
Proof.
  apply (text_recognises None demo_text (ch <$> lit "root") true [] [7%Z] demo_parsed 0 [45%Z; 52%Z]); [exact demo_bytes|exact demo_passes|exact demo_countable|rewrite demo_parses; apply demo_sound|vm_compute; reflexivity|rewrite demo_parses; vm_compute; lia].
Defined.

(** x ::= "a" [0-9]{2,4} after one symbol x. *)
Definition demo_seq : sequence := mk_sequence [mk_elem GRETYPE_CHAR 97; mk_elem GRETYPE_CHAR 48; mk_elem GRETYPE_CHAR_RNG_UPPER 57] 1 1.
Definition demo_state : llama_grammar_parser := (get_symbol_id (gbnf "x") (mk_parser ∅ [])).2.

Lemma demo_state_ok : parser_ok demo_state /\ seq_ok demo_state demo_seq.
Proof.
  pose proof (get_symbol_ok (R := False) (gbnf "x") _ eq_refl parser_starts) as H. unfold runs in H. assert (get_symbol_id (gbnf "x") (mk_parser ∅ []) = (Ok 0%Z, demo_state)) as E by (vm_compute; reflexivity). rewrite E in H. destruct H as [[H _] _].
  assert (countable (n_ids demo_state)) as Hc by (vm_compute; discriminate). split; [by apply H|]. split; [vm_compute; lia|vm_compute; split; discriminate| |]; intros _.
  - by apply frag_one_class.
  - by apply (frag_class _ [(mk_elem GRETYPE_CHAR 48, Some (mk_elem GRETYPE_CHAR_RNG_UPPER 57))] []); [repeat split|apply frag_nil].
Qed.

Lemma repetitions_mean_witness : exists s' p', handle_repetitions (gbnf "x") 2 4 demo_seq demo_state = (Ok s', p') /\ parser_ok p' /\ (forall i r, i < n_ids demo_state -> rules demo_state !! i = Some r -> rules p' !! i = Some r) /\
    sq_rule s' = take (sq_start demo_seq) (sq_rule demo_seq) ++ last_symbol s' /\
    forall rs tail w, keeps_new demo_state p' rs -> fresh_tail tail ->
      derives rs (last_symbol s' ++ tail) w <-> exists k, (2 <= Z.of_nat k)%Z /\ (4 = UINT64_MAX \/ Z.of_nat k <= 4)%Z /\ derives rs (concat (replicate k (last_symbol demo_seq)) ++ tail) w.
Proof.
  apply (repetitions_mean (gbnf "x") 2 4 demo_seq demo_state); [vm_compute; reflexivity|apply demo_state_ok|vm_compute; discriminate|apply demo_state_ok|repeat constructor; discriminate|split; [split; discriminate|left; split; discriminate]|discriminate|discriminate|reflexivity].
Defined.
